(* ===== verification/_CoqProject ===== *)
-Q . S2P
Prelude.v
Algebra.v
Tags.v
Wire.v
Response.v
Authority.v
Bytes.v
ClientCodec.v
ServerCodec.v
ServerRoundTrip.v
FrameCodec.v
Order.v
Sequence.v
Incarnation.v
Edge.v
Binding.v
Observer.v
ObserverSource.v
ObserverLog.v
ObserverRuns.v
EdgeSteps.v
Member.v
Detach.v
Leave.v
Attach.v
Lookup.v
Capacity.v
Reissue.v
Slot.v
Requests.v
Closure.v
Cursor.v
AckOperations.v
Frontier.v
FrontierNumeric.v
FrontierLive.v
RecordProjection.v
RecordOperations.v
FrontierInit.v
EnrollmentClosure.v
EnrollmentOperation.v
FrontierRestore.v
FrontierLeave.v
LiveOwner.v
OwnerFate.v
FrontierInv.v
FrontierRuns.v
ProjectionRuns.v
ProjectionCharges.v
EnrollmentRuns.v
LeaveRuns.v
OwnerInv.v
OwnerRuns.v
OwnerAccounting.v
OwnerSample.v
OwnerProgress.v
EventCodec.v
Shell.v
Dispatch.v
OutboxCodec.v
Outbox.v
OutboxStore.v
OutboxRuns.v
OutboxLedger.v
Client.v
Correlation.v
Inbound.v
Resume.v
ResumeCodec.v
ClientInv.v
ClientRuns.v
ClientSafety.v
