(* ===== verification/Prelude.v ===== *)
(** * Liminal participant protocol: verification development

    This library models and verifies the core of the [liminal-protocol] crate
    (src/crates/liminal-protocol/src), the pure protocol layer that the liminal
    server and SDK share.  The crate has no I/O: it defines the wire values of the
    participant protocol, their binary codec, the checked arithmetic of resource
    capacity, the lifecycle rules by which a conversation hands out orders, delivery
    sequences and connection incarnations, retains and compacts its rows and accepts
    acknowledgements, and the state machine of the client.  Of the server it models
    the owner of observer recovery with its row log and the delivery outbox with its log.

    ** Parts of the program and the files that model them

    - [Prelude] (this file): machine integers, results, tactics and hints.
    - [Algebra]: algebra/types.rs, capacity.rs and floor.rs.  Resource vectors, the
      retained baseline, zero-debt admission, mandatory debt, recovery transfer and
      the physical floor.
    - [Tags]: the closed [u16] registries of wire/tags.rs, as one type class.
    - [Wire]: wire/primitives.rs, request.rs, envelope.rs and push.rs.
    - [Response]: wire/response.rs, closure.rs and sequence_budget.rs: the server
      values with their fallible constructors, and their well-formedness.
    - [Authority]: wire/authority, one response type per request.
    - [Bytes]: the sinks and readers of wire/codec.rs and server_codec.rs.  Encoders
      are generic in a [Sink] (the sizing sink and the buffer writer of the source
      are its instances); decoders are functions of a reader state that carries the
      position and the deferred invalid-field flag.
    - [ClientCodec]: bodies of client requests and server pushes (wire/codec.rs).
    - [ServerCodec], [ServerRoundTrip]: every row of wire/server_codec.rs in both
      directions, and the proofs about it.
    - [FrameCodec]: [encoded_len], [encode], [decode] and the inbound gate
      [gate_inbound] of wire/codec.rs.
    - [Order], [Sequence]: lifecycle/admission/order.rs and sequence.rs, the ledgers
      of transaction-order majors and delivery sequences with their reserved claims.
    - [Incarnation]: lifecycle/incarnation.rs, the durable connection-incarnation
      allocator.
    - [Observer]: lifecycle/observer_recovery.rs, the tracked progress and the arms.
    - [ObserverSource], [ObserverLog], [ObserverRuns]: the observer owner of the server
      (liminal-server/src/server/participant/production): the recorded sources, the row
      log over an abstract durable store, both handlers, and every sequence of them.
    - [Edge], [EdgeSteps]: lifecycle/edge.rs, debt and the stored repayment edges; the
      events, authorities and transitions of the edges and the step relation they form.
    - [Binding]: lifecycle/binding.rs, active bindings, their committed and pending
      terminals, the transition of each close cause and the restart from it.
    - [Member], [Leave]: lifecycle/membership.rs, live members and tombstones; the
      Leave transactions.  [LeaveFrontier] is what Leave asks of the claim frontiers.
    - [Detach]: lifecycle/detach.rs, the detach cell and its transactions.
    - [Attach]: lifecycle/enrollment.rs, attach.rs and binding_fate.rs.
    - [Lookup]: lifecycle/lookup.rs, the classification of every request.
    - [Reissue]: the data, receipt predicates and installer of the operator's credential
      re-issue (liminal-server/src/health/reissue.rs, ops_reissue.rs).
    - [Slot]: these transactions composed over the member, binding and detach cell of
      one identity, with the crash, connection-fate, terminal-drain and re-issue steps
      of the server (liminal-server/src/server/participant), and the abstract
      participant machine they implement; [Requests]: how the lookups and the transactions fit together.
    - [Closure]: lifecycle/closure_accounting.rs and the observer and record-size
      selectors of lifecycle/admission; [Capacity]: its receipt, identity and
      connection capacity.
    - [Cursor]: lifecycle/cursor_facts.rs, cumulative acknowledgements in an episode
      of nonzero debt; [AckOperations]: the acknowledgement operations of
      lifecycle/operations over it and over the members.
    - [Frontier], [FrontierNumeric], [FrontierLive], [FrontierInit], [FrontierRestore],
      [FrontierLeave]: lifecycle/claim_frontier.rs with its module, who owns which
      reserved sequence and order, which rows and markers are retained, and how each
      transition lays them out again.  [claim_leave] is the instance of [LeaveFrontier].
      [FrontierInv] states the invariant, [FrontierRuns] and [LeaveRuns] that it is kept.
    - [EnrollmentClosure], [EnrollmentOperation]: lifecycle/enrollment_closure.rs and
      operations/enrollment_operation.rs, the first enrollment; [EnrollmentRuns]: that it
      succeeds.
    - [RecordProjection], [RecordOperations]: ordinary_record_projection.rs,
      record_admission.rs and marker_drain.rs of lifecycle/operations; [ProjectionRuns],
      [ProjectionCharges]: what the search finds and what its sums add up to.
    - [LiveOwner], [OwnerFate]: live_frontier.rs with its modules, binding_terminal.rs
      and binding_fate.rs of lifecycle/operations: frontiers, closure accounting and row
      charges as one value, and every operation over it.  [OwnerInv] and [OwnerRuns]: its
      invariant along every run; [OwnerAccounting]: its books; [OwnerSample]: a concrete
      conversation; [OwnerProgress]: the theorems.
    - [EventCodec], [Shell]: lifecycle/operation_event.rs and conversation_codec.rs, the
      typed operations and the bytes of their events; conversation.rs and
      aggregate_commit.rs, the event-sourced shell that selects an event, waits for its
      append and replays the log.
    - [Dispatch]: lifecycle/obligation_dispatch.rs, the live owner coupled with the episode
      of its debt and the delivery decision, with the part of the server's
      production/state.rs that takes and installs it.
    - [OutboxCodec], [Outbox], [OutboxStore]: the server's delivery outbox (production/
      outbox_log.rs with its codec, outbox.rs with limits.rs, selection.rs and
      validation.rs): the rows, the owner of the delivery obligations of a conversation,
      and the log with its restore cursor.  [OutboxRuns]: its invariant and the effect of
      each row; [OutboxLedger]: the ledger that specifies it and the theorems.
    - [Client], [Correlation], [Inbound], [Resume]: client.rs and client/: the client
      aggregate, the correlation of answers, the inbound handler and the durable resume
      record.  [ResumeCodec], [ClientInv], [ClientRuns], [ClientSafety]: their proofs.

    They interact as in the source: the gates of [Closure] answer with values of
    [Response] that [ServerCodec] encodes and [FrameCodec] frames; [Cursor] moves the
    floor with [floor_transition] of [Algebra]; the ledgers answer with the
    exhaustion values of [Response]; [Attach] hands the authority over a binding it
    installs to the fates of [EdgeSteps].  [LiveOwner] runs each transition of [Slot]'s
    lifecycle over the frontiers ([FrontierLive], [FrontierLeave]) and keeps the
    accounting of [Closure] in step; [RecordOperations] projects a record over that
    owner; [Dispatch] keeps the episode of [Cursor] beside that owner; [Shell] records what
    [Slot]'s transactions and the acknowledgements commit; [Outbox] hands [Cursor] the
    obligations an acknowledgement may name and measures its records with [FrameCodec];
    [ObserverLog] drives [Observer] through the row log; the client answers with and to the values of [Wire] and [Response].

    ** Conventions

    A Rust integer is a [Z]; [u64 x] and the like say that it is in range.  Checked
    operations return [option]; the bare operators of the source are wrapping
    operations ([add_u64], [add_u128], ...), and the theorems show where they are
    exact.  [Result] is [result], the [?] operator is [let?].  A method that takes
    [&mut self] returns the state it leaves next to its result; a method that
    consumes its argument returns the new value.  [wf_*] and [*_ok] predicates are
    the type ranges and the conditions that private constructors enforce; each is
    shown to be established by the constructors and kept by the operations.
    [usize] is 64 bits wide.

    ** What the theorems show

    - Codec: what [encode] writes, [decode] reads back; what [decode] accepts is
      exactly what [encode] writes (canonical, in both directions and for every
      registry row); encoders fail exactly as their sizing pass; the gate accepts
      exactly the right frames and refuses oversized ones from the header.
    - Ledgers: majors and sequences are consecutive, never overflow, and what is
      reserved for recovery is always still available (recovery is total).
    - Incarnations: allocation terminates, is fresh, and no incarnation is issued
      twice over any sequence of allocations and restarts.
    - Algebra: the wide formulas equal their unbounded counterparts, duplicated
      checks coincide, transfers conserve, floors are greatest and stable.
    - Closure: which requests each gate admits, that plans cover every successor,
      and that a refusal reaches the client unchanged.
    - Edges: recovery authority has provenance, dead ends are left only by Leave,
      successors advance, markers are never compacted away, and a recovered binding
      that dies is released.
    - Participant lifecycle: the slot of an identity keeps its invariant and refines
      the abstract participant; its durable fields restore; a rotated credential is
      fenced everywhere; what a lookup authorizes the transaction commits; waiting
      does not change the result of a detach; stored requests replay.
    - Claim frontiers and the live owner: both counters own exactly the reserve of
      their ledgers along every run; a record moves the floor the least that makes room
      and tells every member it passes; refusals change nothing; the stored books are
      those of the retained rows as long as no member leaves after acknowledging its
      retained marker, and admission then never faults on them; that Leave itself is
      refused, or takes the anchor of another member and stops admission.
    - First enrollment: it commits over every valid configuration and opens an owner
      that satisfies the invariant.
    - Events and the shell: the bytes of an event are canonical; over every sequence of
      appends, failures, stops and restarts the log replays to the live shell; every
      committed operation has an event the decoder reads back.
    - Debt dispatch: frontier and episode never part, an acknowledgement under debt always
      installs, delivery is permitted exactly when it may be; and a debt, once owed, is
      never repaid by any operation of the owner.
    - Delivery outbox: the bytes of a row are canonical and the log gives back the rows
      appended to it; the owner is the ledger of its rows (counters, charge, recipients and
      selections); a refused row changes nothing; what is offered is what may be
      acknowledged, and such an acknowledgement is accepted and settles just that.
    - Observer recovery: no wake-up is lost; the durable rows replay to the live owner
      over every sequence of operations, store failures and restarts.
    - Client: every reachable state persists and restores; one authority per operation;
      a server value moves the client only as the answer of its request.
    - Acknowledgements: the exact effect on every branch, monotone runs, restart and
      reconciliation give back a valid episode, the durable bytes determine it.

    ** Bounds and fuel

    [allocate_loop] runs the unbounded loop of [allocate_connection_incarnation] on
    fuel; [allocation_total] shows that one more than the number of references is
    enough.  [bisect] and [bisect_by] halve a list, their fuel is one more than its
    length.  [search_loop], the search for a retained floor, has one round for every
    retained row and two more; [search_spec] and [projection_decides] show that it ends
    within them.  [log_restore] reads one page more than there are rows, [drain]
    and [validate_all] of [OutboxStore] take one round more ([outbox_log_restarts]).  All other
    recursion is structural.

    ** Not modelled

    The planners and constructors compiled only for tests; formatting and [Debug]
    output; the restore of stored binding and fate fields (storage.rs of lifecycle/); the
    liminal, liminal-server and liminal-sdk crates, which perform the I/O around this
    core, except the observer owner, the debt owner, the delivery outbox and the slot steps
    named above (the merge of the outbox rows with the operation log of
    outbox_replay.rs and the projection of operations into rows are left out).  [Cursor] reads the claim
    frontiers through a record of the four accessors it uses, [EdgeSteps] the marker
    candidate and the marker record likewise. *)
From Stdlib Require Export ZArith Lia.
From stdpp Require Export prelude.

Declare Scope liminal_scope.
Delimit Scope liminal_scope with liminal.
#[global] Open Scope liminal_scope.
#[global] Open Scope Z_scope.

(** ** Machine integers

    Rust integers are modelled by [Z]; the range of the Rust type is the
    predicate of the same name.  [checked_add] and friends return [option] as
    in Rust; the bare [+], [-] and [*] of the source are the wrapping
    operations [add_uN], [sub_uN] and [mul_uN] (a release build wraps, a debug
    build panics), and the theorems show where they are exact. *)

Definition u8_max : Z := 255.
Definition u16_max : Z := 65535.
Definition u32_max : Z := 4294967295.
Definition u64_max : Z := 18446744073709551615.
Definition u128_max : Z := 340282366920938463463374607431768211455.
(** Targets of the server and SDK crates are 64-bit. *)
Definition usize_max : Z := u64_max.

Definition u8 (x : Z) : Prop := 0 <= x <= u8_max.
Definition u16 (x : Z) : Prop := 0 <= x <= u16_max.
Definition u32 (x : Z) : Prop := 0 <= x <= u32_max.
Definition u64 (x : Z) : Prop := 0 <= x <= u64_max.
Definition u128 (x : Z) : Prop := 0 <= x <= u128_max.

(** Decides the range on concrete values, for witnesses and checks. *)
Definition in_range (max x : Z) : bool := (0 <=? x) && (x <=? max).

Definition checked_add (max a b : Z) : option Z :=
  if a + b <=? max then Some (a + b) else None.
Definition checked_mul (max a b : Z) : option Z :=
  if a * b <=? max then Some (a * b) else None.
Definition saturating_sub (a b : Z) : Z := Z.max 0 (a - b).
Definition wrap (max x : Z) : Z := x mod (max + 1).
Definition add_u64 (a b : Z) : Z := wrap u64_max (a + b).
Definition sub_u64 (a b : Z) : Z := wrap u64_max (a - b).
Definition add_u128 (a b : Z) : Z := wrap u128_max (a + b).
Definition sub_u128 (a b : Z) : Z := wrap u128_max (a - b).
Definition mul_u128 (a b : Z) : Z := wrap u128_max (a * b).
(** [u128::from(b)] for a [bool]. *)
Definition of_bool (b : bool) : Z := if b then 1 else 0.

Ltac unfold_ranges :=
  unfold u8, u16, u32, u64, u128, usize_max, u8_max, u16_max, u32_max, u64_max, u128_max in *.

(** Linear arithmetic over machine ranges. *)
Ltac mlia := unfold_ranges; lia.

(** Discharges ranges and comparisons of concrete numbers. *)
Ltac ground :=
  repeat match goal with |- _ /\ _ => split end;
  first [ reflexivity | exact I | by vm_compute | vm_compute; intuition discriminate ].

(** Reflects the boolean comparisons of the code into propositions. *)
Ltac breflect :=
  repeat match goal with
    | H : _ && _ = true |- _ => apply andb_prop in H as [? ?]
    | H : _ && _ = false |- _ => apply andb_false_iff in H
    | H : _ || _ = false |- _ => apply orb_false_elim in H as [? ?]
    | H : negb _ = true |- _ => apply negb_true_iff in H
    | H : negb _ = false |- _ => apply negb_false_iff in H
    | H : (_ <? _) = true |- _ => apply Z.ltb_lt in H
    | H : (_ <? _) = false |- _ => apply Z.ltb_ge in H
    | H : (_ <=? _) = true |- _ => apply Z.leb_le in H
    | H : (_ <=? _) = false |- _ => apply Z.leb_gt in H
    | H : (_ =? _) = true |- _ => apply Z.eqb_eq in H
    | H : (_ =? _) = false |- _ => apply Z.eqb_neq in H
    end.

(** The same, and the boolean decisions of equality. *)
Ltac dreflect :=
  repeat (breflect; match goal with
    | H : bool_decide _ = true |- _ => apply bool_decide_eq_true in H
    | H : bool_decide _ = false |- _ => apply bool_decide_eq_false in H
    end); breflect.

(** Splits on the condition of every [if] and the scrutinee of every [match]
    of the goal, keeping the equations. *)
Ltac csplit :=
  repeat match goal with
    | |- context [if ?b then _ else _] => destruct b eqn:?
    | |- context [match ?x with _ => _ end] => destruct x eqn:?
    end.

(** The same on a hypothesis. *)
Ltac csplit_in H :=
  repeat match type of H with
    | context [if ?b then _ else _] => destruct b eqn:?; simplify_eq
    | context [match ?x with _ => _ end] => destruct x eqn:?; simplify_eq
    end.

(** Decides the guards of a goal [c = Ok v] with the hypotheses at hand. *)
Ltac guards :=
  repeat first
    [ rewrite Z.eqb_refl | rewrite bool_decide_true by done
    | match goal with
      | H : ?a < ?b |- context [?b <=? ?a] => rewrite (proj2 (Z.leb_gt b a) H)
      | H : ?a < ?b |- context [?a <? ?b] => rewrite (proj2 (Z.ltb_lt a b) H)
      | H : ?a <= ?b |- context [?b <? ?a] => rewrite (proj2 (Z.ltb_ge b a) H)
      end ]; simpl.

Lemma in_range_true max x : in_range max x = true <-> 0 <= x <= max.
Proof. unfold in_range. rewrite andb_true_iff, !Z.leb_le. done. Qed.

Lemma wrap_exact max x : 0 <= x <= max -> wrap max x = x.
Proof. intros ?. apply Z.mod_small. lia. Qed.

Lemma wrap_range max x : 0 <= max -> 0 <= wrap max x <= max.
Proof. intros ?. pose proof (Z.mod_pos_bound x (max + 1)). unfold wrap. lia. Qed.

Lemma add_u128_exact a b : 0 <= a + b <= u128_max -> add_u128 a b = a + b.
Proof. apply wrap_exact. Qed.
Lemma sub_u128_exact a b : 0 <= a - b <= u128_max -> sub_u128 a b = a - b.
Proof. apply wrap_exact. Qed.
Lemma mul_u128_exact a b : 0 <= a * b <= u128_max -> mul_u128 a b = a * b.
Proof. apply wrap_exact. Qed.
Lemma add_u64_exact a b : 0 <= a + b <= u64_max -> add_u64 a b = a + b.
Proof. apply wrap_exact. Qed.
Lemma sub_u64_exact a b : 0 <= a - b <= u64_max -> sub_u64 a b = a - b.
Proof. apply wrap_exact. Qed.

Lemma checked_add_Some max a b c :
  checked_add max a b = Some c <-> c = a + b /\ a + b <= max.
Proof. unfold checked_add. csplit; breflect; split; intros; simplify_eq; intuition (try congruence; lia). Qed.

Lemma checked_add_None max a b : checked_add max a b = None <-> max < a + b.
Proof. unfold checked_add. csplit; breflect; split; intros; try done; lia. Qed.

Lemma checked_add_exact max a b : a + b <= max -> checked_add max a b = Some (a + b).
Proof. intros. by apply checked_add_Some. Qed.

(** A chain of checked additions of naturals is one checked addition. *)
Lemma checked_add_bind {A} max a b c (k : Z -> option A) : 0 <= c ->
  (r ← checked_add max a b; r' ← checked_add max r c; k r')
  = (r ← checked_add max a (b + c); k r).
Proof.
  intros ?. unfold checked_add. rewrite !Z.add_assoc.
  destruct (Z.leb_spec (a + b) max); simpl; rewrite ?Z.add_assoc; [done|].
  destruct (Z.leb_spec (a + b + c) max); [lia|done].
Qed.

Lemma checked_add_chain max a b c : 0 <= c ->
  (r ← checked_add max a b; checked_add max r c) = checked_add max a (b + c).
Proof.
  intros ?. unfold checked_add. rewrite !Z.add_assoc.
  destruct (Z.leb_spec (a + b) max); simpl; [done|].
  destruct (Z.leb_spec (a + b + c) max); [lia|done].
Qed.

(** Every product of two [u64] values fits [u128]. *)
Lemma u64_mul_bound a b : u64 a -> u64 b -> 0 <= a * b <= u64_max * u64_max.
Proof.
  unfold u64. intros [? ?] [? ?]. split; [by apply Z.mul_nonneg_nonneg|].
  by apply Z.mul_le_mono_nonneg.
Qed.

Lemma of_bool_range b : 0 <= of_bool b <= 1.
Proof. destruct b; simpl; lia. Qed.

Create HintDb mach discriminated.
Create Rewrite HintDb mach.
#[export] Hint Rewrite add_u128_exact sub_u128_exact mul_u128_exact
  add_u64_exact sub_u64_exact using mlia : mach.
#[export] Hint Resolve of_bool_range u64_mul_bound : mach.

(** ** Results

    [Result<T, E>] of the source.  [let?] is the [?] operator. *)
Inductive result (A E : Type) : Type :=
| Ok (a : A)
| Err (e : E).
Arguments Ok {A E} a.
Arguments Err {A E} e.

(** Inverts a hypothesis [c = Ok v] or [c = Some v] through the checks of [c]. *)
Ltac ok_inv H :=
  csplit_in H;
  repeat match goal with
    | E : ?l = Ok _ |- _ =>
        match l with context [match ?x with _ => _ end] => destruct x eqn:?; simplify_eq end
    | E : ?l = Some _ |- _ =>
        match l with context [match ?x with _ => _ end] => destruct x eqn:?; simplify_eq end
    end;
  dreflect; simplify_eq/=.

Notation "'let?' x ':=' c 'in' k" :=
  (match c with Ok x => k | Err e => Err e end)
  (at level 10, x pattern, c at level 100, k at level 200) : liminal_scope.

(** [Option::ok_or]. *)
Definition ok_or {A E} (o : option A) (e : E) : result A E :=
  match o with Some a => Ok a | None => Err e end.

(** [Result::ok]. *)
Definition ok {A E} (r : result A E) : option A :=
  match r with Ok a => Some a | Err _ => None end.

(** Inverts the binds of a hypothesis [c = Some v]. *)
Ltac bind_inv H :=
  repeat match type of H with
    | context [ok ?r ≫= _] => let E := fresh "E" in destruct r eqn:E; simpl in H; [|done]
    | context [?o ≫= _] => let E := fresh "E" in destruct o eqn:E; simpl in H; [|done]
    end.

Definition is_ok {A E} (r : result A E) : bool :=
  match r with Ok _ => true | Err _ => false end.

(** [Result::map_err]. *)
Definition map_err {A E F} (f : E -> F) (r : result A E) : result A F :=
  match r with Ok a => Ok a | Err e => Err (f e) end.

(** Two results that agree on success and on whether they fail; the error
    value is forgotten. *)
Definition result_agree {A E} (r1 r2 : result A E) : Prop :=
  match r1, r2 with
  | Ok a, Ok b => a = b
  | Err _, Err _ => True
  | _, _ => False
  end.

#[export] Instance result_agree_equivalence {A E} : Equivalence (@result_agree A E).
Proof.
  split.
  - by intros [?|?].
  - intros [?|?] [?|?]; simpl; congruence.
  - intros [?|?] [?|?] [?|?]; simpl; try done; congruence.
Qed.

Lemma result_agree_Ok {A E} (r : result A E) a : result_agree r (Ok a) -> r = Ok a.
Proof. destruct r; simpl; [congruence | done]. Qed.

Lemma ok_or_Ok {A E} (o : option A) (e : E) a : ok_or o e = Ok a <-> o = Some a.
Proof. destruct o; simpl; split; congruence. Qed.

(** [Option::is_some] and [Option::is_none]. *)
Definition is_some {A} (o : option A) : bool := match o with Some _ => true | None => false end.
Definition is_none {A} (o : option A) : bool := negb (is_some o).

Lemma is_some_false {A} (o : option A) : is_some o = false -> o = None.
Proof. by destruct o. Qed.
