(* ===== verification/Algebra.v ===== *)
(** * Resource algebra

    Model of [liminal-protocol/src/algebra]: resource vectors ([types.rs]), the
    retained-baseline, zero-debt, mandatory-debt and recovery-transfer formulas
    ([capacity.rs]) and the physical-floor rules ([floor.rs]).  [u64] operands
    are widened to [u128] before any arithmetic, so the theorems compare each
    formula with its unbounded counterpart. *)
From S2P Require Import Prelude.

(** ** types.rs *)

Record ResourceVector := mkRV { rv_entries : Z; rv_bytes : Z }.
Record WideResourceVector := mkWRV { wrv_entries : Z; wrv_bytes : Z }.

Definition rv_ok (v : ResourceVector) : Prop := u64 (rv_entries v) /\ u64 (rv_bytes v).
Definition wrv_ok (v : WideResourceVector) : Prop := u128 (wrv_entries v) /\ u128 (wrv_bytes v).

(** [value as u128], lossless on [u64]. *)
Definition widen_u64 (value : Z) : Z := value.

Definition widen (v : ResourceVector) : WideResourceVector :=
  mkWRV (widen_u64 (rv_entries v)) (widen_u64 (rv_bytes v)).

Definition is_zero (v : WideResourceVector) : bool :=
  (wrv_entries v =? 0) && (wrv_bytes v =? 0).

Inductive ResourceDimension := Entries | Bytes.

Inductive BaselineError :=
| MarkerCreditsExceedIdentitySlots (identity_slots marker_credits : Z).

Record MandatoryCapacity := mkMandatoryCapacity {
  debt : WideResourceVector;
  absolute_fit : bool;
  debt_within_mandatory_bound : bool;
}.

Definition is_legal (m : MandatoryCapacity) : bool :=
  absolute_fit m && debt_within_mandatory_bound m.

Record RecoveryTransfer := mkRecoveryTransfer {
  rt_baseline : WideResourceVector;
  rt_remaining_recovery_claim : ResourceVector;
}.

Record RecoveryTransferError := mkRecoveryTransferError { rte_dimension : ResourceDimension }.

Record FloorComputation := mkFloorComputation {
  member_cursor : Z;
  preferred_floor : Z;
  resulting_floor : Z;
}.

(** ** capacity.rs *)

Definition retained_baseline (retained_charge : ResourceVector)
    (identity_slots marker_credits : Z) (marker_max : ResourceVector)
    : result WideResourceVector BaselineError :=
  if identity_slots <? marker_credits then
    Err (MarkerCreditsExceedIdentitySlots identity_slots marker_credits)
  else
    let uncredited_slots := sub_u128 (widen_u64 identity_slots) (widen_u64 marker_credits) in
    let marker_entries := mul_u128 uncredited_slots (widen_u64 (rv_entries marker_max)) in
    let marker_bytes := mul_u128 uncredited_slots (widen_u64 (rv_bytes marker_max)) in
    Ok (mkWRV (add_u128 (widen_u64 (rv_entries retained_charge)) marker_entries)
              (add_u128 (widen_u64 (rv_bytes retained_charge)) marker_bytes)).

Definition component_fits (baseline q k cap : Z) : bool :=
  match checked_add u128_max baseline (widen_u64 q) with
  | None => false
  | Some with_q =>
      match checked_add u128_max with_q (widen_u64 k) with
      | None => false
      | Some required => required <=? widen_u64 cap
      end
  end.

Definition zero_debt_capacity_failure (baseline : WideResourceVector)
    (mandatory_bound recovery_claim configured_cap : ResourceVector)
    : option ResourceDimension :=
  if negb (component_fits (wrv_entries baseline) (rv_entries mandatory_bound)
             (rv_entries recovery_claim) (rv_entries configured_cap))
  then Some Entries
  else if negb (component_fits (wrv_bytes baseline) (rv_bytes mandatory_bound)
             (rv_bytes recovery_claim) (rv_bytes configured_cap))
  then Some Bytes
  else None.

Definition zero_debt_admission (baseline : WideResourceVector)
    (mandatory_bound recovery_claim configured_cap : ResourceVector) : bool :=
  match zero_debt_capacity_failure baseline mandatory_bound recovery_claim configured_cap with
  | None => true
  | Some _ => false
  end.

Record MandatoryComponent := mkMandatoryComponent {
  mc_debt : Z;
  mc_absolute_fit : bool;
  mc_debt_within_bound : bool;
}.

Definition mandatory_component (baseline q k cap : Z) : MandatoryComponent :=
  let q := widen_u64 q in
  let k := widen_u64 k in
  let cap := widen_u64 cap in
  let debt :=
    match checked_add u128_max baseline q with
    | Some with_q =>
        match checked_add u128_max with_q k with
        | Some required => saturating_sub required cap
        | None => u128_max
        end
    | None => u128_max
    end in
  let absolute_fit :=
    match checked_add u128_max baseline k with
    | Some required => required <=? cap
    | None => false
    end in
  mkMandatoryComponent debt absolute_fit (debt <=? q).

Definition mandatory_capacity (resulting_baseline : WideResourceVector)
    (mandatory_bound remaining_recovery_claim configured_cap : ResourceVector)
    : MandatoryCapacity :=
  let entries := mandatory_component (wrv_entries resulting_baseline)
    (rv_entries mandatory_bound) (rv_entries remaining_recovery_claim)
    (rv_entries configured_cap) in
  let bytes := mandatory_component (wrv_bytes resulting_baseline)
    (rv_bytes mandatory_bound) (rv_bytes remaining_recovery_claim)
    (rv_bytes configured_cap) in
  mkMandatoryCapacity (mkWRV (mc_debt entries) (mc_debt bytes))
    (mc_absolute_fit entries && mc_absolute_fit bytes)
    (mc_debt_within_bound entries && mc_debt_within_bound bytes).

Definition recovery_transfer (baseline_after_removals : WideResourceVector)
    (remaining_recovery_claim charge : ResourceVector)
    : result RecoveryTransfer RecoveryTransferError :=
  if rv_entries remaining_recovery_claim <? rv_entries charge then
    Err (mkRecoveryTransferError Entries)
  else if rv_bytes remaining_recovery_claim <? rv_bytes charge then
    Err (mkRecoveryTransferError Bytes)
  else
    match checked_add u128_max (wrv_entries baseline_after_removals)
            (widen_u64 (rv_entries charge)) with
    | None => Err (mkRecoveryTransferError Entries)
    | Some entries =>
        match checked_add u128_max (wrv_bytes baseline_after_removals)
                (widen_u64 (rv_bytes charge)) with
        | None => Err (mkRecoveryTransferError Bytes)
        | Some bytes =>
            Ok (mkRecoveryTransfer (mkWRV entries bytes)
                 (mkRV (sub_u64 (rv_entries remaining_recovery_claim) (rv_entries charge))
                       (sub_u64 (rv_bytes remaining_recovery_claim) (rv_bytes charge))))
        end
    end.

Definition no_edge_legal (debt baseline : WideResourceVector)
    (mandatory_bound full_recovery_claim configured_cap : ResourceVector) : bool :=
  is_zero debt &&
  zero_debt_admission baseline mandatory_bound full_recovery_claim configured_cap.

(** ** floor.rs *)

Inductive AdmissibleFloor :=
| Install (floor : Z)
| Subsumed.

Definition marker_clamped_floor (computed_floor : Z)
    (lowest_retained_marker_seq : option Z) : Z :=
  match lowest_retained_marker_seq with
  | Some marker =>
      let marker := widen_u64 marker in
      if computed_floor <? marker then computed_floor else marker
  | None => computed_floor
  end.

Definition admissible_installed_floor (measured_floor retained_floor : Z)
    (lowest_retained_marker_seq : option Z) (high_watermark : Z) : AdmissibleFloor :=
  let retained_end := add_u128 (widen_u64 high_watermark) 1 in
  let upper := marker_clamped_floor retained_end lowest_retained_marker_seq in
  let target := if measured_floor <? upper then measured_floor else upper in
  if target <? retained_floor then Subsumed else Install target.

Definition floor_transition (current_floor : Z) (minimum_member_cursor : option Z)
    (candidate_high_watermark observer_progress cap_floor : Z) : FloorComputation :=
  let member_cursor :=
    match minimum_member_cursor with
    | Some cursor => cursor
    | None => candidate_high_watermark
    end in
  let preferred_floor :=
    if member_cursor <? observer_progress
    then add_u128 (widen_u64 member_cursor) 1
    else add_u128 (widen_u64 observer_progress) 1 in
  let base_result :=
    if preferred_floor <? current_floor then current_floor else preferred_floor in
  let resulting_floor :=
    if cap_floor <? base_result then base_result else cap_floor in
  mkFloorComputation member_cursor preferred_floor resulting_floor.

(** ** Lemmas *)

#[export] Instance ResourceDimension_eq_dec : EqDecision ResourceDimension.
Proof. solve_decision. Defined.
#[export] Instance ResourceVector_eq_dec : EqDecision ResourceVector.
Proof. solve_decision. Defined.
#[export] Instance WideResourceVector_eq_dec : EqDecision WideResourceVector.
Proof. solve_decision. Defined.

Lemma component_fits_spec b q k cap :
  u128 b -> u64 q -> u64 k -> u64 cap ->
  component_fits b q k cap = (b + q + k <=? cap).
Proof.
  intros. unfold component_fits, widen_u64, checked_add.
  csplit; simplify_eq; breflect; symmetry;
    first [apply Z.leb_gt | apply Z.leb_le | done]; mlia.
Qed.

(** The debt as the unbounded formula, saturated at the top of [u128]. *)
Lemma mandatory_component_debt b q k cap :
  u128 b -> u64 q -> u64 k -> u64 cap ->
  mc_debt (mandatory_component b q k cap) =
    if b + q + k <=? u128_max then Z.max 0 (b + q + k - cap) else u128_max.
Proof.
  intros. unfold mandatory_component, widen_u64, checked_add, saturating_sub; cbn.
  csplit; simplify_eq; breflect; mlia.
Qed.

Lemma mandatory_component_fit b q k cap :
  u128 b -> u64 q -> u64 k -> u64 cap ->
  mc_absolute_fit (mandatory_component b q k cap) = (b + k <=? cap).
Proof.
  intros. unfold mandatory_component, widen_u64, checked_add; cbn.
  csplit; simplify_eq; breflect; symmetry;
    first [done | apply Z.leb_gt; mlia].
Qed.

Lemma mandatory_component_bound b q k cap :
  u128 b -> u64 q -> u64 k -> u64 cap ->
  mc_debt_within_bound (mandatory_component b q k cap) = (b + k <=? cap).
Proof.
  intros. unfold mandatory_component, widen_u64, checked_add, saturating_sub; cbn.
  csplit; simplify_eq; breflect;
    match goal with |- (?a <=? ?b) = (?c <=? ?d) =>
      destruct (Z.leb_spec a b), (Z.leb_spec c d); try done; mlia end.
Qed.

Lemma mandatory_capacity_checks B Q K cap :
  wrv_ok B -> rv_ok Q -> rv_ok K -> rv_ok cap ->
  let fits := (wrv_entries B + rv_entries K <=? rv_entries cap)
              && (wrv_bytes B + rv_bytes K <=? rv_bytes cap) in
  absolute_fit (mandatory_capacity B Q K cap) = fits
  /\ debt_within_mandatory_bound (mandatory_capacity B Q K cap) = fits.
Proof.
  intros [??] [??] [??] [??].
  unfold mandatory_capacity. cbn [absolute_fit debt_within_mandatory_bound].
  by rewrite !mandatory_component_fit, !mandatory_component_bound.
Qed.

(** A mandatory component depends on the baseline and the claim only through
    their sum. *)
Lemma mandatory_component_shift b k b' k' q cap :
  u128 b -> u64 k -> u128 b' -> u64 k' -> u64 q -> u64 cap -> b + k = b' + k' ->
  mandatory_component b q k cap = mandatory_component b' q k' cap.
Proof.
  intros ?????? Hsum.
  destruct (mandatory_component b q k cap) as [d1 f1 b1] eqn:E1,
    (mandatory_component b' q k' cap) as [d2 f2 b2] eqn:E2.
  pose proof (mandatory_component_debt b q k cap) as Hd1.
  pose proof (mandatory_component_debt b' q k' cap) as Hd2.
  pose proof (mandatory_component_fit b q k cap) as Hf1.
  pose proof (mandatory_component_fit b' q k' cap) as Hf2.
  pose proof (mandatory_component_bound b q k cap) as Hb1.
  pose proof (mandatory_component_bound b' q k' cap) as Hb2.
  rewrite E1 in Hd1, Hf1, Hb1. rewrite E2 in Hd2, Hf2, Hb2. simpl in *.
  rewrite Hd1, Hd2, Hf1, Hf2, Hb1, Hb2 by done. rewrite Hsum.
  by replace (b' + q + k') with (b + q + k) by lia.
Qed.

Lemma floor_transition_max f mc h o cap :
  u64 h -> u64 o -> (forall m, mc = Some m -> u64 m) ->
  floor_transition f mc h o cap =
    let m := default h mc in
    mkFloorComputation m (Z.min m o + 1) (Z.max (Z.max f (Z.min m o + 1)) cap).
Proof.
  intros Hh Ho Hm. unfold floor_transition, widen_u64.
  assert (u64 (default h mc)) as Hd by (destruct mc; simpl; auto).
  replace (match mc with Some c => c | None => h end) with (default h mc) by (by destruct mc).
  simpl. rewrite !add_u128_exact by mlia.
  replace (if default h mc <? o then default h mc + 1 else o + 1)
    with (Z.min (default h mc) o + 1) by (destruct (Z.ltb_spec (default h mc) o); lia).
  set (p := Z.min (default h mc) o + 1).
  replace (if p <? f then f else p) with (Z.max f p) by (destruct (Z.ltb_spec p f); lia).
  f_equal. destruct (Z.ltb_spec cap (Z.max f p)); lia.
Qed.

Lemma marker_clamped_floor_min c marker :
  marker_clamped_floor c marker = match marker with Some m => Z.min c m | None => c end.
Proof.
  destruct marker as [m|]; simpl; [|done]. unfold widen_u64.
  destruct (Z.ltb_spec c m); lia.
Qed.

(** ** Properties *)

Lemma retained_baseline_spec (S M : ResourceVector) (I C : Z) :
  rv_ok S -> rv_ok M -> u64 I -> u64 C ->
  let B := mkWRV (rv_entries S + (I - C) * rv_entries M)
                 (rv_bytes S + (I - C) * rv_bytes M) in
  retained_baseline S I C M =
    (if I <? C then Err (MarkerCreditsExceedIdentitySlots I C) else Ok B)
  /\ (C <= I -> wrv_ok B).
Proof.
  intros [??] [??] ?? B. unfold retained_baseline, widen_u64.
  destruct (Z.ltb_spec I C); [split; [done|lia]|].
  assert (u64 (I - C)) as HIC by mlia.
  assert (0 <= (I - C) * rv_entries M <= u64_max * u64_max) by auto with mach.
  assert (0 <= (I - C) * rv_bytes M <= u64_max * u64_max) by auto with mach.
  autorewrite with mach. split; [done|]. intros _. subst B. split; simpl; mlia.
Qed.

Section Properties.
Context (cap Q K : ResourceVector).

(** C40: on [u64] inputs the retained baseline refuses exactly when the marker
    credits exceed the identity slots; otherwise it returns the unbounded value
    [S + (I - C) * marker_max] of each component, which fits [u128]: no
    suboperation wraps. *)
Theorem retained_baseline_exact (S M : ResourceVector) (I C : Z) :
  rv_ok S -> rv_ok M -> u64 I -> u64 C ->
  let B := mkWRV (rv_entries S + (I - C) * rv_entries M)
                 (rv_bytes S + (I - C) * rv_bytes M) in
  retained_baseline S I C M =
    (if I <? C then Err (MarkerCreditsExceedIdentitySlots I C) else Ok B)
  /\ (C <= I -> wrv_ok B).
Proof using. apply retained_baseline_spec. Qed.

(** The two checks of the mandatory class, [B + K <= cap] and [debt <= Q],
    always have the same answer (also where [u128] addition overflows), and the
    capacity is legal exactly when [B + K <= cap] holds in both components. *)
Theorem mandatory_checks_coincide (B : WideResourceVector) :
  wrv_ok B -> rv_ok Q -> rv_ok K -> rv_ok cap ->
  let m := mandatory_capacity B Q K cap in
  absolute_fit m = debt_within_mandatory_bound m
  /\ (is_legal m = true <->
        wrv_entries B + rv_entries K <= rv_entries cap /\
        wrv_bytes B + rv_bytes K <= rv_bytes cap).
Proof using.
  intros ???? m. subst m. unfold is_legal.
  destruct (mandatory_capacity_checks B Q K cap) as [-> ->]; [done..|].
  split; [done|]. rewrite andb_diag, andb_true_iff, !Z.leb_le. done.
Qed.

(** Zero-debt admission holds exactly when the mandatory debt of the same
    baseline is zero, and a refusal names entries exactly when the entry
    component overflows its cap, bytes exactly when only the byte component does. *)
Theorem zero_debt_admission_spec (B : WideResourceVector) :
  wrv_ok B -> rv_ok Q -> rv_ok K -> rv_ok cap ->
  let over_e := rv_entries cap <? wrv_entries B + rv_entries Q + rv_entries K in
  let over_b := rv_bytes cap <? wrv_bytes B + rv_bytes Q + rv_bytes K in
  zero_debt_admission B Q K cap = is_zero (debt (mandatory_capacity B Q K cap))
  /\ zero_debt_capacity_failure B Q K cap =
       (if over_e then Some Entries else if over_b then Some Bytes else None).
Proof using.
  intros [??] [??] [??] [??].
  unfold zero_debt_admission, zero_debt_capacity_failure, mandatory_capacity, is_zero.
  cbn [debt wrv_entries wrv_bytes].
  rewrite !component_fits_spec, !mandatory_component_debt, <- !Z.ltb_antisym by done.
  split; [|done].
  repeat match goal with
    | |- context [?a <? ?b] => destruct (Z.ltb_spec a b)
    | |- context [?a <=? ?b] => destruct (Z.leb_spec a b)
    | |- context [?a =? ?b] => destruct (Z.eqb_spec a b)
    end; try done; mlia.
Qed.

(** A recovery transfer succeeds exactly when the charge fits the remaining
    claim and the new baseline fits [u128]; it moves the charge once, so [B + K]
    is conserved in each component, the claim stays within [u64], and the
    mandatory capacity (debt, fit and bound) of the transaction is unchanged. *)
Theorem recovery_transfer_conserves (B : WideResourceVector) (r : ResourceVector) t :
  wrv_ok B -> rv_ok Q -> rv_ok K -> rv_ok cap -> rv_ok r ->
  recovery_transfer B K r = Ok t ->
  wrv_entries (rt_baseline t) + rv_entries (rt_remaining_recovery_claim t)
    = wrv_entries B + rv_entries K
  /\ wrv_bytes (rt_baseline t) + rv_bytes (rt_remaining_recovery_claim t)
    = wrv_bytes B + rv_bytes K
  /\ wrv_ok (rt_baseline t) /\ rv_ok (rt_remaining_recovery_claim t)
  /\ mandatory_capacity (rt_baseline t) Q (rt_remaining_recovery_claim t) cap
     = mandatory_capacity B Q K cap.
Proof using.
  intros [??] [??] [??] [??] [??] Ht.
  unfold recovery_transfer, widen_u64 in Ht. csplit_in Ht. breflect.
  apply checked_add_Some in Heqo as [-> ?], Heqo0 as [-> ?].
  rewrite !sub_u64_exact by mlia. unfold wrv_ok, rv_ok, mandatory_capacity.
  cbn [rt_baseline rt_remaining_recovery_claim wrv_entries wrv_bytes rv_entries rv_bytes].
  split_and!; try mlia.
  rewrite (mandatory_component_shift (_ + _) _ (wrv_entries B) (rv_entries K)),
    (mandatory_component_shift (_ + _) _ (wrv_bytes B) (rv_bytes K)); try done; mlia.
Qed.
End Properties.

(** The installed floor is the greatest floor that keeps every obligation:
    it lies between the retained floor and [high_watermark + 1], does not cross
    the lowest retained marker and does not exceed the measurement; [Subsumed] is
    answered exactly when no such floor exists. *)
Theorem admissible_floor_greatest (measured retained h : Z) (marker : option Z) :
  u64 h ->
  let admissible t :=
    retained <= t <= h + 1 /\ t <= measured /\ (forall m, marker = Some m -> t <= m) in
  match admissible_installed_floor measured retained marker h with
  | Install t => admissible t /\ (forall t', admissible t' -> t' <= t)
  | Subsumed => forall t, ~ admissible t
  end.
Proof.
  intros Hh admissible. unfold admissible_installed_floor, widen_u64.
  rewrite add_u128_exact by mlia. rewrite marker_clamped_floor_min.
  set (upper := match marker with Some m => Z.min (h + 1) m | None => h + 1 end).
  replace (if measured <? upper then measured else upper) with (Z.min measured upper)
    by (destruct (Z.ltb_spec measured upper); lia).
  assert (forall t, admissible t <-> retained <= t <= Z.min measured upper) as Hadm.
  { intros t. subst admissible upper. destruct marker as [m|]; simpl.
    - split; [intros (? & ? & Hm); specialize (Hm m eq_refl); lia|].
      intros ?; split_and!; [lia..|]. intros ? [= <-]. lia.
    - split; [lia|]. intros; split_and!; [lia..|done]. }
  destruct (Z.ltb_spec (Z.min measured upper) retained).
  - intros t Ht%Hadm. lia.
  - split; [apply Hadm; lia|]. intros t' Ht'%Hadm. lia.
Qed.

(** The physical floor never regresses, is bounded by the floor that the
    slowest member, the observer and the caps allow, is monotone in each of its
    inputs, and recomputing it with the committed result as the new current and
    capacity floor changes nothing. *)
Theorem floor_transition_stable (f cap h o : Z) (mc : option Z) :
  u64 h -> u64 o -> (forall m, mc = Some m -> u64 m) ->
  let r := resulting_floor (floor_transition f mc h o cap) in
  r = Z.max (Z.max f (Z.min (default h mc) o + 1)) cap
  /\ f <= r
  /\ resulting_floor (floor_transition r mc h o r) = r
  /\ (forall f' o' m', f <= f' -> o <= o' -> u64 o' -> u64 m' ->
        (forall m, mc = Some m -> m <= m') -> (mc = None -> h <= m') ->
        r <= resulting_floor (floor_transition f' (Some m') h o' cap)).
Proof.
  intros Hh Ho Hm r. subst r.
  rewrite !floor_transition_max by done. cbv zeta; cbn [resulting_floor]. split_and!; try lia.
  intros f' o' m' ?? Ho' Hm' Hle Hnone.
  rewrite floor_transition_max by (try done; by intros ? [= <-]). simpl.
  assert (default h mc <= m') by (destruct mc; simpl; auto). lia.
Qed.

(** ** Witnesses *)

Lemma retained_baseline_exact_witness :
  retained_baseline (mkRV 6 28) 1 0 (mkRV 1 4) = Ok (mkWRV 7 32).
Proof.
  exact (proj1 (retained_baseline_exact (mkRV 6 28) (mkRV 1 4) 1 0
    ltac:(ground) ltac:(ground) ltac:(ground) ltac:(ground))).
Defined.

Lemma mandatory_checks_coincide_witness :
  is_legal (mandatory_capacity (mkWRV 10 280) (mkRV 2 56) (mkRV 2 56) (mkRV 12 336)) = true.
Proof.
  apply (mandatory_checks_coincide (mkRV 12 336) (mkRV 2 56) (mkRV 2 56) (mkWRV 10 280)); ground.
Defined.

Lemma zero_debt_admission_spec_witness :
  zero_debt_capacity_failure (mkWRV 5 140) (mkRV 2 56) (mkRV 2 56) (mkRV 9 196) = Some Bytes.
Proof.
  exact (proj2 (zero_debt_admission_spec (mkRV 9 196) (mkRV 2 56) (mkRV 2 56) (mkWRV 5 140)
    ltac:(ground) ltac:(ground) ltac:(ground) ltac:(ground))).
Defined.

Lemma recovery_transfer_conserves_witness :
  mandatory_capacity (mkWRV 5 140) (mkRV 2 56) (mkRV 1 28) (mkRV 9 252)
  = mandatory_capacity (mkWRV 4 112) (mkRV 2 56) (mkRV 2 56) (mkRV 9 252).
Proof.
  destruct (recovery_transfer_conserves (mkRV 9 252) (mkRV 2 56) (mkRV 2 56) (mkWRV 4 112)
    (mkRV 1 28) (mkRecoveryTransfer (mkWRV 5 140) (mkRV 1 28))) as (_ & _ & _ & _ & H);
    [ground..|exact H].
Defined.

Lemma admissible_floor_greatest_witness :
  admissible_installed_floor 99 3 (Some 6) 10 = Install 6 /\ 6 <= 10 + 1.
Proof.
  split; [reflexivity|].
  exact (proj2 (proj1 (proj1 (admissible_floor_greatest 99 3 10 (Some 6) ltac:(ground))))).
Defined.

Lemma floor_transition_stable_witness :
  resulting_floor (floor_transition 1 (Some 11) 11 11 7) = 12.
Proof.
  refine (proj1 (floor_transition_stable 1 7 11 11 (Some 11) _ _ _)); [ground..|].
  intros m [= <-]. ground.
Defined.
