(* ===== verification/Tags.v ===== *)
(** * Wire tag registries

    Model of [liminal-protocol/src/wire/tags.rs].  The source declares every
    registry with the macro [u16_registry!]: an enum, [wire_value] (the variant's
    [u16]) and [try_from] (the variant with that value, or [TagError]).  Here the
    macro is the type class [U16Registry]; [tag_try_from] is its [try_from] and
    the class carries what the macro guarantees, so a codec that reads a tag is
    verified once for every registry. *)
From S2P Require Import Prelude Algebra.

(** [TagError { value }]. *)
Record TagError := mkTagError { tag_error_value : Z }.

(** The macro [u16_registry!]: the variants in declaration order with their wire
    values; distinct variants have distinct [u16] values. *)
Class U16Registry (T : Type) := {
  wire_value : T -> Z;
  variants : list T;
  variants_complete : forall t, In t variants;
  wire_value_distinct : forall t1 t2, wire_value t1 = wire_value t2 -> t1 = t2;
  wire_value_u16 : forall t, u16 (wire_value t);
}.

(** [TryFrom<u16>]: the variant carrying [value], else the unassigned tag. *)
Definition tag_try_from {T} `{U16Registry T} (value : Z) : result T TagError :=
  match find (fun t => wire_value t =? value) variants with
  | Some t => Ok t
  | None => Err (mkTagError value)
  end.

(** Decoding a tag inverts [wire_value], in both directions. *)
Lemma tag_try_from_Ok {T} `{U16Registry T} (v : Z) (t : T) :
  tag_try_from v = Ok t <-> wire_value t = v.
Proof.
  unfold tag_try_from. split.
  - destruct (find _ _) eqn:E; [|done]. intros [= ->].
    apply find_some in E as [_ E]. by apply Z.eqb_eq.
  - intros <-. destruct (find _ _) as [t'|] eqn:E.
    + apply find_some in E as [_ E]. apply Z.eqb_eq in E.
      f_equal. by apply wire_value_distinct.
    + pose proof (find_none _ _ E t (variants_complete t)) as Hn. simpl in Hn.
      by rewrite Z.eqb_refl in Hn.
Qed.

Lemma tag_try_from_wire {T} `{U16Registry T} (t : T) : tag_try_from (wire_value t) = Ok t.
Proof. by apply tag_try_from_Ok. Qed.

Ltac registry_laws :=
  first [ intros []; simpl; tauto
        | intros []; simpl; mlia
        | intros [] []; simpl; (discriminate || reflexivity) ].

Inductive ClientDiscriminant :=
| CD_EnrollmentRequest
| CD_CredentialAttachRequest
| CD_DetachRequest
| CD_ParticipantAck
| CD_LeaveRequest
| CD_MarkerAck
| CD_RecordAdmission
| CD_ObserverRecoveryHandshake.

Definition ClientDiscriminant_wire_value (t : ClientDiscriminant) : Z :=
  match t with
  | CD_EnrollmentRequest => 1
  | CD_CredentialAttachRequest => 2
  | CD_DetachRequest => 3
  | CD_ParticipantAck => 4
  | CD_LeaveRequest => 5
  | CD_MarkerAck => 6
  | CD_RecordAdmission => 7
  | CD_ObserverRecoveryHandshake => 8
  end.

#[export] Instance ClientDiscriminant_eq_dec : EqDecision ClientDiscriminant.
Proof. solve_decision. Defined.

#[export, refine] Instance ClientDiscriminant_registry : U16Registry ClientDiscriminant := {|
  wire_value := ClientDiscriminant_wire_value;
  variants := [CD_EnrollmentRequest; CD_CredentialAttachRequest; CD_DetachRequest; CD_ParticipantAck; CD_LeaveRequest; CD_MarkerAck; CD_RecordAdmission; CD_ObserverRecoveryHandshake];
|}.
Proof. all: registry_laws. Defined.

Inductive ServerDiscriminant :=
| SD_ParticipantTransportRejected
| SD_AttemptTokenBodyConflict
| SD_ConnectionConversationCapacityExceeded
| SD_ConnectionConversationBindingOccupied
| SD_ConversationOrderExhausted
| SD_ParticipantUnknown
| SD_NoBinding
| SD_StaleAuthority
| SD_Retired
| SD_MarkerClosureCapacityExceeded
| SD_EnrollBound
| SD_EnrollmentKnown
| SD_ReceiptExpired
| SD_ReceiptCapacityExceeded
| SD_IdentityCapacityExceeded
| SD_ObserverBackpressure
| SD_ConversationSequenceExhausted
| SD_AttachBound
| SD_StaleOrUnknownReceipt
| SD_MarkerNotDelivered
| SD_MarkerMismatch
| SD_Bound
| SD_UnboundReceipt
| SD_DetachCommitted
| SD_DetachInProgress
| SD_AckCommitted
| SD_AckNoOp
| SD_AckGap
| SD_AckRegression
| SD_LeaveCommitted
| SD_MarkerAckCommitted
| SD_RecordCommitted
| SD_RecordTooLarge
| SD_ObserverRecoveryAccepted
| SD_InvalidObserverEpoch
| SD_InvalidObserverEpochList
| SD_ObserverRecoveryConnectionCapacityExceeded
| SD_MarkerSettlementBackpressure
| SD_EnrollmentSettlementBackpressure.

Definition ServerDiscriminant_wire_value (t : ServerDiscriminant) : Z :=
  match t with
  | SD_ParticipantTransportRejected => 0x100
  | SD_AttemptTokenBodyConflict => 0x101
  | SD_ConnectionConversationCapacityExceeded => 0x102
  | SD_ConnectionConversationBindingOccupied => 0x103
  | SD_ConversationOrderExhausted => 0x104
  | SD_ParticipantUnknown => 0x105
  | SD_NoBinding => 0x106
  | SD_StaleAuthority => 0x107
  | SD_Retired => 0x108
  | SD_MarkerClosureCapacityExceeded => 0x109
  | SD_EnrollBound => 0x10a
  | SD_EnrollmentKnown => 0x10b
  | SD_ReceiptExpired => 0x10c
  | SD_ReceiptCapacityExceeded => 0x10d
  | SD_IdentityCapacityExceeded => 0x10e
  | SD_ObserverBackpressure => 0x10f
  | SD_ConversationSequenceExhausted => 0x110
  | SD_AttachBound => 0x111
  | SD_StaleOrUnknownReceipt => 0x112
  | SD_MarkerNotDelivered => 0x113
  | SD_MarkerMismatch => 0x114
  | SD_Bound => 0x115
  | SD_UnboundReceipt => 0x116
  | SD_DetachCommitted => 0x117
  | SD_DetachInProgress => 0x118
  | SD_AckCommitted => 0x119
  | SD_AckNoOp => 0x11a
  | SD_AckGap => 0x11b
  | SD_AckRegression => 0x11c
  | SD_LeaveCommitted => 0x11d
  | SD_MarkerAckCommitted => 0x11e
  | SD_RecordCommitted => 0x11f
  | SD_RecordTooLarge => 0x120
  | SD_ObserverRecoveryAccepted => 0x121
  | SD_InvalidObserverEpoch => 0x122
  | SD_InvalidObserverEpochList => 0x123
  | SD_ObserverRecoveryConnectionCapacityExceeded => 0x124
  | SD_MarkerSettlementBackpressure => 0x125
  | SD_EnrollmentSettlementBackpressure => 0x126
  end.

#[export] Instance ServerDiscriminant_eq_dec : EqDecision ServerDiscriminant.
Proof. solve_decision. Defined.

#[export, refine] Instance ServerDiscriminant_registry : U16Registry ServerDiscriminant := {|
  wire_value := ServerDiscriminant_wire_value;
  variants := [SD_ParticipantTransportRejected; SD_AttemptTokenBodyConflict; SD_ConnectionConversationCapacityExceeded; SD_ConnectionConversationBindingOccupied; SD_ConversationOrderExhausted; SD_ParticipantUnknown; SD_NoBinding; SD_StaleAuthority; SD_Retired; SD_MarkerClosureCapacityExceeded; SD_EnrollBound; SD_EnrollmentKnown; SD_ReceiptExpired; SD_ReceiptCapacityExceeded; SD_IdentityCapacityExceeded; SD_ObserverBackpressure; SD_ConversationSequenceExhausted; SD_AttachBound; SD_StaleOrUnknownReceipt; SD_MarkerNotDelivered; SD_MarkerMismatch; SD_Bound; SD_UnboundReceipt; SD_DetachCommitted; SD_DetachInProgress; SD_AckCommitted; SD_AckNoOp; SD_AckGap; SD_AckRegression; SD_LeaveCommitted; SD_MarkerAckCommitted; SD_RecordCommitted; SD_RecordTooLarge; SD_ObserverRecoveryAccepted; SD_InvalidObserverEpoch; SD_InvalidObserverEpochList; SD_ObserverRecoveryConnectionCapacityExceeded; SD_MarkerSettlementBackpressure; SD_EnrollmentSettlementBackpressure];
|}.
Proof. all: registry_laws. Defined.

Inductive PushDiscriminant :=
| PD_ObserverProgressed
| PD_ParticipantDelivery
| PD_MarkerSettled.

Definition PushDiscriminant_wire_value (t : PushDiscriminant) : Z :=
  match t with
  | PD_ObserverProgressed => 0x200
  | PD_ParticipantDelivery => 0x201
  | PD_MarkerSettled => 0x202
  end.

#[export] Instance PushDiscriminant_eq_dec : EqDecision PushDiscriminant.
Proof. solve_decision. Defined.

#[export, refine] Instance PushDiscriminant_registry : U16Registry PushDiscriminant := {|
  wire_value := PushDiscriminant_wire_value;
  variants := [PD_ObserverProgressed; PD_ParticipantDelivery; PD_MarkerSettled];
|}.
Proof. all: registry_laws. Defined.

Inductive RecordKind :=
| RK_OrdinaryRecord
| RK_Attached
| RK_Detached
| RK_Died
| RK_Left
| RK_HistoryCompacted.

Definition RecordKind_wire_value (t : RecordKind) : Z :=
  match t with
  | RK_OrdinaryRecord => 0
  | RK_Attached => 1
  | RK_Detached => 2
  | RK_Died => 3
  | RK_Left => 4
  | RK_HistoryCompacted => 5
  end.

#[export] Instance RecordKind_eq_dec : EqDecision RecordKind.
Proof. solve_decision. Defined.

#[export, refine] Instance RecordKind_registry : U16Registry RecordKind := {|
  wire_value := RecordKind_wire_value;
  variants := [RK_OrdinaryRecord; RK_Attached; RK_Detached; RK_Died; RK_Left; RK_HistoryCompacted];
|}.
Proof. all: registry_laws. Defined.

Inductive CloseCauseTag :=
| CT_CleanDeregister
| CT_ConnectionLost
| CT_ProcessKilled
| CT_ProtocolError
| CT_Superseded
| CT_ServerShutdown
| CT_UncleanServerRestart.

Definition CloseCauseTag_wire_value (t : CloseCauseTag) : Z :=
  match t with
  | CT_CleanDeregister => 1
  | CT_ConnectionLost => 2
  | CT_ProcessKilled => 3
  | CT_ProtocolError => 4
  | CT_Superseded => 5
  | CT_ServerShutdown => 6
  | CT_UncleanServerRestart => 7
  end.

#[export] Instance CloseCauseTag_eq_dec : EqDecision CloseCauseTag.
Proof. solve_decision. Defined.

#[export, refine] Instance CloseCauseTag_registry : U16Registry CloseCauseTag := {|
  wire_value := CloseCauseTag_wire_value;
  variants := [CT_CleanDeregister; CT_ConnectionLost; CT_ProcessKilled; CT_ProtocolError; CT_Superseded; CT_ServerShutdown; CT_UncleanServerRestart];
|}.
Proof. all: registry_laws. Defined.

Inductive TransportReasonTag :=
| TR_FrameTooLarge
| TR_DecodeFailed
| TR_UnsupportedVersion
| TR_AuthenticationFailed
| TR_ParticipantCapabilityRequired.

Definition TransportReasonTag_wire_value (t : TransportReasonTag) : Z :=
  match t with
  | TR_FrameTooLarge => 1
  | TR_DecodeFailed => 2
  | TR_UnsupportedVersion => 3
  | TR_AuthenticationFailed => 4
  | TR_ParticipantCapabilityRequired => 5
  end.

#[export] Instance TransportReasonTag_eq_dec : EqDecision TransportReasonTag.
Proof. solve_decision. Defined.

#[export, refine] Instance TransportReasonTag_registry : U16Registry TransportReasonTag := {|
  wire_value := TransportReasonTag_wire_value;
  variants := [TR_FrameTooLarge; TR_DecodeFailed; TR_UnsupportedVersion; TR_AuthenticationFailed; TR_ParticipantCapabilityRequired];
|}.
Proof. all: registry_laws. Defined.

Inductive DecodeClass :=
| DC_Framing
| DC_UnknownDiscriminant
| DC_CanonicalEncoding
| DC_MissingRequiredField
| DC_InvalidField.

Definition DecodeClass_wire_value (t : DecodeClass) : Z :=
  match t with
  | DC_Framing => 1
  | DC_UnknownDiscriminant => 2
  | DC_CanonicalEncoding => 3
  | DC_MissingRequiredField => 4
  | DC_InvalidField => 5
  end.

#[export] Instance DecodeClass_eq_dec : EqDecision DecodeClass.
Proof. solve_decision. Defined.

#[export, refine] Instance DecodeClass_registry : U16Registry DecodeClass := {|
  wire_value := DecodeClass_wire_value;
  variants := [DC_Framing; DC_UnknownDiscriminant; DC_CanonicalEncoding; DC_MissingRequiredField; DC_InvalidField];
|}.
Proof. all: registry_laws. Defined.

Inductive AttemptOperation :=
| AO_CredentialAttachRequest
| AO_LeaveRequest
| AO_RecordAdmission.

Definition AttemptOperation_wire_value (t : AttemptOperation) : Z :=
  match t with
  | AO_CredentialAttachRequest => 1
  | AO_LeaveRequest => 2
  | AO_RecordAdmission => 3
  end.

#[export] Instance AttemptOperation_eq_dec : EqDecision AttemptOperation.
Proof. solve_decision. Defined.

#[export, refine] Instance AttemptOperation_registry : U16Registry AttemptOperation := {|
  wire_value := AttemptOperation_wire_value;
  variants := [AO_CredentialAttachRequest; AO_LeaveRequest; AO_RecordAdmission];
|}.
Proof. all: registry_laws. Defined.

Inductive AttemptConflict :=
| AC_Generation
| AC_MarkerDeliverySequence.

Definition AttemptConflict_wire_value (t : AttemptConflict) : Z :=
  match t with
  | AC_Generation => 1
  | AC_MarkerDeliverySequence => 2
  end.

#[export] Instance AttemptConflict_eq_dec : EqDecision AttemptConflict.
Proof. solve_decision. Defined.

#[export, refine] Instance AttemptConflict_registry : U16Registry AttemptConflict := {|
  wire_value := AttemptConflict_wire_value;
  variants := [AC_Generation; AC_MarkerDeliverySequence];
|}.
Proof. all: registry_laws. Defined.

Inductive DetachAuthorityStateTag :=
| DA_Live
| DA_TerminalizedDetachCell.

Definition DetachAuthorityStateTag_wire_value (t : DetachAuthorityStateTag) : Z :=
  match t with
  | DA_Live => 1
  | DA_TerminalizedDetachCell => 2
  end.

#[export] Instance DetachAuthorityStateTag_eq_dec : EqDecision DetachAuthorityStateTag.
Proof. solve_decision. Defined.

#[export, refine] Instance DetachAuthorityStateTag_registry : U16Registry DetachAuthorityStateTag := {|
  wire_value := DetachAuthorityStateTag_wire_value;
  variants := [DA_Live; DA_TerminalizedDetachCell];
|}.
Proof. all: registry_laws. Defined.

Inductive LeaveAuthorityStateTag :=
| LA_Live
| LA_CommittedLeaveTombstone.

Definition LeaveAuthorityStateTag_wire_value (t : LeaveAuthorityStateTag) : Z :=
  match t with
  | LA_Live => 1
  | LA_CommittedLeaveTombstone => 2
  end.

#[export] Instance LeaveAuthorityStateTag_eq_dec : EqDecision LeaveAuthorityStateTag.
Proof. solve_decision. Defined.

#[export, refine] Instance LeaveAuthorityStateTag_registry : U16Registry LeaveAuthorityStateTag := {|
  wire_value := LeaveAuthorityStateTag_wire_value;
  variants := [LA_Live; LA_CommittedLeaveTombstone];
|}.
Proof. all: registry_laws. Defined.

Inductive BindingStateTag :=
| BT_Bound
| BT_Detached.

Definition BindingStateTag_wire_value (t : BindingStateTag) : Z :=
  match t with
  | BT_Bound => 1
  | BT_Detached => 2
  end.

#[export] Instance BindingStateTag_eq_dec : EqDecision BindingStateTag.
Proof. solve_decision. Defined.

#[export, refine] Instance BindingStateTag_registry : U16Registry BindingStateTag := {|
  wire_value := BindingStateTag_wire_value;
  variants := [BT_Bound; BT_Detached];
|}.
Proof. all: registry_laws. Defined.

Inductive ReceiptExpiryReason :=
| RE_Deadline
| RE_Superseded.

Definition ReceiptExpiryReason_wire_value (t : ReceiptExpiryReason) : Z :=
  match t with
  | RE_Deadline => 1
  | RE_Superseded => 2
  end.

#[export] Instance ReceiptExpiryReason_eq_dec : EqDecision ReceiptExpiryReason.
Proof. solve_decision. Defined.

#[export, refine] Instance ReceiptExpiryReason_registry : U16Registry ReceiptExpiryReason := {|
  wire_value := ReceiptExpiryReason_wire_value;
  variants := [RE_Deadline; RE_Superseded];
|}.
Proof. all: registry_laws. Defined.

Inductive ReceiptCapacityScope :=
| RC_LiveReceiptServer
| RC_LiveReceiptParticipant
| RC_ProvenanceServer
| RC_ProvenanceConversation
| RC_ProvenanceParticipant.

Definition ReceiptCapacityScope_wire_value (t : ReceiptCapacityScope) : Z :=
  match t with
  | RC_LiveReceiptServer => 1
  | RC_LiveReceiptParticipant => 2
  | RC_ProvenanceServer => 3
  | RC_ProvenanceConversation => 4
  | RC_ProvenanceParticipant => 5
  end.

#[export] Instance ReceiptCapacityScope_eq_dec : EqDecision ReceiptCapacityScope.
Proof. solve_decision. Defined.

#[export, refine] Instance ReceiptCapacityScope_registry : U16Registry ReceiptCapacityScope := {|
  wire_value := ReceiptCapacityScope_wire_value;
  variants := [RC_LiveReceiptServer; RC_LiveReceiptParticipant; RC_ProvenanceServer; RC_ProvenanceConversation; RC_ProvenanceParticipant];
|}.
Proof. all: registry_laws. Defined.

Inductive IdentityCapacityScope :=
| IC_Server
| IC_Conversation.

Definition IdentityCapacityScope_wire_value (t : IdentityCapacityScope) : Z :=
  match t with
  | IC_Server => 1
  | IC_Conversation => 2
  end.

#[export] Instance IdentityCapacityScope_eq_dec : EqDecision IdentityCapacityScope.
Proof. solve_decision. Defined.

#[export, refine] Instance IdentityCapacityScope_registry : U16Registry IdentityCapacityScope := {|
  wire_value := IdentityCapacityScope_wire_value;
  variants := [IC_Server; IC_Conversation];
|}.
Proof. all: registry_laws. Defined.

Inductive ClosureScope :=
| CS_Capacity
| CS_RecoveryFence
| CS_DeliveredMarkerAwaitingAck
| CS_EpisodeChurnLimit.

Definition ClosureScope_wire_value (t : ClosureScope) : Z :=
  match t with
  | CS_Capacity => 1
  | CS_RecoveryFence => 2
  | CS_DeliveredMarkerAwaitingAck => 3
  | CS_EpisodeChurnLimit => 4
  end.

#[export] Instance ClosureScope_eq_dec : EqDecision ClosureScope.
Proof. solve_decision. Defined.

#[export, refine] Instance ClosureScope_registry : U16Registry ClosureScope := {|
  wire_value := ClosureScope_wire_value;
  variants := [CS_Capacity; CS_RecoveryFence; CS_DeliveredMarkerAwaitingAck; CS_EpisodeChurnLimit];
|}.
Proof. all: registry_laws. Defined.

Inductive ResourceDimensionTag :=
| RD_Entries
| RD_Bytes.

Definition ResourceDimensionTag_wire_value (t : ResourceDimensionTag) : Z :=
  match t with
  | RD_Entries => 1
  | RD_Bytes => 2
  end.

#[export] Instance ResourceDimensionTag_eq_dec : EqDecision ResourceDimensionTag.
Proof. solve_decision. Defined.

#[export, refine] Instance ResourceDimensionTag_registry : U16Registry ResourceDimensionTag := {|
  wire_value := ResourceDimensionTag_wire_value;
  variants := [RD_Entries; RD_Bytes];
|}.
Proof. all: registry_laws. Defined.

Inductive RepaymentEdgeTag :=
| ET_None
| ET_ObserverProjection
| ET_PhysicalCompaction
| ET_MarkerDelivery
| ET_ParticipantCursorProgress
| ET_DetachedCredentialRecovery
| ET_DetachedMarkerRelease
| ET_DetachedCursorRelease.

Definition RepaymentEdgeTag_wire_value (t : RepaymentEdgeTag) : Z :=
  match t with
  | ET_None => 1
  | ET_ObserverProjection => 2
  | ET_PhysicalCompaction => 3
  | ET_MarkerDelivery => 4
  | ET_ParticipantCursorProgress => 5
  | ET_DetachedCredentialRecovery => 6
  | ET_DetachedMarkerRelease => 7
  | ET_DetachedCursorRelease => 8
  end.

#[export] Instance RepaymentEdgeTag_eq_dec : EqDecision RepaymentEdgeTag.
Proof. solve_decision. Defined.

#[export, refine] Instance RepaymentEdgeTag_registry : U16Registry RepaymentEdgeTag := {|
  wire_value := RepaymentEdgeTag_wire_value;
  variants := [ET_None; ET_ObserverProjection; ET_PhysicalCompaction; ET_MarkerDelivery; ET_ParticipantCursorProgress; ET_DetachedCredentialRecovery; ET_DetachedMarkerRelease; ET_DetachedCursorRelease];
|}.
Proof. all: registry_laws. Defined.

Inductive MarkerNotDeliveredReason :=
| MN_NotDeliveredToProofEpoch.

Definition MarkerNotDeliveredReason_wire_value (t : MarkerNotDeliveredReason) : Z :=
  match t with
  | MN_NotDeliveredToProofEpoch => 1
  end.

#[export] Instance MarkerNotDeliveredReason_eq_dec : EqDecision MarkerNotDeliveredReason.
Proof. solve_decision. Defined.

#[export, refine] Instance MarkerNotDeliveredReason_registry : U16Registry MarkerNotDeliveredReason := {|
  wire_value := MarkerNotDeliveredReason_wire_value;
  variants := [MN_NotDeliveredToProofEpoch];
|}.
Proof. all: registry_laws. Defined.

Inductive MarkerMismatchReason :=
| MM_BelowCursor
| MM_NoMarkerExpected
| MM_ExpectedDifferentMarker.

Definition MarkerMismatchReason_wire_value (t : MarkerMismatchReason) : Z :=
  match t with
  | MM_BelowCursor => 1
  | MM_NoMarkerExpected => 2
  | MM_ExpectedDifferentMarker => 3
  end.

#[export] Instance MarkerMismatchReason_eq_dec : EqDecision MarkerMismatchReason.
Proof. solve_decision. Defined.

#[export, refine] Instance MarkerMismatchReason_registry : U16Registry MarkerMismatchReason := {|
  wire_value := MarkerMismatchReason_wire_value;
  variants := [MM_BelowCursor; MM_NoMarkerExpected; MM_ExpectedDifferentMarker];
|}.
Proof. all: registry_laws. Defined.

Inductive AckGapReason :=
| AG_NotContiguouslyAvailable.

Definition AckGapReason_wire_value (t : AckGapReason) : Z :=
  match t with
  | AG_NotContiguouslyAvailable => 1
  end.

#[export] Instance AckGapReason_eq_dec : EqDecision AckGapReason.
Proof. solve_decision. Defined.

#[export, refine] Instance AckGapReason_registry : U16Registry AckGapReason := {|
  wire_value := AckGapReason_wire_value;
  variants := [AG_NotContiguouslyAvailable];
|}.
Proof. all: registry_laws. Defined.

Inductive AckRegressionReason :=
| AR_BelowCursor.

Definition AckRegressionReason_wire_value (t : AckRegressionReason) : Z :=
  match t with
  | AR_BelowCursor => 1
  end.

#[export] Instance AckRegressionReason_eq_dec : EqDecision AckRegressionReason.
Proof. solve_decision. Defined.

#[export, refine] Instance AckRegressionReason_registry : U16Registry AckRegressionReason := {|
  wire_value := AckRegressionReason_wire_value;
  variants := [AR_BelowCursor];
|}.
Proof. all: registry_laws. Defined.

Inductive InvalidObserverEpochReason :=
| IE_ConversationUnknown
| IE_EpochAhead.

Definition InvalidObserverEpochReason_wire_value (t : InvalidObserverEpochReason) : Z :=
  match t with
  | IE_ConversationUnknown => 1
  | IE_EpochAhead => 2
  end.

#[export] Instance InvalidObserverEpochReason_eq_dec : EqDecision InvalidObserverEpochReason.
Proof. solve_decision. Defined.

#[export, refine] Instance InvalidObserverEpochReason_registry : U16Registry InvalidObserverEpochReason := {|
  wire_value := InvalidObserverEpochReason_wire_value;
  variants := [IE_ConversationUnknown; IE_EpochAhead];
|}.
Proof. all: registry_laws. Defined.

Inductive InvalidObserverEpochListReason :=
| IL_TooManyEntries
| IL_DuplicateConversation.

Definition InvalidObserverEpochListReason_wire_value (t : InvalidObserverEpochListReason) : Z :=
  match t with
  | IL_TooManyEntries => 1
  | IL_DuplicateConversation => 2
  end.

#[export] Instance InvalidObserverEpochListReason_eq_dec : EqDecision InvalidObserverEpochListReason.
Proof. solve_decision. Defined.

#[export, refine] Instance InvalidObserverEpochListReason_registry : U16Registry InvalidObserverEpochListReason := {|
  wire_value := InvalidObserverEpochListReason_wire_value;
  variants := [IL_TooManyEntries; IL_DuplicateConversation];
|}.
Proof. all: registry_laws. Defined.

Inductive Counter :=
| CO_TransactionOrder.

Definition Counter_wire_value (t : Counter) : Z :=
  match t with
  | CO_TransactionOrder => 1
  end.

#[export] Instance Counter_eq_dec : EqDecision Counter.
Proof. solve_decision. Defined.

#[export, refine] Instance Counter_registry : U16Registry Counter := {|
  wire_value := Counter_wire_value;
  variants := [CO_TransactionOrder];
|}.
Proof. all: registry_laws. Defined.

(** [From<ResourceDimension> for ResourceDimensionTag] and its inverse. *)
Definition resource_dimension_tag (d : ResourceDimension) : ResourceDimensionTag :=
  match d with Entries => RD_Entries | Bytes => RD_Bytes end.
Definition tag_resource_dimension (t : ResourceDimensionTag) : ResourceDimension :=
  match t with RD_Entries => Entries | RD_Bytes => Bytes end.

Inductive CloseCause :=
| CC_CleanDeregister
| CC_ConnectionLost
| CC_ProcessKilled
| CC_ProtocolError
| CC_Superseded
| CC_ServerShutdown
| CC_UncleanServerRestart (prior_server_incarnation : Z).

Definition close_cause_tag (c : CloseCause) : CloseCauseTag :=
  match c with
  | CC_CleanDeregister => CT_CleanDeregister
  | CC_ConnectionLost => CT_ConnectionLost
  | CC_ProcessKilled => CT_ProcessKilled
  | CC_ProtocolError => CT_ProtocolError
  | CC_Superseded => CT_Superseded
  | CC_ServerShutdown => CT_ServerShutdown
  | CC_UncleanServerRestart _ => CT_UncleanServerRestart
  end.
