(* ===== verification/Wire.v ===== *)
(** * Wire values: primitives, requests, envelopes, pushes

    Model of the participant wire types of [liminal-protocol/src/wire]:
    [primitives.rs], [request.rs], [envelope.rs] and [push.rs].  Each type has a
    well-formedness predicate [wf_X]: the ranges of its integer fields and the
    lengths of its fixed-width tokens, which Rust's types enforce. *)
From coqutil Require Import Byte.
From S2P Require Import Prelude Algebra Tags.

(** ** primitives.rs *)

Definition ConversationId := Z.
Definition ParticipantId := Z.
Definition ParticipantIndex := Z.
Definition DeliverySeq := Z.
Definition TransactionOrder := Z.
Definition ObserverEpoch := Z.
Definition SettlementEpoch := Z.
(** [Generation(NonZeroU64)]. *)
Definition Generation := Z.

Definition wf_generation (g : Generation) : Prop := 1 <= g <= u64_max.
Definition Generation_ONE : Generation := 1.
Definition Generation_new (value : Z) : option Generation :=
  if value =? 0 then None else Some value.

Record ProtocolVersion := mkProtocolVersion { pv_major : Z; pv_minor : Z }.
Definition ProtocolVersion_V1 : ProtocolVersion := mkProtocolVersion 1 0.
Definition wf_version (v : ProtocolVersion) : Prop := u16 (pv_major v) /\ u16 (pv_minor v).

Record ConnectionIncarnation := mkConnectionIncarnation {
  server_incarnation : Z;
  connection_ordinal : Z;
}.
Definition wf_incarnation (c : ConnectionIncarnation) : Prop :=
  u64 (server_incarnation c) /\ u64 (connection_ordinal c).

Record BindingEpoch := mkBindingEpoch {
  connection_incarnation : ConnectionIncarnation;
  capability_generation : Generation;
}.
Definition wf_epoch (b : BindingEpoch) : Prop :=
  wf_incarnation (connection_incarnation b) /\ wf_generation (capability_generation b).

(** [fixed_credential!]: tokens of 16 bytes and secrets of 32. *)
Definition Token := list byte.
Definition EnrollmentToken := Token.
Definition AttachAttemptToken := Token.
Definition DetachAttemptToken := Token.
Definition LeaveAttemptToken := Token.
Definition RecordAdmissionAttemptToken := Token.
Definition AttachSecret := list byte.
Definition TOKEN_LEN : nat := 16.
Definition SECRET_LEN : nat := 32.
Definition wf_token (t : list byte) : Prop := length t = TOKEN_LEN.
Definition wf_secret (t : list byte) : Prop := length t = SECRET_LEN.
Definition wf_opt {A} (P : A -> Prop) (o : option A) : Prop :=
  match o with None => True | Some a => P a end.

#[export] Instance ProtocolVersion_eq_dec : EqDecision ProtocolVersion.
Proof. solve_decision. Defined.
#[export] Instance ConnectionIncarnation_eq_dec : EqDecision ConnectionIncarnation.
Proof. solve_decision. Defined.
#[export] Instance Generation_eq_dec : EqDecision Generation := Z.eq_dec.
#[export] Instance BindingEpoch_eq_dec : EqDecision BindingEpoch.
Proof. unfold Generation in *. solve_decision. Defined.

(** ** request.rs *)

Record EnrollmentRequest := mkEnrollmentRequest {
  er_conversation_id : ConversationId;
  er_enrollment_token : EnrollmentToken;
}.

Record CredentialAttachRequest := mkCredentialAttachRequest {
  car_conversation_id : ConversationId;
  car_participant_id : ParticipantId;
  car_capability_generation : Generation;
  car_attach_secret : AttachSecret;
  car_attach_attempt_token : AttachAttemptToken;
  car_accept_marker_delivery_seq : option DeliverySeq;
}.

Record DetachRequest := mkDetachRequest {
  dr_conversation_id : ConversationId;
  dr_participant_id : ParticipantId;
  dr_capability_generation : Generation;
  dr_detach_attempt_token : DetachAttemptToken;
}.

Record ParticipantAck := mkParticipantAck {
  pa_conversation_id : ConversationId;
  pa_participant_id : ParticipantId;
  pa_capability_generation : Generation;
  pa_through_seq : DeliverySeq;
}.

Record LeaveRequest := mkLeaveRequest {
  lr_conversation_id : ConversationId;
  lr_participant_id : ParticipantId;
  lr_capability_generation : Generation;
  lr_attach_secret : AttachSecret;
  lr_leave_attempt_token : LeaveAttemptToken;
}.

Record MarkerAck := mkMarkerAck {
  ma_conversation_id : ConversationId;
  ma_participant_id : ParticipantId;
  ma_capability_generation : Generation;
  ma_marker_delivery_seq : DeliverySeq;
}.

Record RecordAdmission := mkRecordAdmission {
  ra_conversation_id : ConversationId;
  ra_participant_id : ParticipantId;
  ra_capability_generation : Generation;
  ra_record_admission_attempt_token : RecordAdmissionAttemptToken;
  ra_payload : list byte;
}.

Record ObserverRefusal := mkObserverRefusal {
  orf_conversation_id : ConversationId;
  orf_refused_epoch : ObserverEpoch;
}.

Record ObserverRecoveryHandshake := mkObserverRecoveryHandshake {
  orh_observer_refusals : list ObserverRefusal;
}.

Inductive ClientRequest :=
| CR_Enrollment (r : EnrollmentRequest)
| CR_CredentialAttach (r : CredentialAttachRequest)
| CR_Detach (r : DetachRequest)
| CR_ParticipantAck (r : ParticipantAck)
| CR_Leave (r : LeaveRequest)
| CR_MarkerAck (r : MarkerAck)
| CR_RecordAdmission (r : RecordAdmission)
| CR_ObserverRecovery (r : ObserverRecoveryHandshake).

Definition client_discriminant (r : ClientRequest) : ClientDiscriminant :=
  match r with
  | CR_Enrollment _ => CD_EnrollmentRequest
  | CR_CredentialAttach _ => CD_CredentialAttachRequest
  | CR_Detach _ => CD_DetachRequest
  | CR_ParticipantAck _ => CD_ParticipantAck
  | CR_Leave _ => CD_LeaveRequest
  | CR_MarkerAck _ => CD_MarkerAck
  | CR_RecordAdmission _ => CD_RecordAdmission
  | CR_ObserverRecovery _ => CD_ObserverRecoveryHandshake
  end.

(** The ranges Rust's types give every request, and the [Vec] lengths a 64-bit
    address space can hold. *)
Definition wf_request (r : ClientRequest) : Prop :=
  match r with
  | CR_Enrollment (mkEnrollmentRequest c t) => u64 c /\ wf_token t
  | CR_CredentialAttach (mkCredentialAttachRequest c p g s t m) =>
      u64 c /\ u64 p /\ wf_generation g /\ wf_secret s /\ wf_token t /\ wf_opt u64 m
  | CR_Detach (mkDetachRequest c p g t) => u64 c /\ u64 p /\ wf_generation g /\ wf_token t
  | CR_ParticipantAck (mkParticipantAck c p g s) =>
      u64 c /\ u64 p /\ wf_generation g /\ u64 s
  | CR_Leave (mkLeaveRequest c p g s t) =>
      u64 c /\ u64 p /\ wf_generation g /\ wf_secret s /\ wf_token t
  | CR_MarkerAck (mkMarkerAck c p g s) => u64 c /\ u64 p /\ wf_generation g /\ u64 s
  | CR_RecordAdmission (mkRecordAdmission c p g t l) =>
      u64 c /\ u64 p /\ wf_generation g /\ wf_token t /\ u64 (Z.of_nat (length l))
  | CR_ObserverRecovery (mkObserverRecoveryHandshake l) =>
      u64 (Z.of_nat (length l)) /\
      Forall (fun r => u64 (orf_conversation_id r) /\ u64 (orf_refused_epoch r)) l
  end.

(** ** envelope.rs *)

Record EnrollmentEnvelope := mkEnrollmentEnvelope {
  ee_conversation_id : ConversationId;
  ee_enrollment_token : EnrollmentToken;
}.

Record AttachEnvelope := mkAttachEnvelope {
  ae_conversation_id : ConversationId;
  ae_participant_id : ParticipantId;
  ae_capability_generation : Generation;
  ae_attach_attempt_token : AttachAttemptToken;
  ae_accept_marker_delivery_seq : option DeliverySeq;
}.

Record DetachEnvelope := mkDetachEnvelope {
  de_conversation_id : ConversationId;
  de_participant_id : ParticipantId;
  de_capability_generation : Generation;
  de_detach_attempt_token : DetachAttemptToken;
}.

Record ParticipantAckEnvelope := mkParticipantAckEnvelope {
  pae_conversation_id : ConversationId;
  pae_participant_id : ParticipantId;
  pae_capability_generation : Generation;
  pae_through_seq : DeliverySeq;
}.

Record LeaveEnvelope := mkLeaveEnvelope {
  le_conversation_id : ConversationId;
  le_participant_id : ParticipantId;
  le_capability_generation : Generation;
  le_leave_attempt_token : LeaveAttemptToken;
}.

Record MarkerAckEnvelope := mkMarkerAckEnvelope {
  mae_conversation_id : ConversationId;
  mae_participant_id : ParticipantId;
  mae_capability_generation : Generation;
  mae_marker_delivery_seq : DeliverySeq;
}.

Record RecordAdmissionEnvelope := mkRecordAdmissionEnvelope {
  rae_conversation_id : ConversationId;
  rae_participant_id : ParticipantId;
  rae_capability_generation : Generation;
  rae_record_admission_attempt_token : RecordAdmissionAttemptToken;
}.

Inductive ResponseEnvelope :=
| RE_Enrollment (e : EnrollmentEnvelope)
| RE_CredentialAttach (e : AttachEnvelope)
| RE_Detach (e : DetachEnvelope)
| RE_ParticipantAck (e : ParticipantAckEnvelope)
| RE_Leave (e : LeaveEnvelope)
| RE_MarkerAck (e : MarkerAckEnvelope)
| RE_RecordAdmission (e : RecordAdmissionEnvelope).

Definition response_envelope_origin (e : ResponseEnvelope) : ClientDiscriminant :=
  match e with
  | RE_Enrollment _ => CD_EnrollmentRequest
  | RE_CredentialAttach _ => CD_CredentialAttachRequest
  | RE_Detach _ => CD_DetachRequest
  | RE_ParticipantAck _ => CD_ParticipantAck
  | RE_Leave _ => CD_LeaveRequest
  | RE_MarkerAck _ => CD_MarkerAck
  | RE_RecordAdmission _ => CD_RecordAdmission
  end.

Definition wf_enrollment (e : EnrollmentEnvelope) : Prop :=
  u64 (ee_conversation_id e) /\ wf_token (ee_enrollment_token e).
Definition wf_attach (e : AttachEnvelope) : Prop :=
  u64 (ae_conversation_id e) /\ u64 (ae_participant_id e) /\
  wf_generation (ae_capability_generation e) /\ wf_token (ae_attach_attempt_token e) /\
  wf_opt u64 (ae_accept_marker_delivery_seq e).
Definition wf_detach (e : DetachEnvelope) : Prop :=
  u64 (de_conversation_id e) /\ u64 (de_participant_id e) /\
  wf_generation (de_capability_generation e) /\ wf_token (de_detach_attempt_token e).
Definition wf_participant_ack (e : ParticipantAckEnvelope) : Prop :=
  u64 (pae_conversation_id e) /\ u64 (pae_participant_id e) /\
  wf_generation (pae_capability_generation e) /\ u64 (pae_through_seq e).
Definition wf_leave (e : LeaveEnvelope) : Prop :=
  u64 (le_conversation_id e) /\ u64 (le_participant_id e) /\
  wf_generation (le_capability_generation e) /\ wf_token (le_leave_attempt_token e).
Definition wf_marker_ack (e : MarkerAckEnvelope) : Prop :=
  u64 (mae_conversation_id e) /\ u64 (mae_participant_id e) /\
  wf_generation (mae_capability_generation e) /\ u64 (mae_marker_delivery_seq e).
Definition wf_record_admission (e : RecordAdmissionEnvelope) : Prop :=
  u64 (rae_conversation_id e) /\ u64 (rae_participant_id e) /\
  wf_generation (rae_capability_generation e) /\
  wf_token (rae_record_admission_attempt_token e).
Definition wf_response_envelope (e : ResponseEnvelope) : Prop :=
  match e with
  | RE_Enrollment e => wf_enrollment e
  | RE_CredentialAttach e => wf_attach e
  | RE_Detach e => wf_detach e
  | RE_ParticipantAck e => wf_participant_ack e
  | RE_Leave e => wf_leave e
  | RE_MarkerAck e => wf_marker_ack e
  | RE_RecordAdmission e => wf_record_admission e
  end.

(** ** push.rs *)

Inductive DetachedCause := DTC_CleanDeregister | DTC_Superseded | DTC_ServerShutdown.

Definition detached_close_cause (c : DetachedCause) : CloseCause :=
  match c with
  | DTC_CleanDeregister => CC_CleanDeregister
  | DTC_Superseded => CC_Superseded
  | DTC_ServerShutdown => CC_ServerShutdown
  end.

Inductive DiedCause :=
| DDC_ConnectionLost
| DDC_ProcessKilled
| DDC_ProtocolError
| DDC_UncleanServerRestart (prior_server_incarnation : Z).

Definition died_close_cause (c : DiedCause) : CloseCause :=
  match c with
  | DDC_ConnectionLost => CC_ConnectionLost
  | DDC_ProcessKilled => CC_ProcessKilled
  | DDC_ProtocolError => CC_ProtocolError
  | DDC_UncleanServerRestart p => CC_UncleanServerRestart p
  end.

Inductive ParticipantRecord :=
| PR_OrdinaryRecord (sender_participant_id : ParticipantId) (payload : list byte)
| PR_Attached (affected_participant_id : ParticipantId) (binding_epoch : BindingEpoch)
| PR_Detached (affected_participant_id : ParticipantId) (binding_epoch : BindingEpoch)
    (cause : DetachedCause)
| PR_Died (affected_participant_id : ParticipantId) (binding_epoch : BindingEpoch)
    (cause : DiedCause)
| PR_Left (affected_participant_id : ParticipantId)
    (ended_binding_epoch : option BindingEpoch)
| PR_HistoryCompacted (affected_participant_id : ParticipantId)
    (abandoned_after abandoned_through physical_floor_at_decision : DeliverySeq).

Definition record_kind (r : ParticipantRecord) : RecordKind :=
  match r with
  | PR_OrdinaryRecord _ _ => RK_OrdinaryRecord
  | PR_Attached _ _ => RK_Attached
  | PR_Detached _ _ _ => RK_Detached
  | PR_Died _ _ _ => RK_Died
  | PR_Left _ _ => RK_Left
  | PR_HistoryCompacted _ _ _ _ => RK_HistoryCompacted
  end.

Record ParticipantDelivery := mkParticipantDelivery {
  pd_conversation_id : ConversationId;
  pd_delivery_seq : DeliverySeq;
  pd_record : ParticipantRecord;
}.

Inductive ServerPush :=
| SP_ObserverProgressed (conversation_id : ConversationId) (refused_epoch : ObserverEpoch)
    (observer_progress : DeliverySeq)
| SP_ParticipantDelivery (d : ParticipantDelivery)
| SP_MarkerSettled (conversation_id : ConversationId) (refused_epoch : SettlementEpoch).

Definition push_discriminant (p : ServerPush) : PushDiscriminant :=
  match p with
  | SP_ObserverProgressed _ _ _ => PD_ObserverProgressed
  | SP_ParticipantDelivery _ => PD_ParticipantDelivery
  | SP_MarkerSettled _ _ => PD_MarkerSettled
  end.

Definition wf_record (r : ParticipantRecord) : Prop :=
  match r with
  | PR_OrdinaryRecord s l => u64 s /\ u64 (Z.of_nat (length l))
  | PR_Attached p b => u64 p /\ wf_epoch b
  | PR_Detached p b _ => u64 p /\ wf_epoch b
  | PR_Died p b c =>
      u64 p /\ wf_epoch b /\
      match c with DDC_UncleanServerRestart i => u64 i | _ => True end
  | PR_Left p b => u64 p /\ wf_opt wf_epoch b
  | PR_HistoryCompacted p a t f => u64 p /\ u64 a /\ u64 t /\ u64 f
  end.

Definition wf_push (p : ServerPush) : Prop :=
  match p with
  | SP_ObserverProgressed c r o => u64 c /\ u64 r /\ u64 o
  | SP_ParticipantDelivery (mkParticipantDelivery c d r) => u64 c /\ u64 d /\ wf_record r
  | SP_MarkerSettled c r => u64 c /\ u64 r
  end.
