(* ===== verification/Response.v ===== *)
(** * Wire values: server responses

    Model of [liminal-protocol/src/wire/closure.rs], [sequence_budget.rs] and
    [response.rs]: the typed server values, the checked constructors of those
    whose fields are private ([EnrollBound::new], [AttachBound::ordinary] and
    [fenced], [AckGap::new], [AckRegression::new], [LeaveCommitted::new],
    [ObserverBackpressureState::initial] and [replay]), the discriminant of each
    value and the request it answers.  [wf_server_value] collects the integer
    ranges and the invariants those constructors keep. *)
From coqutil Require Import Byte.
From S2P Require Import Prelude Algebra Tags Wire.

(** ** closure.rs *)

Record ParticipantCursorProgressEdge := mkParticipantCursorProgressEdge {
  pcp_participant_id : ParticipantId;
  pcp_binding_epoch : BindingEpoch;
  pcp_through_seq : DeliverySeq;
  pcp_marker_delivery_seq : option DeliverySeq;
}.

Inductive RepaymentEdge :=
| Edge_None
| Edge_ObserverProjection (through_seq : DeliverySeq)
| Edge_PhysicalCompaction (from_floor through_seq : DeliverySeq)
| Edge_MarkerDelivery (participant_id : ParticipantId) (binding_epoch : BindingEpoch)
    (marker_delivery_seq : DeliverySeq)
| Edge_ParticipantCursorProgress (e : ParticipantCursorProgressEdge)
| Edge_DetachedCredentialRecovery (participant_id : ParticipantId)
    (marker_delivery_seq : DeliverySeq) (prior_binding_epoch : BindingEpoch)
| Edge_DetachedMarkerRelease (participant_id : ParticipantId)
    (marker_delivery_seq : DeliverySeq) (last_dead_binding_epoch : BindingEpoch)
| Edge_DetachedCursorRelease (participant_id : ParticipantId)
    (last_dead_binding_epoch : BindingEpoch).

Definition repayment_edge_tag (e : RepaymentEdge) : RepaymentEdgeTag :=
  match e with
  | Edge_None => ET_None
  | Edge_ObserverProjection _ => ET_ObserverProjection
  | Edge_PhysicalCompaction _ _ => ET_PhysicalCompaction
  | Edge_MarkerDelivery _ _ _ => ET_MarkerDelivery
  | Edge_ParticipantCursorProgress _ => ET_ParticipantCursorProgress
  | Edge_DetachedCredentialRecovery _ _ _ => ET_DetachedCredentialRecovery
  | Edge_DetachedMarkerRelease _ _ _ => ET_DetachedMarkerRelease
  | Edge_DetachedCursorRelease _ _ => ET_DetachedCursorRelease
  end.

Inductive ClosureCheckedEnvelope :=
| CCE_Enrollment (e : EnrollmentEnvelope)
| CCE_CredentialAttach (e : AttachEnvelope)
| CCE_Leave (e : LeaveEnvelope)
| CCE_RecordAdmission (e : RecordAdmissionEnvelope).

Record ClosureSnapshot := mkClosureSnapshot {
  cs_marker_capacity_credits : Z;
  cs_marker_anchors : Z;
  cs_entry_debt : Z;
  cs_byte_debt : Z;
  cs_repayment_edge : RepaymentEdge;
  cs_edge_sequence_claims : Z;
  cs_edge_order_position_claims : Z;
  cs_edge_k_remaining : ResourceVector;
  cs_k_headroom : WideResourceVector;
  cs_episode_churn_used : Z;
  cs_delta_cycles : Z;
  cs_episode_churn_limit : Z;
}.

Record ClosureCapacityReason := mkClosureCapacityReason {
  ccr_dimension : ResourceDimension;
  ccr_required : Z;
  ccr_limit : Z;
}.

Inductive ClosureRefusalReason :=
| CRR_Capacity (r : ClosureCapacityReason)
| CRR_RecoveryFence
| CRR_DeliveredMarkerAwaitingAck
| CRR_EpisodeChurnLimit.

Record MarkerClosureCapacityExceeded := mkMarkerClosureCapacityExceeded {
  mcce_request : ClosureCheckedEnvelope;
  mcce_snapshot : ClosureSnapshot;
  mcce_reason : ClosureRefusalReason;
}.

(** ** sequence_budget.rs *)

Record SequenceBudget := mkSequenceBudget {
  sb_high_watermark : Z;
  sb_remaining : Z;
  sb_e : Z;
  sb_t : Z;
  sb_m : Z;
  sb_rs : Z;
  sb_rt : Z;
  sb_l_times_t : Z;
  sb_l_times_rt : Z;
  sb_l_other_times_e : Z;
}.

(** ** response.rs *)

Inductive TransportRejectionReason :=
| TRR_FrameTooLarge (complete_frame_bytes max_frame_bytes : Z)
| TRR_DecodeFailed (decode_class : DecodeClass)
| TRR_UnsupportedVersion (presented_version supported_version : ProtocolVersion)
| TRR_AuthenticationFailed
| TRR_ParticipantCapabilityRequired.

Record ParticipantTransportRejected := mkParticipantTransportRejected {
  ptr_reason : TransportRejectionReason;
}.

Inductive AttemptTokenBodyConflict :=
| ATB_CredentialAttach (token : AttachAttemptToken) (conversation_id : ConversationId)
    (presented_participant_id : ParticipantId) (presented_generation : Generation)
    (presented_marker_delivery_seq : option DeliverySeq) (conflict : AttemptConflict)
| ATB_Leave (token : LeaveAttemptToken) (conversation_id : ConversationId)
    (presented_participant_id : ParticipantId) (presented_generation : Generation)
| ATB_RecordAdmission (token : RecordAdmissionAttemptToken)
    (conversation_id : ConversationId) (presented_participant_id : ParticipantId)
    (presented_generation : Generation).

Inductive ConnectionConversationCapacityExceeded :=
| CCC_SemanticRequest (request : ResponseEnvelope) (limit : Z)
| CCC_ObserverRecovery (conversation_id : ConversationId) (limit : Z).

Inductive ConnectionConversationBindingOccupied :=
| CCB_Enrollment (conversation_id : ConversationId) (enrollment_token : EnrollmentToken)
| CCB_CredentialAttach (conversation_id : ConversationId) (participant_id : ParticipantId)
    (capability_generation : Generation) (attach_attempt_token : AttachAttemptToken)
    (accept_marker_delivery_seq : option DeliverySeq).

Inductive OrderAllocatingEnvelope :=
| OAE_Enrollment (e : EnrollmentEnvelope)
| OAE_CredentialAttach (e : AttachEnvelope)
| OAE_RecordAdmission (e : RecordAdmissionEnvelope).

Record ConversationOrderExhausted := mkConversationOrderExhausted {
  coe_request : OrderAllocatingEnvelope;
  coe_high : Z;
  coe_order_remaining : Z;
  coe_reserved_claims : Z;
  coe_resulting_order_remaining : Z;
  coe_resulting_reserved_claims : Z;
}.
Definition REQUIRED_MAJORS : Z := 1.
Definition coe_counter (_ : ConversationOrderExhausted) : Counter := CO_TransactionOrder.
Definition coe_next_value (v : ConversationOrderExhausted) : option Z :=
  checked_add u64_max (coe_high v) 1.

Inductive ParticipantReferenceEnvelope :=
| PRE_CredentialAttach (e : AttachEnvelope)
| PRE_Detach (e : DetachEnvelope)
| PRE_ParticipantAck (e : ParticipantAckEnvelope)
| PRE_Leave (e : LeaveEnvelope)
| PRE_MarkerAck (e : MarkerAckEnvelope)
| PRE_RecordAdmission (e : RecordAdmissionEnvelope).

Inductive BindingRequiredEnvelope :=
| BRE_Detach (e : DetachEnvelope)
| BRE_ParticipantAck (e : ParticipantAckEnvelope)
| BRE_Leave (e : LeaveEnvelope)
| BRE_MarkerAck (e : MarkerAckEnvelope)
| BRE_RecordAdmission (e : RecordAdmissionEnvelope).

Record ParticipantUnknown := mkParticipantUnknown { pu_request : ParticipantReferenceEnvelope }.
Record NoBinding := mkNoBinding { nb_request : BindingRequiredEnvelope }.

Inductive BindingStateView :=
| BSV_Bound (current_binding_epoch : BindingEpoch)
| BSV_Detached.

Definition binding_state_view_tag (v : BindingStateView) : BindingStateTag :=
  match v with BSV_Bound _ => BT_Bound | BSV_Detached => BT_Detached end.

Record TerminalizedDetachCell := mkTerminalizedDetachCell {
  tdc_conversation_id : ConversationId;
  tdc_participant_id : ParticipantId;
  tdc_capability_generation : Generation;
  tdc_detach_attempt_token : DetachAttemptToken;
  tdc_current_generation : Generation;
  tdc_committed_binding_epoch : BindingEpoch;
  tdc_binding_state : BindingStateView;
}.

Inductive DetachStaleAuthority :=
| DSA_Live (conversation_id : ConversationId) (participant_id : ParticipantId)
    (capability_generation : Generation) (detach_attempt_token : DetachAttemptToken)
    (current_generation : Generation)
| DSA_TerminalizedDetachCell (c : TerminalizedDetachCell).

Definition detach_authority_state_tag (v : DetachStaleAuthority) : DetachAuthorityStateTag :=
  match v with
  | DSA_Live _ _ _ _ _ => DA_Live
  | DSA_TerminalizedDetachCell _ => DA_TerminalizedDetachCell
  end.

Inductive LeaveStaleAuthority :=
| LSA_Live (conversation_id : ConversationId) (participant_id : ParticipantId)
    (presented_generation : Generation) (leave_attempt_token : LeaveAttemptToken)
    (current_generation : Generation)
| LSA_CommittedLeaveTombstone (conversation_id : ConversationId)
    (participant_id : ParticipantId) (presented_generation : Generation)
    (leave_attempt_token : LeaveAttemptToken) (retired_generation : Generation).

Definition leave_authority_state_tag (v : LeaveStaleAuthority) : LeaveAuthorityStateTag :=
  match v with
  | LSA_Live _ _ _ _ _ => LA_Live
  | LSA_CommittedLeaveTombstone _ _ _ _ _ => LA_CommittedLeaveTombstone
  end.

Inductive CommonStaleAuthorityEnvelope :=
| CSA_CredentialAttach (e : AttachEnvelope)
| CSA_ParticipantAck (e : ParticipantAckEnvelope)
| CSA_MarkerAck (e : MarkerAckEnvelope)
| CSA_RecordAdmission (e : RecordAdmissionEnvelope).

Inductive StaleAuthority :=
| SA_Live (request : CommonStaleAuthorityEnvelope) (current_generation : Generation)
| SA_Detach (v : DetachStaleAuthority)
| SA_Leave (v : LeaveStaleAuthority).

Inductive Retired :=
| Retired_Enrollment (request : EnrollmentEnvelope) (participant_id : ParticipantId)
    (retired_generation : Generation)
| Retired_Participant (request : ParticipantReferenceEnvelope)
    (retired_generation : Generation).

Record EnrollBound := mkEnrollBound {
  eb_conversation_id : ConversationId;
  eb_token : EnrollmentToken;
  eb_participant_id : ParticipantId;
  eb_attach_secret : AttachSecret;
  eb_origin_binding_epoch : BindingEpoch;
  eb_receipt_expires_at : Z;
  eb_provenance_expires_at : Z;
}.

Definition EnrollBound_new (conversation_id : ConversationId) (token : EnrollmentToken)
    (participant_id : ParticipantId) (attach_secret : AttachSecret)
    (origin_binding_epoch : BindingEpoch) (receipt_expires_at provenance_expires_at : Z)
    : option EnrollBound :=
  if capability_generation origin_binding_epoch =? 1 then
    Some (mkEnrollBound conversation_id token participant_id attach_secret
            origin_binding_epoch receipt_expires_at provenance_expires_at)
  else None.
Definition eb_request_generation (_ : EnrollBound) : option Generation := None.
Definition eb_capability_generation (v : EnrollBound) : Generation :=
  capability_generation (eb_origin_binding_epoch v).
Definition eb_persisted_cursor (_ : EnrollBound) : DeliverySeq := 0.
Definition eb_accepted_marker_delivery_seq (_ : EnrollBound) : option DeliverySeq := None.

Record EnrollmentKnown := mkEnrollmentKnown {
  ek_conversation_id : ConversationId;
  ek_token : EnrollmentToken;
  ek_participant_id : ParticipantId;
  ek_current_generation : Generation;
}.

Inductive ReceiptExpired :=
| RX_Enrollment (conversation_id : ConversationId) (token : EnrollmentToken)
    (participant_id : ParticipantId) (result_generation current_generation : Generation)
    (reason : ReceiptExpiryReason)
| RX_CredentialAttach (conversation_id : ConversationId) (token : AttachAttemptToken)
    (participant_id : ParticipantId) (presented_generation : Generation)
    (presented_marker_delivery_seq : option DeliverySeq)
    (result_generation current_generation : Generation) (reason : ReceiptExpiryReason).

Inductive EnrollmentReceiptCapacityScope :=
| ERC_LiveReceiptServer
| ERC_ProvenanceServer
| ERC_ProvenanceConversation.

Definition wire_scope (s : EnrollmentReceiptCapacityScope) : ReceiptCapacityScope :=
  match s with
  | ERC_LiveReceiptServer => RC_LiveReceiptServer
  | ERC_ProvenanceServer => RC_ProvenanceServer
  | ERC_ProvenanceConversation => RC_ProvenanceConversation
  end.

Inductive ReceiptCapacityExceeded :=
| RCE_Enrollment (request : EnrollmentEnvelope) (scope : EnrollmentReceiptCapacityScope)
    (limit occupied : Z)
| RCE_CredentialAttach (request : AttachEnvelope) (scope : ReceiptCapacityScope)
    (limit occupied : Z).
Definition ReceiptCapacityExceeded_REQUESTED : Z := 1.

Record IdentityCapacityExceeded := mkIdentityCapacityExceeded {
  ice_request : EnrollmentEnvelope;
  ice_scope : IdentityCapacityScope;
  ice_limit : Z;
  ice_occupied : Z;
}.
Definition IdentityCapacityExceeded_REQUESTED : Z := 1.

Record ObserverBackpressureState := mkObserverBackpressureState {
  obs_backpressure_epoch : ObserverEpoch;
  obs_observer_progress : DeliverySeq;
}.

Definition ObserverBackpressureState_initial (observer_progress : DeliverySeq)
    : ObserverBackpressureState :=
  mkObserverBackpressureState observer_progress observer_progress.

Definition ObserverBackpressureState_replay (backpressure_epoch : ObserverEpoch)
    (observer_progress : DeliverySeq) : option ObserverBackpressureState :=
  if backpressure_epoch =? observer_progress then
    Some (mkObserverBackpressureState backpressure_epoch observer_progress)
  else None.

Inductive ObserverBackpressure :=
| OB_Enrollment (request : EnrollmentEnvelope) (state : ObserverBackpressureState)
| OB_CredentialAttach (request : AttachEnvelope) (state : ObserverBackpressureState)
| OB_Detach (request : DetachEnvelope) (committed_binding_epoch : BindingEpoch)
    (state : ObserverBackpressureState)
| OB_Leave (request : LeaveEnvelope) (state : ObserverBackpressureState)
    (prior_terminal_cell_exists : bool)
| OB_RecordAdmission (request : RecordAdmissionEnvelope) (state : ObserverBackpressureState).

Inductive MarkerSettlementBackpressure :=
| MSB_CredentialAttach (conversation_id : ConversationId) (refused_epoch : SettlementEpoch)
| MSB_Detach (conversation_id : ConversationId) (refused_epoch : SettlementEpoch).

Record EnrollmentSettlementBackpressure := mkEnrollmentSettlementBackpressure {
  esb_conversation_id : ConversationId;
}.

Inductive SequenceAllocatingEnvelope :=
| SAE_Enrollment (e : EnrollmentEnvelope)
| SAE_CredentialAttach (e : AttachEnvelope)
| SAE_RecordAdmission (e : RecordAdmissionEnvelope).

Record ConversationSequenceExhausted := mkConversationSequenceExhausted {
  cse_request : SequenceAllocatingEnvelope;
  cse_sequence_budget : SequenceBudget;
}.

Record AttachBound := mkAttachBound {
  ab_conversation_id : ConversationId;
  ab_token : AttachAttemptToken;
  ab_participant_id : ParticipantId;
  ab_request_generation : Generation;
  ab_attach_secret : AttachSecret;
  ab_origin_binding_epoch : BindingEpoch;
  ab_persisted_cursor : DeliverySeq;
  ab_accepted_marker_delivery_seq : option DeliverySeq;
  ab_receipt_expires_at : Z;
  ab_provenance_expires_at : Z;
}.

Definition is_successor_generation (previous successor : Generation) : bool :=
  match checked_add u64_max previous 1 with
  | Some expected => successor =? expected
  | None => false
  end.

Definition AttachBound_ordinary (conversation_id : ConversationId)
    (token : AttachAttemptToken) (participant_id : ParticipantId)
    (request_generation : Generation) (attach_secret : AttachSecret)
    (origin_binding_epoch : BindingEpoch) (persisted_cursor : DeliverySeq)
    (receipt_expires_at provenance_expires_at : Z) : option AttachBound :=
  if negb (is_successor_generation request_generation
             (capability_generation origin_binding_epoch))
  then None
  else Some (mkAttachBound conversation_id token participant_id request_generation
               attach_secret origin_binding_epoch persisted_cursor None
               receipt_expires_at provenance_expires_at).

Definition AttachBound_fenced (conversation_id : ConversationId)
    (token : AttachAttemptToken) (participant_id : ParticipantId)
    (request_generation : Generation) (attach_secret : AttachSecret)
    (origin_binding_epoch : BindingEpoch) (accepted_marker_delivery_seq : DeliverySeq)
    (receipt_expires_at provenance_expires_at : Z) : option AttachBound :=
  if negb (is_successor_generation request_generation
             (capability_generation origin_binding_epoch))
  then None
  else Some (mkAttachBound conversation_id token participant_id request_generation
               attach_secret origin_binding_epoch accepted_marker_delivery_seq
               (Some accepted_marker_delivery_seq)
               receipt_expires_at provenance_expires_at).
Definition ab_capability_generation (v : AttachBound) : Generation :=
  capability_generation (ab_origin_binding_epoch v).

Record StaleOrUnknownReceipt := mkStaleOrUnknownReceipt {
  sur_conversation_id : ConversationId;
  sur_token : AttachAttemptToken;
  sur_participant_id : ParticipantId;
  sur_presented_generation : Generation;
  sur_presented_marker_delivery_seq : option DeliverySeq;
  sur_current_generation : Generation;
}.

Record AttachMarkerProof := mkAttachMarkerProof {
  amp_conversation_id : ConversationId;
  amp_token : AttachAttemptToken;
  amp_participant_id : ParticipantId;
  amp_capability_generation : Generation;
  amp_requested_marker_delivery_seq : DeliverySeq;
}.

Record MarkerAckProof := mkMarkerAckProof {
  mp_conversation_id : ConversationId;
  mp_participant_id : ParticipantId;
  mp_capability_generation : Generation;
  mp_requested_marker_delivery_seq : DeliverySeq;
}.

Inductive MarkerProofRequest :=
| MPR_CredentialAttach (p : AttachMarkerProof)
| MPR_MarkerAck (p : MarkerAckProof).

Record MarkerNotDelivered := mkMarkerNotDelivered {
  mnd_request : MarkerProofRequest;
  mnd_reason : MarkerNotDeliveredReason;
  mnd_expected_marker_delivery_seq : DeliverySeq;
}.

Inductive MarkerMismatchBody :=
| MMB_BelowCursor (current_cursor : DeliverySeq)
| MMB_NoMarkerExpected
| MMB_ExpectedDifferentMarker (expected_marker_delivery_seq : DeliverySeq).

Definition marker_mismatch_reason (b : MarkerMismatchBody) : MarkerMismatchReason :=
  match b with
  | MMB_BelowCursor _ => MM_BelowCursor
  | MMB_NoMarkerExpected => MM_NoMarkerExpected
  | MMB_ExpectedDifferentMarker _ => MM_ExpectedDifferentMarker
  end.

Record MarkerMismatch := mkMarkerMismatch {
  mmm_request : MarkerProofRequest;
  mmm_mismatch : MarkerMismatchBody;
}.

Inductive ReceiptReplay :=
| RR_Enrollment (v : EnrollBound)
| RR_CredentialAttach (v : AttachBound).

Record DetachCommitted := mkDetachCommitted {
  dcm_conversation_id : ConversationId;
  dcm_participant_id : ParticipantId;
  dcm_detach_attempt_token : DetachAttemptToken;
  dcm_committed_binding_epoch : BindingEpoch;
  dcm_detached_delivery_seq : DeliverySeq;
}.
Definition dcm_capability_generation (v : DetachCommitted) : Generation :=
  capability_generation (dcm_committed_binding_epoch v).

Record DetachInProgress := mkDetachInProgress {
  dip_conversation_id : ConversationId;
  dip_participant_id : ParticipantId;
  dip_presented_token : DetachAttemptToken;
  dip_presented_generation : Generation;
  dip_committed_binding_epoch : BindingEpoch;
}.

Record AckCommitted := mkAckCommitted { acm_request : ParticipantAckEnvelope }.
Definition acm_current_cursor (v : AckCommitted) : DeliverySeq :=
  pae_through_seq (acm_request v).

Inductive AckNoOp :=
| ANO_ParticipantAck (request : ParticipantAckEnvelope)
| ANO_MarkerAck (request : MarkerAckEnvelope).
Definition ano_current_cursor (v : AckNoOp) : DeliverySeq :=
  match v with
  | ANO_ParticipantAck r => pae_through_seq r
  | ANO_MarkerAck r => mae_marker_delivery_seq r
  end.

Record AckGap := mkAckGap {
  ag_request : ParticipantAckEnvelope;
  ag_current_cursor : DeliverySeq;
}.
Definition AckGap_new (request : ParticipantAckEnvelope) (current_cursor : DeliverySeq)
    : option AckGap :=
  if current_cursor <? pae_through_seq request then Some (mkAckGap request current_cursor)
  else None.

Record AckRegression := mkAckRegression {
  ar_request : ParticipantAckEnvelope;
  ar_current_cursor : DeliverySeq;
}.
Definition AckRegression_new (request : ParticipantAckEnvelope)
    (current_cursor : DeliverySeq) : option AckRegression :=
  if pae_through_seq request <? current_cursor
  then Some (mkAckRegression request current_cursor)
  else None.

Record LeaveCommitted := mkLeaveCommitted {
  lc_conversation_id : ConversationId;
  lc_leave_attempt_token : LeaveAttemptToken;
  lc_participant_id : ParticipantId;
  lc_retired_generation : Generation;
  lc_ended_binding_epoch : option BindingEpoch;
  lc_prior_terminal_delivery_seq : option DeliverySeq;
  lc_left_delivery_seq : DeliverySeq;
}.

Definition LeaveCommitted_new (conversation_id : ConversationId)
    (leave_attempt_token : LeaveAttemptToken) (participant_id : ParticipantId)
    (retired_generation : Generation) (ended_binding_epoch : option BindingEpoch)
    (prior_terminal_delivery_seq : option DeliverySeq) (left_delivery_seq : DeliverySeq)
    : option LeaveCommitted :=
  let epoch_mismatch :=
    match ended_binding_epoch with
    | Some epoch => negb (capability_generation epoch =? retired_generation)
    | None => false
    end in
  let prior_not_before :=
    match prior_terminal_delivery_seq with
    | Some prior => left_delivery_seq <=? prior
    | None => false
    end in
  if epoch_mismatch then None
  else if prior_not_before then None
  else Some (mkLeaveCommitted conversation_id leave_attempt_token participant_id
               retired_generation ended_binding_epoch prior_terminal_delivery_seq
               left_delivery_seq).

Record MarkerAckCommitted := mkMarkerAckCommitted { mac_request : MarkerAckEnvelope }.
Definition mac_current_cursor (v : MarkerAckCommitted) : DeliverySeq :=
  mae_marker_delivery_seq (mac_request v).

Record RecordCommitted := mkRecordCommitted {
  rcm_request : RecordAdmissionEnvelope;
  rcm_delivery_seq : DeliverySeq;
}.
Definition rcm_sender_participant_id (v : RecordCommitted) : ParticipantId :=
  rae_participant_id (rcm_request v).

Record RecordTooLarge := mkRecordTooLarge {
  rtl_request : RecordAdmissionEnvelope;
  rtl_dimension : ResourceDimension;
  rtl_encoded_record_charge : ResourceVector;
  rtl_max_ordinary_record_charge : ResourceVector;
}.

Record ObserverProgressStatus := mkObserverProgressStatus {
  ops_conversation_id : ConversationId;
  ops_refused_epoch : ObserverEpoch;
  ops_current_observer_progress : DeliverySeq;
  ops_armed : bool;
  ops_progressed : bool;
}.

Record ObserverRecoveryAccepted := mkObserverRecoveryAccepted {
  ora_statuses : list ObserverProgressStatus;
}.

Inductive InvalidObserverEpoch :=
| IOE_ConversationUnknown (conversation_id : ConversationId) (presented_epoch : ObserverEpoch)
| IOE_EpochAhead (conversation_id : ConversationId) (presented_epoch : ObserverEpoch)
    (current_observer_progress : DeliverySeq).

Definition invalid_observer_epoch_reason (v : InvalidObserverEpoch)
    : InvalidObserverEpochReason :=
  match v with
  | IOE_ConversationUnknown _ _ => IE_ConversationUnknown
  | IOE_EpochAhead _ _ _ => IE_EpochAhead
  end.

Inductive InvalidObserverEpochList :=
| IOL_TooManyEntries (presented_entries max_entries : Z)
| IOL_DuplicateConversation (conversation_id : ConversationId)
    (first_index duplicate_index : Z).

Definition invalid_observer_epoch_list_reason (v : InvalidObserverEpochList)
    : InvalidObserverEpochListReason :=
  match v with
  | IOL_TooManyEntries _ _ => IL_TooManyEntries
  | IOL_DuplicateConversation _ _ _ => IL_DuplicateConversation
  end.

Inductive ServerValue :=
| SV_ParticipantTransportRejected (v : ParticipantTransportRejected)
| SV_AttemptTokenBodyConflict (v : AttemptTokenBodyConflict)
| SV_ConnectionConversationCapacityExceeded (v : ConnectionConversationCapacityExceeded)
| SV_ConnectionConversationBindingOccupied (v : ConnectionConversationBindingOccupied)
| SV_ConversationOrderExhausted (v : ConversationOrderExhausted)
| SV_ParticipantUnknown (v : ParticipantUnknown)
| SV_NoBinding (v : NoBinding)
| SV_StaleAuthority (v : StaleAuthority)
| SV_Retired (v : Retired)
| SV_MarkerClosureCapacityExceeded (v : MarkerClosureCapacityExceeded)
| SV_EnrollBound (v : EnrollBound)
| SV_EnrollmentKnown (v : EnrollmentKnown)
| SV_ReceiptExpired (v : ReceiptExpired)
| SV_ReceiptCapacityExceeded (v : ReceiptCapacityExceeded)
| SV_IdentityCapacityExceeded (v : IdentityCapacityExceeded)
| SV_ObserverBackpressure (v : ObserverBackpressure)
| SV_ConversationSequenceExhausted (v : ConversationSequenceExhausted)
| SV_AttachBound (v : AttachBound)
| SV_StaleOrUnknownReceipt (v : StaleOrUnknownReceipt)
| SV_MarkerNotDelivered (v : MarkerNotDelivered)
| SV_MarkerMismatch (v : MarkerMismatch)
| SV_Bound (v : ReceiptReplay)
| SV_UnboundReceipt (v : ReceiptReplay)
| SV_DetachCommitted (v : DetachCommitted)
| SV_DetachInProgress (v : DetachInProgress)
| SV_AckCommitted (v : AckCommitted)
| SV_AckNoOp (v : AckNoOp)
| SV_AckGap (v : AckGap)
| SV_AckRegression (v : AckRegression)
| SV_LeaveCommitted (v : LeaveCommitted)
| SV_MarkerAckCommitted (v : MarkerAckCommitted)
| SV_RecordCommitted (v : RecordCommitted)
| SV_RecordTooLarge (v : RecordTooLarge)
| SV_ObserverRecoveryAccepted (v : ObserverRecoveryAccepted)
| SV_InvalidObserverEpoch (v : InvalidObserverEpoch)
| SV_InvalidObserverEpochList (v : InvalidObserverEpochList)
| SV_MarkerSettlementBackpressure (v : MarkerSettlementBackpressure)
| SV_EnrollmentSettlementBackpressure (v : EnrollmentSettlementBackpressure).

Definition server_discriminant (v : ServerValue) : ServerDiscriminant :=
  match v with
  | SV_ParticipantTransportRejected _ => SD_ParticipantTransportRejected
  | SV_AttemptTokenBodyConflict _ => SD_AttemptTokenBodyConflict
  | SV_ConnectionConversationCapacityExceeded v =>
      match v with
      | CCC_SemanticRequest _ _ => SD_ConnectionConversationCapacityExceeded
      | CCC_ObserverRecovery _ _ => SD_ObserverRecoveryConnectionCapacityExceeded
      end
  | SV_ConnectionConversationBindingOccupied _ => SD_ConnectionConversationBindingOccupied
  | SV_ConversationOrderExhausted _ => SD_ConversationOrderExhausted
  | SV_ParticipantUnknown _ => SD_ParticipantUnknown
  | SV_NoBinding _ => SD_NoBinding
  | SV_StaleAuthority _ => SD_StaleAuthority
  | SV_Retired _ => SD_Retired
  | SV_MarkerClosureCapacityExceeded _ => SD_MarkerClosureCapacityExceeded
  | SV_EnrollBound _ => SD_EnrollBound
  | SV_EnrollmentKnown _ => SD_EnrollmentKnown
  | SV_ReceiptExpired _ => SD_ReceiptExpired
  | SV_ReceiptCapacityExceeded _ => SD_ReceiptCapacityExceeded
  | SV_IdentityCapacityExceeded _ => SD_IdentityCapacityExceeded
  | SV_ObserverBackpressure _ => SD_ObserverBackpressure
  | SV_ConversationSequenceExhausted _ => SD_ConversationSequenceExhausted
  | SV_AttachBound _ => SD_AttachBound
  | SV_StaleOrUnknownReceipt _ => SD_StaleOrUnknownReceipt
  | SV_MarkerNotDelivered _ => SD_MarkerNotDelivered
  | SV_MarkerMismatch _ => SD_MarkerMismatch
  | SV_Bound _ => SD_Bound
  | SV_UnboundReceipt _ => SD_UnboundReceipt
  | SV_DetachCommitted _ => SD_DetachCommitted
  | SV_DetachInProgress _ => SD_DetachInProgress
  | SV_AckCommitted _ => SD_AckCommitted
  | SV_AckNoOp _ => SD_AckNoOp
  | SV_AckGap _ => SD_AckGap
  | SV_AckRegression _ => SD_AckRegression
  | SV_LeaveCommitted _ => SD_LeaveCommitted
  | SV_MarkerAckCommitted _ => SD_MarkerAckCommitted
  | SV_RecordCommitted _ => SD_RecordCommitted
  | SV_RecordTooLarge _ => SD_RecordTooLarge
  | SV_ObserverRecoveryAccepted _ => SD_ObserverRecoveryAccepted
  | SV_InvalidObserverEpoch _ => SD_InvalidObserverEpoch
  | SV_InvalidObserverEpochList _ => SD_InvalidObserverEpochList
  | SV_MarkerSettlementBackpressure _ => SD_MarkerSettlementBackpressure
  | SV_EnrollmentSettlementBackpressure _ => SD_EnrollmentSettlementBackpressure
  end.

Definition participant_reference_origin (e : ParticipantReferenceEnvelope)
    : ClientDiscriminant :=
  match e with
  | PRE_CredentialAttach _ => CD_CredentialAttachRequest
  | PRE_Detach _ => CD_DetachRequest
  | PRE_ParticipantAck _ => CD_ParticipantAck
  | PRE_Leave _ => CD_LeaveRequest
  | PRE_MarkerAck _ => CD_MarkerAck
  | PRE_RecordAdmission _ => CD_RecordAdmission
  end.

Definition binding_required_origin (e : BindingRequiredEnvelope) : ClientDiscriminant :=
  match e with
  | BRE_Detach _ => CD_DetachRequest
  | BRE_ParticipantAck _ => CD_ParticipantAck
  | BRE_Leave _ => CD_LeaveRequest
  | BRE_MarkerAck _ => CD_MarkerAck
  | BRE_RecordAdmission _ => CD_RecordAdmission
  end.

Definition stale_authority_origin (v : StaleAuthority) : ClientDiscriminant :=
  match v with
  | SA_Live request _ =>
      match request with
      | CSA_CredentialAttach _ => CD_CredentialAttachRequest
      | CSA_ParticipantAck _ => CD_ParticipantAck
      | CSA_MarkerAck _ => CD_MarkerAck
      | CSA_RecordAdmission _ => CD_RecordAdmission
      end
  | SA_Detach _ => CD_DetachRequest
  | SA_Leave _ => CD_LeaveRequest
  end.

Definition marker_proof_origin (r : MarkerProofRequest) : ClientDiscriminant :=
  match r with
  | MPR_CredentialAttach _ => CD_CredentialAttachRequest
  | MPR_MarkerAck _ => CD_MarkerAck
  end.

Definition originating_request (v : ServerValue) : option ClientDiscriminant :=
  match v with
  | SV_ParticipantTransportRejected _
  | SV_ObserverRecoveryAccepted _
  | SV_InvalidObserverEpoch _
  | SV_InvalidObserverEpochList _ => None
  | SV_AttemptTokenBodyConflict v =>
      Some (match v with
            | ATB_CredentialAttach _ _ _ _ _ _ => CD_CredentialAttachRequest
            | ATB_Leave _ _ _ _ => CD_LeaveRequest
            | ATB_RecordAdmission _ _ _ _ => CD_RecordAdmission
            end)
  | SV_ConnectionConversationCapacityExceeded v =>
      match v with
      | CCC_SemanticRequest request _ => Some (response_envelope_origin request)
      | CCC_ObserverRecovery _ _ => None
      end
  | SV_ConnectionConversationBindingOccupied v =>
      Some (match v with
            | CCB_Enrollment _ _ => CD_EnrollmentRequest
            | CCB_CredentialAttach _ _ _ _ _ => CD_CredentialAttachRequest
            end)
  | SV_ConversationOrderExhausted v =>
      Some (match coe_request v with
            | OAE_Enrollment _ => CD_EnrollmentRequest
            | OAE_CredentialAttach _ => CD_CredentialAttachRequest
            | OAE_RecordAdmission _ => CD_RecordAdmission
            end)
  | SV_ParticipantUnknown v => Some (participant_reference_origin (pu_request v))
  | SV_NoBinding v => Some (binding_required_origin (nb_request v))
  | SV_StaleAuthority v => Some (stale_authority_origin v)
  | SV_Retired v =>
      Some (match v with
            | Retired_Enrollment _ _ _ => CD_EnrollmentRequest
            | Retired_Participant request _ => participant_reference_origin request
            end)
  | SV_MarkerClosureCapacityExceeded v =>
      Some (match mcce_request v with
            | CCE_Enrollment _ => CD_EnrollmentRequest
            | CCE_CredentialAttach _ => CD_CredentialAttachRequest
            | CCE_Leave _ => CD_LeaveRequest
            | CCE_RecordAdmission _ => CD_RecordAdmission
            end)
  | SV_EnrollBound _
  | SV_EnrollmentKnown _
  | SV_IdentityCapacityExceeded _
  | SV_EnrollmentSettlementBackpressure _ => Some CD_EnrollmentRequest
  | SV_ReceiptExpired v =>
      Some (match v with
            | RX_Enrollment _ _ _ _ _ _ => CD_EnrollmentRequest
            | RX_CredentialAttach _ _ _ _ _ _ _ _ => CD_CredentialAttachRequest
            end)
  | SV_ReceiptCapacityExceeded v =>
      Some (match v with
            | RCE_Enrollment _ _ _ _ => CD_EnrollmentRequest
            | RCE_CredentialAttach _ _ _ _ => CD_CredentialAttachRequest
            end)
  | SV_ObserverBackpressure v =>
      Some (match v with
            | OB_Enrollment _ _ => CD_EnrollmentRequest
            | OB_CredentialAttach _ _ => CD_CredentialAttachRequest
            | OB_Detach _ _ _ => CD_DetachRequest
            | OB_Leave _ _ _ => CD_LeaveRequest
            | OB_RecordAdmission _ _ => CD_RecordAdmission
            end)
  | SV_ConversationSequenceExhausted v =>
      Some (match cse_request v with
            | SAE_Enrollment _ => CD_EnrollmentRequest
            | SAE_CredentialAttach _ => CD_CredentialAttachRequest
            | SAE_RecordAdmission _ => CD_RecordAdmission
            end)
  | SV_AttachBound _ | SV_StaleOrUnknownReceipt _ => Some CD_CredentialAttachRequest
  | SV_MarkerNotDelivered v => Some (marker_proof_origin (mnd_request v))
  | SV_MarkerMismatch v => Some (marker_proof_origin (mmm_request v))
  | SV_Bound v | SV_UnboundReceipt v =>
      Some (match v with
            | RR_Enrollment _ => CD_EnrollmentRequest
            | RR_CredentialAttach _ => CD_CredentialAttachRequest
            end)
  | SV_DetachCommitted _ | SV_DetachInProgress _ => Some CD_DetachRequest
  | SV_AckCommitted _ | SV_AckGap _ | SV_AckRegression _ => Some CD_ParticipantAck
  | SV_AckNoOp v =>
      Some (match v with
            | ANO_ParticipantAck _ => CD_ParticipantAck
            | ANO_MarkerAck _ => CD_MarkerAck
            end)
  | SV_LeaveCommitted _ => Some CD_LeaveRequest
  | SV_MarkerAckCommitted _ => Some CD_MarkerAck
  | SV_RecordCommitted _ | SV_RecordTooLarge _ => Some CD_RecordAdmission
  | SV_MarkerSettlementBackpressure v =>
      Some (match v with
            | MSB_CredentialAttach _ _ => CD_CredentialAttachRequest
            | MSB_Detach _ _ => CD_DetachRequest
            end)
  end.

(** ["participant-v1"], as UTF-8 bytes. *)
Definition PARTICIPANT_CAPABILITY : list byte :=
  [Byte.x70; Byte.x61; Byte.x72; Byte.x74; Byte.x69; Byte.x63; Byte.x69; Byte.x70;
   Byte.x61; Byte.x6e; Byte.x74; Byte.x2d; Byte.x76; Byte.x31].

(** ** Well-formedness *)

Definition wf_repayment_edge (e : RepaymentEdge) : Prop :=
  match e with
  | Edge_None => True
  | Edge_ObserverProjection s => u64 s
  | Edge_PhysicalCompaction f s => u64 f /\ u64 s
  | Edge_MarkerDelivery p b m => u64 p /\ wf_epoch b /\ u64 m
  | Edge_ParticipantCursorProgress (mkParticipantCursorProgressEdge p b s m) =>
      u64 p /\ wf_epoch b /\ u64 s /\ wf_opt u64 m
  | Edge_DetachedCredentialRecovery p m b => u64 p /\ u64 m /\ wf_epoch b
  | Edge_DetachedMarkerRelease p m b => u64 p /\ u64 m /\ wf_epoch b
  | Edge_DetachedCursorRelease p b => u64 p /\ wf_epoch b
  end.

Definition wf_closure_checked (e : ClosureCheckedEnvelope) : Prop :=
  match e with
  | CCE_Enrollment e => wf_enrollment e
  | CCE_CredentialAttach e => wf_attach e
  | CCE_Leave e => wf_leave e
  | CCE_RecordAdmission e => wf_record_admission e
  end.

Definition wf_closure_snapshot (s : ClosureSnapshot) : Prop :=
  u64 (cs_marker_capacity_credits s) /\ u64 (cs_marker_anchors s) /\
  u64 (cs_entry_debt s) /\ u64 (cs_byte_debt s) /\
  wf_repayment_edge (cs_repayment_edge s) /\
  u64 (cs_edge_sequence_claims s) /\ u64 (cs_edge_order_position_claims s) /\
  rv_ok (cs_edge_k_remaining s) /\ wrv_ok (cs_k_headroom s) /\
  u64 (cs_episode_churn_used s) /\ u64 (cs_delta_cycles s) /\ u64 (cs_episode_churn_limit s).

Definition wf_closure_reason (r : ClosureRefusalReason) : Prop :=
  match r with
  | CRR_Capacity (mkClosureCapacityReason _ required limit) => u128 required /\ u128 limit
  | _ => True
  end.

Definition wf_sequence_budget (b : SequenceBudget) : Prop :=
  u64 (sb_high_watermark b) /\ u64 (sb_remaining b) /\ u64 (sb_e b) /\ u64 (sb_t b) /\
  u64 (sb_m b) /\ u64 (sb_rs b) /\ u64 (sb_rt b) /\ u128 (sb_l_times_t b) /\
  u128 (sb_l_times_rt b) /\ u128 (sb_l_other_times_e b).

Definition wf_transport_reason (r : TransportRejectionReason) : Prop :=
  match r with
  | TRR_FrameTooLarge c m => u64 c /\ u64 m
  | TRR_DecodeFailed _ => True
  | TRR_UnsupportedVersion p s => wf_version p /\ wf_version s
  | TRR_AuthenticationFailed | TRR_ParticipantCapabilityRequired => True
  end.

Definition wf_order_allocating (e : OrderAllocatingEnvelope) : Prop :=
  match e with
  | OAE_Enrollment e => wf_enrollment e
  | OAE_CredentialAttach e => wf_attach e
  | OAE_RecordAdmission e => wf_record_admission e
  end.

Definition wf_sequence_allocating (e : SequenceAllocatingEnvelope) : Prop :=
  match e with
  | SAE_Enrollment e => wf_enrollment e
  | SAE_CredentialAttach e => wf_attach e
  | SAE_RecordAdmission e => wf_record_admission e
  end.

Definition wf_participant_reference (e : ParticipantReferenceEnvelope) : Prop :=
  match e with
  | PRE_CredentialAttach e => wf_attach e
  | PRE_Detach e => wf_detach e
  | PRE_ParticipantAck e => wf_participant_ack e
  | PRE_Leave e => wf_leave e
  | PRE_MarkerAck e => wf_marker_ack e
  | PRE_RecordAdmission e => wf_record_admission e
  end.

Definition wf_binding_required (e : BindingRequiredEnvelope) : Prop :=
  match e with
  | BRE_Detach e => wf_detach e
  | BRE_ParticipantAck e => wf_participant_ack e
  | BRE_Leave e => wf_leave e
  | BRE_MarkerAck e => wf_marker_ack e
  | BRE_RecordAdmission e => wf_record_admission e
  end.

Definition wf_binding_state_view (v : BindingStateView) : Prop :=
  match v with BSV_Bound b => wf_epoch b | BSV_Detached => True end.

Definition wf_stale_authority (v : StaleAuthority) : Prop :=
  match v with
  | SA_Live r g =>
      match r with
      | CSA_CredentialAttach e => wf_attach e
      | CSA_ParticipantAck e => wf_participant_ack e
      | CSA_MarkerAck e => wf_marker_ack e
      | CSA_RecordAdmission e => wf_record_admission e
      end /\ wf_generation g
  | SA_Detach (DSA_Live c p g t g') =>
      u64 c /\ u64 p /\ wf_generation g /\ wf_token t /\ wf_generation g'
  | SA_Detach (DSA_TerminalizedDetachCell (mkTerminalizedDetachCell c p g t g' b v)) =>
      u64 c /\ u64 p /\ wf_generation g /\ wf_token t /\ wf_generation g' /\ wf_epoch b /\
      wf_binding_state_view v
  | SA_Leave (LSA_Live c p g t g' | LSA_CommittedLeaveTombstone c p g t g') =>
      u64 c /\ u64 p /\ wf_generation g /\ wf_token t /\ wf_generation g'
  end.

Definition wf_enroll_bound (v : EnrollBound) : Prop :=
  u64 (eb_conversation_id v) /\ wf_token (eb_token v) /\ u64 (eb_participant_id v) /\
  wf_secret (eb_attach_secret v) /\ wf_epoch (eb_origin_binding_epoch v) /\
  capability_generation (eb_origin_binding_epoch v) = 1 /\
  u128 (eb_receipt_expires_at v) /\ u128 (eb_provenance_expires_at v).

Definition wf_attach_bound (v : AttachBound) : Prop :=
  u64 (ab_conversation_id v) /\ wf_token (ab_token v) /\ u64 (ab_participant_id v) /\
  wf_generation (ab_request_generation v) /\ wf_secret (ab_attach_secret v) /\
  wf_epoch (ab_origin_binding_epoch v) /\
  capability_generation (ab_origin_binding_epoch v) = ab_request_generation v + 1 /\
  u64 (ab_persisted_cursor v) /\
  match ab_accepted_marker_delivery_seq v with
  | Some m => m = ab_persisted_cursor v
  | None => True
  end /\
  u128 (ab_receipt_expires_at v) /\ u128 (ab_provenance_expires_at v).

Definition wf_marker_proof (r : MarkerProofRequest) : Prop :=
  match r with
  | MPR_CredentialAttach (mkAttachMarkerProof c t p g m) =>
      u64 c /\ wf_token t /\ u64 p /\ wf_generation g /\ u64 m
  | MPR_MarkerAck (mkMarkerAckProof c p g m) => u64 c /\ u64 p /\ wf_generation g /\ u64 m
  end.

Definition wf_receipt_replay (v : ReceiptReplay) : Prop :=
  match v with
  | RR_Enrollment v => wf_enroll_bound v
  | RR_CredentialAttach v => wf_attach_bound v
  end.

Definition wf_backpressure_state (s : ObserverBackpressureState) : Prop :=
  u64 (obs_backpressure_epoch s) /\ obs_backpressure_epoch s = obs_observer_progress s.

Definition wf_server_value (v : ServerValue) : Prop :=
  match v with
  | SV_ParticipantTransportRejected v => wf_transport_reason (ptr_reason v)
  | SV_AttemptTokenBodyConflict (ATB_CredentialAttach t c p g m _) =>
      wf_token t /\ u64 c /\ u64 p /\ wf_generation g /\ wf_opt u64 m
  | SV_AttemptTokenBodyConflict (ATB_Leave t c p g | ATB_RecordAdmission t c p g) =>
      wf_token t /\ u64 c /\ u64 p /\ wf_generation g
  | SV_ConnectionConversationCapacityExceeded (CCC_SemanticRequest r l) =>
      wf_response_envelope r /\ u64 l
  | SV_ConnectionConversationCapacityExceeded (CCC_ObserverRecovery c l) => u64 c /\ u64 l
  | SV_ConnectionConversationBindingOccupied (CCB_Enrollment c t) => u64 c /\ wf_token t
  | SV_ConnectionConversationBindingOccupied (CCB_CredentialAttach c p g t m) =>
      u64 c /\ u64 p /\ wf_generation g /\ wf_token t /\ wf_opt u64 m
  | SV_ConversationOrderExhausted (mkConversationOrderExhausted r h a b c d) =>
      wf_order_allocating r /\ u64 h /\ u128 a /\ u128 b /\ u128 c /\ u128 d
  | SV_ParticipantUnknown v => wf_participant_reference (pu_request v)
  | SV_NoBinding v => wf_binding_required (nb_request v)
  | SV_StaleAuthority v => wf_stale_authority v
  | SV_Retired (Retired_Enrollment r p g) => wf_enrollment r /\ u64 p /\ wf_generation g
  | SV_Retired (Retired_Participant r g) => wf_participant_reference r /\ wf_generation g
  | SV_MarkerClosureCapacityExceeded (mkMarkerClosureCapacityExceeded r s c) =>
      wf_closure_checked r /\ wf_closure_snapshot s /\ wf_closure_reason c
  | SV_EnrollBound v => wf_enroll_bound v
  | SV_EnrollmentKnown (mkEnrollmentKnown c t p g) =>
      u64 c /\ wf_token t /\ u64 p /\ wf_generation g
  | SV_ReceiptExpired (RX_Enrollment c t p g g' _) =>
      u64 c /\ wf_token t /\ u64 p /\ wf_generation g /\ wf_generation g'
  | SV_ReceiptExpired (RX_CredentialAttach c t p g m g' g'' _) =>
      u64 c /\ wf_token t /\ u64 p /\ wf_generation g /\ wf_opt u64 m /\
      wf_generation g' /\ wf_generation g''
  | SV_ReceiptCapacityExceeded (RCE_Enrollment r _ l o) => wf_enrollment r /\ u64 l /\ u64 o
  | SV_ReceiptCapacityExceeded (RCE_CredentialAttach r _ l o) => wf_attach r /\ u64 l /\ u64 o
  | SV_IdentityCapacityExceeded (mkIdentityCapacityExceeded r _ l o) =>
      wf_enrollment r /\ u64 l /\ u64 o
  | SV_ObserverBackpressure (OB_Enrollment r s) => wf_enrollment r /\ wf_backpressure_state s
  | SV_ObserverBackpressure (OB_CredentialAttach r s) => wf_attach r /\ wf_backpressure_state s
  | SV_ObserverBackpressure (OB_Detach r b s) =>
      wf_detach r /\ wf_epoch b /\ wf_backpressure_state s
  | SV_ObserverBackpressure (OB_Leave r s _) => wf_leave r /\ wf_backpressure_state s
  | SV_ObserverBackpressure (OB_RecordAdmission r s) =>
      wf_record_admission r /\ wf_backpressure_state s
  | SV_ConversationSequenceExhausted (mkConversationSequenceExhausted r b) =>
      wf_sequence_allocating r /\ wf_sequence_budget b
  | SV_AttachBound v => wf_attach_bound v
  | SV_StaleOrUnknownReceipt (mkStaleOrUnknownReceipt c t p g m g') =>
      u64 c /\ wf_token t /\ u64 p /\ wf_generation g /\ wf_opt u64 m /\ wf_generation g'
  | SV_MarkerNotDelivered (mkMarkerNotDelivered r _ m) => wf_marker_proof r /\ u64 m
  | SV_MarkerMismatch (mkMarkerMismatch r b) =>
      wf_marker_proof r /\
      match b with
      | MMB_BelowCursor c => u64 c
      | MMB_NoMarkerExpected => True
      | MMB_ExpectedDifferentMarker m => u64 m
      end
  | SV_Bound v | SV_UnboundReceipt v => wf_receipt_replay v
  | SV_DetachCommitted (mkDetachCommitted c p t b s) =>
      u64 c /\ u64 p /\ wf_token t /\ wf_epoch b /\ u64 s
  | SV_DetachInProgress (mkDetachInProgress c p t g b) =>
      u64 c /\ u64 p /\ wf_token t /\ wf_generation g /\ wf_epoch b
  | SV_AckCommitted v => wf_participant_ack (acm_request v)
  | SV_AckNoOp (ANO_ParticipantAck r) => wf_participant_ack r
  | SV_AckNoOp (ANO_MarkerAck r) => wf_marker_ack r
  | SV_AckGap (mkAckGap r c) => wf_participant_ack r /\ u64 c /\ c < pae_through_seq r
  | SV_AckRegression (mkAckRegression r c) =>
      wf_participant_ack r /\ u64 c /\ pae_through_seq r < c
  | SV_LeaveCommitted (mkLeaveCommitted c t p g b s l) =>
      u64 c /\ wf_token t /\ u64 p /\ wf_generation g /\ wf_opt wf_epoch b /\
      wf_opt u64 s /\ u64 l /\
      wf_opt (fun b => capability_generation b = g) b /\ wf_opt (fun s => s < l) s
  | SV_MarkerAckCommitted v => wf_marker_ack (mac_request v)
  | SV_RecordCommitted (mkRecordCommitted r s) => wf_record_admission r /\ u64 s
  | SV_RecordTooLarge (mkRecordTooLarge r _ a b) => wf_record_admission r /\ rv_ok a /\ rv_ok b
  | SV_ObserverRecoveryAccepted (mkObserverRecoveryAccepted l) =>
      u64 (Z.of_nat (length l)) /\
      Forall (fun s => u64 (ops_conversation_id s) /\ u64 (ops_refused_epoch s) /\
                       u64 (ops_current_observer_progress s)) l
  | SV_InvalidObserverEpoch (IOE_ConversationUnknown c e) => u64 c /\ u64 e
  | SV_InvalidObserverEpoch (IOE_EpochAhead c e o) => u64 c /\ u64 e /\ u64 o
  | SV_InvalidObserverEpochList (IOL_TooManyEntries p m) => u64 p /\ u64 m
  | SV_InvalidObserverEpochList (IOL_DuplicateConversation c f d) => u64 c /\ u64 f /\ u64 d
  | SV_MarkerSettlementBackpressure (MSB_CredentialAttach c e | MSB_Detach c e) =>
      u64 c /\ u64 e
  | SV_EnrollmentSettlementBackpressure v => u64 (esb_conversation_id v)
  end.
