(* ===== verification/Authority.v ===== *)
(** * Request-bound response authority

    Model of [liminal-protocol/src/wire/authority]: one response type per request,
    each with constructors for exactly the server values the contract admits for that
    request.  A response type is a record around the server value, as in the source;
    its constructors are the only functions that build one.  [BoundResponse] is the
    interface the eight types share: the value they carry and the request they are
    bound to. *)
From coqutil Require Import Byte.
From S2P Require Import Prelude Algebra Tags Wire Response.

Class BoundResponse (R : Type) := {
  server_value : R -> ServerValue;
  bound_request : ClientDiscriminant;
}.

(** [discriminant]: the wire discriminant of the bound value. *)
Definition bound_discriminant {R} `{BoundResponse R} (r : R) : ServerDiscriminant :=
  server_discriminant (server_value r).

(** ** enrollment.rs: [EnrollmentResponse] *)

Record EnrollmentResponse := mkEnrollmentResponse { enr_value : ServerValue }.
#[export] Instance EnrollmentResponse_authority : BoundResponse EnrollmentResponse :=
  {| server_value := enr_value; bound_request := CD_EnrollmentRequest |}.
Definition EnrollmentResponse_connection_conversation_capacity_exceeded
    (request : EnrollmentEnvelope) (limit : Z) : EnrollmentResponse :=
  mkEnrollmentResponse (SV_ConnectionConversationCapacityExceeded (CCC_SemanticRequest
    (RE_Enrollment request) limit)).
Definition EnrollmentResponse_connection_conversation_binding_occupied
    (request : EnrollmentEnvelope) : EnrollmentResponse :=
  mkEnrollmentResponse (SV_ConnectionConversationBindingOccupied (CCB_Enrollment
    (ee_conversation_id request) (ee_enrollment_token request))).
Definition EnrollmentResponse_from_conversation_order_exhausted
    (value : ConversationOrderExhausted) : EnrollmentResponse :=
  mkEnrollmentResponse (SV_ConversationOrderExhausted value).
Definition EnrollmentResponse_from_retired (value : Retired) : EnrollmentResponse :=
  mkEnrollmentResponse (SV_Retired value).
Definition EnrollmentResponse_from_marker_closure_capacity_exceeded
    (value : MarkerClosureCapacityExceeded) : EnrollmentResponse :=
  mkEnrollmentResponse (SV_MarkerClosureCapacityExceeded value).
Definition EnrollmentResponse_enroll_bound (value : EnrollBound) : EnrollmentResponse :=
  mkEnrollmentResponse (SV_EnrollBound value).
Definition EnrollmentResponse_enrollment_known (value : EnrollmentKnown) : EnrollmentResponse :=
  mkEnrollmentResponse (SV_EnrollmentKnown value).
Definition EnrollmentResponse_from_receipt_expired (value : ReceiptExpired)
    : EnrollmentResponse :=
  mkEnrollmentResponse (SV_ReceiptExpired value).
Definition EnrollmentResponse_receipt_expired (request : EnrollmentEnvelope)
    (participant_id : Z) (result_generation current_generation : Generation)
    (reason : ReceiptExpiryReason) : EnrollmentResponse :=
  mkEnrollmentResponse (SV_ReceiptExpired (RX_Enrollment (ee_conversation_id request)
    (ee_enrollment_token request) participant_id result_generation current_generation
    reason)).
Definition EnrollmentResponse_receipt_capacity_exceeded (request : EnrollmentEnvelope)
    (scope : EnrollmentReceiptCapacityScope) (limit occupied : Z) : EnrollmentResponse :=
  mkEnrollmentResponse (SV_ReceiptCapacityExceeded (RCE_Enrollment request scope limit
    occupied)).
Definition EnrollmentResponse_identity_capacity_exceeded (value : IdentityCapacityExceeded)
    : EnrollmentResponse :=
  mkEnrollmentResponse (SV_IdentityCapacityExceeded value).
Definition EnrollmentResponse_observer_backpressure (request : EnrollmentEnvelope)
    (state : ObserverBackpressureState) : EnrollmentResponse :=
  mkEnrollmentResponse (SV_ObserverBackpressure (OB_Enrollment request state)).
Definition EnrollmentResponse_settlement_backpressure (request : EnrollmentEnvelope)
    : EnrollmentResponse :=
  mkEnrollmentResponse (SV_EnrollmentSettlementBackpressure
    (mkEnrollmentSettlementBackpressure (ee_conversation_id request))).
Definition EnrollmentResponse_from_observer_backpressure (value : ObserverBackpressure)
    : EnrollmentResponse :=
  mkEnrollmentResponse (SV_ObserverBackpressure value).
Definition EnrollmentResponse_from_conversation_sequence_exhausted
    (value : ConversationSequenceExhausted) : EnrollmentResponse :=
  mkEnrollmentResponse (SV_ConversationSequenceExhausted value).
Definition EnrollmentResponse_bound (value : EnrollBound) : EnrollmentResponse :=
  mkEnrollmentResponse (SV_Bound (RR_Enrollment value)).
Definition EnrollmentResponse_unbound_receipt (value : EnrollBound) : EnrollmentResponse :=
  mkEnrollmentResponse (SV_UnboundReceipt (RR_Enrollment value)).
Definition EnrollmentResponse_from_bound (value : ReceiptReplay) : EnrollmentResponse :=
  mkEnrollmentResponse (SV_Bound value).
Definition EnrollmentResponse_from_unbound_receipt (value : ReceiptReplay)
    : EnrollmentResponse :=
  mkEnrollmentResponse (SV_UnboundReceipt value).

(** ** credential_attach.rs: [CredentialAttachResponse] *)

Record CredentialAttachResponse := mkCredentialAttachResponse { cat_value : ServerValue }.
#[export] Instance CredentialAttachResponse_authority : BoundResponse CredentialAttachResponse :=
  {| server_value := cat_value; bound_request := CD_CredentialAttachRequest |}.
Definition CredentialAttachResponse_attempt_token_body_conflict (request : AttachEnvelope)
    (conflict : AttemptConflict) : CredentialAttachResponse :=
  mkCredentialAttachResponse (SV_AttemptTokenBodyConflict (ATB_CredentialAttach
    (ae_attach_attempt_token request) (ae_conversation_id request) (ae_participant_id request)
    (ae_capability_generation request) (ae_accept_marker_delivery_seq request) conflict)).
Definition CredentialAttachResponse_connection_conversation_capacity_exceeded
    (request : AttachEnvelope) (limit : Z) : CredentialAttachResponse :=
  mkCredentialAttachResponse (SV_ConnectionConversationCapacityExceeded (CCC_SemanticRequest
    (RE_CredentialAttach request) limit)).
Definition CredentialAttachResponse_connection_conversation_binding_occupied
    (request : AttachEnvelope) : CredentialAttachResponse :=
  mkCredentialAttachResponse (SV_ConnectionConversationBindingOccupied (CCB_CredentialAttach
    (ae_conversation_id request) (ae_participant_id request) (ae_capability_generation
    request) (ae_attach_attempt_token request) (ae_accept_marker_delivery_seq request))).
Definition CredentialAttachResponse_conversation_order_exhausted (request : AttachEnvelope)
    (high order_remaining reserved_claims resulting_order_remaining resulting_reserved_claims : Z)
    : CredentialAttachResponse :=
  mkCredentialAttachResponse (SV_ConversationOrderExhausted (mkConversationOrderExhausted
    (OAE_CredentialAttach request) high order_remaining reserved_claims
    resulting_order_remaining resulting_reserved_claims)).
Definition CredentialAttachResponse_participant_unknown (request : AttachEnvelope)
    : CredentialAttachResponse :=
  mkCredentialAttachResponse (SV_ParticipantUnknown (mkParticipantUnknown
    (PRE_CredentialAttach request))).
Definition CredentialAttachResponse_stale_authority (request : AttachEnvelope)
    (current_generation : Generation) : CredentialAttachResponse :=
  mkCredentialAttachResponse (SV_StaleAuthority (SA_Live (CSA_CredentialAttach request)
    current_generation)).
Definition CredentialAttachResponse_retired (request : AttachEnvelope)
    (retired_generation : Generation) : CredentialAttachResponse :=
  mkCredentialAttachResponse (SV_Retired (Retired_Participant (PRE_CredentialAttach request)
    retired_generation)).
Definition CredentialAttachResponse_marker_closure_capacity_exceeded (request : AttachEnvelope)
    (snapshot : ClosureSnapshot) (reason : ClosureRefusalReason) : CredentialAttachResponse :=
  mkCredentialAttachResponse (SV_MarkerClosureCapacityExceeded
    (mkMarkerClosureCapacityExceeded (CCE_CredentialAttach request) snapshot reason)).
Definition CredentialAttachResponse_attach_bound (value : AttachBound)
    : CredentialAttachResponse :=
  mkCredentialAttachResponse (SV_AttachBound value).
Definition CredentialAttachResponse_receipt_expired (request : AttachEnvelope)
    (result_generation current_generation : Generation) (reason : ReceiptExpiryReason)
    : CredentialAttachResponse :=
  mkCredentialAttachResponse (SV_ReceiptExpired (RX_CredentialAttach (ae_conversation_id
    request) (ae_attach_attempt_token request) (ae_participant_id request)
    (ae_capability_generation request) (ae_accept_marker_delivery_seq request)
    result_generation current_generation reason)).
Definition CredentialAttachResponse_stale_or_unknown_receipt (value : StaleOrUnknownReceipt)
    : CredentialAttachResponse :=
  mkCredentialAttachResponse (SV_StaleOrUnknownReceipt value).
Definition CredentialAttachResponse_marker_not_delivered (proof : AttachMarkerProof)
    (reason : MarkerNotDeliveredReason) (expected_marker_delivery_seq : DeliverySeq)
    : CredentialAttachResponse :=
  mkCredentialAttachResponse (SV_MarkerNotDelivered (mkMarkerNotDelivered
    (MPR_CredentialAttach proof) reason expected_marker_delivery_seq)).
Definition CredentialAttachResponse_marker_mismatch (proof : AttachMarkerProof)
    (mismatch : MarkerMismatchBody) : CredentialAttachResponse :=
  mkCredentialAttachResponse (SV_MarkerMismatch (mkMarkerMismatch (MPR_CredentialAttach proof)
    mismatch)).
Definition CredentialAttachResponse_receipt_capacity_exceeded (request : AttachEnvelope)
    (scope : ReceiptCapacityScope) (limit occupied : Z) : CredentialAttachResponse :=
  mkCredentialAttachResponse (SV_ReceiptCapacityExceeded (RCE_CredentialAttach request scope
    limit occupied)).
Definition CredentialAttachResponse_observer_backpressure (request : AttachEnvelope)
    (state : ObserverBackpressureState) : CredentialAttachResponse :=
  mkCredentialAttachResponse (SV_ObserverBackpressure (OB_CredentialAttach request state)).
Definition CredentialAttachResponse_marker_settlement_backpressure (request : AttachEnvelope)
    (refused_epoch : SettlementEpoch) : CredentialAttachResponse :=
  mkCredentialAttachResponse (SV_MarkerSettlementBackpressure (MSB_CredentialAttach
    (ae_conversation_id request) refused_epoch)).
Definition CredentialAttachResponse_conversation_sequence_exhausted (request : AttachEnvelope)
    (sequence_budget : SequenceBudget) : CredentialAttachResponse :=
  mkCredentialAttachResponse (SV_ConversationSequenceExhausted
    (mkConversationSequenceExhausted (SAE_CredentialAttach request) sequence_budget)).
Definition CredentialAttachResponse_bound (value : AttachBound) : CredentialAttachResponse :=
  mkCredentialAttachResponse (SV_Bound (RR_CredentialAttach value)).
Definition CredentialAttachResponse_unbound_receipt (value : AttachBound)
    : CredentialAttachResponse :=
  mkCredentialAttachResponse (SV_UnboundReceipt (RR_CredentialAttach value)).

(** ** lifecycle.rs: [DetachResponse] *)

Record DetachResponse := mkDetachResponse { det_value : ServerValue }.
#[export] Instance DetachResponse_authority : BoundResponse DetachResponse :=
  {| server_value := det_value; bound_request := CD_DetachRequest |}.
Definition DetachResponse_connection_conversation_capacity_exceeded (request : DetachEnvelope)
    (limit : Z) : DetachResponse :=
  mkDetachResponse (SV_ConnectionConversationCapacityExceeded (CCC_SemanticRequest (RE_Detach
    request) limit)).
Definition DetachResponse_participant_unknown (request : DetachEnvelope) : DetachResponse :=
  mkDetachResponse (SV_ParticipantUnknown (mkParticipantUnknown (PRE_Detach request))).
Definition DetachResponse_no_binding (request : DetachEnvelope) : DetachResponse :=
  mkDetachResponse (SV_NoBinding (mkNoBinding (BRE_Detach request))).
Definition DetachResponse_stale_authority (value : DetachStaleAuthority) : DetachResponse :=
  mkDetachResponse (SV_StaleAuthority (SA_Detach value)).
Definition DetachResponse_retired (request : DetachEnvelope) (retired_generation : Generation)
    : DetachResponse :=
  mkDetachResponse (SV_Retired (Retired_Participant (PRE_Detach request) retired_generation)).
Definition DetachResponse_detach_committed (value : DetachCommitted) : DetachResponse :=
  mkDetachResponse (SV_DetachCommitted value).
Definition DetachResponse_detach_in_progress (value : DetachInProgress) : DetachResponse :=
  mkDetachResponse (SV_DetachInProgress value).
Definition DetachResponse_observer_backpressure (request : DetachEnvelope)
    (committed_binding_epoch : BindingEpoch) (state : ObserverBackpressureState)
    : DetachResponse :=
  mkDetachResponse (SV_ObserverBackpressure (OB_Detach request committed_binding_epoch
    state)).
Definition DetachResponse_marker_settlement_backpressure (request : DetachEnvelope)
    (refused_epoch : SettlementEpoch) : DetachResponse :=
  mkDetachResponse (SV_MarkerSettlementBackpressure (MSB_Detach (de_conversation_id request)
    refused_epoch)).

(** ** lifecycle.rs: [LeaveResponse] *)

Record LeaveResponse := mkLeaveResponse { lea_value : ServerValue }.
#[export] Instance LeaveResponse_authority : BoundResponse LeaveResponse :=
  {| server_value := lea_value; bound_request := CD_LeaveRequest |}.
Definition LeaveResponse_attempt_token_body_conflict (token : LeaveAttemptToken)
    (conversation_id : ConversationId) (presented_participant_id : ParticipantId)
    (presented_generation : Generation) : LeaveResponse :=
  mkLeaveResponse (SV_AttemptTokenBodyConflict (ATB_Leave token conversation_id
    presented_participant_id presented_generation)).
Definition LeaveResponse_connection_conversation_capacity_exceeded (request : LeaveEnvelope)
    (limit : Z) : LeaveResponse :=
  mkLeaveResponse (SV_ConnectionConversationCapacityExceeded (CCC_SemanticRequest (RE_Leave
    request) limit)).
Definition LeaveResponse_participant_unknown (request : LeaveEnvelope) : LeaveResponse :=
  mkLeaveResponse (SV_ParticipantUnknown (mkParticipantUnknown (PRE_Leave request))).
Definition LeaveResponse_no_binding (request : LeaveEnvelope) : LeaveResponse :=
  mkLeaveResponse (SV_NoBinding (mkNoBinding (BRE_Leave request))).
Definition LeaveResponse_stale_authority (value : LeaveStaleAuthority) : LeaveResponse :=
  mkLeaveResponse (SV_StaleAuthority (SA_Leave value)).
Definition LeaveResponse_retired (request : LeaveEnvelope) (retired_generation : Generation)
    : LeaveResponse :=
  mkLeaveResponse (SV_Retired (Retired_Participant (PRE_Leave request) retired_generation)).
Definition LeaveResponse_marker_closure_capacity_exceeded (request : LeaveEnvelope)
    (snapshot : ClosureSnapshot) (reason : ClosureRefusalReason) : LeaveResponse :=
  mkLeaveResponse (SV_MarkerClosureCapacityExceeded (mkMarkerClosureCapacityExceeded
    (CCE_Leave request) snapshot reason)).
Definition LeaveResponse_leave_committed (value : LeaveCommitted) : LeaveResponse :=
  mkLeaveResponse (SV_LeaveCommitted value).
Definition LeaveResponse_observer_backpressure (request : LeaveEnvelope)
    (state : ObserverBackpressureState) (prior_terminal_cell_exists : bool) : LeaveResponse :=
  mkLeaveResponse (SV_ObserverBackpressure (OB_Leave request state
    prior_terminal_cell_exists)).

(** ** acks.rs: [ParticipantAckResponse] *)

Record ParticipantAckResponse := mkParticipantAckResponse { pak_value : ServerValue }.
#[export] Instance ParticipantAckResponse_authority : BoundResponse ParticipantAckResponse :=
  {| server_value := pak_value; bound_request := CD_ParticipantAck |}.
Definition ParticipantAckResponse_connection_conversation_capacity_exceeded
    (request : ParticipantAckEnvelope) (limit : Z) : ParticipantAckResponse :=
  mkParticipantAckResponse (SV_ConnectionConversationCapacityExceeded (CCC_SemanticRequest
    (RE_ParticipantAck request) limit)).
Definition ParticipantAckResponse_from_participant_unknown (value : ParticipantUnknown)
    : ParticipantAckResponse :=
  mkParticipantAckResponse (SV_ParticipantUnknown value).
Definition ParticipantAckResponse_from_no_binding (value : NoBinding)
    : ParticipantAckResponse :=
  mkParticipantAckResponse (SV_NoBinding value).
Definition ParticipantAckResponse_from_stale_authority (value : StaleAuthority)
    : ParticipantAckResponse :=
  mkParticipantAckResponse (SV_StaleAuthority value).
Definition ParticipantAckResponse_from_retired (value : Retired) : ParticipantAckResponse :=
  mkParticipantAckResponse (SV_Retired value).
Definition ParticipantAckResponse_ack_committed (value : AckCommitted)
    : ParticipantAckResponse :=
  mkParticipantAckResponse (SV_AckCommitted value).
Definition ParticipantAckResponse_ack_no_op (request : ParticipantAckEnvelope)
    : ParticipantAckResponse :=
  mkParticipantAckResponse (SV_AckNoOp (ANO_ParticipantAck request)).
Definition ParticipantAckResponse_from_ack_no_op (value : AckNoOp) : ParticipantAckResponse :=
  mkParticipantAckResponse (SV_AckNoOp value).
Definition ParticipantAckResponse_ack_gap (value : AckGap) : ParticipantAckResponse :=
  mkParticipantAckResponse (SV_AckGap value).
Definition ParticipantAckResponse_ack_regression (value : AckRegression)
    : ParticipantAckResponse :=
  mkParticipantAckResponse (SV_AckRegression value).

(** ** acks.rs: [MarkerAckResponse] *)

Record MarkerAckResponse := mkMarkerAckResponse { mak_value : ServerValue }.
#[export] Instance MarkerAckResponse_authority : BoundResponse MarkerAckResponse :=
  {| server_value := mak_value; bound_request := CD_MarkerAck |}.
Definition MarkerAckResponse_connection_conversation_capacity_exceeded
    (request : MarkerAckEnvelope) (limit : Z) : MarkerAckResponse :=
  mkMarkerAckResponse (SV_ConnectionConversationCapacityExceeded (CCC_SemanticRequest
    (RE_MarkerAck request) limit)).
Definition MarkerAckResponse_from_participant_unknown (value : ParticipantUnknown)
    : MarkerAckResponse :=
  mkMarkerAckResponse (SV_ParticipantUnknown value).
Definition MarkerAckResponse_from_no_binding (value : NoBinding) : MarkerAckResponse :=
  mkMarkerAckResponse (SV_NoBinding value).
Definition MarkerAckResponse_from_stale_authority (value : StaleAuthority)
    : MarkerAckResponse :=
  mkMarkerAckResponse (SV_StaleAuthority value).
Definition MarkerAckResponse_from_retired (value : Retired) : MarkerAckResponse :=
  mkMarkerAckResponse (SV_Retired value).
Definition MarkerAckResponse_marker_ack_committed (value : MarkerAckCommitted)
    : MarkerAckResponse :=
  mkMarkerAckResponse (SV_MarkerAckCommitted value).
Definition MarkerAckResponse_from_ack_no_op (value : AckNoOp) : MarkerAckResponse :=
  mkMarkerAckResponse (SV_AckNoOp value).
Definition MarkerAckResponse_from_marker_not_delivered (value : MarkerNotDelivered)
    : MarkerAckResponse :=
  mkMarkerAckResponse (SV_MarkerNotDelivered value).
Definition MarkerAckResponse_from_marker_mismatch (value : MarkerMismatch)
    : MarkerAckResponse :=
  mkMarkerAckResponse (SV_MarkerMismatch value).

(** ** records.rs: [RecordAdmissionResponse] *)

Record RecordAdmissionResponse := mkRecordAdmissionResponse { rec_value : ServerValue }.
#[export] Instance RecordAdmissionResponse_authority : BoundResponse RecordAdmissionResponse :=
  {| server_value := rec_value; bound_request := CD_RecordAdmission |}.
Definition RecordAdmissionResponse_attempt_token_body_conflict
    (token : RecordAdmissionAttemptToken) (conversation_id : ConversationId)
    (presented_participant_id : ParticipantId) (presented_generation : Generation)
    : RecordAdmissionResponse :=
  mkRecordAdmissionResponse (SV_AttemptTokenBodyConflict (ATB_RecordAdmission token
    conversation_id presented_participant_id presented_generation)).
Definition RecordAdmissionResponse_connection_conversation_capacity_exceeded
    (request : RecordAdmissionEnvelope) (limit : Z) : RecordAdmissionResponse :=
  mkRecordAdmissionResponse (SV_ConnectionConversationCapacityExceeded (CCC_SemanticRequest
    (RE_RecordAdmission request) limit)).
Definition RecordAdmissionResponse_from_conversation_order_exhausted
    (value : ConversationOrderExhausted) : RecordAdmissionResponse :=
  mkRecordAdmissionResponse (SV_ConversationOrderExhausted value).
Definition RecordAdmissionResponse_from_participant_unknown (value : ParticipantUnknown)
    : RecordAdmissionResponse :=
  mkRecordAdmissionResponse (SV_ParticipantUnknown value).
Definition RecordAdmissionResponse_from_no_binding (value : NoBinding)
    : RecordAdmissionResponse :=
  mkRecordAdmissionResponse (SV_NoBinding value).
Definition RecordAdmissionResponse_from_stale_authority (value : StaleAuthority)
    : RecordAdmissionResponse :=
  mkRecordAdmissionResponse (SV_StaleAuthority value).
Definition RecordAdmissionResponse_from_retired (value : Retired) : RecordAdmissionResponse :=
  mkRecordAdmissionResponse (SV_Retired value).
Definition RecordAdmissionResponse_from_marker_closure_capacity_exceeded
    (value : MarkerClosureCapacityExceeded) : RecordAdmissionResponse :=
  mkRecordAdmissionResponse (SV_MarkerClosureCapacityExceeded value).
Definition RecordAdmissionResponse_record_committed (value : RecordCommitted)
    : RecordAdmissionResponse :=
  mkRecordAdmissionResponse (SV_RecordCommitted value).
Definition RecordAdmissionResponse_record_too_large (value : RecordTooLarge)
    : RecordAdmissionResponse :=
  mkRecordAdmissionResponse (SV_RecordTooLarge value).
Definition RecordAdmissionResponse_from_conversation_sequence_exhausted
    (value : ConversationSequenceExhausted) : RecordAdmissionResponse :=
  mkRecordAdmissionResponse (SV_ConversationSequenceExhausted value).
Definition RecordAdmissionResponse_from_observer_backpressure (value : ObserverBackpressure)
    : RecordAdmissionResponse :=
  mkRecordAdmissionResponse (SV_ObserverBackpressure value).

(** ** records.rs: [ObserverRecoveryResponse] *)

Record ObserverRecoveryResponse := mkObserverRecoveryResponse { orr_value : ServerValue }.
#[export] Instance ObserverRecoveryResponse_authority : BoundResponse ObserverRecoveryResponse :=
  {| server_value := orr_value; bound_request := CD_ObserverRecoveryHandshake |}.
Definition ObserverRecoveryResponse_connection_capacity_exceeded
    (conversation_id : ConversationId) (limit : Z) : ObserverRecoveryResponse :=
  mkObserverRecoveryResponse (SV_ConnectionConversationCapacityExceeded (CCC_ObserverRecovery
    conversation_id limit)).
Definition ObserverRecoveryResponse_accepted (value : ObserverRecoveryAccepted)
    : ObserverRecoveryResponse :=
  mkObserverRecoveryResponse (SV_ObserverRecoveryAccepted value).
Definition ObserverRecoveryResponse_invalid_observer_epoch (value : InvalidObserverEpoch)
    : ObserverRecoveryResponse :=
  mkObserverRecoveryResponse (SV_InvalidObserverEpoch value).
Definition ObserverRecoveryResponse_invalid_observer_epoch_list
    (value : InvalidObserverEpochList) : ObserverRecoveryResponse :=
  mkObserverRecoveryResponse (SV_InvalidObserverEpochList value).
