(* ===== verification/Bytes.v ===== *)
(** * Byte-level codec primitives

    Model of the sinks and readers of [liminal-protocol/src/wire/codec.rs]
    ([Sink], [SizeSink], [Writer], [Reader]) and of the [Decoder] of
    [server_codec.rs], which has the same operations plus the wide ones.  A
    reader is the input, a position and a sticky [invalid_field] flag; its
    operations form a state-and-error monad.  The second half is the program
    logic the codecs are verified with: [parses] (a reader accepts exactly this
    encoding) and [reads] (whatever a reader accepts without raising its flag is
    such an encoding). *)
From coqutil Require Import Byte Word.LittleEndianList.
From S2P Require Import Prelude Algebra Tags Wire.

#[export] Instance byte_eq_dec : EqDecision byte := Byte.byte_eq_dec.

(** [uN::to_be_bytes] and [uN::from_be_bytes] on [n] bytes. *)
Definition be (n : nat) (z : Z) : list byte := rev (le_split n z).
Definition from_be (bs : list byte) : Z := le_combine (rev bs).

Inductive CodecError :=
| CE_NotParticipantFrame (frame_type : Z)
| CE_Decode (class : DecodeClass)
| CE_UnsupportedVersion (presented supported : ProtocolVersion)
| CE_OutputTooSmall (required available : Z)
| CE_LengthOverflow
| CE_InvalidValue
| CE_InvalidFrameLimit (max_frame_bytes : Z).

Definition decode_error (class : DecodeClass) : CodecError := CE_Decode class.

Definition blen (bs : list byte) : Z := Z.of_nat (length bs).

(** ** Sinks *)

(** The trait [Sink]: one required method, the others are derived from it. *)
Class Sink (S : Type) := put : list byte -> S -> result S CodecError.

Section SinkMethods.
Context {S : Type} `{Sink S}.

Definition put_u8 (value : Z) (sink : S) : result S CodecError := put (be 1 value) sink.
Definition put_u16 (value : Z) (sink : S) : result S CodecError := put (be 2 value) sink.
Definition put_u32 (value : Z) (sink : S) : result S CodecError := put (be 4 value) sink.
Definition put_u64 (value : Z) (sink : S) : result S CodecError := put (be 8 value) sink.
Definition put_fixed (value : list byte) (sink : S) : result S CodecError := put value sink.

(** [u32] length prefix, then the bytes. *)
Definition put_bytes (value : list byte) (sink : S) : result S CodecError :=
  if blen value <=? u32_max then
    let? sink := put_u32 (blen value) sink in
    put value sink
  else Err CE_LengthOverflow.
End SinkMethods.

(** [SizeSink]: counts. *)
Record SizeSink := mkSizeSink { size_len : Z }.
#[export] Instance SizeSink_sink : Sink SizeSink := fun bytes s =>
  match checked_add usize_max (size_len s) (blen bytes) with
  | Some len => Ok (mkSizeSink len)
  | None => Err CE_LengthOverflow
  end.

(** [Writer]: overwrites the caller's buffer from [position] on. *)
Record Writer := mkWriter { w_output : list byte; w_position : Z }.
Definition overwrite (output : list byte) (position : Z) (bytes : list byte) : list byte :=
  take (Z.to_nat position) output ++ bytes
  ++ drop (Z.to_nat position + length bytes) output.
#[export] Instance Writer_sink : Sink Writer := fun bytes w =>
  match checked_add usize_max (w_position w) (blen bytes) with
  | None => Err CE_LengthOverflow
  | Some stop =>
      if stop <=? blen (w_output w) then
        Ok (mkWriter (overwrite (w_output w) (w_position w) bytes) stop)
      else Err (CE_OutputTooSmall stop (blen (w_output w)))
  end.

(** ** Readers *)

Record Reader := mkReader {
  rd_input : list byte;
  rd_position : nat;
  rd_invalid_field : bool;
}.

Definition M (A : Type) : Type := Reader -> result (A * Reader) CodecError.
Definition mret' {A} (a : A) : M A := fun r => Ok (a, r).
Definition mfail {A} (e : CodecError) : M A := fun _ => Err e.
Definition mbind' {A B} (m : M A) (k : A -> M B) : M B := fun r =>
  match m r with Ok (a, r') => k a r' | Err e => Err e end.

Notation "'do!' x <- c ; k" := (mbind' c (fun x => k))
  (at level 10, x pattern, c at level 100, k at level 200) : liminal_scope.

(** [Result::map] on a reading method. *)
Definition mmap {A B} (f : A -> B) (m : M A) : M B := do! a <- m; mret' (f a).
(** [Result::ok_or_else(|| decode_error(..))]. *)
Definition mlift {A} (o : option A) (e : CodecError) : M A :=
  match o with Some a => mret' a | None => mfail e end.

Definition Reader_new (input : list byte) : Reader := mkReader input 0 false.

Definition remaining (r : Reader) : Z :=
  saturating_sub (blen (rd_input r)) (Z.of_nat (rd_position r)).

Definition remaining_bytes (r : Reader) : list byte := drop (rd_position r) (rd_input r).

Definition rtake (len : Z) : M (list byte) := fun r =>
  match checked_add usize_max (Z.of_nat (rd_position r)) len with
  | None => Err (decode_error DC_MissingRequiredField)
  | Some stop =>
      if stop <=? blen (rd_input r) then
        Ok (take (Z.to_nat len) (drop (rd_position r) (rd_input r)),
            mkReader (rd_input r) (Z.to_nat stop) (rd_invalid_field r))
      else Err (decode_error DC_MissingRequiredField)
  end.

Definition take_fixed (n : nat) : M (list byte) := rtake (Z.of_nat n).
Definition take_u8 : M Z := do! bs <- take_fixed 1; mret' (from_be bs).
Definition take_u16 : M Z := do! bs <- take_fixed 2; mret' (from_be bs).
Definition take_u32 : M Z := do! bs <- take_fixed 4; mret' (from_be bs).
Definition take_u64 : M Z := do! bs <- take_fixed 8; mret' (from_be bs).
Definition take_u128 : M Z := do! bs <- take_fixed 16; mret' (from_be bs).

(** [self.invalid_field = true]. *)
Definition invalidate : M unit := fun r =>
  Ok (tt, mkReader (rd_input r) (rd_position r) true).
Definition invalidate_if (b : bool) : M unit := if b then invalidate else mret' tt.

(** A zero generation raises the flag and reads as generation one. *)
Definition take_generation : M Generation :=
  do! raw <- take_u64;
  match Generation_new raw with
  | Some value => mret' value
  | None => do! _ <- invalidate; mlift (Generation_new 1) (decode_error DC_InvalidField)
  end.

Definition take_binding_epoch : M BindingEpoch :=
  do! server <- take_u64;
  do! ordinal <- take_u64;
  do! generation <- take_generation;
  mret' (mkBindingEpoch (mkConnectionIncarnation server ordinal) generation).

(** [match take_u8()? { 0 => None, 1 => .. map(Some), _ => InvalidField }]. *)
Definition take_option {A} (m : M A) : M (option A) :=
  do! flag <- take_u8;
  if flag =? 0 then mret' None
  else if flag =? 1 then mmap Some m
  else mfail (decode_error DC_InvalidField).
Definition take_option_u64 : M (option Z) := take_option take_u64.
Definition take_option_binding_epoch : M (option BindingEpoch) :=
  take_option take_binding_epoch.
Definition take_option_generation : M (option Generation) := take_option take_generation.

Definition take_bool : M bool :=
  do! flag <- take_u8;
  if flag =? 0 then mret' false
  else if flag =? 1 then mret' true
  else mfail (decode_error DC_InvalidField).

Definition take_bytes : M (list byte) :=
  do! length <- take_u32;
  rtake length.

Definition require_fixed_list (count width : Z) : M unit := fun r =>
  match checked_mul u128_max count width with
  | None => Err (decode_error DC_MissingRequiredField)
  | Some required =>
      if remaining r <? required then Err (decode_error DC_MissingRequiredField)
      else Ok (tt, r)
  end.

(** [for _ in 0..count { out.push(..?) }]. *)
Fixpoint take_list {A} (count : nat) (m : M A) : M (list A) :=
  match count with
  | O => mret' []
  | S count =>
      do! a <- m;
      do! rest <- take_list count m;
      mret' (a :: rest)
  end.

(** [T::try_from(take_u16()?).map_err(InvalidField)]. *)
Definition take_tag {T} `{U16Registry T} : M T :=
  do! raw <- take_u16;
  match tag_try_from raw with
  | Ok t => mret' t
  | Err _ => mfail (decode_error DC_InvalidField)
  end.

Definition finish (r : Reader) : result unit CodecError :=
  if negb (rd_position r =? length (rd_input r))%nat
  then Err (decode_error DC_CanonicalEncoding)
  else if rd_invalid_field r then Err (decode_error DC_InvalidField)
  else Ok tt.

(** Runs a body decoder on a whole body: [Reader::new], the fields, [finish]. *)
Definition run_body {A} (m : M A) (body : list byte) : result A CodecError :=
  let? (a, r) := m (Reader_new body) in
  let? _ := finish r in
  Ok a.

(** ** Big-endian encodings *)

Lemma length_be n z : length (be n z) = n.
Proof. unfold be. by rewrite length_rev, length_le_split. Qed.

Lemma from_be_be n z : 0 <= z < 2 ^ (Z.of_nat n * 8) -> from_be (be n z) = z.
Proof.
  intros ?. unfold from_be, be. rewrite rev_involutive, le_combine_split.
  by apply Z.mod_small.
Qed.

Lemma be_from_be bs : be (length bs) (from_be bs) = bs.
Proof.
  unfold from_be, be. rewrite <- (length_rev bs), split_le_combine. apply rev_involutive.
Qed.

Lemma from_be_range bs : 0 <= from_be bs < 2 ^ (8 * blen bs).
Proof.
  unfold from_be, blen. rewrite <- (length_rev bs). apply le_combine_bound.
Qed.

Lemma be_one z : u8 z -> exists b, be 1 z = [b] /\ byte.unsigned b = z.
Proof.
  intros ?. exists (byte.of_Z z). split; [done|]. rewrite byte.unsigned_of_Z.
  apply Z.mod_small. mlia.
Qed.

(** The leading integer of a long enough input. *)
Lemma split_be n input : (n <= length input)%nat ->
  exists z rest, input = be n z ++ rest /\ 0 <= z < 2 ^ (8 * Z.of_nat n).
Proof.
  intros Hn. exists (from_be (take n input)), (drop n input).
  assert (length (take n input) = n) as Hl by (rewrite length_take; lia).
  split.
  - rewrite <- (take_drop n input) at 1. f_equal.
    transitivity (be (length (take n input)) (from_be (take n input)));
      [symmetry; apply be_from_be | by rewrite Hl].
  - pose proof (from_be_range (take n input)) as H. unfold blen in H. by rewrite Hl in H.
Qed.

#[global] Opaque be from_be.

(** ** The reader logic *)

(** A reader that has consumed [pre] and has [rest] left. *)
Definition at_ (pre rest : list byte) (inv : bool) : Reader :=
  mkReader (pre ++ rest) (length pre) inv.

(** [m] accepts the encoding [bs], returns [a], consumes exactly [bs] and raises
    no flag, in every context a slice can provide. *)
Definition parses {A} (m : M A) (bs : list byte) (a : A) : Prop :=
  forall pre rest inv, blen (pre ++ bs ++ rest) <= usize_max ->
    m (at_ pre (bs ++ rest) inv) = Ok (a, at_ (pre ++ bs) rest inv).

(** Whatever [m] accepts without raising its flag satisfies [P] with the bytes
    consumed. *)
Definition reads {A} (m : M A) (P : A -> list byte -> Prop) : Prop :=
  forall pre rest a r', m (at_ pre rest false) = Ok (a, r') -> rd_invalid_field r' = false ->
    exists bs rest', rest = bs ++ rest' /\ r' = at_ (pre ++ bs) rest' false /\ P a bs.

(** The flag is sticky: no operation lowers it. *)
Class Sticky {A} (m : M A) : Prop :=
  sticky : forall r a r', m r = Ok (a, r') -> rd_invalid_field r' = false ->
    rd_invalid_field r = false.

(** Monad laws; associativity as the reader logic needs it. *)
Lemma mbind_ret_l {A B} (a : A) (k : A -> M B) : mbind' (mret' a) k = k a.
Proof. done. Qed.

Lemma mbind_fail_l {A B} e (k : A -> M B) : mbind' (mfail e) k = mfail e.
Proof. done. Qed.

Lemma mbind_assoc {A B C} (m : M A) (f : A -> M B) (k : B -> M C) r :
  mbind' (mbind' m f) k r = mbind' m (fun x => mbind' (f x) k) r.
Proof. unfold mbind'. by destruct (m r) as [[]|]. Qed.

Lemma reads_assoc {A B C} (m : M A) (f : A -> M B) (k : B -> M C) P :
  reads (mbind' m (fun x => mbind' (f x) k)) P -> reads (mbind' (mbind' m f) k) P.
Proof. intros H pre rest c r'. rewrite mbind_assoc. apply H. Qed.

Lemma parses_assoc {A B C} (m : M A) (f : A -> M B) (k : B -> M C) bs c :
  parses (mbind' m (fun x => mbind' (f x) k)) bs c -> parses (mbind' (mbind' m f) k) bs c.
Proof. intros H pre rest inv ?. rewrite mbind_assoc. by apply H. Qed.

Lemma parses_ret {A} (a : A) : parses (mret' a) [] a.
Proof. intros pre rest inv _. unfold mret', at_. by rewrite app_nil_r. Qed.

Lemma parses_bind {A B} (m : M A) (k : A -> M B) bs1 bs2 a b :
  parses m bs1 a -> parses (k a) bs2 b -> parses (mbind' m k) (bs1 ++ bs2) b.
Proof.
  intros Hm Hk pre rest inv Hlen. unfold mbind'.
  rewrite <- (app_assoc bs1) in *. rewrite Hm by done. rewrite (app_assoc pre bs1 bs2).
  apply Hk. by rewrite <- (app_assoc pre).
Qed.

Lemma parses_bind_nil {A B} (m : M A) (k : A -> M B) bs a b :
  parses m [] a -> parses (k a) bs b -> parses (mbind' m k) bs b.
Proof. intros Hm Hk. exact (parses_bind m k [] bs a b Hm Hk). Qed.

Lemma parses_last {A B} (m : M A) (f : A -> B) bs a :
  parses m bs a -> parses (mbind' m (fun x => mret' (f x))) bs (f a).
Proof. intros Hm. rewrite <- (app_nil_r bs). eapply parses_bind; [done | apply parses_ret]. Qed.

(** The same, with the continuation as it stands. *)
Lemma parses_end {A B} (m : M A) (k : A -> M B) bs a b :
  parses m bs a -> k a = mret' b -> parses (mbind' m k) bs b.
Proof.
  intros Hm Hk. rewrite <- (app_nil_r bs). eapply parses_bind; [done|].
  rewrite Hk. apply parses_ret.
Qed.

Lemma parses_mmap {A B} (m : M A) (f : A -> B) bs a :
  parses m bs a -> parses (mmap f m) bs (f a).
Proof. apply parses_last. Qed.

Lemma parses_rtake n bs : blen bs = n -> parses (rtake n) bs bs.
Proof.
  intros <- pre rest inv Hlen. unfold rtake, at_; simpl.
  unfold blen in *. rewrite !length_app in *.
  rewrite checked_add_exact by lia. rewrite <- app_assoc.
  destruct (Z.leb_spec (Z.of_nat (length pre) + Z.of_nat (length bs))
    (Z.of_nat (length pre + (length bs + length rest)))); [|lia].
  rewrite drop_app_length, Nat2Z.id, take_app_length.
  by rewrite <- Nat2Z.inj_add, Nat2Z.id.
Qed.

Lemma parses_fixed n bs : length bs = n -> parses (take_fixed n) bs bs.
Proof. intros <-. by apply parses_rtake. Qed.

Lemma parses_be n z : 0 <= z < 2 ^ (Z.of_nat n * 8) ->
  parses (do! bs <- take_fixed n; mret' (from_be bs)) (be n z) z.
Proof.
  intros Hz. rewrite <- (from_be_be n z Hz) at 2.
  apply (parses_last (take_fixed n) from_be). apply parses_fixed, length_be.
Qed.

Lemma parses_u8 z : u8 z -> parses take_u8 (be 1 z) z.
Proof. intros. apply parses_be. simpl. mlia. Qed.
Lemma parses_u16 z : u16 z -> parses take_u16 (be 2 z) z.
Proof. intros. apply parses_be. simpl. mlia. Qed.
Lemma parses_u32 z : u32 z -> parses take_u32 (be 4 z) z.
Proof. intros. apply parses_be. simpl. mlia. Qed.
Lemma parses_u64 z : u64 z -> parses take_u64 (be 8 z) z.
Proof. intros. apply parses_be. simpl. mlia. Qed.
Lemma parses_u128 z : u128 z -> parses take_u128 (be 16 z) z.
Proof. intros. apply parses_be. simpl. mlia. Qed.

Lemma parses_generation g : wf_generation g -> parses take_generation (be 8 g) g.
Proof.
  intros Hg. unfold take_generation. rewrite <- (app_nil_r (be 8 g)).
  eapply parses_bind; [apply parses_u64; unfold wf_generation in *; mlia|].
  unfold Generation_new. destruct (Z.eqb_spec g 0); [unfold wf_generation in *; lia|].
  apply parses_ret.
Qed.

(** Encodings of the structured fields. *)
Definition enc_incarnation (c : ConnectionIncarnation) : list byte :=
  be 8 (server_incarnation c) ++ be 8 (connection_ordinal c).
Definition enc_epoch (b : BindingEpoch) : list byte :=
  enc_incarnation (connection_incarnation b) ++ be 8 (capability_generation b).
Definition enc_option {A} (enc : A -> list byte) (o : option A) : list byte :=
  match o with None => be 1 0 | Some a => be 1 1 ++ enc a end.
Definition enc_bool (b : bool) : list byte := be 1 (of_bool b).
Definition enc_tag {T} `{U16Registry T} (t : T) : list byte := be 2 (wire_value t).

Lemma parses_epoch b : wf_epoch b -> parses take_binding_epoch (enc_epoch b) b.
Proof.
  destruct b as [[s o] g]. intros [[??] ?]. unfold take_binding_epoch, enc_epoch, enc_incarnation.
  simpl in *. rewrite <- app_assoc.
  eapply parses_bind; [by apply parses_u64|]. eapply parses_bind; [by apply parses_u64|].
  eapply (parses_last take_generation), parses_generation. done.
Qed.

Lemma parses_option {A} (m : M A) enc o :
  (forall a, o = Some a -> parses m (enc a) a) ->
  parses (take_option m) (enc_option enc o) o.
Proof.
  intros Hm. unfold take_option. destruct o as [a|]; simpl.
  - eapply parses_bind; [apply parses_u8; mlia|]. simpl. by apply parses_mmap, Hm.
  - rewrite <- (app_nil_r (be 1 0)).
    eapply parses_bind; [apply parses_u8; mlia|]. simpl. apply parses_ret.
Qed.

Lemma parses_option_u64 o : wf_opt u64 o -> parses take_option_u64 (enc_option (be 8) o) o.
Proof. intros Ho. apply parses_option. intros a ->. by apply parses_u64. Qed.

Lemma parses_option_epoch o :
  wf_opt wf_epoch o -> parses take_option_binding_epoch (enc_option enc_epoch o) o.
Proof. intros Ho. apply parses_option. intros a ->. by apply parses_epoch. Qed.

Lemma parses_option_generation o :
  wf_opt wf_generation o -> parses take_option_generation (enc_option (be 8) o) o.
Proof. intros Ho. apply parses_option. intros a ->. by apply parses_generation. Qed.

Lemma parses_bool b : parses take_bool (enc_bool b) b.
Proof.
  unfold take_bool, enc_bool. rewrite <- (app_nil_r (be 1 _)).
  eapply parses_bind; [apply parses_u8; destruct b; simpl; mlia|].
  destruct b; apply parses_ret.
Qed.

Lemma parses_tag {T} `{U16Registry T} (t : T) : parses take_tag (enc_tag t) t.
Proof.
  unfold take_tag, enc_tag. rewrite <- (app_nil_r (be 2 _)).
  eapply parses_bind; [apply parses_u16, wire_value_u16|].
  rewrite tag_try_from_wire. apply parses_ret.
Qed.

Lemma parses_bytes bs : blen bs <= u32_max ->
  parses take_bytes (be 4 (blen bs) ++ bs) bs.
Proof.
  intros ?. eapply parses_bind; [apply parses_u32; unfold blen in *; mlia|].
  by apply parses_rtake.
Qed.

Lemma parses_list {A} (m : M A) (enc : A -> list byte) (l : list A) :
  Forall (fun a => parses m (enc a) a) l ->
  parses (take_list (length l) m) (concat (map enc l)) l.
Proof.
  induction 1 as [|a l Ha _ IH]; simpl; [apply parses_ret|].
  eapply parses_bind; [done|]. eapply (parses_last _ (cons a)). done.
Qed.

(** The allocation guard passes when the list it guards is there. *)
Lemma parses_require {A} count width (m : M A) bs a :
  count * width <= blen bs -> parses m bs a ->
  parses (mbind' (require_fixed_list count width) (fun _ => m)) bs a.
Proof.
  intros Hle Hm pre rest inv Hlen. rewrite <- Hm by done.
  unfold mbind', require_fixed_list, checked_mul, remaining, saturating_sub, at_; simpl.
  unfold blen in *. rewrite !length_app in *.
  destruct (Z.leb_spec (count * width) u128_max); [|mlia].
  destruct (Z.ltb_spec (Z.max 0 (Z.of_nat (length pre + (length bs + length rest)) -
    Z.of_nat (length pre))) (count * width)); [lia|done].
Qed.

Lemma blen_concat {A} (enc : A -> list byte) w l :
  (forall a, blen (enc a) = w) -> blen (concat (map enc l)) = Z.of_nat (length l) * w.
Proof.
  intros Hw. induction l as [|a l IH]; [done|]. simpl. unfold blen in *.
  rewrite length_app, Nat2Z.inj_add, IH, Hw. lia.
Qed.

Lemma parses_invalidate_if b : b = false -> parses (invalidate_if b) [] tt.
Proof. intros ->. apply parses_ret. Qed.

(** A body decoder that parses an encoding accepts it as a whole body. *)
Lemma run_body_parses {A} (m : M A) bs a :
  parses m bs a -> blen bs <= usize_max -> run_body m bs = Ok a.
Proof.
  intros Hm Hlen. unfold run_body.
  change (Reader_new bs) with (at_ [] bs false).
  rewrite <- (app_nil_r bs) at 1. rewrite Hm by (simpl; by rewrite app_nil_r).
  simpl. unfold finish, at_; simpl. rewrite app_nil_r, Nat.eqb_refl. done.
Qed.


(** ** Canonicality *)

#[export] Instance sticky_ret {A} (a : A) : Sticky (mret' a).
Proof. intros r b r' [= -> ->]. done. Qed.
#[export] Instance sticky_fail {A} e : Sticky (@mfail A e).
Proof. intros r b r' [=]. Qed.
#[export] Instance sticky_bind {A B} (m : M A) (k : A -> M B) :
  Sticky m -> (forall a, Sticky (k a)) -> Sticky (mbind' m k).
Proof.
  intros Hm Hk r b r' H Hf. unfold mbind' in H. destruct (m r) as [[a r1]|] eqn:E; [|done].
  exact (Hm _ _ _ E (Hk _ _ _ _ H Hf)).
Qed.
#[export] Instance sticky_rtake n : Sticky (rtake n).
Proof. intros r a r' H. unfold rtake in H. csplit_in H. done. Qed.
#[export] Instance sticky_fixed n : Sticky (take_fixed n).
Proof. apply _. Qed.
#[export] Instance sticky_invalidate : Sticky invalidate.
Proof. intros r a r' [= _ <-] [=]. Qed.
#[export] Instance sticky_require c w : Sticky (require_fixed_list c w).
Proof. intros r a r' H. unfold require_fixed_list in H. csplit_in H. done. Qed.

(** Case analyses inside a reader. *)
#[export] Hint Extern 5 (Sticky (match ?x with _ => _ end)) => destruct x : typeclass_instances.

#[export] Instance sticky_mmap {A B} (f : A -> B) m : Sticky m -> Sticky (mmap f m).
Proof. unfold mmap. apply _. Qed.
#[export] Instance sticky_mlift {A} (o : option A) e : Sticky (mlift o e).
Proof. unfold mlift. apply _. Qed.
#[export] Instance sticky_u8 : Sticky take_u8. Proof. unfold take_u8. apply _. Qed.
#[export] Instance sticky_u16 : Sticky take_u16. Proof. unfold take_u16. apply _. Qed.
#[export] Instance sticky_u32 : Sticky take_u32. Proof. unfold take_u32. apply _. Qed.
#[export] Instance sticky_u64 : Sticky take_u64. Proof. unfold take_u64. apply _. Qed.
#[export] Instance sticky_u128 : Sticky take_u128. Proof. unfold take_u128. apply _. Qed.
#[export] Instance sticky_invalidate_if b : Sticky (invalidate_if b).
Proof. unfold invalidate_if. apply _. Qed.
#[export] Instance sticky_generation : Sticky take_generation.
Proof. unfold take_generation. apply _. Qed.
#[export] Instance sticky_epoch : Sticky take_binding_epoch.
Proof. unfold take_binding_epoch. apply _. Qed.
#[export] Instance sticky_option {A} (m : M A) : Sticky m -> Sticky (take_option m).
Proof. unfold take_option. apply _. Qed.
#[export] Instance sticky_bool : Sticky take_bool.
Proof. unfold take_bool. apply _. Qed.
#[export] Instance sticky_bytes : Sticky take_bytes.
Proof. unfold take_bytes. apply _. Qed.
#[export] Instance sticky_tag {T} `{U16Registry T} : Sticky take_tag.
Proof. unfold take_tag. apply _. Qed.
#[export] Instance sticky_list {A} n (m : M A) : Sticky m -> Sticky (take_list n m).
Proof. intros. induction n; simpl; apply _. Qed.

Section Reads.
Context {A B : Type}.

Lemma reads_ret (a : A) (P : A -> list byte -> Prop) : P a [] -> reads (mret' a) P.
Proof.
  intros HP pre rest b r' [= <- <-] _. exists [], rest. by rewrite app_nil_r.
Qed.

Lemma reads_fail e (P : A -> list byte -> Prop) : reads (mfail e) P.
Proof. intros pre rest b r' [=]. Qed.

Lemma reads_bind (m : M A) (k : A -> M B) P Q :
  reads m P -> (forall a, Sticky (k a)) ->
  (forall a bs1, P a bs1 -> reads (k a) (fun b bs2 => Q b (bs1 ++ bs2))) ->
  reads (mbind' m k) Q.
Proof.
  intros Hm Hs Hk pre rest b r' H Hf. unfold mbind' in H.
  destruct (m _) as [[a r1]|] eqn:E; [|done].
  pose proof (Hs a _ _ _ H Hf) as Hf1.
  destruct (Hm _ _ _ _ E Hf1) as (bs1 & rest1 & -> & -> & HP).
  destruct (Hk a bs1 HP _ _ _ _ H Hf) as (bs2 & rest2 & -> & -> & HQ).
  exists (bs1 ++ bs2), rest2. by rewrite !app_assoc.
Qed.

Lemma reads_weaken (m : M A) (P Q : A -> list byte -> Prop) :
  reads m P -> (forall a bs, P a bs -> Q a bs) -> reads m Q.
Proof.
  intros Hm HPQ pre rest a r' H Hf. destruct (Hm _ _ _ _ H Hf) as (bs & rest' & ? & ? & ?).
  exists bs, rest'. auto.
Qed.
End Reads.

Lemma reads_rtake n : 0 <= n -> reads (rtake n) (fun bs c => c = bs /\ blen bs = n).
Proof.
  intros Hn pre rest a r' H _. unfold rtake, at_ in H; simpl in H.
  destruct (checked_add _ _ _) as [stop|] eqn:E; [|done].
  apply checked_add_Some in E as [-> _].
  destruct (_ <=? _) eqn:E; [|done]. simplify_eq. breflect.
  unfold blen in E. rewrite length_app in E. rewrite drop_app_length.
  exists (take (Z.to_nat n) rest), (drop (Z.to_nat n) rest).
  rewrite take_drop. split; [done|]. unfold at_, blen.
  rewrite <- app_assoc, take_drop, length_app, length_take.
  split; [f_equal; lia|]. split; [done|lia].
Qed.

Lemma reads_fixed n : reads (take_fixed n) (fun bs c => c = bs /\ length bs = n).
Proof.
  eapply reads_weaken; [apply reads_rtake; lia|]. unfold blen. intros; simpl in *. intuition lia.
Qed.

Lemma reads_be n : reads (do! bs <- take_fixed n; mret' (from_be bs))
  (fun z c => c = be n z /\ 0 <= z < 2 ^ (8 * Z.of_nat n)).
Proof.
  eapply reads_bind; [apply reads_fixed | apply _ |]. intros bs ? [-> <-]. apply reads_ret.
  rewrite app_nil_r, be_from_be. split; [done|]. apply from_be_range.
Qed.

Lemma reads_u8 : reads take_u8 (fun z c => c = be 1 z /\ u8 z).
Proof. eapply reads_weaken; [apply (reads_be 1)|]. simpl. intros z c [-> ?]. split; [done | mlia]. Qed.
Lemma reads_u16 : reads take_u16 (fun z c => c = be 2 z /\ u16 z).
Proof. eapply reads_weaken; [apply (reads_be 2)|]. simpl. intros z c [-> ?]. split; [done | mlia]. Qed.
Lemma reads_u32 : reads take_u32 (fun z c => c = be 4 z /\ u32 z).
Proof. eapply reads_weaken; [apply (reads_be 4)|]. simpl. intros z c [-> ?]. split; [done | mlia]. Qed.
Lemma reads_u64 : reads take_u64 (fun z c => c = be 8 z /\ u64 z).
Proof. eapply reads_weaken; [apply (reads_be 8)|]. simpl. intros z c [-> ?]. split; [done | mlia]. Qed.
Lemma reads_u128 : reads take_u128 (fun z c => c = be 16 z /\ u128 z).
Proof. eapply reads_weaken; [apply (reads_be 16)|]. simpl. intros z c [-> ?]. split; [done | mlia]. Qed.

Lemma reads_invalidate P : reads invalidate P.
Proof. intros pre rest a r' [= _ <-] [=]. Qed.

Lemma reads_invalidate_if b : reads (invalidate_if b) (fun _ c => c = [] /\ b = false).
Proof. destruct b; simpl; [apply reads_invalidate | by apply reads_ret]. Qed.

Lemma reads_require c w : reads (require_fixed_list c w) (fun _ bs => bs = []).
Proof.
  intros pre rest a r' H _. unfold require_fixed_list in H. csplit_in H.
  exists [], rest. by rewrite app_nil_r.
Qed.

Lemma reads_generation : reads take_generation (fun g c => c = be 8 g /\ wf_generation g).
Proof.
  eapply reads_bind; [apply reads_u64 | apply _ |]. intros z ? [-> ?].
  unfold Generation_new. destruct (Z.eqb_spec z 0).
  - eapply reads_bind; [apply (reads_invalidate (fun _ _ => False)) | apply _ | done].
  - apply reads_ret. rewrite app_nil_r. split; [done|]. unfold wf_generation. mlia.
Qed.

(** One step of a canonicality proof: read the next field. *)
Ltac reads_step lem := eapply reads_bind; [apply lem | apply _ |].

Lemma reads_epoch : reads take_binding_epoch (fun b c => c = enc_epoch b /\ wf_epoch b).
Proof.
  reads_step reads_u64. intros s ? [-> ?]. reads_step reads_u64. intros o ? [-> ?].
  reads_step reads_generation. intros g ? [-> ?]. apply reads_ret.
  rewrite app_nil_r. unfold enc_epoch, enc_incarnation; simpl. by rewrite <- app_assoc.
Qed.

Lemma reads_mmap {A B} (f : A -> B) m P (Q : B -> list byte -> Prop) :
  reads m P -> (forall a c, P a c -> Q (f a) c) -> reads (mmap f m) Q.
Proof.
  intros Hm HQ. eapply reads_bind; [done | apply _ |]. intros. apply reads_ret.
  rewrite app_nil_r. auto.
Qed.

Lemma reads_option {A} (m : M A) enc (wf : A -> Prop) :
  Sticky m -> reads m (fun a c => c = enc a /\ wf a) ->
  reads (take_option m) (fun o c => c = enc_option enc o /\ wf_opt wf o).
Proof.
  intros Hs Hm. reads_step reads_u8. intros flag ? [-> _].
  destruct (Z.eqb_spec flag 0) as [->|]; [by apply reads_ret; rewrite app_nil_r|].
  destruct (Z.eqb_spec flag 1) as [->|]; [|apply reads_fail].
  eapply reads_mmap; [done|]. intros a c [-> ?]. done.
Qed.

Lemma reads_option_u64 : reads take_option_u64 (fun o c => c = enc_option (be 8) o /\ wf_opt u64 o).
Proof. apply reads_option; [apply _ | apply reads_u64]. Qed.
Lemma reads_option_epoch :
  reads take_option_binding_epoch (fun o c => c = enc_option enc_epoch o /\ wf_opt wf_epoch o).
Proof. apply reads_option; [apply _ | apply reads_epoch]. Qed.
Lemma reads_option_generation :
  reads take_option_generation (fun o c => c = enc_option (be 8) o /\ wf_opt wf_generation o).
Proof. apply reads_option; [apply _ | apply reads_generation]. Qed.
#[export] Instance sticky_option_u64 : Sticky take_option_u64 := sticky_option _ _.
#[export] Instance sticky_option_epoch : Sticky take_option_binding_epoch := sticky_option _ _.
#[export] Instance sticky_option_generation : Sticky take_option_generation := sticky_option _ _.

Lemma reads_bool : reads take_bool (fun b c => c = enc_bool b).
Proof.
  reads_step reads_u8. intros flag ? [-> _].
  destruct (Z.eqb_spec flag 0) as [->|]; [by apply reads_ret; rewrite app_nil_r|].
  destruct (Z.eqb_spec flag 1) as [->|]; [|apply reads_fail].
  by apply reads_ret; rewrite app_nil_r.
Qed.

Lemma reads_tag {T} `{U16Registry T} : reads take_tag (fun t c => c = enc_tag t).
Proof.
  reads_step reads_u16. intros raw ? [-> _].
  destruct (tag_try_from raw) as [t|] eqn:E; [|apply reads_fail].
  apply reads_ret. rewrite app_nil_r. apply tag_try_from_Ok in E. unfold enc_tag. by rewrite E.
Qed.

Lemma reads_bytes : reads take_bytes (fun bs c => c = be 4 (blen bs) ++ bs /\ blen bs <= u32_max).
Proof.
  reads_step reads_u32. intros n ? [-> Hn].
  eapply reads_weaken; [apply reads_rtake; mlia|]. intros bs ? [-> <-]. split; [done|mlia].
Qed.

Lemma reads_list {A} (m : M A) enc (wf : A -> Prop) n :
  Sticky m -> reads m (fun a c => c = enc a /\ wf a) ->
  reads (take_list n m) (fun l c => c = concat (map enc l) /\ length l = n /\ Forall wf l).
Proof.
  intros Hs Hm. induction n as [|n IH]; simpl; [by apply reads_ret|].
  reads_step Hm. intros a ? [-> ?]. reads_step IH. intros l ? (-> & <- & ?).
  apply reads_ret. rewrite app_nil_r. auto.
Qed.

(** A whole body accepted by [run_body] is one of the encodings [m] reads. *)
Lemma run_body_reads {A} (m : M A) P bs a : reads m P -> run_body m bs = Ok a -> P a bs.
Proof.
  intros Hm H. unfold run_body in H. change (Reader_new bs) with (at_ [] bs false) in H.
  destruct (m _) as [[b r']|] eqn:E; [|done].
  destruct (finish r') eqn:F; [|done]. simplify_eq.
  unfold finish in F. destruct (negb _) eqn:E1; [done|].
  destruct (rd_invalid_field r') eqn:E2; [done|].
  destruct (Hm _ _ _ _ E E2) as (c & rest & -> & -> & HP). breflect.
  apply Nat.eqb_eq in E1. unfold at_ in E1; simpl in E1. rewrite length_app in E1.
  destruct rest; [by rewrite app_nil_r | simpl in E1; lia].
Qed.

(** ** Emission

    What the encoders rely on from a sink: writing in pieces is writing at once,
    up to the error reported. *)
Class LawfulSink (S : Type) `{Sink S} := {
  sink_ok : S -> Prop;
  put_ok : forall bs s s', sink_ok s -> put bs s = Ok s' -> sink_ok s';
  put_nil : forall s, sink_ok s -> put [] s = Ok s;
  put_app : forall bs1 bs2 s, sink_ok s ->
    result_agree (let? s' := put bs1 s in put bs2 s') (put (bs1 ++ bs2) s);
}.

Lemma blen_app bs1 bs2 : blen (bs1 ++ bs2) = blen bs1 + blen bs2.
Proof. unfold blen. rewrite length_app. lia. Qed.

Lemma blen_nonneg bs : 0 <= blen bs.
Proof. unfold blen. lia. Qed.

#[export] Instance SizeSink_lawful : LawfulSink SizeSink.
Proof.
  exists (fun s => 0 <= size_len s <= usize_max); unfold put, SizeSink_sink.
  - intros bs s s' Hs H. csplit_in H. pose proof (blen_nonneg bs).
    apply checked_add_Some in Heqo as [-> ?]. simpl. lia.
  - intros [n] Hs; simpl in *. unfold blen; simpl. rewrite checked_add_exact by lia.
    by rewrite Z.add_0_r.
  - intros bs1 bs2 [n] Hs; simpl in *. rewrite blen_app.
    pose proof (blen_nonneg bs1). pose proof (blen_nonneg bs2).
    unfold checked_add. csplit; simpl in *; simplify_eq; breflect; try done; try lia.
    f_equal. lia.
Defined.

Lemma overwrite_app output p bs1 bs2 :
  0 <= p -> p + blen bs1 + blen bs2 <= blen output ->
  overwrite (overwrite output p bs1) (p + blen bs1) bs2 = overwrite output p (bs1 ++ bs2).
Proof.
  intros Hp Hlen. unfold overwrite, blen in *.
  assert (length (take (Z.to_nat p) output) = Z.to_nat p) as Hl by (rewrite length_take; lia).
  replace (Z.to_nat (p + Z.of_nat (length bs1))) with (length (take (Z.to_nat p) output ++ bs1))
    by (rewrite length_app, Hl; lia).
  set (A := take (Z.to_nat p) output) in *. set (D := drop (Z.to_nat p + length bs1) output).
  rewrite (app_assoc A bs1 D), take_app_length, drop_app_add.
  subst D. rewrite drop_drop, length_app, <- !app_assoc. do 4 f_equal. lia.
Qed.

Lemma overwrite_length output p bs :
  0 <= p -> p + blen bs <= blen output -> blen (overwrite output p bs) = blen output.
Proof.
  intros. unfold overwrite, blen in *. rewrite !length_app, length_take, length_drop. lia.
Qed.

Lemma Writer_put_Ok output p bs : 0 <= p -> blen output <= usize_max ->
  p + blen bs <= blen output ->
  put bs (mkWriter output p) = Ok (mkWriter (overwrite output p bs) (p + blen bs)).
Proof.
  intros. unfold put, Writer_sink; simpl. rewrite checked_add_exact by lia.
  by destruct (Z.leb_spec (p + blen bs) (blen output)); [|lia].
Qed.

Lemma Writer_put_Err output p bs : blen output < p + blen bs ->
  exists e, put bs (mkWriter output p) = Err e.
Proof.
  intros. unfold put, Writer_sink; simpl. unfold checked_add. csplit; breflect; simplify_eq; eauto.
  lia.
Qed.

#[export] Instance Writer_lawful : LawfulSink Writer.
Proof.
  exists (fun w => 0 <= w_position w <= blen (w_output w) /\ blen (w_output w) <= usize_max).
  - intros bs [o p] w' [Hw Ho] H; simpl in *. pose proof (blen_nonneg bs).
    destruct (Z_le_gt_dec (p + blen bs) (blen o)).
    + rewrite Writer_put_Ok in H by lia. simplify_eq; simpl.
      rewrite overwrite_length by lia. lia.
    + destruct (Writer_put_Err o p bs) as [e He]; [lia | congruence].
  - intros [o p] [Hw Ho]; simpl in *. unfold blen in *.
    rewrite Writer_put_Ok by (unfold blen; simpl; lia).
    unfold overwrite. simpl. rewrite Nat.add_0_r, take_drop. unfold blen; simpl. by rewrite Z.add_0_r.
  - intros bs1 bs2 [o p] [Hw Ho]; simpl in *. pose proof (blen_nonneg bs1). pose proof (blen_nonneg bs2).
    destruct (Z_le_gt_dec (p + blen bs1) (blen o)).
    + rewrite Writer_put_Ok by lia.
      destruct (Z_le_gt_dec (p + blen (bs1 ++ bs2)) (blen o)) as [Hl|Hl]; rewrite blen_app in Hl.
      * rewrite !Writer_put_Ok by (rewrite ?overwrite_length, ?blen_app; lia). simpl.
        rewrite overwrite_app, blen_app by lia. f_equal. lia.
      * destruct (Writer_put_Err (overwrite o p bs1) (p + blen bs1) bs2) as [e ->];
          [rewrite overwrite_length; lia|].
        destruct (Writer_put_Err o p (bs1 ++ bs2)) as [e' ->]; [rewrite blen_app; lia | done].
    + destruct (Writer_put_Err o p bs1) as [e ->]; [lia|].
      destruct (Writer_put_Err o p (bs1 ++ bs2)) as [e' ->]; [rewrite blen_app; lia | done].
Defined.

Lemma SizeSink_start_ok : sink_ok (mkSizeSink 0).
Proof. change (0 <= 0 <= usize_max). mlia. Qed.

Lemma Writer_start_ok output : blen output <= usize_max -> sink_ok (mkWriter output 0).
Proof.
  intros. change (0 <= 0 <= blen output /\ blen output <= usize_max).
  pose proof (blen_nonneg output). lia.
Qed.

Section Emits.
Context {S : Type} `{LawfulSink S}.

(** [p] writes [bs] if [fits], and fails otherwise. *)
Definition emits (p : S -> result S CodecError) (fits : bool) (bs : list byte) : Prop :=
  forall s, sink_ok s ->
    result_agree (p s) (if fits then put bs s else Err CE_LengthOverflow).

Lemma emits_put bs : emits (put bs) true bs.
Proof. intros s Hs. done. Qed.

Lemma emits_ok : emits Ok true [].
Proof. intros s Hs. by rewrite put_nil. Qed.

Lemma emits_seq p1 p2 b1 b2 bs1 bs2 :
  emits p1 b1 bs1 -> emits p2 b2 bs2 ->
  emits (fun s => let? s := p1 s in p2 s) (b1 && b2) (bs1 ++ bs2).
Proof.
  intros H1 H2 s Hs. specialize (H1 s Hs). pose proof (put_app bs1 bs2 s Hs) as Happ.
  destruct (p1 s) as [s1|e1], b1; simpl in *; [|done| |done].
  - destruct (put bs1 s) as [s1'|] eqn:E; [subst s1'|done].
    specialize (H2 s1 (put_ok _ _ _ Hs E)). destruct b2; [|done]. by rewrite H2.
  - destruct (put bs1 s) as [|]; [done|]. destruct b2; [|done].
    by destruct (put (bs1 ++ bs2) s).
Qed.

Lemma emits_then p1 p2 b bs1 bs2 :
  emits p1 true bs1 -> emits p2 b bs2 ->
  emits (fun s => let? s := p1 s in p2 s) b (bs1 ++ bs2).
Proof. apply emits_seq. Qed.

Lemma emits_guard p (b : bool) bs :
  emits p true bs ->
  emits (fun s => if b then p s else Err CE_LengthOverflow) b bs.
Proof. intros Hp. destruct b; [done | by intros s Hs]. Qed.

Lemma emits_bytes v : emits (put_bytes v) (blen v <=? u32_max) (be 4 (blen v) ++ v).
Proof.
  apply (emits_guard (fun s => let? s := put_u32 (blen v) s in put v s)).
  apply emits_then; apply emits_put.
Qed.
End Emits.

(** *** Field-by-field automation

    The databases hold the rules of the single fields; the tactics walk through
    a whole schema. *)
Create HintDb emits.
Create HintDb parses.
Create HintDb reads.
#[export] Hint Resolve emits_put emits_ok emits_bytes : emits.
#[export] Hint Resolve parses_ret parses_u8 parses_u16 parses_u32 parses_u64 parses_u128
  parses_generation parses_epoch parses_option_u64 parses_option_epoch
  parses_option_generation parses_bool parses_tag parses_bytes parses_fixed : parses.
#[export] Hint Resolve reads_u8 reads_u16 reads_u32 reads_u64 reads_u128 reads_generation
  reads_epoch reads_option_u64 reads_option_epoch reads_option_generation reads_bool
  reads_tag reads_bytes reads_fixed reads_require reads_invalidate_if : reads.

Ltac emit_field := solve [eauto 3 with emits].
Ltac emit_fields := repeat first [ emit_field | apply emits_then; [emit_field|] ].

#[global] Opaque mret' mfail mbind' rtake take_fixed invalidate.

Ltac parse_field := solve [eauto 3 with parses].
Ltac parse_fields :=
  repeat first
    [ parse_field
    | eapply parses_end; [parse_field | reflexivity]
    | eapply parses_bind; [parse_field|]
    | apply parses_assoc | rewrite mbind_ret_l ].

(** Reads the next field and names nothing: the equation on the bytes is
    substituted, the ranges stay in the context. *)
Ltac read_field :=
  eapply reads_bind; [solve [eauto 3 with reads] | intros; apply _ |];
  intros ? ?; match goal with |- _ -> _ =>
    let H := fresh in intros H; simpl in H; destruct_and? H; subst end.
Ltac read_done :=
  apply reads_ret; rewrite ?app_nil_r, <- ?app_assoc.
Ltac read_fields :=
  repeat first
    [ read_field | apply reads_fail | apply reads_assoc
    | rewrite mbind_ret_l | rewrite mbind_fail_l ];
  try read_done.
