(* ===== verification/ClientCodec.v ===== *)
(** * Bodies of client requests and server pushes

    Model of the body encoders and decoders of
    [liminal-protocol/src/wire/codec.rs]: [encode_client_request],
    [decode_client_request], [encode_server_push],
    [encode_participant_delivery], [decode_server_push] and
    [decode_participant_record], generic in the sink as in the source.  The
    reference bytes of a value are [request_body] and [push_body]; the encoders
    are shown to emit them through any lawful sink, and the decoders to accept
    exactly them. *)
From coqutil Require Import Byte.
From S2P Require Import Prelude Algebra Tags Wire Bytes.

(** ** Encoders *)

Section Encoders.
Context {S : Type} `{Sink S}.

Definition put_generation (generation : Generation) (sink : S) : result S CodecError :=
  put_u64 generation sink.

Definition put_connection_incarnation (value : ConnectionIncarnation) (sink : S)
    : result S CodecError :=
  let? sink := put_u64 (server_incarnation value) sink in
  put_u64 (connection_ordinal value) sink.

Definition put_binding_epoch (value : BindingEpoch) (sink : S) : result S CodecError :=
  let? sink := put_connection_incarnation (connection_incarnation value) sink in
  put_generation (capability_generation value) sink.

Definition put_option_u64 (value : option Z) (sink : S) : result S CodecError :=
  match value with
  | None => put_u8 0 sink
  | Some value => let? sink := put_u8 1 sink in put_u64 value sink
  end.

Definition put_option_binding_epoch (value : option BindingEpoch) (sink : S)
    : result S CodecError :=
  match value with
  | None => put_u8 0 sink
  | Some value => let? sink := put_u8 1 sink in put_binding_epoch value sink
  end.

(** The [for refusal in ..] loop of the observer-recovery handshake. *)
Fixpoint put_refusals (refusals : list ObserverRefusal) (sink : S) : result S CodecError :=
  match refusals with
  | [] => Ok sink
  | refusal :: refusals =>
      let? sink := put_u64 (orf_conversation_id refusal) sink in
      let? sink := put_u64 (orf_refused_epoch refusal) sink in
      put_refusals refusals sink
  end.

Definition encode_client_request (value : ClientRequest) (sink : S) : result S CodecError :=
  match value with
  | CR_Enrollment value =>
      let? sink := put_u64 (er_conversation_id value) sink in
      put_fixed (er_enrollment_token value) sink
  | CR_CredentialAttach value =>
      let? sink := put_u64 (car_conversation_id value) sink in
      let? sink := put_u64 (car_participant_id value) sink in
      let? sink := put_generation (car_capability_generation value) sink in
      let? sink := put_fixed (car_attach_secret value) sink in
      let? sink := put_fixed (car_attach_attempt_token value) sink in
      put_option_u64 (car_accept_marker_delivery_seq value) sink
  | CR_Detach value =>
      let? sink := put_u64 (dr_conversation_id value) sink in
      let? sink := put_u64 (dr_participant_id value) sink in
      let? sink := put_generation (dr_capability_generation value) sink in
      put_fixed (dr_detach_attempt_token value) sink
  | CR_ParticipantAck value =>
      let? sink := put_u64 (pa_conversation_id value) sink in
      let? sink := put_u64 (pa_participant_id value) sink in
      let? sink := put_generation (pa_capability_generation value) sink in
      put_u64 (pa_through_seq value) sink
  | CR_Leave value =>
      let? sink := put_u64 (lr_conversation_id value) sink in
      let? sink := put_u64 (lr_participant_id value) sink in
      let? sink := put_generation (lr_capability_generation value) sink in
      let? sink := put_fixed (lr_attach_secret value) sink in
      put_fixed (lr_leave_attempt_token value) sink
  | CR_MarkerAck value =>
      let? sink := put_u64 (ma_conversation_id value) sink in
      let? sink := put_u64 (ma_participant_id value) sink in
      let? sink := put_generation (ma_capability_generation value) sink in
      put_u64 (ma_marker_delivery_seq value) sink
  | CR_RecordAdmission value =>
      let? sink := put_u64 (ra_conversation_id value) sink in
      let? sink := put_u64 (ra_participant_id value) sink in
      let? sink := put_generation (ra_capability_generation value) sink in
      let? sink := put_fixed (ra_record_admission_attempt_token value) sink in
      put_bytes (ra_payload value) sink
  | CR_ObserverRecovery value =>
      let count := Z.of_nat (length (orh_observer_refusals value)) in
      if count <=? u64_max then
        let? sink := put_u64 count sink in
        put_refusals (orh_observer_refusals value) sink
      else Err CE_LengthOverflow
  end.

Definition encode_participant_delivery (value : ParticipantDelivery) (sink : S)
    : result S CodecError :=
  let? sink := put_u64 (pd_conversation_id value) sink in
  let? sink := put_u64 (pd_delivery_seq value) sink in
  let? sink := put_u16 (wire_value (record_kind (pd_record value))) sink in
  match pd_record value with
  | PR_OrdinaryRecord sender_participant_id payload =>
      let? sink := put_u64 sender_participant_id sink in
      put_bytes payload sink
  | PR_Attached affected_participant_id binding_epoch =>
      let? sink := put_u64 affected_participant_id sink in
      put_binding_epoch binding_epoch sink
  | PR_Detached affected_participant_id binding_epoch cause =>
      let? sink := put_u64 affected_participant_id sink in
      let? sink := put_binding_epoch binding_epoch sink in
      put_u16 (wire_value (close_cause_tag (detached_close_cause cause))) sink
  | PR_Died affected_participant_id binding_epoch cause =>
      let? sink := put_u64 affected_participant_id sink in
      let? sink := put_binding_epoch binding_epoch sink in
      let? sink := put_u16 (wire_value (close_cause_tag (died_close_cause cause))) sink in
      match cause with
      | DDC_UncleanServerRestart prior_server_incarnation =>
          put_u64 prior_server_incarnation sink
      | _ => Ok sink
      end
  | PR_Left affected_participant_id ended_binding_epoch =>
      let? sink := put_u64 affected_participant_id sink in
      put_option_binding_epoch ended_binding_epoch sink
  | PR_HistoryCompacted affected_participant_id abandoned_after abandoned_through
      physical_floor_at_decision =>
      let? sink := put_u64 affected_participant_id sink in
      let? sink := put_u64 abandoned_after sink in
      let? sink := put_u64 abandoned_through sink in
      put_u64 physical_floor_at_decision sink
  end.

Definition encode_server_push (value : ServerPush) (sink : S) : result S CodecError :=
  match value with
  | SP_ObserverProgressed conversation_id refused_epoch observer_progress =>
      let? sink := put_u64 conversation_id sink in
      let? sink := put_u64 refused_epoch sink in
      put_u64 observer_progress sink
  | SP_ParticipantDelivery value => encode_participant_delivery value sink
  | SP_MarkerSettled conversation_id refused_epoch =>
      let? sink := put_u64 conversation_id sink in
      put_u64 refused_epoch sink
  end.
End Encoders.

(** ** Decoders *)

Definition take_token : M Token := take_fixed TOKEN_LEN.
Definition take_secret : M AttachSecret := take_fixed SECRET_LEN.

Definition take_refusal : M ObserverRefusal :=
  do! conversation_id <- take_u64;
  do! refused_epoch <- take_u64;
  mret' (mkObserverRefusal conversation_id refused_epoch).

(** The [match tag] of [decode_client_request]. *)
Definition client_request_fields (tag : ClientDiscriminant) : M ClientRequest :=
  match tag with
  | CD_EnrollmentRequest =>
      do! c <- take_u64; do! t <- take_token;
      mret' (CR_Enrollment (mkEnrollmentRequest c t))
  | CD_CredentialAttachRequest =>
      do! c <- take_u64; do! p <- take_u64; do! g <- take_generation;
      do! s <- take_secret; do! t <- take_token; do! m <- take_option_u64;
      mret' (CR_CredentialAttach (mkCredentialAttachRequest c p g s t m))
  | CD_DetachRequest =>
      do! c <- take_u64; do! p <- take_u64; do! g <- take_generation; do! t <- take_token;
      mret' (CR_Detach (mkDetachRequest c p g t))
  | CD_ParticipantAck =>
      do! c <- take_u64; do! p <- take_u64; do! g <- take_generation; do! s <- take_u64;
      mret' (CR_ParticipantAck (mkParticipantAck c p g s))
  | CD_LeaveRequest =>
      do! c <- take_u64; do! p <- take_u64; do! g <- take_generation;
      do! s <- take_secret; do! t <- take_token;
      mret' (CR_Leave (mkLeaveRequest c p g s t))
  | CD_MarkerAck =>
      do! c <- take_u64; do! p <- take_u64; do! g <- take_generation; do! s <- take_u64;
      mret' (CR_MarkerAck (mkMarkerAck c p g s))
  | CD_RecordAdmission =>
      do! c <- take_u64; do! p <- take_u64; do! g <- take_generation;
      do! t <- take_token; do! payload <- take_bytes;
      mret' (CR_RecordAdmission (mkRecordAdmission c p g t payload))
  | CD_ObserverRecoveryHandshake =>
      do! count <- take_u64;
      do! _ <- require_fixed_list count 16;
      do! observer_refusals <- take_list (Z.to_nat count) take_refusal;
      mret' (CR_ObserverRecovery (mkObserverRecoveryHandshake observer_refusals))
  end.

Definition decode_client_request (tag : ClientDiscriminant) (body : list byte)
    : result ClientRequest CodecError :=
  run_body (client_request_fields tag) body.

Definition decode_participant_record (kind : RecordKind) : M ParticipantRecord :=
  match kind with
  | RK_OrdinaryRecord =>
      do! s <- take_u64; do! payload <- take_bytes; mret' (PR_OrdinaryRecord s payload)
  | RK_Attached =>
      do! p <- take_u64; do! b <- take_binding_epoch; mret' (PR_Attached p b)
  | RK_Detached =>
      do! p <- take_u64; do! b <- take_binding_epoch;
      do! tag <- take_tag (T := CloseCauseTag);
      do! cause <- match tag with
                   | CT_CleanDeregister => mret' DTC_CleanDeregister
                   | CT_Superseded => mret' DTC_Superseded
                   | CT_ServerShutdown => mret' DTC_ServerShutdown
                   | _ => mfail (decode_error DC_InvalidField)
                   end;
      mret' (PR_Detached p b cause)
  | RK_Died =>
      do! p <- take_u64; do! b <- take_binding_epoch;
      do! tag <- take_tag (T := CloseCauseTag);
      do! cause <- match tag with
                   | CT_ConnectionLost => mret' DDC_ConnectionLost
                   | CT_ProcessKilled => mret' DDC_ProcessKilled
                   | CT_ProtocolError => mret' DDC_ProtocolError
                   | CT_UncleanServerRestart =>
                       do! prior <- take_u64; mret' (DDC_UncleanServerRestart prior)
                   | _ => mfail (decode_error DC_InvalidField)
                   end;
      mret' (PR_Died p b cause)
  | RK_Left =>
      do! p <- take_u64; do! b <- take_option_binding_epoch; mret' (PR_Left p b)
  | RK_HistoryCompacted =>
      do! p <- take_u64; do! a <- take_u64; do! t <- take_u64; do! f <- take_u64;
      mret' (PR_HistoryCompacted p a t f)
  end.

(** The [match tag] of [decode_server_push]. *)
Definition server_push_fields (tag : PushDiscriminant) : M ServerPush :=
  match tag with
  | PD_ObserverProgressed =>
      do! c <- take_u64; do! r <- take_u64; do! o <- take_u64;
      mret' (SP_ObserverProgressed c r o)
  | PD_ParticipantDelivery =>
      do! c <- take_u64; do! d <- take_u64; do! kind <- take_tag (T := RecordKind);
      do! record <- decode_participant_record kind;
      mret' (SP_ParticipantDelivery (mkParticipantDelivery c d record))
  | PD_MarkerSettled =>
      do! c <- take_u64; do! r <- take_u64; mret' (SP_MarkerSettled c r)
  end.

Definition decode_server_push (tag : PushDiscriminant) (body : list byte)
    : result ServerPush CodecError :=
  run_body (server_push_fields tag) body.

(** ** Reference bytes *)

Definition enc_bytes (bs : list byte) : list byte := be 4 (blen bs) ++ bs.
Definition enc_refusal (r : ObserverRefusal) : list byte :=
  be 8 (orf_conversation_id r) ++ be 8 (orf_refused_epoch r).

Definition request_body (r : ClientRequest) : list byte :=
  match r with
  | CR_Enrollment (mkEnrollmentRequest c t) => be 8 c ++ t
  | CR_CredentialAttach (mkCredentialAttachRequest c p g s t m) =>
      be 8 c ++ be 8 p ++ be 8 g ++ s ++ t ++ enc_option (be 8) m
  | CR_Detach (mkDetachRequest c p g t) => be 8 c ++ be 8 p ++ be 8 g ++ t
  | CR_ParticipantAck (mkParticipantAck c p g s) => be 8 c ++ be 8 p ++ be 8 g ++ be 8 s
  | CR_Leave (mkLeaveRequest c p g s t) => be 8 c ++ be 8 p ++ be 8 g ++ s ++ t
  | CR_MarkerAck (mkMarkerAck c p g s) => be 8 c ++ be 8 p ++ be 8 g ++ be 8 s
  | CR_RecordAdmission (mkRecordAdmission c p g t l) =>
      be 8 c ++ be 8 p ++ be 8 g ++ t ++ enc_bytes l
  | CR_ObserverRecovery (mkObserverRecoveryHandshake l) =>
      be 8 (Z.of_nat (length l)) ++ concat (map enc_refusal l)
  end.

(** Every length field can hold its length. *)
Definition request_fits (r : ClientRequest) : bool :=
  match r with
  | CR_RecordAdmission v => blen (ra_payload v) <=? u32_max
  | CR_ObserverRecovery v => Z.of_nat (length (orh_observer_refusals v)) <=? u64_max
  | _ => true
  end.

Definition record_fields (r : ParticipantRecord) : list byte :=
  match r with
  | PR_OrdinaryRecord s l => be 8 s ++ enc_bytes l
  | PR_Attached p b => be 8 p ++ enc_epoch b
  | PR_Detached p b c => be 8 p ++ enc_epoch b ++ enc_tag (close_cause_tag (detached_close_cause c))
  | PR_Died p b c =>
      be 8 p ++ enc_epoch b ++ enc_tag (close_cause_tag (died_close_cause c)) ++
      match c with DDC_UncleanServerRestart i => be 8 i | _ => [] end
  | PR_Left p b => be 8 p ++ enc_option enc_epoch b
  | PR_HistoryCompacted p a t f => be 8 p ++ be 8 a ++ be 8 t ++ be 8 f
  end.

Definition push_body (p : ServerPush) : list byte :=
  match p with
  | SP_ObserverProgressed c r o => be 8 c ++ be 8 r ++ be 8 o
  | SP_ParticipantDelivery (mkParticipantDelivery c d r) =>
      be 8 c ++ be 8 d ++ enc_tag (record_kind r) ++ record_fields r
  | SP_MarkerSettled c r => be 8 c ++ be 8 r
  end.

Definition push_fits (p : ServerPush) : bool :=
  match p with
  | SP_ParticipantDelivery (mkParticipantDelivery _ _ (PR_OrdinaryRecord _ l)) =>
      blen l <=? u32_max
  | _ => true
  end.

(** ** The encoders emit the reference bytes *)

Section Emission.
Context {S : Type} `{LawfulSink S}.

Lemma emits_u64 z : emits (put_u64 z) true (be 8 z).
Proof. apply emits_put. Qed.
Lemma emits_fixed bs : emits (put_fixed bs) true bs.
Proof. apply emits_put. Qed.
Lemma emits_tag {T} `{U16Registry T} (t : T) : emits (put_u16 (wire_value t)) true (enc_tag t).
Proof. apply emits_put. Qed.
Lemma emits_generation g : emits (put_generation g) true (be 8 g).
Proof. apply emits_put. Qed.

Lemma emits_binding_epoch b : emits (put_binding_epoch b) true (enc_epoch b).
Proof. repeat apply emits_then; apply emits_put. Qed.

Lemma emits_option_u64 o : emits (put_option_u64 o) true (enc_option (be 8) o).
Proof. destruct o; [apply emits_then|]; apply emits_put. Qed.

Lemma emits_option_binding_epoch o :
  emits (put_option_binding_epoch o) true (enc_option enc_epoch o).
Proof.
  destruct o; [apply emits_then; [apply emits_put | apply emits_binding_epoch]|].
  apply emits_put.
Qed.

Lemma emits_refusals l : emits (put_refusals l) true (concat (map enc_refusal l)).
Proof.
  induction l as [|r l IH]; simpl; [apply emits_ok|].
  unfold enc_refusal. rewrite <- app_assoc. repeat (apply emits_then; [apply emits_put|]). done.
Qed.

Hint Resolve emits_u64 emits_fixed emits_tag emits_generation emits_option_u64
  emits_binding_epoch emits_option_binding_epoch emits_refusals : emits.

Lemma emits_client_request r :
  emits (encode_client_request r) (request_fits r) (request_body r).
Proof.
  destruct r as [[]|[]|[]|[]|[]|[]|[]|[l]]; try (emit_fields; fail).
  apply (emits_guard (fun s => let? s := put_u64 _ s in put_refusals l s)). emit_fields.
Qed.

Lemma emits_server_push p : emits (encode_server_push p) (push_fits p) (push_body p).
Proof.
  destruct p as [c r o|[c d r]|c r]; [emit_fields| |emit_fields].
  destruct r as [s l|p b|p b e|p b e|p b|p a t f]; try (emit_fields; fail).
  destruct e; emit_fields.
Qed.
End Emission.

(** ** The decoders accept exactly the reference bytes *)

Lemma parses_token t : wf_token t -> parses take_token t t.
Proof. apply parses_fixed. Qed.
Lemma parses_secret t : wf_secret t -> parses take_secret t t.
Proof. apply parses_fixed. Qed.
Lemma reads_token : reads take_token (fun t c => c = t /\ wf_token t).
Proof. apply reads_fixed. Qed.
Lemma reads_secret : reads take_secret (fun t c => c = t /\ wf_secret t).
Proof. apply reads_fixed. Qed.
#[export] Instance sticky_token : Sticky take_token := sticky_fixed _.
#[export] Instance sticky_secret : Sticky take_secret := sticky_fixed _.
#[export] Hint Resolve parses_token parses_secret : parses.
#[export] Hint Resolve reads_token reads_secret : reads.

Definition wf_refusal (r : ObserverRefusal) : Prop :=
  u64 (orf_conversation_id r) /\ u64 (orf_refused_epoch r).

Lemma parses_refusal r : wf_refusal r -> parses take_refusal (enc_refusal r) r.
Proof. destruct r. intros [??]. unfold take_refusal, enc_refusal; simpl in *. parse_fields. Qed.

#[export] Instance sticky_refusal : Sticky take_refusal.
Proof. unfold take_refusal. apply _. Qed.

Lemma reads_refusal : reads take_refusal (fun r c => c = enc_refusal r /\ wf_refusal r).
Proof. unfold take_refusal. read_fields. done. Qed.
#[export] Hint Resolve parses_refusal reads_refusal : parses reads.


Lemma blen_refusal r : blen (enc_refusal r) = 16.
Proof. unfold enc_refusal, blen. rewrite length_app, !length_be. done. Qed.

Lemma parses_request r :
  wf_request r -> request_fits r = true ->
  parses (client_request_fields (client_discriminant r)) (request_body r) r.
Proof.
  intros Hwf Hfit.
  destruct r as [[]|[]|[]|[]|[]|[]|[]|[l]]; simpl in *; destruct_and? Hwf; breflect;
    try (parse_fields; fail).
  eapply parses_bind; [parse_field|]. rewrite Nat2Z.id.
  apply parses_require; [by rewrite (blen_concat _ 16) by apply blen_refusal|].
  eapply parses_end; [apply parses_list | done]. eapply Forall_impl; [eassumption|]. intros. by apply parses_refusal.
Qed.

Lemma reads_request tag :
  reads (client_request_fields tag) (fun r c =>
    c = request_body r /\ wf_request r /\ request_fits r = true /\ client_discriminant r = tag).
Proof.
  destruct tag; simpl; read_fields; try (simpl; unfold blen in *; intuition mlia).
  eapply reads_bind; [apply reads_list; [apply _ | apply reads_refusal] | apply _ |].
  intros l ? (-> & Hl & Hwf). read_done. simpl. unfold wf_request, request_fits; simpl.
  rewrite Hl, Z2Nat.id by mlia. intuition; by apply Z.leb_le; mlia.
Qed.

Lemma parses_record r :
  wf_record r -> push_fits (SP_ParticipantDelivery (mkParticipantDelivery 0 0 r)) = true ->
  parses (decode_participant_record (record_kind r)) (record_fields r) r.
Proof.
  intros Hwf Hfit.
  destruct r as [s l|p b|p b e|p b e|p b|p a t f]; simpl in *; destruct_and? Hwf; breflect;
    try (parse_fields; fail).
  - eapply parses_bind; [parse_field|]. eapply parses_bind; [parse_field|].
    rewrite <- (app_nil_r (enc_tag _)). eapply parses_bind; [parse_field|].
    destruct e; simpl; parse_fields.
  - do 3 (eapply parses_bind; [parse_field|]).
    destruct e; simpl; parse_fields.
Qed.

Lemma parses_push p :
  wf_push p -> push_fits p = true ->
  parses (server_push_fields (push_discriminant p)) (push_body p) p.
Proof.
  intros Hwf Hfit. destruct p as [c r o|[c d r]|c r]; simpl in *; destruct_and? Hwf;
    try (parse_fields; fail).
  do 3 (eapply parses_bind; [parse_field|]). eapply parses_end; [|done]. by apply parses_record.
Qed.

#[export] Instance sticky_record k : Sticky (decode_participant_record k).
Proof. destruct k; simpl; apply _. Qed.

Lemma reads_record k :
  reads (decode_participant_record k) (fun r c => c = record_fields r /\ wf_record r
    /\ push_fits (SP_ParticipantDelivery (mkParticipantDelivery 0 0 r)) = true
    /\ record_kind r = k).
Proof.
  destruct k; simpl; read_fields;
    try (match goal with t : CloseCauseTag |- _ => destruct t end; read_fields);
    simpl; unfold blen in *; intuition mlia.
Qed.
#[export] Hint Resolve parses_record reads_record : parses reads.

Lemma reads_push tag :
  reads (server_push_fields tag) (fun p c =>
    c = push_body p /\ wf_push p /\ push_fits p = true /\ push_discriminant p = tag).
Proof.
  destruct tag; simpl; read_fields; simpl; intuition.
Qed.
