(* ===== verification/ServerCodec.v ===== *)
(** * Bodies of server values

    Model of [liminal-protocol/src/wire/server_codec.rs]: the encoder and the
    decoder of every body of the server-value registry, with the origin prefix
    that routes shared rows.  The source's [Encoder] only ever appends, so a
    [put_x] of the source is modelled by the bytes it appends: [be n v] for the
    integer of [n] bytes, [enc_option], [enc_epoch], [enc_bool] and [enc_tag] for
    the structured fields.  Its [Decoder] is the reader of [Bytes]. *)
From coqutil Require Import Byte.
From S2P Require Import Prelude Algebra Tags Wire Response Bytes ClientCodec.

Definition RECOVERY_STATUS_LEN : Z := 26.

Definition require_v1 (version : ProtocolVersion) : result unit CodecError :=
  if decide (version = ProtocolVersion_V1) then Ok tt
  else Err (CE_UnsupportedVersion version ProtocolVersion_V1).

(** ** Encoder *)

Definition enc_version (v : ProtocolVersion) : list byte := be 2 (pv_major v) ++ be 2 (pv_minor v).
Definition enc_resource_vector (v : ResourceVector) : list byte :=
  be 8 (rv_entries v) ++ be 8 (rv_bytes v).
Definition enc_wide_resource_vector (v : WideResourceVector) : list byte :=
  be 16 (wrv_entries v) ++ be 16 (wrv_bytes v).
Definition put_string (value : list byte) : result (list byte) CodecError :=
  if blen value <=? u32_max then Ok (be 4 (blen value) ++ value) else Err CE_LengthOverflow.

Definition put_enrollment (v : EnrollmentEnvelope) : list byte :=
  be 8 (ee_conversation_id v) ++ ee_enrollment_token v.
Definition put_attach (v : AttachEnvelope) : list byte :=
  be 8 (ae_conversation_id v) ++ be 8 (ae_participant_id v) ++ be 8 (ae_capability_generation v)
  ++ ae_attach_attempt_token v ++ enc_option (be 8) (ae_accept_marker_delivery_seq v).
Definition put_detach (v : DetachEnvelope) : list byte :=
  be 8 (de_conversation_id v) ++ be 8 (de_participant_id v) ++ be 8 (de_capability_generation v)
  ++ de_detach_attempt_token v.
Definition put_participant_ack (v : ParticipantAckEnvelope) : list byte :=
  be 8 (pae_conversation_id v) ++ be 8 (pae_participant_id v)
  ++ be 8 (pae_capability_generation v) ++ be 8 (pae_through_seq v).
Definition put_leave (v : LeaveEnvelope) : list byte :=
  be 8 (le_conversation_id v) ++ be 8 (le_participant_id v) ++ be 8 (le_capability_generation v)
  ++ le_leave_attempt_token v.
Definition put_marker_ack (v : MarkerAckEnvelope) : list byte :=
  be 8 (mae_conversation_id v) ++ be 8 (mae_participant_id v)
  ++ be 8 (mae_capability_generation v) ++ be 8 (mae_marker_delivery_seq v).
Definition put_record_admission (v : RecordAdmissionEnvelope) : list byte :=
  be 8 (rae_conversation_id v) ++ be 8 (rae_participant_id v)
  ++ be 8 (rae_capability_generation v) ++ rae_record_admission_attempt_token v.

Definition put_response_envelope (v : ResponseEnvelope) : list byte :=
  match v with
  | RE_Enrollment v => put_enrollment v
  | RE_CredentialAttach v => put_attach v
  | RE_Detach v => put_detach v
  | RE_ParticipantAck v => put_participant_ack v
  | RE_Leave v => put_leave v
  | RE_MarkerAck v => put_marker_ack v
  | RE_RecordAdmission v => put_record_admission v
  end.

Definition put_participant_reference (v : ParticipantReferenceEnvelope) : list byte :=
  match v with
  | PRE_CredentialAttach v => put_attach v
  | PRE_Detach v => put_detach v
  | PRE_ParticipantAck v => put_participant_ack v
  | PRE_Leave v => put_leave v
  | PRE_MarkerAck v => put_marker_ack v
  | PRE_RecordAdmission v => put_record_admission v
  end.

Definition put_binding_required (v : BindingRequiredEnvelope) : list byte :=
  match v with
  | BRE_Detach v => put_detach v
  | BRE_ParticipantAck v => put_participant_ack v
  | BRE_Leave v => put_leave v
  | BRE_MarkerAck v => put_marker_ack v
  | BRE_RecordAdmission v => put_record_admission v
  end.

Definition put_order_allocating (v : OrderAllocatingEnvelope) : list byte :=
  match v with
  | OAE_Enrollment v => put_enrollment v
  | OAE_CredentialAttach v => put_attach v
  | OAE_RecordAdmission v => put_record_admission v
  end.

Definition put_closure_checked (v : ClosureCheckedEnvelope) : list byte :=
  match v with
  | CCE_Enrollment v => put_enrollment v
  | CCE_CredentialAttach v => put_attach v
  | CCE_Leave v => put_leave v
  | CCE_RecordAdmission v => put_record_admission v
  end.

Definition put_sequence_allocating (v : SequenceAllocatingEnvelope) : list byte :=
  match v with
  | SAE_Enrollment v => put_enrollment v
  | SAE_CredentialAttach v => put_attach v
  | SAE_RecordAdmission v => put_record_admission v
  end.

Definition put_marker_proof (v : MarkerProofRequest) : list byte :=
  match v with
  | MPR_CredentialAttach v =>
      be 8 (amp_conversation_id v) ++ amp_token v ++ be 8 (amp_participant_id v)
      ++ be 8 (amp_capability_generation v) ++ be 8 (amp_requested_marker_delivery_seq v)
  | MPR_MarkerAck v =>
      be 8 (mp_conversation_id v) ++ be 8 (mp_participant_id v)
      ++ be 8 (mp_capability_generation v) ++ be 8 (mp_requested_marker_delivery_seq v)
  end.

Definition put_repayment_edge (v : RepaymentEdge) : list byte :=
  enc_tag (repayment_edge_tag v) ++
  match v with
  | Edge_None => []
  | Edge_ObserverProjection through_seq => be 8 through_seq
  | Edge_PhysicalCompaction from_floor through_seq => be 8 from_floor ++ be 8 through_seq
  | Edge_MarkerDelivery p b m => be 8 p ++ enc_epoch b ++ be 8 m
  | Edge_ParticipantCursorProgress v =>
      be 8 (pcp_participant_id v) ++ enc_epoch (pcp_binding_epoch v)
      ++ be 8 (pcp_through_seq v) ++ enc_option (be 8) (pcp_marker_delivery_seq v)
  | Edge_DetachedCredentialRecovery p m b => be 8 p ++ be 8 m ++ enc_epoch b
  | Edge_DetachedMarkerRelease p m b => be 8 p ++ be 8 m ++ enc_epoch b
  | Edge_DetachedCursorRelease p b => be 8 p ++ enc_epoch b
  end.

Definition put_closure_snapshot (v : ClosureSnapshot) : list byte :=
  be 8 (cs_marker_capacity_credits v) ++ be 8 (cs_marker_anchors v) ++ be 8 (cs_entry_debt v)
  ++ be 8 (cs_byte_debt v) ++ put_repayment_edge (cs_repayment_edge v)
  ++ be 8 (cs_edge_sequence_claims v) ++ be 8 (cs_edge_order_position_claims v)
  ++ enc_resource_vector (cs_edge_k_remaining v) ++ enc_wide_resource_vector (cs_k_headroom v)
  ++ be 8 (cs_episode_churn_used v) ++ be 8 (cs_delta_cycles v)
  ++ be 8 (cs_episode_churn_limit v).

Definition put_sequence_budget (v : SequenceBudget) : list byte :=
  be 8 (sb_high_watermark v) ++ be 8 (sb_remaining v) ++ be 8 (sb_e v) ++ be 8 (sb_t v)
  ++ be 8 (sb_m v) ++ be 8 (sb_rs v) ++ be 8 (sb_rt v) ++ be 16 (sb_l_times_t v)
  ++ be 16 (sb_l_times_rt v) ++ be 16 (sb_l_other_times_e v).

Definition put_stale_authority (v : StaleAuthority) : list byte :=
  match v with
  | SA_Live request current_generation =>
      match request with
      | CSA_CredentialAttach v => put_attach v
      | CSA_ParticipantAck v => put_participant_ack v
      | CSA_MarkerAck v => put_marker_ack v
      | CSA_RecordAdmission v => put_record_admission v
      end ++ be 8 current_generation
  | SA_Detach v =>
      enc_tag (detach_authority_state_tag v) ++
      match v with
      | DSA_Live c p g t g' => be 8 c ++ be 8 p ++ be 8 g ++ t ++ be 8 g'
      | DSA_TerminalizedDetachCell v =>
          be 8 (tdc_conversation_id v) ++ be 8 (tdc_participant_id v)
          ++ be 8 (tdc_capability_generation v) ++ tdc_detach_attempt_token v
          ++ be 8 (tdc_current_generation v) ++ enc_epoch (tdc_committed_binding_epoch v)
          ++ enc_tag (binding_state_view_tag (tdc_binding_state v)) ++
          match tdc_binding_state v with
          | BSV_Bound current_binding_epoch => enc_epoch current_binding_epoch
          | BSV_Detached => []
          end
      end
  | SA_Leave v =>
      enc_tag (leave_authority_state_tag v) ++
      match v with
      | LSA_Live c p g t g' => be 8 c ++ be 8 p ++ be 8 g ++ t ++ be 8 g'
      | LSA_CommittedLeaveTombstone c p g t g' => be 8 c ++ be 8 p ++ be 8 g ++ t ++ be 8 g'
      end
  end.

Definition put_receipt_expired (v : ReceiptExpired) : list byte :=
  match v with
  | RX_Enrollment c t p result_generation current_generation reason =>
      be 8 c ++ t ++ be 8 p ++ enc_option (be 8) None ++ be 8 result_generation
      ++ be 8 current_generation ++ enc_tag reason
  | RX_CredentialAttach c t p presented_generation presented_marker_delivery_seq
      result_generation current_generation reason =>
      be 8 c ++ t ++ be 8 p ++ enc_option (be 8) (Some presented_generation)
      ++ enc_option (be 8) presented_marker_delivery_seq ++ be 8 result_generation
      ++ be 8 current_generation ++ enc_tag reason
  end.

Definition put_receipt_capacity (v : ReceiptCapacityExceeded) : list byte :=
  match v with
  | RCE_Enrollment request scope limit occupied =>
      put_enrollment request ++ enc_tag (wire_scope scope) ++ be 8 limit ++ be 8 occupied
      ++ be 8 ReceiptCapacityExceeded_REQUESTED
  | RCE_CredentialAttach request scope limit occupied =>
      put_attach request ++ enc_tag scope ++ be 8 limit ++ be 8 occupied
      ++ be 8 ReceiptCapacityExceeded_REQUESTED
  end.

Definition put_backpressure_state (v : ObserverBackpressureState) : list byte :=
  be 8 (obs_backpressure_epoch v) ++ be 8 (obs_observer_progress v).

Definition put_observer_backpressure (v : ObserverBackpressure) : list byte :=
  match v with
  | OB_Enrollment request state => put_enrollment request ++ put_backpressure_state state
  | OB_CredentialAttach request state => put_attach request ++ put_backpressure_state state
  | OB_Detach request committed_binding_epoch state =>
      put_detach request ++ enc_epoch committed_binding_epoch ++ put_backpressure_state state
  | OB_Leave request state prior_terminal_cell_exists =>
      put_leave request ++ put_backpressure_state state ++ enc_bool prior_terminal_cell_exists
  | OB_RecordAdmission request state =>
      put_record_admission request ++ put_backpressure_state state
  end.

(** The eleven fields of an enrollment and of an attach receipt. *)
Definition put_enroll_bound (v : EnrollBound) : list byte :=
  be 8 (eb_conversation_id v) ++ eb_token v ++ be 8 (eb_participant_id v)
  ++ enc_option (be 8) (eb_request_generation v) ++ be 8 (eb_capability_generation v)
  ++ eb_attach_secret v ++ enc_epoch (eb_origin_binding_epoch v)
  ++ be 8 (eb_persisted_cursor v) ++ enc_option (be 8) (eb_accepted_marker_delivery_seq v)
  ++ be 16 (eb_receipt_expires_at v) ++ be 16 (eb_provenance_expires_at v).
Definition put_attach_bound (v : AttachBound) : list byte :=
  be 8 (ab_conversation_id v) ++ ab_token v ++ be 8 (ab_participant_id v)
  ++ enc_option (be 8) (Some (ab_request_generation v)) ++ be 8 (ab_capability_generation v)
  ++ ab_attach_secret v ++ enc_epoch (ab_origin_binding_epoch v)
  ++ be 8 (ab_persisted_cursor v) ++ enc_option (be 8) (ab_accepted_marker_delivery_seq v)
  ++ be 16 (ab_receipt_expires_at v) ++ be 16 (ab_provenance_expires_at v).

Definition put_receipt_replay (v : ReceiptReplay) : list byte :=
  match v with
  | RR_Enrollment v =>
      be 8 (eb_conversation_id v) ++ eb_token v ++ be 8 (eb_participant_id v)
      ++ enc_option (be 8) None ++ be 8 (eb_capability_generation v)
      ++ eb_attach_secret v ++ enc_epoch (eb_origin_binding_epoch v)
      ++ be 8 (eb_persisted_cursor v) ++ enc_option (be 8) None
      ++ be 16 (eb_receipt_expires_at v) ++ be 16 (eb_provenance_expires_at v)
  | RR_CredentialAttach v => put_attach_bound v
  end.

Definition closure_scope (r : ClosureRefusalReason) : ClosureScope :=
  match r with
  | CRR_Capacity _ => CS_Capacity
  | CRR_RecoveryFence => CS_RecoveryFence
  | CRR_DeliveredMarkerAwaitingAck => CS_DeliveredMarkerAwaitingAck
  | CRR_EpisodeChurnLimit => CS_EpisodeChurnLimit
  end.

Definition put_status (s : ObserverProgressStatus) : list byte :=
  be 8 (ops_conversation_id s) ++ be 8 (ops_refused_epoch s)
  ++ be 8 (ops_current_observer_progress s) ++ enc_bool (ops_armed s)
  ++ enc_bool (ops_progressed s).

Definition encode_server_suffix (value : ServerValue) : result (list byte) CodecError :=
  match value with
  | SV_ParticipantTransportRejected v =>
      match ptr_reason v with
      | TRR_FrameTooLarge complete_frame_bytes max_frame_bytes =>
          Ok (enc_tag TR_FrameTooLarge ++ be 8 complete_frame_bytes ++ be 8 max_frame_bytes)
      | TRR_DecodeFailed decode_class => Ok (enc_tag TR_DecodeFailed ++ enc_tag decode_class)
      | TRR_UnsupportedVersion presented_version supported_version =>
          Ok (enc_tag TR_UnsupportedVersion ++ enc_version presented_version
              ++ enc_version supported_version)
      | TRR_AuthenticationFailed => Ok (enc_tag TR_AuthenticationFailed)
      | TRR_ParticipantCapabilityRequired =>
          let? s := put_string PARTICIPANT_CAPABILITY in
          Ok (enc_tag TR_ParticipantCapabilityRequired ++ s)
      end
  | SV_AttemptTokenBodyConflict v =>
      match v with
      | ATB_CredentialAttach token c p g m conflict =>
          Ok (token ++ enc_tag AO_CredentialAttachRequest ++ be 8 c ++ be 8 p ++ be 8 g
              ++ enc_option (be 8) m ++ enc_tag conflict)
      | ATB_Leave token c p g =>
          Ok (token ++ enc_tag AO_LeaveRequest ++ be 8 c ++ be 8 p ++ be 8 g
              ++ enc_tag AC_Generation)
      | ATB_RecordAdmission token c p g =>
          Ok (token ++ enc_tag AO_RecordAdmission ++ be 8 c ++ be 8 p ++ be 8 g)
      end
  | SV_ConnectionConversationCapacityExceeded v =>
      match v with
      | CCC_SemanticRequest request limit => Ok (put_response_envelope request ++ be 8 limit)
      | CCC_ObserverRecovery conversation_id limit =>
          Ok (be 8 0 ++ be 8 conversation_id ++ be 8 limit)
      end
  | SV_ConnectionConversationBindingOccupied v =>
      match v with
      | CCB_Enrollment conversation_id enrollment_token =>
          Ok (be 8 conversation_id ++ enrollment_token ++ enc_option (be 8) None)
      | CCB_CredentialAttach c p g t m =>
          Ok (be 8 c ++ be 8 p ++ be 8 g ++ t ++ enc_option (be 8) m
              ++ enc_option (be 8) (Some p))
      end
  | SV_ConversationOrderExhausted v =>
      Ok (put_order_allocating (coe_request v) ++ enc_tag (coe_counter v) ++ be 8 (coe_high v)
          ++ enc_option (be 8) (coe_next_value v) ++ be 16 (coe_order_remaining v)
          ++ be 16 (coe_reserved_claims v) ++ be 8 REQUIRED_MAJORS
          ++ be 16 (coe_resulting_order_remaining v) ++ be 16 (coe_resulting_reserved_claims v))
  | SV_ParticipantUnknown v => Ok (put_participant_reference (pu_request v))
  | SV_NoBinding v => Ok (put_binding_required (nb_request v))
  | SV_StaleAuthority v => Ok (put_stale_authority v)
  | SV_Retired v =>
      match v with
      | Retired_Enrollment request participant_id retired_generation =>
          Ok (put_enrollment request ++ be 8 participant_id ++ be 8 retired_generation)
      | Retired_Participant request retired_generation =>
          Ok (put_participant_reference request ++ be 8 retired_generation)
      end
  | SV_MarkerClosureCapacityExceeded v =>
      Ok (put_closure_checked (mcce_request v) ++ enc_tag (closure_scope (mcce_reason v))
          ++ put_closure_snapshot (mcce_snapshot v) ++
          match mcce_reason v with
          | CRR_Capacity reason =>
              enc_tag (resource_dimension_tag (ccr_dimension reason))
              ++ be 16 (ccr_required reason) ++ be 16 (ccr_limit reason)
          | _ => []
          end)
  | SV_EnrollBound v => Ok (put_enroll_bound v)
  | SV_EnrollmentKnown v =>
      Ok (be 8 (ek_conversation_id v) ++ ek_token v ++ be 8 (ek_participant_id v)
          ++ be 8 (ek_current_generation v))
  | SV_ReceiptExpired v => Ok (put_receipt_expired v)
  | SV_ReceiptCapacityExceeded v => Ok (put_receipt_capacity v)
  | SV_IdentityCapacityExceeded v =>
      Ok (put_enrollment (ice_request v) ++ enc_tag (ice_scope v) ++ be 8 (ice_limit v)
          ++ be 8 (ice_occupied v) ++ be 8 IdentityCapacityExceeded_REQUESTED)
  | SV_ObserverBackpressure v => Ok (put_observer_backpressure v)
  | SV_ConversationSequenceExhausted v =>
      Ok (put_sequence_allocating (cse_request v) ++ put_sequence_budget (cse_sequence_budget v))
  | SV_AttachBound v => Ok (put_attach_bound v)
  | SV_StaleOrUnknownReceipt v =>
      Ok (be 8 (sur_conversation_id v) ++ sur_token v ++ be 8 (sur_participant_id v)
          ++ be 8 (sur_presented_generation v)
          ++ enc_option (be 8) (sur_presented_marker_delivery_seq v)
          ++ be 8 (sur_current_generation v))
  | SV_MarkerNotDelivered v =>
      Ok (put_marker_proof (mnd_request v) ++ enc_tag (mnd_reason v)
          ++ be 8 (mnd_expected_marker_delivery_seq v))
  | SV_MarkerMismatch v =>
      Ok (put_marker_proof (mmm_request v)
          ++ enc_tag (marker_mismatch_reason (mmm_mismatch v)) ++
          match mmm_mismatch v with
          | MMB_BelowCursor current_cursor => be 8 current_cursor
          | MMB_NoMarkerExpected => []
          | MMB_ExpectedDifferentMarker expected => be 8 expected
          end)
  | SV_Bound v | SV_UnboundReceipt v => Ok (put_receipt_replay v)
  | SV_DetachCommitted v =>
      Ok (be 8 (dcm_conversation_id v) ++ be 8 (dcm_participant_id v)
          ++ be 8 (dcm_capability_generation v) ++ dcm_detach_attempt_token v
          ++ enc_epoch (dcm_committed_binding_epoch v) ++ be 8 (dcm_detached_delivery_seq v))
  | SV_DetachInProgress v =>
      Ok (be 8 (dip_conversation_id v) ++ be 8 (dip_participant_id v) ++ dip_presented_token v
          ++ be 8 (dip_presented_generation v) ++ enc_epoch (dip_committed_binding_epoch v))
  | SV_AckCommitted v =>
      Ok (put_participant_ack (acm_request v) ++ be 8 (acm_current_cursor v))
  | SV_AckNoOp v =>
      match v with
      | ANO_ParticipantAck request =>
          Ok (put_participant_ack request ++ be 8 (ano_current_cursor v))
      | ANO_MarkerAck request => Ok (put_marker_ack request ++ be 8 (ano_current_cursor v))
      end
  | SV_AckGap v =>
      Ok (put_participant_ack (ag_request v) ++ be 8 (ag_current_cursor v)
          ++ enc_tag AG_NotContiguouslyAvailable)
  | SV_AckRegression v =>
      Ok (put_participant_ack (ar_request v) ++ be 8 (ar_current_cursor v)
          ++ enc_tag AR_BelowCursor)
  | SV_LeaveCommitted v =>
      Ok (be 8 (lc_conversation_id v) ++ lc_leave_attempt_token v ++ be 8 (lc_participant_id v)
          ++ be 8 (lc_retired_generation v) ++ be 8 (lc_retired_generation v)
          ++ enc_option enc_epoch (lc_ended_binding_epoch v)
          ++ enc_option (be 8) (lc_prior_terminal_delivery_seq v)
          ++ be 8 (lc_left_delivery_seq v))
  | SV_MarkerAckCommitted v => Ok (put_marker_ack (mac_request v) ++ be 8 (mac_current_cursor v))
  | SV_RecordCommitted v =>
      Ok (put_record_admission (rcm_request v) ++ be 8 (rcm_sender_participant_id v)
          ++ be 8 (rcm_delivery_seq v))
  | SV_RecordTooLarge v =>
      Ok (put_record_admission (rtl_request v)
          ++ enc_tag (resource_dimension_tag (rtl_dimension v))
          ++ enc_resource_vector (rtl_encoded_record_charge v)
          ++ enc_resource_vector (rtl_max_ordinary_record_charge v))
  | SV_ObserverRecoveryAccepted v =>
      let count := Z.of_nat (length (ora_statuses v)) in
      if count <=? u64_max then Ok (be 8 count ++ concat (map put_status (ora_statuses v)))
      else Err CE_LengthOverflow
  | SV_InvalidObserverEpoch v =>
      Ok (be 8 0 ++ enc_tag (invalid_observer_epoch_reason v) ++
          match v with
          | IOE_ConversationUnknown c e => be 8 c ++ be 8 e ++ enc_option (be 8) None
          | IOE_EpochAhead c e o => be 8 c ++ be 8 e ++ enc_option (be 8) (Some o)
          end)
  | SV_InvalidObserverEpochList v =>
      Ok (be 8 0 ++ enc_tag (invalid_observer_epoch_list_reason v) ++
          match v with
          | IOL_TooManyEntries presented_entries max_entries =>
              be 8 presented_entries ++ be 8 max_entries
          | IOL_DuplicateConversation c first_index duplicate_index =>
              be 8 c ++ be 8 first_index ++ be 8 duplicate_index
          end)
  | SV_MarkerSettlementBackpressure v =>
      match v with
      | MSB_CredentialAttach c e | MSB_Detach c e => Ok (be 8 c ++ be 8 e)
      end
  | SV_EnrollmentSettlementBackpressure v => Ok (be 8 (esb_conversation_id v))
  end.

(** [!matches!(..)]: every row but the origin-free ones. *)
Definition carries_origin (discriminant : ServerDiscriminant) : bool :=
  match discriminant with
  | SD_ParticipantTransportRejected
  | SD_ObserverRecoveryAccepted
  | SD_InvalidObserverEpoch
  | SD_InvalidObserverEpochList
  | SD_ObserverRecoveryConnectionCapacityExceeded => false
  | _ => true
  end.

Definition origin_is_valid (discriminant : ServerDiscriminant) (origin : ClientDiscriminant)
    : bool :=
  match discriminant with
  | SD_AttemptTokenBodyConflict =>
      match origin with
      | CD_CredentialAttachRequest | CD_LeaveRequest | CD_RecordAdmission => true
      | _ => false
      end
  | SD_ConnectionConversationCapacityExceeded =>
      match origin with CD_ObserverRecoveryHandshake => false | _ => true end
  | SD_ConnectionConversationBindingOccupied =>
      match origin with CD_EnrollmentRequest | CD_CredentialAttachRequest => true | _ => false end
  | SD_ConversationOrderExhausted =>
      match origin with
      | CD_EnrollmentRequest | CD_CredentialAttachRequest | CD_RecordAdmission => true
      | _ => false
      end
  | SD_ParticipantUnknown =>
      match origin with
      | CD_EnrollmentRequest | CD_ObserverRecoveryHandshake => false
      | _ => true
      end
  | SD_NoBinding =>
      match origin with
      | CD_EnrollmentRequest | CD_CredentialAttachRequest | CD_ObserverRecoveryHandshake => false
      | _ => true
      end
  | SD_StaleAuthority =>
      match origin with
      | CD_EnrollmentRequest | CD_ObserverRecoveryHandshake => false
      | _ => true
      end
  | SD_Retired => match origin with CD_ObserverRecoveryHandshake => false | _ => true end
  | SD_MarkerClosureCapacityExceeded =>
      match origin with
      | CD_EnrollmentRequest | CD_CredentialAttachRequest | CD_LeaveRequest
      | CD_RecordAdmission => true
      | _ => false
      end
  | SD_EnrollBound | SD_EnrollmentKnown | SD_IdentityCapacityExceeded =>
      match origin with CD_EnrollmentRequest => true | _ => false end
  | SD_ReceiptExpired | SD_ReceiptCapacityExceeded | SD_Bound | SD_UnboundReceipt =>
      match origin with CD_EnrollmentRequest | CD_CredentialAttachRequest => true | _ => false end
  | SD_ObserverBackpressure =>
      match origin with
      | CD_EnrollmentRequest | CD_CredentialAttachRequest | CD_DetachRequest
      | CD_LeaveRequest | CD_RecordAdmission => true
      | _ => false
      end
  | SD_ConversationSequenceExhausted =>
      match origin with
      | CD_EnrollmentRequest | CD_CredentialAttachRequest | CD_RecordAdmission => true
      | _ => false
      end
  | SD_AttachBound | SD_StaleOrUnknownReceipt =>
      match origin with CD_CredentialAttachRequest => true | _ => false end
  | SD_MarkerNotDelivered | SD_MarkerMismatch =>
      match origin with CD_CredentialAttachRequest | CD_MarkerAck => true | _ => false end
  | SD_DetachCommitted | SD_DetachInProgress =>
      match origin with CD_DetachRequest => true | _ => false end
  | SD_AckCommitted | SD_AckGap | SD_AckRegression =>
      match origin with CD_ParticipantAck => true | _ => false end
  | SD_AckNoOp => match origin with CD_ParticipantAck | CD_MarkerAck => true | _ => false end
  | SD_LeaveCommitted => match origin with CD_LeaveRequest => true | _ => false end
  | SD_MarkerAckCommitted => match origin with CD_MarkerAck => true | _ => false end
  | SD_RecordCommitted | SD_RecordTooLarge =>
      match origin with CD_RecordAdmission => true | _ => false end
  | SD_MarkerSettlementBackpressure =>
      match origin with CD_CredentialAttachRequest | CD_DetachRequest => true | _ => false end
  | SD_EnrollmentSettlementBackpressure =>
      match origin with CD_EnrollmentRequest => true | _ => false end
  | SD_ParticipantTransportRejected
  | SD_ObserverRecoveryAccepted
  | SD_InvalidObserverEpoch
  | SD_InvalidObserverEpochList
  | SD_ObserverRecoveryConnectionCapacityExceeded => false
  end.

Definition encode_server_value_body (value : ServerValue) (version : ProtocolVersion)
    : result (ServerDiscriminant * list byte) CodecError :=
  let? _ := require_v1 version in
  let discriminant := server_discriminant value in
  let? prefix :=
    if carries_origin discriminant then
      let? originating := ok_or (originating_request value) CE_InvalidValue in
      Ok (enc_tag originating)
    else Ok [] in
  let? suffix := encode_server_suffix value in
  Ok (discriminant, prefix ++ suffix).

(** ** Decoder *)

(** [core::str::from_utf8]: whether the bytes are well-formed UTF-8. *)
Definition cont (b : byte) : bool := (128 <=? byte.unsigned b) && (byte.unsigned b <=? 191).
Definition within (lo hi : Z) (b : byte) : bool :=
  (lo <=? byte.unsigned b) && (byte.unsigned b <=? hi).
Fixpoint utf8_valid (bs : list byte) : bool :=
  match bs with
  | [] => true
  | b0 :: t0 =>
      if within 0 127 b0 then utf8_valid t0
      else match t0 with
      | [] => false
      | b1 :: t1 =>
          if within 194 223 b0 then cont b1 && utf8_valid t1
          else match t1 with
          | [] => false
          | b2 :: t2 =>
              if within 224 239 b0 then
                within (if within 224 224 b0 then 160 else 128)
                       (if within 237 237 b0 then 159 else 191) b1
                && cont b2 && utf8_valid t2
              else match t2 with
              | [] => false
              | b3 :: t3 =>
                  within 240 244 b0
                  && within (if within 240 240 b0 then 144 else 128)
                            (if within 244 244 b0 then 143 else 191) b1
                  && cont b2 && cont b3 && utf8_valid t3
              end
          end
      end
  end.

(** Text that is not UTF-8 raises the flag and reads as the empty string. *)
Definition take_string : M (list byte) :=
  do! length <- take_u32;
  do! bytes <- rtake length;
  if utf8_valid bytes then mret' bytes
  else do! _ <- invalidate; mret' [].

(** [Decoder::finish] and the exact-body run of [decode_server_value_body]. *)
Definition decoder_finish (r : Reader) : result unit CodecError :=
  if negb (remaining r =? 0) then Err (decode_error DC_CanonicalEncoding)
  else if rd_invalid_field r then Err (decode_error DC_InvalidField)
  else Ok tt.

Definition generation_one : M Generation := mlift (Generation_new 1) CE_InvalidValue.
Definition take_protocol_version : M ProtocolVersion :=
  do! major <- take_u16; do! minor <- take_u16; mret' (mkProtocolVersion major minor).
Definition take_resource_vector : M ResourceVector :=
  do! e <- take_u64; do! b <- take_u64; mret' (mkRV e b).
Definition take_wide_resource_vector : M WideResourceVector :=
  do! e <- take_u128; do! b <- take_u128; mret' (mkWRV e b).

Definition take_enrollment : M EnrollmentEnvelope :=
  do! c <- take_u64; do! t <- take_token; mret' (mkEnrollmentEnvelope c t).
Definition take_attach : M AttachEnvelope :=
  do! c <- take_u64; do! p <- take_u64; do! g <- take_generation; do! t <- take_token;
  do! m <- take_option_u64; mret' (mkAttachEnvelope c p g t m).
Definition take_detach : M DetachEnvelope :=
  do! c <- take_u64; do! p <- take_u64; do! g <- take_generation; do! t <- take_token;
  mret' (mkDetachEnvelope c p g t).
Definition take_participant_ack : M ParticipantAckEnvelope :=
  do! c <- take_u64; do! p <- take_u64; do! g <- take_generation; do! s <- take_u64;
  mret' (mkParticipantAckEnvelope c p g s).
Definition take_leave : M LeaveEnvelope :=
  do! c <- take_u64; do! p <- take_u64; do! g <- take_generation; do! t <- take_token;
  mret' (mkLeaveEnvelope c p g t).
Definition take_marker_ack : M MarkerAckEnvelope :=
  do! c <- take_u64; do! p <- take_u64; do! g <- take_generation; do! s <- take_u64;
  mret' (mkMarkerAckEnvelope c p g s).
Definition take_record_admission : M RecordAdmissionEnvelope :=
  do! c <- take_u64; do! p <- take_u64; do! g <- take_generation; do! t <- take_token;
  mret' (mkRecordAdmissionEnvelope c p g t).

(** [Err(decode_error(DecodeClass::InvalidField))]. *)
Definition invalid_field {A} : M A := mfail (decode_error DC_InvalidField).

Definition take_response_envelope (origin : ClientDiscriminant) : M ResponseEnvelope :=
  match origin with
  | CD_EnrollmentRequest => mmap RE_Enrollment take_enrollment
  | CD_CredentialAttachRequest => mmap RE_CredentialAttach take_attach
  | CD_DetachRequest => mmap RE_Detach take_detach
  | CD_ParticipantAck => mmap RE_ParticipantAck take_participant_ack
  | CD_LeaveRequest => mmap RE_Leave take_leave
  | CD_MarkerAck => mmap RE_MarkerAck take_marker_ack
  | CD_RecordAdmission => mmap RE_RecordAdmission take_record_admission
  | CD_ObserverRecoveryHandshake => invalid_field
  end.

Definition take_participant_reference (origin : ClientDiscriminant)
    : M ParticipantReferenceEnvelope :=
  match origin with
  | CD_CredentialAttachRequest => mmap PRE_CredentialAttach take_attach
  | CD_DetachRequest => mmap PRE_Detach take_detach
  | CD_ParticipantAck => mmap PRE_ParticipantAck take_participant_ack
  | CD_LeaveRequest => mmap PRE_Leave take_leave
  | CD_MarkerAck => mmap PRE_MarkerAck take_marker_ack
  | CD_RecordAdmission => mmap PRE_RecordAdmission take_record_admission
  | CD_EnrollmentRequest | CD_ObserverRecoveryHandshake => invalid_field
  end.

Definition take_binding_required (origin : ClientDiscriminant) : M BindingRequiredEnvelope :=
  match origin with
  | CD_DetachRequest => mmap BRE_Detach take_detach
  | CD_ParticipantAck => mmap BRE_ParticipantAck take_participant_ack
  | CD_LeaveRequest => mmap BRE_Leave take_leave
  | CD_MarkerAck => mmap BRE_MarkerAck take_marker_ack
  | CD_RecordAdmission => mmap BRE_RecordAdmission take_record_admission
  | CD_EnrollmentRequest | CD_CredentialAttachRequest | CD_ObserverRecoveryHandshake =>
      invalid_field
  end.

Definition take_order_allocating (origin : ClientDiscriminant) : M OrderAllocatingEnvelope :=
  match origin with
  | CD_EnrollmentRequest => mmap OAE_Enrollment take_enrollment
  | CD_CredentialAttachRequest => mmap OAE_CredentialAttach take_attach
  | CD_RecordAdmission => mmap OAE_RecordAdmission take_record_admission
  | _ => invalid_field
  end.

Definition take_closure_checked (origin : ClientDiscriminant) : M ClosureCheckedEnvelope :=
  match origin with
  | CD_EnrollmentRequest => mmap CCE_Enrollment take_enrollment
  | CD_CredentialAttachRequest => mmap CCE_CredentialAttach take_attach
  | CD_LeaveRequest => mmap CCE_Leave take_leave
  | CD_RecordAdmission => mmap CCE_RecordAdmission take_record_admission
  | _ => invalid_field
  end.

Definition take_sequence_allocating (origin : ClientDiscriminant)
    : M SequenceAllocatingEnvelope :=
  match origin with
  | CD_EnrollmentRequest => mmap SAE_Enrollment take_enrollment
  | CD_CredentialAttachRequest => mmap SAE_CredentialAttach take_attach
  | CD_RecordAdmission => mmap SAE_RecordAdmission take_record_admission
  | _ => invalid_field
  end.

Definition take_marker_proof (origin : ClientDiscriminant) : M MarkerProofRequest :=
  match origin with
  | CD_CredentialAttachRequest =>
      do! c <- take_u64; do! t <- take_token; do! p <- take_u64; do! g <- take_generation;
      do! m <- take_u64; mret' (MPR_CredentialAttach (mkAttachMarkerProof c t p g m))
  | CD_MarkerAck =>
      do! c <- take_u64; do! p <- take_u64; do! g <- take_generation; do! m <- take_u64;
      mret' (MPR_MarkerAck (mkMarkerAckProof c p g m))
  | _ => invalid_field
  end.

Definition take_repayment_edge : M RepaymentEdge :=
  do! tag <- take_tag (T := RepaymentEdgeTag);
  match tag with
  | ET_None => mret' Edge_None
  | ET_ObserverProjection => do! s <- take_u64; mret' (Edge_ObserverProjection s)
  | ET_PhysicalCompaction =>
      do! f <- take_u64; do! s <- take_u64; mret' (Edge_PhysicalCompaction f s)
  | ET_MarkerDelivery =>
      do! p <- take_u64; do! b <- take_binding_epoch; do! m <- take_u64;
      mret' (Edge_MarkerDelivery p b m)
  | ET_ParticipantCursorProgress =>
      do! p <- take_u64; do! b <- take_binding_epoch; do! s <- take_u64;
      do! m <- take_option_u64;
      mret' (Edge_ParticipantCursorProgress (mkParticipantCursorProgressEdge p b s m))
  | ET_DetachedCredentialRecovery =>
      do! p <- take_u64; do! m <- take_u64; do! b <- take_binding_epoch;
      mret' (Edge_DetachedCredentialRecovery p m b)
  | ET_DetachedMarkerRelease =>
      do! p <- take_u64; do! m <- take_u64; do! b <- take_binding_epoch;
      mret' (Edge_DetachedMarkerRelease p m b)
  | ET_DetachedCursorRelease =>
      do! p <- take_u64; do! b <- take_binding_epoch; mret' (Edge_DetachedCursorRelease p b)
  end.

Definition take_closure_snapshot : M ClosureSnapshot :=
  do! mcc <- take_u64; do! ma <- take_u64; do! ed <- take_u64; do! bd <- take_u64;
  do! edge <- take_repayment_edge; do! esc <- take_u64; do! eoc <- take_u64;
  do! ek <- take_resource_vector; do! kh <- take_wide_resource_vector;
  do! used <- take_u64; do! delta <- take_u64; do! limit <- take_u64;
  mret' (mkClosureSnapshot mcc ma ed bd edge esc eoc ek kh used delta limit).

Definition take_sequence_budget : M SequenceBudget :=
  do! hw <- take_u64; do! rem <- take_u64; do! e <- take_u64; do! t <- take_u64;
  do! m <- take_u64; do! rs <- take_u64; do! rt <- take_u64;
  do! lt <- take_u128; do! lrt <- take_u128; do! loe <- take_u128;
  mret' (mkSequenceBudget hw rem e t m rs rt lt lrt loe).

Definition required_origin (origin : option ClientDiscriminant) : M ClientDiscriminant :=
  mlift origin (decode_error DC_InvalidField).

(** [if a != b { decoder.invalidate() }]. *)
Definition invalidate_unless {A} `{EqDecision A} (a b : A) : M unit :=
  invalidate_if (negb (bool_decide (a = b))).

Definition require_one (expected : Z) : M unit :=
  do! value <- take_u64; invalidate_unless value expected.

Definition required_generation_option : M Generation :=
  do! o <- take_option_generation;
  match o with
  | Some g => mret' g
  | None => do! _ <- invalidate; generation_one
  end.

Definition require_zero_recovery_count : M unit :=
  do! count <- take_u64; if count =? 0 then mret' tt else invalid_field.

Definition take_stale_authority (origin : ClientDiscriminant) : M StaleAuthority :=
  match origin with
  | CD_CredentialAttachRequest =>
      do! r <- take_attach; do! g <- take_generation; mret' (SA_Live (CSA_CredentialAttach r) g)
  | CD_ParticipantAck =>
      do! r <- take_participant_ack; do! g <- take_generation;
      mret' (SA_Live (CSA_ParticipantAck r) g)
  | CD_MarkerAck =>
      do! r <- take_marker_ack; do! g <- take_generation; mret' (SA_Live (CSA_MarkerAck r) g)
  | CD_RecordAdmission =>
      do! r <- take_record_admission; do! g <- take_generation;
      mret' (SA_Live (CSA_RecordAdmission r) g)
  | CD_DetachRequest =>
      do! authority <- take_tag (T := DetachAuthorityStateTag);
      match authority with
      | DA_Live =>
          do! c <- take_u64; do! p <- take_u64; do! g <- take_generation; do! t <- take_token;
          do! g' <- take_generation;
          mret' (SA_Detach (DSA_Live c p g t g'))
      | DA_TerminalizedDetachCell =>
          do! c <- take_u64; do! p <- take_u64; do! g <- take_generation; do! t <- take_token;
          do! g' <- take_generation; do! b <- take_binding_epoch;
          do! state <- take_tag (T := BindingStateTag);
          do! v <- match state with
                   | BT_Bound => do! e <- take_binding_epoch; mret' (BSV_Bound e)
                   | BT_Detached => mret' BSV_Detached
                   end;
          mret' (SA_Detach (DSA_TerminalizedDetachCell
                              (mkTerminalizedDetachCell c p g t g' b v)))
      end
  | CD_LeaveRequest =>
      do! authority <- take_tag (T := LeaveAuthorityStateTag);
      do! c <- take_u64; do! p <- take_u64; do! g <- take_generation; do! t <- take_token;
      match authority with
      | LA_Live => do! g' <- take_generation; mret' (SA_Leave (LSA_Live c p g t g'))
      | LA_CommittedLeaveTombstone =>
          do! g' <- take_generation; mret' (SA_Leave (LSA_CommittedLeaveTombstone c p g t g'))
      end
  | CD_EnrollmentRequest | CD_ObserverRecoveryHandshake => invalid_field
  end.

Definition take_enroll_bound : M EnrollBound :=
  do! c <- take_u64; do! t <- take_token; do! p <- take_u64;
  do! request_generation <- take_option_generation;
  do! _ <- invalidate_if (is_some request_generation);
  do! cg <- take_generation;
  do! _ <- invalidate_unless cg 1;
  do! secret <- take_secret;
  do! epoch <- take_binding_epoch;
  do! _ <- invalidate_unless (capability_generation epoch) 1;
  do! cursor <- take_u64;
  do! _ <- invalidate_unless cursor 0;
  do! marker <- take_option_u64;
  do! _ <- invalidate_if (is_some marker);
  do! receipt_expires_at <- take_u128; do! provenance_expires_at <- take_u128;
  do! valid_epoch <-
    (if bool_decide (capability_generation epoch = 1) then mret' epoch
     else do! one <- generation_one;
          mret' (mkBindingEpoch (connection_incarnation epoch) one));
  mlift (EnrollBound_new c t p secret valid_epoch receipt_expires_at provenance_expires_at)
        CE_InvalidValue.

Definition take_receipt_expired (origin : ClientDiscriminant) : M ReceiptExpired :=
  do! c <- take_u64; do! t <- take_token; do! p <- take_u64;
  match origin with
  | CD_EnrollmentRequest =>
      do! o <- take_option_generation;
      do! _ <- invalidate_if (is_some o);
      do! g <- take_generation; do! g' <- take_generation;
      do! reason <- take_tag (T := ReceiptExpiryReason);
      mret' (RX_Enrollment c t p g g' reason)
  | CD_CredentialAttachRequest =>
      do! presented <- required_generation_option; do! m <- take_option_u64;
      do! g <- take_generation; do! g' <- take_generation;
      do! reason <- take_tag (T := ReceiptExpiryReason);
      mret' (RX_CredentialAttach c t p presented m g g' reason)
  | _ => invalid_field
  end.

Definition take_receipt_capacity (origin : ClientDiscriminant) : M ReceiptCapacityExceeded :=
  match origin with
  | CD_EnrollmentRequest =>
      do! request <- take_enrollment;
      do! tag <- take_tag (T := ReceiptCapacityScope);
      do! scope <- match tag with
                   | RC_LiveReceiptServer => mret' ERC_LiveReceiptServer
                   | RC_ProvenanceServer => mret' ERC_ProvenanceServer
                   | RC_ProvenanceConversation => mret' ERC_ProvenanceConversation
                   | RC_LiveReceiptParticipant | RC_ProvenanceParticipant => invalid_field
                   end;
      do! limit <- take_u64; do! occupied <- take_u64;
      do! _ <- require_one ReceiptCapacityExceeded_REQUESTED;
      mret' (RCE_Enrollment request scope limit occupied)
  | CD_CredentialAttachRequest =>
      do! request <- take_attach;
      do! scope <- take_tag (T := ReceiptCapacityScope);
      do! limit <- take_u64; do! occupied <- take_u64;
      do! _ <- require_one ReceiptCapacityExceeded_REQUESTED;
      mret' (RCE_CredentialAttach request scope limit occupied)
  | _ => invalid_field
  end.

Definition take_backpressure_state : M ObserverBackpressureState :=
  do! backpressure_epoch <- take_u64; do! observer_progress <- take_u64;
  mlift (ObserverBackpressureState_replay backpressure_epoch observer_progress)
        (decode_error DC_InvalidField).

Definition take_observer_backpressure (origin : ClientDiscriminant) : M ObserverBackpressure :=
  match origin with
  | CD_EnrollmentRequest =>
      do! r <- take_enrollment; do! s <- take_backpressure_state; mret' (OB_Enrollment r s)
  | CD_CredentialAttachRequest =>
      do! r <- take_attach; do! s <- take_backpressure_state; mret' (OB_CredentialAttach r s)
  | CD_DetachRequest =>
      do! r <- take_detach; do! b <- take_binding_epoch; do! s <- take_backpressure_state;
      mret' (OB_Detach r b s)
  | CD_LeaveRequest =>
      do! r <- take_leave; do! s <- take_backpressure_state; do! b <- take_bool;
      mret' (OB_Leave r s b)
  | CD_RecordAdmission =>
      do! r <- take_record_admission; do! s <- take_backpressure_state;
      mret' (OB_RecordAdmission r s)
  | _ => invalid_field
  end.

(** The eleven fields of an attach receipt after its token and participant, and
    the constructor they select. *)
Definition take_attach_bound_fields (c : ConversationId) (t : AttachAttemptToken)
    (p : ParticipantId) : M AttachBound :=
  do! request_generation <- required_generation_option;
  do! cg <- take_generation;
  do! secret <- take_secret;
  do! epoch <- take_binding_epoch;
  do! cursor <- take_u64;
  do! marker <- take_option_u64;
  do! receipt_expires_at <- take_u128; do! provenance_expires_at <- take_u128;
  do! value <- mlift
    (match marker with
     | Some marker =>
         if cursor =? marker then
           AttachBound_fenced c t p request_generation secret epoch marker
             receipt_expires_at provenance_expires_at
         else None
     | None =>
         AttachBound_ordinary c t p request_generation secret epoch cursor
           receipt_expires_at provenance_expires_at
     end) (decode_error DC_InvalidField);
  if bool_decide (ab_capability_generation value = cg) then mret' value else invalid_field.

Definition take_attach_bound : M AttachBound :=
  do! c <- take_u64; do! t <- take_token; do! p <- take_u64; take_attach_bound_fields c t p.

Definition take_receipt_replay (origin : ClientDiscriminant) : M ReceiptReplay :=
  do! c <- take_u64; do! t <- take_token; do! p <- take_u64;
  match origin with
  | CD_EnrollmentRequest =>
      do! request_generation <- take_option_generation;
      do! cg <- take_generation;
      do! secret <- take_secret;
      do! epoch <- take_binding_epoch;
      do! cursor <- take_u64;
      do! marker <- take_option_u64;
      do! receipt_expires_at <- take_u128; do! provenance_expires_at <- take_u128;
      do! value <- mlift
        (EnrollBound_new c t p secret epoch receipt_expires_at provenance_expires_at)
        (decode_error DC_InvalidField);
      if is_none request_generation && bool_decide (cg = Generation_ONE) && (cursor =? 0)
         && is_none marker
      then mret' (RR_Enrollment value) else invalid_field
  | CD_CredentialAttachRequest =>
      do! value <- take_attach_bound_fields c t p; mret' (RR_CredentialAttach value)
  | _ => invalid_field
  end.

Definition take_ack_no_op (origin : ClientDiscriminant) : M AckNoOp :=
  match origin with
  | CD_ParticipantAck =>
      do! request <- take_participant_ack; do! cursor <- take_u64;
      do! _ <- invalidate_unless cursor (pae_through_seq request);
      mret' (ANO_ParticipantAck request)
  | CD_MarkerAck =>
      do! request <- take_marker_ack; do! cursor <- take_u64;
      do! _ <- invalidate_unless cursor (mae_marker_delivery_seq request);
      mret' (ANO_MarkerAck request)
  | _ => invalid_field
  end.

Definition take_status : M ObserverProgressStatus :=
  do! c <- take_u64; do! r <- take_u64; do! o <- take_u64; do! armed <- take_bool;
  do! progressed <- take_bool; mret' (mkObserverProgressStatus c r o armed progressed).

(** [required > remaining] is refused before anything is allocated. *)
Definition require_statuses (count : Z) : M unit := fun r =>
  if remaining r <? mul_u128 count RECOVERY_STATUS_LEN
  then Err (decode_error DC_MissingRequiredField) else Ok (tt, r).

Definition take_recovery_accepted : M ObserverRecoveryAccepted :=
  do! count <- take_u64;
  do! _ <- require_statuses count;
  do! statuses <- take_list (Z.to_nat count) take_status;
  mret' (mkObserverRecoveryAccepted statuses).

Definition take_invalid_observer_epoch : M InvalidObserverEpoch :=
  do! reason <- take_tag (T := InvalidObserverEpochReason);
  do! c <- take_u64; do! e <- take_u64; do! current <- take_option_u64;
  match reason with
  | IE_ConversationUnknown =>
      do! _ <- invalidate_if (is_some current); mret' (IOE_ConversationUnknown c e)
  | IE_EpochAhead =>
      do! o <- match current with
               | Some o => mret' o
               | None => do! _ <- invalidate; mret' 0
               end;
      mret' (IOE_EpochAhead c e o)
  end.

Definition take_invalid_observer_epoch_list : M InvalidObserverEpochList :=
  do! reason <- take_tag (T := InvalidObserverEpochListReason);
  match reason with
  | IL_TooManyEntries => do! p <- take_u64; do! m <- take_u64; mret' (IOL_TooManyEntries p m)
  | IL_DuplicateConversation =>
      do! c <- take_u64; do! f <- take_u64; do! d <- take_u64;
      mret' (IOL_DuplicateConversation c f d)
  end.

Definition take_transport_reason : M TransportRejectionReason :=
  do! tag <- take_tag (T := TransportReasonTag);
  match tag with
  | TR_FrameTooLarge => do! c <- take_u64; do! m <- take_u64; mret' (TRR_FrameTooLarge c m)
  | TR_DecodeFailed => do! d <- take_tag (T := DecodeClass); mret' (TRR_DecodeFailed d)
  | TR_UnsupportedVersion =>
      do! p <- take_protocol_version; do! s <- take_protocol_version;
      mret' (TRR_UnsupportedVersion p s)
  | TR_AuthenticationFailed => mret' TRR_AuthenticationFailed
  | TR_ParticipantCapabilityRequired =>
      do! capability <- take_string;
      do! _ <- invalidate_unless capability PARTICIPANT_CAPABILITY;
      mret' TRR_ParticipantCapabilityRequired
  end.

Definition take_token_conflict (origin : ClientDiscriminant) : M AttemptTokenBodyConflict :=
  do! token <- take_token;
  do! operation <- take_tag (T := AttemptOperation);
  match origin with
  | CD_CredentialAttachRequest =>
      if bool_decide (operation = AO_CredentialAttachRequest) then
        do! c <- take_u64; do! p <- take_u64; do! g <- take_generation;
        do! m <- take_option_u64; do! conflict <- take_tag (T := AttemptConflict);
        mret' (ATB_CredentialAttach token c p g m conflict)
      else invalid_field
  | CD_LeaveRequest =>
      if bool_decide (operation = AO_LeaveRequest) then
        do! c <- take_u64; do! p <- take_u64; do! g <- take_generation;
        do! conflict <- take_tag (T := AttemptConflict);
        do! _ <- invalidate_unless conflict AC_Generation;
        mret' (ATB_Leave token c p g)
      else invalid_field
  | CD_RecordAdmission =>
      if bool_decide (operation = AO_RecordAdmission) then
        do! c <- take_u64; do! p <- take_u64; do! g <- take_generation;
        mret' (ATB_RecordAdmission token c p g)
      else invalid_field
  | _ => invalid_field
  end.

Definition take_binding_occupied (origin : ClientDiscriminant)
    : M ConnectionConversationBindingOccupied :=
  match origin with
  | CD_EnrollmentRequest =>
      do! c <- take_u64; do! t <- take_token; do! o <- take_option_u64;
      do! _ <- invalidate_if (is_some o);
      mret' (CCB_Enrollment c t)
  | CD_CredentialAttachRequest =>
      do! c <- take_u64; do! p <- take_u64; do! g <- take_generation; do! t <- take_token;
      do! m <- take_option_u64; do! o <- take_option_u64;
      do! _ <- invalidate_unless o (Some p);
      mret' (CCB_CredentialAttach c p g t m)
  | _ => invalid_field
  end.

Definition take_order_exhausted (origin : ClientDiscriminant) : M ConversationOrderExhausted :=
  do! request <- take_order_allocating origin;
  do! _ <- take_tag (T := Counter);
  do! high <- take_u64;
  do! next_value <- take_option_u64;
  do! order_remaining <- take_u128; do! reserved_claims <- take_u128;
  do! _ <- require_one REQUIRED_MAJORS;
  do! resulting_order_remaining <- take_u128; do! resulting_reserved_claims <- take_u128;
  let value := mkConversationOrderExhausted request high order_remaining reserved_claims
                 resulting_order_remaining resulting_reserved_claims in
  do! _ <- invalidate_unless next_value (coe_next_value value);
  mret' value.

Definition take_marker_closure (origin : ClientDiscriminant) : M MarkerClosureCapacityExceeded :=
  do! request <- take_closure_checked origin;
  do! scope <- take_tag (T := ClosureScope);
  do! snapshot <- take_closure_snapshot;
  do! reason <- match scope with
                | CS_Capacity =>
                    do! d <- take_tag (T := ResourceDimensionTag);
                    do! required <- take_u128; do! limit <- take_u128;
                    mret' (CRR_Capacity
                             (mkClosureCapacityReason (tag_resource_dimension d) required limit))
                | CS_RecoveryFence => mret' CRR_RecoveryFence
                | CS_DeliveredMarkerAwaitingAck => mret' CRR_DeliveredMarkerAwaitingAck
                | CS_EpisodeChurnLimit => mret' CRR_EpisodeChurnLimit
                end;
  mret' (mkMarkerClosureCapacityExceeded request snapshot reason).

Definition take_marker_mismatch (origin : ClientDiscriminant) : M MarkerMismatch :=
  do! request <- take_marker_proof origin;
  do! reason <- take_tag (T := MarkerMismatchReason);
  do! mismatch <- match reason with
                  | MM_BelowCursor => do! c <- take_u64; mret' (MMB_BelowCursor c)
                  | MM_NoMarkerExpected => mret' MMB_NoMarkerExpected
                  | MM_ExpectedDifferentMarker =>
                      do! m <- take_u64; mret' (MMB_ExpectedDifferentMarker m)
                  end;
  mret' (mkMarkerMismatch request mismatch).

Definition take_leave_committed : M LeaveCommitted :=
  do! c <- take_u64; do! t <- take_token; do! p <- take_u64;
  do! presented <- take_generation; do! retired <- take_generation;
  do! epoch <- take_option_binding_epoch; do! prior <- take_option_u64; do! left_seq <- take_u64;
  if negb (bool_decide (presented = retired)) then invalid_field
  else mlift (LeaveCommitted_new c t p retired epoch prior left_seq)
             (decode_error DC_InvalidField).

Definition decode_server_suffix (discriminant : ServerDiscriminant)
    (origin : option ClientDiscriminant) : M ServerValue :=
  match discriminant with
  | SD_ParticipantTransportRejected =>
      do! reason <- take_transport_reason;
      mret' (SV_ParticipantTransportRejected (mkParticipantTransportRejected reason))
  | SD_AttemptTokenBodyConflict =>
      do! origin <- required_origin origin;
      mmap SV_AttemptTokenBodyConflict (take_token_conflict origin)
  | SD_ConnectionConversationCapacityExceeded =>
      do! origin <- required_origin origin;
      do! request <- take_response_envelope origin; do! limit <- take_u64;
      mret' (SV_ConnectionConversationCapacityExceeded (CCC_SemanticRequest request limit))
  | SD_ConnectionConversationBindingOccupied =>
      do! origin <- required_origin origin;
      mmap SV_ConnectionConversationBindingOccupied (take_binding_occupied origin)
  | SD_ConversationOrderExhausted =>
      do! origin <- required_origin origin;
      mmap SV_ConversationOrderExhausted (take_order_exhausted origin)
  | SD_ParticipantUnknown =>
      do! origin <- required_origin origin;
      do! request <- take_participant_reference origin;
      mret' (SV_ParticipantUnknown (mkParticipantUnknown request))
  | SD_NoBinding =>
      do! origin <- required_origin origin;
      do! request <- take_binding_required origin;
      mret' (SV_NoBinding (mkNoBinding request))
  | SD_StaleAuthority =>
      do! origin <- required_origin origin;
      mmap SV_StaleAuthority (take_stale_authority origin)
  | SD_Retired =>
      do! origin <- required_origin origin;
      if bool_decide (origin = CD_EnrollmentRequest) then
        do! request <- take_enrollment; do! p <- take_u64; do! g <- take_generation;
        mret' (SV_Retired (Retired_Enrollment request p g))
      else
        do! request <- take_participant_reference origin; do! g <- take_generation;
        mret' (SV_Retired (Retired_Participant request g))
  | SD_MarkerClosureCapacityExceeded =>
      do! origin <- required_origin origin;
      mmap SV_MarkerClosureCapacityExceeded (take_marker_closure origin)
  | SD_EnrollBound => mmap SV_EnrollBound take_enroll_bound
  | SD_EnrollmentKnown =>
      do! c <- take_u64; do! t <- take_token; do! p <- take_u64; do! g <- take_generation;
      mret' (SV_EnrollmentKnown (mkEnrollmentKnown c t p g))
  | SD_ReceiptExpired =>
      do! origin <- required_origin origin;
      mmap SV_ReceiptExpired (take_receipt_expired origin)
  | SD_ReceiptCapacityExceeded =>
      do! origin <- required_origin origin;
      mmap SV_ReceiptCapacityExceeded (take_receipt_capacity origin)
  | SD_IdentityCapacityExceeded =>
      do! request <- take_enrollment;
      do! scope <- take_tag (T := IdentityCapacityScope);
      do! limit <- take_u64; do! occupied <- take_u64;
      do! requested <- take_u64;
      do! _ <- invalidate_unless requested IdentityCapacityExceeded_REQUESTED;
      mret' (SV_IdentityCapacityExceeded
               (mkIdentityCapacityExceeded request scope limit occupied))
  | SD_ObserverBackpressure =>
      do! origin <- required_origin origin;
      mmap SV_ObserverBackpressure (take_observer_backpressure origin)
  | SD_ConversationSequenceExhausted =>
      do! origin <- required_origin origin;
      do! request <- take_sequence_allocating origin;
      do! budget <- take_sequence_budget;
      mret' (SV_ConversationSequenceExhausted (mkConversationSequenceExhausted request budget))
  | SD_AttachBound => mmap SV_AttachBound take_attach_bound
  | SD_StaleOrUnknownReceipt =>
      do! c <- take_u64; do! t <- take_token; do! p <- take_u64; do! g <- take_generation;
      do! m <- take_option_u64; do! g' <- take_generation;
      mret' (SV_StaleOrUnknownReceipt (mkStaleOrUnknownReceipt c t p g m g'))
  | SD_MarkerNotDelivered =>
      do! origin <- required_origin origin;
      do! request <- take_marker_proof origin;
      do! reason <- take_tag (T := MarkerNotDeliveredReason);
      do! m <- take_u64;
      mret' (SV_MarkerNotDelivered (mkMarkerNotDelivered request reason m))
  | SD_MarkerMismatch =>
      do! origin <- required_origin origin;
      mmap SV_MarkerMismatch (take_marker_mismatch origin)
  | SD_Bound =>
      do! origin <- required_origin origin;
      mmap SV_Bound (take_receipt_replay origin)
  | SD_UnboundReceipt =>
      do! origin <- required_origin origin;
      mmap SV_UnboundReceipt (take_receipt_replay origin)
  | SD_DetachCommitted =>
      do! c <- take_u64; do! p <- take_u64; do! g <- take_generation; do! t <- take_token;
      do! b <- take_binding_epoch; do! s <- take_u64;
      do! _ <- invalidate_unless g (capability_generation b);
      mret' (SV_DetachCommitted (mkDetachCommitted c p t b s))
  | SD_DetachInProgress =>
      do! c <- take_u64; do! p <- take_u64; do! t <- take_token; do! g <- take_generation;
      do! b <- take_binding_epoch;
      mret' (SV_DetachInProgress (mkDetachInProgress c p t g b))
  | SD_AckCommitted =>
      do! request <- take_participant_ack; do! cursor <- take_u64;
      do! _ <- invalidate_unless cursor (pae_through_seq request);
      mret' (SV_AckCommitted (mkAckCommitted request))
  | SD_AckNoOp =>
      do! origin <- required_origin origin;
      mmap SV_AckNoOp (take_ack_no_op origin)
  | SD_AckGap =>
      do! request <- take_participant_ack; do! cursor <- take_u64;
      do! _ <- take_tag (T := AckGapReason);
      mmap SV_AckGap (mlift (AckGap_new request cursor) (decode_error DC_InvalidField))
  | SD_AckRegression =>
      do! request <- take_participant_ack; do! cursor <- take_u64;
      do! _ <- take_tag (T := AckRegressionReason);
      mmap SV_AckRegression
        (mlift (AckRegression_new request cursor) (decode_error DC_InvalidField))
  | SD_LeaveCommitted => mmap SV_LeaveCommitted take_leave_committed
  | SD_MarkerAckCommitted =>
      do! request <- take_marker_ack; do! cursor <- take_u64;
      do! _ <- invalidate_unless cursor (mae_marker_delivery_seq request);
      mret' (SV_MarkerAckCommitted (mkMarkerAckCommitted request))
  | SD_RecordCommitted =>
      do! request <- take_record_admission; do! sender <- take_u64;
      do! _ <- invalidate_unless sender (rae_participant_id request);
      do! delivery_seq <- take_u64;
      mret' (SV_RecordCommitted (mkRecordCommitted request delivery_seq))
  | SD_RecordTooLarge =>
      do! request <- take_record_admission;
      do! d <- take_tag (T := ResourceDimensionTag);
      do! charge <- take_resource_vector; do! max_charge <- take_resource_vector;
      mret' (SV_RecordTooLarge
               (mkRecordTooLarge request (tag_resource_dimension d) charge max_charge))
  | SD_ObserverRecoveryAccepted => mmap SV_ObserverRecoveryAccepted take_recovery_accepted
  | SD_InvalidObserverEpoch =>
      do! _ <- require_zero_recovery_count;
      mmap SV_InvalidObserverEpoch take_invalid_observer_epoch
  | SD_InvalidObserverEpochList =>
      do! _ <- require_zero_recovery_count;
      mmap SV_InvalidObserverEpochList take_invalid_observer_epoch_list
  | SD_ObserverRecoveryConnectionCapacityExceeded =>
      do! _ <- require_zero_recovery_count;
      do! c <- take_u64; do! limit <- take_u64;
      mret' (SV_ConnectionConversationCapacityExceeded (CCC_ObserverRecovery c limit))
  | SD_MarkerSettlementBackpressure =>
      do! origin <- required_origin origin;
      do! c <- take_u64; do! e <- take_u64;
      match origin with
      | CD_CredentialAttachRequest =>
          mret' (SV_MarkerSettlementBackpressure (MSB_CredentialAttach c e))
      | CD_DetachRequest => mret' (SV_MarkerSettlementBackpressure (MSB_Detach c e))
      | _ => invalid_field
      end
  | SD_EnrollmentSettlementBackpressure =>
      do! _ <- required_origin origin;
      do! c <- take_u64;
      mret' (SV_EnrollmentSettlementBackpressure (mkEnrollmentSettlementBackpressure c))
  end.

(** The origin prefix of the rows that carry one: a known request that can be
    answered by this row, refused before the suffix is interpreted. *)
Definition take_origin (discriminant : ServerDiscriminant) : M (option ClientDiscriminant) :=
  if carries_origin discriminant then
    do! request <- take_tag (T := ClientDiscriminant);
    if negb (origin_is_valid discriminant request) then invalid_field
    else mret' (Some request)
  else mret' None.

Definition server_value_fields (discriminant : ServerDiscriminant) : M ServerValue :=
  do! originating_request <- take_origin discriminant;
  decode_server_suffix discriminant originating_request.

Definition decode_server_value_body (discriminant : ServerDiscriminant)
    (version : ProtocolVersion) (body : list byte)
    : result (ServerValue * ProtocolVersion) CodecError :=
  let? _ := require_v1 version in
  let? (value, decoder) := server_value_fields discriminant (Reader_new body) in
  let? _ := decoder_finish decoder in
  Ok (value, version).
