(* ===== verification/ServerRoundTrip.v ===== *)
(** * Server values: round trip and canonicality

    The proofs about [ServerCodec]: every field group has a [parses] lemma (its
    encoding is accepted and read back) and a [reads] lemma (whatever is accepted
    is its encoding and is well formed); the registry theorems compose them. *)
From coqutil Require Import Byte.
From S2P Require Import Prelude Algebra Tags Wire Response Bytes ClientCodec ServerCodec.

#[local] Arguments enc_option : simpl never.
#[export] Hint Extern 1 (wf_opt _ None) => exact I : parses.
#[export] Hint Extern 1 (wf_opt _ (Some _)) => simpl : parses.

Lemma wf_generation_1 : wf_generation 1.
Proof. unfold wf_generation. mlia. Qed.
Lemma u64_0 : u64 0.
Proof. mlia. Qed.
#[export] Hint Resolve wf_generation_1 u64_0 : parses.

Create HintDb wire.
#[export] Hint Unfold wf_enrollment wf_attach wf_detach wf_participant_ack wf_leave
  wf_marker_ack wf_record_admission wf_version rv_ok wrv_ok
  wf_sequence_budget wf_backpressure_state wf_enroll_bound wf_attach_bound
  put_enrollment put_attach put_detach put_participant_ack put_leave put_marker_ack
  put_record_admission enc_version enc_resource_vector enc_wide_resource_vector
  put_sequence_budget put_backpressure_state put_status
  take_enrollment take_attach take_detach take_participant_ack take_leave take_marker_ack
  take_record_admission take_protocol_version take_resource_vector
  take_wide_resource_vector take_sequence_budget
  take_backpressure_state take_status : wire.

(** Unfolds one record codec and walks through its fields. *)
Ltac parse_struct :=
  autounfold with wire; simpl; intros; destruct_and?; parse_fields.
Ltac read_struct :=
  autounfold with wire; read_fields; autounfold with wire; simpl; auto 20.

Lemma parses_enrollment v : wf_enrollment v -> parses take_enrollment (put_enrollment v) v.
Proof. destruct v. parse_struct. Qed.
Lemma parses_attach v : wf_attach v -> parses take_attach (put_attach v) v.
Proof. destruct v. parse_struct. Qed.
Lemma parses_detach v : wf_detach v -> parses take_detach (put_detach v) v.
Proof. destruct v. parse_struct. Qed.
Lemma parses_participant_ack v :
  wf_participant_ack v -> parses take_participant_ack (put_participant_ack v) v.
Proof. destruct v. parse_struct. Qed.
Lemma parses_leave v : wf_leave v -> parses take_leave (put_leave v) v.
Proof. destruct v. parse_struct. Qed.
Lemma parses_marker_ack v : wf_marker_ack v -> parses take_marker_ack (put_marker_ack v) v.
Proof. destruct v. parse_struct. Qed.
Lemma parses_record_admission v :
  wf_record_admission v -> parses take_record_admission (put_record_admission v) v.
Proof. destruct v. parse_struct. Qed.
Lemma parses_version v : wf_version v -> parses take_protocol_version (enc_version v) v.
Proof. destruct v. parse_struct. Qed.
Lemma parses_rv v : rv_ok v -> parses take_resource_vector (enc_resource_vector v) v.
Proof. destruct v. parse_struct. Qed.
Lemma parses_wrv v : wrv_ok v -> parses take_wide_resource_vector (enc_wide_resource_vector v) v.
Proof. destruct v. parse_struct. Qed.
Lemma parses_sequence_budget v :
  wf_sequence_budget v -> parses take_sequence_budget (put_sequence_budget v) v.
Proof. destruct v. parse_struct. Qed.

#[export] Instance sticky_enrollment : Sticky take_enrollment.
Proof. unfold take_enrollment. apply _. Qed.
#[export] Instance sticky_attach : Sticky take_attach.
Proof. unfold take_attach. apply _. Qed.
#[export] Instance sticky_detach : Sticky take_detach.
Proof. unfold take_detach. apply _. Qed.
#[export] Instance sticky_participant_ack : Sticky take_participant_ack.
Proof. unfold take_participant_ack. apply _. Qed.
#[export] Instance sticky_leave : Sticky take_leave.
Proof. unfold take_leave. apply _. Qed.
#[export] Instance sticky_marker_ack : Sticky take_marker_ack.
Proof. unfold take_marker_ack. apply _. Qed.
#[export] Instance sticky_record_admission : Sticky take_record_admission.
Proof. unfold take_record_admission. apply _. Qed.
#[export] Instance sticky_version : Sticky take_protocol_version.
Proof. unfold take_protocol_version. apply _. Qed.
#[export] Instance sticky_rv : Sticky take_resource_vector.
Proof. unfold take_resource_vector. apply _. Qed.
#[export] Instance sticky_wrv : Sticky take_wide_resource_vector.
Proof. unfold take_wide_resource_vector. apply _. Qed.
#[export] Instance sticky_sequence_budget : Sticky take_sequence_budget.
Proof. unfold take_sequence_budget. apply _. Qed.

Lemma reads_enrollment : reads take_enrollment (fun v c => c = put_enrollment v /\ wf_enrollment v).
Proof. read_struct. Qed.
Lemma reads_attach : reads take_attach (fun v c => c = put_attach v /\ wf_attach v).
Proof. read_struct. Qed.
Lemma reads_detach : reads take_detach (fun v c => c = put_detach v /\ wf_detach v).
Proof. read_struct. Qed.
Lemma reads_participant_ack :
  reads take_participant_ack (fun v c => c = put_participant_ack v /\ wf_participant_ack v).
Proof. read_struct. Qed.
Lemma reads_leave : reads take_leave (fun v c => c = put_leave v /\ wf_leave v).
Proof. read_struct. Qed.
Lemma reads_marker_ack : reads take_marker_ack (fun v c => c = put_marker_ack v /\ wf_marker_ack v).
Proof. read_struct. Qed.
Lemma reads_record_admission :
  reads take_record_admission (fun v c => c = put_record_admission v /\ wf_record_admission v).
Proof. read_struct. Qed.
Lemma reads_version : reads take_protocol_version (fun v c => c = enc_version v /\ wf_version v).
Proof. read_struct. Qed.
Lemma reads_rv : reads take_resource_vector (fun v c => c = enc_resource_vector v /\ rv_ok v).
Proof. read_struct. Qed.
Lemma reads_wrv :
  reads take_wide_resource_vector (fun v c => c = enc_wide_resource_vector v /\ wrv_ok v).
Proof. read_struct. Qed.
Lemma reads_sequence_budget :
  reads take_sequence_budget (fun v c => c = put_sequence_budget v /\ wf_sequence_budget v).
Proof. read_struct. Qed.

#[export] Hint Resolve parses_enrollment parses_attach parses_detach parses_participant_ack
  parses_leave parses_marker_ack parses_record_admission parses_version parses_rv parses_wrv
  parses_sequence_budget : parses.
#[export] Hint Resolve reads_enrollment reads_attach reads_detach reads_participant_ack
  reads_leave reads_marker_ack reads_record_admission reads_version reads_rv reads_wrv
  reads_sequence_budget : reads.

(** ** Envelopes selected by the origin *)

Definition order_allocating_origin (v : OrderAllocatingEnvelope) : ClientDiscriminant :=
  match v with
  | OAE_Enrollment _ => CD_EnrollmentRequest
  | OAE_CredentialAttach _ => CD_CredentialAttachRequest
  | OAE_RecordAdmission _ => CD_RecordAdmission
  end.
Definition sequence_allocating_origin (v : SequenceAllocatingEnvelope) : ClientDiscriminant :=
  match v with
  | SAE_Enrollment _ => CD_EnrollmentRequest
  | SAE_CredentialAttach _ => CD_CredentialAttachRequest
  | SAE_RecordAdmission _ => CD_RecordAdmission
  end.
Definition closure_checked_origin (v : ClosureCheckedEnvelope) : ClientDiscriminant :=
  match v with
  | CCE_Enrollment _ => CD_EnrollmentRequest
  | CCE_CredentialAttach _ => CD_CredentialAttachRequest
  | CCE_Leave _ => CD_LeaveRequest
  | CCE_RecordAdmission _ => CD_RecordAdmission
  end.

Ltac parse_union := simpl; intros; apply parses_mmap; eauto with parses.
Ltac read_union :=
  simpl; first [ apply reads_fail
    | eapply reads_mmap; [solve [eauto with reads]|]; simpl; intros ? ? [-> ?]; auto ].

Lemma parses_response_envelope v : wf_response_envelope v ->
  parses (take_response_envelope (response_envelope_origin v)) (put_response_envelope v) v.
Proof. destruct v; parse_union. Qed.
Lemma parses_participant_reference v : wf_participant_reference v ->
  parses (take_participant_reference (participant_reference_origin v))
    (put_participant_reference v) v.
Proof. destruct v; parse_union. Qed.
Lemma parses_binding_required v : wf_binding_required v ->
  parses (take_binding_required (binding_required_origin v)) (put_binding_required v) v.
Proof. destruct v; parse_union. Qed.
Lemma parses_order_allocating v : wf_order_allocating v ->
  parses (take_order_allocating (order_allocating_origin v)) (put_order_allocating v) v.
Proof. destruct v; parse_union. Qed.
Lemma parses_sequence_allocating v : wf_sequence_allocating v ->
  parses (take_sequence_allocating (sequence_allocating_origin v)) (put_sequence_allocating v) v.
Proof. destruct v; parse_union. Qed.
Lemma parses_closure_checked v : wf_closure_checked v ->
  parses (take_closure_checked (closure_checked_origin v)) (put_closure_checked v) v.
Proof. destruct v; parse_union. Qed.
Lemma parses_marker_proof v : wf_marker_proof v ->
  parses (take_marker_proof (marker_proof_origin v)) (put_marker_proof v) v.
Proof. destruct v as [[]|[]]; parse_struct. Qed.

Lemma reads_response_envelope o : reads (take_response_envelope o) (fun v c =>
  c = put_response_envelope v /\ wf_response_envelope v /\ o = response_envelope_origin v).
Proof. destruct o; read_union. Qed.
Lemma reads_participant_reference o : reads (take_participant_reference o) (fun v c =>
  c = put_participant_reference v /\ wf_participant_reference v
  /\ o = participant_reference_origin v).
Proof. destruct o; read_union. Qed.
Lemma reads_binding_required o : reads (take_binding_required o) (fun v c =>
  c = put_binding_required v /\ wf_binding_required v /\ o = binding_required_origin v).
Proof. destruct o; read_union. Qed.
Lemma reads_order_allocating o : reads (take_order_allocating o) (fun v c =>
  c = put_order_allocating v /\ wf_order_allocating v /\ o = order_allocating_origin v).
Proof. destruct o; read_union. Qed.
Lemma reads_sequence_allocating o : reads (take_sequence_allocating o) (fun v c =>
  c = put_sequence_allocating v /\ wf_sequence_allocating v
  /\ o = sequence_allocating_origin v).
Proof. destruct o; read_union. Qed.
Lemma reads_closure_checked o : reads (take_closure_checked o) (fun v c =>
  c = put_closure_checked v /\ wf_closure_checked v /\ o = closure_checked_origin v).
Proof. destruct o; read_union. Qed.
Lemma reads_marker_proof o : reads (take_marker_proof o) (fun v c =>
  c = put_marker_proof v /\ wf_marker_proof v /\ o = marker_proof_origin v).
Proof. destruct o; simpl; unfold invalid_field; read_fields; simpl; auto 20. Qed.

(** The stickiness of a reader that is a case analysis on the origin. *)
Ltac sticky_cases := intros []; cbn; unfold invalid_field; apply _.
#[export] Instance sticky_response_envelope o : Sticky (take_response_envelope o).
Proof. revert o. sticky_cases. Qed.
#[export] Instance sticky_participant_reference o : Sticky (take_participant_reference o).
Proof. revert o. sticky_cases. Qed.
#[export] Instance sticky_binding_required o : Sticky (take_binding_required o).
Proof. revert o. sticky_cases. Qed.
#[export] Instance sticky_order_allocating o : Sticky (take_order_allocating o).
Proof. revert o. sticky_cases. Qed.
#[export] Instance sticky_sequence_allocating o : Sticky (take_sequence_allocating o).
Proof. revert o. sticky_cases. Qed.
#[export] Instance sticky_closure_checked o : Sticky (take_closure_checked o).
Proof. revert o. sticky_cases. Qed.
#[export] Instance sticky_marker_proof o : Sticky (take_marker_proof o).
Proof. revert o. sticky_cases. Qed.

#[export] Hint Resolve parses_response_envelope parses_participant_reference
  parses_binding_required parses_order_allocating parses_sequence_allocating
  parses_closure_checked parses_marker_proof : parses.
#[export] Hint Resolve reads_response_envelope reads_participant_reference
  reads_binding_required reads_order_allocating reads_sequence_allocating
  reads_closure_checked reads_marker_proof : reads.

(** ** Closure snapshots *)

Lemma parses_repayment_edge v :
  wf_repayment_edge v -> parses take_repayment_edge (put_repayment_edge v) v.
Proof.
  intros Hwf. unfold take_repayment_edge, put_repayment_edge.
  eapply parses_bind; [parse_field|].
  destruct v as [| | | |[]| | |]; simpl in *; destruct_and?; parse_fields.
Qed.

#[export] Instance sticky_repayment_edge : Sticky take_repayment_edge.
Proof. unfold take_repayment_edge. apply _. Qed.

Lemma reads_repayment_edge :
  reads take_repayment_edge (fun v c => c = put_repayment_edge v /\ wf_repayment_edge v).
Proof. unfold take_repayment_edge. read_field. destruct a; read_fields; simpl; auto 20. Qed.

#[export] Hint Resolve parses_repayment_edge : parses.
#[export] Hint Resolve reads_repayment_edge : reads.

Lemma parses_closure_snapshot v :
  wf_closure_snapshot v -> parses take_closure_snapshot (put_closure_snapshot v) v.
Proof.
  destruct v. unfold wf_closure_snapshot, take_closure_snapshot, put_closure_snapshot; simpl.
  intros. destruct_and?. parse_fields.
Qed.
#[export] Instance sticky_closure_snapshot : Sticky take_closure_snapshot.
Proof. unfold take_closure_snapshot. apply _. Qed.
Lemma reads_closure_snapshot :
  reads take_closure_snapshot (fun v c => c = put_closure_snapshot v /\ wf_closure_snapshot v).
Proof. unfold take_closure_snapshot. read_fields. unfold wf_closure_snapshot; simpl. auto 20. Qed.

#[export] Hint Resolve parses_closure_snapshot : parses.
#[export] Hint Resolve reads_closure_snapshot : reads.

(** ** Checks on decoded fields *)

#[export] Instance sticky_invalid_field {A} : Sticky (@invalid_field A).
Proof. unfold invalid_field. apply _. Qed.
#[export] Instance sticky_unless {A} `{EqDecision A} (a b : A) : Sticky (invalidate_unless a b).
Proof. unfold invalidate_unless. apply _. Qed.
#[export] Instance sticky_generation_one : Sticky generation_one.
Proof. unfold generation_one. apply _. Qed.
#[export] Instance sticky_require_one n : Sticky (require_one n).
Proof. unfold require_one. apply _. Qed.
#[export] Instance sticky_required_generation : Sticky required_generation_option.
Proof. unfold required_generation_option. apply _. Qed.
#[export] Instance sticky_zero_count : Sticky require_zero_recovery_count.
Proof. unfold require_zero_recovery_count. apply _. Qed.
#[export] Instance sticky_required_origin o : Sticky (required_origin o).
Proof. unfold required_origin. apply _. Qed.
#[export] Instance sticky_string : Sticky take_string.
Proof. unfold take_string. apply _. Qed.
#[export] Instance sticky_statuses n : Sticky (require_statuses n).
Proof. intros r a r' H. unfold require_statuses in H. csplit_in H. done. Qed.

Lemma parses_nil {A} (m : M A) bs a : parses m (bs ++ []) a -> parses m bs a.
Proof. by rewrite app_nil_r. Qed.

Lemma parses_mlift {A} (o : option A) e a : o = Some a -> parses (mlift o e) [] a.
Proof. intros ->. apply parses_ret. Qed.

Lemma parses_unless {A} `{EqDecision A} (a b : A) : a = b -> parses (invalidate_unless a b) [] tt.
Proof. intros ->. apply parses_invalidate_if. by rewrite bool_decide_eq_true_2. Qed.

Lemma parses_require_one n z : u64 n -> z = n -> parses (require_one n) (be 8 z) tt.
Proof.
  intros ? ->. apply parses_nil. eapply parses_bind; [parse_field|]. by apply parses_unless.
Qed.

Lemma parses_required_generation g :
  wf_generation g -> parses required_generation_option (enc_option (be 8) (Some g)) g.
Proof.
  intros ?. by eapply parses_end; [apply parses_option_generation|].
Qed.

Lemma parses_zero_count : parses require_zero_recovery_count (be 8 0) tt.
Proof. eapply parses_end; [apply parses_u64; mlia|]. done. Qed.

Lemma reads_mlift {A} (o : option A) e : reads (mlift o e) (fun a c => c = [] /\ o = Some a).
Proof. destruct o; [by apply reads_ret | apply reads_fail]. Qed.

Lemma reads_unless {A} `{EqDecision A} (a b : A) :
  reads (invalidate_unless a b) (fun _ c => c = [] /\ a = b).
Proof.
  eapply reads_weaken; [apply reads_invalidate_if|]. intros ? c [-> H]. split; [done|].
  breflect. by apply bool_decide_eq_true in H.
Qed.

Lemma reads_none {A} (o : option A) :
  reads (invalidate_if (is_some o)) (fun _ c => c = [] /\ o = None).
Proof.
  eapply reads_weaken; [apply reads_invalidate_if|]. intros ? c [-> H].
  by apply is_some_false in H.
Qed.

Lemma reads_require_one n : reads (require_one n) (fun _ c => c = be 8 n).
Proof.
  unfold require_one. read_field. eapply reads_weaken; [apply reads_unless|].
  intros ? c [-> ->]. by rewrite app_nil_r.
Qed.

Lemma reads_required_generation :
  reads required_generation_option (fun g c => c = enc_option (be 8) (Some g) /\ wf_generation g).
Proof.
  unfold required_generation_option. read_field. destruct a as [g|].
  - read_done. done.
  - eapply reads_bind; [apply (reads_invalidate (fun _ _ => False)) | apply _ | done].
Qed.

Lemma reads_zero_count : reads require_zero_recovery_count (fun _ c => c = be 8 0).
Proof.
  unfold require_zero_recovery_count. read_field. destruct (Z.eqb_spec a 0) as [->|].
  - by read_done.
  - apply reads_fail.
Qed.

#[export] Hint Resolve parses_required_generation parses_zero_count : parses.
#[export] Hint Resolve reads_mlift reads_unless reads_require_one reads_required_generation
  reads_zero_count : reads.
#[export] Hint Resolve reads_none | 0 : reads.

(** Reduces the case analysis at the head of a reader. *)
Ltac reduce_case :=
  first [ progress cbn beta match | rewrite bool_decide_eq_true_2 by reflexivity
        | rewrite Z.eqb_refl ].

(** Steps through a body whose last field is followed by checks. *)
Ltac parse_step :=
  lazymatch goal with
  | |- parses _ ([] ++ _) _ => rewrite app_nil_l
  | |- parses (match _ with _ => _ end) _ _ => reduce_case
  | |- parses (mbind' (match _ with _ => _ end) _) _ _ => reduce_case
  | |- parses (mret' _) _ _ => apply parses_ret
  | |- parses (mlift _ _) _ _ => apply parses_mlift; reflexivity
  | |- parses (mbind' (mret' _) _) _ _ => rewrite mbind_ret_l
  | |- parses (mbind' (mbind' _ _) _) _ _ => apply parses_assoc
  | |- parses (mbind' (mlift _ _) _) _ _ =>
      eapply parses_bind_nil; [apply parses_mlift; reflexivity|]
  | |- parses (mbind' (invalidate_unless _ _) _) _ _ =>
      eapply parses_bind_nil; [apply parses_unless; reflexivity|]
  | |- parses (mbind' (invalidate_if _) _) _ _ =>
      eapply parses_bind_nil; [apply parses_invalidate_if; reflexivity|]
  | |- parses (mbind' (require_one _) _) _ _ =>
      eapply parses_bind; [apply parses_require_one; [ground | reflexivity]|]
  | |- parses (mbind' _ _) _ _ => eapply parses_bind; [parse_field|]
  end.
Ltac parse_body := apply parses_nil; rewrite <- ?app_assoc; repeat parse_step.

Ltac read_step :=
  lazymatch goal with
  | |- reads (match ?x with _ => _ end) _ => destruct x eqn:?
  | |- reads (mbind' (match ?x with _ => _ end) _) _ => destruct x eqn:?
  | |- reads (mret' _) _ => apply reads_ret; rewrite ?app_nil_r, <- ?app_assoc
  | |- reads (mfail _) _ => apply reads_fail
  | |- reads invalid_field _ => apply reads_fail
  | |- reads (mbind' (mret' _) _) _ => rewrite mbind_ret_l
  | |- reads (mbind' (mfail _) _) _ => rewrite mbind_fail_l; apply reads_fail
  | |- reads (mbind' invalid_field _) _ => unfold invalid_field; rewrite mbind_fail_l
  | |- reads (mbind' (mbind' _ _) _) _ => apply reads_assoc
  | |- reads (mbind' invalidate _) _ =>
      eapply reads_bind; [apply (reads_invalidate (fun _ _ => False)) | apply _ | done]
  | |- reads (mbind' _ _) _ => read_field
  | |- reads _ _ => eapply reads_weaken; [solve [eauto 3 with reads]|];
                   intros ? ? ?; simpl in *; destruct_and?; subst
  end.
Ltac read_body := repeat read_step; simpl; breflect;
  repeat match goal with
    | H : bool_decide _ = true |- _ => apply bool_decide_eq_true in H; subst
    end.

(** ** Rows with checked fields *)

Lemma parses_stale_authority v : wf_stale_authority v ->
  parses (take_stale_authority (stale_authority_origin v)) (put_stale_authority v) v.
Proof.
  destruct v as [[]|[|[? ? ? ? ? ? []]]|[]]; simpl; intros; destruct_and?; parse_body.
Qed.
#[export] Instance sticky_stale_authority o : Sticky (take_stale_authority o).
Proof. revert o. sticky_cases. Qed.
Lemma reads_stale_authority o : reads (take_stale_authority o) (fun v c =>
  c = put_stale_authority v /\ wf_stale_authority v /\ o = stale_authority_origin v).
Proof. destruct o; simpl; read_body; auto 20. Qed.

Lemma parses_backpressure_state v :
  wf_backpressure_state v -> parses take_backpressure_state (put_backpressure_state v) v.
Proof.
  destruct v as [e o]. intros [? He]; simpl in *. subst o.
  unfold take_backpressure_state, put_backpressure_state; simpl. parse_body.
  apply parses_mlift. unfold ObserverBackpressureState_replay. by rewrite Z.eqb_refl.
Qed.
#[export] Instance sticky_backpressure_state : Sticky take_backpressure_state.
Proof. unfold take_backpressure_state. apply _. Qed.
Lemma reads_backpressure_state : reads take_backpressure_state (fun v c =>
  c = put_backpressure_state v /\ wf_backpressure_state v).
Proof.
  unfold take_backpressure_state, ObserverBackpressureState_replay. read_body.
  match goal with H : _ = Some _ |- _ => csplit_in H end. breflect. subst.
  rewrite app_nil_r. done.
Qed.
#[export] Hint Resolve parses_backpressure_state parses_stale_authority : parses.
#[export] Hint Resolve reads_backpressure_state reads_stale_authority : reads.

Lemma parses_observer_backpressure v o :
  wf_server_value (SV_ObserverBackpressure v) -> originating_request (SV_ObserverBackpressure v) = Some o ->
  parses (take_observer_backpressure o) (put_observer_backpressure v) v.
Proof. destruct v; simpl; intros ? [= <-]; destruct_and?; simpl; parse_body. Qed.
#[export] Instance sticky_observer_backpressure o : Sticky (take_observer_backpressure o).
Proof. revert o. sticky_cases. Qed.
Lemma reads_observer_backpressure o : reads (take_observer_backpressure o) (fun v c =>
  c = put_observer_backpressure v /\ wf_server_value (SV_ObserverBackpressure v)
  /\ originating_request (SV_ObserverBackpressure v) = Some o).
Proof. destruct o; simpl; read_body; auto 20. Qed.

Lemma parses_receipt_expired v o :
  wf_server_value (SV_ReceiptExpired v) -> originating_request (SV_ReceiptExpired v) = Some o ->
  parses (take_receipt_expired o) (put_receipt_expired v) v.
Proof. destruct v; simpl; intros ? [= <-]; destruct_and?; unfold take_receipt_expired; parse_body. Qed.
#[export] Instance sticky_receipt_expired o : Sticky (take_receipt_expired o).
Proof. revert o. sticky_cases. Qed.
Lemma reads_receipt_expired o : reads (take_receipt_expired o) (fun v c =>
  c = put_receipt_expired v /\ wf_server_value (SV_ReceiptExpired v)
  /\ originating_request (SV_ReceiptExpired v) = Some o).
Proof. unfold take_receipt_expired. read_body; auto 20. Qed.

Lemma parses_receipt_capacity v o :
  wf_server_value (SV_ReceiptCapacityExceeded v) -> originating_request (SV_ReceiptCapacityExceeded v) = Some o ->
  parses (take_receipt_capacity o) (put_receipt_capacity v) v.
Proof.
  destruct v as [r s l c|r s l c]; simpl; intros ? [= <-]; destruct_and?; [destruct s|];
    simpl; parse_body.
Qed.
#[export] Instance sticky_receipt_capacity o : Sticky (take_receipt_capacity o).
Proof. revert o. sticky_cases. Qed.
Lemma reads_receipt_capacity o : reads (take_receipt_capacity o) (fun v c =>
  c = put_receipt_capacity v /\ wf_server_value (SV_ReceiptCapacityExceeded v)
  /\ originating_request (SV_ReceiptCapacityExceeded v) = Some o).
Proof. destruct o; simpl; read_body; auto 20. Qed.

Lemma parses_ack_no_op v o :
  wf_server_value (SV_AckNoOp v) -> originating_request (SV_AckNoOp v) = Some o ->
  parses (take_ack_no_op o) (match v with
    | ANO_ParticipantAck request => put_participant_ack request ++ be 8 (ano_current_cursor v)
    | ANO_MarkerAck request => put_marker_ack request ++ be 8 (ano_current_cursor v)
    end) v.
Proof.
  destruct v as [[]|[]]; simpl; intros Hwf [= <-]; pose proof Hwf as Hwf'; destruct Hwf' as (?&?&?&?);
    simpl in *; unfold take_ack_no_op; parse_body.
Qed.
#[export] Instance sticky_ack_no_op o : Sticky (take_ack_no_op o).
Proof. revert o. sticky_cases. Qed.

Lemma parses_status v : u64 (ops_conversation_id v) /\ u64 (ops_refused_epoch v) /\
  u64 (ops_current_observer_progress v) -> parses take_status (put_status v) v.
Proof. destruct v. parse_struct. Qed.
#[export] Instance sticky_status : Sticky take_status.
Proof. unfold take_status. apply _. Qed.
Lemma reads_status : reads take_status (fun v c => c = put_status v /\
  (u64 (ops_conversation_id v) /\ u64 (ops_refused_epoch v) /\
   u64 (ops_current_observer_progress v))).
Proof. read_struct. Qed.

Lemma blen_status v : blen (put_status v) = RECOVERY_STATUS_LEN.
Proof.
  unfold put_status, enc_bool, blen. rewrite !length_app, !length_be. done.
Qed.

Lemma parses_statuses {A} count (m : M A) bs a :
  u64 count -> count * RECOVERY_STATUS_LEN <= blen bs -> parses m bs a ->
  parses (mbind' (require_statuses count) (fun _ => m)) bs a.
Proof.
  intros Hc Hle Hm. apply (parses_require count RECOVERY_STATUS_LEN) in Hm; [|done].
  intros pre rest inv Hlen. rewrite <- (Hm pre rest inv Hlen).
  Transparent mbind'. unfold mbind', require_statuses, require_fixed_list, checked_mul. Opaque mbind'.
  rewrite mul_u128_exact by (unfold RECOVERY_STATUS_LEN; mlia).
  destruct (Z.leb_spec (count * RECOVERY_STATUS_LEN) u128_max); [|unfold RECOVERY_STATUS_LEN in *; mlia].
  by destruct (_ <? _).
Qed.

Lemma reads_statuses n : reads (require_statuses n) (fun _ c => c = []).
Proof.
  intros pre rest a r' H _. unfold require_statuses in H. csplit_in H.
  exists [], rest. by rewrite app_nil_r.
Qed.

Lemma parses_recovery_accepted v : wf_server_value (SV_ObserverRecoveryAccepted v) ->
  parses take_recovery_accepted (be 8 (Z.of_nat (length (ora_statuses v)))
    ++ concat (map put_status (ora_statuses v))) v.
Proof.
  destruct v as [l]; simpl. intros [Hl Hwf]. unfold take_recovery_accepted.
  eapply parses_bind; [parse_field|]. rewrite Nat2Z.id.
  apply parses_statuses; [done|by rewrite (blen_concat _ _ _ blen_status)|].
  eapply parses_end; [apply parses_list | done].
  eapply Forall_impl; [eassumption|]. intros. by apply parses_status.
Qed.
#[export] Instance sticky_recovery_accepted : Sticky take_recovery_accepted.
Proof. unfold take_recovery_accepted. apply _. Qed.
Lemma reads_recovery_accepted : reads take_recovery_accepted (fun v c =>
  c = be 8 (Z.of_nat (length (ora_statuses v))) ++ concat (map put_status (ora_statuses v))
  /\ wf_server_value (SV_ObserverRecoveryAccepted v)).
Proof.
  unfold take_recovery_accepted. read_field.
  eapply reads_bind; [apply reads_statuses | apply _ |]. intros ? ? ->.
  eapply reads_bind; [apply reads_list; [apply _ | apply reads_status] | apply _ |].
  intros l ? (-> & Hl & Hwf). read_done. simpl. rewrite Hl, Z2Nat.id by mlia. auto.
Qed.

Lemma parses_invalid_observer_epoch v : wf_server_value (SV_InvalidObserverEpoch v) ->
  parses take_invalid_observer_epoch (enc_tag (invalid_observer_epoch_reason v) ++
    match v with
    | IOE_ConversationUnknown c e => be 8 c ++ be 8 e ++ enc_option (be 8) None
    | IOE_EpochAhead c e o => be 8 c ++ be 8 e ++ enc_option (be 8) (Some o)
    end) v.
Proof.
  destruct v; simpl; intros; destruct_and?; unfold take_invalid_observer_epoch; parse_body.
Qed.
#[export] Instance sticky_invalid_observer_epoch : Sticky take_invalid_observer_epoch.
Proof. unfold take_invalid_observer_epoch. apply _. Qed.
Lemma reads_invalid_observer_epoch : reads take_invalid_observer_epoch (fun v c =>
  c = enc_tag (invalid_observer_epoch_reason v) ++
    match v with
    | IOE_ConversationUnknown c e => be 8 c ++ be 8 e ++ enc_option (be 8) None
    | IOE_EpochAhead c e o => be 8 c ++ be 8 e ++ enc_option (be 8) (Some o)
    end /\ wf_server_value (SV_InvalidObserverEpoch v)).
Proof. unfold take_invalid_observer_epoch. read_body; auto 20. Qed.

Lemma parses_invalid_observer_epoch_list v : wf_server_value (SV_InvalidObserverEpochList v) ->
  parses take_invalid_observer_epoch_list (enc_tag (invalid_observer_epoch_list_reason v) ++
    match v with
    | IOL_TooManyEntries p m => be 8 p ++ be 8 m
    | IOL_DuplicateConversation c f d => be 8 c ++ be 8 f ++ be 8 d
    end) v.
Proof.
  destruct v; simpl; intros; destruct_and?; unfold take_invalid_observer_epoch_list; parse_body.
Qed.
#[export] Instance sticky_invalid_observer_epoch_list : Sticky take_invalid_observer_epoch_list.
Proof. unfold take_invalid_observer_epoch_list. apply _. Qed.
Lemma reads_invalid_observer_epoch_list : reads take_invalid_observer_epoch_list (fun v c =>
  c = enc_tag (invalid_observer_epoch_list_reason v) ++
    match v with
    | IOL_TooManyEntries p m => be 8 p ++ be 8 m
    | IOL_DuplicateConversation c f d => be 8 c ++ be 8 f ++ be 8 d
    end /\ wf_server_value (SV_InvalidObserverEpochList v)).
Proof. unfold take_invalid_observer_epoch_list. read_body; auto 20. Qed.

(** ** Receipts *)

Lemma parses_enroll_bound v : wf_enroll_bound v -> parses take_enroll_bound (put_enroll_bound v) v.
Proof.
  destruct v as [c t p s [i g] e1 e2]. unfold wf_enroll_bound; simpl. intros; destruct_and?; subst g.
  unfold take_enroll_bound, put_enroll_bound, eb_request_generation, eb_capability_generation,
    eb_persisted_cursor, eb_accepted_marker_delivery_seq; simpl. parse_body.
Qed.
#[export] Instance sticky_enroll_bound : Sticky take_enroll_bound.
Proof. unfold take_enroll_bound. apply _. Qed.

Lemma EnrollBound_new_Some c t p s b e1 e2 v : EnrollBound_new c t p s b e1 e2 = Some v <->
  v = mkEnrollBound c t p s b e1 e2 /\ capability_generation b = 1.
Proof.
  unfold EnrollBound_new. destruct (Z.eqb_spec (capability_generation b) 1); split;
    intros H; destruct_and? H; by simplify_eq.
Qed.

Lemma reads_enroll_bound :
  reads take_enroll_bound (fun v c => c = put_enroll_bound v /\ wf_enroll_bound v).
Proof.
  unfold take_enroll_bound. read_body.
  - match goal with H : _ = Some _ |- _ => apply EnrollBound_new_Some in H as [-> ?] end.
    rewrite app_nil_r. unfold put_enroll_bound, eb_capability_generation, wf_enroll_bound; simpl.
    rewrite Heqb. auto 20.
  - by apply bool_decide_eq_false in Heqb.
Qed.

(** The constructor the attach receipt decoder selects. *)
Definition select_attach_bound c t p g s b cur (marker : option DeliverySeq) e1 e2
    : option AttachBound :=
  match marker with
  | Some marker =>
      if cur =? marker then AttachBound_fenced c t p g s b marker e1 e2 else None
  | None => AttachBound_ordinary c t p g s b cur e1 e2
  end.

Lemma select_attach_bound_Some c t p g s b cur m e1 e2 v :
  capability_generation b <= u64_max ->
  select_attach_bound c t p g s b cur m e1 e2 = Some v <->
  v = mkAttachBound c t p g s b cur m e1 e2 /\ capability_generation b = g + 1
  /\ match m with Some m => m = cur | None => True end.
Proof.
  intros Hb. unfold select_attach_bound, AttachBound_fenced, AttachBound_ordinary,
    is_successor_generation, checked_add.
  destruct (Z.leb_spec (g + 1) u64_max); simpl; [|destruct m as [m|]; [destruct (_ =? _)|];
    split; intros; destruct_and?; (done || lia)].
  destruct (Z.eqb_spec (capability_generation b) (g + 1)); simpl; [|destruct m as [m|];
    [destruct (_ =? _)|]; split; intros; destruct_and?; done].
  destruct m as [m|]; [destruct (Z.eqb_spec cur m)|]; split; intros; destruct_and?; simplify_eq; done.
Qed.

Definition attach_bound_tail (v : AttachBound) : list byte :=
  enc_option (be 8) (Some (ab_request_generation v)) ++ be 8 (ab_capability_generation v)
  ++ ab_attach_secret v ++ enc_epoch (ab_origin_binding_epoch v)
  ++ be 8 (ab_persisted_cursor v) ++ enc_option (be 8) (ab_accepted_marker_delivery_seq v)
  ++ be 16 (ab_receipt_expires_at v) ++ be 16 (ab_provenance_expires_at v).

Lemma parses_attach_bound_fields v :
  wf_attach_bound v ->
  parses (take_attach_bound_fields (ab_conversation_id v) (ab_token v) (ab_participant_id v))
    (attach_bound_tail v) v.
Proof.
  intros Hv. destruct v as [c t p g s b cur m e1 e2]. unfold wf_attach_bound in Hv; simpl in *.
  destruct_and!. assert (wf_opt u64 m) by (destruct m; simpl; subst; done).
  pose proof H4 as [_ Hg].
  unfold take_attach_bound_fields, attach_bound_tail, ab_capability_generation; simpl. parse_body.
  eapply parses_bind_nil.
  { apply parses_mlift. apply select_attach_bound_Some; [apply Hg | done]. }
  simpl. rewrite bool_decide_eq_true_2 by done. apply parses_ret.
Qed.

#[export] Instance sticky_attach_bound_fields c t p : Sticky (take_attach_bound_fields c t p).
Proof. unfold take_attach_bound_fields. apply _. Qed.

Lemma reads_attach_bound_fields c t p : u64 c -> wf_token t -> u64 p ->
  reads (take_attach_bound_fields c t p) (fun v bs => bs = attach_bound_tail v
    /\ wf_attach_bound v /\ c = ab_conversation_id v /\ t = ab_token v
    /\ p = ab_participant_id v).
Proof.
  intros Hc Ht Hp. unfold take_attach_bound_fields. do 8 read_field.
  eapply reads_bind; [apply reads_mlift | apply _ |]. intros v ? [-> Hv].
  change (select_attach_bound c t p a a1 a2 a3 a4 a5 a6 = Some v) in Hv.
  apply select_attach_bound_Some in Hv as (-> & Hg & Hm); [|apply H4].
  unfold ab_capability_generation; simpl. destruct (bool_decide _) eqn:E; [|apply reads_fail].
  apply bool_decide_eq_true in E. subst a0. read_done.
  unfold attach_bound_tail, ab_capability_generation, wf_attach_bound; simpl. auto 20.
Qed.

Lemma parses_attach_bound v : wf_attach_bound v -> parses take_attach_bound (put_attach_bound v) v.
Proof.
  intros Hv. pose proof Hv as (? & ? & ? & _). unfold take_attach_bound, put_attach_bound.
  do 3 (eapply parses_bind; [parse_field|]). by apply parses_attach_bound_fields.
Qed.
#[export] Instance sticky_attach_bound : Sticky take_attach_bound.
Proof. unfold take_attach_bound. apply _. Qed.
Lemma reads_attach_bound :
  reads take_attach_bound (fun v c => c = put_attach_bound v /\ wf_attach_bound v).
Proof.
  unfold take_attach_bound. do 3 read_field.
  eapply reads_weaken; [by apply reads_attach_bound_fields|].
  intros v c (-> & ? & -> & -> & ->). done.
Qed.

Lemma parses_receipt_replay v o : wf_receipt_replay v ->
  originating_request (SV_Bound v) = Some o ->
  parses (take_receipt_replay o) (put_receipt_replay v) v.
Proof.
  destruct v as [v|v]; simpl; intros Hv [= <-].
  - destruct v as [c t p s [i g] e1 e2]. unfold wf_enroll_bound in Hv; simpl in *.
    destruct_and!. subst g. unfold take_receipt_replay, eb_capability_generation,
      eb_persisted_cursor; simpl. parse_body. apply parses_ret.
  - pose proof Hv as (? & ? & ? & _). unfold take_receipt_replay, put_attach_bound.
    do 3 (eapply parses_bind; [parse_field|]).
    eapply parses_end; [by apply parses_attach_bound_fields | done].
Qed.
#[export] Instance sticky_receipt_replay o : Sticky (take_receipt_replay o).
Proof. revert o. sticky_cases. Qed.

Lemma reads_receipt_replay o : reads (take_receipt_replay o) (fun v c =>
  c = put_receipt_replay v /\ wf_receipt_replay v /\ originating_request (SV_Bound v) = Some o).
Proof.
  unfold take_receipt_replay. do 3 read_field. destruct o; try apply reads_fail.
  - do 8 read_field. eapply reads_bind; [apply reads_mlift | apply _ |].
    intros v ? [-> [-> Hg]%EnrollBound_new_Some].
    destruct (_ && _) eqn:E; [|apply reads_fail]. breflect.
    match goal with H : bool_decide _ = true |- _ => apply bool_decide_eq_true in H end.
    repeat match goal with H : is_none ?o = true |- _ => destruct o; [done|clear H] end. subst.
    read_done. simpl. unfold eb_capability_generation, wf_enroll_bound; simpl. rewrite Hg. auto 20.
  - eapply reads_bind; [by apply reads_attach_bound_fields | apply _ |].
    intros v c (-> & ? & -> & -> & ->). read_done. done.
Qed.

Lemma LeaveCommitted_new_Some c t p g b s l v :
  LeaveCommitted_new c t p g b s l = Some v <->
  v = mkLeaveCommitted c t p g b s l /\ wf_opt (fun b => capability_generation b = g) b
  /\ wf_opt (fun s => s < l) s.
Proof.
  unfold LeaveCommitted_new. destruct b as [b|], s as [s|]; simpl;
    csplit; breflect; split; intros; destruct_and?; simplify_eq; repeat split; try done; try lia.
Qed.

Definition put_leave_committed (v : LeaveCommitted) : list byte :=
  be 8 (lc_conversation_id v) ++ lc_leave_attempt_token v ++ be 8 (lc_participant_id v)
  ++ be 8 (lc_retired_generation v) ++ be 8 (lc_retired_generation v)
  ++ enc_option enc_epoch (lc_ended_binding_epoch v)
  ++ enc_option (be 8) (lc_prior_terminal_delivery_seq v) ++ be 8 (lc_left_delivery_seq v).

Lemma parses_leave_committed v : wf_server_value (SV_LeaveCommitted v) ->
  parses take_leave_committed (put_leave_committed v) v.
Proof.
  destruct v as [c t p g b s l]; simpl; intros; destruct_and!.
  unfold take_leave_committed, put_leave_committed; simpl. parse_body.
  simpl. apply parses_mlift. by apply LeaveCommitted_new_Some.
Qed.
#[export] Instance sticky_leave_committed : Sticky take_leave_committed.
Proof. unfold take_leave_committed. apply _. Qed.
Lemma reads_leave_committed : reads take_leave_committed (fun v c =>
  c = put_leave_committed v /\ wf_server_value (SV_LeaveCommitted v)).
Proof.
  unfold take_leave_committed. do 8 read_field.
  destruct (bool_decide _) eqn:E; [|apply reads_fail]. apply bool_decide_eq_true in E. subst.
  eapply reads_weaken; [apply reads_mlift|].
  intros v c (-> & (-> & ? & ?)%LeaveCommitted_new_Some). rewrite app_nil_r. simpl. auto 20.
Qed.

#[export] Hint Resolve parses_observer_backpressure parses_receipt_expired
  parses_receipt_capacity parses_ack_no_op parses_recovery_accepted
  parses_invalid_observer_epoch parses_invalid_observer_epoch_list parses_enroll_bound
  parses_attach_bound parses_receipt_replay parses_leave_committed : parses.
#[export] Hint Resolve reads_observer_backpressure reads_receipt_expired
  reads_receipt_capacity reads_recovery_accepted reads_invalid_observer_epoch
  reads_invalid_observer_epoch_list reads_enroll_bound reads_attach_bound
  reads_receipt_replay reads_leave_committed : reads.

(** ** The whole registry *)

Lemma parses_capability :
  parses take_string (be 4 (blen PARTICIPANT_CAPABILITY) ++ PARTICIPANT_CAPABILITY)
    PARTICIPANT_CAPABILITY.
Proof.
  unfold take_string. eapply parses_bind; [apply parses_u32; ground|].
  eapply parses_end; [by apply parses_rtake | done].
Qed.


Lemma wf_epoch_generation b : wf_epoch b -> wf_generation (capability_generation b).
Proof. by intros [_ ?]. Qed.
Lemma wf_ack_through r : wf_participant_ack r -> u64 (pae_through_seq r).
Proof. by intros (_ & _ & _ & ?). Qed.
Lemma wf_marker_seq r : wf_marker_ack r -> u64 (mae_marker_delivery_seq r).
Proof. by intros (_ & _ & _ & ?). Qed.
Lemma wf_record_sender r : wf_record_admission r -> u64 (rae_participant_id r).
Proof. by intros (_ & ? & _). Qed.
Lemma wf_requested : u64 IdentityCapacityExceeded_REQUESTED.
Proof. ground. Qed.
Lemma wf_next_value v : u64 (coe_high v) -> wf_opt u64 (coe_next_value v).
Proof.
  intros ?. unfold coe_next_value. destruct (checked_add _ _ _) eqn:E; [|done].
  apply checked_add_Some in E as [-> ?]. simpl. mlia.
Qed.
#[local] Hint Resolve parses_capability wf_epoch_generation wf_ack_through wf_marker_seq
  wf_record_sender wf_requested wf_next_value : parses.

Lemma AckGap_new_Some r c v :
  AckGap_new r c = Some v <-> v = mkAckGap r c /\ c < pae_through_seq r.
Proof.
  unfold AckGap_new. destruct (Z.ltb_spec c (pae_through_seq r)); split; intros H';
    destruct_and? H'; simplify_eq; done || lia.
Qed.
Lemma AckRegression_new_Some r c v :
  AckRegression_new r c = Some v <-> v = mkAckRegression r c /\ pae_through_seq r < c.
Proof.
  unfold AckRegression_new. destruct (Z.ltb_spec (pae_through_seq r) c); split; intros H';
    destruct_and? H'; simplify_eq; done || lia.
Qed.

(** Exposes the fields of the row and walks through them. *)
Ltac suffix_row :=
  simpl in *; unfold mmap, required_origin, take_transport_reason, take_token_conflict,
    take_binding_occupied, take_order_exhausted, take_marker_closure, take_marker_mismatch,
    take_ack_no_op, dcm_capability_generation, acm_current_cursor, mac_current_cursor,
    rcm_sender_participant_id;
  simplify_eq; destruct_and?; simpl; parse_body.

(** A row that is one group of fields, or a group after the zero count. *)
Ltac group_row :=
  simpl in *; simplify_eq; unfold mmap;
  first [ eapply parses_end; [|done]
        | eapply parses_bind; [apply parses_zero_count|]; eapply parses_end; [|done] ].

Lemma parses_suffix v bs : wf_server_value v -> encode_server_suffix v = Ok bs ->
  parses (decode_server_suffix (server_discriminant v) (originating_request v)) bs v.
Proof.
  intros Hv Hbs. destruct v as
    [[[]]|[]|[]|[]|[]|[]|[]|v|[]|[r s [[[]]| | |]]|v|[]|v|v|[]|v|[]|v|[]|[]|[r []]|v|v|[]|[]
    |[]|[]|[]|[]|v|[]|[]|[? []]|v|v|v|[]|[]]; try (suffix_row; fail).
  - suffix_row. rewrite (app_assoc (be 4 _)). eapply parses_bind; [parse_field|]. repeat parse_step.
  - suffix_row. rewrite bool_decide_eq_false_2 by (by destruct request). repeat parse_step.
  - suffix_row. eapply parses_bind_nil; [|apply parses_ret].
    apply parses_mlift. by apply AckGap_new_Some.
  - suffix_row. eapply parses_bind_nil; [|apply parses_ret].
    apply parses_mlift. by apply AckRegression_new_Some.
  - group_row. by apply parses_leave_committed.
  - destruct v as [l]; simpl in Hbs.
    destruct (_ <=? _); [|done]. group_row. by apply (parses_recovery_accepted (mkObserverRecoveryAccepted l)).
  - group_row. by apply parses_invalid_observer_epoch.
  - group_row. by apply parses_invalid_observer_epoch_list.
Qed.

(** Every value is routed by an origin its row admits. *)
Lemma originating_request_valid v :
  match originating_request v with
  | Some o => carries_origin (server_discriminant v) = true
              /\ origin_is_valid (server_discriminant v) o = true
  | None => carries_origin (server_discriminant v) = false
  end.
Proof.
  destruct v as [[]|[]|[[]|]|[]|[[]]|[[]]|[[]]|[[]| |]|[|[]]|[[]]| |[]|[]|[]|[]|[]|[[]]|[]|[]
    |[[]]|[[]]|[]|[]|[]|[]|[]|[]|[]|[]|[]|[]|[]|[]|[]|[]|[]|[]|[]]; done.
Qed.

Lemma parses_server_value v d bs : wf_server_value v ->
  encode_server_value_body v ProtocolVersion_V1 = Ok (d, bs) ->
  d = server_discriminant v /\ parses (server_value_fields d) bs v.
Proof.
  intros Hv H. unfold encode_server_value_body, require_v1 in H.
  rewrite decide_True in H by done. pose proof (originating_request_valid v) as Ho.
  unfold server_value_fields, take_origin.
  destruct (originating_request v) as [o|] eqn:Eo; [destruct Ho as [Hc Ho]|];
    (destruct (carries_origin _) eqn:Ec; [|]; try done); simpl in H;
    destruct (encode_server_suffix v) eqn:Es; simplify_eq; split; try done; rewrite Ec.
  - apply parses_assoc. eapply parses_bind; [apply parses_tag|]. rewrite Ho; simpl.
    rewrite mbind_ret_l, <- Eo. by apply parses_suffix.
  - rewrite mbind_ret_l, <- Eo. by apply parses_suffix.
Qed.

(** ** Canonicality of the registry *)

Lemma reads_string : reads take_string (fun s c => c = be 4 (blen s) ++ s).
Proof.
  unfold take_string. read_field. eapply reads_bind; [apply reads_rtake; mlia | apply _ |].
  intros bs ? [-> <-]. read_body. done.
Qed.
#[local] Hint Resolve reads_string : reads.

(** What the decoder of row [d] with origin [o] accepts: the encoding of a
    well-formed value of that row and origin. *)
Definition row_ok (d : ServerDiscriminant) (o : option ClientDiscriminant)
    (v : ServerValue) (c : list byte) : Prop :=
  encode_server_suffix v = Ok c /\ wf_server_value v /\ server_discriminant v = d
  /\ originating_request v = o.

Lemma tag_dimension_cancel t : resource_dimension_tag (tag_resource_dimension t) = t.
Proof. by destruct t. Qed.

Lemma reads_origin d : reads (take_origin d) (fun o c =>
  match o with
  | Some o => carries_origin d = true /\ origin_is_valid d o = true /\ c = enc_tag o
  | None => carries_origin d = false /\ c = []
  end).
Proof.
  unfold take_origin. destruct (carries_origin d); [|by apply reads_ret].
  read_field. destruct (origin_is_valid d a) eqn:E; simpl; [|apply reads_fail].
  read_done. done.
Qed.
#[export] Instance sticky_origin d : Sticky (take_origin d).
Proof. unfold take_origin. apply _. Qed.

Ltac read_row :=
  simpl in *; try discriminate;
  unfold mmap, required_origin, take_transport_reason, take_token_conflict,
    take_binding_occupied, take_order_exhausted, take_marker_closure, take_marker_mismatch,
    take_ack_no_op; simpl;
  try (rewrite mbind_ret_l); read_body; unfold row_ok; simpl;
  rewrite ?app_nil_r, ?tag_dimension_cancel;
  repeat match goal with
    | t : Counter |- _ => destruct t
    | t : AckGapReason |- _ => destruct t
    | t : AckRegressionReason |- _ => destruct t
    | H : AckGap_new _ _ = Some _ |- _ => apply AckGap_new_Some in H as [-> ?]
    | H : AckRegression_new _ _ = Some _ |- _ => apply AckRegression_new_Some in H as [-> ?]
    end; simpl; auto 20.

Lemma reads_suffix d o :
  match o with
  | Some o => origin_is_valid d o = true
  | None => carries_origin d = false
  end ->
  reads (decode_server_suffix d o) (row_ok d o).
Proof.
  intros Ho. destruct d.
  all: try (destruct o as [o|]; [|simpl in Ho; discriminate]; destruct o; read_row; fail).
  all: try (destruct o; simpl in Ho; [discriminate|]; read_row; fail).
  all: try (destruct o as [o|]; [|simpl in Ho; discriminate]; clear Ho; read_row; fail).
  destruct o as [o|]; [discriminate|]. simpl. unfold mmap. read_body.
  match goal with H : match ?a with _ => _ end |- _ => destruct a as [l]; destruct H as [Hl ?] end.
  unfold row_ok; simpl in *. rewrite (proj2 (Z.leb_le _ _)) by mlia. done.
Qed.

#[export] Instance sticky_suffix d o : Sticky (decode_server_suffix d o).
Proof.
  destruct d; simpl; unfold take_transport_reason, take_token_conflict,
    take_binding_occupied, take_order_exhausted, take_marker_closure, take_marker_mismatch;
    cbv zeta; apply _.
Qed.

Lemma reads_server_value d : reads (server_value_fields d) (fun v c =>
  encode_server_value_body v ProtocolVersion_V1 = Ok (d, c) /\ wf_server_value v).
Proof.
  unfold server_value_fields. eapply reads_bind; [apply reads_origin | apply _ |].
  intros o c1 Hc1. eapply reads_weaken; [apply reads_suffix; destruct o; intuition|].
  intros v c2 (Hs & Hv & Hd & Ho). split; [|done].
  unfold encode_server_value_body, require_v1. rewrite decide_True by done.
  rewrite Hd, Ho, Hs. destruct o as [o|]; [destruct Hc1 as (-> & _ & ->)|destruct Hc1 as [-> ->]]; done.
Qed.

Lemma decoder_finish_at pre rest inv :
  decoder_finish (at_ pre rest inv) = finish (at_ pre rest inv).
Proof.
  unfold decoder_finish, finish, at_, remaining, saturating_sub, blen; simpl. rewrite length_app.
  destruct (Nat.eqb_spec (length pre) (length pre + length rest)),
    (Z.eqb_spec (Z.max 0 (Z.of_nat (length pre + length rest) - Z.of_nat (length pre))) 0);
    try done; lia.
Qed.

Lemma decode_server_value_parses v d body :
  wf_server_value v -> encode_server_value_body v ProtocolVersion_V1 = Ok (d, body) ->
  blen body <= usize_max ->
  decode_server_value_body d ProtocolVersion_V1 body = Ok (v, ProtocolVersion_V1).
Proof.
  intros Hv He Hlen. apply parses_server_value in He as [-> Hp]; [|done].
  unfold decode_server_value_body, require_v1. rewrite decide_True by done.
  change (Reader_new body) with (at_ [] body false).
  rewrite <- (app_nil_r body) at 1. rewrite Hp by (simpl; by rewrite app_nil_r).
  rewrite decoder_finish_at. unfold finish, at_; simpl. by rewrite app_nil_r, Nat.eqb_refl.
Qed.

Lemma decode_server_value_reads d body v w :
  decode_server_value_body d ProtocolVersion_V1 body = Ok (v, w) ->
  encode_server_value_body v ProtocolVersion_V1 = Ok (d, body) /\ wf_server_value v
  /\ w = ProtocolVersion_V1.
Proof.
  intros H. unfold decode_server_value_body, require_v1 in H. rewrite decide_True in H by done.
  destruct (server_value_fields d (Reader_new body)) as [[v' r]|] eqn:E; [|done].
  destruct (decoder_finish r) eqn:F; simplify_eq.
  unfold decoder_finish in F. destruct (negb _) eqn:Hr; [done|].
  destruct (rd_invalid_field r) eqn:Hf; [done|].
  destruct (reads_server_value d [] body v r E Hf) as (c & rest & -> & -> & He & Hv).
  destruct rest; [by rewrite app_nil_r|]. exfalso. breflect. revert Hr.
  unfold remaining, saturating_sub, blen, at_; simpl. rewrite length_app; simpl. lia.
Qed.

(** Decoding the body a server value encodes to gives back the value, for
    every one of the rows of the registry: [encode_server_value_body] followed
    by [decode_server_value_body] under the discriminant it returned is the
    identity on well-formed values. *)
Theorem server_value_roundtrip v d body :
  wf_server_value v ->
  encode_server_value_body v ProtocolVersion_V1 = Ok (d, body) ->
  blen body <= usize_max ->
  decode_server_value_body d ProtocolVersion_V1 body = Ok (v, ProtocolVersion_V1).
Proof. intros. by apply decode_server_value_parses. Qed.

Lemma server_value_roundtrip_witness :
  let v := SV_EnrollmentKnown (mkEnrollmentKnown 7 (repeat Byte.x2a 16) 3 2) in
  exists body, encode_server_value_body v ProtocolVersion_V1 = Ok (SD_EnrollmentKnown, body)
  /\ decode_server_value_body SD_EnrollmentKnown ProtocolVersion_V1 body
     = Ok (v, ProtocolVersion_V1).
Proof.
  eexists. split; [reflexivity|].
  apply server_value_roundtrip; [|reflexivity|]; ground.
Defined.

(** The server-value decoder is canonical: a body it accepts is exactly the
    encoding of the value it returns, and that value is well formed (its
    generations are nonzero, its receipts, gaps, regressions and departures
    satisfy their constructors' conditions).  No two bodies decode to the same
    value. *)
Theorem server_value_canonical d body v w :
  decode_server_value_body d ProtocolVersion_V1 body = Ok (v, w) ->
  encode_server_value_body v ProtocolVersion_V1 = Ok (d, body) /\ wf_server_value v
  /\ w = ProtocolVersion_V1.
Proof. apply decode_server_value_reads. Qed.

Lemma server_value_canonical_witness :
  let v := SV_EnrollmentSettlementBackpressure (mkEnrollmentSettlementBackpressure 9) in
  exists body,
    decode_server_value_body SD_EnrollmentSettlementBackpressure ProtocolVersion_V1 body
      = Ok (v, ProtocolVersion_V1)
    /\ encode_server_value_body v ProtocolVersion_V1
       = Ok (SD_EnrollmentSettlementBackpressure, body).
Proof.
  exists (be 2 1 ++ be 8 9).
  assert (decode_server_value_body SD_EnrollmentSettlementBackpressure ProtocolVersion_V1
    (be 2 1 ++ be 8 9) = Ok (SV_EnrollmentSettlementBackpressure
      (mkEnrollmentSettlementBackpressure 9), ProtocolVersion_V1)) as H by (by vm_compute).
  split; [exact H|]. by apply server_value_canonical in H as [H' _].
Defined.
