(* ===== verification/FrameCodec.v ===== *)
(** * Complete participant frames

    Model of the frame level of [liminal-protocol/src/wire/codec.rs]: the frame
    limits and capability state, [encoded_len], [encode], [decode],
    [declared_complete_frame_bytes] and the inbound gate [gate_inbound].  The
    theorems relate them: what [encode] writes, that [decode] inverts it and
    accepts nothing else, and in which order and from which bytes the gate
    decides. *)
From coqutil Require Import Byte.
From S2P Require Import Prelude ServerRoundTrip Algebra Tags Wire Response Bytes ClientCodec.
From S2P Require Import ServerCodec.

Definition PARTICIPANT_FRAME_TYPE : Z := 26.
Definition GENERIC_HEADER_LEN : Z := 10.
Definition PARTICIPANT_PREFIX_LEN : Z := 6.
Definition PARTICIPANT_FRAME_OVERHEAD : Z := GENERIC_HEADER_LEN + PARTICIPANT_PREFIX_LEN.
Definition FRAME_MAX : Z := 4294967305.
Definition PRECAP_PARTICIPANT_FRAME_MAX : Z := 1048576.
Definition MIN_PARTICIPANT_FRAME_MAX : Z := 16.

Inductive ReceiverDirection := RD_Server | RD_Client.
Inductive AuthenticationState := AS_Unauthenticated | AS_Authenticated.

Record ValidatedFrameLimit := mkValidatedFrameLimit { vfl_get : Z }.
Definition ValidatedFrameLimit_new (max_frame_bytes : Z)
    : result ValidatedFrameLimit CodecError :=
  if (max_frame_bytes <? MIN_PARTICIPANT_FRAME_MAX) || (FRAME_MAX <? max_frame_bytes)
  then Err (CE_InvalidFrameLimit max_frame_bytes)
  else Ok (mkValidatedFrameLimit max_frame_bytes).

Record NegotiatedParticipantCapability := mkNegotiatedParticipantCapability {
  npc_protocol_version : ProtocolVersion;
  npc_max_frame_bytes : ValidatedFrameLimit;
}.
Definition NegotiatedParticipantCapability_v1 (max_frame_bytes : ValidatedFrameLimit) :=
  mkNegotiatedParticipantCapability ProtocolVersion_V1 max_frame_bytes.

Inductive ParticipantCapabilityState :=
| PCS_Missing
| PCS_Negotiated (capability : NegotiatedParticipantCapability).

Record InboundGateContext := mkInboundGateContext {
  igc_receiver : ReceiverDirection;
  igc_authentication : AuthenticationState;
  igc_participant_capability : ParticipantCapabilityState;
}.

Inductive ParticipantFrame :=
| PF_ClientRequest (r : ClientRequest)
| PF_ServerValue (v : ServerValue)
| PF_ServerPush (p : ServerPush).

Inductive InboundGateError :=
| IGE_NotParticipantFrame (frame_type : Z)
| IGE_ParticipantRejected (r : ParticipantTransportRejected).

Definition complete_frame_bytes (payload_length : Z) : Z := 10 + payload_length.

(** ** Encoding *)

Definition frame_discriminant (frame : ParticipantFrame) : Z :=
  match frame with
  | PF_ClientRequest value => wire_value (client_discriminant value)
  | PF_ServerValue value => wire_value (server_discriminant value)
  | PF_ServerPush value => wire_value (push_discriminant value)
  end.

Definition encode_body {S} `{Sink S} (frame : ParticipantFrame) (sink : S)
    : result S CodecError :=
  match frame with
  | PF_ClientRequest value => encode_client_request value sink
  | PF_ServerPush value => encode_server_push value sink
  | PF_ServerValue value =>
      let? (_, body) := encode_server_value_body value ProtocolVersion_V1 in
      put body sink
  end.

Definition encoded_len (frame : ParticipantFrame) : result Z CodecError :=
  let? size := encode_body frame (mkSizeSink 0) in
  let? payload :=
    ok_or (checked_add usize_max PARTICIPANT_PREFIX_LEN (size_len size)) CE_LengthOverflow in
  if payload <=? u32_max then
    ok_or (checked_add usize_max GENERIC_HEADER_LEN payload) CE_LengthOverflow
  else Err CE_LengthOverflow.

(** Returns the number of bytes written and the buffer after the call. *)
Definition encode (frame : ParticipantFrame) (output : list byte)
    : result (Z * list byte) CodecError :=
  let? required := encoded_len frame in
  if blen output <? required then Err (CE_OutputTooSmall required (blen output)) else
  if required <? GENERIC_HEADER_LEN then Err CE_LengthOverflow else
  let payload_len := required - GENERIC_HEADER_LEN in
  if u32_max <? payload_len then Err CE_LengthOverflow else
  let discriminant := frame_discriminant frame in
  let writer := mkWriter output 0 in
  let? writer := put_u8 PARTICIPANT_FRAME_TYPE writer in
  let? writer := put_u8 0 writer in
  let? writer := put_u32 0 writer in
  let? writer := put_u32 payload_len writer in
  let? writer := put_u16 (pv_major ProtocolVersion_V1) writer in
  let? writer := put_u16 (pv_minor ProtocolVersion_V1) writer in
  let? writer := put_u16 discriminant writer in
  let? writer := encode_body frame writer in
  Ok (required, w_output writer).

(** ** Decoding *)

Definition frame_header : M (Z * Z * Z) :=
  do! _frame_type <- take_u8;
  do! flags <- take_u8;
  do! stream_id <- take_u32;
  do! payload_len <- take_u32;
  mret' (flags, stream_id, payload_len).

(** The version and discriminant prefix; the rest of the payload is the body. *)
Definition frame_prefix (payload : list byte) : result (Z * list byte) CodecError :=
  let? (version, prefix) :=
    (do! major <- take_u16; do! minor <- take_u16; mret' (mkProtocolVersion major minor))
      (Reader_new payload) in
  if negb (bool_decide (version = ProtocolVersion_V1))
  then Err (CE_UnsupportedVersion version ProtocolVersion_V1)
  else
    let? (discriminant, prefix) := take_u16 prefix in
    Ok (discriminant, remaining_bytes prefix).

(** The registry of the receiver's direction: [match receiver] of [decode]. *)
Definition decode_body (receiver : ReceiverDirection) (discriminant : Z) (body : list byte)
    : result ParticipantFrame CodecError :=
  match receiver with
  | RD_Server =>
      let? tag := map_err (fun _ => decode_error DC_UnknownDiscriminant)
                    (tag_try_from (T := ClientDiscriminant) discriminant) in
      let? r := decode_client_request tag body in
      Ok (PF_ClientRequest r)
  | RD_Client =>
      match tag_try_from (T := PushDiscriminant) discriminant with
      | Ok tag => let? p := decode_server_push tag body in Ok (PF_ServerPush p)
      | Err _ =>
          match tag_try_from (T := ServerDiscriminant) discriminant with
          | Ok tag =>
              let? (value, _) := decode_server_value_body tag ProtocolVersion_V1 body in
              Ok (PF_ServerValue value)
          | Err _ => Err (decode_error DC_UnknownDiscriminant)
          end
      end
  end.

Definition decode (input : list byte) (receiver : ReceiverDirection)
    : result ParticipantFrame CodecError :=
  let? _ :=
    match input with
    | frame_type :: _ =>
        if byte.unsigned frame_type =? PARTICIPANT_FRAME_TYPE then Ok tt
        else Err (CE_NotParticipantFrame (byte.unsigned frame_type))
    | [] => Ok tt
    end in
  if blen input <? GENERIC_HEADER_LEN then Err (decode_error DC_Framing) else
  let? (flags, stream_id, payload_len, _) := frame_header (Reader_new input) in
  if negb (flags =? 0) || negb (stream_id =? 0) || (payload_len <? 6)
  then Err (decode_error DC_Framing) else
  let complete := complete_frame_bytes payload_len in
  if blen input <? complete then Err (decode_error DC_MissingRequiredField) else
  if complete <? blen input then Err (decode_error DC_CanonicalEncoding) else
  let payload := drop (Z.to_nat GENERIC_HEADER_LEN) (take (Z.to_nat complete) input) in
  let? (discriminant, body) := frame_prefix payload in
  decode_body receiver discriminant body.

(** ** The inbound gate *)

(** [input.get(6..10)], read as a big-endian [u32]. *)
Definition declared_complete_frame_bytes (input : list byte) : option Z :=
  if blen input <? GENERIC_HEADER_LEN then None
  else Some (complete_frame_bytes (from_be (take 4 (drop 6 input)))).

Definition gate_rejection (reason : TransportRejectionReason) : InboundGateError :=
  IGE_ParticipantRejected (mkParticipantTransportRejected reason).

Definition codec_gate_error (error : CodecError) : InboundGateError :=
  match error with
  | CE_NotParticipantFrame frame_type => IGE_NotParticipantFrame frame_type
  | CE_Decode class => gate_rejection (TRR_DecodeFailed class)
  | CE_UnsupportedVersion presented supported =>
      gate_rejection (TRR_UnsupportedVersion presented supported)
  | CE_OutputTooSmall _ _ | CE_LengthOverflow | CE_InvalidValue | CE_InvalidFrameLimit _ =>
      gate_rejection (TRR_DecodeFailed DC_InvalidField)
  end.

Definition max_frame_bytes (state : ParticipantCapabilityState) : Z :=
  match state with
  | PCS_Missing => PRECAP_PARTICIPANT_FRAME_MAX
  | PCS_Negotiated capability => vfl_get (npc_max_frame_bytes capability)
  end.

(** [matches!((&frame, receiver), (ServerValue(ParticipantTransportRejected(_)), Client))]. *)
Definition rejection_for_client (frame : ParticipantFrame) (receiver : ReceiverDirection) : bool :=
  match frame, receiver with
  | PF_ServerValue (SV_ParticipantTransportRejected _), RD_Client => true
  | _, _ => false
  end.

Definition gate_inbound (input : list byte) (context : InboundGateContext)
    : result ParticipantFrame InboundGateError :=
  let? _ :=
    match input with
    | frame_type :: _ =>
        if byte.unsigned frame_type =? PARTICIPANT_FRAME_TYPE then Ok tt
        else Err (IGE_NotParticipantFrame (byte.unsigned frame_type))
    | [] => Ok tt
    end in
  let limit := max_frame_bytes (igc_participant_capability context) in
  let? _ :=
    match declared_complete_frame_bytes input with
    | Some complete =>
        if limit <? complete then Err (gate_rejection (TRR_FrameTooLarge complete limit))
        else Ok tt
    | None => Ok tt
    end in
  let? frame := map_err codec_gate_error (decode input (igc_receiver context)) in
  if rejection_for_client frame (igc_receiver context) then Ok frame else
  match igc_authentication context with
  | AS_Unauthenticated => Err (gate_rejection TRR_AuthenticationFailed)
  | AS_Authenticated =>
      match igc_participant_capability context with
      | PCS_Missing => Err (gate_rejection TRR_ParticipantCapabilityRequired)
      | PCS_Negotiated _ => Ok frame
      end
  end.

(** ** What the encoder writes *)

(** The body bytes of a frame; [None] when a length field overflows. *)
Definition frame_body (f : ParticipantFrame) : option (list byte) :=
  match f with
  | PF_ClientRequest r => if request_fits r then Some (request_body r) else None
  | PF_ServerPush p => if push_fits p then Some (push_body p) else None
  | PF_ServerValue v =>
      match encode_server_value_body v ProtocolVersion_V1 with
      | Ok (_, body) => Some body
      | Err _ => None
      end
  end.

(** A complete frame around a body. *)
Definition frame_bytes (discriminant : Z) (body : list byte) : list byte :=
  be 1 PARTICIPANT_FRAME_TYPE ++ be 1 0 ++ be 4 0 ++ be 4 (PARTICIPANT_PREFIX_LEN + blen body)
  ++ be 2 1 ++ be 2 0 ++ be 2 discriminant ++ body.

Lemma blen_be n z : blen (be n z) = Z.of_nat n.
Proof. unfold blen. by rewrite length_be. Qed.

Lemma blen_frame_bytes d body : blen (frame_bytes d body) = 16 + blen body.
Proof. unfold frame_bytes. rewrite !blen_app, !blen_be. lia. Qed.

Lemma emits_body {S} `{LawfulSink S} f :
  emits (encode_body (S := S) f) (is_some (frame_body f)) (default [] (frame_body f)).
Proof.
  intros s Hs. destruct f as [r|v|p]; simpl.
  - pose proof (emits_client_request r s Hs). by destruct (request_fits r).
  - by destruct (encode_server_value_body v ProtocolVersion_V1) as [[d body]|].
  - pose proof (emits_server_push p s Hs). by destruct (push_fits p).
Qed.

Lemma encoded_len_spec f n : encoded_len f = Ok n <->
  exists body, frame_body f = Some body /\ n = 16 + blen body
               /\ PARTICIPANT_PREFIX_LEN + blen body <= u32_max.
Proof.
  pose proof (emits_body (S := SizeSink) f _ SizeSink_start_ok) as Hb.
  unfold encoded_len. destruct (frame_body f) as [body|]; simpl in *.
  - pose proof (blen_nonneg body). unfold put, SizeSink_sink in Hb; simpl in Hb.
    unfold checked_add, PARTICIPANT_PREFIX_LEN, GENERIC_HEADER_LEN in *.
    rewrite ?Z.add_0_l in Hb.
    unfold ok_or. destruct (encode_body f _) as [[len]|]; simpl in Hb;
      destruct (blen body <=? usize_max) eqn:?; simpl in Hb; simplify_eq; try done;
      csplit; simplify_eq; breflect; simpl in *; split;
      first [ intros [= <-]; exists body; repeat split; mlia
            | intros [=] | intros (? & [= <-] & -> & ?); first [f_equal; lia | mlia] ].
  - destruct (encode_body f _); [done|]. split; [done|]. by intros (? & ? & _).
Qed.

Lemma overwrite_start output bs : overwrite output 0 bs = bs ++ drop (length bs) output.
Proof. done. Qed.

(** The calls of [encode] on its writer, as one emission. *)
Lemma emits_frame f body : frame_body f = Some body ->
  emits (S := Writer) (fun w =>
    let? w := put_u8 PARTICIPANT_FRAME_TYPE w in
    let? w := put_u8 0 w in
    let? w := put_u32 0 w in
    let? w := put_u32 (16 + blen body - GENERIC_HEADER_LEN) w in
    let? w := put_u16 (pv_major ProtocolVersion_V1) w in
    let? w := put_u16 (pv_minor ProtocolVersion_V1) w in
    let? w := put_u16 (frame_discriminant f) w in
    encode_body f w) true (frame_bytes (frame_discriminant f) body).
Proof.
  intros Hb. replace (16 + blen body - GENERIC_HEADER_LEN) with (PARTICIPANT_PREFIX_LEN + blen body)
    by (unfold PARTICIPANT_PREFIX_LEN, GENERIC_HEADER_LEN; lia).
  unfold frame_bytes. do 7 (apply emits_then; [apply emits_put|]).
  pose proof (emits_body (S := Writer) f) as H. by rewrite Hb in H.
Qed.

Lemma encode_exact f output :
  blen output <= usize_max ->
  encode f output =
    match encoded_len f with
    | Err e => Err e
    | Ok n =>
        if blen output <? n then Err (CE_OutputTooSmall n (blen output))
        else Ok (n, frame_bytes (frame_discriminant f) (default [] (frame_body f))
                    ++ drop (Z.to_nat n) output)
    end.
Proof.
  intros Hout. unfold encode. destruct (encoded_len f) as [n|e] eqn:El; [|done].
  apply encoded_len_spec in El as (body & Hb & -> & Hfit). rewrite Hb; simpl.
  destruct (Z.ltb_spec (blen output) (16 + blen body)); [done|].
  pose proof (blen_nonneg body). unfold PARTICIPANT_PREFIX_LEN in Hfit.
  destruct (Z.ltb_spec (16 + blen body) GENERIC_HEADER_LEN);
    [unfold GENERIC_HEADER_LEN in *; lia|].
  destruct (Z.ltb_spec u32_max (16 + blen body - GENERIC_HEADER_LEN));
    [unfold GENERIC_HEADER_LEN in *; lia|].
  pose proof (blen_nonneg output).
  pose proof (emits_frame f body Hb _ (Writer_start_ok output Hout)) as He.
  rewrite Writer_put_Ok in He by (rewrite ?blen_frame_bytes; lia).
  apply result_agree_Ok in He. cbv beta in He. revert He.
  destruct (put_u8 _ _) as [w1|]; [|done]. destruct (put_u8 0 w1) as [w2|]; [|done].
  destruct (put_u32 0 w2) as [w3|]; [|done]. destruct (put_u32 _ w3) as [w4|]; [|done].
  destruct (put_u16 _ w4) as [w5|]; [|done]. destruct (put_u16 _ w5) as [w6|]; [|done].
  destruct (put_u16 _ w6) as [w7|]; [|done]. intros ->. simpl.
  rewrite overwrite_start. repeat f_equal.
  apply Nat2Z.inj. rewrite Z2Nat.id by lia. apply blen_frame_bytes.
Qed.

(** The complete behaviour of [encode]: it fails as [encoded_len] fails,
    it reports the exact required size when the buffer is too small, and
    otherwise it writes exactly [encoded_len] bytes, the frame of that body, at
    the start of the buffer and leaves the rest of the buffer as it was. *)
Theorem encode_spec f output :
  blen output <= usize_max ->
  encode f output =
    match encoded_len f with
    | Err e => Err e
    | Ok n =>
        if blen output <? n then Err (CE_OutputTooSmall n (blen output))
        else Ok (n, frame_bytes (frame_discriminant f) (default [] (frame_body f))
                    ++ drop (Z.to_nat n) output)
    end.
Proof. apply encode_exact. Qed.

Lemma encode_spec_witness :
  let f := PF_ServerPush (SP_MarkerSettled 5 6) in
  let buffer := repeat Byte.x00 40 in
  encode f buffer = Ok (32, frame_bytes (frame_discriminant f) (push_body (SP_MarkerSettled 5 6))
                            ++ repeat Byte.x00 8).
Proof. intros f buffer. rewrite (encode_spec f buffer) by ground. by vm_compute. Defined.

(** ** What the decoder accepts *)

Lemma parses_header ty fl st len : u8 ty -> u8 fl -> u32 st -> u32 len ->
  parses frame_header (be 1 ty ++ be 1 fl ++ be 4 st ++ be 4 len) (fl, st, len).
Proof. intros. unfold frame_header. parse_fields. Qed.

Lemma frame_prefix_shape ma mi d body : u16 ma -> u16 mi -> u16 d ->
  blen (be 2 ma ++ be 2 mi ++ be 2 d ++ body) <= usize_max ->
  frame_prefix (be 2 ma ++ be 2 mi ++ be 2 d ++ body) =
    if bool_decide (mkProtocolVersion ma mi = ProtocolVersion_V1) then Ok (d, body)
    else Err (CE_UnsupportedVersion (mkProtocolVersion ma mi) ProtocolVersion_V1).
Proof.
  intros Hma Hmi Hd Hlen. unfold frame_prefix.
  assert (parses (do! major <- take_u16; do! minor <- take_u16; mret' (mkProtocolVersion major minor))
    (be 2 ma ++ be 2 mi) (mkProtocolVersion ma mi)) as Hp by parse_fields.
  rewrite (app_assoc (be 2 ma)). change (Reader_new ?x) with (at_ [] x false).
  rewrite Hp by (simpl; by rewrite <- app_assoc). simpl.
  destruct (bool_decide _); simpl; [|done].
  rewrite parses_u16 by (done || by rewrite <- app_assoc).
  unfold remaining_bytes, at_; simpl. by rewrite drop_app_length.
Qed.

(** The decoder on an input with a whole generic header. *)
Lemma decode_shape ty fl st len rest r :
  u8 ty -> u8 fl -> u32 st -> u32 len ->
  blen (be 1 ty ++ be 1 fl ++ be 4 st ++ be 4 len ++ rest) <= usize_max ->
  decode (be 1 ty ++ be 1 fl ++ be 4 st ++ be 4 len ++ rest) r =
    if negb (ty =? PARTICIPANT_FRAME_TYPE) then Err (CE_NotParticipantFrame ty)
    else if negb (fl =? 0) || negb (st =? 0) || (len <? 6) then Err (decode_error DC_Framing)
    else if blen rest <? len then Err (decode_error DC_MissingRequiredField)
    else if len <? blen rest then Err (decode_error DC_CanonicalEncoding)
    else let? (d, body) := frame_prefix rest in decode_body r d body.
Proof.
  intros Hty Hfl Hst Hlen Hb. pose proof (parses_header ty fl st len Hty Hfl Hst Hlen) as Hp.
  remember (be 1 ty ++ be 1 fl ++ be 4 st ++ be 4 len) as hdr eqn:Eh.
  assert (be 1 ty ++ be 1 fl ++ be 4 st ++ be 4 len ++ rest = hdr ++ rest) as Ei
    by (subst hdr; by rewrite <- !app_assoc).
  rewrite Ei in *.
  assert (length hdr = 10%nat) as Hl by (subst hdr; rewrite !length_app, !length_be; done).
  destruct (be_one ty Hty) as (b & Eb & Hbt).
  assert (exists t, hdr = b :: t) as [t Et] by (subst hdr; rewrite Eb; simpl; eauto).
  unfold decode. rewrite Et at 1. cbn [app]. rewrite Hbt.
  destruct (ty =? PARTICIPANT_FRAME_TYPE); simpl; [|done].
  rewrite blen_app. replace (blen hdr) with 10 by (unfold blen; rewrite Hl; done).
  pose proof (blen_nonneg rest).
  destruct (Z.ltb_spec (10 + blen rest) GENERIC_HEADER_LEN); [unfold GENERIC_HEADER_LEN in *; lia|].
  change (Reader_new ?x) with (at_ [] x false). rewrite Hp by done. simpl.
  destruct (_ || _); [done|]. unfold complete_frame_bytes.
  destruct (Z.ltb_spec (10 + blen rest) (10 + len)), (Z.ltb_spec (blen rest) len); try lia; [done|].
  destruct (Z.ltb_spec (10 + len) (10 + blen rest)), (Z.ltb_spec len (blen rest)); try lia; [done|].
  rewrite (take_ge (hdr ++ rest)); [|rewrite length_app, Hl; unfold blen in *; lia].
  change (Z.to_nat GENERIC_HEADER_LEN) with 10%nat. by rewrite <- Hl, drop_app_length.
Qed.

Definition wf_frame (f : ParticipantFrame) : Prop :=
  match f with
  | PF_ClientRequest r => wf_request r
  | PF_ServerValue v => wf_server_value v
  | PF_ServerPush p => wf_push p
  end.

(** The direction that is assigned the frame. *)
Definition frame_receiver (f : ParticipantFrame) : ReceiverDirection :=
  match f with PF_ClientRequest _ => RD_Server | _ => RD_Client end.

(** The two server-to-client registries do not overlap, so trying pushes first
    hides no server value. *)
Lemma push_server_disjoint (d : ServerDiscriminant) :
  exists e, tag_try_from (T := PushDiscriminant) (wire_value d) = Err e.
Proof. destruct d; by eexists. Qed.

Lemma decode_body_parses f body : wf_frame f -> frame_body f = Some body ->
  blen body <= usize_max ->
  decode_body (frame_receiver f) (frame_discriminant f) body = Ok f.
Proof.
  intros Hwf Hb Hlen. destruct f as [r|v|p];
    unfold frame_body, wf_frame, frame_receiver, frame_discriminant, decode_body in *.
  - destruct (request_fits r) eqn:E; simplify_eq. rewrite tag_try_from_wire; simpl.
    unfold decode_client_request. by rewrite (run_body_parses _ _ _ (parses_request r Hwf E)).
  - destruct (encode_server_value_body v _) as [[d b]|] eqn:E; simplify_eq.
    destruct (push_server_disjoint (server_discriminant v)) as [e ->].
    rewrite tag_try_from_wire. pose proof (parses_server_value v d body Hwf E) as [-> _].
    by rewrite (decode_server_value_parses _ _ _ Hwf E Hlen).
  - destruct (push_fits p) eqn:E; simplify_eq. rewrite tag_try_from_wire; simpl.
    unfold decode_server_push. by rewrite (run_body_parses _ _ _ (parses_push p Hwf E)).
Qed.

Lemma decode_body_reads r d body f : u16 d -> decode_body r d body = Ok f ->
  wf_frame f /\ frame_body f = Some body /\ frame_discriminant f = d /\ frame_receiver f = r.
Proof.
  intros Hd H. unfold decode_body in H. destruct r.
  - destruct (tag_try_from d) as [tag|] eqn:Et; [simpl in H|done].
    apply tag_try_from_Ok in Et. destruct (decode_client_request tag body) as [q|] eqn:E; simplify_eq.
    destruct (run_body_reads _ _ _ _ (reads_request tag) E) as (-> & Hwf & Hfit & <-).
    simpl. by rewrite Hfit.
  - destruct (tag_try_from d) as [tag|] eqn:Et.
    + apply tag_try_from_Ok in Et. destruct (decode_server_push tag body) as [q|] eqn:E; simplify_eq.
      destruct (run_body_reads _ _ _ _ (reads_push tag) E) as (-> & Hwf & Hfit & <-).
      simpl. by rewrite Hfit.
    + clear Et. destruct (tag_try_from d) as [tag|] eqn:Et; [|done]. apply tag_try_from_Ok in Et.
      destruct (decode_server_value_body tag _ body) as [[v w]|] eqn:E; simplify_eq.
      apply decode_server_value_reads in E as (He & Hwf & _). simpl. rewrite He.
      destruct (parses_server_value v _ _ Hwf He) as [-> _]. done.
Qed.

Lemma frame_discriminant_u16 f : u16 (frame_discriminant f).
Proof. destruct f; apply wire_value_u16. Qed.

Lemma decode_frame_bytes r d body : u16 d -> PARTICIPANT_PREFIX_LEN + blen body <= u32_max ->
  decode (frame_bytes d body) r = decode_body r d body.
Proof.
  intros Hd Hfit. pose proof (blen_nonneg body).
  pose proof (blen_frame_bytes d body) as Hl. unfold frame_bytes, PARTICIPANT_PREFIX_LEN in *.
  rewrite decode_shape; [|unfold PARTICIPANT_FRAME_TYPE; mlia | mlia | mlia | mlia | rewrite Hl; mlia].
  rewrite !blen_app, !blen_be. simpl. change (Z.of_nat 2) with 2.
  destruct (Z.ltb_spec (6 + blen body) 6); [lia|].
  destruct (Z.ltb_spec (2 + (2 + (2 + blen body))) (6 + blen body)); [lia|].
  destruct (Z.ltb_spec (6 + blen body) (2 + (2 + (2 + blen body)))); [lia|].
  rewrite frame_prefix_shape; [by rewrite bool_decide_eq_true_2 | mlia | mlia | done |]. rewrite !blen_app, !blen_be. mlia.
Qed.

(** Every accepted input is the frame of one discriminant and one body. *)
Lemma decode_Ok_inv input r f : blen input <= usize_max -> decode input r = Ok f ->
  exists d body, input = frame_bytes d body /\ u16 d
    /\ PARTICIPANT_PREFIX_LEN + blen body <= u32_max /\ decode_body r d body = Ok f.
Proof.
  intros Hin H. destruct (Z.lt_ge_cases (blen input) GENERIC_HEADER_LEN) as [Hs|Hs].
  { unfold decode in H. rewrite (proj2 (Z.ltb_lt _ _) Hs) in H.
    destruct input as [|b t]; [done|]. by destruct (byte.unsigned b =? _). }
  unfold GENERIC_HEADER_LEN, blen in Hs.
  destruct (split_be 1 input) as (ty & i1 & -> & Hty); [lia|]. rewrite length_app, length_be in Hs.
  destruct (split_be 1 i1) as (fl & i2 & -> & Hfl); [lia|]. rewrite length_app, length_be in Hs.
  destruct (split_be 4 i2) as (st & i3 & -> & Hst); [lia|]. rewrite length_app, length_be in Hs.
  destruct (split_be 4 i3) as (len & i4 & -> & Hlen); [lia|].
  simpl in Hty, Hfl, Hst, Hlen. rewrite decode_shape in H; [|mlia..|done].
  destruct (Z.eqb_spec ty PARTICIPANT_FRAME_TYPE) as [->|]; [simpl in H|done].
  destruct (_ || _) eqn:Hf; [done|]. breflect. subst fl st.
  destruct (Z.ltb_spec (blen i4) len); [done|]. destruct (Z.ltb_spec len (blen i4)); [done|].
  assert (len = blen i4) as -> by lia. unfold blen in *.
  destruct (split_be 2 i4) as (ma & i5 & -> & Hma); [lia|]. rewrite length_app, length_be in *.
  destruct (split_be 2 i5) as (mi & i6 & -> & Hmi); [lia|]. rewrite length_app, length_be in *.
  destruct (split_be 2 i6) as (d & body & -> & Hd); [lia|]. rewrite length_app, length_be in *.
  simpl in Hma, Hmi, Hd.
  rewrite frame_prefix_shape in H; [|mlia..|rewrite !blen_app, !blen_be in *; unfold blen in *; mlia].
  destruct (bool_decide _) eqn:Ev; [|done]. apply bool_decide_eq_true in Ev.
  injection Ev as -> ->. exists d, body. unfold frame_bytes, PARTICIPANT_PREFIX_LEN, blen.
  split; [|split; [mlia | split; [mlia | done]]]. repeat f_equal. lia.
Qed.

(** C1: what [encode] writes, [decode] reads back: on every well-formed frame
    and every buffer large enough, the written prefix decodes, in the frame's
    direction, to the frame. *)
Theorem frame_roundtrip f output n output' :
  wf_frame f -> blen output <= usize_max ->
  encode f output = Ok (n, output') ->
  decode (take (Z.to_nat n) output') (frame_receiver f) = Ok f.
Proof.
  intros Hwf Hout H. rewrite encode_exact in H by done.
  destruct (encoded_len f) as [m|] eqn:El; [|done].
  apply encoded_len_spec in El as (body & Hb & -> & Hfit). rewrite Hb in H. simpl in H.
  destruct (Z.ltb_spec (blen output) (16 + blen body)); [done|]. simplify_eq.
  rewrite <- blen_frame_bytes with (d := frame_discriminant f). unfold blen at 1.
  rewrite Nat2Z.id, take_app_length.
  rewrite decode_frame_bytes by (done || apply frame_discriminant_u16).
  apply decode_body_parses; [done..|]. unfold PARTICIPANT_PREFIX_LEN in *. mlia.
Qed.

Lemma frame_roundtrip_witness :
  let f := PF_ClientRequest (CR_ParticipantAck (mkParticipantAck 1 2 3 4)) in
  exists output', encode f (repeat Byte.xff 60) = Ok (48, output')
    /\ decode (take 48 output') RD_Server = Ok f.
Proof.
  eexists. split; [vm_compute; reflexivity|].
  eapply (frame_roundtrip (PF_ClientRequest (CR_ParticipantAck (mkParticipantAck 1 2 3 4)))
            (repeat Byte.xff 60) 48); [ground | ground | vm_compute; reflexivity].
Defined.


(** C2: the frame decoder is canonical: an input it accepts in some direction is
    exactly what [encode] writes for the frame it returns, into any buffer of
    that size; the frame is well formed and belongs to that direction. *)
Theorem frame_canonical input r f output :
  blen input <= usize_max -> blen output = blen input ->
  decode input r = Ok f ->
  wf_frame f /\ frame_receiver f = r /\ encode f output = Ok (blen input, input).
Proof.
  intros Hin Hout H. apply decode_Ok_inv in H as (d & body & -> & Hd & Hfit & H); [|done].
  apply decode_body_reads in H as (Hwf & Hb & <- & Hr); [|done]. split; [done|]. split; [done|].
  rewrite encode_exact by lia. rewrite blen_frame_bytes in *.
  rewrite (proj2 (encoded_len_spec f (16 + blen body))) by eauto.
  rewrite Hout, Z.ltb_irrefl, Hb. simpl. rewrite drop_ge; [by rewrite app_nil_r|].
  unfold blen in *. lia.
Qed.

Lemma frame_canonical_witness :
  let input := frame_bytes 514 (be 8 5 ++ be 8 6) in
  let f := PF_ServerPush (SP_MarkerSettled 5 6) in
  decode input RD_Client = Ok f /\ encode f (repeat Byte.x00 32) = Ok (blen input, input).
Proof.
  intros input f. assert (decode input RD_Client = Ok f) as H by (by vm_compute).
  split; [exact H|].
  by apply (frame_canonical input RD_Client f (repeat Byte.x00 32)) in H as (_ & _ & He); [|ground..].
Defined.


(** ** The gate *)

(** The outer type and the declared size are functions of the first ten bytes. *)
Lemma gate_header ty fl st len rest : u8 ty -> u32 len ->
  let input := be 1 ty ++ be 1 fl ++ be 4 st ++ be 4 len ++ rest in
  (exists b t, input = b :: t /\ byte.unsigned b = ty)
  /\ declared_complete_frame_bytes input = Some (complete_frame_bytes len).
Proof.
  intros Hty Hlen input. destruct (be_one ty Hty) as (b & Eb & Hb). split.
  { exists b. unfold input. rewrite Eb. simpl. eauto. }
  unfold declared_complete_frame_bytes, GENERIC_HEADER_LEN. pose proof (blen_nonneg rest).
  destruct (Z.ltb_spec (blen input) 10);
    [unfold input in *; rewrite !blen_app, !blen_be in *; lia|].
  unfold input. rewrite (app_assoc (be 4 st)), (app_assoc (be 1 fl)), (app_assoc (be 1 ty)).
  assert (length (be 1 ty ++ be 1 fl ++ be 4 st ++ be 4 len) = 10%nat) as Hl
    by (rewrite !length_app, !length_be; done).
  replace (drop 6 _) with (be 4 len ++ rest).
  - rewrite take_app_le by (rewrite length_be; lia). rewrite take_ge by (rewrite length_be; lia).
    rewrite from_be_be; [done|]. simpl. mlia.
  - rewrite <- !app_assoc. rewrite (app_assoc (be 1 fl)), (app_assoc (be 1 ty)).
    by rewrite drop_app_length' by (rewrite !length_app, !length_be; done).
Qed.

(** An oversized participant frame is refused from its header alone: when
    the first ten bytes announce a participant frame larger than the limit in
    force, the verdict is [FrameTooLarge] with the announced size, whatever
    bytes follow and whoever receives it, so the body is never interpreted. *)
Theorem gate_oversize_from_header fl st len rest context :
  u32 len ->
  max_frame_bytes (igc_participant_capability context) < complete_frame_bytes len ->
  gate_inbound (be 1 PARTICIPANT_FRAME_TYPE ++ be 1 fl ++ be 4 st ++ be 4 len ++ rest) context
  = Err (gate_rejection (TRR_FrameTooLarge (complete_frame_bytes len)
           (max_frame_bytes (igc_participant_capability context)))).
Proof.
  intros Hlen Hlimit.
  destruct (gate_header PARTICIPANT_FRAME_TYPE fl st len rest) as ((b & t & Ei & Hb) & Hd);
    [unfold PARTICIPANT_FRAME_TYPE; mlia | done |].
  unfold gate_inbound. rewrite Hd, Ei, Hb. simpl.
  by rewrite (proj2 (Z.ltb_lt _ _) Hlimit).
Qed.

Lemma gate_oversize_from_header_witness :
  gate_inbound (be 1 26 ++ be 1 0 ++ be 4 0 ++ be 4 1048567 ++ [Byte.xff])
    (mkInboundGateContext RD_Server AS_Authenticated PCS_Missing)
  = Err (gate_rejection (TRR_FrameTooLarge 1048577 1048576)).
Proof.
  apply (gate_oversize_from_header 0 0 1048567 [Byte.xff]
           (mkInboundGateContext RD_Server AS_Authenticated PCS_Missing)); ground.
Defined.

Lemma declared_frame_bytes d body : PARTICIPANT_PREFIX_LEN + blen body <= u32_max ->
  declared_complete_frame_bytes (frame_bytes d body) = Some (blen (frame_bytes d body))
  /\ exists b t, frame_bytes d body = b :: t /\ byte.unsigned b = PARTICIPANT_FRAME_TYPE.
Proof.
  intros Hfit. pose proof (blen_nonneg body). unfold PARTICIPANT_PREFIX_LEN in Hfit.
  rewrite blen_frame_bytes. unfold frame_bytes, PARTICIPANT_PREFIX_LEN.
  destruct (gate_header PARTICIPANT_FRAME_TYPE 0 0 (6 + blen body)
    (be 2 1 ++ be 2 0 ++ be 2 d ++ body)) as (Hb & Hd);
    [unfold PARTICIPANT_FRAME_TYPE; mlia | mlia |].
  rewrite Hd. split; [|done]. unfold complete_frame_bytes. f_equal. lia.
Qed.

(** C3: exactly which inputs pass the inbound gate: those that decode to the
    returned frame in the receiver's direction, whose actual length is within the
    limit in force (the negotiated one, or the fixed ceiling before negotiation),
    on an authenticated connection with a negotiated capability; the one frame
    let through without these is a transport rejection received by a client. *)
Theorem gate_accepts_iff input context f :
  blen input <= usize_max ->
  gate_inbound input context = Ok f <->
  decode input (igc_receiver context) = Ok f
  /\ blen input <= max_frame_bytes (igc_participant_capability context)
  /\ (rejection_for_client f (igc_receiver context) = true
      \/ igc_authentication context = AS_Authenticated
         /\ exists c, igc_participant_capability context = PCS_Negotiated c).
Proof.
  intros Hin.
  assert (forall g, decode input (igc_receiver context) = Ok g ->
    declared_complete_frame_bytes input = Some (blen input)
    /\ exists b t, input = b :: t /\ byte.unsigned b = PARTICIPANT_FRAME_TYPE) as Hdec.
  { intros g Hg. apply decode_Ok_inv in Hg as (d & body & -> & _ & Hfit & _); [|done].
    by apply declared_frame_bytes. }
  unfold gate_inbound. destruct (decode input (igc_receiver context)) as [g|e] eqn:Ed.
  - destruct (Hdec g eq_refl) as (-> & b & t & -> & Hb). rewrite Hb, Z.eqb_refl. simpl.
    destruct (Z.ltb_spec (max_frame_bytes (igc_participant_capability context)) (blen (b :: t)));
      [split; [done|]; intros (_ & ? & _); lia|].
    destruct (rejection_for_client g _) eqn:Er.
    { split; [intros [= <-]; auto | by intros ([= <-] & _)]. }
    destruct (igc_authentication context), (igc_participant_capability context); split;
      try done; try (intros ([= <-] & _ & [?|[? [? ?]]]); congruence).
    intros [= <-]. eauto 10.
  - split; [|by intros (? & _)]. intros H. exfalso.
    destruct (declared_complete_frame_bytes input) as [n|]; [destruct (_ <? n)|];
      destruct input as [|b t]; try done; simpl in H; by destruct (_ =? _).
Qed.

Lemma gate_accepts_iff_witness :
  let context := mkInboundGateContext RD_Client AS_Unauthenticated PCS_Missing in
  let f := PF_ServerValue (SV_ParticipantTransportRejected
             (mkParticipantTransportRejected TRR_AuthenticationFailed)) in
  let input := frame_bytes 256 (enc_tag TR_AuthenticationFailed) in
  gate_inbound input context = Ok f.
Proof.
  intros context f input. apply (gate_accepts_iff input context f); [ground|].
  split; [by vm_compute|]. split; [ground|]. by left.
Defined.
