(* ===== verification/Order.v ===== *)
(** * Transaction-order admission

    Model of [liminal-protocol/src/lifecycle/admission/order.rs]: the four claim
    classes [A], [X], [RO], [RA], the persisted ledger, the claim planners and
    [allocate_order].  The theorems: the ledger invariant (every unmaterialized
    claim owns a remaining major, the recovery pair is coupled) holds on every
    run, majors are handed out consecutively from zero and never twice, and a
    reserved recovery always succeeds. *)
From S2P Require Import Prelude Algebra Tags Wire Response.

Record OrderClaims := mkOrderClaims {
  oc_active_binding_terminals : Z;
  oc_membership_exits : Z;
  oc_recovery_operation : bool;
  oc_recovery_replacement_terminal : bool;
}.

Inductive OrderClaimsInvariantError :=
| OCI_RecoveryPairMismatch (recovery_operation recovery_replacement_terminal : bool).

Definition OrderClaims_new (active_binding_terminals membership_exits : Z)
    (recovery_operation recovery_replacement_terminal : bool)
    : result OrderClaims OrderClaimsInvariantError :=
  if negb (Bool.eqb recovery_operation recovery_replacement_terminal) then
    Err (OCI_RecoveryPairMismatch recovery_operation recovery_replacement_terminal)
  else Ok (mkOrderClaims active_binding_terminals membership_exits recovery_operation
             recovery_replacement_terminal).

(** [A + X + RO + RA], in [u128]. *)
Definition oc_total (c : OrderClaims) : Z :=
  add_u128 (add_u128 (add_u128 (oc_active_binding_terminals c) (oc_membership_exits c))
              (of_bool (oc_recovery_operation c)))
    (of_bool (oc_recovery_replacement_terminal c)).

Inductive OrderHigh :=
| OH_Empty
| OH_Allocated (high : TransactionOrder).

Definition remaining_after (high : OrderHigh) : Z :=
  match high with
  | OH_Empty => add_u128 u64_max 1
  | OH_Allocated high => sub_u64 u64_max high
  end.

Inductive OrderLedgerInvariantError :=
| OLI_ClaimsExceedRemaining (remaining claims : Z).

Record OrderLedger := mkOrderLedger {
  ol_high : OrderHigh;
  ol_claims : OrderClaims;
}.

Definition OrderLedger_try_new (high : OrderHigh) (claims : OrderClaims)
    : result OrderLedger OrderLedgerInvariantError :=
  let remaining := remaining_after high in
  let claim_count := oc_total claims in
  if remaining <? claim_count then Err (OLI_ClaimsExceedRemaining remaining claim_count)
  else Ok (mkOrderLedger high claims).

Definition ol_remaining (l : OrderLedger) : Z := remaining_after (ol_high l).

(** [ResultingOrderClaims]: sealed post-operation claims. *)
Record ResultingOrderClaims := mkResultingOrderClaims { roc_claims : OrderClaims }.

Record OrderAllocation := mkOrderAllocation {
  oa_major : TransactionOrder;
  oa_resulting : OrderLedger;
}.

Inductive OrderAdmissionError :=
| OAX_Exhausted (v : ConversationOrderExhausted)
| OAX_InitialClaimsExceedRemaining (remaining resulting_claims : Z)
| OAX_ActiveBindingClaimOverflow
| OAX_MembershipExitClaimOverflow
| OAX_RecoveryOrderReserveAlreadyPresent
| OAX_RecoveryOrderReserveMissing (recovery_operation recovery_replacement_terminal : bool).

Definition ol_ensure_quartet_can_be_endowed (l : OrderLedger) (endow_recovery_quartet : bool)
    : result unit OrderAdmissionError :=
  if endow_recovery_quartet
     && (oc_recovery_operation (ol_claims l) || oc_recovery_replacement_terminal (ol_claims l))
  then Err OAX_RecoveryOrderReserveAlreadyPresent
  else Ok tt.

Definition ol_plan_enrollment_with_recovery_quartet (l : OrderLedger)
    (endow_recovery_quartet : bool) : result ResultingOrderClaims OrderAdmissionError :=
  let? _ := ol_ensure_quartet_can_be_endowed l endow_recovery_quartet in
  let? active_binding_terminals :=
    ok_or (checked_add u64_max (oc_active_binding_terminals (ol_claims l)) 1)
      OAX_ActiveBindingClaimOverflow in
  let? membership_exits :=
    ok_or (checked_add u64_max (oc_membership_exits (ol_claims l)) 1)
      OAX_MembershipExitClaimOverflow in
  Ok (mkResultingOrderClaims (mkOrderClaims active_binding_terminals membership_exits
        (oc_recovery_operation (ol_claims l) || endow_recovery_quartet)
        (oc_recovery_replacement_terminal (ol_claims l) || endow_recovery_quartet))).

Definition ol_plan_ordinary_record (l : OrderLedger) : ResultingOrderClaims :=
  mkResultingOrderClaims (ol_claims l).

Definition ol_apply_fenced_recovery (l : OrderLedger) : result OrderLedger OrderAdmissionError :=
  if negb (oc_recovery_operation (ol_claims l))
     || negb (oc_recovery_replacement_terminal (ol_claims l))
  then Err (OAX_RecoveryOrderReserveMissing (oc_recovery_operation (ol_claims l))
              (oc_recovery_replacement_terminal (ol_claims l)))
  else
    let? active_binding_terminals :=
      ok_or (checked_add u64_max (oc_active_binding_terminals (ol_claims l)) 1)
        OAX_ActiveBindingClaimOverflow in
    Ok (mkOrderLedger (ol_high l)
          (mkOrderClaims active_binding_terminals (oc_membership_exits (ol_claims l))
             false false)).

Definition ol_apply_fenced_recovery_finalizing_pending (l : OrderLedger)
    : result OrderLedger OrderAdmissionError := ol_apply_fenced_recovery l.

Definition allocate_order (request : OrderAllocatingEnvelope) (current : OrderLedger)
    (resulting : ResultingOrderClaims) : result OrderAllocation OrderAdmissionError :=
  let resulting_claims := roc_claims resulting in
  let resulting_claim_count := oc_total resulting_claims in
  match ol_high current with
  | OH_Empty =>
      let major := 0 in
      let resulting_remaining := u64_max in
      if resulting_remaining <? resulting_claim_count then
        Err (OAX_InitialClaimsExceedRemaining resulting_remaining resulting_claim_count)
      else Ok (mkOrderAllocation major (mkOrderLedger (OH_Allocated major) resulting_claims))
  | OH_Allocated high =>
      let order_remaining := ol_remaining current in
      let reserved_claims := oc_total (ol_claims current) in
      let next := checked_add u64_max high 1 in
      let resulting_order_remaining :=
        match next with None => 0 | Some _ => sub_u128 order_remaining 1 end in
      match next with
      | None =>
          Err (OAX_Exhausted (mkConversationOrderExhausted request high order_remaining
                 reserved_claims resulting_order_remaining resulting_claim_count))
      | Some major =>
          if resulting_order_remaining <? resulting_claim_count then
            Err (OAX_Exhausted (mkConversationOrderExhausted request high order_remaining
                   reserved_claims resulting_order_remaining resulting_claim_count))
          else Ok (mkOrderAllocation major (mkOrderLedger (OH_Allocated major) resulting_claims))
      end
  end.

(** ** Invariant *)

Definition claims_ok (c : OrderClaims) : Prop :=
  u64 (oc_active_binding_terminals c) /\ u64 (oc_membership_exits c)
  /\ oc_recovery_operation c = oc_recovery_replacement_terminal c.

(** Exact values of the two counters. *)
Definition claims_total (c : OrderClaims) : Z :=
  oc_active_binding_terminals c + oc_membership_exits c
  + of_bool (oc_recovery_operation c) + of_bool (oc_recovery_replacement_terminal c).
Definition high_ok (h : OrderHigh) : Prop :=
  match h with OH_Empty => True | OH_Allocated h => u64 h end.
(** The next major to be allocated. *)
Definition next_major (h : OrderHigh) : Z :=
  match h with OH_Empty => 0 | OH_Allocated h => h + 1 end.

Definition ledger_ok (l : OrderLedger) : Prop :=
  high_ok (ol_high l) /\ claims_ok (ol_claims l)
  /\ claims_total (ol_claims l) <= u64_max + 1 - next_major (ol_high l).

Lemma oc_total_exact c : claims_ok c -> oc_total c = claims_total c.
Proof.
  intros (? & ? & _). unfold oc_total, claims_total.
  pose proof (of_bool_range (oc_recovery_operation c)).
  pose proof (of_bool_range (oc_recovery_replacement_terminal c)).
  rewrite (add_u128_exact (oc_active_binding_terminals c)) by mlia.
  by rewrite !add_u128_exact by (rewrite ?add_u128_exact; mlia).
Qed.

Lemma remaining_after_exact h : high_ok h -> remaining_after h = u64_max + 1 - next_major h.
Proof.
  destruct h; simpl; intros; [done|]. rewrite sub_u64_exact by mlia. mlia.
Qed.

Lemma claims_total_nonneg c : claims_ok c -> 0 <= claims_total c.
Proof.
  intros (? & ? & _). unfold claims_total.
  pose proof (of_bool_range (oc_recovery_operation c)).
  pose proof (of_bool_range (oc_recovery_replacement_terminal c)). mlia.
Qed.

(** [try_new] is the invariant. *)
Lemma OrderLedger_try_new_spec h c : high_ok h -> claims_ok c ->
  OrderLedger_try_new h c = Ok (mkOrderLedger h c) <-> ledger_ok (mkOrderLedger h c).
Proof.
  intros Hh Hc. unfold OrderLedger_try_new, ledger_ok; simpl.
  rewrite oc_total_exact, remaining_after_exact by done.
  destruct (Z.ltb_spec (u64_max + 1 - next_major h) (claims_total c)); split; try done;
    intros; destruct_and?; lia.
Qed.

Lemma allocate_order_Ok request l r a : ledger_ok l -> claims_ok (roc_claims r) ->
  allocate_order request l r = Ok a <->
  a = mkOrderAllocation (next_major (ol_high l))
        (mkOrderLedger (OH_Allocated (next_major (ol_high l))) (roc_claims r))
  /\ next_major (ol_high l) <= u64_max
  /\ claims_total (roc_claims r) <= u64_max - next_major (ol_high l).
Proof.
  intros (Hh & Hc & Hl) Hr. pose proof (claims_total_nonneg _ Hr).
  unfold allocate_order, ol_remaining. rewrite (oc_total_exact (roc_claims r)) by done.
  destruct (ol_high l) as [|h] eqn:Eh; simpl in *.
  - destruct (Z.ltb_spec u64_max (claims_total (roc_claims r))); split; intros; destruct_and?;
      simplify_eq; try (split; [done|mlia]); try done; mlia.
  - rewrite sub_u64_exact by mlia. unfold checked_add.
    destruct (Z.leb_spec (h + 1) u64_max).
    + rewrite sub_u128_exact by mlia.
      destruct (Z.ltb_spec (u64_max - h - 1) (claims_total (roc_claims r))); split; intros;
        destruct_and?; simplify_eq; try (split; [done|mlia]); try done; mlia.
    + split; [done|]. intros; destruct_and?. mlia.
Qed.

Lemma allocate_order_ok request l r a : ledger_ok l -> claims_ok (roc_claims r) ->
  allocate_order request l r = Ok a -> ledger_ok (oa_resulting a).
Proof.
  intros Hl Hr H. apply allocate_order_Ok in H as (-> & ? & ?); [|done..].
  destruct Hl as (Hh & _). unfold ledger_ok; simpl.
  split; [|split; [done|lia]]. destruct (ol_high l); simpl in *; mlia.
Qed.

Lemma plan_enrollment_ok l q r : ledger_ok l ->
  ol_plan_enrollment_with_recovery_quartet l q = Ok r -> claims_ok (roc_claims r).
Proof.
  intros (_ & (Ha & Hx & Hp) & _) H. unfold ol_plan_enrollment_with_recovery_quartet in H.
  destruct (ol_ensure_quartet_can_be_endowed l q); [|done].
  unfold checked_add, ok_or in H. csplit_in H. breflect. simplify_eq.
  unfold claims_ok; simpl. rewrite Hp. repeat split; mlia.
Qed.

Lemma apply_fenced_recovery_ok l : ledger_ok l ->
  oc_recovery_operation (ol_claims l) = true ->
  ol_apply_fenced_recovery l =
    Ok (mkOrderLedger (ol_high l)
          (mkOrderClaims (oc_active_binding_terminals (ol_claims l) + 1)
             (oc_membership_exits (ol_claims l)) false false))
  /\ ledger_ok (mkOrderLedger (ol_high l)
          (mkOrderClaims (oc_active_binding_terminals (ol_claims l) + 1)
             (oc_membership_exits (ol_claims l)) false false))
  /\ claims_total (mkOrderClaims (oc_active_binding_terminals (ol_claims l) + 1)
             (oc_membership_exits (ol_claims l)) false false) = claims_total (ol_claims l) - 1.
Proof.
  intros (Hh & (Ha & Hx & Hp) & Hl) Hro. unfold ol_apply_fenced_recovery.
  unfold ledger_ok, claims_ok, claims_total in *. simpl in *. rewrite <- Hp, Hro in *. simpl in *.
  assert (0 <= next_major (ol_high l)) by (destruct (ol_high l); simpl in *; mlia).
  rewrite checked_add_exact by mlia. simpl. repeat split; try done; try mlia.
Qed.

(** ** Runs *)

(** The transitions of the order ledger: a planned operation that allocates a
    caller major, and the fenced recovery, which allocates none. *)
Inductive order_step : OrderLedger -> option TransactionOrder -> OrderLedger -> Prop :=
| step_enrollment l q request r a :
    ol_plan_enrollment_with_recovery_quartet l q = Ok r ->
    allocate_order request l r = Ok a ->
    order_step l (Some (oa_major a)) (oa_resulting a)
| step_ordinary_record l request a :
    allocate_order request l (ol_plan_ordinary_record l) = Ok a ->
    order_step l (Some (oa_major a)) (oa_resulting a)
| step_fenced_recovery l l' :
    ol_apply_fenced_recovery l = Ok l' ->
    order_step l None l'.

(** A run and the majors it allocated, in order. *)
Inductive order_run (l : OrderLedger) : list TransactionOrder -> OrderLedger -> Prop :=
| run_nil : order_run l [] l
| run_step ms l1 o l2 :
    order_run l ms l1 -> order_step l1 o l2 ->
    order_run l (ms ++ match o with Some m => [m] | None => [] end) l2.

Lemma order_step_ok l o l' : ledger_ok l -> order_step l o l' ->
  ledger_ok l' /\ match o with
                  | Some m => m = next_major (ol_high l) /\ next_major (ol_high l') = m + 1
                              /\ m <= u64_max
                  | None => ol_high l' = ol_high l
                  end.
Proof.
  intros Hl Hs. revert Hl.
  destruct Hs as [l0 q request r a Hp Ha|l0 request a Ha|l0 l1 Ha]; intros Hl.
  - pose proof (plan_enrollment_ok _ _ _ Hl Hp) as Hr.
    pose proof (allocate_order_ok _ _ _ _ Hl Hr Ha).
    apply allocate_order_Ok in Ha as (-> & ? & ?); done.
  - assert (claims_ok (roc_claims (ol_plan_ordinary_record l0))) as Hr by apply Hl.
    pose proof (allocate_order_ok _ _ _ _ Hl Hr Ha).
    apply allocate_order_Ok in Ha as (-> & ? & ?); done.
  - destruct (oc_recovery_operation (ol_claims l0)) eqn:E.
    + destruct (apply_fenced_recovery_ok l0 Hl E) as (E' & ? & _). rewrite E' in Ha. by simplify_eq.
    + unfold ol_apply_fenced_recovery in Ha. by rewrite E in Ha.
Qed.

Lemma order_run_ok l ms l' : ledger_ok l -> order_run l ms l' -> ledger_ok l'.
Proof. induction 2 as [|? ? ? ? ? IH Hs]; [done|]. by apply order_step_ok in Hs as [? _]. Qed.

(** Transaction orders are never reused: on every run of enrollments,
    record admissions and recoveries that starts on a fresh conversation, the
    majors handed out are exactly [0, 1, 2, ...] in order, all of them within
    [u64], and the ledger invariant holds at the end. *)
Theorem order_majors_consecutive claims ms l :
  ledger_ok (mkOrderLedger OH_Empty claims) ->
  order_run (mkOrderLedger OH_Empty claims) ms l ->
  ms = map Z.of_nat (seq 0 (length ms)) /\ next_major (ol_high l) = Z.of_nat (length ms)
  /\ ledger_ok l.
Proof.
  intros Hl Hrun. induction Hrun as [|ms l1 o l2 Hrun IH Hstep]; [done|].
  destruct IH as (Hms & Hn & Hl1). apply order_step_ok in Hstep as [Hl2 Ho]; [|done].
  destruct o as [m|]; [|rewrite app_nil_r, Ho; done].
  destruct Ho as (-> & Hn' & _). rewrite Hn in *. rewrite length_app; simpl.
  rewrite seq_app, map_app, <- Hms. simpl. split; [done|]. split; [lia|done].
Qed.

Lemma order_majors_consecutive_witness :
  exists ms l, ms = [0; 1]
    /\ order_run (mkOrderLedger OH_Empty (mkOrderClaims 0 0 false false)) ms l
    /\ ms = map Z.of_nat (seq 0 (length ms)).
Proof.
  assert (order_run (mkOrderLedger OH_Empty (mkOrderClaims 0 0 false false)) [0; 1]
    (mkOrderLedger (OH_Allocated 1) (mkOrderClaims 1 1 true true))) as Hrun.
  { apply (run_step _ [0] (mkOrderLedger (OH_Allocated 0) (mkOrderClaims 1 1 true true)) (Some 1)).
    - apply (run_step _ [] (mkOrderLedger OH_Empty (mkOrderClaims 0 0 false false)) (Some 0));
        [constructor|].
      by apply (step_enrollment _ true (OAE_Enrollment (mkEnrollmentEnvelope 1 []))
        (mkResultingOrderClaims (mkOrderClaims 1 1 true true)) (mkOrderAllocation 0
          (mkOrderLedger (OH_Allocated 0) (mkOrderClaims 1 1 true true)))).
    - by apply (step_ordinary_record _ (OAE_Enrollment (mkEnrollmentEnvelope 1 []))
        (mkOrderAllocation 1 (mkOrderLedger (OH_Allocated 1) (mkOrderClaims 1 1 true true)))). }
  exists [0; 1], (mkOrderLedger (OH_Allocated 1) (mkOrderClaims 1 1 true true)).
  split; [done|]. split; [exact Hrun|].
  refine (proj1 (order_majors_consecutive _ _ _ _ Hrun)). repeat split; ground.
Defined.

(** A reserved recovery cannot fail: on a ledger that satisfies its
    invariant and owns the recovery pair, [apply_fenced_recovery] succeeds
    without overflow, leaves the watermark, keeps the invariant, turns the pair
    into one more terminal claim and frees exactly one major. *)
Theorem order_fenced_recovery_total l :
  ledger_ok l -> oc_recovery_operation (ol_claims l) = true ->
  exists l', ol_apply_fenced_recovery_finalizing_pending l = Ok l' /\ ledger_ok l'
    /\ ol_high l' = ol_high l
    /\ oc_active_binding_terminals (ol_claims l') = oc_active_binding_terminals (ol_claims l) + 1
    /\ claims_total (ol_claims l') = claims_total (ol_claims l) - 1.
Proof.
  intros Hl Hr. destruct (apply_fenced_recovery_ok l Hl Hr) as (E & ? & ?).
  unfold ol_apply_fenced_recovery_finalizing_pending. eauto 10.
Qed.

Lemma order_fenced_recovery_total_witness :
  exists l', ol_apply_fenced_recovery_finalizing_pending
    (mkOrderLedger (OH_Allocated (u64_max - 3)) (mkOrderClaims 1 0 true true)) = Ok l'
    /\ ledger_ok l'.
Proof.
  destruct (order_fenced_recovery_total
    (mkOrderLedger (OH_Allocated (u64_max - 3)) (mkOrderClaims 1 0 true true)))
    as (l' & ? & ? & _); [repeat split; ground | done | eauto].
Defined.

(** Exactly when an order is exhausted: on a valid ledger, [allocate_order]
    succeeds iff a next major exists and every claim of the simulated post-state
    still owns a later one; the refusal is then the only other outcome, and on a
    conversation that has allocated before it is the canonical exhaustion value
    with the exact counts. *)
Theorem allocate_order_exhaustion request l r high :
  ledger_ok l -> claims_ok (roc_claims r) -> ol_high l = OH_Allocated high ->
  allocate_order request l r =
    if (high + 1 <=? u64_max) && (claims_total (roc_claims r) <=? u64_max - (high + 1)) then
      Ok (mkOrderAllocation (high + 1) (mkOrderLedger (OH_Allocated (high + 1)) (roc_claims r)))
    else
      Err (OAX_Exhausted (mkConversationOrderExhausted request high (u64_max - high)
             (claims_total (ol_claims l)) (Z.max 0 (u64_max - high - 1))
             (claims_total (roc_claims r)))).
Proof.
  intros (Hh & Hc & Hl) Hr Hhigh. unfold allocate_order, ol_remaining. rewrite Hhigh in *.
  rewrite !oc_total_exact by done. simpl in *. rewrite sub_u64_exact by mlia. unfold checked_add.
  destruct (Z.leb_spec (high + 1) u64_max); simpl.
  - rewrite sub_u128_exact by mlia.
    destruct (Z.ltb_spec (u64_max - high - 1) (claims_total (roc_claims r))),
      (Z.leb_spec (claims_total (roc_claims r)) (u64_max - (high + 1))); try mlia; [|done].
    rewrite Z.max_r by lia. done.
  - rewrite Z.max_l by mlia. done.
Qed.

Lemma allocate_order_exhaustion_witness :
  let l := mkOrderLedger (OH_Allocated (u64_max - 1)) (mkOrderClaims 1 0 false false) in
  let e := OAE_Enrollment (mkEnrollmentEnvelope 1 []) in
  allocate_order e l (ol_plan_ordinary_record l)
  = Err (OAX_Exhausted (mkConversationOrderExhausted e (u64_max - 1) 1 1 0 1)).
Proof.
  intros l e. rewrite (allocate_order_exhaustion e l _ (u64_max - 1)); [by vm_compute|..];
    repeat split; ground.
Defined.
