(* ===== verification/Sequence.v ===== *)
(** * Delivery-sequence admission

    Model of [liminal-protocol/src/lifecycle/admission/sequence.rs]: the
    primitive claims [L], [T], [M] and the recovery reserve, the ten-field
    budget derived from them, the ledger, the planners and [admit_sequence].
    The theorems: the canonical reserve is the exact sum or an overflow, the
    admission test is exactly that the reserve fits, and the ledger invariant
    makes every reserved recovery succeed. *)
From S2P Require Import Prelude Algebra Tags Wire Response.

Inductive RecoverySequenceReserve :=
| RSR_None
| RSR_DetachedCredentialRecovery.

#[export] Instance RecoverySequenceReserve_eq_dec : EqDecision RecoverySequenceReserve.
Proof. solve_decision. Defined.

Definition rsr_claims (r : RecoverySequenceReserve) : Z * Z :=
  match r with RSR_None => (0, 0) | RSR_DetachedCredentialRecovery => (1, 1) end.

Record SequenceClaims := mkSequenceClaims {
  sc_live_members : Z;
  sc_binding_terminals : Z;
  sc_markers : Z;
  sc_recovery : RecoverySequenceReserve;
}.

Definition sc_budget (c : SequenceClaims) (high_watermark : Z) : SequenceBudget :=
  let live_members := sc_live_members c in
  let exits := sc_live_members c in
  let terminals := sc_binding_terminals c in
  let '(rs, rt) := rsr_claims (sc_recovery c) in
  let other_live_members := if live_members =? 0 then 0 else sub_u128 live_members 1 in
  mkSequenceBudget high_watermark (sub_u64 u64_max high_watermark) exits terminals
    (sc_markers c) rs rt (mul_u128 live_members terminals) (mul_u128 live_members rt)
    (mul_u128 other_live_members exits).

Definition checked_required_reserve (b : SequenceBudget) : option Z :=
  let add := checked_add u128_max in
  r ← add (sb_e b) (sb_t b);
  r ← add r (sb_m b);
  r ← add r (sb_rs b);
  r ← add r (sb_rt b);
  r ← add r (sb_l_times_t b);
  r ← add r (sb_l_times_rt b);
  add r (sb_l_other_times_e b).

Definition sc_checked_required_reserve (c : SequenceClaims) : option Z :=
  checked_required_reserve (sc_budget c 0).

Inductive SequenceLedgerInvariantError :=
| SLI_ClaimsExceedRemaining (budget : SequenceBudget) (required_reserve : option Z).

Record SequenceLedger := mkSequenceLedger {
  sl_high_watermark : Z;
  sl_claims : SequenceClaims;
  sl_required_reserve : Z;
}.

Definition SequenceLedger_try_new (high_watermark : Z) (claims : SequenceClaims)
    : result SequenceLedger SequenceLedgerInvariantError :=
  let budget := sc_budget claims high_watermark in
  match checked_required_reserve budget with
  | None => Err (SLI_ClaimsExceedRemaining budget None)
  | Some required_reserve =>
      if sb_remaining budget <? required_reserve
      then Err (SLI_ClaimsExceedRemaining budget (Some required_reserve))
      else Ok (mkSequenceLedger high_watermark claims required_reserve)
  end.

Record ResultingSequenceState := mkResultingSequenceState {
  rss_high_watermark : Z;
  rss_claims : SequenceClaims;
}.

Inductive SequenceAdmissionError :=
| SAX_Exhausted (v : ConversationSequenceExhausted)
| SAX_HighWatermarkOverflow (high_watermark required_values : Z)
| SAX_LiveMemberClaimOverflow (live_members : Z)
| SAX_BindingTerminalClaimOverflow (binding_terminals : Z)
| SAX_MarkerClaimOverflow (markers new_markers : Z)
| SAX_RecoverySequenceReserveMissing
| SAX_RecoverySequenceReserveAlreadyPresent
| SAX_RecoverySequenceInvariantViolation.

Definition sl_checked_high_watermark (l : SequenceLedger) (required_values : Z)
    : result Z SequenceAdmissionError :=
  ok_or (checked_add u64_max (sl_high_watermark l) required_values)
    (SAX_HighWatermarkOverflow (sl_high_watermark l) required_values).

Definition sl_checked_markers (l : SequenceLedger) (new_markers : Z)
    : result Z SequenceAdmissionError :=
  ok_or (checked_add u64_max (sc_markers (sl_claims l)) new_markers)
    (SAX_MarkerClaimOverflow (sc_markers (sl_claims l)) new_markers).

Definition sl_checked_terminal (l : SequenceLedger) : result Z SequenceAdmissionError :=
  ok_or (checked_add u64_max (sc_binding_terminals (sl_claims l)) 1)
    (SAX_BindingTerminalClaimOverflow (sc_binding_terminals (sl_claims l))).

Definition sl_ensure_quartet_can_be_endowed (l : SequenceLedger) (endow_recovery_quartet : bool)
    : result unit SequenceAdmissionError :=
  if endow_recovery_quartet
     && bool_decide (sc_recovery (sl_claims l) = RSR_DetachedCredentialRecovery)
  then Err SAX_RecoverySequenceReserveAlreadyPresent
  else Ok tt.

Definition sl_plan_enrollment_with_recovery_quartet (l : SequenceLedger) (new_markers : Z)
    (endow_recovery_quartet : bool) : result ResultingSequenceState SequenceAdmissionError :=
  let? _ := sl_ensure_quartet_can_be_endowed l endow_recovery_quartet in
  let? high_watermark := sl_checked_high_watermark l 1 in
  let? live_members :=
    ok_or (checked_add u64_max (sc_live_members (sl_claims l)) 1)
      (SAX_LiveMemberClaimOverflow (sc_live_members (sl_claims l))) in
  let? binding_terminals := sl_checked_terminal l in
  let? markers := sl_checked_markers l new_markers in
  Ok (mkResultingSequenceState high_watermark
        (mkSequenceClaims live_members binding_terminals markers
           (if endow_recovery_quartet then RSR_DetachedCredentialRecovery
            else sc_recovery (sl_claims l)))).

Definition sl_plan_ordinary_record (l : SequenceLedger) (new_markers : Z)
    : result ResultingSequenceState SequenceAdmissionError :=
  let? high_watermark := sl_checked_high_watermark l 1 in
  let? markers := sl_checked_markers l new_markers in
  Ok (mkResultingSequenceState high_watermark
        (mkSequenceClaims (sc_live_members (sl_claims l)) (sc_binding_terminals (sl_claims l))
           markers (sc_recovery (sl_claims l)))).

(** The reserve check that closes both recoveries. *)
Definition sl_recovered (high_watermark : Z) (claims : SequenceClaims)
    : result SequenceLedger SequenceAdmissionError :=
  let budget := sc_budget claims high_watermark in
  let? required_reserve :=
    ok_or (checked_required_reserve budget) SAX_RecoverySequenceInvariantViolation in
  if sb_remaining budget <? required_reserve then Err SAX_RecoverySequenceInvariantViolation
  else Ok (mkSequenceLedger high_watermark claims required_reserve).

Definition sl_apply_fenced_recovery (l : SequenceLedger)
    : result SequenceLedger SequenceAdmissionError :=
  if negb (bool_decide (sc_recovery (sl_claims l) = RSR_DetachedCredentialRecovery))
  then Err SAX_RecoverySequenceReserveMissing
  else
    let? high_watermark := sl_checked_high_watermark l 1 in
    let? binding_terminals := sl_checked_terminal l in
    sl_recovered high_watermark
      (mkSequenceClaims (sc_live_members (sl_claims l)) binding_terminals
         (sc_markers (sl_claims l)) RSR_None).

Definition sl_apply_fenced_recovery_finalizing_pending (l : SequenceLedger)
    : result SequenceLedger SequenceAdmissionError :=
  if negb (bool_decide (sc_recovery (sl_claims l) = RSR_DetachedCredentialRecovery))
  then Err SAX_RecoverySequenceReserveMissing
  else if sc_binding_terminals (sl_claims l) =? 0
  then Err SAX_RecoverySequenceInvariantViolation
  else
    let? high_watermark := sl_checked_high_watermark l 2 in
    sl_recovered high_watermark
      (mkSequenceClaims (sc_live_members (sl_claims l)) (sc_binding_terminals (sl_claims l))
         (sc_markers (sl_claims l)) RSR_None).

(** [SequenceAdmission] is its resulting ledger. *)
Definition admit_sequence (request : SequenceAllocatingEnvelope)
    (resulting : ResultingSequenceState) : result SequenceLedger SequenceAdmissionError :=
  let budget := sc_budget (rss_claims resulting) (rss_high_watermark resulting) in
  match checked_required_reserve budget with
  | None => Err (SAX_Exhausted (mkConversationSequenceExhausted request budget))
  | Some required_reserve =>
      if sb_remaining budget <? required_reserve
      then Err (SAX_Exhausted (mkConversationSequenceExhausted request budget))
      else Ok (mkSequenceLedger (rss_high_watermark resulting) (rss_claims resulting)
                 required_reserve)
  end.

(** ** The exact reserve *)

Definition sc_ok (c : SequenceClaims) : Prop :=
  u64 (sc_live_members c) /\ u64 (sc_binding_terminals c) /\ u64 (sc_markers c).

Definition rsr (c : SequenceClaims) : Z :=
  match sc_recovery c with RSR_None => 0 | RSR_DetachedCredentialRecovery => 1 end.

(** [E + T + M + RS + RT + L*T + L*RT + L_other*E]. *)
Definition reserve (c : SequenceClaims) : Z :=
  sc_live_members c + sc_binding_terminals c + sc_markers c + rsr c + rsr c
  + sc_live_members c * sc_binding_terminals c + sc_live_members c * rsr c
  + Z.max 0 (sc_live_members c - 1) * sc_live_members c.

Definition sl_ok (l : SequenceLedger) : Prop :=
  u64 (sl_high_watermark l) /\ sc_ok (sl_claims l)
  /\ sl_required_reserve l = reserve (sl_claims l)
  /\ reserve (sl_claims l) <= u64_max - sl_high_watermark l.

Lemma mul_bound a b : u64 a -> u64 b -> 0 <= a * b <= u128_max.
Proof. intros Ha Hb. pose proof (u64_mul_bound a b Ha Hb). unfold u64_max, u128_max in *. lia. Qed.

Lemma rsr_range c : 0 <= rsr c <= 1.
Proof. unfold rsr. destruct (sc_recovery c); lia. Qed.

(** The budget carries the exact products. *)
Lemma sc_budget_exact c h : sc_ok c -> u64 h ->
  sc_budget c h = mkSequenceBudget h (u64_max - h) (sc_live_members c) (sc_binding_terminals c)
    (sc_markers c) (rsr c) (rsr c) (sc_live_members c * sc_binding_terminals c)
    (sc_live_members c * rsr c) (Z.max 0 (sc_live_members c - 1) * sc_live_members c).
Proof.
  intros (Hl & Ht & Hm) Hh. unfold sc_budget, rsr_claims, rsr.
  assert ((if sc_live_members c =? 0 then 0 else sub_u128 (sc_live_members c) 1)
          = Z.max 0 (sc_live_members c - 1)) as ->.
  { destruct (Z.eqb_spec (sc_live_members c) 0) as [->|]; [done|].
    rewrite sub_u128_exact by mlia. mlia. }
  rewrite sub_u64_exact by mlia. rewrite (mul_u128_exact (sc_live_members c)) by (by apply mul_bound).
  rewrite (mul_u128_exact (Z.max _ _)) by (apply mul_bound; mlia).
  destruct (sc_recovery c); rewrite mul_u128_exact by mlia; done.
Qed.

Lemma reserve_nonneg c : sc_ok c ->
  0 <= sc_live_members c * sc_binding_terminals c /\ 0 <= sc_live_members c * rsr c
  /\ 0 <= Z.max 0 (sc_live_members c - 1) * sc_live_members c.
Proof.
  intros (? & ? & ?). pose proof (rsr_range c).
  repeat split; apply Z.mul_nonneg_nonneg; mlia.
Qed.

Lemma checked_required_reserve_exact c h : sc_ok c -> u64 h ->
  checked_required_reserve (sc_budget c h) =
    if reserve c <=? u128_max then Some (reserve c) else None.
Proof.
  intros Hc Hh. rewrite sc_budget_exact by done. pose proof (reserve_nonneg c Hc).
  pose proof (rsr_range c). destruct Hc as (? & ? & ?).
  unfold checked_required_reserve; simpl.
  rewrite !checked_add_bind, checked_add_chain by (destruct_and?; mlia).
  unfold checked_add, reserve. rewrite !Z.add_assoc. done.
Qed.

(** The admission test shared by [try_new], [admit_sequence] and the recoveries. *)
Lemma reserve_gate {A} c h (ok : Z -> A) (err : option Z -> A) : sc_ok c -> u64 h ->
  (match checked_required_reserve (sc_budget c h) with
   | None => err None
   | Some r => if sb_remaining (sc_budget c h) <? r then err (Some r) else ok r
   end) =
  if reserve c <=? u64_max - h then ok (reserve c)
  else err (if reserve c <=? u128_max then Some (reserve c) else None).
Proof.
  intros Hc Hh. rewrite checked_required_reserve_exact by done.
  rewrite sc_budget_exact by done; simpl.
  destruct (Z.leb_spec (reserve c) (u64_max - h)), (Z.leb_spec (reserve c) u128_max);
    try mlia; [| |done].
  - destruct (Z.ltb_spec (u64_max - h) (reserve c)); [lia|done].
  - destruct (Z.ltb_spec (u64_max - h) (reserve c)); [done|lia].
Qed.

(** [try_new] accepts exactly the states of the invariant. *)
Lemma SequenceLedger_try_new_spec h c : sc_ok c -> u64 h ->
  SequenceLedger_try_new h c =
    if reserve c <=? u64_max - h then Ok (mkSequenceLedger h c (reserve c))
    else Err (SLI_ClaimsExceedRemaining (sc_budget c h)
                (if reserve c <=? u128_max then Some (reserve c) else None)).
Proof.
  intros Hc Hh. unfold SequenceLedger_try_new.
  by rewrite (reserve_gate c h (fun r => Ok (mkSequenceLedger h c r))
    (fun o => Err (SLI_ClaimsExceedRemaining (sc_budget c h) o))).
Qed.

Lemma admit_sequence_exact request s : sc_ok (rss_claims s) -> u64 (rss_high_watermark s) ->
  admit_sequence request s =
    if reserve (rss_claims s) <=? u64_max - rss_high_watermark s then
      Ok (mkSequenceLedger (rss_high_watermark s) (rss_claims s) (reserve (rss_claims s)))
    else Err (SAX_Exhausted (mkConversationSequenceExhausted request
                (sc_budget (rss_claims s) (rss_high_watermark s)))).
Proof.
  intros Hc Hh. unfold admit_sequence.
  by rewrite (reserve_gate (rss_claims s) (rss_high_watermark s)
    (fun r => Ok (mkSequenceLedger (rss_high_watermark s) (rss_claims s) r))
    (fun _ => Err (SAX_Exhausted (mkConversationSequenceExhausted request
                (sc_budget (rss_claims s) (rss_high_watermark s)))))).
Qed.

Lemma sl_recovered_exact h c : sc_ok c -> u64 h -> reserve c <= u64_max - h ->
  sl_recovered h c = Ok (mkSequenceLedger h c (reserve c)).
Proof.
  intros Hc Hh Hr. unfold sl_recovered. rewrite checked_required_reserve_exact by done.
  rewrite sc_budget_exact by done; simpl.
  rewrite (proj2 (Z.leb_le _ _)) by mlia. simpl.
  by rewrite (proj2 (Z.ltb_ge _ _)) by lia.
Qed.

(** ** Recoveries *)

Lemma reserve_terms c : sc_ok c -> sc_live_members c + sc_binding_terminals c + sc_markers c
  + 2 * rsr c <= reserve c.
Proof. intros Hc. pose proof (reserve_nonneg c Hc). unfold reserve. lia. Qed.

Lemma fenced_recovery_exact l :
  sl_ok l -> sc_recovery (sl_claims l) = RSR_DetachedCredentialRecovery ->
  exists l', sl_apply_fenced_recovery l = Ok l' /\ sl_ok l'
    /\ sl_high_watermark l' = sl_high_watermark l + 1
    /\ sc_binding_terminals (sl_claims l') = sc_binding_terminals (sl_claims l) + 1
    /\ sc_recovery (sl_claims l') = RSR_None
    /\ sl_required_reserve l' = sl_required_reserve l - 1.
Proof.
  intros (Hh & Hc & Hres & Hfit) Hr. pose proof (reserve_terms _ Hc) as Ht.
  destruct l as [h [L T M rec] R]; simpl in *. subst rec R.
  destruct Hc as (HL & HT & HM); simpl in *. unfold rsr in Ht; simpl in Ht.
  set (c := mkSequenceClaims L (T + 1) M RSR_None).
  assert (reserve c = reserve (mkSequenceClaims L T M RSR_DetachedCredentialRecovery) - 1) as Hres.
  { unfold reserve, rsr; simpl. lia. }
  assert (sc_ok c) as Hc' by (repeat split; simpl; mlia).
  exists (mkSequenceLedger (h + 1) c (reserve c)).
  unfold sl_apply_fenced_recovery, sl_checked_high_watermark, sl_checked_terminal; simpl.
  rewrite !checked_add_exact by mlia. simpl.
  rewrite (sl_recovered_exact _ c) by (first [done | mlia]).
  unfold sl_ok; simpl. split_and!; try done; mlia.
Qed.

Lemma finalizing_recovery_exact l :
  sl_ok l -> sc_recovery (sl_claims l) = RSR_DetachedCredentialRecovery ->
  0 < sc_binding_terminals (sl_claims l) ->
  exists l', sl_apply_fenced_recovery_finalizing_pending l = Ok l' /\ sl_ok l'
    /\ sl_high_watermark l' = sl_high_watermark l + 2
    /\ sc_binding_terminals (sl_claims l') = sc_binding_terminals (sl_claims l)
    /\ sc_recovery (sl_claims l') = RSR_None
    /\ sl_required_reserve l' = sl_required_reserve l - 2 - sc_live_members (sl_claims l).
Proof.
  intros (Hh & Hc & Hres & Hfit) Hr Hpos. pose proof (reserve_terms _ Hc) as Ht.
  destruct l as [h [L T M rec] R]; simpl in *. subst rec R.
  destruct Hc as (HL & HT & HM); simpl in *. unfold rsr in Ht; simpl in Ht.
  set (c := mkSequenceClaims L T M RSR_None).
  assert (reserve c = reserve (mkSequenceClaims L T M RSR_DetachedCredentialRecovery) - 2 - L) as Hres.
  { unfold reserve, rsr; simpl. lia. }
  assert (sc_ok c) as Hc' by (repeat split; simpl; mlia).
  exists (mkSequenceLedger (h + 2) c (reserve c)).
  unfold sl_apply_fenced_recovery_finalizing_pending, sl_checked_high_watermark; simpl.
  rewrite (proj2 (Z.eqb_neq T 0)) by lia.
  rewrite !checked_add_exact by mlia. simpl.
  rewrite (sl_recovered_exact _ c) by (first [done | mlia]).
  unfold sl_ok; simpl. split_and!; try done; mlia.
Qed.

(** ** Properties *)

(** The sequence-reserve gate is exact: a proposed state is admitted iff
    [E + T + M + RS + RT + L*T + L*RT + L_other*E], computed without loss, fits
    the sequence values left above the proposed watermark; the admitted ledger
    satisfies its invariant, and a refusal carries the ten-field budget with the
    exact products of the proposed state. *)
Theorem admit_sequence_iff request s :
  sc_ok (rss_claims s) -> u64 (rss_high_watermark s) ->
  match admit_sequence request s with
  | Ok l => reserve (rss_claims s) <= u64_max - rss_high_watermark s
            /\ sl_ok l /\ sl_claims l = rss_claims s
            /\ sl_high_watermark l = rss_high_watermark s
  | Err e => u64_max - rss_high_watermark s < reserve (rss_claims s)
            /\ e = SAX_Exhausted (mkConversationSequenceExhausted request
                 (mkSequenceBudget (rss_high_watermark s) (u64_max - rss_high_watermark s)
                    (sc_live_members (rss_claims s)) (sc_binding_terminals (rss_claims s))
                    (sc_markers (rss_claims s)) (rsr (rss_claims s)) (rsr (rss_claims s))
                    (sc_live_members (rss_claims s) * sc_binding_terminals (rss_claims s))
                    (sc_live_members (rss_claims s) * rsr (rss_claims s))
                    (Z.max 0 (sc_live_members (rss_claims s) - 1)
                       * sc_live_members (rss_claims s))))
  end.
Proof.
  intros Hc Hh. rewrite admit_sequence_exact by done.
  destruct (Z.leb_spec (reserve (rss_claims s)) (u64_max - rss_high_watermark s)).
  - unfold sl_ok; simpl. done.
  - rewrite sc_budget_exact by done. done.
Qed.

Lemma admit_sequence_iff_witness :
  let s := mkResultingSequenceState (u64_max - 19)
             (mkSequenceClaims 3 2 1 RSR_DetachedCredentialRecovery) in
  is_ok (admit_sequence (SAE_Enrollment (mkEnrollmentEnvelope 1 [])) s) = false
  /\ u64_max - rss_high_watermark s < reserve (rss_claims s).
Proof.
  intros s. split; [by vm_compute|].
  pose proof (admit_sequence_iff (SAE_Enrollment (mkEnrollmentEnvelope 1 [])) s) as H.
  destruct (admit_sequence _ s) as [l|e] eqn:E; [by vm_compute in E|].
  apply H; repeat split; ground.
Defined.

(** A reserved recovery cannot run out of sequence values: on a ledger that
    satisfies its invariant and holds the recovery pair, [apply_fenced_recovery]
    succeeds, writes one record, moves the replacement terminal into [T] and
    re-establishes the invariant with a reserve smaller by one. *)
Theorem sequence_fenced_recovery_total l :
  sl_ok l -> sc_recovery (sl_claims l) = RSR_DetachedCredentialRecovery ->
  exists l', sl_apply_fenced_recovery l = Ok l' /\ sl_ok l'
    /\ sl_high_watermark l' = sl_high_watermark l + 1
    /\ sc_binding_terminals (sl_claims l') = sc_binding_terminals (sl_claims l) + 1
    /\ sc_recovery (sl_claims l') = RSR_None
    /\ sl_required_reserve l' = sl_required_reserve l - 1.
Proof. intros Hl Hr. by apply fenced_recovery_exact. Qed.

Lemma sequence_fenced_recovery_total_witness :
  let l := mkSequenceLedger (u64_max - 22)
             (mkSequenceClaims 3 2 0 RSR_DetachedCredentialRecovery) 22 in
  exists l', sl_apply_fenced_recovery l = Ok l' /\ sl_required_reserve l' = 21.
Proof.
  intros l. destruct (sequence_fenced_recovery_total l) as (l' & ? & _ & _ & _ & _ & ?);
    [repeat split; ground | done | eauto].
Defined.

(** The same when the recovery also materializes a pending terminal: it
    consumes the old terminal claim and the recovery pair, writes two records and
    keeps the invariant; it is refused only when there is no terminal claim to
    finalize. *)
Theorem sequence_finalizing_recovery_total l :
  sl_ok l -> sc_recovery (sl_claims l) = RSR_DetachedCredentialRecovery ->
  0 < sc_binding_terminals (sl_claims l) ->
  exists l', sl_apply_fenced_recovery_finalizing_pending l = Ok l' /\ sl_ok l'
    /\ sl_high_watermark l' = sl_high_watermark l + 2
    /\ sc_binding_terminals (sl_claims l') = sc_binding_terminals (sl_claims l)
    /\ sc_recovery (sl_claims l') = RSR_None
    /\ sl_required_reserve l' = sl_required_reserve l - 2 - sc_live_members (sl_claims l).
Proof. intros Hl Hr Ht. by apply finalizing_recovery_exact. Qed.

Lemma sequence_finalizing_recovery_total_witness :
  let l := mkSequenceLedger (u64_max - 22)
             (mkSequenceClaims 3 2 0 RSR_DetachedCredentialRecovery) 22 in
  exists l', sl_apply_fenced_recovery_finalizing_pending l = Ok l' /\ sl_required_reserve l' = 17.
Proof.
  intros l.
  destruct (sequence_finalizing_recovery_total l) as (l' & ? & _ & _ & _ & _ & ?);
    [repeat split; ground | done | done | eauto].
Defined.

(** ** Runs *)

(** The transitions of the sequence ledger, with the number of sequence values
    each one uses. *)
Inductive seq_step : SequenceLedger -> Z -> SequenceLedger -> Prop :=
| sstep_enrollment l m q request s l' : u64 m ->
    sl_plan_enrollment_with_recovery_quartet l m q = Ok s ->
    admit_sequence request s = Ok l' -> seq_step l 1 l'
| sstep_ordinary_record l m request s l' : u64 m ->
    sl_plan_ordinary_record l m = Ok s ->
    admit_sequence request s = Ok l' -> seq_step l 1 l'
| sstep_fenced_recovery l l' : sl_apply_fenced_recovery l = Ok l' -> seq_step l 1 l'
| sstep_finalizing_recovery l l' :
    sl_apply_fenced_recovery_finalizing_pending l = Ok l' -> seq_step l 2 l'.

Inductive seq_run (l : SequenceLedger) : Z -> SequenceLedger -> Prop :=
| srun_nil : seq_run l 0 l
| srun_step used l1 n l2 : seq_run l used l1 -> seq_step l1 n l2 -> seq_run l (used + n) l2.

Lemma admit_ok request s l' : sc_ok (rss_claims s) -> u64 (rss_high_watermark s) ->
  admit_sequence request s = Ok l' -> sl_ok l' /\ sl_high_watermark l' = rss_high_watermark s.
Proof.
  intros Hc Hh H. rewrite admit_sequence_exact in H by done.
  destruct (Z.leb_spec (reserve (rss_claims s)) (u64_max - rss_high_watermark s)); [|done].
  simplify_eq. unfold sl_ok; simpl. done.
Qed.

Lemma seq_step_ok l n l' : sl_ok l -> seq_step l n l' ->
  sl_ok l' /\ sl_high_watermark l' = sl_high_watermark l + n.
Proof.
  intros Hl Hs. revert Hl.
  destruct Hs as [l m q request s l' Hm Hp Ha|l m request s l' Hm Hp Ha|l l' Ha|l l' Ha]; intros Hl.
  - destruct Hl as (Hh & (HL & HT & HM) & _).
    unfold sl_plan_enrollment_with_recovery_quartet, sl_checked_high_watermark,
      sl_checked_terminal, sl_checked_markers, ok_or, checked_add in Hp.
    destruct (sl_ensure_quartet_can_be_endowed l q); [|done]. csplit_in Hp. breflect.
    apply admit_ok in Ha; [done|repeat split; simpl; mlia|simpl; mlia].
  - destruct Hl as (Hh & (HL & HT & HM) & _).
    unfold sl_plan_ordinary_record, sl_checked_high_watermark, sl_checked_markers, ok_or,
      checked_add in Hp. csplit_in Hp. breflect.
    apply admit_ok in Ha; [done|repeat split; simpl; mlia|simpl; mlia].
  - destruct (decide (sc_recovery (sl_claims l) = RSR_DetachedCredentialRecovery)) as [Hr|Hr].
    + destruct (fenced_recovery_exact l Hl Hr) as (l1 & E & ? & ? & _). rewrite E in Ha. by simplify_eq.
    + unfold sl_apply_fenced_recovery in Ha. by rewrite bool_decide_eq_false_2 in Ha.
  - unfold sl_apply_fenced_recovery_finalizing_pending in Ha.
    destruct (decide (sc_recovery (sl_claims l) = RSR_DetachedCredentialRecovery)) as [Hr|Hr];
      [|by rewrite bool_decide_eq_false_2 in Ha].
    destruct (Z.eqb_spec (sc_binding_terminals (sl_claims l)) 0) as [Hz|Hz];
      [by rewrite bool_decide_eq_true_2 in Ha|].
    destruct (finalizing_recovery_exact l Hl Hr) as (l1 & E & ? & ? & _).
    { destruct Hl as (_ & (_ & HT & _) & _). mlia. }
    unfold sl_apply_fenced_recovery_finalizing_pending in E.
    rewrite (proj2 (Z.eqb_neq _ _)) in E by done. rewrite E in Ha. by simplify_eq.
Qed.

(** Delivery sequences never overflow and never repeat: on every run of
    enrollments, record admissions and recoveries from a valid ledger, the
    watermark advances by exactly the number of records written, stays a [u64],
    and what is still reserved keeps fitting above it. *)
Theorem sequence_run_invariant l used l' :
  sl_ok l -> seq_run l used l' ->
  sl_ok l' /\ sl_high_watermark l' = sl_high_watermark l + used
  /\ sl_high_watermark l' + sl_required_reserve l' <= u64_max.
Proof.
  intros Hl Hrun.
  assert (sl_ok l' /\ sl_high_watermark l' = sl_high_watermark l + used) as [Hl' Hw].
  { induction Hrun as [|used l1 n l2 Hrun [IH1 IH2] Hs]; [split; [done|lia]|].
    apply seq_step_ok in Hs as [? ?]; [|done]. split; [done|lia]. }
  split; [done|]. split; [done|]. destruct Hl' as (_ & _ & -> & ?). lia.
Qed.

Lemma sequence_run_invariant_witness :
  let l := mkSequenceLedger 0 (mkSequenceClaims 1 1 0 RSR_DetachedCredentialRecovery) 6 in
  exists l', seq_run l 1 l' /\ sl_high_watermark l' + sl_required_reserve l' <= u64_max.
Proof.
  intros l. eexists. assert (seq_run l (0 + 1) (mkSequenceLedger 1
    (mkSequenceClaims 1 2 0 RSR_None) 5)) as Hrun.
  { eapply srun_step; [constructor|]. by apply sstep_fenced_recovery. }
  split; [exact Hrun|]. refine (proj2 (proj2 (sequence_run_invariant _ _ _ _ Hrun))).
  repeat split; ground.
Defined.
