(* ===== verification/Incarnation.v ===== *)
(** * Connection-incarnation allocation

    Model of [liminal-protocol/src/lifecycle/incarnation.rs]: the durable
    allocator header, startup, the bounded reference collection and the
    collision-skipping allocation loop.  The loop of the source has no bound of
    its own; here it runs on fuel, and [allocation_total] shows that one more
    iteration than there are references is always enough. *)
From S2P Require Import Prelude Algebra Tags Wire.

Inductive ConnectionIncarnationExhausted :=
| CIE_ServerIncarnation
| CIE_ConnectionOrdinal (attempted_server_incarnation : Z).

Record ConnectionIncarnationAllocatorRestore := mkAllocatorRestore {
  alr_server_incarnation : Z;
  alr_last_examined_connection_ordinal : option Z;
  alr_connection_ordinal_exhausted : bool;
}.

Inductive ConnectionIncarnationAllocatorRestoreError :=
| OrdinalExhaustionMismatch (last_examined_connection_ordinal : option Z)
    (connection_ordinal_exhausted : bool).

Record ConnectionIncarnationAllocator := mkAllocator {
  al_server_incarnation : Z;
  al_last_examined_connection_ordinal : option Z;
  al_connection_ordinal_exhausted : bool;
}.

(** [matches!(.., Some(u64::MAX))]. *)
Definition examined_max (last : option Z) : bool :=
  match last with Some o => o =? u64_max | None => false end.

Definition allocator_try_restore (restored : ConnectionIncarnationAllocatorRestore)
    : result ConnectionIncarnationAllocator ConnectionIncarnationAllocatorRestoreError :=
  if negb (Bool.eqb (examined_max (alr_last_examined_connection_ordinal restored))
             (alr_connection_ordinal_exhausted restored))
  then Err (OrdinalExhaustionMismatch (alr_last_examined_connection_ordinal restored)
              (alr_connection_ordinal_exhausted restored))
  else Ok (mkAllocator (alr_server_incarnation restored)
             (alr_last_examined_connection_ordinal restored)
             (alr_connection_ordinal_exhausted restored)).

Definition as_restore (a : ConnectionIncarnationAllocator) : ConnectionIncarnationAllocatorRestore :=
  mkAllocatorRestore (al_server_incarnation a) (al_last_examined_connection_ordinal a)
    (al_connection_ordinal_exhausted a).

(** ** Startup *)

Record ServerIncarnationFsyncIntent := mkFsyncIntent {
  fi_prior_server_incarnation : Z;
  fi_resulting : ConnectionIncarnationAllocator;
}.
Record ServerIncarnationExhaustion := mkServerExhaustion {
  se_unchanged : ConnectionIncarnationAllocator;
}.
Inductive ServerIncarnationStartupDecision :=
| SID_Fsync (i : ServerIncarnationFsyncIntent)
| SID_Exhausted (e : ServerIncarnationExhaustion).

Definition header_to_fsync (i : ServerIncarnationFsyncIntent) := as_restore (fi_resulting i).
Definition complete_after_fsync (i : ServerIncarnationFsyncIntent) := fi_resulting i.

Definition prepare_server_incarnation_startup (persisted : ConnectionIncarnationAllocator)
    : ServerIncarnationStartupDecision :=
  match checked_add u64_max (al_server_incarnation persisted) 1 with
  | None => SID_Exhausted (mkServerExhaustion persisted)
  | Some server_incarnation =>
      SID_Fsync (mkFsyncIntent (al_server_incarnation persisted)
        (mkAllocator server_incarnation None false))
  end.

(** ** References *)

Inductive DurableIncarnationReferencesError :=
| ReferenceCountExceedsBound (actual maximum : Z).

Record DurableIncarnationReferences := mkReferences { dir_values : list ConnectionIncarnation }.

Definition references_try_new (values : list ConnectionIncarnation) (maximum : Z)
    : result DurableIncarnationReferences DurableIncarnationReferencesError :=
  if maximum <? Z.of_nat (length values)
  then Err (ReferenceCountExceedsBound (Z.of_nat (length values)) maximum)
  else Ok (mkReferences values).

(** The [while index < len] scan. *)
Fixpoint collides_scan (values : list ConnectionIncarnation) (candidate : ConnectionIncarnation)
    : bool :=
  match values with
  | [] => false
  | reference :: values =>
      if (server_incarnation reference =? server_incarnation candidate)
         && (connection_ordinal reference =? connection_ordinal candidate)
      then true
      else collides_scan values candidate
  end.
Definition collides (references : DurableIncarnationReferences)
    (candidate : ConnectionIncarnation) : bool :=
  collides_scan (dir_values references) candidate.

(** ** Allocation *)

Record ConnectionIncarnationAllocation := mkAllocation {
  cia_connection_incarnation : ConnectionIncarnation;
  cia_skipped_collisions : Z;
  cia_resulting : ConnectionIncarnationAllocator;
}.
Record ConnectionOrdinalExhaustionCommit := mkExhaustionCommit {
  coec_skipped_collisions : Z;
  coec_resulting : ConnectionIncarnationAllocator;
}.
Record ConnectionOrdinalExhaustionReplay := mkExhaustionReplay {
  coer_unchanged : ConnectionIncarnationAllocator;
}.
Inductive ConnectionOrdinalExhaustion :=
| COE_MarkExhausted (c : ConnectionOrdinalExhaustionCommit)
| COE_AlreadyExhausted (r : ConnectionOrdinalExhaustionReplay).
Inductive ConnectionIncarnationAllocationDecision :=
| CIA_Allocated (a : ConnectionIncarnationAllocation)
| CIA_Exhausted (e : ConnectionOrdinalExhaustion).

Definition exhaustion_into_resulting (e : ConnectionOrdinalExhaustion) :=
  match e with
  | COE_MarkExhausted c => coec_resulting c
  | COE_AlreadyExhausted r => coer_unchanged r
  end.

Definition exhaustion_outcome (e : ConnectionOrdinalExhaustion) : ConnectionIncarnationExhausted :=
  CIE_ConnectionOrdinal (al_server_incarnation (exhaustion_into_resulting e)).

(** The [loop]; [None] when the fuel runs out. *)
Fixpoint allocate_loop (fuel : nat) (server : Z) (references : DurableIncarnationReferences)
    (candidate_ordinal skipped_collisions : Z)
    : option ConnectionIncarnationAllocationDecision :=
  match fuel with
  | O => None
  | S fuel =>
      let candidate := mkConnectionIncarnation server candidate_ordinal in
      if negb (collides references candidate) then
        Some (CIA_Allocated (mkAllocation candidate skipped_collisions
          (mkAllocator server (Some candidate_ordinal) (candidate_ordinal =? u64_max))))
      else
        let skipped_collisions := add_u64 skipped_collisions 1 in
        if candidate_ordinal =? u64_max then
          Some (CIA_Exhausted (COE_MarkExhausted (mkExhaustionCommit skipped_collisions
            (mkAllocator server (Some u64_max) true))))
        else
          allocate_loop fuel server references (add_u64 candidate_ordinal 1) skipped_collisions
  end.

Definition allocate_connection_incarnation (fuel : nat)
    (allocator : ConnectionIncarnationAllocator) (references : DurableIncarnationReferences)
    : option ConnectionIncarnationAllocationDecision :=
  let already :=
    Some (CIA_Exhausted (COE_AlreadyExhausted (mkExhaustionReplay allocator))) in
  if al_connection_ordinal_exhausted allocator then already else
  let next_candidate :=
    match al_last_examined_connection_ordinal allocator with
    | None => Some 0
    | Some last => checked_add u64_max last 1
    end in
  match next_candidate with
  | None => already
  | Some candidate_ordinal =>
      allocate_loop fuel (al_server_incarnation allocator) references candidate_ordinal 0
  end.

(** ** Invariant *)

(** The header invariant [try_restore] checks, with the ranges of the fields. *)
Definition allocator_ok (a : ConnectionIncarnationAllocator) : Prop :=
  u64 (al_server_incarnation a) /\ wf_opt u64 (al_last_examined_connection_ordinal a)
  /\ examined_max (al_last_examined_connection_ordinal a) = al_connection_ordinal_exhausted a.

(** The first ordinal that has not been examined. *)
Definition next_ordinal (a : ConnectionIncarnationAllocator) : Z :=
  match al_last_examined_connection_ordinal a with None => 0 | Some last => last + 1 end.

Definition referenced (r : DurableIncarnationReferences) (server ordinal : Z) : Prop :=
  In (mkConnectionIncarnation server ordinal) (dir_values r).

Lemma collides_spec r c : collides r c = true <-> In c (dir_values r).
Proof.
  unfold collides. induction (dir_values r) as [|[s o] values IH]; simpl; [done|].
  destruct c as [s' o']; simpl in *.
  destruct (Z.eqb_spec s s'), (Z.eqb_spec o o'); simpl; subst; rewrite ?IH;
    split; intros H; auto; destruct H as [H|H]; simplify_eq; auto.
Qed.

(** The ordinals from [from] on, [n] of them, are all referenced: a pigeonhole
    bound on [n]. *)
Lemma referenced_count r server from (n : nat) :
  (forall o, from <= o < from + Z.of_nat n -> referenced r server o) ->
  (n <= length (dir_values r))%nat.
Proof.
  intros H.
  set (l := map (fun i => mkConnectionIncarnation server (from + Z.of_nat i)) (seq 0 n)).
  assert (NoDup l) as Hnd.
  { apply NoDup_fmap_2_strong; [|apply NoDup_seq]. intros x y _ _ [= ?]. lia. }
  assert (length l = n) as Hn by (unfold l; by rewrite length_map, length_seq).
  rewrite <- Hn. apply submseteq_length, NoDup_submseteq; [done|]. intros c Hc.
  unfold l in Hc. apply list_elem_of_fmap in Hc as (i & -> & Hi). apply elem_of_seq in Hi.
  apply list_elem_of_In, H. lia.
Qed.

(** What an allocation that starts at ordinal [start] decides. *)
Definition allocation_result (r : DurableIncarnationReferences) (server start : Z)
    (d : ConnectionIncarnationAllocationDecision) : Prop :=
  match d with
  | CIA_Allocated a =>
      exists o, start <= o <= u64_max /\ ~ referenced r server o
        /\ (forall o', start <= o' < o -> referenced r server o')
        /\ a = mkAllocation (mkConnectionIncarnation server o) (o - start)
                 (mkAllocator server (Some o) (o =? u64_max))
  | CIA_Exhausted e =>
      (forall o', start <= o' <= u64_max -> referenced r server o')
      /\ e = COE_MarkExhausted (mkExhaustionCommit (u64_max - start + 1)
                                  (mkAllocator server (Some u64_max) true))
  end.

Lemma allocate_loop_spec r server start fuel : forall c,
  0 <= start <= c -> c <= u64_max ->
  Z.of_nat (length (dir_values r)) <= usize_max ->
  (forall o, start <= o < c -> referenced r server o) ->
  Z.of_nat (length (dir_values r)) < Z.of_nat fuel + (c - start) ->
  exists d, allocate_loop fuel server r c (c - start) = Some d
            /\ allocation_result r server start d.
Proof.
  induction fuel as [|fuel IH]; intros c Hs Hc Hlen Hall Hfuel.
  { pose proof (referenced_count r server start (Z.to_nat (c - start))) as Hp.
    rewrite Z2Nat.id in Hp by lia.
    assert (Z.to_nat (c - start) <= length (dir_values r))%nat by (apply Hp; intros; apply Hall; lia).
    lia. }
  simpl. destruct (collides r (mkConnectionIncarnation server c)) eqn:E; simpl.
  - apply collides_spec in E.
    assert (forall o, start <= o < c + 1 -> referenced r server o) as Hall'.
    { intros o Ho. destruct (decide (o = c)) as [->|]; [done|]. apply Hall. lia. }
    assert (c + 1 - start <= Z.of_nat (length (dir_values r))) as Hcount.
    { pose proof (referenced_count r server start (Z.to_nat (c + 1 - start))) as Hp.
      rewrite Z2Nat.id in Hp by lia. assert (Z.to_nat (c + 1 - start) <= length (dir_values r))%nat
        by (apply Hp; intros; apply Hall'; lia). lia. }
    rewrite (add_u64_exact (c - start)) by mlia.
    destruct (Z.eqb_spec c u64_max) as [->|].
    + eexists. split; [done|]. simpl. split; [|f_equal; f_equal; lia].
      intros o Ho. apply Hall'. lia.
    + rewrite add_u64_exact by mlia. replace (c - start + 1) with (c + 1 - start) by lia.
      apply IH; [lia..|done|lia].
  - eexists. split; [done|]. simpl. exists c. split; [lia|]. split; [|done].
    unfold referenced. intros HIn. apply collides_spec in HIn. congruence.
Qed.

(** The decision of the whole operation on a valid header. *)
Lemma allocate_spec a r fuel :
  allocator_ok a -> Z.of_nat (length (dir_values r)) <= usize_max ->
  (length (dir_values r) < fuel)%nat ->
  exists d, allocate_connection_incarnation fuel a r = Some d
    /\ if al_connection_ordinal_exhausted a
       then d = CIA_Exhausted (COE_AlreadyExhausted (mkExhaustionReplay a))
       else allocation_result r (al_server_incarnation a) (next_ordinal a) d.
Proof.
  intros (Hs & Hl & He) Hlen Hfuel. unfold allocate_connection_incarnation, next_ordinal.
  destruct (al_connection_ordinal_exhausted a) eqn:Ex; [eauto|].
  destruct (al_last_examined_connection_ordinal a) as [last|]; simpl in *.
  - breflect. rewrite checked_add_exact by mlia.
    destruct (allocate_loop_spec r (al_server_incarnation a) (last + 1) fuel (last + 1))
      as (d & Hd & Hr); try mlia.
    rewrite Z.sub_diag in Hd. eauto.
  - destruct (allocate_loop_spec r (al_server_incarnation a) 0 fuel 0)
      as (d & Hd & Hr); try mlia.
    eauto.
Qed.

(** The state a decision leaves. *)
Definition decision_resulting (d : ConnectionIncarnationAllocationDecision)
    : ConnectionIncarnationAllocator :=
  match d with
  | CIA_Allocated a => cia_resulting a
  | CIA_Exhausted e => exhaustion_into_resulting e
  end.

Lemma allocation_result_ok r server start d : u64 server -> 0 <= start ->
  allocation_result r server start d -> allocator_ok (decision_resulting d).
Proof.
  intros Hs Hst. destruct d as [c|e]; simpl.
  - intros (o & Ho & _ & _ & ->). split; [done|]. split; [simpl; mlia|done].
  - intros (_ & ->). split; [done|]. split; [simpl; mlia|done].
Qed.

Lemma next_ordinal_nonneg a : allocator_ok a -> 0 <= next_ordinal a.
Proof.
  intros (_ & Hl & _). unfold next_ordinal.
  destruct (al_last_examined_connection_ordinal a); simpl in *; mlia.
Qed.

Lemma allocate_keeps_ok a r fuel d :
  allocator_ok a -> Z.of_nat (length (dir_values r)) <= usize_max ->
  (length (dir_values r) < fuel)%nat ->
  allocate_connection_incarnation fuel a r = Some d -> allocator_ok (decision_resulting d).
Proof.
  intros Ha Hlen Hfuel Hd. destruct (allocate_spec a r fuel Ha Hlen Hfuel) as (d' & Hd' & Hr).
  rewrite Hd' in Hd. simplify_eq. pose proof (next_ordinal_nonneg a Ha).
  destruct (al_connection_ordinal_exhausted a); [by subst|].
  eapply allocation_result_ok; [| |done]; [apply Ha | done].
Qed.

Lemma try_restore_as_restore a : allocator_ok a -> allocator_try_restore (as_restore a) = Ok a.
Proof.
  intros (_ & _ & He). unfold allocator_try_restore, as_restore; simpl. rewrite He.
  rewrite Bool.eqb_reflx. by destruct a.
Qed.

(** More fuel gives the same decision. *)
Lemma allocate_loop_more r server fuel : forall extra c sk d,
  allocate_loop fuel server r c sk = Some d ->
  allocate_loop (fuel + extra) server r c sk = Some d.
Proof.
  induction fuel as [|fuel IH]; simpl; [done|]. intros extra c sk d.
  destruct (negb _); [done|]. destruct (_ =? _); [done|]. apply IH.
Qed.

(** ** Properties *)

(** Allocation always terminates: within one iteration more than there are
    references the loop has decided, the decision does not depend on how much
    more it is allowed, and the resulting header again satisfies the restart
    check of [try_restore]. *)
Theorem allocation_total a r fuel :
  allocator_ok a -> Z.of_nat (length (dir_values r)) <= usize_max ->
  exists d, allocate_connection_incarnation (S (length (dir_values r)) + fuel) a r = Some d
    /\ allocate_connection_incarnation (S (length (dir_values r))) a r = Some d
    /\ allocator_try_restore (as_restore (decision_resulting d)) = Ok (decision_resulting d).
Proof.
  intros Ha Hlen. destruct (allocate_spec a r (S (length (dir_values r))) Ha Hlen ltac:(lia))
    as (d & Hd & _).
  exists d. split; [|split; [done|]].
  - revert Hd. unfold allocate_connection_incarnation.
    destruct (al_connection_ordinal_exhausted a); [done|].
    destruct (al_last_examined_connection_ordinal a) as [last|]; [|apply allocate_loop_more].
    destruct (checked_add _ _ _); [apply allocate_loop_more | done].
  - apply try_restore_as_restore. 
    apply (allocate_keeps_ok a r (S (length (dir_values r))) d Ha Hlen ltac:(lia) Hd).
Qed.

Lemma allocation_total_witness :
  let r := mkReferences [mkConnectionIncarnation 2 0; mkConnectionIncarnation 2 1] in
  exists d, allocate_connection_incarnation 3 (mkAllocator 2 None false) r = Some d
    /\ allocator_try_restore (as_restore (decision_resulting d)) = Ok (decision_resulting d).
Proof.
  intros r. destruct (allocation_total (mkAllocator 2 None false) r 0) as (d & ? & ? & ?);
    [repeat split; ground | ground | eauto].
Defined.

(** An allocated incarnation is fresh and least: it is named by no live or
    durable reference, its ordinal is above every ordinal examined before, every
    ordinal skipped on the way was referenced and is counted, and the header
    records it as examined. *)
Theorem allocation_fresh a r fuel c :
  allocator_ok a -> Z.of_nat (length (dir_values r)) <= usize_max ->
  allocate_connection_incarnation (S (length (dir_values r)) + fuel) a r = Some (CIA_Allocated c) ->
  let o := connection_ordinal (cia_connection_incarnation c) in
  ~ In (cia_connection_incarnation c) (dir_values r)
  /\ server_incarnation (cia_connection_incarnation c) = al_server_incarnation a
  /\ next_ordinal a <= o <= u64_max
  /\ (forall o', next_ordinal a <= o' < o ->
        In (mkConnectionIncarnation (al_server_incarnation a) o') (dir_values r))
  /\ cia_skipped_collisions c = o - next_ordinal a
  /\ al_last_examined_connection_ordinal (cia_resulting c) = Some o.
Proof.
  intros Ha Hlen Hd.
  destruct (allocate_spec a r (S (length (dir_values r)) + fuel) Ha Hlen ltac:(lia))
    as (d & Hd' & Hr).
  rewrite Hd' in Hd. simplify_eq. destruct (al_connection_ordinal_exhausted a); [done|].
  destruct Hr as (o & Ho & Hn & Hall & ->). simpl. done.
Qed.

Lemma allocation_fresh_witness :
  let r := mkReferences [mkConnectionIncarnation 2 0; mkConnectionIncarnation 2 1] in
  exists c, allocate_connection_incarnation 3 (mkAllocator 2 None false) r = Some (CIA_Allocated c)
    /\ cia_skipped_collisions c = 2
    /\ ~ In (cia_connection_incarnation c) (dir_values r).
Proof.
  intros r. eexists. split; [reflexivity|]. split; [reflexivity|].
  refine (proj1 (allocation_fresh (mkAllocator 2 None false) r 0 _ _ _ _));
    [repeat split; ground | ground | reflexivity].
Defined.

(** Exhaustion is reached only when every remaining ordinal is referenced,
    and is permanent: whatever the references become, the next allocation from the
    resulting state is refused, changes nothing and reports the same server
    incarnation. *)
Theorem exhaustion_permanent a r fuel e :
  allocator_ok a -> Z.of_nat (length (dir_values r)) <= usize_max ->
  allocate_connection_incarnation (S (length (dir_values r)) + fuel) a r = Some (CIA_Exhausted e) ->
  (forall o, next_ordinal a <= o <= u64_max ->
     In (mkConnectionIncarnation (al_server_incarnation a) o) (dir_values r))
  /\ forall r' fuel',
       allocate_connection_incarnation fuel' (exhaustion_into_resulting e) r'
       = Some (CIA_Exhausted (COE_AlreadyExhausted (mkExhaustionReplay (exhaustion_into_resulting e))))
       /\ exhaustion_outcome e = CIE_ConnectionOrdinal (al_server_incarnation a).
Proof.
  intros Ha Hlen Hd.
  destruct (allocate_spec a r (S (length (dir_values r)) + fuel) Ha Hlen ltac:(lia))
    as (d & Hd' & Hr).
  rewrite Hd' in Hd. simplify_eq. destruct (al_connection_ordinal_exhausted a) eqn:Ex.
  - simplify_eq; simpl. split.
    + intros o Ho. exfalso. destruct Ha as (_ & _ & He). rewrite Ex in He.
      unfold next_ordinal, examined_max in *.
      destruct (al_last_examined_connection_ordinal a); [|done]. breflect. lia.
    + intros r' fuel'. unfold allocate_connection_incarnation. by rewrite Ex.
  - destruct Hr as [Hall ->]. done.
Qed.

Lemma exhaustion_permanent_witness :
  let a := mkAllocator 2 (Some (u64_max - 1)) false in
  let r := mkReferences [mkConnectionIncarnation 2 u64_max] in
  exists e, allocate_connection_incarnation 2 a r = Some (CIA_Exhausted e)
    /\ allocate_connection_incarnation 0 (exhaustion_into_resulting e) (mkReferences [])
       = Some (CIA_Exhausted (COE_AlreadyExhausted (mkExhaustionReplay (exhaustion_into_resulting e)))).
Proof.
  intros a r. eexists. split; [reflexivity|].
  refine (proj1 (proj2 (exhaustion_permanent a r 0 _ _ _ _) _ _));
    [repeat split; ground | ground | reflexivity].
Defined.

(** ** Runs *)

(** The lifetime of an allocator: connections are allocated, each against the
    references of its moment, and the server restarts. *)
Inductive incarnation_step : ConnectionIncarnationAllocator ->
    option ConnectionIncarnation -> ConnectionIncarnationAllocator -> Prop :=
| istep_allocate a r c :
    Z.of_nat (length (dir_values r)) <= usize_max ->
    allocate_connection_incarnation (S (length (dir_values r))) a r = Some (CIA_Allocated c) ->
    incarnation_step a (Some (cia_connection_incarnation c)) (cia_resulting c)
| istep_refuse a r e :
    Z.of_nat (length (dir_values r)) <= usize_max ->
    allocate_connection_incarnation (S (length (dir_values r))) a r = Some (CIA_Exhausted e) ->
    incarnation_step a None (exhaustion_into_resulting e)
| istep_restart a i :
    prepare_server_incarnation_startup a = SID_Fsync i ->
    incarnation_step a None (complete_after_fsync i)
| istep_restart_exhausted a e :
    prepare_server_incarnation_startup a = SID_Exhausted e ->
    incarnation_step a None (se_unchanged e).

Inductive incarnation_run (a : ConnectionIncarnationAllocator)
    : list ConnectionIncarnation -> ConnectionIncarnationAllocator -> Prop :=
| irun_nil : incarnation_run a [] a
| irun_step cs a1 o a2 :
    incarnation_run a cs a1 -> incarnation_step a1 o a2 ->
    incarnation_run a (cs ++ match o with Some c => [c] | None => [] end) a2.

(** Already issued from state [a]: an older server, or an examined ordinal. *)
Definition issued (a : ConnectionIncarnationAllocator) (c : ConnectionIncarnation) : Prop :=
  server_incarnation c < al_server_incarnation a
  \/ server_incarnation c = al_server_incarnation a /\ connection_ordinal c < next_ordinal a.

Lemma startup_step a i : allocator_ok a ->
  prepare_server_incarnation_startup a = SID_Fsync i ->
  allocator_ok (complete_after_fsync i)
  /\ fi_prior_server_incarnation i = al_server_incarnation a
  /\ complete_after_fsync i = mkAllocator (al_server_incarnation a + 1) None false.
Proof.
  intros (Hs & _ & _). unfold prepare_server_incarnation_startup.
  destruct (checked_add _ _ _) as [n|] eqn:E; [|done]. intros [= <-]. simpl.
  unfold checked_add in E. csplit_in E. simplify_eq. breflect.
  split; [|done]. split; [simpl; mlia|]. done.
Qed.

(** One step keeps the invariant, issues only what was not issued, and never
    forgets what was. *)
Lemma incarnation_step_ok a o a' : allocator_ok a -> incarnation_step a o a' ->
  allocator_ok a'
  /\ (forall c, issued a c -> issued a' c)
  /\ (forall c, o = Some c -> ~ issued a c /\ issued a' c).
Proof.
  intros Ha Hstep. destruct Hstep as [a r c Hlen Hd | a r e Hlen Hd | a i Hi | a e He].
  - destruct (allocate_spec a r (S (length (dir_values r))) Ha Hlen ltac:(lia)) as (d & Hd' & Hr).
    rewrite Hd' in Hd. simplify_eq.
    split; [by apply (allocate_keeps_ok a r _ _ Ha Hlen (Nat.lt_succ_diag_r _) Hd')|].
    destruct (al_connection_ordinal_exhausted a); [done|].
    destruct Hr as (o & Ho & _ & _ & ->). unfold issued; simpl. unfold next_ordinal at 2 4; simpl.
    split; [intros c; lia|]. intros c [= <-]; simpl. lia.
  - destruct (allocate_spec a r (S (length (dir_values r))) Ha Hlen ltac:(lia)) as (d & Hd' & Hr).
    rewrite Hd' in Hd. simplify_eq.
    split; [by apply (allocate_keeps_ok a r _ _ Ha Hlen (Nat.lt_succ_diag_r _) Hd')|]. split; [|done].
    destruct (al_connection_ordinal_exhausted a) eqn:Ex; [by simplify_eq|].
    destruct Hr as [_ ->]. destruct Ha as (_ & Hl & He). rewrite Ex in He.
    unfold issued, next_ordinal; simpl. intros c.
    destruct (al_last_examined_connection_ordinal a) as [last|]; simpl in *; mlia.
  - destruct (startup_step a i Ha Hi) as (Hok & _ & Heq). split; [done|]. rewrite Heq. split; [|done].
    unfold issued; simpl. intros c. lia.
  - revert He. unfold prepare_server_incarnation_startup. csplit; [|intros [= <-]]; done.
Qed.

(** C34: no connection incarnation is ever issued twice: along every sequence of
    allocations (against any references), refusals and server restarts the issued
    incarnations are pairwise distinct, none of them had been issued by the
    starting state, and the header stays valid. *)
Theorem incarnations_unique a cs a' :
  allocator_ok a -> incarnation_run a cs a' ->
  NoDup cs /\ allocator_ok a'
  /\ (forall c, In c cs -> ~ issued a c /\ issued a' c).
Proof.
  intros Ha Hrun.
  assert (NoDup cs /\ allocator_ok a' /\ (forall c, issued a c -> issued a' c)
          /\ (forall c, In c cs -> ~ issued a c /\ issued a' c)) as (? & ? & _ & ?); [|done].
  induction Hrun as [|cs a1 o a2 _ (Hnd & Hok & Hmono & Hin) Hstep].
  { split; [constructor|]. done. }
  destruct (incarnation_step_ok a1 o a2 Hok Hstep) as (Hok' & Hmono' & Hnew).
  split; [|split; [done|split; [auto|]]].
  - apply NoDup_app. split; [done|]. split; [|destruct o; [apply NoDup_singleton|constructor]].
    intros c Hc Hc'. destruct o as [x|]; [|by apply elem_of_nil in Hc'].
    apply list_elem_of_singleton in Hc' as ->. apply list_elem_of_In in Hc.
    destruct (Hnew x eq_refl) as [Hx _]. by apply Hx, Hin.
  - intros c [Hc|Hc]%in_app_iff; [destruct (Hin c Hc); auto|].
    destruct o as [x|]; [|done]. destruct Hc as [->|[]].
    destruct (Hnew c eq_refl) as [Hx Hx']. auto.
Qed.

Lemma incarnations_unique_witness :
  let r := mkReferences [mkConnectionIncarnation 2 0] in
  exists a', incarnation_run (mkAllocator 2 None false)
      [mkConnectionIncarnation 2 1; mkConnectionIncarnation 3 0] a'
    /\ NoDup [mkConnectionIncarnation 2 1; mkConnectionIncarnation 3 0].
Proof.
  intros r.
  assert (incarnation_run (mkAllocator 2 None false)
      [mkConnectionIncarnation 2 1; mkConnectionIncarnation 3 0] (mkAllocator 3 (Some 0) false)) as H.
  { apply (irun_step _ [mkConnectionIncarnation 2 1] (mkAllocator 3 None false)
             (Some (mkConnectionIncarnation 3 0))).
    - apply (irun_step _ [mkConnectionIncarnation 2 1] (mkAllocator 2 (Some 1) false) None).
      + apply (irun_step _ [] (mkAllocator 2 None false) (Some (mkConnectionIncarnation 2 1)));
          [constructor|].
        refine (istep_allocate _ r (mkAllocation (mkConnectionIncarnation 2 1) 1
                 (mkAllocator 2 (Some 1) false)) _ _); [ground|reflexivity].
      + refine (istep_restart _ (mkFsyncIntent 2 (mkAllocator 3 None false)) _). reflexivity.
    - refine (istep_allocate _ (mkReferences []) (mkAllocation (mkConnectionIncarnation 3 0) 0
               (mkAllocator 3 (Some 0) false)) _ _); [ground|reflexivity]. }
  eexists. split; [exact H|].
  refine (proj1 (incarnations_unique (mkAllocator 2 None false) _ _ _ H)). repeat split; ground.
Defined.
