(* ===== verification/Edge.v ===== *)
(** * Closure debt and repayment edges

    Model of the data of [liminal-protocol/src/lifecycle/edge.rs]: the nonzero
    closure debt, the seven stored repayment edges and the closure state that
    owes one of them.  Values the source can only obtain from a validated
    authority are plain records here; the fallible constructors keep their
    conditions. *)
From S2P Require Import Prelude Algebra Tags Wire.

(** Nonzero by construction. *)
Record ClosureDebt := mkClosureDebt { debt_value : WideResourceVector }.
Definition ClosureDebt_new (value : WideResourceVector) : option ClosureDebt :=
  if is_zero value then None else Some (mkClosureDebt value).

Record ObserverProjection := mkObserverProjection { op_through_seq : DeliverySeq }.

Record PhysicalCompaction := mkPhysicalCompaction {
  pc_from_floor : DeliverySeq;
  pc_through_seq : DeliverySeq;
}.
Definition PhysicalCompaction_new (from_floor through_seq : DeliverySeq)
    : option PhysicalCompaction :=
  if from_floor <=? through_seq then Some (mkPhysicalCompaction from_floor through_seq) else None.

Record MarkerDelivery := mkMarkerDelivery {
  md_conversation_id : ConversationId;
  md_participant_id : ParticipantId;
  md_binding_epoch : BindingEpoch;
  md_marker_delivery_seq : DeliverySeq;
}.

Record CursorProgressContinuous := mkCursorProgressContinuous {
  cpc_participant_id : ParticipantId;
  cpc_binding_epoch : BindingEpoch;
  cpc_through_seq : DeliverySeq;
}.

Record CursorProgressMarker := mkCursorProgressMarker {
  cpm_conversation_id : ConversationId;
  cpm_participant_id : ParticipantId;
  cpm_binding_epoch : BindingEpoch;
  cpm_through_seq : DeliverySeq;
  cpm_marker_delivery_seq : DeliverySeq;
}.

Inductive ParticipantCursorProgress :=
| PCP_Continuous (v : CursorProgressContinuous)
| PCP_Marker (v : CursorProgressMarker).

Definition cp_participant_id (p : ParticipantCursorProgress) : ParticipantId :=
  match p with
  | PCP_Continuous v => cpc_participant_id v
  | PCP_Marker v => cpm_participant_id v
  end.
Definition cp_binding_epoch (p : ParticipantCursorProgress) : BindingEpoch :=
  match p with
  | PCP_Continuous v => cpc_binding_epoch v
  | PCP_Marker v => cpm_binding_epoch v
  end.
Definition cp_through_seq (p : ParticipantCursorProgress) : DeliverySeq :=
  match p with
  | PCP_Continuous v => cpc_through_seq v
  | PCP_Marker v => cpm_through_seq v
  end.
Definition cp_marker_delivery_seq (p : ParticipantCursorProgress) : option DeliverySeq :=
  match p with
  | PCP_Continuous _ => None
  | PCP_Marker v => Some (cpm_marker_delivery_seq v)
  end.

Record DetachedCredentialRecovery := mkDetachedCredentialRecovery {
  dcr_conversation_id : ConversationId;
  dcr_participant_id : ParticipantId;
  dcr_marker_delivery_seq : DeliverySeq;
  dcr_prior_binding_epoch : BindingEpoch;
}.

Record DetachedMarkerRelease := mkDetachedMarkerRelease {
  dmr_participant_id : ParticipantId;
  dmr_marker_delivery_seq : DeliverySeq;
  dmr_last_dead_binding_epoch : BindingEpoch;
}.

Record DetachedCursorRelease := mkDetachedCursorRelease {
  dur_participant_id : ParticipantId;
  dur_last_dead_binding_epoch : BindingEpoch;
}.

Inductive StoredEdge :=
| SE_ObserverProjection (e : ObserverProjection)
| SE_PhysicalCompaction (e : PhysicalCompaction)
| SE_MarkerDelivery (e : MarkerDelivery)
| SE_ParticipantCursorProgress (e : ParticipantCursorProgress)
| SE_DetachedCredentialRecovery (e : DetachedCredentialRecovery)
| SE_DetachedMarkerRelease (e : DetachedMarkerRelease)
| SE_DetachedCursorRelease (e : DetachedCursorRelease).

Inductive ClosureState :=
| Closure_Clear
| Closure_Owed (debt : ClosureDebt) (edge : StoredEdge).

(** The ranges of the fields and the conditions of the constructors. *)
Definition wf_debt (d : ClosureDebt) : Prop :=
  wrv_ok (debt_value d) /\ is_zero (debt_value d) = false.

Definition wf_stored_edge (e : StoredEdge) : Prop :=
  match e with
  | SE_ObserverProjection e => u64 (op_through_seq e)
  | SE_PhysicalCompaction e =>
      u64 (pc_from_floor e) /\ u64 (pc_through_seq e) /\ pc_from_floor e <= pc_through_seq e
  | SE_MarkerDelivery e =>
      u64 (md_conversation_id e) /\ u64 (md_participant_id e) /\ wf_epoch (md_binding_epoch e)
      /\ u64 (md_marker_delivery_seq e)
  | SE_ParticipantCursorProgress (PCP_Continuous e) =>
      u64 (cpc_participant_id e) /\ wf_epoch (cpc_binding_epoch e) /\ u64 (cpc_through_seq e)
  | SE_ParticipantCursorProgress (PCP_Marker e) =>
      u64 (cpm_conversation_id e) /\ u64 (cpm_participant_id e) /\ wf_epoch (cpm_binding_epoch e)
      /\ u64 (cpm_through_seq e) /\ u64 (cpm_marker_delivery_seq e)
  | SE_DetachedCredentialRecovery e =>
      u64 (dcr_conversation_id e) /\ u64 (dcr_participant_id e)
      /\ u64 (dcr_marker_delivery_seq e) /\ wf_epoch (dcr_prior_binding_epoch e)
  | SE_DetachedMarkerRelease e =>
      u64 (dmr_participant_id e) /\ u64 (dmr_marker_delivery_seq e)
      /\ wf_epoch (dmr_last_dead_binding_epoch e)
  | SE_DetachedCursorRelease e =>
      u64 (dur_participant_id e) /\ wf_epoch (dur_last_dead_binding_epoch e)
  end.

Definition wf_closure_state (s : ClosureState) : Prop :=
  match s with
  | Closure_Clear => True
  | Closure_Owed debt edge => wf_debt debt /\ wf_stored_edge edge
  end.

(** ** Participants of a frontier

    The two facts [claim_frontier.rs] keeps for a live participant: its cursor
    and whether it is bound. *)
Inductive FrontierBinding :=
| FB_Bound (epoch : BindingEpoch)
| FB_Detached (epoch : BindingEpoch).

Record FrontierParticipant := mkFrontierParticipant {
  fp_participant_index : ParticipantId;
  fp_cursor : DeliverySeq;
  fp_binding : FrontierBinding;
}.

#[export] Instance FrontierBinding_eq_dec : EqDecision FrontierBinding.
Proof. solve_decision. Defined.

Definition wf_frontier_binding (b : FrontierBinding) : Prop :=
  match b with FB_Bound e | FB_Detached e => wf_epoch e end.
