(* ===== verification/Binding.v ===== *)
(** * Bindings and their terminals

    Model of [liminal-protocol/src/lifecycle/binding.rs]: the active binding of a
    participant, the committed and pending terminals that end it, the transition of
    each close cause and the restoration of a terminal from its durable cause.  The
    admission order and its candidate phase ([outcome/internal.rs]) and the observer
    projection of a committed terminal ([observer_recovery.rs]) are here too. *)
From S2P Require Import Prelude Algebra Tags Wire.

(** ** Admission order *)

Inductive CandidatePhase :=
| CP_BindingTerminal | CP_MembershipExit | CP_AttachLifecycle | CP_OrdinaryRecord
| CP_CompactionMarker.

Record AdmissionOrder := mkAdmissionOrder {
  ao_transaction_order : TransactionOrder;
  ao_candidate_phase : CandidatePhase;
  ao_participant_index : ParticipantIndex;
}.
Definition binding_terminal (transaction_order : TransactionOrder)
    (participant_id : ParticipantId) : AdmissionOrder :=
  mkAdmissionOrder transaction_order CP_BindingTerminal participant_id.

#[export] Instance CandidatePhase_eq_dec : EqDecision CandidatePhase.
Proof. solve_decision. Defined.
#[export] Instance AdmissionOrder_eq_dec : EqDecision AdmissionOrder.
Proof. unfold TransactionOrder, ParticipantIndex in *. solve_decision. Defined.

(** ** Active bindings and positions *)

Record ActiveBinding := mkActiveBinding {
  bnd_participant_id : ParticipantId;
  bnd_conversation_id : ConversationId;
  bnd_binding_epoch : BindingEpoch;
}.

Record CommittedBindingTerminalPosition := mkCommittedPosition {
  cbp_transaction_order : TransactionOrder;
  cbp_delivery_seq : DeliverySeq;
}.
Record PendingBindingTerminalPosition := mkPendingPosition {
  pbp_transaction_order : TransactionOrder;
}.
Inductive BindingTerminalDisposition :=
| BTD_Committed (position : CommittedBindingTerminalPosition)
| BTD_Pending (position : PendingBindingTerminalPosition).

Record BindingTerminalIdentity := mkTerminalIdentity {
  bti_participant_id : ParticipantId;
  bti_conversation_id : ConversationId;
  bti_binding_epoch : BindingEpoch;
  bti_admission_order : AdmissionOrder;
}.
Definition from_active (binding : ActiveBinding) (transaction_order : TransactionOrder)
    : BindingTerminalIdentity :=
  mkTerminalIdentity (bnd_participant_id binding) (bnd_conversation_id binding)
    (bnd_binding_epoch binding)
    (binding_terminal transaction_order (bnd_participant_id binding)).

(** ** Terminals *)

Record CommittedDetachedTerminal := mkCommittedDetached {
  cdt_identity : BindingTerminalIdentity;
  cdt_cause : DetachedCause;
  cdt_delivery_seq : DeliverySeq;
}.
Record CommittedDiedTerminal := mkCommittedDied {
  cdd_identity : BindingTerminalIdentity;
  cdd_cause : DiedCause;
  cdd_delivery_seq : DeliverySeq;
}.
Inductive CommittedBindingTerminal :=
| CBT_Detached (value : CommittedDetachedTerminal)
| CBT_Died (value : CommittedDiedTerminal).

Record PendingDetachedFinalization := mkPendingDetached {
  pdf_identity : BindingTerminalIdentity;
  pdf_cause : DetachedCause;
}.
Record PendingDiedFinalization := mkPendingDied {
  pdd_identity : BindingTerminalIdentity;
  pdd_cause : DiedCause;
}.
Inductive PendingFinalization :=
| PF_Detached (value : PendingDetachedFinalization)
| PF_Died (value : PendingDiedFinalization).

Inductive BindingTerminalKind := BTK_Detached | BTK_Died.

Inductive BindingState :=
| BS_Detached
| BS_Bound (binding : ActiveBinding)
| BS_PendingFinalization (pending : PendingFinalization).

#[export] Instance DetachedCause_eq_dec : EqDecision DetachedCause.
Proof. solve_decision. Defined.
#[export] Instance DiedCause_eq_dec : EqDecision DiedCause.
Proof. solve_decision. Defined.
#[export] Instance BindingTerminalIdentity_eq_dec : EqDecision BindingTerminalIdentity.
Proof. unfold ParticipantId, ConversationId in *. solve_decision. Defined.
#[export] Instance ActiveBinding_eq_dec : EqDecision ActiveBinding.
Proof. unfold ParticipantId, ConversationId in *. solve_decision. Defined.
#[export] Instance CommittedDetachedTerminal_eq_dec : EqDecision CommittedDetachedTerminal.
Proof. unfold DeliverySeq in *. solve_decision. Defined.
#[export] Instance CommittedDiedTerminal_eq_dec : EqDecision CommittedDiedTerminal.
Proof. unfold DeliverySeq in *. solve_decision. Defined.
#[export] Instance CommittedBindingTerminal_eq_dec : EqDecision CommittedBindingTerminal.
Proof. solve_decision. Defined.
#[export] Instance PendingDetachedFinalization_eq_dec : EqDecision PendingDetachedFinalization.
Proof. solve_decision. Defined.
#[export] Instance PendingDiedFinalization_eq_dec : EqDecision PendingDiedFinalization.
Proof. solve_decision. Defined.
#[export] Instance PendingFinalization_eq_dec : EqDecision PendingFinalization.
Proof. solve_decision. Defined.
#[export] Instance BindingState_eq_dec : EqDecision BindingState.
Proof. solve_decision. Defined.

(** The accessors of committed terminals. *)
Definition cbt_identity (t : CommittedBindingTerminal) : BindingTerminalIdentity :=
  match t with CBT_Detached v => cdt_identity v | CBT_Died v => cdd_identity v end.
Definition cbt_participant_id (t : CommittedBindingTerminal) : ParticipantId :=
  bti_participant_id (cbt_identity t).
Definition cbt_conversation_id (t : CommittedBindingTerminal) : ConversationId :=
  bti_conversation_id (cbt_identity t).
Definition cbt_binding_epoch (t : CommittedBindingTerminal) : BindingEpoch :=
  bti_binding_epoch (cbt_identity t).
Definition cbt_admission_order (t : CommittedBindingTerminal) : AdmissionOrder :=
  bti_admission_order (cbt_identity t).
Definition cbt_delivery_seq (t : CommittedBindingTerminal) : DeliverySeq :=
  match t with CBT_Detached v => cdt_delivery_seq v | CBT_Died v => cdd_delivery_seq v end.
Definition cbt_kind (t : CommittedBindingTerminal) : BindingTerminalKind :=
  match t with CBT_Detached _ => BTK_Detached | CBT_Died _ => BTK_Died end.
Definition cbt_close_cause (t : CommittedBindingTerminal) : CloseCause :=
  match t with
  | CBT_Detached v => detached_close_cause (cdt_cause v)
  | CBT_Died v => died_close_cause (cdd_cause v)
  end.
Definition cbt_detached_cause (t : CommittedBindingTerminal) : option DetachedCause :=
  match t with CBT_Detached v => Some (cdt_cause v) | CBT_Died _ => None end.
Definition cbt_died_cause (t : CommittedBindingTerminal) : option DiedCause :=
  match t with CBT_Detached _ => None | CBT_Died v => Some (cdd_cause v) end.

(** The accessors of pending finalizations. *)
Definition pf_identity (p : PendingFinalization) : BindingTerminalIdentity :=
  match p with PF_Detached v => pdf_identity v | PF_Died v => pdd_identity v end.
Definition pf_participant_id (p : PendingFinalization) : ParticipantId :=
  bti_participant_id (pf_identity p).
Definition pf_conversation_id (p : PendingFinalization) : ConversationId :=
  bti_conversation_id (pf_identity p).
Definition pf_binding_epoch (p : PendingFinalization) : BindingEpoch :=
  bti_binding_epoch (pf_identity p).
Definition pf_admission_order (p : PendingFinalization) : AdmissionOrder :=
  bti_admission_order (pf_identity p).
Definition pf_kind (p : PendingFinalization) : BindingTerminalKind :=
  match p with PF_Detached _ => BTK_Detached | PF_Died _ => BTK_Died end.
Definition pf_close_cause (p : PendingFinalization) : CloseCause :=
  match p with
  | PF_Detached v => detached_close_cause (pdf_cause v)
  | PF_Died v => died_close_cause (pdd_cause v)
  end.
Definition pf_detached_cause (p : PendingFinalization) : option DetachedCause :=
  match p with PF_Detached v => Some (pdf_cause v) | PF_Died _ => None end.
Definition pf_died_cause (p : PendingFinalization) : option DiedCause :=
  match p with PF_Detached _ => None | PF_Died v => Some (pdd_cause v) end.

(** [PendingDetachedFinalization::commit] and its siblings. *)
Definition pdf_commit (p : PendingDetachedFinalization) (delivery_seq : DeliverySeq)
    : CommittedDetachedTerminal :=
  mkCommittedDetached (pdf_identity p) (pdf_cause p) delivery_seq.
Definition pdd_commit (p : PendingDiedFinalization) (delivery_seq : DeliverySeq)
    : CommittedDiedTerminal :=
  mkCommittedDied (pdd_identity p) (pdd_cause p) delivery_seq.
Definition pf_commit (p : PendingFinalization) (delivery_seq : DeliverySeq)
    : CommittedBindingTerminal :=
  match p with
  | PF_Detached v => CBT_Detached (pdf_commit v delivery_seq)
  | PF_Died v => CBT_Died (pdd_commit v delivery_seq)
  end.

(** ** Transitions *)

Record ObserverProgressProjection := mkObserverProgressProjection {
  opp_conversation_id : ConversationId;
  opp_new_observer_progress : DeliverySeq;
}.

Inductive DetachedBindingTransition :=
| DBT_Committed (terminal : CommittedDetachedTerminal)
| DBT_Pending (pending : PendingDetachedFinalization).
Inductive DiedBindingTransition :=
| YBT_Committed (terminal : CommittedDiedTerminal)
| YBT_Pending (pending : PendingDiedFinalization).

Definition dbt_observer_progress_projection (t : DetachedBindingTransition)
    : option ObserverProgressProjection :=
  match t with
  | DBT_Committed terminal =>
      Some (mkObserverProgressProjection (bti_conversation_id (cdt_identity terminal))
              (cdt_delivery_seq terminal))
  | DBT_Pending _ => None
  end.
Definition dbt_binding_state (t : DetachedBindingTransition) : BindingState :=
  match t with
  | DBT_Committed _ => BS_Detached
  | DBT_Pending value => BS_PendingFinalization (PF_Detached value)
  end.
Definition ybt_observer_progress_projection (t : DiedBindingTransition)
    : option ObserverProgressProjection :=
  match t with
  | YBT_Committed terminal =>
      Some (mkObserverProgressProjection (bti_conversation_id (cdd_identity terminal))
              (cdd_delivery_seq terminal))
  | YBT_Pending _ => None
  end.
Definition ybt_binding_state (t : DiedBindingTransition) : BindingState :=
  match t with
  | YBT_Committed _ => BS_Detached
  | YBT_Pending value => BS_PendingFinalization (PF_Died value)
  end.

Definition finish_detached (b : ActiveBinding) (cause : DetachedCause)
    (disposition : BindingTerminalDisposition) : DetachedBindingTransition :=
  match disposition with
  | BTD_Committed position =>
      DBT_Committed (mkCommittedDetached (from_active b (cbp_transaction_order position)) cause
                       (cbp_delivery_seq position))
  | BTD_Pending position =>
      DBT_Pending (mkPendingDetached (from_active b (pbp_transaction_order position)) cause)
  end.
Definition finish_died (b : ActiveBinding) (cause : DiedCause)
    (disposition : BindingTerminalDisposition) : DiedBindingTransition :=
  match disposition with
  | BTD_Committed position =>
      YBT_Committed (mkCommittedDied (from_active b (cbp_transaction_order position)) cause
                       (cbp_delivery_seq position))
  | BTD_Pending position =>
      YBT_Pending (mkPendingDied (from_active b (pbp_transaction_order position)) cause)
  end.

Definition clean_deregister (b : ActiveBinding) (disposition : BindingTerminalDisposition) :=
  finish_detached b DTC_CleanDeregister disposition.
Definition commit_clean_deregister (b : ActiveBinding)
    (position : CommittedBindingTerminalPosition) : CommittedDetachedTerminal :=
  mkCommittedDetached (from_active b (cbp_transaction_order position)) DTC_CleanDeregister
    (cbp_delivery_seq position).
Definition pending_clean_deregister (b : ActiveBinding)
    (position : PendingBindingTerminalPosition) : PendingDetachedFinalization :=
  mkPendingDetached (from_active b (pbp_transaction_order position)) DTC_CleanDeregister.
Definition clean_disconnect (b : ActiveBinding) (disposition : BindingTerminalDisposition) :=
  clean_deregister b disposition.
Definition superseded (b : ActiveBinding) (position : CommittedBindingTerminalPosition)
    : CommittedDetachedTerminal :=
  mkCommittedDetached (from_active b (cbp_transaction_order position)) DTC_Superseded
    (cbp_delivery_seq position).
Definition server_shutdown (b : ActiveBinding) (disposition : BindingTerminalDisposition) :=
  finish_detached b DTC_ServerShutdown disposition.
Definition connection_lost (b : ActiveBinding) (disposition : BindingTerminalDisposition) :=
  finish_died b DDC_ConnectionLost disposition.
Definition process_killed (b : ActiveBinding) (disposition : BindingTerminalDisposition) :=
  finish_died b DDC_ProcessKilled disposition.
Definition protocol_error (b : ActiveBinding) (disposition : BindingTerminalDisposition) :=
  finish_died b DDC_ProtocolError disposition.
Definition unclean_server_restart (b : ActiveBinding) (disposition : BindingTerminalDisposition) :=
  finish_died b
    (DDC_UncleanServerRestart (server_incarnation (connection_incarnation (bnd_binding_epoch b))))
    disposition.

(** ** Restoration *)

Definition restore_pending_finalization (binding : ActiveBinding) (cause : CloseCause)
    (transaction_order : TransactionOrder) : option PendingFinalization :=
  let position := BTD_Pending (mkPendingPosition transaction_order) in
  let detached t :=
    match t with DBT_Pending value => Some (PF_Detached value) | DBT_Committed _ => None end in
  let died t :=
    match t with YBT_Pending value => Some (PF_Died value) | YBT_Committed _ => None end in
  match cause with
  | CC_CleanDeregister => detached (clean_deregister binding position)
  | CC_ServerShutdown => detached (server_shutdown binding position)
  | CC_Superseded => None
  | CC_ConnectionLost => died (connection_lost binding position)
  | CC_ProcessKilled => died (process_killed binding position)
  | CC_ProtocolError => died (protocol_error binding position)
  | CC_UncleanServerRestart prior_server_incarnation =>
      if negb (server_incarnation (connection_incarnation (bnd_binding_epoch binding))
               =? prior_server_incarnation)
      then None
      else died (unclean_server_restart binding position)
  end.

Definition restore_committed_terminal (binding : ActiveBinding) (cause : CloseCause)
    (transaction_order : TransactionOrder) (delivery_seq : DeliverySeq)
    : option CommittedBindingTerminal :=
  let position := BTD_Committed (mkCommittedPosition transaction_order delivery_seq) in
  let detached t :=
    match t with DBT_Committed value => Some (CBT_Detached value) | DBT_Pending _ => None end in
  let died t :=
    match t with YBT_Committed value => Some (CBT_Died value) | YBT_Pending _ => None end in
  match cause with
  | CC_CleanDeregister => detached (clean_deregister binding position)
  | CC_Superseded =>
      Some (CBT_Detached (superseded binding (mkCommittedPosition transaction_order delivery_seq)))
  | CC_ServerShutdown => detached (server_shutdown binding position)
  | CC_ConnectionLost => died (connection_lost binding position)
  | CC_ProcessKilled => died (process_killed binding position)
  | CC_ProtocolError => died (protocol_error binding position)
  | CC_UncleanServerRestart prior_server_incarnation =>
      if negb (server_incarnation (connection_incarnation (bnd_binding_epoch binding))
               =? prior_server_incarnation)
      then None
      else died (unclean_server_restart binding position)
  end.

(** ** Restart *)

(** The binding a terminal ended. *)
Definition ended_binding (i : BindingTerminalIdentity) : ActiveBinding :=
  mkActiveBinding (bti_participant_id i) (bti_conversation_id i) (bti_binding_epoch i).

(** A finalization or terminal is restored from its close cause and position. *)
Definition pf_restorable (p : PendingFinalization) : Prop :=
  restore_pending_finalization (ended_binding (pf_identity p)) (pf_close_cause p)
    (ao_transaction_order (pf_admission_order p)) = Some p.
Definition cbt_restorable (t : CommittedBindingTerminal) : Prop :=
  restore_committed_terminal (ended_binding (cbt_identity t)) (cbt_close_cause t)
    (ao_transaction_order (cbt_admission_order t)) (cbt_delivery_seq t) = Some t.

Lemma pf_commit_restorable p seq : pf_restorable p -> cbt_restorable (pf_commit p seq).
Proof.
  unfold pf_restorable, cbt_restorable, restore_pending_finalization, restore_committed_terminal,
    pf_admission_order, cbt_admission_order.
  destruct p as [[i c]|[i c]]; destruct c; simpl; intros H; try destruct (negb _);
    unfold pdf_commit, pdd_commit; simpl; congruence.
Qed.

(** What a restored finalization is. *)
Lemma restore_pending_Some b cause o p : restore_pending_finalization b cause o = Some p ->
  pf_identity p = from_active b o /\ pf_close_cause p = cause.
Proof.
  destruct b. unfold restore_pending_finalization. intros H.
  destruct cause; simpl in H; csplit_in H; simplify_eq/=; try done. by dreflect; simplify_eq.
Qed.

Lemma pf_restorable_order p : pf_restorable p ->
  pf_admission_order p = binding_terminal (ao_transaction_order (pf_admission_order p))
                           (pf_participant_id p)
  /\ pf_detached_cause p <> Some DTC_Superseded.
Proof.
  intros H. split.
  - apply restore_pending_Some in H as [H _]. unfold pf_admission_order at 1. by rewrite H.
  - unfold pf_restorable in H. destruct p as [[i []]|]; done.
Qed.

Lemma detached_restorable b cause d : cause <> DTC_Superseded ->
  match finish_detached b cause d with
  | DBT_Committed t => cbt_restorable (CBT_Detached t)
  | DBT_Pending p => pf_restorable (PF_Detached p)
  end.
Proof. destruct b, cause, d; done. Qed.

Lemma superseded_restorable b pos : cbt_restorable (CBT_Detached (superseded b pos)).
Proof. by destruct b. Qed.

Lemma died_restorable b cause d :
  match cause with
  | DDC_UncleanServerRestart i =>
      i = server_incarnation (connection_incarnation (bnd_binding_epoch b))
  | _ => True
  end ->
  match finish_died b cause d with
  | YBT_Committed t => cbt_restorable (CBT_Died t)
  | YBT_Pending p => pf_restorable (PF_Died p)
  end.
Proof.
  unfold pf_restorable, cbt_restorable. destruct b, cause, d; simpl; try done; intros ->;
    by rewrite Z.eqb_refl.
Qed.
