(* ===== verification/Observer.v ===== *)
(** * Observer recovery

    Model of [liminal-protocol/src/lifecycle/observer_recovery.rs]: the hard observer
    progress of every tracked conversation and the arms installed at that progress, as
    one owned aggregate.  Registration, progress and recovery batches are decided
    against the aggregate and applied by [commit]; [abort] gives it back.  [BTreeMap]s
    are finite maps of integers, listed in key order. *)
From stdpp Require Import gmap sorting.
From coqutil Require Import Byte.
From S2P Require Import Prelude Algebra Tags Wire Response Authority Binding.

Abbreviation Rows := (list (ConversationId * DeliverySeq)).

Definition row_le (a b : ConversationId * DeliverySeq) : Prop := a.1 <= b.1.
#[export] Instance row_le_dec : RelDecision row_le.
Proof. intros ??. unfold row_le. apply _. Defined.

(** Shows the integers behind the identifiers. *)
Ltac zkeys := unfold ObserverEpoch, DeliverySeq, ConversationId in *.

(** [BTreeMap::iter]. *)
Definition rows_iter (m : gmap Z Z) : Rows :=
  merge_sort row_le (map_to_list m).

Inductive ObserverRecoveryAggregateRestoreError :=
| ORE_DuplicateProgress (conversation_id : ConversationId)
| ORE_DuplicateArm (conversation_id : ConversationId)
| ORE_ArmWithoutProgress (conversation_id : ConversationId)
| ORE_ArmEpochMismatch (conversation_id : ConversationId) (armed_epoch : ObserverEpoch)
    (current_observer_progress : DeliverySeq).
Inductive ObserverProgressTrackError :=
| OTE_AlreadyTracked (conversation_id : ConversationId).
Inductive ObserverProgressAdvanceError :=
| OAE_ConversationUnknown (conversation_id : ConversationId)
| OAE_NotAdvancing (conversation_id : ConversationId)
    (current_observer_progress presented_progress : DeliverySeq).

Record ObserverRecoveryAggregate := mkObserverRecoveryAggregate {
  ora_progress : gmap Z Z;
  ora_armed : gmap Z Z;
}.

Definition ObserverRecoveryAggregate_new : ObserverRecoveryAggregate :=
  mkObserverRecoveryAggregate ∅ ∅.

(** ** Restore from durable rows *)

Fixpoint restore_progress (rows : Rows) (progress : gmap Z Z)
    : result (gmap Z Z) ObserverRecoveryAggregateRestoreError :=
  match rows with
  | [] => Ok progress
  | (conversation_id, observer_progress) :: rows =>
      match progress !! conversation_id with
      | Some _ => Err (ORE_DuplicateProgress conversation_id)
      | None => restore_progress rows (<[conversation_id := observer_progress]> progress)
      end
  end.

Fixpoint restore_arms (progress : gmap Z Z) (rows : Rows)
    (armed : gmap Z Z)
    : result (gmap Z Z) ObserverRecoveryAggregateRestoreError :=
  match rows with
  | [] => Ok armed
  | (conversation_id, armed_epoch) :: rows =>
      match progress !! conversation_id with
      | None => Err (ORE_ArmWithoutProgress conversation_id)
      | Some current =>
          if negb (current =? armed_epoch)
          then Err (ORE_ArmEpochMismatch conversation_id armed_epoch current)
          else
            match armed !! conversation_id with
            | Some _ => Err (ORE_DuplicateArm conversation_id)
            | None => restore_arms progress rows (<[conversation_id := armed_epoch]> armed)
            end
      end
  end.

Definition ObserverRecoveryAggregate_restore (progress_rows armed_rows : Rows)
    : result ObserverRecoveryAggregate ObserverRecoveryAggregateRestoreError :=
  let? progress := restore_progress progress_rows ∅ in
  let? armed := restore_arms progress armed_rows ∅ in
  Ok (mkObserverRecoveryAggregate progress armed).

Definition observer_progress (a : ObserverRecoveryAggregate) (c : ConversationId)
    : option DeliverySeq := ora_progress a !! c.
Definition armed_epoch (a : ObserverRecoveryAggregate) (c : ConversationId)
    : option ObserverEpoch := ora_armed a !! c.
Definition progress_rows (a : ObserverRecoveryAggregate) : Rows := rows_iter (ora_progress a).
Definition armed_rows (a : ObserverRecoveryAggregate) : Rows := rows_iter (ora_armed a).

(** ** Arms, transactions and decisions *)

Record ObserverRecoveryArm := mkObserverRecoveryArm {
  arm_conversation_id : ConversationId;
  arm_refused_epoch : ObserverEpoch;
}.
#[export] Instance ObserverRecoveryArm_eq_dec : EqDecision ObserverRecoveryArm.
Proof. unfold EqDecision, Decision. intros [c e] [c' e']. decide equality; apply Z.eq_dec. Defined.
#[export] Instance ObserverRefusal_eq_dec : EqDecision ObserverRefusal.
Proof. unfold EqDecision, Decision. intros [c e] [c' e']. decide equality; apply Z.eq_dec. Defined.
Record ObserverRecoveryCommit := mkObserverRecoveryCommit {
  orc_arms : list ObserverRecoveryArm;
  orc_outcome : ObserverRecoveryAccepted;
}.
Inductive ObserverRecoveryDecision :=
| ORD_Respond (response : ObserverRecoveryResponse)
| ORD_Commit (commit : ObserverRecoveryCommit).

Record ObserverRecoveryTransaction := mkObserverRecoveryTransaction {
  ort_aggregate : ObserverRecoveryAggregate;
  ort_commit : ObserverRecoveryCommit;
}.
Inductive ObserverRecoveryTransactionDecision :=
| OTD_Respond (aggregate : ObserverRecoveryAggregate) (response : ObserverRecoveryResponse)
| OTD_Commit (transaction : ObserverRecoveryTransaction).

Record ObserverProgressAdvanceTransaction := mkObserverProgressAdvanceTransaction {
  oat_aggregate : ObserverRecoveryAggregate;
  oat_conversation_id : ConversationId;
  oat_presented_progress : DeliverySeq;
  oat_fired : option ObserverRecoveryArm;
}.
Inductive ObserverProgressAdvanceDecision :=
| OAD_Refuse (aggregate : ObserverRecoveryAggregate) (error : ObserverProgressAdvanceError)
| OAD_Commit (transaction : ObserverProgressAdvanceTransaction).

Record ObserverProgressTrackTransaction := mkObserverProgressTrackTransaction {
  opt_aggregate : ObserverRecoveryAggregate;
  opt_conversation_id : ConversationId;
  opt_observer_progress : DeliverySeq;
}.
Inductive ObserverProgressTrackDecision :=
| OPD_Refuse (aggregate : ObserverRecoveryAggregate) (error : ObserverProgressTrackError)
| OPD_Commit (transaction : ObserverProgressTrackTransaction).

Definition decide_track (a : ObserverRecoveryAggregate) (conversation_id : ConversationId)
    (observer_progress : DeliverySeq) : ObserverProgressTrackDecision :=
  match ora_progress a !! conversation_id with
  | Some _ => OPD_Refuse a (OTE_AlreadyTracked conversation_id)
  | None => OPD_Commit (mkObserverProgressTrackTransaction a conversation_id observer_progress)
  end.

Definition decide_progress_advance (a : ObserverRecoveryAggregate)
    (conversation_id : ConversationId) (presented_progress : DeliverySeq)
    : ObserverProgressAdvanceDecision :=
  match ora_progress a !! conversation_id with
  | None => OAD_Refuse a (OAE_ConversationUnknown conversation_id)
  | Some current =>
      if presented_progress <=? current
      then OAD_Refuse a (OAE_NotAdvancing conversation_id current presented_progress)
      else
        let fired := option_map (mkObserverRecoveryArm conversation_id)
                       (ora_armed a !! conversation_id) in
        OAD_Commit (mkObserverProgressAdvanceTransaction a conversation_id presented_progress fired)
  end.

Definition track_commit (t : ObserverProgressTrackTransaction) : ObserverRecoveryAggregate :=
  mkObserverRecoveryAggregate
    (<[opt_conversation_id t := opt_observer_progress t]> (ora_progress (opt_aggregate t)))
    (ora_armed (opt_aggregate t)).
Definition track_abort (t : ObserverProgressTrackTransaction) : ObserverRecoveryAggregate :=
  opt_aggregate t.

Definition advance_commit (t : ObserverProgressAdvanceTransaction)
    : ObserverRecoveryAggregate * option ObserverRecoveryArm :=
  (mkObserverRecoveryAggregate
     (<[oat_conversation_id t := oat_presented_progress t]> (ora_progress (oat_aggregate t)))
     (match oat_fired t with
      | Some _ => delete (oat_conversation_id t) (ora_armed (oat_aggregate t))
      | None => ora_armed (oat_aggregate t)
      end),
   oat_fired t).
Definition advance_abort (t : ObserverProgressAdvanceTransaction) : ObserverRecoveryAggregate :=
  oat_aggregate t.

(** The loop of [commit] over the arm plan. *)
Fixpoint install (arms : list ObserverRecoveryArm) (armed : gmap Z Z)
    : gmap Z Z :=
  match arms with
  | [] => armed
  | arm :: arms => install arms (<[arm_conversation_id arm := arm_refused_epoch arm]> armed)
  end.
Definition recovery_commit (t : ObserverRecoveryTransaction)
    : ObserverRecoveryAggregate * ObserverRecoveryAccepted :=
  (mkObserverRecoveryAggregate (ora_progress (ort_aggregate t))
     (install (orc_arms (ort_commit t)) (ora_armed (ort_aggregate t))),
   orc_outcome (ort_commit t)).
Definition recovery_abort (t : ObserverRecoveryTransaction) : ObserverRecoveryAggregate :=
  ort_aggregate t.

(** ** The recovery batch *)

(** [u64::try_from] of a length; the fallback is for a wider [usize]. *)
Definition wire_count (n : nat) : Z :=
  if Z.of_nat n <=? u64_max then Z.of_nat n else u64_max.

(** The first entry whose conversation was named before, with both indices. *)
Fixpoint first_duplicate (refusals : list ObserverRefusal) (index : nat)
    (first_indices : gmap Z Z) : option InvalidObserverEpochList :=
  match refusals with
  | [] => None
  | refusal :: refusals =>
      let request_index := wire_count index in
      match first_indices !! orf_conversation_id refusal with
      | Some first_index =>
          Some (IOL_DuplicateConversation (orf_conversation_id refusal) first_index request_index)
      | None =>
          first_duplicate refusals (S index)
            (<[orf_conversation_id refusal := request_index]> first_indices)
      end
  end.

(** The first untracked conversation that finds the connection full. *)
Fixpoint capacity_exceeded (refusals : list ObserverRefusal) (limit : Z)
    (tracked : gset ConversationId) : option ConversationId :=
  match refusals with
  | [] => None
  | refusal :: refusals =>
      if bool_decide (orf_conversation_id refusal ∈ tracked)
      then capacity_exceeded refusals limit tracked
      else if limit <=? wire_count (size tracked) then Some (orf_conversation_id refusal)
      else capacity_exceeded refusals limit ({[orf_conversation_id refusal]} ∪ tracked)
  end.

Fixpoint validate_epochs (refusals : list ObserverRefusal)
    (observer_progress : ConversationId -> option DeliverySeq)
    : result (list (ObserverRefusal * DeliverySeq)) InvalidObserverEpoch :=
  match refusals with
  | [] => Ok []
  | refusal :: refusals =>
      match observer_progress (orf_conversation_id refusal) with
      | None =>
          Err (IOE_ConversationUnknown (orf_conversation_id refusal) (orf_refused_epoch refusal))
      | Some current =>
          if current <? orf_refused_epoch refusal
          then Err (IOE_EpochAhead (orf_conversation_id refusal) (orf_refused_epoch refusal) current)
          else
            let? validated := validate_epochs refusals observer_progress in
            Ok ((refusal, current) :: validated)
      end
  end.

Definition refusal_arm (v : ObserverRefusal * DeliverySeq) : option ObserverRecoveryArm :=
  if orf_refused_epoch v.1 =? v.2
  then Some (mkObserverRecoveryArm (orf_conversation_id v.1) (orf_refused_epoch v.1))
  else None.
Definition refusal_status (v : ObserverRefusal * DeliverySeq) : ObserverProgressStatus :=
  let armed := orf_refused_epoch v.1 =? v.2 in
  mkObserverProgressStatus (orf_conversation_id v.1) (orf_refused_epoch v.1) v.2
    armed (negb armed).

Definition apply_observer_recovery (request : ObserverRecoveryHandshake) (max_entries : Z)
    (connection_conversation_limit : Z) (tracked_conversations : list ConversationId)
    (observer_progress : ConversationId -> option DeliverySeq) : ObserverRecoveryDecision :=
  let refusals := orh_observer_refusals request in
  let presented_entries := wire_count (length refusals) in
  if max_entries <? presented_entries then
    ORD_Respond (ObserverRecoveryResponse_invalid_observer_epoch_list
      (IOL_TooManyEntries presented_entries max_entries))
  else
    match first_duplicate refusals 0 ∅ with
    | Some duplicate =>
        ORD_Respond (ObserverRecoveryResponse_invalid_observer_epoch_list duplicate)
    | None =>
        match capacity_exceeded refusals connection_conversation_limit
                (list_to_set tracked_conversations) with
        | Some conversation_id =>
            ORD_Respond (ObserverRecoveryResponse_connection_capacity_exceeded conversation_id
              connection_conversation_limit)
        | None =>
            match validate_epochs refusals observer_progress with
            | Err invalid => ORD_Respond (ObserverRecoveryResponse_invalid_observer_epoch invalid)
            | Ok validated =>
                ORD_Commit (mkObserverRecoveryCommit (omap refusal_arm validated)
                  (mkObserverRecoveryAccepted (map refusal_status validated)))
            end
        end
    end.

Definition decide_recovery (a : ObserverRecoveryAggregate) (request : ObserverRecoveryHandshake)
    (max_entries connection_conversation_limit : Z)
    (tracked_conversations : list ConversationId) : ObserverRecoveryTransactionDecision :=
  match apply_observer_recovery request max_entries connection_conversation_limit
          tracked_conversations (fun c => ora_progress a !! c) with
  | ORD_Respond response => OTD_Respond a response
  | ORD_Commit commit => OTD_Commit (mkObserverRecoveryTransaction a commit)
  end.

(** ** The aggregate invariant

    An installed arm is always at the exact progress of its conversation. *)
Definition observer_inv (a : ObserverRecoveryAggregate) : Prop :=
  forall c e : Z, ora_armed a !! c = Some e -> ora_progress a !! c = Some e.

Lemma rows_iter_perm m : rows_iter m ≡ₚ map_to_list m.
Proof. apply merge_sort_Permutation. Qed.

Lemma rows_iter_to_map m : list_to_map (rows_iter m) = m.
Proof.
  rewrite <- (list_to_map_to_list m) at 2. apply list_to_map_proper; [|apply rows_iter_perm].
  rewrite rows_iter_perm. apply NoDup_fst_map_to_list.
Qed.

Lemma rows_iter_NoDup m : NoDup (rows_iter m).*1.
Proof. rewrite rows_iter_perm. apply NoDup_fst_map_to_list. Qed.

Lemma elem_of_rows_iter m c e : (c, e) ∈ rows_iter m <-> m !! c = Some e.
Proof. rewrite rows_iter_perm. apply elem_of_map_to_list. Qed.

(** Both restore loops accept exactly the rows with distinct conversations. *)
Lemma restore_progress_iff rows m m' :
  restore_progress rows m = Ok m' <->
  NoDup rows.*1 /\ (forall c, c ∈ rows.*1 -> m !! c = None) /\ m' = list_to_map rows ∪ m.
Proof.
  revert m. induction rows as [|[c p] rows IH]; intros m; csimpl.
  { rewrite (left_id_L ∅ (∪)). split; [|by intros (_ & _ & ->)].
    intros [= ->]. split; [constructor|]. split; [|done]. intros c Hc. by apply elem_of_nil in Hc. }
  rewrite NoDup_cons. split.
  - destruct (m !! c) eqn:E; [done|]. rewrite IH. intros (Hn & Hd & ->).
    assert (c ∉ rows.*1) as Hc.
    { intros Hc. specialize (Hd c Hc). by rewrite lookup_insert_eq in Hd. }
    split_and!; [done..| |].
    + intros c' [->|Hc']%elem_of_cons; [done|]. specialize (Hd c' Hc').
      by apply lookup_insert_None in Hd as [? _].
    + rewrite <- insert_union_r, insert_union_l; [done|]. by apply not_elem_of_list_to_map.
  - intros ([Hc Hn] & Hd & ->). rewrite (Hd c) by (by left). apply IH. split_and!; [done| |].
    + intros c' Hc'. rewrite lookup_insert_ne by (by intros ->). apply Hd. by right.
    + rewrite <- insert_union_r, insert_union_l; [done|]. by apply not_elem_of_list_to_map.
Qed.

Lemma restore_arms_iff progress rows m m' :
  restore_arms progress rows m = Ok m' <->
  restore_progress rows m = Ok m' /\ forall c e, (c, e) ∈ rows -> progress !! c = Some e.
Proof.
  revert m. induction rows as [|[c e] rows IH]; intros m; simpl;
    zkeys.
  { split; [|by intros [? _]]. intros H. split; [done|]. intros c e Hc. by apply elem_of_nil in Hc. }
  split.
  - destruct (progress !! c) as [p|] eqn:Ep; [|done]. destruct (Z.eqb_spec p e) as [->|]; [|done].
    simpl. destruct (m !! c); [done|]. rewrite IH. intros [Hr Hp]. split; [done|].
    intros c' e' [[= -> ->]|H]%elem_of_cons; auto.
  - intros [Hr Hp]. rewrite (Hp c e) by (by left). rewrite Z.eqb_refl. simpl.
    destruct (m !! c); [done|]. apply IH. split; [done|]. intros c' e' H. apply Hp. by right.
Qed.

Lemma restore_iff prows arows a :
  ObserverRecoveryAggregate_restore prows arows = Ok a <->
  NoDup prows.*1 /\ NoDup arows.*1 /\ (forall c e, (c, e) ∈ arows -> (c, e) ∈ prows)
  /\ a = mkObserverRecoveryAggregate (list_to_map prows) (list_to_map arows).
Proof.
  unfold ObserverRecoveryAggregate_restore. split.
  - intros H. destruct (restore_progress prows ∅) as [p|] eqn:Ep; [|done].
    destruct (restore_arms p arows ∅) as [r|] eqn:Er; [|done]. injection H as <-.
    apply restore_progress_iff in Ep as (Hnp & _ & ->).
    apply restore_arms_iff in Er as [(Hnr & _ & ->)%restore_progress_iff Hin].
    rewrite !(right_id_L ∅ (∪)) in *. split_and!; [done..| |done].
    intros c e Hc. apply elem_of_list_to_map; auto.
  - intros (Hnp & Hnr & Hin & ->).
    assert (restore_progress prows ∅ = Ok (list_to_map prows)) as ->.
    { apply restore_progress_iff. by rewrite (right_id_L ∅ (∪)). }
    assert (restore_arms (list_to_map prows) arows ∅ = Ok (list_to_map arows)) as ->; [|done].
    apply restore_arms_iff. rewrite restore_progress_iff, (right_id_L ∅ (∪)). split; [done|].
    intros c e Hc. apply elem_of_list_to_map; auto.
Qed.

Lemma restore_inv prows arows a :
  ObserverRecoveryAggregate_restore prows arows = Ok a -> observer_inv a.
Proof.
  intros (Hnp & Hnr & Hin & ->)%restore_iff c e; simpl.
  rewrite <- !elem_of_list_to_map by done. auto.
Qed.

Lemma restore_rows a :
  observer_inv a -> ObserverRecoveryAggregate_restore (progress_rows a) (armed_rows a) = Ok a.
Proof.
  intros Ha. apply restore_iff. unfold progress_rows, armed_rows.
  rewrite !rows_iter_to_map. split_and!; [apply rows_iter_NoDup..| |by destruct a].
  intros c e. rewrite !elem_of_rows_iter. apply Ha.
Qed.

(** ** Every committed transaction preserves the invariant *)

Lemma track_inv a c p t :
  observer_inv a -> decide_track a c p = OPD_Commit t -> observer_inv (track_commit t).
Proof.
  unfold decide_track. zkeys. intros Ha H. destruct (ora_progress a !! c) eqn:E; [done|].
  injection H as <-. intros c' e He; simpl in *. apply Ha in He.
  rewrite lookup_insert_ne; [done|]. intros <-. congruence.
Qed.

Lemma advance_exact a c p t :
  decide_progress_advance a c p = OAD_Commit t <->
  exists q : Z, ora_progress a !! c = Some q /\ q < p
  /\ t = mkObserverProgressAdvanceTransaction a c p
           (option_map (mkObserverRecoveryArm c) (ora_armed a !! c)).
Proof.
  unfold decide_progress_advance. zkeys. split.
  - intros H. destruct (ora_progress a !! c) as [q|]; [|done].
    destruct (Z.leb_spec p q); [done|]. injection H as <-. eauto.
  - intros (q & -> & Hq & ->). by rewrite (proj2 (Z.leb_gt p q) Hq).
Qed.

(** An advance drops the arm of its conversation and moves nothing else. *)
Lemma advance_commit_eq a c p :
  (advance_commit (mkObserverProgressAdvanceTransaction a c p
     (option_map (mkObserverRecoveryArm c) (ora_armed a !! c)))).1
  = mkObserverRecoveryAggregate (<[c := p]> (ora_progress a)) (delete c (ora_armed a)).
Proof.
  unfold advance_commit; simpl. f_equal. destruct (ora_armed a !! c) eqn:E; [done|].
  symmetry. by apply delete_id.
Qed.

Lemma advance_inv a c p t :
  observer_inv a -> decide_progress_advance a c p = OAD_Commit t ->
  observer_inv (advance_commit t).1.
Proof.
  intros Ha (q & Hq & Hlt & ->)%advance_exact. rewrite advance_commit_eq. intros c' e; simpl.
  rewrite lookup_delete_Some. intros [Hne He]. rewrite lookup_insert_ne by done. by apply Ha.
Qed.

(** ** What a recovery batch installs and answers *)

Lemma first_duplicate_None rs i m :
  first_duplicate rs i m = None <->
  NoDup (map orf_conversation_id rs) /\
  forall c, c ∈ map orf_conversation_id rs -> m !! c = None.
Proof.
  revert i m. induction rs as [|r rs IH]; intros i m; simpl.
  { split; [|done]. intros _. split; [constructor|]. intros c Hc. by apply elem_of_nil in Hc. }
  rewrite NoDup_cons. destruct (m !! orf_conversation_id r) eqn:E; simpl.
  { split; [done|]. intros [_ H]. rewrite (H (orf_conversation_id r)) in E; [done|by left]. }
  rewrite IH. split.
  - intros [Hn Hd]. split; [split; [|done]|].
    + intros Hc. specialize (Hd _ Hc). by rewrite lookup_insert_eq in Hd.
    + intros c [->|Hc]%elem_of_cons; [done|]. specialize (Hd c Hc).
      by apply lookup_insert_None in Hd as [? _].
  - intros [[Hc Hn] Hd]. split; [done|]. intros c Hin.
    rewrite lookup_insert_ne by congruence. apply Hd. by right.
Qed.

Lemma wire_count_lt n m : u64 m -> (wire_count n < m <-> Z.of_nat n < m).
Proof. unfold wire_count. intros ?. destruct (Z.leb_spec (Z.of_nat n) u64_max); mlia. Qed.

Lemma wire_count_le n m : u64 m -> (m <= wire_count n <-> m <= Z.of_nat n).
Proof. intros ?. pose proof (wire_count_lt n m H). lia. Qed.

(** The connection bound is over the conversations tracked once the batch is in. *)
Lemma capacity_exceeded_None rs limit T : u64 limit ->
  capacity_exceeded rs limit T = None <->
  list_to_set (map orf_conversation_id rs) ⊆ T
  \/ Z.of_nat (size (list_to_set (map orf_conversation_id rs) ∪ T)) <= limit.
Proof.
  intros Hl. revert T. induction rs as [|r rs IH]; intros T; simpl.
  { split; [|done]. intros _. left. apply empty_subseteq. }
  set (c := orf_conversation_id r). set (cs := list_to_set (C := gset ConversationId) (map orf_conversation_id rs)) in *.
  destruct (bool_decide_reflect (c ∈ T)) as [Hc|Hc].
  { rewrite IH. assert ({[c]} ∪ cs ∪ T = cs ∪ T) as -> by set_solver. split.
    - intros [?|?]; [left; set_solver|by right].
    - intros [?|?]; [left; set_solver|by right]. }
  assert (size ({[c]} ∪ T) = S (size T)) as Hs.
  { rewrite size_union by set_solver. by rewrite size_singleton. }
  assert (size ({[c]} ∪ T) <= size ({[c]} ∪ cs ∪ T))%nat as Hle by (apply subseteq_size; set_solver).
  destruct (Z.leb_spec limit (wire_count (size T))) as [Hf|Hf].
  { apply wire_count_le in Hf; [|done]. split; [done|]. intros [H|H]; [set_solver|lia]. }
  apply wire_count_lt in Hf; [|done]. rewrite IH.
  assert (cs ∪ ({[c]} ∪ T) = {[c]} ∪ cs ∪ T) as -> by set_solver. split.
  - intros [H|H]; right; [|done]. assert ({[c]} ∪ cs ∪ T = {[c]} ∪ T) as -> by set_solver. lia.
  - intros [H|H]; [set_solver|by right].
Qed.

Lemma validate_epochs_Ok rs f v :
  validate_epochs rs f = Ok v <->
  Forall2 (fun r x => x.1 = r /\ f (orf_conversation_id r) = Some x.2
                      /\ orf_refused_epoch r <= x.2) rs v.
Proof.
  revert v. induction rs as [|r rs IH]; intros v; simpl.
  { split; [by intros [= <-]|]. intros H. by apply Forall2_nil_inv_l in H as ->. }
  split.
  - destruct (f (orf_conversation_id r)) as [p|] eqn:E; [|done].
    destruct (Z.ltb_spec p (orf_refused_epoch r)); [done|].
    destruct (validate_epochs rs f) as [v'|]; [|done]. intros [= <-].
    constructor; [done|]. by apply IH.
  - intros H. apply Forall2_cons_inv_l in H as ([r' p] & v' & (Hr & Hf & Hle) & Hv & ->).
    simpl in *. subst r'. rewrite Hf, (proj2 (Z.ltb_ge _ _) Hle). apply IH in Hv. by rewrite Hv.
Qed.

(** What a batch must satisfy to be accepted. *)
Definition batch_ok (a : ObserverRecoveryAggregate) (rs : list ObserverRefusal)
    (max_entries limit : Z) (tracked : list ConversationId) : Prop :=
  wire_count (length rs) <= max_entries
  /\ NoDup (map orf_conversation_id rs)
  /\ (list_to_set (C := gset ConversationId) (map orf_conversation_id rs) ⊆ list_to_set tracked
      \/ Z.of_nat (size (list_to_set (C := gset ConversationId) (map orf_conversation_id rs)
                         ∪ list_to_set tracked)) <= limit)
  /\ Forall (fun r => exists p, ora_progress a !! orf_conversation_id r = Some p
                                /\ orf_refused_epoch r <= p) rs.

(** The validated entries of a batch that passes. *)
Definition validated (a : ObserverRecoveryAggregate) (rs : list ObserverRefusal)
    (v : list (ObserverRefusal * DeliverySeq)) : Prop :=
  Forall2 (fun r x => x.1 = r /\ ora_progress a !! orf_conversation_id r = Some x.2
                      /\ orf_refused_epoch r <= x.2) rs v.

Lemma decide_recovery_Commit a request max limit tracked t : u64 limit ->
  decide_recovery a request max limit tracked = OTD_Commit t <->
  batch_ok a (orh_observer_refusals request) max limit tracked
  /\ exists v, validated a (orh_observer_refusals request) v
     /\ t = mkObserverRecoveryTransaction a (mkObserverRecoveryCommit (omap refusal_arm v)
              (mkObserverRecoveryAccepted (map refusal_status v))).
Proof.
  intros Hl. unfold decide_recovery, apply_observer_recovery.
  set (rs := orh_observer_refusals request). split.
  - intros H. destruct (Z.ltb_spec max (wire_count (length rs))) as [|Hlen]; [done|].
    destruct (first_duplicate rs 0 ∅) eqn:Hd; [done|].
    destruct (capacity_exceeded rs limit _) eqn:Hc; [done|].
    destruct (validate_epochs rs _) as [v|] eqn:Hv; [|done]. injection H as <-.
    apply first_duplicate_None in Hd as [Hd _]. apply capacity_exceeded_None in Hc; [|done].
    apply validate_epochs_Ok in Hv.
    split; [|by exists v]. split_and!; [done..|].
    eapply Forall2_Forall_l; [exact Hv|]. apply Forall_true. intros [r p] r' (_ & ? & ?). eauto.
  - intros ((Hlen & Hd & Hc & _) & v & Hv & ->).
    rewrite (proj2 (Z.ltb_ge max (wire_count (length rs))) Hlen).
    assert (first_duplicate rs 0 ∅ = None) as -> by (by apply first_duplicate_None).
    apply (capacity_exceeded_None rs limit (list_to_set tracked) Hl) in Hc. rewrite Hc.
    by rewrite (proj2 (validate_epochs_Ok rs _ v) Hv).
Qed.

Lemma batch_validated a rs max limit tracked :
  batch_ok a rs max limit tracked -> exists v, validated a rs v.
Proof.
  intros (_ & _ & _ & H). unfold validated. induction H as [|r rs (p & Hp & Hle) _ [v Hv]].
  - by exists [].
  - exists ((r, p) :: v). by constructor.
Qed.

(** The arms of a batch are its entries at the exact progress. *)
Lemma batch_arms a rs v arm : validated a rs v ->
  arm ∈ omap refusal_arm v <->
  mkObserverRefusal (arm_conversation_id arm) (arm_refused_epoch arm) ∈ rs
  /\ ora_progress a !! arm_conversation_id arm = Some (arm_refused_epoch arm).
Proof.
  destruct arm as [c e]; simpl.
  induction 1 as [|r [r' p] rs v (Hr & Hp & Hle) Hv IH]; simpl.
  { rewrite !elem_of_nil. intuition. }
  simpl in *. subst r'. unfold refusal_arm at 1; simpl.
  destruct (Z.eqb_spec (orf_refused_epoch r) p) as [He|He];
    rewrite !elem_of_cons, IH; destruct r as [c' e']; simpl in *.
  - subst. split; [intros [[= -> ->]|[??]]; auto|]. intros [[[= -> ->]|?] ?]; auto.
  - split; [intros [??]; auto|]. intros [[[= -> ->]|?] Hq]; [|auto].
    zkeys. congruence.
Qed.

Lemma install_lookup arms m c e :
  (forall c e e', mkObserverRecoveryArm c e ∈ arms -> mkObserverRecoveryArm c e' ∈ arms -> e = e') ->
  install arms m !! c = Some e <->
  mkObserverRecoveryArm c e ∈ arms
  \/ (forall e', mkObserverRecoveryArm c e' ∉ arms) /\ m !! c = Some e.
Proof.
  revert m. induction arms as [|[c' e'] arms IH]; intros m Hu; simpl.
  { split; [|intros [H|[_ ?]]; [by apply elem_of_nil in H|done]].
    intros H. right. split; [|done]. intros e' H'. by apply elem_of_nil in H'. }
  rewrite IH by (intros ???? H2; eapply Hu; right; eauto). split.
  - intros [H|[Hn H]]; [left; by right|]. apply lookup_insert_Some in H as [[<- <-]|[Hne H]];
      [left; by left|]. right. split; [|done].
    intros e'' [[= -> ->]|H']%elem_of_cons; [done|by eapply Hn].
  - intros [[[= -> ->]|H]%elem_of_cons|[Hn H]].
    + destruct (decide (mkObserverRecoveryArm c' e' ∈ arms)) as [Hx|Hx]; [by left|].
      right. split; [|by apply lookup_insert_eq]. intros x Hx'. apply Hx.
      by rewrite (Hu c' e' x) by (constructor; done).
    + by left.
    + right. split; [intros x Hx; apply (Hn x); by right|].
      rewrite lookup_insert_ne; [done|]. intros ->. apply (Hn e'). by left.
Qed.

(** The arms after a batch, against a valid aggregate. *)
Lemma batch_armed a rs v c e : observer_inv a -> validated a rs v ->
  install (omap refusal_arm v) (ora_armed a) !! c = Some e <->
  ora_progress a !! c = Some e
  /\ (mkObserverRefusal c e ∈ rs \/ ora_armed a !! c = Some e).
Proof.
  intros Ha Hv. rewrite install_lookup; setoid_rewrite (batch_arms a rs v _ Hv); simpl.
  2: { intros c0 e1 e2 [_ H1] [_ H2]. congruence. }
  split.
  - intros [[? ?]|[Hn H]]; [auto|]. split; [by apply Ha|by right].
  - intros [Hp [H|H]]; [by left|].
    destruct (decide (mkObserverRefusal c e ∈ rs)) as [Hin|Hin]; [by left|].
    right. split; [|done]. intros e' [Hin' Hp']. rewrite Hp in Hp'. injection Hp' as <-. done.
Qed.

Lemma recovery_inv a request max limit tracked t : u64 limit -> observer_inv a ->
  decide_recovery a request max limit tracked = OTD_Commit t ->
  observer_inv (recovery_commit t).1.
Proof.
  intros Hl Ha (_ & v & Hv & ->)%decide_recovery_Commit; [|done]. intros c e; simpl.
  rewrite (batch_armed a _ v c e Ha Hv). by intros [? _].
Qed.

(** ** Runs, with what they install and fire *)

Inductive ObserverEvent :=
| OE_Installed (arm : ObserverRecoveryArm)
| OE_Fired (arm : ObserverRecoveryArm).

Definition fired_arms (es : list ObserverEvent) : list ObserverRecoveryArm :=
  omap (fun e => match e with OE_Fired arm => Some arm | OE_Installed _ => None end) es.

Inductive observer_step : ObserverRecoveryAggregate -> list ObserverEvent ->
    ObserverRecoveryAggregate -> Prop :=
| os_track a c p t : decide_track a c p = OPD_Commit t ->
    observer_step a [] (track_commit t)
| os_advance a c p t : decide_progress_advance a c p = OAD_Commit t ->
    observer_step a (map OE_Fired (option_list (advance_commit t).2)) (advance_commit t).1
| os_recover a request max limit tracked t : u64 limit ->
    decide_recovery a request max limit tracked = OTD_Commit t ->
    observer_step a (map OE_Installed (orc_arms (ort_commit t))) (recovery_commit t).1
| os_abort_track a c p t : decide_track a c p = OPD_Commit t ->
    observer_step a [] (track_abort t)
| os_abort_advance a c p t : decide_progress_advance a c p = OAD_Commit t ->
    observer_step a [] (advance_abort t)
| os_abort_recover a request max limit tracked t :
    decide_recovery a request max limit tracked = OTD_Commit t ->
    observer_step a [] (recovery_abort t).

Inductive observer_run : ObserverRecoveryAggregate -> list ObserverEvent ->
    ObserverRecoveryAggregate -> Prop :=
| or_refl a : observer_run a [] a
| or_step a es1 b es2 c : observer_run a es1 b -> observer_step b es2 c ->
    observer_run a (es1 ++ es2) c.

Record wakes_ok (es : list ObserverEvent) (a : ObserverRecoveryAggregate) : Prop := {
  wk_inv : observer_inv a;
  wk_installed : forall arm, OE_Installed arm ∈ es ->
    ora_armed a !! arm_conversation_id arm = Some (arm_refused_epoch arm)
    \/ OE_Fired arm ∈ es;
  wk_fired : forall arm, OE_Fired arm ∈ es -> exists p : Z,
    ora_progress a !! arm_conversation_id arm = Some p /\ arm_refused_epoch arm < p;
  wk_armed : forall c e, ora_armed a !! c = Some e ->
    OE_Installed (mkObserverRecoveryArm c e) ∈ es;
  wk_once : NoDup (fired_arms es);
}.

Lemma fired_arms_app es1 es2 : fired_arms (es1 ++ es2) = fired_arms es1 ++ fired_arms es2.
Proof. apply omap_app. Qed.

Lemma elem_of_fired_arms es arm : arm ∈ fired_arms es <-> OE_Fired arm ∈ es.
Proof.
  unfold fired_arms. rewrite list_elem_of_omap. split.
  - intros ([?|?] & H & [= ->]). done.
  - intros H. by exists (OE_Fired arm).
Qed.

Lemma track_abort_eq a c p t : decide_track a c p = OPD_Commit t -> track_abort t = a.
Proof. unfold decide_track. by destruct (ora_progress a !! c); [|intros [= <-]]. Qed.
Lemma advance_abort_eq a c p t :
  decide_progress_advance a c p = OAD_Commit t -> advance_abort t = a.
Proof. by intros (q & _ & _ & ->)%advance_exact. Qed.
Lemma recovery_abort_eq a request max limit tracked t :
  decide_recovery a request max limit tracked = OTD_Commit t -> recovery_abort t = a.
Proof. unfold decide_recovery. intros H. by csplit_in H. Qed.

Lemma wakes_track es a c p t : wakes_ok es a -> decide_track a c p = OPD_Commit t ->
  wakes_ok es (track_commit t).
Proof.
  intros [Hi Hin Hf Ha Hn] Ht. pose proof (track_inv a c p t Hi Ht) as Hi'.
  unfold decide_track in Ht. zkeys. destruct (ora_progress a !! c) eqn:E; [done|]. injection Ht as <-.
  split; [done..| |done|done].
  intros arm (q & Hq & Hlt)%Hf. exists q. split; [|done]; simpl.
  rewrite lookup_insert_ne; [done|]. congruence.
Qed.

(** The arm of the conversation, if any, fires for the first time. *)
Lemma wakes_advance es a c p t : wakes_ok es a -> decide_progress_advance a c p = OAD_Commit t ->
  wakes_ok (es ++ map OE_Fired (option_list (advance_commit t).2)) (advance_commit t).1.
Proof.
  intros [Hi Hin Hf Ha Hn] Ht. pose proof (advance_inv a c p t Hi Ht) as Hi'.
  apply advance_exact in Ht as (q & Hq & Hlt & ->). rewrite advance_commit_eq in *; simpl in *.
  assert (forall arm, OE_Fired arm ∈ map OE_Fired (option_list (option_map (mkObserverRecoveryArm c)
    (ora_armed a !! c))) -> arm_conversation_id arm = c /\ ora_armed a !! c = Some (arm_refused_epoch arm))
    as Hnew.
  { intros arm. destruct (ora_armed a !! c); simpl; [|by intros ?%elem_of_nil].
    by intros [= ->]%list_elem_of_singleton. }
  zkeys. split; [done| | | |]; simpl.
  - intros arm [H|H]%elem_of_app.
    2: { destruct (ora_armed a !! c); simpl in H; [|by apply elem_of_nil in H].
         by apply list_elem_of_singleton in H. }
    rewrite elem_of_app. destruct (Hin arm H) as [H'|H']; [|by right; left].
    destruct (decide (arm_conversation_id arm = c)) as [<-|Hne].
    + right; right. rewrite H'. simpl. apply list_elem_of_singleton. by destruct arm.
    + left. by rewrite lookup_delete_ne by done.
  - intros arm [H|H]%elem_of_app.
    + destruct (Hf arm H) as (q' & Hq' & Hlt').
      destruct (decide (arm_conversation_id arm = c)) as [<-|Hne].
      * exists p. rewrite lookup_insert_eq. split; [done|].
        rewrite Hq in Hq'. injection Hq' as <-. lia.
      * exists q'. by rewrite lookup_insert_ne.
    + destruct (Hnew arm H) as [-> He]. exists p. rewrite lookup_insert_eq. split; [done|].
      apply Hi in He. rewrite Hq in He. injection He as ->. lia.
  - intros c' e [Hne He]%lookup_delete_Some. apply elem_of_app. left. by apply Ha.
  - rewrite fired_arms_app, NoDup_app. split; [done|]. split.
    + intros arm H1%elem_of_fired_arms H2%elem_of_fired_arms.
      destruct (Hf arm H1) as (q' & Hq' & Hlt'). destruct (Hnew arm H2) as [Hc He].
      apply Hi in He. rewrite <- Hc in He. rewrite Hq' in He. injection He as ->. lia.
    + destruct (ora_armed a !! c); simpl; [apply NoDup_singleton|constructor].
Qed.

Lemma wakes_recover es a request max limit tracked t : u64 limit -> wakes_ok es a ->
  decide_recovery a request max limit tracked = OTD_Commit t ->
  wakes_ok (es ++ map OE_Installed (orc_arms (ort_commit t))) (recovery_commit t).1.
Proof.
  intros Hl [Hi Hin Hf Ha Hn] Ht. pose proof (recovery_inv _ _ _ _ _ _ Hl Hi Ht) as Hi'.
  apply decide_recovery_Commit in Ht as (_ & v & Hv & ->); [|done].
  assert (forall arm, OE_Fired arm ∉ map OE_Installed (omap refusal_arm v)) as Hno.
  { intros arm H. by apply list_elem_of_fmap in H as (? & ? & ?). }
  split; [done| | | |]; simpl.
  - intros arm [H|H]%elem_of_app; rewrite elem_of_app.
    + destruct (Hin arm H) as [H'|H']; [|by right; left]. left. apply (batch_armed a _ v _ _ Hi Hv).
      split; [by apply Hi|by right].
    + left. apply list_elem_of_fmap in H as (arm' & [= ->] & H). apply (batch_armed a _ v _ _ Hi Hv).
      apply (batch_arms a _ v _ Hv) in H as [? ?]. auto.
  - intros arm [H|H]%elem_of_app; [by apply Hf|by apply Hno in H].
  - intros c e (Hp & [H|H])%(batch_armed a _ v _ _ Hi Hv); apply elem_of_app; [right|left; by apply Ha].
    apply list_elem_of_fmap. eexists; split; [done|]. by apply (batch_arms a _ v _ Hv).
  - rewrite fired_arms_app, NoDup_app. split; [done|]. split.
    + intros arm _ H%elem_of_fired_arms. by apply Hno in H.
    + assert (fired_arms (map OE_Installed (omap refusal_arm v)) = []) as ->; [|constructor].
      clear. induction (omap refusal_arm v); [done|]. done.
Qed.

Lemma wakes_step es a es' b : wakes_ok es a -> observer_step a es' b -> wakes_ok (es ++ es') b.
Proof.
  intros H Hs. destruct Hs; try rewrite app_nil_r.
  - by eapply wakes_track.
  - by eapply wakes_advance.
  - by eapply wakes_recover.
  - by erewrite track_abort_eq.
  - by erewrite advance_abort_eq.
  - by erewrite recovery_abort_eq.
Qed.

Lemma wakes_run es a : observer_run ObserverRecoveryAggregate_new es a -> wakes_ok es a.
Proof.
  remember ObserverRecoveryAggregate_new as a0 eqn:E. induction 1 as [|a es1 b es2 c Hr IH Hs].
  - subst. split; simpl; intros; [done|by apply elem_of_nil in H..| |constructor]. done.
  - by eapply wakes_step; [apply IH|].
Qed.

(** ** What the component promises *)

(** C27: No wakeup is lost and none is doubled.  Along every sequence of registrations,
    progress advances and recovery batches, committed or aborted, an arm a batch
    installed is still installed at the exact progress of its conversation or has been
    surrendered by an advance; an arm is surrendered at most once and only by progress
    strictly past its epoch; and every strictly greater progress for an armed
    conversation is accepted and surrenders the arm. *)
Theorem no_lost_wakeup es a : observer_run ObserverRecoveryAggregate_new es a ->
  (forall arm, OE_Installed arm ∈ es ->
     ora_armed a !! arm_conversation_id arm = Some (arm_refused_epoch arm)
     /\ ora_progress a !! arm_conversation_id arm = Some (arm_refused_epoch arm)
     \/ OE_Fired arm ∈ es)
  /\ (forall arm, OE_Fired arm ∈ es -> exists p : Z,
        ora_progress a !! arm_conversation_id arm = Some p /\ arm_refused_epoch arm < p)
  /\ NoDup (fired_arms es)
  /\ (forall c e p, ora_armed a !! c = Some e -> e < p ->
        exists t, decide_progress_advance a c p = OAD_Commit t
        /\ (advance_commit t).2 = Some (mkObserverRecoveryArm c e)).
Proof.
  intros [Hi Hin Hf Ha Hn]%wakes_run. split_and!; [|done..|].
  - intros arm [H|H]%Hin; [left|by right]. split; [done|by apply Hi].
  - intros c e p He Hlt. eexists. split; [apply advance_exact; exists e; split_and!;
      [by apply Hi|done|done]|]. simpl. by zkeys; rewrite He.
Qed.

Definition example_batch : ObserverRecoveryHandshake :=
  mkObserverRecoveryHandshake [mkObserverRefusal 7 3; mkObserverRefusal 8 1].
Definition example_aggregate : ObserverRecoveryAggregate :=
  mkObserverRecoveryAggregate {[7 := 3; 8 := 5]} {[7 := 3]}.

Definition example_tracked : ObserverRecoveryAggregate :=
  mkObserverRecoveryAggregate (<[8 := 5]> (<[7 := 3]> ∅)) ∅.
Definition example_recovery_transaction : ObserverRecoveryTransaction :=
  mkObserverRecoveryTransaction example_tracked (mkObserverRecoveryCommit
    [mkObserverRecoveryArm 7 3] (mkObserverRecoveryAccepted
      [mkObserverProgressStatus 7 3 3 true false; mkObserverProgressStatus 8 1 5 false true])).

(** Conversations 7 and 8 are tracked, a batch arms 7 and finds that 8 has moved on. *)
Lemma example_run :
  observer_run ObserverRecoveryAggregate_new [OE_Installed (mkObserverRecoveryArm 7 3)]
    example_aggregate.
Proof.
  assert (observer_run ObserverRecoveryAggregate_new ([] ++ [] ++ []) example_tracked) as Ht.
  { apply (or_step _ ([] ++ []) (mkObserverRecoveryAggregate (<[7 := 3]> ∅) ∅) [] _).
    - apply (or_step _ [] ObserverRecoveryAggregate_new [] _); [apply or_refl|].
      by apply (os_track _ 7 3 (mkObserverProgressTrackTransaction ObserverRecoveryAggregate_new 7 3)).
    - set (a := mkObserverRecoveryAggregate (<[7 := 3]> ∅) ∅).
      change example_tracked with (track_commit (mkObserverProgressTrackTransaction a 8 5)).
      by apply (os_track a 8 5). }
  apply (or_step _ [] _ [OE_Installed (mkObserverRecoveryArm 7 3)] _ Ht).
  replace example_aggregate with (recovery_commit example_recovery_transaction).1 by (by vm_compute).
  apply (os_recover _ example_batch 4 4 [] example_recovery_transaction); by vm_compute.
Qed.

Lemma no_lost_wakeup_witness :
  observer_run ObserverRecoveryAggregate_new [OE_Installed (mkObserverRecoveryArm 7 3)]
    example_aggregate
  /\ exists t, decide_progress_advance example_aggregate 7 9 = OAD_Commit t
     /\ (advance_commit t).2 = Some (mkObserverRecoveryArm 7 3).
Proof.
  split; [exact example_run|].
  destruct (no_lost_wakeup _ _ example_run) as (_ & _ & _ & H). by apply (H 7 3 9).
Defined.

(** A recovery batch is decided as a whole.  It is accepted exactly when it is short
    enough, names no conversation twice, fits the connection's conversations and every
    entry names a tracked conversation at an epoch it has reached; then the answer
    reports each entry in request order with its current progress, exactly the entries
    at the current progress are armed in addition to the arms there were, progress does
    not move, and aborting gives the aggregate back.  A refused batch leaves the
    aggregate as it was. *)
Theorem recovery_batch_exact a request max limit tracked : u64 limit -> observer_inv a ->
  let rs := orh_observer_refusals request in
  (batch_ok a rs max limit tracked ->
     exists t, decide_recovery a request max limit tracked = OTD_Commit t
     /\ recovery_abort t = a
     /\ ora_progress (recovery_commit t).1 = ora_progress a
     /\ (forall c e, ora_armed (recovery_commit t).1 !! c = Some e <->
           ora_progress a !! c = Some e
           /\ (mkObserverRefusal c e ∈ rs \/ ora_armed a !! c = Some e))
     /\ Forall2 (fun r s => exists p, ora_progress a !! orf_conversation_id r = Some p
           /\ s = mkObserverProgressStatus (orf_conversation_id r) (orf_refused_epoch r) p
                    (orf_refused_epoch r =? p) (orf_refused_epoch r <? p))
          rs (ora_statuses (recovery_commit t).2))
  /\ (~ batch_ok a rs max limit tracked ->
      exists r, decide_recovery a request max limit tracked = OTD_Respond a r).
Proof.
  intros Hl Ha rs. split.
  - intros Hb. destruct (batch_validated _ _ _ _ _ Hb) as [v Hv].
    eexists. split; [apply decide_recovery_Commit; [done|]; split; [done|by exists v]|].
    split_and!; [done|done| |]; simpl.
    + intros c e. by apply batch_armed.
    + clear Hb. induction Hv as [|r [r' p] rs' v (Hr & Hp & Hle) _ IH]; simpl; constructor; [|done].
      exists p. split; [done|]. simpl in *. subst r'. unfold refusal_status; simpl. f_equal.
      destruct (Z.eqb_spec (orf_refused_epoch r) p), (Z.ltb_spec (orf_refused_epoch r) p); simpl; lia || done.
  - intros Hb. destruct (decide_recovery a request max limit tracked) as [a' r|t] eqn:E.
    + exists r. unfold decide_recovery in E. by csplit_in E.
    + apply decide_recovery_Commit in E as [? _]; done.
Qed.

Lemma recovery_batch_exact_witness :
  batch_ok example_aggregate (orh_observer_refusals example_batch) 4 4 []
  /\ exists t, decide_recovery example_aggregate example_batch 4 4 [] = OTD_Commit t.
Proof.
  assert (batch_ok example_aggregate (orh_observer_refusals example_batch) 4 4 []) as Hb.
  { split_and!.
    - by vm_compute.
    - apply (bool_decide_unpack _). by vm_compute.
    - right. by vm_compute.
    - apply Forall_cons; split; [exists 3; split; by vm_compute|].
      apply Forall_singleton. exists 5. split; by vm_compute. }
  split; [done|].
  destruct (recovery_batch_exact example_aggregate example_batch 4 4 []) as [H _].
  - by vm_compute.
  - intros c e H. unfold example_aggregate in *; simpl in *.
    apply lookup_singleton_Some in H as [<- <-]. by vm_compute.
  - destruct (H Hb) as (t & Ht & _). by exists t.
Defined.
