(* ===== verification/ObserverSource.v ===== *)
(** * Sources of observer progress

    Model of [observer_progress.rs] and [observer_progress_plan.rs] of the server
    (liminal-server/src/server/participant/production): the provenance a replayed
    conversation keeps for each step of observer progress, the checks a source passes
    to be recorded, and the plan that brings the durable observer rows up to the
    recorded sources. *)
From stdpp Require Import gmap.
From coqutil Require Import Byte.
From S2P Require Import Prelude Algebra Tags Wire Response Binding.

Inductive ObserverProgressConformanceError :=
| OPC_ConversationMismatch
| OPC_SourceOrder
| OPC_SourceIdentityMismatch
| OPC_DuplicateOccurrenceProducer
| OPC_SourceLineageRegression
| OPC_AheadOfValidatedSourceMaximum
| OPC_AdvanceWithoutRunningMaximumWitness
| OPC_FinalProgressMismatch.

Inductive BaseSourceKind :=
| BSK_Attached | BSK_Detached | BSK_Died | BSK_ParticipantAck | BSK_Left | BSK_Recovered.
Inductive ExtensionSourceKind := ESK_MarkerAck.
Inductive ObserverProgressSourceIdentity :=
| OSI_Base (sequence : Z) (kind : BaseSourceKind)
| OSI_Extension (base_log_head extension_sequence : Z) (kind : ExtensionSourceKind).

(** The derived order of the position: head, then extension before base, then the
    extension sequence. *)
Inductive MergedSourceClass := MSC_Extension | MSC_Base.
Record MergedSourcePosition := mkMergedSourcePosition {
  msp_base_log_head : Z;
  msp_class : MergedSourceClass;
  msp_extension_sequence : Z;
}.
Definition class_rank (c : MergedSourceClass) : Z :=
  match c with MSC_Extension => 0 | MSC_Base => 1 end.
Definition position_ltb (a b : MergedSourcePosition) : bool :=
  (msp_base_log_head a <? msp_base_log_head b)
  || (msp_base_log_head a =? msp_base_log_head b)
     && ((class_rank (msp_class a) <? class_rank (msp_class b))
         || (class_rank (msp_class a) =? class_rank (msp_class b))
            && (msp_extension_sequence a <? msp_extension_sequence b)).

Definition merged_position (s : ObserverProgressSourceIdentity) : MergedSourcePosition :=
  match s with
  | OSI_Base sequence _ => mkMergedSourcePosition sequence MSC_Base 0
  | OSI_Extension base_log_head extension_sequence _ =>
      mkMergedSourcePosition base_log_head MSC_Extension extension_sequence
  end.

Inductive ObserverProgressOccurrence :=
| OPO_AttachedTerminal (conversation_id : ConversationId) (participant_id : ParticipantId)
    (terminal_delivery_seq : DeliverySeq)
| OPO_DetachedTerminal (conversation_id : ConversationId) (participant_id : ParticipantId)
    (terminal_delivery_seq : DeliverySeq)
| OPO_DiedTerminal (conversation_id : ConversationId) (participant_id : ParticipantId)
    (terminal_delivery_seq : DeliverySeq)
| OPO_ParticipantAck (conversation_id : ConversationId) (participant_id : ParticipantId)
    (through_seq : DeliverySeq) (source_sequence : Z)
| OPO_MarkerAck (conversation_id : ConversationId) (participant_id : ParticipantId)
    (marker_delivery_seq resulting_cursor : DeliverySeq) (base_log_head extension_sequence : Z)
| OPO_Leave (conversation_id : ConversationId) (participant_id : ParticipantId)
    (left_delivery_seq : DeliverySeq)
| OPO_RecoveredFate (conversation_id : ConversationId) (participant_id : ParticipantId)
    (binding_epoch : BindingEpoch) (resulting_floor : DeliverySeq).
#[export] Instance ObserverProgressOccurrence_eq_dec : EqDecision ObserverProgressOccurrence.
Proof.
  unfold ConversationId, ParticipantId, DeliverySeq. solve_decision.
Defined.

Definition occurrence_conversation_id (o : ObserverProgressOccurrence) : ConversationId :=
  match o with
  | OPO_AttachedTerminal c _ _ | OPO_DetachedTerminal c _ _ | OPO_DiedTerminal c _ _
  | OPO_ParticipantAck c _ _ _ | OPO_MarkerAck c _ _ _ _ _ | OPO_Leave c _ _
  | OPO_RecoveredFate c _ _ _ => c
  end.
Definition occurrence_participant_id (o : ObserverProgressOccurrence) : ParticipantId :=
  match o with
  | OPO_AttachedTerminal _ p _ | OPO_DetachedTerminal _ p _ | OPO_DiedTerminal _ p _
  | OPO_ParticipantAck _ p _ _ | OPO_MarkerAck _ p _ _ _ _ | OPO_Leave _ p _
  | OPO_RecoveredFate _ p _ _ => p
  end.
Definition occurrence_progress (o : ObserverProgressOccurrence) : DeliverySeq :=
  match o with
  | OPO_AttachedTerminal _ _ seq | OPO_DetachedTerminal _ _ seq | OPO_DiedTerminal _ _ seq => seq
  | OPO_ParticipantAck _ _ through_seq _ => through_seq
  | OPO_MarkerAck _ _ _ resulting_cursor _ _ => resulting_cursor
  | OPO_Leave _ _ left_delivery_seq => left_delivery_seq
  | OPO_RecoveredFate _ _ _ resulting_floor => resulting_floor
  end.

Inductive ObserverProgressLineage :=
| OPL_ParticipantCursor (p : Z)
| OPL_ParticipantTerminal (p : Z)
| OPL_BindingFateFloor (p : Z).
#[export] Instance ObserverProgressLineage_eq_dec : EqDecision ObserverProgressLineage.
Proof. solve_decision. Defined.
#[export] Program Instance ObserverProgressLineage_countable : Countable ObserverProgressLineage :=
  inj_countable'
    (fun l => match l with
              | OPL_ParticipantCursor p => inl p
              | OPL_ParticipantTerminal p => inr (inl p)
              | OPL_BindingFateFloor p => inr (inr p)
              end)
    (fun x => match x with
              | inl p => OPL_ParticipantCursor p
              | inr (inl p) => OPL_ParticipantTerminal p
              | inr (inr p) => OPL_BindingFateFloor p
              end) _.
Next Obligation. by intros []. Qed.

Inductive ObserverProgressProducer :=
| OPP_Attach | OPP_Detach | OPP_Died | OPP_ParticipantAck | OPP_MarkerAck
| OPP_LiveLeaveCommit | OPP_RecoveredBindingFate.

Record ObserverProgressSourceMetadata := mkObserverProgressSourceMetadata {
  osm_source : ObserverProgressSourceIdentity;
  osm_occurrence : ObserverProgressOccurrence;
  osm_lineage : ObserverProgressLineage;
  osm_producer : ObserverProgressProducer;
}.

Definition metadata_attached (source_sequence : Z) (c : ConversationId) (p : ParticipantId)
    (seq : DeliverySeq) : ObserverProgressSourceMetadata :=
  mkObserverProgressSourceMetadata (OSI_Base source_sequence BSK_Attached)
    (OPO_AttachedTerminal c p seq) (OPL_ParticipantTerminal p) OPP_Attach.
Definition metadata_detached (source_sequence : Z) (c : ConversationId) (p : ParticipantId)
    (seq : DeliverySeq) : ObserverProgressSourceMetadata :=
  mkObserverProgressSourceMetadata (OSI_Base source_sequence BSK_Detached)
    (OPO_DetachedTerminal c p seq) (OPL_ParticipantTerminal p) OPP_Detach.
Definition metadata_died (source_sequence : Z) (c : ConversationId) (p : ParticipantId)
    (seq : DeliverySeq) : ObserverProgressSourceMetadata :=
  mkObserverProgressSourceMetadata (OSI_Base source_sequence BSK_Died)
    (OPO_DiedTerminal c p seq) (OPL_ParticipantTerminal p) OPP_Died.
Definition metadata_participant_ack (source_sequence : Z) (c : ConversationId)
    (p : ParticipantId) (through_seq : DeliverySeq) : ObserverProgressSourceMetadata :=
  mkObserverProgressSourceMetadata (OSI_Base source_sequence BSK_ParticipantAck)
    (OPO_ParticipantAck c p through_seq source_sequence) (OPL_ParticipantCursor p)
    OPP_ParticipantAck.
Definition metadata_marker_ack (base_log_head extension_sequence : Z) (c : ConversationId)
    (p : ParticipantId) (marker_delivery_seq resulting_cursor : DeliverySeq)
    : ObserverProgressSourceMetadata :=
  mkObserverProgressSourceMetadata
    (OSI_Extension base_log_head extension_sequence ESK_MarkerAck)
    (OPO_MarkerAck c p marker_delivery_seq resulting_cursor base_log_head extension_sequence)
    (OPL_ParticipantCursor p) OPP_MarkerAck.
Definition metadata_leave (source_sequence : Z) (c : ConversationId) (p : ParticipantId)
    (left_delivery_seq : DeliverySeq) : ObserverProgressSourceMetadata :=
  mkObserverProgressSourceMetadata (OSI_Base source_sequence BSK_Left)
    (OPO_Leave c p left_delivery_seq) (OPL_ParticipantTerminal p) OPP_LiveLeaveCommit.
Definition metadata_recovered_binding_fate (source_sequence : Z) (c : ConversationId)
    (p : ParticipantId) (binding_epoch : BindingEpoch) (resulting_floor : DeliverySeq)
    : ObserverProgressSourceMetadata :=
  mkObserverProgressSourceMetadata (OSI_Base source_sequence BSK_Recovered)
    (OPO_RecoveredFate c p binding_epoch resulting_floor) (OPL_BindingFateFloor p)
    OPP_RecoveredBindingFate.

(** ** Recording a source *)

Definition validate_metadata (progress : DeliverySeq) (m : ObserverProgressSourceMetadata)
    : result unit ObserverProgressConformanceError :=
  let participant_id := occurrence_participant_id (osm_occurrence m) in
  let valid :=
    (progress =? occurrence_progress (osm_occurrence m))
    && match osm_source m, osm_occurrence m, osm_lineage m, osm_producer m with
       | OSI_Base _ BSK_Attached, OPO_AttachedTerminal _ _ _, OPL_ParticipantTerminal p, OPP_Attach
       | OSI_Base _ BSK_Detached, OPO_DetachedTerminal _ _ _, OPL_ParticipantTerminal p, OPP_Detach
       | OSI_Base _ BSK_Died, OPO_DiedTerminal _ _ _, OPL_ParticipantTerminal p, OPP_Died
       | OSI_Base _ BSK_Left, OPO_Leave _ _ _, OPL_ParticipantTerminal p, OPP_LiveLeaveCommit
       | OSI_Base _ BSK_Recovered, OPO_RecoveredFate _ _ _ _, OPL_BindingFateFloor p,
         OPP_RecoveredBindingFate => p =? participant_id
       | OSI_Base sequence BSK_ParticipantAck, OPO_ParticipantAck _ _ _ source_sequence,
         OPL_ParticipantCursor p, OPP_ParticipantAck =>
           (p =? participant_id) && (sequence =? source_sequence)
       | OSI_Extension base_log_head extension_sequence ESK_MarkerAck,
         OPO_MarkerAck _ _ _ _ occurrence_head occurrence_sequence,
         OPL_ParticipantCursor p, OPP_MarkerAck =>
           (p =? participant_id) && (base_log_head =? occurrence_head)
           && (extension_sequence =? occurrence_sequence)
       | _, _, _, _ => false
       end in
  if valid then Ok tt else Err OPC_SourceIdentityMismatch.

Record ObserverProgressSourceWitness := mkObserverProgressSourceWitness {
  osw_projection : ObserverProgressProjection;
  osw_merged_position : MergedSourcePosition;
  osw_metadata : ObserverProgressSourceMetadata;
}.
Definition witness_progress (w : ObserverProgressSourceWitness) : DeliverySeq :=
  opp_new_observer_progress (osw_projection w).

(** [occurrences] is a set used only for membership. *)
Record ObserverProgressWitnessState := mkObserverProgressWitnessState {
  ows_witnesses : list ObserverProgressSourceWitness;
  ows_active_visit : bool;
  ows_occurrences : list ObserverProgressOccurrence;
  ows_lineage_progress : gmap ObserverProgressLineage Z;
}.
Definition ObserverProgressWitnessState_new : ObserverProgressWitnessState :=
  mkObserverProgressWitnessState [] false [] ∅.

Definition set_active_visit (s : ObserverProgressWitnessState) (b : bool)
    : ObserverProgressWitnessState :=
  mkObserverProgressWitnessState (ows_witnesses s) b (ows_occurrences s) (ows_lineage_progress s).

Definition begin_source (s : ObserverProgressWitnessState)
    : ObserverProgressWitnessState * result unit ObserverProgressConformanceError :=
  if ows_active_visit s then (s, Err OPC_SourceOrder) else (set_active_visit s true, Ok tt).
Definition end_source (s : ObserverProgressWitnessState)
    : ObserverProgressWitnessState * result unit ObserverProgressConformanceError :=
  if negb (ows_active_visit s) then (s, Err OPC_SourceOrder) else (set_active_visit s false, Ok tt).

Definition record_at (s : ObserverProgressWitnessState) (conversation_id : ConversationId)
    (projection : ObserverProgressProjection) (m : ObserverProgressSourceMetadata)
    : ObserverProgressWitnessState * result unit ObserverProgressConformanceError :=
  if negb (opp_conversation_id projection =? conversation_id)
     || negb (occurrence_conversation_id (osm_occurrence m) =? conversation_id)
  then (s, Err OPC_ConversationMismatch)
  else
    let position := merged_position (osm_source m) in
    if match last (ows_witnesses s) with
       | Some previous => negb (position_ltb (osw_merged_position previous) position)
       | None => false
       end
    then (s, Err OPC_SourceOrder)
    else if bool_decide (osm_occurrence m ∈ ows_occurrences s)
    then (s, Err OPC_DuplicateOccurrenceProducer)
    else
      match validate_metadata (opp_new_observer_progress projection) m with
      | Err e => (s, Err e)
      | Ok _ =>
          if match ows_lineage_progress s !! osm_lineage m with
             | Some previous => opp_new_observer_progress projection <? previous
             | None => false
             end
          then (s, Err OPC_SourceLineageRegression)
          else
            (mkObserverProgressWitnessState
               (ows_witnesses s ++ [mkObserverProgressSourceWitness projection position m])
               (ows_active_visit s)
               (osm_occurrence m :: ows_occurrences s)
               (<[osm_lineage m := opp_new_observer_progress projection]> (ows_lineage_progress s)),
             Ok tt)
      end.

Definition record (s : ObserverProgressWitnessState) (conversation_id : ConversationId)
    (projection : ObserverProgressProjection) (m : ObserverProgressSourceMetadata)
    : ObserverProgressWitnessState * result unit ObserverProgressConformanceError :=
  if negb (ows_active_visit s) then
    let '(s, result) := record_at (set_active_visit s true) conversation_id projection m in
    (set_active_visit s false, result)
  else record_at s conversation_id projection m.

(** ** The repair plan *)

Inductive ObserverProgressPreflight :=
| OPF_Untracked
| OPF_Tracked (progress : DeliverySeq).
Record ObserverProgressReconcilePlan := mkObserverProgressReconcilePlan {
  orp_track_baseline : bool;
  orp_advances : list Z;
  orp_validated_maximum : Z;
}.

(** The loop over the witnesses: the running maximum and its strict rises, in order. *)
Fixpoint running_maxima (ws : list ObserverProgressSourceWitness) (maximum : Z)
    (maxima : list (MergedSourcePosition * Z)) : Z * list (MergedSourcePosition * Z) :=
  match ws with
  | [] => (maximum, maxima)
  | w :: ws =>
      let progress := witness_progress w in
      if maximum <? progress
      then running_maxima ws progress (maxima ++ [(osw_merged_position w, progress)])
      else running_maxima ws maximum maxima
  end.

(** [iter().position]. *)
Fixpoint position_of (target : Z) (maxima : list (MergedSourcePosition * Z)) : option nat :=
  match maxima with
  | [] => None
  | (_, progress) :: maxima =>
      if progress =? target then Some 0%nat else option_map S (position_of target maxima)
  end.

Definition plan_observer_progress_reconcile (witnesses : list ObserverProgressSourceWitness)
    (authoritative_maximum : DeliverySeq) (preflight : ObserverProgressPreflight)
    : result ObserverProgressReconcilePlan ObserverProgressConformanceError :=
  let '(running_maximum, maxima) := running_maxima witnesses 0 [] in
  if negb (running_maximum =? authoritative_maximum) then Err OPC_FinalProgressMismatch
  else
    let '(track_baseline, durable_progress) :=
      match preflight with
      | OPF_Untracked => (true, 0)
      | OPF_Tracked progress => (false, progress)
      end in
    if (running_maximum =? 0) && (0 <? durable_progress)
    then Err OPC_AdvanceWithoutRunningMaximumWitness
    else if running_maximum <? durable_progress then Err OPC_AheadOfValidatedSourceMaximum
    else
      let? suffix_start :=
        if durable_progress =? 0 then Ok 0%nat
        else ok_or (option_map S (position_of durable_progress maxima))
               OPC_AdvanceWithoutRunningMaximumWitness in
      Ok (mkObserverProgressReconcilePlan track_baseline (map snd (drop suffix_start maxima))
            running_maximum).

(** ** Strict rises *)

(** Strictly increasing from above [lo]. *)
Fixpoint ascending (lo : Z) (l : list Z) : Prop :=
  match l with
  | [] => True
  | x :: l => lo < x /\ ascending x l
  end.

(** The strict rises of the witnesses above [m]. *)
Fixpoint rises (m : Z) (ws : list ObserverProgressSourceWitness) : list Z :=
  match ws with
  | [] => []
  | w :: ws =>
      if m <? witness_progress w then witness_progress w :: rises (witness_progress w) ws
      else rises m ws
  end.

(** The last element, or the start of an empty list. *)
Definition final (lo : Z) (l : list Z) : Z := default lo (last l).

Lemma final_cons lo x l : final lo (x :: l) = final x l.
Proof. unfold final. destruct l as [|y l]; [done|]. rewrite last_cons_cons.
  destruct (last (y :: l)) eqn:E; [done|]. by apply last_None in E. Qed.

Lemma running_maxima_eq ws m acc :
  (running_maxima ws m acc).1 = final m (rises m ws)
  /\ map snd (running_maxima ws m acc).2 = map snd acc ++ rises m ws.
Proof.
  revert m acc. induction ws as [|w ws IH]; intros m acc; simpl.
  { by rewrite app_nil_r. }
  destruct (Z.ltb_spec m (witness_progress w)); [|apply IH].
  destruct (IH (witness_progress w) (acc ++ [(osw_merged_position w, witness_progress w)])) as [-> ->].
  rewrite final_cons, map_app, <- app_assoc. done.
Qed.

Lemma rises_ascending m ws : ascending m (rises m ws).
Proof.
  revert m. induction ws as [|w ws IH]; intros m; simpl; [done|].
  destruct (Z.ltb_spec m (witness_progress w)); [by split|done].
Qed.

Lemma ascending_le lo l : ascending lo l -> lo <= final lo l.
Proof.
  revert lo. induction l as [|x l IH]; intros lo; simpl; [unfold final; simpl; lia|].
  intros [? ?%IH]. rewrite final_cons. lia.
Qed.

(** The running maximum is the maximum of what was recorded. *)
Lemma final_rises m ws : final m (rises m ws) = fold_left Z.max (map witness_progress ws) m.
Proof.
  revert m. induction ws as [|w ws IH]; intros m; simpl; [done|].
  destruct (Z.ltb_spec m (witness_progress w)).
  - rewrite final_cons, IH. f_equal. lia.
  - rewrite IH. f_equal. lia.
Qed.

(** What follows the first occurrence of [d] in an ascending list. *)
Lemma position_of_suffix d maxima i lo : ascending lo (map snd maxima) ->
  position_of d maxima = Some i ->
  ascending d (map snd (drop (S i) maxima))
  /\ final d (map snd (drop (S i) maxima)) = final lo (map snd maxima)
  /\ exists l, map snd maxima = l ++ d :: map snd (drop (S i) maxima).
Proof.
  revert i lo. induction maxima as [|[q x] maxima IH]; intros i lo; simpl; [done|].
  intros [Hlt Ha]. rewrite final_cons. destruct (Z.eqb_spec x d) as [->|Hne].
  - intros [= <-]; simpl. rewrite drop_0. split_and!; [done..|]. by exists [].
  - destruct (position_of d maxima) as [j|] eqn:E; [|done]. intros [= <-].
    destruct (IH j x Ha eq_refl) as (? & ? & l & Hl). simpl. split_and!; [done..|].
    exists (x :: l). by rewrite Hl.
Qed.

Lemma position_of_Some d maxima : d ∈ map snd maxima -> exists i, position_of d maxima = Some i.
Proof.
  induction maxima as [|[q x] maxima IH]; simpl; [by intros ?%elem_of_nil|].
  intros [->|H]%elem_of_cons; [rewrite Z.eqb_refl; eauto|].
  destruct (x =? d); [eauto|]. destruct (IH H) as [i ->]; simpl; eauto.
Qed.

Lemma position_of_elem d maxima i : position_of d maxima = Some i -> d ∈ map snd maxima.
Proof.
  revert i. induction maxima as [|[q x] maxima IH]; intros i; simpl; [done|].
  destruct (Z.eqb_spec x d) as [->|]; [intros _; by left|].
  destruct (position_of d maxima) as [j|] eqn:E; [|done]. intros _. right. by eapply IH.
Qed.

(** The durable progress a preflight reads. *)
Definition durable_of (preflight : ObserverProgressPreflight) : Z :=
  match preflight with OPF_Untracked => 0 | OPF_Tracked progress => progress end.

Lemma ascending_app lo l d r : ascending lo (l ++ d :: r) ->
  lo < d /\ ascending d r /\ final lo (l ++ d :: r) = final d r.
Proof.
  revert lo. induction l as [|x l IH]; intros lo; simpl; rewrite final_cons; [by intros [? ?]|].
  intros [? (? & ? & ->)%IH]. split_and!; [lia|done..].
Qed.

(** An element of an ascending list occurs once. *)
Lemma ascending_unique lo l1 l2 d r1 r2 : ascending lo (l1 ++ d :: r1) ->
  l1 ++ d :: r1 = l2 ++ d :: r2 -> r1 = r2.
Proof.
  revert lo l2. induction l1 as [|x l1 IH]; intros lo [|y l2]; simpl.
  - by intros _ [= ->].
  - intros [_ Ha] [= -> ->]. apply ascending_app in Ha as [? _]. lia.
  - intros [_ Ha] [= -> <-]. apply ascending_app in Ha as [? _]. lia.
  - intros [_ Ha] [= -> ?]. by eapply IH.
Qed.

(** A plan is made exactly when the sources add up to the authoritative maximum and the
    durable progress is a state they passed through; it registers an untracked
    conversation and performs the rises that remain. *)
Lemma plan_iff ws maximum preflight plan : 0 <= durable_of preflight ->
  plan_observer_progress_reconcile ws maximum preflight = Ok plan <->
  fold_left Z.max (map witness_progress ws) 0 = maximum
  /\ (exists l, 0 :: rises 0 ws = l ++ durable_of preflight :: orp_advances plan)
  /\ orp_track_baseline plan = match preflight with OPF_Untracked => true | _ => false end
  /\ orp_validated_maximum plan = maximum.
Proof.
  intros Hd. unfold plan_observer_progress_reconcile. rewrite <- final_rises.
  pose proof (running_maxima_eq ws 0 []) as [Hm Hr].
  destruct (running_maxima ws 0 []) as [m maxima]; simpl in *.
  pose proof (rises_ascending 0 ws) as Ha. rewrite <- Hr in *. subst m. clear Hr.
  set (d := durable_of preflight) in *.
  assert ((match preflight with
           | OPF_Untracked => (true, 0) | OPF_Tracked progress => (false, progress) end)
    = (match preflight with OPF_Untracked => true | _ => false end, d)) as -> by (by destruct preflight).
  set (b := match preflight with OPF_Untracked => true | _ => false end).
  pose proof (ascending_le 0 _ Ha) as Hle. split.
  - destruct (Z.eqb_spec (final 0 (map snd maxima)) maximum) as [He|]; [|done]; simpl.
    destruct (_ && (0 <? d)) eqn:E1; [done|].
    destruct (Z.ltb_spec (final 0 (map snd maxima)) d); [done|].
    destruct (Z.eqb_spec d 0) as [H0|H0].
    { intros [= <-]; simpl. rewrite drop_0. split_and!; [done| |done..].
      exists []. by rewrite H0. }
    destruct (position_of d maxima) as [i|] eqn:Ei; simpl; [|done]. intros [= <-]; simpl.
    destruct (position_of_suffix d maxima i 0 Ha Ei) as (_ & _ & l & Hl).
    split_and!; [done| |done..]. exists (0 :: l). simpl. by f_equal.
  - intros (He & (l & Hl) & Hb & Hv). rewrite He, Z.eqb_refl; simpl. rewrite <- He in *.
    destruct plan as [b' advances m']; simpl in *. subst b' m'.
    destruct l as [|y l]; injection Hl as Hz Hl.
    + rewrite <- Hz, Z.ltb_irrefl, andb_false_r, (proj2 (Z.ltb_ge _ _) Hle), Z.eqb_refl; simpl.
      by rewrite drop_0, Hl.
    + rewrite Hl in *. destruct (ascending_app _ _ _ _ Ha) as (H0 & Had & Hf).
      pose proof (ascending_le _ _ Had) as Hfd. rewrite Hf.
      rewrite (proj2 (Z.eqb_neq _ 0)) by lia. simpl. rewrite (proj2 (Z.ltb_ge _ _) Hfd).
      rewrite (proj2 (Z.eqb_neq d 0)) by lia.
      destruct (position_of_Some d maxima) as [i Hi].
      { rewrite Hl. apply elem_of_app. right. by left. }
      rewrite Hi; simpl. do 2 f_equal. rewrite <- Hl in Ha.
      destruct (position_of_suffix d maxima i 0 Ha Hi) as (_ & _ & l' & Hl').
      rewrite Hl' in Ha. eapply ascending_unique; [exact Ha|]. by rewrite <- Hl', Hl.
Qed.

(** ** Recorded sources *)

Lemma position_ltb_trans a b c :
  position_ltb a b = true -> position_ltb b c = true -> position_ltb a c = true.
Proof. unfold position_ltb. rewrite !orb_true_iff, !andb_true_iff, !orb_true_iff, !andb_true_iff, !Z.ltb_lt, !Z.eqb_eq. lia. Qed.

Abbreviation lineage_of := (fun w => osm_lineage (osw_metadata w)).
Abbreviation occurrence_of := (fun w => osm_occurrence (osw_metadata w)).

Record source_inv (s : ObserverProgressWitnessState) : Prop := {
  si_order : forall i j wi wj, (i < j)%nat ->
    ows_witnesses s !! i = Some wi -> ows_witnesses s !! j = Some wj ->
    position_ltb (osw_merged_position wi) (osw_merged_position wj) = true;
  si_occurrences : forall i w, ows_witnesses s !! i = Some w -> occurrence_of w ∈ ows_occurrences s;
  si_distinct : forall i j wi wj, (i < j)%nat ->
    ows_witnesses s !! i = Some wi -> ows_witnesses s !! j = Some wj ->
    occurrence_of wi <> occurrence_of wj;
  si_lineage : forall i j wi wj, (i < j)%nat ->
    ows_witnesses s !! i = Some wi -> ows_witnesses s !! j = Some wj ->
    lineage_of wi = lineage_of wj -> witness_progress wi <= witness_progress wj;
  si_latest : forall i w, ows_witnesses s !! i = Some w ->
    exists q, ows_lineage_progress s !! lineage_of w = Some q /\ witness_progress w <= q;
}.

Lemma source_inv_new : source_inv ObserverProgressWitnessState_new.
Proof. split; simpl; intros *; done. Qed.

Lemma set_active_visit_inv s b : source_inv s -> source_inv (set_active_visit s b).
Proof. by intros []. Qed.

Lemma record_at_Ok s c p m s' : record_at s c p m = (s', Ok tt) ->
  opp_conversation_id p = c /\ occurrence_conversation_id (osm_occurrence m) = c
  /\ (forall w, last (ows_witnesses s) = Some w ->
        position_ltb (osw_merged_position w) (merged_position (osm_source m)) = true)
  /\ (osm_occurrence m ∉ ows_occurrences s)
  /\ opp_new_observer_progress p = occurrence_progress (osm_occurrence m)
  /\ (forall q, ows_lineage_progress s !! osm_lineage m = Some q ->
        q <= opp_new_observer_progress p)
  /\ s' = mkObserverProgressWitnessState
       (ows_witnesses s
          ++ [mkObserverProgressSourceWitness p (merged_position (osm_source m)) m])
       (ows_active_visit s) (osm_occurrence m :: ows_occurrences s)
       (<[osm_lineage m := opp_new_observer_progress p]> (ows_lineage_progress s)).
Proof.
  unfold record_at. intros H. destruct (_ || _) eqn:Ec; [done|]. dreflect.
  destruct (match last (ows_witnesses s) with Some w => _ | None => _ end) eqn:El; [done|].
  destruct (bool_decide_reflect (osm_occurrence m ∈ ows_occurrences s)); [done|].
  destruct (validate_metadata (opp_new_observer_progress p) m) eqn:Em; [|done].
  destruct (match ows_lineage_progress s !! _ with Some q => _ | None => _ end) eqn:Eg; [done|].
  injection H as <-. split_and!; [done|done| |done| | |done].
  - intros w Hw. rewrite Hw in El. by dreflect.
  - unfold validate_metadata in Em. destruct (opp_new_observer_progress p =? _) eqn:E; [by dreflect|done].
  - intros q Hq. rewrite Hq in Eg. by dreflect.
Qed.

(** A refused source leaves the recorder as it was. *)
Lemma record_at_Err s c p m s' e : record_at s c p m = (s', Err e) -> s' = s.
Proof. unfold record_at. intros H. by csplit_in H. Qed.

Lemma record_at_inv s c p m s' : source_inv s -> record_at s c p m = (s', Ok tt) -> source_inv s'.
Proof.
  intros [Ho Hc Hd Hl Ht] (_ & _ & Hlast & Hnew & _ & Hq & ->)%record_at_Ok.
  set (w' := mkObserverProgressSourceWitness p (merged_position (osm_source m)) m).
  assert (forall i w, ows_witnesses s !! i = Some w ->
    position_ltb (osw_merged_position w) (osw_merged_position w') = true) as Hpos.
  { intros i w Hi. destruct (last (ows_witnesses s)) as [z|] eqn:Ez.
    2: { apply last_None in Ez. by rewrite Ez in Hi. }
    specialize (Hlast z eq_refl). rewrite last_lookup in Ez.
    pose proof (lookup_lt_Some _ _ _ Hi).
    destruct (decide (i = pred (length (ows_witnesses s)))) as [->|Hne].
    { rewrite Hi in Ez. by injection Ez as ->. }
    eapply position_ltb_trans; [|exact Hlast]. eapply Ho; [|done..]. lia. }
  split; simpl.
  - intros i j wi wj Hij Hi Hj. apply lookup_snoc_Some in Hi as [[? Hi]|[-> <-]];
      apply lookup_snoc_Some in Hj as [[? Hj]|[-> <-]]; [exact (Ho i j wi wj Hij Hi Hj)|exact (Hpos i wi Hi)|lia..].
  - intros i w [[_ Hi]|[_ <-]]%lookup_snoc_Some; [right; by eapply Hc|by left].
  - intros i j wi wj Hij Hi Hj. apply lookup_snoc_Some in Hi as [[? Hi]|[-> <-]];
      apply lookup_snoc_Some in Hj as [[? Hj]|[-> <-]]; [exact (Hd i j wi wj Hij Hi Hj)| |lia..].
    intros E. apply Hnew. simpl in E. rewrite <- E. by eapply Hc.
  - intros i j wi wj Hij Hi Hj. apply lookup_snoc_Some in Hi as [[? Hi]|[-> <-]];
      apply lookup_snoc_Some in Hj as [[? Hj]|[-> <-]]; [exact (Hl i j wi wj Hij Hi Hj)| |lia..].
    intros E. destruct (Ht i wi Hi) as (q & Eq & Hle). simpl in E. rewrite E in Eq.
    specialize (Hq q Eq). unfold witness_progress at 2; simpl. lia.
  - intros i w [[_ Hi]|[_ <-]]%lookup_snoc_Some; simpl.
    + destruct (Ht i w Hi) as (q & Eq & Hle).
      destruct (decide (osm_lineage m = lineage_of w)) as [E|E].
      * exists (opp_new_observer_progress p). simpl in E. rewrite E, lookup_insert_eq.
        split; [done|]. rewrite <- E in Eq. specialize (Hq q Eq). lia.
      * exists q. by rewrite lookup_insert_ne.
    + eexists. rewrite lookup_insert_eq. split; [done|]. unfold witness_progress; simpl. lia.
Qed.

(** A replay drives the recorder through visits and records. *)
Inductive SourceOp :=
| SO_Begin
| SO_End
| SO_Record (conversation_id : ConversationId) (projection : ObserverProgressProjection)
    (metadata : ObserverProgressSourceMetadata).
Definition source_apply (s : ObserverProgressWitnessState) (op : SourceOp)
    : ObserverProgressWitnessState :=
  match op with
  | SO_Begin => (begin_source s).1
  | SO_End => (end_source s).1
  | SO_Record c p m => (record s c p m).1
  end.

Lemma record_at_fst_inv s c p m : source_inv s -> source_inv (record_at s c p m).1.
Proof.
  intros Hs. destruct (record_at s c p m) as [s' [[]|e]] eqn:E.
  - by eapply record_at_inv.
  - by apply record_at_Err in E as ->.
Qed.

Lemma source_apply_inv s op : source_inv s -> source_inv (source_apply s op).
Proof.
  intros Hs. destruct op as [| |c p m]; simpl.
  - unfold begin_source. destruct (ows_active_visit s); [done|]. by apply set_active_visit_inv.
  - unfold end_source. destruct (negb _); [done|]. by apply set_active_visit_inv.
  - unfold record. destruct (negb _); [|by apply record_at_fst_inv].
    pose proof (record_at_fst_inv (set_active_visit s true) c p m
      (set_active_visit_inv s true Hs)) as H.
    destruct (record_at (set_active_visit s true) c p m) as [s' r]; simpl in *.
    by apply set_active_visit_inv.
Qed.

Lemma sources_inv ops :
  source_inv (fold_left source_apply ops ObserverProgressWitnessState_new).
Proof.
  assert (forall s, source_inv s -> source_inv (fold_left source_apply ops s)) as H.
  { induction ops as [|op ops IH]; intros s Hs; simpl; [done|]. by apply IH, source_apply_inv. }
  apply H, source_inv_new.
Qed.

(** Whatever a replay presents, the sources it has recorded are in strictly
    increasing merged order, no occurrence is recorded twice, and along one lineage (a
    participant's cursor, its terminals, its recovered floors) progress never goes back. *)
Theorem recorded_sources ops i j wi wj :
  let s := fold_left source_apply ops ObserverProgressWitnessState_new in
  (i < j)%nat -> ows_witnesses s !! i = Some wi -> ows_witnesses s !! j = Some wj ->
  position_ltb (osw_merged_position wi) (osw_merged_position wj) = true
  /\ osm_occurrence (osw_metadata wi) <> osm_occurrence (osw_metadata wj)
  /\ (osm_lineage (osw_metadata wi) = osm_lineage (osw_metadata wj) ->
      witness_progress wi <= witness_progress wj).
Proof.
  intros s Hij Hi Hj. destruct (sources_inv ops) as [Ho _ Hd Hl _].
  split_and!; [exact (Ho i j wi wj Hij Hi Hj)|exact (Hd i j wi wj Hij Hi Hj)|
    exact (Hl i j wi wj Hij Hi Hj)].
Qed.

Definition example_ops : list SourceOp :=
  [SO_Begin; SO_Record 7 (mkObserverProgressProjection 7 4) (metadata_participant_ack 1 7 2 4);
   SO_End; SO_Record 7 (mkObserverProgressProjection 7 3) (metadata_participant_ack 2 7 2 3);
   SO_Record 7 (mkObserverProgressProjection 7 6) (metadata_marker_ack 3 0 7 2 6 6)].

Lemma recorded_sources_witness :
  let s := fold_left source_apply example_ops ObserverProgressWitnessState_new in
  exists wi wj, ows_witnesses s !! 0%nat = Some wi /\ ows_witnesses s !! 1%nat = Some wj
  /\ witness_progress wi <= witness_progress wj.
Proof.
  do 2 eexists. split; [reflexivity|]. split; [reflexivity|].
  apply (recorded_sources example_ops 0 1); [lia|reflexivity|reflexivity|reflexivity].
Defined.
