(* ===== verification/ObserverLog.v ===== *)
(** * The server's observer owner and its row log

    Model of the observer part of the production server
    (liminal-server/src/server/participant/production): [observer.rs] (the append-only
    log of observer rows and its replay), [handler_observer.rs] (a recovery batch
    through the log, the publication of a fired arm) and [handler_observer_reconcile.rs]
    (bringing the log up to the recorded sources).

    The durable store and the row serialization are not part of the repository's own
    logic: [DurableStore] and [RowCodec] state what the code relies on.  Any store call
    may fail; a failed append leaves the stream as it was, a failed flush does not take
    an append back. *)
From stdpp Require Import gmap sorting.
From coqutil Require Import Byte.
From S2P Require Import Prelude ObserverSource Algebra Tags Wire Response Authority Binding.
From S2P Require Import Observer.

Inductive ObserverRow :=
| OR_Track (conversation_id : ConversationId) (observer_progress : DeliverySeq)
| OR_Advance (conversation_id : ConversationId) (observer_progress : DeliverySeq)
| OR_Arms (arms : Rows).
Record StoredRow := mkStoredRow {
  sr_schema_version : Z;
  sr_row : ObserverRow;
}.
Definition SCHEMA_VERSION : Z := 1.
Definition READ_BATCH_SIZE : nat := 64.

(** ** What the code relies on *)

Class RowCodec (P : Type) := {
  to_vec : StoredRow -> option P;
  from_slice : P -> option StoredRow;
  from_to_vec r p : to_vec r = Some p -> from_slice p = Some r;
}.

(** Entries as [read_from] returns them: the sequence and the payload. *)
Fixpoint numbered {P} (start : Z) (ps : list P) : list (Z * P) :=
  match ps with
  | [] => []
  | p :: ps => (start, p) :: numbered (start + 1) ps
  end.

Class DurableStore (St P E : Type) := {
  store_append : St -> P -> Z -> St * result Z E;
  store_read_from : St -> Z -> nat -> result (list (Z * P)) E;
  store_flush : St -> St * result unit E;
  (** The content of the observer stream. *)
  stream : St -> list P;
  append_law s p n :
    match store_append s p n with
    | (s', Ok assigned) =>
        n = Z.of_nat (length (stream s)) /\ assigned = n /\ stream s' = stream s ++ [p]
    | (s', Err _) => stream s' = stream s
    end;
  flush_law s : stream (store_flush s).1 = stream s;
  read_law s offset limit es : 0 <= offset -> store_read_from s offset limit = Ok es ->
    es = numbered offset (take limit (drop (Z.to_nat offset) (stream s)));
}.

Inductive OperationLogError (E : Type) :=
| OLE_Durability (e : E)
| OLE_Serialization
| OLE_SchemaVersion (version : Z)
| OLE_Sequence (expected actual : Z)
| OLE_AssignedSequence (expected actual : Z)
| OLE_CorruptRow (sequence : Z)
| OLE_Unfinished.
Arguments OLE_Durability {E} _.
Arguments OLE_Serialization {E}.
Arguments OLE_SchemaVersion {E} _.
Arguments OLE_Sequence {E} _ _.
Arguments OLE_AssignedSequence {E} _ _.
Arguments OLE_CorruptRow {E} _.
Arguments OLE_Unfinished {E}.

(** The lexicographic order [sort_unstable] uses on pairs. *)
Definition pair_le (a b : ConversationId * ObserverEpoch) : Prop :=
  a.1 < b.1 \/ a.1 = b.1 /\ a.2 <= b.2.
#[export] Instance pair_le_dec : RelDecision pair_le.
Proof. intros ??. unfold pair_le. apply _. Defined.

(** [Vec::dedup]: drops a repetition of the previous element. *)
Fixpoint dedup (rows : Rows) : Rows :=
  match rows with
  | [] => []
  | a :: rest =>
      match rest with
      | [] => [a]
      | b :: _ => if bool_decide (a = b) then dedup rest else a :: dedup rest
      end
  end.

(** ** The row log *)

Definition fold_row {E} (a : ObserverRecoveryAggregate) (row : ObserverRow) (sequence : Z)
    : result ObserverRecoveryAggregate (OperationLogError E) :=
  match row with
  | OR_Track conversation_id progress =>
      match decide_track a conversation_id progress with
      | OPD_Commit transaction => Ok (track_commit transaction)
      | OPD_Refuse _ _ => Err (OLE_CorruptRow sequence)
      end
  | OR_Advance conversation_id progress =>
      match decide_progress_advance a conversation_id progress with
      | OAD_Commit transaction => Ok (advance_commit transaction).1
      | OAD_Refuse _ _ => Err (OLE_CorruptRow sequence)
      end
  | OR_Arms arms =>
      let progress := progress_rows a in
      let armed := dedup (merge_sort pair_le (armed_rows a ++ arms)) in
      map_err (fun _ => OLE_CorruptRow sequence) (ObserverRecoveryAggregate_restore progress armed)
  end.

Record RestoredObserver := mkRestoredObserver {
  ro_aggregate : ObserverRecoveryAggregate;
  ro_next_sequence : Z;
}.

Section Log.
Context {St P E : Type} `{!RowCodec P} `{!DurableStore St P E}.

Definition log_append (s : St) (row : ObserverRow) (expected_sequence : Z)
    : St * result unit (OperationLogError E) :=
  match to_vec (mkStoredRow SCHEMA_VERSION row) with
  | None => (s, Err OLE_Serialization)
  | Some payload =>
      let '(s, assigned) := store_append s payload expected_sequence in
      match assigned with
      | Err e => (s, Err (OLE_Durability e))
      | Ok assigned =>
          if negb (assigned =? expected_sequence)
          then (s, Err (OLE_AssignedSequence expected_sequence assigned))
          else
            let '(s, flushed) := store_flush s in
            (s, map_err OLE_Durability flushed)
      end
  end.

(** One page of the replay. *)
Fixpoint fold_entries (entries : list (Z * P)) (a : ObserverRecoveryAggregate) (sequence : Z)
    : result RestoredObserver (OperationLogError E) :=
  match entries with
  | [] => Ok (mkRestoredObserver a sequence)
  | (entry_sequence, payload) :: entries =>
      if negb (entry_sequence =? sequence) then Err (OLE_Sequence sequence entry_sequence)
      else
        match from_slice payload with
        | None => Err OLE_Serialization
        | Some stored =>
            if negb (sr_schema_version stored =? SCHEMA_VERSION)
            then Err (OLE_SchemaVersion (sr_schema_version stored))
            else
              let? a := fold_row a (sr_row stored) entry_sequence in
              match checked_add u64_max sequence 1 with
              | None => Err (OLE_Sequence u64_max entry_sequence)
              | Some sequence => fold_entries entries a sequence
              end
        end
  end.

(** The paging loop; [fuel] pages. *)
Fixpoint restore_loop (fuel : nat) (s : St) (a : ObserverRecoveryAggregate) (sequence : Z)
    : result RestoredObserver (OperationLogError E) :=
  match fuel with
  | 0%nat => Err OLE_Unfinished
  | S fuel =>
      let? entries := map_err OLE_Durability (store_read_from s sequence READ_BATCH_SIZE) in
      if bool_decide (entries = []) then Ok (mkRestoredObserver a sequence)
      else
        let? restored := fold_entries entries a sequence in
        if (length entries <? READ_BATCH_SIZE)%nat then Ok restored
        else restore_loop fuel s (ro_aggregate restored) (ro_next_sequence restored)
  end.

(** One page more than there are rows: [restore_reads] shows it is enough. *)
Definition log_restore (s : St) : result RestoredObserver (OperationLogError E) :=
  restore_loop (S (length (stream s))) s ObserverRecoveryAggregate_new 0.

(** ** The owner *)

(** The live connection an armed conversation wakes. *)
Context {Target : Type}.
Record ObserverArmTarget := mkObserverArmTarget {
  oat_refused_epoch : ObserverEpoch;
  oat_connection_incarnation : ConnectionIncarnation;
  oat_target : Target;
}.
Record ObserverOwner := mkObserverOwner {
  oo_aggregate : ObserverRecoveryAggregate;
  oo_head : Z;
  oo_arm_targets : gmap Z ObserverArmTarget;
}.
Record ObserverPublication := mkObserverPublication {
  opub_conversation_id : ConversationId;
  opub_refused_epoch : ObserverEpoch;
  opub_observer_progress : DeliverySeq;
}.

(** Handing a publication to the connection succeeds or not. *)
Context (publish : Target -> ObserverPublication -> bool).

Inductive ObserverServerError :=
| OSE_Log (e : OperationLogError E)
| OSE_Conformance (e : ObserverProgressConformanceError)
| OSE_AllocationExhausted
| OSE_PublicationFailed
| OSE_TargetEpoch (target_epoch fired_epoch : ObserverEpoch).

(** The store and the lock-protected owner. *)
Record ObserverServer := mkObserverServer {
  os_store : St;
  os_owner : option ObserverOwner;
}.

Definition publish_fired_observer (arm_targets : gmap Z ObserverArmTarget)
    (fired : option ObserverRecoveryArm) (progress : DeliverySeq)
    : gmap Z ObserverArmTarget * result unit ObserverServerError :=
  match fired with
  | None => (arm_targets, Ok tt)
  | Some fired =>
      let removed := delete (arm_conversation_id fired) arm_targets in
      match arm_targets !! arm_conversation_id fired with
      | Some association =>
          if oat_refused_epoch association =? arm_refused_epoch fired then
            (removed,
             if publish (oat_target association)
                  (mkObserverPublication (arm_conversation_id fired) (arm_refused_epoch fired)
                     progress)
             then Ok tt else Err OSE_PublicationFailed)
          else (removed, Err (OSE_TargetEpoch (oat_refused_epoch association)
                                (arm_refused_epoch fired)))
      | None => (removed, Ok tt)
      end
  end.

(** The owner an operation works with: the installed one, or one restored from the log. *)
Definition active_owner (sv : ObserverServer) : result ObserverOwner ObserverServerError :=
  match os_owner sv with
  | Some owner => Ok owner
  | None =>
      let? restored := map_err OSE_Log (log_restore (os_store sv)) in
      Ok (mkObserverOwner (ro_aggregate restored) (ro_next_sequence restored) ∅)
  end.

(** *** A recovery batch

    The conversations of the connection are those of its dispatch map.  The owner is
    taken for the duration; it is put back by every outcome except a failed append,
    after which the next operation restores it from the log. *)
Fixpoint install_targets (arms : list ObserverRecoveryArm) (incarnation : ConnectionIncarnation)
    (target : option Target) (tracked : gset ConversationId) (targets : gmap Z ObserverArmTarget)
    : gset ConversationId * gmap Z ObserverArmTarget :=
  match arms with
  | [] => (tracked, targets)
  | arm :: arms =>
      install_targets arms incarnation target ({[arm_conversation_id arm]} ∪ tracked)
        (match target with
         | Some target =>
             <[arm_conversation_id arm :=
                 mkObserverArmTarget (arm_refused_epoch arm) incarnation target]> targets
         | None => delete (arm_conversation_id arm) targets
         end)
  end.

Definition arm_row (arm : ObserverRecoveryArm) : ConversationId * ObserverEpoch :=
  (arm_conversation_id arm, arm_refused_epoch arm).

Definition handle_observer_recovery (sv : ObserverServer) (incarnation : ConnectionIncarnation)
    (conversations : gset ConversationId) (request : ObserverRecoveryHandshake)
    (target : option Target) (max_entries connection_limit : Z)
    : ObserverServer * gset ConversationId * result ServerValue ObserverServerError :=
  match active_owner sv with
  | Err e => (sv, conversations, Err e)
  | Ok owner =>
      match decide_recovery (oo_aggregate owner) request max_entries connection_limit
              (elements conversations) with
      | OTD_Respond aggregate response =>
          (mkObserverServer (os_store sv)
             (Some (mkObserverOwner aggregate (oo_head owner) (oo_arm_targets owner))),
           conversations, Ok (server_value response))
      | OTD_Commit transaction =>
          let arms := orc_arms (ort_commit transaction) in
          match log_append (os_store sv) (OR_Arms (map arm_row arms)) (oo_head owner) with
          | (store, Err e) => (mkObserverServer store None, conversations, Err (OSE_Log e))
          | (store, Ok _) =>
              let '(aggregate, outcome) := recovery_commit transaction in
              match checked_add u64_max (oo_head owner) 1 with
              | None => (mkObserverServer store None, conversations, Err OSE_AllocationExhausted)
              | Some next_head =>
                  let '(conversations, targets) :=
                    install_targets arms incarnation target conversations (oo_arm_targets owner) in
                  (mkObserverServer store (Some (mkObserverOwner aggregate next_head targets)),
                   conversations, Ok (server_value (ObserverRecoveryResponse_accepted outcome)))
              end
          end
      end
  end.

(** *** Reconciliation *)

(** What the two appends return: the successor, or the unchanged aggregate and head. *)
Definition append_track (s : St) (a : ObserverRecoveryAggregate) (head : Z) (c : ConversationId)
    : St * result (ObserverRecoveryAggregate * Z)
             (ObserverRecoveryAggregate * Z * ObserverServerError) :=
  match checked_add u64_max head 1 with
  | None => (s, Err (a, head, OSE_AllocationExhausted))
  | Some next_head =>
      match decide_track a c 0 with
      | OPD_Refuse a _ => (s, Err (a, head, OSE_Conformance OPC_FinalProgressMismatch))
      | OPD_Commit transaction =>
          match log_append s (OR_Track c 0) head with
          | (s, Ok _) => (s, Ok (track_commit transaction, next_head))
          | (s, Err e) => (s, Err (track_abort transaction, head, OSE_Log e))
          end
      end
  end.

Definition append_advance (s : St) (a : ObserverRecoveryAggregate) (head : Z)
    (c : ConversationId) (progress : DeliverySeq)
    : St * result (ObserverRecoveryAggregate * Z * option ObserverRecoveryArm)
             (ObserverRecoveryAggregate * Z * ObserverServerError) :=
  match checked_add u64_max head 1 with
  | None => (s, Err (a, head, OSE_AllocationExhausted))
  | Some next_head =>
      match decide_progress_advance a c progress with
      | OAD_Refuse a _ => (s, Err (a, head, OSE_Conformance OPC_FinalProgressMismatch))
      | OAD_Commit transaction =>
          match log_append s (OR_Advance c progress) head with
          | (s, Ok _) =>
              let '(a, fired) := advance_commit transaction in (s, Ok (a, next_head, fired))
          | (s, Err e) => (s, Err (advance_abort transaction, head, OSE_Log e))
          end
      end
  end.

(** The loop over the planned advances; an error carries the owner to put back. *)
Fixpoint run_advances (s : St) (owner : ObserverOwner) (c : ConversationId) (advances : list Z)
    : St * ObserverOwner * result unit ObserverServerError :=
  match advances with
  | [] => (s, owner, Ok tt)
  | progress :: advances =>
      match append_advance s (oo_aggregate owner) (oo_head owner) c progress with
      | (s, Err (a, head, e)) => (s, mkObserverOwner a head (oo_arm_targets owner), Err e)
      | (s, Ok (a, head, fired)) =>
          let '(targets, published) :=
            publish_fired_observer (oo_arm_targets owner) fired progress in
          match published with
          | Err e => (s, mkObserverOwner a head targets, Err e)
          | Ok _ => run_advances s (mkObserverOwner a head targets) c advances
          end
      end
  end.

Definition preflight_of (a : ObserverRecoveryAggregate) (c : ConversationId)
    : ObserverProgressPreflight :=
  match observer_progress a c with Some p => OPF_Tracked p | None => OPF_Untracked end.

(** [inspect_observer_progress]: reads only. *)
Definition inspect_observer_progress (sv : ObserverServer) (c : ConversationId)
    (witnesses : list ObserverProgressSourceWitness) (authoritative_maximum : DeliverySeq)
    : result (ObserverOwner * ObserverProgressReconcilePlan * Z) ObserverServerError :=
  let? inspected := active_owner sv in
  let? plan := map_err OSE_Conformance
    (plan_observer_progress_reconcile witnesses authoritative_maximum
       (preflight_of (oo_aggregate inspected) c)) in
  let? advance_rows := ok_or (if Z.of_nat (length (orp_advances plan)) <=? u64_max
    then Some (Z.of_nat (length (orp_advances plan))) else None) OSE_AllocationExhausted in
  let? planned_rows := ok_or (checked_add u64_max advance_rows (of_bool (orp_track_baseline plan)))
    OSE_AllocationExhausted in
  let? planned_final_head := ok_or (checked_add u64_max (oo_head inspected) planned_rows)
    OSE_AllocationExhausted in
  Ok (inspected, plan, planned_final_head).

Definition reconcile_observer_progress (sv : ObserverServer) (c : ConversationId)
    (witnesses : list ObserverProgressSourceWitness) (authoritative_maximum : DeliverySeq)
    : ObserverServer * result unit ObserverServerError :=
  match inspect_observer_progress sv c witnesses authoritative_maximum with
  | Err e => (sv, Err e)
  | Ok (owner, plan, planned_final_head) =>
      let '(s, tracked) :=
        if orp_track_baseline plan
        then append_track (os_store sv) (oo_aggregate owner) (oo_head owner) c
        else (os_store sv, Ok (oo_aggregate owner, oo_head owner)) in
      match tracked with
      | Err (a, head, e) =>
          (mkObserverServer s (Some (mkObserverOwner a head (oo_arm_targets owner))), Err e)
      | Ok (a, head) =>
          let '(s, owner, result) :=
            run_advances s (mkObserverOwner a head (oo_arm_targets owner)) c
              (orp_advances plan) in
          match result with
          | Err e => (mkObserverServer s (Some owner), Err e)
          | Ok _ =>
              let final_matches :=
                bool_decide (observer_progress (oo_aggregate owner) c
                             = Some (orp_validated_maximum plan))
                && (authoritative_maximum =? orp_validated_maximum plan)
                && (oo_head owner =? planned_final_head) in
              (mkObserverServer s (Some owner),
               if final_matches then Ok tt
               else Err (OSE_Conformance OPC_FinalProgressMismatch))
          end
      end
  end.

End Log.
