(* ===== verification/ObserverRuns.v ===== *)
(** * Runs of the server's observer owner

    Invariants of [ObserverLog] over every sequence of reconciliations, recovery batches,
    store failures and restarts: the row log always replays, and the live owner is the
    replay of the rows up to its head. *)
From stdpp Require Import gmap sorting.
From coqutil Require Import Byte.
From S2P Require Import Prelude ObserverLog Algebra Tags Wire Response Authority Binding Observer.
From S2P Require Import ObserverSource.

(** Inverts a hypothesis [c = Err e] through the checks of [c]. *)
Ltac err_inv H :=
  csplit_in H;
  repeat match goal with
    | Er : ?l = Err _ |- _ =>
        match l with context [match ?x with _ => _ end] => destruct x eqn:?; simplify_eq end
    end.

(** ** Sorting and deduplicating arm rows *)

#[export] Instance pair_le_trans : Transitive pair_le.
Proof. unfold pair_le, ConversationId, ObserverEpoch. intros [] [] []; simpl. lia. Qed.
#[export] Instance pair_le_total : Total pair_le.
Proof. unfold pair_le, ConversationId, ObserverEpoch. intros [] []; simpl. lia. Qed.

Lemma pair_le_antisym a b : pair_le a b -> pair_le b a -> a = b.
Proof.
  unfold pair_le, ConversationId, ObserverEpoch. destruct a, b; simpl. intros ??. f_equal; lia.
Qed.

Lemma elem_of_dedup x l : x ∈ dedup l <-> x ∈ l.
Proof.
  induction l as [|a [|b l] IH]; simpl; [done|done|].
  destruct (decide (a = b)) as [<-|Hne];
    [rewrite bool_decide_true by done|rewrite bool_decide_false by done].
  - simpl in IH. rewrite IH, !elem_of_cons. tauto.
  - rewrite !elem_of_cons in *. simpl in IH. rewrite IH. tauto.
Qed.

Lemma dedup_NoDup l : StronglySorted pair_le l -> NoDup (dedup l).
Proof.
  induction l as [|a [|b l] IH]; simpl; [constructor|intros _; apply NoDup_singleton|].
  intros [Hs Ha]%StronglySorted_inv. specialize (IH Hs).
  destruct (decide (a = b)) as [<-|Hne]; [by rewrite bool_decide_true by done|].
  rewrite bool_decide_false by done. apply NoDup_cons. split; [|done]. rewrite (elem_of_dedup a (b :: l)).
  apply StronglySorted_inv in Hs as [_ Hb]. apply Forall_cons in Ha as [Hab _].
  intros [->|Hin]%elem_of_cons; [done|]. apply Hne, pair_le_antisym; [done|].
  rewrite Forall_forall in Hb. by apply Hb.
Qed.

(** Distinct rows of a function have distinct keys. *)
Lemma NoDup_fst_fun (l : Rows) : NoDup l ->
  (forall c e e', (c, e) ∈ l -> (c, e') ∈ l -> e = e') -> NoDup l.*1.
Proof.
  induction l as [|[c e] l IH]; intros Hn Hf; csimpl; [constructor|].
  apply NoDup_cons in Hn as [Hin Hn]. apply NoDup_cons. split.
  - intros ([c' e'] & -> & Hin')%list_elem_of_fmap; simpl in *. apply Hin.
    rewrite (Hf c' e e'); [done|by left|by right].
  - apply IH; [done|]. intros ?????. eapply Hf; right; eauto.
Qed.

(** ** Replaying one row *)

Lemma fold_row_inv {E} a row n a' : observer_inv a ->
  fold_row (E := E) a row n = Ok a' -> observer_inv a'.
Proof.
  intros Ha. destruct row as [c p|c p|arms]; simpl.
  - destruct (decide_track a c p) eqn:Ed; [done|]. intros [= <-]. by eapply track_inv.
  - destruct (decide_progress_advance a c p) eqn:Ed; [done|]. intros [= <-]. by eapply advance_inv.
  - destruct (ObserverRecoveryAggregate_restore _ _) eqn:Er; simpl; [|done]. intros [= <-].
    by eapply restore_inv.
Qed.

(** Replaying an arm row installs the same arms as the commit that wrote it. *)
Lemma fold_row_arms {E} a arms n : observer_inv a ->
  (forall arm, arm ∈ arms ->
     ora_progress a !! arm_conversation_id arm = Some (arm_refused_epoch arm)) ->
  fold_row (E := E) a (OR_Arms (map arm_row arms)) n
  = Ok (mkObserverRecoveryAggregate (ora_progress a) (install arms (ora_armed a))).
Proof.
  intros Ha Harms. simpl.
  set (l := armed_rows a ++ map arm_row arms). set (d := dedup (merge_sort pair_le l)).
  assert (forall c e, (c, e) ∈ d <->
    ora_armed a !! c = Some e \/ mkObserverRecoveryArm c e ∈ arms) as Hd.
  { intros c e. unfold d. rewrite elem_of_dedup, merge_sort_Permutation. unfold l.
    rewrite elem_of_app. unfold armed_rows. rewrite elem_of_rows_iter.
    rewrite list_elem_of_fmap. zkeys. split; (intros [?|H]; [by left|right]).
    - destruct H as ([c' e'] & [= -> ->] & H). done.
    - by eexists (mkObserverRecoveryArm c e). }
  assert (forall c e : Z, (c, e) ∈ d -> ora_progress a !! c = Some e) as Hp.
  { intros c e [H|H]%Hd; [by apply Ha|]. by apply (Harms _ H). }
  assert (NoDup d.*1) as Hn.
  { apply NoDup_fst_fun.
    - apply dedup_NoDup, StronglySorted_merge_sort; apply _.
    - intros c e e' H1%Hp H2%Hp. congruence. }
  assert (ObserverRecoveryAggregate_restore (progress_rows a) d
    = Ok (mkObserverRecoveryAggregate (ora_progress a) (install arms (ora_armed a)))) as ->; [|done].
  apply restore_iff. unfold progress_rows. split_and!; [apply rows_iter_NoDup|done| |].
  - intros c e H%Hp. by apply elem_of_rows_iter.
  - rewrite rows_iter_to_map. f_equal. apply map_eq. intros c. apply option_eq. intros e.
    rewrite <- elem_of_list_to_map, Hd by done. rewrite install_lookup.
    2: { intros c0 e1 e2 H1 H2. apply Harms in H1, H2. simpl in *. zkeys. congruence. }
    zkeys. split.
    + intros [H|[_ H]]; [by right|by left].
    + intros [H|H]; [|by left]. destruct (decide (mkObserverRecoveryArm c e ∈ arms)); [by left|].
      right. split; [|done]. intros e' H'. specialize (Harms _ H'). simpl in Harms.
      apply Ha in H. rewrite Harms in H. by injection H as ->.
Qed.

Lemma fold_row_track {E} a c p t n : decide_track a c p = OPD_Commit t ->
  fold_row (E := E) a (OR_Track c p) n = Ok (track_commit t).
Proof. simpl. by intros ->. Qed.
Lemma fold_row_advance {E} a c p t n : decide_progress_advance a c p = OAD_Commit t ->
  fold_row (E := E) a (OR_Advance c p) n = Ok (advance_commit t).1.
Proof. simpl. by intros ->. Qed.

Section Runs.
Context {St P E : Type} `{!RowCodec P} `{!DurableStore St P E} {Target : Type}.
Context (publish : Target -> ObserverPublication -> bool).
Local Abbreviation Owner := (ObserverOwner (Target := Target)).
Local Abbreviation Server := (ObserverServer (St := St) (Target := Target)).
Local Abbreviation restored := (result RestoredObserver (OperationLogError E)).

(** ** The replay of a stream *)

Definition replay (ps : list P) : restored :=
  fold_entries (numbered 0 ps) ObserverRecoveryAggregate_new 0.

Lemma numbered_app n (l1 l2 : list P) :
  numbered n (l1 ++ l2) = numbered n l1 ++ numbered (n + Z.of_nat (length l1)) l2.
Proof.
  revert n. induction l1 as [|p l1 IH]; intros n; simpl.
  { f_equal. lia. }
  rewrite IH. do 3 f_equal. lia.
Qed.

Lemma numbered_length n (l : list P) : length (numbered n l) = length l.
Proof. revert n. induction l; intros n; simpl; auto. Qed.

Lemma fold_entries_next l a n (r : RestoredObserver) :
  fold_entries (E := E) (numbered n l) a n = Ok r ->
  ro_next_sequence r = n + Z.of_nat (length l).
Proof.
  revert a n. induction l as [|p l IH]; intros a n; simpl.
  { intros [= <-]; simpl. lia. }
  rewrite Z.eqb_refl; simpl. destruct (from_slice p); [|done].
  destruct (negb _); [done|]. destruct (fold_row _ _ _); [|done].
  destruct (checked_add u64_max n 1) as [m|] eqn:Em; [|done].
  apply checked_add_Some in Em as [-> _]. intros H%IH. lia.
Qed.

Lemma fold_entries_app (l1 l2 : list P) a n :
  fold_entries (E := E) (numbered n (l1 ++ l2)) a n
  = let? r := fold_entries (numbered n l1) a n in
    fold_entries (numbered (n + Z.of_nat (length l1)) l2) (ro_aggregate r)
      (n + Z.of_nat (length l1)).
Proof.
  revert a n. induction l1 as [|p l1 IH]; intros a n; simpl.
  { by rewrite Z.add_0_r. }
  rewrite Z.eqb_refl; simpl. destruct (from_slice p); [|done].
  destruct (negb _); [done|]. destruct (fold_row _ _ _) as [a'|]; [|done].
  destruct (checked_add u64_max n 1) as [m|] eqn:Em; [|done].
  apply checked_add_Some in Em as [-> _]. rewrite IH.
  by replace (n + 1 + Z.of_nat (length l1)) with (n + Z.of_nat (S (length l1))) by lia.
Qed.

Lemma fold_entries_inv l a n (r : RestoredObserver) : observer_inv a ->
  fold_entries (E := E) (numbered n l) a n = Ok r -> observer_inv (ro_aggregate r).
Proof.
  revert a n. induction l as [|p l IH]; intros a n Ha; simpl.
  { by intros [= <-]. }
  rewrite Z.eqb_refl; simpl. destruct (from_slice p) as [row|]; [|done].
  destruct (negb _); [done|]. destruct (fold_row a (sr_row row) n) as [a'|] eqn:Er; [|done].
  destruct (checked_add u64_max n 1) as [m|] eqn:Em; [|done].
  apply checked_add_Some in Em as [-> _]. apply IH. by eapply fold_row_inv.
Qed.

Lemma observer_inv_new : observer_inv ObserverRecoveryAggregate_new.
Proof. intros c e H. simpl in H. by rewrite lookup_empty in H. Qed.

Lemma replay_inv ps r : replay ps = Ok r -> observer_inv (ro_aggregate r).
Proof. apply fold_entries_inv, observer_inv_new. Qed.

Lemma replay_next ps r : replay ps = Ok r -> ro_next_sequence r = Z.of_nat (length ps).
Proof. apply fold_entries_next. Qed.

(** One more row: the replay so far, then the row. *)
Lemma replay_snoc ps a p row a' :
  replay ps = Ok (mkRestoredObserver a (Z.of_nat (length ps))) ->
  to_vec (mkStoredRow SCHEMA_VERSION row) = Some p ->
  fold_row (E := E) a row (Z.of_nat (length ps)) = Ok a' ->
  Z.of_nat (S (length ps)) <= u64_max ->
  replay (ps ++ [p]) = Ok (mkRestoredObserver a' (Z.of_nat (length (ps ++ [p])))).
Proof.
  unfold replay. intros Hr Hp Ha' Hle. rewrite fold_entries_app, Hr, !Z.add_0_l; simpl.
  rewrite Z.eqb_refl, (from_to_vec _ _ Hp); simpl. rewrite Ha'.
  rewrite (checked_add_exact u64_max (Z.of_nat (length ps)) 1) by lia.
  rewrite length_app; simpl. do 3 f_equal. lia.
Qed.

(** ** The paging loop reads the whole stream *)

Lemma restore_loop_reads s fuel a (n : nat) :
  (length (stream s) < fuel + n)%nat -> (n <= length (stream s))%nat ->
  match restore_loop fuel s a (Z.of_nat n) with
  | Ok r => fold_entries (E := E) (numbered (Z.of_nat n) (drop n (stream s))) a (Z.of_nat n) = Ok r
  | Err e => (exists d, e = OLE_Durability d)
             \/ fold_entries (numbered (Z.of_nat n) (drop n (stream s))) a (Z.of_nat n) = Err e
  end.
Proof.
  revert a n. induction fuel as [|fuel IH]; intros a n Hf Hn; [simpl in *; lia|]. simpl.
  destruct (store_read_from s (Z.of_nat n) READ_BATCH_SIZE) as [es|d] eqn:Er; simpl; [|eauto].
  apply read_law in Er; [|lia]. rewrite Nat2Z.id in Er.
  set (page := take READ_BATCH_SIZE (drop n (stream s))) in *.
  assert (drop n (stream s) = page ++ drop (n + READ_BATCH_SIZE) (stream s)) as Hd.
  { unfold page. rewrite <- drop_drop, take_drop. done. }
  destruct (bool_decide_reflect (es = [])) as [He|He].
  { subst es. assert (drop n (stream s) = []) as ->; [|done].
    apply nil_length_inv. unfold page in He. apply (f_equal length) in He.
    rewrite numbered_length in He. simpl in He. rewrite length_take in He.
    unfold READ_BATCH_SIZE in He. lia. }
  rewrite Hd, fold_entries_app, <- Er.
  destruct (fold_entries es a (Z.of_nat n)) as [r|e] eqn:Ef; [|by right].
  assert (length es = length page) as Hl by (by rewrite Er, numbered_length).
  destruct (Nat.ltb_spec (length es) READ_BATCH_SIZE) as [Hlt|Hge].
  - rewrite Hl in Hlt. unfold page in Hlt. rewrite length_take, length_drop in Hlt.
    rewrite (drop_ge (stream s)) by lia. simpl. rewrite Er in Ef.
    pose proof (fold_entries_next _ _ _ _ Ef) as Hnext. by destruct r; simpl in *; subst.
  - assert (length page = READ_BATCH_SIZE) as Hp.
    { unfold page in *. rewrite length_take in *. lia. }
    rewrite Er in Ef. pose proof (fold_entries_next _ _ _ _ Ef) as Hnext. rewrite Hnext, Hp.
    rewrite <- Nat2Z.inj_add. unfold page in Hp. rewrite length_take, length_drop in Hp.
    apply IH; unfold READ_BATCH_SIZE in *; lia.
Qed.

Lemma restore_reads s :
  match log_restore (E := E) s with
  | Ok r => replay (stream s) = Ok r
  | Err e => (exists d, e = OLE_Durability d) \/ replay (stream s) = Err e
  end.
Proof.
  pose proof (restore_loop_reads s (S (length (stream s))) ObserverRecoveryAggregate_new 0) as H.
  unfold log_restore, replay. simpl Z.of_nat in H. rewrite drop_0 in H. apply H; lia.
Qed.

(** ** The invariant *)

(** The stream replays completely. *)
Definition stream_ok (s : St) : Prop :=
  exists a, replay (stream s) = Ok (mkRestoredObserver a (Z.of_nat (length (stream s)))).

(** The owner is the replay of the rows before its head, and a live target is at the
    epoch of the installed arm. *)
Definition targets_ok (o : Owner) : Prop :=
  forall c t, oo_arm_targets o !! c = Some t ->
    ora_armed (oo_aggregate o) !! c = Some (oat_refused_epoch t).
Definition owner_ok (s : St) (o : Owner) : Prop :=
  (exists n, (n <= length (stream s))%nat /\ oo_head o = Z.of_nat n
    /\ replay (take n (stream s)) = Ok (mkRestoredObserver (oo_aggregate o) (Z.of_nat n)))
  /\ targets_ok o.
Definition server_ok (sv : Server) : Prop :=
  Z.of_nat (length (stream (os_store sv))) <= u64_max ->
  stream_ok (os_store sv) /\ forall o, os_owner sv = Some o -> owner_ok (os_store sv) o.

Lemma owner_inv s o : owner_ok s o -> observer_inv (oo_aggregate o).
Proof. intros [(n & _ & _ & Hr) _]. by apply replay_inv in Hr. Qed.

(** An append extends the stream or leaves it; only a flush failure extends it and
    reports an error. *)
Lemma log_append_stream s row n s' (r : result unit (OperationLogError E)) :
  log_append s row n = (s', r) ->
  (stream s' = stream s /\ exists e, r = Err e)
  \/ (n = Z.of_nat (length (stream s)) /\ exists p,
      to_vec (mkStoredRow SCHEMA_VERSION row) = Some p /\ stream s' = stream s ++ [p]).
Proof.
  unfold log_append. destruct (to_vec _) as [p|] eqn:Ep.
  2: { intros [= <- <-]. left. eauto. }
  pose proof (append_law s p n) as Ha. destruct (store_append s p n) as [s1 [assigned|e]].
  2: { intros [= <- <-]. left. eauto. }
  destruct Ha as (-> & -> & Hs). rewrite Z.eqb_refl; simpl.
  pose proof (flush_law s1) as Hf. destruct (store_flush s1) as [s2 f]; simpl in Hf.
  intros [= <- <-]. right. split; [done|]. exists p. split; [done|]. by rewrite Hf.
Qed.

Lemma log_append_grows s row n s' r :
  log_append (E := E) s row n = (s', r) -> exists l, stream s' = stream s ++ l.
Proof.
  intros [[-> _]|(_ & p & _ & ->)]%log_append_stream; [|eauto].
  exists []. by rewrite app_nil_r.
Qed.

(** An owner stays the replay of its prefix whatever is appended. *)
Lemma owner_ok_grow s s' o l : stream s' = stream s ++ l -> owner_ok s o -> owner_ok s' o.
Proof.
  intros Hs [(n & Hn & Hh & Hr) Ht]. split; [|done]. exists n. rewrite Hs, length_app.
  split_and!; [lia|done|]. by rewrite take_app_le by lia.
Qed.

(** What an append at the owner's head leaves: the stream still replays, the old owner is
    still a prefix, and after a success so is the owner with the row applied. *)
Lemma log_append_owner s o row a' s' r targets :
  stream_ok s -> owner_ok s o ->
  fold_row (E := E) (oo_aggregate o) row (oo_head o) = Ok a' ->
  log_append s row (oo_head o) = (s', r) ->
  Z.of_nat (length (stream s')) <= u64_max ->
  stream_ok s' /\ owner_ok s' o
  /\ (r = Ok tt -> targets_ok (mkObserverOwner a' (oo_head o + 1) targets) ->
      owner_ok s' (mkObserverOwner a' (oo_head o + 1) targets)).
Proof.
  intros [A HA] Ho Hrow Hl Hle. pose proof (log_append_grows _ _ _ _ _ Hl) as [l Hg].
  pose proof (owner_ok_grow _ _ _ _ Hg Ho) as Ho'.
  apply log_append_stream in Hl as [[Hs [e ->]]|(Hn & p & Hp & Hs)].
  { split_and!; [|done..]. exists A. by rewrite Hs. }
  destruct Ho as [(n & Hlen & Hh & Hr) _].
  assert (n = length (stream s)) as -> by lia. rewrite take_ge, HA in Hr by lia.
  injection Hr as ->. rewrite Hh in Hrow.
  assert (replay (stream s') = Ok (mkRestoredObserver a' (Z.of_nat (length (stream s'))))) as Hrep.
  { rewrite Hs. apply (replay_snoc _ (oo_aggregate o) p row a'); [done..|].
    rewrite Hs, length_app in Hle. simpl in Hle. lia. }
  split_and!; [by exists a'|done|]. intros _ Ht. split; [|done].
  exists (length (stream s')). simpl. rewrite take_ge by lia. split_and!; [lia| |done].
  rewrite Hs, length_app; simpl. lia.
Qed.

(** ** Every operation keeps it *)

(** A fired arm and its target always agree, and no target outlives its arm. *)
Lemma publish_fired_ok a h h' c p targets :
  targets_ok (mkObserverOwner a h targets) ->
  let fired := option_map (mkObserverRecoveryArm c) (ora_armed a !! c) in
  let '(targets', r) := publish_fired_observer (E := E) publish targets fired p in
  targets_ok (mkObserverOwner
    (mkObserverRecoveryAggregate (<[c := p]> (ora_progress a)) (delete c (ora_armed a))) h' targets')
  /\ (forall e1 e2, r <> Err (OSE_TargetEpoch e1 e2)).
Proof.
  intros Ht. unfold targets_ok in *; simpl in *. zkeys.
  destruct (ora_armed a !! c) as [e|] eqn:Ea; simpl; zkeys.
  - assert (forall c0 t, delete c targets !! c0 = Some t ->
      delete c (ora_armed a) !! c0 = Some (oat_refused_epoch t)) as Hd.
    { intros c0 t [Hne H%Ht]%lookup_delete_Some. by rewrite lookup_delete_ne. }
    destruct (targets !! c) as [t|] eqn:Et; [|by split].
    specialize (Ht c t Et). zkeys. rewrite Ea in Ht. injection Ht as ->.
    rewrite Z.eqb_refl. split; [done|]. by destruct (publish _ _).
  - split; [|done]. intros c0 t H. specialize (Ht c0 t H). rewrite lookup_delete_ne; [done|].
    intros <-. zkeys. by rewrite Ea in Ht.
Qed.

Lemma append_track_ok s o c s' r :
  stream_ok s -> owner_ok s o ->
  append_track (E := E) s (oo_aggregate o) (oo_head o) c = (s', r) ->
  Z.of_nat (length (stream s')) <= u64_max ->
  stream_ok s' /\ match r with
    | Ok (a, h) | Err (a, h, _) => owner_ok s' (mkObserverOwner a h (oo_arm_targets o))
    end.
Proof.
  intros Hs Ho. unfold append_track.
  assert (owner_ok s (mkObserverOwner (oo_aggregate o) (oo_head o) (oo_arm_targets o))) as Ho'
    by (by destruct o).
  destruct (checked_add u64_max (oo_head o) 1) as [h|] eqn:Eh; [|by intros [= <- <-]].
  apply checked_add_Some in Eh as [-> _].
  destruct (decide_track (oo_aggregate o) c 0) as [a e|t] eqn:Ed.
  { intros [= <- <-] _. split; [done|]. unfold decide_track in Ed.
    destruct (ora_progress _ !! c); [|done]. by injection Ed as <- _. }
  destruct (log_append s (OR_Track c 0) (oo_head o)) as [s1 r1] eqn:El.
  pose proof (fold_row_track (E := E) _ _ _ _ (oo_head o) Ed) as Hrow.
  pose proof (track_abort_eq _ _ _ _ Ed) as Hab.
  assert (ora_armed (track_commit t) = ora_armed (oo_aggregate o)) as Harm.
  { rewrite <- Hab. done. }
  destruct r1 as [[]|e]; intros [= <- <-] Hle;
    destruct (log_append_owner s o _ _ _ _ (oo_arm_targets o) Hs Ho Hrow El Hle) as (? & H1 & H2);
    (split; [done|]).
  - apply H2; [done|]. destruct Ho as [_ Ht]. intros c' t' Hx. change (ora_armed (track_commit t) !! c' = Some (oat_refused_epoch t')). rewrite Harm. by apply Ht.
  - rewrite Hab. by destruct o.
Qed.

Lemma append_advance_ok s o c p s' r :
  stream_ok s -> owner_ok s o ->
  append_advance (E := E) s (oo_aggregate o) (oo_head o) c p = (s', r) ->
  Z.of_nat (length (stream s')) <= u64_max ->
  stream_ok s' /\ match r with
    | Ok (a, h, fired) =>
        let '(targets, published) :=
          publish_fired_observer (E := E) publish (oo_arm_targets o) fired p in
        owner_ok s' (mkObserverOwner a h targets)
        /\ forall e1 e2, published <> Err (OSE_TargetEpoch e1 e2)
    | Err (a, h, e) => owner_ok s' (mkObserverOwner a h (oo_arm_targets o))
        /\ forall e1 e2, e <> OSE_TargetEpoch e1 e2
    end.
Proof.
  intros Hs Ho. unfold append_advance.
  assert (owner_ok s (mkObserverOwner (oo_aggregate o) (oo_head o) (oo_arm_targets o))) as Ho'
    by (by destruct o).
  destruct (checked_add u64_max (oo_head o) 1) as [h|] eqn:Eh; [|by intros [= <- <-]].
  apply checked_add_Some in Eh as [-> _].
  destruct (decide_progress_advance (oo_aggregate o) c p) as [a e|t] eqn:Ed.
  { intros [= <- <-] _. split; [done|]. unfold decide_progress_advance in Ed. by csplit_in Ed. }
  destruct (log_append s (OR_Advance c p) (oo_head o)) as [s1 r1] eqn:El.
  pose proof (fold_row_advance (E := E) _ _ _ _ (oo_head o) Ed) as Hrow.
  pose proof (advance_abort_eq _ _ _ _ Ed) as Hab.
  apply advance_exact in Ed as (q & Hq & Hlt & ->). rewrite advance_commit_eq in Hrow.
  destruct r1 as [[]|e].
  - pose proof (advance_commit_eq (oo_aggregate o) c p) as Hc.
    destruct (advance_commit _) as [a fired] eqn:Ec. simpl in Hc. subst a.
    assert (fired = option_map (mkObserverRecoveryArm c) (ora_armed (oo_aggregate o) !! c)) as ->.
    { by injection Ec. }
    intros [= <- <-] Hle.
    pose proof (publish_fired_ok (oo_aggregate o) (oo_head o) (oo_head o + 1) c p
      (oo_arm_targets o) (proj2 Ho')) as Hpub. cbv zeta in Hpub.
    destruct (publish_fired_observer _ _ _ _) as [targets published].
    destruct Hpub as [Ht Hpub].
    destruct (log_append_owner s o _ _ _ _ targets Hs Ho Hrow El Hle) as (? & H1 & H2). auto.
  - intros [= <- <-] Hle.
    destruct (log_append_owner s o _ _ _ _ (oo_arm_targets o) Hs Ho Hrow El Hle) as (? & H1 & H2).
    split_and!; [done|by destruct o|done].
Qed.

Lemma append_advance_grows s a h c p s' r :
  append_advance (E := E) s a h c p = (s', r) -> exists l, stream s' = stream s ++ l.
Proof.
  unfold append_advance. intros H.
  destruct (checked_add _ _ _); [|injection H as <- _; exists []; by rewrite app_nil_r].
  destruct (decide_progress_advance a c p); [injection H as <- _; exists []; by rewrite app_nil_r|].
  destruct (log_append s _ h) as [s1 r1] eqn:El. apply log_append_grows in El.
  by destruct r1; [destruct (advance_commit _)|]; injection H as <- _.
Qed.
Lemma append_track_grows s a h c s' r :
  append_track (E := E) s a h c = (s', r) -> exists l, stream s' = stream s ++ l.
Proof.
  unfold append_track. intros H.
  destruct (checked_add _ _ _); [|injection H as <- _; exists []; by rewrite app_nil_r].
  destruct (decide_track a c 0); [injection H as <- _; exists []; by rewrite app_nil_r|].
  destruct (log_append s _ h) as [s1 r1] eqn:El. apply log_append_grows in El.
  by destruct r1; injection H as <- _.
Qed.

Lemma run_advances_grows s o c advances s' o' r :
  run_advances (E := E) publish s o c advances = (s', o', r) -> exists l, stream s' = stream s ++ l.
Proof.
  revert s o. induction advances as [|p advances IH]; intros s o; simpl.
  { intros [= <- _ _]. exists []. by rewrite app_nil_r. }
  destruct (append_advance s _ _ c p) as [s1 r1] eqn:Ea. apply append_advance_grows in Ea as [l Hl].
  destruct r1 as [[[a h] fired]|[[a h] e]].
  - destruct (publish_fired_observer _ _ _ _) as [targets [[]|e]].
    + intros [l' Hl']%IH. exists (l ++ l'). by rewrite Hl', Hl, app_assoc.
    + intros [= <- _ _]. by exists l.
  - intros [= <- _ _]. by exists l.
Qed.

Lemma run_advances_ok s o c advances s' o' r :
  stream_ok s -> owner_ok s o ->
  run_advances (E := E) publish s o c advances = (s', o', r) ->
  Z.of_nat (length (stream s')) <= u64_max ->
  stream_ok s' /\ owner_ok s' o' /\ forall e1 e2, r <> Err (OSE_TargetEpoch e1 e2).
Proof.
  revert s o. induction advances as [|p advances IH]; intros s o Hs Ho; simpl.
  { by intros [= <- <- <-]. }
  destruct (append_advance s _ _ c p) as [s1 r1] eqn:Ea. intros H Hle.
  assert (Z.of_nat (length (stream s1)) <= u64_max) as Hle1.
  { destruct r1 as [[[a h] fired]|[[a h] e]].
    - destruct (publish_fired_observer _ _ _ _) as [targets [[]|e]].
      + apply run_advances_grows in H as [l Hl]. rewrite Hl, length_app in Hle. lia.
      + by injection H as <- _ _.
    - by injection H as <- _ _. }
  destruct (append_advance_ok s o c p s1 r1 Hs Ho Ea Hle1) as [Hs1 Hr].
  destruct r1 as [[[a h] fired]|[[a h] e]].
  - destruct (publish_fired_observer _ _ _ _) as [targets [[]|e]]; destruct Hr as [Ho1 Hne].
    + by eapply IH.
    + injection H as <- <- <-. done.
  - injection H as <- <- <-. destruct Hr as [Ho1 Hne]. split_and!; [done..|].
    intros e1 e2 [= He]. by eapply Hne.
Qed.

Lemma active_owner_ok sv o : server_ok sv ->
  Z.of_nat (length (stream (os_store sv))) <= u64_max ->
  active_owner (E := E) sv = Ok o -> stream_ok (os_store sv) /\ owner_ok (os_store sv) o.
Proof.
  intros Hsv Hle. destruct (Hsv Hle) as [Hs Ho]. unfold active_owner.
  destruct (os_owner sv) as [o'|]; [intros [= <-]; auto|].
  pose proof (restore_reads (os_store sv)) as Hr.
  destruct (log_restore (os_store sv)) as [r|]; simpl; [|done]. intros [= <-].
  split; [done|]. split; [|intros c t; simpl; by rewrite lookup_empty].
  exists (length (stream (os_store sv))). rewrite take_ge by lia.
  pose proof (replay_next _ _ Hr) as Hn. destruct r as [a n]; simpl in *. subst n. done.
Qed.

Lemma reconcile_ok sv c ws m sv' r : server_ok sv ->
  reconcile_observer_progress (E := E) publish sv c ws m = (sv', r) ->
  server_ok sv' /\ (exists l, stream (os_store sv') = stream (os_store sv) ++ l)
  /\ (Z.of_nat (length (stream (os_store sv'))) <= u64_max ->
      forall e1 e2, r <> Err (OSE_TargetEpoch e1 e2)).
Proof.
  intros Hsv. unfold reconcile_observer_progress.
  destruct (inspect_observer_progress sv c ws m) as [[[o plan] final_head]|e] eqn:Ei.
  2: { intros [= <- <-]. split_and!; [done|exists []; by rewrite app_nil_r|].
       intros _ e1 e2 [= ->]. unfold inspect_observer_progress in Ei.
       destruct (active_owner sv) as [o|e] eqn:Ea.
       - unfold map_err, ok_or in Ei. by err_inv Ei.
       - injection Ei as ->. unfold active_owner, map_err in Ea. by err_inv Ea. }
  assert (active_owner sv = Ok o) as Ea.
  { unfold inspect_observer_progress in Ei. destruct (active_owner sv) as [o'|]; [|done].
    by csplit_in Ei. }
  destruct (if orp_track_baseline plan then _ else _) as [s1 tr] eqn:Et.
  assert (exists l, stream s1 = stream (os_store sv) ++ l) as [l Hl].
  { destruct (orp_track_baseline plan); [by eapply append_track_grows|].
    injection Et as <- _. exists []. by rewrite app_nil_r. }
  assert (Z.of_nat (length (stream s1)) <= u64_max ->
    stream_ok s1 /\ match tr with
    | Ok (a, h) | Err (a, h, _) => owner_ok s1 (mkObserverOwner a h (oo_arm_targets o))
    end) as Ht.
  { intros Hle. assert (Z.of_nat (length (stream (os_store sv))) <= u64_max) as Hle0.
    { rewrite Hl, length_app in Hle. lia. }
    destruct (active_owner_ok sv o Hsv Hle0 Ea) as [Hs Ho].
    destruct (orp_track_baseline plan); [by eapply append_track_ok|].
    injection Et as <- <-. split; [done|]. by destruct o. }
  destruct tr as [[a h]|[[a h] e]].
  2: { intros [= <- <-]; simpl. split_and!; [|by exists l|].
       - intros Hle. destruct (Ht Hle). by split; [|intros ? [= <-]].
       - intros _ e1 e2 [= ->]. destruct (orp_track_baseline plan); [|done].
         unfold append_track in Et. by csplit_in Et. }
  destruct (run_advances publish s1 _ c (orp_advances plan)) as [[s2 o2] r2] eqn:Er.
  destruct (run_advances_grows _ _ _ _ _ _ _ Er) as [l2 Hl2].
  assert (Z.of_nat (length (stream s2)) <= u64_max ->
    stream_ok s2 /\ owner_ok s2 o2 /\ forall e1 e2, r2 <> Err (OSE_TargetEpoch e1 e2)) as H2.
  { intros Hle. destruct Ht as [Hs1 Ho1]; [rewrite Hl2, length_app in Hle; lia|].
    by eapply run_advances_ok. }
  assert (server_ok (mkObserverServer s2 (Some o2))) as Hok.
  { intros Hle. destruct (H2 Hle) as (? & ? & _). by split; [|intros ? [= <-]]. }
  assert (exists l', stream s2 = stream (os_store sv) ++ l') as Hg.
  { exists (l ++ l2). by rewrite Hl2, Hl, app_assoc. }
  destruct r2 as [[]|e2]; intros [= <- <-]; (split_and!; [done..|]).
  - intros _ e1 e2. by destruct (_ && _).
  - intros Hle. by destruct (H2 Hle) as (_ & _ & ?).
Qed.

(** Targets follow the arms they were installed with. *)
Lemma install_targets_ok arms incarnation target tracked
    (targets : gmap Z (ObserverArmTarget (Target := Target))) (armed : gmap Z Z) :
  (forall c t, targets !! c = Some t -> armed !! c = Some (oat_refused_epoch t)) ->
  forall c t, (install_targets arms incarnation target tracked targets).2 !! c = Some t ->
    install arms armed !! c = Some (oat_refused_epoch t).
Proof.
  revert tracked targets armed. induction arms as [|arm arms IH]; intros tracked targets armed Ht;
    simpl; [done|].
  apply IH. zkeys. destruct target as [target|]; intros c t.
  - intros [[<- <-]|[Hne H]]%lookup_insert_Some; [by rewrite lookup_insert_eq|].
    rewrite lookup_insert_ne by done. by apply Ht.
  - intros [Hne H]%lookup_delete_Some. rewrite lookup_insert_ne by done. by apply Ht.
Qed.

Lemma recover_ok sv incarnation conversations request target max limit sv' conversations' r :
  u64 limit -> server_ok sv ->
  handle_observer_recovery (E := E) sv incarnation conversations request target max limit
    = (sv', conversations', r) ->
  server_ok sv' /\ (exists l, stream (os_store sv') = stream (os_store sv) ++ l).
Proof.
  intros Hl Hsv. unfold handle_observer_recovery.
  assert (exists l, stream (os_store sv) = stream (os_store sv) ++ l) as Hself.
  { exists []. by rewrite app_nil_r. }
  destruct (active_owner sv) as [o|e] eqn:Ea; [|by intros [= <- _ _]].
  destruct (decide_recovery _ _ _ _ _) as [a response|t] eqn:Ed.
  { intros [= <- _ _]; simpl. split; [|done]. intros Hle.
    destruct (active_owner_ok sv o Hsv Hle Ea) as [Hs Ho]. split; [done|]. intros ? [= <-].
    unfold decide_recovery in Ed. csplit_in Ed. by destruct o. }
  apply decide_recovery_Commit in Ed as (_ & v & Hv & ->); [|done]. simpl.
  destruct (log_append (os_store sv) _ (oo_head o)) as [s1 r1] eqn:El.
  pose proof (log_append_grows _ _ _ _ _ El) as [l Hg].
  assert (Z.of_nat (length (stream s1)) <= u64_max -> forall targets,
    (forall c t, targets !! c = Some t ->
       install (omap refusal_arm v) (ora_armed (oo_aggregate o)) !! c
       = Some (oat_refused_epoch (Target := Target) t)) ->
    stream_ok s1 /\ (r1 = Ok tt -> owner_ok s1 (mkObserverOwner
      (mkObserverRecoveryAggregate (ora_progress (oo_aggregate o))
         (install (omap refusal_arm v) (ora_armed (oo_aggregate o)))) (oo_head o + 1) targets)))
    as Hok.
  { intros Hle targets Ht. assert (Z.of_nat (length (stream (os_store sv))) <= u64_max) as Hle0.
    { rewrite Hg, length_app in Hle. lia. }
    destruct (active_owner_ok sv o Hsv Hle0 Ea) as [Hs Ho].
    assert (fold_row (E := E) (oo_aggregate o) (OR_Arms (map arm_row (omap refusal_arm v)))
      (oo_head o) = Ok (mkObserverRecoveryAggregate (ora_progress (oo_aggregate o))
        (install (omap refusal_arm v) (ora_armed (oo_aggregate o))))) as Hrow.
    { apply fold_row_arms; [by eapply owner_inv|]. intros arm Harm.
      by apply (batch_arms _ _ _ _ Hv) in Harm as [_ ?]. }
    destruct (log_append_owner _ _ _ _ _ _ targets Hs Ho Hrow El Hle) as (? & _ & H).
    split; [done|]. intros ->. by apply H. }
  assert (forall c t, oo_arm_targets o !! c = Some t -> Z.of_nat (length (stream s1)) <= u64_max ->
    ora_armed (oo_aggregate o) !! c = Some (oat_refused_epoch t)) as Hold.
  { intros c t Hc Hle. assert (Z.of_nat (length (stream (os_store sv))) <= u64_max) as Hle0.
    { rewrite Hg, length_app in Hle. lia. }
    destruct (active_owner_ok sv o Hsv Hle0 Ea) as [_ [_ Ht]]. by apply Ht. }
  assert (forall sv'', sv'' = mkObserverServer (Target := Target) s1 None -> server_ok sv'') as Hnone.
  { intros ? -> Hle. simpl in *. split; [|done].
    apply (Hok Hle ∅). intros c t H. by rewrite lookup_empty in H. }
  destruct r1 as [[]|e].
  2: { intros [= <- _ _]. split; [by apply Hnone|by exists l]. }
  destruct (checked_add u64_max (oo_head o) 1) as [h|] eqn:Eh.
  2: { intros [= <- _ _]. split; [by apply Hnone|by exists l]. }
  apply checked_add_Some in Eh as [-> _].
  destruct (install_targets _ _ _ _ _) as [tracked targets] eqn:Ei.
  intros [= <- _ _]. split; [|by exists l]. intros Hle; simpl in *.
  destruct (Hok Hle targets) as [Hs Ho].
  { intros c t Hc. pose proof (install_targets_ok (omap refusal_arm v) incarnation target
      conversations (oo_arm_targets o) (ora_armed (oo_aggregate o))) as Hi.
    rewrite Ei in Hi. apply Hi; [|done]. intros c0 t0 Hc0. by apply Hold. }
  split; [done|]. intros ? [= <-]. by apply Ho.
Qed.

(** ** Runs *)

(** A reconciliation, a recovery batch, or a restart that loses the owner. *)
Inductive server_step : Server -> Server -> Prop :=
| ss_reconcile sv c ws m sv' r :
    reconcile_observer_progress (E := E) publish sv c ws m = (sv', r) -> server_step sv sv'
| ss_recover sv incarnation conversations request target max limit sv' conversations' r :
    u64 limit ->
    handle_observer_recovery (E := E) sv incarnation conversations request target max limit
      = (sv', conversations', r) -> server_step sv sv'
| ss_restart sv : server_step sv (mkObserverServer (os_store sv) None).

Lemma server_step_ok sv sv' : server_ok sv -> server_step sv sv' -> server_ok sv'.
Proof.
  intros Hsv Hs. destruct Hs as [sv c ws m sv' r H|? ? ? ? ? ? ? ? ? ? Hl H|sv].
  - by apply (reconcile_ok _ _ _ _ _ _ Hsv) in H as [? _].
  - by apply (recover_ok _ _ _ _ _ _ _ _ _ _ Hl Hsv) in H as [? _].
  - intros Hle. destruct (Hsv Hle) as [? _]. by split.
Qed.

Lemma server_runs_ok s0 sv : stream s0 = [] ->
  rtc server_step (mkObserverServer s0 None) sv -> server_ok sv.
Proof.
  intros H0 Hr. assert (server_ok (mkObserverServer s0 None)) as Hi.
  { intros _. split; [|done]; simpl. exists ObserverRecoveryAggregate_new. by rewrite H0. }
  clear H0. induction Hr as [|sv1 sv2 sv3 H1 _ IH]; [done|]. by apply IH, (server_step_ok sv1).
Qed.

(** ** What a reconciliation does *)








(** C28: The durable log is the observer state.  Over every sequence of reconciliations,
    recovery batches, store failures at any call and restarts, the log replays without a
    refused row to an aggregate whose arms are at the progress of their conversations; a
    restore returns exactly that aggregate and the next sequence, or a read error of the
    store; and the live owner is what the rows before its head replay to, so that an
    owner at the end of the log is the state a restart would restore. *)
Theorem observer_log_replays s0 sv : stream s0 = [] ->
  rtc server_step (mkObserverServer s0 None) sv ->
  Z.of_nat (length (stream (os_store sv))) <= u64_max ->
  exists a, observer_inv a
  /\ match log_restore (E := E) (os_store sv) with
     | Ok r => r = mkRestoredObserver a (Z.of_nat (length (stream (os_store sv))))
     | Err e => exists d, e = OLE_Durability d
     end
  /\ forall o, os_owner sv = Some o ->
       exists n, (n <= length (stream (os_store sv)))%nat /\ oo_head o = Z.of_nat n
       /\ replay (take n (stream (os_store sv)))
          = Ok (mkRestoredObserver (oo_aggregate o) (Z.of_nat n))
       /\ (n = length (stream (os_store sv)) -> oo_aggregate o = a).
Proof.
  intros H0 Hr Hle. destruct (server_runs_ok s0 sv H0 Hr Hle) as [[a Ha] Ho].
  exists a. split_and!.
  - by apply replay_inv in Ha.
  - pose proof (restore_reads (os_store sv)) as Hs. rewrite Ha in Hs.
    destruct (log_restore (os_store sv)) as [r|e].
    + by injection Hs as <-.
    + by destruct Hs.
  - intros o Eo. destruct (Ho o Eo) as [(n & Hn & Hh & Hrep) _]. exists n. split_and!; [done..|].
    intros ->. rewrite take_ge, Ha in Hrep by lia. by injection Hrep.
Qed.

(** An arm and the connection it wakes never disagree.  In every reachable state a
    live target is held only for an installed arm, at the epoch of that arm, so the
    error for a target at another epoch cannot occur in a reconciliation. *)
Theorem targets_match_arms s0 sv c ws m : stream s0 = [] ->
  rtc server_step (mkObserverServer s0 None) sv ->
  Z.of_nat (length (stream (os_store (reconcile_observer_progress (E := E) publish sv c ws m).1)))
    <= u64_max ->
  (forall o c' t, os_owner sv = Some o -> oo_arm_targets o !! c' = Some t ->
     ora_armed (oo_aggregate o) !! c' = Some (oat_refused_epoch t))
  /\ forall e1 e2, (reconcile_observer_progress (E := E) publish sv c ws m).2
       <> Err (OSE_TargetEpoch e1 e2).
Proof.
  intros H0 Hr Hle. pose proof (server_runs_ok s0 sv H0 Hr) as Hsv.
  destruct (reconcile_observer_progress publish sv c ws m) as [sv' r] eqn:E0; simpl in *.
  destruct (reconcile_ok sv c ws m sv' r Hsv E0) as (_ & [l Hl] & Hne).
  split; [|by apply Hne]. intros o c' t Eo Et.
  destruct Hsv as [_ Ho]; [rewrite Hl, length_app in Hle; lia|].
  destruct (Ho o Eo) as [_ Ht]. by apply Ht.
Qed.

(** ** An owner that fell behind its log *)

Lemma log_append_stale s row n s' r : n < Z.of_nat (length (stream s)) ->
  log_append (E := E) s row n = (s', r) -> stream s' = stream s /\ exists e, r = Err e.
Proof. intros Hn [H|[-> _]]%log_append_stream; [done|lia]. Qed.

(** C39: After a flush that failed, reconciliation cannot recover.  The failed flush leaves
    its row in the stream and the owner put back at the old head; from then on every
    reconciliation keeps that owner, writes no row, and succeeds only when there is
    nothing to record. *)
Theorem stale_owner_stuck sv o c ws m :
  os_owner sv = Some o -> oo_head o < Z.of_nat (length (stream (os_store sv))) ->
  let '(sv', r) := reconcile_observer_progress (E := E) publish sv c ws m in
  stream (os_store sv') = stream (os_store sv) /\ os_owner sv' = Some o
  /\ (r = Ok tt -> observer_progress (oo_aggregate o) c = Some m).
Proof.
  intros Eo Hlt. unfold reconcile_observer_progress.
  assert (active_owner (E := E) sv = Ok o) as Ha by (unfold active_owner; by rewrite Eo).
  destruct (inspect_observer_progress sv c ws m) as [[[o' plan] final_head]|e] eqn:Ei; [|done].
  assert (o' = o) as ->.
  { unfold inspect_observer_progress in Ei. rewrite Ha in Ei. by csplit_in Ei. }
  assert (mkObserverOwner (oo_aggregate o) (oo_head o) (oo_arm_targets o) = o) as Heta
    by (by destruct o).
  destruct (if orp_track_baseline plan then _ else _) as [s1 tr] eqn:Et.
  assert (stream s1 = stream (os_store sv) /\ match tr with
    | Ok (a, h) => a = oo_aggregate o /\ h = oo_head o
    | Err (a, h, _) => a = oo_aggregate o /\ h = oo_head o end) as [Hs1 Htr].
  { destruct (orp_track_baseline plan); [|by injection Et as <- <-]. unfold append_track in Et.
    destruct (checked_add _ _ _); [|by injection Et as <- <-].
    destruct (decide_track (oo_aggregate o) c 0) as [a e|t] eqn:Ed.
    { injection Et as <- <-. unfold decide_track in Ed. by csplit_in Ed. }
    destruct (log_append _ _ _) as [s2 r2] eqn:El.
    apply log_append_stale in El as [Hs [e ->]]; [|done]. injection Et as <- <-.
    by rewrite (track_abort_eq _ _ _ _ Ed). }
  destruct tr as [[a h]|[[a h] e]]; destruct Htr as [-> ->]; rewrite Heta; [|done].
  destruct (orp_advances plan) as [|p advances]; simpl.
  { split_and!; [done..|]. destruct (_ && _) eqn:Ef; [|done]. intros _.
    apply andb_prop in Ef as [Ef _]. apply andb_prop in Ef as [Ef Em]. dreflect. by rewrite Em. }
  unfold append_advance. destruct (checked_add _ _ _); [|by rewrite Heta].
  destruct (decide_progress_advance (oo_aggregate o) c p) as [a e|t] eqn:Ed.
  { unfold decide_progress_advance in Ed. by csplit_in Ed; rewrite Heta. }
  destruct (log_append s1 _ _) as [s2 r2] eqn:El.
  apply log_append_stale in El as [Hs [e ->]]; [|by rewrite Hs1].
  rewrite (advance_abort_eq _ _ _ _ Ed), Heta. simpl. split_and!; [congruence|done..].
Qed.
End Runs.

(** ** A store in memory, with a script of failures *)

Module Memory.
Record Store := mkStore { rows : list StoredRow; script : list bool }.

(** The next scripted verdict; calls succeed once the script is used up. *)
Definition verdict (s : Store) : bool := match script s with [] => true | b :: _ => b end.
Definition append (s : Store) (row : StoredRow) (expected : Z) : Store * result Z unit :=
  if verdict s && (expected =? Z.of_nat (length (rows s)))
  then (mkStore (rows s ++ [row]) (tail (script s)), Ok expected)
  else (mkStore (rows s) (tail (script s)), Err tt).
Definition flush (s : Store) : Store * result unit unit :=
  (mkStore (rows s) (tail (script s)), if verdict s then Ok tt else Err tt).
Definition read_from (s : Store) (offset : Z) (limit : nat) : result (list (Z * StoredRow)) unit :=
  Ok (numbered offset (take limit (drop (Z.to_nat offset) (rows s)))).

#[global] Instance codec : RowCodec StoredRow.
Proof. refine {| to_vec := Some; from_slice := Some |}. intros r p H. congruence. Defined.

#[global] Instance store : DurableStore Store StoredRow unit.
Proof.
  refine {| store_append := append; store_read_from := read_from; store_flush := flush;
            stream := rows |}.
  - intros s p n. unfold append. destruct (verdict s && _) eqn:E; simpl; [|done].
    apply andb_prop in E as [_ E]. by apply Z.eqb_eq in E.
  - done.
  - intros s offset limit es _ [= <-]. done.
Defined.

Definition server (script : list bool) : ObserverServer (St := Store) (Target := unit) :=
  mkObserverServer (mkStore [] script) None.
Definition sources : list ObserverProgressSourceWitness :=
  ows_witnesses (fold_left source_apply example_ops ObserverProgressWitnessState_new).
Definition reconciled (sv : ObserverServer (St := Store) (Target := unit)) :=
  reconcile_observer_progress (E := unit) (fun _ _ => true) sv 7 sources 6.
Definition batch : ObserverRecoveryHandshake :=
  mkObserverRecoveryHandshake [mkObserverRefusal 7 6].
Definition recovered_server (sv : ObserverServer (St := Store) (Target := unit)) :=
  handle_observer_recovery (E := unit) sv (mkConnectionIncarnation 1 1) ∅ batch (Some tt) 4 4.

(** A reconciliation and then a batch, after which conversation 7 is armed. *)
Definition armed_server := (recovered_server (reconciled (server [])).1).1.1.
Lemma armed_run : rtc (server_step (E := unit) (fun _ _ => true)) (server []) armed_server.
Proof.
  eapply rtc_l; [|apply rtc_once].
  - eapply (ss_reconcile _ _ 7 sources 6). unfold server. rewrite surjective_pairing at 1. done.
  - unfold armed_server. eapply (ss_recover _ _ (mkConnectionIncarnation 1 1) ∅ batch (Some tt) 4 4);
      [by vm_compute|]. unfold recovered_server, reconciled. rewrite surjective_pairing at 1.
    rewrite (surjective_pairing (handle_observer_recovery _ _ _ _ _ _ _).1) at 1. done.
Qed.
End Memory.

Lemma observer_log_replays_witness :
  exists a, log_restore (E := unit) (os_store Memory.armed_server)
            = Ok (mkRestoredObserver a 4) /\ ora_armed a !! 7 = Some 6.
Proof.
  destruct (observer_log_replays (E := unit) (fun _ _ => true) (Memory.mkStore [] [])
    Memory.armed_server) as (a & _ & Hr & _); [reflexivity|exact Memory.armed_run|by vm_compute|].
  exists a. revert Hr. destruct (log_restore (os_store Memory.armed_server)) as [r|e] eqn:El.
  - intros ->. split; [reflexivity|]. vm_compute in El. by injection El as <-.
  - by vm_compute in El.
Defined.

Lemma targets_match_arms_witness :
  option_map (fun o => ora_armed (oo_aggregate o) !! 7) (os_owner Memory.armed_server)
  = Some (Some 6).
Proof.
  destruct (targets_match_arms (E := unit) (fun _ _ => true) (Memory.mkStore [] [])
    Memory.armed_server 7 Memory.sources 6) as [H _];
    [reflexivity|exact Memory.armed_run|by vm_compute|].
  destruct (os_owner Memory.armed_server) as [o|] eqn:Ho; [|by vm_compute in Ho].
  assert (exists t, oo_arm_targets o !! 7 = Some t /\ oat_refused_epoch t = 6) as (t & Ht & He).
  { vm_compute in Ho. injection Ho as <-. eexists. by split. }
  simpl. f_equal. etransitivity; [exact (H o 7 t eq_refl Ht)|by rewrite He].
Defined.

(** A store that never fails is the list of its rows. *)
Module Lossless.
Definition append (s : list StoredRow) (row : StoredRow) (expected : Z)
    : list StoredRow * result Z unit :=
  if expected =? Z.of_nat (length s) then (s ++ [row], Ok expected) else (s, Err tt).
#[global] Instance store : DurableStore (list StoredRow) StoredRow unit.
Proof.
  refine {| store_append := append; store_flush s := (s, Ok tt); stream s := s;
            store_read_from s offset limit :=
              Ok (numbered offset (take limit (drop (Z.to_nat offset) s))) |}.
  - intros s p n. unfold append. destruct (Z.eqb_spec n (Z.of_nat (length s))); by simpl.
  - done.
  - intros s offset limit es _ [= <-]. done.
Defined.
End Lossless.


(** The flush of the first row fails; the owner is behind the stream from then on. *)
Lemma stale_owner_stuck_witness :
  let sv := (Memory.reconciled (Memory.server [true; false])).1 in
  stream (os_store sv) = [mkStoredRow 1 (OR_Track 7 0)]
  /\ option_map oo_head (os_owner sv) = Some 0
  /\ stream (os_store (Memory.reconciled sv).1) = [mkStoredRow 1 (OR_Track 7 0)]
  /\ (Memory.reconciled sv).2 <> Ok tt.
Proof.
  intros sv. split; [by vm_compute|]. split; [by vm_compute|].
  destruct (os_owner sv) as [o|] eqn:Eo; [|by vm_compute in Eo].
  pose proof (stale_owner_stuck (E := unit) (fun _ _ => true) sv o 7 Memory.sources 6 Eo) as H.
  assert (oo_head o < Z.of_nat (length (stream (os_store sv)))) as Hlt.
  { vm_compute in Eo. injection Eo as <-. by vm_compute. }
  specialize (H Hlt).
  change (reconcile_observer_progress (fun _ _ => true) sv 7 Memory.sources 6)
    with (Memory.reconciled sv) in H.
  destruct (Memory.reconciled sv) as [sv' r]. destruct H as (Hs & _ & Hr). cbn [fst snd].
  split; [rewrite Hs; by vm_compute|]. intros E. specialize (Hr E).
  vm_compute in Eo. injection Eo as <-. by vm_compute in Hr.
Defined.
