(* ===== verification/EdgeSteps.v ===== *)
(** * Transitions of the closure-repayment edges

    Model of the operations of [liminal-protocol/src/lifecycle/edge.rs]: the
    events, the predecessor-bound successors, the binding-fate authorities and
    every transition of the seven stored edges.  A method that consumes an edge
    is a function of the edge; where the source hands an authority back on
    refusal, the error carries it.  The one-use marker candidate and marker
    record of the claim frontier are read through the accessors the source
    uses. *)
From S2P Require Import Prelude Algebra Tags Wire Edge Binding.

#[export] Instance ClosureDebt_eq_dec : EqDecision ClosureDebt.
Proof. solve_decision. Defined.
#[export] Instance ObserverProjection_eq_dec : EqDecision ObserverProjection.
Proof. unfold DeliverySeq. solve_decision. Defined.
#[export] Instance PhysicalCompaction_eq_dec : EqDecision PhysicalCompaction.
Proof. unfold DeliverySeq. solve_decision. Defined.
#[export] Instance MarkerDelivery_eq_dec : EqDecision MarkerDelivery.
Proof. solve_decision. Defined.
#[export] Instance CursorProgressContinuous_eq_dec : EqDecision CursorProgressContinuous.
Proof. solve_decision. Defined.
#[export] Instance CursorProgressMarker_eq_dec : EqDecision CursorProgressMarker.
Proof. solve_decision. Defined.
#[export] Instance ParticipantCursorProgress_eq_dec : EqDecision ParticipantCursorProgress.
Proof. solve_decision. Defined.
#[export] Instance DetachedCredentialRecovery_eq_dec : EqDecision DetachedCredentialRecovery.
Proof. solve_decision. Defined.
#[export] Instance DetachedMarkerRelease_eq_dec : EqDecision DetachedMarkerRelease.
Proof. solve_decision. Defined.
#[export] Instance DetachedCursorRelease_eq_dec : EqDecision DetachedCursorRelease.
Proof. solve_decision. Defined.
#[export] Instance StoredEdge_eq_dec : EqDecision StoredEdge.
Proof. solve_decision. Defined.
#[export] Instance ClosureState_eq_dec : EqDecision ClosureState.
Proof. solve_decision. Defined.

(** ** Events *)

Inductive CursorProgressEvent :=
| CPE_Normal (previous_cursor through_seq : DeliverySeq)
| CPE_Marker (marker_delivery_seq : DeliverySeq).

Inductive LeaveAuthority :=
| LA_Live (binding_epoch : BindingEpoch)
| LA_Detached.

Inductive EventKind :=
| EK_ProjectionCompleted (through_seq : DeliverySeq)
| EK_CompactionCompleted (from_floor through_seq resulting_floor : DeliverySeq)
| EK_MarkerAppended (marker_delivery_seq resulting_projection_through : DeliverySeq)
| EK_MarkerDelivered (participant_id : ParticipantId) (binding_epoch : BindingEpoch)
    (marker_delivery_seq : DeliverySeq)
| EK_CursorProgressed (participant_index : ParticipantIndex) (participant_id : ParticipantId)
    (binding_epoch : BindingEpoch) (progress : CursorProgressEvent)
    (resulting_floor : DeliverySeq)
| EK_BindingFateObserved (participant_id : ParticipantId) (binding_epoch : BindingEpoch)
    (resulting_floor : DeliverySeq)
| EK_LeaveCommitted (participant_id : ParticipantId) (authority : LeaveAuthority)
    (resulting_floor : DeliverySeq)
| EK_FencedRecoveryCommitted (participant_id : ParticipantId)
    (marker_delivery_seq : DeliverySeq) (prior_binding_epoch new_binding_epoch : BindingEpoch)
    (resulting_floor : DeliverySeq).

Record Event := mkEvent { event_kind : EventKind }.

#[export] Instance CursorProgressEvent_eq_dec : EqDecision CursorProgressEvent.
Proof. solve_decision. Defined.
#[export] Instance LeaveAuthority_eq_dec : EqDecision LeaveAuthority.
Proof. solve_decision. Defined.
#[export] Instance EventKind_eq_dec : EqDecision EventKind.
Proof. solve_decision. Defined.
#[export] Instance Event_eq_dec : EqDecision Event.
Proof. solve_decision. Defined.

Definition projection_completed (through_seq : DeliverySeq) : Event :=
  mkEvent (EK_ProjectionCompleted through_seq).
Definition compaction_completed (from_floor through_seq resulting_floor : DeliverySeq)
    : option Event :=
  if (from_floor <=? through_seq) && (through_seq <? resulting_floor)
  then Some (mkEvent (EK_CompactionCompleted from_floor through_seq resulting_floor))
  else None.
Definition event_marker_appended (marker_delivery_seq resulting_projection_through : DeliverySeq)
    : Event := mkEvent (EK_MarkerAppended marker_delivery_seq resulting_projection_through).
Definition event_marker_delivered (participant_id : ParticipantId) (binding_epoch : BindingEpoch)
    (marker_delivery_seq : DeliverySeq) : Event :=
  mkEvent (EK_MarkerDelivered participant_id binding_epoch marker_delivery_seq).
Definition event_cursor_progressed (participant_id : ParticipantId) (binding_epoch : BindingEpoch)
    (previous_cursor through_seq resulting_floor : DeliverySeq) : option Event :=
  if previous_cursor <? through_seq
  then Some (mkEvent (EK_CursorProgressed participant_id participant_id binding_epoch
                        (CPE_Normal previous_cursor through_seq) resulting_floor))
  else None.
Definition marker_acknowledged (participant_id : ParticipantId) (binding_epoch : BindingEpoch)
    (marker_delivery_seq resulting_floor : DeliverySeq) : Event :=
  mkEvent (EK_CursorProgressed participant_id participant_id binding_epoch
             (CPE_Marker marker_delivery_seq) resulting_floor).
Definition binding_fate_observed (participant_id : ParticipantId) (binding_epoch : BindingEpoch)
    (resulting_floor : DeliverySeq) : Event :=
  mkEvent (EK_BindingFateObserved participant_id binding_epoch resulting_floor).
Definition live_leave_committed (participant_id : ParticipantId) (binding_epoch : BindingEpoch)
    (resulting_floor : DeliverySeq) : Event :=
  mkEvent (EK_LeaveCommitted participant_id (LA_Live binding_epoch) resulting_floor).
Definition detached_leave_committed (participant_id : ParticipantId)
    (resulting_floor : DeliverySeq) : Event :=
  mkEvent (EK_LeaveCommitted participant_id LA_Detached resulting_floor).
Definition fenced_recovery_committed (participant_id : ParticipantId)
    (marker_delivery_seq : DeliverySeq) (prior_binding_epoch new_binding_epoch : BindingEpoch)
    (resulting_floor : DeliverySeq) : Event :=
  mkEvent (EK_FencedRecoveryCommitted participant_id marker_delivery_seq prior_binding_epoch
             new_binding_epoch resulting_floor).

(** ** Helpers *)

Definition edge_owed (debt : ClosureDebt) (edge : StoredEdge) : ClosureState :=
  Closure_Owed debt edge.

Definition preserve_or_clear (resulting_debt : option ClosureDebt) (edge : StoredEdge)
    : ClosureState :=
  match resulting_debt with
  | Some debt => edge_owed debt edge
  | None => Closure_Clear
  end.

Definition projection_completion_boundary (edge : ObserverProjection) (event : Event)
    : option DeliverySeq :=
  match event_kind event with
  | EK_ProjectionCompleted through_seq =>
      if through_seq =? op_through_seq edge then Some through_seq else None
  | _ => None
  end.

Definition physical_completion_floor (edge : PhysicalCompaction) (event : Event)
    : option DeliverySeq :=
  match event_kind event with
  | EK_CompactionCompleted from_floor through_seq resulting_floor =>
      if (from_floor =? pc_from_floor edge) && (through_seq =? pc_through_seq edge)
         && (pc_through_seq edge <? resulting_floor)
      then Some resulting_floor else None
  | _ => None
  end.

Definition progress_event_floor (event : Event) : option DeliverySeq :=
  match event_kind event with
  | EK_CursorProgressed _ _ _ _ resulting_floor
  | EK_BindingFateObserved _ _ resulting_floor
  | EK_LeaveCommitted _ _ resulting_floor => Some resulting_floor
  | _ => None
  end.

Definition cursor_event_boundary (event : Event) : DeliverySeq :=
  match event_kind event with
  | EK_CursorProgressed _ _ _ (CPE_Normal _ through_seq) _ => through_seq
  | _ => 0
  end.

Definition greater_ack_matches (edge : ParticipantCursorProgress) (event : Event) : bool :=
  match event_kind event with
  | EK_CursorProgressed _ participant_id binding_epoch (CPE_Normal previous_cursor through_seq) _ =>
      (participant_id =? cp_participant_id edge)
      && bool_decide (binding_epoch = cp_binding_epoch edge)
      && (previous_cursor <? cp_through_seq edge) && (cp_through_seq edge <? through_seq)
  | _ => false
  end.

Definition strict_edge_matches_boundary (edge : StoredEdge) (boundary : DeliverySeq) : bool :=
  match edge with
  | SE_ObserverProjection value => op_through_seq value =? boundary
  | SE_PhysicalCompaction value => pc_through_seq value =? boundary
  | SE_MarkerDelivery value => md_marker_delivery_seq value =? boundary
  | SE_ParticipantCursorProgress value => cp_through_seq value =? boundary
  | SE_DetachedCredentialRecovery _ => false
  | SE_DetachedMarkerRelease value => dmr_marker_delivery_seq value =? boundary
  | SE_DetachedCursorRelease _ => true
  end.

Definition charged_churn_fits (used delta limit : Z) : bool :=
  (0 <? delta) && (add_u128 (widen_u64 used) (widen_u64 delta) <=? widen_u64 limit).

Definition is_next_generation (old new : BindingEpoch) : bool :=
  match checked_add u64_max (capability_generation old) 1 with
  | Some expected => capability_generation new =? expected
  | None => false
  end.

Definition event_participant (event : Event) : option ParticipantId :=
  match event_kind event with
  | EK_MarkerDelivered participant_id _ _
  | EK_CursorProgressed _ participant_id _ _ _
  | EK_BindingFateObserved participant_id _ _
  | EK_LeaveCommitted participant_id _ _
  | EK_FencedRecoveryCommitted participant_id _ _ _ _ => Some participant_id
  | EK_ProjectionCompleted _ | EK_CompactionCompleted _ _ _ | EK_MarkerAppended _ _ => None
  end.

Definition unrelated_detached_event (edge : StoredEdge) (owner : ParticipantId)
    (debt : ClosureDebt) (event : Event) (resulting_debt : option ClosureDebt)
    : result ClosureState ClosureState :=
  let original := edge_owed debt edge in
  match event_participant event with
  | None => Err original
  | Some participant_id =>
      if participant_id =? owner then Err original
      else Ok (preserve_or_clear resulting_debt edge)
  end.

(** ** Authorities *)

(** The state a completed owner transition may install: clear, or a storage
    edge. *)
Record DebtCompletion := mkDebtCompletion { dc_into_state : ClosureState }.
Definition DebtCompletion_clear : DebtCompletion := mkDebtCompletion Closure_Clear.
Definition DebtCompletion_observer_projection (debt : ClosureDebt) (edge : ObserverProjection)
    : DebtCompletion := mkDebtCompletion (Closure_Owed debt (SE_ObserverProjection edge)).
Definition DebtCompletion_physical_compaction (debt : ClosureDebt) (edge : PhysicalCompaction)
    : DebtCompletion := mkDebtCompletion (Closure_Owed debt (SE_PhysicalCompaction edge)).

Inductive OrdinaryDetachedAttachAdmission := AttachAdmission.
Definition ordinary_detached_attach_admission (state : ClosureState)
    : result OrdinaryDetachedAttachAdmission ClosureState :=
  match state with
  | Closure_Clear => Ok AttachAdmission
  | Closure_Owed _ _ => Err state
  end.

Record OrdinaryBindingAuthority := mkOrdinaryBindingAuthority {
  oba_binding : ActiveBinding;
  oba_through_seq : DeliverySeq;
}.
Record OrdinaryBindingFate := mkOrdinaryBindingFate {
  obf_conversation_id : ConversationId;
  obf_through_seq : DeliverySeq;
  obf_resulting_floor : DeliverySeq;
  obf_release : DetachedCursorRelease;
}.

Definition participant_ack_progressed (a : OrdinaryBindingAuthority)
    (conversation_id : ConversationId) (participant_id : ParticipantId)
    (binding_epoch : BindingEpoch) (previous_cursor through_seq : DeliverySeq)
    : result OrdinaryBindingAuthority OrdinaryBindingAuthority :=
  if negb (conversation_id =? bnd_conversation_id (oba_binding a))
     || negb (participant_id =? bnd_participant_id (oba_binding a))
     || negb (bool_decide (binding_epoch = bnd_binding_epoch (oba_binding a)))
     || negb (previous_cursor =? oba_through_seq a)
     || (through_seq <=? previous_cursor)
  then Err a
  else Ok (mkOrdinaryBindingAuthority (oba_binding a) through_seq).

Definition authority_cursor_progressed (a : OrdinaryBindingAuthority) (event : Event)
    : result OrdinaryBindingAuthority OrdinaryBindingAuthority :=
  match event_kind event with
  | EK_CursorProgressed _ participant_id binding_epoch (CPE_Normal previous_cursor through_seq) _ =>
      participant_ack_progressed a (bnd_conversation_id (oba_binding a)) participant_id
        binding_epoch previous_cursor through_seq
  | _ => Err a
  end.

Definition authority_binding_fate (a : OrdinaryBindingAuthority) (terminal : CommittedDiedTerminal)
    (resulting_floor : DeliverySeq) : result OrdinaryBindingFate OrdinaryBindingAuthority :=
  if negb (bti_participant_id (cdd_identity terminal) =? bnd_participant_id (oba_binding a))
     || negb (bti_conversation_id (cdd_identity terminal) =? bnd_conversation_id (oba_binding a))
     || negb (bool_decide (bti_binding_epoch (cdd_identity terminal) = bnd_binding_epoch (oba_binding a)))
  then Err a
  else Ok (mkOrdinaryBindingFate (bnd_conversation_id (oba_binding a)) (oba_through_seq a)
             resulting_floor
             (mkDetachedCursorRelease (bnd_participant_id (oba_binding a))
                (bnd_binding_epoch (oba_binding a)))).

Definition into_direct_state (fate : OrdinaryBindingFate) (debt : ClosureDebt) : ClosureState :=
  edge_owed debt (SE_DetachedCursorRelease (obf_release fate)).

Definition restore_continuous (authority : OrdinaryBindingAuthority)
    (participant_id : ParticipantId) (binding_epoch : BindingEpoch) (through_seq : DeliverySeq)
    : option ParticipantCursorProgress :=
  if negb (bnd_participant_id (oba_binding authority) =? participant_id)
     || negb (bool_decide (bnd_binding_epoch (oba_binding authority) = binding_epoch))
     || negb (oba_through_seq authority =? through_seq)
  then None
  else Some (PCP_Continuous (mkCursorProgressContinuous participant_id binding_epoch through_seq)).

(** What is read of the frontier's one-use marker authorities. *)
Inductive MarkerRecordOccurrence := MRO_Undelivered | MRO_Delivered.
#[export] Instance MarkerRecordOccurrence_eq_dec : EqDecision MarkerRecordOccurrence.
Proof. solve_decision. Defined.

Record MarkerRecord := mkMarkerRecord {
  mr_conversation_id : ConversationId;
  mr_participant_id : ParticipantId;
  mr_delivery_seq : DeliverySeq;
  mr_target_binding : FrontierBinding;
  mr_occurrence : MarkerRecordOccurrence;
}.

Record FencedAttachCommit := mkFencedAttachCommit {
  fac_conversation_id : ConversationId;
  fac_participant_id : ParticipantId;
  fac_marker_delivery_seq : DeliverySeq;
  fac_prior_binding_epoch : BindingEpoch;
  fac_new_binding_epoch : BindingEpoch;
  fac_next_state : ClosureState;
}.

Inductive RecoveredStorageEdge :=
| RSE_ObserverProjection (e : ObserverProjection)
| RSE_PhysicalCompaction (e : PhysicalCompaction).
#[export] Instance RecoveredStorageEdge_eq_dec : EqDecision RecoveredStorageEdge.
Proof. solve_decision. Defined.

Definition into_stored_edge (e : RecoveredStorageEdge) : StoredEdge :=
  match e with
  | RSE_ObserverProjection value => SE_ObserverProjection value
  | RSE_PhysicalCompaction value => SE_PhysicalCompaction value
  end.

Record RecoveredBindingFate := mkRecoveredBindingFate {
  rbf_conversation_id : ConversationId;
  rbf_predecessor_debt : ClosureDebt;
  rbf_predecessor : RecoveredStorageEdge;
  rbf_resulting_floor : DeliverySeq;
  rbf_release : DetachedCursorRelease;
}.
Record PendingRecoveredCursorRelease := mkPendingRelease {
  prr_debt : ClosureDebt;
  prr_predecessor : RecoveredStorageEdge;
  prr_release : DetachedCursorRelease;
}.
Record RecoveredCursorRelease := mkRecoveredRelease {
  rrl_debt : ClosureDebt;
  rrl_release : DetachedCursorRelease;
}.
Inductive RecoveredBindingFateTransition :=
| RFT_PendingStorage (p : PendingRecoveredCursorRelease)
| RFT_DetachedCursorRelease (r : RecoveredCursorRelease).

Definition predecessor_state (f : RecoveredBindingFate) : ClosureState :=
  edge_owed (rbf_predecessor_debt f) (into_stored_edge (rbf_predecessor f)).
Definition current_state (p : PendingRecoveredCursorRelease) : ClosureState :=
  edge_owed (prr_debt p) (into_stored_edge (prr_predecessor p)).
Definition recovered_into_state (r : RecoveredCursorRelease) : ClosureState :=
  edge_owed (rrl_debt r) (SE_DetachedCursorRelease (rrl_release r)).

Definition restore_validated (recovery : DetachedCredentialRecovery) (record : MarkerRecord)
    (debt : ClosureDebt) (event : Event) (successor : DebtCompletion)
    : option FencedAttachCommit :=
  if is_zero (debt_value debt)
     || negb (mr_conversation_id record =? dcr_conversation_id recovery)
     || negb (mr_participant_id record =? dcr_participant_id recovery)
     || negb (mr_delivery_seq record =? dcr_marker_delivery_seq recovery)
     || negb (bool_decide (mr_target_binding record
                           = FB_Detached (dcr_prior_binding_epoch recovery)))
     || negb (bool_decide (mr_occurrence record = MRO_Delivered))
  then None
  else
    match event_kind event with
    | EK_FencedRecoveryCommitted participant_id marker_delivery_seq prior_binding_epoch
        new_binding_epoch _ =>
        if negb (participant_id =? dcr_participant_id recovery)
           || negb (marker_delivery_seq =? dcr_marker_delivery_seq recovery)
           || negb (bool_decide (prior_binding_epoch = dcr_prior_binding_epoch recovery))
           || negb (is_next_generation prior_binding_epoch new_binding_epoch)
        then None
        else Some (mkFencedAttachCommit (dcr_conversation_id recovery) participant_id
                     marker_delivery_seq prior_binding_epoch new_binding_epoch
                     (dc_into_state successor))
    | _ => None
    end.

Definition recovered_binding_fate (c : FencedAttachCommit) (event : Event)
    : result RecoveredBindingFate FencedAttachCommit :=
  match event_kind event with
  | EK_BindingFateObserved participant_id binding_epoch resulting_floor =>
      if negb (participant_id =? fac_participant_id c)
         || negb (bool_decide (binding_epoch = fac_new_binding_epoch c))
      then Err c
      else
        match fac_next_state c with
        | Closure_Clear => Err c
        | Closure_Owed debt edge =>
            let fate predecessor :=
              Ok (mkRecoveredBindingFate (fac_conversation_id c) debt predecessor resulting_floor
                    (mkDetachedCursorRelease participant_id binding_epoch)) in
            match edge with
            | SE_ObserverProjection value => fate (RSE_ObserverProjection value)
            | SE_PhysicalCompaction value => fate (RSE_PhysicalCompaction value)
            | _ => Err c
            end
        end
  | _ => Err c
  end.

Inductive SuccessorUse :=
| SU_ObserverCompletion | SU_ObserverMarkerAppend | SU_ObserverLeave
| SU_PhysicalCompletion | SU_PhysicalCover | SU_CursorGreaterAck.
#[export] Instance SuccessorUse_eq_dec : EqDecision SuccessorUse.
Proof. solve_decision. Defined.

Record ProjectionCompactionSuccessor := mkSuccessor {
  pcs_predecessor : StoredEdge;
  pcs_event : Event;
  pcs_use_kind : SuccessorUse;
  pcs_state : ClosureState;
}.

Inductive CursorFateSuccessor :=
| CFS_DetachedCredentialRecovery (e : DetachedCredentialRecovery)
| CFS_DetachedCursorRelease (e : DetachedCursorRelease).
Definition fate_into_stored_edge (s : CursorFateSuccessor) : StoredEdge :=
  match s with
  | CFS_DetachedCredentialRecovery value => SE_DetachedCredentialRecovery value
  | CFS_DetachedCursorRelease value => SE_DetachedCursorRelease value
  end.

Inductive DetachedAttachRefusal :=
| DAR_RecoveryFence | DAR_MarkerNotDelivered | DAR_MarkerMismatch
| DAR_DeliveredMarkerAwaitingAck | DAR_EpisodeChurnLimit | DAR_StaleAuthority | DAR_NoBinding.

Inductive DetachedClaimTarget :=
| DCT_CredentialRecovery (marker_delivery_seq : DeliverySeq) (binding_epoch : BindingEpoch)
| DCT_MarkerRelease (marker_delivery_seq : DeliverySeq) (binding_epoch : BindingEpoch)
| DCT_CursorRelease (binding_epoch : BindingEpoch).
#[export] Instance DetachedClaimTarget_eq_dec : EqDecision DetachedClaimTarget.
Proof. solve_decision. Defined.

Record KClaimBackedDetachedLeave := mkKClaim {
  kcl_participant_id : ParticipantId;
  kcl_target : DetachedClaimTarget;
  kcl_actual_charge : ResourceVector;
}.

Definition validate_detached_claim (owner : ParticipantId) (target : DetachedClaimTarget)
    (participant_id : ParticipantId) (actual_charge remaining_k : ResourceVector)
    (exit_claims : Z) : option KClaimBackedDetachedLeave :=
  if negb (participant_id =? owner) || (rv_entries actual_charge =? 0)
     || (rv_bytes actual_charge =? 0) || (rv_entries remaining_k <? rv_entries actual_charge)
     || (rv_bytes remaining_k <? rv_bytes actual_charge) || (exit_claims =? 0)
  then None
  else Some (mkKClaim participant_id target actual_charge).

(** ** Observer projection *)

Definition projection_apply_ordinary_binding_fate (e : ObserverProjection)
    (resulting_debt : ClosureDebt) (authority : OrdinaryBindingFate)
    : PendingRecoveredCursorRelease :=
  mkPendingRelease resulting_debt (RSE_ObserverProjection e) (obf_release authority).

Definition projection_apply_recovered_binding_fate (e : ObserverProjection)
    (debt resulting_debt : ClosureDebt) (authority : RecoveredBindingFate)
    : result RecoveredBindingFateTransition RecoveredBindingFate :=
  if negb (bool_decide (rbf_predecessor authority = RSE_ObserverProjection e))
     || negb (bool_decide (rbf_predecessor_debt authority = debt))
  then Err authority
  else Ok (RFT_PendingStorage (mkPendingRelease resulting_debt (RSE_ObserverProjection e)
             (rbf_release authority))).

Definition projection_complete_after_binding_fate (e : ObserverProjection) (event : Event)
    (resulting_debt : option ClosureDebt) (pending : PendingRecoveredCursorRelease)
    : result ClosureState PendingRecoveredCursorRelease :=
  if negb (bool_decide (prr_predecessor pending = RSE_ObserverProjection e))
     || is_none (projection_completion_boundary e event)
  then Err pending
  else Ok (preserve_or_clear resulting_debt (SE_DetachedCursorRelease (prr_release pending))).

Definition projection_clear_after_completion (e : ObserverProjection) (event : Event)
    : option ProjectionCompactionSuccessor :=
  if is_some (projection_completion_boundary e event)
  then Some (mkSuccessor (SE_ObserverProjection e) event SU_ObserverCompletion Closure_Clear)
  else None.

Definition projection_strict_after_completion (e : ObserverProjection) (event : Event)
    (debt : ClosureDebt) (edge : StoredEdge) (successor_boundary : DeliverySeq)
    : option ProjectionCompactionSuccessor :=
  match projection_completion_boundary e event with
  | None => None
  | Some completed_through =>
      if (successor_boundary <=? completed_through)
         || negb (strict_edge_matches_boundary edge successor_boundary)
      then None
      else Some (mkSuccessor (SE_ObserverProjection e) event SU_ObserverCompletion
                   (Closure_Owed debt edge))
  end.

Definition projection_complete (e : ObserverProjection) (debt : ClosureDebt) (event : Event)
    (successor : ProjectionCompactionSuccessor) : result ClosureState ClosureState :=
  let original := edge_owed debt (SE_ObserverProjection e) in
  if bool_decide (pcs_predecessor successor = SE_ObserverProjection e)
     && bool_decide (pcs_event successor = event)
     && bool_decide (pcs_use_kind successor = SU_ObserverCompletion)
     && is_some (projection_completion_boundary e event)
  then Ok (pcs_state successor) else Err original.

Definition later_projection_after_marker (e : ObserverProjection) (event : Event)
    (debt : ClosureDebt) (successor : ObserverProjection)
    : option ProjectionCompactionSuccessor :=
  match event_kind event with
  | EK_MarkerAppended marker_delivery_seq resulting_projection_through =>
      if (marker_delivery_seq <=? op_through_seq e)
         || (resulting_projection_through <? marker_delivery_seq)
         || negb (op_through_seq successor =? resulting_projection_through)
      then None
      else Some (mkSuccessor (SE_ObserverProjection e) event SU_ObserverMarkerAppend
                   (edge_owed debt (SE_ObserverProjection successor)))
  | _ => None
  end.

Definition projection_marker_appended (e : ObserverProjection) (debt : ClosureDebt)
    (event : Event) (successor : ProjectionCompactionSuccessor)
    : result ClosureState ClosureState :=
  let original := edge_owed debt (SE_ObserverProjection e) in
  if bool_decide (pcs_predecessor successor = SE_ObserverProjection e)
     && bool_decide (pcs_event successor = event)
     && bool_decide (pcs_use_kind successor = SU_ObserverMarkerAppend)
  then Ok (pcs_state successor) else Err original.

Definition later_projection_after_leave (e : ObserverProjection) (event : Event)
    (debt : ClosureDebt) (successor : ObserverProjection)
    : option ProjectionCompactionSuccessor :=
  match event_kind event with
  | EK_LeaveCommitted _ _ resulting_floor =>
      if (op_through_seq successor <=? op_through_seq e)
         || (op_through_seq successor <? resulting_floor)
      then None
      else Some (mkSuccessor (SE_ObserverProjection e) event SU_ObserverLeave
                   (edge_owed debt (SE_ObserverProjection successor)))
  | _ => None
  end.

Definition leave_with_later_projection (e : ObserverProjection) (debt : ClosureDebt)
    (event : Event) (successor : ProjectionCompactionSuccessor)
    : result ClosureState ClosureState :=
  let original := edge_owed debt (SE_ObserverProjection e) in
  if bool_decide (pcs_predecessor successor = SE_ObserverProjection e)
     && bool_decide (pcs_event successor = event)
     && bool_decide (pcs_use_kind successor = SU_ObserverLeave)
  then Ok (pcs_state successor) else Err original.

Definition independent_event (e : ObserverProjection) (debt : ClosureDebt) (event : Event)
    (resulting_debt : option ClosureDebt) : result ClosureState ClosureState :=
  let original := edge_owed debt (SE_ObserverProjection e) in
  match event_kind event with
  | EK_CursorProgressed _ _ _ _ _ | EK_BindingFateObserved _ _ _ | EK_LeaveCommitted _ _ _ =>
      Ok (preserve_or_clear resulting_debt (SE_ObserverProjection e))
  | _ => Err original
  end.

Definition charged_binding_change (e : ObserverProjection) (debt : ClosureDebt)
    (episode_churn_used delta_cycles episode_churn_limit : Z)
    (resulting_debt : option ClosureDebt)
    : result ClosureState (ClosureState * DetachedAttachRefusal) :=
  let original := edge_owed debt (SE_ObserverProjection e) in
  if negb (charged_churn_fits episode_churn_used delta_cycles episode_churn_limit)
  then Err (original, DAR_EpisodeChurnLimit)
  else Ok (preserve_or_clear resulting_debt (SE_ObserverProjection e)).

(** ** Physical compaction *)

Definition compaction_apply_ordinary_binding_fate (e : PhysicalCompaction)
    (resulting_debt : ClosureDebt) (authority : OrdinaryBindingFate)
    : RecoveredBindingFateTransition :=
  if pc_through_seq e <? obf_resulting_floor authority
  then RFT_DetachedCursorRelease (mkRecoveredRelease resulting_debt (obf_release authority))
  else RFT_PendingStorage (mkPendingRelease resulting_debt (RSE_PhysicalCompaction e)
         (obf_release authority)).

Definition compaction_apply_recovered_binding_fate (e : PhysicalCompaction)
    (debt resulting_debt : ClosureDebt) (authority : RecoveredBindingFate)
    : result RecoveredBindingFateTransition RecoveredBindingFate :=
  if negb (bool_decide (rbf_predecessor authority = RSE_PhysicalCompaction e))
     || negb (bool_decide (rbf_predecessor_debt authority = debt))
  then Err authority
  else if pc_through_seq e <? rbf_resulting_floor authority
  then Ok (RFT_DetachedCursorRelease (mkRecoveredRelease resulting_debt (rbf_release authority)))
  else Ok (RFT_PendingStorage (mkPendingRelease resulting_debt (RSE_PhysicalCompaction e)
             (rbf_release authority))).

Definition compaction_complete_after_binding_fate (e : PhysicalCompaction) (event : Event)
    (resulting_debt : option ClosureDebt) (pending : PendingRecoveredCursorRelease)
    : result ClosureState PendingRecoveredCursorRelease :=
  if negb (bool_decide (prr_predecessor pending = RSE_PhysicalCompaction e))
     || is_none (physical_completion_floor e event)
  then Err pending
  else Ok (preserve_or_clear resulting_debt (SE_DetachedCursorRelease (prr_release pending))).

Definition compaction_clear_after_completion (e : PhysicalCompaction) (event : Event)
    : option ProjectionCompactionSuccessor :=
  if is_some (physical_completion_floor e event)
  then Some (mkSuccessor (SE_PhysicalCompaction e) event SU_PhysicalCompletion Closure_Clear)
  else None.

Definition compaction_strict_after_completion (e : PhysicalCompaction) (event : Event)
    (debt : ClosureDebt) (edge : StoredEdge) (successor_boundary : DeliverySeq)
    : option ProjectionCompactionSuccessor :=
  match physical_completion_floor e event with
  | None => None
  | Some resulting_floor =>
      if (successor_boundary <? resulting_floor)
         || negb (strict_edge_matches_boundary edge successor_boundary)
      then None
      else Some (mkSuccessor (SE_PhysicalCompaction e) event SU_PhysicalCompletion
                   (Closure_Owed debt edge))
  end.

Definition compaction_complete (e : PhysicalCompaction) (debt : ClosureDebt) (event : Event)
    (successor : ProjectionCompactionSuccessor) : result ClosureState ClosureState :=
  let original := edge_owed debt (SE_PhysicalCompaction e) in
  if bool_decide (pcs_predecessor successor = SE_PhysicalCompaction e)
     && bool_decide (pcs_event successor = event)
     && bool_decide (pcs_use_kind successor = SU_PhysicalCompletion)
     && is_some (physical_completion_floor e event)
  then Ok (pcs_state successor) else Err original.

Definition compaction_marker_appended (e : PhysicalCompaction) (debt : ClosureDebt)
    (event : Event) : result ClosureState ClosureState :=
  let original := edge_owed debt (SE_PhysicalCompaction e) in
  match event_kind event with
  | EK_MarkerAppended marker_delivery_seq resulting_projection_through =>
      if (marker_delivery_seq <=? pc_through_seq e)
         || (resulting_projection_through <? marker_delivery_seq)
      then Err original else Ok original
  | _ => Err original
  end.

Definition preserve_progress (e : PhysicalCompaction) (debt : ClosureDebt) (event : Event)
    (resulting_debt : ClosureDebt) : result ClosureState ClosureState :=
  let original := edge_owed debt (SE_PhysicalCompaction e) in
  match progress_event_floor event with
  | None => Err original
  | Some resulting_floor =>
      if pc_through_seq e <? resulting_floor then Err original
      else Ok (edge_owed resulting_debt (SE_PhysicalCompaction e))
  end.

Definition clear_after_progress (e : PhysicalCompaction) (event : Event)
    : option ProjectionCompactionSuccessor :=
  match progress_event_floor event with
  | None => None
  | Some resulting_floor =>
      if resulting_floor <=? pc_through_seq e then None
      else Some (mkSuccessor (SE_PhysicalCompaction e) event SU_PhysicalCover Closure_Clear)
  end.

Definition strict_after_progress (e : PhysicalCompaction) (event : Event) (debt : ClosureDebt)
    (edge : StoredEdge) (successor_boundary : DeliverySeq)
    : option ProjectionCompactionSuccessor :=
  match progress_event_floor event with
  | None => None
  | Some resulting_floor =>
      if (resulting_floor <=? pc_through_seq e) || (successor_boundary <? resulting_floor)
         || negb (strict_edge_matches_boundary edge successor_boundary)
      then None
      else Some (mkSuccessor (SE_PhysicalCompaction e) event SU_PhysicalCover
                   (Closure_Owed debt edge))
  end.

Definition covered_by_progress (e : PhysicalCompaction) (debt : ClosureDebt) (event : Event)
    (successor : ProjectionCompactionSuccessor) : result ClosureState ClosureState :=
  let original := edge_owed debt (SE_PhysicalCompaction e) in
  if bool_decide (pcs_predecessor successor = SE_PhysicalCompaction e)
     && bool_decide (pcs_event successor = event)
     && bool_decide (pcs_use_kind successor = SU_PhysicalCover)
  then Ok (pcs_state successor) else Err original.

Definition charged_binding_change_preserving (e : PhysicalCompaction) (debt : ClosureDebt)
    (episode_churn_used delta_cycles episode_churn_limit : Z) (resulting_floor : DeliverySeq)
    (resulting_debt : ClosureDebt) : result ClosureState (ClosureState * DetachedAttachRefusal) :=
  let original := edge_owed debt (SE_PhysicalCompaction e) in
  if negb (charged_churn_fits episode_churn_used delta_cycles episode_churn_limit)
  then Err (original, DAR_EpisodeChurnLimit)
  else if pc_through_seq e <? resulting_floor then Err (original, DAR_StaleAuthority)
  else Ok (edge_owed resulting_debt (SE_PhysicalCompaction e)).

Definition charged_binding_change_covering (e : PhysicalCompaction) (debt : ClosureDebt)
    (episode_churn_used delta_cycles episode_churn_limit : Z) (resulting_floor : DeliverySeq)
    (resulting_debt : ClosureDebt) (edge : StoredEdge) (successor_boundary : DeliverySeq)
    : result ClosureState (ClosureState * DetachedAttachRefusal) :=
  let original := edge_owed debt (SE_PhysicalCompaction e) in
  if negb (charged_churn_fits episode_churn_used delta_cycles episode_churn_limit)
  then Err (original, DAR_EpisodeChurnLimit)
  else if (resulting_floor <=? pc_through_seq e) || (successor_boundary <? resulting_floor)
          || negb (strict_edge_matches_boundary edge successor_boundary)
  then Err (original, DAR_StaleAuthority)
  else Ok (edge_owed resulting_debt edge).

(** ** Marker delivery *)

(** [successor_from_validated_candidate], on the accessors of the candidate. *)
Definition successor_from_validated_candidate (conversation_id : ConversationId)
    (participant_id : ParticipantId) (marker_delivery_seq : DeliverySeq)
    (target_binding : FrontierBinding) : StoredEdge :=
  match target_binding with
  | FB_Bound binding_epoch =>
      SE_MarkerDelivery (mkMarkerDelivery conversation_id participant_id binding_epoch
                           marker_delivery_seq)
  | FB_Detached last_dead_binding_epoch =>
      SE_DetachedMarkerRelease (mkDetachedMarkerRelease participant_id marker_delivery_seq
                                  last_dead_binding_epoch)
  end.

Definition delivered_progress (e : MarkerDelivery) (event : Event)
    : result ParticipantCursorProgress MarkerDelivery :=
  match event_kind event with
  | EK_MarkerDelivered participant_id binding_epoch marker_delivery_seq =>
      if negb (participant_id =? md_participant_id e)
         || negb (bool_decide (binding_epoch = md_binding_epoch e))
         || negb (marker_delivery_seq =? md_marker_delivery_seq e)
      then Err e
      else Ok (PCP_Marker (mkCursorProgressMarker (md_conversation_id e) participant_id
                 binding_epoch marker_delivery_seq marker_delivery_seq))
  | _ => Err e
  end.

Definition delivered (e : MarkerDelivery) (debt : ClosureDebt) (event : Event)
    : result ClosureState ClosureState :=
  let original := edge_owed debt (SE_MarkerDelivery e) in
  match delivered_progress e event with
  | Ok progress => Ok (edge_owed debt (SE_ParticipantCursorProgress progress))
  | Err _ => Err original
  end.

Definition lower_progress (e : MarkerDelivery) (debt : ClosureDebt) (event : Event)
    (resulting_debt : option ClosureDebt) : result ClosureState ClosureState :=
  let original := edge_owed debt (SE_MarkerDelivery e) in
  let is_lower :=
    match event_kind event with
    | EK_CursorProgressed _ _ _ (CPE_Normal _ through_seq) _
    | EK_ProjectionCompleted through_seq => through_seq <? md_marker_delivery_seq e
    | EK_CompactionCompleted _ through_seq resulting_floor =>
        (through_seq <? md_marker_delivery_seq e)
        && (resulting_floor <=? md_marker_delivery_seq e)
    | _ => false
    end in
  if negb is_lower then Err original
  else Ok (preserve_or_clear resulting_debt (SE_MarkerDelivery e)).

Definition marker_binding_fate (e : MarkerDelivery) (debt : ClosureDebt) (event : Event)
    : result ClosureState ClosureState :=
  let original := edge_owed debt (SE_MarkerDelivery e) in
  match event_kind event with
  | EK_BindingFateObserved participant_id binding_epoch _ =>
      if negb (participant_id =? md_participant_id e)
         || negb (bool_decide (binding_epoch = md_binding_epoch e))
      then Err original
      else Ok (edge_owed debt (SE_DetachedMarkerRelease (mkDetachedMarkerRelease participant_id
                 (md_marker_delivery_seq e) binding_epoch)))
  | _ => Err original
  end.

Definition marker_retarget (e : MarkerDelivery) (new_binding_epoch : BindingEpoch)
    (episode_churn_used delta_cycles episode_churn_limit : Z)
    : result MarkerDelivery (MarkerDelivery * DetachedAttachRefusal) :=
  if negb (charged_churn_fits episode_churn_used delta_cycles episode_churn_limit)
  then Err (e, DAR_EpisodeChurnLimit)
  else if negb (is_next_generation (md_binding_epoch e) new_binding_epoch)
  then Err (e, DAR_StaleAuthority)
  else Ok (mkMarkerDelivery (md_conversation_id e) (md_participant_id e) new_binding_epoch
             (md_marker_delivery_seq e)).

Definition marker_leave (e : MarkerDelivery) (debt : ClosureDebt) (event : Event)
    (successor : DebtCompletion) : result ClosureState ClosureState :=
  let original := edge_owed debt (SE_MarkerDelivery e) in
  match event_kind event with
  | EK_LeaveCommitted participant_id (LA_Live binding_epoch) _ =>
      if negb (participant_id =? md_participant_id e)
         || negb (bool_decide (binding_epoch = md_binding_epoch e))
      then Err original else Ok (dc_into_state successor)
  | _ => Err original
  end.

(** ** Participant cursor progress *)

(** The [match (self, event)] of [complete_ack]. *)
Definition ack_is_exact (e : ParticipantCursorProgress) (event : Event) : bool :=
  match e, event_kind event with
  | PCP_Continuous value, EK_CursorProgressed _ participant_id binding_epoch
      (CPE_Normal _ through_seq) _ =>
      (participant_id =? cpc_participant_id value)
      && bool_decide (binding_epoch = cpc_binding_epoch value)
      && (through_seq =? cpc_through_seq value)
  | PCP_Marker value, EK_CursorProgressed _ participant_id binding_epoch
      (CPE_Normal _ through_seq) _ =>
      (participant_id =? cpm_participant_id value)
      && bool_decide (binding_epoch = cpm_binding_epoch value)
      && (through_seq =? cpm_through_seq value)
  | PCP_Marker value, EK_CursorProgressed _ participant_id binding_epoch
      (CPE_Marker marker_delivery_seq) _ =>
      (participant_id =? cpm_participant_id value)
      && bool_decide (binding_epoch = cpm_binding_epoch value)
      && (marker_delivery_seq =? cpm_marker_delivery_seq value)
  | _, _ => false
  end.

Definition complete_ack (e : ParticipantCursorProgress) (debt : ClosureDebt) (event : Event)
    (successor : DebtCompletion) : result ClosureState ClosureState :=
  let original := edge_owed debt (SE_ParticipantCursorProgress e) in
  if ack_is_exact e event then Ok (dc_into_state successor) else Err original.

Definition lesser_ack (e : ParticipantCursorProgress) (debt : ClosureDebt) (event : Event)
    (resulting_debt : ClosureDebt) : result ClosureState ClosureState :=
  let original := edge_owed debt (SE_ParticipantCursorProgress e) in
  match event_kind event with
  | EK_CursorProgressed _ participant_id binding_epoch (CPE_Normal _ through_seq) _ =>
      if negb (participant_id =? cp_participant_id e)
         || negb (bool_decide (binding_epoch = cp_binding_epoch e))
         || (cp_through_seq e <=? through_seq)
      then Err original
      else Ok (edge_owed resulting_debt (SE_ParticipantCursorProgress e))
  | _ => Err original
  end.

Definition clear_after_greater_ack (e : ParticipantCursorProgress) (event : Event)
    : option ProjectionCompactionSuccessor :=
  if negb (greater_ack_matches e event) then None
  else Some (mkSuccessor (SE_ParticipantCursorProgress e) event SU_CursorGreaterAck Closure_Clear).

Definition strict_after_greater_ack (e : ParticipantCursorProgress) (event : Event)
    (debt : ClosureDebt) (edge : StoredEdge) (successor_boundary : DeliverySeq)
    : option ProjectionCompactionSuccessor :=
  if negb (greater_ack_matches e event) || (successor_boundary <=? cursor_event_boundary event)
     || negb (strict_edge_matches_boundary edge successor_boundary)
  then None
  else Some (mkSuccessor (SE_ParticipantCursorProgress e) event SU_CursorGreaterAck
               (Closure_Owed debt edge)).

Definition greater_ack (e : ParticipantCursorProgress) (debt : ClosureDebt) (event : Event)
    (successor : ProjectionCompactionSuccessor) : result ClosureState ClosureState :=
  let original := edge_owed debt (SE_ParticipantCursorProgress e) in
  if bool_decide (pcs_predecessor successor = SE_ParticipantCursorProgress e)
     && bool_decide (pcs_event successor = event)
     && bool_decide (pcs_use_kind successor = SU_CursorGreaterAck)
     && greater_ack_matches e event
  then Ok (pcs_state successor) else Err original.

Definition storage_progress (e : ParticipantCursorProgress) (debt : ClosureDebt) (event : Event)
    (resulting_debt : option ClosureDebt) : result ClosureState ClosureState :=
  let original := edge_owed debt (SE_ParticipantCursorProgress e) in
  let valid :=
    match event_kind event with
    | EK_ProjectionCompleted _ => true
    | EK_CompactionCompleted _ through_seq resulting_floor =>
        match cp_marker_delivery_seq e with
        | None => true
        | Some marker => (through_seq <? marker) && (resulting_floor <=? marker)
        end
    | _ => false
    end in
  if negb valid then Err original
  else Ok (preserve_or_clear resulting_debt (SE_ParticipantCursorProgress e)).

Definition cursor_binding_fate (e : ParticipantCursorProgress) (debt : ClosureDebt)
    (event : Event) : result CursorFateSuccessor ClosureState :=
  let original := edge_owed debt (SE_ParticipantCursorProgress e) in
  match e with
  | PCP_Continuous _ => Err original
  | PCP_Marker value =>
      match event_kind event with
      | EK_BindingFateObserved participant_id binding_epoch _ =>
          if negb (participant_id =? cpm_participant_id value)
             || negb (bool_decide (binding_epoch = cpm_binding_epoch value))
          then Err original
          else Ok (CFS_DetachedCredentialRecovery (mkDetachedCredentialRecovery
                     (cpm_conversation_id value) (cpm_participant_id value)
                     (cpm_marker_delivery_seq value) (cpm_binding_epoch value)))
      | _ => Err original
      end
  end.

Definition cursor_retarget (e : ParticipantCursorProgress) (new_binding_epoch : BindingEpoch)
    (episode_churn_used delta_cycles episode_churn_limit : Z)
    : result ParticipantCursorProgress (ParticipantCursorProgress * DetachedAttachRefusal) :=
  match e with
  | PCP_Marker _ => Err (e, DAR_DeliveredMarkerAwaitingAck)
  | PCP_Continuous value =>
      if negb (charged_churn_fits episode_churn_used delta_cycles episode_churn_limit)
      then Err (e, DAR_EpisodeChurnLimit)
      else if negb (is_next_generation (cpc_binding_epoch value) new_binding_epoch)
      then Err (e, DAR_StaleAuthority)
      else Ok (PCP_Continuous (mkCursorProgressContinuous (cpc_participant_id value)
                 new_binding_epoch (cpc_through_seq value)))
  end.

Definition cursor_leave (e : ParticipantCursorProgress) (debt : ClosureDebt) (event : Event)
    (successor : DebtCompletion) : result ClosureState ClosureState :=
  let original := edge_owed debt (SE_ParticipantCursorProgress e) in
  match event_kind event with
  | EK_LeaveCommitted participant_id (LA_Live binding_epoch) _ =>
      if negb (participant_id =? cp_participant_id e)
         || negb (bool_decide (binding_epoch = cp_binding_epoch e))
      then Err original else Ok (dc_into_state successor)
  | _ => Err original
  end.

(** ** Detached edges *)

(** The exact claim target of a detached edge. *)
Definition recovery_target (e : DetachedCredentialRecovery) : DetachedClaimTarget :=
  DCT_CredentialRecovery (dcr_marker_delivery_seq e) (dcr_prior_binding_epoch e).
Definition marker_release_target (e : DetachedMarkerRelease) : DetachedClaimTarget :=
  DCT_MarkerRelease (dmr_marker_delivery_seq e) (dmr_last_dead_binding_epoch e).
Definition cursor_release_target (e : DetachedCursorRelease) : DetachedClaimTarget :=
  DCT_CursorRelease (dur_last_dead_binding_epoch e).

(** The body the three detached Leave transitions share. *)
Definition detached_leave_of (edge : StoredEdge) (owner : ParticipantId)
    (target : DetachedClaimTarget) (debt : ClosureDebt) (event : Event)
    (evidence : KClaimBackedDetachedLeave) (successor : DebtCompletion)
    : result ClosureState ClosureState :=
  let original := edge_owed debt edge in
  match event_kind event with
  | EK_LeaveCommitted participant_id LA_Detached _ =>
      if negb (participant_id =? owner) || negb (kcl_participant_id evidence =? owner)
         || negb (bool_decide (kcl_target evidence = target))
      then Err original else Ok (dc_into_state successor)
  | _ => Err original
  end.

Definition recovery_validate_leave_claim (e : DetachedCredentialRecovery) :=
  validate_detached_claim (dcr_participant_id e) (recovery_target e).

Definition fenced_attach (e : DetachedCredentialRecovery) (record : MarkerRecord)
    (debt : ClosureDebt) (event : Event) (successor : DebtCompletion)
    : result FencedAttachCommit MarkerRecord :=
  match restore_validated e record debt event successor with
  | None => Err record
  | Some proof => Ok proof
  end.

Definition detached_leave (e : DetachedCredentialRecovery) (debt : ClosureDebt) (event : Event)
    (evidence : KClaimBackedDetachedLeave) (successor : DebtCompletion) :=
  detached_leave_of (SE_DetachedCredentialRecovery e) (dcr_participant_id e) (recovery_target e)
    debt event evidence successor.

Definition recovery_marker_attach_refusal (e : DetachedCredentialRecovery)
    (presented_marker : DeliverySeq) : option DetachedAttachRefusal :=
  if presented_marker =? dcr_marker_delivery_seq e then None else Some DAR_MarkerMismatch.

Definition recovery_unrelated_event (e : DetachedCredentialRecovery) :=
  unrelated_detached_event (SE_DetachedCredentialRecovery e) (dcr_participant_id e).

(** [LeaveOnlyEdge], the sealed contract of the two dead-end edges. *)
Class LeaveOnlyEdge (E : Type) := {
  loe_stored : E -> StoredEdge;
  loe_participant_id : E -> ParticipantId;
  loe_last_dead_binding_epoch : E -> BindingEpoch;
  loe_target : E -> DetachedClaimTarget;
}.
#[export] Instance DetachedMarkerRelease_leave_only : LeaveOnlyEdge DetachedMarkerRelease := {|
  loe_stored := SE_DetachedMarkerRelease;
  loe_participant_id := dmr_participant_id;
  loe_last_dead_binding_epoch := dmr_last_dead_binding_epoch;
  loe_target := marker_release_target;
|}.
#[export] Instance DetachedCursorRelease_leave_only : LeaveOnlyEdge DetachedCursorRelease := {|
  loe_stored := SE_DetachedCursorRelease;
  loe_participant_id := dur_participant_id;
  loe_last_dead_binding_epoch := dur_last_dead_binding_epoch;
  loe_target := cursor_release_target;
|}.

Section LeaveOnly.
Context {E : Type} `{LeaveOnlyEdge E}.

Definition leave_only_validate_leave_claim (e : E) :=
  validate_detached_claim (loe_participant_id e) (loe_target e).

Definition leave_only_leave (e : E) (debt : ClosureDebt) (event : Event)
    (evidence : KClaimBackedDetachedLeave) (successor : DebtCompletion) :=
  detached_leave_of (loe_stored e) (loe_participant_id e) (loe_target e) debt event evidence
    successor.

Definition repeat_fate (e : E) (event : Event) : result E E :=
  match event_kind event with
  | EK_BindingFateObserved participant_id binding_epoch _ =>
      if (participant_id =? loe_participant_id e)
         && bool_decide (binding_epoch = loe_last_dead_binding_epoch e)
      then Ok e else Err e
  | _ => Err e
  end.

Definition leave_only_unrelated_event (e : E) :=
  unrelated_detached_event (loe_stored e) (loe_participant_id e).

End LeaveOnly.

Definition marker_release_attach_refusal (e : DetachedMarkerRelease)
    (presented_marker : DeliverySeq) : DetachedAttachRefusal :=
  if presented_marker =? dmr_marker_delivery_seq e then DAR_MarkerNotDelivered
  else DAR_MarkerMismatch.

(** ** The step relation *)

(** Successors have private fields: these functions are their only source. *)
Inductive minted : ProjectionCompactionSuccessor -> Prop :=
| mint_projection_clear e ev s : projection_clear_after_completion e ev = Some s -> minted s
| mint_projection_strict e ev d x b s :
    projection_strict_after_completion e ev d x b = Some s -> minted s
| mint_projection_marker e ev d x s : later_projection_after_marker e ev d x = Some s -> minted s
| mint_projection_leave e ev d x s : later_projection_after_leave e ev d x = Some s -> minted s
| mint_compaction_clear e ev s : compaction_clear_after_completion e ev = Some s -> minted s
| mint_compaction_strict e ev d x b s :
    compaction_strict_after_completion e ev d x b = Some s -> minted s
| mint_cover_clear e ev s : clear_after_progress e ev = Some s -> minted s
| mint_cover_strict e ev d x b s : strict_after_progress e ev d x b = Some s -> minted s
| mint_ack_clear e ev s : clear_after_greater_ack e ev = Some s -> minted s
| mint_ack_strict e ev d x b s : strict_after_greater_ack e ev d x b = Some s -> minted s.

(** Likewise for [DebtCompletion]. *)
Inductive completion_minted : DebtCompletion -> Prop :=
| mint_clear : completion_minted DebtCompletion_clear
| mint_projection d e : completion_minted (DebtCompletion_observer_projection d e)
| mint_compaction d e : completion_minted (DebtCompletion_physical_compaction d e).

(** The state a binding-fate transition leaves current. *)
Definition transition_state (t : RecoveredBindingFateTransition) : ClosureState :=
  match t with
  | RFT_PendingStorage p => current_state p
  | RFT_DetachedCursorRelease r => recovered_into_state r
  end.

Section Rules.
Abbreviation OP := SE_ObserverProjection.
Abbreviation PC := SE_PhysicalCompaction.
Abbreviation MD := SE_MarkerDelivery.
Abbreviation PCP := SE_ParticipantCursorProgress.
Abbreviation DCR := SE_DetachedCredentialRecovery.

(** One rule per successful transition of an owed edge, labelled with the event
    it consumes; binding changes consume none. *)
Inductive edge_step : ClosureState -> option Event -> ClosureState -> Prop :=
| step_projection_complete e d ev u s' :
    minted u -> projection_complete e d ev u = Ok s' ->
    edge_step (Closure_Owed d (OP e)) (Some ev) s'
| step_projection_marker e d ev u s' :
    minted u -> projection_marker_appended e d ev u = Ok s' ->
    edge_step (Closure_Owed d (OP e)) (Some ev) s'
| step_projection_leave e d ev u s' :
    minted u -> leave_with_later_projection e d ev u = Ok s' ->
    edge_step (Closure_Owed d (OP e)) (Some ev) s'
| step_projection_independent e d ev d' s' :
    independent_event e d ev d' = Ok s' -> edge_step (Closure_Owed d (OP e)) (Some ev) s'
| step_projection_charged e d used delta limit d' s' :
    charged_binding_change e d used delta limit d' = Ok s' ->
    edge_step (Closure_Owed d (OP e)) None s'
| step_projection_ordinary_fate e d d' fate :
    edge_step (Closure_Owed d (OP e)) None
      (current_state (projection_apply_ordinary_binding_fate e d' fate))
| step_projection_recovered_fate e d d' fate t :
    projection_apply_recovered_binding_fate e d d' fate = Ok t ->
    edge_step (Closure_Owed d (OP e)) None (transition_state t)
| step_projection_after_fate e d ev d' pending s' :
    projection_complete_after_binding_fate e ev d' pending = Ok s' ->
    edge_step (Closure_Owed d (OP e)) (Some ev) s'
| step_compaction_complete e d ev u s' :
    minted u -> compaction_complete e d ev u = Ok s' ->
    edge_step (Closure_Owed d (PC e)) (Some ev) s'
| step_compaction_marker e d ev s' :
    compaction_marker_appended e d ev = Ok s' -> edge_step (Closure_Owed d (PC e)) (Some ev) s'
| step_compaction_preserve e d ev d' s' :
    preserve_progress e d ev d' = Ok s' -> edge_step (Closure_Owed d (PC e)) (Some ev) s'
| step_compaction_covered e d ev u s' :
    minted u -> covered_by_progress e d ev u = Ok s' ->
    edge_step (Closure_Owed d (PC e)) (Some ev) s'
| step_compaction_charged e d used delta limit f d' s' :
    charged_binding_change_preserving e d used delta limit f d' = Ok s' ->
    edge_step (Closure_Owed d (PC e)) None s'
| step_compaction_charged_cover e d used delta limit f d' x b s' :
    charged_binding_change_covering e d used delta limit f d' x b = Ok s' ->
    edge_step (Closure_Owed d (PC e)) None s'
| step_compaction_ordinary_fate e d d' fate :
    edge_step (Closure_Owed d (PC e)) None
      (transition_state (compaction_apply_ordinary_binding_fate e d' fate))
| step_compaction_recovered_fate e d d' fate t :
    compaction_apply_recovered_binding_fate e d d' fate = Ok t ->
    edge_step (Closure_Owed d (PC e)) None (transition_state t)
| step_compaction_after_fate e d ev d' pending s' :
    compaction_complete_after_binding_fate e ev d' pending = Ok s' ->
    edge_step (Closure_Owed d (PC e)) (Some ev) s'
| step_marker_delivered e d ev s' :
    delivered e d ev = Ok s' -> edge_step (Closure_Owed d (MD e)) (Some ev) s'
| step_marker_lower e d ev d' s' :
    lower_progress e d ev d' = Ok s' -> edge_step (Closure_Owed d (MD e)) (Some ev) s'
| step_marker_fate e d ev s' :
    marker_binding_fate e d ev = Ok s' -> edge_step (Closure_Owed d (MD e)) (Some ev) s'
| step_marker_retarget e d new used delta limit e' :
    marker_retarget e new used delta limit = Ok e' ->
    edge_step (Closure_Owed d (MD e)) None (Closure_Owed d (MD e'))
| step_marker_leave e d ev c s' :
    completion_minted c -> marker_leave e d ev c = Ok s' ->
    edge_step (Closure_Owed d (MD e)) (Some ev) s'
| step_cursor_complete e d ev c s' :
    completion_minted c -> complete_ack e d ev c = Ok s' ->
    edge_step (Closure_Owed d (PCP e)) (Some ev) s'
| step_cursor_lesser e d ev d' s' :
    lesser_ack e d ev d' = Ok s' -> edge_step (Closure_Owed d (PCP e)) (Some ev) s'
| step_cursor_greater e d ev u s' :
    minted u -> greater_ack e d ev u = Ok s' -> edge_step (Closure_Owed d (PCP e)) (Some ev) s'
| step_cursor_storage e d ev d' s' :
    storage_progress e d ev d' = Ok s' -> edge_step (Closure_Owed d (PCP e)) (Some ev) s'
| step_cursor_fate e d ev x :
    cursor_binding_fate e d ev = Ok x ->
    edge_step (Closure_Owed d (PCP e)) (Some ev) (Closure_Owed d (fate_into_stored_edge x))
| step_cursor_retarget e d new used delta limit e' :
    cursor_retarget e new used delta limit = Ok e' ->
    edge_step (Closure_Owed d (PCP e)) None (Closure_Owed d (PCP e'))
| step_cursor_leave e d ev c s' :
    completion_minted c -> cursor_leave e d ev c = Ok s' ->
    edge_step (Closure_Owed d (PCP e)) (Some ev) s'
| step_recovery_attach e d record ev c p :
    completion_minted c -> fenced_attach e record d ev c = Ok p ->
    edge_step (Closure_Owed d (DCR e)) (Some ev) (fac_next_state p)
| step_recovery_leave e d ev charge k claims evidence c s' :
    recovery_validate_leave_claim e (dcr_participant_id e) charge k claims = Some evidence ->
    completion_minted c -> detached_leave e d ev evidence c = Ok s' ->
    edge_step (Closure_Owed d (DCR e)) (Some ev) s'
| step_recovery_unrelated e d ev d' s' :
    recovery_unrelated_event e d ev d' = Ok s' -> edge_step (Closure_Owed d (DCR e)) (Some ev) s'
| step_marker_release_leave (e : DetachedMarkerRelease) d ev charge k claims evidence c s' :
    leave_only_validate_leave_claim e (loe_participant_id e) charge k claims = Some evidence ->
    completion_minted c -> leave_only_leave e d ev evidence c = Ok s' ->
    edge_step (Closure_Owed d (loe_stored e)) (Some ev) s'
| step_marker_release_fate (e e' : DetachedMarkerRelease) d ev :
    repeat_fate e ev = Ok e' ->
    edge_step (Closure_Owed d (loe_stored e)) (Some ev) (Closure_Owed d (loe_stored e'))
| step_marker_release_unrelated (e : DetachedMarkerRelease) d ev d' s' :
    leave_only_unrelated_event e d ev d' = Ok s' ->
    edge_step (Closure_Owed d (loe_stored e)) (Some ev) s'
| step_cursor_release_leave (e : DetachedCursorRelease) d ev charge k claims evidence c s' :
    leave_only_validate_leave_claim e (loe_participant_id e) charge k claims = Some evidence ->
    completion_minted c -> leave_only_leave e d ev evidence c = Ok s' ->
    edge_step (Closure_Owed d (loe_stored e)) (Some ev) s'
| step_cursor_release_fate (e e' : DetachedCursorRelease) d ev :
    repeat_fate e ev = Ok e' ->
    edge_step (Closure_Owed d (loe_stored e)) (Some ev) (Closure_Owed d (loe_stored e'))
| step_cursor_release_unrelated (e : DetachedCursorRelease) d ev d' s' :
    leave_only_unrelated_event e d ev d' = Ok s' ->
    edge_step (Closure_Owed d (loe_stored e)) (Some ev) s'.

End Rules.

(** ** Lemmas *)

(** The states [DebtCompletion] can install. *)
Definition storage_or_clear (s : ClosureState) : Prop :=
  match s with
  | Closure_Clear
  | Closure_Owed _ (SE_ObserverProjection _)
  | Closure_Owed _ (SE_PhysicalCompaction _) => True
  | _ => False
  end.

Lemma completion_storage c : completion_minted c -> storage_or_clear (dc_into_state c).
Proof. by destruct 1. Qed.

(** The sequence an edge is about; a detached cursor release has none. *)
Definition edge_boundary (e : StoredEdge) : option DeliverySeq :=
  match e with
  | SE_ObserverProjection e => Some (op_through_seq e)
  | SE_PhysicalCompaction e => Some (pc_through_seq e)
  | SE_MarkerDelivery e => Some (md_marker_delivery_seq e)
  | SE_ParticipantCursorProgress e => Some (cp_through_seq e)
  | SE_DetachedCredentialRecovery e => Some (dcr_marker_delivery_seq e)
  | SE_DetachedMarkerRelease e => Some (dmr_marker_delivery_seq e)
  | SE_DetachedCursorRelease _ => None
  end.

Definition is_recovery (e : StoredEdge) : Prop :=
  match e with SE_DetachedCredentialRecovery _ => True | _ => False end.

(** A strict successor lies at a boundary of its own, and is never a recovery
    edge. *)
Lemma strict_edge_spec e b : strict_edge_matches_boundary e b = true ->
  ~ is_recovery e /\ forall b', edge_boundary e = Some b' -> b' = b.
Proof.
  destruct e; simpl; intros H; try done; breflect; (split; [tauto|]); intros ? ?; by simplify_eq.
Qed.

Lemma projection_completion_Some e ev t :
  projection_completion_boundary e ev = Some t ->
  t = op_through_seq e /\ event_kind ev = EK_ProjectionCompleted t.
Proof.
  unfold projection_completion_boundary. destruct (event_kind ev); try done.
  destruct (Z.eqb_spec through_seq (op_through_seq e)); [|done]. intros [= <-]. by subst.
Qed.

Lemma physical_completion_Some e ev f :
  physical_completion_floor e ev = Some f ->
  event_kind ev = EK_CompactionCompleted (pc_from_floor e) (pc_through_seq e) f
  /\ pc_through_seq e < f.
Proof.
  unfold physical_completion_floor. destruct (event_kind ev); try done.
  destruct (_ && _) eqn:E; [|done]. intros [= <-]. breflect. by subst.
Qed.

Lemma greater_ack_boundary e ev :
  greater_ack_matches e ev = true -> cp_through_seq e < cursor_event_boundary ev.
Proof.
  unfold greater_ack_matches, cursor_event_boundary.
  destruct (event_kind ev) as [| | | |? ? ? [] ?| | |]; try done. intros H. by breflect.
Qed.

(** What a minted successor says about its predecessor and state. *)
Lemma minted_spec u : minted u ->
  (exists b, edge_boundary (pcs_predecessor u) = Some b
   /\ match pcs_state u with
      | Closure_Clear => True
      | Closure_Owed _ e' => ~ is_recovery e' /\ forall b', edge_boundary e' = Some b' -> b < b'
      end).
Proof.
  destruct 1 as [e ev s H|e ev d x b s H|e ev d x s H|e ev d x s H|e ev s H|e ev d x b s H
                |e ev s H|e ev d x b s H|e ev s H|e ev d x b s H].
  - unfold projection_clear_after_completion in H. case_match; simplify_eq; simpl; eauto.
  - unfold projection_strict_after_completion in H.
    destruct (projection_completion_boundary e ev) as [t|] eqn:Et; [|done].
    apply projection_completion_Some in Et as [-> _].
    destruct (_ || _) eqn:Eo; simplify_eq. breflect. simpl. eexists. split; [done|].
    destruct (strict_edge_spec x b) as [? Hb]; [done|]. split; [done|].
    intros b' ->%Hb. lia.
  - unfold later_projection_after_marker in H. destruct (event_kind ev); try done.
    destruct (_ || _) eqn:Eo; simplify_eq. breflect. simpl. eexists. split; [done|].
    split; [auto|]. intros b' [= <-]. lia.
  - unfold later_projection_after_leave in H. destruct (event_kind ev); try done.
    destruct (_ || _) eqn:Eo; simplify_eq. breflect. simpl. eexists. split; [done|].
    split; [auto|]. intros b' [= <-]. lia.
  - unfold compaction_clear_after_completion in H. case_match; simplify_eq; simpl; eauto.
  - unfold compaction_strict_after_completion in H.
    destruct (physical_completion_floor e ev) as [f|] eqn:Et; [|done].
    apply physical_completion_Some in Et as [_ Hf].
    destruct (_ || _) eqn:Eo; simplify_eq. breflect. simpl. eexists. split; [done|].
    destruct (strict_edge_spec x b) as [? Hb]; [done|]. split; [done|].
    intros b' ->%Hb. lia.
  - unfold clear_after_progress in H. destruct (progress_event_floor ev); [|done].
    destruct (_ <=? _); simplify_eq. simpl. eauto.
  - unfold strict_after_progress in H. destruct (progress_event_floor ev); [|done].
    destruct (_ || _) eqn:Eo; simplify_eq. breflect. simpl. eexists. split; [done|].
    destruct (strict_edge_spec x b) as [? Hb]; [done|]. split; [done|].
    intros b' ->%Hb. lia.
  - unfold clear_after_greater_ack in H. case_match; simplify_eq. simpl. eauto.
  - unfold strict_after_greater_ack in H. destruct (_ || _) eqn:Eo; simplify_eq. breflect.
    simpl. eexists. split; [done|]. destruct (strict_edge_spec x b) as [? Hb]; [done|].
    split; [done|]. intros b' ->%Hb.
    pose proof (greater_ack_boundary e ev ltac:(done)). lia.
Qed.

(** Unfolds the transition a rule applied and splits on its conditions. *)
Ltac step_unfold :=
  unfold projection_complete, projection_marker_appended, leave_with_later_projection,
    independent_event, charged_binding_change, projection_apply_ordinary_binding_fate,
    projection_apply_recovered_binding_fate, projection_complete_after_binding_fate,
    compaction_complete, compaction_marker_appended, preserve_progress, covered_by_progress,
    charged_binding_change_preserving, charged_binding_change_covering,
    compaction_apply_ordinary_binding_fate, compaction_apply_recovered_binding_fate,
    compaction_complete_after_binding_fate, delivered, delivered_progress, lower_progress,
    marker_binding_fate, marker_retarget, marker_leave, complete_ack, lesser_ack, greater_ack,
    storage_progress, cursor_binding_fate, cursor_retarget, cursor_leave, fenced_attach,
    restore_validated, detached_leave, leave_only_leave, detached_leave_of, repeat_fate,
    recovery_unrelated_event, leave_only_unrelated_event, unrelated_detached_event,
    preserve_or_clear, transition_state, current_state, recovered_into_state, edge_owed,
    loe_stored in *; simpl in *.

Ltac step_cases :=
  step_unfold;
  repeat match goal with
    | H : context [match ?x with _ => _ end] |- _ =>
        lazymatch type of H with _ = _ => destruct x eqn:?; simplify_eq end
    end.

(** A recovery edge appears only when the exact epoch a delivered marker was
    waiting on has died; other participants' events preserve it. *)
Lemma recovery_step s ev d' r : edge_step s ev (Closure_Owed d' (SE_DetachedCredentialRecovery r)) ->
  (exists d e, s = Closure_Owed d (SE_DetachedCredentialRecovery r) /\ ev = Some e
     /\ exists p, event_participant e = Some p /\ p <> dcr_participant_id r)
  \/ (exists d v f,
        s = Closure_Owed d (SE_ParticipantCursorProgress (PCP_Marker v))
        /\ ev = Some (binding_fate_observed (cpm_participant_id v) (cpm_binding_epoch v) f)
        /\ r = mkDetachedCredentialRecovery (cpm_conversation_id v) (cpm_participant_id v)
                 (cpm_marker_delivery_seq v) (cpm_binding_epoch v)).
Proof.
  intros H. inversion H; subst; clear H;
    repeat match goal with
      | Hu : minted _ |- _ => apply minted_spec in Hu as (? & _ & Hu)
      | Hc : completion_minted _ |- _ => apply completion_storage in Hc
      end.
  all: try (step_cases; match goal with
      | H : pcs_state ?u = _, Hu : context [pcs_state ?u] |- _ =>
          rewrite H in Hu; destruct Hu as [Hu _]; exfalso; apply Hu; exact I
      | H : dc_into_state ?c = _, Hc : storage_or_clear (dc_into_state ?c) |- _ =>
          rewrite H in Hc; contradiction
      end).
  all: step_cases; try done.
  - breflect. done.
  - right. breflect. simpl in *. simplify_eq.
    match goal with H : bool_decide _ = true |- _ => apply bool_decide_eq_true in H; subst end.
    exists d', v, resulting_floor. split; [done|]. split; [|done].
    unfold binding_fate_observed. destruct ev0; simpl in *. by subst.
  - match goal with H : dc_into_state _ = _ |- _ => idtac | H : fac_next_state _ = _ |- _ =>
      simpl in H; rewrite H in * end. contradiction.
  - left. breflect. do 2 eexists. split; [done|]. split; [done|]. eauto.
Qed.

(** Runs inside one episode of debt. *)
Inductive edge_run (s : ClosureState) : list (option Event) -> ClosureState -> Prop :=
| run_nil : edge_run s [] s
| run_snoc tr s1 ev s2 : edge_run s tr s1 -> edge_step s1 ev s2 -> edge_run s (tr ++ [ev]) s2.

(** The edges that only a detached Leave can discharge: owner and dead epoch. *)
Definition leave_only_edge (e : StoredEdge) : option (ParticipantId * BindingEpoch) :=
  match e with
  | SE_DetachedMarkerRelease e => Some (dmr_participant_id e, dmr_last_dead_binding_epoch e)
  | SE_DetachedCursorRelease e => Some (dur_participant_id e, dur_last_dead_binding_epoch e)
  | _ => None
  end.

(** The marker an edge still waits on. *)
Definition edge_marker (e : StoredEdge) : option DeliverySeq :=
  match e with
  | SE_MarkerDelivery e => Some (md_marker_delivery_seq e)
  | SE_ParticipantCursorProgress e => cp_marker_delivery_seq e
  | SE_DetachedCredentialRecovery e => Some (dcr_marker_delivery_seq e)
  | SE_DetachedMarkerRelease e => Some (dmr_marker_delivery_seq e)
  | _ => None
  end.

Lemma validate_detached_claim_spec owner target p charge k claims evidence :
  validate_detached_claim owner target p charge k claims = Some evidence ->
  p = owner /\ evidence = mkKClaim owner target charge
  /\ rv_entries charge <= rv_entries k /\ rv_bytes charge <= rv_bytes k /\ claims <> 0.
Proof.
  unfold validate_detached_claim. destruct (_ || _) eqn:E; [done|]. intros [= <-].
  breflect. by subst.
Qed.

(** What an accepted fenced attach proves. *)
Lemma fenced_attach_Ok e record d ev c p : fenced_attach e record d ev c = Ok p ->
  mr_conversation_id record = dcr_conversation_id e
  /\ mr_participant_id record = dcr_participant_id e
  /\ mr_delivery_seq record = dcr_marker_delivery_seq e
  /\ mr_target_binding record = FB_Detached (dcr_prior_binding_epoch e)
  /\ mr_occurrence record = MRO_Delivered
  /\ fac_participant_id p = dcr_participant_id e
  /\ is_next_generation (dcr_prior_binding_epoch e) (fac_new_binding_epoch p) = true
  /\ fac_next_state p = dc_into_state c.
Proof.
  intros H. step_cases. breflect. simpl in *.
  repeat match goal with H : bool_decide _ = true |- _ => apply bool_decide_eq_true in H end.
  subst. done.
Qed.

Lemma recovered_fate_Ok p ev fate : recovered_binding_fate p ev = Ok fate ->
  exists f, ev = binding_fate_observed (fac_participant_id p) (fac_new_binding_epoch p) f
  /\ predecessor_state fate = fac_next_state p
  /\ rbf_release fate = mkDetachedCursorRelease (fac_participant_id p) (fac_new_binding_epoch p)
  /\ rbf_resulting_floor fate = f.
Proof.
  unfold recovered_binding_fate. destruct ev as [k]; simpl. destruct k; try done.
  destruct (_ || _) eqn:E; [done|]. breflect.
  repeat match goal with H : bool_decide _ = true |- _ => apply bool_decide_eq_true in H end.
  subst. destruct (fac_next_state p) as [|d edge]; [done|].
  destruct edge; try done; intros [= <-]; eexists; done.
Qed.

Lemma is_next_generation_spec old new : is_next_generation old new = true ->
  capability_generation new = capability_generation old + 1
  /\ capability_generation new <= u64_max.
Proof.
  unfold is_next_generation. destruct (checked_add _ _ _) as [x|] eqn:E; [|done].
  apply checked_add_Some in E as [-> ?]. intros ?. breflect. lia.
Qed.

(** What a pending or immediate release installs once its storage edge is done. *)
Definition release_installs (edge : StoredEdge) (d d1 : ClosureDebt) (fate : RecoveredBindingFate)
    : Prop :=
  let release d2 := preserve_or_clear d2 (SE_DetachedCursorRelease (rbf_release fate)) in
  match edge with
  | SE_ObserverProjection x =>
      exists pending,
        projection_apply_recovered_binding_fate x d d1 fate = Ok (RFT_PendingStorage pending)
        /\ current_state pending = Closure_Owed d1 edge
        /\ forall d2, projection_complete_after_binding_fate x
                        (projection_completed (op_through_seq x)) d2 pending = Ok (release d2)
  | SE_PhysicalCompaction x =>
      if pc_through_seq x <? rbf_resulting_floor fate
      then exists r, compaction_apply_recovered_binding_fate x d d1 fate
                       = Ok (RFT_DetachedCursorRelease r)
                     /\ recovered_into_state r = release (Some d1)
      else exists pending,
        compaction_apply_recovered_binding_fate x d d1 fate = Ok (RFT_PendingStorage pending)
        /\ current_state pending = Closure_Owed d1 edge
        /\ forall d2 floor, pc_through_seq x < floor ->
             compaction_complete_after_binding_fate x
               (mkEvent (EK_CompactionCompleted (pc_from_floor x) (pc_through_seq x) floor))
               d2 pending = Ok (release d2)
  | _ => False
  end.

Lemma recovered_release_installs d edge d1 fate :
  predecessor_state fate = Closure_Owed d edge -> release_installs edge d d1 fate.
Proof.
  unfold predecessor_state, edge_owed. intros [= <- <-].
  destruct (rbf_predecessor fate) as [x|x] eqn:E; simpl.
  - unfold projection_apply_recovered_binding_fate. rewrite E. do 2 rewrite bool_decide_true by done.
    eexists. split; [done|]. split; [done|]. intros d2.
    unfold projection_complete_after_binding_fate, projection_completion_boundary. simpl.
    rewrite bool_decide_true, Z.eqb_refl by done. done.
  - unfold compaction_apply_recovered_binding_fate. rewrite E. do 2 rewrite bool_decide_true by done.
    destruct (pc_through_seq x <? rbf_resulting_floor fate); [by eexists|].
    eexists. split; [done|]. split; [done|]. intros d2 floor Hf.
    unfold compaction_complete_after_binding_fate, physical_completion_floor. simpl.
    apply Z.ltb_lt in Hf. by rewrite bool_decide_true, !Z.eqb_refl, Hf by done.
Qed.

(** ** Properties *)

(** C33: recovery authority has provenance: in any run of an episode a detached
    credential-recovery edge is either the one the run started with, or there was
    a moment when a delivered marker of the same conversation, participant and
    binding epoch awaited its acknowledgement and the fate of exactly that epoch
    was observed, and it is the edge created then. *)
Theorem recovery_provenance s tr d' r :
  edge_run s tr (Closure_Owed d' (SE_DetachedCredentialRecovery r)) ->
  (exists d, s = Closure_Owed d (SE_DetachedCredentialRecovery r))
  \/ exists tr1 tr2 d v f,
       tr = tr1 ++ Some (binding_fate_observed (dcr_participant_id r)
                           (dcr_prior_binding_epoch r) f) :: tr2
       /\ edge_run s tr1 (Closure_Owed d (SE_ParticipantCursorProgress (PCP_Marker v)))
       /\ r = mkDetachedCredentialRecovery (cpm_conversation_id v) (cpm_participant_id v)
                (cpm_marker_delivery_seq v) (cpm_binding_epoch v).
Proof.
  remember (Closure_Owed d' (SE_DetachedCredentialRecovery r)) as s' eqn:Es. intros Hrun.
  revert d' Es. induction Hrun as [|tr s1 ev s2 Hrun IH Hstep]; intros d' Es; [eauto|].
  subst s2. apply recovery_step in Hstep as [(d & e & -> & -> & _)|(d & v & f & -> & -> & ->)].
  - destruct (IH d eq_refl) as [?|(tr1 & tr2 & d1 & v & f & -> & Hr & Hv)]; [by left|].
    right. exists tr1, (tr2 ++ [Some e]), d1, v, f. rewrite <- app_assoc. done.
  - right. exists tr, [], d, v, f. done.
Qed.

(** A dead-end edge is left only by its owner's Leave: from a detached marker
    or cursor release every transition either is another participant's event,
    which keeps the edge while debt remains, or repeats the fate of the dead epoch
    and changes nothing, or is the owner's detached Leave, after which only storage
    work or nothing is owed; no attach and no acknowledgement is accepted. *)
Theorem leave_only_discharge d edge owner epoch ev s' :
  leave_only_edge edge = Some (owner, epoch) ->
  edge_step (Closure_Owed d edge) ev s' ->
  exists event, ev = Some event
  /\ ((exists p d', event_participant event = Some p /\ p <> owner
         /\ s' = preserve_or_clear d' edge)
      \/ (exists f, event = binding_fate_observed owner epoch f /\ s' = Closure_Owed d edge)
      \/ (exists f, event = detached_leave_committed owner f /\ storage_or_clear s')).
Proof.
  intros Hl Hstep.
  inversion Hstep as [| | | | | | | | | | | | | | | | | | | | | | | | | | | | | | |
    |? ? ? ? ? ? ? ? ? Hv Hc Hs|? ? ? ? Hs|? ? ? ? ? Hs
    |? ? ? ? ? ? ? ? ? Hv Hc Hs|? ? ? ? Hs|? ? ? ? ? Hs]; subst; simpl in Hl; try done;
    injection Hl as <- <-; eexists; (split; [done|]).
  1, 4: right; right; apply validate_detached_claim_spec in Hv as (_ & -> & ? & ? & ?);
    apply completion_storage in Hc; step_cases; breflect;
    destruct ev0 as [k0]; simpl in *; simplify_eq; eexists; split; eauto.
  1, 3: right; left; step_cases; breflect;
    match goal with H : bool_decide _ = true |- _ => apply bool_decide_eq_true in H end;
    destruct ev0; simpl in *; subst; by eexists.
  all: left; step_unfold; destruct (event_participant ev0) as [p|]; [|done];
    destruct (p =? _) eqn:Hp; [done|]; simplify_eq; breflect;
    exists p, d'; split; [done|]; split; done.
Qed.

(** Progress is strict: when a transition consumes a predecessor-bound
    successor (completion, append or Leave of a projection, completion or coverage
    of a compaction, a greater acknowledgement), the successor was minted for this
    very edge and event, what is owed next is what it names, it is no recovery
    edge, and its boundary lies strictly beyond the edge it repays. *)
Theorem successor_advances d edge ev u s' :
  minted u ->
  match edge with
  | SE_ObserverProjection e =>
      projection_complete e d ev u = Ok s' \/ projection_marker_appended e d ev u = Ok s'
      \/ leave_with_later_projection e d ev u = Ok s'
  | SE_PhysicalCompaction e =>
      compaction_complete e d ev u = Ok s' \/ covered_by_progress e d ev u = Ok s'
  | SE_ParticipantCursorProgress e => greater_ack e d ev u = Ok s'
  | _ => False
  end ->
  pcs_predecessor u = edge /\ pcs_event u = ev /\ s' = pcs_state u
  /\ match s' with
     | Closure_Clear => True
     | Closure_Owed _ edge' =>
         ~ is_recovery edge'
         /\ forall b b', edge_boundary edge = Some b -> edge_boundary edge' = Some b' -> b < b'
     end.
Proof.
  intros (b & Hb & Hs)%minted_spec H.
  assert (pcs_predecessor u = edge /\ pcs_event u = ev /\ s' = pcs_state u) as (<- & <- & ->).
  { destruct edge; try done; destruct_or?; step_cases; breflect;
      repeat match goal with H : bool_decide _ = true |- _ => apply bool_decide_eq_true in H end;
      done. }
  do 3 (split; [done|]). destruct (pcs_state u) as [|d' edge']; [done|].
  destruct Hs as [Hr Hs]. split; [done|]. intros b1 b' Hb1 Hb'. simplify_eq. by apply Hs.
Qed.

(** Physical compaction never overtakes a marker: while an edge waits on a
    marker, delivered or not, it accepts a compaction only if the compacted range
    ends before the marker and the floor stays at or below it, and it then keeps
    waiting on the same marker unless the whole debt is repaid. *)
Theorem marker_not_compacted d edge m from through floor s' :
  edge_marker edge = Some m ->
  edge_step (Closure_Owed d edge) (Some (mkEvent (EK_CompactionCompleted from through floor))) s' ->
  through < m /\ floor <= m /\ exists d', s' = preserve_or_clear d' edge.
Proof.
  intros Hm Hstep. inversion Hstep; subst; clear Hstep; simpl in Hm; try done; simplify_eq;
    step_unfold; try done.
  - destruct (_ && _) eqn:E; simpl in *; simplify_eq. breflect. split_and!; [done..|]. by exists d'.
  - destruct e; done.
  - unfold greater_ack_matches in *. simpl in *. by rewrite andb_false_r in *.
  - rewrite Hm in *. destruct (_ && _) eqn:E; simpl in *; simplify_eq. breflect.
    split_and!; [done..|]. by exists d'.
  - by destruct e.
  - by repeat case_match.
Qed.

(** Recovery and its failure: a fenced attach succeeds only for the delivered
    marker record detached at the recovery's epoch and raises the credential
    generation by exactly one.  If the binding it created dies in turn, the fate
    accepted is that of the new epoch, it preserves the storage edge the attach
    left, applying it to that edge is never refused, and completing the storage
    work installs the release of the new epoch: no second recovery edge. *)
Theorem recovered_binding_dies e record d ev c p ev2 fate :
  fenced_attach e record d ev c = Ok p ->
  recovered_binding_fate p ev2 = Ok fate ->
  mr_target_binding record = FB_Detached (dcr_prior_binding_epoch e)
  /\ mr_occurrence record = MRO_Delivered
  /\ mr_delivery_seq record = dcr_marker_delivery_seq e
  /\ capability_generation (fac_new_binding_epoch p)
     = capability_generation (dcr_prior_binding_epoch e) + 1
  /\ (exists f, ev2 = binding_fate_observed (dcr_participant_id e) (fac_new_binding_epoch p) f)
  /\ rbf_release fate = mkDetachedCursorRelease (dcr_participant_id e) (fac_new_binding_epoch p)
  /\ exists d0 edge, dc_into_state c = Closure_Owed d0 edge
     /\ forall d1, release_installs edge d0 d1 fate.
Proof.
  intros (_ & _ & Hseq & Hb & Ho & Hp & [Hg _]%is_next_generation_spec & Hn)%fenced_attach_Ok.
  intros (f & -> & Hpre & Hrel & _)%recovered_fate_Ok. rewrite Hp in *.
  do 4 (split; [done|]). split; [by eexists|]. split; [done|].
  rewrite <- Hn, <- Hpre. do 2 eexists. split; [done|]. intros d1.
  by apply recovered_release_installs.
Qed.

(** ** Witnesses *)

Definition example_incarnation : ConnectionIncarnation := mkConnectionIncarnation 1 4.
Definition dead_epoch : BindingEpoch := mkBindingEpoch example_incarnation 2.
Definition next_epoch : BindingEpoch := mkBindingEpoch example_incarnation 3.
Definition example_debt : ClosureDebt := mkClosureDebt (mkWRV 1 0).
Definition example_marker : MarkerDelivery := mkMarkerDelivery 11 7 dead_epoch 20.
Definition example_recovery : DetachedCredentialRecovery :=
  mkDetachedCredentialRecovery 11 7 20 dead_epoch.
Definition example_record : MarkerRecord :=
  mkMarkerRecord 11 7 20 (FB_Detached dead_epoch) MRO_Delivered.
Definition example_storage : DebtCompletion :=
  DebtCompletion_physical_compaction example_debt (mkPhysicalCompaction 3 9).
Definition example_commit : FencedAttachCommit :=
  mkFencedAttachCommit 11 7 20 dead_epoch next_epoch (dc_into_state example_storage).
Definition example_fate : RecoveredBindingFate :=
  mkRecoveredBindingFate 11 example_debt (RSE_PhysicalCompaction (mkPhysicalCompaction 3 9)) 5
    (mkDetachedCursorRelease 7 next_epoch).
Definition example_successor : ProjectionCompactionSuccessor :=
  mkSuccessor (SE_ObserverProjection (mkObserverProjection 9)) (projection_completed 9)
    SU_ObserverCompletion (Closure_Owed example_debt (SE_MarkerDelivery example_marker)).

(** An episode in which a marker is delivered, its binding dies and an unrelated
    participant leaves. *)
Lemma recovery_provenance_witness :
  exists tr1 tr2 d v f,
    [Some (event_marker_delivered 7 dead_epoch 20); Some (binding_fate_observed 7 dead_epoch 5);
     Some (detached_leave_committed 8 6)]
    = tr1 ++ Some (binding_fate_observed 7 dead_epoch f) :: tr2
    /\ edge_run (Closure_Owed example_debt (SE_MarkerDelivery example_marker)) tr1
         (Closure_Owed d (SE_ParticipantCursorProgress (PCP_Marker v)))
    /\ example_recovery = mkDetachedCredentialRecovery (cpm_conversation_id v)
         (cpm_participant_id v) (cpm_marker_delivery_seq v) (cpm_binding_epoch v).
Proof.
  destruct (recovery_provenance (Closure_Owed example_debt (SE_MarkerDelivery example_marker))
    [Some (event_marker_delivered 7 dead_epoch 20); Some (binding_fate_observed 7 dead_epoch 5);
     Some (detached_leave_committed 8 6)] example_debt example_recovery) as [[d Hd]|H].
  - apply (run_snoc _ [_; _] (Closure_Owed example_debt
      (SE_DetachedCredentialRecovery example_recovery)));
      [|by apply (step_recovery_unrelated _ _ _ (Some example_debt))].
    apply (run_snoc _ [_] (Closure_Owed example_debt (SE_ParticipantCursorProgress
      (PCP_Marker (mkCursorProgressMarker 11 7 dead_epoch 20 20)))));
      [|by apply (step_cursor_fate _ _ _ (CFS_DetachedCredentialRecovery example_recovery))].
    apply (run_snoc _ [] (Closure_Owed example_debt (SE_MarkerDelivery example_marker)));
      [apply run_nil|]. by apply step_marker_delivered.
  - discriminate Hd.
  - exact H.
Defined.

Lemma leave_only_discharge_witness :
  exists event, Some (detached_leave_committed 7 30) = Some event
  /\ ((exists p d', event_participant event = Some p /\ p <> 7
         /\ dc_into_state example_storage
            = preserve_or_clear d' (SE_DetachedCursorRelease (mkDetachedCursorRelease 7 dead_epoch)))
      \/ (exists f, event = binding_fate_observed 7 dead_epoch f
            /\ dc_into_state example_storage
               = Closure_Owed example_debt
                   (SE_DetachedCursorRelease (mkDetachedCursorRelease 7 dead_epoch)))
      \/ (exists f, event = detached_leave_committed 7 f
            /\ storage_or_clear (dc_into_state example_storage))).
Proof.
  apply (leave_only_discharge example_debt
    (SE_DetachedCursorRelease (mkDetachedCursorRelease 7 dead_epoch)) 7 dead_epoch
    (Some (detached_leave_committed 7 30))); [reflexivity|].
  apply (step_cursor_release_leave (mkDetachedCursorRelease 7 dead_epoch) example_debt
    (detached_leave_committed 7 30) (mkRV 1 40) (mkRV 2 64) 1
    (mkKClaim 7 (DCT_CursorRelease dead_epoch) (mkRV 1 40)) example_storage);
    [reflexivity|apply mint_compaction|reflexivity].
Defined.

Lemma successor_advances_witness :
  pcs_state example_successor = Closure_Owed example_debt (SE_MarkerDelivery example_marker)
  /\ 9 < 20.
Proof.
  destruct (successor_advances example_debt (SE_ObserverProjection (mkObserverProjection 9))
    (projection_completed 9) example_successor
    (Closure_Owed example_debt (SE_MarkerDelivery example_marker))) as (_ & _ & Hs & _ & Hb).
  - by apply (mint_projection_strict (mkObserverProjection 9) (projection_completed 9)
      example_debt (SE_MarkerDelivery example_marker) 20).
  - by left.
  - split; [done|]. by apply Hb.
Defined.

Lemma marker_not_compacted_witness :
  exists d', Closure_Owed example_debt (SE_MarkerDelivery example_marker)
             = preserve_or_clear d' (SE_MarkerDelivery example_marker).
Proof.
  apply (marker_not_compacted example_debt (SE_MarkerDelivery example_marker) 20 3 19 20);
    [reflexivity|]. by apply (step_marker_lower _ _ _ (Some example_debt)).
Defined.

Lemma recovered_binding_dies_witness :
  recovered_binding_fate example_commit (binding_fate_observed 7 next_epoch 5) = Ok example_fate
  /\ release_installs (SE_PhysicalCompaction (mkPhysicalCompaction 3 9)) example_debt example_debt
       example_fate.
Proof.
  split; [vm_compute; reflexivity|].
  destruct (recovered_binding_dies example_recovery example_record example_debt
    (fenced_recovery_committed 7 20 dead_epoch next_epoch 5) example_storage example_commit
    (binding_fate_observed 7 next_epoch 5) example_fate) as (_ & _ & _ & _ & _ & _ & d0 & x & H & Hi);
    [vm_compute; reflexivity..|].
  injection H as <- <-. apply Hi.
Defined.
