(* ===== verification/Member.v ===== *)
(** * Live members and retired identities

    Model of the identity half of [liminal-protocol/src/lifecycle/membership.rs]:
    live membership with its permanent enrollment and terminal history, the cursor
    and credential updates, and the permanent tombstone a Leave installs.  The
    fingerprint and verifier types belong to the consuming layer and are parameters,
    as they are type parameters of the source. *)
From coqutil Require Import Byte.
From S2P Require Import Prelude Algebra Tags Wire Response Binding.

Record EnrollmentFingerprint (F : Type) := mkEnrollmentFingerprint { ef_value : F }.
Record LeaveFingerprint (F : Type) := mkLeaveFingerprint { lf_value : F }.
Arguments mkEnrollmentFingerprint {F} _.
Arguments ef_value {F} _.
Arguments mkLeaveFingerprint {F} _.
Arguments lf_value {F} _.

Record LiveMemberRestore (F : Type) := mkLiveMemberRestore {
  lmr_participant_id : ParticipantId;
  lmr_conversation_id : ConversationId;
  lmr_generation : Generation;
  lmr_attach_secret : AttachSecret;
  lmr_cursor : DeliverySeq;
  lmr_enrollment_fingerprint : EnrollmentFingerprint F;
  lmr_latest_terminal : option CommittedBindingTerminal;
}.
Record LiveMember (F : Type) := mkLiveMember {
  lm_participant_id : ParticipantId;
  lm_conversation_id : ConversationId;
  lm_generation : Generation;
  lm_attach_secret : AttachSecret;
  lm_cursor : DeliverySeq;
  lm_enrollment_fingerprint : EnrollmentFingerprint F;
  lm_latest_terminal : option CommittedBindingTerminal;
}.
Arguments mkLiveMemberRestore {F}.
Arguments lmr_participant_id {F} _.
Arguments lmr_conversation_id {F} _.
Arguments lmr_generation {F} _.
Arguments lmr_attach_secret {F} _.
Arguments lmr_cursor {F} _.
Arguments lmr_enrollment_fingerprint {F} _.
Arguments lmr_latest_terminal {F} _.
Arguments mkLiveMember {F}.
Arguments lm_participant_id {F} _.
Arguments lm_conversation_id {F} _.
Arguments lm_generation {F} _.
Arguments lm_attach_secret {F} _.
Arguments lm_cursor {F} _.
Arguments lm_enrollment_fingerprint {F} _.
Arguments lm_latest_terminal {F} _.

Inductive MembershipInvariantError := MIE_TerminalIdentity | MIE_TerminalGeneration.

Record LiveMemberCursorUpdate := mkLiveMemberCursorUpdate {
  lcu_conversation_id : ConversationId;
  lcu_participant_id : ParticipantId;
  lcu_generation : Generation;
  lcu_from_cursor : DeliverySeq;
  lcu_resulting_cursor : DeliverySeq;
}.
Inductive LiveMemberCursorUpdateError :=
| LCE_Conversation (expected actual : ConversationId)
| LCE_Participant (expected actual : ParticipantId)
| LCE_Generation (expected actual : Generation)
| LCE_NonAdvancing (from_cursor resulting_cursor : DeliverySeq)
| LCE_CursorPrestate (expected_from_cursor resulting_cursor actual_cursor : DeliverySeq).

Definition validate_terminal (participant_id : ParticipantId) (conversation_id : ConversationId)
    (generation : Generation) (terminal : option CommittedBindingTerminal)
    : result unit MembershipInvariantError :=
  match terminal with
  | None => Ok tt
  | Some terminal =>
      if negb (cbt_participant_id terminal =? participant_id)
         || negb (cbt_conversation_id terminal =? conversation_id)
      then Err MIE_TerminalIdentity
      else if generation <? capability_generation (cbt_binding_epoch terminal)
      then Err MIE_TerminalGeneration
      else Ok tt
  end.

Section LiveMember.
Context {F : Type}.

Definition LiveMember_restore (state : LiveMemberRestore F)
    : result (LiveMember F) MembershipInvariantError :=
  let? _ := validate_terminal (lmr_participant_id state) (lmr_conversation_id state)
              (lmr_generation state) (lmr_latest_terminal state) in
  Ok (mkLiveMember (lmr_participant_id state) (lmr_conversation_id state) (lmr_generation state)
        (lmr_attach_secret state) (lmr_cursor state) (lmr_enrollment_fingerprint state)
        (lmr_latest_terminal state)).

Definition from_enrollment (participant_id : ParticipantId) (conversation_id : ConversationId)
    (attach_secret : AttachSecret) (enrollment_fingerprint : EnrollmentFingerprint F)
    : LiveMember F :=
  mkLiveMember participant_id conversation_id Generation_ONE attach_secret 0
    enrollment_fingerprint None.

(** [&mut self]: the member left, and the result. *)
Definition apply_cursor_update (m : LiveMember F) (update : LiveMemberCursorUpdate)
    : LiveMember F * result unit LiveMemberCursorUpdateError :=
  if negb (lm_conversation_id m =? lcu_conversation_id update)
  then (m, Err (LCE_Conversation (lcu_conversation_id update) (lm_conversation_id m)))
  else if negb (lm_participant_id m =? lcu_participant_id update)
  then (m, Err (LCE_Participant (lcu_participant_id update) (lm_participant_id m)))
  else if negb (lm_generation m =? lcu_generation update)
  then (m, Err (LCE_Generation (lcu_generation update) (lm_generation m)))
  else if lcu_resulting_cursor update <=? lcu_from_cursor update
  then (m, Err (LCE_NonAdvancing (lcu_from_cursor update) (lcu_resulting_cursor update)))
  else if lm_cursor m =? lcu_resulting_cursor update then (m, Ok tt)
  else if negb (lm_cursor m =? lcu_from_cursor update)
  then (m, Err (LCE_CursorPrestate (lcu_from_cursor update) (lcu_resulting_cursor update)
                  (lm_cursor m)))
  else (mkLiveMember (lm_participant_id m) (lm_conversation_id m) (lm_generation m)
          (lm_attach_secret m) (lcu_resulting_cursor update) (lm_enrollment_fingerprint m)
          (lm_latest_terminal m), Ok tt).

Definition with_committed_terminal (m : LiveMember F) (terminal : CommittedBindingTerminal)
    : result (LiveMember F) MembershipInvariantError :=
  let? _ := validate_terminal (lm_participant_id m) (lm_conversation_id m) (lm_generation m)
              (Some terminal) in
  Ok (mkLiveMember (lm_participant_id m) (lm_conversation_id m) (lm_generation m)
        (lm_attach_secret m) (lm_cursor m) (lm_enrollment_fingerprint m) (Some terminal)).

Definition rotate (m : LiveMember F) (generation : Generation) (attach_secret : AttachSecret)
    (cursor : DeliverySeq) (terminal : option CommittedBindingTerminal)
    : result (LiveMember F) MembershipInvariantError :=
  let latest_terminal :=
    match terminal with Some t => Some t | None => lm_latest_terminal m end in
  let? _ := validate_terminal (lm_participant_id m) (lm_conversation_id m) generation
              latest_terminal in
  Ok (mkLiveMember (lm_participant_id m) (lm_conversation_id m) generation attach_secret cursor
        (lm_enrollment_fingerprint m) latest_terminal).

End LiveMember.

(** ** Tombstones *)

Inductive RetirementError :=
| RTE_Conversation | RTE_Participant | RTE_Generation | RTE_RetiredGeneration | RTE_Token
| RTE_LeftAdmissionOrder.

Inductive LeaveVerificationError := LVE_Conversation | LVE_Participant | LVE_Generation | LVE_Secret.

(** [lookup.rs]: the consuming layer's constant-time comparison. *)
Inductive AttachSecretProof := ASP_Mismatch | ASP_Verified.

Record RetiredIdentity (EF V LF : Type) := mkRetiredIdentity {
  ri_participant_id : ParticipantId;
  ri_conversation_id : ConversationId;
  ri_retired_generation : Generation;
  ri_enrollment_fingerprint : EnrollmentFingerprint EF;
  ri_leave_attempt_token : LeaveAttemptToken;
  ri_leave_request_verifier : V;
  ri_leave_fingerprint : LeaveFingerprint LF;
  ri_left_admission_order : AdmissionOrder;
  ri_committed_result : LeaveCommitted;
}.
Arguments mkRetiredIdentity {EF V LF}.
Arguments ri_participant_id {EF V LF} _.
Arguments ri_conversation_id {EF V LF} _.
Arguments ri_retired_generation {EF V LF} _.
Arguments ri_enrollment_fingerprint {EF V LF} _.
Arguments ri_leave_attempt_token {EF V LF} _.
Arguments ri_leave_request_verifier {EF V LF} _.
Arguments ri_leave_fingerprint {EF V LF} _.
Arguments ri_left_admission_order {EF V LF} _.
Arguments ri_committed_result {EF V LF} _.

Inductive IdentityState (EF V LF : Type) :=
| IS_Live (member : LiveMember EF)
| IS_Retired (retired : RetiredIdentity EF V LF).
Arguments IS_Live {EF V LF} _.
Arguments IS_Retired {EF V LF} _.

Record VerifiedLeaveRequest (V LF : Type) := mkVerifiedLeaveRequest {
  vlr_conversation_id : ConversationId;
  vlr_participant_id : ParticipantId;
  vlr_generation : Generation;
  vlr_leave_attempt_token : LeaveAttemptToken;
  vlr_leave_request_verifier : V;
  vlr_leave_fingerprint : LeaveFingerprint LF;
}.
Arguments mkVerifiedLeaveRequest {V LF}.
Arguments vlr_conversation_id {V LF} _.
Arguments vlr_participant_id {V LF} _.
Arguments vlr_generation {V LF} _.
Arguments vlr_leave_attempt_token {V LF} _.
Arguments vlr_leave_request_verifier {V LF} _.
Arguments vlr_leave_fingerprint {V LF} _.

#[export] Instance AttachSecretProof_eq_dec : EqDecision AttachSecretProof.
Proof. solve_decision. Defined.
#[export] Instance token_eq_dec : EqDecision (list byte) := list_eq_dec (dec := Byte.byte_eq_dec).

(** Both accessors of a committed Leave read the one stored generation. *)
Definition lc_presented_generation (v : LeaveCommitted) : Generation := lc_retired_generation v.

Definition token_eqb (a b : Token) : bool := bool_decide (a = b).

Section Retirement.
Context {EF V LF : Type}.

Definition RetiredIdentity_restore (participant_id : ParticipantId)
    (conversation_id : ConversationId) (retired_generation : Generation)
    (enrollment_fingerprint : EnrollmentFingerprint EF) (leave_attempt_token : LeaveAttemptToken)
    (leave_request_verifier : V) (leave_fingerprint : LeaveFingerprint LF)
    (left_transaction_order : TransactionOrder) (committed_result : LeaveCommitted)
    : result (RetiredIdentity EF V LF) RetirementError :=
  if negb (lc_conversation_id committed_result =? conversation_id) then Err RTE_Conversation
  else if negb (lc_participant_id committed_result =? participant_id) then Err RTE_Participant
  else if negb (lc_presented_generation committed_result =? retired_generation)
  then Err RTE_Generation
  else if negb (lc_retired_generation committed_result =? retired_generation)
  then Err RTE_RetiredGeneration
  else if negb (token_eqb (lc_leave_attempt_token committed_result) leave_attempt_token)
  then Err RTE_Token
  else Ok (mkRetiredIdentity participant_id conversation_id retired_generation
             enrollment_fingerprint leave_attempt_token leave_request_verifier leave_fingerprint
             (mkAdmissionOrder left_transaction_order CP_MembershipExit participant_id)
             committed_result).

Definition verify_leave_request (m : LiveMember EF) (request : LeaveRequest)
    (secret_proof : AttachSecretProof) (leave_request_verifier : V)
    (leave_fingerprint : LeaveFingerprint LF)
    : result (VerifiedLeaveRequest V LF) LeaveVerificationError :=
  if negb (lr_conversation_id request =? lm_conversation_id m) then Err LVE_Conversation
  else if negb (lr_participant_id request =? lm_participant_id m) then Err LVE_Participant
  else if negb (lr_capability_generation request =? lm_generation m) then Err LVE_Generation
  else match secret_proof with
  | ASP_Mismatch => Err LVE_Secret
  | ASP_Verified =>
      Ok (mkVerifiedLeaveRequest (lr_conversation_id request) (lr_participant_id request)
            (lr_capability_generation request) (lr_leave_attempt_token request)
            leave_request_verifier leave_fingerprint)
  end.

Definition retire (m : LiveMember EF) (leave_attempt_token : LeaveAttemptToken)
    (leave_request_verifier : V) (leave_fingerprint : LeaveFingerprint LF)
    (left_admission_order : AdmissionOrder) (committed_result : LeaveCommitted)
    : result (RetiredIdentity EF V LF) RetirementError :=
  if negb (lc_conversation_id committed_result =? lm_conversation_id m)
  then Err RTE_Conversation
  else if negb (lc_participant_id committed_result =? lm_participant_id m)
  then Err RTE_Participant
  else if negb (lc_presented_generation committed_result =? lm_generation m)
  then Err RTE_Generation
  else if negb (lc_retired_generation committed_result =? lm_generation m)
  then Err RTE_RetiredGeneration
  else if negb (token_eqb (lc_leave_attempt_token committed_result) leave_attempt_token)
  then Err RTE_Token
  else if negb (bool_decide (ao_candidate_phase left_admission_order = CP_MembershipExit))
          || negb (ao_participant_index left_admission_order =? lm_participant_id m)
  then Err RTE_LeftAdmissionOrder
  else Ok (mkRetiredIdentity (lm_participant_id m) (lm_conversation_id m)
             (lc_retired_generation committed_result) (lm_enrollment_fingerprint m)
             leave_attempt_token leave_request_verifier leave_fingerprint left_admission_order
             committed_result).

End Retirement.
