(* ===== verification/Detach.v ===== *)
(** * The detach cell

    Model of [liminal-protocol/src/lifecycle/detach.rs]: the four-state detach cell
    of an identity slot, the committed and blocked detach transactions, the
    completion and replay of a pending detach and the exact replay of stored
    requests.  The request verifier is a type of the consuming layer with decidable
    equality. *)
From coqutil Require Import Byte.
From S2P Require Import Prelude Algebra Tags Wire Response Binding Member.

Record PendingDetach (V : Type) := mkPendingDetach {
  pdt_token : DetachAttemptToken;
  pdt_participant_id : ParticipantId;
  pdt_request_generation : Generation;
  pdt_request_verifier : V;
  pdt_committed_binding_epoch : BindingEpoch;
  pdt_admission_order : AdmissionOrder;
  pdt_refused_epoch : ObserverEpoch;
}.
Record CommittedDetach (V : Type) := mkCommittedDetach {
  cdh_token : DetachAttemptToken;
  cdh_participant_id : ParticipantId;
  cdh_request_generation : Generation;
  cdh_request_verifier : V;
  cdh_committed_binding_epoch : BindingEpoch;
  cdh_detached_delivery_seq : DeliverySeq;
}.
Record TerminalizedDetach (V : Type) := mkTerminalizedDetach {
  tdh_token : DetachAttemptToken;
  tdh_participant_id : ParticipantId;
  tdh_request_generation : Generation;
  tdh_request_verifier : V;
  tdh_committed_binding_epoch : BindingEpoch;
}.
Arguments mkPendingDetach {V}.
Arguments pdt_token {V} _.
Arguments pdt_participant_id {V} _.
Arguments pdt_request_generation {V} _.
Arguments pdt_request_verifier {V} _.
Arguments pdt_committed_binding_epoch {V} _.
Arguments pdt_admission_order {V} _.
Arguments pdt_refused_epoch {V} _.
Arguments mkCommittedDetach {V}.
Arguments cdh_token {V} _.
Arguments cdh_participant_id {V} _.
Arguments cdh_request_generation {V} _.
Arguments cdh_request_verifier {V} _.
Arguments cdh_committed_binding_epoch {V} _.
Arguments cdh_detached_delivery_seq {V} _.
Arguments mkTerminalizedDetach {V}.
Arguments tdh_token {V} _.
Arguments tdh_participant_id {V} _.
Arguments tdh_request_generation {V} _.
Arguments tdh_request_verifier {V} _.
Arguments tdh_committed_binding_epoch {V} _.

Inductive DetachCell (V : Type) :=
| DC_Empty
| DC_Pending (cell : PendingDetach V)
| DC_Committed (cell : CommittedDetach V)
| DC_Terminalized (cell : TerminalizedDetach V).
Arguments DC_Empty {V}.
Arguments DC_Pending {V} _.
Arguments DC_Committed {V} _.
Arguments DC_Terminalized {V} _.

Inductive DetachVerificationError := DVE_Conversation | DVE_Participant | DVE_Generation.
Inductive DetachReplayError :=
| DRE_Token | DRE_Participant | DRE_Generation | DRE_RequestVerifier | DRE_StatePair
| DRE_MembershipAuthority
| DRE_TerminalHistory (e : MembershipInvariantError).
Inductive DetachCommitError :=
| DCE_PendingCell | DCE_CommittedCell | DCE_TerminalizedCellAuthority | DCE_MembershipAuthority
| DCE_TerminalHistory (e : MembershipInvariantError).
Inductive PendingDrainDecision :=
| PDD_NotAttempted | PDD_StillBlocked
| PDD_Committed (detached_delivery_seq : DeliverySeq).
Inductive PendingReplayError :=
| PRX_ObserverProgressRegression | PRX_DrainRequired | PRX_UnexpectedDrain | PRX_StatePair
| PRX_MembershipAuthority
| PRX_TerminalHistory (e : MembershipInvariantError).
#[export] Instance PendingDrainDecision_eq_dec : EqDecision PendingDrainDecision.
Proof. unfold DeliverySeq in *. solve_decision. Defined.

Record CommittedDetachTransition (EF V : Type) := mkCommittedDetachTransition {
  cdx_member : LiveMember EF;
  cdx_terminal : CommittedDetachedTerminal;
  cdx_binding_state : BindingState;
  cdx_cell : CommittedDetach V;
  cdx_outcome : DetachCommitted;
}.
Record PendingDetachTransition (EF V : Type) := mkPendingDetachTransition {
  pdx_member : LiveMember EF;
  pdx_binding_state : BindingState;
  pdx_cell : PendingDetach V;
  pdx_outcome : ObserverBackpressure;
}.
Arguments mkCommittedDetachTransition {EF V}.
Arguments cdx_member {EF V} _.
Arguments cdx_terminal {EF V} _.
Arguments cdx_binding_state {EF V} _.
Arguments cdx_cell {EF V} _.
Arguments cdx_outcome {EF V} _.
Arguments mkPendingDetachTransition {EF V}.
Arguments pdx_member {EF V} _.
Arguments pdx_binding_state {EF V} _.
Arguments pdx_cell {EF V} _.
Arguments pdx_outcome {EF V} _.

Inductive PendingReplay (EF V : Type) :=
| PRP_Pending (member : LiveMember EF) (binding_state : BindingState) (cell : PendingDetach V)
    (outcome : ObserverBackpressure)
| PRP_Committed (member : LiveMember EF) (terminal : CommittedDetachedTerminal)
    (binding_state : BindingState) (cell : CommittedDetach V) (outcome : DetachCommitted).
Arguments PRP_Pending {EF V}.
Arguments PRP_Committed {EF V}.

Record VerifiedDetachRequest (V : Type) := mkVerifiedDetachRequest {
  vdr_binding : ActiveBinding;
  vdr_request : DetachRequest;
  vdr_request_verifier : V;
}.
Record PendingReplayRequest (V : Type) := mkPendingReplayRequest {
  prq_conversation_id : ConversationId;
  prq_binding_state : BindingState;
  prq_cell : PendingDetach V;
  prq_observer_progress : DeliverySeq;
}.
Arguments mkVerifiedDetachRequest {V}.
Arguments vdr_binding {V} _.
Arguments vdr_request {V} _.
Arguments vdr_request_verifier {V} _.
Arguments mkPendingReplayRequest {V}.
Arguments prq_conversation_id {V} _.
Arguments prq_binding_state {V} _.
Arguments prq_cell {V} _.
Arguments prq_observer_progress {V} _.

(** [TerminalizedDetachCell::from_terminalized_state] of [wire/response.rs]. *)
Definition from_terminalized_state {V} (state : TerminalizedDetach V)
    (conversation_id : ConversationId) (current_generation : Generation)
    (binding_state : BindingStateView) : TerminalizedDetachCell :=
  mkTerminalizedDetachCell conversation_id (tdh_participant_id state)
    (tdh_request_generation state) (tdh_token state) current_generation
    (tdh_committed_binding_epoch state) binding_state.

Section Detach.
Context {EF V : Type} `{!EqDecision V}.

(** ** Restoration *)

Definition restore_pending_detach (token : DetachAttemptToken) (participant_id : ParticipantId)
    (request_generation : Generation) (request_verifier : V)
    (committed_binding_epoch : BindingEpoch) (admission_order : AdmissionOrder)
    (refused_epoch : ObserverEpoch) : option (PendingDetach V) :=
  if negb (capability_generation committed_binding_epoch =? request_generation)
     || negb (ao_participant_index admission_order =? participant_id)
     || negb (bool_decide (ao_candidate_phase admission_order = CP_BindingTerminal))
  then None
  else Some (mkPendingDetach token participant_id request_generation request_verifier
               committed_binding_epoch admission_order refused_epoch).

Definition restore_committed_detach (token : DetachAttemptToken) (participant_id : ParticipantId)
    (request_generation : Generation) (request_verifier : V)
    (committed_binding_epoch : BindingEpoch) (detached_delivery_seq : DeliverySeq)
    : option (CommittedDetach V) :=
  if negb (capability_generation committed_binding_epoch =? request_generation) then None
  else Some (mkCommittedDetach token participant_id request_generation request_verifier
               committed_binding_epoch detached_delivery_seq).

Definition restore_terminalized_detach (token : DetachAttemptToken)
    (participant_id : ParticipantId) (request_generation : Generation) (request_verifier : V)
    (committed_binding_epoch : BindingEpoch) : option (TerminalizedDetach V) :=
  if negb (capability_generation committed_binding_epoch =? request_generation) then None
  else Some (mkTerminalizedDetach token participant_id request_generation request_verifier
               committed_binding_epoch).

Definition into_terminalized (c : DetachCell V) : option (TerminalizedDetach V) :=
  match c with DC_Terminalized cell => Some cell | _ => None end.

(** ** Checks *)

Definition verify_detach_request (b : ActiveBinding) (request : DetachRequest)
    (request_verifier : V) : result (VerifiedDetachRequest V) DetachVerificationError :=
  if negb (dr_conversation_id request =? bnd_conversation_id b) then Err DVE_Conversation
  else if negb (dr_participant_id request =? bnd_participant_id b) then Err DVE_Participant
  else if negb (dr_capability_generation request
                =? capability_generation (bnd_binding_epoch b)) then Err DVE_Generation
  else Ok (mkVerifiedDetachRequest b request request_verifier).

Definition validate_pending_pair (binding_state : BindingState) (cell : PendingDetach V)
    (expected_conversation_id : option ConversationId)
    : result PendingFinalization DetachReplayError :=
  match binding_state with
  | BS_PendingFinalization finalization =>
      let conversation_mismatch :=
        match expected_conversation_id with
        | Some conversation_id => negb (pf_conversation_id finalization =? conversation_id)
        | None => false
        end in
      if conversation_mismatch
         || negb (pf_participant_id finalization =? pdt_participant_id cell)
         || negb (bool_decide (pf_binding_epoch finalization = pdt_committed_binding_epoch cell))
         || negb (bool_decide (pf_admission_order finalization = pdt_admission_order cell))
         || negb (bool_decide (pf_detached_cause finalization = Some DTC_CleanDeregister))
      then Err DRE_StatePair
      else Ok finalization
  | _ => Err DRE_StatePair
  end.

Definition validate_member_authority (m : LiveMember EF) (binding : ActiveBinding)
    : result unit DetachReplayError :=
  if negb (lm_participant_id m =? bnd_participant_id binding)
     || negb (lm_conversation_id m =? bnd_conversation_id binding)
     || negb (lm_generation m =? capability_generation (bnd_binding_epoch binding))
  then Err DRE_MembershipAuthority
  else Ok tt.

Definition validate_previous_cell (m : LiveMember EF) (cell : DetachCell V)
    : result unit DetachCommitError :=
  match cell with
  | DC_Empty => Ok tt
  | DC_Pending _ => Err DCE_PendingCell
  | DC_Committed _ => Err DCE_CommittedCell
  | DC_Terminalized cell =>
      if negb (tdh_participant_id cell =? lm_participant_id m)
         || (lm_generation m <=? tdh_request_generation cell)
      then Err DCE_TerminalizedCellAuthority
      else Ok tt
  end.

Definition validate_member_finalization (m : LiveMember EF) (finalization : PendingFinalization)
    : result unit DetachReplayError :=
  if negb (lm_participant_id m =? pf_participant_id finalization)
     || negb (lm_conversation_id m =? pf_conversation_id finalization)
     || negb (lm_generation m =? capability_generation (pf_binding_epoch finalization))
  then Err DRE_MembershipAuthority
  else Ok tt.

Definition verify_stored_request (token : DetachAttemptToken) (participant_id : ParticipantId)
    (request_generation : Generation) (stored_verifier : V) (request : DetachRequest)
    (request_verifier : V) : result unit DetachReplayError :=
  if negb (token_eqb (dr_detach_attempt_token request) token) then Err DRE_Token
  else if negb (dr_participant_id request =? participant_id) then Err DRE_Participant
  else if negb (dr_capability_generation request =? request_generation) then Err DRE_Generation
  else if negb (bool_decide (request_verifier = stored_verifier)) then Err DRE_RequestVerifier
  else Ok tt.

(** ** Cells *)

(** The three [verify_exact] methods; a verified borrow is the cell itself. *)
Definition pending_verify_exact (c : PendingDetach V) (request : DetachRequest)
    (request_verifier : V) : result (PendingDetach V) DetachReplayError :=
  let? _ := verify_stored_request (pdt_token c) (pdt_participant_id c) (pdt_request_generation c)
              (pdt_request_verifier c) request request_verifier in
  Ok c.
Definition committed_verify_exact (c : CommittedDetach V) (request : DetachRequest)
    (request_verifier : V) : result (CommittedDetach V) DetachReplayError :=
  let? _ := verify_stored_request (cdh_token c) (cdh_participant_id c) (cdh_request_generation c)
              (cdh_request_verifier c) request request_verifier in
  Ok c.
Definition terminalized_verify_exact (c : TerminalizedDetach V) (request : DetachRequest)
    (request_verifier : V) : result (TerminalizedDetach V) DetachReplayError :=
  let? _ := verify_stored_request (tdh_token c) (tdh_participant_id c) (tdh_request_generation c)
              (tdh_request_verifier c) request request_verifier in
  Ok c.

Definition competing_attempt (c : PendingDetach V) (conversation_id : ConversationId)
    (presented_token : DetachAttemptToken) (presented_generation : Generation)
    : DetachInProgress :=
  mkDetachInProgress conversation_id (pdt_participant_id c) presented_token presented_generation
    (pdt_committed_binding_epoch c).

Definition backpressure (c : PendingDetach V) (conversation_id : ConversationId)
    (observer_progress : DeliverySeq) : ObserverBackpressure :=
  OB_Detach (mkDetachEnvelope conversation_id (pdt_participant_id c) (pdt_request_generation c)
               (pdt_token c))
    (pdt_committed_binding_epoch c) (ObserverBackpressureState_initial observer_progress).

Definition pending_commit (c : PendingDetach V) (detached_delivery_seq : DeliverySeq)
    : CommittedDetach V :=
  mkCommittedDetach (pdt_token c) (pdt_participant_id c) (pdt_request_generation c)
    (pdt_request_verifier c) (pdt_committed_binding_epoch c) detached_delivery_seq.

Definition pending_terminalize_after_attach (c : PendingDetach V) : TerminalizedDetach V :=
  mkTerminalizedDetach (pdt_token c) (pdt_participant_id c) (pdt_request_generation c)
    (pdt_request_verifier c) (pdt_committed_binding_epoch c).
Definition committed_terminalize_after_attach (c : CommittedDetach V) : TerminalizedDetach V :=
  mkTerminalizedDetach (cdh_token c) (cdh_participant_id c) (cdh_request_generation c)
    (cdh_request_verifier c) (cdh_committed_binding_epoch c).

Definition committed_outcome (c : CommittedDetach V) (conversation_id : ConversationId)
    : DetachCommitted :=
  mkDetachCommitted conversation_id (cdh_participant_id c) (cdh_token c)
    (cdh_committed_binding_epoch c) (cdh_detached_delivery_seq c).

Definition prepare_replay (c : PendingDetach V) (conversation_id : ConversationId)
    (binding_state : BindingState) (observer_progress : DeliverySeq) : PendingReplayRequest V :=
  mkPendingReplayRequest conversation_id binding_state c observer_progress.

(** ** Transactions *)

Definition commit_detach (m : LiveMember EF) (verified : VerifiedDetachRequest V)
    (previous_cell : DetachCell V) (position : CommittedBindingTerminalPosition)
    : result (CommittedDetachTransition EF V) DetachCommitError :=
  let? _ := validate_previous_cell m previous_cell in
  let binding := vdr_binding verified in
  let request := vdr_request verified in
  let? _ := map_err (fun _ => DCE_MembershipAuthority) (validate_member_authority m binding) in
  let terminal := commit_clean_deregister binding position in
  let? member := map_err DCE_TerminalHistory
                   (with_committed_terminal m (CBT_Detached terminal)) in
  let cell := mkCommittedDetach (dr_detach_attempt_token request) (dr_participant_id request)
                (dr_capability_generation request) (vdr_request_verifier verified)
                (bnd_binding_epoch binding) (cbp_delivery_seq position) in
  let outcome := committed_outcome cell (dr_conversation_id request) in
  Ok (mkCommittedDetachTransition member terminal BS_Detached cell outcome).

Definition start_blocked_detach (m : LiveMember EF) (verified : VerifiedDetachRequest V)
    (previous_cell : DetachCell V) (position : PendingBindingTerminalPosition)
    (observer_progress : DeliverySeq)
    : result (PendingDetachTransition EF V) DetachCommitError :=
  let? _ := validate_previous_cell m previous_cell in
  let binding := vdr_binding verified in
  let request := vdr_request verified in
  let? _ := map_err (fun _ => DCE_MembershipAuthority) (validate_member_authority m binding) in
  let pending := pending_clean_deregister binding position in
  let admission_order := bti_admission_order (pdf_identity pending) in
  let finalization := PF_Detached pending in
  let cell := mkPendingDetach (dr_detach_attempt_token request) (dr_participant_id request)
                (dr_capability_generation request) (vdr_request_verifier verified)
                (bnd_binding_epoch binding) admission_order observer_progress in
  let outcome := backpressure cell (bnd_conversation_id binding) observer_progress in
  Ok (mkPendingDetachTransition m (BS_PendingFinalization finalization) cell outcome).

Definition complete_pending_detach (m : LiveMember EF) (binding_state : BindingState)
    (cell : PendingDetach V) (detached_delivery_seq : DeliverySeq)
    : result (CommittedDetachTransition EF V) DetachReplayError :=
  let? finalization := validate_pending_pair binding_state cell None in
  let? _ := validate_member_finalization m finalization in
  match finalization with
  | PF_Detached pending =>
      let terminal := pdf_commit pending detached_delivery_seq in
      let? member := map_err DRE_TerminalHistory
                       (with_committed_terminal m (CBT_Detached terminal)) in
      let committed := pending_commit cell detached_delivery_seq in
      let outcome := committed_outcome committed (pf_conversation_id finalization) in
      Ok (mkCommittedDetachTransition member terminal BS_Detached committed outcome)
  | PF_Died _ => Err DRE_StatePair
  end.

Definition map_pending_replay_error (error : DetachReplayError) : PendingReplayError :=
  match error with
  | DRE_MembershipAuthority => PRX_MembershipAuthority
  | DRE_TerminalHistory error => PRX_TerminalHistory error
  | DRE_Token | DRE_Participant | DRE_Generation | DRE_RequestVerifier | DRE_StatePair =>
      PRX_StatePair
  end.

(** [PendingReplayRequest::apply]. *)
Definition replay_apply (r : PendingReplayRequest V) (m : LiveMember EF)
    (decision : PendingDrainDecision) : result (PendingReplay EF V) PendingReplayError :=
  let cell := prq_cell r in
  let? finalization := map_err (fun _ => PRX_StatePair)
    (validate_pending_pair (prq_binding_state r) cell (Some (prq_conversation_id r))) in
  let? _ := map_err (fun _ => PRX_MembershipAuthority)
    (validate_member_finalization m finalization) in
  if prq_observer_progress r <? pdt_refused_epoch cell then Err PRX_ObserverProgressRegression
  else if prq_observer_progress r =? pdt_refused_epoch cell then
    if negb (bool_decide (decision = PDD_NotAttempted)) then Err PRX_UnexpectedDrain
    else Ok (PRP_Pending m (prq_binding_state r) cell
               (backpressure cell (prq_conversation_id r) (prq_observer_progress r)))
  else
    match decision with
    | PDD_NotAttempted => Err PRX_DrainRequired
    | PDD_StillBlocked =>
        let cell := mkPendingDetach (pdt_token cell) (pdt_participant_id cell)
                      (pdt_request_generation cell) (pdt_request_verifier cell)
                      (pdt_committed_binding_epoch cell) (pdt_admission_order cell)
                      (prq_observer_progress r) in
        Ok (PRP_Pending m (prq_binding_state r) cell
              (backpressure cell (prq_conversation_id r) (prq_observer_progress r)))
    | PDD_Committed detached_delivery_seq =>
        match complete_pending_detach m (prq_binding_state r) cell detached_delivery_seq with
        | Ok t => Ok (PRP_Committed (cdx_member t) (cdx_terminal t) (cdx_binding_state t)
                        (cdx_cell t) (cdx_outcome t))
        | Err e => Err (map_pending_replay_error e)
        end
    end.

End Detach.
