(* ===== verification/Leave.v ===== *)
(** * Leave

    Model of the Leave half of [liminal-protocol/src/lifecycle/membership.rs]: the
    prepared order authority, the settled and positional Leave transactions and the
    tombstone they install.  The transactions carry the claim frontiers along and
    relay their claims; what they need of the frontiers is the interface
    [LeaveFrontier]. *)
From coqutil Require Import Byte.
From S2P Require Import Prelude Algebra Tags Wire Response Binding Member Detach.

Inductive LeaveCommitError :=
| LCM_PreparedAuthority | LCM_VerifiedAuthority | LCM_BindingAuthority
| LCM_PendingTerminalRequiresComposition | LCM_NoInterveningTuple | LCM_PendingDetachState
| LCM_TerminalHistory | LCM_TerminalSequenceOrder | LCM_SequenceAuthority | LCM_ResultingFrontier
| LCM_RetirementInvariant (e : RetirementError).

(** What Leave asks of the claim frontiers of the conversation
    ([ClaimFrontiers::finish_leave_claims]). *)
Class LeaveFrontier (Fr : Type) := {
  finish_leave_claims : Fr -> ParticipantId -> option BindingEpoch ->
    option CommittedBindingTerminal -> DeliverySeq -> TransactionOrder ->
    result Fr LeaveCommitError;
}.

Record NoInterveningTupleProof := mkNoInterveningTupleProof {
  nit_pending_order : AdmissionOrder;
  nit_left_transaction_order : TransactionOrder;
}.
(** [NoInterveningTupleProof::matches]. *)
Definition no_intervening_matches (p : NoInterveningTupleProof) (pending : PendingFinalization)
    : bool :=
  bool_decide (nit_pending_order p = pf_admission_order pending)
  && (ao_transaction_order (nit_pending_order p) <? nit_left_transaction_order p).

Inductive PreparedLeaveKind :=
| PLK_Settled (ended_binding_epoch : option BindingEpoch)
    (left_transaction_order : TransactionOrder)
| PLK_Pending (binding_epoch : BindingEpoch) (no_intervening : NoInterveningTupleProof).

Record PreparedLeaveAuthority (Fr : Type) := mkPreparedLeaveAuthority {
  pla_frontiers : Fr;
  pla_conversation_id : ConversationId;
  pla_participant_id : ParticipantId;
  pla_kind : PreparedLeaveKind;
}.
Arguments mkPreparedLeaveAuthority {Fr}.
Arguments pla_frontiers {Fr} _.
Arguments pla_conversation_id {Fr} _.
Arguments pla_participant_id {Fr} _.
Arguments pla_kind {Fr} _.

Record LeaveCommitParameters := mkLeaveCommitParameters {
  lcp_left_delivery_seq : DeliverySeq;
}.
Record PendingLeaveCommitParameters := mkPendingLeaveCommitParameters {
  plp_terminal_delivery_seq : DeliverySeq;
  plp_left_delivery_seq : DeliverySeq;
}.

Record LeaveCommit (EF V LF Fr : Type) := mkLeaveCommit {
  lvc_identity : IdentityState EF V LF;
  lvc_frontiers : Fr;
}.
Arguments mkLeaveCommit {EF V LF Fr}.
Arguments lvc_identity {EF V LF Fr} _.
Arguments lvc_frontiers {EF V LF Fr} _.

Section Leave.
Context {EF V LF D Fr : Type} `{!EqDecision D} `{!LeaveFrontier Fr}.

Definition prepared_settled (frontiers : Fr) (conversation_id : ConversationId)
    (participant_id : ParticipantId) (ended_binding_epoch : option BindingEpoch)
    (left_transaction_order : TransactionOrder) : PreparedLeaveAuthority Fr :=
  mkPreparedLeaveAuthority frontiers conversation_id participant_id
    (PLK_Settled ended_binding_epoch left_transaction_order).

Definition prepared_pending (frontiers : Fr) (conversation_id : ConversationId)
    (participant_id : ParticipantId) (binding_epoch : BindingEpoch)
    (pending_order : AdmissionOrder) (left_transaction_order : TransactionOrder)
    : PreparedLeaveAuthority Fr :=
  mkPreparedLeaveAuthority frontiers conversation_id participant_id
    (PLK_Pending binding_epoch (mkNoInterveningTupleProof pending_order left_transaction_order)).

Definition consume_settled (a : PreparedLeaveAuthority Fr)
    (member_conversation_id : ConversationId) (member_participant_id : ParticipantId)
    (ended_binding_epoch : option BindingEpoch)
    : result (Fr * TransactionOrder) LeaveCommitError :=
  match pla_kind a with
  | PLK_Settled authorized_epoch left_transaction_order =>
      if negb (pla_conversation_id a =? member_conversation_id)
         || negb (pla_participant_id a =? member_participant_id)
         || negb (bool_decide (authorized_epoch = ended_binding_epoch))
      then Err LCM_PreparedAuthority
      else Ok (pla_frontiers a, left_transaction_order)
  | PLK_Pending _ _ => Err LCM_PreparedAuthority
  end.

Definition consume_pending (a : PreparedLeaveAuthority Fr) (pending : PendingFinalization)
    : result (Fr * TransactionOrder) LeaveCommitError :=
  match pla_kind a with
  | PLK_Pending binding_epoch no_intervening =>
      if negb (pla_conversation_id a =? pf_conversation_id pending)
         || negb (pla_participant_id a =? pf_participant_id pending)
         || negb (bool_decide (binding_epoch = pf_binding_epoch pending))
         || negb (no_intervening_matches no_intervening pending)
      then Err LCM_PreparedAuthority
      else Ok (pla_frontiers a, nit_left_transaction_order no_intervening)
  | PLK_Settled _ _ => Err LCM_PreparedAuthority
  end.

Definition validate_verified (m : LiveMember EF) (verified : VerifiedLeaveRequest V LF)
    : result unit LeaveCommitError :=
  if negb (vlr_conversation_id verified =? lm_conversation_id m)
     || negb (vlr_participant_id verified =? lm_participant_id m)
     || negb (vlr_generation verified =? lm_generation m)
  then Err LCM_VerifiedAuthority
  else Ok tt.

Definition validate_active (m : LiveMember EF) (participant_id : ParticipantId)
    (conversation_id : ConversationId) (binding_epoch : BindingEpoch)
    : result unit LeaveCommitError :=
  if negb (participant_id =? lm_participant_id m)
     || negb (conversation_id =? lm_conversation_id m)
     || negb (capability_generation binding_epoch =? lm_generation m)
  then Err LCM_BindingAuthority
  else Ok tt.

Definition validate_pending (m : LiveMember EF) (pending : PendingFinalization)
    : result unit LeaveCommitError :=
  validate_active m (pf_participant_id pending) (pf_conversation_id pending)
    (pf_binding_epoch pending).

Definition validate_sequence_order (prior : option DeliverySeq) (left : DeliverySeq)
    : result unit LeaveCommitError :=
  match prior with
  | Some sequence => if left <=? sequence then Err LCM_TerminalSequenceOrder else Ok tt
  | None => Ok tt
  end.

Definition validate_settled_cell (m : LiveMember EF) (binding_state : BindingState)
    (detach_cell : DetachCell D) : result unit LeaveCommitError :=
  match detach_cell with
  | DC_Empty => Ok tt
  | DC_Pending _ => Err LCM_PendingDetachState
  | DC_Committed cell =>
      if negb (bool_decide (binding_state = BS_Detached))
         || negb (cdh_participant_id cell =? lm_participant_id m)
         || negb (cdh_request_generation cell =? lm_generation m)
      then Err LCM_TerminalHistory
      else
        match lm_latest_terminal m with
        | None => Err LCM_TerminalHistory
        | Some terminal =>
            if negb (bool_decide (cbt_detached_cause terminal = Some DTC_CleanDeregister))
               || negb (bool_decide (cbt_binding_epoch terminal
                                     = cdh_committed_binding_epoch cell))
               || negb (cbt_delivery_seq terminal =? cdh_detached_delivery_seq cell)
            then Err LCM_TerminalHistory
            else Ok tt
        end
  | DC_Terminalized cell =>
      if negb (tdh_participant_id cell =? lm_participant_id m) || is_none (lm_latest_terminal m)
      then Err LCM_TerminalHistory
      else Ok tt
  end.

Definition validate_pending_cell (conversation_id : ConversationId)
    (pending : PendingFinalization) (detach_cell : DetachCell D)
    : result unit LeaveCommitError :=
  match detach_cell with
  | DC_Pending cell =>
      match validate_pending_pair (BS_PendingFinalization pending) cell (Some conversation_id) with
      | Ok _ => Ok tt
      | Err _ => Err LCM_PendingDetachState
      end
  | DC_Committed _ => Err LCM_TerminalHistory
  | DC_Terminalized cell =>
      if negb (tdh_participant_id cell =? pf_participant_id pending)
      then Err LCM_TerminalHistory else Ok tt
  | DC_Empty => Ok tt
  end.

(** The old detach cell is dropped: the tombstone replaces it. *)
Definition finish_leave (m : LiveMember EF) (verified : VerifiedLeaveRequest V LF)
    (ended_binding_epoch : option BindingEpoch)
    (prior_terminal_delivery_seq : option DeliverySeq)
    (committed_terminal : option CommittedBindingTerminal)
    (left_transaction_order : TransactionOrder) (left_delivery_seq : DeliverySeq)
    (frontiers : Fr) : result (LeaveCommit EF V LF Fr) LeaveCommitError :=
  if negb (vlr_generation verified =? lm_generation m) then Err LCM_VerifiedAuthority
  else
    match LeaveCommitted_new (vlr_conversation_id verified) (vlr_leave_attempt_token verified)
            (vlr_participant_id verified) (lm_generation m) ended_binding_epoch
            prior_terminal_delivery_seq left_delivery_seq with
    | None => Err LCM_TerminalSequenceOrder
    | Some committed_result =>
        let? frontiers := finish_leave_claims frontiers (vlr_participant_id verified)
                            ended_binding_epoch committed_terminal left_delivery_seq
                            left_transaction_order in
        let? retired := map_err LCM_RetirementInvariant
          (retire m (vlr_leave_attempt_token verified) (vlr_leave_request_verifier verified)
             (vlr_leave_fingerprint verified)
             (mkAdmissionOrder left_transaction_order CP_MembershipExit
                (vlr_participant_id verified))
             committed_result) in
        Ok (mkLeaveCommit (IS_Retired retired) frontiers)
    end.

Definition commit_leave (m : LiveMember EF) (binding_state : BindingState)
    (detach_cell : DetachCell D) (verified : VerifiedLeaveRequest V LF)
    (authority : PreparedLeaveAuthority Fr) (parameters : LeaveCommitParameters)
    : result (LeaveCommit EF V LF Fr) LeaveCommitError :=
  let? _ := validate_verified m verified in
  let? ended_binding_epoch :=
    match binding_state with
    | BS_Detached => Ok None
    | BS_Bound active =>
        let? _ := validate_active m (bnd_participant_id active) (bnd_conversation_id active)
                    (bnd_binding_epoch active) in
        Ok (Some (bnd_binding_epoch active))
    | BS_PendingFinalization _ => Err LCM_PendingTerminalRequiresComposition
    end in
  let? _ := validate_settled_cell m binding_state detach_cell in
  let? p := consume_settled authority (lm_conversation_id m) (lm_participant_id m)
              ended_binding_epoch in
  let '(frontiers, left_transaction_order) := p in
  let prior_terminal_delivery_seq := option_map cbt_delivery_seq (lm_latest_terminal m) in
  let? _ := validate_sequence_order prior_terminal_delivery_seq
              (lcp_left_delivery_seq parameters) in
  finish_leave m verified ended_binding_epoch prior_terminal_delivery_seq None
    left_transaction_order (lcp_left_delivery_seq parameters) frontiers.

Definition commit_pending_leave (m : LiveMember EF) (pending : PendingFinalization)
    (detach_cell : DetachCell D) (verified : VerifiedLeaveRequest V LF)
    (authority : PreparedLeaveAuthority Fr) (parameters : PendingLeaveCommitParameters)
    : result (LeaveCommit EF V LF Fr) LeaveCommitError :=
  let terminal_delivery_seq := plp_terminal_delivery_seq parameters in
  let left_delivery_seq := plp_left_delivery_seq parameters in
  let? _ := validate_verified m verified in
  let? _ := validate_pending m pending in
  let? p := consume_pending authority pending in
  let '(frontiers, left_transaction_order) := p in
  let? _ := validate_pending_cell (lm_conversation_id m) pending detach_cell in
  if left_delivery_seq <=? terminal_delivery_seq then Err LCM_TerminalSequenceOrder
  else
    let committed_terminal := pf_commit pending terminal_delivery_seq in
    let? _ := map_err (fun _ => LCM_BindingAuthority)
                (validate_terminal (lm_participant_id m) (lm_conversation_id m) (lm_generation m)
                   (Some committed_terminal)) in
    finish_leave m verified None (Some (cbt_delivery_seq committed_terminal))
      (Some committed_terminal) left_transaction_order left_delivery_seq frontiers.

End Leave.
