(* ===== verification/Attach.v ===== *)
(** * Enrollment, attach and the fate of a binding

    Model of [liminal-protocol/src/lifecycle/enrollment.rs], [attach.rs] and
    [binding_fate.rs]: the allocated identity slot, the attached lifecycle record
    and the origin of a binding; the three verified attach modes and their atomic
    commit with the rule for the detach cell; and the one-use token that turns the
    end of the installed binding into an ordinary or recovered fate. *)
From coqutil Require Import Byte.
From S2P Require Import Prelude Algebra Tags Wire Response Edge Binding EdgeSteps Member Detach.

(** ** enrollment.rs *)

(** [ParticipantSlotAllocatorProof], implemented by the consuming server. *)
Class ParticipantSlotAllocatorProof (P : Type) := {
  proof_conversation_id : P -> ConversationId;
  proof_participant_index : P -> ParticipantIndex;
  proof_identity_limit : P -> Z;
}.

Record AllocatedParticipantSlot (P : Type) := mkAllocatedSlot {
  aps_allocator_proof : P;
  aps_conversation_id : ConversationId;
  aps_participant_id : ParticipantId;
  aps_identity_limit : Z;
}.
Arguments mkAllocatedSlot {P}.
Arguments aps_allocator_proof {P} _.
Arguments aps_conversation_id {P} _.
Arguments aps_participant_id {P} _.
Arguments aps_identity_limit {P} _.
Inductive ParticipantSlotAllocationError := PSA_IdentityLimit.

Definition from_allocator {P} `{!ParticipantSlotAllocatorProof P} (allocator_proof : P)
    : result (AllocatedParticipantSlot P) ParticipantSlotAllocationError :=
  let participant_id := proof_participant_index allocator_proof in
  let identity_limit := proof_identity_limit allocator_proof in
  if identity_limit <=? participant_id then Err PSA_IdentityLimit
  else Ok (mkAllocatedSlot allocator_proof (proof_conversation_id allocator_proof)
             participant_id identity_limit).

Record AttachedRecordPosition := mkAttachedPosition {
  arp_transaction_order : TransactionOrder;
  arp_delivery_seq : DeliverySeq;
}.
Record AttachedLifecycleRecord := mkAttachedRecord {
  alr_participant_id : ParticipantId;
  alr_conversation_id : ConversationId;
  alr_binding_epoch : BindingEpoch;
  alr_admission_order : AdmissionOrder;
  alr_delivery_seq : DeliverySeq;
}.
Definition from_binding (binding : ActiveBinding) (position : AttachedRecordPosition)
    : AttachedLifecycleRecord :=
  mkAttachedRecord (bnd_participant_id binding) (bnd_conversation_id binding)
    (bnd_binding_epoch binding)
    (mkAdmissionOrder (arp_transaction_order position) CP_AttachLifecycle
       (bnd_participant_id binding))
    (arp_delivery_seq position).

Inductive BindingOriginKind :=
| BOK_Unfenced
| BOK_Recovered (marker_delivery_seq : DeliverySeq) (prior_binding_epoch : BindingEpoch).
Record BindingOrigin := mkBindingOrigin {
  bo_attached : AttachedLifecycleRecord;
  bo_kind : BindingOriginKind;
}.
Definition unfenced (attached : AttachedLifecycleRecord) : BindingOrigin :=
  mkBindingOrigin attached BOK_Unfenced.
Definition recovered (attached : AttachedLifecycleRecord) (marker_delivery_seq : DeliverySeq)
    (prior_binding_epoch : BindingEpoch) : BindingOrigin :=
  mkBindingOrigin attached (BOK_Recovered marker_delivery_seq prior_binding_epoch).
Definition is_unfenced (o : BindingOrigin) : bool :=
  match bo_kind o with BOK_Unfenced => true | BOK_Recovered _ _ => false end.
Definition recovered_marker (o : BindingOrigin) : option (DeliverySeq * BindingEpoch) :=
  match bo_kind o with
  | BOK_Unfenced => None
  | BOK_Recovered marker_delivery_seq prior_binding_epoch =>
      Some (marker_delivery_seq, prior_binding_epoch)
  end.

Record EnrollmentCommitParameters (F P : Type) := mkEnrollmentParameters {
  ecp_allocated_slot : AllocatedParticipantSlot P;
  ecp_attach_secret : AttachSecret;
  ecp_origin_binding_epoch : BindingEpoch;
  ecp_attached_position : AttachedRecordPosition;
  ecp_receipt_expires_at : Z;
  ecp_provenance_expires_at : Z;
  ecp_enrollment_fingerprint : EnrollmentFingerprint F;
}.
Arguments mkEnrollmentParameters {F P}.
Arguments ecp_allocated_slot {F P} _.
Arguments ecp_attach_secret {F P} _.
Arguments ecp_origin_binding_epoch {F P} _.
Arguments ecp_attached_position {F P} _.
Arguments ecp_receipt_expires_at {F P} _.
Arguments ecp_provenance_expires_at {F P} _.
Arguments ecp_enrollment_fingerprint {F P} _.
Record EnrollmentCommit (F : Type) := mkEnrollmentCommit {
  ecm_member : LiveMember F;
  ecm_binding_state : BindingState;
  ecm_attached : AttachedLifecycleRecord;
  ecm_outcome : EnrollBound;
  ecm_binding_origin : BindingOrigin;
}.
Arguments mkEnrollmentCommit {F}.
Arguments ecm_member {F} _.
Arguments ecm_binding_state {F} _.
Arguments ecm_attached {F} _.
Arguments ecm_outcome {F} _.
Arguments ecm_binding_origin {F} _.
Inductive EnrollmentCommitError := ECE_Conversation | ECE_BindingGeneration | ECE_ReceiptInvariant.

Definition commit_enrollment {F P} (request : EnrollmentRequest)
    (parameters : EnrollmentCommitParameters F P)
    : result (EnrollmentCommit F) EnrollmentCommitError :=
  if negb (er_conversation_id request =? aps_conversation_id (ecp_allocated_slot parameters))
  then Err ECE_Conversation
  else if negb (capability_generation (ecp_origin_binding_epoch parameters) =? Generation_ONE)
  then Err ECE_BindingGeneration
  else
    let participant_id := aps_participant_id (ecp_allocated_slot parameters) in
    let binding := mkActiveBinding participant_id (er_conversation_id request)
                     (ecp_origin_binding_epoch parameters) in
    let attached := from_binding binding (ecp_attached_position parameters) in
    match EnrollBound_new (er_conversation_id request) (er_enrollment_token request)
            participant_id (ecp_attach_secret parameters) (ecp_origin_binding_epoch parameters)
            (ecp_receipt_expires_at parameters) (ecp_provenance_expires_at parameters) with
    | None => Err ECE_ReceiptInvariant
    | Some outcome =>
        let member := from_enrollment participant_id (er_conversation_id request)
                        (ecp_attach_secret parameters) (ecp_enrollment_fingerprint parameters) in
        Ok (mkEnrollmentCommit member (BS_Bound binding) attached outcome (unfenced attached))
    end.

(** ** attach.rs: data *)

Record AttachCommitParameters := mkAttachParameters {
  acp_binding : ActiveBinding;
  acp_attach_secret : AttachSecret;
  acp_attached_position : AttachedRecordPosition;
  acp_receipt_expires_at : Z;
  acp_provenance_expires_at : Z;
}.
Inductive AttachVerificationError :=
| AVE_Conversation | AVE_Participant | AVE_Generation | AVE_Secret | AVE_BindingState
| AVE_MarkerProof | AVE_RecoveryAuthority | AVE_PendingTerminalSequence | AVE_ResultBinding
| AVE_ResultGeneration | AVE_LifecycleOrder | AVE_TerminalHistory.
Inductive AttachCommitError :=
| ACE_PendingDetach | ACE_DetachCellAuthority | ACE_BindingCellState | ACE_TerminalHistory
| ACE_MembershipInvariant (e : MembershipInvariantError)
| ACE_ReceiptInvariant.

Inductive AttachTransition :=
| AT_Detached
| AT_Superseded (terminal : CommittedDetachedTerminal)
| AT_FencedRecovery (prior_binding_epoch : BindingEpoch)
    (composed_terminal : option CommittedBindingTerminal) (next_closure_state : ClosureState).

Record AttachCommit (F V : Type) := mkAttachCommit {
  atc_member : LiveMember F;
  atc_binding_state : BindingState;
  atc_detach_cell : DetachCell V;
  atc_attached : AttachedLifecycleRecord;
  atc_outcome : AttachBound;
  atc_transition : AttachTransition;
  atc_binding_origin : BindingOrigin;
  atc_ordinary_binding_authority : option OrdinaryBindingAuthority;
  atc_recovered_binding_authority : option FencedAttachCommit;
}.
Arguments mkAttachCommit {F V}.
Arguments atc_member {F V} _.
Arguments atc_binding_state {F V} _.
Arguments atc_detach_cell {F V} _.
Arguments atc_attached {F V} _.
Arguments atc_outcome {F V} _.
Arguments atc_transition {F V} _.
Arguments atc_binding_origin {F V} _.
Arguments atc_ordinary_binding_authority {F V} _.
Arguments atc_recovered_binding_authority {F V} _.

Record InstalledAttachState (F V : Type) := mkInstalledAttachState {
  ias_member : LiveMember F;
  ias_binding_state : BindingState;
  ias_detach_cell : DetachCell V;
  ias_attached : AttachedLifecycleRecord;
  ias_outcome : AttachBound;
  ias_transition : AttachTransition;
  ias_binding_origin : BindingOrigin;
}.
Arguments mkInstalledAttachState {F V}.

Record SealedBindingFateToken := mkFateToken {
  sft_ordinary : option OrdinaryBindingAuthority;
  sft_recovered : option FencedAttachCommit;
  sft_cursor : DeliverySeq;
}.

Inductive AttachMode :=
| AM_Detached (admission : OrdinaryDetachedAttachAdmission)
| AM_Superseded (terminal : CommittedDetachedTerminal)
| AM_Fenced (proof : FencedAttachCommit) (pending : option (PendingFinalization * DeliverySeq)).

Record VerifiedAttachCommit (F : Type) := mkVerifiedAttach {
  vac_member : LiveMember F;
  vac_request : CredentialAttachRequest;
  vac_parameters : AttachCommitParameters;
  vac_mode : AttachMode;
}.
Arguments mkVerifiedAttach {F}.
Arguments vac_member {F} _.
Arguments vac_request {F} _.
Arguments vac_parameters {F} _.
Arguments vac_mode {F} _.

Record FencedAttachVerificationRefusal (F : Type) := mkFencedRefusal {
  far_member : LiveMember F;
  far_proof : FencedAttachCommit;
  far_error : AttachVerificationError;
}.
Arguments mkFencedRefusal {F}.

(** ** attach.rs: operations *)

Section Attach.
Context {F V : Type} `{!EqDecision V}.

Definition into_slot_and_fate (c : AttachCommit F V)
    : InstalledAttachState F V * SealedBindingFateToken :=
  (mkInstalledAttachState (atc_member c) (atc_binding_state c) (atc_detach_cell c)
     (atc_attached c) (atc_outcome c) (atc_transition c) (atc_binding_origin c),
   mkFateToken (atc_ordinary_binding_authority c) (atc_recovered_binding_authority c)
     (lm_cursor (atc_member c))).

Definition attach_observer_progress_projection (c : AttachCommit F V)
    : option ObserverProgressProjection :=
  let project terminal :=
    Some (mkObserverProgressProjection (cbt_conversation_id terminal)
            (cbt_delivery_seq terminal)) in
  match atc_transition c with
  | AT_Detached | AT_FencedRecovery _ None _ => None
  | AT_Superseded terminal => project (CBT_Detached terminal)
  | AT_FencedRecovery _ (Some terminal) _ => project terminal
  end.

Definition set_ordinary (c : AttachCommit F V) (a : option OrdinaryBindingAuthority)
    : AttachCommit F V :=
  mkAttachCommit (atc_member c) (atc_binding_state c) (atc_detach_cell c) (atc_attached c)
    (atc_outcome c) (atc_transition c) (atc_binding_origin c) a
    (atc_recovered_binding_authority c).

Definition ordinary_cursor_progressed (c : AttachCommit F V) (event : Event)
    : result (AttachCommit F V) (AttachCommit F V) :=
  match atc_ordinary_binding_authority c with
  | None => Err c
  | Some authority =>
      match authority_cursor_progressed authority event with
      | Ok authority => Ok (set_ordinary c (Some authority))
      | Err authority => Err (set_ordinary c (Some authority))
      end
  end.

Definition attach_ordinary_binding_fate (c : AttachCommit F V) (terminal : CommittedDiedTerminal)
    (resulting_floor : DeliverySeq) : result OrdinaryBindingFate (AttachCommit F V) :=
  match atc_ordinary_binding_authority c with
  | None => Err c
  | Some authority =>
      match authority_binding_fate authority terminal resulting_floor with
      | Ok fate => Ok fate
      | Err authority => Err (set_ordinary c (Some authority))
      end
  end.

Definition verify_attach_common (m : LiveMember F) (request : CredentialAttachRequest)
    (secret_proof : AttachSecretProof) (parameters : AttachCommitParameters)
    : result unit AttachVerificationError :=
  if negb (car_conversation_id request =? lm_conversation_id m) then Err AVE_Conversation
  else if negb (car_participant_id request =? lm_participant_id m) then Err AVE_Participant
  else if negb (car_capability_generation request =? lm_generation m) then Err AVE_Generation
  else if bool_decide (secret_proof = ASP_Mismatch) then Err AVE_Secret
  else if negb (bnd_conversation_id (acp_binding parameters) =? lm_conversation_id m)
          || negb (bnd_participant_id (acp_binding parameters) =? lm_participant_id m)
  then Err AVE_ResultBinding
  else
    match checked_add u64_max (lm_generation m) 1 with
    | None => Err AVE_ResultGeneration
    | Some next_raw =>
        match Generation_new next_raw with
        | None => Err AVE_ResultGeneration
        | Some next_generation =>
            if negb (capability_generation (bnd_binding_epoch (acp_binding parameters))
                     =? next_generation)
            then Err AVE_ResultGeneration
            else Ok tt
        end
    end.

Definition verify_detached_attach (m : LiveMember F) (binding_state : BindingState)
    (closure_admission : OrdinaryDetachedAttachAdmission) (request : CredentialAttachRequest)
    (secret_proof : AttachSecretProof) (parameters : AttachCommitParameters)
    : result (VerifiedAttachCommit F) AttachVerificationError :=
  let? _ := verify_attach_common m request secret_proof parameters in
  if negb (bool_decide (binding_state = BS_Detached)) then Err AVE_BindingState
  else if is_some (car_accept_marker_delivery_seq request) then Err AVE_MarkerProof
  else Ok (mkVerifiedAttach m request parameters (AM_Detached closure_admission)).

Definition verify_superseding_attach (m : LiveMember F) (active_binding : ActiveBinding)
    (request : CredentialAttachRequest) (secret_proof : AttachSecretProof)
    (terminal_position : CommittedBindingTerminalPosition) (parameters : AttachCommitParameters)
    : result (VerifiedAttachCommit F) AttachVerificationError :=
  let? _ := verify_attach_common m request secret_proof parameters in
  if negb (bnd_conversation_id active_binding =? lm_conversation_id m)
     || negb (bnd_participant_id active_binding =? lm_participant_id m)
     || negb (capability_generation (bnd_binding_epoch active_binding) =? lm_generation m)
  then Err AVE_BindingState
  else if is_some (car_accept_marker_delivery_seq request) then Err AVE_MarkerProof
  else if negb (cbp_transaction_order terminal_position
                =? arp_transaction_order (acp_attached_position parameters))
  then Err AVE_LifecycleOrder
  else
    let terminal := superseded active_binding terminal_position in
    Ok (mkVerifiedAttach m request parameters (AM_Superseded terminal)).

Definition validate_fenced_attach (m : LiveMember F) (binding_state : BindingState)
    (request : CredentialAttachRequest) (secret_proof : AttachSecretProof)
    (proof : FencedAttachCommit) (pending_terminal_delivery_seq : option DeliverySeq)
    (parameters : AttachCommitParameters)
    : result (option (PendingFinalization * DeliverySeq)) AttachVerificationError :=
  let? _ := verify_attach_common m request secret_proof parameters in
  if negb (bool_decide (car_accept_marker_delivery_seq request
                        = Some (fac_marker_delivery_seq proof)))
  then Err AVE_MarkerProof
  else if negb (fac_participant_id proof =? lm_participant_id m)
          || negb (capability_generation (fac_prior_binding_epoch proof) =? lm_generation m)
          || negb (bool_decide (fac_new_binding_epoch proof
                                = bnd_binding_epoch (acp_binding parameters)))
  then Err AVE_RecoveryAuthority
  else
    match binding_state, pending_terminal_delivery_seq with
    | BS_Detached, None =>
        let stale :=
          match lm_latest_terminal m with
          | None => true
          | Some terminal =>
              negb (bool_decide (cbt_binding_epoch terminal = fac_prior_binding_epoch proof))
          end in
        if stale then Err AVE_TerminalHistory else Ok None
    | BS_PendingFinalization finalization, Some sequence =>
        if negb ((pf_conversation_id finalization =? lm_conversation_id m)
                 && (pf_participant_id finalization =? lm_participant_id m)
                 && bool_decide (pf_binding_epoch finalization = fac_prior_binding_epoch proof))
        then Err AVE_BindingState
        else Ok (Some (finalization, sequence))
    | BS_PendingFinalization _, None | BS_Detached, Some _ => Err AVE_PendingTerminalSequence
    | BS_Bound _, _ => Err AVE_BindingState
    end.

Definition verify_fenced_attach (m : LiveMember F) (binding_state : BindingState)
    (request : CredentialAttachRequest) (secret_proof : AttachSecretProof)
    (proof : FencedAttachCommit) (pending_terminal_delivery_seq : option DeliverySeq)
    (parameters : AttachCommitParameters)
    : result (VerifiedAttachCommit F) (FencedAttachVerificationRefusal F) :=
  match validate_fenced_attach m binding_state request secret_proof proof
          pending_terminal_delivery_seq parameters with
  | Ok pending => Ok (mkVerifiedAttach m request parameters (AM_Fenced proof pending))
  | Err error => Err (mkFencedRefusal m proof error)
  end.

Definition transition_detach_cell (mode : AttachMode) (m : LiveMember F)
    (detach_cell : DetachCell V) : result (DetachCell V) AttachCommitError :=
  match detach_cell with
  | DC_Empty => Ok DC_Empty
  | DC_Pending cell =>
      match mode with
      | AM_Fenced _ (Some (finalization, _)) =>
          match validate_pending_pair (BS_PendingFinalization finalization) cell
                  (Some (lm_conversation_id m)) with
          | Err _ => Err ACE_BindingCellState
          | Ok _ => Ok (DC_Terminalized (pending_terminalize_after_attach cell))
          end
      | _ => Err ACE_PendingDetach
      end
  | DC_Committed cell =>
      let is_superseded := match mode with AM_Superseded _ => true | _ => false end in
      if is_superseded || negb (cdh_participant_id cell =? lm_participant_id m)
         || negb (cdh_request_generation cell =? lm_generation m)
      then Err ACE_DetachCellAuthority
      else
        match lm_latest_terminal m with
        | None => Err ACE_TerminalHistory
        | Some terminal =>
            if negb (bool_decide (cbt_detached_cause terminal = Some DTC_CleanDeregister))
               || negb (bool_decide (cbt_binding_epoch terminal
                                     = cdh_committed_binding_epoch cell))
               || negb (cbt_delivery_seq terminal =? cdh_detached_delivery_seq cell)
            then Err ACE_TerminalHistory
            else Ok (DC_Terminalized (committed_terminalize_after_attach cell))
        end
  | DC_Terminalized cell =>
      if negb (tdh_participant_id cell =? lm_participant_id m) then Err ACE_DetachCellAuthority
      else Ok (DC_Terminalized cell)
  end.

Definition commit_attach (verified : VerifiedAttachCommit F) (detach_cell : DetachCell V)
    : result (AttachCommit F V) AttachCommitError :=
  let previous_member := vac_member verified in
  let request := vac_request verified in
  let parameters := vac_parameters verified in
  let? next_cell := transition_detach_cell (vac_mode verified) previous_member detach_cell in
  let attached := from_binding (acp_binding parameters) (acp_attached_position parameters) in
  let '(persisted_cursor, terminal, transition, binding_origin, recovered_binding_authority) :=
    match vac_mode verified with
    | AM_Detached _ =>
        (lm_cursor previous_member, None, AT_Detached, unfenced attached, None)
    | AM_Superseded committed =>
        (lm_cursor previous_member, Some (CBT_Detached committed), AT_Superseded committed,
         unfenced attached, None)
    | AM_Fenced proof pending =>
        let composed_terminal :=
          option_map (fun '(finalization, sequence) => pf_commit finalization sequence) pending in
        let marker_delivery_seq := fac_marker_delivery_seq proof in
        let prior_binding_epoch := fac_prior_binding_epoch proof in
        let next_closure_state := fac_next_state proof in
        (marker_delivery_seq, composed_terminal,
         AT_FencedRecovery prior_binding_epoch composed_terminal next_closure_state,
         recovered attached marker_delivery_seq prior_binding_epoch, Some proof)
    end in
  let binding_epoch := bnd_binding_epoch (acp_binding parameters) in
  let result_generation := capability_generation binding_epoch in
  let? member := map_err ACE_MembershipInvariant
    (rotate previous_member result_generation (acp_attach_secret parameters) persisted_cursor
       terminal) in
  let bound_by := match transition with
    | AT_FencedRecovery _ _ _ => AttachBound_fenced
    | AT_Detached | AT_Superseded _ => AttachBound_ordinary
    end in
  let? outcome := ok_or (bound_by (car_conversation_id request)
      (car_attach_attempt_token request) (car_participant_id request)
      (car_capability_generation request) (acp_attach_secret parameters) binding_epoch
      persisted_cursor (acp_receipt_expires_at parameters)
      (acp_provenance_expires_at parameters)) ACE_ReceiptInvariant in
  let ordinary_binding_authority :=
    match transition with
    | AT_Detached | AT_Superseded _ =>
        Some (mkOrdinaryBindingAuthority (acp_binding parameters) persisted_cursor)
    | AT_FencedRecovery _ _ _ => None
    end in
  Ok (mkAttachCommit member (BS_Bound (acp_binding parameters)) next_cell attached outcome
        transition binding_origin ordinary_binding_authority recovered_binding_authority).

End Attach.

(** ** binding_fate.rs *)

Inductive SealedBindingFateIntent :=
| SFI_Ordinary
| SFI_Recovered (prior_binding_epoch : BindingEpoch) (marker_delivery_seq : DeliverySeq).
Record BindingFateMeasurementContext := mkMeasurementContext {
  bmc_conversation_id : ConversationId;
  bmc_participant_id : ParticipantId;
  bmc_binding_epoch : BindingEpoch;
  bmc_cursor : DeliverySeq;
}.

Definition is_recovered (t : SealedBindingFateToken) : bool := is_some (sft_recovered t).

Definition intent (t : SealedBindingFateToken) : option SealedBindingFateIntent :=
  match sft_ordinary t, sft_recovered t with
  | Some _, None => Some SFI_Ordinary
  | None, Some proof =>
      Some (SFI_Recovered (fac_prior_binding_epoch proof) (fac_marker_delivery_seq proof))
  | None, None | Some _, Some _ => None
  end.

Definition token_participant_ack_progressed (t : SealedBindingFateToken)
    (conversation_id : ConversationId) (participant_id : ParticipantId)
    (binding_epoch : BindingEpoch) (previous_cursor through_seq : DeliverySeq)
    : result SealedBindingFateToken SealedBindingFateToken :=
  if negb (previous_cursor =? sft_cursor t) || (through_seq <=? previous_cursor) then Err t
  else
    match sft_ordinary t, sft_recovered t with
    | Some authority, None =>
        match participant_ack_progressed authority conversation_id participant_id binding_epoch
                previous_cursor through_seq with
        | Ok authority => Ok (mkFateToken (Some authority) (sft_recovered t) through_seq)
        | Err authority => Err (mkFateToken (Some authority) (sft_recovered t) (sft_cursor t))
        end
    | None, Some proof =>
        if (fac_conversation_id proof =? conversation_id)
           && (fac_participant_id proof =? participant_id)
           && bool_decide (fac_new_binding_epoch proof = binding_epoch)
        then Ok (mkFateToken None (sft_recovered t) through_seq)
        else Err t
    | _, _ => Err t
    end.

Definition marker_ack_progressed (t : SealedBindingFateToken) (conversation_id : ConversationId)
    (participant_id : ParticipantId) (binding_epoch : BindingEpoch)
    (previous_cursor through_seq : DeliverySeq)
    : result SealedBindingFateToken SealedBindingFateToken :=
  if (sft_cursor t =? through_seq) && (previous_cursor <? through_seq) then Ok t
  else token_participant_ack_progressed t conversation_id participant_id binding_epoch
         previous_cursor through_seq.

Definition measurement_context (t : SealedBindingFateToken)
    : option BindingFateMeasurementContext :=
  match sft_ordinary t, sft_recovered t with
  | Some authority, None =>
      if oba_through_seq authority =? sft_cursor t then
        let binding := oba_binding authority in
        Some (mkMeasurementContext (bnd_conversation_id binding) (bnd_participant_id binding)
                (bnd_binding_epoch binding) (sft_cursor t))
      else None
  | None, Some proof =>
      Some (mkMeasurementContext (fac_conversation_id proof) (fac_participant_id proof)
              (fac_new_binding_epoch proof) (sft_cursor t))
  | _, _ => None
  end.

Definition token_ordinary_binding_fate (t : SealedBindingFateToken)
    (terminal : CommittedDiedTerminal) (resulting_floor : DeliverySeq)
    : result OrdinaryBindingFate SealedBindingFateToken :=
  if is_some (sft_recovered t) then Err t
  else
    match sft_ordinary t with
    | None => Err t
    | Some authority =>
        match authority_binding_fate authority terminal resulting_floor with
        | Ok fate => Ok fate
        | Err authority => Err (mkFateToken (Some authority) (sft_recovered t) (sft_cursor t))
        end
    end.

Definition token_recovered_binding_fate (t : SealedBindingFateToken) (event : Event)
    : result RecoveredBindingFate SealedBindingFateToken :=
  if is_some (sft_ordinary t) then Err t
  else
    match sft_recovered t with
    | None => Err t
    | Some proof =>
        match recovered_binding_fate proof event with
        | Ok fate => Ok fate
        | Err proof => Err (mkFateToken (sft_ordinary t) (Some proof) (sft_cursor t))
        end
    end.

Definition recovered_binding_fate_measured (t : SealedBindingFateToken)
    (resulting_floor : DeliverySeq) : result RecoveredBindingFate SealedBindingFateToken :=
  match measurement_context t with
  | None => Err t
  | Some context =>
      token_recovered_binding_fate t
        (binding_fate_observed (bmc_participant_id context) (bmc_binding_epoch context)
           resulting_floor)
  end.
