(* ===== verification/Lookup.v ===== *)
(** * Identity, receipt and binding lookup

    Model of [liminal-protocol/src/lifecycle/lookup.rs]: the total precedence by
    which an enrollment, attach, detach, Leave or binding-required request is
    classified against the durable identity, receipt, detach cell and binding. *)
From coqutil Require Import Byte.
From S2P Require Import Prelude Algebra Tags Wire Response Binding Member Detach.

Inductive PresentedIdentity (EF V LF : Type) :=
| PI_Absent
| PI_Live (member : LiveMember EF)
| PI_Retired (tombstone : RetiredIdentity EF V LF).
Arguments PI_Absent {EF V LF}.
Arguments PI_Live {EF V LF} _.
Arguments PI_Retired {EF V LF} _.

Inductive ResolvedIdentity (EF V LF : Type) :=
| RI_Live (member : LiveMember EF)
| RI_Retired (tombstone : RetiredIdentity EF V LF).
Arguments RI_Live {EF V LF} _.
Arguments RI_Retired {EF V LF} _.

(** The two [From] conversions. *)
Definition presented_from {EF V LF} (value : option (IdentityState EF V LF))
    : PresentedIdentity EF V LF :=
  match value with
  | None => PI_Absent
  | Some (IS_Live member) => PI_Live member
  | Some (IS_Retired tombstone) => PI_Retired tombstone
  end.
Definition resolved_from {EF V LF} (value : IdentityState EF V LF) : ResolvedIdentity EF V LF :=
  match value with
  | IS_Live member => RI_Live member
  | IS_Retired tombstone => RI_Retired tombstone
  end.

Record EnrollmentLiveReceipt := mkEnrollmentLiveReceipt { elr_committed : EnrollBound }.
Record EnrollmentProvenance := mkEnrollmentProvenance {
  epv_result_generation : Generation;
  epv_reason : ReceiptExpiryReason;
}.
Inductive EnrollmentTokenPhase (EF V LF : Type) :=
| ETP_Unmapped
| ETP_LiveReceipt (identity : ResolvedIdentity EF V LF) (receipt : EnrollmentLiveReceipt)
| ETP_Provenance (identity : ResolvedIdentity EF V LF) (provenance : EnrollmentProvenance)
| ETP_LifetimeMapping (identity : ResolvedIdentity EF V LF).
Arguments ETP_Unmapped {EF V LF}.
Arguments ETP_LiveReceipt {EF V LF}.
Arguments ETP_Provenance {EF V LF}.
Arguments ETP_LifetimeMapping {EF V LF}.
Inductive EnrollmentLookupResult :=
| ELR_Retired (v : Retired)
| ELR_Bound (v : ReceiptReplay)
| ELR_UnboundReceipt (v : ReceiptReplay)
| ELR_ReceiptExpired (v : ReceiptExpired)
| ELR_EnrollmentKnown (v : EnrollmentKnown)
| ELR_AuthorizedNew.

Record CredentialAttachLiveReceipt := mkCredentialAttachLiveReceipt { alc_committed : AttachBound }.
Record CredentialAttachProvenance := mkCredentialAttachProvenance {
  apv_result_generation : Generation;
  apv_reason : ReceiptExpiryReason;
}.
Inductive CredentialAttachTokenPhase (EF V LF : Type) :=
| ATP_NoMatch
| ATP_LiveReceipt (identity : ResolvedIdentity EF V LF) (receipt : CredentialAttachLiveReceipt)
| ATP_Provenance (identity : ResolvedIdentity EF V LF) (provenance : CredentialAttachProvenance)
| ATP_AfterProvenance.
Arguments ATP_NoMatch {EF V LF}.
Arguments ATP_LiveReceipt {EF V LF}.
Arguments ATP_Provenance {EF V LF}.
Arguments ATP_AfterProvenance {EF V LF}.
Inductive CredentialAttachLookupResult (EF : Type) :=
| ALR_Retired (v : Retired)
| ALR_ParticipantUnknown (v : ParticipantUnknown)
| ALR_StaleAuthority (v : StaleAuthority)
| ALR_AttemptTokenBodyConflict (v : AttemptTokenBodyConflict)
| ALR_Bound (v : ReceiptReplay)
| ALR_UnboundReceipt (v : ReceiptReplay)
| ALR_ReceiptExpired (v : ReceiptExpired)
| ALR_StaleOrUnknownReceipt (v : StaleOrUnknownReceipt)
| ALR_AuthorizedFresh (member : LiveMember EF).
Arguments ALR_Retired {EF} _.
Arguments ALR_ParticipantUnknown {EF} _.
Arguments ALR_StaleAuthority {EF} _.
Arguments ALR_AttemptTokenBodyConflict {EF} _.
Arguments ALR_Bound {EF} _.
Arguments ALR_UnboundReceipt {EF} _.
Arguments ALR_ReceiptExpired {EF} _.
Arguments ALR_StaleOrUnknownReceipt {EF} _.
Arguments ALR_AuthorizedFresh {EF} _.

Inductive ParticipantBindingRequest :=
| PBR_ParticipantAck (r : ParticipantAck)
| PBR_MarkerAck (r : MarkerAck)
| PBR_RecordAdmission (r : RecordAdmission).
Inductive BindingRequiredLookupResult (EF : Type) :=
| BLR_Retired (v : Retired)
| BLR_ParticipantUnknown (v : ParticipantUnknown)
| BLR_StaleAuthority (v : StaleAuthority)
| BLR_NoBinding (v : NoBinding)
| BLR_Authorized (member : LiveMember EF) (binding : ActiveBinding).
Arguments BLR_Retired {EF} _.
Arguments BLR_ParticipantUnknown {EF} _.
Arguments BLR_StaleAuthority {EF} _.
Arguments BLR_NoBinding {EF} _.
Arguments BLR_Authorized {EF} _ _.

Inductive DetachTokenResolution (EF V LF : Type) :=
| DTR_NoExactMatch
| DTR_Exact (identity : ResolvedIdentity EF V LF).
Arguments DTR_NoExactMatch {EF V LF}.
Arguments DTR_Exact {EF V LF} _.
Record DetachLookupContext (EF V LF D : Type) := mkDetachLookupContext {
  dlc_token_resolution : DetachTokenResolution EF V LF;
  dlc_presented_identity : PresentedIdentity EF V LF;
  dlc_cell : DetachCell D;
  dlc_binding : BindingState;
  dlc_receiving_binding_epoch : option BindingEpoch;
  dlc_request : DetachRequest;
  dlc_request_verifier : D;
  dlc_observer_progress : DeliverySeq;
}.
Arguments mkDetachLookupContext {EF V LF D}.
Arguments dlc_token_resolution {EF V LF D} _.
Arguments dlc_presented_identity {EF V LF D} _.
Arguments dlc_cell {EF V LF D} _.
Arguments dlc_binding {EF V LF D} _.
Arguments dlc_receiving_binding_epoch {EF V LF D} _.
Arguments dlc_request {EF V LF D} _.
Arguments dlc_request_verifier {EF V LF D} _.
Arguments dlc_observer_progress {EF V LF D} _.
Inductive DetachLookupResult (EF D : Type) :=
| DLR_Retired (v : Retired)
| DLR_ParticipantUnknown (v : ParticipantUnknown)
| DLR_StaleAuthority (v : DetachStaleAuthority)
| DLR_NoBinding (v : NoBinding)
| DLR_PendingReplayRequired (v : PendingReplayRequest D)
| DLR_DetachInProgress (v : DetachInProgress)
| DLR_DetachCommitted (v : DetachCommitted)
| DLR_Authorized (member : LiveMember EF) (binding : ActiveBinding).
Arguments DLR_Retired {EF D} _.
Arguments DLR_ParticipantUnknown {EF D} _.
Arguments DLR_StaleAuthority {EF D} _.
Arguments DLR_NoBinding {EF D} _.
Arguments DLR_PendingReplayRequired {EF D} _.
Arguments DLR_DetachInProgress {EF D} _.
Arguments DLR_DetachCommitted {EF D} _.
Arguments DLR_Authorized {EF D} _ _.

Inductive LeaveSecretProof := LSP_Mismatch | LSP_Verified.
Inductive LeaveLookupResult (EF : Type) :=
| LLR_LeaveCommitted (v : LeaveCommitted)
| LLR_AttemptTokenBodyConflict (v : AttemptTokenBodyConflict)
| LLR_StaleAuthority (v : LeaveStaleAuthority)
| LLR_Retired (v : Retired)
| LLR_ParticipantUnknown (v : ParticipantUnknown)
| LLR_NoBinding (v : NoBinding)
| LLR_AuthorizedBound (member : LiveMember EF) (binding : ActiveBinding)
| LLR_AuthorizedDetached (member : LiveMember EF).
Arguments LLR_LeaveCommitted {EF} _.
Arguments LLR_AttemptTokenBodyConflict {EF} _.
Arguments LLR_StaleAuthority {EF} _.
Arguments LLR_Retired {EF} _.
Arguments LLR_ParticipantUnknown {EF} _.
Arguments LLR_NoBinding {EF} _.
Arguments LLR_AuthorizedBound {EF} _ _.
Arguments LLR_AuthorizedDetached {EF} _.
#[export] Instance LeaveSecretProof_eq_dec : EqDecision LeaveSecretProof.
Proof. solve_decision. Defined.

(** ** Envelopes *)

Definition enrollment_envelope (request : EnrollmentRequest) : EnrollmentEnvelope :=
  mkEnrollmentEnvelope (er_conversation_id request) (er_enrollment_token request).
Definition attach_envelope (request : CredentialAttachRequest) : AttachEnvelope :=
  mkAttachEnvelope (car_conversation_id request) (car_participant_id request)
    (car_capability_generation request) (car_attach_attempt_token request)
    (car_accept_marker_delivery_seq request).
Definition participant_ack_envelope (request : ParticipantAck) : ParticipantAckEnvelope :=
  mkParticipantAckEnvelope (pa_conversation_id request) (pa_participant_id request)
    (pa_capability_generation request) (pa_through_seq request).
Definition marker_ack_envelope (request : MarkerAck) : MarkerAckEnvelope :=
  mkMarkerAckEnvelope (ma_conversation_id request) (ma_participant_id request)
    (ma_capability_generation request) (ma_marker_delivery_seq request).
Definition record_admission_envelope (request : RecordAdmission) : RecordAdmissionEnvelope :=
  mkRecordAdmissionEnvelope (ra_conversation_id request) (ra_participant_id request)
    (ra_capability_generation request) (ra_record_admission_attempt_token request).
Definition detach_envelope (request : DetachRequest) : DetachEnvelope :=
  mkDetachEnvelope (dr_conversation_id request) (dr_participant_id request)
    (dr_capability_generation request) (dr_detach_attempt_token request).
Definition leave_envelope (request : LeaveRequest) : LeaveEnvelope :=
  mkLeaveEnvelope (lr_conversation_id request) (lr_participant_id request)
    (lr_capability_generation request) (lr_leave_attempt_token request).

Definition binding_request_conversation (request : ParticipantBindingRequest) : ConversationId :=
  match request with
  | PBR_ParticipantAck r => pa_conversation_id r
  | PBR_MarkerAck r => ma_conversation_id r
  | PBR_RecordAdmission r => ra_conversation_id r
  end.
Definition binding_request_participant (request : ParticipantBindingRequest) : ParticipantId :=
  match request with
  | PBR_ParticipantAck r => pa_participant_id r
  | PBR_MarkerAck r => ma_participant_id r
  | PBR_RecordAdmission r => ra_participant_id r
  end.
Definition binding_request_generation (request : ParticipantBindingRequest) : Generation :=
  match request with
  | PBR_ParticipantAck r => pa_capability_generation r
  | PBR_MarkerAck r => ma_capability_generation r
  | PBR_RecordAdmission r => ra_capability_generation r
  end.
Definition participant_reference (request : ParticipantBindingRequest)
    : ParticipantReferenceEnvelope :=
  match request with
  | PBR_ParticipantAck r => PRE_ParticipantAck (participant_ack_envelope r)
  | PBR_MarkerAck r => PRE_MarkerAck (marker_ack_envelope r)
  | PBR_RecordAdmission r => PRE_RecordAdmission (record_admission_envelope r)
  end.
Definition binding_required_envelope (request : ParticipantBindingRequest)
    : BindingRequiredEnvelope :=
  match request with
  | PBR_ParticipantAck r => BRE_ParticipantAck (participant_ack_envelope r)
  | PBR_MarkerAck r => BRE_MarkerAck (marker_ack_envelope r)
  | PBR_RecordAdmission r => BRE_RecordAdmission (record_admission_envelope r)
  end.
Definition common_stale_envelope (request : ParticipantBindingRequest)
    : CommonStaleAuthorityEnvelope :=
  match request with
  | PBR_ParticipantAck r => CSA_ParticipantAck (participant_ack_envelope r)
  | PBR_MarkerAck r => CSA_MarkerAck (marker_ack_envelope r)
  | PBR_RecordAdmission r => CSA_RecordAdmission (record_admission_envelope r)
  end.

Definition unknown_attach (request : CredentialAttachRequest) : ParticipantUnknown :=
  mkParticipantUnknown (PRE_CredentialAttach (attach_envelope request)).
Definition stale_attach (request : CredentialAttachRequest) (current_generation : Generation)
    : StaleAuthority :=
  SA_Live (CSA_CredentialAttach (attach_envelope request)) current_generation.
Definition unknown_detach (request : DetachRequest) : ParticipantUnknown :=
  mkParticipantUnknown (PRE_Detach (detach_envelope request)).
Definition unknown_leave (request : LeaveRequest) : ParticipantUnknown :=
  mkParticipantUnknown (PRE_Leave (leave_envelope request)).
Definition no_binding_detach (request : DetachRequest) : NoBinding :=
  mkNoBinding (BRE_Detach (detach_envelope request)).
Definition no_binding_leave (request : LeaveRequest) : NoBinding :=
  mkNoBinding (BRE_Leave (leave_envelope request)).
Definition stale_detach {EF D} (request : DetachRequest) (current_generation : Generation)
    : DetachLookupResult EF D :=
  DLR_StaleAuthority (DSA_Live (dr_conversation_id request) (dr_participant_id request)
    (dr_capability_generation request) (dr_detach_attempt_token request) current_generation).
Definition live_leave_stale (request : LeaveRequest) (current_generation : Generation)
    : LeaveStaleAuthority :=
  LSA_Live (lr_conversation_id request) (lr_participant_id request)
    (lr_capability_generation request) (lr_leave_attempt_token request) current_generation.

Definition receipt_binding_is_current (binding : BindingState) (conversation_id : ConversationId)
    (participant_id : ParticipantId) (origin_binding_epoch : BindingEpoch) : bool :=
  match binding with
  | BS_Bound active =>
      (bnd_conversation_id active =? conversation_id)
      && (bnd_participant_id active =? participant_id)
      && bool_decide (bnd_binding_epoch active = origin_binding_epoch)
  | BS_Detached | BS_PendingFinalization _ => false
  end.

Section Lookup.
Context {EF V LF D : Type} `{!EqDecision D}.

Definition retired_enrollment (tombstone : RetiredIdentity EF V LF) (request : EnrollmentRequest)
    : Retired :=
  Retired_Enrollment (enrollment_envelope request) (ri_participant_id tombstone)
    (ri_retired_generation tombstone).
Definition retired_attach (tombstone : RetiredIdentity EF V LF)
    (request : CredentialAttachRequest) : Retired :=
  Retired_Participant (PRE_CredentialAttach (attach_envelope request))
    (ri_retired_generation tombstone).
Definition retired_detach (tombstone : RetiredIdentity EF V LF) (request : DetachRequest)
    : Retired :=
  Retired_Participant (PRE_Detach (detach_envelope request)) (ri_retired_generation tombstone).
Definition retired_leave (tombstone : RetiredIdentity EF V LF) (request : LeaveRequest)
    : Retired :=
  Retired_Participant (PRE_Leave (leave_envelope request)) (ri_retired_generation tombstone).

(** ** Enrollment *)

Definition lookup_enrollment (phase : EnrollmentTokenPhase EF V LF) (binding : BindingState)
    (request : EnrollmentRequest) : EnrollmentLookupResult :=
  match phase with
  | ETP_Unmapped => ELR_AuthorizedNew
  | ETP_LiveReceipt (RI_Retired tombstone) _
  | ETP_Provenance (RI_Retired tombstone) _
  | ETP_LifetimeMapping (RI_Retired tombstone) =>
      ELR_Retired (retired_enrollment tombstone request)
  | ETP_LiveReceipt (RI_Live member) receipt =>
      let committed := elr_committed receipt in
      let replay := RR_Enrollment committed in
      if receipt_binding_is_current binding (er_conversation_id request)
           (lm_participant_id member) (eb_origin_binding_epoch committed)
      then ELR_Bound replay
      else ELR_UnboundReceipt replay
  | ETP_Provenance (RI_Live member) provenance =>
      ELR_ReceiptExpired (RX_Enrollment (er_conversation_id request)
        (er_enrollment_token request) (lm_participant_id member)
        (epv_result_generation provenance) (lm_generation member) (epv_reason provenance))
  | ETP_LifetimeMapping (RI_Live member) =>
      ELR_EnrollmentKnown (mkEnrollmentKnown (er_conversation_id request)
        (er_enrollment_token request) (lm_participant_id member) (lm_generation member))
  end.

(** ** Credential attach *)

Definition lookup_live_attach_receipt (member : LiveMember EF) (binding : BindingState)
    (request : CredentialAttachRequest) (secret_proof : AttachSecretProof)
    (receipt : CredentialAttachLiveReceipt) : CredentialAttachLookupResult EF :=
  if bool_decide (secret_proof = ASP_Mismatch)
  then ALR_StaleAuthority (stale_attach request (lm_generation member))
  else
    let committed := alc_committed receipt in
    let conflict :=
      if negb (car_capability_generation request =? ab_request_generation committed)
      then Some AC_Generation
      else if negb (bool_decide (car_accept_marker_delivery_seq request
                                 = ab_accepted_marker_delivery_seq committed))
      then Some AC_MarkerDeliverySequence
      else None in
    match conflict with
    | Some conflict =>
        ALR_AttemptTokenBodyConflict (ATB_CredentialAttach (car_attach_attempt_token request)
          (car_conversation_id request) (car_participant_id request)
          (car_capability_generation request) (car_accept_marker_delivery_seq request) conflict)
    | None =>
        let replay := RR_CredentialAttach committed in
        if receipt_binding_is_current binding (car_conversation_id request)
             (car_participant_id request) (ab_origin_binding_epoch committed)
        then ALR_Bound replay
        else ALR_UnboundReceipt replay
    end.

Definition lookup_credential_attach (token_phase : CredentialAttachTokenPhase EF V LF)
    (presented_identity : PresentedIdentity EF V LF) (binding : BindingState)
    (request : CredentialAttachRequest) (secret_proof : AttachSecretProof)
    : CredentialAttachLookupResult EF :=
  let by_presented_key (after_provenance : bool) :=
    match presented_identity with
    | PI_Retired tombstone => ALR_Retired (retired_attach tombstone request)
    | PI_Absent => ALR_ParticipantUnknown (unknown_attach request)
    | PI_Live member =>
        if negb (lm_conversation_id member =? car_conversation_id request)
           || negb (lm_participant_id member =? car_participant_id request)
        then ALR_ParticipantUnknown (unknown_attach request)
        else if after_provenance then
          ALR_StaleOrUnknownReceipt (mkStaleOrUnknownReceipt (car_conversation_id request)
            (car_attach_attempt_token request) (car_participant_id request)
            (car_capability_generation request) (car_accept_marker_delivery_seq request)
            (lm_generation member))
        else if negb (car_capability_generation request =? lm_generation member)
                || bool_decide (secret_proof = ASP_Mismatch)
        then ALR_StaleAuthority (stale_attach request (lm_generation member))
        else ALR_AuthorizedFresh member
    end in
  match token_phase with
  | ATP_LiveReceipt identity receipt =>
      match identity with
      | RI_Retired tombstone => ALR_Retired (retired_attach tombstone request)
      | RI_Live member => lookup_live_attach_receipt member binding request secret_proof receipt
      end
  | ATP_Provenance identity provenance =>
      match identity with
      | RI_Retired tombstone => ALR_Retired (retired_attach tombstone request)
      | RI_Live member =>
          ALR_ReceiptExpired (RX_CredentialAttach (car_conversation_id request)
            (car_attach_attempt_token request) (car_participant_id request)
            (car_capability_generation request) (car_accept_marker_delivery_seq request)
            (apv_result_generation provenance) (lm_generation member) (apv_reason provenance))
      end
  | ATP_NoMatch => by_presented_key false
  | ATP_AfterProvenance => by_presented_key true
  end.

(** ** Acknowledgements and records *)

Definition lookup_binding_required (identity : PresentedIdentity EF V LF)
    (binding : BindingState) (receiving_binding_epoch : option BindingEpoch)
    (request : ParticipantBindingRequest) : BindingRequiredLookupResult EF :=
  match identity with
  | PI_Retired tombstone =>
      BLR_Retired (Retired_Participant (participant_reference request)
                     (ri_retired_generation tombstone))
  | PI_Absent => BLR_ParticipantUnknown (mkParticipantUnknown (participant_reference request))
  | PI_Live member =>
      if negb (lm_conversation_id member =? binding_request_conversation request)
         || negb (lm_participant_id member =? binding_request_participant request)
      then BLR_ParticipantUnknown (mkParticipantUnknown (participant_reference request))
      else if negb (binding_request_generation request =? lm_generation member)
      then BLR_StaleAuthority (SA_Live (common_stale_envelope request) (lm_generation member))
      else
        match binding with
        | BS_Bound active =>
            if (bnd_conversation_id active =? lm_conversation_id member)
               && (bnd_participant_id active =? lm_participant_id member)
               && (capability_generation (bnd_binding_epoch active) =? lm_generation member)
               && bool_decide (receiving_binding_epoch = Some (bnd_binding_epoch active))
            then BLR_Authorized member active
            else BLR_NoBinding (mkNoBinding (binding_required_envelope request))
        | BS_Detached | BS_PendingFinalization _ =>
            BLR_NoBinding (mkNoBinding (binding_required_envelope request))
        end
  end.

(** ** Detach *)

Definition binding_view (member : LiveMember EF) (binding : BindingState) : BindingStateView :=
  match binding with
  | BS_Bound active =>
      if (bnd_participant_id active =? lm_participant_id member)
         && (bnd_conversation_id active =? lm_conversation_id member)
         && (capability_generation (bnd_binding_epoch active) =? lm_generation member)
      then BSV_Bound (bnd_binding_epoch active)
      else BSV_Detached
  | BS_Detached | BS_PendingFinalization _ => BSV_Detached
  end.

Definition lookup_exact_detach_cell (member : LiveMember EF) (cell : DetachCell D)
    (binding : BindingState) (request : DetachRequest) (request_verifier : D)
    (observer_progress : DeliverySeq) : option (DetachLookupResult EF D) :=
  if negb (dr_conversation_id request =? lm_conversation_id member) then None
  else
    match cell with
    | DC_Empty => None
    | DC_Pending pending =>
        Some (match pending_verify_exact pending request request_verifier with
              | Err _ => stale_detach request (lm_generation member)
              | Ok verified =>
                  DLR_PendingReplayRequired
                    (prepare_replay verified (dr_conversation_id request) binding
                       observer_progress)
              end)
    | DC_Committed committed =>
        Some (match committed_verify_exact committed request request_verifier with
              | Err _ => stale_detach request (lm_generation member)
              | Ok verified =>
                  DLR_DetachCommitted (committed_outcome verified (dr_conversation_id request))
              end)
    | DC_Terminalized terminalized =>
        Some (match terminalized_verify_exact terminalized request request_verifier with
              | Err _ => stale_detach request (lm_generation member)
              | Ok verified =>
                  DLR_StaleAuthority (DSA_TerminalizedDetachCell
                    (from_terminalized_state verified (dr_conversation_id request)
                       (lm_generation member) (binding_view member binding)))
              end)
    end.

Definition lookup_detach (context : DetachLookupContext EF V LF D) : DetachLookupResult EF D :=
  let request := dlc_request context in
  let cell := dlc_cell context in
  let binding := dlc_binding context in
  let no_exact_match :=
    match dlc_token_resolution context with DTR_NoExactMatch => true | DTR_Exact _ => false end in
  let by_presented_key :=
    match dlc_presented_identity context with
    | PI_Retired tombstone => DLR_Retired (retired_detach tombstone request)
    | PI_Absent => DLR_ParticipantUnknown (unknown_detach request)
    | PI_Live member =>
        if negb (lm_conversation_id member =? dr_conversation_id request)
           || negb (lm_participant_id member =? dr_participant_id request)
        then DLR_ParticipantUnknown (unknown_detach request)
        else
          let ordinary :=
            if negb (dr_capability_generation request =? lm_generation member)
            then stale_detach request (lm_generation member)
            else
              match binding with
              | BS_Bound active =>
                  if (bnd_conversation_id active =? dr_conversation_id request)
                     && (bnd_participant_id active =? dr_participant_id request)
                     && (capability_generation (bnd_binding_epoch active)
                         =? dr_capability_generation request)
                     && bool_decide (dlc_receiving_binding_epoch context
                                     = Some (bnd_binding_epoch active))
                  then DLR_Authorized member active
                  else DLR_NoBinding (no_binding_detach request)
              | BS_Detached | BS_PendingFinalization _ =>
                  DLR_NoBinding (no_binding_detach request)
              end in
          match cell with
          | DC_Pending pending =>
              if no_exact_match then
                DLR_DetachInProgress (competing_attempt pending (dr_conversation_id request)
                  (dr_detach_attempt_token request) (dr_capability_generation request))
              else ordinary
          | _ => ordinary
          end
    end in
  match dlc_token_resolution context with
  | DTR_Exact (RI_Retired tombstone) => DLR_Retired (retired_detach tombstone request)
  | DTR_Exact (RI_Live member) =>
      match lookup_exact_detach_cell member cell binding request (dlc_request_verifier context)
              (dlc_observer_progress context) with
      | Some result => result
      | None => by_presented_key
      end
  | DTR_NoExactMatch => by_presented_key
  end.

(** ** Leave *)

Definition lookup_retired_leave (tombstone : RetiredIdentity EF V LF) (request : LeaveRequest)
    (secret_proof : LeaveSecretProof) : LeaveLookupResult EF :=
  if negb (lr_conversation_id request =? ri_conversation_id tombstone)
     || negb (lr_participant_id request =? ri_participant_id tombstone)
  then LLR_ParticipantUnknown (unknown_leave request)
  else if negb (token_eqb (lr_leave_attempt_token request) (ri_leave_attempt_token tombstone))
  then LLR_Retired (retired_leave tombstone request)
  else if bool_decide (secret_proof = LSP_Mismatch)
  then LLR_StaleAuthority (LSA_CommittedLeaveTombstone (lr_conversation_id request)
         (lr_participant_id request) (lr_capability_generation request)
         (lr_leave_attempt_token request) (ri_retired_generation tombstone))
  else if negb (lr_capability_generation request
                =? lc_presented_generation (ri_committed_result tombstone))
  then LLR_AttemptTokenBodyConflict (ATB_Leave (lr_leave_attempt_token request)
         (lr_conversation_id request) (lr_participant_id request)
         (lr_capability_generation request))
  else LLR_LeaveCommitted (ri_committed_result tombstone).

Definition lookup_leave (identity : PresentedIdentity EF V LF) (binding : BindingState)
    (request_binding_epoch : option BindingEpoch) (request : LeaveRequest)
    (secret_proof : LeaveSecretProof) : LeaveLookupResult EF :=
  match identity with
  | PI_Retired tombstone => lookup_retired_leave tombstone request secret_proof
  | PI_Absent => LLR_ParticipantUnknown (unknown_leave request)
  | PI_Live member =>
      if negb (lm_conversation_id member =? lr_conversation_id request)
         || negb (lm_participant_id member =? lr_participant_id request)
      then LLR_ParticipantUnknown (unknown_leave request)
      else if negb (lr_capability_generation request =? lm_generation member)
              || bool_decide (secret_proof = LSP_Mismatch)
      then LLR_StaleAuthority (live_leave_stale request (lm_generation member))
      else
        match binding with
        | BS_Bound active =>
            if (bnd_conversation_id active =? lr_conversation_id request)
               && (bnd_participant_id active =? lr_participant_id request)
               && bool_decide (request_binding_epoch = Some (bnd_binding_epoch active))
            then LLR_AuthorizedBound member active
            else LLR_NoBinding (no_binding_leave request)
        | BS_Detached | BS_PendingFinalization _ => LLR_AuthorizedDetached member
        end
  end.

End Lookup.
