(* ===== verification/Capacity.v ===== *)
(** * Receipt, identity and connection capacity

    Model of [liminal-protocol/src/lifecycle/admission/capacity.rs]: validated bounded
    counters, the per-participant retention windows that always admit, and the stage-6
    and stage-8 selectors for connections, binding slots and identities. *)
From coqutil Require Import Byte.
From S2P Require Import Prelude Algebra Tags Wire Response Authority Binding Member Detach Lookup.

Inductive CapacityCounterInvariantError :=
| CCI_ZeroLimit
| CCI_OccupiedExceedsLimit (occupied limit : Z).
Record CapacityCounter := mkCapacityCounter {
  cc_limit : Z;
  cc_occupied : Z;
}.
Definition CapacityCounter_try_new (limit occupied : Z)
    : result CapacityCounter CapacityCounterInvariantError :=
  if limit =? 0 then Err CCI_ZeroLimit
  else if limit <? occupied then Err (CCI_OccupiedExceedsLimit occupied limit)
  else Ok (mkCapacityCounter limit occupied).
Definition is_full (c : CapacityCounter) : bool := cc_occupied c =? cc_limit c.
Definition incremented (c : CapacityCounter) : option CapacityCounter :=
  if is_full c then None
  else Some (mkCapacityCounter (cc_limit c) (add_u64 (cc_occupied c) 1)).

Inductive FreshParticipantCapacityCounterInvariantError :=
| FPC_Capacity (e : CapacityCounterInvariantError)
| FPC_Nonempty (occupied : Z).
Record FreshParticipantCapacityCounter := mkFreshParticipantCapacityCounter {
  fpc_counter : CapacityCounter;
}.
Definition FreshParticipantCapacityCounter_try_new (limit occupied : Z)
    : result FreshParticipantCapacityCounter FreshParticipantCapacityCounterInvariantError :=
  let? counter := map_err FPC_Capacity (CapacityCounter_try_new limit occupied) in
  if negb (occupied =? 0) then Err (FPC_Nonempty occupied)
  else Ok (mkFreshParticipantCapacityCounter counter).
Definition reserved (c : FreshParticipantCapacityCounter) : CapacityCounter :=
  mkCapacityCounter (cc_limit (fpc_counter c)) 1.
Definition unfilled (c : FreshParticipantCapacityCounter) : CapacityCounter := fpc_counter c.

(** ** Windows *)

Inductive ParticipantWindowAdmission := PWA_Landed | PWA_Displaced.
Record ParticipantWindowCommit := mkParticipantWindowCommit {
  pwc_admission : ParticipantWindowAdmission;
  pwc_resulting : CapacityCounter;
}.
Definition displaced (c : ParticipantWindowCommit) : bool :=
  match pwc_admission c with PWA_Displaced => true | PWA_Landed => false end.
Definition select_participant_window (current : CapacityCounter) : ParticipantWindowCommit :=
  match incremented current with
  | Some resulting => mkParticipantWindowCommit PWA_Landed resulting
  | None => mkParticipantWindowCommit PWA_Displaced current
  end.

(** ** Connections and binding slots *)

Inductive ConnectionConversationTracking := CCT_AlreadyTracked | CCT_Untracked.
Record ConnectionConversationCapacityCommit := mkConnectionConversationCapacityCommit {
  ccx_resulting : CapacityCounter;
  ccx_newly_tracked : bool;
}.
Inductive SemanticConnectionCapacityDecision :=
| SCD_Commit (commit : ConnectionConversationCapacityCommit)
| SCD_Respond (limit : Z).
Definition select_semantic_connection_capacity (tracking : ConnectionConversationTracking)
    (current : CapacityCounter) : SemanticConnectionCapacityDecision :=
  match tracking with
  | CCT_AlreadyTracked => SCD_Commit (mkConnectionConversationCapacityCommit current false)
  | CCT_Untracked =>
      match incremented current with
      | None => SCD_Respond (cc_limit current)
      | Some resulting => SCD_Commit (mkConnectionConversationCapacityCommit resulting true)
      end
  end.

Inductive BindingSlotOccupancy :=
| BSO_Empty
| BSO_Occupied (participant_id : ParticipantId).
Inductive BindingSlotDecision (R : Type) :=
| BSD_Available
| BSD_Respond (r : R).
Arguments BSD_Available {R}.
Arguments BSD_Respond {R} _.
Definition select_enrollment_binding_slot (request : EnrollmentRequest)
    (occupancy : BindingSlotOccupancy) : BindingSlotDecision EnrollmentResponse :=
  match occupancy with
  | BSO_Empty => BSD_Available
  | BSO_Occupied _ =>
      BSD_Respond (EnrollmentResponse_connection_conversation_binding_occupied
        (enrollment_envelope request))
  end.
Definition select_credential_attach_binding_slot (request : CredentialAttachRequest)
    (occupancy : BindingSlotOccupancy) : BindingSlotDecision CredentialAttachResponse :=
  match occupancy with
  | BSO_Empty => BSD_Available
  | BSO_Occupied participant_id =>
      if participant_id =? car_participant_id request then BSD_Available
      else BSD_Respond (CredentialAttachResponse_connection_conversation_binding_occupied
             (attach_envelope request))
  end.

(** ** Enrollment *)

Record EnrollmentCapacityCounters := mkEnrollmentCapacityCounters {
  ecc_identity_server : CapacityCounter;
  ecc_identity_conversation : CapacityCounter;
  ecc_live_receipt_participant : FreshParticipantCapacityCounter;
  ecc_provenance_participant : FreshParticipantCapacityCounter;
}.
Record ResultingEnrollmentCapacityCounters := mkResultingEnrollmentCapacityCounters {
  rec_identity_server : CapacityCounter;
  rec_identity_conversation : CapacityCounter;
  rec_live_receipt_participant : CapacityCounter;
  rec_provenance_participant : CapacityCounter;
}.
Record EnrollmentCapacityCommit := mkEnrollmentCapacityCommit {
  ecx_resulting : ResultingEnrollmentCapacityCounters;
}.
Inductive EnrollmentCapacityDecision :=
| ECD_Commit (commit : EnrollmentCapacityCommit)
| ECD_Respond (r : EnrollmentResponse).

Definition enrollment_identity_refusal (request : EnrollmentRequest)
    (scope : IdentityCapacityScope) (counter : CapacityCounter) : EnrollmentCapacityDecision :=
  ECD_Respond (EnrollmentResponse_identity_capacity_exceeded
    (mkIdentityCapacityExceeded (enrollment_envelope request) scope (cc_limit counter)
       (cc_occupied counter))).

Definition select_enrollment_capacity (request : EnrollmentRequest)
    (current : EnrollmentCapacityCounters) : EnrollmentCapacityDecision :=
  match incremented (ecc_identity_server current) with
  | None => enrollment_identity_refusal request IC_Server (ecc_identity_server current)
  | Some identity_server =>
      match incremented (ecc_identity_conversation current) with
      | None =>
          enrollment_identity_refusal request IC_Conversation (ecc_identity_conversation current)
      | Some identity_conversation =>
          ECD_Commit (mkEnrollmentCapacityCommit (mkResultingEnrollmentCapacityCounters
            identity_server identity_conversation
            (reserved (ecc_live_receipt_participant current))
            (unfilled (ecc_provenance_participant current))))
      end
  end.

(** ** Credential attach *)

Record CredentialAttachCapacityCounters := mkCredentialAttachCapacityCounters {
  cac_live_receipt_participant : CapacityCounter;
  cac_provenance_participant : CapacityCounter;
}.
Record CredentialAttachCapacityCommit := mkCredentialAttachCapacityCommit {
  cax_live_receipt_participant : ParticipantWindowCommit;
  cax_provenance_participant : ParticipantWindowCommit;
}.
Definition select_credential_attach_capacity (current : CredentialAttachCapacityCounters)
    : CredentialAttachCapacityCommit :=
  mkCredentialAttachCapacityCommit
    (select_participant_window (cac_live_receipt_participant current))
    (select_participant_window (cac_provenance_participant current)).

(** ** Bounds *)

(** What [try_new] establishes. *)
Definition counter_ok (c : CapacityCounter) : Prop :=
  u64 (cc_limit c) /\ cc_limit c <> 0 /\ 0 <= cc_occupied c <= cc_limit c.

Lemma try_new_ok limit occupied c : u64 limit -> u64 occupied ->
  CapacityCounter_try_new limit occupied = Ok c <->
  c = mkCapacityCounter limit occupied /\ counter_ok c.
Proof.
  intros Hl Ho. unfold CapacityCounter_try_new, counter_ok. split.
  - destruct (Z.eqb_spec limit 0); [done|]. destruct (Z.ltb_spec limit occupied); [done|].
    intros [= <-]; simpl. split_and!; [done|done|done|mlia|done].
  - intros (-> & _ & Hz & Hr); simpl in *. rewrite (proj2 (Z.eqb_neq _ _) Hz).
    by rewrite (proj2 (Z.ltb_ge _ _)) by lia.
Qed.

Lemma incremented_ok c c' : counter_ok c -> incremented c = Some c' ->
  counter_ok c' /\ cc_limit c' = cc_limit c /\ cc_occupied c' = cc_occupied c + 1.
Proof.
  unfold incremented, is_full. intros (Hl & Hz & Hr) H.
  destruct (Z.eqb_spec (cc_occupied c) (cc_limit c)); [done|]. injection H as <-; simpl.
  rewrite add_u64_exact by mlia. unfold counter_ok; simpl. split_and!; [done|done|lia|lia|done|done].
Qed.

Lemma incremented_None c : counter_ok c ->
  incremented c = None <-> cc_occupied c = cc_limit c.
Proof.
  unfold incremented, is_full. intros _. destruct (Z.eqb_spec (cc_occupied c) (cc_limit c)); by split.
Qed.

Lemma window_ok c : counter_ok c -> counter_ok (pwc_resulting (select_participant_window c)).
Proof.
  intros Hc. unfold select_participant_window. destruct (incremented c) eqn:E; [|done].
  by apply incremented_ok in E as [? _].
Qed.
