(* ===== verification/Reissue.v ===== *)
(** * Operator credential re-issue

    The data of the operator operation [OperatorCredentialReissue]
    ([health/reissue.rs]), its durable row ([production/log_v3.rs]) and the parts of
    [production/ops_reissue.rs] that do not read the rest of the slot: the two
    receipt predicates, the checked increment and the installer of a re-issued
    credential.  The guarded operation itself is in [Slot], over the identity slot
    it decides on. *)
From coqutil Require Import Byte.
From Stdlib Require Import String Ascii.
From S2P Require Import Prelude Tags Wire Response Binding Member.

Record OperatorCredentialReissueRequest := mkReissueRequest {
  orq_conversation_id : ConversationId;
  orq_participant_id : ParticipantId;
  orq_expected_current_generation : Z;
}.
Record OperatorCredentialReissued := mkReissued {
  ori_conversation_id : ConversationId;
  ori_participant_id : ParticipantId;
  ori_presented_generation : Z;
  ori_issued_generation : Z;
  ori_attach_secret : string;
}.
Inductive OperatorCredentialReissueRefusal :=
| ORR_ConversationUnknown (conversation_id : ConversationId)
| ORR_ParticipantUnknown (conversation_id : ConversationId) (participant_id : ParticipantId)
| ORR_Retired (conversation_id : ConversationId) (participant_id : ParticipantId)
    (retired_generation : Z)
| ORR_LiveBinding (conversation_id : ConversationId) (participant_id : ParticipantId)
    (current_generation : Z) (binding_state : string)
| ORR_DetachReplayOpen (conversation_id : ConversationId) (participant_id : ParticipantId)
    (current_generation : Z)
| ORR_LiveReceipt (conversation_id : ConversationId) (participant_id : ParticipantId)
    (current_generation : Z) (receipt : string)
| ORR_GenerationMismatch (conversation_id : ConversationId) (participant_id : ParticipantId)
    (presented_generation current_generation : Z).
Inductive OperatorCredentialReissueOutcome :=
| ORO_Issued (reissued : OperatorCredentialReissued)
| ORO_Refused (refusal : OperatorCredentialReissueRefusal).

Record StoredCredentialReissue := mkStoredReissue {
  scr_participant_id : ParticipantId;
  scr_presented_generation : Z;
  scr_issued_generation : Z;
  scr_attach_secret_verifier : list byte;
  scr_admitted_now_ms : Z;
}.

(** The [StateError]s of the operation. *)
Inductive AllocationDomain := AD_CapabilityGeneration | AD_LogSequence.
Inductive ReissueError :=
| RIE_AllocationExhausted (domain : AllocationDomain)
| RIE_Entropy
| RIE_Append
| RIE_ZeroGeneration
| RIE_CorruptRow (sequence : Z)
| RIE_Invariant.

Definition BOUND : string := "bound".
Definition PENDING_FINALIZATION : string := "pending_finalization".
Definition ATTACH_RECEIPT : string := "attach".
Definition ENROLLMENT_RECEIPT : string := "enrollment".

(** The receipt deadlines a slot keeps: of the current attach, if any, and of the
    enrollment, with the reason an attach ended it. *)
Record SlotReceipts := mkSlotReceipts {
  srt_attach_receipt_expires_at : option Z;
  srt_enrollment_receipt_expires_at : Z;
  srt_enrollment_receipt_ended : option ReceiptExpiryReason;
}.
Definition attach_receipt_live (r : SlotReceipts) (now : Z) : bool :=
  match srt_attach_receipt_expires_at r with
  | Some receipt_expires_at => now <? receipt_expires_at
  | None => false
  end.
Definition enrollment_receipt_live (r : SlotReceipts) (now : Z) : bool :=
  is_none (srt_enrollment_receipt_ended r) && (now <? srt_enrollment_receipt_expires_at r).

(** Lowercase hex, two digits a byte. *)
Definition hex_digit (n : N) : ascii :=
  ascii_of_N (if (n <? 10)%N then 48 + n else 87 + n).
Fixpoint encode_hex (bytes : list byte) : string :=
  match bytes with
  | []%list => EmptyString
  | (b :: bytes)%list =>
      String (hex_digit (Byte.to_N b / 16)) (String (hex_digit (Byte.to_N b mod 16))
        (encode_hex bytes))
  end.

Definition next_generation (current : Generation) : result Generation ReissueError :=
  match
    match checked_add u64_max current 1 with Some value => Generation_new value | None => None end
  with
  | Some generation => Ok generation
  | None => Err (RIE_AllocationExhausted AD_CapabilityGeneration)
  end.

Definition advance_log_head (next_log_sequence : Z) : result Z ReissueError :=
  match checked_add u64_max next_log_sequence 1 with
  | Some next => Ok next
  | None => Err (RIE_AllocationExhausted AD_LogSequence)
  end.

Section Install.
Context {EF : Type}.

(** The member an installed row leaves: only the credential moves. *)
Definition install_reissued_credential (m : LiveMember EF) (row : StoredCredentialReissue)
    : result (LiveMember EF) ReissueError :=
  match Generation_new (scr_issued_generation row) with
  | None => Err RIE_ZeroGeneration
  | Some issued_generation =>
      if negb (lm_generation m =? scr_presented_generation row) then Err RIE_Invariant
      else map_err (fun _ => RIE_Invariant)
        (LiveMember_restore (mkLiveMemberRestore (lm_participant_id m) (lm_conversation_id m)
           issued_generation (scr_attach_secret_verifier row) (lm_cursor m)
           (lm_enrollment_fingerprint m) (lm_latest_terminal m)))
  end.

(** Replay installs a stored row with the same installer; the member and the log
    head it leaves. *)
Definition replay_credential_reissue (m : LiveMember EF) (next_log_sequence : Z)
    (row : StoredCredentialReissue) (sequence : Z) : result (LiveMember EF * Z) ReissueError :=
  if negb (bool_decide (checked_add u64_max (scr_presented_generation row) 1
                        = Some (scr_issued_generation row)))
  then Err (RIE_CorruptRow sequence)
  else
    let? member := install_reissued_credential m row in
    let? next := advance_log_head next_log_sequence in
    Ok (member, next).

(** The member with the re-issued credential. *)
Definition reissued_member (m : LiveMember EF) (secret : AttachSecret) : LiveMember EF :=
  mkLiveMember (lm_participant_id m) (lm_conversation_id m) (lm_generation m + 1) secret
    (lm_cursor m) (lm_enrollment_fingerprint m) (lm_latest_terminal m).

Lemma next_generation_Ok g g' : next_generation g = Ok g' -> g' = g + 1 /\ g < u64_max.
Proof.
  unfold next_generation. destruct (checked_add _ _ _) as [v|] eqn:E; [|done].
  apply checked_add_Some in E as [-> ?]. unfold Generation_new. destruct (_ =? 0); [done|].
  intros [= <-]. lia.
Qed.

Lemma next_generation_Err g e : next_generation g = Err e ->
  e = RIE_AllocationExhausted AD_CapabilityGeneration.
Proof. unfold next_generation. intros H. csplit_in H; by simplify_eq. Qed.

Lemma next_generation_intro g : 1 <= g -> g < u64_max -> next_generation g = Ok (g + 1).
Proof.
  intros H1 H2. unfold next_generation. rewrite checked_add_exact by lia. unfold Generation_new.
  by destruct (Z.eqb_spec (g + 1) 0); [lia|].
Qed.

Lemma install_reissued_credential_Ok m row m' : install_reissued_credential m row = Ok m' ->
  lm_generation m = scr_presented_generation row
  /\ m' = mkLiveMember (lm_participant_id m) (lm_conversation_id m) (scr_issued_generation row)
            (scr_attach_secret_verifier row) (lm_cursor m) (lm_enrollment_fingerprint m)
            (lm_latest_terminal m).
Proof.
  unfold install_reissued_credential, Generation_new, LiveMember_restore, map_err. simpl.
  intros H. ok_inv H; done.
Qed.

Lemma install_reissued_credential_Err m row e : install_reissued_credential m row = Err e ->
  e = RIE_ZeroGeneration \/ e = RIE_Invariant.
Proof.
  unfold install_reissued_credential, map_err. intros H. csplit_in H; simplify_eq; auto.
Qed.

End Install.
