(* ===== verification/Slot.v ===== *)
(** * The life of one participant identity

    The composition of enrollment, attach, detach, binding fate, terminal drain,
    operator re-issue and Leave over one identity slot: the member, its binding and
    its detach cell, as the server's participant slot keeps them.  [slot_apply] runs
    one committed operation; the operations come from [Attach], [Detach], [Leave] and
    [Reissue].  The states of [SlotState] follow the participant index: absent before
    its enrollment, live, retired by a Leave, or released by the drain of a crash,
    after which the index resolves to nothing and is never allocated again.  The theorems state the
    invariant of a slot, that it implements an abstract participant machine, that
    what a lookup authorizes the transactions accept, and that stored requests
    replay. *)
From coqutil Require Import Byte.
From S2P Require Import Prelude Lookup Algebra Tags Wire Response Edge Binding EdgeSteps Member.
From S2P Require Import Detach Leave Attach Reissue.

Section Slot.
Context {EF V LF D P Fr : Type} `{!EqDecision D} `{!LeaveFrontier Fr}.

Record Slot := mkSlot {
  sl_member : LiveMember EF;
  sl_binding : BindingState;
  sl_cell : DetachCell D;
}.
Inductive SlotState :=
| SS_Absent
| SS_Live (s : Slot)
| SS_Retired (t : RetiredIdentity EF V LF)
| SS_Released.

(** The stored causes of [crash_repository.rs]. *)
Inductive StoredCrashCause :=
| SCC_ConnectionLost | SCC_ProcessKilled | SCC_ProtocolError | SCC_UncleanServerRestart.

Definition crash_transition (cause : StoredCrashCause) (b : ActiveBinding)
    (disposition : BindingTerminalDisposition) : DiedBindingTransition :=
  match cause with
  | SCC_ConnectionLost => connection_lost b disposition
  | SCC_ProcessKilled => process_killed b disposition
  | SCC_ProtocolError => protocol_error b disposition
  | SCC_UncleanServerRestart => unclean_server_restart b disposition
  end.

(** [crash_repository.rs]: a crash of the bound participant. *)
Definition apply_crash (s : Slot) (cause : StoredCrashCause)
    (disposition : BindingTerminalDisposition) : option Slot :=
  match sl_binding s with
  | BS_Bound b =>
      let transition := crash_transition cause b disposition in
      match
        match transition with
        | YBT_Committed terminal => with_committed_terminal (sl_member s) (CBT_Died terminal)
        | YBT_Pending _ => Ok (sl_member s)
        end
      with
      | Ok member => Some (mkSlot member (ybt_binding_state transition) (sl_cell s))
      | Err _ => None
      end
  | _ => None
  end.

(** [connection_fate_replay.rs]: the fate of a binding observed by the server
    installs the binding state of its transition in the slot. *)
Inductive FateTransition :=
| FT_Died (cause : StoredCrashCause)
| FT_ServerShutdown
| FT_CleanDisconnect.
Definition apply_fate (s : Slot) (fate : FateTransition)
    (disposition : BindingTerminalDisposition) : option Slot :=
  match sl_binding s with
  | BS_Bound b =>
      let binding :=
        match fate with
        | FT_Died cause => ybt_binding_state (crash_transition cause b disposition)
        | FT_ServerShutdown => dbt_binding_state (server_shutdown b disposition)
        | FT_CleanDisconnect => dbt_binding_state (clean_disconnect b disposition)
        end in
      Some (mkSlot (sl_member s) binding (sl_cell s))
  | _ => None
  end.

(** [ops_terminal_drain.rs]: a drained pending Detached terminal settles in place. *)
Definition commit_drained_detached_slot (s : Slot) (detached : PendingDetachedFinalization)
    (delivery_seq : DeliverySeq) : option Slot :=
  match sl_cell s with
  | DC_Pending pending_cell =>
      match complete_pending_detach (sl_member s) (sl_binding s) pending_cell delivery_seq with
      | Ok t => Some (mkSlot (cdx_member t) (cdx_binding_state t) (DC_Committed (cdx_cell t)))
      | Err _ => None
      end
  | settled_cell =>
      match with_committed_terminal (sl_member s)
              (CBT_Detached (pdf_commit detached delivery_seq)) with
      | Ok member => Some (mkSlot member BS_Detached settled_cell)
      | Err _ => None
      end
  end.

(** The drained slot settles by the flavour of its terminal: a crash releases the
    identity, a detach commits in place. *)
Definition settle_drained_binding_slot (s : Slot) (flavor : PendingFinalization)
    (delivery_seq : DeliverySeq) : option SlotState :=
  match flavor with
  | PF_Died _ => Some SS_Released
  | PF_Detached detached =>
      s' ← commit_drained_detached_slot s detached delivery_seq; Some (SS_Live s')
  end.

(** [ops_reissue.rs]: an operator re-issues the credential of a detached identity.
    The slot and the log head it leaves, and the answer; [entropy] is the minted
    secret and [appended] whether the durable append succeeded. *)
Definition mint_reissued_credential (s : Slot) (request : OperatorCredentialReissueRequest)
    (current_generation : Generation) (now_ms next_log_sequence : Z)
    (entropy : option (list byte)) (appended : bool)
    : (Slot * Z) * result OperatorCredentialReissueOutcome ReissueError :=
  match next_generation current_generation with
  | Err e => ((s, next_log_sequence), Err e)
  | Ok issued_generation =>
      match entropy with
      | None => ((s, next_log_sequence), Err RIE_Entropy)
      | Some issued_secret =>
          let row := mkStoredReissue (orq_participant_id request) current_generation
                       issued_generation issued_secret now_ms in
          if negb appended then ((s, next_log_sequence), Err RIE_Append)
          else
            match install_reissued_credential (sl_member s) row with
            | Err e => ((s, next_log_sequence), Err e)
            | Ok member =>
                let s' := mkSlot member (sl_binding s) (sl_cell s) in
                match advance_log_head next_log_sequence with
                | Err e => ((s', next_log_sequence), Err e)
                | Ok next => ((s', next), Ok (ORO_Issued (mkReissued
                    (orq_conversation_id request) (orq_participant_id request)
                    current_generation issued_generation (encode_hex issued_secret))))
                end
            end
      end
  end.

(** The guards of a re-issue against a live slot, in their order. *)
Definition reissue_refusal (s : Slot) (receipts : SlotReceipts)
    (request : OperatorCredentialReissueRequest) (now : Z)
    : option OperatorCredentialReissueRefusal :=
  let conversation_id := orq_conversation_id request in
  let participant_id := orq_participant_id request in
  let current_generation := lm_generation (sl_member s) in
  let live_binding :=
    match sl_binding s with
    | BS_Detached => None
    | BS_Bound _ => Some BOUND
    | BS_PendingFinalization _ => Some PENDING_FINALIZATION
    end in
  let live_receipt :=
    if attach_receipt_live receipts now then Some ATTACH_RECEIPT
    else if enrollment_receipt_live receipts now then Some ENROLLMENT_RECEIPT
    else None in
  match live_binding with
  | Some binding_state =>
      Some (ORR_LiveBinding conversation_id participant_id current_generation binding_state)
  | None =>
      match live_receipt with
      | Some receipt =>
          Some (ORR_LiveReceipt conversation_id participant_id current_generation receipt)
      | None =>
          match sl_cell s with
          | DC_Committed _ =>
              Some (ORR_DetachReplayOpen conversation_id participant_id current_generation)
          | _ =>
              if negb (orq_expected_current_generation request =? current_generation)
              then Some (ORR_GenerationMismatch conversation_id participant_id
                           (orq_expected_current_generation request) current_generation)
              else None
          end
      end
  end.

Definition apply_operator_credential_reissue (st : SlotState) (receipts : SlotReceipts)
    (request : OperatorCredentialReissueRequest) (now_ms next_log_sequence : Z)
    (entropy : option (list byte)) (appended : bool)
    : (SlotState * Z) * result OperatorCredentialReissueOutcome ReissueError :=
  let refused refusal := ((st, next_log_sequence), Ok (ORO_Refused refusal)) in
  if next_log_sequence =? 0
  then refused (ORR_ConversationUnknown (orq_conversation_id request))
  else
    match st with
    | SS_Retired t => refused (ORR_Retired (orq_conversation_id request)
                                 (orq_participant_id request) (ri_retired_generation t))
    | SS_Absent | SS_Released => refused (ORR_ParticipantUnknown (orq_conversation_id request)
                                            (orq_participant_id request))
    | SS_Live s =>
        match reissue_refusal s receipts request now_ms with
        | Some refusal => refused refusal
        | None =>
            let '((s', next), r) :=
              mint_reissued_credential s request (lm_generation (sl_member s)) now_ms
                next_log_sequence entropy appended in
            ((SS_Live s', next), r)
        end
    end.

(** The row of the re-issue was installed: it is answered, or the log head is at its
    last position. *)
Definition reissue_installed (r : result OperatorCredentialReissueOutcome ReissueError) : bool :=
  match r with
  | Ok (ORO_Issued _) | Err (RIE_AllocationExhausted AD_LogSequence) => true
  | _ => false
  end.

(** One committed operation on an identity slot. *)
Inductive SlotOp :=
| Op_Enroll (request : EnrollmentRequest) (parameters : EnrollmentCommitParameters EF P)
| Op_Cursor (update : LiveMemberCursorUpdate)
| Op_Detach (request : DetachRequest) (verifier : D) (position : CommittedBindingTerminalPosition)
| Op_BlockedDetach (request : DetachRequest) (verifier : D)
    (position : PendingBindingTerminalPosition) (observer_progress : DeliverySeq)
| Op_ReplayDetach (request : DetachRequest) (verifier : D) (observer_progress : DeliverySeq)
    (decision : PendingDrainDecision)
| Op_Drain (delivery_seq : DeliverySeq)
| Op_Crash (cause : StoredCrashCause) (disposition : BindingTerminalDisposition)
| Op_Fate (fate : FateTransition) (disposition : BindingTerminalDisposition)
| Op_Attach (admission : OrdinaryDetachedAttachAdmission) (request : CredentialAttachRequest)
    (secret_proof : AttachSecretProof) (parameters : AttachCommitParameters)
| Op_Supersede (request : CredentialAttachRequest) (secret_proof : AttachSecretProof)
    (position : CommittedBindingTerminalPosition) (parameters : AttachCommitParameters)
| Op_FencedAttach (request : CredentialAttachRequest) (secret_proof : AttachSecretProof)
    (proof : FencedAttachCommit) (pending_terminal_delivery_seq : option DeliverySeq)
    (parameters : AttachCommitParameters)
| Op_Leave (request : LeaveRequest) (secret_proof : AttachSecretProof) (verifier : V)
    (fingerprint : LeaveFingerprint LF) (authority : PreparedLeaveAuthority Fr)
    (parameters : LeaveCommitParameters)
| Op_PendingLeave (request : LeaveRequest) (secret_proof : AttachSecretProof) (verifier : V)
    (fingerprint : LeaveFingerprint LF) (authority : PreparedLeaveAuthority Fr)
    (parameters : PendingLeaveCommitParameters)
| Op_Reissue (receipts : SlotReceipts) (request : OperatorCredentialReissueRequest)
    (now_ms next_log_sequence : Z) (entropy : option (list byte)) (appended : bool).

Definition slot_of_attach (verified : VerifiedAttachCommit EF) (cell : DetachCell D)
    : option Slot :=
  c ← ok (commit_attach verified cell);
  Some (mkSlot (atc_member c) (atc_binding_state c) (atc_detach_cell c)).

Definition live_apply (s : Slot) (op : SlotOp) : option SlotState :=
  let m := sl_member s in
  match op with
  | Op_Enroll _ _ => None
  | Op_Cursor update =>
      let '(member, r) := apply_cursor_update m update in
      _ ← ok r; Some (SS_Live (mkSlot member (sl_binding s) (sl_cell s)))
  | Op_Detach request verifier position =>
      match sl_binding s with
      | BS_Bound b =>
          verified ← ok (verify_detach_request b request verifier);
          t ← ok (commit_detach m verified (sl_cell s) position);
          Some (SS_Live (mkSlot (cdx_member t) (cdx_binding_state t) (DC_Committed (cdx_cell t))))
      | _ => None
      end
  | Op_BlockedDetach request verifier position observer_progress =>
      match sl_binding s with
      | BS_Bound b =>
          verified ← ok (verify_detach_request b request verifier);
          t ← ok (start_blocked_detach m verified (sl_cell s) position observer_progress);
          Some (SS_Live (mkSlot (pdx_member t) (pdx_binding_state t) (DC_Pending (pdx_cell t))))
      | _ => None
      end
  | Op_ReplayDetach request verifier observer_progress decision =>
      match sl_cell s with
      | DC_Pending cell =>
          verified ← ok (pending_verify_exact cell request verifier);
          r ← ok (replay_apply (prepare_replay verified (dr_conversation_id request)
                                  (sl_binding s) observer_progress) m decision);
          match r with
          | PRP_Pending member binding cell _ =>
              Some (SS_Live (mkSlot member binding (DC_Pending cell)))
          | PRP_Committed member _ binding cell _ =>
              Some (SS_Live (mkSlot member binding (DC_Committed cell)))
          end
      | _ => None
      end
  | Op_Drain delivery_seq =>
      match sl_binding s with
      | BS_PendingFinalization flavor => settle_drained_binding_slot s flavor delivery_seq
      | _ => None
      end
  | Op_Crash cause disposition => s' ← apply_crash s cause disposition; Some (SS_Live s')
  | Op_Fate fate disposition => s' ← apply_fate s fate disposition; Some (SS_Live s')
  | Op_Attach admission request secret_proof parameters =>
      v ← ok (verify_detached_attach m (sl_binding s) admission request secret_proof parameters);
      s' ← slot_of_attach v (sl_cell s); Some (SS_Live s')
  | Op_Supersede request secret_proof position parameters =>
      match sl_binding s with
      | BS_Bound b =>
          v ← ok (verify_superseding_attach m b request secret_proof position parameters);
          s' ← slot_of_attach v (sl_cell s); Some (SS_Live s')
      | _ => None
      end
  | Op_FencedAttach request secret_proof proof pending_seq parameters =>
      v ← ok (verify_fenced_attach m (sl_binding s) request secret_proof proof pending_seq
                parameters);
      s' ← slot_of_attach v (sl_cell s); Some (SS_Live s')
  | Op_Leave request secret_proof verifier fingerprint authority parameters =>
      verified ← ok (verify_leave_request m request secret_proof verifier fingerprint);
      c ← ok (commit_leave m (sl_binding s) (sl_cell s) verified authority parameters);
      match lvc_identity c with
      | IS_Retired t => Some (SS_Retired t)
      | IS_Live _ => None
      end
  | Op_PendingLeave request secret_proof verifier fingerprint authority parameters =>
      match sl_binding s with
      | BS_PendingFinalization pending =>
          verified ← ok (verify_leave_request m request secret_proof verifier fingerprint);
          c ← ok (commit_pending_leave m pending (sl_cell s) verified authority parameters);
          match lvc_identity c with
          | IS_Retired t => Some (SS_Retired t)
          | IS_Live _ => None
          end
      | _ => None
      end
  | Op_Reissue receipts request now_ms next_log_sequence entropy appended =>
      let '((st', _), r) :=
        apply_operator_credential_reissue (SS_Live s) receipts request now_ms next_log_sequence
          entropy appended in
      if reissue_installed r then Some st' else None
  end.

Definition slot_apply (st : SlotState) (op : SlotOp) : option SlotState :=
  match st with
  | SS_Absent =>
      match op with
      | Op_Enroll request parameters =>
          c ← ok (commit_enrollment request parameters);
          Some (SS_Live (mkSlot (ecm_member c) (ecm_binding_state c) DC_Empty))
      | _ => None
      end
  | SS_Live s => live_apply s op
  | SS_Retired _ | SS_Released => None
  end.

#[local] Arguments validate_pending_pair : simpl never.
#[local] Arguments validate_terminal : simpl never.
#[local] Arguments with_committed_terminal : simpl never.

(** ** The invariant of a slot *)

Definition belongs (m : LiveMember EF) (participant_id : ParticipantId)
    (conversation_id : ConversationId) : Prop :=
  participant_id = lm_participant_id m /\ conversation_id = lm_conversation_id m.

Definition binding_ok (m : LiveMember EF) (b : BindingState) : Prop :=
  match b with
  | BS_Detached => True
  | BS_Bound a =>
      belongs m (bnd_participant_id a) (bnd_conversation_id a)
      /\ capability_generation (bnd_binding_epoch a) = lm_generation m
  | BS_PendingFinalization p =>
      belongs m (pf_participant_id p) (pf_conversation_id p)
      /\ capability_generation (pf_binding_epoch p) = lm_generation m
      /\ pf_restorable p
  end.

(** A retained terminal ended an earlier binding of the same identity; while a
    binding is current or pending its generation is newer than every retained
    terminal.  Terminals and finalizations are those the close causes produce. *)
Definition terminal_ok (m : LiveMember EF) (b : BindingState) : Prop :=
  match lm_latest_terminal m with
  | None => True
  | Some t =>
      belongs m (cbt_participant_id t) (cbt_conversation_id t) /\ cbt_restorable t
      /\ match b with
         | BS_Detached => capability_generation (cbt_binding_epoch t) <= lm_generation m
         | _ => capability_generation (cbt_binding_epoch t) < lm_generation m
         end
  end.

(** A pending cell is paired with its finalization, a committed cell with the
    retained clean terminal it reports, a terminalized cell is older than the
    current credential. *)
Definition cell_ok (m : LiveMember EF) (b : BindingState) (c : DetachCell D) : Prop :=
  match c with
  | DC_Empty => True
  | DC_Pending c =>
      pdt_participant_id c = lm_participant_id m /\ pdt_request_generation c = lm_generation m
      /\ is_ok (validate_pending_pair b c (Some (lm_conversation_id m))) = true
  | DC_Committed c =>
      b = BS_Detached /\ cdh_participant_id c = lm_participant_id m
      /\ cdh_request_generation c = lm_generation m
      /\ capability_generation (cdh_committed_binding_epoch c) = cdh_request_generation c
      /\ exists t, lm_latest_terminal m = Some t
         /\ cbt_detached_cause t = Some DTC_CleanDeregister
         /\ cbt_binding_epoch t = cdh_committed_binding_epoch c
         /\ cbt_delivery_seq t = cdh_detached_delivery_seq c
  | DC_Terminalized c =>
      tdh_participant_id c = lm_participant_id m /\ tdh_request_generation c < lm_generation m
      /\ capability_generation (tdh_committed_binding_epoch c) = tdh_request_generation c
      /\ is_some (lm_latest_terminal m) = true
  end.

Definition slot_ok (s : Slot) : Prop :=
  wf_generation (lm_generation (sl_member s)) /\ binding_ok (sl_member s) (sl_binding s)
  /\ terminal_ok (sl_member s) (sl_binding s)
  /\ cell_ok (sl_member s) (sl_binding s) (sl_cell s).

Definition retired_ok (t : RetiredIdentity EF V LF) : Prop :=
  lc_conversation_id (ri_committed_result t) = ri_conversation_id t
  /\ lc_participant_id (ri_committed_result t) = ri_participant_id t
  /\ lc_retired_generation (ri_committed_result t) = ri_retired_generation t
  /\ lc_leave_attempt_token (ri_committed_result t) = ri_leave_attempt_token t
  /\ ao_candidate_phase (ri_left_admission_order t) = CP_MembershipExit
  /\ ao_participant_index (ri_left_admission_order t) = ri_participant_id t.

Definition state_ok (st : SlotState) : Prop :=
  match st with
  | SS_Absent => True
  | SS_Live s => slot_ok s
  | SS_Retired t => retired_ok t
  | SS_Released => True
  end.

(** ** Lemmas *)

Lemma validate_terminal_Some p c g t r : validate_terminal p c g (Some t) = Ok r <->
  cbt_participant_id t = p /\ cbt_conversation_id t = c
  /\ capability_generation (cbt_binding_epoch t) <= g /\ r = tt.
Proof.
  unfold validate_terminal. destruct r. split.
  - intros H. ok_inv H. done.
  - intros (<- & <- & H & _). by guards.
Qed.

Lemma with_committed_terminal_Ok (m m' : LiveMember EF) t :
  with_committed_terminal m t = Ok m' ->
  belongs m (cbt_participant_id t) (cbt_conversation_id t)
  /\ capability_generation (cbt_binding_epoch t) <= lm_generation m
  /\ m' = mkLiveMember (lm_participant_id m) (lm_conversation_id m) (lm_generation m)
            (lm_attach_secret m) (lm_cursor m) (lm_enrollment_fingerprint m) (Some t).
Proof.
  unfold with_committed_terminal. destruct (validate_terminal _ _ _ _) eqn:E; [|done].
  apply validate_terminal_Some in E as (? & ? & ? & _). intros [= <-]. done.
Qed.

Lemma validate_pending_pair_Ok b (c : PendingDetach D) conv p :
  validate_pending_pair b c conv = Ok p ->
  b = BS_PendingFinalization p /\ pf_participant_id p = pdt_participant_id c
  /\ pf_binding_epoch p = pdt_committed_binding_epoch c
  /\ pf_admission_order p = pdt_admission_order c
  /\ pf_detached_cause p = Some DTC_CleanDeregister
  /\ (forall cv, conv = Some cv -> pf_conversation_id p = cv).
Proof.
  unfold validate_pending_pair. intros H. ok_inv H; split_and!; try done; intros ? ->; by dreflect.
Qed.

(** The pairing a blocked detach installs and an exact replay keeps. *)
Lemma validate_pending_pair_intro p (c : PendingDetach D) conv :
  pf_participant_id p = pdt_participant_id c ->
  pf_binding_epoch p = pdt_committed_binding_epoch c ->
  pf_admission_order p = pdt_admission_order c ->
  pf_detached_cause p = Some DTC_CleanDeregister ->
  (forall cv, conv = Some cv -> pf_conversation_id p = cv) ->
  validate_pending_pair (BS_PendingFinalization p) c conv = Ok p.
Proof.
  intros H1 H2 H3 H4 H5. unfold validate_pending_pair. rewrite H1.
  destruct conv as [cv|]; [rewrite (H5 cv eq_refl)|]; by guards.
Qed.

Lemma verify_detach_request_Ok b r (v : D) w : verify_detach_request b r v = Ok w ->
  w = mkVerifiedDetachRequest b r v /\ dr_conversation_id r = bnd_conversation_id b
  /\ dr_participant_id r = bnd_participant_id b
  /\ dr_capability_generation r = capability_generation (bnd_binding_epoch b).
Proof. unfold verify_detach_request. intros H. ok_inv H. done. Qed.

(** The members and cells a detach transaction starts from and leaves. *)
Lemma commit_detach_Ok (m : LiveMember EF) (w : VerifiedDetachRequest D) c pos t :
  commit_detach m w c pos = Ok t ->
  let terminal := CBT_Detached (commit_clean_deregister (vdr_binding w) pos) in
  match c with DC_Empty | DC_Terminalized _ => True | _ => False end
  /\ with_committed_terminal m terminal = Ok (cdx_member t)
  /\ lm_generation m = capability_generation (bnd_binding_epoch (vdr_binding w))
  /\ cdx_binding_state t = BS_Detached
  /\ cdx_cell t = mkCommittedDetach (dr_detach_attempt_token (vdr_request w))
       (dr_participant_id (vdr_request w)) (dr_capability_generation (vdr_request w))
       (vdr_request_verifier w) (bnd_binding_epoch (vdr_binding w)) (cbp_delivery_seq pos)
  /\ cdx_outcome t = committed_outcome (cdx_cell t) (dr_conversation_id (vdr_request w)).
Proof.
  unfold commit_detach, validate_previous_cell, validate_member_authority, map_err. intros H.
  ok_inv H; split_and!; eauto.
Qed.

Lemma start_blocked_detach_Ok (m : LiveMember EF) (w : VerifiedDetachRequest D) c pos op t :
  start_blocked_detach m w c pos op = Ok t ->
  let pending := pending_clean_deregister (vdr_binding w) pos in
  belongs m (bnd_participant_id (vdr_binding w)) (bnd_conversation_id (vdr_binding w))
  /\ lm_generation m = capability_generation (bnd_binding_epoch (vdr_binding w))
  /\ pdx_member t = m /\ pdx_binding_state t = BS_PendingFinalization (PF_Detached pending)
  /\ pdx_cell t = mkPendingDetach (dr_detach_attempt_token (vdr_request w))
       (dr_participant_id (vdr_request w)) (dr_capability_generation (vdr_request w))
       (vdr_request_verifier w) (bnd_binding_epoch (vdr_binding w))
       (bti_admission_order (pdf_identity pending)) op
  /\ pdx_outcome t = backpressure (pdx_cell t) (bnd_conversation_id (vdr_binding w)) op.
Proof.
  unfold start_blocked_detach, validate_previous_cell, validate_member_authority, map_err, belongs.
  intros H. ok_inv H; split_and!; eauto.
Qed.

Lemma complete_pending_detach_Ok (m : LiveMember EF) b (c : PendingDetach D) seq t :
  complete_pending_detach m b c seq = Ok t ->
  exists p, validate_pending_pair b c None = Ok (PF_Detached p)
  /\ lm_generation m = capability_generation (bti_binding_epoch (pdf_identity p))
  /\ with_committed_terminal m (CBT_Detached (pdf_commit p seq)) = Ok (cdx_member t)
  /\ cdx_terminal t = pdf_commit p seq
  /\ cdx_binding_state t = BS_Detached /\ cdx_cell t = pending_commit c seq
  /\ cdx_outcome t = committed_outcome (pending_commit c seq)
                       (bti_conversation_id (pdf_identity p)).
Proof.
  unfold complete_pending_detach, validate_member_finalization, map_err. intros H.
  ok_inv H; eexists; split_and!; try done.
Qed.

Lemma rotate_Ok (m m' : LiveMember EF) g secret cursor t : rotate m g secret cursor t = Ok m' ->
  m' = mkLiveMember (lm_participant_id m) (lm_conversation_id m) g secret cursor
         (lm_enrollment_fingerprint m)
         match t with Some t => Some t | None => lm_latest_terminal m end.
Proof. unfold rotate. intros H. ok_inv H; done. Qed.

Lemma verify_attach_common_Ok (m : LiveMember EF) r proof pars u :
  verify_attach_common m r proof pars = Ok u ->
  car_conversation_id r = lm_conversation_id m /\ car_participant_id r = lm_participant_id m
  /\ car_capability_generation r = lm_generation m /\ proof = ASP_Verified
  /\ belongs m (bnd_participant_id (acp_binding pars)) (bnd_conversation_id (acp_binding pars))
  /\ capability_generation (bnd_binding_epoch (acp_binding pars)) = lm_generation m + 1
  /\ lm_generation m + 1 <= u64_max.
Proof.
  unfold verify_attach_common, Generation_new, belongs. intros H. ok_inv H.
  match goal with E : checked_add _ _ _ = _ |- _ => apply checked_add_Some in E as [-> ?] end.
  destruct proof; done.
Qed.

(** What a verified attach of the slot [s] knows. *)
Definition attach_verified (s : Slot) (w : VerifiedAttachCommit EF) : Prop :=
  let m := sl_member s in
  vac_member w = m
  /\ belongs m (bnd_participant_id (acp_binding (vac_parameters w)))
       (bnd_conversation_id (acp_binding (vac_parameters w)))
  /\ capability_generation (bnd_binding_epoch (acp_binding (vac_parameters w)))
     = lm_generation m + 1
  /\ lm_generation m + 1 <= u64_max
  /\ car_capability_generation (vac_request w) = lm_generation m
  /\ match vac_mode w with
     | AM_Detached _ => sl_binding s = BS_Detached
     | AM_Superseded t => exists a pos, sl_binding s = BS_Bound a /\ t = superseded a pos
     | AM_Fenced proof None => sl_binding s = BS_Detached
     | AM_Fenced proof (Some (p, _)) => sl_binding s = BS_PendingFinalization p
     end.

Lemma verify_detached_attach_Ok s adm r proof pars w :
  verify_detached_attach (sl_member s) (sl_binding s) adm r proof pars = Ok w ->
  attach_verified s w.
Proof.
  unfold verify_detached_attach. intros H. ok_inv H.
  match goal with E : verify_attach_common _ _ _ _ = _ |- _ =>
    apply verify_attach_common_Ok in E as (? & ? & ? & ? & ? & ? & ?) end.
  done.
Qed.

Lemma verify_superseding_attach_Ok s a r proof pos pars w : sl_binding s = BS_Bound a ->
  verify_superseding_attach (sl_member s) a r proof pos pars = Ok w -> attach_verified s w.
Proof.
  intros Hb. unfold verify_superseding_attach. intros H. ok_inv H.
  match goal with E : verify_attach_common _ _ _ _ = _ |- _ =>
    apply verify_attach_common_Ok in E as (? & ? & ? & ? & ? & ? & ?) end.
  unfold attach_verified. simpl. split_and!; eauto.
Qed.

Lemma verify_fenced_attach_Ok s r proof fac seq pars w :
  verify_fenced_attach (sl_member s) (sl_binding s) r proof fac seq pars = Ok w ->
  attach_verified s w.
Proof.
  unfold verify_fenced_attach, validate_fenced_attach. intros H. ok_inv H;
  match goal with E : verify_attach_common _ _ _ _ = _ |- _ =>
    apply verify_attach_common_Ok in E as (? & ? & ? & ? & ? & ? & ?) end; done.
Qed.

(** The cell an attach leaves is empty or terminalized, and older than the new
    credential. *)
Lemma transition_detach_cell_Ok mode (m : LiveMember EF) b (c c' : DetachCell D) :
  transition_detach_cell mode m c = Ok c' -> binding_ok m b -> cell_ok m b c ->
  match c' with
  | DC_Empty => c = DC_Empty
  | DC_Terminalized t => tdh_participant_id t = lm_participant_id m
      /\ tdh_request_generation t <= lm_generation m
      /\ capability_generation (tdh_committed_binding_epoch t) = tdh_request_generation t
      /\ (is_some (lm_latest_terminal m) = true
          \/ exists proof p seq, mode = AM_Fenced proof (Some (p, seq)))
  | _ => False
  end.
Proof.
  unfold transition_detach_cell. intros H Hb Hc. ok_inv H; simpl in Hc; try done.
  - destruct Hc as (? & ? & Hp). destruct (validate_pending_pair b _ _) eqn:E; [|done].
    apply validate_pending_pair_Ok in E as (-> & _ & He & _). destruct Hb as (_ & Hg & _).
    simpl. rewrite <- He. split_and!; [done|lia|congruence|]. right. eauto.
  - destruct Hc as (_ & ? & ? & ? & _). simpl. split_and!; [done|lia|done|]. by left.
  - destruct Hc as (? & ? & ? & ?). split_and!; [done|lia|done|]. by left.
Qed.

(** ** Each operation keeps the invariant *)

Lemma enroll_ok request parameters c :
  commit_enrollment (F := EF) (P := P) request parameters = Ok c ->
  slot_ok (mkSlot (ecm_member c) (ecm_binding_state c) DC_Empty).
Proof.
  unfold commit_enrollment. intros H. ok_inv H. split_and!; simpl; try done.
Qed.

(** A terminal of the current generation ends the binding. *)
Lemma end_binding_ok (m m' : LiveMember EF) t c :
  wf_generation (lm_generation m) -> cbt_restorable t -> with_committed_terminal m t = Ok m' ->
  cell_ok m' BS_Detached c -> slot_ok (mkSlot m' BS_Detached c).
Proof. by intros Hg Hr (Hb & Hle & ->)%with_committed_terminal_Ok Hc. Qed.

(** A settled cell stays valid when a terminal is recorded for the current binding
    or when the binding ends without one. *)
Lemma settled_cell_ok m m' b t c : slot_ok (mkSlot m b c) -> b <> BS_Detached ->
  match c with DC_Pending _ => False | _ => True end ->
  m' = m \/ with_committed_terminal m t = Ok m' -> forall b', cell_ok m' b' c.
Proof.
  intros (_ & _ & _ & Hc) Hb Hp Hm b'. destruct c as [|c|c|c]; simpl in *; [done|done| |].
  - by destruct Hc.
  - destruct Hc as (Hid & Hg & He & Hl).
    destruct Hm as [->|(_ & _ & ->)%with_committed_terminal_Ok]; done.
Qed.

Lemma terminal_ok_weaken m b : terminal_ok m b -> terminal_ok m BS_Detached.
Proof.
  unfold terminal_ok. destruct (lm_latest_terminal m); [|done]. intros (? & ? & ?).
  split_and!; [done..|]. destruct b; lia.
Qed.

Lemma terminal_ok_pending m a p : terminal_ok m (BS_Bound a) ->
  terminal_ok m (BS_PendingFinalization p).
Proof. done. Qed.

Lemma detach_ok s b r v w pos t : slot_ok s -> sl_binding s = BS_Bound b ->
  verify_detach_request b r v = Ok w -> commit_detach (sl_member s) w (sl_cell s) pos = Ok t ->
  slot_ok (mkSlot (cdx_member t) (cdx_binding_state t) (DC_Committed (cdx_cell t))).
Proof.
  intros (Hg & Hb & Ht & Hc) Eb (-> & ? & ? & ?)%verify_detach_request_Ok
    (_ & Hm & ? & -> & -> & _)%commit_detach_Ok. rewrite Eb in *. simpl in *.
  destruct Hb as [[? ?] ?]. eapply end_binding_ok; [done|by apply
    (detached_restorable b DTC_CleanDeregister (BTD_Committed pos))|done|].
  apply with_committed_terminal_Ok in Hm as (_ & _ & ->). simpl.
  split_and!; try done; try congruence. eexists. done.
Qed.

Lemma blocked_detach_ok s b r v w pos op t : slot_ok s -> sl_binding s = BS_Bound b ->
  verify_detach_request b r v = Ok w ->
  start_blocked_detach (sl_member s) w (sl_cell s) pos op = Ok t ->
  slot_ok (mkSlot (pdx_member t) (pdx_binding_state t) (DC_Pending (pdx_cell t))).
Proof.
  intros (Hg & Hb & Ht & Hc) Eb (-> & ? & ? & ?)%verify_detach_request_Ok
    ([? ?] & ? & -> & -> & -> & _)%start_blocked_detach_Ok. rewrite Eb in *. simpl in *.
  split_and!; simpl; try done; try congruence.
  rewrite validate_pending_pair_intro; simpl; try done; try congruence.
  - split_and!; congruence.
  - by intros ? [= <-].
Qed.

Lemma complete_detach_ok s c seq t : slot_ok s -> sl_cell s = DC_Pending c ->
  complete_pending_detach (sl_member s) (sl_binding s) c seq = Ok t ->
  slot_ok (mkSlot (cdx_member t) (cdx_binding_state t) (DC_Committed (cdx_cell t))).
Proof.
  intros (Hg & Hb & Ht & Hc) Ec (p & Hp & Hgen & Hm & _ & -> & -> & _)%complete_pending_detach_Ok.
  rewrite Ec in Hc. simpl in Hc. destruct Hc as (? & ? & _).
  apply validate_pending_pair_Ok in Hp as (Eb & ? & Hep & _ & Hcause & _).
  rewrite Eb in Hb. destruct Hb as (_ & Hgp & Hrp).
  eapply end_binding_ok; [done|by apply (pf_commit_restorable (PF_Detached p))|done|].
  apply with_committed_terminal_Ok in Hm as (_ & _ & ->). simpl.
  split_and!; try done; [congruence|]. eexists. split_and!; done.
Qed.

Lemma replay_detach_ok s c r m decision : slot_ok s -> sl_cell s = DC_Pending c ->
  prq_cell r = c -> prq_binding_state r = sl_binding s -> m = sl_member s ->
  match replay_apply r m decision with
  | Ok (PRP_Pending m' b' c' _) => slot_ok (mkSlot m' b' (DC_Pending c'))
  | Ok (PRP_Committed m' _ b' c' _) => slot_ok (mkSlot m' b' (DC_Committed c'))
  | Err _ => True
  end.
Proof.
  intros Hs Ec Er Eb ->. unfold replay_apply. rewrite Eb, Er.
  destruct (validate_pending_pair _ _ _) as [p|] eqn:Ep; [simpl|done].
  destruct (validate_member_finalization _ _); [simpl|done].
  destruct (_ <? _); [done|]. destruct (_ =? _).
  - destruct (negb _); [done|]. destruct s as [m b c0]. simpl in *. by subst c0.
  - destruct decision as [| |seq]; [done| |].
    + destruct s as [m b c0]. simpl in *. subst c0.
      destruct Hs as (? & ? & ? & (? & ? & Hp)). split_and!; try done.
    + destruct (complete_pending_detach _ _ _ _) as [t|] eqn:E; [|done].
      eapply complete_detach_ok; eauto.
Qed.

Lemma drain_ok s p seq s' : slot_ok s ->
  sl_binding s = BS_PendingFinalization (PF_Detached p) ->
  commit_drained_detached_slot s p seq = Some s' -> slot_ok s'.
Proof.
  intros Hs Eb. destruct s as [m b c]. simpl in Eb. subst b. unfold commit_drained_detached_slot.
  simpl. pose proof Hs as (Hg & (_ & _ & Hr) & _ & _).
  destruct c as [|pc|cc|tc];
    [| destruct (complete_pending_detach _ _ _ _) as [t|] eqn:E; [|done]; intros [= <-];
       by eapply complete_detach_ok | | ];
    destruct (with_committed_terminal _ _) as [m'|] eqn:E; try done; intros [= <-];
    (eapply end_binding_ok; [exact Hg|by apply (pf_commit_restorable (PF_Detached p))|exact E|]);
    eapply settled_cell_ok; try exact Hs; eauto.
Qed.

Lemma crash_identity cause b d :
  match crash_transition cause b d with
  | YBT_Committed t => cbt_restorable (CBT_Died t)
  | YBT_Pending p => pf_restorable (PF_Died p) /\ exists o, pdd_identity p = from_active b o
  end.
Proof.
  destruct cause, d as [pos|pos]; try (split; [|simpl; by eauto]); by apply (died_restorable b _ (BTD_Committed pos)) ||
    by apply (died_restorable b _ (BTD_Pending pos)).
Qed.

(** Under an active binding only an empty or terminalized cell is possible. *)
Lemma unpaired_cell_ok m b c : cell_ok m (BS_Bound b) c -> forall b', cell_ok m b' c.
Proof.
  destruct c as [|c|c|c]; simpl; try done; [|by intros [? _]]. by intros (_ & _ & [=]).
Qed.

(** A pending terminal of the current binding. *)
Lemma pending_binding_ok m b p c o : slot_ok (mkSlot m (BS_Bound b) c) ->
  pf_identity p = from_active b o -> pf_restorable p ->
  slot_ok (mkSlot m (BS_PendingFinalization p) c).
Proof.
  intros Hs Hi Hd. pose proof Hs as (Hg & [[? ?] ?] & Ht & Hc).
  split_and!; simpl; try done.
  - unfold pf_participant_id, pf_conversation_id, pf_binding_epoch. by rewrite Hi.
  - by eapply unpaired_cell_ok.
Qed.

Lemma detached_binding_ok m b c : slot_ok (mkSlot m (BS_Bound b) c) ->
  slot_ok (mkSlot m BS_Detached c).
Proof.
  intros Hs. pose proof Hs as (Hg & _ & Ht & Hc). split_and!; simpl; try done.
  - by eapply terminal_ok_weaken.
  - by eapply unpaired_cell_ok.
Qed.

Lemma crash_ok s cause d s' : slot_ok s -> apply_crash s cause d = Some s' -> slot_ok s'.
Proof.
  intros Hs. destruct s as [m b c]. unfold apply_crash. simpl. destruct b as [|b|]; try done.
  pose proof (crash_identity cause b d) as Hi.
  destruct (crash_transition cause b d) as [t|p]; simpl.
  - destruct (with_committed_terminal _ _) as [m'|] eqn:E; [|done]. intros [= <-].
    eapply end_binding_ok; [by apply Hs|exact Hi|exact E|].
    eapply settled_cell_ok; [exact Hs|done| |by right].
    by destruct c; [|destruct Hs as (_ & _ & _ & _ & _ & [=])|..].
  - intros [= <-]. destruct Hi as [Hr [o Hi]]. by eapply pending_binding_ok.
Qed.

Lemma fate_ok s fate d s' : slot_ok s -> apply_fate s fate d = Some s' -> slot_ok s'.
Proof.
  intros Hs. destruct s as [m b c]. unfold apply_fate. simpl. destruct b as [|b|]; try done.
  intros [= <-]. destruct fate as [cause| |].
  - pose proof (crash_identity cause b d) as Hi.
    destruct (crash_transition cause b d) as [t|p]; simpl; [by eapply detached_binding_ok|].
    destruct Hi as [Hr [o Hi]]. by eapply pending_binding_ok.
  - pose proof (detached_restorable b DTC_ServerShutdown d) as Hr.
    destruct d; simpl; [by eapply detached_binding_ok|]. eapply pending_binding_ok; [done..|by apply Hr].
  - pose proof (detached_restorable b DTC_CleanDeregister d) as Hr.
    destruct d; simpl; [by eapply detached_binding_ok|]. eapply pending_binding_ok; [done..|by apply Hr].
Qed.

(** The terminal an attach records and the cursor it persists. *)
Definition mode_terminal (mode : AttachMode) : option CommittedBindingTerminal :=
  match mode with
  | AM_Detached _ | AM_Fenced _ None => None
  | AM_Superseded t => Some (CBT_Detached t)
  | AM_Fenced _ (Some (p, seq)) => Some (pf_commit p seq)
  end.
Definition mode_cursor (m : LiveMember EF) (mode : AttachMode) : DeliverySeq :=
  match mode with
  | AM_Detached _ | AM_Superseded _ => lm_cursor m
  | AM_Fenced proof _ => fac_marker_delivery_seq proof
  end.
Definition mode_marker (mode : AttachMode) : option DeliverySeq :=
  match mode with
  | AM_Detached _ | AM_Superseded _ => None
  | AM_Fenced proof _ => Some (fac_marker_delivery_seq proof)
  end.

Lemma commit_attach_Ok (w : VerifiedAttachCommit EF) (c : DetachCell D) r :
  commit_attach w c = Ok r ->
  let m := vac_member w in
  let pars := vac_parameters w in
  let epoch := bnd_binding_epoch (acp_binding pars) in
  transition_detach_cell (vac_mode w) m c = Ok (atc_detach_cell r)
  /\ atc_binding_state r = BS_Bound (acp_binding pars)
  /\ rotate m (capability_generation epoch) (acp_attach_secret pars)
       (mode_cursor m (vac_mode w)) (mode_terminal (vac_mode w)) = Ok (atc_member r)
  /\ atc_outcome r = mkAttachBound (car_conversation_id (vac_request w))
       (car_attach_attempt_token (vac_request w)) (car_participant_id (vac_request w))
       (car_capability_generation (vac_request w)) (acp_attach_secret pars) epoch
       (mode_cursor m (vac_mode w)) (mode_marker (vac_mode w)) (acp_receipt_expires_at pars)
       (acp_provenance_expires_at pars).
Proof.
  unfold commit_attach. destruct (transition_detach_cell _ _ _) as [c'|]; [simpl|done].
  destruct (vac_mode w) as [a|t|proof [[p seq]|]]; simpl;
    destruct (rotate _ _ _ _ _); simpl; try done;
    unfold AttachBound_ordinary, AttachBound_fenced;
    destruct (negb _); simpl; try done; by intros [= <-].
Qed.

(** A verified attach records only terminals of the binding it replaces. *)
Lemma mode_terminal_ok s w t : slot_ok s -> attach_verified s w ->
  mode_terminal (vac_mode w) = Some t ->
  belongs (sl_member s) (cbt_participant_id t) (cbt_conversation_id t) /\ cbt_restorable t
  /\ capability_generation (cbt_binding_epoch t) <= lm_generation (sl_member s).
Proof.
  intros (_ & Hb & _) (_ & _ & _ & _ & _ & Hm) Ht.
  destruct (vac_mode w) as [a|x|proof [[p seq]|]]; simplify_eq/=.
  - destruct Hm as (a & pos & Eb & ->). rewrite Eb in Hb. destruct Hb as [[? ?] Hg].
    split_and!; [done|apply superseded_restorable|]. unfold cbt_binding_epoch. simpl. lia.
  - rewrite Hm in Hb. destruct Hb as ([? ?] & Hg & Hr). apply (pf_commit_restorable p seq) in Hr.
    destruct p; simpl in *; (split_and!; [done..|]);
      unfold cbt_binding_epoch, pf_binding_epoch in *; simpl in *; lia.
Qed.

Lemma attach_ok s w s' : slot_ok s -> attach_verified s w ->
  slot_of_attach w (sl_cell s) = Some s' -> slot_ok s'.
Proof.
  intros Hs Hv. unfold slot_of_attach.
  destruct (commit_attach w (sl_cell s)) as [r|] eqn:Er; [|done]. intros [= <-].
  apply commit_attach_Ok in Er as (Hcell & -> & Hr & _).
  pose proof (mode_terminal_ok s w) as Hmt. specialize (fun t => Hmt t Hs Hv).
  destruct Hs as (Hg & Hb & Ht & Hc). destruct Hv as (Em & Hbel & Hgen & Hmax & _ & Hmode).
  rewrite Em, Hgen in *. apply rotate_Ok in Hr as ->.
  apply transition_detach_cell_Ok with (b := sl_binding s) in Hcell; [|done..].
  assert (terminal_ok (sl_member s) BS_Detached) as Ht' by (by eapply terminal_ok_weaken).
  split_and!; simpl.
  - unfold wf_generation in *. lia.
  - done.
  - unfold terminal_ok in *. simpl.
    destruct (mode_terminal (vac_mode w)) as [t|]; [|destruct (lm_latest_terminal _); [|done]].
    + destruct (Hmt t eq_refl) as (? & ? & ?). split_and!; [done..|lia].
    + destruct Ht' as (? & ? & ?). split_and!; [done..|lia].
  - destruct (atc_detach_cell r) as [|c|c|c]; simpl; try done.
    destruct Hcell as (? & ? & ? & Hl). split_and!; [done|lia|done|].
    destruct Hl as [Hl|(proof & p & seq & ->)]; [|done].
    by destruct (mode_terminal (vac_mode w)).
Qed.

Lemma finish_leave_Ok (m : LiveMember EF) (w : VerifiedLeaveRequest V LF) e pr t lo ls (fr : Fr) c :
  finish_leave m w e pr t lo ls fr = Ok c ->
  vlr_conversation_id w = lm_conversation_id m /\ vlr_participant_id w = lm_participant_id m
  /\ lvc_identity c = IS_Retired (mkRetiredIdentity (lm_participant_id m) (lm_conversation_id m)
       (lm_generation m) (lm_enrollment_fingerprint m) (vlr_leave_attempt_token w)
       (vlr_leave_request_verifier w) (vlr_leave_fingerprint w)
       (mkAdmissionOrder lo CP_MembershipExit (vlr_participant_id w))
       (mkLeaveCommitted (vlr_conversation_id w) (vlr_leave_attempt_token w)
          (vlr_participant_id w) (lm_generation m) e pr ls))
  /\ finish_leave_claims fr (vlr_participant_id w) e t ls lo = Ok (lvc_frontiers c).
Proof.
  unfold finish_leave, retire, map_err, LeaveCommitted_new. intros H. ok_inv H; done.
Qed.

Lemma verify_leave_request_Ok (m : LiveMember EF) r proof v fp (w : VerifiedLeaveRequest V LF) :
  verify_leave_request m r proof v fp = Ok w ->
  proof = ASP_Verified
  /\ lr_conversation_id r = lm_conversation_id m /\ lr_participant_id r = lm_participant_id m
  /\ lr_capability_generation r = lm_generation m
  /\ w = mkVerifiedLeaveRequest (lr_conversation_id r) (lr_participant_id r)
           (lr_capability_generation r) (lr_leave_attempt_token r) v fp.
Proof. unfold verify_leave_request. intros H. ok_inv H. done. Qed.

(** What a Leave leaves behind. *)
Definition left_by (m : LiveMember EF) (w : VerifiedLeaveRequest V LF)
    (c : LeaveCommit EF V LF Fr) : Prop :=
  exists t, lvc_identity c = IS_Retired t /\ retired_ok t
  /\ ri_participant_id t = lm_participant_id m /\ ri_conversation_id t = lm_conversation_id m
  /\ ri_retired_generation t = lm_generation m
  /\ ri_leave_attempt_token t = vlr_leave_attempt_token w
  /\ ri_leave_request_verifier t = vlr_leave_request_verifier w
  /\ ri_enrollment_fingerprint t = lm_enrollment_fingerprint m.

Lemma finish_leave_left m w e pr t lo ls fr c :
  finish_leave m w e pr t lo ls fr = Ok c -> left_by m w c.
Proof.
  intros (Hc & Hp & Hi & _)%finish_leave_Ok. rewrite Hc, Hp in Hi. eexists. split; [exact Hi|].
  done.
Qed.

Lemma commit_leave_left m b (cell : DetachCell D) w a pars c :
  commit_leave m b cell w a pars = Ok c -> left_by m w c.
Proof.
  unfold commit_leave. intros H. csplit_in H. all: by eapply finish_leave_left.
Qed.

Lemma commit_pending_leave_left m p (cell : DetachCell D) w a pars c :
  commit_pending_leave m p cell w a pars = Ok c -> left_by m w c.
Proof.
  unfold commit_pending_leave. intros H. csplit_in H. all: by eapply finish_leave_left.
Qed.

Lemma cursor_update_Ok (m m' : LiveMember EF) u : apply_cursor_update m u = (m', Ok tt) ->
  lm_participant_id m' = lm_participant_id m /\ lm_conversation_id m' = lm_conversation_id m
  /\ lm_generation m' = lm_generation m /\ lm_latest_terminal m' = lm_latest_terminal m
  /\ lm_enrollment_fingerprint m' = lm_enrollment_fingerprint m
  /\ lm_cursor m <= lm_cursor m'.
Proof.
  unfold apply_cursor_update. intros H. csplit_in H; breflect; simplify_eq; split_and!; simpl; try done; lia.
Qed.

(** The invariant reads only the identity, the generation and the terminal of a
    member. *)
Lemma slot_ok_member m m' b c :
  lm_participant_id m' = lm_participant_id m -> lm_conversation_id m' = lm_conversation_id m ->
  lm_generation m' = lm_generation m -> lm_latest_terminal m' = lm_latest_terminal m ->
  slot_ok (mkSlot m b c) -> slot_ok (mkSlot m' b c).
Proof.
  intros H1 H2 H3 H4 (? & Hb & Ht & Hc). unfold slot_ok, binding_ok, terminal_ok, cell_ok, belongs in *.
  simpl in *. by rewrite H1, H2, H3, H4.
Qed.

Lemma reissue_refusal_None s receipts request now :
  reissue_refusal s receipts request now = None <->
  sl_binding s = BS_Detached /\ attach_receipt_live receipts now = false
  /\ enrollment_receipt_live receipts now = false
  /\ match sl_cell s with DC_Committed _ => False | _ => True end
  /\ orq_expected_current_generation request = lm_generation (sl_member s).
Proof.
  unfold reissue_refusal. split.
  - intros H. destruct (sl_binding s); [|done..]. destruct (attach_receipt_live _ _); [done|].
    destruct (enrollment_receipt_live _ _); [done|]. destruct (sl_cell s); try done;
      (destruct (Z.eqb_spec (orq_expected_current_generation request)
         (lm_generation (sl_member s))); [done|]); done.
  - intros (-> & -> & -> & Hc & ->). rewrite Z.eqb_refl. by destruct (sl_cell s).
Qed.

Lemma mint_installed s request now next entropy appended s' next' r :
  mint_reissued_credential s request (lm_generation (sl_member s)) now next entropy appended
  = ((s', next'), r) -> reissue_installed r = true ->
  lm_generation (sl_member s) < u64_max
  /\ exists secret, entropy = Some secret
     /\ s' = mkSlot (reissued_member (sl_member s) secret) (sl_binding s) (sl_cell s).
Proof.
  unfold mint_reissued_credential. destruct (next_generation _) as [g|e] eqn:Eg.
  2:{ apply next_generation_Err in Eg as ->. by intros [= _ _ <-]. }
  apply next_generation_Ok in Eg as [-> Hmax]. destruct entropy as [secret|]; [|by intros [= _ _ <-]].
  destruct appended; [simpl|by intros [= _ _ <-]].
  destruct (install_reissued_credential _ _) as [m'|e] eqn:Em.
  - apply install_reissued_credential_Ok in Em as [_ ->]. simpl.
    destruct (advance_log_head next); intros [= <- _ _] _; (split; [done|]); by exists secret.
  - apply install_reissued_credential_Err in Em as [-> | ->]; by intros [= _ _ <-].
Qed.

(** What an installed re-issue starts from and leaves. *)
Lemma reissue_installed_Ok s receipts request now next entropy appended st' next' r :
  apply_operator_credential_reissue (SS_Live s) receipts request now next entropy appended
  = ((st', next'), r) -> reissue_installed r = true ->
  sl_binding s = BS_Detached /\ match sl_cell s with DC_Committed _ => False | _ => True end
  /\ lm_generation (sl_member s) < u64_max
  /\ exists secret, entropy = Some secret
     /\ st' = SS_Live (mkSlot (reissued_member (sl_member s) secret) BS_Detached (sl_cell s)).
Proof.
  unfold apply_operator_credential_reissue. destruct (next =? 0); [by intros [= _ _ <-]|].
  destruct (reissue_refusal _ _ _ _) eqn:Er; [by intros [= _ _ <-]|].
  apply reissue_refusal_None in Er as (Hb & _ & _ & Hc & _).
  destruct (mint_reissued_credential _ _ _ _ _ _ _) as [[s' n] r'] eqn:Em. intros [= <- _ <-] Hr.
  destruct (mint_installed _ _ _ _ _ _ _ _ _ Em Hr) as (Hmax & secret & -> & ->).
  rewrite Hb. eauto 10.
Qed.

(** A re-issue leaves the retained terminal and the settled cell older than the new
    credential. *)
Lemma reissue_ok s secret : slot_ok s -> sl_binding s = BS_Detached ->
  match sl_cell s with DC_Committed _ => False | _ => True end ->
  lm_generation (sl_member s) < u64_max ->
  slot_ok (mkSlot (reissued_member (sl_member s) secret) BS_Detached (sl_cell s)).
Proof.
  intros (Hg & _ & Ht & Hc) Hb Hcell Hmax. rewrite Hb in *.
  split_and!; simpl; [unfold wf_generation in *; simpl; lia|done| |].
  - unfold terminal_ok in *. simpl. destruct (lm_latest_terminal _); [|done].
    destruct Ht as (? & ? & ?). split_and!; [done..|lia].
  - destruct (sl_cell s) as [|c|c|c]; simpl in *; [done| |done|].
    + by destruct Hc as (_ & _ & [=]).
    + destruct Hc as (? & ? & ? & ?). split_and!; [done|lia|done..].
Qed.

(** ** Runs *)

Fixpoint slot_run (st : SlotState) (ops : list SlotOp) : option SlotState :=
  match ops with
  | [] => Some st
  | op :: ops => st' ← slot_apply st op; slot_run st' ops
  end.

Lemma live_apply_ok s op st' : slot_ok s -> live_apply s op = Some st' -> state_ok st'.
Proof.
  intros Hs H. destruct op; simpl in H.
  - done.
  - destruct (apply_cursor_update _ _) as [m' [[]|]] eqn:E; [|done]. simplify_eq/=. apply cursor_update_Ok in E as (? & ? & ? & ? & _).
    destruct s. by eapply slot_ok_member.
  - destruct (sl_binding s) eqn:Eb; try done. bind_inv H. simplify_eq. by eapply detach_ok.
  - destruct (sl_binding s) eqn:Eb; try done. bind_inv H. simplify_eq. by eapply blocked_detach_ok.
  - destruct (sl_cell s) eqn:Ec; try done. bind_inv H.
    assert (a = cell) as -> by (unfold pending_verify_exact in E; by ok_inv E).
    pose proof (replay_detach_ok s cell (prepare_replay cell (dr_conversation_id request)
      (sl_binding s) observer_progress) (sl_member s) decision Hs Ec eq_refl eq_refl eq_refl) as Hr.
    rewrite E0 in Hr. by destruct a0; simplify_eq.
  - destruct (sl_binding s) as [| |[|]] eqn:Eb; simpl in H; try done; [|by simplify_eq].
    bind_inv H. simplify_eq. by eapply drain_ok.
  - bind_inv H. simplify_eq. by eapply crash_ok.
  - bind_inv H. simplify_eq. by eapply fate_ok.
  - bind_inv H. simplify_eq. eapply attach_ok; eauto. by eapply verify_detached_attach_Ok.
  - destruct (sl_binding s) eqn:Eb; try done. bind_inv H. simplify_eq.
    eapply attach_ok; eauto. by eapply verify_superseding_attach_Ok.
  - bind_inv H. simplify_eq. eapply attach_ok; eauto. by eapply verify_fenced_attach_Ok.
  - bind_inv H. apply commit_leave_left in E0 as (t & Ht & ? & _). rewrite Ht in H. by simplify_eq.
  - destruct (sl_binding s) eqn:Eb; try done. bind_inv H.
    apply commit_pending_leave_left in E0 as (t & Ht & ? & _). rewrite Ht in H. by simplify_eq.
  - destruct (apply_operator_credential_reissue _ _ _ _ _ _ _) as [[st n] r] eqn:E.
    destruct (reissue_installed r) eqn:Er; [|done]. simplify_eq.
    destruct (reissue_installed_Ok _ _ _ _ _ _ _ _ _ _ E Er) as (? & ? & ? & secret & _ & ->).
    by apply reissue_ok.
Qed.

Lemma slot_apply_ok st op st' : state_ok st -> slot_apply st op = Some st' -> state_ok st'.
Proof.
  destruct st as [|s|t|]; simpl; intros Hs H; try done.
  - destruct op; try done. bind_inv H. simplify_eq. by eapply enroll_ok.
  - by eapply live_apply_ok.
Qed.

Lemma slot_run_ok ops st st' : state_ok st -> slot_run st ops = Some st' -> state_ok st'.
Proof.
  revert st. induction ops as [|op ops IH]; simpl; intros st Hs H; [by simplify_eq|].
  destruct (slot_apply st op) eqn:E; [|done]. eapply IH; [|done]. by eapply slot_apply_ok.
Qed.

Lemma slot_run_app ops1 ops2 st :
  slot_run st (ops1 ++ ops2) = (st' ← slot_run st ops1; slot_run st' ops2).
Proof.
  revert st. induction ops1 as [|op ops IH]; simpl; intros st; [done|].
  destruct (slot_apply st op); [apply IH|done].
Qed.

(** ** The abstract participant *)

(** A participant is absent, or live at a credential generation with a binding that
    is bound, ending by a detach, ending by a crash, or detached; or it has left for
    good, or its identity was released. *)
Inductive BindingPhase := Ph_Bound | Ph_Detaching | Ph_Dying | Ph_Detached.
Inductive Participant :=
| Sp_Absent
| Sp_Live (generation : Generation) (phase : BindingPhase)
| Sp_Left (generation : Generation)
| Sp_Released.

Inductive Action := A_Enroll | A_Progress | A_End | A_Attach | A_Leave | A_Reissue.

(** Ending a bound participant detaches it at once or leaves its terminal pending; a
    pending detach may stay blocked and settles detached, a pending crash releases
    the identity.  An attach binds at the next generation from every phase, an
    operator re-issue moves the credential of a detached participant only. *)
Inductive spec_step : Participant -> Action -> Participant -> Prop :=
| spec_enroll : spec_step Sp_Absent A_Enroll (Sp_Live 1 Ph_Bound)
| spec_progress g ph : spec_step (Sp_Live g ph) A_Progress (Sp_Live g ph)
| spec_ended g ph : ph <> Ph_Bound -> spec_step (Sp_Live g Ph_Bound) A_End (Sp_Live g ph)
| spec_blocked g : spec_step (Sp_Live g Ph_Detaching) A_End (Sp_Live g Ph_Detaching)
| spec_settled g : spec_step (Sp_Live g Ph_Detaching) A_End (Sp_Live g Ph_Detached)
| spec_released g : spec_step (Sp_Live g Ph_Dying) A_End Sp_Released
| spec_attach g ph : g < u64_max ->
    spec_step (Sp_Live g ph) A_Attach (Sp_Live (g + 1) Ph_Bound)
| spec_reissue g : g < u64_max ->
    spec_step (Sp_Live g Ph_Detached) A_Reissue (Sp_Live (g + 1) Ph_Detached)
| spec_leave g ph : spec_step (Sp_Live g ph) A_Leave (Sp_Left g).

Definition action (op : SlotOp) : Action :=
  match op with
  | Op_Enroll _ _ => A_Enroll
  | Op_Cursor _ => A_Progress
  | Op_Detach _ _ _ | Op_BlockedDetach _ _ _ _ | Op_ReplayDetach _ _ _ _ | Op_Drain _
  | Op_Crash _ _ | Op_Fate _ _ => A_End
  | Op_Attach _ _ _ _ | Op_Supersede _ _ _ _ | Op_FencedAttach _ _ _ _ _ => A_Attach
  | Op_Leave _ _ _ _ _ _ | Op_PendingLeave _ _ _ _ _ _ => A_Leave
  | Op_Reissue _ _ _ _ _ _ => A_Reissue
  end.

Definition phase_of (b : BindingState) : BindingPhase :=
  match b with
  | BS_Bound _ => Ph_Bound
  | BS_PendingFinalization (PF_Detached _) => Ph_Detaching
  | BS_PendingFinalization (PF_Died _) => Ph_Dying
  | BS_Detached => Ph_Detached
  end.
Definition abstract (st : SlotState) : Participant :=
  match st with
  | SS_Absent => Sp_Absent
  | SS_Live s => Sp_Live (lm_generation (sl_member s)) (phase_of (sl_binding s))
  | SS_Retired t => Sp_Left (ri_retired_generation t)
  | SS_Released => Sp_Released
  end.

(** Who the slot belongs to; nothing before enrollment and after a release. *)
Definition identity_of (st : SlotState)
    : option (ParticipantId * ConversationId * EnrollmentFingerprint EF) :=
  match st with
  | SS_Absent | SS_Released => None
  | SS_Live s => Some (lm_participant_id (sl_member s), lm_conversation_id (sl_member s),
                       lm_enrollment_fingerprint (sl_member s))
  | SS_Retired t => Some (ri_participant_id t, ri_conversation_id t, ri_enrollment_fingerprint t)
  end.

(** The identity is kept by everything but an enrollment, which creates it, and a
    release, which erases it. *)
Definition keeps_identity (st st' : SlotState) : Prop :=
  st = SS_Absent \/ st' = SS_Released \/ identity_of st' = identity_of st.

(** One operation is one abstract action of the same identity. *)
Definition simulates (st : SlotState) (op : SlotOp) (st' : SlotState) : Prop :=
  spec_step (abstract st) (action op) (abstract st') /\ keeps_identity st st'.

Lemma keeps_identity_eq st st' : identity_of st' = identity_of st -> keeps_identity st st'.
Proof. by right; right. Qed.

(** A binding that can still end detached. *)
Definition detachable (b : BindingState) : Prop :=
  phase_of b = Ph_Bound \/ phase_of b = Ph_Detaching.

Lemma ended_simulates s m' b' c' op t :
  action op = A_End -> detachable (sl_binding s) -> b' = BS_Detached ->
  with_committed_terminal (sl_member s) t = Ok m' ->
  simulates (SS_Live s) op (SS_Live (mkSlot m' b' c')).
Proof.
  intros Ha Hb -> (_ & _ & ->)%with_committed_terminal_Ok. split; [|by apply keeps_identity_eq].
  rewrite Ha. simpl. destruct Hb as [-> | ->]; by constructor.
Qed.

(** The binding ends, or its detach stays blocked, without a terminal. *)
Lemma unchanged_simulates s b' c' op : action op = A_End ->
  (phase_of (sl_binding s) = Ph_Bound /\ phase_of b' <> Ph_Bound)
  \/ (phase_of (sl_binding s) = Ph_Detaching /\ phase_of b' = Ph_Detaching) ->
  simulates (SS_Live s) op (SS_Live (mkSlot (sl_member s) b' c')).
Proof.
  intros Ha Hb. split; [|by apply keeps_identity_eq]. rewrite Ha. simpl.
  destruct Hb as [[-> ?]|[-> ->]]; by constructor.
Qed.

Lemma attach_simulates s w s' op : action op = A_Attach -> attach_verified s w ->
  slot_of_attach w (sl_cell s) = Some s' -> simulates (SS_Live s) op (SS_Live s').
Proof.
  intros Ha (Em & _ & Hgen & Hmax & _). unfold slot_of_attach.
  destruct (commit_attach w (sl_cell s)) as [r|] eqn:Er; [|done]. intros [= <-].
  apply commit_attach_Ok in Er as (_ & Hb & Hr & _). rewrite Em, Hgen in Hr.
  apply rotate_Ok in Hr. split; [|by apply keeps_identity_eq; simpl; rewrite Hr].
  rewrite Ha. simpl. rewrite Hb, Hr. constructor. lia.
Qed.

Lemma leave_simulates s op w c t : action op = A_Leave -> left_by (sl_member s) w c ->
  lvc_identity c = IS_Retired t -> simulates (SS_Live s) op (SS_Retired t).
Proof.
  intros Ha (t' & E & _ & Hp & Hc & Hg & _ & _ & Hf) Et. rewrite E in Et. simplify_eq.
  split; [|apply keeps_identity_eq; simpl; by rewrite Hp, Hc, Hf]. rewrite Ha. simpl. rewrite Hg. constructor.
Qed.

Lemma crash_simulates s cause d s' op : action op = A_End ->
  apply_crash s cause d = Some s' -> simulates (SS_Live s) op (SS_Live s').
Proof.
  intros Ha. unfold apply_crash. destruct (sl_binding s) as [|b|] eqn:Eb; try done.
  destruct (crash_transition cause b d) as [t|p]; simpl.
  - destruct (with_committed_terminal _ _) eqn:E; [|done]. intros [= <-].
    eapply ended_simulates; eauto. left. by rewrite Eb.
  - intros [= <-]. apply unchanged_simulates; [done|]. left. by rewrite Eb.
Qed.

Lemma fate_simulates s fate d s' op : action op = A_End ->
  apply_fate s fate d = Some s' -> simulates (SS_Live s) op (SS_Live s').
Proof.
  intros Ha. unfold apply_fate. destruct (sl_binding s) as [|b|] eqn:Eb; try done.
  intros [= <-]. apply unchanged_simulates; [done|]. left. rewrite Eb. split; [done|].
  destruct fate as [cause| |]; [|by destruct d..].
  by destruct (crash_transition cause b d).
Qed.

Lemma complete_simulates s c seq t op : action op = A_End ->
  complete_pending_detach (sl_member s) (sl_binding s) c seq = Ok t ->
  simulates (SS_Live s) op
    (SS_Live (mkSlot (cdx_member t) (cdx_binding_state t) (DC_Committed (cdx_cell t)))).
Proof.
  intros Ha (p & Hp & _ & Hm & _ & Hb & _)%complete_pending_detach_Ok.
  apply validate_pending_pair_Ok in Hp as [Hp _].
  eapply ended_simulates; eauto. right. by rewrite Hp.
Qed.

Lemma drain_simulates s p seq s' op : action op = A_End ->
  sl_binding s = BS_PendingFinalization (PF_Detached p) ->
  commit_drained_detached_slot s p seq = Some s' -> simulates (SS_Live s) op (SS_Live s').
Proof.
  intros Ha Eb. unfold commit_drained_detached_slot.
  destruct (sl_cell s) as [|pc|cc|tc];
    [| destruct (complete_pending_detach _ _ _ _) as [t|] eqn:E; [|done]; intros [= <-];
       by eapply complete_simulates | | ];
    destruct (with_committed_terminal _ _) as [m'|] eqn:E; try done; intros [= <-];
    eapply ended_simulates; eauto; right; by rewrite Eb.
Qed.

(** An exact replay of a pending detach leaves it pending or settles it. *)
Lemma replay_apply_Ok (r : PendingReplayRequest D) (m : LiveMember EF) decision out :
  replay_apply r m decision = Ok out ->
  (exists p, prq_binding_state r = BS_PendingFinalization (PF_Detached p))
  /\ ((exists c, out = PRP_Pending m (prq_binding_state r) c
         (backpressure c (prq_conversation_id r) (prq_observer_progress r)))
      \/ exists seq t, complete_pending_detach m (prq_binding_state r) (prq_cell r) seq = Ok t
          /\ out = PRP_Committed (cdx_member t) (cdx_terminal t) (cdx_binding_state t) (cdx_cell t)
                    (cdx_outcome t)).
Proof.
  unfold replay_apply. destruct (validate_pending_pair _ _ _) as [p|] eqn:Ep; [simpl|done].
  apply validate_pending_pair_Ok in Ep as (Ep & _ & _ & _ & Hcause & _).
  destruct p as [p|]; [|done].
  destruct (validate_member_finalization _ _); [simpl|done].
  destruct (_ <? _); [done|]. destruct (_ =? _).
  - destruct (negb _); [done|]. intros [= <-]. split; [eauto|]. left. eauto.
  - destruct decision as [| |seq]; [done| |].
    + intros [= <-]. split; [eauto|]. left. eexists. done.
    + destruct (complete_pending_detach _ _ _ _) as [t|] eqn:E; [|done]. intros [= <-].
      split; [eauto|]. right. eauto.
Qed.

Lemma live_apply_simulates s op st' : live_apply s op = Some st' -> simulates (SS_Live s) op st'.
Proof.
  intros H. destruct op; simpl in H.
  - done.
  - destruct (apply_cursor_update _ _) as [m' [[]|]] eqn:E; [|done]. simplify_eq/=.
    apply cursor_update_Ok in E as (E1 & E2 & E3 & _ & E4 & _).
    split; [|apply keeps_identity_eq]; simpl; rewrite ?E1, ?E2, ?E3, ?E4; [constructor|done].
  - destruct (sl_binding s) eqn:Eb; try done. bind_inv H. simplify_eq.
    apply commit_detach_Ok in E0 as (_ & Hm & _ & Hb & _).
    eapply ended_simulates; eauto. left. by rewrite Eb.
  - destruct (sl_binding s) eqn:Eb; try done. bind_inv H. simplify_eq.
    apply start_blocked_detach_Ok in E0 as (_ & _ & -> & -> & _).
    apply unchanged_simulates; [done|]. left. by rewrite Eb.
  - destruct (sl_cell s) eqn:Ec; try done. bind_inv H.
    apply replay_apply_Ok in E0 as ([p Hp] & [[c ->]|(seq & t & Ht & ->)]); simplify_eq.
    + apply unchanged_simulates; [done|]. simpl in *. right. by rewrite Hp.
    + by eapply complete_simulates.
  - destruct (sl_binding s) as [| |[|]] eqn:Eb; simpl in H; try done; simplify_eq.
    + bind_inv H. simplify_eq. by eapply drain_simulates.
    + split; [simpl; rewrite Eb; constructor|by right; left].
  - bind_inv H. simplify_eq. by eapply crash_simulates.
  - bind_inv H. simplify_eq. by eapply fate_simulates.
  - bind_inv H. simplify_eq. eapply attach_simulates; eauto. by eapply verify_detached_attach_Ok.
  - destruct (sl_binding s) eqn:Eb; try done. bind_inv H. simplify_eq.
    eapply attach_simulates; eauto. by eapply verify_superseding_attach_Ok.
  - bind_inv H. simplify_eq. eapply attach_simulates; eauto. by eapply verify_fenced_attach_Ok.
  - bind_inv H. apply commit_leave_left in E0. destruct (lvc_identity _) eqn:Ei; [done|].
    simplify_eq. by eapply leave_simulates.
  - destruct (sl_binding s) eqn:Eb; try done. bind_inv H. apply commit_pending_leave_left in E0.
    destruct (lvc_identity _) eqn:Ei; [done|]. simplify_eq. by eapply leave_simulates.
  - destruct (apply_operator_credential_reissue _ _ _ _ _ _ _) as [[st n] r] eqn:E.
    destruct (reissue_installed r) eqn:Er; [|done]. simplify_eq.
    destruct (reissue_installed_Ok _ _ _ _ _ _ _ _ _ _ E Er) as (Hb & _ & ? & secret & _ & ->).
    split; [simpl; rewrite Hb; by constructor|by apply keeps_identity_eq].
Qed.

Lemma slot_apply_simulates st op st' : slot_apply st op = Some st' -> simulates st op st'.
Proof.
  destruct st as [|s|t|]; simpl; intros H; [|by apply live_apply_simulates|done..].
  destruct op; try done. bind_inv H. simplify_eq. split; [|by left].
  unfold commit_enrollment in E. ok_inv E. simpl. constructor.
Qed.

Inductive spec_run : Participant -> list Action -> Participant -> Prop :=
| spec_run_nil p : spec_run p [] p
| spec_run_cons p a p1 l p2 : spec_step p a p1 -> spec_run p1 l p2 -> spec_run p (a :: l) p2.

Lemma keeps_identity_trans st1 st2 st3 : keeps_identity st1 st2 -> keeps_identity st2 st3 ->
  st2 <> SS_Absent -> (st2 = SS_Released -> st3 = SS_Released) -> keeps_identity st1 st3.
Proof.
  intros [H1|[H1|H1]] H2 Hne Hrel; [by left|right; left; by apply Hrel|].
  destruct H2 as [H2|[H2|H2]]; [done|by right; left|]. right. right. congruence.
Qed.

Lemma released_run ops st : slot_run SS_Released ops = Some st -> st = SS_Released.
Proof. destruct ops; simpl; [by intros [= <-]|done]. Qed.

Lemma slot_run_simulates ops st st' : slot_run st ops = Some st' ->
  spec_run (abstract st) (map action ops) (abstract st') /\ keeps_identity st st'.
Proof.
  revert st. induction ops as [|op ops IH]; simpl; intros st H.
  - simplify_eq. split; [constructor|by apply keeps_identity_eq].
  - destruct (slot_apply st op) as [st1|] eqn:E; [|done].
    apply slot_apply_simulates in E as [Hstep Hid]. destruct (IH st1 H) as [Hrun Hid'].
    split; [by econstructor|]. eapply keeps_identity_trans; [done..| |].
    + intros ->. inversion Hstep.
    + intros ->. by eapply released_run.
Qed.

(** An attach or a re-issue raises the generation by one, nothing else changes it. *)
Fixpoint rotations (l : list Action) : Z :=
  match l with
  | [] => 0
  | (A_Attach | A_Reissue) :: l => rotations l + 1
  | _ :: l => rotations l
  end.
Definition generation_of (p : Participant) : option Generation :=
  match p with Sp_Absent | Sp_Released => None | Sp_Live g _ | Sp_Left g => Some g end.

Lemma rotations_nonneg l : 0 <= rotations l.
Proof. induction l as [|[] l IH]; simpl; lia. Qed.

Lemma rotations_pos l : In A_Attach l \/ In A_Reissue l -> 0 < rotations l.
Proof.
  induction l as [|a l IH]; simpl; [by intros []|]. pose proof (rotations_nonneg l).
  intros [[->|H1]|[->|H1]]; [lia| |lia|]; destruct a; try lia; by apply IH; auto.
Qed.

Lemma spec_released_run l p : spec_run Sp_Released l p -> p = Sp_Released.
Proof. intros H. inversion H as [|? ? ? ? ? Hs]; [done|]. inversion Hs. Qed.

Lemma spec_run_generation p l p' g : spec_run p l p' -> generation_of p = Some g ->
  p' = Sp_Released \/ generation_of p' = Some (g + rotations l).
Proof.
  intros H. revert g. induction H as [p|p a p1 l p2 Hs Hr IH]; intros g Hg; simpl.
  - right. by rewrite Z.add_0_r.
  - inversion Hs; simplify_eq/=;
      first [destruct (IH _ eq_refl) as [?|IH']; [by left|right; rewrite IH'; f_equal; lia]
            |left; by eapply spec_released_run].
Qed.

Lemma slot_run_generation s ops st' : slot_run (SS_Live s) ops = Some st' ->
  st' = SS_Released
  \/ generation_of (abstract st')
     = Some (lm_generation (sl_member s) + rotations (map action ops)).
Proof.
  intros [H _]%slot_run_simulates.
  apply spec_run_generation with (g := lm_generation (sl_member s)) in H as [H|H];
    [left; by destruct st'|by right|done].
Qed.

(** ** Durable state *)

(** Every durable part of a state is accepted by the constructor that restores it,
    which gives it back. *)
Definition restores (st : SlotState) : Prop :=
  match st with
  | SS_Absent | SS_Released => True
  | SS_Live (mkSlot m b c) =>
      LiveMember_restore (mkLiveMemberRestore (lm_participant_id m) (lm_conversation_id m)
        (lm_generation m) (lm_attach_secret m) (lm_cursor m) (lm_enrollment_fingerprint m)
        (lm_latest_terminal m)) = Ok m
      /\ (forall t, lm_latest_terminal m = Some t ->
          restore_committed_terminal
            (mkActiveBinding (lm_participant_id m) (lm_conversation_id m) (cbt_binding_epoch t))
            (cbt_close_cause t) (ao_transaction_order (cbt_admission_order t))
            (cbt_delivery_seq t) = Some t)
      /\ (forall p, b = BS_PendingFinalization p ->
          restore_pending_finalization
            (mkActiveBinding (lm_participant_id m) (lm_conversation_id m) (pf_binding_epoch p))
            (pf_close_cause p) (ao_transaction_order (pf_admission_order p)) = Some p)
      /\ match c with
         | DC_Empty => True
         | DC_Pending c =>
             restore_pending_detach (pdt_token c) (pdt_participant_id c)
               (pdt_request_generation c) (pdt_request_verifier c)
               (pdt_committed_binding_epoch c) (pdt_admission_order c) (pdt_refused_epoch c)
             = Some c
         | DC_Committed c =>
             restore_committed_detach (cdh_token c) (cdh_participant_id c)
               (cdh_request_generation c) (cdh_request_verifier c)
               (cdh_committed_binding_epoch c) (cdh_detached_delivery_seq c) = Some c
         | DC_Terminalized c =>
             restore_terminalized_detach (tdh_token c) (tdh_participant_id c)
               (tdh_request_generation c) (tdh_request_verifier c)
               (tdh_committed_binding_epoch c) = Some c
         end
  | SS_Retired t =>
      RetiredIdentity_restore (ri_participant_id t) (ri_conversation_id t)
        (ri_retired_generation t) (ri_enrollment_fingerprint t) (ri_leave_attempt_token t)
        (ri_leave_request_verifier t) (ri_leave_fingerprint t)
        (ao_transaction_order (ri_left_admission_order t)) (ri_committed_result t) = Ok t
  end.

Lemma restores_cell m b c : binding_ok m b -> cell_ok m b c ->
  match c with
  | DC_Empty => True
  | DC_Pending c =>
      capability_generation (pdt_committed_binding_epoch c) = pdt_request_generation c
      /\ pdt_admission_order c = binding_terminal (ao_transaction_order (pdt_admission_order c))
                                  (pdt_participant_id c)
  | DC_Committed c =>
      capability_generation (cdh_committed_binding_epoch c) = cdh_request_generation c
  | DC_Terminalized c =>
      capability_generation (tdh_committed_binding_epoch c) = tdh_request_generation c
  end.
Proof.
  intros Hb Hc. destruct c as [|c|c|c]; simpl in *; [done| |by destruct_and!|by destruct_and!].
  destruct Hc as (Hid & Hg & Hp). destruct (validate_pending_pair _ _ _) eqn:E; [|done].
  apply validate_pending_pair_Ok in E as (-> & Hp1 & <- & <- & _). destruct Hb as (_ & ? & Hr).
  split; [congruence|]. rewrite <- Hp1. by apply pf_restorable_order.
Qed.

Lemma state_ok_restores st : state_ok st -> restores st.
Proof.
  destruct st as [|[m b c]|t|]; simpl; [done| | |done].
  - intros (_ & Hb & Ht & Hc). simpl in *. split_and!.
    + apply terminal_ok_weaken in Ht. unfold terminal_ok in Ht. unfold LiveMember_restore.
      destruct m as [p v g ? ? ? [t|]]; [|done]. destruct Ht as ([? ?] & _ & ?).
      assert (validate_terminal p v g (Some t) = Ok tt) as E by (by apply validate_terminal_Some).
      simpl in *. by rewrite E.
    + intros t Et. unfold terminal_ok in Ht. rewrite Et in Ht. destruct Ht as ([<- <-] & Hr & _).
      exact Hr.
    + intros p ->. destruct Hb as ([<- <-] & _ & Hr). exact Hr.
    + pose proof (restores_cell m b c Hb Hc) as H. destruct c as [|c|c|c]; [done| |..].
      * destruct H as [H1 H2]. unfold restore_pending_detach. rewrite H1, H2.
        unfold binding_terminal. simpl. destruct c; simpl in *; rewrite H2. by guards.
      * unfold restore_committed_detach. rewrite H. destruct c. by guards.
      * unfold restore_terminalized_detach. rewrite H. destruct c. by guards.
  - intros (H1 & H2 & H3 & H4 & H5 & H6).
    unfold RetiredIdentity_restore, lc_presented_generation, token_eqb.
    rewrite H1, H2, H3, H4. guards. destruct t as [? ? ? ? ? ? ? [o ? ?] ?]; simpl in *. by subst.
Qed.

(** ** Theorems *)

(** C4: whatever committed operations an identity slot runs through, its member, binding,
    retained terminal and detach cell stay consistent: the binding, terminal and
    cell belong to the member, a current or ending binding carries the member's
    generation and every retained terminal is older, a pending cell is paired with
    its finalization, a committed cell with the clean terminal it reports, and a
    terminalized cell is older than the credential. *)
Theorem slot_invariant ops st : slot_run SS_Absent ops = Some st -> state_ok st.
Proof. by apply slot_run_ok. Qed.

(** C5: the identity slot refines the abstract participant: every run of the operations
    that change a slot (enrollment, cursor progress, detach, its replay and drain,
    crash and connection fate, every attach, operator re-issue and Leave) is a run of
    the participant machine.  It enrolls at generation one; ending a binding detaches
    it or leaves its terminal pending, a drained detach keeps the participant
    detached and a drained crash releases it; only an attach, which binds, and a
    re-issue, which needs a detached participant, move the generation, by one each;
    after a Leave or a release nothing happens.  The run keeps the participant,
    conversation and enrollment fingerprint of a live slot until a release erases
    them. *)
Theorem slot_refines ops st st' : slot_run st ops = Some st' ->
  spec_run (abstract st) (map action ops) (abstract st')
  /\ (st = SS_Absent \/ st' = SS_Released \/ identity_of st' = identity_of st).
Proof. apply slot_run_simulates. Qed.

(** A re-issue is decided by its guards and nothing else: in every reachable live slot of
    a conversation with a log, a request that passes them, with a minted secret and a
    durable append, is issued (the installer never refuses the retained terminal)
    unless the generation is exhausted; one that fails a guard is answered with that
    guard's refusal, and everything but an issue leaves the slot and the log head as
    they were. *)
Theorem reissue_decides ops s receipts request now next secret :
  slot_run SS_Absent ops = Some (SS_Live s) -> 0 < next < u64_max ->
  apply_operator_credential_reissue (SS_Live s) receipts request now next (Some secret) true
  = match reissue_refusal s receipts request now with
    | Some refusal => ((SS_Live s, next), Ok (ORO_Refused refusal))
    | None =>
        if lm_generation (sl_member s) =? u64_max
        then ((SS_Live s, next), Err (RIE_AllocationExhausted AD_CapabilityGeneration))
        else ((SS_Live (mkSlot (reissued_member (sl_member s) secret) (sl_binding s) (sl_cell s)),
               next + 1),
              Ok (ORO_Issued (mkReissued (orq_conversation_id request)
                    (orq_participant_id request) (lm_generation (sl_member s))
                    (lm_generation (sl_member s) + 1) (encode_hex secret))))
    end.
Proof.
  intros ((Hg1 & Hg2) & _ & Ht & _)%slot_run_ok Hn; [|done].
  unfold apply_operator_credential_reissue. destruct (Z.eqb_spec next 0); [lia|].
  destruct (reissue_refusal _ _ _ _); [done|]. unfold mint_reissued_credential.
  destruct (Z.eqb_spec (lm_generation (sl_member s)) u64_max) as [E|E].
  - destruct (next_generation _) as [g|e] eqn:Eg.
    + apply next_generation_Ok in Eg. lia.
    + by apply next_generation_Err in Eg as ->.
  - rewrite next_generation_intro by lia. simpl. unfold install_reissued_credential,
      Generation_new, LiveMember_restore. simpl.
    destruct (Z.eqb_spec (lm_generation (sl_member s) + 1) 0); [lia|]. guards. simpl.
    assert (validate_terminal (lm_participant_id (sl_member s)) (lm_conversation_id (sl_member s))
      (lm_generation (sl_member s) + 1) (lm_latest_terminal (sl_member s)) = Ok tt) as ->.
    { apply terminal_ok_weaken in Ht. unfold terminal_ok in Ht.
      destruct (lm_latest_terminal _); [|done]. destruct Ht as ([? ?] & _ & ?).
      apply validate_terminal_Some. split_and!; try done. lia. }
    simpl. unfold advance_log_head. by rewrite checked_add_exact by lia.
Qed.

(** The durable row of an issued re-issue, replayed on the slot it was minted for,
    installs the same member. *)
Theorem reissue_replays (m : LiveMember EF) next row m' :
  scr_issued_generation row = scr_presented_generation row + 1 ->
  scr_issued_generation row <= u64_max -> next < u64_max ->
  install_reissued_credential m row = Ok m' ->
  replay_credential_reissue m next row next = Ok (m', next + 1).
Proof.
  intros H1 H2 H3 Hm. unfold replay_credential_reissue, advance_log_head.
  rewrite !checked_add_exact by lia. rewrite H1. guards. simpl. by rewrite Hm.
Qed.

(** A restart loses nothing: the durable fields of every state an identity slot can
    reach pass the checks of the constructors that restore the member, its retained
    terminal, a pending finalization, each detach cell and the tombstone, and give
    back exactly that state. *)
Theorem slot_restart ops st : slot_run SS_Absent ops = Some st -> restores st.
Proof. intros H. apply state_ok_restores. by apply slot_run_ok in H. Qed.

End Slot.

(** ** A concrete slot *)

(** Fingerprints and verifiers are numbers; the frontiers accept every Leave and
    count them. *)
Module Sample.

#[export] Instance counting_frontier : LeaveFrontier Z :=
  {| finish_leave_claims fr _ _ _ _ _ := Ok (fr + 1) |}.

Definition token (b : byte) : Token := repeat b 16.
Definition secret (b : byte) : AttachSecret := repeat b 32.
Definition epoch (connection generation : Z) : BindingEpoch :=
  mkBindingEpoch (mkConnectionIncarnation 1 connection) generation.
Definition binding (connection generation : Z) : ActiveBinding :=
  mkActiveBinding 4 9 (epoch connection generation).

Definition enroll : SlotOp (EF := Z) (V := Z) (LF := Z) (D := Z) (P := unit) (Fr := Z) :=
  Op_Enroll (mkEnrollmentRequest 9 (token Byte.x01))
    (mkEnrollmentParameters (mkAllocatedSlot tt 9 4 100) (secret Byte.x0a) (epoch 1 1)
       (mkAttachedPosition 1 1) 50 60 (mkEnrollmentFingerprint 77)).
Definition detach_request (generation : Z) : DetachRequest :=
  mkDetachRequest 9 4 generation (token Byte.x02).
Definition attach_request (generation : Z) : CredentialAttachRequest :=
  mkCredentialAttachRequest 9 4 generation (secret Byte.x0a) (token Byte.x03) None.
Definition leave_request (generation : Z) : LeaveRequest :=
  mkLeaveRequest 9 4 generation (secret Byte.x0b) (token Byte.x04).
Definition attach_parameters (generation seq : Z) : AttachCommitParameters :=
  mkAttachParameters (binding 2 generation) (secret Byte.x0b) (mkAttachedPosition seq seq) 70 80.

(** Enrolled, detached, attached again, detach blocked, drained, attached, superseded
    and left. *)
Definition life : list (SlotOp (EF := Z) (V := Z) (LF := Z) (D := Z) (P := unit) (Fr := Z)) :=
  [ enroll;
    Op_Cursor (mkLiveMemberCursorUpdate 9 4 1 0 2);
    Op_Detach (detach_request 1) 5 (mkCommittedPosition 3 3);
    Op_Attach AttachAdmission (attach_request 1) ASP_Verified (attach_parameters 2 4);
    Op_BlockedDetach (detach_request 2) 6 (mkPendingPosition 5) 2;
    Op_ReplayDetach (detach_request 2) 6 3 PDD_StillBlocked;
    Op_Drain 6;
    Op_Attach AttachAdmission (attach_request 2) ASP_Verified (attach_parameters 3 7);
    Op_Supersede (attach_request 3) ASP_Verified (mkCommittedPosition 8 8)
      (attach_parameters 4 8);
    Op_Crash SCC_UncleanServerRestart (BTD_Committed (mkCommittedPosition 9 9));
    Op_Leave (leave_request 4) ASP_Verified 8 (mkLeaveFingerprint 88)
      (prepared_settled 0 9 4 None 10) (mkLeaveCommitParameters 10) ].

(** Crashed, the credential re-issued by an operator after the receipts expired,
    attached again at the generation after it, crashed with a blocked terminal and
    released by its drain. *)
Definition reissue_request (generation : Z) : OperatorCredentialReissueRequest :=
  mkReissueRequest 9 4 generation.
Definition released_life
    : list (SlotOp (EF := Z) (V := Z) (LF := Z) (D := Z) (P := unit) (Fr := Z)) :=
  [ enroll;
    Op_Crash SCC_ProcessKilled (BTD_Committed (mkCommittedPosition 3 3));
    Op_Reissue (mkSlotReceipts None 50 None) (reissue_request 1) 55 3 (Some (secret Byte.x0c)) true;
    Op_Attach AttachAdmission (attach_request 2) ASP_Verified (attach_parameters 3 4);
    Op_Crash SCC_ConnectionLost (BTD_Pending (mkPendingPosition 5));
    Op_Drain 6 ].

(** The live slots after each of the operations of [life]. *)
Definition slots : list (Slot (EF := Z) (D := Z)) := Eval vm_compute in
  flat_map (fun n => match slot_run SS_Absent (take n life) with
                     | Some (SS_Live s) => [s] | _ => [] end) (seq 1 10).
Definition slot (n : nat) : Slot (EF := Z) (D := Z) :=
  nth (n - 1) slots (mkSlot (from_enrollment 4 9 [] (mkEnrollmentFingerprint 77)) BS_Detached
                       DC_Empty).

End Sample.
Import Sample.

Lemma slot_invariant_witness :
  is_some (slot_run SS_Absent (take 5 life)) = true
  /\ match slot_run SS_Absent (take 5 life) with
     | Some st => state_ok st | None => False end.
Proof.
  split; [by vm_compute|].
  destruct (slot_run SS_Absent (take 5 life)) eqn:E; [|by vm_compute in E].
  exact (slot_invariant _ _ E).
Defined.

Lemma slot_refines_witness :
  spec_run Sp_Absent
    [A_Enroll; A_Progress; A_End; A_Attach; A_End; A_End; A_End; A_Attach; A_Attach; A_End; A_Leave]
    (Sp_Left 4)
  /\ spec_run Sp_Absent [A_Enroll; A_End; A_Reissue; A_Attach; A_End; A_End] Sp_Released.
Proof.
  split.
  - destruct (slot_run SS_Absent life) as [st|] eqn:E; [|by vm_compute in E].
    pose proof (slot_refines life SS_Absent st E) as [H _].
    vm_compute in E. simplify_eq. exact H.
  - destruct (slot_run SS_Absent released_life) as [st|] eqn:E; [|by vm_compute in E].
    pose proof (slot_refines released_life SS_Absent st E) as [H _].
    vm_compute in E. simplify_eq. exact H.
Defined.

Lemma reissue_decides_witness :
  match slot_run SS_Absent (take 2 released_life) with
  | Some (SS_Live s) =>
      apply_operator_credential_reissue (V := Z) (LF := Z) (SS_Live s)
        (mkSlotReceipts None 50 None) (reissue_request 3) 55 3 (Some (secret Byte.x0c)) true
      = ((SS_Live s, 3), Ok (ORO_Refused (ORR_GenerationMismatch 9 4 3 1)))
  | _ => False
  end.
Proof.
  destruct (slot_run SS_Absent (take 2 released_life)) as [[|s| |]|] eqn:E;
    [by vm_compute in E| |by vm_compute in E..].
  rewrite (reissue_decides _ _ _ _ _ _ _ E) by (vm_compute; done).
  vm_compute in E. simplify_eq. by vm_compute.
Defined.

Lemma reissue_replays_witness :
  replay_credential_reissue (sl_member (slot 3)) 4
    (mkStoredReissue 4 1 2 (secret Byte.x0c) 55) 4
  = Ok (reissued_member (sl_member (slot 3)) (secret Byte.x0c), 5).
Proof. by apply (reissue_replays (sl_member (slot 3)) 4 (mkStoredReissue 4 1 2 (secret Byte.x0c) 55)). Defined.

Lemma slot_restart_witness :
  is_some (slot_run SS_Absent life) = true
  /\ match slot_run SS_Absent life with
     | Some st => restores st | None => False end.
Proof.
  split; [by vm_compute|].
  destruct (slot_run SS_Absent life) eqn:E; [|by vm_compute in E].
  exact (slot_restart _ _ E).
Defined.
