(* ===== verification/Requests.v ===== *)
(** * Requests against an identity slot

    How the lookups of [lookup.rs] and the transactions they lead to fit together
    over the states of [Slot]: a credential that has been rotated is refused by
    every lookup, a request a lookup authorizes is accepted by its transaction, and
    a committed detach, attach or Leave is answered again with the same outcome. *)
From coqutil Require Import Byte.
From S2P Require Import Prelude Slot Algebra Tags Wire Response Edge Binding EdgeSteps Member.
From S2P Require Import Detach Leave Attach Lookup Reissue.

Section Requests.
Context {EF V LF D P Fr : Type} `{!EqDecision D} `{!LeaveFrontier Fr}.
Abbreviation Slot := (Slot (EF := EF) (D := D)).
Abbreviation SlotState := (SlotState (EF := EF) (V := V) (LF := LF) (D := D)).
Abbreviation SlotOp := (SlotOp (EF := EF) (V := V) (LF := LF) (D := D) (P := P) (Fr := Fr)).
#[local] Arguments validate_pending_pair : simpl never.
#[local] Arguments validate_terminal : simpl never.
Implicit Types s : Slot.
Implicit Types st : SlotState.
Implicit Types op : SlotOp.
Implicit Types ops : list SlotOp.

(** What a lookup reads of a slot. *)
Definition presented st : PresentedIdentity EF V LF :=
  match st with
  | SS_Absent | SS_Released => PI_Absent
  | SS_Live s => PI_Live (sl_member s)
  | SS_Retired t => PI_Retired t
  end.
Definition binding_of st : BindingState :=
  match st with SS_Live s => sl_binding s | SS_Absent | SS_Retired _ | SS_Released => BS_Detached end.
Definition cell_of st : DetachCell D :=
  match st with SS_Live s => sl_cell s | SS_Absent | SS_Retired _ | SS_Released => DC_Empty end.
Definition detach_context st (resolution : DetachTokenResolution EF V LF)
    (receiving : option BindingEpoch) (request : DetachRequest) (verifier : D)
    (observer_progress : DeliverySeq) : DetachLookupContext EF V LF D :=
  mkDetachLookupContext resolution (presented st) (cell_of st) (binding_of st) receiving request
    verifier observer_progress.

(** ** What an authorization means *)

Lemma attach_authorized phase st b r proof m :
  lookup_credential_attach phase (presented st) b r proof = ALR_AuthorizedFresh m ->
  exists s, st = SS_Live s /\ m = sl_member s
  /\ car_conversation_id r = lm_conversation_id m /\ car_participant_id r = lm_participant_id m
  /\ car_capability_generation r = lm_generation m /\ proof = ASP_Verified.
Proof.
  unfold lookup_credential_attach, lookup_live_attach_receipt. intros H.
  ok_inv H; csplit_in H; dreflect; simplify_eq/=; destruct st as [|s|t|]; simplify_eq/=;
    eexists; split_and!; try done; by destruct proof.
Qed.

Lemma binding_required_authorized st b e r m a :
  lookup_binding_required (presented st) b e r = BLR_Authorized m a ->
  exists s, st = SS_Live s /\ m = sl_member s /\ b = BS_Bound a
  /\ binding_request_generation r = lm_generation m /\ e = Some (bnd_binding_epoch a).
Proof.
  unfold lookup_binding_required. intros H. csplit_in H; dreflect; simplify_eq/=.
  destruct st as [|s|t|]; simplify_eq/=. eexists. by split_and!.
Qed.

Lemma exact_cell_not_authorized (m : LiveMember EF) (c : DetachCell D) b r v o m' a :
  lookup_exact_detach_cell m c b r v o <> Some (DLR_Authorized m' a).
Proof. unfold lookup_exact_detach_cell, stale_detach. intros H. by csplit_in H. Qed.

Lemma detach_authorized st resolution e r v o m a :
  lookup_detach (detach_context st resolution e r v o) = DLR_Authorized m a ->
  exists s, st = SS_Live s /\ m = sl_member s /\ sl_binding s = BS_Bound a
  /\ dr_conversation_id r = bnd_conversation_id a /\ dr_participant_id r = bnd_participant_id a
  /\ dr_capability_generation r = capability_generation (bnd_binding_epoch a)
  /\ dr_capability_generation r = lm_generation m.
Proof.
  unfold lookup_detach, detach_context, stale_detach. simpl. intros H.
  csplit_in H; dreflect; simplify_eq/=;
    try (by exfalso; eapply exact_cell_not_authorized); destruct st as [|s|t|]; simplify_eq/=;
    eexists; split_and!; try done; congruence.
Qed.

Lemma leave_authorized st b e r proof :
  match lookup_leave (presented st) b e r proof with
  | LLR_AuthorizedBound m _ | LLR_AuthorizedDetached m =>
      exists s, st = SS_Live s /\ m = sl_member s
      /\ lr_conversation_id r = lm_conversation_id m /\ lr_participant_id r = lm_participant_id m
      /\ lr_capability_generation r = lm_generation m /\ proof = LSP_Verified
  | _ => True
  end.
Proof.
  unfold lookup_leave. destruct st as [|s|t|]; simpl; [done| | |done].
  - destruct (negb _ || negb _) eqn:?; [done|]. destruct (negb _ || bool_decide _) eqn:?; [done|].
    dreflect. destruct proof; [done|].
    destruct b as [|a|p]; [|destruct (_ && _); [|done]|]; eexists; by split_and!.
  - unfold lookup_retired_leave. repeat (destruct (negb _ || negb _) || destruct (negb _)
      || destruct (bool_decide _)); done.
Qed.

(** C30: a rotated credential is fenced: once a participant has attached again, or an
    operator has re-issued its credential, no request that presents its earlier
    generation is authorized, whatever else happened since and whatever secret proof,
    token resolution or connection it comes with: neither an attach, an
    acknowledgement or a record, nor a detach or a Leave. *)
Theorem stale_credential_fenced s ops st' g :
  slot_run (SS_Live s) ops = Some st' ->
  In A_Attach (map action ops) \/ In A_Reissue (map action ops) ->
  g <= lm_generation (sl_member s) ->
  (forall phase b r proof m, car_capability_generation r = g ->
     lookup_credential_attach phase (presented st') b r proof <> ALR_AuthorizedFresh m)
  /\ (forall b e r m a, binding_request_generation r = g ->
     lookup_binding_required (presented st') b e r <> BLR_Authorized m a)
  /\ (forall resolution e r v o m a, dr_capability_generation r = g ->
     lookup_detach (detach_context st' resolution e r v o) <> DLR_Authorized m a)
  /\ (forall b e r proof m, lr_capability_generation r = g ->
     lookup_leave (presented st') b e r proof <> LLR_AuthorizedDetached m
     /\ forall a, lookup_leave (presented st') b e r proof <> LLR_AuthorizedBound m a).
Proof.
  intros Hrun%slot_run_generation Hin Hg. apply rotations_pos in Hin.
  assert (forall s', st' = SS_Live s' -> g < lm_generation (sl_member s')) as Hlt.
  { intros s' ->. destruct Hrun as [Hrun|Hrun]; simplify_eq/=. lia. }
  split_and!.
  - intros phase b r proof m Hr (s' & E & -> & _ & _ & ? & _)%attach_authorized.
    apply Hlt in E. lia.
  - intros b e r m a Hr (s' & E & -> & _ & ? & _)%binding_required_authorized. apply Hlt in E. lia.
  - intros res e r v o m a Hr (s' & E & -> & _ & _ & _ & _ & ?)%detach_authorized.
    apply Hlt in E. lia.
  - intros b e r proof m Hr. pose proof (leave_authorized st' b e r proof) as Hl.
    split; [intros H|intros a H]; rewrite H in Hl; destruct Hl as (s' & E & -> & _ & _ & ? & _);
      apply Hlt in E; lia.
Qed.

(** Under an active binding the cell never blocks a detach. *)
Lemma bound_previous_cell s a : slot_ok s -> sl_binding s = BS_Bound a ->
  validate_previous_cell (sl_member s) (sl_cell s) = Ok tt.
Proof.
  intros (_ & _ & _ & Hc) Hb. rewrite Hb in Hc. destruct (sl_cell s) as [|c|c|c]; simpl in *.
  - done.
  - by destruct Hc as (_ & _ & [=]).
  - by destruct Hc.
  - destruct Hc as (-> & ? & _). by guards.
Qed.

Lemma bound_member_authority s a : slot_ok s -> sl_binding s = BS_Bound a ->
  validate_member_authority (sl_member s) a = Ok tt.
Proof.
  intros (_ & Hb & _) Eb. rewrite Eb in Hb. unfold validate_member_authority.
  destruct Hb as ([-> ->] & ->). by guards.
Qed.

(** The binding of a slot can be ended with any terminal made from it. *)
Lemma bound_terminal s a t : slot_ok s -> sl_binding s = BS_Bound a ->
  ended_binding (cbt_identity t) = a ->
  with_committed_terminal (sl_member s) t
  = Ok (mkLiveMember (lm_participant_id (sl_member s)) (lm_conversation_id (sl_member s))
          (lm_generation (sl_member s)) (lm_attach_secret (sl_member s)) (lm_cursor (sl_member s))
          (lm_enrollment_fingerprint (sl_member s)) (Some t)).
Proof.
  intros (_ & Hb & _) Eb <-. rewrite Eb in Hb. destruct Hb as ([? ?] & ?). simpl in *.
  unfold with_committed_terminal.
  rewrite (proj2 (validate_terminal_Some _ _ _ t tt)); [done|].
  split_and!; [done..|unfold cbt_binding_epoch; lia|done].
Qed.

(** A detach the lookup authorizes is never refused afterwards: in every reachable
    slot the transaction commits it at any position, ending the binding and storing
    the request, and it can equally be started as a blocked detach. *)
Theorem authorized_detach_commits ops s resolution e r v o m a :
  slot_run SS_Absent ops = Some (SS_Live s) ->
  lookup_detach (detach_context (SS_Live s) resolution e r v o) = DLR_Authorized m a ->
  m = sl_member s /\ sl_binding s = BS_Bound a
  /\ (forall pos, exists s', live_apply s (Op_Detach r v pos : SlotOp) = Some (SS_Live s')
      /\ sl_binding s' = BS_Detached
      /\ sl_cell s' = DC_Committed (mkCommittedDetach (dr_detach_attempt_token r)
           (dr_participant_id r) (dr_capability_generation r) v (bnd_binding_epoch a)
           (cbp_delivery_seq pos)))
  /\ (forall pos progress, exists s',
      live_apply s (Op_BlockedDetach r v pos progress : SlotOp) = Some (SS_Live s')
      /\ sl_binding s' = BS_PendingFinalization (PF_Detached (pending_clean_deregister a pos))
      /\ sl_member s' = sl_member s).
Proof.
  intros Hok%slot_run_ok; [|done]. intros (s0 & E & -> & Eb & H1 & H2 & H3 & _)%detach_authorized.
  simplify_eq. simpl in Hok.
  assert (verify_detach_request a r v = Ok (mkVerifiedDetachRequest a r v)) as Hv.
  { unfold verify_detach_request. rewrite H1, H2, H3. by guards. }
  pose proof (bound_previous_cell _ _ Hok Eb) as Hcell.
  pose proof (bound_member_authority _ _ Hok Eb) as Hauth.
  split_and!; [done..| |].
  - intros pos. simpl. rewrite Eb, Hv. simpl. unfold commit_detach. rewrite Hcell. simpl.
    rewrite Hauth. simpl. rewrite (bound_terminal _ a); [|done..|by destruct a]. simpl.
    eexists. done.
  - intros pos progress. simpl. rewrite Eb, Hv. simpl. unfold start_blocked_detach.
    rewrite Hcell. simpl. rewrite Hauth. simpl. eexists. done.
Qed.

(** ** Attach *)

(** The result binding the server mints for an attach of [m]. *)
Definition minted_for (m : LiveMember EF) (pars : AttachCommitParameters) : Prop :=
  belongs m (bnd_participant_id (acp_binding pars)) (bnd_conversation_id (acp_binding pars))
  /\ capability_generation (bnd_binding_epoch (acp_binding pars)) = lm_generation m + 1
  /\ lm_generation m < u64_max.

(** The slot [s'] after attaching [s] with [pars]. *)
Definition attached s pars s' : Prop :=
  sl_binding s' = BS_Bound (acp_binding pars)
  /\ lm_generation (sl_member s') = lm_generation (sl_member s) + 1
  /\ lm_attach_secret (sl_member s') = acp_attach_secret pars
  /\ lm_cursor (sl_member s') = lm_cursor (sl_member s)
  /\ (sl_cell s = DC_Empty -> sl_cell s' = DC_Empty).

Lemma verify_attach_common_intro m r pars : minted_for m pars -> 1 <= lm_generation m ->
  car_conversation_id r = lm_conversation_id m -> car_participant_id r = lm_participant_id m ->
  car_capability_generation r = lm_generation m ->
  verify_attach_common m r ASP_Verified pars = Ok tt.
Proof.
  intros ([H1 H2] & H3 & H4) Hg E1 E2 E3. unfold verify_attach_common.
  rewrite E1, E2, E3, H1, H2, H3, checked_add_exact by lia. guards.
  unfold Generation_new. destruct (Z.eqb_spec (lm_generation m + 1) 0); [lia|]. by guards.
Qed.

(** A detached or bound slot lets its cell through an ordinary attach. *)
Lemma ordinary_attach_cell s mode : slot_ok s ->
  match mode with
  | AM_Detached _ => sl_binding s = BS_Detached
  | AM_Superseded _ => exists a, sl_binding s = BS_Bound a
  | AM_Fenced _ _ => False
  end ->
  exists c, transition_detach_cell mode (sl_member s) (sl_cell s) = Ok c
  /\ (sl_cell s = DC_Empty -> c = DC_Empty).
Proof.
  intros (_ & _ & _ & Hc) Hm. destruct (sl_cell s) as [|c|c|c]; simpl in *.
  - eauto.
  - destruct Hc as (_ & _ & Hp). destruct mode; [rewrite Hm in Hp|destruct Hm as [a Hm];
      rewrite Hm in Hp|]; done.
  - destruct Hc as (Hb & -> & -> & _ & t & -> & -> & -> & ->). guards.
    destruct mode; [by eexists|destruct Hm; congruence|done].
  - destruct Hc as (-> & _). guards. by eexists.
Qed.

(** A verified ordinary attach commits. *)
Lemma ordinary_attach_commits s r pars mode : slot_ok s ->
  minted_for (sl_member s) pars -> car_capability_generation r = lm_generation (sl_member s) ->
  match mode with
  | AM_Detached _ => sl_binding s = BS_Detached
  | AM_Superseded t => exists a pos, sl_binding s = BS_Bound a /\ t = superseded a pos
  | AM_Fenced _ _ => False
  end ->
  exists s', slot_of_attach (mkVerifiedAttach (sl_member s) r pars mode) (sl_cell s) = Some s'
  /\ attached s pars s'.
Proof.
  intros Hs ([H1 H2] & H3 & H4) Hr Hm.
  assert (exists t, mode_terminal mode = t /\ match t with
      | Some t => cbt_participant_id t = lm_participant_id (sl_member s)
          /\ cbt_conversation_id t = lm_conversation_id (sl_member s)
          /\ capability_generation (cbt_binding_epoch t) <= lm_generation (sl_member s)
      | None => True end) as (t & Et & Ht).
  { eexists. split; [done|]. destruct mode as [|t|]; [done| |done].
    destruct Hm as (a & pos & Eb & ->). destruct Hs as (_ & Hb & _). rewrite Eb in Hb.
    destruct Hb as [[? ?] ?]. split_and!; [done..|]. unfold cbt_binding_epoch. simpl. lia. }
  assert (validate_terminal (lm_participant_id (sl_member s)) (lm_conversation_id (sl_member s))
      (lm_generation (sl_member s) + 1)
      match t with Some t => Some t | None => lm_latest_terminal (sl_member s) end = Ok tt) as Hv.
  { destruct t as [t|]; [apply validate_terminal_Some; split_and!; try done; lia|].
    destruct Hs as (_ & _ & Ho%terminal_ok_weaken & _). unfold terminal_ok in Ho.
    destruct (lm_latest_terminal _) as [t|]; [|done]. destruct Ho as ([? ?] & _ & ?).
    apply validate_terminal_Some; split_and!; try done; lia. }
  destruct (ordinary_attach_cell s mode Hs) as (c & Hc & Hcc).
  { destruct mode; [done|destruct Hm as (a & ? & ? & ?); by exists a|done]. }
  unfold slot_of_attach, commit_attach, rotate. simpl. rewrite Hc, H3. simpl.
  assert (is_successor_generation (car_capability_generation r) (lm_generation (sl_member s) + 1)
          = true) as Hsucc.
  { unfold is_successor_generation. rewrite Hr, checked_add_exact by lia. by guards. }
  destruct mode as [ad|t0|]; [| |done]; simpl in Et; subst t; rewrite Hv; simpl;
    unfold AttachBound_ordinary; rewrite H3, Hsucc; simpl; eexists; (split; [done|]); by split_and!.
Qed.

(** Only a fenced attach accepts a marker. *)
Lemma marked_attach_refused s r proof pars marker : car_accept_marker_delivery_seq r = Some marker ->
  live_apply s (Op_Attach AttachAdmission r proof pars : SlotOp) = None
  /\ forall pos, live_apply s (Op_Supersede r proof pos pars : SlotOp) = None.
Proof.
  intros Hm. split; [|intros pos]; simpl.
  - unfold verify_detached_attach. rewrite Hm. simpl.
    destruct (verify_attach_common _ _ _ _); [simpl|done]. by destruct (negb _).
  - destruct (sl_binding s) as [|a|]; [done| |done]. unfold verify_superseding_attach. rewrite Hm.
    simpl. destruct (verify_attach_common _ _ _ _); [simpl|done]. by destruct (_ || _ || _).
Qed.

(** C31: what becomes of an attach the lookup authorizes, by the marker it presents and
    the binding of the slot.  Without a marker and with the binding minted for the
    next generation, a detached slot attaches and a bound slot is superseded,
    installing the new binding, secret and generation and keeping the cursor.  With a
    marker, which only a fenced attach may accept, and in a slot whose binding is
    still ending, both ordinary transactions refuse it. *)
Theorem authorized_attach_commits ops s phase b r proof m pars :
  slot_run SS_Absent ops = Some (SS_Live s) ->
  lookup_credential_attach phase (presented (SS_Live s)) b r proof = ALR_AuthorizedFresh m ->
  minted_for (sl_member s) pars ->
  match car_accept_marker_delivery_seq r, sl_binding s with
  | None, BS_Detached => exists s',
      live_apply s (Op_Attach AttachAdmission r proof pars : SlotOp) = Some (SS_Live s')
      /\ attached s pars s'
  | None, BS_Bound _ => forall pos,
      cbp_transaction_order pos = arp_transaction_order (acp_attached_position pars) ->
      exists s', live_apply s (Op_Supersede r proof pos pars : SlotOp) = Some (SS_Live s')
      /\ attached s pars s'
  | Some _, _ | None, BS_PendingFinalization _ =>
      live_apply s (Op_Attach AttachAdmission r proof pars : SlotOp) = None
      /\ forall pos, live_apply s (Op_Supersede r proof pos pars : SlotOp) = None
  end.
Proof.
  intros Hok%slot_run_ok; [|done]. simpl in Hok.
  intros (s0 & E & -> & H1 & H2 & H3 & ->)%attach_authorized Hmint. simplify_eq.
  pose proof (verify_attach_common_intro (sl_member s0) r pars Hmint (proj1 (proj1 Hok)) H1 H2 H3)
    as Hv.
  destruct (car_accept_marker_delivery_seq r) as [marker|] eqn:Hmark;
    [by eapply marked_attach_refused|].
  destruct (sl_binding s0) as [|a|p] eqn:Eb.
  - destruct (ordinary_attach_commits s0 r pars (AM_Detached AttachAdmission) Hok Hmint H3 Eb)
      as (s' & Hs' & Ha).
    exists s'. split; [|done]. simpl. unfold verify_detached_attach. rewrite Hv, Hmark, Eb. simpl.
    by rewrite Hs'.
  - intros pos Hpos.
    destruct (ordinary_attach_commits s0 r pars (AM_Superseded (superseded a pos)) Hok Hmint H3)
      as (s' & Hs' & Ha); [by eauto|].
    exists s'. split; [|done]. simpl. unfold verify_superseding_attach. rewrite Eb, Hv, Hmark.
    destruct Hok as (_ & Hb & _). rewrite Eb in Hb. destruct Hb as ([-> ->] & ->). rewrite Hpos.
    guards. by rewrite Hs'.
  - split; [|intros pos; simpl; by rewrite Eb]. simpl. unfold verify_detached_attach.
    by rewrite Hv, Eb.
Qed.

(** ** Leave *)

Lemma verify_leave_intro m r (v : V) (fp : LeaveFingerprint LF) :
  lr_conversation_id r = lm_conversation_id m -> lr_participant_id r = lm_participant_id m ->
  lr_capability_generation r = lm_generation m ->
  verify_leave_request (EF := EF) m r ASP_Verified v fp
  = Ok (mkVerifiedLeaveRequest (lm_conversation_id m) (lm_participant_id m) (lm_generation m)
          (lr_leave_attempt_token r) v fp).
Proof. intros H1 H2 H3. unfold verify_leave_request. rewrite H1, H2, H3. by guards. Qed.

Lemma LeaveCommitted_new_intro conv tok pid g ended prior seq :
  (forall e, ended = Some e -> capability_generation e = g) ->
  (forall q, prior = Some q -> q < seq) ->
  LeaveCommitted_new conv tok pid g ended prior seq
  = Some (mkLeaveCommitted conv tok pid g ended prior seq).
Proof.
  intros He Hp. unfold LeaveCommitted_new.
  destruct ended as [e|]; [rewrite (He e eq_refl)|]; guards;
    (destruct prior as [q|]; [pose proof (Hp q eq_refl)|]); by guards.
Qed.

(** The last step of a Leave of a consistent member succeeds when the frontiers do. *)
Lemma finish_leave_intro (m : LiveMember EF) tok (v : V) (fp : LeaveFingerprint LF) ended prior ct
    order seq (fr fr' : Fr) :
  (forall e, ended = Some e -> capability_generation e = lm_generation m) ->
  (forall q, prior = Some q -> q < seq) ->
  finish_leave_claims fr (lm_participant_id m) ended ct seq order = Ok fr' ->
  exists t, finish_leave m (mkVerifiedLeaveRequest (lm_conversation_id m) (lm_participant_id m)
      (lm_generation m) tok v fp) ended prior ct order seq fr
    = Ok (mkLeaveCommit (IS_Retired t) fr')
  /\ ri_committed_result t = mkLeaveCommitted (lm_conversation_id m) tok (lm_participant_id m)
       (lm_generation m) ended prior seq.
Proof.
  intros He Hp Hfr. unfold finish_leave. simpl. guards.
  rewrite LeaveCommitted_new_intro, Hfr by done. simpl.
  unfold retire, lc_presented_generation, token_eqb. simpl. guards. eauto.
Qed.

(** The cell of a reachable slot passes both Leave checks. *)
Lemma leave_settled_cell s : slot_ok s ->
  match sl_binding s with BS_PendingFinalization _ => False | _ => True end ->
  validate_settled_cell (sl_member s) (sl_binding s) (sl_cell s) = Ok tt.
Proof.
  intros (_ & _ & _ & Hc) Hb. destruct (sl_cell s) as [|c|c|c]; simpl in *.
  - done.
  - destruct Hc as (_ & _ & Hp). by destruct (sl_binding s).
  - destruct Hc as (-> & -> & -> & _ & t & -> & -> & -> & ->). by guards.
  - destruct Hc as (-> & _ & _ & Ht). unfold is_none. rewrite Ht. by guards.
Qed.

Lemma leave_pending_cell s p : slot_ok s -> sl_binding s = BS_PendingFinalization p ->
  validate_pending_cell (lm_conversation_id (sl_member s)) p (sl_cell s) = Ok tt.
Proof.
  intros (_ & Hb & _ & Hc) Eb. rewrite Eb in *. destruct Hb as ([Hp _] & _).
  destruct (sl_cell s) as [|c|c|c]; simpl in *.
  - done.
  - destruct Hc as (_ & _ & Hpair). by destruct (validate_pending_pair _ _ _).
  - by destruct Hc.
  - destruct Hc as (-> & _). rewrite Hp. by guards.
Qed.

(** The Leave of a slot whose binding is settled, and of one whose binding is ending. *)
Lemma settled_leave_commits s r (v : V) (fp : LeaveFingerprint LF) (fr fr' : Fr) order seq ended :
  let m := sl_member s in
  slot_ok s ->
  match sl_binding s with
  | BS_Detached => ended = None
  | BS_Bound a => ended = Some (bnd_binding_epoch a)
  | BS_PendingFinalization _ => False
  end ->
  lr_conversation_id r = lm_conversation_id m -> lr_participant_id r = lm_participant_id m ->
  lr_capability_generation r = lm_generation m ->
  (forall t, lm_latest_terminal m = Some t -> cbt_delivery_seq t < seq) ->
  finish_leave_claims fr (lm_participant_id m) ended None seq order = Ok fr' ->
  exists t, live_apply s (Op_Leave r ASP_Verified v fp
              (prepared_settled fr (lm_conversation_id m) (lm_participant_id m) ended order)
              (mkLeaveCommitParameters seq) : SlotOp) = Some (SS_Retired t)
  /\ ri_committed_result t = mkLeaveCommitted (lm_conversation_id m) (lr_leave_attempt_token r)
       (lm_participant_id m) (lm_generation m) ended
       (option_map cbt_delivery_seq (lm_latest_terminal m)) seq.
Proof.
  intros m Hok Hend H1 H2 H3 Hseq Hfr.
  destruct (finish_leave_intro m (lr_leave_attempt_token r) v fp ended
    (option_map cbt_delivery_seq (lm_latest_terminal m)) None order seq fr fr') as (t & Ht & Hres);
    [| |exact Hfr|].
  { intros e0 ->. destruct Hok as (_ & Hbok & _).
    destruct (sl_binding s); simplify_eq; [by destruct Hbok|done]. }
  { intros q Hq. destruct (lm_latest_terminal m) as [t|]; simplify_eq/=. by apply Hseq. }
  exists t. split; [|done]. simpl. fold m. rewrite verify_leave_intro by done. simpl.
  unfold commit_leave, validate_verified, consume_settled. simpl. guards.
  assert (validate_settled_cell m (sl_binding s) (sl_cell s) = Ok tt) as Hcell
    by (apply leave_settled_cell; [done|by destruct (sl_binding s)]).
  assert (validate_sequence_order (option_map cbt_delivery_seq (lm_latest_terminal m)) seq
          = Ok tt) as Hord.
  { destruct (lm_latest_terminal m) as [x|]; [|done]. simpl.
    pose proof (Hseq x eq_refl). by guards. }
  destruct Hok as (_ & Hbok & _). destruct (sl_binding s) as [|a|]; [| |done]; simplify_eq.
  - rewrite Hcell. guards. by rewrite Hord, Ht.
  - destruct Hbok as ([Hb1 Hb2] & Hb3). fold m in Hb1, Hb2, Hb3. unfold validate_active.
    rewrite Hb1, Hb2, Hb3. guards. rewrite Hcell. guards. by rewrite Hord, Ht.
Qed.

Lemma pending_leave_commits s p r (v : V) (fp : LeaveFingerprint LF) (fr fr' : Fr) order seq
    (tseq : DeliverySeq) :
  let m := sl_member s in
  slot_ok s -> sl_binding s = BS_PendingFinalization p ->
  lr_conversation_id r = lm_conversation_id m -> lr_participant_id r = lm_participant_id m ->
  lr_capability_generation r = lm_generation m ->
  tseq < seq -> ao_transaction_order (pf_admission_order p) < order ->
  finish_leave_claims fr (lm_participant_id m) None (Some (pf_commit p tseq)) seq order = Ok fr' ->
  exists t, live_apply s (Op_PendingLeave r ASP_Verified v fp
      (prepared_pending fr (lm_conversation_id m) (lm_participant_id m) (pf_binding_epoch p)
         (pf_admission_order p) order)
      (mkPendingLeaveCommitParameters tseq seq) : SlotOp) = Some (SS_Retired t)
  /\ ri_committed_result t = mkLeaveCommitted (lm_conversation_id m) (lr_leave_attempt_token r)
       (lm_participant_id m) (lm_generation m) None (Some tseq) seq.
Proof.
  intros m Hok Eb H1 H2 H3 Hlt Hord Hfr.
  destruct (finish_leave_intro m (lr_leave_attempt_token r) v fp None (Some tseq)
    (Some (pf_commit p tseq)) order seq fr fr') as (t & Ht & Hres); [done| |exact Hfr|].
  { by intros q [= <-]. }
  exists t. split; [|done]. simpl. rewrite Eb. fold m. rewrite verify_leave_intro by done. simpl.
  unfold commit_pending_leave, validate_verified, consume_pending, no_intervening_matches. simpl.
  pose proof (leave_pending_cell s p Hok Eb) as Hcell. fold m in Hcell.
  destruct Hok as (_ & Hb & _). rewrite Eb in Hb. destruct Hb as ([Hb1 Hb2] & Hb3 & _).
  fold m in Hb1, Hb2, Hb3. unfold validate_pending, validate_active. rewrite Hb1, Hb2, Hb3. guards.
  rewrite Hcell. guards.
  rewrite (proj2 (validate_terminal_Some (lm_participant_id m) (lm_conversation_id m)
    (lm_generation m) (pf_commit p tseq) tt)).
  - assert (cbt_delivery_seq (pf_commit p tseq) = tseq) as -> by (by destruct p).
    simpl. by rewrite Ht.
  - destruct p; simpl in *; split_and!; try done; unfold cbt_binding_epoch, pf_binding_epoch in *;
      simpl in *; lia.
Qed.

(** A Leave the lookup authorizes is never refused for a reason of the slot: with the
    authority prepared for it, positions after the last terminal, and frontiers that
    can release the participant's claims, the transaction retires the identity, also
    out of a binding that is still ending, and records exactly that result. *)
Theorem authorized_leave_commits ops s e r v fp fr fr' order seq :
  slot_run SS_Absent ops = Some (SS_Live s) ->
  match lookup_leave (presented (SS_Live s)) (sl_binding s) e r LSP_Verified with
  | LLR_AuthorizedBound _ _ | LLR_AuthorizedDetached _ => True
  | _ => False
  end ->
  let m := sl_member s in
  let leaves op ended prior :=
    exists t, live_apply s (op : SlotOp) = Some (SS_Retired t)
    /\ ri_committed_result t = mkLeaveCommitted (lm_conversation_id m)
         (lr_leave_attempt_token r) (lm_participant_id m) (lm_generation m) ended prior seq in
  let settled ended :=
    (forall t, lm_latest_terminal m = Some t -> cbt_delivery_seq t < seq) ->
    finish_leave_claims fr (lm_participant_id m) ended None seq order = Ok fr' ->
    leaves (Op_Leave r ASP_Verified v fp
              (prepared_settled fr (lm_conversation_id m) (lm_participant_id m) ended order)
              (mkLeaveCommitParameters seq))
           ended (option_map cbt_delivery_seq (lm_latest_terminal m)) in
  match sl_binding s with
  | BS_Detached => settled None
  | BS_Bound a => settled (Some (bnd_binding_epoch a))
  | BS_PendingFinalization p => forall terminal_seq,
      terminal_seq < seq -> ao_transaction_order (pf_admission_order p) < order ->
      finish_leave_claims fr (lm_participant_id m) None (Some (pf_commit p terminal_seq)) seq order
        = Ok fr' ->
      leaves (Op_PendingLeave r ASP_Verified v fp
                (prepared_pending fr (lm_conversation_id m) (lm_participant_id m)
                   (pf_binding_epoch p) (pf_admission_order p) order)
                (mkPendingLeaveCommitParameters terminal_seq seq))
             None (Some terminal_seq)
  end.
Proof.
  intros Hok%slot_run_ok; [|done]. simpl in Hok. intros Hl m leaves settled.
  pose proof (leave_authorized (SS_Live s) (sl_binding s) e r LSP_Verified) as Ha.
  assert (lr_conversation_id r = lm_conversation_id m /\ lr_participant_id r = lm_participant_id m
    /\ lr_capability_generation r = lm_generation m) as (H1 & H2 & H3).
  { destruct (lookup_leave _ _ _ _ _); try done;
      destruct Ha as (s' & [= <-] & -> & ? & ? & ? & _); done. }
  clear Ha Hl. destruct (sl_binding s) as [|a|p] eqn:Eb.
  - intros Hseq Hfr. apply (settled_leave_commits s r v fp fr fr'); try done. by rewrite Eb.
  - intros Hseq Hfr. apply (settled_leave_commits s r v fp fr fr'); try done. by rewrite Eb.
  - intros tseq Hlt Hord Hfr. by apply (pending_leave_commits s p r v fp fr fr').
Qed.

(** ** Blocked detaches *)

Definition with_terminal (m : LiveMember EF) (t : CommittedBindingTerminal) : LiveMember EF :=
  mkLiveMember (lm_participant_id m) (lm_conversation_id m) (lm_generation m) (lm_attach_secret m)
    (lm_cursor m) (lm_enrollment_fingerprint m) (Some t).

(** A pending cell of a consistent slot is paired and can be settled. *)
Lemma pending_cell_pair s c : slot_ok s -> sl_cell s = DC_Pending c ->
  exists p, sl_binding s = BS_PendingFinalization (PF_Detached p)
  /\ pdf_cause p = DTC_CleanDeregister
  /\ (forall conv, conv = None \/ conv = Some (lm_conversation_id (sl_member s)) ->
      validate_pending_pair (sl_binding s) c conv = Ok (PF_Detached p))
  /\ validate_member_finalization (sl_member s) (PF_Detached p) = Ok tt
  /\ forall seq, with_committed_terminal (sl_member s) (CBT_Detached (pdf_commit p seq))
                = Ok (with_terminal (sl_member s) (CBT_Detached (pdf_commit p seq))).
Proof.
  intros (_ & Hb & _ & Hc) Ec. rewrite Ec in Hc. destruct Hc as (_ & _ & Hp).
  destruct (validate_pending_pair _ _ _) as [p|] eqn:E; [|done].
  apply validate_pending_pair_Ok in E as (Eb & E1 & E2 & E3 & E4 & E5). rewrite Eb in *.
  destruct p as [p|p]; [|done]. simpl in E4. simplify_eq. destruct Hb as ([H1 H2] & H3 & _).
  exists p. split_and!; try done.
  - intros conv Hconv. apply validate_pending_pair_intro; try done; [simpl; congruence|].
    intros cv ->. destruct Hconv; by simplify_eq.
  - unfold validate_member_finalization. rewrite H1, H2, H3. by guards.
  - intros seq. unfold with_committed_terminal.
    rewrite (proj2 (validate_terminal_Some _ _ _ (CBT_Detached (pdf_commit p seq)) tt)); [done|].
    split_and!; try done. unfold cbt_binding_epoch, pf_binding_epoch in *. simpl in *. lia.
Qed.

Lemma complete_pending_intro s c seq : slot_ok s -> sl_cell s = DC_Pending c ->
  exists p, sl_binding s = BS_PendingFinalization (PF_Detached p)
  /\ complete_pending_detach (sl_member s) (sl_binding s) c seq
    = Ok (mkCommittedDetachTransition
            (with_terminal (sl_member s) (CBT_Detached (pdf_commit p seq))) (pdf_commit p seq)
            BS_Detached (pending_commit c seq)
            (committed_outcome (pending_commit c seq) (lm_conversation_id (sl_member s)))).
Proof.
  intros Hs Ec. pose proof Hs as (_ & Hb & _).
  destruct (pending_cell_pair s c Hs Ec) as (p & Eb & _ & Hp & Hm & Ht). exists p. split; [done|].
  unfold complete_pending_detach. rewrite Hp by (by left). simpl. rewrite Hm. simpl. rewrite Ht.
  simpl. rewrite Eb in Hb. by destruct Hb as ([_ <-] & _).
Qed.

(** A detach that had to wait ends exactly where an immediate one would: blocking a
    detach and draining it later, or settling it on a replay after the observer
    moved on, leaves the same member, binding and cell as committing it at that
    order and sequence in the first place. *)
Theorem blocked_detach_equiv ops s r (v : D) pos progress s1 seq :
  slot_run (SS_Absent : SlotState) ops = Some (SS_Live s) ->
  live_apply s (Op_BlockedDetach r v pos progress : SlotOp) = Some (SS_Live s1) ->
  let at_once :=
    live_apply s (Op_Detach r v (mkCommittedPosition (pbp_transaction_order pos) seq) : SlotOp) in
  is_some at_once = true
  /\ live_apply s1 (Op_Drain seq : SlotOp) = at_once
  /\ forall later, progress < later ->
     live_apply s1 (Op_ReplayDetach r v later (PDD_Committed seq) : SlotOp) = at_once.
Proof.
  intros Hs%slot_run_ok H; [|done]. pose proof (live_apply_ok _ _ _ Hs H) as Hs1. simpl in Hs, Hs1.
  simpl in H. destruct (sl_binding s) as [|a|] eqn:Eb; try done.
  destruct (verify_detach_request a r v) as [w|] eqn:Ev; [|done]. simpl in H.
  pose proof Ev as (-> & E1 & E2 & E3)%verify_detach_request_Ok.
  unfold start_blocked_detach in H. rewrite (bound_previous_cell _ _ Hs Eb) in H. simpl in H.
  rewrite (bound_member_authority _ _ Hs Eb) in H. simpl in H. injection H as <-.
  simpl. rewrite Eb, Ev. simpl. unfold commit_detach. rewrite (bound_previous_cell _ _ Hs Eb). simpl.
  rewrite (bound_member_authority _ _ Hs Eb). simpl.
  rewrite (bound_terminal s a) by (try done; by destruct a). simpl. split; [done|].
  edestruct (complete_pending_intro _ _ seq Hs1 eq_refl) as (p & Ep & Hc). simpl in Ep, Hc.
  simplify_eq. split.
  - unfold commit_drained_detached_slot. simpl. by rewrite Hc.
  - intros later Hl. unfold pending_verify_exact, verify_stored_request, token_eqb. simpl. guards.
    edestruct (pending_cell_pair _ _ Hs1 eq_refl) as (p & Ep & _ & Hp & Hm & _). simpl in Ep, Hp, Hm.
    simplify_eq. unfold replay_apply. simpl.
    rewrite Hp by (right; f_equal; destruct Hs as (_ & Hb & _); rewrite Eb in Hb;
      destruct Hb as [[_ <-] _]; done). simpl. rewrite Hm. simpl.
    destruct (Z.ltb_spec later progress); [lia|]. destruct (Z.eqb_spec later progress); [lia|].
    by rewrite Hc.
Qed.

(** An exact repeat of a blocked detach is always resolved: in every reachable slot the
    lookup finds the pending cell, and the replay is refused only for a regressed
    observer position or a drain decision that does not fit it; at the position it
    was refused at it repeats the backpressure, later it stays pending at the new
    position or commits, never failing for a reason of the slot. *)
Theorem pending_detach_resolves ops s c r e progress decision :
  slot_run (SS_Absent : SlotState) ops = Some (SS_Live s) -> sl_cell s = DC_Pending c ->
  dr_conversation_id r = lm_conversation_id (sl_member s) ->
  dr_participant_id r = pdt_participant_id c ->
  dr_capability_generation r = pdt_request_generation c ->
  dr_detach_attempt_token r = pdt_token c ->
  exists rq p,
  lookup_detach (detach_context (SS_Live s) (DTR_Exact (RI_Live (sl_member s))) e r
                   (pdt_request_verifier c) progress) = DLR_PendingReplayRequired rq
  /\ sl_binding s = BS_PendingFinalization (PF_Detached p)
  /\ replay_apply rq (sl_member s) decision =
     match progress ?= pdt_refused_epoch c, decision with
     | Lt, _ => Err PRX_ObserverProgressRegression
     | Eq, PDD_NotAttempted =>
         Ok (PRP_Pending (sl_member s) (sl_binding s) c
               (backpressure c (dr_conversation_id r) progress))
     | Eq, _ => Err PRX_UnexpectedDrain
     | Gt, PDD_NotAttempted => Err PRX_DrainRequired
     | Gt, PDD_StillBlocked =>
         let c' := mkPendingDetach (pdt_token c) (pdt_participant_id c) (pdt_request_generation c)
                     (pdt_request_verifier c) (pdt_committed_binding_epoch c)
                     (pdt_admission_order c) progress in
         Ok (PRP_Pending (sl_member s) (sl_binding s) c'
               (backpressure c' (dr_conversation_id r) progress))
     | Gt, PDD_Committed seq =>
         Ok (PRP_Committed (with_terminal (sl_member s) (CBT_Detached (pdf_commit p seq)))
               (pdf_commit p seq) BS_Detached (pending_commit c seq)
               (committed_outcome (pending_commit c seq) (dr_conversation_id r)))
     end.
Proof.
  intros Hs%slot_run_ok Ec H1 H2 H3 H4; [|done]. simpl in Hs.
  destruct (pending_cell_pair s c Hs Ec) as (p & Eb & _ & Hp & Hm & _).
  exists (prepare_replay c (dr_conversation_id r) (sl_binding s) progress), p. split_and!; [|done|].
  - unfold lookup_detach, lookup_exact_detach_cell, pending_verify_exact, verify_stored_request,
      token_eqb. simpl. rewrite Ec, H1, H2, H3, H4. by guards.
  - unfold replay_apply. simpl. rewrite Hp by (right; by rewrite H1). simpl. rewrite Hm. simpl.
    destruct (Z.compare_spec progress (pdt_refused_epoch c)) as [->|Hl|Hg].
    + rewrite Z.ltb_irrefl. guards. by destruct decision.
    + by guards.
    + destruct (Z.ltb_spec progress (pdt_refused_epoch c)); [lia|].
      destruct (Z.eqb_spec progress (pdt_refused_epoch c)); [lia|].
      destruct decision as [| |seq]; try done.
      destruct (complete_pending_intro s c seq Hs Ec) as (p' & Ep & ->).
      rewrite Eb in Ep. simplify_eq. by rewrite H1.
Qed.

(** ** Replays *)

(** Operations that start or complete a detach. *)
Definition starts_detach op : bool :=
  match op with Op_Detach _ _ _ | Op_BlockedDetach _ _ _ _ => true | _ => false end.

(** The cell an attach makes of a settled cell. *)
Definition after_attach (c : DetachCell D) : DetachCell D :=
  match c with
  | DC_Committed c => DC_Terminalized (committed_terminalize_after_attach c)
  | c => c
  end.

Lemma slot_of_attach_cell s w s' : slot_of_attach w (sl_cell s) = Some s' ->
  match sl_cell s with DC_Pending _ => False | _ => True end ->
  sl_cell s' = after_attach (sl_cell s).
Proof.
  intros H Hp. unfold slot_of_attach in H.
  destruct (commit_attach _ _) as [x|] eqn:E; [|done]. injection H as <-.
  apply commit_attach_Ok in E as (E & _). unfold transition_detach_cell in E. simpl.
  destruct (sl_cell s) as [|c|c|c]; [|done|..]; simpl; ok_inv E; congruence.
Qed.

(** A settled cell through the operations that do not start a detach: unchanged, and
    terminalized by an attach; a re-issue finds no committed cell. *)
Lemma settled_cell_step s op s' : live_apply s op = Some (SS_Live s') ->
  starts_detach op = false ->
  match sl_cell s with DC_Pending _ => False | _ => True end ->
  sl_cell s' = if 0 <? rotations [action op] then after_attach (sl_cell s) else sl_cell s.
Proof.
  intros H Hop Hp. destruct op; simpl in *; try done.
  - destruct (apply_cursor_update _ _) as [m [[]|]]; [|done]. by simplify_eq/=.
  - destruct (sl_cell s); done.
  - destruct (sl_binding s) as [| |[]]; try done. simpl in H.
    unfold commit_drained_detached_slot in H.
    destruct (sl_cell s) as [|c|c|c] eqn:Ec; [|done|..];
      (destruct (with_committed_terminal _ _); [|done]); by simplify_eq/=.
  - unfold apply_crash in H. destruct (sl_binding s); try done.
    destruct (crash_transition _ _ _); [destruct (with_committed_terminal _ _)|]; by simplify_eq/=.
  - unfold apply_fate in H. destruct (sl_binding s); by simplify_eq/=.
  - bind_inv H. simplify_eq. by eapply slot_of_attach_cell.
  - destruct (sl_binding s); try done. bind_inv H. simplify_eq. by eapply slot_of_attach_cell.
  - bind_inv H. simplify_eq. by eapply slot_of_attach_cell.
  - bind_inv H. by destruct (lvc_identity _).
  - destruct (sl_binding s); try done. bind_inv H. by destruct (lvc_identity _).
  - destruct (apply_operator_credential_reissue _ _ _ _ _ _ _) as [[st n] x] eqn:E.
    destruct (reissue_installed x) eqn:Ex; [|done]. simplify_eq.
    destruct (reissue_installed_Ok _ _ _ _ _ _ _ _ _ _ E Ex) as (_ & Hc & _ & secret & _ & Hs).
    simplify_eq/=. by destruct (sl_cell s).
Qed.

Lemma rotations_cons a l : rotations (a :: l) = rotations [a] + rotations l.
Proof. destruct a; simpl; lia. Qed.

Lemma after_attach_idem c : after_attach (after_attach c) = after_attach c.
Proof. by destruct c. Qed.

Lemma settled_cell_run ops s s' : slot_run (SS_Live s) ops = Some (SS_Live s') ->
  forallb (fun op => negb (starts_detach op)) ops = true ->
  match sl_cell s with DC_Pending _ => False | _ => True end ->
  sl_cell s' = if 0 <? rotations (map action ops) then after_attach (sl_cell s) else sl_cell s.
Proof.
  revert s. induction ops as [|op ops IH]; intros s H Hops Hp; [simpl in *; by simplify_eq|].
  cbn [slot_run slot_apply] in H. simpl in Hops. breflect.
  destruct (live_apply s op) as [[|s1|t|]|] eqn:E; simpl in H; try done.
  - exfalso. apply live_apply_simulates in E as [E _]. inversion E.
  - pose proof (settled_cell_step s op s1 E) as Hc. specialize (Hc ltac:(done) Hp).
    assert (match sl_cell s1 with DC_Pending _ => False | _ => True end)
      by (rewrite Hc; revert Hp; destruct (0 <? rotations [_]); by destruct (sl_cell s)).
    rewrite (IH s1 H) by done. simpl map. rewrite rotations_cons, Hc.
    pose proof (rotations_nonneg [action op]). pose proof (rotations_nonneg (map action ops)).
    destruct (Z.ltb_spec 0 (rotations [action op])), (Z.ltb_spec 0 (rotations (map action ops))),
      (Z.ltb_spec 0 (rotations [action op] + rotations (map action ops)));
      try lia; try done. apply after_attach_idem.
  - by destruct ops.
  - by destruct ops.
Qed.

(** A committed detach is answered the same way for as long as it is the latest: at any
    later state of the slot, whatever happened except another detach, an exact repeat
    gets the stored commit back; once the participant has attached again (a re-issue
    waits for that) it gets the terminalized cell with the generation that replaced it, and is never committed a
    second time. *)
Theorem detach_replay ops s r v pos s1 later s2 e progress :
  slot_run SS_Absent ops = Some (SS_Live s) ->
  live_apply s (Op_Detach r v pos : SlotOp) = Some (SS_Live s1) ->
  slot_run (SS_Live s1) (later : list SlotOp) = Some (SS_Live s2) ->
  forallb (fun op => negb (starts_detach op)) later = true ->
  exists a, sl_binding s = BS_Bound a
  /\ lookup_detach (detach_context (SS_Live s2) (DTR_Exact (RI_Live (sl_member s2))) e r v progress)
     = if lm_generation (sl_member s2) =? lm_generation (sl_member s)
       then DLR_DetachCommitted (mkDetachCommitted (dr_conversation_id r) (dr_participant_id r)
              (dr_detach_attempt_token r) (bnd_binding_epoch a) (cbp_delivery_seq pos))
       else DLR_StaleAuthority (DSA_TerminalizedDetachCell
              (mkTerminalizedDetachCell (dr_conversation_id r) (dr_participant_id r)
                 (dr_capability_generation r) (dr_detach_attempt_token r)
                 (lm_generation (sl_member s2)) (bnd_binding_epoch a)
                 (binding_view (sl_member s2) (sl_binding s2)))).
Proof.
  intros Hs%slot_run_ok H Hrun Hops; [|done]. simpl in Hs.
  pose proof (live_apply_simulates _ _ _ H) as [_ [[=]|[[=]|Hid1]]].
  pose proof (slot_run_simulates _ _ _ Hrun) as [_ [[=]|[[=]|Hid2]]].
  pose proof (slot_run_generation _ _ _ Hrun) as [[=]|Hgen]. simpl in Hgen, Hid1, Hid2, H.
  destruct (sl_binding s) as [|a|] eqn:Eb; try done. exists a. split; [done|].
  destruct (verify_detach_request a r v) as [w|] eqn:Ev; [|done].
  apply verify_detach_request_Ok in Ev as (-> & E1 & E2 & E3). simpl in H. bind_inv H.
  apply commit_detach_Ok in E as (_ & Em & _ & _ & Ec & _). injection H as <-. simpl in *.
  apply settled_cell_run in Hrun; [|done..]. simpl in Hrun. rewrite Ec in Hrun. simpl in Hrun.
  apply with_committed_terminal_Ok in Em as (_ & _ & Em). rewrite Em in *. simpl in *.
  injection Hgen as Hgen. injection Hid2 as Hp Hcv _.
  destruct Hs as (_ & Hb & _). rewrite Eb in Hb. destruct Hb as ([Hb1 Hb2] & Hb3).
  unfold lookup_detach, lookup_exact_detach_cell, detach_context. simpl.
  rewrite Hcv, <- Hb2, E1, Hrun, Hgen. pose proof (rotations_nonneg (map action later)).
  destruct (Z.ltb_spec 0 (rotations (map action later))).
  - destruct (Z.eqb_spec (lm_generation (sl_member s) + rotations (map action later))
      (lm_generation (sl_member s))); [lia|]. simpl.
    unfold terminalized_verify_exact, verify_stored_request, token_eqb. simpl. by guards.
  - replace (rotations (map action later)) with 0 by lia. rewrite Z.add_0_r.
    unfold committed_verify_exact, verify_stored_request, token_eqb. simpl. by guards.
Qed.

Definition leave_request_of op : option LeaveRequest :=
  match op with
  | Op_Leave request _ _ _ _ _ | Op_PendingLeave request _ _ _ _ _ => Some request
  | _ => None
  end.

(** A committed Leave was verified against the member it retired. *)
Lemma leave_committed s op r t : live_apply s op = Some (SS_Retired t) ->
  leave_request_of op = Some r ->
  lr_conversation_id r = ri_conversation_id t /\ lr_participant_id r = ri_participant_id t
  /\ lr_capability_generation r = ri_retired_generation t
  /\ lr_leave_attempt_token r = ri_leave_attempt_token t
  /\ lc_retired_generation (ri_committed_result t) = ri_retired_generation t
  /\ ri_retired_generation t = lm_generation (sl_member s).
Proof.
  assert (forall w (c : LeaveCommit EF V LF Fr), left_by (sl_member s) w c -> lvc_identity c = IS_Retired t ->
    lr_conversation_id r = lm_conversation_id (sl_member s) ->
    lr_participant_id r = lm_participant_id (sl_member s) ->
    lr_capability_generation r = lm_generation (sl_member s) ->
    vlr_leave_attempt_token w = lr_leave_attempt_token r ->
    lr_conversation_id r = ri_conversation_id t /\ lr_participant_id r = ri_participant_id t
    /\ lr_capability_generation r = ri_retired_generation t
    /\ lr_leave_attempt_token r = ri_leave_attempt_token t
    /\ lc_retired_generation (ri_committed_result t) = ri_retired_generation t
    /\ ri_retired_generation t = lm_generation (sl_member s)) as Hleft.
  { intros w c (t' & E & Hok & Hp & Hc & Hg & Ht & _) E' H1 H2 H3 H4. rewrite E in E'. simplify_eq.
    destruct Hok as (_ & _ & Hr & _). rewrite Hp, Hc, Ht, Hr, Hg, H1, H2, H3, H4. done. }
  intros H Hr. destruct op; simpl in *; simplify_eq.
  - bind_inv H. apply verify_leave_request_Ok in E as (-> & ? & ? & ? & ->).
    destruct (lvc_identity a0) eqn:Ei; [done|]. simplify_eq.
    eapply Hleft; [by eapply commit_leave_left|done..].
  - destruct (sl_binding s); try done. bind_inv H.
    apply verify_leave_request_Ok in E as (-> & ? & ? & ? & ->).
    destruct (lvc_identity a0) eqn:Ei; [done|]. simplify_eq.
    eapply Hleft; [by eapply commit_pending_leave_left|done..].
Qed.

(** A Leave is final and replayable: afterwards no operation applies to the slot, a repeat
    of the request with the right secret gets the committed result back, the same token
    with a wrong secret or another generation is refused, every other token and every
    other kind of request is answered with the retirement. *)
Theorem leave_replay s op r t b e : live_apply s op = Some (SS_Retired t) ->
  leave_request_of op = Some r ->
  (forall op', slot_apply (SS_Retired t) op' = None)
  /\ (forall r' proof, lr_conversation_id r' = lr_conversation_id r ->
      lr_participant_id r' = lr_participant_id r ->
      lookup_leave (presented (SS_Retired t)) b e r' proof =
      if negb (token_eqb (lr_leave_attempt_token r') (lr_leave_attempt_token r))
      then LLR_Retired (Retired_Participant (PRE_Leave (leave_envelope r'))
                          (lm_generation (sl_member s)))
      else match proof with
        | LSP_Mismatch => LLR_StaleAuthority (LSA_CommittedLeaveTombstone (lr_conversation_id r)
              (lr_participant_id r) (lr_capability_generation r') (lr_leave_attempt_token r)
              (lm_generation (sl_member s)))
        | LSP_Verified =>
            if lr_capability_generation r' =? lr_capability_generation r
            then LLR_LeaveCommitted (ri_committed_result t)
            else LLR_AttemptTokenBodyConflict (ATB_Leave (lr_leave_attempt_token r)
                   (lr_conversation_id r) (lr_participant_id r) (lr_capability_generation r'))
        end)
  /\ (forall request, lookup_binding_required (presented (SS_Retired t)) b e request
      = BLR_Retired (Retired_Participant (participant_reference request)
                       (lm_generation (sl_member s))))
  /\ (forall request proof,
      lookup_credential_attach ATP_NoMatch (presented (SS_Retired t)) b request proof
      = ALR_Retired (Retired_Participant (PRE_CredentialAttach (attach_envelope request))
                       (lm_generation (sl_member s)))).
Proof.
  intros H Hr. destruct (leave_committed s op r t H Hr) as (H1 & H2 & H3 & H4 & H5 & H6).
  split_and!; [done| |intros; simpl; by rewrite H6|intros; unfold lookup_credential_attach,
    retired_attach; simpl; by rewrite H6].
  intros r' proof Ec Ep. simpl. unfold lookup_retired_leave, retired_leave, lc_presented_generation.
  rewrite Ec, Ep, H5, <- H1, <- H2, <- H4, <- H6, <- H3. guards.
  destruct (token_eqb _ _) eqn:Et; simpl; [|done]. unfold token_eqb in Et. dreflect.
  rewrite Et. destruct proof; simpl; [done|]. by destruct (_ =? _).
Qed.

(** The verified attach of an operation. *)
Definition verified_attach s op : option (VerifiedAttachCommit EF) :=
  match op with
  | Op_Attach admission request proof pars =>
      ok (verify_detached_attach (sl_member s) (sl_binding s) admission request proof pars)
  | Op_Supersede request proof pos pars =>
      match sl_binding s with
      | BS_Bound b => ok (verify_superseding_attach (sl_member s) b request proof pos pars)
      | _ => None
      end
  | Op_FencedAttach request proof fac seq pars =>
      ok (verify_fenced_attach (sl_member s) (sl_binding s) request proof fac seq pars)
  | _ => None
  end.

Lemma verified_attach_Some s op w : verified_attach s op = Some w ->
  attach_verified s w
  /\ car_conversation_id (vac_request w) = lm_conversation_id (sl_member s)
  /\ car_participant_id (vac_request w) = lm_participant_id (sl_member s)
  /\ car_accept_marker_delivery_seq (vac_request w) = mode_marker (vac_mode w)
  /\ live_apply s op = (s' ← slot_of_attach w (sl_cell s); Some (SS_Live s')).
Proof.
  assert (forall r proof pars x, verify_attach_common (sl_member s) r proof pars = Ok x ->
    car_conversation_id r = lm_conversation_id (sl_member s)
    /\ car_participant_id r = lm_participant_id (sl_member s)) as Hc.
  { by intros r proof pars x (? & ? & _)%verify_attach_common_Ok. }
  intros H. destruct op; simpl in H; try done.
  - destruct (verify_detached_attach _ _ _ _ _ _) as [w'|] eqn:E; [|done]. simpl in H. simplify_eq.
    split; [by eapply verify_detached_attach_Ok|]. simpl. rewrite E. simpl.
    unfold verify_detached_attach in E. ok_inv E. apply Hc in Heqr as [? ?].
    split_and!; try done. by destruct (car_accept_marker_delivery_seq _).
  - destruct (sl_binding s) as [|a|] eqn:Eb; try done.
    destruct (verify_superseding_attach _ _ _ _ _ _) as [w'|] eqn:E; [|done]. simpl in H.
    simplify_eq. split; [by eapply verify_superseding_attach_Ok|]. simpl. rewrite Eb, E. simpl.
    unfold verify_superseding_attach in E. ok_inv E. apply Hc in Heqr as [? ?].
    split_and!; try done. by destruct (car_accept_marker_delivery_seq _).
  - destruct (verify_fenced_attach _ _ _ _ _ _ _) as [w'|] eqn:E; [|done]. simpl in H. simplify_eq.
    split; [by eapply verify_fenced_attach_Ok|]. simpl. rewrite E. simpl.
    unfold verify_fenced_attach, validate_fenced_attach in E. ok_inv E; apply Hc in Heqr0 as [? ?];
      done.
Qed.

Definition is_progress (a : Action) : bool := match a with A_Progress => true | _ => false end.

(** A participant is bound without a new attach only by staying bound. *)
Lemma spec_left_run g l g' ph : ~ spec_run (Sp_Left g) l (Sp_Live g' ph).
Proof. intros H. inversion H as [|? ? ? ? ? Hs]. inversion Hs. Qed.

Lemma spec_gone_run l g' ph : ~ spec_run Sp_Released l (Sp_Live g' ph).
Proof. by intros [=]%spec_released_run. Qed.

Lemma spec_unbound_run l g ph g' : spec_run (Sp_Live g ph) l (Sp_Live g' Ph_Bound) ->
  ph <> Ph_Bound -> 0 < rotations l.
Proof.
  revert g ph. induction l as [|a l IH]; intros g ph H Hph; inversion H as [|? ? ? ? ? Hs Hr]; subst.
  - done.
  - pose proof (rotations_nonneg l). inversion Hs; subst; simpl; try lia; try by eapply IH.
    + by apply spec_gone_run in Hr.
    + by apply spec_left_run in Hr.
Qed.

Lemma spec_bound_run l g g' : spec_run (Sp_Live g Ph_Bound) l (Sp_Live g' Ph_Bound) ->
  rotations l = 0 -> forallb is_progress l = true.
Proof.
  revert g. induction l as [|a l IH]; intros g H Ha; [done|].
  inversion H as [|? ? ? ? ? Hs Hr]; subst. pose proof (rotations_nonneg l).
  inversion Hs; subst; simpl in *; try lia; try (apply spec_unbound_run in Hr; [lia|done]).
  - by eapply IH.
  - by apply spec_left_run in Hr.
Qed.

(** Cursor progress keeps the binding. *)
Lemma progress_run_binding ops s s' : slot_run (SS_Live s) ops = Some (SS_Live s') ->
  forallb is_progress (map action ops) = true -> sl_binding s' = sl_binding s.
Proof.
  revert s. induction ops as [|op ops IH]; intros s H Hp; [simpl in H; by simplify_eq|].
  cbn [slot_run slot_apply] in H. simpl in Hp. breflect. destruct op; try done. simpl in H.
  destruct (apply_cursor_update _ _) as [m [[]|]]; [|done]. simpl in H.
  apply IH in H; [|done]. by rewrite H.
Qed.

(** An attach is replayable: at any later state of the slot an exact repeat of the request
    gets the same receipt back, as a bound receipt exactly while nothing but cursor
    progress happened since, and as an unbound one after the binding it created ended
    or was replaced. *)
Theorem attach_replay ops s op w c later s2 (identity : PresentedIdentity EF V LF) :
  slot_run SS_Absent ops = Some (SS_Live s) -> verified_attach s op = Some w ->
  commit_attach w (sl_cell s) = Ok c ->
  slot_run (SS_Live (mkSlot (atc_member c) (atc_binding_state c) (atc_detach_cell c)))
    (later : list SlotOp) = Some (SS_Live s2) ->
  lookup_credential_attach
    (ATP_LiveReceipt (RI_Live (sl_member s2)) (mkCredentialAttachLiveReceipt (atc_outcome c)))
    identity (sl_binding s2) (vac_request w) ASP_Verified
  = (if forallb is_progress (map action later)
     then ALR_Bound (RR_CredentialAttach (atc_outcome c))
     else ALR_UnboundReceipt (RR_CredentialAttach (atc_outcome c)))
  /\ live_apply s op = Some (SS_Live (mkSlot (atc_member c) (atc_binding_state c)
                                       (atc_detach_cell c))).
Proof.
  intros Hs%slot_run_ok Hw Hc Hrun; [|done]. simpl in Hs.
  destruct (verified_attach_Some s op w Hw) as (Hv & H1 & H2 & H3 & Ha).
  assert (live_apply s op = Some (SS_Live (mkSlot (atc_member c) (atc_binding_state c)
    (atc_detach_cell c)))) as Hap by (rewrite Ha; unfold slot_of_attach; by rewrite Hc).
  split; [|done]. pose proof (live_apply_ok _ _ _ Hs Hap) as Hs1.
  pose proof (slot_run_ok _ _ _ Hs1 Hrun) as Hs2.
  apply commit_attach_Ok in Hc as (_ & Hb & Hr & Ho). simpl in *.
  destruct Hv as (Em & [Hv1 Hv2] & Hgen & _). rewrite Em, Hgen in Hr. apply rotate_Ok in Hr.
  unfold lookup_live_attach_receipt. rewrite Ho. simpl. rewrite H3, <- Ho. guards.
  pose proof (slot_run_generation _ _ _ Hrun) as [[=]|Hg]. simpl in Hg. injection Hg as Hg.
  pose proof (slot_run_simulates _ _ _ Hrun) as [Hspec _]. simpl in Hspec.
  destruct (forallb is_progress (map action later)) eqn:Hp.
  - rewrite (progress_run_binding _ _ _ Hrun Hp). simpl. rewrite Hb. simpl.
    rewrite H1, H2, Hv1, Hv2. by guards.
  - assert (receipt_binding_is_current (sl_binding s2) (car_conversation_id (vac_request w))
      (car_participant_id (vac_request w))
      (bnd_binding_epoch (acp_binding (vac_parameters w))) = false) as ->; [|done].
    destruct (sl_binding s2) as [|a|] eqn:Eb; [done| |done]. simpl.
    destruct (bool_decide (bnd_binding_epoch a = _)) eqn:Ee; [|by rewrite andb_false_r]. dreflect.
    exfalso. destruct Hs2 as (_ & Hb2 & _). rewrite Eb in Hb2. destruct Hb2 as [_ Hb2].
    rewrite Ee, Hgen, Hg, Hr in Hb2. simpl in Hb2. rewrite Hb in Hspec.
    apply spec_bound_run in Hspec; [congruence|lia].
Qed.

End Requests.

(** ** Witnesses *)

Import Slot.Sample.

Lemma stale_credential_fenced_witness :
  lookup_binding_required (V := Z) (LF := Z) (presented (SS_Live (slot 9))) (sl_binding (slot 9))
    (Some (epoch 2 4)) (PBR_ParticipantAck (mkParticipantAck 9 4 1 3))
  <> BLR_Authorized (sl_member (slot 9)) (binding 2 4)
  /\ lookup_leave (V := Z) (LF := Z) (presented (SS_Live (slot 9))) (sl_binding (slot 9))
       (Some (epoch 2 4)) (leave_request 1) LSP_Verified
     <> LLR_AuthorizedBound (sl_member (slot 9)) (binding 2 4).
Proof.
  destruct (stale_credential_fenced (slot 1) (drop 1 (take 9 life)) (SS_Live (slot 9)) 1)
    as (_ & Hack & _ & Hleave); [by vm_compute|by left; vm_compute; auto 10|by vm_compute|].
  split; [by apply Hack|by apply Hleave].
Defined.

Lemma authorized_detach_commits_witness :
  lookup_detach (V := Z) (LF := Z) (detach_context (SS_Live (slot 4)) DTR_NoExactMatch
    (Some (epoch 2 2)) (detach_request 2) 6 2) = DLR_Authorized (sl_member (slot 4)) (binding 2 2)
  /\ sl_binding (slot 4) = BS_Bound (binding 2 2).
Proof.
  assert (lookup_detach (V := Z) (LF := Z) (detach_context (SS_Live (slot 4)) DTR_NoExactMatch
    (Some (epoch 2 2)) (detach_request 2) 6 2) = DLR_Authorized (sl_member (slot 4)) (binding 2 2))
    as H by (by vm_compute).
  split; [exact H|].
  by apply (authorized_detach_commits (take 4 life) (slot 4) _ _ _ _ _ _ _ eq_refl H).
Defined.

(** The same authorized request commits without a marker and is refused with one. *)
Lemma authorized_attach_commits_witness :
  (exists s', live_apply (slot 3) (Op_Attach (V := Z) (LF := Z) (P := unit) (Fr := Z)
               AttachAdmission (attach_request 1) ASP_Verified (attach_parameters 2 4))
             = Some (SS_Live s')
   /\ attached (slot 3) (attach_parameters 2 4) s')
  /\ live_apply (slot 3) (Op_Attach (V := Z) (LF := Z) (P := unit) (Fr := Z) AttachAdmission
        (mkCredentialAttachRequest 9 4 1 (secret Byte.x0a) (token Byte.x03) (Some 2))
        ASP_Verified (attach_parameters 2 4)) = None.
Proof.
  split.
  - apply (authorized_attach_commits (take 3 life) (slot 3) ATP_NoMatch BS_Detached
      (attach_request 1) ASP_Verified (sl_member (slot 3)) (attach_parameters 2 4));
      [by vm_compute..|].
    split; [by vm_compute|split; [by vm_compute|by vm_compute]].
  - apply (authorized_attach_commits (Fr := Z) (P := unit) (take 3 life) (slot 3) ATP_NoMatch
      BS_Detached (mkCredentialAttachRequest 9 4 1 (secret Byte.x0a) (token Byte.x03) (Some 2))
      ASP_Verified (sl_member (slot 3)) (attach_parameters 2 4)); [by vm_compute..|].
    split; [by vm_compute|split; [by vm_compute|by vm_compute]].
Defined.

Lemma authorized_leave_commits_witness :
  exists t, live_apply (slot 6) (Op_PendingLeave (P := unit) (leave_request 2) ASP_Verified 8
    (mkLeaveFingerprint 88) (prepared_pending 0 9 4 (epoch 2 2) (binding_terminal 5 4) 7)
    (mkPendingLeaveCommitParameters 6 7)) = Some (SS_Retired t)
  /\ ri_committed_result t = mkLeaveCommitted 9 (token Byte.x04) 4 2 None (Some 6) 7.
Proof.
  assert (slot_run SS_Absent (take 6 life) = Some (SS_Live (slot 6))) as Hrun by (by vm_compute).
  pose proof (authorized_leave_commits (take 6 life) (slot 6) None (leave_request 2) 8
    (mkLeaveFingerprint 88) 0 1 7 7 Hrun I) as H.
  assert (sl_binding (slot 6) = BS_PendingFinalization (PF_Detached
    (pending_clean_deregister (binding 2 2) (mkPendingPosition 5)))) as E by (by vm_compute).
  cbv zeta in H. rewrite E in H. by apply (H 6); vm_compute.
Defined.

Lemma blocked_detach_equiv_witness :
  live_apply (slot 5) (Op_Drain (V := Z) (LF := Z) (P := unit) (Fr := Z) 6) = Some (SS_Live (mkSlot (EF := Z) (D := Z)
    (with_terminal (sl_member (slot 4)) (CBT_Detached (commit_clean_deregister (binding 2 2)
       (mkCommittedPosition 5 6)))) BS_Detached
    (DC_Committed (mkCommittedDetach (token Byte.x02) 4 2 6 (epoch 2 2) 6)))).
Proof.
  destruct (blocked_detach_equiv (take 4 life) (slot 4) (detach_request 2) 6 (mkPendingPosition 5) 2
    (slot 5) 6) as (_ & H & _); [by vm_compute..|]. rewrite H. by vm_compute.
Defined.

Lemma pending_detach_resolves_witness :
  match sl_cell (slot 5) with
  | DC_Pending c =>
      lookup_detach (V := Z) (LF := Z) (detach_context (SS_Live (slot 5))
        (DTR_Exact (RI_Live (sl_member (slot 5)))) None (detach_request 2) 6 2)
      = DLR_PendingReplayRequired (prepare_replay c 9 (sl_binding (slot 5)) 2)
      /\ is_ok (replay_apply (prepare_replay c 9 (sl_binding (slot 5)) 2) (sl_member (slot 5))
                 PDD_NotAttempted) = true
  | _ => False
  end.
Proof.
  destruct (pending_detach_resolves (take 5 life) (slot 5)
    (mkPendingDetach (token Byte.x02) 4 2 6 (epoch 2 2) (binding_terminal 5 4) 2)
    (detach_request 2) None 2 PDD_NotAttempted) as (rq & p & H1 & _ & H2); [by vm_compute..|].
  assert (prepare_replay (mkPendingDetach (token Byte.x02) 4 2 6 (epoch 2 2)
    (binding_terminal 5 4) 2) 9 (sl_binding (slot 5)) 2 = rq) as <-
    by (vm_compute in H1; vm_compute; congruence).
  split; [exact H1|]. cbv beta iota. etransitivity; [exact (f_equal is_ok H2)|by vm_compute].
Defined.

Lemma detach_replay_witness :
  lookup_detach (V := Z) (LF := Z) (detach_context (SS_Live (slot 4))
    (DTR_Exact (RI_Live (sl_member (slot 4)))) None (detach_request 1) 5 3)
  = DLR_StaleAuthority (DSA_TerminalizedDetachCell (mkTerminalizedDetachCell 9 4 1
      (token Byte.x02) 2 (epoch 1 1) (BSV_Bound (epoch 2 2)))).
Proof.
  destruct (detach_replay (take 2 life) (slot 2) (detach_request 1) 5 (mkCommittedPosition 3 3)
    (slot 3) [Op_Attach AttachAdmission (attach_request 1) ASP_Verified (attach_parameters 2 4)]
    (slot 4) None 3) as (a & Ha & H); [by vm_compute..|].
  assert (a = binding 1 1) as -> by (vm_compute in Ha; by simplify_eq).
  rewrite H. by vm_compute.
Defined.

Lemma leave_replay_witness :
  match live_apply (slot 10) (nth 10 life enroll) with
  | Some (SS_Retired t) =>
      lookup_leave (presented (D := Z) (SS_Retired t)) BS_Detached None (leave_request 4)
        LSP_Verified
      = LLR_LeaveCommitted (mkLeaveCommitted 9 (token Byte.x04) 4 4 None (Some 9) 10)
  | _ => False
  end.
Proof.
  destruct (live_apply (slot 10) (nth 10 life enroll)) as [[| |t|]|] eqn:E;
    [by vm_compute in E|by vm_compute in E| |by vm_compute in E..].
  destruct (leave_replay (slot 10) (nth 10 life enroll) (leave_request 4) t BS_Detached None E eq_refl)
    as (_ & H & _).
  rewrite (H (leave_request 4) LSP_Verified eq_refl eq_refl).
  vm_compute in E. simplify_eq. by vm_compute.
Defined.

Lemma attach_replay_witness :
  match verified_attach (slot 3) (nth 3 life enroll) with
  | Some w =>
      match commit_attach w (sl_cell (slot 3)) with
      | Ok c =>
          lookup_credential_attach (V := Z) (LF := Z) (ATP_LiveReceipt (RI_Live (sl_member (slot 6)))
            (mkCredentialAttachLiveReceipt (atc_outcome c))) PI_Absent (sl_binding (slot 6))
            (vac_request w) ASP_Verified = ALR_UnboundReceipt (RR_CredentialAttach (atc_outcome c))
      | Err _ => False
      end
  | None => False
  end.
Proof.
  destruct (verified_attach (slot 3) (nth 3 life enroll)) as [w|] eqn:Ew; [|by vm_compute in Ew].
  destruct (commit_attach w (sl_cell (slot 3))) as [c|] eqn:Ec;
    [|vm_compute in Ew; simplify_eq; by vm_compute in Ec].
  destruct (attach_replay (take 3 life) (slot 3) (nth 3 life enroll) w c (drop 4 (take 6 life))
    (slot 6) PI_Absent eq_refl Ew Ec) as [H _]; [|exact H].
  vm_compute in Ew. simplify_eq. vm_compute in Ec. simplify_eq. by vm_compute.
Defined.
