(* ===== verification/Closure.v ===== *)
(** * Closure accounting and the admission gates

    Model of [liminal-protocol/src/lifecycle/closure_accounting.rs] (validated
    closure accounting, required-capacity plans, the stage-7 recovery fence and
    the stage-12 remaining closure gate), [admission/observer.rs] (stage 11) and
    [admission/record.rs] (stage 8).  The theorems say exactly which requests
    each gate lets through and that every closure refusal is a value of the wire
    protocol that a client decodes unchanged. *)
From S2P Require Import Prelude Edge Algebra Tags Wire Response Bytes ServerCodec ServerRoundTrip.
From S2P Require Import FrameCodec.

(** ** Accounting *)

Inductive ClosureAccountingError :=
| ZeroChurnLimit
| ChurnUsedExceedsLimit (used limit : Z)
| MarkerAnchorsExceedCredits (anchors credits : Z)
| BaselineExceedsCapacity (dimension : ResourceDimension)
| ClearStateOwnsEdgeResources
| DebtOutsideWireDomain (dimension : ResourceDimension).

Record ClosureAccounting := mkClosureAccounting {
  ca_state : ClosureState;
  ca_marker_capacity_credits : Z;
  ca_marker_anchors : Z;
  ca_edge_sequence_claims : Z;
  ca_edge_order_position_claims : Z;
  ca_edge_k_remaining : ResourceVector;
  ca_baseline : WideResourceVector;
  ca_configured_cap : ResourceVector;
  ca_episode_churn_used : Z;
  ca_episode_churn_limit : Z;
}.

(** [u64::try_from] on a [u128]. *)
Definition u64_try_from (value : Z) : option Z :=
  if value <=? u64_max then Some value else None.

Definition ResourceVector_default : ResourceVector := mkRV 0 0.

(** The [match state] of [try_new]. *)
Definition check_closure_state (state : ClosureState)
    (edge_sequence_claims edge_order_position_claims : Z) (edge_k_remaining : ResourceVector)
    : result unit ClosureAccountingError :=
  match state with
  | Closure_Clear =>
      if negb (edge_sequence_claims =? 0) || negb (edge_order_position_claims =? 0)
         || negb (bool_decide (edge_k_remaining = ResourceVector_default))
      then Err ClearStateOwnsEdgeResources
      else Ok tt
  | Closure_Owed debt _ =>
      if is_none (u64_try_from (wrv_entries (debt_value debt)))
      then Err (DebtOutsideWireDomain Entries)
      else if is_none (u64_try_from (wrv_bytes (debt_value debt)))
      then Err (DebtOutsideWireDomain Bytes)
      else Ok tt
  end.

Definition ClosureAccounting_try_new (state : ClosureState)
    (marker_capacity_credits marker_anchors edge_sequence_claims edge_order_position_claims : Z)
    (edge_k_remaining : ResourceVector) (baseline : WideResourceVector)
    (configured_cap : ResourceVector) (episode_churn_used episode_churn_limit : Z)
    : result ClosureAccounting ClosureAccountingError :=
  if episode_churn_limit =? 0 then Err ZeroChurnLimit
  else if episode_churn_limit <? episode_churn_used
  then Err (ChurnUsedExceedsLimit episode_churn_used episode_churn_limit)
  else if marker_capacity_credits <? marker_anchors
  then Err (MarkerAnchorsExceedCredits marker_anchors marker_capacity_credits)
  else if widen_u64 (rv_entries configured_cap) <? wrv_entries baseline
  then Err (BaselineExceedsCapacity Entries)
  else if widen_u64 (rv_bytes configured_cap) <? wrv_bytes baseline
  then Err (BaselineExceedsCapacity Bytes)
  else
    let? _ := check_closure_state state edge_sequence_claims edge_order_position_claims
                edge_k_remaining in
    Ok (mkClosureAccounting state marker_capacity_credits marker_anchors edge_sequence_claims
          edge_order_position_claims edge_k_remaining baseline configured_cap
          episode_churn_used episode_churn_limit).

Definition stored_edge_wire (edge : StoredEdge) : RepaymentEdge :=
  match edge with
  | SE_ObserverProjection e => Edge_ObserverProjection (op_through_seq e)
  | SE_PhysicalCompaction e => Edge_PhysicalCompaction (pc_from_floor e) (pc_through_seq e)
  | SE_MarkerDelivery e =>
      Edge_MarkerDelivery (md_participant_id e) (md_binding_epoch e) (md_marker_delivery_seq e)
  | SE_ParticipantCursorProgress e =>
      Edge_ParticipantCursorProgress (mkParticipantCursorProgressEdge (cp_participant_id e)
        (cp_binding_epoch e) (cp_through_seq e) (cp_marker_delivery_seq e))
  | SE_DetachedCredentialRecovery e =>
      Edge_DetachedCredentialRecovery (dcr_participant_id e) (dcr_marker_delivery_seq e)
        (dcr_prior_binding_epoch e)
  | SE_DetachedMarkerRelease e =>
      Edge_DetachedMarkerRelease (dmr_participant_id e) (dmr_marker_delivery_seq e)
        (dmr_last_dead_binding_epoch e)
  | SE_DetachedCursorRelease e =>
      Edge_DetachedCursorRelease (dur_participant_id e) (dur_last_dead_binding_epoch e)
  end.

(** Debt beyond [u64] would be disclosed as [u64::MAX]. *)
Definition closure_state_wire (state : ClosureState) : ResourceVector * RepaymentEdge :=
  match state with
  | Closure_Clear => (ResourceVector_default, Edge_None)
  | Closure_Owed debt edge =>
      (mkRV (default u64_max (u64_try_from (wrv_entries (debt_value debt))))
            (default u64_max (u64_try_from (wrv_bytes (debt_value debt)))),
       stored_edge_wire edge)
  end.

Definition snapshot (a : ClosureAccounting) (delta_cycles : Z) : ClosureSnapshot :=
  let '(debt, repayment_edge) := closure_state_wire (ca_state a) in
  mkClosureSnapshot (ca_marker_capacity_credits a) (ca_marker_anchors a) (rv_entries debt)
    (rv_bytes debt) repayment_edge (ca_edge_sequence_claims a)
    (ca_edge_order_position_claims a) (ca_edge_k_remaining a)
    (mkWRV
       (sub_u128 (widen_u64 (rv_entries (ca_configured_cap a))) (wrv_entries (ca_baseline a)))
       (sub_u128 (widen_u64 (rv_bytes (ca_configured_cap a))) (wrv_bytes (ca_baseline a))))
    (ca_episode_churn_used a) delta_cycles (ca_episode_churn_limit a).

Definition closure_refusal (request : ClosureCheckedEnvelope) (a : ClosureAccounting)
    (delta_cycles : Z) (reason : ClosureRefusalReason) : MarkerClosureCapacityExceeded :=
  mkMarkerClosureCapacityExceeded request (snapshot a delta_cycles) reason.

(** ** Required-capacity plans *)

Inductive RequiredCapacityPlanError :=
| EmptySuccessorSet
| ArithmeticOverflow (dimension : ResourceDimension).

Record RequiredCapacityPlan := mkRequiredCapacityPlan { rcp_maximum : WideResourceVector }.

(** The accumulating closure of the [fold]. *)
Definition wide_max (maximum state : WideResourceVector) : WideResourceVector :=
  mkWRV (Z.max (wrv_entries maximum) (wrv_entries state))
        (Z.max (wrv_bytes maximum) (wrv_bytes state)).

Definition from_successors (successors : list WideResourceVector)
    : result RequiredCapacityPlan RequiredCapacityPlanError :=
  match successors with
  | [] => Err EmptySuccessorSet
  | first :: rest => Ok (mkRequiredCapacityPlan (fold_left wide_max rest first))
  end.

Definition RequiredCapacityPlan_ordinary (resulting_baseline : WideResourceVector)
    (mandatory_bound full_recovery_claim : ResourceVector)
    : result RequiredCapacityPlan RequiredCapacityPlanError :=
  let? entries_with_q :=
    ok_or (checked_add u128_max (wrv_entries resulting_baseline)
             (widen_u64 (rv_entries mandatory_bound))) (ArithmeticOverflow Entries) in
  let? entries :=
    ok_or (checked_add u128_max entries_with_q (widen_u64 (rv_entries full_recovery_claim)))
      (ArithmeticOverflow Entries) in
  let? bytes_with_q :=
    ok_or (checked_add u128_max (wrv_bytes resulting_baseline)
             (widen_u64 (rv_bytes mandatory_bound))) (ArithmeticOverflow Bytes) in
  let? bytes :=
    ok_or (checked_add u128_max bytes_with_q (widen_u64 (rv_bytes full_recovery_claim)))
      (ArithmeticOverflow Bytes) in
  Ok (mkRequiredCapacityPlan (mkWRV entries bytes)).

(** ** The gates *)

Record RecoveryFencePermit := mkRecoveryFencePermit { rfp_accounting : ClosureAccounting }.
Inductive RecoveryFenceDecision :=
| RFD_Eligible (p : RecoveryFencePermit)
| RFD_Respond (r : MarkerClosureCapacityExceeded).

Definition check_recovery_fence (request : ClosureCheckedEnvelope)
    (accounting : ClosureAccounting) (recovery_fence : bool) : RecoveryFenceDecision :=
  if recovery_fence
  then RFD_Respond (closure_refusal request accounting 0 CRR_RecoveryFence)
  else RFD_Eligible (mkRecoveryFencePermit accounting).

Record RemainingClosurePermit := mkRemainingClosurePermit {
  rclp_accounting : ClosureAccounting;
  rclp_required_capacity : RequiredCapacityPlan;
  rclp_delta_cycles : Z;
}.
Inductive RemainingClosureDecision :=
| RCD_Eligible (p : RemainingClosurePermit)
| RCD_Respond (r : MarkerClosureCapacityExceeded).

Definition check_remaining_closure (request : ClosureCheckedEnvelope)
    (accounting : ClosureAccounting) (delivered_marker_awaiting_ack : bool)
    (delta_cycles : Z) (required_capacity : RequiredCapacityPlan) : RemainingClosureDecision :=
  if delivered_marker_awaiting_ack
  then RCD_Respond (closure_refusal request accounting 0 CRR_DeliveredMarkerAwaitingAck)
  else
    let resulting_cycles :=
      add_u128 (widen_u64 (ca_episode_churn_used accounting)) (widen_u64 delta_cycles) in
    if widen_u64 (ca_episode_churn_limit accounting) <? resulting_cycles
    then RCD_Respond (closure_refusal request accounting delta_cycles CRR_EpisodeChurnLimit)
    else
      let maximum := rcp_maximum required_capacity in
      let cap := ca_configured_cap accounting in
      if widen_u64 (rv_entries cap) <? wrv_entries maximum
      then RCD_Respond (closure_refusal request accounting delta_cycles
             (CRR_Capacity (mkClosureCapacityReason Entries (wrv_entries maximum)
                (widen_u64 (rv_entries cap)))))
      else if widen_u64 (rv_bytes cap) <? wrv_bytes maximum
      then RCD_Respond (closure_refusal request accounting delta_cycles
             (CRR_Capacity (mkClosureCapacityReason Bytes (wrv_bytes maximum)
                (widen_u64 (rv_bytes cap)))))
      else RCD_Eligible (mkRemainingClosurePermit accounting required_capacity delta_cycles).

(** ** admission/observer.rs *)

Inductive ObserverCheckedOperation :=
| OCO_Enrollment (request : EnrollmentEnvelope)
| OCO_CredentialAttach (request : AttachEnvelope)
| OCO_InitialDetach (request : DetachEnvelope) (committed_binding_epoch : BindingEpoch)
| OCO_Leave (request : LeaveEnvelope) (prior_terminal_cell_exists : bool)
| OCO_RecordAdmission (request : RecordAdmissionEnvelope).

Record ObserverFloorPermit := mkObserverFloorPermit {
  ofp_observer_progress : DeliverySeq;
  ofp_cap_floor : Z;
}.
Inductive ObserverFloorDecision :=
| OFD_Eligible (p : ObserverFloorPermit)
| OFD_Respond (r : ObserverBackpressure).

Definition check_observer_floor (operation : ObserverCheckedOperation)
    (observer_progress : DeliverySeq) (cap_floor : Z) : ObserverFloorDecision :=
  let observer_limit := add_u128 (widen_u64 observer_progress) 1 in
  if cap_floor <=? observer_limit
  then OFD_Eligible (mkObserverFloorPermit observer_progress cap_floor)
  else
    let state := ObserverBackpressureState_initial observer_progress in
    OFD_Respond
      match operation with
      | OCO_Enrollment request => OB_Enrollment request state
      | OCO_CredentialAttach request => OB_CredentialAttach request state
      | OCO_InitialDetach request committed_binding_epoch =>
          OB_Detach request committed_binding_epoch state
      | OCO_Leave request prior_terminal_cell_exists =>
          OB_Leave request state prior_terminal_cell_exists
      | OCO_RecordAdmission request => OB_RecordAdmission request state
      end.

(** ** admission/record.rs *)

Record RecordSizePermit := mkRecordSizePermit { rsp_encoded_record_charge : ResourceVector }.
Inductive RecordSizeDecision :=
| RSD_Eligible (p : RecordSizePermit)
| RSD_Respond (r : RecordTooLarge).

Definition check_record_size (request : RecordAdmissionEnvelope)
    (encoded_record_charge max_ordinary_record_charge : ResourceVector) : RecordSizeDecision :=
  if rv_entries max_ordinary_record_charge <? rv_entries encoded_record_charge
  then RSD_Respond (mkRecordTooLarge request Entries encoded_record_charge
                      max_ordinary_record_charge)
  else if rv_bytes max_ordinary_record_charge <? rv_bytes encoded_record_charge
  then RSD_Respond (mkRecordTooLarge request Bytes encoded_record_charge
                      max_ordinary_record_charge)
  else RSD_Eligible (mkRecordSizePermit encoded_record_charge).

(** ** Invariant of the accounting *)

(** The ranges of the fields, and what [try_new] checked. *)
Definition accounting_ok (a : ClosureAccounting) : Prop :=
  wf_closure_state (ca_state a)
  /\ (u64 (ca_marker_capacity_credits a) /\ u64 (ca_marker_anchors a)
      /\ u64 (ca_edge_sequence_claims a) /\ u64 (ca_edge_order_position_claims a)
      /\ u64 (ca_episode_churn_used a) /\ u64 (ca_episode_churn_limit a))
  /\ (rv_ok (ca_edge_k_remaining a) /\ wrv_ok (ca_baseline a) /\ rv_ok (ca_configured_cap a))
  /\ ClosureAccounting_try_new (ca_state a) (ca_marker_capacity_credits a)
       (ca_marker_anchors a) (ca_edge_sequence_claims a) (ca_edge_order_position_claims a)
       (ca_edge_k_remaining a) (ca_baseline a) (ca_configured_cap a)
       (ca_episode_churn_used a) (ca_episode_churn_limit a) = Ok a.

(** The debt a state owes; zero when it is clear. *)
Definition owed (s : ClosureState) : WideResourceVector :=
  match s with Closure_Clear => mkWRV 0 0 | Closure_Owed debt _ => debt_value debt end.

Lemma u64_try_from_Some v : v <= u64_max -> u64_try_from v = Some v.
Proof. intros. unfold u64_try_from. by rewrite (proj2 (Z.leb_le _ _)). Qed.

Lemma u64_try_from_None v : is_none (u64_try_from v) = false -> v <= u64_max.
Proof. unfold u64_try_from. destruct (Z.leb_spec v u64_max); done. Qed.

(** What [try_new] guarantees, in the terms the gates use. *)
Lemma accounting_ok_bounds a : accounting_ok a ->
  wrv_entries (ca_baseline a) <= rv_entries (ca_configured_cap a)
  /\ wrv_bytes (ca_baseline a) <= rv_bytes (ca_configured_cap a)
  /\ ca_episode_churn_used a <= ca_episode_churn_limit a
  /\ wrv_entries (owed (ca_state a)) <= u64_max
  /\ wrv_bytes (owed (ca_state a)) <= u64_max.
Proof.
  intros (Hs & _ & _ & Hn). unfold ClosureAccounting_try_new, widen_u64 in Hn.
  csplit_in Hn. breflect. do 3 (split; [done|]).
  destruct (ca_state a) as [|debt edge]; simpl in *; [split; mlia|].
  match goal with H : _ = Ok _ |- _ => csplit_in H end.
  split; by apply u64_try_from_None.
Qed.

(** The disclosed debt is the exact debt. *)
Lemma closure_state_wire_exact s :
  wrv_entries (owed s) <= u64_max -> wrv_bytes (owed s) <= u64_max ->
  closure_state_wire s =
    (mkRV (wrv_entries (owed s)) (wrv_bytes (owed s)),
     match s with Closure_Clear => Edge_None | Closure_Owed _ e => stored_edge_wire e end).
Proof. destruct s; simpl; [done|]. intros. by rewrite !u64_try_from_Some. Qed.

Lemma stored_edge_wire_wf e : wf_stored_edge e -> wf_repayment_edge (stored_edge_wire e).
Proof. destruct e as [| | |[]| | |]; simpl; intuition. Qed.

(** The snapshot of a valid accounting: everything is disclosed exactly. *)
Lemma snapshot_exact a delta : accounting_ok a ->
  snapshot a delta =
    mkClosureSnapshot (ca_marker_capacity_credits a) (ca_marker_anchors a)
      (wrv_entries (owed (ca_state a))) (wrv_bytes (owed (ca_state a)))
      (match ca_state a with
       | Closure_Clear => Edge_None
       | Closure_Owed _ e => stored_edge_wire e
       end)
      (ca_edge_sequence_claims a) (ca_edge_order_position_claims a) (ca_edge_k_remaining a)
      (mkWRV (rv_entries (ca_configured_cap a) - wrv_entries (ca_baseline a))
             (rv_bytes (ca_configured_cap a) - wrv_bytes (ca_baseline a)))
      (ca_episode_churn_used a) delta (ca_episode_churn_limit a).
Proof.
  intros Ha. destruct (accounting_ok_bounds a Ha) as (He & Hb & _ & Hd1 & Hd2).
  destruct Ha as (_ & _ & (_ & [? ?] & [? ?]) & _).
  unfold snapshot, widen_u64. rewrite closure_state_wire_exact by done.
  rewrite !sub_u128_exact by mlia. done.
Qed.

Lemma snapshot_wf a delta : accounting_ok a -> u64 delta -> wf_closure_snapshot (snapshot a delta).
Proof.
  intros Ha Hdelta. rewrite snapshot_exact by done.
  destruct (accounting_ok_bounds a Ha) as (? & ? & _ & ? & ?).
  destruct Ha as (Hs & (? & ? & ? & ? & ? & ?) & (? & [? ?] & [? ?]) & _).
  unfold wf_closure_snapshot, wrv_ok; simpl.
  assert (0 <= wrv_entries (owed (ca_state a)) /\ 0 <= wrv_bytes (owed (ca_state a))) as [? ?].
  { destruct (ca_state a); simpl; [lia|]. destruct Hs as [[[??]_]_]. mlia. }
  repeat match goal with |- _ /\ _ => split end; try done; try mlia.
  destruct (ca_state a); [done|]. by apply stored_edge_wire_wf, Hs.
Qed.

(** ** Refusals on the wire *)

Lemma closure_checked_length e : wf_closure_checked e -> blen (put_closure_checked e) <= 49.
Proof.
  destruct e as [e|e|e|e]; simpl;
    unfold wf_enrollment, wf_attach, wf_leave, wf_record_admission, put_enrollment, put_attach,
      put_leave, put_record_admission, wf_token, enc_option;
    intros Hwf; repeat match type of Hwf with _ /\ _ => destruct Hwf as [? Hwf] end;
    try case_match; rewrite ?blen_app, ?blen_be; unfold blen, TOKEN_LEN in *; simpl; lia.
Qed.

Lemma repayment_edge_length e : blen (put_repayment_edge e) <= 51.
Proof.
  unfold put_repayment_edge, enc_tag, enc_epoch, enc_incarnation, enc_option.
  destruct e as [| | | |[? ? ? []]| | |]; simpl; rewrite ?blen_app, ?blen_be;
    unfold blen; simpl; lia.
Qed.

(** Every closure refusal fits one small body. *)
Lemma refusal_body_length v : wf_closure_checked (mcce_request v) ->
  exists body,
    encode_server_value_body (SV_MarkerClosureCapacityExceeded v) ProtocolVersion_V1
    = Ok (SD_MarkerClosureCapacityExceeded, body) /\ blen body <= 300.
Proof.
  intros Hr. eexists. split; [reflexivity|].
  pose proof (closure_checked_length _ Hr).
  pose proof (repayment_edge_length (cs_repayment_edge (mcce_snapshot v))).
  unfold put_closure_snapshot, enc_tag, enc_resource_vector, enc_wide_resource_vector.
  rewrite ?blen_app, ?blen_be.
  destruct (mcce_reason v); rewrite ?blen_app, ?blen_be; change (blen []) with 0; lia.
Qed.

(** ** What the remaining gate decides *)

(** Which of the ordered checks of the remaining gate a decision reports. *)
Definition remaining_verdict (a : ClosureAccounting) (awaiting : bool) (delta : Z)
    (maximum : WideResourceVector) : option ClosureRefusalReason :=
  let cap := ca_configured_cap a in
  if awaiting then Some CRR_DeliveredMarkerAwaitingAck
  else if ca_episode_churn_limit a <? ca_episode_churn_used a + delta
  then Some CRR_EpisodeChurnLimit
  else if rv_entries cap <? wrv_entries maximum
  then Some (CRR_Capacity (mkClosureCapacityReason Entries (wrv_entries maximum) (rv_entries cap)))
  else if rv_bytes cap <? wrv_bytes maximum
  then Some (CRR_Capacity (mkClosureCapacityReason Bytes (wrv_bytes maximum) (rv_bytes cap)))
  else None.

Lemma check_remaining_closure_verdict request a awaiting delta plan :
  u64 (ca_episode_churn_used a) -> u64 delta ->
  check_remaining_closure request a awaiting delta plan =
  match remaining_verdict a awaiting delta (rcp_maximum plan) with
  | None => RCD_Eligible (mkRemainingClosurePermit a plan delta)
  | Some reason =>
      RCD_Respond (closure_refusal request a (if awaiting then 0 else delta) reason)
  end.
Proof.
  intros. unfold check_remaining_closure, remaining_verdict, widen_u64.
  rewrite add_u128_exact by mlia. destruct awaiting; [done|]. csplit; simplify_eq; done.
Qed.

Lemma remaining_verdict_wf a awaiting delta maximum reason :
  rv_ok (ca_configured_cap a) -> wrv_ok maximum ->
  remaining_verdict a awaiting delta maximum = Some reason -> wf_closure_reason reason.
Proof.
  intros [? ?] [? ?]. unfold remaining_verdict. csplit; intros [= <-]; simpl; mlia.
Qed.

Lemma wide_max_fold rest : forall first,
  wrv_entries first <= wrv_entries (fold_left wide_max rest first)
  /\ wrv_bytes first <= wrv_bytes (fold_left wide_max rest first).
Proof.
  induction rest as [|x rest IH]; intros first; simpl; [lia|].
  specialize (IH (wide_max first x)). simpl in IH. lia.
Qed.

(** A bound on the folded maximum is a bound on every node. *)
Lemma wide_max_le rest e b : forall first,
  wrv_entries (fold_left wide_max rest first) <= e
  /\ wrv_bytes (fold_left wide_max rest first) <= b
  <-> forall s, In s (first :: rest) -> wrv_entries s <= e /\ wrv_bytes s <= b.
Proof.
  induction rest as [|x rest IH]; intros first; simpl.
  - split; [intros H s [<-|[]]; done | intros H; apply H; auto].
  - rewrite IH. simpl. split.
    + intros H s Hs. pose proof (H (wide_max first x) (or_introl eq_refl)) as Hm. simpl in Hm.
      destruct Hs as [<-|[<-|Hs]]; [lia | lia | apply H; auto].
    + intros H s [<-|Hs]; simpl; [|apply H; auto].
      pose proof (H first (or_introl eq_refl)). pose proof (H x (or_intror (or_introl eq_refl))). lia.
Qed.

Lemma zero_debt_admission_leb B Q K cap :
  wrv_ok B -> rv_ok Q -> rv_ok K -> rv_ok cap ->
  zero_debt_admission B Q K cap
  = (wrv_entries B + rv_entries Q + rv_entries K <=? rv_entries cap)
    && (wrv_bytes B + rv_bytes Q + rv_bytes K <=? rv_bytes cap).
Proof.
  intros [? ?] [? ?] [? ?] [? ?]. unfold zero_debt_admission, zero_debt_capacity_failure.
  rewrite !component_fits_spec by done.
  by destruct (_ <=? _), (_ <=? _).
Qed.

(** ** Properties *)

(** The remaining closure gate admits exactly the requests with no delivered
    marker awaiting its acknowledgement, whose charge keeps the episode within
    its churn limit and whose required capacity fits the configured cap in both
    components; a refusal names the first check that failed in that order, and
    discloses the charge it was refused for. *)
Theorem remaining_closure_decides request a awaiting delta plan :
  accounting_ok a -> u64 delta ->
  match check_remaining_closure request a awaiting delta plan with
  | RCD_Eligible p =>
      p = mkRemainingClosurePermit a plan delta /\ awaiting = false
      /\ ca_episode_churn_used a + delta <= ca_episode_churn_limit a
      /\ wrv_entries (rcp_maximum plan) <= rv_entries (ca_configured_cap a)
      /\ wrv_bytes (rcp_maximum plan) <= rv_bytes (ca_configured_cap a)
  | RCD_Respond r =>
      mcce_request r = request
      /\ match mcce_reason r with
         | CRR_DeliveredMarkerAwaitingAck => awaiting = true /\ mcce_snapshot r = snapshot a 0
         | CRR_EpisodeChurnLimit =>
             awaiting = false /\ mcce_snapshot r = snapshot a delta
             /\ ca_episode_churn_limit a < ca_episode_churn_used a + delta
         | CRR_Capacity (mkClosureCapacityReason d required limit) =>
             awaiting = false /\ mcce_snapshot r = snapshot a delta
             /\ ca_episode_churn_used a + delta <= ca_episode_churn_limit a
             /\ limit < required
             /\ match d with
                | Entries => required = wrv_entries (rcp_maximum plan)
                             /\ limit = rv_entries (ca_configured_cap a)
                | Bytes => wrv_entries (rcp_maximum plan) <= rv_entries (ca_configured_cap a)
                           /\ required = wrv_bytes (rcp_maximum plan)
                           /\ limit = rv_bytes (ca_configured_cap a)
                end
         | CRR_RecoveryFence => False
         end
  end.
Proof.
  intros (_ & (_ & _ & _ & _ & Hu & _) & _) Hd.
  rewrite check_remaining_closure_verdict by done. unfold remaining_verdict.
  destruct awaiting; simpl; [done|].
  destruct (Z.ltb_spec (ca_episode_churn_limit a) (ca_episode_churn_used a + delta)); [done|].
  destruct (Z.ltb_spec (rv_entries (ca_configured_cap a)) (wrv_entries (rcp_maximum plan))); [done|].
  destruct (Z.ltb_spec (rv_bytes (ca_configured_cap a)) (wrv_bytes (rcp_maximum plan))); done.
Qed.

(** Every closure refusal reaches the client unchanged: the disclosed debt is
    the debt owed (the saturation of [closure_state_wire] never happens), the
    disclosed headroom and the baseline add up to the cap, and the encoded
    refusal decodes to the same refusal. *)
Theorem closure_refusal_faithful request a awaiting delta plan r :
  accounting_ok a -> wf_closure_checked request -> u64 delta -> wrv_ok (rcp_maximum plan) ->
  check_remaining_closure request a awaiting delta plan = RCD_Respond r
  \/ check_recovery_fence request a true = RFD_Respond r ->
  (cs_entry_debt (mcce_snapshot r) = wrv_entries (owed (ca_state a))
   /\ cs_byte_debt (mcce_snapshot r) = wrv_bytes (owed (ca_state a)))
  /\ (wrv_entries (cs_k_headroom (mcce_snapshot r)) + wrv_entries (ca_baseline a)
      = rv_entries (ca_configured_cap a)
     /\ wrv_bytes (cs_k_headroom (mcce_snapshot r)) + wrv_bytes (ca_baseline a)
      = rv_bytes (ca_configured_cap a))
  /\ exists body,
       encode_server_value_body (SV_MarkerClosureCapacityExceeded r) ProtocolVersion_V1
       = Ok (SD_MarkerClosureCapacityExceeded, body)
       /\ decode_server_value_body SD_MarkerClosureCapacityExceeded ProtocolVersion_V1 body
          = Ok (SV_MarkerClosureCapacityExceeded r, ProtocolVersion_V1).
Proof.
  intros Ha Hreq Hd Hm Hr.
  assert (exists delta' reason, r = closure_refusal request a delta' reason
            /\ u64 delta' /\ wf_closure_reason reason) as (delta' & reason & -> & Hd' & Hwf).
  { destruct Hr as [Hr|Hr]; [|injection Hr as <-; do 2 eexists; split; [done|]; ground].
    destruct Ha as (_ & (_ & _ & _ & _ & Hu & _) & (_ & _ & Hcap) & _).
    rewrite check_remaining_closure_verdict in Hr by done.
    destruct (remaining_verdict _ _ _ _) as [reason|] eqn:E; [|done]. injection Hr as <-.
    apply remaining_verdict_wf in E; [|done..]. do 2 eexists. split; [done|].
    split; [|done]. destruct awaiting; [mlia | done]. }
  simpl. rewrite (snapshot_exact a delta' Ha) at 1 2 3 4. simpl.
  do 2 (split; [lia|]).
  destruct (refusal_body_length (closure_refusal request a delta' reason) Hreq) as (body & He & Hl).
  exists body. split; [done|]. apply decode_server_value_parses; [|done|mlia].
  simpl. split; [done|]. split; [by apply snapshot_wf | done].
Qed.

(** A plan over the reachable successor states covers all of them: without a
    marker awaiting its acknowledgement the gate admits exactly when the charge
    fits and every single successor fits the cap; only the empty plan is
    refused. *)
Theorem successor_plan_covers request a delta successors :
  accounting_ok a -> u64 delta ->
  match from_successors successors with
  | Err e => e = EmptySuccessorSet /\ successors = []
  | Ok plan =>
      check_remaining_closure request a false delta plan
        = RCD_Eligible (mkRemainingClosurePermit a plan delta)
      <-> ca_episode_churn_used a + delta <= ca_episode_churn_limit a
          /\ forall s, In s successors ->
               wrv_entries s <= rv_entries (ca_configured_cap a)
               /\ wrv_bytes s <= rv_bytes (ca_configured_cap a)
  end.
Proof.
  intros (_ & (_ & _ & _ & _ & Hu & _) & _) Hd.
  destruct successors as [|first rest]; [done|]. unfold from_successors.
  rewrite check_remaining_closure_verdict by done. unfold remaining_verdict. simpl rcp_maximum.
  pose proof (wide_max_le rest (rv_entries (ca_configured_cap a))
                (rv_bytes (ca_configured_cap a)) first) as Hle. rewrite <- Hle.
  csplit; breflect; split; intros; try done; lia.
Qed.

(** For an ordinary caller the gate's capacity check is zero-debt admission:
    where [B' + Q + K] is representable, the gate refuses exactly as
    [zero_debt_capacity_failure] does and names the same component; where it is
    not representable, zero-debt admission fails for every cap. *)
Theorem ordinary_plan_is_zero_debt request a delta B Q K :
  accounting_ok a -> u64 delta -> wrv_ok B -> rv_ok Q -> rv_ok K ->
  ca_episode_churn_used a + delta <= ca_episode_churn_limit a ->
  match RequiredCapacityPlan_ordinary B Q K with
  | Ok plan =>
      match zero_debt_capacity_failure B Q K (ca_configured_cap a),
            check_remaining_closure request a false delta plan with
      | None, RCD_Eligible _ => True
      | Some d, RCD_Respond r =>
          exists required limit, mcce_reason r
            = CRR_Capacity (mkClosureCapacityReason d required limit) /\ limit < required
      | _, _ => False
      end
  | Err _ => forall cap, rv_ok cap -> zero_debt_admission B Q K cap = false
  end.
Proof.
  intros Ha Hd HB HQ HK Hc. pose proof HB as [? ?]. pose proof HQ as [? ?]. pose proof HK as [? ?].
  destruct Ha as (_ & (_ & _ & _ & _ & Hu & _) & (_ & _ & [? ?]) & _).
  unfold RequiredCapacityPlan_ordinary, ok_or, widen_u64, checked_add.
  repeat match goal with |- context [if ?x <=? u128_max then _ else _] =>
    destruct (Z.leb_spec x u128_max) end; cycle 1.
  1-4: intros cap [? ?]; rewrite zero_debt_admission_leb by done; apply andb_false_iff;
    rewrite !Z.leb_gt; mlia.
  unfold zero_debt_capacity_failure.
  rewrite !component_fits_spec by done. rewrite check_remaining_closure_verdict by done.
  unfold remaining_verdict. simpl rcp_maximum. simpl wrv_entries. simpl wrv_bytes.
  rewrite (proj2 (Z.ltb_ge _ _)) by lia. rewrite !Z.ltb_antisym.
  destruct (Z.leb_spec (wrv_entries B + rv_entries Q + rv_entries K)
              (rv_entries (ca_configured_cap a))); simpl; [|eauto].
  destruct (Z.leb_spec (wrv_bytes B + rv_bytes Q + rv_bytes K)
              (rv_bytes (ca_configured_cap a))); simpl; eauto.
Qed.

(** The observer gate protects hard retention exactly: from a floor that has
    not passed the observer, the candidate is admitted if and only if the floor
    transition it enables still retains every sequence above the observer's
    progress, and a refusal carries the operation and the current progress as
    its epoch. *)
Theorem observer_gate_retains operation o cap f mc h :
  u64 o -> u64 h -> wf_opt u64 mc -> u128 cap -> 0 <= f <= o + 1 ->
  match check_observer_floor operation o cap with
  | OFD_Eligible p =>
      p = mkObserverFloorPermit o cap
      /\ forall s, o < s -> resulting_floor (floor_transition f mc h o cap) <= s
  | OFD_Respond r =>
      (exists s, o < s < resulting_floor (floor_transition f mc h o cap))
      /\ r = match operation with
             | OCO_Enrollment e => OB_Enrollment e (mkObserverBackpressureState o o)
             | OCO_CredentialAttach e => OB_CredentialAttach e (mkObserverBackpressureState o o)
             | OCO_InitialDetach e b => OB_Detach e b (mkObserverBackpressureState o o)
             | OCO_Leave e t => OB_Leave e (mkObserverBackpressureState o o) t
             | OCO_RecordAdmission e => OB_RecordAdmission e (mkObserverBackpressureState o o)
             end
  end.
Proof.
  intros Ho Hh Hm Hcap Hf. unfold check_observer_floor, widen_u64.
  rewrite floor_transition_max by (try done; intros m ->; done). simpl.
  rewrite add_u128_exact by mlia. destruct (Z.leb_spec cap (o + 1)).
  - split; [done|]. intros s Hs. lia.
  - split; [exists (o + 1); lia|]. by destruct operation.
Qed.

(** The record-size preflight admits exactly the charges within both limits
    and passes the checked charge on; a refusal names entries when they exceed
    their limit and bytes when only they do, with the unchanged request. *)
Lemma record_size_decides request charge limit :
  match check_record_size request charge limit with
  | RSD_Eligible p =>
      p = mkRecordSizePermit charge
      /\ rv_entries charge <= rv_entries limit /\ rv_bytes charge <= rv_bytes limit
  | RSD_Respond r =>
      rtl_request r = request /\ rtl_encoded_record_charge r = charge
      /\ rtl_max_ordinary_record_charge r = limit
      /\ (rtl_dimension r = Entries <-> rv_entries limit < rv_entries charge)
      /\ (rtl_dimension r = Bytes -> rv_bytes limit < rv_bytes charge)
  end.
Proof.
  unfold check_record_size.
  destruct (Z.ltb_spec (rv_entries limit) (rv_entries charge)); simpl;
    [|destruct (Z.ltb_spec (rv_bytes limit) (rv_bytes charge)); simpl];
    intuition (try done; lia).
Qed.

(** ** Witnesses *)

Definition example_state : ClosureState :=
  Closure_Owed (mkClosureDebt (mkWRV 2 0)) (SE_ObserverProjection (mkObserverProjection 7)).
Definition example_accounting : ClosureAccounting :=
  mkClosureAccounting example_state 3 1 2 2 (mkRV 1 1) (mkWRV 5 50) (mkRV 10 100) 1 4.
Definition example_request : ClosureCheckedEnvelope :=
  CCE_Enrollment (mkEnrollmentEnvelope 9 (repeat Byte.x2a 16)).

Lemma example_accounting_ok : accounting_ok example_accounting.
Proof. repeat split; ground. Qed.

Lemma remaining_closure_decides_witness :
  exists r, check_remaining_closure example_request example_accounting false 4
              (mkRequiredCapacityPlan (mkWRV 1 1)) = RCD_Respond r
    /\ mcce_request r = example_request.
Proof.
  eexists. split; [reflexivity|].
  refine (proj1 (remaining_closure_decides example_request example_accounting false 4
    (mkRequiredCapacityPlan (mkWRV 1 1)) example_accounting_ok _)). ground.
Defined.

Lemma closure_refusal_faithful_witness :
  exists r body,
    check_remaining_closure example_request example_accounting false 4
      (mkRequiredCapacityPlan (mkWRV 1 1)) = RCD_Respond r
    /\ decode_server_value_body SD_MarkerClosureCapacityExceeded ProtocolVersion_V1 body
       = Ok (SV_MarkerClosureCapacityExceeded r, ProtocolVersion_V1).
Proof.
  eexists. edestruct (closure_refusal_faithful example_request example_accounting false 4
    (mkRequiredCapacityPlan (mkWRV 1 1))) as (_ & _ & body & _ & Hb);
    [exact example_accounting_ok | ground.. | left; reflexivity |].
  exists body. split; [reflexivity | exact Hb].
Defined.

Lemma successor_plan_covers_witness :
  check_remaining_closure example_request example_accounting false 2
    (mkRequiredCapacityPlan (mkWRV 10 100))
  = RCD_Eligible (mkRemainingClosurePermit example_accounting
      (mkRequiredCapacityPlan (mkWRV 10 100)) 2).
Proof.
  refine (proj2 (successor_plan_covers example_request example_accounting 2
    [mkWRV 10 0; mkWRV 3 100] example_accounting_ok _) _); [ground|].
  split; [ground|]. intros s [<-|[<-|[]]]; ground.
Defined.

Lemma ordinary_plan_is_zero_debt_witness :
  zero_debt_capacity_failure (mkWRV 5 50) (mkRV 2 2) (mkRV 3 3) (mkRV 10 100) = None
  /\ match RequiredCapacityPlan_ordinary (mkWRV 5 50) (mkRV 2 2) (mkRV 3 3) with
     | Ok plan =>
         match check_remaining_closure example_request example_accounting false 2 plan with
         | RCD_Eligible _ => True
         | RCD_Respond _ => False
         end
     | Err _ => False
     end.
Proof.
  split; [reflexivity|].
  exact (ordinary_plan_is_zero_debt example_request example_accounting 2 (mkWRV 5 50)
    (mkRV 2 2) (mkRV 3 3) example_accounting_ok ltac:(ground) ltac:(ground) ltac:(ground)
    ltac:(ground) ltac:(ground)).
Defined.

Lemma observer_gate_retains_witness :
  resulting_floor (floor_transition 3 (Some 9) 20 7 8) <= 8.
Proof.
  refine (proj2 (observer_gate_retains (OCO_Enrollment (mkEnrollmentEnvelope 9 []))
    7 8 3 (Some 9) 20 _ _ _ _ _) 8 _); ground.
Defined.
