(* ===== verification/Cursor.v ===== *)
(** * Cumulative acknowledgements in a nonzero-debt episode

    Model of [liminal-protocol/src/lifecycle/cursor_facts.rs]: the
    participant-scoped cursor facts, the recipient-obligation testimony, and the
    episode that owns the members' cursors, the retained floor and the facts.
    [BTreeMap] is a finite map; where the source iterates in key order the model
    sorts the bindings.  A method on [&mut self] returns its result together
    with the episode it leaves.  Of [ClaimFrontiers] only the four accessors
    [from_claim_frontiers] reads are taken, as a record. *)
From stdpp Require Import gmap sorting.
From coqutil Require Import Byte.
From S2P Require Import Prelude Algebra Tags Wire Response Bytes Edge.

(** ** Keys and facts *)

Record CursorProgressKey := mkCursorProgressKey {
  ck_participant_index : ParticipantIndex;
  ck_boundary : DeliverySeq;
}.

Inductive CursorProgressFact := Pending | Consumed.

#[export] Instance CursorProgressKey_eq_dec : EqDecision CursorProgressKey.
Proof. solve_decision. Defined.
#[export] Instance CursorProgressKey_countable : Countable CursorProgressKey.
Proof.
  refine (inj_countable' (fun k => (ck_participant_index k, ck_boundary k))
            (fun p => mkCursorProgressKey p.1 p.2) _). by intros [].
Defined.
#[export] Instance CursorProgressFact_eq_dec : EqDecision CursorProgressFact.
Proof. solve_decision. Defined.

(** The derived [Ord] of the key: lexicographic. *)
Definition key_le (a b : CursorProgressKey) : Prop :=
  ck_participant_index a < ck_participant_index b
  \/ ck_participant_index a = ck_participant_index b /\ ck_boundary a <= ck_boundary b.

Definition entry_le {V} (a b : CursorProgressKey * V) : Prop := key_le a.1 b.1.
#[export] Instance key_le_dec : RelDecision key_le.
Proof. intros ??. unfold key_le. apply _. Defined.
#[export] Instance entry_le_dec {V} : RelDecision (@entry_le V).
Proof. intros ??. unfold entry_le. apply _. Defined.

Abbreviation CursorProgressFacts := (gmap CursorProgressKey CursorProgressFact).

(** [for (key, fact) in &self.facts]: in key order. *)
Definition facts_iter (facts : CursorProgressFacts)
    : list (CursorProgressKey * CursorProgressFact) :=
  merge_sort entry_le (map_to_list facts).

Definition facts_record (facts : CursorProgressFacts) (key : CursorProgressKey)
    : CursorProgressFacts * bool :=
  match facts !! key with
  | Some _ => (facts, false)
  | None => (<[key := Pending]> facts, true)
  end.

(** The condition of the loop of [consume_through]. *)
Definition covered (participant_index through : Z) (key : CursorProgressKey)
    (fact : CursorProgressFact) : bool :=
  (ck_participant_index key =? participant_index) && (ck_boundary key <=? through)
  && bool_decide (fact = Pending).

Definition consume_through (facts : CursorProgressFacts) (participant_index through : Z)
    : CursorProgressFacts * list CursorProgressKey :=
  (map_imap (fun key fact =>
     Some (if covered participant_index through key fact then Consumed else fact)) facts,
   map fst (List.filter (fun e => covered participant_index through e.1 e.2) (facts_iter facts))).

Inductive CursorFactEncodeError := CFE_TooManyParticipants | CFE_TooManyFacts | CFE_LengthOverflow.

Definition fact_byte (fact : CursorProgressFact) : list byte :=
  match fact with Pending => be 1 0 | Consumed => be 1 1 end.
Definition fact_bytes (e : CursorProgressKey * CursorProgressFact) : list byte :=
  be 8 (ck_participant_index e.1) ++ be 8 (ck_boundary e.1) ++ fact_byte e.2.

Definition facts_encode (facts : CursorProgressFacts) : result (list byte) CursorFactEncodeError :=
  let len := Z.of_nat (size facts) in
  let? count := ok_or (if len <=? u32_max then Some len else None) CFE_TooManyFacts in
  let? body_len := ok_or (checked_mul usize_max len 17) CFE_LengthOverflow in
  let? _capacity := ok_or (checked_add usize_max 4 body_len) CFE_LengthOverflow in
  Ok (be 4 count ++ concat (map fact_bytes (facts_iter facts))).

(** ** Recipient obligations *)

Record RecipientAckObligations := mkRecipientAckObligations {
  rao_participant_id : ParticipantId;
  rao_acknowledged_through : DeliverySeq;
  rao_delivery_sequences : list DeliverySeq;
}.

Inductive RecipientAckObligationsError :=
| RAO_NotLive (acknowledged_through delivery_seq : DeliverySeq)
| RAO_NotStrictlyIncreasing (previous current : DeliverySeq).

Inductive RecipientAckObligationsContextError :=
| RAC_Participant (expected actual : ParticipantId)
| RAC_AcknowledgedThrough (expected actual : DeliverySeq).

Fixpoint validate_obligations (acknowledged_through : DeliverySeq) (previous : option DeliverySeq)
    (delivery_sequences : list DeliverySeq) : result unit RecipientAckObligationsError :=
  match delivery_sequences with
  | [] => Ok tt
  | delivery_seq :: rest =>
      if delivery_seq <=? acknowledged_through
      then Err (RAO_NotLive acknowledged_through delivery_seq)
      else
        let? _ :=
          match previous with
          | Some previous =>
              if delivery_seq <=? previous
              then Err (RAO_NotStrictlyIncreasing previous delivery_seq)
              else Ok tt
          | None => Ok tt
          end in
        validate_obligations acknowledged_through (Some delivery_seq) rest
  end.

Definition RecipientAckObligations_try_new (participant_id : ParticipantId)
    (acknowledged_through : DeliverySeq) (delivery_sequences : list DeliverySeq)
    : result RecipientAckObligations RecipientAckObligationsError :=
  let? _ := validate_obligations acknowledged_through None delivery_sequences in
  Ok (mkRecipientAckObligations participant_id acknowledged_through delivery_sequences).

(** [slice::binary_search(..).is_ok()], by bisection of the range
    [lo, lo + length). *)
Fixpoint bisect (fuel : nat) (l : list Z) (target : Z) : bool :=
  match fuel with
  | O => false
  | S fuel =>
      let mid := Nat.div2 (length l) in
      match drop mid l with
      | [] => false
      | m :: upper =>
          if m =? target then true
          else if m <? target then bisect fuel upper target
          else bisect fuel (take mid l) target
      end
  end.
Definition binary_search_is_ok (l : list Z) (target : Z) : bool := bisect (S (length l)) l target.

Definition contains_endpoint (o : RecipientAckObligations) (participant_id : ParticipantId)
    (acknowledged_through endpoint : DeliverySeq)
    : result bool RecipientAckObligationsContextError :=
  if negb (rao_participant_id o =? participant_id)
  then Err (RAC_Participant participant_id (rao_participant_id o))
  else if negb (rao_acknowledged_through o =? acknowledged_through)
  then Err (RAC_AcknowledgedThrough acknowledged_through (rao_acknowledged_through o))
  else Ok (binary_search_is_ok (rao_delivery_sequences o) endpoint).

(** ** The episode *)

Record BoundParticipantCursor := mkBoundParticipantCursor {
  bpc_participant_id : ParticipantId;
  bpc_active_binding_epoch : BindingEpoch;
  bpc_cursor : DeliverySeq;
}.

Record DebtParticipantCursor := mkDebtParticipantCursor {
  dpc_participant_id : ParticipantId;
  dpc_binding : FrontierBinding;
  dpc_cursor : DeliverySeq;
}.

(** [From<BoundParticipantCursor>]. *)
Definition debt_participant_from (p : BoundParticipantCursor) : DebtParticipantCursor :=
  mkDebtParticipantCursor (bpc_participant_id p) (FB_Bound (bpc_active_binding_epoch p))
    (bpc_cursor p).

Definition advance_to (p : DebtParticipantCursor) (boundary : DeliverySeq)
    : DebtParticipantCursor :=
  if dpc_cursor p <? boundary
  then mkDebtParticipantCursor (dpc_participant_id p) (dpc_binding p) boundary
  else p.

Definition dpc_binding_epoch (p : DebtParticipantCursor) : BindingEpoch :=
  match dpc_binding p with FB_Bound epoch | FB_Detached epoch => epoch end.

Inductive CursorEpisodeBuildError :=
| CEB_DuplicateParticipant (participant_id : ParticipantId)
| CEB_ObserverBeyondHighWatermark (observer_progress candidate_high_watermark : DeliverySeq)
| CEB_CursorBeyondHighWatermark (participant_id : ParticipantId)
    (cursor candidate_high_watermark : DeliverySeq)
| CEB_FloorBeyondRetainedEnd (current_floor retained_end : Z)
| CEB_CapacityFloorBelowBase (cap_floor base_floor : Z)
| CEB_CapacityFloorBeyondObserver (cap_floor observer_limit : Z).

Inductive CumulativeAckAuthorizationError :=
| CAE_ParticipantIndexUnknown
| CAE_ConversationMismatch
| CAE_ParticipantMismatch
| CAE_GenerationMismatch
| CAE_BindingEpochMismatch
| CAE_ObligationContext (error : RecipientAckObligationsContextError)
| CAE_CursorRelationInvariant.

Inductive CumulativeAckOutcome :=
| CAO_Committed (v : AckCommitted)
| CAO_NoOp (v : AckNoOp)
| CAO_Gap (v : AckGap)
| CAO_Regression (v : AckRegression).

Abbreviation Participants := (gmap ParticipantIndex DebtParticipantCursor).

(** [participants.values()], in index order. *)
Definition index_le {V} (a b : ParticipantIndex * V) : Prop := a.1 <= b.1.
#[export] Instance index_le_dec {V} : RelDecision (@index_le V).
Proof. intros ??. unfold index_le. apply _. Defined.
Definition participants_iter (ps : Participants) : list (ParticipantIndex * DebtParticipantCursor) :=
  merge_sort index_le (map_to_list ps).

Record NonzeroDebtCursorEpisode := mkEpisode {
  ep_conversation_id : ConversationId;
  ep_debt : ClosureDebt;
  ep_observer_progress : DeliverySeq;
  ep_candidate_high_watermark : DeliverySeq;
  ep_cap_floor : Z;
  ep_floor : FloorComputation;
  ep_participants : Participants;
  ep_facts : CursorProgressFacts;
}.

(** [participants.values().map(|p| p.cursor).min()]. *)
Definition min_step (c : Z) (acc : option Z) : option Z :=
  Some (match acc with None => c | Some a => Z.min c a end).
Definition minimum_member_cursor (ps : Participants) : option Z :=
  foldr min_step None (map (fun e => dpc_cursor e.2) (map_to_list ps)).

(** The indexing loop of [new]. *)
Fixpoint index_participants (candidate_high_watermark : DeliverySeq)
    (participants : list BoundParticipantCursor) (indexed : Participants)
    : result Participants CursorEpisodeBuildError :=
  match participants with
  | [] => Ok indexed
  | participant :: rest =>
      if candidate_high_watermark <? bpc_cursor participant
      then Err (CEB_CursorBeyondHighWatermark (bpc_participant_id participant)
                  (bpc_cursor participant) candidate_high_watermark)
      else if is_some (indexed !! bpc_participant_id participant)
      then Err (CEB_DuplicateParticipant (bpc_participant_id participant))
      else index_participants candidate_high_watermark rest
             (<[bpc_participant_id participant := debt_participant_from participant]> indexed)
  end.

Definition episode_new (conversation_id : ConversationId) (debt : ClosureDebt)
    (observer_progress candidate_high_watermark : DeliverySeq) (current_floor cap_floor : Z)
    (participants : list BoundParticipantCursor)
    : result NonzeroDebtCursorEpisode CursorEpisodeBuildError :=
  if candidate_high_watermark <? observer_progress
  then Err (CEB_ObserverBeyondHighWatermark observer_progress candidate_high_watermark)
  else
  let retained_end := add_u128 (widen_u64 candidate_high_watermark) 1 in
  if retained_end <? current_floor
  then Err (CEB_FloorBeyondRetainedEnd current_floor retained_end)
  else
  let? indexed := index_participants candidate_high_watermark participants ∅ in
  let floor := floor_transition current_floor (minimum_member_cursor indexed)
                 candidate_high_watermark observer_progress cap_floor in
  let base_floor := Z.max current_floor (preferred_floor floor) in
  if cap_floor <? base_floor then Err (CEB_CapacityFloorBelowBase cap_floor base_floor)
  else
  let observer_limit := add_u128 (widen_u64 observer_progress) 1 in
  if observer_limit <? cap_floor
  then Err (CEB_CapacityFloorBeyondObserver cap_floor observer_limit)
  else Ok (mkEpisode conversation_id debt observer_progress candidate_high_watermark cap_floor
             floor indexed ∅).

Definition with_facts (e : NonzeroDebtCursorEpisode) (facts : CursorProgressFacts) :=
  mkEpisode (ep_conversation_id e) (ep_debt e) (ep_observer_progress e)
    (ep_candidate_high_watermark e) (ep_cap_floor e) (ep_floor e) (ep_participants e) facts.

(** The fact loop of [restore]. *)
Fixpoint restore_facts (e : NonzeroDebtCursorEpisode)
    (facts : list (CursorProgressKey * CursorProgressFact)) : option NonzeroDebtCursorEpisode :=
  match facts with
  | [] => Some e
  | (key, fact) :: rest =>
      match ep_participants e !! ck_participant_index key with
      | None => None
      | Some participant =>
          if (ep_candidate_high_watermark e <? ck_boundary key)
             || (bool_decide (fact = Consumed) && (dpc_cursor participant <? ck_boundary key))
             || (bool_decide (fact = Pending) && (ck_boundary key <=? dpc_cursor participant))
             || is_some (ep_facts e !! key)
          then None
          else restore_facts (with_facts e (<[key := fact]> (ep_facts e))) rest
      end
  end.

Definition episode_restore (conversation_id : ConversationId) (debt : ClosureDebt)
    (observer_progress candidate_high_watermark : DeliverySeq) (current_floor cap_floor : Z)
    (participants : list BoundParticipantCursor)
    (facts : list (CursorProgressKey * CursorProgressFact)) : option NonzeroDebtCursorEpisode :=
  match episode_new conversation_id debt observer_progress candidate_high_watermark
          current_floor cap_floor participants with
  | Err _ => None
  | Ok episode =>
      if negb (resulting_floor (ep_floor episode) =? current_floor) then None
      else restore_facts episode facts
  end.

(** What [from_claim_frontiers] reads of the claim frontiers. *)
Record FrontierView := mkFrontierView {
  fv_conversation_id : ConversationId;
  fv_high_watermark : DeliverySeq;
  fv_retained_floor : Z;
  fv_participants : list FrontierParticipant;
}.

Definition from_claim_frontiers (frontiers : FrontierView) (debt : ClosureDebt)
    (observer_progress : DeliverySeq)
    : result NonzeroDebtCursorEpisode CursorEpisodeBuildError :=
  let candidate_high_watermark := fv_high_watermark frontiers in
  if candidate_high_watermark <? observer_progress
  then Err (CEB_ObserverBeyondHighWatermark observer_progress candidate_high_watermark)
  else
  let current_floor := fv_retained_floor frontiers in
  let retained_end := add_u128 (widen_u64 candidate_high_watermark) 1 in
  if retained_end <? current_floor
  then Err (CEB_FloorBeyondRetainedEnd current_floor retained_end)
  else
  let participants : Participants :=
    foldl (fun m p => <[fp_participant_index p :=
             mkDebtParticipantCursor (fp_participant_index p) (fp_binding p) (fp_cursor p)]> m)
          ∅ (fv_participants frontiers) in
  let minimum := minimum_member_cursor participants in
  let preferred := floor_transition current_floor minimum candidate_high_watermark
                     observer_progress current_floor in
  let cap_floor := Z.max current_floor (preferred_floor preferred) in
  let floor := floor_transition current_floor minimum candidate_high_watermark
                 observer_progress cap_floor in
  Ok (mkEpisode (fv_conversation_id frontiers) debt observer_progress candidate_high_watermark
        cap_floor floor participants ∅).

(** The carried-over facts of [reconcile_claim_frontiers]; keys are distinct, so
    the insertion order does not matter. *)
Definition reconciled_facts (old : CursorProgressFacts) (next : NonzeroDebtCursorEpisode)
    : CursorProgressFacts :=
  map_imap (fun key fact =>
    match ep_participants next !! ck_participant_index key with
    | None => None
    | Some participant =>
        if ck_boundary key <=? ep_candidate_high_watermark next
        then Some (if ck_boundary key <=? dpc_cursor participant then Consumed else fact)
        else None
    end) old.

Definition reconcile_claim_frontiers (e : NonzeroDebtCursorEpisode) (frontiers : FrontierView)
    (debt : ClosureDebt) (observer_progress : DeliverySeq)
    : result NonzeroDebtCursorEpisode CursorEpisodeBuildError :=
  let? next := from_claim_frontiers frontiers debt observer_progress in
  let carried := reconciled_facts (ep_facts e) next in
  let consumed :=
    foldl (fun facts p => (consume_through facts (dpc_participant_id p) (dpc_cursor p)).1)
      carried (map snd (participants_iter (ep_participants next))) in
  Ok (with_facts next consumed).

Definition retained_suffix_start (e : NonzeroDebtCursorEpisode) : option DeliverySeq :=
  if ep_candidate_high_watermark e <? resulting_floor (ep_floor e) then None
  else if resulting_floor (ep_floor e) <=? u64_max then Some (resulting_floor (ep_floor e))
  else None.

Definition retains (e : NonzeroDebtCursorEpisode) (delivery_seq : DeliverySeq) : bool :=
  (resulting_floor (ep_floor e) <=? widen_u64 delivery_seq)
  && (delivery_seq <=? ep_candidate_high_watermark e).

(** The committing tail of [acknowledge_by_endpoint]. *)
Definition commit_ack (e : NonzeroDebtCursorEpisode) (participant_index : ParticipantIndex)
    (participant : DebtParticipantCursor) (through_seq : DeliverySeq)
    : NonzeroDebtCursorEpisode :=
  let participants :=
    <[participant_index := advance_to participant through_seq]> (ep_participants e) in
  let facts := (facts_record (ep_facts e)
                  (mkCursorProgressKey participant_index through_seq)).1 in
  let facts := (consume_through facts participant_index through_seq).1 in
  let floor := floor_transition (resulting_floor (ep_floor e)) (minimum_member_cursor participants)
                 (ep_candidate_high_watermark e) (ep_observer_progress e) (ep_cap_floor e) in
  mkEpisode (ep_conversation_id e) (ep_debt e) (ep_observer_progress e)
    (ep_candidate_high_watermark e) (resulting_floor floor) floor participants facts.

(** The authority checks, up to the active binding epoch. *)
Definition authorize_ack (e : NonzeroDebtCursorEpisode) (participant_index : ParticipantIndex)
    (receiving_binding_epoch : BindingEpoch) (request : ParticipantAck)
    : result DebtParticipantCursor CumulativeAckAuthorizationError :=
  match ep_participants e !! participant_index with
  | None => Err CAE_ParticipantIndexUnknown
  | Some participant =>
      if negb (pa_conversation_id request =? ep_conversation_id e)
      then Err CAE_ConversationMismatch
      else if negb (pa_participant_id request =? dpc_participant_id participant)
      then Err CAE_ParticipantMismatch
      else
        match dpc_binding participant with
        | FB_Detached _ => Err CAE_BindingEpochMismatch
        | FB_Bound active_binding_epoch =>
            if negb (pa_capability_generation request
                     =? capability_generation active_binding_epoch)
            then Err CAE_GenerationMismatch
            else if negb (bool_decide (receiving_binding_epoch = active_binding_epoch))
            then Err CAE_BindingEpochMismatch
            else Ok participant
        end
  end.

Definition acknowledge_by_endpoint (e : NonzeroDebtCursorEpisode)
    (participant_index : ParticipantIndex) (receiving_binding_epoch : BindingEpoch)
    (request : ParticipantAck)
    (endpoint_is_available : ParticipantId -> DeliverySeq -> DeliverySeq ->
       result bool CumulativeAckAuthorizationError)
    : result CumulativeAckOutcome CumulativeAckAuthorizationError * NonzeroDebtCursorEpisode :=
  match authorize_ack e participant_index receiving_binding_epoch request with
  | Err error => (Err error, e)
  | Ok participant =>
      let current_cursor := dpc_cursor participant in
      let through_seq := pa_through_seq request in
      let envelope := mkParticipantAckEnvelope (pa_conversation_id request)
        (pa_participant_id request) (pa_capability_generation request) through_seq in
      match endpoint_is_available (dpc_participant_id participant) current_cursor through_seq with
      | Err error => (Err error, e)
      | Ok endpoint_available =>
          if through_seq <? current_cursor
          then (let? v := ok_or (AckRegression_new envelope current_cursor)
                            CAE_CursorRelationInvariant in Ok (CAO_Regression v), e)
          else if through_seq =? current_cursor
          then (Ok (CAO_NoOp (ANO_ParticipantAck envelope)), e)
          else if (ep_candidate_high_watermark e <? through_seq) || negb endpoint_available
          then (let? v := ok_or (AckGap_new envelope current_cursor)
                            CAE_CursorRelationInvariant in Ok (CAO_Gap v), e)
          else (Ok (CAO_Committed (mkAckCommitted envelope)),
                commit_ack e participant_index participant through_seq)
      end
  end.

Definition acknowledge (e : NonzeroDebtCursorEpisode) (participant_index : ParticipantIndex)
    (receiving_binding_epoch : BindingEpoch) (request : ParticipantAck)
    (contiguously_available_through : DeliverySeq) :=
  let available_through :=
    Z.min contiguously_available_through (ep_candidate_high_watermark e) in
  acknowledge_by_endpoint e participant_index receiving_binding_epoch request
    (fun _ _ endpoint => Ok (endpoint <=? available_through)).

Definition acknowledge_with_obligations (e : NonzeroDebtCursorEpisode)
    (participant_index : ParticipantIndex) (receiving_binding_epoch : BindingEpoch)
    (request : ParticipantAck) (obligations : RecipientAckObligations) :=
  acknowledge_by_endpoint e participant_index receiving_binding_epoch request
    (fun participant_id acknowledged_through endpoint =>
       map_err CAE_ObligationContext
         (contains_endpoint obligations participant_id acknowledged_through endpoint)).

Definition participant_bytes (p : DebtParticipantCursor) : list byte :=
  be 1 (match dpc_binding p with FB_Bound _ => 0 | FB_Detached _ => 1 end)
  ++ be 8 (dpc_participant_id p)
  ++ be 8 (server_incarnation (connection_incarnation (dpc_binding_epoch p)))
  ++ be 8 (connection_ordinal (connection_incarnation (dpc_binding_epoch p)))
  ++ be 8 (capability_generation (dpc_binding_epoch p)) ++ be 8 (dpc_cursor p).

Definition episode_encode (e : NonzeroDebtCursorEpisode)
    : result (list byte) CursorFactEncodeError :=
  let plen := Z.of_nat (size (ep_participants e)) in
  let flen := Z.of_nat (size (ep_facts e)) in
  let? participant_count :=
    ok_or (if plen <=? u32_max then Some plen else None) CFE_TooManyParticipants in
  let? fact_count := ok_or (if flen <=? u32_max then Some flen else None) CFE_TooManyFacts in
  let? participant_bytes_len := ok_or (checked_mul usize_max plen 41) CFE_LengthOverflow in
  let? fact_bytes_len := ok_or (checked_mul usize_max flen 17) CFE_LengthOverflow in
  let? _capacity := ok_or (length ← checked_add usize_max 96 participant_bytes_len;
                           checked_add usize_max length fact_bytes_len) CFE_LengthOverflow in
  let d := debt_value (ep_debt e) in
  Ok (be 8 (ep_conversation_id e) ++ be 16 (wrv_entries d) ++ be 16 (wrv_bytes d)
      ++ be 8 (ep_observer_progress e) ++ be 8 (ep_candidate_high_watermark e)
      ++ be 16 (resulting_floor (ep_floor e)) ++ be 16 (ep_cap_floor e)
      ++ be 4 participant_count
      ++ concat (map (fun p => participant_bytes p.2) (participants_iter (ep_participants e)))
      ++ be 4 fact_count ++ concat (map fact_bytes (facts_iter (ep_facts e)))).

(** ** Bisection *)

Lemma strongly_sorted_app_lt l1 m l2 : StronglySorted Z.lt (l1 ++ m :: l2) ->
  StronglySorted Z.lt l1 /\ StronglySorted Z.lt l2
  /\ (forall x, In x l1 -> x < m) /\ (forall x, In x l2 -> m < x).
Proof.
  induction l1 as [|a l1 IH]; simpl; intros H; apply StronglySorted_inv in H as [Hs Hf].
  - rewrite Forall_forall in Hf. split; [constructor|]. split; [done|].
    split; [done|]. intros x Hx. by apply Hf, list_elem_of_In.
  - rewrite Forall_forall in Hf. destruct (IH Hs) as (H1 & H2 & H3 & H4).
    split; [constructor; [done|]|].
    { apply Forall_forall. intros x Hx. apply Hf, elem_of_app. by left. }
    split; [done|]. split; [|done]. intros x [<-|Hx]; [|by apply H3].
    apply Hf, elem_of_app. right. left.
Qed.

Lemma bisect_spec fuel : forall l t, StronglySorted Z.lt l -> (length l < fuel)%nat ->
  bisect fuel l t = true <-> In t l.
Proof.
  induction fuel as [|fuel IH]; intros l t Hs Hlen; [lia|]. simpl.
  set (mid := Nat.div2 (length l)). destruct (drop mid l) as [|m upper] eqn:E.
  - assert (length l = 0%nat) as Hl.
    { apply (f_equal length) in E. rewrite length_drop in E. simpl in E.
      pose proof (Nat.div2_decr (length l)). destruct (length l) as [|n] eqn:El; [done|].
      assert (Nat.div2 (S n) < S n)%nat by (apply Nat.lt_div2; lia). unfold mid in E. lia. }
    destruct l; [|done]. done.
  - pose proof (take_drop mid l) as Hl. rewrite E in Hl.
    assert (length (take mid l) + S (length upper) = length l)%nat as Hn.
    { rewrite <- Hl at 2. by rewrite length_app. }
    rewrite <- Hl in Hs. apply strongly_sorted_app_lt in Hs as (H1 & H2 & H3 & H4).
    rewrite <- Hl at 2. rewrite in_app_iff. simpl.
    destruct (Z.eqb_spec m t) as [->|Hne]; [intuition|].
    destruct (Z.ltb_spec m t).
    + rewrite IH by (done || lia). split; [auto|]. intros [Hin|[->|?]]; [|lia|done].
      specialize (H3 _ Hin). lia.
    + rewrite IH by (done || lia). split; [auto|]. intros [?|[->|Hin]]; [done|lia|].
      specialize (H4 _ Hin). lia.
Qed.

Lemma validate_obligations_spec a l : forall previous,
  validate_obligations a previous l = Ok tt <->
  Sorted Z.lt l /\ (forall x, In x l -> a < x) /\
  (forall p x, previous = Some p -> head l = Some x -> p < x).
Proof.
  induction l as [|d l IH]; intros previous; simpl; [intuition (try done; constructor)|].
  destruct (Z.leb_spec d a).
  { split; [done|]. intros (_ & H' & _). specialize (H' d (or_introl eq_refl)). lia. }
  assert (validate_obligations a (Some d) l = Ok tt <->
          Sorted Z.lt (d :: l) /\ forall x, In x (d :: l) -> a < x) as Hrec.
  { rewrite IH. split.
    - intros (Hs & Hl & Hh). split; [|intros x [<-|Hx]; [done | by apply Hl]].
      constructor; [done|]. destruct l; constructor. by apply (Hh d).
    - intros (Hs & Hl). inversion Hs as [|? ? Hs' Hh]; subst. split; [done|].
      split; [intros x Hx; apply Hl; by right|]. intros p x [= <-] Hx.
      destruct l; [done|]. injection Hx as <-. by inversion Hh. }
  destruct previous as [p|]; simpl.
  - destruct (Z.leb_spec d p).
    + split; [done|]. intros (_ & _ & Hp). specialize (Hp p d eq_refl eq_refl). lia.
    + rewrite Hrec. split; [|intuition]. intros [? ?]. do 2 (split; [done|]).
      intros ? ? [= <-] [= <-]. lia.
  - rewrite Hrec. intuition done.
Qed.

(** On a validated index, availability of an endpoint is membership. *)
Lemma contains_endpoint_spec p a l o endpoint :
  RecipientAckObligations_try_new p a l = Ok o ->
  contains_endpoint o p a endpoint = Ok (bool_decide (endpoint ∈ l)).
Proof.
  unfold RecipientAckObligations_try_new. destruct (validate_obligations a None l) as [[]|] eqn:E;
    [|done]. intros [= <-]. apply validate_obligations_spec in E as (Hs & _ & _).
  unfold contains_endpoint; simpl. rewrite !Z.eqb_refl. simpl. f_equal.
  apply Sorted_StronglySorted in Hs; [|intros x y z; lia].
  unfold binary_search_is_ok. pose proof (bisect_spec (S (length l)) l endpoint Hs (Nat.lt_succ_diag_r _)) as Hb.
  rewrite <- list_elem_of_In in Hb.
  case_bool_decide; destruct (bisect _ _ _); intuition congruence.
Qed.

(** ** Cursors and the floor *)

Lemma min_step_fold l :
  match foldr min_step None l with
  | None => l = []
  | Some m => In m l /\ forall x, In x l -> m <= x
  end.
Proof.
  induction l as [|c l IH]; simpl; [done|].
  destruct (foldr min_step None l) as [m|]; [|subst; simpl; intuition lia].
  destruct IH as [Hin Hle]. split.
  - destruct (Z.min_spec c m) as [[? ->]|[? ->]]; auto.
  - intros x [<-|Hx]; [lia|]. specialize (Hle x Hx). lia.
Qed.

Lemma minimum_member_cursor_spec ps :
  match minimum_member_cursor ps with
  | None => ps = ∅
  | Some m => (exists i p, ps !! i = Some p /\ dpc_cursor p = m)
              /\ forall i p, ps !! i = Some p -> m <= dpc_cursor p
  end.
Proof.
  unfold minimum_member_cursor.
  pose proof (min_step_fold (map (fun e => dpc_cursor e.2) (map_to_list ps))) as H.
  destruct (foldr _ _ _) as [m|].
  - destruct H as [Hin Hle]. split.
    + apply in_map_iff in Hin as ([i p] & Hm & Hip).
      apply list_elem_of_In, elem_of_map_to_list in Hip. eauto.
    + intros i p Hip. apply Hle, in_map_iff. exists (i, p). split; [done|].
      by apply list_elem_of_In, elem_of_map_to_list.
  - apply map_eq_nil in H. by apply map_to_list_empty_iff.
Qed.

(** The invariant of an episode: every cursor and the observer are within the
    watermark, the facts are exactly as consumed as their participant's cursor
    says, the floor is the one the cursors give, and it never passes the
    observer. *)
Definition member_ok (h : Z) (i : ParticipantIndex) (p : DebtParticipantCursor) : Prop :=
  dpc_participant_id p = i /\ u64 i /\ wf_frontier_binding (dpc_binding p)
  /\ 0 <= dpc_cursor p <= h.

Definition fact_ok (h : Z) (ps : Participants) (k : CursorProgressKey)
    (f : CursorProgressFact) : Prop :=
  exists p, ps !! ck_participant_index k = Some p /\ 0 <= ck_boundary k <= h
            /\ (f = Consumed <-> ck_boundary k <= dpc_cursor p).

Definition facts_ok (h : Z) (ps : Participants) (facts : CursorProgressFacts) : Prop :=
  forall k f, facts !! k = Some f -> fact_ok h ps k f.

Definition floor_ok (h o cap : Z) (ps : Participants) (floor : FloorComputation) : Prop :=
  floor = floor_transition cap (minimum_member_cursor ps) h o cap
  /\ resulting_floor floor = cap /\ 0 <= cap <= o + 1.

Definition episode_ok (e : NonzeroDebtCursorEpisode) : Prop :=
  u64 (ep_candidate_high_watermark e)
  /\ 0 <= ep_observer_progress e <= ep_candidate_high_watermark e
  /\ (forall i p, ep_participants e !! i = Some p -> member_ok (ep_candidate_high_watermark e) i p)
  /\ facts_ok (ep_candidate_high_watermark e) (ep_participants e) (ep_facts e)
  /\ floor_ok (ep_candidate_high_watermark e) (ep_observer_progress e) (ep_cap_floor e)
       (ep_participants e) (ep_floor e).

Lemma minimum_u64 h ps : u64 h -> (forall i p, ps !! i = Some p -> member_ok h i p) ->
  forall m, minimum_member_cursor ps = Some m -> 0 <= m <= h.
Proof.
  intros Hh Hps m Hm. pose proof (minimum_member_cursor_spec ps) as H. rewrite Hm in H.
  destruct H as [(i & p & Hip & <-) _]. by apply (Hps i p Hip).
Qed.

(** Recomputing from a floor within the observer bound gives the next floor. *)
Lemma floor_ok_step h o f cap ps :
  u64 h -> 0 <= o <= h -> (forall i p, ps !! i = Some p -> member_ok h i p) ->
  0 <= f -> 0 <= cap <= o + 1 -> f <= o + 1 ->
  let floor := floor_transition f (minimum_member_cursor ps) h o cap in
  floor_ok h o (resulting_floor floor) ps floor /\ f <= resulting_floor floor
  /\ cap <= resulting_floor floor.
Proof.
  intros Hh Ho Hps Hf Hcap Hfo floor.
  assert (forall m, minimum_member_cursor ps = Some m -> u64 m) as Hm.
  { intros m Hm. pose proof (minimum_u64 h ps Hh Hps m Hm). mlia. }
  assert (u64 o) by mlia. unfold floor, floor_ok.
  rewrite !floor_transition_max by done. simpl.
  assert (0 <= default h (minimum_member_cursor ps)).
  { destruct (minimum_member_cursor ps) as [m|]; simpl; [by apply (Hm m)|mlia]. }
  split; [|lia]. split; [f_equal; lia|]. lia.
Qed.

(** ** Facts *)

Lemma consume_lookup facts i t k :
  (consume_through facts i t).1 !! k
  = (fun f => if covered i t k f then Consumed else f) <$> facts !! k.
Proof. etransitivity; [apply map_lookup_imap|]. by destruct (facts !! k). Qed.

Lemma record_lookup facts key k :
  (facts_record facts key).1 !! k
  = if decide (k = key) then Some (default Pending (facts !! key)) else facts !! k.
Proof.
  unfold facts_record. destruct (facts !! key) as [f|] eqn:E; simpl; case_decide; subst; try done.
  - by rewrite lookup_insert_eq.
  - by rewrite lookup_insert_ne.
Qed.

Lemma covered_spec i t k f :
  covered i t k f = true <-> ck_participant_index k = i /\ ck_boundary k <= t /\ f = Pending.
Proof.
  unfold covered. rewrite !andb_true_iff, Z.eqb_eq, Z.leb_le, bool_decide_eq_true. tauto.
Qed.

(** The facts an acknowledgement leaves. *)
Definition acked_facts (facts : CursorProgressFacts) (i t : Z) : CursorProgressFacts :=
  (consume_through (facts_record facts (mkCursorProgressKey i t)).1 i t).1.

Lemma acked_facts_other facts i t k :
  ck_participant_index k <> i -> acked_facts facts i t !! k = facts !! k.
Proof.
  intros Hi. unfold acked_facts. rewrite consume_lookup, record_lookup.
  case_decide; [subst; done|]. destruct (facts !! k) as [f|]; simpl; [|done].
  destruct (covered i t k f) eqn:E; [|done]. by apply covered_spec in E as [? _].
Qed.

Lemma acked_facts_own facts i t k :
  ck_participant_index k = i -> ck_boundary k <= t ->
  (is_Some (facts !! k) \/ ck_boundary k = t) -> acked_facts facts i t !! k = Some Consumed.
Proof.
  intros Hi Hb Hk. unfold acked_facts. rewrite consume_lookup, record_lookup.
  assert (forall f, (if covered i t k f then Consumed else f) = Consumed) as Hf.
  { intros [|]; [|by case_match]. by rewrite (proj2 (covered_spec i t k Pending)). }
  case_decide as Hdec; [simpl; by rewrite Hf|].
  destruct Hk as [[f ->]|Hbt]; [simpl; by rewrite Hf|].
  destruct k; simpl in *; subst; done.
Qed.

Lemma acked_facts_above facts i t k :
  t < ck_boundary k -> acked_facts facts i t !! k = facts !! k.
Proof.
  intros Hb. unfold acked_facts. rewrite consume_lookup, record_lookup.
  case_decide; [subst; simpl in *; lia|]. destruct (facts !! k) as [f|]; simpl; [|done].
  destruct (covered i t k f) eqn:E; [|done]. apply covered_spec in E as (_ & ? & _). lia.
Qed.

Lemma acked_facts_domain facts i t k f :
  acked_facts facts i t !! k = Some f ->
  is_Some (facts !! k) \/ k = mkCursorProgressKey i t.
Proof.
  unfold acked_facts. rewrite consume_lookup, record_lookup.
  case_decide; [auto|]. destruct (facts !! k); simpl; [eauto | done].
Qed.


Lemma acked_facts_ok h ps facts (i : ParticipantIndex) p t :
  facts_ok h ps facts -> ps !! i = Some p -> dpc_cursor p < t <= h -> 0 <= t ->
  facts_ok h (<[i := advance_to p t]> ps) (acked_facts facts i t).
Proof.
  intros Hf Hp Ht Ht0 k f Hk.
  assert (dpc_cursor (advance_to p t) = t) as Hadv.
  { unfold advance_to. by rewrite (proj2 (Z.ltb_lt _ _)) by lia. }
  destruct (decide (ck_participant_index k = i)) as [Hi|Hi].
  - exists (advance_to p t). rewrite Hi, lookup_insert_eq, Hadv. split; [done|].
    destruct (Z.le_gt_cases (ck_boundary k) t) as [Hb|Hb].
    + assert (0 <= ck_boundary k <= h) as Hrange.
      { destruct (acked_facts_domain _ _ _ _ _ Hk) as [[f0 H0]| ->]; simpl; [|lia].
        by destruct (Hf _ _ H0) as (p' & _ & ? & _). }
      rewrite acked_facts_own in Hk; [by simplify_eq | done | done |].
      destruct (acked_facts_domain _ _ _ _ _ Hk) as [|H0]; [by left | right; by rewrite H0].
    + rewrite acked_facts_above in Hk by done. destruct (Hf k f Hk) as (p' & Hp' & ? & Hc).
      rewrite Hi, Hp in Hp'. simplify_eq. split; [done|]. rewrite Hc. lia.
  - rewrite acked_facts_other in Hk by done. destruct (Hf k f Hk) as (p' & Hp' & Hr).
    exists p'. by rewrite lookup_insert_ne.
Qed.

(** Committing an acknowledgement keeps the invariant. *)
Lemma commit_ack_ok e i p t :
  episode_ok e -> ep_participants e !! i = Some p ->
  dpc_cursor p < t <= ep_candidate_high_watermark e ->
  episode_ok (commit_ack e i p t)
  /\ resulting_floor (ep_floor e) <= resulting_floor (ep_floor (commit_ack e i p t)).
Proof.
  intros (Hh & Ho & Hps & Hf & (Hfl & Hres & Hcap)) Hp Ht.
  assert (0 <= t) by (destruct (Hps i p Hp) as (_ & _ & _ & ?); lia).
  assert (forall j q, <[i := advance_to p t]> (ep_participants e) !! j = Some q ->
            member_ok (ep_candidate_high_watermark e) j q) as Hps'.
  { intros j q. destruct (decide (i = j)) as [<-|]; [|rewrite lookup_insert_ne by done; apply Hps].
    rewrite lookup_insert_eq. intros [= <-]. destruct (Hps i p Hp) as (? & ? & ? & ?).
    unfold advance_to. rewrite (proj2 (Z.ltb_lt _ _)) by lia. split; [done|].
    split; [done|]. split; [done|]. simpl. lia. }
  destruct (floor_ok_step (ep_candidate_high_watermark e) (ep_observer_progress e)
    (resulting_floor (ep_floor e)) (ep_cap_floor e)
    (<[i := advance_to p t]> (ep_participants e)) Hh Ho Hps') as (Hfloor & Hle & _); [lia..|].
  split; [|done]. split; [done|]. split; [done|]. split; [done|].
  split; [by apply acked_facts_ok | done].
Qed.


(** ** Acknowledgement *)

Lemma authorize_ack_Ok e i epoch request p :
  authorize_ack e i epoch request = Ok p <->
  ep_participants e !! i = Some p /\ dpc_binding p = FB_Bound epoch
  /\ pa_conversation_id request = ep_conversation_id e
  /\ pa_participant_id request = dpc_participant_id p
  /\ pa_capability_generation request = capability_generation epoch.
Proof.
  unfold authorize_ack. split.
  - intros H. destruct (ep_participants e !! i) as [q|]; [|done].
    destruct (negb (pa_conversation_id request =? _)) eqn:E1; [done|].
    destruct (negb (pa_participant_id request =? _)) eqn:E2; [done|].
    destruct (dpc_binding q) as [active|dead] eqn:Eb; [|done].
    destruct (negb (pa_capability_generation request =? _)) eqn:E3; [done|].
    destruct (negb (bool_decide _)) eqn:E4; [done|]. simplify_eq. breflect.
    apply bool_decide_eq_true in E4. by subst.
  - intros (-> & -> & -> & -> & ->). rewrite !Z.eqb_refl, bool_decide_eq_true_2 by done. done.
Qed.

(** The state an acknowledgement leaves: unchanged unless it commits. *)
Lemma acknowledge_state e i epoch request avail :
  let '(r, e') := acknowledge_by_endpoint e i epoch request avail in
  match r with
  | Ok (CAO_Committed _) =>
      exists p, authorize_ack e i epoch request = Ok p
        /\ avail (dpc_participant_id p) (dpc_cursor p) (pa_through_seq request) = Ok true
        /\ dpc_cursor p < pa_through_seq request <= ep_candidate_high_watermark e
        /\ e' = commit_ack e i p (pa_through_seq request)
  | _ => e' = e
  end.
Proof.
  unfold acknowledge_by_endpoint.
  destruct (authorize_ack e i epoch request) as [p|err] eqn:Ea; [|done].
  destruct (avail _ _ _) as [b|err] eqn:Ev; [|done].
  destruct (Z.ltb_spec (pa_through_seq request) (dpc_cursor p)).
  { by destruct (ok_or _ _). }
  destruct (Z.eqb_spec (pa_through_seq request) (dpc_cursor p)); [done|].
  destruct (Z.ltb_spec (ep_candidate_high_watermark e) (pa_through_seq request)); simpl.
  { by destruct (ok_or _ _). }
  destruct b; simpl; [|by destruct (ok_or _ _)].
  exists p. repeat split; try done; lia.
Qed.

Lemma acknowledge_keeps_ok e i epoch request avail r e' :
  episode_ok e -> acknowledge_by_endpoint e i epoch request avail = (r, e') ->
  episode_ok e' /\ resulting_floor (ep_floor e) <= resulting_floor (ep_floor e').
Proof.
  intros He Ha. pose proof (acknowledge_state e i epoch request avail) as H. rewrite Ha in H.
  destruct r as [[v|v|v|v]|err]; try (subst; split; [done | lia]).
  destruct H as (p & Hp & _ & Ht & ->). apply authorize_ack_Ok in Hp as (Hp & _).
  by apply commit_ack_ok.
Qed.

(** A later episode of the same conversation state: nothing moves backwards. *)
Definition episode_le (e e' : NonzeroDebtCursorEpisode) : Prop :=
  ep_conversation_id e' = ep_conversation_id e
  /\ ep_observer_progress e' = ep_observer_progress e
  /\ ep_candidate_high_watermark e' = ep_candidate_high_watermark e
  /\ resulting_floor (ep_floor e) <= resulting_floor (ep_floor e')
  /\ forall i p, ep_participants e !! i = Some p ->
       exists p', ep_participants e' !! i = Some p' /\ dpc_binding p' = dpc_binding p
                  /\ dpc_cursor p <= dpc_cursor p'.

#[export] Instance episode_le_preorder : PreOrder episode_le.
Proof.
  split.
  - intros e. repeat split; [lia|]. intros i p Hp. exists p. repeat split; [done | lia].
  - intros e1 e2 e3 (? & ? & ? & ? & H12) (? & ? & ? & ? & H23).
    repeat split; [congruence.. | lia |]. intros i p Hp.
    destruct (H12 i p Hp) as (p2 & Hp2 & ? & ?). destruct (H23 i p2 Hp2) as (p3 & Hp3 & ? & ?).
    exists p3. repeat split; [done | congruence | lia].
Qed.

Lemma acknowledge_le e i epoch request avail r e' :
  episode_ok e -> acknowledge_by_endpoint e i epoch request avail = (r, e') -> episode_le e e'.
Proof.
  intros He Ha. destruct (acknowledge_keeps_ok e i epoch request avail r e' He Ha) as [_ Hle].
  pose proof (acknowledge_state e i epoch request avail) as H. rewrite Ha in H.
  destruct r as [[v|v|v|v]|err]; try (subst; reflexivity).
  destruct H as (p & Hp & _ & Ht & ->). apply authorize_ack_Ok in Hp as (Hp & _).
  repeat split; [done|]. intros j q Hq. simpl. destruct (decide (i = j)) as [<-|Hij].
  - exists (advance_to q (pa_through_seq request)). rewrite Hp in Hq. simplify_eq.
    split; [apply lookup_insert_eq|]. unfold advance_to.
    rewrite (proj2 (Z.ltb_lt _ _)) by lia. simpl. split; [done | lia].
  - exists q. rewrite lookup_insert_ne by done. repeat split; [done | lia].
Qed.

(** Acknowledgements of either selector, in any order. *)
Inductive ack_step : NonzeroDebtCursorEpisode -> NonzeroDebtCursorEpisode -> Prop :=
| ack_contiguous e i epoch request available r e' :
    acknowledge e i epoch request available = (r, e') -> ack_step e e'
| ack_obligations e i epoch request obligations r e' :
    acknowledge_with_obligations e i epoch request obligations = (r, e') -> ack_step e e'.

Lemma ack_step_ok e e' : episode_ok e -> ack_step e e' -> episode_ok e' /\ episode_le e e'.
Proof.
  intros He Hs. destruct Hs as [e i epoch request av r e' H | e i epoch request ob r e' H];
    (split; [by apply acknowledge_keeps_ok in H as [? _] | by eapply acknowledge_le in H]).
Qed.

(** ** Construction and restart *)

Definition index_of (b : BoundParticipantCursor) : ParticipantIndex * DebtParticipantCursor :=
  (bpc_participant_id b, debt_participant_from b).

Lemma index_participants_complete h l : forall acc,
  NoDup (map bpc_participant_id l) -> (forall b, In b l -> bpc_cursor b <= h) ->
  (forall b, In b l -> acc !! bpc_participant_id b = None) ->
  index_participants h l acc = Ok (list_to_map (map index_of l) ∪ acc).
Proof.
  induction l as [|b l IH]; intros acc Hnd Hc Hacc; simpl; [by rewrite (left_id_L ∅ (∪))|].
  inversion Hnd as [|? ? Hni Hnd']; subst.
  rewrite (proj2 (Z.ltb_ge _ _)) by (apply Hc; by left). rewrite Hacc by (by left). simpl.
  rewrite IH; [|done|intros x Hx; apply Hc; by right|].
  - f_equal. rewrite <- insert_union_r, insert_union_l; [done|].
    apply not_elem_of_list_to_map_1. rewrite <- list_fmap_compose. exact Hni.
  - intros x Hx. rewrite lookup_insert_ne; [apply Hacc; by right|]. intros Heq. apply Hni.
    rewrite Heq. apply list_elem_of_In, in_map, Hx.
Qed.

Lemma index_participants_sound h l : forall acc m, index_participants h l acc = Ok m ->
  (forall i p, acc !! i = Some p -> dpc_participant_id p = i /\ dpc_cursor p <= h) ->
  forall i p, m !! i = Some p ->
    acc !! i = Some p \/ exists b, In b l /\ i = bpc_participant_id b
                           /\ p = debt_participant_from b /\ bpc_cursor b <= h.
Proof.
  induction l as [|b l IH]; intros acc m; simpl; [intros [= <-] _ i p; auto|].
  destruct (Z.ltb_spec h (bpc_cursor b)); [done|]. destruct (is_some _) eqn:E; [done|].
  intros Hm Hacc i p Hi.
  destruct (IH _ _ Hm) with (i := i) (p := p) as [H'|(b' & ? & ?)]; [|done| |eauto 6].
  - intros j q. destruct (decide (bpc_participant_id b = j)) as [<-|];
      [rewrite lookup_insert_eq; intros [= <-]; done | rewrite lookup_insert_ne by done; apply Hacc].
  - destruct (decide (bpc_participant_id b = i)) as [<-|];
      [rewrite lookup_insert_eq in H'; simplify_eq; eauto 8
      | rewrite lookup_insert_ne in H' by done; by left].
Qed.

Lemma restore_facts_complete l : forall e,
  NoDup l.*1 ->
  (forall k f, In (k, f) l ->
     fact_ok (ep_candidate_high_watermark e) (ep_participants e) k f /\ ep_facts e !! k = None) ->
  restore_facts e l = Some (with_facts e (list_to_map l ∪ ep_facts e)).
Proof.
  induction l as [|[k f] l IH]; intros e Hnd Hall; simpl.
  { rewrite (left_id_L ∅ (∪)). by destruct e. }
  inversion Hnd as [|? ? Hni Hnd']; subst.
  destruct (Hall k f (or_introl eq_refl)) as [(p & -> & Hr & Hc) Hnone].
  rewrite Hnone. simpl. rewrite orb_false_r.
  rewrite (proj2 (Z.ltb_ge _ _)) by lia. simpl.
  assert (bool_decide (f = Consumed) && (dpc_cursor p <? ck_boundary k)
          || bool_decide (f = Pending) && (ck_boundary k <=? dpc_cursor p) = false) as ->.
  { destruct f; simpl; [destruct (Z.leb_spec (ck_boundary k) (dpc_cursor p)); [|done]
                       | destruct (Z.ltb_spec (dpc_cursor p) (ck_boundary k)); [|done]].
    - by apply Hc in H. - assert (ck_boundary k <= dpc_cursor p) by (by apply Hc). lia. }
  rewrite IH; [|done|].
  - simpl. rewrite <- insert_union_r, insert_union_l; [done|].
    by apply not_elem_of_list_to_map_1.
  - intros k' f' Hin. simpl. destruct (Hall k' f' (or_intror Hin)) as [? ?].
    split; [done|]. rewrite lookup_insert_ne; [done|]. intros <-. apply Hni.
    apply list_elem_of_fmap. exists (k, f'). split; [done|]. by apply list_elem_of_In.
Qed.

Lemma episode_ok_preferred e : episode_ok e ->
  preferred_floor (ep_floor e) <= ep_cap_floor e
  /\ ep_floor e = floor_transition (ep_cap_floor e) (minimum_member_cursor (ep_participants e))
                    (ep_candidate_high_watermark e) (ep_observer_progress e) (ep_cap_floor e).
Proof.
  intros (Hh & Ho & Hps & _ & (Hfl & Hres & _)). split; [|done].
  assert (forall m, minimum_member_cursor (ep_participants e) = Some m -> u64 m) as Hm.
  { intros m Hm. pose proof (minimum_u64 _ _ Hh Hps m Hm). mlia. }
  rewrite Hfl in Hres. rewrite Hfl. revert Hres.
  rewrite floor_transition_max by (done || mlia). simpl. lia.
Qed.

(** Construction establishes the invariant. *)
Lemma episode_new_ok conv d o h f cap l e :
  u64 h -> 0 <= o -> 0 <= f ->
  (forall b, In b l -> u64 (bpc_participant_id b) /\ 0 <= bpc_cursor b
                       /\ wf_epoch (bpc_active_binding_epoch b)) ->
  episode_new conv d o h f cap l = Ok e -> episode_ok e /\ f <= resulting_floor (ep_floor e).
Proof.
  intros Hh Ho Hf Hl. unfold episode_new, widen_u64.
  destruct (Z.ltb_spec h o); [done|]. rewrite !add_u128_exact by mlia.
  destruct (Z.ltb_spec (h + 1) f); [done|].
  destruct (index_participants h l ∅) as [ps|] eqn:Ei; [|done].
  assert (forall i p, ps !! i = Some p -> member_ok h i p) as Hps.
  { intros i p Hi. destruct (index_participants_sound h l ∅ ps Ei) with (i := i) (p := p)
      as [H'|(b & Hb & -> & -> & Hc)]; [intros ?? H'; by rewrite lookup_empty in H' | done
      | by rewrite lookup_empty in H' |].
    destruct (Hl b Hb) as (? & ? & ?). split; [done|]. split; [done|]. split; [done|]. simpl. lia. }
  set (floor := floor_transition f _ h o cap).
  destruct (Z.ltb_spec cap (Z.max f (preferred_floor floor))); [done|].
  destruct (Z.ltb_spec (o + 1) cap); [done|]. intros [= <-].
  destruct (floor_ok_step h o f cap ps Hh ltac:(lia) Hps Hf ltac:(lia) ltac:(lia))
    as (Hfl & Hle & Hle'). fold floor in Hfl, Hle, Hle'.
  assert (resulting_floor floor = cap) as Hcap.
  { assert (forall m, minimum_member_cursor ps = Some m -> u64 m) as Hm.
    { intros m Hm. pose proof (minimum_u64 _ _ Hh Hps m Hm). mlia. }
    subst floor. revert H0. rewrite floor_transition_max in * by (done || mlia). simpl in *. lia. }
  rewrite Hcap in Hfl. split; [|done]. split; [done|]. split; [simpl; lia|]. split; [done|].
  split; [|done]. intros k fct Hk. simpl in Hk. by rewrite lookup_empty in Hk.
Qed.

(** ** Properties *)


(** Along every sequence of acknowledgements the episode stays valid and
    nothing moves backwards: cursors, bindings and the floor are monotone, the
    facts agree with the cursors, and every sequence above the observer's progress
    and up to the watermark is still retained. *)
Theorem ack_runs_monotone e e' :
  episode_ok e -> rtc ack_step e e' ->
  episode_ok e' /\ episode_le e e'
  /\ forall s, ep_observer_progress e < s <= ep_candidate_high_watermark e -> retains e' s = true.
Proof.
  intros He Hrun.
  assert (episode_ok e' /\ episode_le e e') as [He' Hle].
  { induction Hrun as [e|e e1 e2 Hs _ IH]; [by split|].
    apply ack_step_ok in Hs as [H1 H2]; [|done]. destruct (IH H1) as [H3 H4].
    split; [done|]. by transitivity e1. }
  split; [done|]. split; [done|]. intros s Hs.
  destruct He' as (_ & _ & _ & _ & (_ & Hres & Hcap)). destruct Hle as (_ & Ho & Hh & _).
  unfold retains, widen_u64. rewrite Hres, Hh, andb_true_iff, !Z.leb_le. lia.
Qed.

(** Under the durable obligation rule an authorized acknowledgement commits
    exactly when its boundary is ahead of the cursor, within the watermark and an
    endpoint of the recipient's live obligations; gaps between obligations do not
    matter, a boundary that is no obligation is an acknowledgement gap. *)
Theorem obligation_ack_commits_iff e i epoch request p l o :
  authorize_ack e i epoch request = Ok p ->
  RecipientAckObligations_try_new (dpc_participant_id p) (dpc_cursor p) l = Ok o ->
  let t := pa_through_seq request in
  ((exists v e', acknowledge_with_obligations e i epoch request o = (Ok (CAO_Committed v), e'))
   <-> In t l /\ t <= ep_candidate_high_watermark e)
  /\ ((exists v, acknowledge_with_obligations e i epoch request o = (Ok (CAO_Gap v), e))
      <-> dpc_cursor p < t /\ (ep_candidate_high_watermark e < t \/ ~ In t l)).
Proof.
  intros Ha Ho t.
  assert (forall x, In x l -> dpc_cursor p < x) as Hlive.
  { unfold RecipientAckObligations_try_new in Ho.
    destruct (validate_obligations _ None l) as [[]|] eqn:E; [|done].
    by apply validate_obligations_spec in E as (_ & H & _). }
  unfold acknowledge_with_obligations, acknowledge_by_endpoint. rewrite Ha. fold t.
  rewrite (contains_endpoint_spec _ _ _ _ t Ho). simpl.
  unfold AckRegression_new, AckGap_new. simpl pae_through_seq.
  pose proof (list_elem_of_In l t) as Hin.
  destruct (Z.ltb_spec t (dpc_cursor p)); simpl.
  { split; split; [by intros (? & ? & ?) | intros [Ht _]; specialize (Hlive t Ht); lia
                  | by intros (? & ?) | lia]. }
  destruct (Z.eqb_spec t (dpc_cursor p)); simpl.
  { split; split; [by intros (? & ? & ?) | intros [Ht _]; specialize (Hlive t Ht); lia
                  | by intros (? & ?) | lia]. }
  rewrite (proj2 (Z.ltb_lt (dpc_cursor p) t)) by lia.
  destruct (Z.ltb_spec (ep_candidate_high_watermark e) t); simpl.
  { split; split; [by intros (? & ? & ?) | lia | intros _; split; [lia|by left] | eauto]. }
  case_bool_decide as Hd; simpl.
  - split; split; [intros _; intuition | eauto | by intros (? & ?) | intuition lia].
  - split; split; [by intros (? & ? & ?) | intuition | intros _; split; [lia|intuition] | eauto].
Qed.

(** An episode survives a restart: restoring from its durable fields, the
    bindings of its cursors and its facts, in whatever order the two lists are
    stored, gives back exactly the episode. *)
Theorem episode_restart e participants facts :
  episode_ok e ->
  NoDup (map bpc_participant_id participants) ->
  list_to_map (map index_of participants) = ep_participants e ->
  NoDup facts.*1 -> list_to_map facts = ep_facts e ->
  episode_restore (ep_conversation_id e) (ep_debt e) (ep_observer_progress e)
    (ep_candidate_high_watermark e) (resulting_floor (ep_floor e)) (ep_cap_floor e)
    participants facts = Some e.
Proof.
  intros He Hnd Hps Hndf Hfacts.
  destruct (episode_ok_preferred e He) as [Hpref Hfl].
  destruct He as (Hh & Ho & Hm & Hf & (_ & Hres & Hcap)).
  assert (NoDup (map index_of participants).*1) as Hnd'.
  { by rewrite <- list_fmap_compose. }
  unfold episode_restore, episode_new, widen_u64.
  rewrite (proj2 (Z.ltb_ge _ _)) by lia. rewrite !add_u128_exact by mlia.
  rewrite (proj2 (Z.ltb_ge _ _)) by lia.
  rewrite index_participants_complete; [|done| |intros; apply lookup_empty].
  - rewrite (right_id_L ∅ (∪)), Hps, Hres, <- Hfl.
    rewrite (proj2 (Z.ltb_ge _ _)) by lia. rewrite (proj2 (Z.ltb_ge _ _)) by lia.
    simpl. rewrite Hres, Z.eqb_refl. simpl. rewrite restore_facts_complete; [|done|].
    + unfold with_facts; simpl. rewrite (right_id_L ∅ (∪)), Hfacts. by destruct e.
    + intros k f Hin. simpl. split; [|apply lookup_empty]. apply Hf. rewrite <- Hfacts.
      apply elem_of_list_to_map_1; [done|]. by apply list_elem_of_In.
  - intros b Hb. assert (ep_participants e !! bpc_participant_id b = Some (debt_participant_from b))
      as Hl.
    { rewrite <- Hps. apply elem_of_list_to_map_1; [done|].
      apply list_elem_of_fmap. exists b. split; [done|]. by apply list_elem_of_In. }
    destruct (Hm _ _ Hl) as (_ & _ & _ & ?). simpl in *. lia.
Qed.

(** ** The durable encoding *)

Lemma be_inj n a b : 0 <= a < 2 ^ (Z.of_nat n * 8) -> 0 <= b < 2 ^ (Z.of_nat n * 8) ->
  be n a = be n b -> a = b.
Proof. intros Ha Hb H. rewrite <- (from_be_be n a), <- (from_be_be n b) by done. by rewrite H. Qed.

Lemma be_app_inj n a b x y :
  0 <= a < 2 ^ (Z.of_nat n * 8) -> 0 <= b < 2 ^ (Z.of_nat n * 8) ->
  be n a ++ x = be n b ++ y -> a = b /\ x = y.
Proof.
  intros Ha Hb H. apply app_inj_1 in H as [H ->]; [|by rewrite !length_be].
  split; [|done]. by apply (be_inj n).
Qed.

(** Splits an equation of concatenated integers into equations of integers. *)
Ltac be_split :=
  repeat match goal with
    | H : be _ _ ++ _ = be _ _ ++ _ |- _ =>
        apply be_app_inj in H as [? H]; [|simpl; mlia|simpl; mlia]
    | H : be ?n _ = be ?n _ |- _ => apply (be_inj n) in H; [|simpl; mlia|simpl; mlia]
    end.

Lemma concat_map_inj {A} (f : A -> list byte) n (P : A -> Prop) :
  (forall a, length (f a) = n) -> (forall a b, P a -> P b -> f a = f b -> a = b) ->
  forall l1 l2 x y, Forall P l1 -> Forall P l2 -> length l1 = length l2 ->
  concat (map f l1) ++ x = concat (map f l2) ++ y -> l1 = l2 /\ x = y.
Proof.
  intros Hlen Hinj. induction l1 as [|a l1 IH]; intros [|b l2] x y H1 H2 Hl H; try done.
  inversion H1; inversion H2; subst. simpl in *. rewrite <- !app_assoc in H.
  apply app_inj_1 in H as [Hab H]; [|by rewrite !Hlen].
  apply IH in H as [-> ->]; [|done|done|lia]. by rewrite (Hinj a b).
Qed.

Definition u64_key (k : CursorProgressKey) : Prop :=
  u64 (ck_participant_index k) /\ u64 (ck_boundary k).

Lemma fact_bytes_inj (a b : CursorProgressKey * CursorProgressFact) :
  u64_key a.1 -> u64_key b.1 -> fact_bytes a = fact_bytes b -> a = b.
Proof.
  destruct a as [[i t] f], b as [[j s] g]. unfold fact_bytes, u64_key; simpl.
  intros [? ?] [? ?] He. be_split. subst. destruct f, g; simpl in He; try done; be_split; lia.
Qed.

Definition u64_member (p : DebtParticipantCursor) : Prop :=
  u64 (dpc_participant_id p) /\ wf_frontier_binding (dpc_binding p) /\ u64 (dpc_cursor p).

Lemma participant_bytes_inj a b :
  u64_member a -> u64_member b -> participant_bytes a = participant_bytes b -> a = b.
Proof.
  destruct a as [i x c], b as [j y d]. unfold u64_member, participant_bytes, dpc_binding_epoch.
  destruct x as [[[s1 o1] g1]|[[s1 o1] g1]], y as [[[s2 o2] g2]|[[s2 o2] g2]];
    unfold wf_frontier_binding, wf_epoch, wf_incarnation, wf_generation; simpl;
    intros (? & ((? & ?) & ?) & ?) (? & ((? & ?) & ?) & ?) He; be_split; by subst.
Qed.

Lemma facts_iter_inj m1 m2 : facts_iter m1 = facts_iter m2 -> m1 = m2.
Proof.
  intros H. apply map_to_list_inj. unfold facts_iter in H.
  rewrite <- (merge_sort_Permutation entry_le (map_to_list m1)), H.
  apply merge_sort_Permutation.
Qed.

Lemma facts_iter_length m : length (facts_iter m) = size m.
Proof. unfold facts_iter. by rewrite merge_sort_Permutation, length_map_to_list. Qed.

Lemma participants_iter_length m : length (participants_iter m) = size m.
Proof. unfold participants_iter. by rewrite merge_sort_Permutation, length_map_to_list. Qed.

Lemma elem_of_facts_iter m e : e ∈ facts_iter m <-> m !! e.1 = Some e.2.
Proof.
  unfold facts_iter. rewrite merge_sort_Permutation. destruct e. apply elem_of_map_to_list.
Qed.

Lemma elem_of_participants_iter m e : e ∈ participants_iter m <-> m !! e.1 = Some e.2.
Proof.
  unfold participants_iter. rewrite merge_sort_Permutation. destruct e. apply elem_of_map_to_list.
Qed.

(** Members are stored under their own index, so their values determine the map. *)
Lemma participants_iter_inj (m1 m2 : Participants) :
  (forall i p, m1 !! i = Some p -> dpc_participant_id p = i) ->
  (forall i p, m2 !! i = Some p -> dpc_participant_id p = i) ->
  map snd (participants_iter m1) = map snd (participants_iter m2) -> m1 = m2.
Proof.
  intros H1 H2 H.
  assert (forall m : Participants, (forall i p, m !! i = Some p -> dpc_participant_id p = i) ->
    participants_iter m
    = map (fun p => (dpc_participant_id p, p)) (map snd (participants_iter m))) as Hkey.
  { intros m Hm. rewrite map_map. symmetry. rewrite <- (map_id (participants_iter m)) at 2.
    apply map_ext_in. intros [i p] Hin. simpl. f_equal. apply Hm.
    by apply list_elem_of_In, elem_of_participants_iter in Hin. }
  apply map_to_list_inj. unfold participants_iter in *.
  rewrite <- (merge_sort_Permutation index_le (map_to_list m1)), (Hkey m1 H1), H, <- (Hkey m2 H2).
  apply merge_sort_Permutation.
Qed.

Lemma episode_facts_u64 e : episode_ok e ->
  Forall (fun x => u64_key x.1) (facts_iter (ep_facts e)).
Proof.
  intros (Hh & _ & Hps & Hf & _). apply Forall_forall. intros [k f] Hk.
  apply elem_of_facts_iter in Hk. destruct (Hf k f Hk) as (p & Hp & ? & _).
  destruct (Hps _ _ Hp) as (_ & ? & _). split; [done | simpl; mlia].
Qed.

Lemma episode_members_u64 e : episode_ok e ->
  Forall u64_member (map snd (participants_iter (ep_participants e))).
Proof.
  intros (Hh & _ & Hps & _). apply Forall_forall. intros p Hp.
  apply list_elem_of_fmap in Hp as ([i q] & -> & Hq). apply elem_of_participants_iter in Hq.
  destruct (Hps i q Hq) as (Hid & ? & ? & ?). simpl. split; [by rewrite Hid|].
  split; [done | mlia].
Qed.

(** What an encoded episode looks like. *)
Lemma episode_encode_Ok e bs : episode_encode e = Ok bs ->
  Z.of_nat (size (ep_participants e)) <= u32_max /\ Z.of_nat (size (ep_facts e)) <= u32_max
  /\ bs = be 8 (ep_conversation_id e) ++ be 16 (wrv_entries (debt_value (ep_debt e)))
      ++ be 16 (wrv_bytes (debt_value (ep_debt e)))
      ++ be 8 (ep_observer_progress e) ++ be 8 (ep_candidate_high_watermark e)
      ++ be 16 (resulting_floor (ep_floor e)) ++ be 16 (ep_cap_floor e)
      ++ be 4 (Z.of_nat (size (ep_participants e)))
      ++ concat (map participant_bytes (map snd (participants_iter (ep_participants e))))
      ++ be 4 (Z.of_nat (size (ep_facts e)))
      ++ concat (map fact_bytes (facts_iter (ep_facts e))).
Proof.
  unfold episode_encode.
  destruct (Z.leb_spec (Z.of_nat (size (ep_participants e))) u32_max); simpl; [|done].
  destruct (Z.leb_spec (Z.of_nat (size (ep_facts e))) u32_max); simpl; [|done].
  destruct (checked_mul _ _ _); simpl; [|done]. destruct (checked_mul _ _ _); simpl; [|done].
  destruct (_ ≫= _); simpl; [|done]. intros [= <-]. rewrite map_map. done.
Qed.

(** The durable bytes of an episode determine it: two valid episodes with the
    same encoding are equal, so no cursor, binding, fact or floor is lost or
    confused with another. *)
Theorem episode_encode_injective e1 e2 bs :
  episode_ok e1 -> episode_ok e2 ->
  u64 (ep_conversation_id e1) -> u64 (ep_conversation_id e2) ->
  wrv_ok (debt_value (ep_debt e1)) -> wrv_ok (debt_value (ep_debt e2)) ->
  episode_encode e1 = Ok bs -> episode_encode e2 = Ok bs -> e1 = e2.
Proof.
  intros H1 H2 Hc1 Hc2 [? ?] [? ?] He1 He2.
  pose proof (episode_facts_u64 e1 H1) as Hf1. pose proof (episode_facts_u64 e2 H2) as Hf2.
  pose proof (episode_members_u64 e1 H1) as Hm1. pose proof (episode_members_u64 e2 H2) as Hm2.
  apply episode_encode_Ok in He1 as (? & ? & ->). apply episode_encode_Ok in He2 as (? & ? & He).
  destruct H1 as (Hh1 & Ho1 & Hps1 & _ & (Hfl1 & Hr1 & Hb1)),
    H2 as (Hh2 & Ho2 & Hps2 & _ & (Hfl2 & Hr2 & Hb2)).
  rewrite Hr1, Hr2 in He. be_split.
  assert (size (ep_participants e1) = size (ep_participants e2)) as Hsz by lia.
  apply (concat_map_inj participant_bytes 41 u64_member) in He as [Hps He];
    [| | apply participant_bytes_inj | done | done |]; cycle 1.
  { intros a. unfold participant_bytes. by rewrite !length_app, !length_be. }
  { by rewrite !length_map, !participants_iter_length. }
  be_split. rewrite <- (app_nil_r (concat (map fact_bytes (facts_iter (ep_facts e1))))),
    <- (app_nil_r (concat (map fact_bytes (facts_iter (ep_facts e2))))) in He.
  apply (concat_map_inj fact_bytes 17 (fun x => u64_key x.1)) in He as [Hfs _];
    [| | apply fact_bytes_inj | done | done |]; cycle 1.
  { intros [k []]; unfold fact_bytes; simpl; by rewrite !length_app, !length_be. }
  { rewrite !facts_iter_length. lia. }
  apply facts_iter_inj in Hfs. apply participants_iter_inj in Hps;
    [| intros; by apply Hps1 | intros; by apply Hps2].
  destruct e1 as [? [[? ?]] ? ? ? ? ? ?], e2 as [? [[? ?]] ? ? ? ? ? ?]; simpl in *.
  congruence.
Qed.

(** ** Rebuilding from the claim frontiers *)

(** On facts that agree with the cursors there is nothing left to consume. *)
Lemma consume_ok h ps facts (i : ParticipantIndex) p : facts_ok h ps facts -> ps !! i = Some p ->
  (consume_through facts i (dpc_cursor p)).1 = facts.
Proof.
  intros Hf Hp. apply map_eq. intros k. rewrite consume_lookup.
  destruct (facts !! k) as [f|] eqn:E; simpl; [|done].
  destruct (covered i (dpc_cursor p) k f) eqn:Ec; [|done]. exfalso.
  apply covered_spec in Ec as (Hi & Hb & ->). destruct (Hf k Pending E) as (q & Hq & _ & Hc).
  rewrite Hi, Hp in Hq. simplify_eq. by apply Hc in Hb.
Qed.

Lemma consume_all_ok h ps facts l : facts_ok h ps facts ->
  (forall p, In p l -> ps !! dpc_participant_id p = Some p) ->
  foldl (fun facts p => (consume_through facts (dpc_participant_id p) (dpc_cursor p)).1) facts l
  = facts.
Proof.
  intros Hf. induction l as [|p l IH]; intros Hl; [done|].
  cbn [foldl]. rewrite (consume_ok h ps) by (done || apply Hl; by left).
  apply IH. intros q Hq. apply Hl. by right.
Qed.

(** A frontier view whose cursors are within the watermark and whose floor has
    not passed the observer. *)
Definition view_ok (v : FrontierView) (o : DeliverySeq) : Prop :=
  u64 (fv_high_watermark v) /\ 0 <= o <= fv_high_watermark v
  /\ 0 <= fv_retained_floor v <= o + 1
  /\ forall p, In p (fv_participants v) ->
       u64 (fp_participant_index p) /\ wf_frontier_binding (fp_binding p)
       /\ 0 <= fp_cursor p <= fv_high_watermark v.

Definition view_member (p : FrontierParticipant) : DebtParticipantCursor :=
  mkDebtParticipantCursor (fp_participant_index p) (fp_binding p) (fp_cursor p).

Lemma fold_members l : forall (acc : Participants) i q,
  foldl (fun m p => <[fp_participant_index p :=
           mkDebtParticipantCursor (fp_participant_index p) (fp_binding p) (fp_cursor p)]> m)
        acc l !! i = Some q ->
  acc !! i = Some q \/ exists p, In p l /\ i = fp_participant_index p /\ q = view_member p.
Proof.
  induction l as [|p l IH]; intros acc i q H; [by left|]. cbn [foldl] in H.
  destruct (IH _ _ _ H) as [H'|(p' & ? & ?)]; [|right; exists p'; simpl; tauto].
  destruct (decide (fp_participant_index p = i)) as [<-|].
  - rewrite lookup_insert_eq in H'. simplify_eq. right. exists p. simpl. auto.
  - rewrite lookup_insert_ne in H' by done. by left.
Qed.

Lemma from_claim_frontiers_ok v d o : view_ok v o ->
  exists e, from_claim_frontiers v d o = Ok e /\ episode_ok e /\ ep_facts e = ∅
    /\ ep_candidate_high_watermark e = fv_high_watermark v
    /\ fv_retained_floor v <= resulting_floor (ep_floor e).
Proof.
  intros (Hh & Ho & Hf & Hv). unfold from_claim_frontiers, widen_u64.
  rewrite (proj2 (Z.ltb_ge _ _)) by lia. rewrite add_u128_exact by mlia.
  rewrite (proj2 (Z.ltb_ge _ _)) by lia. set (ps := foldl _ _ _).
  assert (forall i p, ps !! i = Some p -> member_ok (fv_high_watermark v) i p) as Hps.
  { intros i p Hi. destruct (fold_members _ _ _ _ Hi) as [H|(q & Hq & -> & ->)];
      [by rewrite lookup_empty in H|]. destruct (Hv q Hq) as (? & ? & ?). done. }
  assert (forall m, minimum_member_cursor ps = Some m -> u64 m) as Hm.
  { intros m Hm. pose proof (minimum_u64 _ _ Hh Hps m Hm). mlia. }
  assert (u64 o) by mlia. rewrite !floor_transition_max by done. simpl preferred_floor.
  set (m := default (fv_high_watermark v) (minimum_member_cursor ps)).
  assert (0 <= m). { unfold m. destruct (minimum_member_cursor ps) eqn:E; simpl; [|lia].
    by apply (Hm z eq_refl). }
  eexists. split; [done|]. split; [|simpl; repeat split; lia].
  split; [done|]. split; [done|]. split; [done|].
  split; [intros k f Hk; simpl in Hk; by rewrite lookup_empty in Hk|].
  unfold floor_ok. simpl. rewrite floor_transition_max by done. fold m. simpl.
  split; [f_equal; lia|]. lia.
Qed.

Lemma from_claim_frontiers_members v d o n i p :
  from_claim_frontiers v d o = Ok n -> ep_participants n !! i = Some p ->
  exists q, In q (fv_participants v) /\ i = fp_participant_index q /\ p = view_member q.
Proof.
  unfold from_claim_frontiers. do 2 (case_match; [done|]). intros [= <-]. simpl.
  intros Hi. destruct (fold_members _ _ _ _ Hi) as [H'|]; [|done]. by rewrite lookup_empty in H'.
Qed.

Lemma reconciled_lookup facts n k :
  reconciled_facts facts n !! k =
  match facts !! k, ep_participants n !! ck_participant_index k with
  | Some f, Some p => if ck_boundary k <=? ep_candidate_high_watermark n
                      then Some (if ck_boundary k <=? dpc_cursor p then Consumed else f)
                      else None
  | _, _ => None
  end.
Proof.
  unfold reconciled_facts. rewrite map_lookup_imap.
  destruct (facts !! k); simpl; [|done]. by case_match.
Qed.

(** Facts that agreed with the old cursors agree, carried over, with the new
    ones, when no cursor went back. *)
Lemma reconciled_ok h ps facts n :
  facts_ok h ps facts ->
  (forall i p q, ep_participants n !! i = Some p -> ps !! i = Some q ->
     dpc_cursor q <= dpc_cursor p) ->
  facts_ok (ep_candidate_high_watermark n) (ep_participants n) (reconciled_facts facts n).
Proof.
  intros Hf Hmono k f. rewrite reconciled_lookup.
  destruct (facts !! k) as [f0|] eqn:E0; [|done].
  destruct (ep_participants n !! ck_participant_index k) as [p|] eqn:Ep; [|done].
  destruct (Z.leb_spec (ck_boundary k) (ep_candidate_high_watermark n)); [|done].
  intros [= <-]. exists p. destruct (Hf k f0 E0) as (q & Hq & Hr & Hc).
  split; [done|]. split; [lia|].
  destruct (Z.leb_spec (ck_boundary k) (dpc_cursor p)); [intuition|].
  specialize (Hmono _ _ _ Ep Hq). rewrite Hc. intuition lia.
Qed.

(** An episode is carried over to new claim frontiers soundly: from any valid
    frontiers in which no surviving member's cursor went back, reconciliation
    succeeds, the new episode is valid for the new cursors, and the facts it keeps
    are exactly those of surviving members within the new watermark. *)
Theorem reconcile_valid e v d o :
  episode_ok e -> view_ok v o ->
  (forall p q, In p (fv_participants v) -> ep_participants e !! fp_participant_index p = Some q ->
     dpc_cursor q <= fp_cursor p) ->
  exists e', reconcile_claim_frontiers e v d o = Ok e' /\ episode_ok e'
    /\ fv_retained_floor v <= resulting_floor (ep_floor e')
    /\ forall k, is_Some (ep_facts e' !! k) <->
         is_Some (ep_facts e !! k) /\ is_Some (ep_participants e' !! ck_participant_index k)
         /\ ck_boundary k <= fv_high_watermark v.
Proof.
  intros (_ & _ & _ & Hf & _) Hv Hmono.
  destruct (from_claim_frontiers_ok v d o Hv) as (n & Hn & Hok & Hnf & Hnh & Hfl).
  unfold reconcile_claim_frontiers. rewrite Hn.
  destruct Hok as (Hh & Ho & Hps & _ & Hfloor).
  assert (facts_ok (ep_candidate_high_watermark n) (ep_participants n)
            (reconciled_facts (ep_facts e) n)) as Hcarried.
  { eapply reconciled_ok; [done|]. intros i p q Hp Hq.
    destruct (from_claim_frontiers_members v d o n i p Hn Hp) as (w & Hw & -> & ->).
    by apply (Hmono w q). }
  rewrite (consume_all_ok _ _ _ _ Hcarried); cycle 1.
  { intros p Hp. apply in_map_iff in Hp as ([i q] & <- & Hq).
    apply list_elem_of_In, elem_of_participants_iter in Hq. simpl in *.
    by rewrite (proj1 (Hps i q Hq)). }
  eexists. split; [done|].
  split; [exact (conj Hh (conj Ho (conj Hps (conj Hcarried Hfloor))))|].
  split; [done|]. intros k. simpl.
  rewrite reconciled_lookup, <- Hnh.
  destruct (ep_facts e !! k), (ep_participants n !! ck_participant_index k);
    try (split; [by intros [? ?] | by intros ([? ?] & [? ?] & _)]).
  destruct (Z.leb_spec (ck_boundary k) (ep_candidate_high_watermark n)); [by intuition eauto|].
  split; [by intros [? ?] | lia].
Qed.

(** ** Witnesses *)

Definition example_epoch : BindingEpoch := mkBindingEpoch (mkConnectionIncarnation 1 4) 2.

(** Two bound members at cursors 3 and 5 of a log up to 9, observed up to 7. *)
Definition example_episode : NonzeroDebtCursorEpisode :=
  mkEpisode 11 (mkClosureDebt (mkWRV 1 0)) 7 9 4
    (floor_transition 4 (Some 3) 9 7 4)
    {[ 0 := mkDebtParticipantCursor 0 (FB_Bound example_epoch) 3;
       1 := mkDebtParticipantCursor 1 (FB_Bound example_epoch) 5 ]}
    {[ mkCursorProgressKey 1 5 := Consumed; mkCursorProgressKey 1 8 := Pending ]}.

Definition example_participants : list BoundParticipantCursor :=
  [mkBoundParticipantCursor 0 example_epoch 3; mkBoundParticipantCursor 1 example_epoch 5].
Definition example_facts : list (CursorProgressKey * CursorProgressFact) :=
  [(mkCursorProgressKey 1 5, Consumed); (mkCursorProgressKey 1 8, Pending)].

Lemma example_episode_ok : episode_ok example_episode.
Proof.
  split; [ground|]. split; [ground|]. split.
  { intros i p Hi. simpl in Hi.
    apply lookup_insert_Some in Hi as [[<- <-]|[_ Hi]]; [repeat split; ground|].
    apply lookup_singleton_Some in Hi as [<- <-]. repeat split; ground. }
  split; [|split; [vm_compute; reflexivity|split; ground]].
  intros k f Hk. simpl in Hk.
  apply lookup_insert_Some in Hk as [[<- <-]|[_ Hk]].
  - eexists. split; [reflexivity|]. split; [ground|]. simpl. intuition lia.
  - apply lookup_singleton_Some in Hk as [<- <-].
    eexists. split; [reflexivity|]. split; [ground|]. simpl. intuition (lia || done).
Qed.

Lemma ack_runs_monotone_witness :
  exists e', rtc ack_step example_episode e'
    /\ dpc_cursor <$> ep_participants e' !! 1 = Some 8 /\ retains e' 8 = true.
Proof.
  exists (acknowledge example_episode 1 example_epoch (mkParticipantAck 11 1 2 8) 9).2.
  assert (rtc ack_step example_episode
            (acknowledge example_episode 1 example_epoch (mkParticipantAck 11 1 2 8) 9).2) as H.
  { apply rtc_once. eapply (ack_contiguous example_episode 1 example_epoch
      (mkParticipantAck 11 1 2 8) 9). apply surjective_pairing. }
  split; [exact H|]. split; [reflexivity|].
  apply (proj2 (proj2 (ack_runs_monotone _ _ example_episode_ok H))). ground.
Defined.

Lemma obligation_ack_commits_iff_witness :
  let o := mkRecipientAckObligations 1 5 [6; 8] in
  exists v e', acknowledge_with_obligations example_episode 1 example_epoch
                 (mkParticipantAck 11 1 2 8) o = (Ok (CAO_Committed v), e').
Proof.
  intros o. refine (proj2 (proj1 (obligation_ack_commits_iff example_episode 1 example_epoch
    (mkParticipantAck 11 1 2 8) (mkDebtParticipantCursor 1 (FB_Bound example_epoch) 5)
    [6; 8] o _ _)) _); [reflexivity | reflexivity | split; [simpl; auto | ground]].
Defined.

Lemma episode_restart_witness :
  episode_restore 11 (mkClosureDebt (mkWRV 1 0)) 7 9 4 4 example_participants example_facts
  = Some example_episode.
Proof.
  refine (episode_restart example_episode example_participants example_facts
    example_episode_ok _ _ _ _); [| reflexivity | | reflexivity];
    apply (bool_decide_eq_true_1 (NoDup _)); vm_compute; reflexivity.
Defined.

Lemma episode_encode_injective_witness :
  mkEpisode 11 (mkClosureDebt (mkWRV 1 0)) 7 9 4 (floor_transition 4 (Some 3) 9 7 4)
    (list_to_map (map index_of (rev example_participants))) (list_to_map (rev example_facts))
  = example_episode.
Proof.
  eapply episode_encode_injective; [exact example_episode_ok | exact example_episode_ok | ground..
    | vm_compute; reflexivity | vm_compute; reflexivity].
Defined.

Lemma reconcile_valid_witness :
  let v := mkFrontierView 11 10 4 [mkFrontierParticipant 1 8 (FB_Bound example_epoch)] in
  exists e', reconcile_claim_frontiers example_episode v (mkClosureDebt (mkWRV 1 0)) 7 = Ok e'
    /\ ep_facts e' !! mkCursorProgressKey 1 8 = Some Consumed /\ episode_ok e'.
Proof.
  intros v.
  destruct (reconcile_valid example_episode v (mkClosureDebt (mkWRV 1 0)) 7 example_episode_ok)
    as (e' & He & Hok & _).
  - split; [ground|]. split; [ground|]. split; [ground|]. intros p [<-|[]]. repeat split; ground.
  - intros p q [<-|[]] Hq. vm_compute in Hq. simplify_eq. ground.
  - exists e'. split; [exact He|]. split; [|exact Hok].
    vm_compute in He. simplify_eq. reflexivity.
Defined.
