(* ===== verification/AckOperations.v ===== *)
(** * Acknowledgement operations

    Model of [liminal-protocol/src/lifecycle/operations/]: [participant_ack.rs] (an
    acknowledgement without debt), [nonzero_participant_ack.rs] (one inside a debt
    episode), [marker_proof.rs] and [marker_ack.rs].  Each looks the presented identity
    up, decides, and on commit carries the one cursor update its member takes. *)
From S2P Require Import Prelude Cursor Algebra Tags Wire Response Authority Edge Binding EdgeSteps.
From S2P Require Import Member Detach Attach Lookup.

(** ** participant_ack.rs *)

Record ParticipantAckCommit := mkParticipantAckCommit {
  pac_outcome : AckCommitted;
  pac_cursor_update : LiveMemberCursorUpdate;
  pac_binding_epoch : BindingEpoch;
  pac_previous_cursor : DeliverySeq;
}.
Inductive ParticipantAckCommitError :=
| PAE_Conversation (expected actual : ConversationId)
| PAE_Participant (expected actual : ParticipantId)
| PAE_Generation (expected actual : Generation)
| PAE_NonAdvancing (from_cursor resulting_cursor : DeliverySeq)
| PAE_CursorPrestate (expected_from_cursor resulting_cursor actual_cursor : DeliverySeq).
Definition ParticipantAckCommitError_from_member_error (error : LiveMemberCursorUpdateError)
    : ParticipantAckCommitError :=
  match error with
  | LCE_Conversation expected actual => PAE_Conversation expected actual
  | LCE_Participant expected actual => PAE_Participant expected actual
  | LCE_Generation expected actual => PAE_Generation expected actual
  | LCE_NonAdvancing from_cursor resulting_cursor => PAE_NonAdvancing from_cursor resulting_cursor
  | LCE_CursorPrestate expected_from_cursor resulting_cursor actual_cursor =>
      PAE_CursorPrestate expected_from_cursor resulting_cursor actual_cursor
  end.
Inductive ParticipantAckDecision :=
| PAD_Respond (r : ParticipantAckResponse)
| PAD_Commit (c : ParticipantAckCommit).

Definition ParticipantAckCommit_observer_progress_projection (c : ParticipantAckCommit)
    : ObserverProgressProjection :=
  let request := acm_request (pac_outcome c) in
  mkObserverProgressProjection (pae_conversation_id request) (pae_through_seq request).
Definition ParticipantAckCommit_progress_binding_fate_token (c : ParticipantAckCommit)
    (token : SealedBindingFateToken) : result SealedBindingFateToken SealedBindingFateToken :=
  let request := acm_request (pac_outcome c) in
  token_participant_ack_progressed token (pae_conversation_id request)
    (pae_participant_id request) (pac_binding_epoch c) (pac_previous_cursor c)
    (pae_through_seq request).
(** The member left, and the result. *)
Definition ParticipantAckCommit_apply_to {F} (c : ParticipantAckCommit) (member : LiveMember F)
    : LiveMember F * result AckCommitted ParticipantAckCommitError :=
  match apply_cursor_update member (pac_cursor_update c) with
  | (member, Ok _) => (member, Ok (pac_outcome c))
  | (member, Err error) => (member, Err (ParticipantAckCommitError_from_member_error error))
  end.

(** [ack_envelope]. *)
Definition ack_envelope (request : ParticipantAck) : ParticipantAckEnvelope :=
  mkParticipantAckEnvelope (pa_conversation_id request) (pa_participant_id request)
    (pa_capability_generation request) (pa_through_seq request).

Section ParticipantAck.
Context {EF V LF : Type}.

(** The commit both variants build. *)
Definition participant_ack_commit (receiving_binding_epoch : BindingEpoch) (request : ParticipantAck)
    (current_cursor : DeliverySeq) : ParticipantAckCommit :=
  mkParticipantAckCommit (mkAckCommitted (ack_envelope request))
    (mkLiveMemberCursorUpdate (pa_conversation_id request) (pa_participant_id request)
       (pa_capability_generation request) current_cursor (pa_through_seq request))
    receiving_binding_epoch current_cursor.

(** From the member's cursor and whether the endpoint is there to acknowledge. *)
Definition decide_participant_ack (receiving_binding_epoch : BindingEpoch)
    (request : ParticipantAck) (current_cursor : DeliverySeq) (available : bool)
    : ParticipantAckDecision :=
  match (if pa_through_seq request <? current_cursor
         then AckRegression_new (ack_envelope request) current_cursor else None) with
  | Some outcome => PAD_Respond (ParticipantAckResponse_ack_regression outcome)
  | None =>
      if pa_through_seq request =? current_cursor
      then PAD_Respond (ParticipantAckResponse_ack_no_op (ack_envelope request))
      else
        match (if negb available then AckGap_new (ack_envelope request) current_cursor else None) with
        | Some outcome => PAD_Respond (ParticipantAckResponse_ack_gap outcome)
        | None => PAD_Commit (participant_ack_commit receiving_binding_epoch request current_cursor)
        end
  end.

Definition apply_participant_ack (presented_identity : PresentedIdentity EF V LF)
    (binding : BindingState) (receiving_binding_epoch : BindingEpoch) (request : ParticipantAck)
    (contiguously_available_through : DeliverySeq) : ParticipantAckDecision :=
  match lookup_binding_required presented_identity binding (Some receiving_binding_epoch)
          (PBR_ParticipantAck request) with
  | BLR_Retired outcome => PAD_Respond (ParticipantAckResponse_from_retired outcome)
  | BLR_ParticipantUnknown outcome =>
      PAD_Respond (ParticipantAckResponse_from_participant_unknown outcome)
  | BLR_StaleAuthority outcome => PAD_Respond (ParticipantAckResponse_from_stale_authority outcome)
  | BLR_NoBinding outcome => PAD_Respond (ParticipantAckResponse_from_no_binding outcome)
  | BLR_Authorized member _ =>
      decide_participant_ack receiving_binding_epoch request (lm_cursor member)
        (pa_through_seq request <=? contiguously_available_through)
  end.

Definition apply_participant_ack_with_obligations (presented_identity : PresentedIdentity EF V LF)
    (binding : BindingState) (receiving_binding_epoch : BindingEpoch) (request : ParticipantAck)
    (obligations : RecipientAckObligations)
    : result ParticipantAckDecision RecipientAckObligationsContextError :=
  match lookup_binding_required presented_identity binding (Some receiving_binding_epoch)
          (PBR_ParticipantAck request) with
  | BLR_Retired outcome => Ok (PAD_Respond (ParticipantAckResponse_from_retired outcome))
  | BLR_ParticipantUnknown outcome =>
      Ok (PAD_Respond (ParticipantAckResponse_from_participant_unknown outcome))
  | BLR_StaleAuthority outcome =>
      Ok (PAD_Respond (ParticipantAckResponse_from_stale_authority outcome))
  | BLR_NoBinding outcome => Ok (PAD_Respond (ParticipantAckResponse_from_no_binding outcome))
  | BLR_Authorized member _ =>
      let? endpoint_is_obligation :=
        contains_endpoint obligations (pa_participant_id request) (lm_cursor member)
          (pa_through_seq request) in
      Ok (decide_participant_ack receiving_binding_epoch request (lm_cursor member)
            endpoint_is_obligation)
  end.
End ParticipantAck.

(** ** marker_proof.rs *)

Inductive MarkerProofInput :=
| MPI_CredentialAttach (p : AttachMarkerProof)
| MPI_MarkerAck (p : MarkerAckProof).
Definition credential_attach (request : CredentialAttachRequest) : option MarkerProofInput :=
  requested_marker_delivery_seq ← car_accept_marker_delivery_seq request;
  Some (MPI_CredentialAttach (mkAttachMarkerProof (car_conversation_id request)
          (car_attach_attempt_token request) (car_participant_id request)
          (car_capability_generation request) requested_marker_delivery_seq)).
Definition marker_ack_input (request : MarkerAck) : MarkerProofInput :=
  MPI_MarkerAck (mkMarkerAckProof (ma_conversation_id request) (ma_participant_id request)
    (ma_capability_generation request) (ma_marker_delivery_seq request)).
Definition requested_marker_delivery_seq (i : MarkerProofInput) : DeliverySeq :=
  match i with
  | MPI_CredentialAttach p => amp_requested_marker_delivery_seq p
  | MPI_MarkerAck p => mp_requested_marker_delivery_seq p
  end.
Definition mpi_participant_id (i : MarkerProofInput) : ParticipantId :=
  match i with
  | MPI_CredentialAttach p => amp_participant_id p
  | MPI_MarkerAck p => mp_participant_id p
  end.
Definition mpi_capability_generation (i : MarkerProofInput) : Generation :=
  match i with
  | MPI_CredentialAttach p => amp_capability_generation p
  | MPI_MarkerAck p => mp_capability_generation p
  end.
Definition is_marker_ack (i : MarkerProofInput) : bool :=
  match i with MPI_MarkerAck _ => true | MPI_CredentialAttach _ => false end.
Definition into_wire_request (i : MarkerProofInput) : MarkerProofRequest :=
  match i with
  | MPI_CredentialAttach p => MPR_CredentialAttach p
  | MPI_MarkerAck p => MPR_MarkerAck p
  end.
Definition mpi_marker_ack_envelope (i : MarkerProofInput) : option MarkerAckEnvelope :=
  match i with
  | MPI_CredentialAttach _ => None
  | MPI_MarkerAck p =>
      Some (mkMarkerAckEnvelope (mp_conversation_id p) (mp_participant_id p)
              (mp_capability_generation p) (mp_requested_marker_delivery_seq p))
  end.

Record MarkerProofState := mkMarkerProofState {
  mps_current_cursor : DeliverySeq;
  mps_accepted_marker_at_cursor : bool;
  mps_expected_marker_delivery_seq : option DeliverySeq;
  mps_proof_binding_epoch : BindingEpoch;
  mps_delivered_to_proof_epoch : option ParticipantCursorProgress;
}.
Record MarkerProofPermit := mkMarkerProofPermit {
  mpp_operation : MarkerProofInput;
  mpp_expected_marker_delivery_seq : DeliverySeq;
  mpp_proof_binding_epoch : BindingEpoch;
  mpp_progress : ParticipantCursorProgress;
}.
Inductive MarkerProofDecision :=
| MPD_AckNoOp (v : AckNoOp)
| MPD_MarkerMismatch (v : MarkerMismatch)
| MPD_MarkerNotDelivered (v : MarkerNotDelivered)
| MPD_Permit (p : MarkerProofPermit).

Definition select_marker_proof (state : MarkerProofState) (input : MarkerProofInput)
    : MarkerProofDecision :=
  let requested := requested_marker_delivery_seq input in
  let mismatch body := MPD_MarkerMismatch (mkMarkerMismatch (into_wire_request input) body) in
  let not_delivered expected :=
    MPD_MarkerNotDelivered (mkMarkerNotDelivered (into_wire_request input)
      MN_NotDeliveredToProofEpoch expected) in
  if requested <? mps_current_cursor state
  then mismatch (MMB_BelowCursor (mps_current_cursor state))
  else
    match (if (requested =? mps_current_cursor state) && mps_accepted_marker_at_cursor state
              && is_marker_ack input then mpi_marker_ack_envelope input else None) with
    | Some envelope => MPD_AckNoOp (ANO_MarkerAck envelope)
    | None =>
        match mps_expected_marker_delivery_seq state with
        | None => mismatch MMB_NoMarkerExpected
        | Some expected =>
            if negb (requested =? expected) then mismatch (MMB_ExpectedDifferentMarker expected)
            else
              match mps_delivered_to_proof_epoch state with
              | None => not_delivered expected
              | Some progress =>
                  if negb (cp_participant_id progress =? mpi_participant_id input)
                     || negb (bool_decide (cp_binding_epoch progress
                                           = mps_proof_binding_epoch state))
                     || negb (cp_through_seq progress =? expected)
                     || negb (bool_decide (cp_marker_delivery_seq progress = Some expected))
                     || negb (capability_generation (mps_proof_binding_epoch state)
                              =? mpi_capability_generation input)
                  then not_delivered expected
                  else MPD_Permit (mkMarkerProofPermit input expected
                                     (mps_proof_binding_epoch state) progress)
              end
        end
    end.

(** ** marker_ack.rs *)

Record MarkerAckCommit := mkMarkerAckCommit {
  mkc_outcome : MarkerAckCommitted;
  mkc_proof : MarkerProofPermit;
  mkc_cursor_update : LiveMemberCursorUpdate;
}.
Inductive MarkerAckCommitError :=
| MAE_Conversation (expected actual : ConversationId)
| MAE_Participant (expected actual : ParticipantId)
| MAE_Generation (expected actual : Generation)
| MAE_NonAdvancing (from_cursor resulting_cursor : DeliverySeq)
| MAE_CursorPrestate (expected_from_cursor resulting_cursor actual_cursor : DeliverySeq).
Definition MarkerAckCommitError_from_member_error (error : LiveMemberCursorUpdateError)
    : MarkerAckCommitError :=
  match error with
  | LCE_Conversation expected actual => MAE_Conversation expected actual
  | LCE_Participant expected actual => MAE_Participant expected actual
  | LCE_Generation expected actual => MAE_Generation expected actual
  | LCE_NonAdvancing from_cursor resulting_cursor => MAE_NonAdvancing from_cursor resulting_cursor
  | LCE_CursorPrestate expected_from_cursor resulting_cursor actual_cursor =>
      MAE_CursorPrestate expected_from_cursor resulting_cursor actual_cursor
  end.
Inductive MarkerAckDecision :=
| MAD_Respond (r : MarkerAckResponse)
| MAD_Commit (c : MarkerAckCommit).

Definition MarkerAckCommit_observer_progress_projection (c : MarkerAckCommit)
    : ObserverProgressProjection :=
  let request := mac_request (mkc_outcome c) in
  mkObserverProgressProjection (mae_conversation_id request) (mae_marker_delivery_seq request).
Definition canonical_request (c : MarkerAckCommit) : MarkerAck :=
  let request := mac_request (mkc_outcome c) in
  mkMarkerAck (mae_conversation_id request) (mae_participant_id request)
    (mae_capability_generation request) (mae_marker_delivery_seq request).
Definition MarkerAckCommit_progress_binding_fate_token (c : MarkerAckCommit)
    (token : SealedBindingFateToken) : result SealedBindingFateToken SealedBindingFateToken :=
  let request := mac_request (mkc_outcome c) in
  marker_ack_progressed token (mae_conversation_id request) (mae_participant_id request)
    (mpp_proof_binding_epoch (mkc_proof c)) (lcu_from_cursor (mkc_cursor_update c))
    (lcu_resulting_cursor (mkc_cursor_update c)).
Definition MarkerAckCommit_apply_to {F} (c : MarkerAckCommit) (member : LiveMember F)
    : LiveMember F * result MarkerAckCommitted MarkerAckCommitError :=
  match apply_cursor_update member (mkc_cursor_update c) with
  | (member, Ok _) => (member, Ok (mkc_outcome c))
  | (member, Err error) => (member, Err (MarkerAckCommitError_from_member_error error))
  end.

Definition marker_ack_envelope_of (request : MarkerAck) : MarkerAckEnvelope :=
  mkMarkerAckEnvelope (ma_conversation_id request) (ma_participant_id request)
    (ma_capability_generation request) (ma_marker_delivery_seq request).

Definition apply_marker_ack {EF V LF} (presented_identity : PresentedIdentity EF V LF)
    (binding : BindingState) (receiving_binding_epoch : BindingEpoch) (request : MarkerAck)
    (marker_state : MarkerProofState) : MarkerAckDecision :=
  match lookup_binding_required presented_identity binding (Some receiving_binding_epoch)
          (PBR_MarkerAck request) with
  | BLR_Retired outcome => MAD_Respond (MarkerAckResponse_from_retired outcome)
  | BLR_ParticipantUnknown outcome =>
      MAD_Respond (MarkerAckResponse_from_participant_unknown outcome)
  | BLR_StaleAuthority outcome => MAD_Respond (MarkerAckResponse_from_stale_authority outcome)
  | BLR_NoBinding outcome => MAD_Respond (MarkerAckResponse_from_no_binding outcome)
  | BLR_Authorized member active_binding =>
      let exact_state :=
        mkMarkerProofState (lm_cursor member) (mps_accepted_marker_at_cursor marker_state)
          (mps_expected_marker_delivery_seq marker_state) (bnd_binding_epoch active_binding)
          (mps_delivered_to_proof_epoch marker_state) in
      match select_marker_proof exact_state (marker_ack_input request) with
      | MPD_AckNoOp outcome => MAD_Respond (MarkerAckResponse_from_ack_no_op outcome)
      | MPD_MarkerMismatch outcome => MAD_Respond (MarkerAckResponse_from_marker_mismatch outcome)
      | MPD_MarkerNotDelivered outcome =>
          MAD_Respond (MarkerAckResponse_from_marker_not_delivered outcome)
      | MPD_Permit proof =>
          MAD_Commit (mkMarkerAckCommit (mkMarkerAckCommitted (marker_ack_envelope_of request)) proof
            (mkLiveMemberCursorUpdate (ma_conversation_id request) (ma_participant_id request)
               (ma_capability_generation request) (lm_cursor member)
               (ma_marker_delivery_seq request)))
      end
  end.

(** ** nonzero_participant_ack.rs *)

#[export] Instance FloorComputation_eq_dec : EqDecision FloorComputation.
Proof. solve_decision. Defined.
#[export] Instance DebtParticipantCursor_eq_dec : EqDecision DebtParticipantCursor.
Proof. solve_decision. Defined.
#[export] Instance NonzeroDebtCursorEpisode_eq_dec : EqDecision NonzeroDebtCursorEpisode.
Proof. solve_decision. Defined.

Inductive NonzeroAckEpisodePosition := NEP_Before | NEP_Resulting.
Record NonzeroParticipantAckCommit := mkNonzeroParticipantAckCommit {
  npc_outcome : AckCommitted;
  npc_from_cursor : DeliverySeq;
  npc_binding_epoch : BindingEpoch;
  npc_before_episode : NonzeroDebtCursorEpisode;
  npc_resulting_episode : NonzeroDebtCursorEpisode;
  npc_cursor_update : LiveMemberCursorUpdate;
}.
Inductive NonzeroParticipantAckCommitError :=
| NPE_Conversation (expected actual : ConversationId)
| NPE_Participant (expected actual : ParticipantId)
| NPE_Generation (expected actual : Generation)
| NPE_EpisodePrestate
| NPE_AggregateCursorPrestate (episode_position : NonzeroAckEpisodePosition)
    (expected_cursor actual_cursor : DeliverySeq)
| NPE_NonAdvancing (from_cursor resulting_cursor : DeliverySeq)
| NPE_CursorPrestate (expected_from_cursor resulting_cursor actual_cursor : DeliverySeq).
Definition NonzeroParticipantAckCommitError_from_member_error (error : LiveMemberCursorUpdateError)
    : NonzeroParticipantAckCommitError :=
  match error with
  | LCE_Conversation expected actual => NPE_Conversation expected actual
  | LCE_Participant expected actual => NPE_Participant expected actual
  | LCE_Generation expected actual => NPE_Generation expected actual
  | LCE_NonAdvancing from_cursor resulting_cursor => NPE_NonAdvancing from_cursor resulting_cursor
  | LCE_CursorPrestate expected_from_cursor resulting_cursor actual_cursor =>
      NPE_CursorPrestate expected_from_cursor resulting_cursor actual_cursor
  end.
Inductive NonzeroParticipantAckInvariantError :=
| NPI_Conversation (member episode : ConversationId)
| NPI_ParticipantMissing (participant_id : ParticipantId)
| NPI_Generation (member episode : Generation)
| NPI_Cursor (member episode : DeliverySeq)
| NPI_BindingEpoch (active episode : BindingEpoch)
| NPI_EpisodeTransition (error : CumulativeAckAuthorizationError).
Inductive NonzeroParticipantAckDecision :=
| NPD_Respond (r : ParticipantAckResponse)
| NPD_Invariant (e : NonzeroParticipantAckInvariantError)
| NPD_Commit (c : NonzeroParticipantAckCommit).

Definition NonzeroParticipantAckCommit_observer_progress_projection
    (c : NonzeroParticipantAckCommit) : ObserverProgressProjection :=
  let request := acm_request (npc_outcome c) in
  mkObserverProgressProjection (pae_conversation_id request) (pae_through_seq request).
Definition NonzeroParticipantAckCommit_progress_binding_fate_token (c : NonzeroParticipantAckCommit)
    (token : SealedBindingFateToken) : result SealedBindingFateToken SealedBindingFateToken :=
  let request := acm_request (npc_outcome c) in
  token_participant_ack_progressed token (pae_conversation_id request)
    (pae_participant_id request) (npc_binding_epoch c) (npc_from_cursor c)
    (pae_through_seq request).

(** The member and the episode left, and the result. *)
Definition NonzeroParticipantAckCommit_apply_to {F} (c : NonzeroParticipantAckCommit)
    (member : LiveMember F) (episode : NonzeroDebtCursorEpisode)
    : LiveMember F * NonzeroDebtCursorEpisode * result AckCommitted NonzeroParticipantAckCommitError :=
  let request := acm_request (npc_outcome c) in
  let refuse error := (member, episode, Err error) in
  if negb (lm_conversation_id member =? pae_conversation_id request)
  then refuse (NPE_Conversation (pae_conversation_id request) (lm_conversation_id member))
  else if negb (lm_participant_id member =? pae_participant_id request)
  then refuse (NPE_Participant (pae_participant_id request) (lm_participant_id member))
  else if negb (lm_generation member =? pae_capability_generation request)
  then refuse (NPE_Generation (pae_capability_generation request) (lm_generation member))
  else
    match (if bool_decide (episode = npc_before_episode c)
           then Some (NEP_Before, npc_from_cursor c)
           else if bool_decide (episode = npc_resulting_episode c)
           then Some (NEP_Resulting, pae_through_seq request) else None) with
    | None => refuse NPE_EpisodePrestate
    | Some (position, expected_cursor) =>
        if negb (lm_cursor member =? expected_cursor)
        then refuse (NPE_AggregateCursorPrestate position expected_cursor (lm_cursor member))
        else
          match apply_cursor_update member (npc_cursor_update c) with
          | (member, Err error) =>
              (member, episode, Err (NonzeroParticipantAckCommitError_from_member_error error))
          | (member, Ok _) =>
              (member, match position with NEP_Before => npc_resulting_episode c
                                         | NEP_Resulting => episode end, Ok (npc_outcome c))
          end
    end.

(** [participant]: the indexed cursor, when it is bound. *)
Definition episode_bound_participant (e : NonzeroDebtCursorEpisode)
    (participant_index : ParticipantIndex) : option BoundParticipantCursor :=
  participant ← ep_participants e !! participant_index;
  match dpc_binding participant with
  | FB_Bound epoch =>
      Some (mkBoundParticipantCursor (dpc_participant_id participant) epoch (dpc_cursor participant))
  | FB_Detached _ => None
  end.

Definition validate_aggregate {F} (member : LiveMember F) (active_binding_epoch : BindingEpoch)
    (episode : NonzeroDebtCursorEpisode) : result unit NonzeroParticipantAckInvariantError :=
  if negb (lm_conversation_id member =? ep_conversation_id episode)
  then Err (NPI_Conversation (lm_conversation_id member) (ep_conversation_id episode))
  else
    match episode_bound_participant episode (lm_participant_id member) with
    | None => Err (NPI_ParticipantMissing (lm_participant_id member))
    | Some participant =>
        let episode_generation := capability_generation (bpc_active_binding_epoch participant) in
        if negb (episode_generation =? lm_generation member)
        then Err (NPI_Generation (lm_generation member) episode_generation)
        else if negb (bpc_cursor participant =? lm_cursor member)
        then Err (NPI_Cursor (lm_cursor member) (bpc_cursor participant))
        else if negb (bool_decide (bpc_active_binding_epoch participant = active_binding_epoch))
        then Err (NPI_BindingEpoch active_binding_epoch (bpc_active_binding_epoch participant))
        else Ok tt
    end.

Inductive AckAvailability :=
| AA_Contiguous (available_through : DeliverySeq)
| AA_Obligations (obligations : RecipientAckObligations).

Section NonzeroAck.
Context {EF V LF : Type}.

Definition apply_nonzero_participant_ack_by_availability
    (presented_identity : PresentedIdentity EF V LF) (binding : BindingState)
    (receiving_binding_epoch : BindingEpoch) (request : ParticipantAck)
    (availability : AckAvailability) (episode : NonzeroDebtCursorEpisode)
    : NonzeroParticipantAckDecision :=
  match lookup_binding_required presented_identity binding (Some receiving_binding_epoch)
          (PBR_ParticipantAck request) with
  | BLR_Retired outcome => NPD_Respond (ParticipantAckResponse_from_retired outcome)
  | BLR_ParticipantUnknown outcome =>
      NPD_Respond (ParticipantAckResponse_from_participant_unknown outcome)
  | BLR_StaleAuthority outcome => NPD_Respond (ParticipantAckResponse_from_stale_authority outcome)
  | BLR_NoBinding outcome => NPD_Respond (ParticipantAckResponse_from_no_binding outcome)
  | BLR_Authorized member active_binding =>
      match validate_aggregate member (bnd_binding_epoch active_binding) episode with
      | Err error => NPD_Invariant error
      | Ok _ =>
          let selected :=
            match availability with
            | AA_Contiguous available_through =>
                acknowledge episode (lm_participant_id member) (bnd_binding_epoch active_binding)
                  request available_through
            | AA_Obligations obligations =>
                acknowledge_with_obligations episode (lm_participant_id member)
                  (bnd_binding_epoch active_binding) request obligations
            end in
          match selected with
          | (Err error, _) => NPD_Invariant (NPI_EpisodeTransition error)
          | (Ok (CAO_Committed outcome), resulting_episode) =>
              NPD_Commit (mkNonzeroParticipantAckCommit outcome (lm_cursor member)
                (bnd_binding_epoch active_binding) episode resulting_episode
                (mkLiveMemberCursorUpdate (pa_conversation_id request) (pa_participant_id request)
                   (pa_capability_generation request) (lm_cursor member) (pa_through_seq request)))
          | (Ok (CAO_NoOp outcome), _) =>
              NPD_Respond (ParticipantAckResponse_from_ack_no_op outcome)
          | (Ok (CAO_Gap outcome), _) => NPD_Respond (ParticipantAckResponse_ack_gap outcome)
          | (Ok (CAO_Regression outcome), _) =>
              NPD_Respond (ParticipantAckResponse_ack_regression outcome)
          end
      end
  end.

Definition apply_nonzero_participant_ack (presented_identity : PresentedIdentity EF V LF)
    (binding : BindingState) (receiving_binding_epoch : BindingEpoch) (request : ParticipantAck)
    (contiguously_available_through : DeliverySeq) (episode : NonzeroDebtCursorEpisode)
    : NonzeroParticipantAckDecision :=
  apply_nonzero_participant_ack_by_availability presented_identity binding receiving_binding_epoch
    request (AA_Contiguous contiguously_available_through) episode.

Definition apply_nonzero_participant_ack_with_obligations
    (presented_identity : PresentedIdentity EF V LF) (binding : BindingState)
    (receiving_binding_epoch : BindingEpoch) (request : ParticipantAck)
    (obligations : RecipientAckObligations) (episode : NonzeroDebtCursorEpisode)
    : NonzeroParticipantAckDecision :=
  apply_nonzero_participant_ack_by_availability presented_identity binding receiving_binding_epoch
    request (AA_Obligations obligations) episode.
End NonzeroAck.

Definition scalar_audit_for_recipient_endpoint (obligations : RecipientAckObligations)
    (participant_id : ParticipantId) (acknowledged_through endpoint scalar_audit : DeliverySeq)
    : result (option DeliverySeq) RecipientAckObligationsContextError :=
  let? testified := contains_endpoint obligations participant_id acknowledged_through endpoint in
  Ok (if testified then Some scalar_audit else None).
