(* ===== verification/Frontier.v ===== *)
(** * Claim frontiers: data

    Model of the data half of [liminal-protocol/src/lifecycle/claim_frontier.rs]: who
    owns which reserved delivery sequence and which reserved transaction order, the
    compact product ranges whose single positions are computed from ranks, the
    retained causal records and the frontiers that hold them.  A [Vec] is a list;
    [sort_by_key] is a stable merge sort; [binary_search_by_key] bisects. *)
From stdpp Require Import sorting.
From S2P Require Import Prelude Algebra Tags Wire Response Order Sequence Edge Binding Member Attach.

(** ** Errors *)

Inductive ClaimFrontierCounter := CFC_DeliverySequence | CFC_TransactionOrder.

Inductive ClaimFrontierInvalidReason :=
| CFI_NumericPosition | CFI_CandidateKey | CFI_LogicalOwner | CFI_ProductRange
| CFI_RecoveryBlock | CFI_AggregateLedger.

Record ClaimFrontierError := mkClaimFrontierError {
  cfe_counter : ClaimFrontierCounter;
  cfe_first_bad_position : Z;
  cfe_reason : ClaimFrontierInvalidReason;
}.

Definition frontier_error := mkClaimFrontierError.
Definition sequence_error (first_bad_position : Z) (reason : ClaimFrontierInvalidReason)
    : ClaimFrontierError := frontier_error CFC_DeliverySequence first_bad_position reason.
Definition order_error (first_bad_position : Z) (reason : ClaimFrontierInvalidReason)
    : ClaimFrontierError := frontier_error CFC_TransactionOrder first_bad_position reason.

Inductive ClaimCounter := CC_DeliverySeq | CC_TransactionOrder.

Inductive ParticipantStateCorruptReason :=
| PSC_DuplicateCandidateKey (transaction_order : TransactionOrder)
    (candidate_phase : CandidatePhase) (participant_index : ParticipantIndex)
| PSC_ClaimFrontierInvalid (counter : ClaimCounter) (first_bad_position : Z).

Definition corrupt_frontier (e : ClaimFrontierError) : ParticipantStateCorruptReason :=
  PSC_ClaimFrontierInvalid
    (match cfe_counter e with
     | CFC_DeliverySequence => CC_DeliverySeq
     | CFC_TransactionOrder => CC_TransactionOrder
     end) (cfe_first_bad_position e).

(** ** Numbers and orders *)

(** A length is at most [isize::MAX], so the conversions of [usize] are exact. *)
Definition zlen {A} (l : list A) : Z := Z.of_nat (length l).
Definition saturating_add_u128 (a b : Z) : Z := Z.min u128_max (a + b).
Definition saturating_mul_u128 (a b : Z) : Z := Z.min u128_max (a * b).

(** The derived [Ord] of a struct of integers: lexicographic in its fields. *)
Fixpoint lex_leb (a b : list Z) : bool :=
  match a, b with
  | [], _ => true
  | _ :: _, [] => false
  | x :: a, y :: b => (x <? y) || (x =? y) && lex_leb a b
  end.
Definition phase_rank (p : CandidatePhase) : Z :=
  match p with
  | CP_BindingTerminal => 0 | CP_MembershipExit => 1 | CP_AttachLifecycle => 2
  | CP_OrdinaryRecord => 3 | CP_CompactionMarker => 4
  end.
Definition ao_key (o : AdmissionOrder) : list Z :=
  [ao_transaction_order o; phase_rank (ao_candidate_phase o); ao_participant_index o].
Definition ao_le (a b : AdmissionOrder) : Prop := lex_leb (ao_key a) (ao_key b) = true.
#[export] Instance ao_le_dec : RelDecision ao_le.
Proof. intros ??. unfold ao_le. apply _. Defined.
(** [a < b], by the total order. *)
Definition ao_ltb (a b : AdmissionOrder) : bool := negb (lex_leb (ao_key b) (ao_key a)).
(** [previous.is_some_and(|previous| previous >= order)]. *)
Definition not_before (previous : option AdmissionOrder) (order : AdmissionOrder) : bool :=
  match previous with Some previous => negb (ao_ltb previous order) | None => false end.

(** Sorting by a numeric key. *)
Definition key_order {A} (key : A -> Z) (a b : A) : Prop := key a <= key b.
#[export] Instance key_order_dec {A} (key : A -> Z) : RelDecision (key_order key).
Proof. intros ??. unfold key_order. apply _. Defined.
Definition sort_by_key {A} (key : A -> Z) (l : list A) : list A := merge_sort (key_order key) l.

(** [slice::binary_search_by(..).ok()]: the position found in a sorted slice. *)
Fixpoint bisect_by {A} (cmp : A -> comparison) (fuel base : nat) (l : list A) : option nat :=
  match fuel with
  | O => None
  | S fuel =>
      let mid := Nat.div2 (length l) in
      match drop mid l with
      | [] => None
      | m :: upper =>
          match cmp m with
          | Eq => Some (base + mid)%nat
          | Lt => bisect_by cmp fuel (S (base + mid)) upper
          | Gt => bisect_by cmp fuel base (take mid l)
          end
      end
  end.
Definition binary_search_by {A} (cmp : A -> comparison) (l : list A) : option nat :=
  bisect_by cmp (S (length l)) 0 l.
Definition binary_search_by_key {A} (key : A -> Z) (l : list A) (target : Z) : option nat :=
  binary_search_by (fun m => key m ?= target) l.
(** [binary_search] of admission orders. *)
Definition binary_search_order (l : list AdmissionOrder) (target : AdmissionOrder) : option nat :=
  binary_search_by (fun m => if bool_decide (m = target) then Eq
                             else if ao_ltb m target then Lt else Gt) l.

(** ** Active identities *)

Record ActiveIdentityRanks := mkActiveIdentityRanks {
  air_participants : list FrontierParticipant;
}.

Fixpoint ranks_from (rank : Z) (previous : option ParticipantId)
    (participants : list FrontierParticipant) (high_watermark : DeliverySeq)
    (identity_slot_limit : Z) : result unit ClaimFrontierError :=
  match participants with
  | [] => Ok tt
  | participant :: rest =>
      if match previous with
         | Some value => fp_participant_index participant <=? value
         | None => false
         end
         || (identity_slot_limit <=? fp_participant_index participant)
         || (high_watermark <? fp_cursor participant)
      then Err (sequence_error rank CFI_LogicalOwner)
      else ranks_from (rank + 1) (Some (fp_participant_index participant)) rest high_watermark
             identity_slot_limit
  end.

Definition ActiveIdentityRanks_try_new (participants : list FrontierParticipant)
    (high_watermark : DeliverySeq) (identity_slot_limit : Z)
    : result ActiveIdentityRanks ClaimFrontierError :=
  if identity_slot_limit <? zlen participants
  then Err (sequence_error identity_slot_limit CFI_LogicalOwner)
  else
    let? _ := ranks_from 0 None participants high_watermark identity_slot_limit in
    Ok (mkActiveIdentityRanks participants).

Definition air_len (a : ActiveIdentityRanks) : Z := zlen (air_participants a).

Definition air_contains (a : ActiveIdentityRanks) (participant_index : ParticipantId) : bool :=
  is_some (binary_search_by_key fp_participant_index (air_participants a) participant_index).

Definition active_participant (a : ActiveIdentityRanks) (participant_index : ParticipantId)
    : option FrontierParticipant :=
  index ← binary_search_by_key fp_participant_index (air_participants a) participant_index;
  air_participants a !! index.

Definition frontier_binding_epoch (b : FrontierBinding) : BindingEpoch :=
  match b with FB_Bound epoch | FB_Detached epoch => epoch end.

(** ** Owners *)

Record BindingTerminalOwner := mkBindingTerminalOwner {
  bto_participant_index : ParticipantId;
  bto_binding_epoch : BindingEpoch;
}.
#[export] Instance BindingTerminalOwner_eq_dec : EqDecision BindingTerminalOwner.
Proof. unfold ParticipantId in *. solve_decision. Defined.

Definition owner_key (o : BindingTerminalOwner) : list Z :=
  [bto_participant_index o; server_incarnation (connection_incarnation (bto_binding_epoch o));
   connection_ordinal (connection_incarnation (bto_binding_epoch o));
   capability_generation (bto_binding_epoch o)].
Definition owner_le (a b : BindingTerminalOwner) : Prop :=
  lex_leb (owner_key a) (owner_key b) = true.
#[export] Instance owner_le_dec : RelDecision owner_le.
Proof. intros ??. unfold owner_le. apply _. Defined.

Inductive SequenceDirectOwner :=
| SDO_MembershipExit (participant_index : ParticipantId)
| SDO_BindingTerminal (owner : BindingTerminalOwner).

Record MovableSequenceClaim := mkMovableSequenceClaim {
  msc_delivery_seq : DeliverySeq;
  msc_owner : SequenceDirectOwner;
}.

Inductive TerminalProductSource :=
| TPS_Binding (owner : BindingTerminalOwner)
| TPS_RecoveryReplacement (participant_index : ParticipantId) (binding_epoch : BindingEpoch).

Inductive MarkerProvenance :=
| MP_NonProductM
| MP_TerminalProduct (terminal : TerminalProductSource) (affected_participant : ParticipantId)
| MP_ExitProduct (exit_participant remaining_participant : ParticipantId).

Definition marker_provenance_targets (p : MarkerProvenance) (target : ParticipantId) : bool :=
  match p with
  | MP_NonProductM => true
  | MP_TerminalProduct _ affected => affected =? target
  | MP_ExitProduct exit_participant remaining =>
      negb (exit_participant =? remaining) && (remaining =? target)
  end.

Inductive RetainedCausalRecordKind :=
| RCK_BindingTerminal (owner : BindingTerminalOwner)
| RCK_MembershipExit (participant_index : ParticipantId)
| RCK_AttachLifecycle (participant_index : ParticipantId) (binding_epoch : BindingEpoch)
| RCK_OrdinaryRecord (participant_index : ParticipantId)
| RCK_CompactionMarker (participant_index : ParticipantId) (provenance : MarkerProvenance).

Record RetainedCausalRecord := mkRetainedCausalRecord {
  rcr_delivery_seq : DeliverySeq;
  rcr_admission_order : AdmissionOrder;
  rcr_kind : RetainedCausalRecordKind;
}.

#[export] Instance TerminalProductSource_eq_dec : EqDecision TerminalProductSource.
Proof. unfold ParticipantId in *. solve_decision. Defined.
#[export] Instance MarkerProvenance_eq_dec : EqDecision MarkerProvenance.
Proof. unfold ParticipantId in *. solve_decision. Defined.
#[export] Instance RetainedCausalRecordKind_eq_dec : EqDecision RetainedCausalRecordKind.
Proof. unfold ParticipantId in *. solve_decision. Defined.

Inductive SequenceProductClass :=
| SPC_LiveTimesTerminal | SPC_LiveTimesReplacementTerminal | SPC_OtherLiveTimesExit.
#[export] Instance SequenceProductClass_eq_dec : EqDecision SequenceProductClass.
Proof. solve_decision. Defined.
Inductive MarkerSequenceOwner := MSO_Marker | MSO_ConditionalProduct (class : SequenceProductClass).
#[export] Instance MarkerSequenceOwner_eq_dec : EqDecision MarkerSequenceOwner.
Proof. solve_decision. Defined.

Record MarkerCandidateAuthority := mkMarkerCandidateAuthority {
  mca_delivery_seq : DeliverySeq;
  mca_admission_order : AdmissionOrder;
  mca_target_binding : FrontierBinding;
  mca_provenance : MarkerProvenance;
  mca_abandoned_after : DeliverySeq;
  mca_abandoned_through : DeliverySeq;
  mca_physical_floor_at_decision : DeliverySeq;
  mca_current_owner : MarkerSequenceOwner;
}.

Inductive ImmutableSequenceCandidate :=
| ISC_BindingTerminal (delivery_seq : DeliverySeq) (admission_order : AdmissionOrder)
    (owner : BindingTerminalOwner)
| ISC_Marker (candidate : MarkerCandidateAuthority).

Definition isc_delivery_seq (c : ImmutableSequenceCandidate) : DeliverySeq :=
  match c with
  | ISC_BindingTerminal delivery_seq _ _ => delivery_seq
  | ISC_Marker candidate => mca_delivery_seq candidate
  end.
Definition isc_admission_order (c : ImmutableSequenceCandidate) : AdmissionOrder :=
  match c with
  | ISC_BindingTerminal _ admission_order _ => admission_order
  | ISC_Marker candidate => mca_admission_order candidate
  end.

(** ** Product ranges

    [length] consecutive sequences reserved for one terminal or exit, one for each
    affected live identity; the sequence of one identity is computed from its rank. *)

Definition checked_rank_value (start : DeliverySeq) (active_rank : nat) : option DeliverySeq :=
  checked_add u64_max start (Z.of_nat active_rank).

Record TerminalProductRange := mkTerminalProductRange {
  tpr_start : DeliverySeq;
  tpr_length : Z;
  tpr_terminal : BindingTerminalOwner;
}.
Definition tpr_value_at_rank (r : TerminalProductRange) (active_rank : nat) : option DeliverySeq :=
  if tpr_length r <=? Z.of_nat active_rank then None
  else checked_rank_value (tpr_start r) active_rank.

Record ReplacementTerminalProductRange := mkReplacementTerminalProductRange {
  rpr_start : DeliverySeq;
  rpr_length : Z;
  rpr_participant_index : ParticipantId;
  rpr_marker_delivery_seq : DeliverySeq;
  rpr_prior_binding_epoch : BindingEpoch;
}.
Definition rpr_value_at_rank (r : ReplacementTerminalProductRange) (active_rank : nat)
    : option DeliverySeq :=
  if rpr_length r <=? Z.of_nat active_rank then None
  else checked_rank_value (rpr_start r) active_rank.

Record ExitProductRange := mkExitProductRange {
  epr_start : DeliverySeq;
  epr_length : Z;
  epr_exit_participant : ParticipantId;
}.
Definition epr_value_for_affected_rank (r : ExitProductRange) (a : ActiveIdentityRanks)
    (affected_rank : nat) : option DeliverySeq :=
  affected ← air_participants a !! affected_rank;
  if fp_participant_index affected =? epr_exit_participant r then None
  else
    exit_rank ← binary_search_by_key fp_participant_index (air_participants a)
                  (epr_exit_participant r);
    let compact_rank :=
      if (affected_rank <? exit_rank)%nat then affected_rank else Nat.pred affected_rank in
    if epr_length r <=? Z.of_nat compact_rank then None
    else checked_rank_value (epr_start r) compact_rank.

Record SequenceProductRanges := mkSequenceProductRanges {
  spr_live_times_terminal : list TerminalProductRange;
  spr_live_times_replacement_terminal : option ReplacementTerminalProductRange;
  spr_other_live_times_exit : list ExitProductRange;
}.

(** ** The delivery-sequence frontier *)

Record RecoverySequenceTerminalRestore := mkRecoverySequenceTerminal {
  rst_delivery_seq : DeliverySeq;
  rst_owner : BindingTerminalOwner;
}.
Record RecoverySequenceBlock := mkRecoverySequenceBlock {
  rsb_terminal : option RecoverySequenceTerminalRestore;
  rsb_recovery_attach_seq : DeliverySeq;
  rsb_replacement_terminal_seq : DeliverySeq;
  rsb_participant_index : ParticipantId;
  rsb_marker_delivery_seq : DeliverySeq;
  rsb_recovered_binding_epoch : BindingEpoch;
}.
Definition block_start_validated_sequence (b : RecoverySequenceBlock) : DeliverySeq :=
  match rsb_terminal b with
  | Some terminal => rst_delivery_seq terminal
  | None => rsb_recovery_attach_seq b
  end.

Record SequenceClaimFrontier := mkSequenceClaimFrontier {
  scf_ledger : SequenceLedger;
  scf_movable_claims : list MovableSequenceClaim;
  scf_immutable_candidates : list ImmutableSequenceCandidate;
  scf_products : SequenceProductRanges;
  scf_recovery : option RecoverySequenceBlock;
}.

(** ** The transaction-order frontier *)

Inductive OrderDirectOwner :=
| ODO_ActiveBindingTerminal (owner : BindingTerminalOwner)
| ODO_MembershipExit (participant_index : ParticipantId).
#[export] Instance OrderDirectOwner_eq_dec : EqDecision OrderDirectOwner.
Proof. unfold ParticipantId in *. solve_decision. Defined.

Record MovableOrderClaim := mkMovableOrderClaim {
  moc_transaction_order : TransactionOrder;
  moc_owner : OrderDirectOwner;
}.
Record ImmutableOrderCandidateMajor := mkImmutableOrderCandidateMajor {
  icm_transaction_order : TransactionOrder;
  icm_candidate_keys : list AdmissionOrder;
}.
Record RecoveryOrderActiveBindingRestore := mkRecoveryOrderActiveBinding {
  roa_transaction_order : TransactionOrder;
  roa_owner : BindingTerminalOwner;
}.
Record RecoveryOrderBlock := mkRecoveryOrderBlock {
  rob_active_binding : option RecoveryOrderActiveBindingRestore;
  rob_recovery_operation_order : TransactionOrder;
  rob_replacement_terminal_order : TransactionOrder;
  rob_participant_index : ParticipantId;
  rob_marker_delivery_seq : DeliverySeq;
  rob_recovered_binding_epoch : BindingEpoch;
}.
Definition block_start_validated_order (b : RecoveryOrderBlock) : TransactionOrder :=
  match rob_active_binding b with
  | Some active => roa_transaction_order active
  | None => rob_recovery_operation_order b
  end.

Record OrderClaimFrontier := mkOrderClaimFrontier {
  ocf_ledger : OrderLedger;
  ocf_movable_claims : list MovableOrderClaim;
  ocf_immutable_candidates : list ImmutableOrderCandidateMajor;
  ocf_recovery : option RecoveryOrderBlock;
}.

Definition order_frontier_start (high : OrderHigh) : Z :=
  match high with OH_Empty => 0 | OH_Allocated high => add_u128 high 1 end.
Definition order_is_above_high (value : TransactionOrder) (high : OrderHigh) : bool :=
  match high with OH_Empty => true | OH_Allocated high => high <? value end.
Definition sequence_ordinal (ledger : SequenceLedger) (value : DeliverySeq) : Z :=
  saturating_sub value (add_u128 (sl_high_watermark ledger) 1).
Definition order_ordinal (ledger : OrderLedger) (value : TransactionOrder) : Z :=
  saturating_sub value (order_frontier_start (ol_high ledger)).

(** ** The frontiers of a conversation *)

Record ClaimFrontiers := mkClaimFrontiers {
  cf_conversation_id : ConversationId;
  cf_active_identities : ActiveIdentityRanks;
  cf_identity_slot_limit : Z;
  cf_retained_floor : Z;
  cf_retained_records : list RetainedCausalRecord;
  cf_marker_records : list RetainedCausalRecord;
  cf_fenced_marker_issued : option (ParticipantId * DeliverySeq * BindingEpoch);
  cf_sequence : SequenceClaimFrontier;
  cf_order : OrderClaimFrontier;
}.

Definition is_compaction_marker (r : RetainedCausalRecord) : bool :=
  match rcr_kind r with RCK_CompactionMarker _ _ => true | _ => false end.
Definition select_retained_marker_records (records : list RetainedCausalRecord)
    : list RetainedCausalRecord := List.filter is_compaction_marker records.

(** The retained marker records the owner has not accepted yet. *)
Definition ordinary_unaccepted_marker_anchors (f : ClaimFrontiers) : list DeliverySeq :=
  omap (fun record =>
    match rcr_kind record with
    | RCK_CompactionMarker participant_index _ =>
        match active_participant (cf_active_identities f) participant_index with
        | Some participant =>
            if fp_cursor participant <? rcr_delivery_seq record
            then Some (rcr_delivery_seq record) else None
        | None => None
        end
    | _ => None
    end) (cf_marker_records f).

Definition unaccepted_marker_anchor_count (f : ClaimFrontiers) : Z :=
  zlen (ordinary_unaccepted_marker_anchors f).
Definition is_marker_candidate (c : ImmutableSequenceCandidate) : bool :=
  match c with ISC_Marker _ => true | ISC_BindingTerminal _ _ _ => false end.
Definition pending_marker_candidate_count (f : ClaimFrontiers) : Z :=
  zlen (List.filter is_marker_candidate (scf_immutable_candidates (cf_sequence f))).
