(* ===== verification/FrontierNumeric.v ===== *)
(** * Claim frontiers: the numeric sweep

    The durable shapes of the two frontiers of
    [liminal-protocol/src/lifecycle/claim_frontier.rs] and the validation of their
    positions: every claim, candidate and range is a segment of its counter; a sweep
    over the ends of the segments checks that they cover one interval without a gap or
    an overlap, that immutable candidates come first, and that each class owns as many
    positions as the ledger says.

    [numeric_exact] shows what the sweep decides: the positions of all segments are a
    permutation of one interval. *)
From stdpp Require Import sorting.
From S2P Require Import Prelude Algebra Tags Wire Response Order Sequence Edge Binding Frontier.

(** ** Durable shapes *)

Record TerminalProductRangeRestore := mkTerminalProductRangeRestore {
  tprr_start : DeliverySeq;
  tprr_length : Z;
  tprr_terminal : BindingTerminalOwner;
}.
Record ReplacementTerminalProductRangeRestore := mkReplacementTerminalProductRangeRestore {
  rprr_start : DeliverySeq;
  rprr_length : Z;
}.
Record ExitProductRangeRestore := mkExitProductRangeRestore {
  eprr_start : DeliverySeq;
  eprr_length : Z;
  eprr_exit_participant : ParticipantId;
}.
Record SequenceProductRangesRestore := mkSequenceProductRangesRestore {
  sprr_live_times_terminal : list TerminalProductRangeRestore;
  sprr_live_times_replacement_terminal : option ReplacementTerminalProductRangeRestore;
  sprr_other_live_times_exit : list ExitProductRangeRestore;
}.
Record RecoverySequenceBlockRestore := mkRecoverySequenceBlockRestore {
  rsbr_terminal : option RecoverySequenceTerminalRestore;
  rsbr_recovery_attach_seq : DeliverySeq;
  rsbr_replacement_terminal_seq : DeliverySeq;
}.
Record SequenceClaimFrontierRestore := mkSequenceClaimFrontierRestore {
  scfr_movable_claims : list MovableSequenceClaim;
  scfr_immutable_candidates : list ImmutableSequenceCandidate;
  scfr_products : SequenceProductRangesRestore;
  scfr_recovery : option RecoverySequenceBlockRestore;
}.
Record ImmutableOrderCandidateMajorRestore := mkImmutableOrderCandidateMajorRestore {
  icmr_transaction_order : TransactionOrder;
  icmr_candidate_keys : list AdmissionOrder;
}.
Record RecoveryOrderBlockRestore := mkRecoveryOrderBlockRestore {
  robr_active_binding : option RecoveryOrderActiveBindingRestore;
  robr_recovery_operation_order : TransactionOrder;
  robr_replacement_terminal_order : TransactionOrder;
}.
Record OrderClaimFrontierRestore := mkOrderClaimFrontierRestore {
  ocfr_movable_claims : list MovableOrderClaim;
  ocfr_immutable_candidates : list ImmutableOrderCandidateMajorRestore;
  ocfr_recovery : option RecoveryOrderBlockRestore;
}.

Definition block_start_sequence (b : RecoverySequenceBlockRestore) : DeliverySeq :=
  match rsbr_terminal b with
  | Some terminal => rst_delivery_seq terminal
  | None => rsbr_recovery_attach_seq b
  end.
Definition block_start_order (b : RecoveryOrderBlockRestore) : TransactionOrder :=
  match robr_active_binding b with
  | Some active => roa_transaction_order active
  | None => robr_recovery_operation_order b
  end.

(** ** Segments *)

Inductive SequenceClass :=
| SC_Exit | SC_Terminal | SC_Marker | SC_RecoveryAttach | SC_RecoveryReplacementTerminal
| SC_LiveTimesTerminal | SC_LiveTimesReplacementTerminal | SC_OtherLiveTimesExit.
Inductive OrderClass :=
| OC_ActiveBindingTerminal | OC_MembershipExit | OC_RecoveryOperation
| OC_RecoveryReplacementTerminal.

(** [Into<usize>]: where the class is counted. *)
Class SegmentClass (C : Type) := { class_index : C -> nat }.
#[export] Instance sequence_class : SegmentClass SequenceClass := {|
  class_index c :=
    match c with
    | SC_Exit => 0 | SC_Terminal => 1 | SC_Marker => 2 | SC_RecoveryAttach => 3
    | SC_RecoveryReplacementTerminal => 4 | SC_LiveTimesTerminal => 5
    | SC_LiveTimesReplacementTerminal => 6 | SC_OtherLiveTimesExit => 7
    end%nat |}.
#[export] Instance order_class : SegmentClass OrderClass := {|
  class_index c :=
    match c with
    | OC_ActiveBindingTerminal => 0 | OC_MembershipExit => 1 | OC_RecoveryOperation => 2
    | OC_RecoveryReplacementTerminal => 3
    end%nat |}.

Record NumericSegment (C : Type) := mkNumericSegment {
  ns_start : Z;
  ns_length : Z;
  ns_class : option C;
  ns_immutable : bool;
}.
Arguments mkNumericSegment {C}.
Arguments ns_start {C} _.
Arguments ns_length {C} _.
Arguments ns_class {C} _.
Arguments ns_immutable {C} _.

Definition sequence_candidate_class (c : ImmutableSequenceCandidate) : SequenceClass :=
  match c with
  | ISC_BindingTerminal _ _ _ => SC_Terminal
  | ISC_Marker marker =>
      match mca_current_owner marker with
      | MSO_Marker => SC_Marker
      | MSO_ConditionalProduct SPC_LiveTimesTerminal => SC_LiveTimesTerminal
      | MSO_ConditionalProduct SPC_LiveTimesReplacementTerminal => SC_LiveTimesReplacementTerminal
      | MSO_ConditionalProduct SPC_OtherLiveTimesExit => SC_OtherLiveTimesExit
      end
  end.

Definition option_list {A} (o : option A) : list A :=
  match o with Some a => [a] | None => [] end.

Definition movable_sequence_segment (claim : MovableSequenceClaim) : NumericSegment SequenceClass :=
  mkNumericSegment (msc_delivery_seq claim) 1
    (Some (match msc_owner claim with
           | SDO_MembershipExit _ => SC_Exit
           | SDO_BindingTerminal _ => SC_Terminal
           end)) false.
Definition candidate_segment (c : ImmutableSequenceCandidate) : NumericSegment SequenceClass :=
  mkNumericSegment (isc_delivery_seq c) 1 (Some (sequence_candidate_class c)) true.
Definition recovery_sequence_segments (r : RecoverySequenceBlockRestore)
    : list (NumericSegment SequenceClass) :=
  map (fun t => mkNumericSegment (rst_delivery_seq t) 1 (Some SC_Terminal) false)
    (option_list (rsbr_terminal r))
  ++ [mkNumericSegment (rsbr_recovery_attach_seq r) 1 (Some SC_RecoveryAttach) false;
      mkNumericSegment (rsbr_replacement_terminal_seq r) 1
        (Some SC_RecoveryReplacementTerminal) false].

Definition sequence_segments (r : SequenceClaimFrontierRestore)
    : list (NumericSegment SequenceClass) :=
  map movable_sequence_segment (scfr_movable_claims r)
  ++ map candidate_segment (scfr_immutable_candidates r)
  ++ map (fun p => mkNumericSegment (tprr_start p) (tprr_length p)
                     (Some SC_LiveTimesTerminal) false)
       (sprr_live_times_terminal (scfr_products r))
  ++ map (fun p => mkNumericSegment (rprr_start p) (rprr_length p)
                     (Some SC_LiveTimesReplacementTerminal) false)
       (option_list (sprr_live_times_replacement_terminal (scfr_products r)))
  ++ map (fun p => mkNumericSegment (eprr_start p) (eprr_length p)
                     (Some SC_OtherLiveTimesExit) false)
       (sprr_other_live_times_exit (scfr_products r))
  ++ concat (map recovery_sequence_segments (option_list (scfr_recovery r))).

Definition movable_order_segment (claim : MovableOrderClaim) : NumericSegment OrderClass :=
  mkNumericSegment (moc_transaction_order claim) 1
    (Some (match moc_owner claim with
           | ODO_ActiveBindingTerminal _ => OC_ActiveBindingTerminal
           | ODO_MembershipExit _ => OC_MembershipExit
           end)) false.
Definition recovery_order_segments (r : RecoveryOrderBlockRestore)
    : list (NumericSegment OrderClass) :=
  map (fun a => mkNumericSegment (roa_transaction_order a) 1 (Some OC_ActiveBindingTerminal) false)
    (option_list (robr_active_binding r))
  ++ [mkNumericSegment (robr_recovery_operation_order r) 1 (Some OC_RecoveryOperation) false;
      mkNumericSegment (robr_replacement_terminal_order r) 1
        (Some OC_RecoveryReplacementTerminal) false].

(** Candidate majors at or below the allocated high own no position any more. *)
Definition order_segments (r : OrderClaimFrontierRestore) (high : OrderHigh)
    : list (NumericSegment OrderClass) :=
  map movable_order_segment (ocfr_movable_claims r)
  ++ map (fun c => mkNumericSegment (icmr_transaction_order c) 1 None true)
       (List.filter (fun c => order_is_above_high (icmr_transaction_order c) high)
          (ocfr_immutable_candidates r))
  ++ concat (map recovery_order_segments (option_list (ocfr_recovery r))).

Definition order_frontier_candidate_count (r : OrderClaimFrontierRestore) (high : OrderHigh) : Z :=
  zlen (List.filter (fun c => order_is_above_high (icmr_transaction_order c) high)
          (ocfr_immutable_candidates r)).

(** ** The sweep *)

Fixpoint numeric_events {C} (counter : ClaimFrontierCounter) (first_value : Z)
    (segments : list (NumericSegment C)) : result (list (Z * Z)) ClaimFrontierError :=
  let counter_limit := add_u128 u64_max 1 in
  match segments with
  | [] => Ok []
  | segment :: rest =>
      if ns_length segment =? 0 then numeric_events counter first_value rest
      else
        match checked_add u128_max (ns_start segment) (ns_length segment) with
        | None => Err (frontier_error counter (saturating_sub counter_limit first_value)
                         CFI_NumericPosition)
        | Some stop =>
            if ns_start segment <? first_value
            then Err (frontier_error counter 0 CFI_NumericPosition)
            else if counter_limit <? stop
            then Err (frontier_error counter (saturating_sub counter_limit first_value)
                        CFI_NumericPosition)
            else
              let? events := numeric_events counter first_value rest in
              Ok ((ns_start segment, 1) :: (stop, -1) :: events)
        end
  end.

(** The two nested loops as one: an event at the coordinate only changes the coverage,
    one beyond it first closes the stretch in between.  No event lies before the
    coordinate ([numeric_events] refuses those). *)
Fixpoint scan_events (counter : ClaimFrontierCounter) (coordinate coverage emitted : Z)
    (events : list (Z * Z)) : result Z ClaimFrontierError :=
  match events with
  | [] =>
      if negb (coverage =? 0) then Err (frontier_error counter emitted CFI_NumericPosition)
      else Ok emitted
  | (event_coordinate, delta) :: rest =>
      if coordinate <? event_coordinate then
        if coverage =? 0 then Err (frontier_error counter emitted CFI_NumericPosition)
        else if 1 <? coverage
        then Err (frontier_error counter (saturating_add_u128 emitted 1) CFI_NumericPosition)
        else scan_events counter event_coordinate (coverage + delta)
               (saturating_add_u128 emitted (event_coordinate - coordinate)) rest
      else scan_events counter coordinate (coverage + delta) emitted rest
  end.

Definition scan_numeric_events (counter : ClaimFrontierCounter) (first_value : Z)
    (events : list (Z * Z)) : result Z ClaimFrontierError :=
  scan_events counter first_value 0 0 (sort_by_key fst events).

Fixpoint immutable_prefix {C} (counter : ClaimFrontierCounter) (first_value : Z)
    (first_movable : option Z) (segments : list (NumericSegment C))
    : result unit ClaimFrontierError :=
  match segments with
  | [] => Ok tt
  | segment :: rest =>
      if ns_length segment =? 0 then immutable_prefix counter first_value first_movable rest
      else if ns_immutable segment then
        match first_movable with
        | Some first_movable => Err (frontier_error counter first_movable CFI_NumericPosition)
        | None => immutable_prefix counter first_value None rest
        end
      else immutable_prefix counter first_value
             (match first_movable with
              | Some _ => first_movable
              | None => Some (ns_start segment - first_value)
              end) rest
  end.
Definition validate_immutable_prefix {C} (counter : ClaimFrontierCounter) (first_value : Z)
    (segments : list (NumericSegment C)) : result unit ClaimFrontierError :=
  immutable_prefix counter first_value None segments.

Fixpoint class_counts {C} `{!SegmentClass C} (counter : ClaimFrontierCounter)
    (expected_counts actual_counts : list Z) (class_ordinal : Z)
    (segments : list (NumericSegment C)) : result (list Z) ClaimFrontierError :=
  match segments with
  | [] => Ok actual_counts
  | segment :: rest =>
      if ns_length segment =? 0
      then class_counts counter expected_counts actual_counts class_ordinal rest
      else
        let class_ordinal' := class_ordinal + ns_length segment in
        match ns_class segment with
        | None => class_counts counter expected_counts actual_counts class_ordinal' rest
        | Some class =>
            let index := class_index class in
            let prior := nth index actual_counts 0 in
            let expected := nth index expected_counts 0 in
            match checked_add u128_max prior (ns_length segment) with
            | None => Err (frontier_error counter class_ordinal CFI_AggregateLedger)
            | Some resulting =>
                if expected <? resulting
                then Err (frontier_error counter (class_ordinal + saturating_sub expected prior)
                            CFI_AggregateLedger)
                else class_counts counter expected_counts (<[index := resulting]> actual_counts)
                       class_ordinal' rest
            end
        end
  end.
Definition validate_segment_class_counts {C} `{!SegmentClass C} (counter : ClaimFrontierCounter)
    (expected_length : Z) (segments : list (NumericSegment C)) (expected_counts : list Z)
    : result unit ClaimFrontierError :=
  let? actual_counts :=
    class_counts counter expected_counts (replicate (length expected_counts) 0) 0 segments in
  if negb (bool_decide (actual_counts = expected_counts))
  then Err (frontier_error counter expected_length CFI_AggregateLedger)
  else Ok tt.

Definition validate_numeric_segments {C} `{!SegmentClass C} (counter : ClaimFrontierCounter)
    (first_value expected_length : Z) (segments : list (NumericSegment C))
    (expected_counts : list Z) : result unit ClaimFrontierError :=
  let segments := sort_by_key ns_start segments in
  let? events := numeric_events counter first_value segments in
  let? emitted := scan_numeric_events counter first_value events in
  if negb (emitted =? expected_length)
  then Err (frontier_error counter (Z.min emitted expected_length) CFI_AggregateLedger)
  else
    let? _ := validate_immutable_prefix counter first_value segments in
    validate_segment_class_counts counter expected_length segments expected_counts.

Definition sl_budget (l : SequenceLedger) : SequenceBudget :=
  sc_budget (sl_claims l) (sl_high_watermark l).
Definition sequence_expected_counts (ledger : SequenceLedger) : list Z :=
  let budget := sl_budget ledger in
  [sb_e budget; sb_t budget; sb_m budget; sb_rs budget; sb_rt budget; sb_l_times_t budget;
   sb_l_times_rt budget; sb_l_other_times_e budget].
Definition order_expected_counts (ledger : OrderLedger) : list Z :=
  let claims := ol_claims ledger in
  [oc_active_binding_terminals claims; oc_membership_exits claims;
   of_bool (oc_recovery_operation claims); of_bool (oc_recovery_replacement_terminal claims)].

Definition validate_sequence_numeric (r : SequenceClaimFrontierRestore) (ledger : SequenceLedger)
    : result unit ClaimFrontierError :=
  validate_numeric_segments CFC_DeliverySequence (add_u128 (sl_high_watermark ledger) 1)
    (sl_required_reserve ledger) (sequence_segments r) (sequence_expected_counts ledger).

Definition validate_order_numeric (r : OrderClaimFrontierRestore) (ledger : OrderLedger)
    : result unit ClaimFrontierError :=
  validate_numeric_segments CFC_TransactionOrder (order_frontier_start (ol_high ledger))
    (add_u128 (order_frontier_candidate_count r (ol_high ledger)) (oc_total (ol_claims ledger)))
    (order_segments r (ol_high ledger)) (order_expected_counts ledger).

(** ** What the sweep decides *)

(** The positions of a segment, and of a list of segments. *)
Definition segment_positions {C} (s : NumericSegment C) : list Z := seqZ (ns_start s) (ns_length s).
Definition positions {C} (segments : list (NumericSegment C)) : list Z :=
  concat (map segment_positions segments).

(** How many positions equal [x]. *)
Definition occ (x : Z) (l : list Z) : Z := Z.of_nat (count_occ Z.eq_dec l x).
Definition inside (first n x : Z) : Z := if (first <=? x) && (x <? first + n) then 1 else 0.

Lemma occ_app x l k : occ x (l ++ k) = occ x l + occ x k.
Proof. unfold occ. rewrite count_occ_app. lia. Qed.

Lemma occ_seqZ x a n : occ x (seqZ a n) = inside a n x.
Proof.
  unfold occ, inside. destruct ((a <=? x) && (x <? a + n)) eqn:E.
  - breflect. rewrite (proj1 (NoDup_count_occ' Z.eq_dec _) (proj1 (NoDup_ListNoDup _) (NoDup_seqZ a n)));
      [done|]. apply list_elem_of_In, elem_of_seqZ. lia.
  - rewrite (proj1 (count_occ_not_In Z.eq_dec _ _)); [done|].
    intros Hin%list_elem_of_In%elem_of_seqZ. apply andb_false_iff in E as [E|E]; breflect; lia.
Qed.

Lemma perm_occ l k : l ≡ₚ k <-> forall x, occ x l = occ x k.
Proof.
  rewrite (Permutation_count_occ Z.eq_dec). unfold occ.
  split; intros H x; specialize (H x); lia.
Qed.

(** [Σ delta] over the events up to [x]. *)
Fixpoint height (events : list (Z * Z)) (x : Z) : Z :=
  match events with
  | [] => 0
  | (c, d) :: rest => (if c <=? x then d else 0) + height rest x
  end.

Lemma height_perm l k x : l ≡ₚ k -> height l x = height k x.
Proof.
  induction 1 as [|[c d] l k _ IH|[c d] [c' d'] l|l k m _ IH1 _ IH2]; simpl; [done| | |]; lia.
Qed.

Lemma height_below l x : Forall (fun e => x < e.1) l -> height l x = 0.
Proof.
  induction 1 as [|[c d] l H _ IH]; simpl in *; [done|]. destruct (Z.leb_spec c x); lia.
Qed.

Lemma inside_zero a n x : 0 <= n -> a + n <= x -> inside a n x = 0.
Proof. intros. unfold inside. destruct ((_ <=? _) && _) eqn:E; breflect; lia. Qed.
Lemma inside_one a n x : a <= x < a + n -> inside a n x = 1.
Proof. intros. unfold inside. by rewrite (proj2 (Z.leb_le _ _)), (proj2 (Z.ltb_lt _ _)) by lia. Qed.
Lemma inside_step a n c x : a <= c -> c <= x -> c - a <= n -> inside a n x = inside c (n - (c - a)) x.
Proof.
  intros. unfold inside. rewrite (proj2 (Z.leb_le a x)), (proj2 (Z.leb_le c x)) by lia. simpl.
  by replace (c + (n - (c - a))) with (a + n) by lia.
Qed.

(** The sweep from a coordinate on: it succeeds with [m] positions more exactly when the
    coverage is one on the next [m] positions and zero from there on. *)
Lemma scan_events_exact counter events : forall coordinate coverage emitted n,
  StronglySorted (key_order fst) events -> Forall (fun e => coordinate <= e.1) events ->
  (forall x, coordinate <= x -> 0 <= coverage + height events x) ->
  (forall e, e ∈ events -> coordinate < e.1 ->
     1 <= coverage + height events (e.1 - 1) \/ 1 <= coverage + height events e.1) ->
  Forall (fun e => emitted + (e.1 - coordinate) <= u128_max) events ->
  scan_events counter coordinate coverage emitted events = Ok n <->
  exists m, 0 <= m /\ n = emitted + m
    /\ forall x, coordinate <= x -> coverage + height events x = inside coordinate m x.
Proof.
  induction events as [|[c d] events IH];
    intros coordinate coverage emitted n Hs Hge Hpos Hlive Hmax; simpl scan_events.
  { destruct (Z.eqb_spec coverage 0) as [->|Hc]; simpl.
    - split.
      + intros [= <-]. exists 0. split_and!; [lia..|]. intros x ?. by rewrite inside_zero by lia.
      + intros (m & Hm & -> & Hx). destruct (decide (m = 0)) as [->|]; [f_equal; lia|].
        specialize (Hx coordinate ltac:(lia)). rewrite inside_one in Hx by lia. done.
    - split; [done|]. intros (m & Hm & _ & Hx).
      specialize (Hx (coordinate + m) ltac:(lia)). rewrite inside_zero in Hx by lia. lia. }
  inversion Hs as [|?? Hs' Hle]; subst. inversion Hge as [|?? Hc Hge']; subst.
  inversion Hmax as [|?? Hm0 Hmax']; subst. cbn [fst height] in *.
  assert (forall x, c <= x -> (if c <=? x then d else 0) = d) as Hd.
  { intros x ?. by destruct (Z.leb_spec c x); [|lia]. }
  assert (Forall (fun e => c <= e.1) events) as Hge2 by exact Hle.
  assert (forall e, e ∈ events -> c < e.1 ->
     1 <= coverage + d + height events (e.1 - 1) \/ 1 <= coverage + d + height events e.1) as Hlive'.
  { intros e He Hl. specialize (Hlive e (proj2 (elem_of_cons _ _ _) (or_intror He)) ltac:(lia)).
    rewrite !Hd in Hlive by lia. lia. }
  destruct (Z.ltb_spec coordinate c) as [Hlt|].
  2:{ assert (c = coordinate) as -> by lia.
    rewrite (IH coordinate (coverage + d) emitted n); try done.
    - split; intros (m & ? & ? & Hx); exists m; split_and!; try done; intros x Hx0;
        specialize (Hx x Hx0); rewrite ?Hd in * by done; lia.
    - intros x Hx. specialize (Hpos x Hx). rewrite Hd in Hpos by done. lia. }
  assert (forall x, coordinate <= x < c -> coverage + ((if c <=? x then d else 0) + height events x)
            = coverage) as Hflat.
  { intros x ?. destruct (Z.leb_spec c x); [lia|]. rewrite height_below; [lia|].
    eapply Forall_impl; [exact Hge2|]. simpl. lia. }
  pose proof (Hpos coordinate ltac:(lia)) as Hcov. rewrite Hflat in Hcov by lia.
  destruct (Z.eqb_spec coverage 0) as [->|Hne]; [|destruct (Z.ltb_spec 1 coverage)].
  - split; [done|]. intros (m & Hm & _ & Hx). exfalso.
    destruct (decide (m = 0)) as [->|].
    + destruct (Hlive (c, d) (proj2 (elem_of_cons _ _ _) (or_introl eq_refl)) Hlt) as [Hl|Hl]; cbn [fst] in Hl;
        rewrite Hx, inside_zero in Hl by lia; lia.
    + specialize (Hx coordinate ltac:(lia)). rewrite Hflat, inside_one in Hx by lia. lia.
  - split; [done|]. intros (m & Hm & _ & Hx). specialize (Hx coordinate ltac:(lia)).
    rewrite Hflat in Hx by lia. unfold inside in Hx. destruct (_ && _); lia.
  - assert (coverage = 1) as -> by lia. unfold saturating_add_u128.
    rewrite Z.min_r by lia. rewrite (IH c (1 + d) _ n); try done.
    + split; intros (m & Hm & -> & Hx).
      * exists (m + (c - coordinate)). split_and!; [lia..|]. intros x Hx0.
        destruct (decide (x < c)); [rewrite Hflat, inside_one by lia; done|].
        rewrite Hd, (inside_step coordinate _ c) by lia. specialize (Hx x ltac:(lia)).
        replace (m + (c - coordinate) - (c - coordinate)) with m by lia. lia.
      * assert (c - coordinate <= m) as Hcm.
        { destruct (decide (c - coordinate <= m)); [done|].
          specialize (Hx (c - 1) ltac:(lia)). rewrite Hflat, inside_zero in Hx by lia. lia. }
        exists (m - (c - coordinate)). split_and!; [lia..|]. intros x Hx0.
        specialize (Hx x ltac:(lia)). rewrite Hd, (inside_step coordinate _ c) in Hx by lia. lia.
    + intros x Hx. specialize (Hpos x ltac:(lia)). rewrite Hd in Hpos by done. lia.
    + eapply Forall_impl; [exact Hmax'|]. simpl. lia.
Qed.

(** The two events of every segment that is not empty. *)
Definition segment_events {C} (s : NumericSegment C) : list (Z * Z) :=
  if ns_length s =? 0 then [] else [(ns_start s, 1); (ns_start s + ns_length s, -1)].

(** Lengths and starts are unsigned. *)
Definition segment_ok {C} (s : NumericSegment C) : Prop := 0 <= ns_start s /\ 0 <= ns_length s.
(** A segment between the first value and the end of the counter. *)
Definition segment_within {C} (first : Z) (s : NumericSegment C) : Prop :=
  ns_length s <> 0 -> first <= ns_start s /\ ns_start s + ns_length s <= u64_max + 1.

Lemma numeric_events_Ok {C} counter first (segs : list (NumericSegment C)) evs :
  Forall segment_ok segs ->
  numeric_events counter first segs = Ok evs <->
  Forall (segment_within first) segs /\ evs = concat (map segment_events segs).
Proof.
  intros Hok. revert evs. induction Hok as [|s segs [Hs Hl] _ IH]; intros evs; simpl.
  { split; [by intros [= <-]|by intros [_ ->]]. }
  unfold segment_events at 1. rewrite Forall_cons.
  destruct (Z.eqb_spec (ns_length s) 0) as [He|He]; simpl.
  { rewrite IH. unfold segment_within at 2. intuition lia. }
  replace (add_u128 u64_max 1) with (u64_max + 1) by done.
  assert (segment_within first s <-> first <= ns_start s /\ ns_start s + ns_length s <= u64_max + 1)
    as -> by (unfold segment_within; tauto).
  unfold checked_add. destruct (Z.leb_spec (ns_start s + ns_length s) u128_max).
  2:{ split; [done|]. intros [[[_ ?] _] _]. mlia. }
  destruct (Z.ltb_spec (ns_start s) first); [split; [done|]; intros [[[? _] _] _]; lia|].
  destruct (Z.ltb_spec (u64_max + 1) (ns_start s + ns_length s));
    [split; [done|]; intros [[[_ ?] _] _]; lia|].
  destruct (numeric_events counter first segs) as [e|e] eqn:E; simpl.
  - destruct (proj1 (IH e) eq_refl) as [Hw ->]. split; [by intros [= <-]|by intros [_ ->]].
  - split; [done|]. intros [[_ Hw] _].
    pose proof (proj2 (IH (concat (map segment_events segs))) (conj Hw eq_refl)). congruence.
Qed.

Lemma height_app l k x : height (l ++ k) x = height l x + height k x.
Proof. induction l as [|[c d] l IH]; simpl; [done|]. rewrite IH. lia. Qed.

Lemma occ_positions_cons {C} x (s : NumericSegment C) segs :
  occ x (positions (s :: segs)) = inside (ns_start s) (ns_length s) x + occ x (positions segs).
Proof.
  unfold positions. cbn [map concat]. rewrite occ_app. unfold segment_positions at 1.
  by rewrite occ_seqZ.
Qed.

Lemma occ_nonneg x l : 0 <= occ x l.
Proof. unfold occ. lia. Qed.
Lemma occ_elem x l : 0 < occ x l <-> x ∈ l.
Proof. unfold occ. rewrite list_elem_of_In, (count_occ_In Z.eq_dec). lia. Qed.

(** The coverage at a position is the number of segments that own it. *)
Lemma height_segments {C} (segs : list (NumericSegment C)) x : Forall segment_ok segs ->
  height (concat (map segment_events segs)) x = occ x (positions segs).
Proof.
  induction 1 as [|s segs [Hs Hl] _ IH]; [done|]. cbn [map concat].
  rewrite height_app, IH, occ_positions_cons. f_equal.
  unfold segment_events, inside.
  destruct (Z.eqb_spec (ns_length s) 0) as [->|]; simpl.
  - by destruct (Z.leb_spec (ns_start s) x), (Z.ltb_spec x (ns_start s + 0)); simpl; try lia.
  - destruct (Z.leb_spec (ns_start s) x), (Z.leb_spec (ns_start s + ns_length s) x),
      (Z.ltb_spec x (ns_start s + ns_length s)); simpl; lia.
Qed.

Lemma elem_of_positions {C} (segs : list (NumericSegment C)) s x : s ∈ segs ->
  ns_start s <= x < ns_start s + ns_length s -> x ∈ positions segs.
Proof.
  intros Hs Hx. unfold positions. apply list_elem_of_In, in_concat. exists (segment_positions s).
  split; [apply in_map; by apply list_elem_of_In|]. apply list_elem_of_In, elem_of_seqZ. lia.
Qed.

(** The sweep over the events of segments. *)
Lemma scan_segments_exact {C} counter first (segs : list (NumericSegment C)) n :
  0 <= first -> Forall segment_ok segs -> Forall (segment_within first) segs ->
  scan_numeric_events counter first (concat (map segment_events segs)) = Ok n <->
  0 <= n /\ positions segs ≡ₚ seqZ first n.
Proof.
  intros Hf Hok Hw. unfold scan_numeric_events.
  set (evs := concat (map segment_events segs)).
  assert (sort_by_key fst evs ≡ₚ evs) as Hperm by apply merge_sort_Permutation.
  assert (forall x, height (sort_by_key fst evs) x = occ x (positions segs)) as Hh.
  { intros x. rewrite (height_perm _ _ x Hperm). by apply height_segments. }
  assert (forall e, e ∈ evs -> exists s, s ∈ segs /\ ns_length s <> 0
            /\ (e.1 = ns_start s \/ e.1 = ns_start s + ns_length s)) as Hev.
  { intros e He%list_elem_of_In. apply in_concat in He as (l & Hl & He).
    apply in_map_iff in Hl as (s & <- & Hs). exists s. split; [by apply list_elem_of_In|].
    unfold segment_events in He. destruct (Z.eqb_spec (ns_length s) 0); [done|].
    destruct He as [<-|[<-|[]]]; simpl; auto. }
  assert (forall e, e ∈ sort_by_key fst evs -> first <= e.1 <= u64_max + 1
            /\ (first < e.1 -> 1 <= occ (e.1 - 1) (positions segs) \/ 1 <= occ e.1 (positions segs)))
    as Hall.
  { intros e He. rewrite Hperm in He. destruct (Hev e He) as (s & Hs & Hne & He1).
    destruct (proj1 (Forall_forall _ _) Hok s Hs) as [_ Hl].
    pose proof (proj1 (Forall_forall _ _) Hw s Hs Hne) as [H1 H2].
    split; [lia|]. intros _. destruct He1 as [->| ->].
    - right. enough (0 < occ (ns_start s) (positions segs)) by lia.
      apply occ_elem, (elem_of_positions segs s); [done|lia].
    - left. enough (0 < occ (ns_start s + ns_length s - 1) (positions segs)) by lia.
      apply occ_elem, (elem_of_positions segs s); [done|lia]. }
  rewrite scan_events_exact; first last.
  - apply Forall_forall. intros e He. destruct (Hall e He) as [? _]. mlia.
  - intros e He Hlt. rewrite !Hh. destruct (Hall e He) as [_ [?|?]]; [done|lia..].
  - intros x _. rewrite Hh. pose proof (occ_nonneg x (positions segs)). lia.
  - apply Forall_forall. intros e He. destruct (Hall e He); lia.
  - apply StronglySorted_merge_sort; [intros ? ? ?; unfold key_order; lia|intros ? ?; unfold key_order; lia].
  - rewrite perm_occ. split.
    + intros (m & Hm & -> & Hx). split; [lia|]. intros x. rewrite occ_seqZ, Z.add_0_l.
      destruct (decide (first <= x)) as [Hle|]; [specialize (Hx x Hle); rewrite Hh in Hx; lia|].
      assert (inside first m x = 0) as -> by (unfold inside; destruct (Z.leb_spec first x); [lia|done]).
      destruct (decide (occ x (positions segs) = 0)); [done|exfalso].
      assert (x ∈ positions segs) as Hin by (apply occ_elem; pose proof (occ_nonneg x (positions segs)); lia).
      apply list_elem_of_In, in_concat in Hin as (l & Hl & Hin).
      apply in_map_iff in Hl as (s & <- & Hs). apply list_elem_of_In in Hs, Hin.
      apply elem_of_seqZ in Hin. destruct (proj1 (Forall_forall _ _) Hw s Hs); lia.
    + intros [Hn Hx]. exists n. split_and!; [done|lia|]. intros x _. by rewrite Hh, Hx, occ_seqZ.
Qed.

(** *** Immutable candidates first *)

Definition nonempty {C} (s : NumericSegment C) : Prop := ns_length s <> 0.
Definition immutable_first {C} (segs : list (NumericSegment C)) : Prop :=
  forall s t, s ∈ segs -> t ∈ segs -> nonempty s -> nonempty t ->
    ns_immutable s = true -> ns_immutable t = false -> ns_start s < ns_start t.

(** No immutable segment follows a movable one. *)
Definition prefix_order {C} (s t : NumericSegment C) : Prop :=
  nonempty s -> nonempty t -> ns_immutable t = true -> ns_immutable s = true.

Lemma immutable_prefix_Ok {C} counter first (segs : list (NumericSegment C)) : forall movable,
  immutable_prefix counter first movable segs = Ok tt <->
  StronglySorted prefix_order segs
  /\ (movable <> None -> Forall (fun s => nonempty s -> ns_immutable s = false) segs).
Proof.
  induction segs as [|s segs IH]; intros movable; simpl.
  { split; [by repeat constructor|done]. }
  unfold nonempty. rewrite Forall_cons.
  assert (forall P, Forall (fun t => prefix_order s t) segs /\ P
            <-> (ns_length s <> 0 -> ns_immutable s = false ->
                 Forall (fun t => nonempty t -> ns_immutable t = false) segs) /\ P) as Hhead.
  { intros P. rewrite !Forall_forall. unfold prefix_order, nonempty.
    split; intros [H HP]; (split; [|done]).
    - intros Hs Hf t Ht Hn. specialize (H t Ht Hs Hn). destruct (ns_immutable t); [|done].
      by rewrite H in Hf.
    - intros t Ht Hs Hn Hi. destruct (ns_immutable s); [done|].
      by rewrite (H Hs eq_refl t Ht Hn) in Hi. }
  assert (StronglySorted prefix_order (s :: segs)
          <-> Forall (fun t => prefix_order s t) segs /\ StronglySorted prefix_order segs) as ->.
  { split; [inversion 1; by split|]. intros [? ?]. by constructor. }
  rewrite Hhead. unfold nonempty. destruct (Z.eqb_spec (ns_length s) 0) as [He|He].
  { rewrite IH. unfold nonempty. intuition. }
  destruct (ns_immutable s) eqn:Ei.
  - destruct movable as [m|].
    + split; [done|]. intros [_ H]. destruct (H ltac:(done)) as [H' _]. by specialize (H' He).
    + rewrite IH. unfold nonempty. intuition congruence.
  - rewrite IH. unfold nonempty. destruct movable as [m|]; intuition congruence.
Qed.

Lemma StronglySorted_conj {A} (R S : A -> A -> Prop) l :
  StronglySorted R l -> StronglySorted S l -> StronglySorted (fun a b => R a b /\ S a b) l.
Proof.
  induction 1 as [|a l HR IH Ha]; inversion 1; subst; constructor; [by apply IH|].
  rewrite Forall_forall in *. naive_solver.
Qed.

(** In a sorted list one of two distinct elements comes first. *)
Lemma StronglySorted_elem {A} (R : A -> A -> Prop) l a b :
  StronglySorted R l -> a ∈ l -> b ∈ l -> a = b \/ R a b \/ R b a.
Proof.
  induction 1 as [|c l HR IH Hc]; [by intros ?%elem_of_nil|].
  rewrite !elem_of_cons. rewrite Forall_forall in Hc.
  intros [->|Ha] [->|Hb]; auto.
Qed.

Lemma positions_disjoint {C} (segs : list (NumericSegment C)) :
  NoDup (positions segs) -> Forall segment_ok segs ->
  ForallOrdPairs (fun s t => nonempty s -> nonempty t -> ns_start s <> ns_start t) segs.
Proof.
  intros Hnd. induction 1 as [|s segs [Hs Hl] Hok IH]; [constructor|].
  unfold positions in Hnd. cbn [map concat] in Hnd.
  apply NoDup_app in Hnd as (_ & Hdis & Hnd). constructor; [|by apply IH].
  apply List.Forall_forall. intros t Ht Hns Hnt Heq. apply list_elem_of_In in Ht.
  unfold nonempty in *. pose proof (proj1 (Forall_forall _ _) Hok t Ht) as [_ Hlt].
  apply (Hdis (ns_start s)).
  - apply elem_of_seqZ. lia.
  - apply (elem_of_positions segs t); [done|lia].
Qed.

Lemma ForallOrdPairs_elem {A} (R : A -> A -> Prop) l a b :
  ForallOrdPairs R l -> a ∈ l -> b ∈ l -> a = b \/ R a b \/ R b a.
Proof.
  induction 1 as [|c l Hc HR IH]; [by intros ?%elem_of_nil|].
  rewrite !elem_of_cons. rewrite List.Forall_forall in Hc.
  intros [->|Ha%list_elem_of_In] [->|Hb%list_elem_of_In]; auto.
  apply IH; by apply list_elem_of_In.
Qed.

Lemma sorted_prefix_iff {C} (segs : list (NumericSegment C)) :
  NoDup (positions segs) -> Forall segment_ok segs -> StronglySorted (key_order ns_start) segs ->
  StronglySorted prefix_order segs <-> immutable_first segs.
Proof.
  intros Hnd Hok Hs. split.
  - intros Hp s t Hs1 Ht1 Hns Hnt Hi Hm.
    assert (ns_start s <> ns_start t) as Hne.
    { destruct (ForallOrdPairs_elem _ _ s t (positions_disjoint segs Hnd Hok) Hs1 Ht1)
        as [->|[H|H]]; [congruence|by apply H|]. intros E. by apply (H Hnt Hns). }
    destruct (StronglySorted_elem _ _ s t (StronglySorted_conj _ _ _ Hs Hp) Hs1 Ht1)
      as [->|[[H _]|[_ H]]]; [congruence|unfold key_order in H; lia|].
    rewrite (H Hnt Hns Hi) in Hm. done.
  - clear Hnd Hok. induction Hs as [|s segs Hs IH Hle]; intros Hf; constructor.
    + apply IH. intros a b Ha Hb. apply Hf; rewrite elem_of_cons; auto.
    + rewrite Forall_forall in *. intros t Ht Hns Hnt Hi.
      destruct (ns_immutable s) eqn:E; [done|].
      specialize (Hf t s (proj2 (elem_of_cons _ _ _) (or_intror Ht))
        (proj2 (elem_of_cons _ _ _) (or_introl eq_refl)) Hnt Hns Hi E).
      specialize (Hle t Ht). unfold key_order in Hle. lia.
Qed.

(** *** Positions per class *)

Definition class_share {C} `{!SegmentClass C} (i : nat) (s : NumericSegment C) : Z :=
  match ns_class s with
  | Some class => if (class_index class =? i)%nat then ns_length s else 0
  | None => 0
  end.
Fixpoint class_total {C} `{!SegmentClass C} (segs : list (NumericSegment C)) (i : nat) : Z :=
  match segs with
  | [] => 0
  | s :: segs => class_share i s + class_total segs i
  end.

Lemma class_total_perm {C} `{!SegmentClass C} (l k : list (NumericSegment C)) i :
  l ≡ₚ k -> class_total l i = class_total k i.
Proof. induction 1; simpl; lia. Qed.
Lemma class_total_app {C} `{!SegmentClass C} (l k : list (NumericSegment C)) i :
  class_total (l ++ k) i = class_total l i + class_total k i.
Proof. induction l; simpl; lia. Qed.
Lemma class_total_nonneg {C} `{!SegmentClass C} (segs : list (NumericSegment C)) i :
  Forall segment_ok segs -> 0 <= class_total segs i.
Proof.
  induction 1 as [|s segs [_ Hl] _ IH]; simpl; [done|]. unfold class_share.
  destruct (ns_class s) as [c|]; [destruct (_ =? _)%nat|]; lia.
Qed.

Lemma nth_insert i j v (l : list Z) : (i < length l)%nat ->
  nth j (<[i := v]> l) 0 = if (i =? j)%nat then v else nth j l 0.
Proof.
  intros Hi. rewrite !nth_lookup. destruct (Nat.eqb_spec i j) as [->|].
  - by rewrite list_lookup_insert_eq.
  - by rewrite list_lookup_insert_ne.
Qed.

Section Counts.
Context {C : Type} `{!SegmentClass C} (counter : ClaimFrontierCounter) (expected : list Z).
Hypothesis Hclass : forall c : C, (class_index c < length expected)%nat.
Hypothesis Hmax : forall i, nth i expected 0 <= u128_max.

Lemma class_counts_Ok (segs : list (NumericSegment C)) : Forall segment_ok segs ->
  forall actual ordinal out, length actual = length expected ->
  (forall i, 0 <= nth i actual 0 <= nth i expected 0) ->
  class_counts counter expected actual ordinal segs = Ok out <->
  length out = length actual
  /\ (forall i, (i < length expected)%nat -> nth i out 0 = nth i actual 0 + class_total segs i)
  /\ (forall i, (i < length expected)%nat -> nth i actual 0 + class_total segs i <= nth i expected 0).
Proof.
  induction 1 as [|s segs [Hst Hl] Hok IH]; intros actual ordinal out Hlen Hle; simpl.
  { split.
    - intros [= <-]. split_and!; [done|intros; lia|]. intros i _. specialize (Hle i). lia.
    - intros (Hlo & Ho & _). f_equal. symmetry. apply (nth_ext _ _ 0 0); [done|].
      intros i Hi. rewrite Ho by congruence. lia. }
  destruct (Z.eqb_spec (ns_length s) 0) as [He|He].
  { rewrite IH by done. unfold class_share. rewrite He.
    assert (forall i, match ns_class s with
              Some c => if (class_index c =? i)%nat then 0 else 0 | None => 0 end = 0) as H0.
    { intros i. destruct (ns_class s); [destruct (_ =? _)%nat|]; done. }
    split; intros (? & H1 & H2); split_and!; try done; intros i Hi;
      specialize (H1 i Hi); specialize (H2 i Hi); rewrite ?H0 in *; lia. }
  unfold class_share. destruct (ns_class s) as [c|]; [|by rewrite IH by done].
  pose proof (Hle (class_index c)) as Hc. pose proof (Hmax (class_index c)) as Hm.
  pose proof (class_total_nonneg segs (class_index c) Hok) as Htot.
  assert (~ nth (class_index c) actual 0 + ns_length s <= nth (class_index c) expected 0 ->
    ~ ((forall i, (i < length expected)%nat ->
        nth i actual 0 + ((if (class_index c =? i)%nat then ns_length s else 0)
                          + class_total segs i) <= nth i expected 0))) as Hno.
  { intros Hn H. specialize (H _ (Hclass c)). rewrite Nat.eqb_refl in H. lia. }
  unfold checked_add.
  destruct (Z.leb_spec (nth (class_index c) actual 0 + ns_length s) u128_max).
  2:{ split; [done|]. intros (_ & _ & H2). exfalso. apply Hno; [lia|done]. }
  destruct (Z.ltb_spec (nth (class_index c) expected 0) (nth (class_index c) actual 0 + ns_length s)).
  { split; [done|]. intros (_ & _ & H2). exfalso. apply Hno; [lia|done]. }
  assert ((class_index c < length actual)%nat) as Hin by (rewrite Hlen; apply Hclass).
  rewrite IH.
  - rewrite length_insert.
    split; intros (Hlo & H1 & H2); split_and!; try done; intros i Hi;
      specialize (H1 i Hi); specialize (H2 i Hi); rewrite nth_insert in * by done;
      destruct (Nat.eqb_spec (class_index c) i); subst; lia.
  - by rewrite length_insert.
  - intros i. rewrite nth_insert by done.
    destruct (Nat.eqb_spec (class_index c) i) as [<-|]; [lia|apply Hle].
Qed.

Lemma validate_counts_Ok (segs : list (NumericSegment C)) n : Forall segment_ok segs ->
  (forall i, 0 <= nth i expected 0) ->
  validate_segment_class_counts counter n segs expected = Ok tt <->
  forall i, (i < length expected)%nat -> class_total segs i = nth i expected 0.
Proof.
  intros Hok Hpos. unfold validate_segment_class_counts.
  assert (forall i, nth i (replicate (length expected) 0) 0 = 0) as H0.
  { intros i. rewrite nth_lookup. destruct (_ !! _) eqn:E; [|done].
    by apply lookup_replicate in E as [-> _]. }
  pose proof (class_counts_Ok segs Hok (replicate (length expected) 0) 0) as Hcc.
  assert (forall out, class_counts counter expected (replicate (length expected) 0) 0 segs = Ok out
    <-> length out = length expected
      /\ (forall i, (i < length expected)%nat -> nth i out 0 = class_total segs i)
      /\ (forall i, (i < length expected)%nat -> class_total segs i <= nth i expected 0)) as Hc.
  { intros out. rewrite Hcc.
    - rewrite length_replicate. setoid_rewrite H0. setoid_rewrite Z.add_0_l. done.
    - by rewrite length_replicate.
    - intros i. rewrite H0. specialize (Hpos i). lia. }
  destruct (class_counts _ _ _ _ _) as [out|e] eqn:E; simpl.
  - destruct (proj1 (Hc out) eq_refl) as (Hl & Ho & _). case_bool_decide as Heq; simpl.
    + split; [|done]. intros _ i Hi. rewrite <- Ho by done. by rewrite Heq.
    + split; [done|]. intros H. exfalso. apply Heq, (nth_ext _ _ 0 0); [done|].
      intros i Hi. rewrite Ho, H by congruence. done.
  - split; [done|]. intros H. pose proof (proj2 (Hc expected)) as Hc'.
    assert (Err e = Ok expected); [|done]. apply Hc'. split_and!; [done|..].
    + intros i Hi. by rewrite H.
    + intros i Hi. rewrite H by done. lia.
Qed.
End Counts.

(** The whole validation: the positions of all segments are one interval, each owned
    once, immutable candidates first, each class as large as the ledger says. *)
Definition dense {C} `{!SegmentClass C} (first n : Z) (segs : list (NumericSegment C))
    (expected : list Z) : Prop :=
  positions segs ≡ₚ seqZ first n /\ immutable_first segs
  /\ forall i, (i < length expected)%nat -> class_total segs i = nth i expected 0.

Lemma immutable_first_perm {C} (l k : list (NumericSegment C)) : l ≡ₚ k ->
  immutable_first l <-> immutable_first k.
Proof. intros H. unfold immutable_first. by setoid_rewrite H. Qed.
Lemma positions_perm {C} (l k : list (NumericSegment C)) : l ≡ₚ k -> positions l ≡ₚ positions k.
Proof.
  unfold positions. induction 1 as [|a l k _ IH|a b l|l k m _ IH1 _ IH2]; simpl; [done|by rewrite IH| |by etrans].
  rewrite !(assoc_L (++)). by rewrite (Permutation_app_comm (segment_positions b)).
Qed.

Lemma numeric_exact {C} `{!SegmentClass C} counter first n (segs : list (NumericSegment C)) expected :
  (forall c : C, (class_index c < length expected)%nat) ->
  (forall i, 0 <= nth i expected 0 <= u128_max) ->
  0 <= first -> 0 <= n -> first + n <= u64_max + 1 -> Forall segment_ok segs ->
  validate_numeric_segments counter first n segs expected = Ok tt <-> dense first n segs expected.
Proof.
  intros Hclass Hmax Hf Hn Hfit Hok. unfold validate_numeric_segments, dense.
  set (l := sort_by_key ns_start segs).
  assert (l ≡ₚ segs) as Hl by apply merge_sort_Permutation.
  assert (StronglySorted (key_order ns_start) l) as Hs.
  { apply StronglySorted_merge_sort; [intros ? ? ?|intros ? ?]; unfold key_order; lia. }
  rewrite <- (positions_perm _ _ Hl), <- (immutable_first_perm _ _ Hl).
  setoid_rewrite <- (class_total_perm _ _ _ Hl).
  assert (Forall segment_ok l) as Hokl by (by rewrite Hl).
  clearbody l. clear Hl Hok segs.
  assert (positions l ≡ₚ seqZ first n -> Forall (segment_within first) l) as Hwithin.
  { intros Hp. apply Forall_forall. intros s Hin Hne.
    pose proof (proj1 (Forall_forall _ _) Hokl s Hin) as [_ Hlen].
    assert (forall x, ns_start s <= x < ns_start s + ns_length s -> first <= x < first + n) as H.
    { intros x Hx. apply elem_of_seqZ. rewrite <- Hp. by apply (elem_of_positions l s). }
    pose proof (H (ns_start s)). pose proof (H (ns_start s + ns_length s - 1)). lia. }
  destruct (numeric_events counter first l) as [evs|e] eqn:E; simpl.
  2:{ split; [done|]. intros (Hp & _). exfalso.
      pose proof (proj2 (numeric_events_Ok counter first l _ Hokl) (conj (Hwithin Hp) eq_refl)).
      congruence. }
  apply numeric_events_Ok in E as [Hw ->]; [|done].
  pose proof (scan_segments_exact counter first l n Hf Hokl Hw) as Hscan.
  destruct (scan_numeric_events _ _ _) as [m|e] eqn:Es; simpl.
  2:{ split; [done|]. intros (Hp & _). exfalso. by pose proof (proj2 Hscan (conj Hn Hp)). }
  destruct (Z.eqb_spec m n) as [->|Hmn]; simpl.
  2:{ split; [done|]. intros (Hp & _). exfalso. apply Hmn.
      pose proof (proj2 Hscan (conj Hn Hp)) as Heq. by injection Heq. }
  destruct (proj1 Hscan eq_refl) as [_ Hp].
  assert (NoDup (positions l)) as Hnd by (rewrite Hp; apply NoDup_seqZ).
  pose proof (immutable_prefix_Ok counter first l None) as Hip.
  rewrite (sorted_prefix_iff l Hnd Hokl Hs) in Hip.
  unfold validate_immutable_prefix. destruct (immutable_prefix counter first None l) as [[]|e]; simpl.
  - rewrite (validate_counts_Ok counter expected Hclass (fun i => proj2 (Hmax i)) l n Hokl
      (fun i => proj1 (Hmax i))). destruct (proj1 Hip eq_refl). tauto.
  - split; [done|]. intros (_ & Hif & _). exfalso.
    assert (Err e = Ok tt) by (apply Hip; by split). done.
Qed.
