(* ===== verification/FrontierLive.v ===== *)
(** * Claim frontiers: live transitions

    Model of the live half of [liminal-protocol/src/lifecycle/claim_frontier.rs] and of
    [claim_frontier/binding_fate_transition.rs]: how the owners are laid out again after
    a lifecycle transition, a binding terminal that has to wait, a fenced attach and a
    drained candidate; acknowledgements; the markers; and the binding-fate floor.

    A failing transition returns the frontiers it was given next to the error
    ([Box<(Self, Error)>]). *)
From stdpp Require Import sorting.
From S2P Require Import Prelude Frontier Algebra Tags Wire Response Order Sequence Edge EdgeSteps.
From S2P Require Import Binding Member Attach.

(** ** Laying out the owners *)

(** Both counters know the same recovery, the same candidates and the same terminals. *)
Definition group_keys (o : OrderClaimFrontier) : list AdmissionOrder :=
  concat (map icm_candidate_keys (ocf_immutable_candidates o)).

Fixpoint first_unknown_key (keys : list AdmissionOrder) (s : SequenceClaimFrontier)
    (candidates : list ImmutableSequenceCandidate) : result unit ClaimFrontierError :=
  match candidates with
  | [] => Ok tt
  | candidate :: rest =>
      if negb (bool_decide (isc_admission_order candidate ∈ keys))
      then Err (sequence_error (sequence_ordinal (scf_ledger s) (isc_delivery_seq candidate))
                  CFI_CandidateKey)
      else first_unknown_key keys s rest
  end.

Fixpoint first_unknown_group (s : SequenceClaimFrontier) (o : OrderClaimFrontier)
    (groups : list ImmutableOrderCandidateMajor) : result unit ClaimFrontierError :=
  match groups with
  | [] => Ok tt
  | group :: rest =>
      if negb (forallb (fun key => bool_decide (key ∈ map isc_admission_order
                                     (scf_immutable_candidates s))) (icm_candidate_keys group))
      then Err (order_error (order_ordinal (ocf_ledger o) (icm_transaction_order group))
                  CFI_CandidateKey)
      else first_unknown_group s o rest
  end.

Definition sequence_terminal_owners (claims : list MovableSequenceClaim)
    : list BindingTerminalOwner :=
  omap (fun claim => match msc_owner claim with
                     | SDO_BindingTerminal owner => Some owner
                     | SDO_MembershipExit _ => None
                     end) claims.
Definition order_terminal_owners (claims : list MovableOrderClaim) : list BindingTerminalOwner :=
  omap (fun claim => match moc_owner claim with
                     | ODO_ActiveBindingTerminal owner => Some owner
                     | ODO_MembershipExit _ => None
                     end) claims.
Definition sequence_recovery_owner (r : option RecoverySequenceBlock)
    : list BindingTerminalOwner :=
  match r with
  | Some block => match rsb_terminal block with Some t => [rst_owner t] | None => [] end
  | None => []
  end.
Definition order_recovery_owner (r : option RecoveryOrderBlock) : list BindingTerminalOwner :=
  match r with
  | Some block => match rob_active_binding block with Some a => [roa_owner a] | None => [] end
  | None => []
  end.

Definition recovery_blocks_match (s : RecoverySequenceBlock) (o : RecoveryOrderBlock) : bool :=
  (rsb_participant_index s =? rob_participant_index o)
  && (rsb_marker_delivery_seq s =? rob_marker_delivery_seq o)
  && bool_decide (rsb_recovered_binding_epoch s = rob_recovered_binding_epoch o)
  && bool_decide (option_map rst_owner (rsb_terminal s) = option_map roa_owner (rob_active_binding o)).

Definition validate_cross_counter (s : SequenceClaimFrontier) (o : OrderClaimFrontier)
    : result unit ClaimFrontierError :=
  let? _ :=
    match scf_recovery s, ocf_recovery o with
    | None, None => Ok tt
    | Some sequence_block, Some order_block =>
        if recovery_blocks_match sequence_block order_block then Ok tt
        else Err (sequence_error (sequence_ordinal (scf_ledger s)
                    (block_start_validated_sequence sequence_block)) CFI_RecoveryBlock)
    | Some sequence_block, None =>
        Err (sequence_error (sequence_ordinal (scf_ledger s)
               (block_start_validated_sequence sequence_block)) CFI_RecoveryBlock)
    | None, Some order_block =>
        Err (order_error (order_ordinal (ocf_ledger o)
               (block_start_validated_order order_block)) CFI_RecoveryBlock)
    end in
  let? _ := first_unknown_key (group_keys o) s (scf_immutable_candidates s) in
  let? _ := first_unknown_group s o (ocf_immutable_candidates o) in
  let sequence_movable_terminals :=
    merge_sort owner_le (sequence_terminal_owners (scf_movable_claims s)
                         ++ sequence_recovery_owner (scf_recovery s)) in
  let order_movable_terminals :=
    merge_sort owner_le (order_terminal_owners (ocf_movable_claims o)
                         ++ order_recovery_owner (ocf_recovery o)) in
  if negb (bool_decide (sequence_movable_terminals = order_movable_terminals))
  then Err (sequence_error (sl_required_reserve (scf_ledger s)) CFI_LogicalOwner)
  else Ok tt.

Inductive PrecedenceCondition :=
| PC_BindingTerminal
| PC_MarkerDrain (settlement_epoch : DeliverySeq)
| PC_FencedRecovery
| PC_Unclassified.

Inductive LiveFrontierTransitionError :=
| LFE_Authority
| LFE_Precedence (condition : PrecedenceCondition)
| LFE_RecordPosition
| LFE_Exhausted
| LFE_ResultingFrontier.

(** [take_live_sequence] and [take_live_order]: the start and the advanced cursor. *)
Definition take_live_sequence (cursor : DeliverySeq) (length : Z)
    : result (DeliverySeq * DeliverySeq) LiveFrontierTransitionError :=
  let? next := ok_or (checked_add u64_max cursor length) LFE_Exhausted in
  Ok (cursor, next).
Definition take_live_order (cursor : TransactionOrder)
    : result (TransactionOrder * TransactionOrder) LiveFrontierTransitionError :=
  let? next := ok_or (checked_add u64_max cursor 1) LFE_Exhausted in
  Ok (cursor, next).

(** One push per element, each taking [length] positions from the cursor. *)
Fixpoint lay_sequence {A B} (make : DeliverySeq -> A -> B) (length : Z) (cursor : DeliverySeq)
    (items : list A) : result (list B * DeliverySeq) LiveFrontierTransitionError :=
  match items with
  | [] => Ok ([], cursor)
  | item :: items =>
      let? taken := take_live_sequence cursor length in
      let? rest := lay_sequence make length taken.2 items in
      Ok (make taken.1 item :: rest.1, rest.2)
  end.
Fixpoint lay_order {A B} (make : TransactionOrder -> A -> B) (cursor : TransactionOrder)
    (items : list A) : result (list B * TransactionOrder) LiveFrontierTransitionError :=
  match items with
  | [] => Ok ([], cursor)
  | item :: items =>
      let? taken := take_live_order cursor in
      let? rest := lay_order make taken.2 items in
      Ok (make taken.1 item :: rest.1, rest.2)
  end.

Definition terminal_claim (at_ : DeliverySeq) (owner : BindingTerminalOwner)
    : MovableSequenceClaim := mkMovableSequenceClaim at_ (SDO_BindingTerminal owner).
Definition exit_claim (at_ : DeliverySeq) (p : FrontierParticipant) : MovableSequenceClaim :=
  mkMovableSequenceClaim at_ (SDO_MembershipExit (fp_participant_index p)).
Definition terminal_range (length : Z) (at_ : DeliverySeq) (owner : BindingTerminalOwner)
    : TerminalProductRange := mkTerminalProductRange at_ length owner.
Definition exit_range (length : Z) (at_ : DeliverySeq) (p : FrontierParticipant)
    : ExitProductRange := mkExitProductRange at_ length (fp_participant_index p).
Definition order_terminal_claim (at_ : TransactionOrder) (owner : BindingTerminalOwner)
    : MovableOrderClaim := mkMovableOrderClaim at_ (ODO_ActiveBindingTerminal owner).
Definition order_exit_claim (at_ : TransactionOrder) (p : FrontierParticipant)
    : MovableOrderClaim := mkMovableOrderClaim at_ (ODO_MembershipExit (fp_participant_index p)).

(** Terminals and exits of the movable lane, then the two families of ranges, from
    [cursor] on; the whole has to end where the ledger's reserve ends. *)
Definition lay_sequence_owners (cursor : DeliverySeq) (active : ActiveIdentityRanks)
    (movable_terminals product_terminals : list BindingTerminalOwner)
    (candidates : list ImmutableSequenceCandidate) (sequence_ledger : SequenceLedger)
    : result SequenceClaimFrontier LiveFrontierTransitionError :=
  let live_count := air_len active in
  let? terminals := lay_sequence terminal_claim 1 cursor movable_terminals in
  let? exits := lay_sequence exit_claim 1 terminals.2 (air_participants active) in
  let? terminal_products :=
    lay_sequence (terminal_range live_count) live_count exits.2 product_terminals in
  let exit_product_length := saturating_sub live_count 1 in
  let? exit_products :=
    lay_sequence (exit_range exit_product_length) exit_product_length terminal_products.2
      (air_participants active) in
  let? sequence_end :=
    ok_or (total ← checked_add u128_max (sl_high_watermark sequence_ledger)
                     (sl_required_reserve sequence_ledger);
           checked_add u128_max total 1) LFE_Exhausted in
  if negb (exit_products.2 =? sequence_end) then Err LFE_ResultingFrontier
  else Ok (mkSequenceClaimFrontier sequence_ledger (terminals.1 ++ exits.1) candidates
             (mkSequenceProductRanges terminal_products.1 None exit_products.1) None).

Definition lay_order_owners (active : ActiveIdentityRanks)
    (terminal_owners : list BindingTerminalOwner)
    (candidates : list ImmutableOrderCandidateMajor) (order_ledger : OrderLedger)
    : result OrderClaimFrontier LiveFrontierTransitionError :=
  let order_start := order_frontier_start (ol_high order_ledger) in
  let? cursor := if u64_max <? order_start then Err LFE_Exhausted else Ok order_start in
  let? terminals := lay_order order_terminal_claim cursor terminal_owners in
  let? exits := lay_order order_exit_claim terminals.2 (air_participants active) in
  if negb (exits.2 =? add_u128 order_start (oc_total (ol_claims order_ledger)))
  then Err LFE_ResultingFrontier
  else Ok (mkOrderClaimFrontier order_ledger (terminals.1 ++ exits.1) candidates None).

Definition rebuild_unreserved_sequence (active : ActiveIdentityRanks)
    (terminal_owners : list BindingTerminalOwner) (sequence_ledger : SequenceLedger)
    : result SequenceClaimFrontier LiveFrontierTransitionError :=
  let? cursor := ok_or (checked_add u64_max (sl_high_watermark sequence_ledger) 1) LFE_Exhausted in
  lay_sequence_owners cursor active terminal_owners terminal_owners [] sequence_ledger.
Definition rebuild_unreserved_order (active : ActiveIdentityRanks)
    (terminal_owners : list BindingTerminalOwner) (order_ledger : OrderLedger)
    : result OrderClaimFrontier LiveFrontierTransitionError :=
  lay_order_owners active terminal_owners [] order_ledger.

(** The terminals the bound identities still owe. *)
Definition bound_owners (active : ActiveIdentityRanks) : list BindingTerminalOwner :=
  omap (fun p => match fp_binding p with
                 | FB_Bound epoch => Some (mkBindingTerminalOwner (fp_participant_index p) epoch)
                 | FB_Detached _ => None
                 end) (air_participants active).

(** The shared ledger check: [live] identities, [terminals] sequence terminals and
    [bound] order terminals, nothing else. *)
Definition unreserved_ledgers (live terminals bound : Z) (s : SequenceLedger) (o : OrderLedger)
    : bool :=
  (sc_live_members (sl_claims s) =? live) && (sc_binding_terminals (sl_claims s) =? terminals)
  && (sc_markers (sl_claims s) =? 0) && bool_decide (sc_recovery (sl_claims s) = RSR_None)
  && (oc_active_binding_terminals (ol_claims o) =? bound)
  && (oc_membership_exits (ol_claims o) =? live)
  && negb (oc_recovery_operation (ol_claims o))
  && negb (oc_recovery_replacement_terminal (ol_claims o)).

Definition cross_checked (s : SequenceClaimFrontier) (o : OrderClaimFrontier)
    : result (SequenceClaimFrontier * OrderClaimFrontier) LiveFrontierTransitionError :=
  let? _ := map_err (fun _ => LFE_ResultingFrontier) (validate_cross_counter s o) in
  Ok (s, o).

Definition rebuild_unreserved_frontiers (active : ActiveIdentityRanks)
    (sequence_ledger : SequenceLedger) (order_ledger : OrderLedger)
    : result (SequenceClaimFrontier * OrderClaimFrontier) LiveFrontierTransitionError :=
  let terminal_owners := bound_owners active in
  if negb (unreserved_ledgers (air_len active) (zlen terminal_owners) (zlen terminal_owners)
             sequence_ledger order_ledger)
  then Err LFE_ResultingFrontier
  else
    let? sequence := rebuild_unreserved_sequence active terminal_owners sequence_ledger in
    let? order := rebuild_unreserved_order active terminal_owners order_ledger in
    cross_checked sequence order.

(** [sort_unstable_by_key(participant_index)]; the indices are distinct. *)
Definition all_terminal_owners (bound : list BindingTerminalOwner) (pending : BindingTerminalOwner)
    : list BindingTerminalOwner := sort_by_key bto_participant_index (bound ++ [pending]).

Definition rebuild_pending_terminal_sequence (active : ActiveIdentityRanks)
    (pending_owner : BindingTerminalOwner) (delivery_seq : DeliverySeq)
    (admission_order : AdmissionOrder) (sequence_ledger : SequenceLedger)
    (bound all : list BindingTerminalOwner)
    : result SequenceClaimFrontier LiveFrontierTransitionError :=
  let? candidate := take_live_sequence delivery_seq 1 in
  lay_sequence_owners candidate.2 active bound all
    [ISC_BindingTerminal candidate.1 admission_order pending_owner] sequence_ledger.
Definition rebuild_pending_terminal_order (active : ActiveIdentityRanks)
    (admission_order : AdmissionOrder) (order_ledger : OrderLedger)
    (bound : list BindingTerminalOwner) : result OrderClaimFrontier LiveFrontierTransitionError :=
  lay_order_owners active bound
    [mkImmutableOrderCandidateMajor (ao_transaction_order admission_order) [admission_order]]
    order_ledger.

Definition rebuild_pending_terminal_frontiers (active : ActiveIdentityRanks)
    (pending_owner : BindingTerminalOwner) (delivery_seq : DeliverySeq)
    (admission_order : AdmissionOrder) (sequence_ledger : SequenceLedger)
    (order_ledger : OrderLedger)
    : result (SequenceClaimFrontier * OrderClaimFrontier) LiveFrontierTransitionError :=
  if negb (bool_decide (ao_candidate_phase admission_order = CP_BindingTerminal))
     || negb (ao_participant_index admission_order =? bto_participant_index pending_owner)
     || match ol_high order_ledger with
        | OH_Allocated high => negb (ao_transaction_order admission_order =? high)
        | OH_Empty => true
        end
     || negb (bool_decide (checked_add u64_max (sl_high_watermark sequence_ledger) 1
                           = Some delivery_seq))
  then Err LFE_RecordPosition
  else
    let bound := bound_owners active in
    let all := all_terminal_owners bound pending_owner in
    if negb (unreserved_ledgers (air_len active) (zlen all) (zlen bound) sequence_ledger order_ledger)
    then Err LFE_ResultingFrontier
    else
      let? sequence := rebuild_pending_terminal_sequence active pending_owner delivery_seq
                         admission_order sequence_ledger bound all in
      let? order := rebuild_pending_terminal_order active admission_order order_ledger bound in
      cross_checked sequence order.

(** ** Precedence *)

Definition live_transition_blocked (f : ClaimFrontiers) : bool :=
  negb (bool_decide (length (scf_immutable_candidates (cf_sequence f)) = 0%nat))
  || is_some (scf_recovery (cf_sequence f))
  || negb (bool_decide (length (ocf_immutable_candidates (cf_order f)) = 0%nat))
  || is_some (ocf_recovery (cf_order f)).

Definition precedence_condition (f : ClaimFrontiers) : PrecedenceCondition :=
  if is_some (scf_recovery (cf_sequence f)) || is_some (ocf_recovery (cf_order f))
  then PC_FencedRecovery
  else
    match scf_immutable_candidates (cf_sequence f) with
    | ISC_Marker marker :: _ => PC_MarkerDrain (mca_delivery_seq marker)
    | ISC_BindingTerminal _ _ _ :: _ => PC_BindingTerminal
    | [] => PC_Unclassified
    end.

(** ** Transitions *)

Abbreviation live_result A := (result A (ClaimFrontiers * LiveFrontierTransitionError)).

(** Row [i] sits at [first + i], and the last one is the new watermark. *)
Fixpoint rows_consecutive (at_ : option DeliverySeq) (rows : list RetainedCausalRecord) : bool :=
  match rows with
  | [] => true
  | row :: rows =>
      bool_decide (at_ = Some (rcr_delivery_seq row))
      && rows_consecutive (at_ ≫= fun at_ => checked_add u64_max at_ 1) rows
  end.
Definition rows_positioned (current resulting : SequenceLedger) (rows : list RetainedCausalRecord)
    : bool :=
  match checked_add u64_max (sl_high_watermark current) 1 with
  | None => false
  | Some first => rows_consecutive (Some first) rows
  end
  && match last rows with
     | Some row => rcr_delivery_seq row =? sl_high_watermark resulting
     | None => true
     end.

Definition with_frontiers (f : ClaimFrontiers) (active : ActiveIdentityRanks)
    (sequence : SequenceClaimFrontier) (order : OrderClaimFrontier)
    (rows markers : list RetainedCausalRecord) : ClaimFrontiers :=
  mkClaimFrontiers (cf_conversation_id f) active (cf_identity_slot_limit f) (cf_retained_floor f)
    rows markers (cf_fenced_marker_issued f) sequence order.

Definition apply_live_transition (f : ClaimFrontiers) (active_identities : list FrontierParticipant)
    (appended_records : list RetainedCausalRecord) (sequence_ledger : SequenceLedger)
    (order_ledger : OrderLedger) : live_result ClaimFrontiers :=
  if live_transition_blocked f then Err (f, LFE_Precedence (precedence_condition f))
  else
    match ActiveIdentityRanks_try_new active_identities (sl_high_watermark sequence_ledger)
            (cf_identity_slot_limit f) with
    | Err _ => Err (f, LFE_Authority)
    | Ok active =>
        if negb (rows_positioned (scf_ledger (cf_sequence f)) sequence_ledger appended_records)
        then Err (f, LFE_RecordPosition)
        else
          match rebuild_unreserved_frontiers active sequence_ledger order_ledger with
          | Err error => Err (f, error)
          | Ok (sequence, order) =>
              Ok (with_frontiers f active sequence order
                    (cf_retained_records f ++ appended_records) (cf_marker_records f))
          end
    end.

(** [iter_mut().find(..)] and the assignment: the first participant of that index. *)
Fixpoint find_participant (id : ParticipantId) (ps : list FrontierParticipant)
    : option FrontierParticipant :=
  match ps with
  | [] => None
  | p :: ps => if fp_participant_index p =? id then Some p else find_participant id ps
  end.
Fixpoint set_participant (id : ParticipantId) (new : FrontierParticipant)
    (ps : list FrontierParticipant) : list FrontierParticipant :=
  match ps with
  | [] => []
  | p :: ps => if fp_participant_index p =? id then new :: ps else p :: set_participant id new ps
  end.

Definition apply_pending_binding_terminal (f : ClaimFrontiers) (participant_id : ParticipantId)
    (binding_epoch : BindingEpoch) (delivery_seq : DeliverySeq) (admission_order : AdmissionOrder)
    (order_ledger : OrderLedger) : live_result ClaimFrontiers :=
  if live_transition_blocked f then Err (f, LFE_Precedence (precedence_condition f))
  else
    let participants := air_participants (cf_active_identities f) in
    match find_participant participant_id participants with
    | None => Err (f, LFE_Authority)
    | Some participant =>
        if negb (bool_decide (fp_binding participant = FB_Bound binding_epoch))
        then Err (f, LFE_Authority)
        else
          let detached :=
            mkFrontierParticipant participant_id (fp_cursor participant) (FB_Detached binding_epoch) in
          match ActiveIdentityRanks_try_new (set_participant participant_id detached participants)
                  (sl_high_watermark (scf_ledger (cf_sequence f))) (cf_identity_slot_limit f) with
          | Err _ => Err (f, LFE_Authority)
          | Ok active =>
              match rebuild_pending_terminal_frontiers active
                      (mkBindingTerminalOwner participant_id binding_epoch) delivery_seq
                      admission_order (scf_ledger (cf_sequence f)) order_ledger with
              | Err error => Err (f, error)
              | Ok (sequence, order) =>
                  Ok (with_frontiers f active sequence order (cf_retained_records f)
                        (cf_marker_records f))
              end
          end
    end.

(** *** Fenced attach *)

Definition is_bound (b : FrontierBinding) : bool :=
  match b with FB_Bound _ => true | FB_Detached _ => false end.

Definition fenced_recovery_authority_matches (current participant : FrontierParticipant)
    (prior_binding_epoch : BindingEpoch) (s : RecoverySequenceBlock) (o : RecoveryOrderBlock)
    : bool :=
  (rsb_participant_index s =? fp_participant_index participant)
  && (rob_participant_index o =? fp_participant_index participant)
  && (rsb_marker_delivery_seq s =? fp_cursor participant)
  && (rob_marker_delivery_seq o =? fp_cursor participant)
  && bool_decide (rsb_recovered_binding_epoch s = prior_binding_epoch)
  && bool_decide (rob_recovered_binding_epoch o = prior_binding_epoch)
  && bool_decide (fp_binding current = FB_Detached prior_binding_epoch)
  && (fp_cursor current <=? fp_cursor participant)
  && is_bound (fp_binding participant).

Definition pending_fenced_terminal_matches (f : ClaimFrontiers) (rows : list RetainedCausalRecord)
    : bool :=
  match rows with
  | [terminal; _] =>
      match rcr_kind terminal with
      | RCK_BindingTerminal owner =>
          existsb (fun candidate =>
            match candidate with
            | ISC_BindingTerminal delivery_seq admission_order candidate_owner =>
                (delivery_seq =? rcr_delivery_seq terminal)
                && bool_decide (admission_order = rcr_admission_order terminal)
                && bool_decide (candidate_owner = owner)
            | ISC_Marker _ => false
            end) (scf_immutable_candidates (cf_sequence f))
          && existsb (fun candidate =>
               (icm_transaction_order candidate =? ao_transaction_order (rcr_admission_order terminal))
               && bool_decide (icm_candidate_keys candidate = [rcr_admission_order terminal]))
               (ocf_immutable_candidates (cf_order f))
      | _ => false
      end
  | _ => false
  end.

Definition fenced_records_match (participant : FrontierParticipant) (s : RecoverySequenceBlock)
    (o : RecoveryOrderBlock) (rows : list RetainedCausalRecord) (pending_terminal_matches : bool)
    : bool :=
  match last rows, fp_binding participant with
  | Some attached, FB_Bound recovered_binding_epoch =>
      if negb ((rcr_delivery_seq attached =? rsb_recovery_attach_seq s)
               && (ao_transaction_order (rcr_admission_order attached)
                   =? rob_recovery_operation_order o)
               && bool_decide (rcr_kind attached
                    = RCK_AttachLifecycle (fp_participant_index participant) recovered_binding_epoch))
      then false
      else
        match rsb_terminal s, rob_active_binding o, removelast rows with
        | None, None, [] => true
        | None, None, [_] => pending_terminal_matches
        | Some sequence_terminal, Some order_terminal, [terminal] =>
            bool_decide (rst_owner sequence_terminal = roa_owner order_terminal)
            && (rcr_delivery_seq terminal =? rst_delivery_seq sequence_terminal)
            && (ao_transaction_order (rcr_admission_order terminal)
                =? roa_transaction_order order_terminal)
            && bool_decide (rcr_kind terminal = RCK_BindingTerminal (rst_owner sequence_terminal))
        | _, _, _ => false
        end
  | _, _ => false
  end.

Definition has_recovery_marker (f : ClaimFrontiers) (participant : FrontierParticipant) : bool :=
  existsb (fun record =>
    (rcr_delivery_seq record =? fp_cursor participant)
    && match rcr_kind record with
       | RCK_CompactionMarker participant_index _ =>
           participant_index =? fp_participant_index participant
       | _ => false
       end) (cf_retained_records f).

Definition has_duplicate_appended_record (f : ClaimFrontiers) (rows : list RetainedCausalRecord)
    : bool :=
  existsb (fun row =>
    existsb (fun retained => rcr_delivery_seq retained =? rcr_delivery_seq row)
      (cf_retained_records f)) rows.

Definition apply_fenced_ledgers (s : SequenceLedger) (o : OrderLedger) (finalizes_pending : bool)
    : option (SequenceLedger * OrderLedger) :=
  match (if finalizes_pending then sl_apply_fenced_recovery_finalizing_pending s
         else sl_apply_fenced_recovery s) with
  | Err _ => None
  | Ok s =>
      match (if finalizes_pending then ol_apply_fenced_recovery_finalizing_pending o
             else ol_apply_fenced_recovery o) with
      | Err _ => None
      | Ok o => Some (s, o)
      end
  end.

Definition candidates_empty (f : ClaimFrontiers) : bool :=
  bool_decide (length (scf_immutable_candidates (cf_sequence f)) = 0%nat)
  && bool_decide (length (ocf_immutable_candidates (cf_order f)) = 0%nat).

Definition apply_live_fenced_attach (f : ClaimFrontiers) (participant : FrontierParticipant)
    (prior_binding_epoch : BindingEpoch) (rows : list RetainedCausalRecord)
    : live_result ClaimFrontiers :=
  let participants := air_participants (cf_active_identities f) in
  match find_participant (fp_participant_index participant) participants with
  | None => Err (f, LFE_Authority)
  | Some current =>
  match scf_recovery (cf_sequence f), ocf_recovery (cf_order f) with
  | Some sequence_recovery, Some order_recovery =>
  if negb (fenced_recovery_authority_matches current participant prior_binding_epoch
             sequence_recovery order_recovery) then Err (f, LFE_Authority)
  else
    let finalizes_pending := bool_decide (length rows = 2%nat) in
    let pending_terminal_matches := pending_fenced_terminal_matches f rows in
    if negb (candidates_empty f || finalizes_pending && pending_terminal_matches)
    then Err (f, LFE_Precedence (precedence_condition f))
    else if negb (fenced_records_match participant sequence_recovery order_recovery rows
                    pending_terminal_matches) then Err (f, LFE_RecordPosition)
    else if negb (has_recovery_marker f participant) then Err (f, LFE_Authority)
    else if has_duplicate_appended_record f rows then Err (f, LFE_RecordPosition)
    else
      match apply_fenced_ledgers (scf_ledger (cf_sequence f)) (ocf_ledger (cf_order f))
              finalizes_pending with
      | None => Err (f, LFE_ResultingFrontier)
      | Some (sequence_ledger, order_ledger) =>
          match ActiveIdentityRanks_try_new
                  (set_participant (fp_participant_index participant) participant participants)
                  (sl_high_watermark sequence_ledger) (cf_identity_slot_limit f) with
          | Err _ => Err (f, LFE_Authority)
          | Ok active =>
              match rebuild_unreserved_frontiers active sequence_ledger order_ledger with
              | Err _ => Err (f, LFE_ResultingFrontier)
              | Ok (sequence, order) =>
                  Ok (with_frontiers f active sequence order
                        (sort_by_key rcr_delivery_seq (cf_retained_records f ++ rows))
                        (List.filter
                           (fun record => negb (rcr_delivery_seq record =? fp_cursor participant))
                           (cf_marker_records f)))
              end
          end
      end
  | _, _ => Err (f, LFE_Precedence PC_FencedRecovery)
  end
  end.

(** *** Acknowledgements *)

Definition apply_live_identity (f : ClaimFrontiers) (participant : FrontierParticipant)
    : live_result ClaimFrontiers :=
  let participants := air_participants (cf_active_identities f) in
  match find_participant (fp_participant_index participant) participants with
  | None => Err (f, LFE_Authority)
  | Some current =>
      if (fp_cursor participant <? fp_cursor current)
         || (sl_high_watermark (scf_ledger (cf_sequence f)) <? fp_cursor participant)
      then Err (f, LFE_Authority)
      else
        Ok (with_frontiers f
              (mkActiveIdentityRanks
                 (set_participant (fp_participant_index participant) participant participants))
              (cf_sequence f) (cf_order f) (cf_retained_records f) (cf_marker_records f))
  end.

(** ** Markers

    The one-use authorities over a marker; [EdgeSteps] reads them through
    [marker_record_view]. *)

Record ValidatedMarkerCandidate := mkValidatedMarkerCandidate {
  vmc_conversation_id : ConversationId;
  vmc_candidate : MarkerCandidateAuthority;
}.
Record ValidatedMarkerRecord := mkValidatedMarkerRecord {
  vmr_conversation_id : ConversationId;
  vmr_record : RetainedCausalRecord;
  vmr_provenance : MarkerProvenance;
  vmr_target_binding : FrontierBinding;
  vmr_occurrence : MarkerRecordOccurrence;
}.
Definition vmr_participant_id (r : ValidatedMarkerRecord) : ParticipantId :=
  ao_participant_index (rcr_admission_order (vmr_record r)).
Definition vmr_delivery_seq (r : ValidatedMarkerRecord) : DeliverySeq :=
  rcr_delivery_seq (vmr_record r).
Definition vmr_binding_epoch (r : ValidatedMarkerRecord) : BindingEpoch :=
  frontier_binding_epoch (vmr_target_binding r).
Definition marker_record_view (r : ValidatedMarkerRecord) : MarkerRecord :=
  mkMarkerRecord (vmr_conversation_id r) (vmr_participant_id r) (vmr_delivery_seq r)
    (vmr_target_binding r) (vmr_occurrence r).
Definition MarkerDelivery_from_validated_record (r : ValidatedMarkerRecord) : MarkerDelivery :=
  mkMarkerDelivery (vmr_conversation_id r) (vmr_participant_id r) (vmr_binding_epoch r)
    (vmr_delivery_seq r).

Definition find_record (at_ : DeliverySeq) (records : list RetainedCausalRecord)
    : option RetainedCausalRecord :=
  List.find (fun record => rcr_delivery_seq record =? at_) records.

Definition project_offered_marker_progress (f : ClaimFrontiers) (participant_id : ParticipantId)
    (binding_epoch : BindingEpoch) (marker_delivery_seq : DeliverySeq) (event : Event)
    : option ParticipantCursorProgress :=
  record ← find_record marker_delivery_seq (cf_marker_records f);
  match rcr_kind record with
  | RCK_CompactionMarker participant_index provenance =>
      if negb (participant_index =? participant_id) then None
      else
        participant ← active_participant (cf_active_identities f) participant_id;
        if negb (bool_decide (fp_binding participant = FB_Bound binding_epoch)) then None
        else
          match delivered_progress (MarkerDelivery_from_validated_record
                  (mkValidatedMarkerRecord (cf_conversation_id f) record provenance
                     (FB_Bound binding_epoch) MRO_Undelivered)) event with
          | Ok progress => Some progress
          | Err _ => None
          end
  | _ => None
  end.

Record FencedMarkerSourceRecord := mkFencedMarkerSourceRecord {
  fms_conversation_id : ConversationId;
  fms_delivery_seq : DeliverySeq;
  fms_admission_order : AdmissionOrder;
  fms_participant_id : ParticipantId;
  fms_provenance : MarkerProvenance;
  fms_target_binding : FrontierBinding;
}.

Definition fenced_marker_source (f : ClaimFrontiers) (recovery : DetachedCredentialRecovery)
    : option FencedMarkerSourceRecord :=
  if is_some (cf_fenced_marker_issued f)
     || negb (dcr_conversation_id recovery =? cf_conversation_id f)
  then None
  else
    record ← find_record (dcr_marker_delivery_seq recovery) (cf_marker_records f);
    match rcr_kind record with
    | RCK_CompactionMarker participant_index provenance =>
        participant ← active_participant (cf_active_identities f) (dcr_participant_id recovery);
        let target_binding := FB_Detached (dcr_prior_binding_epoch recovery) in
        if negb (participant_index =? dcr_participant_id recovery)
           || negb (bool_decide (fp_binding participant = target_binding))
        then None
        else Some (mkFencedMarkerSourceRecord (cf_conversation_id f) (rcr_delivery_seq record)
                     (rcr_admission_order record) (dcr_participant_id recovery) provenance
                     target_binding)
    | _ => None
    end.

Definition set_fenced_issued (f : ClaimFrontiers)
    (issued : option (ParticipantId * DeliverySeq * BindingEpoch)) : ClaimFrontiers :=
  mkClaimFrontiers (cf_conversation_id f) (cf_active_identities f) (cf_identity_slot_limit f)
    (cf_retained_floor f) (cf_retained_records f) (cf_marker_records f) issued (cf_sequence f)
    (cf_order f).

Definition take_fenced_marker_record (f : ClaimFrontiers) (recovery : DetachedCredentialRecovery)
    : ClaimFrontiers * option ValidatedMarkerRecord :=
  match fenced_marker_source f recovery with
  | None => (f, None)
  | Some source =>
      (set_fenced_issued f (Some (fms_participant_id source, fms_delivery_seq source,
                                  dcr_prior_binding_epoch recovery)),
       Some (mkValidatedMarkerRecord (fms_conversation_id source)
               (mkRetainedCausalRecord (fms_delivery_seq source) (fms_admission_order source)
                  (RCK_CompactionMarker (fms_participant_id source) (fms_provenance source)))
               (fms_provenance source) (fms_target_binding source) MRO_Delivered))
  end.

Definition reinstall_fenced_marker_record (f : ClaimFrontiers) (record : ValidatedMarkerRecord)
    : ClaimFrontiers := set_fenced_issued f None.

Definition marker_candidate (f : ClaimFrontiers) (delivery_seq : DeliverySeq)
    : option ValidatedMarkerCandidate :=
  head (omap (fun candidate =>
    match candidate with
    | ISC_Marker marker =>
        if mca_delivery_seq marker =? delivery_seq
        then Some (mkValidatedMarkerCandidate (cf_conversation_id f) marker) else None
    | ISC_BindingTerminal _ _ _ => None
    end) (scf_immutable_candidates (cf_sequence f))).

(** ** Draining candidates *)

Inductive MarkerDrainCoreError :=
| MDE_NoCandidate | MDE_BindingTerminalFirst | MDE_SequenceNotNext | MDE_CausalMajorNotAllocated
| MDE_MissingOrderCandidate | MDE_ResultingLedger.

Record MarkerDrainCore := mkMarkerDrainCore {
  mdc_frontiers : ClaimFrontiers;
  mdc_candidate : ValidatedMarkerCandidate;
  mdc_record : ValidatedMarkerRecord;
}.

(** Takes the key out of the first group that holds it; an emptied group goes. *)
Fixpoint release_order_key (key : AdmissionOrder) (groups : list ImmutableOrderCandidateMajor)
    : option (list ImmutableOrderCandidateMajor) :=
  match groups with
  | [] => None
  | group :: rest =>
      if bool_decide (key ∈ icm_candidate_keys group) then
        key_index ← binary_search_order (icm_candidate_keys group) key;
        match delete key_index (icm_candidate_keys group) with
        | [] => Some rest
        | keys => Some (mkImmutableOrderCandidateMajor (icm_transaction_order group) keys :: rest)
        end
      else rest ← release_order_key key rest; Some (group :: rest)
  end.

Definition drain_next_marker_core (f : ClaimFrontiers)
    : result MarkerDrainCore MarkerDrainCoreError :=
  let s := cf_sequence f in
  let o := cf_order f in
  match scf_immutable_candidates s with
  | [] => Err MDE_NoCandidate
  | ISC_BindingTerminal _ _ _ :: _ => Err MDE_BindingTerminalFirst
  | ISC_Marker marker :: remaining =>
      let? expected_sequence :=
        ok_or (checked_add u64_max (sl_high_watermark (scf_ledger s)) 1) MDE_SequenceNotNext in
      if negb (mca_delivery_seq marker =? expected_sequence) then Err MDE_SequenceNotNext
      else if order_is_above_high (ao_transaction_order (mca_admission_order marker))
                (ol_high (ocf_ledger o)) then Err MDE_CausalMajorNotAllocated
      else
        let? candidate := ok_or (marker_candidate f (mca_delivery_seq marker)) MDE_NoCandidate in
        let? groups := ok_or (release_order_key (mca_admission_order marker)
                                (ocf_immutable_candidates o)) MDE_MissingOrderCandidate in
        let claims := sl_claims (scf_ledger s) in
        let? markers := if sc_markers claims <? 1 then Err MDE_ResultingLedger
                        else Ok (sc_markers claims - 1) in
        let? ledger :=
          map_err (fun _ => MDE_ResultingLedger)
            (SequenceLedger_try_new expected_sequence
               (mkSequenceClaims (sc_live_members claims) (sc_binding_terminals claims) markers
                  (sc_recovery claims))) in
        let record :=
          mkRetainedCausalRecord (mca_delivery_seq marker) (mca_admission_order marker)
            (RCK_CompactionMarker (ao_participant_index (mca_admission_order marker))
               (mca_provenance marker)) in
        let frontiers :=
          with_frontiers f (cf_active_identities f)
            (mkSequenceClaimFrontier ledger (scf_movable_claims s) remaining (scf_products s)
               (scf_recovery s))
            (mkOrderClaimFrontier (ocf_ledger o) (ocf_movable_claims o) groups (ocf_recovery o))
            (cf_retained_records f ++ [record]) (cf_marker_records f ++ [record]) in
        Ok (mkMarkerDrainCore frontiers candidate
              (mkValidatedMarkerRecord (cf_conversation_id f) record (mca_provenance marker)
                 (mca_target_binding marker) MRO_Undelivered))
  end.

Definition validate_first_terminal_candidate (f : ClaimFrontiers)
    (expected_owner : BindingTerminalOwner) (expected_order : AdmissionOrder)
    : result (DeliverySeq * AdmissionOrder * BindingTerminalOwner) LiveFrontierTransitionError :=
  let s := cf_sequence f in
  let o := cf_order f in
  if is_some (scf_recovery s) || is_some (ocf_recovery o)
  then Err (LFE_Precedence PC_FencedRecovery)
  else
    match scf_immutable_candidates s with
    | [ISC_BindingTerminal delivery_seq admission_order owner] =>
        if negb (bool_decide (owner = expected_owner))
           || negb (bool_decide (admission_order = expected_order)) then Err LFE_Authority
        else
          let? expected_sequence :=
            ok_or (checked_add u64_max (sl_high_watermark (scf_ledger s)) 1) LFE_Exhausted in
          if negb (delivery_seq =? expected_sequence)
             || order_is_above_high (ao_transaction_order admission_order) (ol_high (ocf_ledger o))
          then Err LFE_RecordPosition
          else
            match ocf_immutable_candidates o with
            | [group] =>
                if negb (bool_decide (icm_candidate_keys group = [admission_order]))
                then Err LFE_RecordPosition
                else if existsb (fun participant =>
                          (fp_participant_index participant =? bto_participant_index owner)
                          && bool_decide (fp_binding participant
                                          = FB_Detached (bto_binding_epoch owner)))
                          (air_participants (cf_active_identities f))
                then Ok (delivery_seq, admission_order, owner)
                else Err LFE_Authority
            | _ => Err LFE_RecordPosition
            end
    | _ => Err (LFE_Precedence (precedence_condition f))
    end.

Definition drain_first_binding_terminal (f : ClaimFrontiers)
    (expected_owner : BindingTerminalOwner) (expected_order : AdmissionOrder)
    : live_result (ClaimFrontiers * RetainedCausalRecord) :=
  match validate_first_terminal_candidate f expected_owner expected_order with
  | Err error => Err (f, error)
  | Ok (delivery_seq, admission_order, owner) =>
      let claims := sl_claims (scf_ledger (cf_sequence f)) in
      if sc_binding_terminals claims <? 1 then Err (f, LFE_ResultingFrontier)
      else
        match SequenceLedger_try_new delivery_seq
                (mkSequenceClaims (sc_live_members claims) (sc_binding_terminals claims - 1)
                   (sc_markers claims) (sc_recovery claims)) with
        | Err _ => Err (f, LFE_ResultingFrontier)
        | Ok sequence_ledger =>
            match ActiveIdentityRanks_try_new (air_participants (cf_active_identities f))
                    (sl_high_watermark sequence_ledger) (cf_identity_slot_limit f) with
            | Err _ => Err (f, LFE_Authority)
            | Ok active =>
                match rebuild_unreserved_frontiers active sequence_ledger (ocf_ledger (cf_order f)) with
                | Err error => Err (f, error)
                | Ok (sequence, order) =>
                    let record := mkRetainedCausalRecord delivery_seq admission_order
                                    (RCK_BindingTerminal owner) in
                    Ok (with_frontiers f active sequence order
                          (cf_retained_records f ++ [record]) (cf_marker_records f), record)
                end
            end
        end
  end.

(** ** Binding fate *)

Record BindingFateFrontierPlan := mkBindingFateFrontierPlan {
  bfp_active_identities : ActiveIdentityRanks;
  bfp_resulting_floor : Z;
}.

Definition marker_below (floor : Z) (f : ClaimFrontiers) : bool :=
  existsb (fun record => rcr_delivery_seq record <? floor) (cf_marker_records f).

(** The checks both floor installations share. *)
Definition check_fate_floor (f : ClaimFrontiers) (resulting_floor : Z)
    : result unit LiveFrontierTransitionError :=
  let retained_end := add_u128 (sl_high_watermark (scf_ledger (cf_sequence f))) 1 in
  if (resulting_floor <? cf_retained_floor f) || (retained_end <? resulting_floor)
  then Err LFE_ResultingFrontier
  else if marker_below resulting_floor f then Err (LFE_Precedence PC_Unclassified)
  else Ok tt.

Definition prepare_binding_fate_transition (f : ClaimFrontiers) (participant_id : ParticipantId)
    (binding_epoch : BindingEpoch) (cursor resulting_floor : DeliverySeq)
    (reserve_finalizer : bool) : result BindingFateFrontierPlan LiveFrontierTransitionError :=
  let participants := air_participants (cf_active_identities f) in
  match find_participant participant_id participants with
  | None => Err LFE_Authority
  | Some participant =>
      if negb (fp_cursor participant =? cursor)
         || negb (bool_decide (fp_binding participant = FB_Detached binding_epoch))
      then Err LFE_Authority
      else
        let high_watermark := sl_high_watermark (scf_ledger (cf_sequence f)) in
        let? _ := check_fate_floor f resulting_floor in
        let resulting_cursor := if reserve_finalizer then cursor else high_watermark in
        let participants :=
          set_participant participant_id
            (mkFrontierParticipant participant_id resulting_cursor (FB_Detached binding_epoch))
            participants in
        let? active := map_err (fun _ => LFE_Authority)
          (ActiveIdentityRanks_try_new participants high_watermark (cf_identity_slot_limit f)) in
        Ok (mkBindingFateFrontierPlan active resulting_floor)
  end.

(** Records below the floor are dropped. *)
Definition install_floor (f : ClaimFrontiers) (active : ActiveIdentityRanks) (floor : Z)
    : ClaimFrontiers :=
  let retain := List.filter (fun record => floor <=? rcr_delivery_seq record) in
  mkClaimFrontiers (cf_conversation_id f) active (cf_identity_slot_limit f) floor
    (retain (cf_retained_records f)) (retain (cf_marker_records f)) (cf_fenced_marker_issued f)
    (cf_sequence f) (cf_order f).

Definition install_binding_fate_transition (f : ClaimFrontiers) (plan : BindingFateFrontierPlan)
    : ClaimFrontiers := install_floor f (bfp_active_identities plan) (bfp_resulting_floor plan).

Definition install_finalized_binding_fate_floor (f : ClaimFrontiers) (resulting_floor : Z)
    : result ClaimFrontiers LiveFrontierTransitionError :=
  let? _ := check_fate_floor f resulting_floor in
  Ok (install_floor f (cf_active_identities f) resulting_floor).
