(* ===== verification/RecordProjection.v ===== *)
(** * Ordinary record projection

    Model of [liminal-protocol/src/lifecycle/operations/ordinary_record_projection.rs]
    and of the half of [claim_frontier.rs] that applies it: a record admitted into a
    conversation without debt.  The kernel searches the lowest retained floor at which
    the record fits the configured capacity, decides who has to be told by a marker
    that history was compacted away, and allocates order and sequences; the frontiers
    then make room for the record and its markers by moving every movable owner up.

    The search loop runs on fuel; [search_spec] shows that one round for every
    retained record and two more are enough. *)
From stdpp Require Import sorting.
From S2P Require Import Prelude FrontierLive Algebra Tags Wire Response Order Sequence Edge.
From S2P Require Import EdgeSteps Binding Closure Frontier.

Record RetainedRecordCharge := mkRetainedRecordCharge {
  rrc_delivery_seq : DeliverySeq;
  rrc_admission_order : AdmissionOrder;
  rrc_encoded_charge : ResourceVector;
}.

Record OrdinaryProjectionLimits := mkOrdinaryProjectionLimits {
  opl_marker_max : ResourceVector;
  opl_mandatory_bound : ResourceVector;
  opl_full_recovery_claim : ResourceVector;
}.

Record OrdinaryRecordProjectionInput := mkOrdinaryRecordProjectionInput {
  ori_request : RecordAdmissionEnvelope;
  ori_receiving_binding_epoch : BindingEpoch;
  ori_encoded_record_charge : ResourceVector;
  ori_retained_charges : list RetainedRecordCharge;
  ori_observer_progress : DeliverySeq;
  ori_closure_accounting : ClosureAccounting;
  ori_limits : OrdinaryProjectionLimits;
}.

Record OrdinaryProjectionFacts := mkOrdinaryProjectionFacts {
  opf_request : RecordAdmissionEnvelope;
  opf_receiving_binding_epoch : BindingEpoch;
  opf_encoded_record_charge : ResourceVector;
  opf_retained_records : list RetainedCausalRecord;
  opf_retained_charges : list RetainedRecordCharge;
  opf_active_marker_credit_records : list RetainedCausalRecord;
  opf_unaccepted_marker_anchors : list DeliverySeq;
  opf_active_identities : list FrontierParticipant;
  opf_identity_slot_limit : Z;
  opf_current_floor : Z;
  opf_observer_progress : DeliverySeq;
  opf_order_ledger : OrderLedger;
  opf_sequence_ledger : SequenceLedger;
  opf_immutable_candidates : list ImmutableSequenceCandidate;
  opf_closure_accounting : ClosureAccounting;
  opf_remaining_recovery_claim : ResourceVector;
  opf_limits : OrdinaryProjectionLimits;
}.

Record OrdinaryFixedPointPlan := mkOrdinaryFixedPointPlan {
  ofp_floor : FloorComputation;
  ofp_retained_charge : WideResourceVector;
  ofp_baseline : WideResourceVector;
  ofp_resulting_accounting : ClosureAccounting;
  ofp_required_capacity : RequiredCapacityPlan;
  ofp_order : OrderAllocation;
  ofp_sequence : SequenceLedger;
  ofp_caller_record : RetainedCausalRecord;
  ofp_caller_charge : RetainedRecordCharge;
  ofp_retained_records : list RetainedCausalRecord;
  ofp_retained_charges : list RetainedRecordCharge;
  ofp_marker_candidates : list MarkerCandidateAuthority;
}.

Inductive OrdinaryProjectionKernelDecision :=
| OKD_DrainFirst (candidate : ImmutableSequenceCandidate)
| OKD_Projected (plan : OrdinaryFixedPointPlan).

(** [OPE_Unfinished] stands for a search that is still running when the fuel of the
    model is spent; it is never returned. *)
Inductive OrdinaryProjectionError :=
| OPE_Conversation | OPE_NonzeroDebt | OPE_ClearClosureResidue | OPE_SenderBinding
| OPE_ObserverBeyondHighWatermark | OPE_RetainedSuffix
| OPE_RetainedChargeKey (index : Z)
| OPE_RetainedEntryCharge (delivery_seq : DeliverySeq) (entries : Z)
| OPE_MarkerCredit | OPE_MarkerAnchor
| OPE_MarkerCreditAccounting (derived stored : Z)
| OPE_MarkerAnchorAccounting (derived stored : Z)
| OPE_BaselineAccounting (derived stored : WideResourceVector)
| OPE_ArithmeticOverflow (dimension : ResourceDimension)
| OPE_Order (e : OrderAdmissionError)
| OPE_Sequence (e : SequenceAdmissionError)
| OPE_ObserverBackpressure (cap_floor : Z) (observer_progress : DeliverySeq)
| OPE_MarkerAnchorCapacity (marker_delivery_seq : DeliverySeq) (required : WideResourceVector)
    (limit : ResourceVector)
| OPE_Capacity (required : WideResourceVector) (limit : ResourceVector)
| OPE_RequiredCapacity (e : RequiredCapacityPlanError)
| OPE_ResultingAccounting (e : ClosureAccountingError)
| OPE_SequenceRelocation | OPE_OrderRelocation
| OPE_ObserverSelectorInvariant | OPE_ClosureSelectorInvariant
| OPE_Unfinished.

Abbreviation projection A := (result A OrdinaryProjectionError).

(** ** Preconditions *)

Definition validate_clear_snapshot (f : OrdinaryProjectionFacts) : projection unit :=
  let accounting := opf_closure_accounting f in
  if negb (bool_decide (ca_state accounting = Closure_Clear)) then Err OPE_NonzeroDebt
  else if negb (bool_decide (opf_remaining_recovery_claim f = ResourceVector_default))
          || negb (bool_decide (opf_remaining_recovery_claim f = ca_edge_k_remaining accounting))
          || negb (ca_episode_churn_used accounting =? 0)
  then Err OPE_ClearClosureResidue
  else if sl_high_watermark (opf_sequence_ledger f) <? opf_observer_progress f
  then Err OPE_ObserverBeyondHighWatermark
  else Ok tt.

Definition validate_sender (f : OrdinaryProjectionFacts) : projection unit :=
  match find_participant (rae_participant_id (opf_request f)) (opf_active_identities f) with
  | Some participant =>
      if bool_decide (fp_binding participant = FB_Bound (opf_receiving_binding_epoch f))
      then Ok tt else Err OPE_SenderBinding
  | None => Err OPE_SenderBinding
  end.

(** The rows and their charges side by side, from row [index] on. *)
Fixpoint check_suffix (index floor : Z) (rows : list RetainedCausalRecord)
    (charges : list RetainedRecordCharge) : projection unit :=
  match rows, charges with
  | record :: rows, charge :: charges =>
      if negb (rcr_delivery_seq record =? floor + index)
         || negb (rrc_delivery_seq charge =? rcr_delivery_seq record)
         || negb (bool_decide (rrc_admission_order charge = rcr_admission_order record))
      then Err (OPE_RetainedChargeKey index)
      else if negb (rv_entries (rrc_encoded_charge charge) =? 1)
      then Err (OPE_RetainedEntryCharge (rrc_delivery_seq charge)
                  (rv_entries (rrc_encoded_charge charge)))
      else check_suffix (index + 1) floor rows charges
  | _, _ => Ok tt
  end.

Definition validate_retained_suffix (f : OrdinaryProjectionFacts) : projection unit :=
  let high := sl_high_watermark (opf_sequence_ledger f) in
  let high_end := add_u128 high 1 in
  if high_end <? opf_current_floor f then Err OPE_RetainedSuffix
  else if negb (zlen (opf_retained_records f) =? high_end - opf_current_floor f)
          || negb (bool_decide (length (opf_retained_records f) = length (opf_retained_charges f)))
  then Err OPE_RetainedSuffix
  else
    let? _ := check_suffix 0 (opf_current_floor f) (opf_retained_records f)
                (opf_retained_charges f) in
    if negb (rv_entries (opf_encoded_record_charge f) =? 1)
    then Err (OPE_RetainedEntryCharge (Z.min u64_max (high + 1))
                (rv_entries (opf_encoded_record_charge f)))
    else Ok tt.

Record MarkerCredit := mkMarkerCredit {
  mc_delivery_seq : DeliverySeq;
  mc_participant_index : ParticipantId;
}.
Record MarkerState := mkMarkerState {
  ms_credits : list MarkerCredit;
  ms_anchors : list DeliverySeq;
}.

#[export] Instance RetainedCausalRecord_eq_dec : EqDecision RetainedCausalRecord.
Proof. solve_decision. Defined.

Fixpoint collect_credits (f : OrdinaryProjectionFacts) (credits : list MarkerCredit)
    (records : list RetainedCausalRecord) : projection (list MarkerCredit) :=
  match records with
  | [] => Ok credits
  | credit :: records =>
      match rcr_kind credit with
      | RCK_CompactionMarker participant_index _ =>
          if (opf_identity_slot_limit f <=? participant_index)
             || negb (existsb (fun p => fp_participant_index p =? participant_index)
                        (opf_active_identities f))
             || existsb (fun current => (mc_delivery_seq current =? rcr_delivery_seq credit)
                                        || (mc_participant_index current =? participant_index)) credits
             || negb (bool_decide (credit ∈ opf_retained_records f))
          then Err OPE_MarkerCredit
          else collect_credits f
                 (credits ++ [mkMarkerCredit (rcr_delivery_seq credit) participant_index]) records
      | _ => Err OPE_MarkerCredit
      end
  end.

Fixpoint adjacent_equal (l : list Z) : bool :=
  match l with
  | a :: rest => match rest with b :: _ => (a =? b) || adjacent_equal rest | [] => false end
  | [] => false
  end.

Definition validate_marker_state (f : OrdinaryProjectionFacts) : projection MarkerState :=
  let accounting := opf_closure_accounting f in
  if opf_identity_slot_limit f <? zlen (opf_active_marker_credit_records f)
  then Err OPE_MarkerCredit
  else
    let? credits := collect_credits f [] (opf_active_marker_credit_records f) in
    let credits := sort_by_key mc_delivery_seq credits in
    if negb (zlen credits =? ca_marker_capacity_credits accounting)
    then Err (OPE_MarkerCreditAccounting (zlen credits) (ca_marker_capacity_credits accounting))
    else
      let anchors := sort_by_key id (opf_unaccepted_marker_anchors f) in
      if adjacent_equal anchors
         || existsb (fun anchor =>
              negb (existsb (fun credit => mc_delivery_seq credit =? anchor) credits)) anchors
      then Err OPE_MarkerAnchor
      else if negb (zlen anchors =? ca_marker_anchors accounting)
      then Err (OPE_MarkerAnchorAccounting (zlen anchors) (ca_marker_anchors accounting))
      else Ok (mkMarkerState credits anchors).

(** ** Charges *)

Definition checked_add_resource (current : WideResourceVector) (increment : ResourceVector)
    : projection WideResourceVector :=
  let? entries := ok_or (checked_add u128_max (wrv_entries current) (rv_entries increment))
                    (OPE_ArithmeticOverflow Entries) in
  let? bytes := ok_or (checked_add u128_max (wrv_bytes current) (rv_bytes increment))
                  (OPE_ArithmeticOverflow Bytes) in
  Ok (mkWRV entries bytes).

Definition checked_add_marker_charge (current : WideResourceVector) (count : Z)
    (marker_max : ResourceVector) : projection WideResourceVector :=
  let? entries :=
    ok_or (increment ← checked_mul u128_max count (rv_entries marker_max);
           checked_add u128_max (wrv_entries current) increment) (OPE_ArithmeticOverflow Entries) in
  let? bytes :=
    ok_or (increment ← checked_mul u128_max count (rv_bytes marker_max);
           checked_add u128_max (wrv_bytes current) increment) (OPE_ArithmeticOverflow Bytes) in
  Ok (mkWRV entries bytes).

Fixpoint charge_rows (floor : Z) (credits : list MarkerCredit) (marker_max : ResourceVector)
    (charge : WideResourceVector) (rows : list RetainedCausalRecord)
    (charges : list RetainedRecordCharge) : projection WideResourceVector :=
  match rows, charges with
  | record :: rows, exact :: charges =>
      if rcr_delivery_seq record <? floor
      then charge_rows floor credits marker_max charge rows charges
      else
        let component :=
          if existsb (fun credit => mc_delivery_seq credit =? rcr_delivery_seq record) credits
          then marker_max else rrc_encoded_charge exact in
        let? charge := checked_add_resource charge component in
        charge_rows floor credits marker_max charge rows charges
  | _, _ => Ok charge
  end.

Definition retained_charge_at_floor (f : OrdinaryProjectionFacts) (floor : Z)
    (current_credits : list MarkerCredit) (new_marker_count : Z)
    (caller_sequence : option DeliverySeq) : projection WideResourceVector :=
  let marker_max := opl_marker_max (opf_limits f) in
  let? charge := charge_rows floor current_credits marker_max (mkWRV 0 0)
                   (opf_retained_records f) (opf_retained_charges f) in
  let? charge :=
    match caller_sequence with
    | Some sequence =>
        if floor <=? sequence then checked_add_resource charge (opf_encoded_record_charge f)
        else Ok charge
    | None => Ok charge
    end in
  checked_add_marker_charge charge new_marker_count marker_max.

Definition retained_baseline_wide (retained_charge : WideResourceVector)
    (identity_slots marker_credits : Z) (marker_max : ResourceVector) : projection WideResourceVector :=
  if identity_slots <? marker_credits then Err OPE_MarkerCredit
  else checked_add_marker_charge retained_charge (identity_slots - marker_credits) marker_max.

Definition newly_overtaken (active_identities : list FrontierParticipant)
    (current_credits : list MarkerCredit) (floor : Z) : list FrontierParticipant :=
  List.filter (fun participant =>
    (add_u128 (fp_cursor participant) 1 <? floor)
    && negb (existsb (fun credit => mc_participant_index credit =? fp_participant_index participant)
               current_credits)) active_identities.

(** ** The floor search *)

Record CapacitySearch := mkCapacitySearch {
  cs_floor : Z;
  cs_retained_charge : WideResourceVector;
  cs_baseline : WideResourceVector;
  cs_surviving_credits : list MarkerCredit;
  cs_surviving_anchor_count : Z;
  cs_marker_participants : list FrontierParticipant;
}.

Definition required_maximum (f : OrdinaryProjectionFacts) (baseline : WideResourceVector)
    : projection WideResourceVector :=
  let? plan := map_err OPE_RequiredCapacity
    (RequiredCapacityPlan_ordinary baseline (opl_mandatory_bound (opf_limits f))
       (opl_full_recovery_claim (opf_limits f))) in
  Ok (rcp_maximum plan).

(** What one round computes at its floor. *)
Definition evaluate_floor (f : OrdinaryProjectionFacts) (state : MarkerState)
    (candidate_high_watermark : DeliverySeq) (floor : Z) : projection CapacitySearch :=
  let surviving_credits :=
    List.filter (fun credit => floor <=? mc_delivery_seq credit) (ms_credits state) in
  let surviving_anchor_count := zlen (List.filter (fun anchor => floor <=? anchor) (ms_anchors state)) in
  let marker_participants := newly_overtaken (opf_active_identities f) surviving_credits floor in
  let marker_count := zlen marker_participants in
  let? retained_charge :=
    retained_charge_at_floor f floor surviving_credits marker_count (Some candidate_high_watermark) in
  let? resulting_credits :=
    ok_or (checked_add u64_max (zlen surviving_credits) marker_count) (OPE_ArithmeticOverflow Entries) in
  let? baseline := retained_baseline_wide retained_charge (opf_identity_slot_limit f)
                     resulting_credits (opl_marker_max (opf_limits f)) in
  Ok (mkCapacitySearch floor retained_charge baseline surviving_credits surviving_anchor_count
        marker_participants).

Definition admits (f : OrdinaryProjectionFacts) (baseline : WideResourceVector) : bool :=
  zero_debt_admission baseline (opl_mandatory_bound (opf_limits f))
    (opl_full_recovery_claim (opf_limits f)) (ca_configured_cap (opf_closure_accounting f)).

Definition next_sequence (f : OrdinaryProjectionFacts) (candidate_high_watermark : DeliverySeq)
    (floor : Z) : option DeliverySeq :=
  List.find (fun sequence => floor <=? sequence)
    (map rcr_delivery_seq (opf_retained_records f) ++ [candidate_high_watermark]).

Fixpoint search_loop (fuel : nat) (f : OrdinaryProjectionFacts) (state : MarkerState)
    (candidate_high_watermark : DeliverySeq) (floor : Z) : projection CapacitySearch :=
  match fuel with
  | O => Err OPE_Unfinished
  | S fuel =>
      let limit := ca_configured_cap (opf_closure_accounting f) in
      let? round := evaluate_floor f state candidate_high_watermark floor in
      if admits f (cs_baseline round) then
        match List.find (fun anchor => anchor <? floor) (ms_anchors state) with
        | Some anchor =>
            let? required := required_maximum f (cs_baseline round) in
            Err (OPE_MarkerAnchorCapacity anchor required limit)
        | None => Ok round
        end
      else
        match next_sequence f candidate_high_watermark floor with
        | None =>
            let? required := required_maximum f (cs_baseline round) in
            Err (OPE_Capacity required limit)
        | Some next =>
            let next_floor := add_u128 next 1 in
            match List.find (fun anchor => anchor <? next_floor) (ms_anchors state) with
            | Some anchor =>
                let? required := required_maximum f (cs_baseline round) in
                Err (OPE_MarkerAnchorCapacity anchor required limit)
            | None => search_loop fuel f state candidate_high_watermark next_floor
            end
        end
  end.

Definition search_capacity_floor (f : OrdinaryProjectionFacts) (state : MarkerState)
    (candidate_high_watermark : DeliverySeq) (floor : Z) : projection CapacitySearch :=
  search_loop (S (S (length (opf_retained_records f)))) f state candidate_high_watermark floor.

(** ** The result *)

Fixpoint positioned_markers (index : Z) (marker_participants : list FrontierParticipant)
    (caller_major : TransactionOrder) (caller_sequence physical_floor_at_decision : DeliverySeq)
    : projection (list MarkerCandidateAuthority) :=
  match marker_participants with
  | [] => Ok []
  | participant :: rest =>
      let? offset := ok_or (checked_add u64_max index 1) (OPE_ArithmeticOverflow Entries) in
      let? delivery_seq := ok_or (checked_add u64_max caller_sequence offset)
                             (OPE_Sequence (SAX_HighWatermarkOverflow caller_sequence offset)) in
      let? markers := positioned_markers (index + 1) rest caller_major caller_sequence
                        physical_floor_at_decision in
      Ok (mkMarkerCandidateAuthority delivery_seq
            (mkAdmissionOrder caller_major CP_CompactionMarker (fp_participant_index participant))
            (fp_binding participant) MP_NonProductM (fp_cursor participant) caller_sequence
            physical_floor_at_decision MSO_Marker :: markers)
  end.

(** The rows at or above the floor with their charges, then the caller's. *)
Fixpoint surviving_rows (floor : Z) (rows : list RetainedCausalRecord)
    (charges : list RetainedRecordCharge)
    : list RetainedCausalRecord * list RetainedRecordCharge :=
  match rows, charges with
  | record :: rows, charge :: charges =>
      let rest := surviving_rows floor rows charges in
      if floor <=? rcr_delivery_seq record then (record :: rest.1, charge :: rest.2) else rest
  | _, _ => ([], [])
  end.
Definition resulting_retained_rows (f : OrdinaryProjectionFacts) (floor : Z)
    (caller_record : RetainedCausalRecord) (caller_charge : RetainedRecordCharge)
    : list RetainedCausalRecord * list RetainedRecordCharge :=
  let rows := surviving_rows floor (opf_retained_records f) (opf_retained_charges f) in
  if floor <=? rcr_delivery_seq caller_record
  then (rows.1 ++ [caller_record], rows.2 ++ [caller_charge])
  else rows.

Definition minimum_cursor (ps : list FrontierParticipant) : option DeliverySeq :=
  match ps with
  | [] => None
  | p :: ps => Some (fold_left (fun m p => Z.min m (fp_cursor p)) ps (fp_cursor p))
  end.

(** Step 1: everything before the search. *)
Definition projection_preflight (f : OrdinaryProjectionFacts) : projection MarkerState :=
  let? _ := validate_clear_snapshot f in
  let? _ := validate_sender f in
  let? _ := validate_retained_suffix f in
  let? marker_state := validate_marker_state f in
  let? current_retained_charge :=
    retained_charge_at_floor f (opf_current_floor f) (ms_credits marker_state) 0 None in
  let? current_baseline :=
    retained_baseline_wide current_retained_charge (opf_identity_slot_limit f)
      (zlen (ms_credits marker_state)) (opl_marker_max (opf_limits f)) in
  if negb (bool_decide (current_baseline = ca_baseline (opf_closure_accounting f)))
  then Err (OPE_BaselineAccounting current_baseline (ca_baseline (opf_closure_accounting f)))
  else Ok marker_state.

Definition project_ordinary_fixed_point (f : OrdinaryProjectionFacts)
    : projection OrdinaryProjectionKernelDecision :=
  match opf_immutable_candidates f with
  | candidate :: _ => Ok (OKD_DrainFirst candidate)
  | [] =>
      let accounting := opf_closure_accounting f in
      let high := sl_high_watermark (opf_sequence_ledger f) in
      let? marker_state := projection_preflight f in
      let? order := map_err OPE_Order
        (allocate_order (OAE_RecordAdmission (opf_request f)) (opf_order_ledger f)
           (ol_plan_ordinary_record (opf_order_ledger f))) in
      let? candidate_high_watermark :=
        ok_or (checked_add u64_max high 1) (OPE_Sequence (SAX_HighWatermarkOverflow high 1)) in
      let minimum_member_cursor := minimum_cursor (opf_active_identities f) in
      let base := resulting_floor
        (floor_transition (opf_current_floor f) minimum_member_cursor candidate_high_watermark
           (opf_observer_progress f) (opf_current_floor f)) in
      let? search := search_capacity_floor f marker_state candidate_high_watermark base in
      if add_u128 (opf_observer_progress f) 1 <? cs_floor search
      then Err (OPE_ObserverBackpressure (cs_floor search) (opf_observer_progress f))
      else
        let floor := floor_transition (opf_current_floor f) minimum_member_cursor
                       candidate_high_watermark (opf_observer_progress f) (cs_floor search) in
        let marker_count := zlen (cs_marker_participants search) in
        let? resulting_sequence := map_err OPE_Sequence
          (sl_plan_ordinary_record (opf_sequence_ledger f) marker_count) in
        let? sequence := map_err OPE_Sequence
          (admit_sequence (SAE_RecordAdmission (opf_request f)) resulting_sequence) in
        let caller_order := mkAdmissionOrder (oa_major order) CP_OrdinaryRecord
                              (rae_participant_id (opf_request f)) in
        let caller_record := mkRetainedCausalRecord candidate_high_watermark caller_order
                               (RCK_OrdinaryRecord (rae_participant_id (opf_request f))) in
        let caller_charge := mkRetainedRecordCharge candidate_high_watermark caller_order
                               (opf_encoded_record_charge f) in
        let? physical_floor_at_decision :=
          ok_or (u64_try_from (resulting_floor floor)) (OPE_ArithmeticOverflow Entries) in
        let? marker_candidates :=
          positioned_markers 0 (cs_marker_participants search) (oa_major order)
            candidate_high_watermark physical_floor_at_decision in
        let rows := resulting_retained_rows f (resulting_floor floor) caller_record caller_charge in
        let? resulting_credits :=
          ok_or (checked_add u64_max (zlen (cs_surviving_credits search)) marker_count)
            (OPE_ArithmeticOverflow Entries) in
        let? resulting_anchors :=
          ok_or (checked_add u64_max (cs_surviving_anchor_count search) marker_count)
            (OPE_ArithmeticOverflow Entries) in
        let? required_capacity := map_err OPE_RequiredCapacity
          (RequiredCapacityPlan_ordinary (cs_baseline search) (opl_mandatory_bound (opf_limits f))
             (opl_full_recovery_claim (opf_limits f))) in
        if negb (admits f (cs_baseline search))
        then Err (OPE_Capacity (rcp_maximum required_capacity) (ca_configured_cap accounting))
        else
          let? resulting_accounting := map_err OPE_ResultingAccounting
            (ClosureAccounting_try_new Closure_Clear resulting_credits resulting_anchors 0 0
               ResourceVector_default (cs_baseline search) (ca_configured_cap accounting) 0
               (ca_episode_churn_limit accounting)) in
          Ok (OKD_Projected
                (mkOrdinaryFixedPointPlan floor (cs_retained_charge search) (cs_baseline search)
                   resulting_accounting required_capacity order sequence caller_record caller_charge
                   rows.1 rows.2 marker_candidates))
  end.

(** ** Making room in the frontiers *)

(** Every movable position of the sequence frontier, through [move]. *)
Definition map_terminal_range (move : Z -> Z) (r : TerminalProductRange) : TerminalProductRange :=
  mkTerminalProductRange (move (tpr_start r)) (tpr_length r) (tpr_terminal r).
Definition map_replacement_range (move : Z -> Z) (r : ReplacementTerminalProductRange)
    : ReplacementTerminalProductRange :=
  mkReplacementTerminalProductRange (move (rpr_start r)) (rpr_length r) (rpr_participant_index r)
    (rpr_marker_delivery_seq r) (rpr_prior_binding_epoch r).
Definition map_exit_range (move : Z -> Z) (r : ExitProductRange) : ExitProductRange :=
  mkExitProductRange (move (epr_start r)) (epr_length r) (epr_exit_participant r).
Definition map_sequence_block (move : Z -> Z) (b : RecoverySequenceBlock) : RecoverySequenceBlock :=
  mkRecoverySequenceBlock
    (option_map (fun t => mkRecoverySequenceTerminal (move (rst_delivery_seq t)) (rst_owner t))
       (rsb_terminal b))
    (move (rsb_recovery_attach_seq b)) (move (rsb_replacement_terminal_seq b))
    (rsb_participant_index b) (rsb_marker_delivery_seq b) (rsb_recovered_binding_epoch b).
Definition map_sequence_owners (move : Z -> Z) (s : SequenceClaimFrontier) : SequenceClaimFrontier :=
  mkSequenceClaimFrontier (scf_ledger s)
    (map (fun c => mkMovableSequenceClaim (move (msc_delivery_seq c)) (msc_owner c))
       (scf_movable_claims s))
    (scf_immutable_candidates s)
    (mkSequenceProductRanges
       (map (map_terminal_range move) (spr_live_times_terminal (scf_products s)))
       (option_map (map_replacement_range move) (spr_live_times_replacement_terminal (scf_products s)))
       (map (map_exit_range move) (spr_other_live_times_exit (scf_products s))))
    (option_map (map_sequence_block move) (scf_recovery s)).

Definition map_order_block (move : Z -> Z) (b : RecoveryOrderBlock) : RecoveryOrderBlock :=
  mkRecoveryOrderBlock
    (option_map (fun a => mkRecoveryOrderActiveBinding (move (roa_transaction_order a)) (roa_owner a))
       (rob_active_binding b))
    (move (rob_recovery_operation_order b)) (move (rob_replacement_terminal_order b))
    (rob_participant_index b) (rob_marker_delivery_seq b) (rob_recovered_binding_epoch b).
Definition map_order_owners (move : Z -> Z) (o : OrderClaimFrontier) : OrderClaimFrontier :=
  mkOrderClaimFrontier (ocf_ledger o)
    (map (fun c => mkMovableOrderClaim (move (moc_transaction_order c)) (moc_owner c))
       (ocf_movable_claims o))
    (ocf_immutable_candidates o) (option_map (map_order_block move) (ocf_recovery o)).

Definition relay_ordinary_sequence_owners (s : SequenceClaimFrontier) (delta : Z)
    : SequenceClaimFrontier := map_sequence_owners (fun at_ => add_u64 at_ delta) s.
Definition rollback_ordinary_sequence_owners (s : SequenceClaimFrontier) (delta : Z)
    : SequenceClaimFrontier := map_sequence_owners (fun at_ => sub_u64 at_ delta) s.
Definition relay_ordinary_order_owners (o : OrderClaimFrontier) : OrderClaimFrontier :=
  map_order_owners (fun at_ => add_u64 at_ 1) o.
Definition rollback_ordinary_order_owners (o : OrderClaimFrontier) : OrderClaimFrontier :=
  map_order_owners (fun at_ => sub_u64 at_ 1) o.

(** Every position the relays move, in the order the preflights check them. *)
Definition block_sequences (b : RecoverySequenceBlock) : list Z :=
  match rsb_terminal b with Some t => [rst_delivery_seq t] | None => [] end
  ++ [rsb_recovery_attach_seq b; rsb_replacement_terminal_seq b].
Definition movable_sequences (s : SequenceClaimFrontier) : list Z :=
  map msc_delivery_seq (scf_movable_claims s)
  ++ map tpr_start (spr_live_times_terminal (scf_products s))
  ++ match spr_live_times_replacement_terminal (scf_products s) with
     | Some r => [rpr_start r] | None => []
     end
  ++ map epr_start (spr_other_live_times_exit (scf_products s))
  ++ match scf_recovery s with Some b => block_sequences b | None => [] end.
Definition block_orders (b : RecoveryOrderBlock) : list Z :=
  match rob_active_binding b with Some a => [roa_transaction_order a] | None => [] end
  ++ [rob_recovery_operation_order b; rob_replacement_terminal_order b].
Definition movable_orders (o : OrderClaimFrontier) : list Z :=
  map moc_transaction_order (ocf_movable_claims o)
  ++ match ocf_recovery o with Some b => block_orders b | None => [] end.

Definition all_move (positions : list Z) (delta : Z) : bool :=
  forallb (fun at_ => is_some (checked_add u64_max at_ delta)) positions.

Definition preflight_ordinary_sequence_owners (s : SequenceClaimFrontier) (delta : Z)
    : projection unit :=
  if negb (bool_decide (length (scf_immutable_candidates s) = 0%nat)) then Err OPE_SequenceRelocation
  else if all_move (movable_sequences s) delta then Ok tt else Err OPE_SequenceRelocation.
Definition preflight_ordinary_order_owners (o : OrderClaimFrontier) : projection unit :=
  if negb (bool_decide (length (ocf_immutable_candidates o) = 0%nat)) then Err OPE_OrderRelocation
  else if all_move (movable_orders o) 1 then Ok tt else Err OPE_OrderRelocation.

Record ProjectedOrdinaryRecord := mkProjectedOrdinaryRecord {
  por_frontiers : ClaimFrontiers;
  por_plan : OrdinaryFixedPointPlan;
  por_observer_floor : ObserverFloorPermit;
  por_closure : RemainingClosurePermit;
}.
Record OrdinaryRecordDrainFirst := mkOrdinaryRecordDrainFirst {
  odf_frontiers : ClaimFrontiers;
  odf_input : OrdinaryRecordProjectionInput;
  odf_candidate : ImmutableSequenceCandidate;
}.
Inductive OrdinaryRecordProjectionDecision :=
| OPD_DrainFirst (d : OrdinaryRecordDrainFirst)
| OPD_Projected (p : ProjectedOrdinaryRecord).
Record OrdinaryRecordProjectionFailure := mkOrdinaryRecordProjectionFailure {
  opx_frontiers : ClaimFrontiers;
  opx_input : OrdinaryRecordProjectionInput;
  opx_error : OrdinaryProjectionError;
}.

(** The frontiers with the record and its markers in place. *)
Definition projected_sequence (s : SequenceClaimFrontier) (plan : OrdinaryFixedPointPlan)
    (delta : Z) : SequenceClaimFrontier :=
  let moved := relay_ordinary_sequence_owners s delta in
  mkSequenceClaimFrontier (ofp_sequence plan) (scf_movable_claims moved)
    (scf_immutable_candidates moved ++ map ISC_Marker (ofp_marker_candidates plan))
    (scf_products moved) (scf_recovery moved).
Definition projected_order (o : OrderClaimFrontier) (plan : OrdinaryFixedPointPlan)
    : OrderClaimFrontier :=
  let moved := relay_ordinary_order_owners o in
  mkOrderClaimFrontier (oa_resulting (ofp_order plan)) (ocf_movable_claims moved)
    (ocf_immutable_candidates moved ++
     match ofp_marker_candidates plan with
     | [] => []
     | markers => [mkImmutableOrderCandidateMajor (oa_major (ofp_order plan))
                     (map mca_admission_order markers)]
     end) (ocf_recovery moved).
(** After a failed cross check: the ledgers are put back, the candidates cleared (there
    were none) and the owners moved down again. *)
Definition rolled_back_sequence (s moved : SequenceClaimFrontier) (delta : Z)
    : SequenceClaimFrontier :=
  rollback_ordinary_sequence_owners
    (mkSequenceClaimFrontier (scf_ledger s) (scf_movable_claims moved) [] (scf_products moved)
       (scf_recovery moved)) delta.
Definition rolled_back_order (o moved : OrderClaimFrontier) : OrderClaimFrontier :=
  rollback_ordinary_order_owners
    (mkOrderClaimFrontier (ocf_ledger o) (ocf_movable_claims moved) [] (ocf_recovery moved)).

Definition apply_ordinary_projection (f : ClaimFrontiers) (plan : OrdinaryFixedPointPlan)
    (observer_floor : ObserverFloorPermit) (closure : RemainingClosurePermit)
    : result ProjectedOrdinaryRecord (ClaimFrontiers * OrdinaryProjectionError) :=
  match checked_add u64_max (zlen (ofp_marker_candidates plan)) 1 with
  | None => Err (f, OPE_SequenceRelocation)
  | Some sequence_delta =>
      match preflight_ordinary_sequence_owners (cf_sequence f) sequence_delta with
      | Err error => Err (f, error)
      | Ok _ =>
      match preflight_ordinary_order_owners (cf_order f) with
      | Err error => Err (f, error)
      | Ok _ =>
          let sequence := projected_sequence (cf_sequence f) plan sequence_delta in
          let order := projected_order (cf_order f) plan in
          match validate_cross_counter sequence order with
          | Err _ =>
              Err (with_frontiers f (cf_active_identities f)
                     (rolled_back_sequence (cf_sequence f) sequence sequence_delta)
                     (rolled_back_order (cf_order f) order)
                     (cf_retained_records f) (cf_marker_records f), OPE_SequenceRelocation)
          | Ok _ =>
              let floor := resulting_floor (ofp_floor plan) in
              Ok (mkProjectedOrdinaryRecord
                    (mkClaimFrontiers (cf_conversation_id f) (cf_active_identities f)
                       (cf_identity_slot_limit f) floor (ofp_retained_records plan)
                       (List.filter (fun record => floor <=? rcr_delivery_seq record)
                          (cf_marker_records f))
                       (cf_fenced_marker_issued f) sequence order)
                    plan observer_floor closure)
          end
      end
      end
  end.

Definition projection_facts (f : ClaimFrontiers) (input : OrdinaryRecordProjectionInput)
    : OrdinaryProjectionFacts :=
  mkOrdinaryProjectionFacts (ori_request input) (ori_receiving_binding_epoch input)
    (ori_encoded_record_charge input) (cf_retained_records f) (ori_retained_charges input)
    (cf_marker_records f) (ordinary_unaccepted_marker_anchors f)
    (air_participants (cf_active_identities f)) (cf_identity_slot_limit f) (cf_retained_floor f)
    (ori_observer_progress input) (ocf_ledger (cf_order f)) (scf_ledger (cf_sequence f))
    (scf_immutable_candidates (cf_sequence f)) (ori_closure_accounting input)
    (ca_edge_k_remaining (ori_closure_accounting input)) (ori_limits input).

Definition project_ordinary_record (f : ClaimFrontiers) (input : OrdinaryRecordProjectionInput)
    : result OrdinaryRecordProjectionDecision OrdinaryRecordProjectionFailure :=
  let failure f error := Err (mkOrdinaryRecordProjectionFailure f input error) in
  let request := ori_request input in
  if negb (rae_conversation_id request =? cf_conversation_id f) then failure f OPE_Conversation
  else
    match project_ordinary_fixed_point (projection_facts f input) with
    | Err error => failure f error
    | Ok (OKD_DrainFirst candidate) =>
        Ok (OPD_DrainFirst (mkOrdinaryRecordDrainFirst f input candidate))
    | Ok (OKD_Projected projected) =>
        match check_observer_floor (OCO_RecordAdmission request) (ori_observer_progress input)
                (resulting_floor (ofp_floor projected)) with
        | OFD_Respond _ => failure f OPE_ObserverSelectorInvariant
        | OFD_Eligible observer_floor =>
        match check_remaining_closure (CCE_RecordAdmission request) (ori_closure_accounting input)
                false 0 (ofp_required_capacity projected) with
        | RCD_Respond _ => failure f OPE_ClosureSelectorInvariant
        | RCD_Eligible closure =>
            match apply_ordinary_projection f projected observer_floor closure with
            | Ok projected => Ok (OPD_Projected projected)
            | Err (frontiers, error) => failure frontiers error
            end
        end
        end
    end.
