(* ===== verification/RecordOperations.v ===== *)
(** * Marker drains and record admission

    Model of [liminal-protocol/src/lifecycle/operations/marker_drain.rs] (the first marker
    candidate becomes a retained record and the current closure edge advances over it)
    and [record_admission.rs] (the selectors an ordinary record passes before and around
    its projection; a refusal gives back the prestate it consumed). *)
From S2P Require Import Prelude RecordProjection Algebra Tags Wire Response Authority Order.
From S2P Require Import Sequence Edge Binding EdgeSteps Member Detach Attach Lookup Capacity.
From S2P Require Import Closure Frontier FrontierLive.

(** ** marker_drain.rs *)

Inductive MarkerDrainError :=
| MDX_NoCandidate | MDX_BindingTerminalFirst | MDX_SequenceNotNext | MDX_CurrentEdgeMismatch
| MDX_CausalMajorNotAllocated | MDX_MissingOrderCandidate | MDX_ResultingLedger
| MDX_AuthorityMismatch | MDX_MarkerChargeKey | MDX_MarkerEntryCharge | MDX_ResultingAccounting.
Record MarkerDeliveryProjection := mkMarkerDeliveryProjection { mdp_delivery : ParticipantDelivery }.
Record MarkerDrainCommit := mkMarkerDrainCommit {
  mdm_frontiers : ClaimFrontiers;
  mdm_closure_accounting : ClosureAccounting;
  mdm_retained_charges : list RetainedRecordCharge;
  mdm_marker_successor : StoredEdge;
  mdm_delivery_projection : MarkerDeliveryProjection;
  mdm_record : ValidatedMarkerRecord;
}.

Definition map_core_error (error : MarkerDrainCoreError) : MarkerDrainError :=
  match error with
  | MDE_NoCandidate => MDX_NoCandidate
  | MDE_BindingTerminalFirst => MDX_BindingTerminalFirst
  | MDE_SequenceNotNext => MDX_SequenceNotNext
  | MDE_CausalMajorNotAllocated => MDX_CausalMajorNotAllocated
  | MDE_MissingOrderCandidate => MDX_MissingOrderCandidate
  | MDE_ResultingLedger => MDX_ResultingLedger
  end.

Definition apply_marker_append (current : ClosureState) (marker_delivery_seq : DeliverySeq)
    : result ClosureState MarkerDrainError :=
  let event := event_marker_appended marker_delivery_seq marker_delivery_seq in
  match current with
  | Closure_Clear => Ok Closure_Clear
  | Closure_Owed debt (SE_ObserverProjection projection) =>
      let? successor := ok_or
        (later_projection_after_marker projection event debt
           (mkObserverProjection marker_delivery_seq)) MDX_CurrentEdgeMismatch in
      map_err (fun _ => MDX_CurrentEdgeMismatch)
        (projection_marker_appended projection debt event successor)
  | Closure_Owed debt (SE_PhysicalCompaction compaction) =>
      map_err (fun _ => MDX_CurrentEdgeMismatch) (compaction_marker_appended compaction debt event)
  | Closure_Owed _ _ => Err MDX_CurrentEdgeMismatch
  end.

(** Charge [i] is keyed like retained row [i]. *)
Fixpoint charges_keyed (charges : list RetainedRecordCharge) (rows : list RetainedCausalRecord)
    : bool :=
  match charges, rows with
  | charge :: charges, row :: rows =>
      (rrc_delivery_seq charge =? rcr_delivery_seq row)
      && bool_decide (rrc_admission_order charge = rcr_admission_order row)
      && charges_keyed charges rows
  | _, _ => true
  end.

Definition drain_next_marker (frontiers : ClaimFrontiers) (current_accounting : ClosureAccounting)
    (retained_charges : list RetainedRecordCharge) (marker_charge : RetainedRecordCharge)
    : result MarkerDrainCommit MarkerDrainError :=
  let? core := map_err map_core_error (drain_next_marker_core frontiers) in
  let frontiers := mdc_frontiers core in
  let record := mdc_record core in
  let candidate_conversation_id := vmc_conversation_id (mdc_candidate core) in
  let candidate := vmc_candidate (mdc_candidate core) in
  let candidate_participant := ao_participant_index (mca_admission_order candidate) in
  let candidate_sequence := mca_delivery_seq candidate in
  let delivery_projection :=
    mkMarkerDeliveryProjection
      (mkParticipantDelivery candidate_conversation_id candidate_sequence
         (PR_HistoryCompacted candidate_participant (mca_abandoned_after candidate)
            (mca_abandoned_through candidate) (mca_physical_floor_at_decision candidate))) in
  let marker_successor :=
    successor_from_validated_candidate candidate_conversation_id candidate_participant
      candidate_sequence (mca_target_binding candidate) in
  if negb (vmr_conversation_id record =? candidate_conversation_id)
     || negb (vmr_participant_id record =? candidate_participant)
     || negb (vmr_delivery_seq record =? candidate_sequence)
     || negb (bool_decide (vmr_target_binding record = mca_target_binding candidate))
     || negb (bool_decide (vmr_provenance record = mca_provenance candidate))
  then Err MDX_AuthorityMismatch
  else if negb (rrc_delivery_seq marker_charge =? vmr_delivery_seq record)
          || negb (bool_decide (rrc_admission_order marker_charge
                                = rcr_admission_order (vmr_record record)))
  then Err MDX_MarkerChargeKey
  else if negb (rv_entries (rrc_encoded_charge marker_charge) =? 1) then Err MDX_MarkerEntryCharge
  else
    let? closure := apply_marker_append (ca_state current_accounting) candidate_sequence in
    let? closure_accounting := map_err (fun _ => MDX_ResultingAccounting)
      (ClosureAccounting_try_new closure (ca_marker_capacity_credits current_accounting)
         (ca_marker_anchors current_accounting) (ca_edge_sequence_claims current_accounting)
         (ca_edge_order_position_claims current_accounting) (ca_edge_k_remaining current_accounting)
         (ca_baseline current_accounting) (ca_configured_cap current_accounting)
         (ca_episode_churn_used current_accounting) (ca_episode_churn_limit current_accounting)) in
    let retained_charges := retained_charges ++ [marker_charge] in
    if negb (bool_decide (length retained_charges = length (cf_retained_records frontiers)))
       || negb (charges_keyed retained_charges (cf_retained_records frontiers))
    then Err MDX_MarkerChargeKey
    else Ok (mkMarkerDrainCommit frontiers closure_accounting retained_charges marker_successor
               delivery_projection record).

(** ** record_admission.rs: data *)

Record RecordAdmissionPrestate (EF V LF : Type) := mkRecordAdmissionPrestate {
  rap_request : RecordAdmission;
  rap_presented_identity : PresentedIdentity EF V LF;
  rap_binding : BindingState;
  rap_receiving_binding_epoch : BindingEpoch;
  rap_connection_tracking : ConnectionConversationTracking;
  rap_connection_capacity : CapacityCounter;
  rap_closure_accounting : ClosureAccounting;
  rap_max_ordinary_record_charge : ResourceVector;
  rap_frontiers : ClaimFrontiers;
  rap_retained_charges : list RetainedRecordCharge;
  rap_observer_progress : DeliverySeq;
  rap_projection_limits : OrdinaryProjectionLimits;
}.
Arguments mkRecordAdmissionPrestate {EF V LF}.
Arguments rap_request {EF V LF} _.
Arguments rap_presented_identity {EF V LF} _.
Arguments rap_binding {EF V LF} _.
Arguments rap_receiving_binding_epoch {EF V LF} _.
Arguments rap_connection_tracking {EF V LF} _.
Arguments rap_connection_capacity {EF V LF} _.
Arguments rap_closure_accounting {EF V LF} _.
Arguments rap_max_ordinary_record_charge {EF V LF} _.
Arguments rap_frontiers {EF V LF} _.
Arguments rap_retained_charges {EF V LF} _.
Arguments rap_observer_progress {EF V LF} _.
Arguments rap_projection_limits {EF V LF} _.

Record UnchangedRecordAdmission (EF V LF : Type) := mkUnchangedRecordAdmission {
  ura_prestate : RecordAdmissionPrestate EF V LF;
  ura_encoded_record_charge : ResourceVector;
}.
Arguments mkUnchangedRecordAdmission {EF V LF}.
Arguments ura_prestate {EF V LF} _.
Arguments ura_encoded_record_charge {EF V LF} _.

Record CommittedOrdinaryRecord := mkCommittedOrdinaryRecord {
  cor_request : RecordAdmission;
  cor_admission_order : AdmissionOrder;
  cor_delivery_seq : DeliverySeq;
  cor_encoded_record_charge : ResourceVector;
}.
Definition CommittedOrdinaryRecord_new (request : RecordAdmission)
    (transaction_order : TransactionOrder) (delivery_seq : DeliverySeq)
    (encoded_record_charge : ResourceVector) : CommittedOrdinaryRecord :=
  mkCommittedOrdinaryRecord request
    (mkAdmissionOrder transaction_order CP_OrdinaryRecord (ra_participant_id request))
    delivery_seq encoded_record_charge.

Record RecordAdmissionCommit := mkRecordAdmissionCommit {
  rac_outcome : RecordCommitted;
  rac_record : CommittedOrdinaryRecord;
  rac_connection_capacity : ConnectionConversationCapacityCommit;
  rac_projection : ProjectedOrdinaryRecord;
}.
Record RecordAdmissionPersistenceParts := mkRecordAdmissionPersistenceParts {
  rpp_outcome : RecordCommitted;
  rpp_record : CommittedOrdinaryRecord;
  rpp_connection_capacity : ConnectionConversationCapacityCommit;
  rpp_order : OrderAllocation;
  rpp_sequence : SequenceLedger;
  rpp_observer_floor : ObserverFloorPermit;
  rpp_closure : RemainingClosurePermit;
  rpp_frontiers : ClaimFrontiers;
  rpp_floor : FloorComputation;
  rpp_retained_charge : WideResourceVector;
  rpp_baseline : WideResourceVector;
  rpp_accounting : ClosureAccounting;
  rpp_required_capacity : RequiredCapacityPlan;
  rpp_caller_record : RetainedCausalRecord;
  rpp_caller_charge : RetainedRecordCharge;
  rpp_retained_charges : list RetainedRecordCharge;
  rpp_marker_candidates : list MarkerCandidateAuthority;
}.
Definition into_persistence_parts (c : RecordAdmissionCommit) : RecordAdmissionPersistenceParts :=
  let p := rac_projection c in
  let plan := por_plan p in
  mkRecordAdmissionPersistenceParts (rac_outcome c) (rac_record c) (rac_connection_capacity c)
    (ofp_order plan) (ofp_sequence plan) (por_observer_floor p) (por_closure p) (por_frontiers p)
    (ofp_floor plan) (ofp_retained_charge plan) (ofp_baseline plan) (ofp_resulting_accounting plan)
    (ofp_required_capacity plan) (ofp_caller_record plan) (ofp_caller_charge plan)
    (ofp_retained_charges plan) (ofp_marker_candidates plan).

Inductive RecordAdmissionFault :=
| RAF_Projection (e : OrdinaryProjectionError)
| RAF_Order (e : OrderAdmissionError)
| RAF_Sequence (e : SequenceAdmissionError)
| RAF_RequiredCapacity (e : RequiredCapacityPlanError)
| RAF_RefusalInvariant.
Inductive RecordAdmissionDecision (EF V LF : Type) :=
| RAD_Respond (response : RecordAdmissionResponse) (unchanged : UnchangedRecordAdmission EF V LF)
| RAD_DrainFirst (candidate : ImmutableSequenceCandidate)
    (unchanged : UnchangedRecordAdmission EF V LF)
| RAD_Commit (commit : RecordAdmissionCommit)
| RAD_Fault (fault : RecordAdmissionFault) (unchanged : UnchangedRecordAdmission EF V LF).
Arguments RAD_Respond {EF V LF} _ _.
Arguments RAD_DrainFirst {EF V LF} _ _.
Arguments RAD_Commit {EF V LF} _.
Arguments RAD_Fault {EF V LF} _ _.

(** ** record_admission.rs: failures *)

Abbreviation response_or_fault := (result RecordAdmissionResponse RecordAdmissionFault).

Definition order_failure (error : OrderAdmissionError) : response_or_fault :=
  match error with
  | OAX_Exhausted value => Ok (RecordAdmissionResponse_from_conversation_order_exhausted value)
  | other => Err (RAF_Order other)
  end.
Definition sequence_failure (error : SequenceAdmissionError) : response_or_fault :=
  match error with
  | SAX_Exhausted value => Ok (RecordAdmissionResponse_from_conversation_sequence_exhausted value)
  | other => Err (RAF_Sequence other)
  end.
Definition capacity_failure (required : WideResourceVector) (envelope : RecordAdmissionEnvelope)
    (accounting : ClosureAccounting) : response_or_fault :=
  match from_successors [required] with
  | Err error => Err (RAF_RequiredCapacity error)
  | Ok required_capacity =>
      match check_remaining_closure (CCE_RecordAdmission envelope) accounting false 0
              required_capacity with
      | RCD_Respond value =>
          Ok (RecordAdmissionResponse_from_marker_closure_capacity_exceeded value)
      | RCD_Eligible _ => Err RAF_RefusalInvariant
      end
  end.
Definition record_projection_failure (error : OrdinaryProjectionError)
    (envelope : RecordAdmissionEnvelope) (accounting : ClosureAccounting) : response_or_fault :=
  match error with
  | OPE_Order error => order_failure error
  | OPE_Sequence error => sequence_failure error
  | OPE_ObserverBackpressure cap_floor observer_progress =>
      match check_observer_floor (OCO_RecordAdmission envelope) observer_progress cap_floor with
      | OFD_Respond value => Ok (RecordAdmissionResponse_from_observer_backpressure value)
      | OFD_Eligible _ => Err (RAF_Projection error)
      end
  | OPE_Capacity required _ | OPE_MarkerAnchorCapacity _ required _ =>
      capacity_failure required envelope accounting
  | other => Err (RAF_Projection other)
  end.
Definition nonzero_debt_response (envelope : RecordAdmissionEnvelope) (frontiers : ClaimFrontiers)
    (accounting : ClosureAccounting) (observer_progress : DeliverySeq)
    (limits : OrdinaryProjectionLimits) : response_or_fault :=
  match allocate_order (OAE_RecordAdmission envelope) (ocf_ledger (cf_order frontiers))
          (ol_plan_ordinary_record (ocf_ledger (cf_order frontiers))) with
  | Err error => order_failure error
  | Ok _order =>
  match sl_plan_ordinary_record (scf_ledger (cf_sequence frontiers)) 0 with
  | Err error => sequence_failure error
  | Ok sequence_plan =>
  match admit_sequence (SAE_RecordAdmission envelope) sequence_plan with
  | Err error => sequence_failure error
  | Ok _ =>
  match check_observer_floor (OCO_RecordAdmission envelope) observer_progress
          (cf_retained_floor frontiers) with
  | OFD_Respond value => Ok (RecordAdmissionResponse_from_observer_backpressure value)
  | OFD_Eligible _ =>
  match RequiredCapacityPlan_ordinary (ca_baseline accounting) (opl_mandatory_bound limits)
          (ca_edge_k_remaining accounting) with
  | Err error => Err (RAF_RequiredCapacity error)
  | Ok required =>
      let delivered_marker_awaiting_ack :=
        match ca_state accounting with
        | Closure_Owed _ (SE_ParticipantCursorProgress progress) =>
            is_some (cp_marker_delivery_seq progress)
        | _ => false
        end in
      match check_remaining_closure (CCE_RecordAdmission envelope) accounting
              delivered_marker_awaiting_ack 0 required with
      | RCD_Respond value =>
          Ok (RecordAdmissionResponse_from_marker_closure_capacity_exceeded value)
      | RCD_Eligible _ => Err RAF_RefusalInvariant
      end
  end end end end end.

(** ** record_admission.rs: the operation *)

Section RecordAdmission.
Context {EF V LF : Type}.

Definition classify_record_admission_binding (presented_identity : PresentedIdentity EF V LF)
    (binding : BindingState) (receiving_binding_epoch : BindingEpoch) (request : RecordAdmission)
    : option RecordAdmissionResponse :=
  match lookup_binding_required presented_identity binding (Some receiving_binding_epoch)
          (PBR_RecordAdmission request) with
  | BLR_Retired value => Some (RecordAdmissionResponse_from_retired value)
  | BLR_ParticipantUnknown value => Some (RecordAdmissionResponse_from_participant_unknown value)
  | BLR_StaleAuthority value => Some (RecordAdmissionResponse_from_stale_authority value)
  | BLR_NoBinding value => Some (RecordAdmissionResponse_from_no_binding value)
  | BLR_Authorized _ _ => None
  end.

Definition refused (prestate : RecordAdmissionPrestate EF V LF)
    (encoded_record_charge : ResourceVector) (response : RecordAdmissionResponse)
    : RecordAdmissionDecision EF V LF :=
  RAD_Respond response (mkUnchangedRecordAdmission prestate encoded_record_charge).
Definition fault (prestate : RecordAdmissionPrestate EF V LF)
    (encoded_record_charge : ResourceVector) (operation_fault : RecordAdmissionFault)
    : RecordAdmissionDecision EF V LF :=
  RAD_Fault operation_fault (mkUnchangedRecordAdmission prestate encoded_record_charge).
Definition settle (prestate : RecordAdmissionPrestate EF V LF)
    (encoded_record_charge : ResourceVector) (outcome : response_or_fault)
    : RecordAdmissionDecision EF V LF :=
  match outcome with
  | Ok response => refused prestate encoded_record_charge response
  | Err operation_fault => fault prestate encoded_record_charge operation_fault
  end.

(** [RecordAdmissionProjectionShell::rebuild]: the fields kept aside with what the
    projection returns. *)
Definition rebuild (shell : RecordAdmissionPrestate EF V LF) (frontiers : ClaimFrontiers)
    (projection : OrdinaryRecordProjectionInput) : RecordAdmissionPrestate EF V LF :=
  mkRecordAdmissionPrestate (rap_request shell) (rap_presented_identity shell) (rap_binding shell)
    (ori_receiving_binding_epoch projection) (rap_connection_tracking shell)
    (rap_connection_capacity shell) (ori_closure_accounting projection)
    (rap_max_ordinary_record_charge shell) frontiers (ori_retained_charges projection)
    (ori_observer_progress projection) (ori_limits projection).

Definition apply_record_admission (input : RecordAdmissionPrestate EF V LF)
    (encoded_record_charge : ResourceVector) : RecordAdmissionDecision EF V LF :=
  let envelope := record_admission_envelope (rap_request input) in
  match classify_record_admission_binding (rap_presented_identity input) (rap_binding input)
          (rap_receiving_binding_epoch input) (rap_request input) with
  | Some response => refused input encoded_record_charge response
  | None =>
  match select_semantic_connection_capacity (rap_connection_tracking input)
          (rap_connection_capacity input) with
  | SCD_Respond limit =>
      refused input encoded_record_charge
        (RecordAdmissionResponse_connection_conversation_capacity_exceeded envelope limit)
  | SCD_Commit connection_capacity =>
  match check_record_size envelope encoded_record_charge (rap_max_ordinary_record_charge input) with
  | RSD_Respond value =>
      refused input encoded_record_charge (RecordAdmissionResponse_record_too_large value)
  | RSD_Eligible size =>
  if bool_decide (length (scf_immutable_candidates (cf_sequence (rap_frontiers input))) = 0%nat)
     && negb (bool_decide (ca_state (rap_closure_accounting input) = Closure_Clear))
  then settle input encoded_record_charge
         (nonzero_debt_response envelope (rap_frontiers input) (rap_closure_accounting input)
            (rap_observer_progress input) (rap_projection_limits input))
  else
    let projection_input :=
      mkOrdinaryRecordProjectionInput envelope (rap_receiving_binding_epoch input)
        (rsp_encoded_record_charge size) (rap_retained_charges input) (rap_observer_progress input)
        (rap_closure_accounting input) (rap_projection_limits input) in
    match project_ordinary_record (rap_frontiers input) projection_input with
    | Ok (OPD_DrainFirst value) =>
        RAD_DrainFirst (odf_candidate value)
          (mkUnchangedRecordAdmission (rebuild input (odf_frontiers value) (odf_input value))
             encoded_record_charge)
    | Err failure =>
        settle (rebuild input (opx_frontiers failure) (opx_input failure)) encoded_record_charge
          (record_projection_failure (opx_error failure) envelope (rap_closure_accounting input))
    | Ok (OPD_Projected projected) =>
        let delivery_seq := sl_high_watermark (ofp_sequence (por_plan projected)) in
        RAD_Commit
          (mkRecordAdmissionCommit (mkRecordCommitted envelope delivery_seq)
             (CommittedOrdinaryRecord_new (rap_request input)
                (oa_major (ofp_order (por_plan projected))) delivery_seq
                (rsp_encoded_record_charge size))
             connection_capacity projected)
    end
  end end end.
End RecordAdmission.
