(* ===== verification/FrontierInit.v ===== *)
(** * Claim frontiers: initial enrollment

    The first frontiers of a conversation, as
    [liminal-protocol/src/lifecycle/claim_frontier.rs] builds them from the shape of an
    initial enrollment: one bound identity, its [Attached] record, one terminal, one exit
    and the single product position of the terminal. *)
From S2P Require Import Prelude FrontierLive Algebra Tags Wire Response Order Sequence Edge.
From S2P Require Import Binding Member Attach Closure Frontier.

Inductive InitialEnrollmentFrontierError :=
| IFE_AttachedChargeMismatch (expected actual : ResourceVector)
| IFE_EnrollmentShape | IFE_LedgerShape | IFE_ClosureProjection | IFE_PositionOverflow
| IFE_FrontierInvariant.

Record InitialEnrollmentFrontierShape := mkInitialEnrollmentFrontierShape {
  ies_conversation_id : ConversationId;
  ies_binding_epoch : BindingEpoch;
  ies_identity_slot_limit : Z;
  ies_retained_floor : Z;
  ies_attached : AttachedLifecycleRecord;
  ies_order_ledger : OrderLedger;
  ies_sequence_ledger : SequenceLedger;
  ies_closure_accounting : ClosureAccounting;
}.

Record InitialFrontierPositions := mkInitialFrontierPositions {
  ifp_terminal_sequence : DeliverySeq;
  ifp_exit_sequence : DeliverySeq;
  ifp_product_sequence : DeliverySeq;
  ifp_active_terminal_order : TransactionOrder;
  ifp_exit_order : TransactionOrder;
}.

Definition initial_frontier_positions (attached : AttachedLifecycleRecord)
    : result InitialFrontierPositions InitialEnrollmentFrontierError :=
  let next at_ := ok_or (checked_add u64_max at_ 1) IFE_PositionOverflow in
  let? terminal_sequence := next (alr_delivery_seq attached) in
  let? exit_sequence := next terminal_sequence in
  let? product_sequence := next exit_sequence in
  let? active_terminal_order := next (ao_transaction_order (alr_admission_order attached)) in
  let? exit_order := next active_terminal_order in
  Ok (mkInitialFrontierPositions terminal_sequence exit_sequence product_sequence
        active_terminal_order exit_order).

Definition initial_sequence_frontier (shape : InitialEnrollmentFrontierShape)
    (positions : InitialFrontierPositions) (terminal : BindingTerminalOwner)
    : SequenceClaimFrontier :=
  mkSequenceClaimFrontier (ies_sequence_ledger shape)
    [mkMovableSequenceClaim (ifp_terminal_sequence positions) (SDO_BindingTerminal terminal);
     mkMovableSequenceClaim (ifp_exit_sequence positions) (SDO_MembershipExit 0)]
    []
    (mkSequenceProductRanges
       [mkTerminalProductRange (ifp_product_sequence positions) 1 terminal] None [])
    None.

Definition initial_order_frontier (shape : InitialEnrollmentFrontierShape)
    (positions : InitialFrontierPositions) (terminal : BindingTerminalOwner) : OrderClaimFrontier :=
  mkOrderClaimFrontier (ies_order_ledger shape)
    [mkMovableOrderClaim (ifp_active_terminal_order positions) (ODO_ActiveBindingTerminal terminal);
     mkMovableOrderClaim (ifp_exit_order positions) (ODO_MembershipExit 0)]
    [] None.

Definition build_initial_enrollment_frontiers (shape : InitialEnrollmentFrontierShape)
    : result ClaimFrontiers InitialEnrollmentFrontierError :=
  let? positions := initial_frontier_positions (ies_attached shape) in
  let terminal := mkBindingTerminalOwner 0 (ies_binding_epoch shape) in
  let sequence := initial_sequence_frontier shape positions terminal in
  let order := initial_order_frontier shape positions terminal in
  let? _ := map_err (fun _ => IFE_FrontierInvariant) (validate_cross_counter sequence order) in
  Ok (mkClaimFrontiers (ies_conversation_id shape)
        (mkActiveIdentityRanks
           [mkFrontierParticipant 0 0 (FB_Bound (ies_binding_epoch shape))])
        (ies_identity_slot_limit shape) (ies_retained_floor shape)
        [mkRetainedCausalRecord (alr_delivery_seq (ies_attached shape))
           (alr_admission_order (ies_attached shape))
           (RCK_AttachLifecycle 0 (ies_binding_epoch shape))]
        [] None sequence order).
