(* ===== verification/EnrollmentClosure.v ===== *)
(** * Initial enrollment: the closure projection

    Model of [liminal-protocol/src/lifecycle/enrollment_closure.rs]: what the first
    enrollment of an empty conversation does to its retained charge, baseline, debt and
    closure edge, derived from the durable ledgers and the configuration alone. *)
From S2P Require Import Prelude Frontier Algebra Tags Wire Response Authority Order Sequence Edge.
From S2P Require Import EdgeSteps Closure.

(** [#[derive(Default)]] of the two claim vectors. *)
Definition OrderClaims_default : OrderClaims := mkOrderClaims 0 0 false false.
Definition SequenceClaims_default : SequenceClaims := mkSequenceClaims 0 0 0 RSR_None.
#[export] Instance OrderHigh_eq_dec : EqDecision OrderHigh.
Proof. solve_decision. Defined.
#[export] Instance OrderClaims_eq_dec : EqDecision OrderClaims.
Proof. solve_decision. Defined.
#[export] Instance SequenceClaims_eq_dec : EqDecision SequenceClaims.
Proof. solve_decision. Defined.

Record InitialEnrollmentClosureInput := mkInitialEnrollmentClosureInput {
  ici_accounting : ClosureAccounting;
  ici_identity_slots : Z;
  ici_mandatory_bound : ResourceVector;
  ici_recovery_claim : ResourceVector;
  ici_marker_max : ResourceVector;
  ici_attached_charge : ResourceVector;
  ici_participant_index : ParticipantIndex;
  ici_binding_epoch : BindingEpoch;
  ici_order : OrderLedger;
  ici_sequence : SequenceLedger;
  ici_physical_floor : Z;
  ici_observer_progress : Z;
}.
Definition with_binding_epoch (i : InitialEnrollmentClosureInput) (binding_epoch : BindingEpoch)
    : InitialEnrollmentClosureInput :=
  mkInitialEnrollmentClosureInput (ici_accounting i) (ici_identity_slots i) (ici_mandatory_bound i)
    (ici_recovery_claim i) (ici_marker_max i) (ici_attached_charge i) (ici_participant_index i)
    binding_epoch (ici_order i) (ici_sequence i) (ici_physical_floor i) (ici_observer_progress i).
Definition with_attached_charge (i : InitialEnrollmentClosureInput) (attached_charge : ResourceVector)
    : InitialEnrollmentClosureInput :=
  mkInitialEnrollmentClosureInput (ici_accounting i) (ici_identity_slots i) (ici_mandatory_bound i)
    (ici_recovery_claim i) (ici_marker_max i) attached_charge (ici_participant_index i)
    (ici_binding_epoch i) (ici_order i) (ici_sequence i) (ici_physical_floor i)
    (ici_observer_progress i).

Inductive RecoveryQuartetStatus := RQS_None | RQS_Endowed.
Record PlannedEnrollmentMarker := mkPlannedEnrollmentMarker {
  pem_participant_index : ParticipantIndex;
  pem_planned_delivery_seq : Z;
}.

Record InitialEnrollmentClosureProjection := mkInitialEnrollmentClosureProjection {
  icp_current_accounting : ClosureAccounting;
  icp_resulting_accounting : ClosureAccounting;
  icp_resulting_retained_charge : ResourceVector;
  icp_resulting_floor : Z;
  icp_resulting_baseline : WideResourceVector;
  icp_remaining_recovery_claim : ResourceVector;
  icp_capacity : MandatoryCapacity;
  icp_required_capacity : RequiredCapacityPlan;
  icp_recovery_quartet : RecoveryQuartetStatus;
  icp_new_markers : list PlannedEnrollmentMarker;
  icp_order : OrderLedger;
  icp_sequence : SequenceLedger;
  icp_participant_index : ParticipantIndex;
  icp_identity_slots : Z;
  icp_binding_epoch : BindingEpoch;
}.
Definition icp_debt (p : InitialEnrollmentClosureProjection) : WideResourceVector :=
  debt (icp_capacity p).
(** [observer_progress]. *)
Definition icp_observer_progress (p : InitialEnrollmentClosureProjection) : Z := 0.

Definition endowed (q : RecoveryQuartetStatus) : bool :=
  match q with RQS_Endowed => true | RQS_None => false end.
Definition plan_order (p : InitialEnrollmentClosureProjection)
    : result ResultingOrderClaims OrderAdmissionError :=
  ol_plan_enrollment_with_recovery_quartet (icp_order p) (endowed (icp_recovery_quartet p)).
(** The length of a [Vec] always fits a [u64]. *)
Definition plan_sequence (p : InitialEnrollmentClosureProjection)
    : result ResultingSequenceState SequenceAdmissionError :=
  sl_plan_enrollment_with_recovery_quartet (icp_sequence p) (zlen (icp_new_markers p))
    (endowed (icp_recovery_quartet p)).
Definition remaining_closure_decision (p : InitialEnrollmentClosureProjection)
    (request : ClosureCheckedEnvelope) : RemainingClosureDecision :=
  check_remaining_closure request (icp_current_accounting p) false 0 (icp_required_capacity p).

Inductive InitialEnrollmentClosureError :=
| ICE_ClosureNotClear | ICE_ClearOwnsEdgeResources
| ICE_ClearChurnNotReset (used : Z)
| ICE_ChurnLimit (configured : Z)
| ICE_ZeroIdentitySlots | ICE_RecoveryClaimDiffersFromMandatoryBound
| ICE_ParticipantIndexOutsideIdentityLimit (participant_index : ParticipantIndex) (identity_slots : Z)
| ICE_InitialParticipantIndexNotZero (participant_index : ParticipantIndex)
| ICE_BindingGeneration (generation : Generation)
| ICE_NonemptyOrderLedger | ICE_NonemptySequenceLedger
| ICE_InitialFloorOrObserver (physical_floor observer_progress : Z)
| ICE_NonemptyMarkerState (credits anchors : Z)
| ICE_BaselineMismatch (derived durable : WideResourceVector)
| ICE_StartupEnvelope (dimension : ResourceDimension)
| ICE_AttachedChargeExceedsMandatoryBound (dimension : ResourceDimension)
| ICE_AttachedEntryCharge (actual : Z)
| ICE_RetainedChargeOverflow (dimension : ResourceDimension)
| ICE_MandatoryCapacity
| ICE_ResultingAccounting (e : ClosureAccountingError)
| ICE_Baseline (e : BaselineError).

Definition MAX_CHURN_LIMIT : Z := u32_max.

Definition startup_envelope_failure (baseline : WideResourceVector)
    (mandatory_bound recovery_claim configured_cap : ResourceVector) : option ResourceDimension :=
  if zero_debt_admission baseline mandatory_bound recovery_claim configured_cap then None
  else zero_debt_capacity_failure baseline mandatory_bound recovery_claim configured_cap.

Definition checked_sum (baseline : WideResourceVector) (middle last : ResourceVector)
    : result WideResourceVector InitialEnrollmentClosureError :=
  match (value ← checked_add u128_max (wrv_entries baseline) (widen_u64 (rv_entries middle));
         checked_add u128_max value (widen_u64 (rv_entries last))) with
  | None => Err (ICE_RetainedChargeOverflow Entries)
  | Some entries =>
      match (value ← checked_add u128_max (wrv_bytes baseline) (widen_u64 (rv_bytes middle));
             checked_add u128_max value (widen_u64 (rv_bytes last))) with
      | None => Err (ICE_RetainedChargeOverflow Bytes)
      | Some bytes => Ok (mkWRV entries bytes)
      end
  end.

Definition validate_initial_ledgers_and_floor (i : InitialEnrollmentClosureInput)
    : result unit InitialEnrollmentClosureError :=
  if negb (bool_decide (ol_high (ici_order i) = OH_Empty))
     || negb (bool_decide (ol_claims (ici_order i) = OrderClaims_default))
  then Err ICE_NonemptyOrderLedger
  else if negb (sl_high_watermark (ici_sequence i) =? 0)
          || negb (bool_decide (sl_claims (ici_sequence i) = SequenceClaims_default))
  then Err ICE_NonemptySequenceLedger
  else if negb (ici_physical_floor i =? 1) || negb (ici_observer_progress i =? 0)
  then Err (ICE_InitialFloorOrObserver (ici_physical_floor i) (ici_observer_progress i))
  else if negb (ca_marker_capacity_credits (ici_accounting i) =? 0)
          || negb (ca_marker_anchors (ici_accounting i) =? 0)
  then Err (ICE_NonemptyMarkerState (ca_marker_capacity_credits (ici_accounting i))
              (ca_marker_anchors (ici_accounting i)))
  else Ok tt.

Definition validate_initial_capacity (i : InitialEnrollmentClosureInput)
    : result unit InitialEnrollmentClosureError :=
  let accounting := ici_accounting i in
  let? derived_baseline := map_err ICE_Baseline
    (retained_baseline ResourceVector_default (ici_identity_slots i) 0 (ici_marker_max i)) in
  if negb (bool_decide (derived_baseline = ca_baseline accounting))
  then Err (ICE_BaselineMismatch derived_baseline (ca_baseline accounting))
  else
    match startup_envelope_failure derived_baseline (ici_mandatory_bound i) (ici_recovery_claim i)
            (ca_configured_cap accounting) with
    | Some dimension => Err (ICE_StartupEnvelope dimension)
    | None =>
        if negb (rv_entries (ici_attached_charge i) =? 1)
        then Err (ICE_AttachedEntryCharge (rv_entries (ici_attached_charge i)))
        else if rv_entries (ici_mandatory_bound i) <? rv_entries (ici_attached_charge i)
        then Err (ICE_AttachedChargeExceedsMandatoryBound Entries)
        else if rv_bytes (ici_mandatory_bound i) <? rv_bytes (ici_attached_charge i)
        then Err (ICE_AttachedChargeExceedsMandatoryBound Bytes)
        else Ok tt
    end.

Definition validate_initial_input (i : InitialEnrollmentClosureInput)
    : result unit InitialEnrollmentClosureError :=
  let accounting := ici_accounting i in
  let churn_limit := ca_episode_churn_limit accounting in
  if negb (bool_decide (ca_state accounting = Closure_Clear)) then Err ICE_ClosureNotClear
  else if negb (ca_edge_sequence_claims accounting =? 0)
          || negb (ca_edge_order_position_claims accounting =? 0)
          || negb (bool_decide (ca_edge_k_remaining accounting = ResourceVector_default))
  then Err ICE_ClearOwnsEdgeResources
  else if negb (ca_episode_churn_used accounting =? 0)
  then Err (ICE_ClearChurnNotReset (ca_episode_churn_used accounting))
  else if negb ((2 <=? churn_limit) && (churn_limit <=? MAX_CHURN_LIMIT))
  then Err (ICE_ChurnLimit churn_limit)
  else if ici_identity_slots i =? 0 then Err ICE_ZeroIdentitySlots
  else if negb (bool_decide (ici_mandatory_bound i = ici_recovery_claim i))
  then Err ICE_RecoveryClaimDiffersFromMandatoryBound
  else if ici_identity_slots i <=? ici_participant_index i
  then Err (ICE_ParticipantIndexOutsideIdentityLimit (ici_participant_index i)
              (ici_identity_slots i))
  else if negb (ici_participant_index i =? 0)
  then Err (ICE_InitialParticipantIndexNotZero (ici_participant_index i))
  else if negb (capability_generation (ici_binding_epoch i) =? Generation_ONE)
  then Err (ICE_BindingGeneration (capability_generation (ici_binding_epoch i)))
  else
    let? _ := validate_initial_ledgers_and_floor i in
    validate_initial_capacity i.

(** Clear without debt; with it, an observer projection through the [Attached] record
    and the whole recovery claim. *)
Definition initial_state (i : InitialEnrollmentClosureInput) (capacity : MandatoryCapacity)
    : ClosureState * ResourceVector :=
  match ClosureDebt_new (debt capacity) with
  | None => (Closure_Clear, ResourceVector_default)
  | Some debt =>
      (Closure_Owed debt (SE_ObserverProjection (mkObserverProjection 1)), ici_recovery_claim i)
  end.

Definition project_initial_enrollment_closure (i : InitialEnrollmentClosureInput)
    : result InitialEnrollmentClosureProjection InitialEnrollmentClosureError :=
  let accounting := ici_accounting i in
  let? _ := validate_initial_input i in
  let? initial_baseline := map_err ICE_Baseline
    (retained_baseline ResourceVector_default (ici_identity_slots i) 0 (ici_marker_max i)) in
  let resulting_retained_charge := ici_attached_charge i in
  let? resulting_baseline := map_err ICE_Baseline
    (retained_baseline resulting_retained_charge (ici_identity_slots i) 0 (ici_marker_max i)) in
  let capacity := mandatory_capacity resulting_baseline (ici_mandatory_bound i)
                    (ici_recovery_claim i) (ca_configured_cap accounting) in
  if negb (is_legal capacity) then Err ICE_MandatoryCapacity
  else
    let '(state, remaining_recovery_claim) := initial_state i capacity in
    let? resulting_accounting := map_err ICE_ResultingAccounting
      (ClosureAccounting_try_new state 0 0 0 0 remaining_recovery_claim resulting_baseline
         (ca_configured_cap accounting) 0 (ca_episode_churn_limit accounting)) in
    let? immediate_required :=
      if is_zero (debt capacity)
      then checked_sum resulting_baseline (ici_mandatory_bound i) (ici_recovery_claim i)
      else checked_sum resulting_baseline ResourceVector_default (ici_recovery_claim i) in
    let? clear_successor_required :=
      checked_sum initial_baseline (ici_mandatory_bound i) (ici_recovery_claim i) in
    let? required_capacity := map_err (fun _ => ICE_MandatoryCapacity)
      (from_successors [immediate_required; clear_successor_required]) in
    Ok (mkInitialEnrollmentClosureProjection accounting resulting_accounting
          resulting_retained_charge 1 resulting_baseline remaining_recovery_claim capacity
          required_capacity RQS_None [] (ici_order i) (ici_sequence i) (ici_participant_index i)
          (ici_identity_slots i) (ici_binding_epoch i)).
