(* ===== verification/EnrollmentOperation.v ===== *)
(** * Initial enrollment: the operation

    Model of [liminal-protocol/src/lifecycle/operations/enrollment_operation.rs] and of
    the half of [claim_frontier.rs] that derives the first frontiers from its result:
    the token lookup, the capacity gates, order, sequence, observer and closure, the
    lazy slot allocation and the commit; then the shape the frontiers are built from.

    [mint_commit_values] and [allocate_participant] are the two [FnOnce] arguments: a
    value of the caller each, used only where the code calls it. *)
From S2P Require Import Prelude EnrollmentClosure Algebra Tags Wire Response Authority Order.
From S2P Require Import Sequence Edge Binding EdgeSteps Member Detach Attach Lookup Capacity.
From S2P Require Import Closure Frontier FrontierLive FrontierInit.

(** ** Receipt deadlines *)

Record ReceiptDeadlines := mkReceiptDeadlines {
  rdl_receipt_expires_at : Z;
  rdl_provenance_expires_at : Z;
}.
Inductive ReceiptDeadlineError :=
| RDE_ZeroAttachReceiptTtl | RDE_ZeroReceiptProvenanceTtl
| RDE_ProvenanceTtlShorterThanReceipt (attach_receipt_ttl_ms receipt_provenance_ttl_ms : Z)
| RDE_ZeroAbsoluteReceiptDeadline | RDE_AbsoluteProvenanceBeforeReceipt.
Definition try_from_ttls (now_ms attach_receipt_ttl_ms receipt_provenance_ttl_ms : Z)
    : result ReceiptDeadlines ReceiptDeadlineError :=
  if attach_receipt_ttl_ms =? 0 then Err RDE_ZeroAttachReceiptTtl
  else if receipt_provenance_ttl_ms =? 0 then Err RDE_ZeroReceiptProvenanceTtl
  else if receipt_provenance_ttl_ms <? attach_receipt_ttl_ms
  then Err (RDE_ProvenanceTtlShorterThanReceipt attach_receipt_ttl_ms receipt_provenance_ttl_ms)
  else Ok (mkReceiptDeadlines (add_u128 (widen_u64 now_ms) (widen_u64 attach_receipt_ttl_ms))
             (add_u128 (widen_u64 now_ms) (widen_u64 receipt_provenance_ttl_ms))).
Definition try_from_absolute (receipt_expires_at provenance_expires_at : Z)
    : result ReceiptDeadlines ReceiptDeadlineError :=
  if receipt_expires_at =? 0 then Err RDE_ZeroAbsoluteReceiptDeadline
  else if provenance_expires_at <? receipt_expires_at then Err RDE_AbsoluteProvenanceBeforeReceipt
  else Ok (mkReceiptDeadlines receipt_expires_at provenance_expires_at).

(** ** Input and result *)

Record InitialEnrollmentOperationInput (EF V LF : Type) := mkInitialEnrollmentOperationInput {
  ioi_request : EnrollmentRequest;
  ioi_token_phase : EnrollmentTokenPhase EF V LF;
  ioi_lookup_binding : BindingState;
  ioi_connection_tracking : ConnectionConversationTracking;
  ioi_connection_capacity : CapacityCounter;
  ioi_binding_occupancy : BindingSlotOccupancy;
  ioi_enrollment_capacity : EnrollmentCapacityCounters;
  ioi_closure : InitialEnrollmentClosureInput;
}.
Arguments mkInitialEnrollmentOperationInput {EF V LF}.
Arguments ioi_request {EF V LF} _.
Arguments ioi_token_phase {EF V LF} _.
Arguments ioi_lookup_binding {EF V LF} _.
Arguments ioi_connection_tracking {EF V LF} _.
Arguments ioi_connection_capacity {EF V LF} _.
Arguments ioi_binding_occupancy {EF V LF} _.
Arguments ioi_enrollment_capacity {EF V LF} _.
Arguments ioi_closure {EF V LF} _.

Record InitialEnrollmentCommitValues (F : Type) := mkInitialEnrollmentCommitValues {
  icv_attach_secret : AttachSecret;
  icv_deadlines : ReceiptDeadlines;
  icv_enrollment_fingerprint : EnrollmentFingerprint F;
}.
Arguments mkInitialEnrollmentCommitValues {F}.
Arguments icv_attach_secret {F} _.
Arguments icv_deadlines {F} _.
Arguments icv_enrollment_fingerprint {F} _.

Record InitialEnrollmentOperationCommit (F : Type) := mkInitialEnrollmentOperationCommit {
  ioc_enrollment : EnrollmentCommit F;
  ioc_connection_capacity : ConnectionConversationCapacityCommit;
  ioc_enrollment_capacity : EnrollmentCapacityCommit;
  ioc_order : OrderAllocation;
  ioc_sequence : SequenceLedger;
  ioc_observer_floor : ObserverFloorPermit;
  ioc_closure_permit : RemainingClosurePermit;
  ioc_closure_projection : InitialEnrollmentClosureProjection;
}.
Arguments mkInitialEnrollmentOperationCommit {F}.
Arguments ioc_enrollment {F} _.
Arguments ioc_connection_capacity {F} _.
Arguments ioc_enrollment_capacity {F} _.
Arguments ioc_order {F} _.
Arguments ioc_sequence {F} _.
Arguments ioc_observer_floor {F} _.
Arguments ioc_closure_permit {F} _.
Arguments ioc_closure_projection {F} _.

Inductive InitialEnrollmentOperationFault :=
| IOF_Closure (e : InitialEnrollmentClosureError)
| IOF_Order (e : OrderAdmissionError)
| IOF_Sequence (e : SequenceAdmissionError)
| IOF_SlotAllocation (e : ParticipantSlotAllocationError)
| IOF_AllocatedParticipantMismatch (expected actual : Z)
| IOF_AllocatedIdentityLimitMismatch (expected actual : Z)
| IOF_Commit (e : EnrollmentCommitError).

Inductive InitialEnrollmentOperationDecision (F : Type) :=
| IOD_Respond (r : EnrollmentResponse)
| IOD_Commit (c : InitialEnrollmentOperationCommit F)
| IOD_Fault (e : InitialEnrollmentOperationFault).
Arguments IOD_Respond {F} _.
Arguments IOD_Commit {F} _.
Arguments IOD_Fault {F} _.

Record InitialEnrollmentCapacityPermits := mkInitialEnrollmentCapacityPermits {
  iep_connection : ConnectionConversationCapacityCommit;
  iep_enrollment : EnrollmentCapacityCommit;
}.
Record OrderedInitialEnrollment := mkOrderedInitialEnrollment {
  oie_projection : InitialEnrollmentClosureProjection;
  oie_order : OrderAllocation;
}.
Record ClosedInitialEnrollment := mkClosedInitialEnrollment {
  cie_projection : InitialEnrollmentClosureProjection;
  cie_order : OrderAllocation;
  cie_sequence : SequenceLedger;
  cie_observer_floor : ObserverFloorPermit;
  cie_closure_permit : RemainingClosurePermit;
}.
Inductive InitialEnrollmentGateFailure :=
| IGF_Respond (r : EnrollmentResponse)
| IGF_Fault (e : InitialEnrollmentOperationFault).
Definition into_decision {F} (failure : InitialEnrollmentGateFailure)
    : InitialEnrollmentOperationDecision F :=
  match failure with IGF_Respond r => IOD_Respond r | IGF_Fault e => IOD_Fault e end.

(** ** Gates *)

Section Gates.
Context {EF V LF : Type}.

Definition initial_enrollment_lookup_response (input : InitialEnrollmentOperationInput EF V LF)
    : option EnrollmentResponse :=
  match lookup_enrollment (ioi_token_phase input) (ioi_lookup_binding input) (ioi_request input) with
  | ELR_Retired value => Some (EnrollmentResponse_from_retired value)
  | ELR_Bound value => Some (EnrollmentResponse_from_bound value)
  | ELR_UnboundReceipt value => Some (EnrollmentResponse_from_unbound_receipt value)
  | ELR_ReceiptExpired value => Some (EnrollmentResponse_from_receipt_expired value)
  | ELR_EnrollmentKnown value => Some (EnrollmentResponse_enrollment_known value)
  | ELR_AuthorizedNew => None
  end.

Definition admit_initial_enrollment_capacity (input : InitialEnrollmentOperationInput EF V LF)
    (envelope : EnrollmentEnvelope)
    : result InitialEnrollmentCapacityPermits InitialEnrollmentGateFailure :=
  match select_semantic_connection_capacity (ioi_connection_tracking input)
          (ioi_connection_capacity input) with
  | SCD_Respond limit =>
      Err (IGF_Respond (EnrollmentResponse_connection_conversation_capacity_exceeded envelope limit))
  | SCD_Commit connection =>
      match select_enrollment_binding_slot (ioi_request input) (ioi_binding_occupancy input) with
      | BSD_Respond value => Err (IGF_Respond value)
      | BSD_Available =>
          match select_enrollment_capacity (ioi_request input) (ioi_enrollment_capacity input) with
          | ECD_Respond value => Err (IGF_Respond value)
          | ECD_Commit enrollment => Ok (mkInitialEnrollmentCapacityPermits connection enrollment)
          end
      end
  end.
End Gates.

Definition initial_enrollment_order_failure (error : OrderAdmissionError)
    : InitialEnrollmentGateFailure :=
  match error with
  | OAX_Exhausted value =>
      IGF_Respond (EnrollmentResponse_from_conversation_order_exhausted value)
  | other => IGF_Fault (IOF_Order other)
  end.
Definition initial_enrollment_sequence_failure (error : SequenceAdmissionError)
    : InitialEnrollmentGateFailure :=
  match error with
  | SAX_Exhausted value =>
      IGF_Respond (EnrollmentResponse_from_conversation_sequence_exhausted value)
  | other => IGF_Fault (IOF_Sequence other)
  end.

Definition plan_initial_enrollment_order (closure : InitialEnrollmentClosureInput)
    (envelope : EnrollmentEnvelope) : result OrderedInitialEnrollment InitialEnrollmentGateFailure :=
  let? projection := map_err (fun error => IGF_Fault (IOF_Closure error))
                       (project_initial_enrollment_closure closure) in
  let? order_plan := map_err initial_enrollment_order_failure (plan_order projection) in
  let? order := map_err initial_enrollment_order_failure
    (allocate_order (OAE_Enrollment envelope) (icp_order projection) order_plan) in
  Ok (mkOrderedInitialEnrollment projection order).

Definition close_initial_enrollment (ordered : OrderedInitialEnrollment)
    (envelope : EnrollmentEnvelope) : result ClosedInitialEnrollment InitialEnrollmentGateFailure :=
  let projection := oie_projection ordered in
  let? sequence_plan := map_err initial_enrollment_sequence_failure (plan_sequence projection) in
  let? sequence := map_err initial_enrollment_sequence_failure
    (admit_sequence (SAE_Enrollment envelope) sequence_plan) in
  match check_observer_floor (OCO_Enrollment envelope) (icp_observer_progress projection)
          (icp_resulting_floor projection) with
  | OFD_Respond value =>
      Err (IGF_Respond (EnrollmentResponse_from_observer_backpressure value))
  | OFD_Eligible observer_floor =>
      match remaining_closure_decision projection (CCE_Enrollment envelope) with
      | RCD_Respond value =>
          Err (IGF_Respond (EnrollmentResponse_from_marker_closure_capacity_exceeded value))
      | RCD_Eligible closure_permit =>
          Ok (mkClosedInitialEnrollment projection (oie_order ordered) sequence observer_floor
                closure_permit)
      end
  end.

Definition commit_initial_enrollment {F P} (request : EnrollmentRequest)
    (capacity : InitialEnrollmentCapacityPermits) (closed : ClosedInitialEnrollment)
    (mint_commit_values : InitialEnrollmentCommitValues F)
    (allocate_participant : result (AllocatedParticipantSlot P) ParticipantSlotAllocationError)
    : InitialEnrollmentOperationDecision F :=
  let projection := cie_projection closed in
  match allocate_participant with
  | Err error => IOD_Fault (IOF_SlotAllocation error)
  | Ok participant_slot =>
      if negb (aps_participant_id participant_slot =? icp_participant_index projection)
      then IOD_Fault (IOF_AllocatedParticipantMismatch (icp_participant_index projection)
                        (aps_participant_id participant_slot))
      else if negb (aps_identity_limit participant_slot =? icp_identity_slots projection)
      then IOD_Fault (IOF_AllocatedIdentityLimitMismatch (icp_identity_slots projection)
                        (aps_identity_limit participant_slot))
      else
        match commit_enrollment request
                (mkEnrollmentParameters participant_slot (icv_attach_secret mint_commit_values)
                   (icp_binding_epoch projection)
                   (mkAttachedPosition (oa_major (cie_order closed))
                      (sl_high_watermark (cie_sequence closed)))
                   (rdl_receipt_expires_at (icv_deadlines mint_commit_values))
                   (rdl_provenance_expires_at (icv_deadlines mint_commit_values))
                   (icv_enrollment_fingerprint mint_commit_values)) with
        | Err error => IOD_Fault (IOF_Commit error)
        | Ok enrollment =>
            IOD_Commit
              (mkInitialEnrollmentOperationCommit enrollment (iep_connection capacity)
                 (iep_enrollment capacity) (cie_order closed) (cie_sequence closed)
                 (cie_observer_floor closed) (cie_closure_permit closed) projection)
        end
  end.

Definition apply_initial_enrollment {EF V LF F P} (input : InitialEnrollmentOperationInput EF V LF)
    (mint_commit_values : InitialEnrollmentCommitValues F)
    (allocate_participant : result (AllocatedParticipantSlot P) ParticipantSlotAllocationError)
    : InitialEnrollmentOperationDecision F :=
  let envelope := enrollment_envelope (ioi_request input) in
  match initial_enrollment_lookup_response input with
  | Some response => IOD_Respond response
  | None =>
      match admit_initial_enrollment_capacity input envelope with
      | Err error => into_decision error
      | Ok capacity =>
          match plan_initial_enrollment_order (ioi_closure input) envelope with
          | Err error => into_decision error
          | Ok ordered =>
              match close_initial_enrollment ordered envelope with
              | Err error => into_decision error
              | Ok closed =>
                  commit_initial_enrollment (ioi_request input) capacity closed mint_commit_values
                    allocate_participant
              end
          end
      end
  end.

(** ** The first frontiers *)

Section InitialFrontier.
Context {F : Type}.

Definition validate_initial_enrollment_closure (operation : InitialEnrollmentOperationCommit F)
    (projection : InitialEnrollmentClosureProjection) (attached : AttachedLifecycleRecord)
    : result ClosureAccounting InitialEnrollmentFrontierError :=
  let accounting := icp_resulting_accounting projection in
  let state_matches :=
    match ca_state accounting with
    | Closure_Clear =>
        is_zero (icp_debt projection)
        && bool_decide (icp_remaining_recovery_claim projection = ResourceVector_default)
    | Closure_Owed debt (SE_ObserverProjection observer) =>
        bool_decide (debt_value debt = icp_debt projection)
        && bool_decide (observer = mkObserverProjection (alr_delivery_seq attached))
        && bool_decide (icp_remaining_recovery_claim projection = ca_edge_k_remaining accounting)
    | Closure_Owed _ _ => false
    end in
  if negb (icp_resulting_floor projection =? 1)
     || negb (icp_resulting_floor projection =? ofp_cap_floor (ioc_observer_floor operation))
     || negb (ofp_observer_progress (ioc_observer_floor operation) =? 0)
     || endowed (icp_recovery_quartet projection)
     || negb (bool_decide (length (icp_new_markers projection) = 0%nat))
     || negb (ca_marker_capacity_credits accounting =? 0)
     || negb (ca_marker_anchors accounting =? 0)
     || negb (ca_edge_sequence_claims accounting =? 0)
     || negb (ca_edge_order_position_claims accounting =? 0)
     || negb (bool_decide (ca_baseline accounting = icp_resulting_baseline projection))
     || negb state_matches
  then Err IFE_ClosureProjection
  else Ok accounting.

Definition initial_ledgers_match (operation : InitialEnrollmentOperationCommit F)
    (admission_order : AdmissionOrder) (delivery_seq : DeliverySeq) : bool :=
  let order_ledger := oa_resulting (ioc_order operation) in
  let sequence_ledger := ioc_sequence operation in
  let order_claims := ol_claims order_ledger in
  let sequence_claims := sl_claims sequence_ledger in
  (oa_major (ioc_order operation) =? ao_transaction_order admission_order)
  && bool_decide (ol_high order_ledger = OH_Allocated (ao_transaction_order admission_order))
  && (oc_active_binding_terminals order_claims =? 1) && (oc_membership_exits order_claims =? 1)
  && negb (oc_recovery_operation order_claims)
  && negb (oc_recovery_replacement_terminal order_claims)
  && (sl_high_watermark sequence_ledger =? delivery_seq)
  && (sc_live_members sequence_claims =? 1) && (sc_binding_terminals sequence_claims =? 1)
  && (sc_markers sequence_claims =? 0) && bool_decide (sc_recovery sequence_claims = RSR_None)
  && bool_decide (ao_candidate_phase admission_order = CP_AttachLifecycle).

Definition initial_enrollment_frontier_shape (operation : InitialEnrollmentOperationCommit F)
    (attached_charge : ResourceVector)
    : result InitialEnrollmentFrontierShape InitialEnrollmentFrontierError :=
  let projection := ioc_closure_projection operation in
  let expected_charge := icp_resulting_retained_charge projection in
  if negb (bool_decide (attached_charge = expected_charge))
  then Err (IFE_AttachedChargeMismatch expected_charge attached_charge)
  else
    let enrollment := ioc_enrollment operation in
    let attached := ecm_attached enrollment in
    match ecm_binding_state enrollment with
    | BS_Bound binding =>
        if negb (lm_participant_id (ecm_member enrollment) =? 0)
           || negb (lm_cursor (ecm_member enrollment) =? 0)
           || negb (bnd_participant_id binding =? 0)
           || negb (alr_participant_id attached =? 0)
           || negb (bnd_conversation_id binding =? lm_conversation_id (ecm_member enrollment))
           || negb (alr_conversation_id attached =? bnd_conversation_id binding)
           || negb (bool_decide (alr_binding_epoch attached = bnd_binding_epoch binding))
           || negb (icp_participant_index projection =? 0)
           || negb (bool_decide (icp_binding_epoch projection = bnd_binding_epoch binding))
           || (icp_identity_slots projection =? 0)
        then Err IFE_EnrollmentShape
        else if negb (initial_ledgers_match operation (alr_admission_order attached)
                        (alr_delivery_seq attached))
        then Err IFE_LedgerShape
        else
          let? closure_accounting :=
            validate_initial_enrollment_closure operation projection attached in
          Ok (mkInitialEnrollmentFrontierShape (bnd_conversation_id binding)
                (bnd_binding_epoch binding) (icp_identity_slots projection)
                (icp_resulting_floor projection) attached (oa_resulting (ioc_order operation))
                (ioc_sequence operation) closure_accounting)
    | _ => Err IFE_EnrollmentShape
    end.

Record InitialEnrollmentFrontierCommit := mkInitialEnrollmentFrontierCommit {
  ifc_operation : InitialEnrollmentOperationCommit F;
  ifc_frontiers : ClaimFrontiers;
  ifc_closure_accounting : ClosureAccounting;
  ifc_attached_charge : ResourceVector;
}.

(** A failure keeps the operation. *)
Definition from_initial_enrollment (operation : InitialEnrollmentOperationCommit F)
    (attached_charge : ResourceVector)
    : result InitialEnrollmentFrontierCommit
        (InitialEnrollmentOperationCommit F * InitialEnrollmentFrontierError) :=
  match initial_enrollment_frontier_shape operation attached_charge with
  | Err error => Err (operation, error)
  | Ok shape =>
      match build_initial_enrollment_frontiers shape with
      | Err error => Err (operation, error)
      | Ok frontiers =>
          Ok (mkInitialEnrollmentFrontierCommit operation frontiers (ies_closure_accounting shape)
                attached_charge)
      end
  end.
End InitialFrontier.
