(* ===== verification/FrontierRestore.v ===== *)
(** * Claim frontiers: restore

    The cold half of [liminal-protocol/src/lifecycle/claim_frontier.rs]: the durable
    snapshot of both frontiers is validated against its ledgers, the retained suffix,
    the history of the conversation and the closure edge before it becomes live
    ([prevalidate_with_history], [take_marker_record], [finish_restore], [restore_frontiers]).
    Every [for] loop is a fixpoint over its list with the loop's variables as
    arguments. *)
From stdpp Require Import sorting.
From S2P Require Import Prelude FrontierLive Algebra Tags Wire Response Order Sequence Edge.
From S2P Require Import EdgeSteps Binding Member Attach Frontier FrontierNumeric.

(** ** History *)

Inductive HistoricalCausalKind :=
| HCK_BindingTerminal (owner : BindingTerminalOwner)
| HCK_MembershipExit (participant_index : ParticipantId).

Inductive HistoricalCausalFactRestore :=
| HCF_BindingTerminal (conversation_id : ConversationId) (participant_index : ParticipantId)
    (binding_epoch : BindingEpoch) (admission_order : AdmissionOrder)
| HCF_MembershipExit (conversation_id : ConversationId) (participant_index : ParticipantId)
    (admission_order : AdmissionOrder).

Record HistoricalMarkerDeliveryFactRestore := mkHistoricalMarkerDeliveryFact {
  hmf_conversation_id : ConversationId;
  hmf_participant_index : ParticipantId;
  hmf_marker_delivery_seq : DeliverySeq;
  hmf_delivered_binding_epoch : BindingEpoch;
}.

Record HistoricalCausalAuthority := mkHistoricalCausalAuthority {
  hca_conversation_id : ConversationId;
  hca_admission_order : AdmissionOrder;
  hca_kind : HistoricalCausalKind;
}.
#[export] Instance HistoricalCausalKind_eq_dec : EqDecision HistoricalCausalKind.
Proof. unfold ParticipantId in *. solve_decision. Defined.
#[export] Instance HistoricalCausalAuthority_eq_dec : EqDecision HistoricalCausalAuthority.
Proof. unfold ConversationId in *. solve_decision. Defined.

Record HistoricalMarkerDeliveryAuthority := mkHistoricalMarkerDeliveryAuthority {
  hma_participant_index : ParticipantId;
  hma_marker_delivery_seq : DeliverySeq;
  hma_delivered_binding_epoch : BindingEpoch;
}.

Definition from_committed_terminal (terminal : CommittedBindingTerminal)
    : HistoricalCausalAuthority :=
  mkHistoricalCausalAuthority (cbt_conversation_id terminal) (cbt_admission_order terminal)
    (HCK_BindingTerminal (mkBindingTerminalOwner (cbt_participant_id terminal)
                            (cbt_binding_epoch terminal))).
Definition from_retired {EF V LF} (retired : RetiredIdentity EF V LF) : HistoricalCausalAuthority :=
  mkHistoricalCausalAuthority (ri_conversation_id retired) (ri_left_admission_order retired)
    (HCK_MembershipExit (ri_participant_id retired)).
Definition from_restore (fact : HistoricalCausalFactRestore) : HistoricalCausalAuthority :=
  match fact with
  | HCF_BindingTerminal conversation_id participant_index binding_epoch admission_order =>
      mkHistoricalCausalAuthority conversation_id admission_order
        (HCK_BindingTerminal (mkBindingTerminalOwner participant_index binding_epoch))
  | HCF_MembershipExit conversation_id participant_index admission_order =>
      mkHistoricalCausalAuthority conversation_id admission_order
        (HCK_MembershipExit participant_index)
  end.

Record ValidatedConversationHistory := mkValidatedConversationHistory {
  vch_causal_authorities : list HistoricalCausalAuthority;
  vch_binding_origins : list BindingOrigin;
  vch_total : bool;
}.
Definition history_empty : ValidatedConversationHistory := mkValidatedConversationHistory [] [] false.
Definition history_new (causal_authorities : list HistoricalCausalAuthority)
    (binding_origins : list BindingOrigin) : ValidatedConversationHistory :=
  mkValidatedConversationHistory causal_authorities binding_origins true.

Definition bo_conversation_id (o : BindingOrigin) : ConversationId :=
  alr_conversation_id (bo_attached o).
Definition bo_participant_id (o : BindingOrigin) : ParticipantId := alr_participant_id (bo_attached o).
Definition bo_binding_epoch (o : BindingOrigin) : BindingEpoch := alr_binding_epoch (bo_attached o).

Definition ordinary_origin (h : ValidatedConversationHistory) (conversation_id : ConversationId)
    (participant_index : ParticipantId) (binding_epoch : BindingEpoch) : option BindingOrigin :=
  List.find (fun origin =>
    (bo_conversation_id origin =? conversation_id)
    && (bo_participant_id origin =? participant_index)
    && bool_decide (bo_binding_epoch origin = binding_epoch)
    && is_unfenced origin) (vch_binding_origins h).

(** ** Provenance of the recovery claims *)

Inductive RecoveryClaimPhase := RCP_PreFate | RCP_PostFate | RCP_RecoveredBound.

Record RecoveryClaimProvenance := mkRecoveryClaimProvenance {
  rcv_participant_index : ParticipantId;
  rcv_marker_delivery_seq : DeliverySeq;
  rcv_prior_binding_epoch : BindingEpoch;
  rcv_current_binding_epoch : BindingEpoch;
  rcv_phase : RecoveryClaimPhase;
}.

Definition from_stored_edge (edge : StoredEdge) : option RecoveryClaimProvenance :=
  match edge with
  | SE_MarkerDelivery d =>
      Some (mkRecoveryClaimProvenance (md_participant_id d) (md_marker_delivery_seq d)
              (md_binding_epoch d) (md_binding_epoch d) RCP_PreFate)
  | SE_ParticipantCursorProgress p =>
      marker_delivery_seq ← cp_marker_delivery_seq p;
      Some (mkRecoveryClaimProvenance (cp_participant_id p) marker_delivery_seq
              (cp_binding_epoch p) (cp_binding_epoch p) RCP_PreFate)
  | SE_DetachedCredentialRecovery r =>
      Some (mkRecoveryClaimProvenance (dcr_participant_id r) (dcr_marker_delivery_seq r)
              (dcr_prior_binding_epoch r) (dcr_prior_binding_epoch r) RCP_PostFate)
  | _ => None
  end.

(** ** Snapshots *)

Record ClaimFrontiersRestore := mkClaimFrontiersRestore {
  cfr_conversation_id : ConversationId;
  cfr_active_identities : list FrontierParticipant;
  cfr_identity_slot_limit : Z;
  cfr_retained_floor : Z;
  cfr_retained_record_limit : Z;
  cfr_retained_records : list RetainedCausalRecord;
  cfr_active_marker_anchors : list DeliverySeq;
  cfr_historical_marker_deliveries : list HistoricalMarkerDeliveryFactRestore;
  cfr_historical_causal_facts : list HistoricalCausalFactRestore;
  cfr_sequence : SequenceClaimFrontierRestore;
  cfr_order : OrderClaimFrontierRestore;
  cfr_recovery_marker_delivery_seq : option DeliverySeq;
}.

Inductive MarkerRecordUse :=
| MRU_Planned (target : FrontierBinding)
| MRU_Delivered (target : FrontierBinding)
| MRU_Recovered (prior_binding_epoch recovered_binding_epoch : BindingEpoch).
Record MarkerRecordRequest := mkMarkerRecordRequest {
  mrq_participant_index : ParticipantId;
  mrq_marker_delivery_seq : DeliverySeq;
  mrq_use_kind : MarkerRecordUse;
}.
Definition request_planned (participant_index : ParticipantId) (marker_delivery_seq : DeliverySeq)
    (target : FrontierBinding) : MarkerRecordRequest :=
  mkMarkerRecordRequest participant_index marker_delivery_seq (MRU_Planned target).
Definition request_delivered (participant_index : ParticipantId) (marker_delivery_seq : DeliverySeq)
    (target : FrontierBinding) : MarkerRecordRequest :=
  mkMarkerRecordRequest participant_index marker_delivery_seq (MRU_Delivered target).
Definition request_recovered (participant_index : ParticipantId) (marker_delivery_seq : DeliverySeq)
    (prior_binding_epoch recovered_binding_epoch : BindingEpoch) : MarkerRecordRequest :=
  mkMarkerRecordRequest participant_index marker_delivery_seq
    (MRU_Recovered prior_binding_epoch recovered_binding_epoch).

Record ClaimFrontiersPrevalidated := mkClaimFrontiersPrevalidated {
  pre_conversation_id : ConversationId;
  pre_active_identities : ActiveIdentityRanks;
  pre_identity_slot_limit : Z;
  pre_retained_floor : Z;
  pre_retained_records : list RetainedCausalRecord;
  pre_marker_records : list RetainedCausalRecord;
  pre_historical_marker_deliveries : list HistoricalMarkerDeliveryAuthority;
  pre_historical_causal_authorities : list HistoricalCausalAuthority;
  pre_binding_origins : list BindingOrigin;
  pre_sequence_restore : SequenceClaimFrontierRestore;
  pre_order_restore : OrderClaimFrontierRestore;
  pre_recovery_marker_delivery_seq : option DeliverySeq;
  pre_sequence_ledger : SequenceLedger;
  pre_order_ledger : OrderLedger;
  pre_issued_marker_record : option MarkerRecordRequest;
}.

Abbreviation checked A := (result A ClaimFrontierError).

(** ** Keys and shape *)

Fixpoint first_adjacent_equal (previous : option AdmissionOrder) (keys : list AdmissionOrder)
    : option AdmissionOrder :=
  match keys with
  | [] => None
  | key :: keys =>
      if bool_decide (previous = Some key) then Some key else first_adjacent_equal (Some key) keys
  end.
Definition first_duplicate_candidate_key (candidates : list ImmutableSequenceCandidate)
    (retained_records : list RetainedCausalRecord) : option AdmissionOrder :=
  first_adjacent_equal None
    (merge_sort ao_le (map isc_admission_order candidates
                       ++ map rcr_admission_order retained_records)).
Definition validate_unique_candidate_keys (candidates : list ImmutableSequenceCandidate)
    (retained_records : list RetainedCausalRecord) : result unit ParticipantStateCorruptReason :=
  match first_duplicate_candidate_key candidates retained_records with
  | None => Ok tt
  | Some order => Err (PSC_DuplicateCandidateKey (ao_transaction_order order)
                         (ao_candidate_phase order) (ao_participant_index order))
  end.

Definition validate_bounded_shape (r : ClaimFrontiersRestore) (sequence_ledger : SequenceLedger)
    : checked unit :=
  let identity_limit := cfr_identity_slot_limit r in
  let twice_identity_limit := saturating_mul_u128 identity_limit 2 in
  let order_candidate_keys :=
    fold_left (fun count c => saturating_add_u128 count (zlen (icmr_candidate_keys c)))
      (ocfr_immutable_candidates (cfr_order r)) 0 in
  if (zlen (cfr_active_identities r) <=? identity_limit)
     && (zlen (scfr_movable_claims (cfr_sequence r)) <=? twice_identity_limit)
     && (zlen (scfr_immutable_candidates (cfr_sequence r)) <=? twice_identity_limit)
     && (zlen (sprr_live_times_terminal (scfr_products (cfr_sequence r))) <=? identity_limit)
     && (zlen (sprr_other_live_times_exit (scfr_products (cfr_sequence r))) <=? identity_limit)
     && (zlen (cfr_historical_marker_deliveries r) <=? cfr_retained_record_limit r)
     && (zlen (cfr_historical_causal_facts r) <=? twice_identity_limit)
     && (zlen (ocfr_movable_claims (cfr_order r)) <=? twice_identity_limit)
     && (zlen (ocfr_immutable_candidates (cfr_order r)) <=? twice_identity_limit)
     && (order_candidate_keys <=? twice_identity_limit)
  then Ok tt
  else Err (sequence_error (sl_required_reserve sequence_ledger) CFI_LogicalOwner).

(** ** The retained suffix *)

Definition record_phase (kind : RetainedCausalRecordKind) : CandidatePhase :=
  match kind with
  | RCK_BindingTerminal _ => CP_BindingTerminal
  | RCK_MembershipExit _ => CP_MembershipExit
  | RCK_AttachLifecycle _ _ => CP_AttachLifecycle
  | RCK_OrdinaryRecord _ => CP_OrdinaryRecord
  | RCK_CompactionMarker _ _ => CP_CompactionMarker
  end.
Definition record_participant (kind : RetainedCausalRecordKind) : ParticipantId :=
  match kind with
  | RCK_BindingTerminal owner => bto_participant_index owner
  | RCK_MembershipExit participant_index | RCK_AttachLifecycle participant_index _
  | RCK_OrdinaryRecord participant_index | RCK_CompactionMarker participant_index _ =>
      participant_index
  end.
Definition valid_kind (record : RetainedCausalRecord) : bool :=
  let order := rcr_admission_order record in
  bool_decide (ao_candidate_phase order = record_phase (rcr_kind record))
  && (ao_participant_index order =? record_participant (rcr_kind record))
  && match rcr_kind record with
     | RCK_CompactionMarker participant_index provenance =>
         marker_provenance_targets provenance participant_index
     | _ => true
     end.

Fixpoint check_retained (record_index : Z) (retained_floor identity_slot_limit : Z)
    (previous : option AdmissionOrder) (records : list RetainedCausalRecord) : checked unit :=
  match records with
  | [] => Ok tt
  | record :: records =>
      if (identity_slot_limit <=? record_participant (rcr_kind record))
         || negb (valid_kind record)
         || not_before previous (rcr_admission_order record)
         || negb (rcr_delivery_seq record =? retained_floor + record_index)
      then Err (sequence_error record_index CFI_CandidateKey)
      else check_retained (record_index + 1) retained_floor identity_slot_limit
             (Some (rcr_admission_order record)) records
  end.

Definition validated_retained_records (records : list RetainedCausalRecord)
    (retained_floor retained_record_limit identity_slot_limit : Z) (ledger : SequenceLedger)
    : checked (list RetainedCausalRecord) :=
  let high_end := add_u128 (sl_high_watermark ledger) 1 in
  let expected_count := saturating_sub high_end retained_floor in
  if (high_end <? retained_floor) || (retained_record_limit <? zlen records)
     || negb (zlen records =? expected_count)
  then Err (sequence_error (Z.min (zlen records) expected_count) CFI_LogicalOwner)
  else
    let records := sort_by_key rcr_delivery_seq records in
    let? _ := check_retained 0 retained_floor identity_slot_limit None records in
    Ok records.

(** ** Markers *)

Fixpoint collect_active_markers (retained_markers : list RetainedCausalRecord)
    (ledger : SequenceLedger) (previous_sequence : option DeliverySeq)
    (owners : list ParticipantId) (anchors : list DeliverySeq)
    : checked (list RetainedCausalRecord) :=
  match anchors with
  | [] => Ok []
  | delivery_seq :: anchors =>
      let failure := Err (sequence_error (sequence_ordinal ledger delivery_seq) CFI_LogicalOwner) in
      match find_record delivery_seq retained_markers with
      | None => failure
      | Some record =>
          match rcr_kind record with
          | RCK_CompactionMarker participant_index _ =>
              if bool_decide (previous_sequence = Some delivery_seq)
                 || bool_decide (participant_index ∈ owners) then failure
              else
                let? rest := collect_active_markers retained_markers ledger (Some delivery_seq)
                               (owners ++ [participant_index]) anchors in
                Ok (record :: rest)
          | _ => failure
          end
      end
  end.
Definition validated_active_marker_records (retained_markers : list RetainedCausalRecord)
    (active_marker_anchors : list DeliverySeq) (identity_slot_limit : Z) (ledger : SequenceLedger)
    : checked (list RetainedCausalRecord) :=
  if identity_slot_limit <? zlen active_marker_anchors
  then Err (sequence_error (sl_required_reserve ledger) CFI_LogicalOwner)
  else collect_active_markers retained_markers ledger None [] (sort_by_key id active_marker_anchors).

Definition binding_terminal_matches_delivery (owner : BindingTerminalOwner)
    (fact : HistoricalMarkerDeliveryFactRestore) : bool :=
  (bto_participant_index owner =? hmf_participant_index fact)
  && bool_decide (bto_binding_epoch owner = hmf_delivered_binding_epoch fact).

Record MarkerDeliverySources := mkMarkerDeliverySources {
  mds_retained : list RetainedCausalRecord;
  mds_historical : list HistoricalCausalAuthority;
  mds_candidates : list ImmutableSequenceCandidate;
}.

(** [iter().find_map(..)]. *)
Definition find_map {A B} (f : A -> option B) (l : list A) : option B := head (omap f l).

Definition terminal_order (sources : MarkerDeliverySources)
    (fact : HistoricalMarkerDeliveryFactRestore) : option AdmissionOrder :=
  let matches owner (order : AdmissionOrder) :=
    if binding_terminal_matches_delivery owner fact then Some order else None in
  match find_map (fun authority =>
          match hca_kind authority with
          | HCK_BindingTerminal owner => matches owner (hca_admission_order authority)
          | HCK_MembershipExit _ => None
          end) (mds_historical sources) with
  | Some order => Some order
  | None =>
      match find_map (fun record =>
              match rcr_kind record with
              | RCK_BindingTerminal owner => matches owner (rcr_admission_order record)
              | _ => None
              end) (mds_retained sources) with
      | Some order => Some order
      | None =>
          find_map (fun candidate =>
            match candidate with
            | ISC_BindingTerminal _ admission_order owner => matches owner admission_order
            | ISC_Marker _ => None
            end) (mds_candidates sources)
      end
  end.

Definition historical_epoch_is_backed (active : ActiveIdentityRanks)
    (sources : MarkerDeliverySources) (fact : HistoricalMarkerDeliveryFactRestore) : bool :=
  match List.find (fun record =>
          (rcr_delivery_seq record =? hmf_marker_delivery_seq fact)
          && match rcr_kind record with
             | RCK_CompactionMarker participant_index _ =>
                 participant_index =? hmf_participant_index fact
             | _ => false
             end) (mds_retained sources) with
  | None => false
  | Some marker_record =>
      match active_participant active (hmf_participant_index fact) with
      | Some participant =>
          bool_decide (fp_binding participant = FB_Bound (hmf_delivered_binding_epoch fact))
      | None => false
      end
      || match terminal_order sources fact with
         | Some order => ao_ltb (rcr_admission_order marker_record) order
         | None => false
         end
  end.

Fixpoint collect_deliveries (conversation_id : ConversationId) (active : ActiveIdentityRanks)
    (sources : MarkerDeliverySources) (ledger : SequenceLedger)
    (previous_sequence : option DeliverySeq) (facts : list HistoricalMarkerDeliveryFactRestore)
    : checked (list HistoricalMarkerDeliveryAuthority) :=
  match facts with
  | [] => Ok []
  | fact :: facts =>
      if negb (hmf_conversation_id fact =? conversation_id)
         || bool_decide (previous_sequence = Some (hmf_marker_delivery_seq fact))
         || negb (historical_epoch_is_backed active sources fact)
      then Err (sequence_error (sequence_ordinal ledger (hmf_marker_delivery_seq fact))
                  CFI_LogicalOwner)
      else
        let? rest := collect_deliveries conversation_id active sources ledger
                       (Some (hmf_marker_delivery_seq fact)) facts in
        Ok (mkHistoricalMarkerDeliveryAuthority (hmf_participant_index fact)
              (hmf_marker_delivery_seq fact) (hmf_delivered_binding_epoch fact) :: rest)
  end.
Definition validated_historical_marker_deliveries (facts : list HistoricalMarkerDeliveryFactRestore)
    (conversation_id : ConversationId) (active : ActiveIdentityRanks)
    (sources : MarkerDeliverySources) (retained_record_limit : Z) (ledger : SequenceLedger)
    : checked (list HistoricalMarkerDeliveryAuthority) :=
  if retained_record_limit <? zlen facts
  then Err (sequence_error (sl_required_reserve ledger) CFI_LogicalOwner)
  else collect_deliveries conversation_id active sources ledger None
         (sort_by_key hmf_marker_delivery_seq facts).

(** ** Binding origins *)

Record BindingOriginValidation := mkBindingOriginValidation {
  bov_conversation_id : ConversationId;
  bov_active : ActiveIdentityRanks;
  bov_origins : list BindingOrigin;
  bov_retained_records : list RetainedCausalRecord;
  bov_causal_authorities : list HistoricalCausalAuthority;
  bov_historical_marker_deliveries : list HistoricalMarkerDeliveryAuthority;
  bov_total : bool;
  bov_ledger : SequenceLedger;
}.
Definition logical_owner_error (v : BindingOriginValidation) : ClaimFrontierError :=
  sequence_error (sl_required_reserve (bov_ledger v)) CFI_LogicalOwner.

Definition binding_terminal_exists (participant_index : ParticipantId) (epoch : BindingEpoch)
    (retained_records : list RetainedCausalRecord)
    (historical_causal_authorities : list HistoricalCausalAuthority) : bool :=
  let owned owner := (bto_participant_index owner =? participant_index)
                     && bool_decide (bto_binding_epoch owner = epoch) in
  existsb (fun record => match rcr_kind record with
                         | RCK_BindingTerminal owner => owned owner
                         | _ => false
                         end) retained_records
  || existsb (fun authority => match hca_kind authority with
                               | HCK_BindingTerminal owner => owned owner
                               | HCK_MembershipExit _ => false
                               end) historical_causal_authorities.

Definition is_attach_of (participant_index : ParticipantId) (epoch : BindingEpoch)
    (record : RetainedCausalRecord) : bool :=
  match rcr_kind record with
  | RCK_AttachLifecycle index binding_epoch =>
      (index =? participant_index) && bool_decide (binding_epoch = epoch)
  | _ => false
  end.

Definition validate_origin (v : BindingOriginValidation) (participant : FrontierParticipant)
    (origin : BindingOrigin) : checked unit :=
  let current_epoch := frontier_binding_epoch (fp_binding participant) in
  let attached := bo_attached origin in
  if negb (bo_conversation_id origin =? bov_conversation_id v)
     || negb (bool_decide (bo_binding_epoch origin = current_epoch))
     || negb (alr_conversation_id attached =? bov_conversation_id v)
     || negb (alr_participant_id attached =? fp_participant_index participant)
     || negb (bool_decide (alr_binding_epoch attached = current_epoch))
     || negb (bool_decide (ao_candidate_phase (alr_admission_order attached) = CP_AttachLifecycle))
  then Err (logical_owner_error v)
  else
    let retained_attach :=
      List.filter (is_attach_of (fp_participant_index participant) current_epoch)
        (bov_retained_records v) in
    let retained_attach_matches :=
      existsb (fun record =>
        (rcr_delivery_seq record =? alr_delivery_seq attached)
        && bool_decide (rcr_admission_order record = alr_admission_order attached))
        retained_attach in
    if is_some (head retained_attach) && negb retained_attach_matches
    then Err (logical_owner_error v)
    else
      match recovered_marker origin with
      | Some (marker_delivery_seq, prior_binding_epoch) =>
          let generation_is_next :=
            bool_decide (checked_add u64_max (capability_generation prior_binding_epoch) 1
                         = Some (capability_generation current_epoch)) in
          let marker_history_matches :=
            existsb (fun history =>
              (hma_participant_index history =? fp_participant_index participant)
              && (hma_marker_delivery_seq history =? marker_delivery_seq)
              && bool_decide (hma_delivered_binding_epoch history = prior_binding_epoch))
              (bov_historical_marker_deliveries v) in
          if negb generation_is_next || negb marker_history_matches
          then Err (sequence_error (sequence_ordinal (bov_ledger v) marker_delivery_seq)
                      CFI_RecoveryBlock)
          else Ok tt
      | None =>
          if negb (is_bound (fp_binding participant))
             && negb (binding_terminal_exists (fp_participant_index participant) current_epoch
                        (bov_retained_records v) (bov_causal_authorities v))
          then Err (logical_owner_error v)
          else Ok tt
      end.

Fixpoint validate_origins (v : BindingOriginValidation) (participants : list FrontierParticipant)
    : checked unit :=
  match participants with
  | [] => Ok tt
  | participant :: participants =>
      match List.filter (fun origin => bo_participant_id origin =? fp_participant_index participant)
              (bov_origins v) with
      | [origin] =>
          let? _ := validate_origin v participant origin in
          validate_origins v participants
      | _ => Err (logical_owner_error v)
      end
  end.
Definition validate_binding_origins (v : BindingOriginValidation) : checked unit :=
  if negb (bov_total v) then
    match bov_origins v with [] => Ok tt | _ => Err (logical_owner_error v) end
  else if negb (bool_decide (length (bov_origins v)
                             = length (air_participants (bov_active v))))
  then Err (logical_owner_error v)
  else validate_origins v (air_participants (bov_active v)).

(** ** Owners of marker credits and history *)

Fixpoint credit_records (ledger : SequenceLedger) (owners : list ParticipantId)
    (records : list RetainedCausalRecord) : checked (list ParticipantId) :=
  match records with
  | [] => Ok owners
  | record :: records =>
      match rcr_kind record with
      | RCK_CompactionMarker participant_index _ =>
          if bool_decide (participant_index ∈ owners)
          then Err (sequence_error (sl_required_reserve ledger) CFI_LogicalOwner)
          else credit_records ledger (owners ++ [participant_index]) records
      | _ => credit_records ledger owners records
      end
  end.
Fixpoint credit_candidates (ledger : SequenceLedger) (owners : list ParticipantId)
    (candidates : list ImmutableSequenceCandidate) : checked (list ParticipantId) :=
  match candidates with
  | [] => Ok owners
  | ISC_BindingTerminal _ _ _ :: candidates => credit_candidates ledger owners candidates
  | ISC_Marker marker :: candidates =>
      let participant_index := ao_participant_index (mca_admission_order marker) in
      if bool_decide (participant_index ∈ owners)
      then Err (sequence_error (sequence_ordinal ledger (mca_delivery_seq marker)) CFI_LogicalOwner)
      else credit_candidates ledger (owners ++ [participant_index]) candidates
  end.
Definition validate_marker_credit_owners (candidates : list ImmutableSequenceCandidate)
    (marker_records : list RetainedCausalRecord) (identity_slot_limit : Z) (ledger : SequenceLedger)
    : checked unit :=
  let? owners := credit_records ledger [] marker_records in
  let? owners := credit_candidates ledger owners candidates in
  if identity_slot_limit <? zlen owners
  then Err (sequence_error (sl_required_reserve ledger) CFI_LogicalOwner)
  else Ok tt.

Definition authority_owner (a : HistoricalCausalAuthority) : ParticipantId * CandidatePhase :=
  match hca_kind a with
  | HCK_BindingTerminal owner => (bto_participant_index owner, CP_BindingTerminal)
  | HCK_MembershipExit participant_index => (participant_index, CP_MembershipExit)
  end.
Fixpoint check_authorities (conversation_id : ConversationId) (identity_slot_limit : Z)
    (ledger : SequenceLedger) (history : ValidatedConversationHistory)
    (seen authorities : list HistoricalCausalAuthority) : checked unit :=
  match authorities with
  | [] => Ok tt
  | authority :: authorities =>
      let '(participant_index, phase) := authority_owner authority in
      if negb (hca_conversation_id authority =? conversation_id)
         || (identity_slot_limit <=? participant_index)
         || negb (ao_participant_index (hca_admission_order authority) =? participant_index)
         || negb (bool_decide (ao_candidate_phase (hca_admission_order authority) = phase))
         || bool_decide (authority ∈ seen)
         || negb (bool_decide (authority ∈ vch_causal_authorities history))
      then Err (sequence_error (sl_required_reserve ledger) CFI_LogicalOwner)
      else check_authorities conversation_id identity_slot_limit ledger history
             (seen ++ [authority]) authorities
  end.
Definition validated_historical_authorities (facts : list HistoricalCausalFactRestore)
    (conversation_id : ConversationId) (identity_slot_limit : Z) (ledger : SequenceLedger)
    (history : ValidatedConversationHistory) : checked (list HistoricalCausalAuthority) :=
  if saturating_mul_u128 identity_slot_limit 2 <? zlen facts
  then Err (sequence_error (sl_required_reserve ledger) CFI_LogicalOwner)
  else
    let authorities := map from_restore facts in
    let? _ := check_authorities conversation_id identity_slot_limit ledger history [] authorities in
    Ok authorities.

(** ** Recovery blocks *)

Definition expected_binding (p : RecoveryClaimProvenance) : FrontierBinding :=
  match rcv_phase p with
  | RCP_PreFate => FB_Bound (rcv_prior_binding_epoch p)
  | RCP_PostFate => FB_Detached (rcv_prior_binding_epoch p)
  | RCP_RecoveredBound => FB_Bound (rcv_current_binding_epoch p)
  end.
(** The owner a block keeps for the binding that is still to end. *)
Definition block_owner_valid (p : RecoveryClaimProvenance) (owner : option BindingTerminalOwner)
    : bool :=
  match rcv_phase p, owner with
  | RCP_PreFate, Some owner =>
      (bto_participant_index owner =? rcv_participant_index p)
      && bool_decide (bto_binding_epoch owner = rcv_prior_binding_epoch p)
  | (RCP_PostFate | RCP_RecoveredBound), None => true
  | _, _ => false
  end.

Definition validate_sequence_recovery (active : ActiveIdentityRanks)
    (recovery : option RecoverySequenceBlockRestore) (provenance : option RecoveryClaimProvenance)
    (ledger : SequenceLedger) (frontier_length : Z) : checked unit :=
  match sc_recovery (sl_claims ledger), recovery, provenance with
  | RSR_None, None, None => Ok tt
  | RSR_DetachedCredentialRecovery, None, _
  | RSR_DetachedCredentialRecovery, Some _, None
  | RSR_None, None, Some _ => Err (sequence_error frontier_length CFI_RecoveryBlock)
  | RSR_None, Some block, _ =>
      Err (sequence_error (sequence_ordinal ledger (block_start_sequence block)) CFI_RecoveryBlock)
  | RSR_DetachedCredentialRecovery, Some block, Some provenance =>
      let block_ordinal := sequence_ordinal ledger (block_start_sequence block) in
      let expected_recovery_attach :=
        match rsbr_terminal block with
        | None => Some (rsbr_recovery_attach_seq block)
        | Some terminal => checked_add u64_max (rst_delivery_seq terminal) 1
        end in
      if negb (bool_decide (expected_recovery_attach = Some (rsbr_recovery_attach_seq block)))
      then Err (sequence_error (block_ordinal + 1) CFI_RecoveryBlock)
      else if negb (bool_decide (checked_add u64_max (rsbr_recovery_attach_seq block) 1
                                 = Some (rsbr_replacement_terminal_seq block)))
      then Err (sequence_error (block_ordinal + of_bool (is_some (rsbr_terminal block)) + 1)
                  CFI_RecoveryBlock)
      else
        match active_participant active (rcv_participant_index provenance) with
        | None => Err (sequence_error block_ordinal CFI_LogicalOwner)
        | Some participant =>
            if negb (bool_decide (fp_binding participant = expected_binding provenance))
            then Err (sequence_error block_ordinal CFI_LogicalOwner)
            else if negb (block_owner_valid provenance (option_map rst_owner (rsbr_terminal block)))
            then Err (sequence_error block_ordinal CFI_RecoveryBlock)
            else Ok tt
        end
  end.

Definition validate_order_recovery (active : ActiveIdentityRanks)
    (recovery : option RecoveryOrderBlockRestore) (provenance : option RecoveryClaimProvenance)
    (ledger : OrderLedger) (frontier_length : Z) : checked unit :=
  let claims := ol_claims ledger in
  match oc_recovery_operation claims && oc_recovery_replacement_terminal claims, recovery,
        provenance with
  | false, None, None => Ok tt
  | true, None, _ | true, Some _, None | false, None, Some _ =>
      Err (order_error frontier_length CFI_RecoveryBlock)
  | false, Some block, _ =>
      Err (order_error (order_ordinal ledger (block_start_order block)) CFI_RecoveryBlock)
  | true, Some block, Some provenance =>
      let block_ordinal := order_ordinal ledger (block_start_order block) in
      let expected_recovery_operation :=
        match robr_active_binding block with
        | None => Some (robr_recovery_operation_order block)
        | Some active_binding => checked_add u64_max (roa_transaction_order active_binding) 1
        end in
      if negb (bool_decide (expected_recovery_operation = Some (robr_recovery_operation_order block)))
      then Err (order_error (block_ordinal + 1) CFI_RecoveryBlock)
      else if negb (bool_decide (checked_add u64_max (robr_recovery_operation_order block) 1
                                 = Some (robr_replacement_terminal_order block)))
      then Err (order_error (block_ordinal + of_bool (is_some (robr_active_binding block)) + 1)
                  CFI_RecoveryBlock)
      else
        match active_participant active (rcv_participant_index provenance) with
        | None => Err (order_error block_ordinal CFI_LogicalOwner)
        | Some participant =>
            if negb (bool_decide (fp_binding participant = expected_binding provenance))
            then Err (order_error block_ordinal CFI_LogicalOwner)
            else if negb (block_owner_valid provenance
                            (option_map roa_owner (robr_active_binding block)))
            then Err (order_error block_ordinal CFI_RecoveryBlock)
            else Ok tt
        end
  end.

(** ** Candidates *)

Definition terminal_matches_active (active : ActiveIdentityRanks) (owner : BindingTerminalOwner)
    : bool :=
  match active_participant active (bto_participant_index owner) with
  | Some participant =>
      bool_decide (frontier_binding_epoch (fp_binding participant) = bto_binding_epoch owner)
  | None => false
  end.
Definition terminal_matches_bound (active : ActiveIdentityRanks) (owner : BindingTerminalOwner)
    : bool :=
  match active_participant active (bto_participant_index owner) with
  | Some participant => bool_decide (fp_binding participant = FB_Bound (bto_binding_epoch owner))
  | None => false
  end.

(** The terminal or exit a product marker was caused by, as a retained or a historical
    record of the same major. *)
Definition record_causes (provenance : MarkerProvenance) (kind : RetainedCausalRecordKind) : bool :=
  match provenance, kind with
  | MP_NonProductM, _ => true
  | MP_TerminalProduct (TPS_Binding owner) _, RCK_BindingTerminal actual =>
      bool_decide (actual = owner)
  | MP_TerminalProduct (TPS_RecoveryReplacement participant_index binding_epoch) _,
    RCK_BindingTerminal owner =>
      (bto_participant_index owner =? participant_index)
      && bool_decide (bto_binding_epoch owner = binding_epoch)
  | MP_ExitProduct exit_participant _, RCK_MembershipExit participant_index =>
      participant_index =? exit_participant
  | _, _ => false
  end.
Definition authority_causes (provenance : MarkerProvenance) (kind : HistoricalCausalKind) : bool :=
  match provenance, kind with
  | MP_TerminalProduct (TPS_Binding expected) _, HCK_BindingTerminal owner =>
      bool_decide (owner = expected)
  | MP_TerminalProduct (TPS_RecoveryReplacement participant_index binding_epoch) _,
    HCK_BindingTerminal owner =>
      (bto_participant_index owner =? participant_index)
      && bool_decide (bto_binding_epoch owner = binding_epoch)
  | MP_ExitProduct exit_participant _, HCK_MembershipExit participant_index =>
      participant_index =? exit_participant
  | _, _ => false
  end.
Definition marker_has_causal_authority (marker : MarkerCandidateAuthority)
    (records : list RetainedCausalRecord) (historical : list HistoricalCausalAuthority) : bool :=
  let major := ao_transaction_order (mca_admission_order marker) in
  if bool_decide (mca_provenance marker = MP_NonProductM) then true
  else
    existsb (fun record =>
      (ao_transaction_order (rcr_admission_order record) =? major)
      && record_causes (mca_provenance marker) (rcr_kind record)) records
    || existsb (fun authority =>
         authority_causes (mca_provenance marker) (hca_kind authority)
         && (ao_transaction_order (hca_admission_order authority) =? major)) historical.

Definition marker_valid (participant : FrontierParticipant) (marker : MarkerCandidateAuthority)
    (retained_floor : Z) (retained_records : list RetainedCausalRecord)
    (historical : list HistoricalCausalAuthority) : bool :=
  let order := mca_admission_order marker in
  bool_decide (ao_candidate_phase order = CP_CompactionMarker)
  && bool_decide (mca_current_owner marker = MSO_Marker)
  && bool_decide (mca_target_binding marker = fp_binding participant)
  && (mca_abandoned_after marker =? fp_cursor participant)
  && (mca_abandoned_after marker <=? mca_abandoned_through marker)
  && (mca_physical_floor_at_decision marker =? retained_floor)
  && (mca_physical_floor_at_decision marker <=? add_u128 (mca_abandoned_through marker) 1)
  && (mca_abandoned_through marker <? mca_delivery_seq marker)
  && marker_provenance_targets (mca_provenance marker) (ao_participant_index order)
  && marker_has_causal_authority marker retained_records historical.

Fixpoint check_candidates (active : ActiveIdentityRanks) (retained_floor : Z)
    (retained_records : list RetainedCausalRecord) (historical : list HistoricalCausalAuthority)
    (ledger : SequenceLedger) (seen_keys : list AdmissionOrder)
    (previous_sequence : option DeliverySeq) (previous_order : option AdmissionOrder)
    (candidates : list ImmutableSequenceCandidate) : checked unit :=
  match candidates with
  | [] => Ok tt
  | candidate :: candidates =>
      let ordinal := sequence_ordinal ledger (isc_delivery_seq candidate) in
      let order := isc_admission_order candidate in
      if match previous_sequence with
         | Some previous => isc_delivery_seq candidate <=? previous
         | None => false
         end
         || not_before previous_order order
         || bool_decide (order ∈ seen_keys)
      then Err (sequence_error ordinal CFI_CandidateKey)
      else
        let? _ :=
          match candidate with
          | ISC_BindingTerminal _ _ owner =>
              if negb (bool_decide (ao_candidate_phase order = CP_BindingTerminal))
                 || negb (ao_participant_index order =? bto_participant_index owner)
                 || negb (terminal_matches_active active owner)
              then Err (sequence_error ordinal CFI_CandidateKey)
              else Ok tt
          | ISC_Marker marker =>
              match active_participant active (ao_participant_index order) with
              | None => Err (sequence_error ordinal CFI_LogicalOwner)
              | Some participant =>
                  if marker_valid participant marker retained_floor retained_records historical
                  then Ok tt else Err (sequence_error ordinal CFI_CandidateKey)
              end
          end in
        check_candidates active retained_floor retained_records historical ledger
          (seen_keys ++ [order]) (Some (isc_delivery_seq candidate)) (Some order) candidates
  end.
Definition validate_sequence_candidates (active : ActiveIdentityRanks)
    (candidates : list ImmutableSequenceCandidate) (retained_floor : Z)
    (retained_records : list RetainedCausalRecord) (historical : list HistoricalCausalAuthority)
    (ledger : SequenceLedger) : checked unit :=
  check_candidates active retained_floor retained_records historical ledger [] None
    (option_map rcr_admission_order (last retained_records)) candidates.

(** ** Direct owners *)

Inductive TerminalOccurrenceKind := TOK_Movable | TOK_Candidate.
Record TerminalOccurrence := mkTerminalOccurrence {
  toc_owner : BindingTerminalOwner;
  toc_ordinal : Z;
  toc_kind : TerminalOccurrenceKind;
}.

Definition push_terminal_occurrence (occurrences : list TerminalOccurrence)
    (owner : BindingTerminalOwner) (ordinal : Z) (kind : TerminalOccurrenceKind)
    : checked (list TerminalOccurrence) :=
  if bool_decide (owner ∈ map toc_owner occurrences)
  then Err (sequence_error ordinal CFI_LogicalOwner)
  else Ok (occurrences ++ [mkTerminalOccurrence owner ordinal kind]).

Fixpoint collect_movable (active : ActiveIdentityRanks) (ledger : SequenceLedger)
    (exits : list ParticipantId) (occurrences : list TerminalOccurrence)
    (claims : list MovableSequenceClaim)
    : checked (list ParticipantId * list TerminalOccurrence) :=
  match claims with
  | [] => Ok (exits, occurrences)
  | claim :: claims =>
      let ordinal := sequence_ordinal ledger (msc_delivery_seq claim) in
      match msc_owner claim with
      | SDO_MembershipExit participant_index =>
          if negb (air_contains active participant_index)
             || bool_decide (participant_index ∈ exits)
          then Err (sequence_error ordinal CFI_LogicalOwner)
          else collect_movable active ledger (exits ++ [participant_index]) occurrences claims
      | SDO_BindingTerminal owner =>
          if negb (terminal_matches_bound active owner)
          then Err (sequence_error ordinal CFI_LogicalOwner)
          else
            let? occurrences := push_terminal_occurrence occurrences owner ordinal TOK_Movable in
            collect_movable active ledger exits occurrences claims
      end
  end.
Fixpoint collect_candidate_terminals (ledger : SequenceLedger)
    (occurrences : list TerminalOccurrence) (candidates : list ImmutableSequenceCandidate)
    : checked (list TerminalOccurrence) :=
  match candidates with
  | [] => Ok occurrences
  | ISC_BindingTerminal delivery_seq _ owner :: candidates =>
      let? occurrences := push_terminal_occurrence occurrences owner
                            (sequence_ordinal ledger delivery_seq) TOK_Candidate in
      collect_candidate_terminals ledger occurrences candidates
  | ISC_Marker _ :: candidates => collect_candidate_terminals ledger occurrences candidates
  end.
Definition collect_sequence_direct_owners (active : ActiveIdentityRanks)
    (movable : list MovableSequenceClaim) (candidates : list ImmutableSequenceCandidate)
    (recovery : option RecoverySequenceBlockRestore) (ledger : SequenceLedger)
    : checked (list ParticipantId * list TerminalOccurrence) :=
  let? collected := collect_movable active ledger [] [] (sort_by_key msc_delivery_seq movable) in
  let? occurrences := collect_candidate_terminals ledger collected.2 candidates in
  let? occurrences :=
    match recovery ≫= rsbr_terminal with
    | Some terminal =>
        push_terminal_occurrence occurrences (rst_owner terminal)
          (sequence_ordinal ledger (rst_delivery_seq terminal)) TOK_Movable
    | None => Ok occurrences
    end in
  Ok (collected.1, occurrences).

Definition validate_sequence_exit_owners (active : ActiveIdentityRanks)
    (exit_owners : list ParticipantId) (ledger : SequenceLedger) : checked unit :=
  let exit_owners := sort_by_key id exit_owners in
  if negb (bool_decide (exit_owners = map fp_participant_index (air_participants active)))
  then Err (sequence_error (sl_required_reserve ledger) CFI_LogicalOwner)
  else Ok tt.

Fixpoint check_terminal_owners (ledger : SequenceLedger) (occurrences : list TerminalOccurrence)
    (participants : list FrontierParticipant) : checked unit :=
  match participants with
  | [] => Ok tt
  | participant :: participants =>
      let matching :=
        List.filter (fun occurrence =>
          bto_participant_index (toc_owner occurrence) =? fp_participant_index participant)
          occurrences in
      let failure :=
        Err (sequence_error
               (match matching with
                | [] => sl_required_reserve ledger
                | occurrence :: _ => toc_ordinal occurrence
                end) CFI_LogicalOwner) in
      let owned :=
        match fp_binding participant with
        | FB_Bound epoch =>
            match matching with
            | [occurrence] => bool_decide (bto_binding_epoch (toc_owner occurrence) = epoch)
            | _ => false
            end
        | FB_Detached epoch =>
            match matching with
            | [] => true
            | [occurrence] =>
                bool_decide (bto_binding_epoch (toc_owner occurrence) = epoch)
                && match toc_kind occurrence with TOK_Candidate => true | TOK_Movable => false end
            | _ => false
            end
        end in
      if owned then check_terminal_owners ledger occurrences participants else failure
  end.
Definition validate_sequence_terminal_owners (active : ActiveIdentityRanks)
    (terminal_occurrences : list TerminalOccurrence) (ledger : SequenceLedger) : checked unit :=
  check_terminal_owners ledger terminal_occurrences (air_participants active).

Definition validate_sequence_direct_owners (active : ActiveIdentityRanks)
    (movable : list MovableSequenceClaim) (candidates : list ImmutableSequenceCandidate)
    (recovery : option RecoverySequenceBlockRestore) (ledger : SequenceLedger)
    : checked (list BindingTerminalOwner) :=
  let? collected := collect_sequence_direct_owners active movable candidates recovery ledger in
  let? _ := validate_sequence_exit_owners active collected.1 ledger in
  let? _ := validate_sequence_terminal_owners active collected.2 ledger in
  Ok (merge_sort owner_le (map toc_owner collected.2)).

Fixpoint collect_order_owners (active : ActiveIdentityRanks) (ledger : OrderLedger)
    (exits : list ParticipantId) (terminals : list BindingTerminalOwner)
    (claims : list MovableOrderClaim) : checked (list ParticipantId * list BindingTerminalOwner) :=
  match claims with
  | [] => Ok (exits, terminals)
  | claim :: claims =>
      let ordinal := order_ordinal ledger (moc_transaction_order claim) in
      match moc_owner claim with
      | ODO_MembershipExit participant_index =>
          if negb (air_contains active participant_index)
             || bool_decide (participant_index ∈ exits)
          then Err (order_error ordinal CFI_LogicalOwner)
          else collect_order_owners active ledger (exits ++ [participant_index]) terminals claims
      | ODO_ActiveBindingTerminal owner =>
          if negb (terminal_matches_bound active owner) || bool_decide (owner ∈ terminals)
          then Err (order_error ordinal CFI_LogicalOwner)
          else collect_order_owners active ledger exits (terminals ++ [owner]) claims
      end
  end.
Definition validate_order_direct_owners (active : ActiveIdentityRanks)
    (movable : list MovableOrderClaim) (recovery : option RecoveryOrderBlockRestore)
    (ledger : OrderLedger) : checked unit :=
  let? collected := collect_order_owners active ledger [] []
                      (sort_by_key moc_transaction_order movable) in
  let? terminals :=
    match recovery ≫= robr_active_binding with
    | Some active_binding =>
        if negb (terminal_matches_bound active (roa_owner active_binding))
           || bool_decide (roa_owner active_binding ∈ collected.2)
        then Err (order_error (order_ordinal ledger (roa_transaction_order active_binding))
                    CFI_LogicalOwner)
        else Ok (collected.2 ++ [roa_owner active_binding])
    | None => Ok collected.2
    end in
  if negb (bool_decide (sort_by_key id collected.1
                        = map fp_participant_index (air_participants active)))
  then Err (order_error (oc_total (ol_claims ledger)) CFI_LogicalOwner)
  else if negb (zlen terminals =? oc_active_binding_terminals (ol_claims ledger))
  then Err (order_error (oc_total (ol_claims ledger)) CFI_LogicalOwner)
  else Ok tt.

(** ** Product ranges *)

Fixpoint check_terminal_ranges (terminal_owners : list BindingTerminalOwner) (live_count : Z)
    (ledger : SequenceLedger) (seen : list BindingTerminalOwner)
    (ranges : list TerminalProductRangeRestore) : checked (list BindingTerminalOwner) :=
  match ranges with
  | [] => Ok seen
  | range :: ranges =>
      if negb (tprr_length range =? live_count)
         || negb (bool_decide (tprr_terminal range ∈ terminal_owners))
         || bool_decide (tprr_terminal range ∈ seen)
      then Err (sequence_error (sequence_ordinal ledger (tprr_start range)) CFI_ProductRange)
      else check_terminal_ranges terminal_owners live_count ledger (seen ++ [tprr_terminal range])
             ranges
  end.
Definition validate_terminal_product_ranges (ranges : list TerminalProductRangeRestore)
    (terminal_owners : list BindingTerminalOwner) (live_count : Z) (ledger : SequenceLedger)
    : checked (list TerminalProductRange) :=
  let ranges := sort_by_key tprr_start ranges in
  let? seen := check_terminal_ranges terminal_owners live_count ledger [] ranges in
  if negb (bool_decide (length seen = length terminal_owners))
  then Err (sequence_error (sl_required_reserve ledger) CFI_ProductRange)
  else Ok (map (fun r => mkTerminalProductRange (tprr_start r) (tprr_length r) (tprr_terminal r))
             ranges).

Definition validate_replacement_product_range
    (range : option ReplacementTerminalProductRangeRestore)
    (recovery : option RecoverySequenceBlockRestore) (provenance : option RecoveryClaimProvenance)
    (live_count : Z) (ledger : SequenceLedger) : checked (option ReplacementTerminalProductRange) :=
  match range, recovery, provenance with
  | None, None, None => Ok None
  | Some range, Some _, Some provenance =>
      if rprr_length range =? live_count
      then Ok (Some (mkReplacementTerminalProductRange (rprr_start range) (rprr_length range)
                       (rcv_participant_index provenance) (rcv_marker_delivery_seq provenance)
                       (rcv_prior_binding_epoch provenance)))
      else Err (sequence_error (sequence_ordinal ledger (rprr_start range)) CFI_ProductRange)
  | Some range, _, _ =>
      Err (sequence_error (sequence_ordinal ledger (rprr_start range)) CFI_ProductRange)
  | None, _, _ => Err (sequence_error (sl_required_reserve ledger) CFI_ProductRange)
  end.

Fixpoint check_exit_ranges (active : ActiveIdentityRanks) (other_count : Z)
    (ledger : SequenceLedger) (seen : list ParticipantId) (ranges : list ExitProductRangeRestore)
    : checked (list ParticipantId) :=
  match ranges with
  | [] => Ok seen
  | range :: ranges =>
      if negb (eprr_length range =? other_count)
         || negb (air_contains active (eprr_exit_participant range))
         || bool_decide (eprr_exit_participant range ∈ seen)
      then Err (sequence_error (sequence_ordinal ledger (eprr_start range)) CFI_ProductRange)
      else check_exit_ranges active other_count ledger (seen ++ [eprr_exit_participant range]) ranges
  end.
Definition validate_exit_product_ranges (active : ActiveIdentityRanks)
    (ranges : list ExitProductRangeRestore) (other_count : Z) (ledger : SequenceLedger)
    : checked (list ExitProductRange) :=
  let ranges := sort_by_key eprr_start ranges in
  if (other_count =? 0) && negb (bool_decide (length ranges = 0%nat))
  then Err (sequence_error (sl_required_reserve ledger) CFI_ProductRange)
  else
    let? seen := check_exit_ranges active other_count ledger [] ranges in
    let expected_exit_ranges :=
      if other_count =? 0 then 0%nat else length (air_participants active) in
    if negb (bool_decide (sort_by_key id seen
               = map fp_participant_index (take expected_exit_ranges (air_participants active))))
    then Err (sequence_error (sl_required_reserve ledger) CFI_ProductRange)
    else Ok (map (fun r => mkExitProductRange (eprr_start r) (eprr_length r)
                             (eprr_exit_participant r)) ranges).

Definition validate_sequence_products (active : ActiveIdentityRanks)
    (restore : SequenceProductRangesRestore) (terminal_owners : list BindingTerminalOwner)
    (recovery : option RecoverySequenceBlockRestore) (provenance : option RecoveryClaimProvenance)
    (ledger : SequenceLedger) : checked SequenceProductRanges :=
  let live_count := air_len active in
  let other_count := saturating_sub live_count 1 in
  let? terminals := validate_terminal_product_ranges (sprr_live_times_terminal restore)
                      terminal_owners live_count ledger in
  let? replacement := validate_replacement_product_range
                        (sprr_live_times_replacement_terminal restore) recovery provenance
                        live_count ledger in
  let? exits := validate_exit_product_ranges active (sprr_other_live_times_exit restore)
                  other_count ledger in
  Ok (mkSequenceProductRanges terminals replacement exits).

(** ** Order candidates *)

Fixpoint check_keys (major : TransactionOrder) (ordinal : Z) (previous : option AdmissionOrder)
    (seen keys : list AdmissionOrder) : checked (list AdmissionOrder) :=
  match keys with
  | [] => Ok seen
  | key :: keys =>
      if negb (ao_transaction_order key =? major) || not_before previous key
         || bool_decide (key ∈ seen)
      then Err (order_error ordinal CFI_CandidateKey)
      else check_keys major ordinal (Some key) (seen ++ [key]) keys
  end.
Fixpoint check_groups (ledger : OrderLedger) (seen : list AdmissionOrder)
    (previous_major : option TransactionOrder) (groups : list ImmutableOrderCandidateMajorRestore)
    : checked (list ImmutableOrderCandidateMajor) :=
  match groups with
  | [] => Ok []
  | group :: groups =>
      let ordinal := order_ordinal ledger (icmr_transaction_order group) in
      let below_allocated_high :=
        match ol_high ledger with
        | OH_Allocated high => icmr_transaction_order group <? high
        | OH_Empty => false
        end in
      if bool_decide (length (icmr_candidate_keys group) = 0%nat)
         || bool_decide (previous_major = Some (icmr_transaction_order group))
         || below_allocated_high
      then Err (order_error ordinal CFI_CandidateKey)
      else
        let? seen := check_keys (icmr_transaction_order group) ordinal None seen
                       (icmr_candidate_keys group) in
        let? rest := check_groups ledger seen (Some (icmr_transaction_order group)) groups in
        Ok (mkImmutableOrderCandidateMajor (icmr_transaction_order group)
              (icmr_candidate_keys group) :: rest)
  end.
Definition validate_order_candidates (restore : list ImmutableOrderCandidateMajorRestore)
    (ledger : OrderLedger) : checked (list ImmutableOrderCandidateMajor) :=
  check_groups ledger [] None (sort_by_key icmr_transaction_order restore).

(** ** The two lanes *)

Definition restored_sequence_block (value : RecoverySequenceBlockRestore)
    (provenance : RecoveryClaimProvenance) : RecoverySequenceBlock :=
  mkRecoverySequenceBlock (rsbr_terminal value) (rsbr_recovery_attach_seq value)
    (rsbr_replacement_terminal_seq value) (rcv_participant_index provenance)
    (rcv_marker_delivery_seq provenance) (rcv_prior_binding_epoch provenance).
Definition restored_order_block (value : RecoveryOrderBlockRestore)
    (provenance : RecoveryClaimProvenance) : RecoveryOrderBlock :=
  mkRecoveryOrderBlock (robr_active_binding value) (robr_recovery_operation_order value)
    (robr_replacement_terminal_order value) (rcv_participant_index provenance)
    (rcv_marker_delivery_seq provenance) (rcv_prior_binding_epoch provenance).

Definition restore_sequence_frontier (active : ActiveIdentityRanks)
    (restore : SequenceClaimFrontierRestore) (retained_floor : Z) (ledger : SequenceLedger)
    (provenance : option RecoveryClaimProvenance) (retained_records : list RetainedCausalRecord)
    (historical : list HistoricalCausalAuthority) : checked SequenceClaimFrontier :=
  let? _ := validate_sequence_numeric restore ledger in
  let? _ := validate_sequence_recovery active (scfr_recovery restore) provenance ledger
              (sl_required_reserve ledger) in
  let? _ := validate_sequence_candidates active (scfr_immutable_candidates restore) retained_floor
              retained_records historical ledger in
  let? terminal_owners := validate_sequence_direct_owners active (scfr_movable_claims restore)
                            (scfr_immutable_candidates restore) (scfr_recovery restore) ledger in
  let? products := validate_sequence_products active (scfr_products restore) terminal_owners
                     (scfr_recovery restore) provenance ledger in
  Ok (mkSequenceClaimFrontier ledger
        (sort_by_key msc_delivery_seq (scfr_movable_claims restore))
        (sort_by_key isc_delivery_seq (scfr_immutable_candidates restore))
        products
        (value ← scfr_recovery restore; option_map (restored_sequence_block value) provenance)).

Definition restore_order_frontier (active : ActiveIdentityRanks)
    (restore : OrderClaimFrontierRestore) (ledger : OrderLedger)
    (provenance : option RecoveryClaimProvenance) : checked OrderClaimFrontier :=
  let? _ := validate_order_numeric restore ledger in
  let expected_length := add_u128 (order_frontier_candidate_count restore (ol_high ledger))
                           (oc_total (ol_claims ledger)) in
  let? _ := validate_order_recovery active (ocfr_recovery restore) provenance ledger
              expected_length in
  let? immutable_candidates := validate_order_candidates (ocfr_immutable_candidates restore) ledger in
  let? _ := validate_order_direct_owners active (ocfr_movable_claims restore)
              (ocfr_recovery restore) ledger in
  Ok (mkOrderClaimFrontier ledger
        (sort_by_key moc_transaction_order (ocfr_movable_claims restore)) immutable_candidates
        (value ← ocfr_recovery restore; option_map (restored_order_block value) provenance)).

(** ** Prevalidation *)

Definition prevalidate_with_history (r : ClaimFrontiersRestore) (sequence_ledger : SequenceLedger)
    (order_ledger : OrderLedger) (history : ValidatedConversationHistory)
    : result ClaimFrontiersPrevalidated ParticipantStateCorruptReason :=
  let corrupt {A} (c : checked A) := map_err corrupt_frontier c in
  let? _ := corrupt (validate_sequence_numeric (cfr_sequence r) sequence_ledger) in
  let? _ := corrupt (validate_order_numeric (cfr_order r) order_ledger) in
  let? _ := validate_unique_candidate_keys (scfr_immutable_candidates (cfr_sequence r))
              (cfr_retained_records r) in
  let? _ := corrupt (validate_bounded_shape r sequence_ledger) in
  let? active_identities :=
    corrupt (ActiveIdentityRanks_try_new (cfr_active_identities r)
               (sl_high_watermark sequence_ledger) (cfr_identity_slot_limit r)) in
  let? retained_records :=
    corrupt (validated_retained_records (cfr_retained_records r) (cfr_retained_floor r)
               (cfr_retained_record_limit r) (cfr_identity_slot_limit r) sequence_ledger) in
  let? historical_causal_authorities :=
    corrupt (validated_historical_authorities (cfr_historical_causal_facts r)
               (cfr_conversation_id r) (cfr_identity_slot_limit r) sequence_ledger history) in
  let? marker_records :=
    corrupt (validated_active_marker_records (select_retained_marker_records retained_records)
               (cfr_active_marker_anchors r) (cfr_identity_slot_limit r) sequence_ledger) in
  let? historical_marker_deliveries :=
    corrupt (validated_historical_marker_deliveries (cfr_historical_marker_deliveries r)
               (cfr_conversation_id r) active_identities
               (mkMarkerDeliverySources retained_records historical_causal_authorities
                  (scfr_immutable_candidates (cfr_sequence r)))
               (cfr_retained_record_limit r) sequence_ledger) in
  let? _ :=
    corrupt (validate_binding_origins
               (mkBindingOriginValidation (cfr_conversation_id r) active_identities
                  (vch_binding_origins history) retained_records (vch_causal_authorities history)
                  historical_marker_deliveries (vch_total history) sequence_ledger)) in
  let? _ :=
    corrupt (validate_sequence_candidates active_identities
               (scfr_immutable_candidates (cfr_sequence r)) (cfr_retained_floor r)
               retained_records historical_causal_authorities sequence_ledger) in
  let? _ :=
    corrupt (validate_marker_credit_owners (scfr_immutable_candidates (cfr_sequence r))
               marker_records (cfr_identity_slot_limit r) sequence_ledger) in
  Ok (mkClaimFrontiersPrevalidated (cfr_conversation_id r) active_identities
        (cfr_identity_slot_limit r) (cfr_retained_floor r) retained_records marker_records
        historical_marker_deliveries historical_causal_authorities (vch_binding_origins history)
        (cfr_sequence r) (cfr_order r) (cfr_recovery_marker_delivery_seq r) sequence_ledger
        order_ledger None).

(** ** The marker of the closure edge *)

Record MarkerEdgeContext := mkMarkerEdgeContext {
  mec_participant_index : ParticipantId;
  mec_marker_delivery_seq : DeliverySeq;
  mec_binding_epoch : BindingEpoch;
  mec_target_binding : FrontierBinding;
}.

Definition marker_edge_context (edge : StoredEdge) : option MarkerEdgeContext :=
  match edge with
  | SE_MarkerDelivery d =>
      Some (mkMarkerEdgeContext (md_participant_id d) (md_marker_delivery_seq d)
              (md_binding_epoch d) (FB_Bound (md_binding_epoch d)))
  | SE_ParticipantCursorProgress p =>
      marker_delivery_seq ← cp_marker_delivery_seq p;
      Some (mkMarkerEdgeContext (cp_participant_id p) marker_delivery_seq (cp_binding_epoch p)
              (FB_Bound (cp_binding_epoch p)))
  | SE_DetachedCredentialRecovery r =>
      Some (mkMarkerEdgeContext (dcr_participant_id r) (dcr_marker_delivery_seq r)
              (dcr_prior_binding_epoch r) (FB_Detached (dcr_prior_binding_epoch r)))
  | SE_DetachedMarkerRelease r =>
      Some (mkMarkerEdgeContext (dmr_participant_id r) (dmr_marker_delivery_seq r)
              (dmr_last_dead_binding_epoch r) (FB_Detached (dmr_last_dead_binding_epoch r)))
  | SE_ObserverProjection _ | SE_PhysicalCompaction _ | SE_DetachedCursorRelease _ => None
  end.

(** What the request's use asks of the participant and of the delivery history, and the
    binding and occurrence of the record it is given. *)
Definition marker_use (use : MarkerRecordUse) (participant : FrontierParticipant)
    (historical : option HistoricalMarkerDeliveryAuthority)
    : option (FrontierBinding * MarkerRecordOccurrence) :=
  let delivered_to epoch :=
    match historical with
    | Some authority =>
        (hma_participant_index authority =? fp_participant_index participant)
        && bool_decide (hma_delivered_binding_epoch authority = epoch)
    | None => false
    end in
  match use with
  | MRU_Planned target =>
      if negb (bool_decide (fp_binding participant = target)) || is_some historical
      then None else Some (target, MRO_Undelivered)
  | MRU_Delivered target =>
      if negb (bool_decide (fp_binding participant = target))
         || negb (delivered_to (frontier_binding_epoch target))
      then None else Some (target, MRO_Delivered)
  | MRU_Recovered prior_binding_epoch recovered_binding_epoch =>
      if negb (bool_decide (fp_binding participant = FB_Detached recovered_binding_epoch))
         || negb (delivered_to prior_binding_epoch)
      then None else Some (FB_Detached prior_binding_epoch, MRO_Delivered)
  end.

Definition set_issued_marker (p : ClaimFrontiersPrevalidated) (request : MarkerRecordRequest)
    : ClaimFrontiersPrevalidated :=
  mkClaimFrontiersPrevalidated (pre_conversation_id p) (pre_active_identities p)
    (pre_identity_slot_limit p) (pre_retained_floor p) (pre_retained_records p)
    (pre_marker_records p) (pre_historical_marker_deliveries p)
    (pre_historical_causal_authorities p) (pre_binding_origins p) (pre_sequence_restore p)
    (pre_order_restore p) (pre_recovery_marker_delivery_seq p) (pre_sequence_ledger p)
    (pre_order_ledger p) (Some request).

Definition take_marker_record (p : ClaimFrontiersPrevalidated) (request : MarkerRecordRequest)
    : ClaimFrontiersPrevalidated * option ValidatedMarkerRecord :=
  let taken :=
    if is_some (pre_issued_marker_record p) then None
    else
      record ← find_record (mrq_marker_delivery_seq request) (pre_retained_records p);
      match rcr_kind record with
      | RCK_CompactionMarker participant_index provenance =>
          if negb (participant_index =? mrq_participant_index request) then None
          else
            participant ← active_participant (pre_active_identities p) participant_index;
            use ← marker_use (mrq_use_kind request) participant
                    (List.find (fun authority =>
                       hma_marker_delivery_seq authority =? mrq_marker_delivery_seq request)
                       (pre_historical_marker_deliveries p));
            Some (mkValidatedMarkerRecord (pre_conversation_id p) record provenance use.1 use.2)
      | _ => None
      end in
  match taken with
  | Some record => (set_issued_marker p request, Some record)
  | None => (p, None)
  end.

Definition marker_corruption (p : ClaimFrontiersPrevalidated) (delivery_seq : DeliverySeq)
    : ParticipantStateCorruptReason :=
  corrupt_frontier (sequence_error (sequence_ordinal (pre_sequence_ledger p) delivery_seq)
                      CFI_RecoveryBlock).

Definition marker_context_matches (p : ClaimFrontiersPrevalidated) (context : MarkerEdgeContext)
    : bool :=
  existsb (fun record =>
    match rcr_kind record with
    | RCK_CompactionMarker participant_index _ => participant_index =? mec_participant_index context
    | _ => false
    end
    && (rcr_delivery_seq record =? mec_marker_delivery_seq context)
    && match active_participant (pre_active_identities p) (mec_participant_index context) with
       | Some participant => bool_decide (fp_binding participant = mec_target_binding context)
       | None => false
       end) (pre_marker_records p).

(** The issued request names this marker. *)
Definition issued_for (p : ClaimFrontiersPrevalidated) (marker_delivery_seq : DeliverySeq) : bool :=
  match pre_issued_marker_record p with
  | Some request => mrq_marker_delivery_seq request =? marker_delivery_seq
  | None => false
  end.

Definition validate_current_marker_edge (p : ClaimFrontiersPrevalidated) (edge : option StoredEdge)
    : result unit ParticipantStateCorruptReason :=
  match pre_issued_marker_record p with
  | Some (mkMarkerRecordRequest participant_index marker_delivery_seq
            (MRU_Recovered _ recovered_binding_epoch)) =>
      match edge with
      | Some (SE_DetachedCursorRelease release) =>
          if (dur_participant_id release =? participant_index)
             && bool_decide (dur_last_dead_binding_epoch release = recovered_binding_epoch)
          then Ok tt else Err (marker_corruption p marker_delivery_seq)
      | _ => Err (marker_corruption p marker_delivery_seq)
      end
  | _ =>
      match edge ≫= marker_edge_context with
      | None => Ok tt
      | Some context =>
          if negb (issued_for p (mec_marker_delivery_seq context))
             || negb (marker_context_matches p context)
          then Err (marker_corruption p (mec_marker_delivery_seq context))
          else Ok tt
      end
  end.

(** A recorded delivery is still used by the origin of a recovered binding or by the
    current edge. *)
Definition delivery_consumed (p : ClaimFrontiersPrevalidated) (edge : option StoredEdge)
    (history : HistoricalMarkerDeliveryAuthority) : bool :=
  existsb (fun origin =>
    (bo_participant_id origin =? hma_participant_index history)
    && bool_decide (recovered_marker origin
                    = Some (hma_marker_delivery_seq history, hma_delivered_binding_epoch history)))
    (pre_binding_origins p)
  || match edge with
     | Some (SE_ParticipantCursorProgress progress) =>
         (cp_participant_id progress =? hma_participant_index history)
         && bool_decide (cp_marker_delivery_seq progress = Some (hma_marker_delivery_seq history))
         && bool_decide (cp_binding_epoch progress = hma_delivered_binding_epoch history)
     | Some (SE_DetachedCredentialRecovery recovery) =>
         (dcr_participant_id recovery =? hma_participant_index history)
         && (dcr_marker_delivery_seq recovery =? hma_marker_delivery_seq history)
         && bool_decide (dcr_prior_binding_epoch recovery = hma_delivered_binding_epoch history)
     | _ => false
     end.
Fixpoint validate_historical_delivery_consumers (p : ClaimFrontiersPrevalidated)
    (edge : option StoredEdge) (deliveries : list HistoricalMarkerDeliveryAuthority)
    : result unit ParticipantStateCorruptReason :=
  match deliveries with
  | [] => Ok tt
  | history :: deliveries =>
      if negb (delivery_consumed p edge history)
      then Err (marker_corruption p (hma_marker_delivery_seq history))
      else validate_historical_delivery_consumers p edge deliveries
  end.

Definition resolve_postfate_recovery_provenance (p : ClaimFrontiersPrevalidated)
    (marker_delivery_seq : DeliverySeq) (recovery : DetachedCredentialRecovery)
    : result RecoveryClaimProvenance ParticipantStateCorruptReason :=
  let epoch := dcr_prior_binding_epoch recovery in
  let context := mkMarkerEdgeContext (dcr_participant_id recovery)
                   (dcr_marker_delivery_seq recovery) epoch (FB_Detached epoch) in
  if negb (marker_delivery_seq =? dcr_marker_delivery_seq recovery)
     || negb (issued_for p marker_delivery_seq)
     || negb (marker_context_matches p context)
  then Err (marker_corruption p marker_delivery_seq)
  else Ok (mkRecoveryClaimProvenance (dcr_participant_id recovery)
             (dcr_marker_delivery_seq recovery) epoch epoch RCP_PostFate).

Definition recovery_candidate (p : ClaimFrontiersPrevalidated) (marker_delivery_seq : DeliverySeq)
    : option MarkerCandidateAuthority :=
  find_map (fun candidate =>
    match candidate with
    | ISC_Marker marker =>
        if (mca_delivery_seq marker =? marker_delivery_seq) && is_bound (mca_target_binding marker)
        then Some marker else None
    | ISC_BindingTerminal _ _ _ => None
    end) (scfr_immutable_candidates (pre_sequence_restore p)).
Definition recovery_retained (p : ClaimFrontiersPrevalidated) (marker_delivery_seq : DeliverySeq)
    : option (ParticipantId * BindingEpoch * BindingEpoch) :=
  find_map (fun record =>
    match rcr_kind record with
    | RCK_CompactionMarker participant_index _ =>
        if negb (rcr_delivery_seq record =? marker_delivery_seq) then None
        else
          participant ← active_participant (pre_active_identities p) participant_index;
          match fp_binding participant with
          | FB_Bound binding_epoch =>
              historical ← List.find (fun history =>
                (hma_participant_index history =? participant_index)
                && (hma_marker_delivery_seq history =? marker_delivery_seq))
                (pre_historical_marker_deliveries p);
              Some (participant_index, binding_epoch, hma_delivered_binding_epoch historical)
          | FB_Detached _ => None
          end
    | _ => None
    end) (pre_retained_records p).

(** The phase of a retained marker whose target is bound. *)
Definition retained_phase (p : ClaimFrontiersPrevalidated) (edge : option StoredEdge)
    (marker_delivery_seq : DeliverySeq) (participant_index : ParticipantId)
    (current_binding_epoch prior_binding_epoch : BindingEpoch)
    : result RecoveryClaimPhase ParticipantStateCorruptReason :=
  let failure := Err (marker_corruption p marker_delivery_seq) in
  if bool_decide (current_binding_epoch = prior_binding_epoch) then
    match edge ≫= marker_edge_context with
    | None => failure
    | Some context =>
        if negb (mec_marker_delivery_seq context =? marker_delivery_seq)
           || negb (mec_participant_index context =? participant_index)
           || negb (bool_decide (mec_binding_epoch context = prior_binding_epoch))
           || negb (bool_decide (mec_target_binding context = FB_Bound prior_binding_epoch))
        then failure else Ok RCP_PreFate
    end
  else
    let recovered_origin_matches :=
      existsb (fun origin =>
        (bo_participant_id origin =? participant_index)
        && bool_decide (bo_binding_epoch origin = current_binding_epoch)
        && bool_decide (recovered_marker origin = Some (marker_delivery_seq, prior_binding_epoch)))
        (pre_binding_origins p) in
    if negb recovered_origin_matches then failure
    else
      match edge with
      | Some (SE_ObserverProjection _) | Some (SE_PhysicalCompaction _) => Ok RCP_RecoveredBound
      | _ => failure
      end.

Definition resolve_recovery_provenance (p : ClaimFrontiersPrevalidated) (edge : option StoredEdge)
    : result (option RecoveryClaimProvenance) ParticipantStateCorruptReason :=
  match pre_recovery_marker_delivery_seq p with
  | None => Ok None
  | Some marker_delivery_seq =>
      match edge with
      | Some (SE_DetachedCredentialRecovery recovery) =>
          let? provenance := resolve_postfate_recovery_provenance p marker_delivery_seq recovery in
          Ok (Some provenance)
      | _ =>
          match recovery_candidate p marker_delivery_seq,
                recovery_retained p marker_delivery_seq with
          | Some marker, None =>
              let epoch := frontier_binding_epoch (mca_target_binding marker) in
              Ok (Some (mkRecoveryClaimProvenance
                          (ao_participant_index (mca_admission_order marker)) marker_delivery_seq
                          epoch epoch RCP_PreFate))
          | None, Some (participant_index, current_binding_epoch, prior_binding_epoch) =>
              let? phase := retained_phase p edge marker_delivery_seq participant_index
                              current_binding_epoch prior_binding_epoch in
              Ok (Some (mkRecoveryClaimProvenance participant_index marker_delivery_seq
                          prior_binding_epoch current_binding_epoch phase))
          | _, _ => Err (marker_corruption p marker_delivery_seq)
          end
      end
  end.

Definition finish_restore (p : ClaimFrontiersPrevalidated) (edge : option StoredEdge)
    : result ClaimFrontiers ParticipantStateCorruptReason :=
  let? _ := validate_current_marker_edge p edge in
  let? _ := validate_historical_delivery_consumers p edge (pre_historical_marker_deliveries p) in
  let? provenance := resolve_recovery_provenance p edge in
  let? sequence :=
    map_err corrupt_frontier
      (restore_sequence_frontier (pre_active_identities p) (pre_sequence_restore p)
         (pre_retained_floor p) (pre_sequence_ledger p) provenance (pre_retained_records p)
         (pre_historical_causal_authorities p)) in
  let? order :=
    map_err corrupt_frontier
      (restore_order_frontier (pre_active_identities p) (pre_order_restore p) (pre_order_ledger p)
         provenance) in
  let? _ := map_err corrupt_frontier (validate_cross_counter sequence order) in
  Ok (mkClaimFrontiers (pre_conversation_id p) (pre_active_identities p)
        (pre_identity_slot_limit p) (pre_retained_floor p) (pre_retained_records p)
        (pre_marker_records p) None sequence order).

(** [ClaimFrontiers::restore]: without history and without an edge. *)
Definition restore_frontiers (r : ClaimFrontiersRestore) (sequence_ledger : SequenceLedger)
    (order_ledger : OrderLedger) : result ClaimFrontiers ParticipantStateCorruptReason :=
  let? p := prevalidate_with_history r sequence_ledger order_ledger history_empty in
  finish_restore p None.
