(* ===== verification/FrontierLeave.v ===== *)
(** * Claim frontiers: Leave

    The Leave half of [liminal-protocol/src/lifecycle/claim_frontier.rs]: the order
    authority a Leave prepares, how the surviving order claims move behind the order it
    takes, and how the surviving sequence claims, ranges and recovery block are laid out
    after the [Left] record.  [claim_leave] is the instance of the interface
    [LeaveFrontier] that the Leave transactions of [Leave] are written against. *)
From stdpp Require Import sorting.
From S2P Require Import Prelude FrontierLive Algebra Tags Wire Response Order Sequence Edge.
From S2P Require Import EdgeSteps Binding Member Detach Leave Attach Frontier.

Inductive PrepareLeaveAuthorityError :=
| PLE_Conversation | PLE_Identity | PLE_Binding | PLE_ImmutablePrefix | PLE_PendingCandidate
| PLE_MembershipExitClaim | PLE_ActiveBindingClaim | PLE_OrderCapacity | PLE_ResultingOrderLedger.

(** ** The prestate of a Leave *)

Section Prestate.
Context {F : Type}.

Definition validate_leave_identity (f : ClaimFrontiers) (m : LiveMember F)
    : result unit PrepareLeaveAuthorityError :=
  if negb (lm_conversation_id m =? cf_conversation_id f) then Err PLE_Conversation
  else
    match active_participant (cf_active_identities f) (lm_participant_id m) with
    | None => Err PLE_Identity
    | Some participant =>
        if negb (fp_cursor participant =? lm_cursor m) then Err PLE_Identity else Ok tt
    end.

Definition validate_settled_leave_prestate (f : ClaimFrontiers) (m : LiveMember F)
    (binding_state : BindingState)
    : result (ParticipantId * option BindingEpoch) PrepareLeaveAuthorityError :=
  let participant_id := lm_participant_id m in
  let? _ := validate_leave_identity f m in
  if negb (bool_decide (length (ocf_immutable_candidates (cf_order f)) = 0%nat))
  then Err PLE_ImmutablePrefix
  else
    match binding_state with
    | BS_Detached =>
        match active_participant (cf_active_identities f) participant_id with
        | None => Err PLE_Identity
        | Some participant =>
            match fp_binding participant with
            | FB_Detached _ => Ok (participant_id, None)
            | FB_Bound _ => Err PLE_Binding
            end
        end
    | BS_Bound binding =>
        if (bnd_conversation_id binding =? cf_conversation_id f)
           && (bnd_participant_id binding =? participant_id)
        then
          match active_participant (cf_active_identities f) participant_id with
          | None => Err PLE_Identity
          | Some participant =>
              if negb (bool_decide (fp_binding participant = FB_Bound (bnd_binding_epoch binding)))
              then Err PLE_Binding
              else Ok (participant_id, Some (bnd_binding_epoch binding))
          end
        else Err PLE_Binding
    | BS_PendingFinalization _ => Err PLE_Binding
    end.

Definition validate_pending_leave_prestate (f : ClaimFrontiers) (m : LiveMember F)
    (pending : PendingFinalization)
    : result (ParticipantId * AdmissionOrder) PrepareLeaveAuthorityError :=
  let participant_id := lm_participant_id m in
  let? _ := validate_leave_identity f m in
  if negb (pf_conversation_id pending =? cf_conversation_id f)
     || negb (pf_participant_id pending =? participant_id)
  then Err PLE_Binding
  else
    match active_participant (cf_active_identities f) participant_id with
    | None => Err PLE_Identity
    | Some participant =>
        if negb (bool_decide (fp_binding participant = FB_Detached (pf_binding_epoch pending)))
        then Err PLE_Binding
        else
          let expected_order := pf_admission_order pending in
          let exact_sequence_candidate :=
            match scf_immutable_candidates (cf_sequence f) with
            | [ISC_BindingTerminal _ admission_order owner] =>
                bool_decide (admission_order = expected_order)
                && (bto_participant_index owner =? participant_id)
                && bool_decide (bto_binding_epoch owner = pf_binding_epoch pending)
            | _ => false
            end in
          let exact_order_candidate :=
            match ocf_immutable_candidates (cf_order f) with
            | [group] =>
                (icm_transaction_order group =? ao_transaction_order expected_order)
                && bool_decide (icm_candidate_keys group = [expected_order])
            | _ => false
            end in
          if negb exact_sequence_candidate || negb exact_order_candidate
          then Err PLE_PendingCandidate
          else Ok (participant_id, expected_order)
    end.
End Prestate.

(** ** The order lane *)

Inductive LeaveRelayUnit :=
| LRU_Direct (claim : MovableOrderClaim)
| LRU_Recovery (block : RecoveryOrderBlock).
Definition lru_start (u : LeaveRelayUnit) : TransactionOrder :=
  match u with
  | LRU_Direct claim => moc_transaction_order claim
  | LRU_Recovery block => block_start_validated_order block
  end.
Definition lru_len (u : LeaveRelayUnit) : Z :=
  match u with
  | LRU_Direct _ => 1
  | LRU_Recovery block => match rob_active_binding block with Some _ => 3 | None => 2 end
  end.

Record LeaveOrderSelection := mkLeaveOrderSelection {
  los_units : list LeaveRelayUnit;
  los_selected_major : TransactionOrder;
}.

(** [iter().position(..)]. *)
Fixpoint position {A} (p : A -> bool) (l : list A) : option nat :=
  match l with
  | [] => None
  | a :: l => if p a then Some 0%nat else option_map S (position p l)
  end.

Definition matching_active_claim (o : OrderClaimFrontier) (participant_id : ParticipantId)
    (ended_binding_epoch : option BindingEpoch)
    : result (option nat) PrepareLeaveAuthorityError :=
  match ended_binding_epoch with
  | None => Ok None
  | Some binding_epoch =>
      let expected :=
        ODO_ActiveBindingTerminal (mkBindingTerminalOwner participant_id binding_epoch) in
      ok_or (option_map Some
               (position (fun claim => bool_decide (moc_owner claim = expected))
                  (ocf_movable_claims o))) PLE_ActiveBindingClaim
  end.

(** The claims whose index is neither of the two. *)
Fixpoint other_claims (index : nat) (exit_index : nat) (active_index : option nat)
    (claims : list MovableOrderClaim) : list LeaveRelayUnit :=
  match claims with
  | [] => []
  | claim :: claims =>
      let rest := other_claims (S index) exit_index active_index claims in
      if negb (bool_decide (index = exit_index)) && negb (bool_decide (Some index = active_index))
      then LRU_Direct claim :: rest else rest
  end.

Definition select_leave_order (o : OrderClaimFrontier) (participant_id : ParticipantId)
    (ended_binding_epoch : option BindingEpoch) (pending_order : option AdmissionOrder)
    : result LeaveOrderSelection PrepareLeaveAuthorityError :=
  match position (fun claim => bool_decide (moc_owner claim = ODO_MembershipExit participant_id))
          (ocf_movable_claims o) with
  | None => Err PLE_MembershipExitClaim
  | Some exit_index =>
      match ocf_movable_claims o !! exit_index with
      | None => Err PLE_MembershipExitClaim
      | Some exit_claim =>
          if match pending_order with
             | Some pending => moc_transaction_order exit_claim <=? ao_transaction_order pending
             | None => false
             end
          then Err PLE_PendingCandidate
          else
            let? active_index := matching_active_claim o participant_id ended_binding_epoch in
            let units :=
              other_claims 0 exit_index active_index (ocf_movable_claims o)
              ++ match ocf_recovery o with
                 | Some recovery =>
                     if negb (rob_participant_index recovery =? participant_id)
                     then [LRU_Recovery recovery] else []
                 | None => []
                 end in
            let units := sort_by_key lru_start units in
            let surviving_handles := fold_right Z.add 0 (map lru_len units) in
            let exit_major := moc_transaction_order exit_claim in
            let? selected_major :=
              if surviving_handles <=? sub_u64 u64_max exit_major then Ok exit_major
              else if is_some pending_order then Err PLE_OrderCapacity
              else
                let start := order_frontier_start (ol_high (ocf_ledger o)) in
                if u64_max <? start then Err PLE_OrderCapacity else Ok start in
            Ok (mkLeaveOrderSelection units selected_major)
      end
  end.

Definition relay_recovery_block (block : RecoveryOrderBlock) (cursor : option TransactionOrder)
    : result (RecoveryOrderBlock * option TransactionOrder) PrepareLeaveAuthorityError :=
  let? step :=
    match rob_active_binding block with
    | Some active =>
        let? position := ok_or cursor PLE_OrderCapacity in
        Ok (Some (mkRecoveryOrderActiveBinding position (roa_owner active)),
            checked_add u64_max position 1)
    | None => Ok (None, cursor)
    end in
  let? recovery_operation_order := ok_or step.2 PLE_OrderCapacity in
  let? replacement_terminal_order :=
    ok_or (checked_add u64_max recovery_operation_order 1) PLE_OrderCapacity in
  Ok (mkRecoveryOrderBlock step.1 recovery_operation_order replacement_terminal_order
        (rob_participant_index block) (rob_marker_delivery_seq block)
        (rob_recovered_binding_epoch block),
      checked_add u64_max replacement_terminal_order 1).

Fixpoint relay_units (cursor : option TransactionOrder) (claims : list MovableOrderClaim)
    (recovery : option RecoveryOrderBlock) (units : list LeaveRelayUnit)
    : result (list MovableOrderClaim * option RecoveryOrderBlock) PrepareLeaveAuthorityError :=
  match units with
  | [] => Ok (claims, recovery)
  | LRU_Direct claim :: units =>
      let? position := ok_or cursor PLE_OrderCapacity in
      relay_units (checked_add u64_max position 1)
        (claims ++ [mkMovableOrderClaim position (moc_owner claim)]) recovery units
  | LRU_Recovery block :: units =>
      let? relayed := relay_recovery_block block cursor in
      relay_units relayed.2 claims (Some relayed.1) units
  end.
Definition relay_leave_order_units (units : list LeaveRelayUnit) (selected_major : TransactionOrder)
    : result (list MovableOrderClaim * option RecoveryOrderBlock) PrepareLeaveAuthorityError :=
  let? relayed := relay_units (checked_add u64_max selected_major 1) [] None units in
  Ok (sort_by_key moc_transaction_order relayed.1, relayed.2).

Definition is_order_terminal (claim : MovableOrderClaim) : bool :=
  match moc_owner claim with ODO_ActiveBindingTerminal _ => true | ODO_MembershipExit _ => false end.

Definition leave_resulting_order_ledger (selected_major : TransactionOrder)
    (movable_claims : list MovableOrderClaim) (recovery : option RecoveryOrderBlock)
    : result OrderLedger PrepareLeaveAuthorityError :=
  let active_binding_terminals :=
    add_u64 (zlen (List.filter is_order_terminal movable_claims))
      (of_bool (match recovery with Some block => is_some (rob_active_binding block) | None => false end)) in
  let membership_exits :=
    zlen (List.filter (fun claim => negb (is_order_terminal claim)) movable_claims) in
  let has_recovery := is_some recovery in
  let? resulting_claims := map_err (fun _ => PLE_ResultingOrderLedger)
    (OrderClaims_new active_binding_terminals membership_exits has_recovery has_recovery) in
  map_err (fun _ => PLE_ResultingOrderLedger)
    (OrderLedger_try_new (OH_Allocated selected_major) resulting_claims).

Definition consume_leave_order_lane (o : OrderClaimFrontier) (participant_id : ParticipantId)
    (ended_binding_epoch : option BindingEpoch) (pending_order : option AdmissionOrder)
    : result (OrderClaimFrontier * TransactionOrder) PrepareLeaveAuthorityError :=
  let? selection := select_leave_order o participant_id ended_binding_epoch pending_order in
  let? relayed := relay_leave_order_units (los_units selection) (los_selected_major selection) in
  let? ledger := leave_resulting_order_ledger (los_selected_major selection) relayed.1 relayed.2 in
  Ok (mkOrderClaimFrontier ledger relayed.1 [] relayed.2, los_selected_major selection).

Definition set_order (f : ClaimFrontiers) (o : OrderClaimFrontier) : ClaimFrontiers :=
  with_frontiers f (cf_active_identities f) (cf_sequence f) o (cf_retained_records f)
    (cf_marker_records f).

Section Prepare.
Context {F : Type}.

Definition planned_settled_leave_admission_order (f : ClaimFrontiers) (m : LiveMember F)
    (binding_state : BindingState) : result AdmissionOrder PrepareLeaveAuthorityError :=
  let? prestate := validate_settled_leave_prestate f m binding_state in
  let? selection := select_leave_order (cf_order f) prestate.1 prestate.2 None in
  Ok (mkAdmissionOrder (los_selected_major selection) CP_MembershipExit prestate.1).

Definition prepare_settled_leave_authority (f : ClaimFrontiers) (m : LiveMember F)
    (binding_state : BindingState)
    : result (PreparedLeaveAuthority ClaimFrontiers) PrepareLeaveAuthorityError :=
  let? prestate := validate_settled_leave_prestate f m binding_state in
  let? lane := consume_leave_order_lane (cf_order f) prestate.1 prestate.2 None in
  Ok (prepared_settled (set_order f lane.1) (lm_conversation_id m) prestate.1 prestate.2 lane.2).

Definition planned_pending_leave_admission_order (f : ClaimFrontiers) (m : LiveMember F)
    (pending : PendingFinalization) : result AdmissionOrder PrepareLeaveAuthorityError :=
  let? prestate := validate_pending_leave_prestate f m pending in
  let? selection := select_leave_order (cf_order f) prestate.1 None (Some prestate.2) in
  Ok (mkAdmissionOrder (los_selected_major selection) CP_MembershipExit prestate.1).

Definition prepare_pending_leave_authority (f : ClaimFrontiers) (m : LiveMember F)
    (pending : PendingFinalization)
    : result (PreparedLeaveAuthority ClaimFrontiers) PrepareLeaveAuthorityError :=
  let? prestate := validate_pending_leave_prestate f m pending in
  let? lane := consume_leave_order_lane (cf_order f) prestate.1 None (Some prestate.2) in
  Ok (prepared_pending (set_order f lane.1) (lm_conversation_id m) prestate.1
        (pf_binding_epoch pending) prestate.2 lane.2).
End Prepare.

(** ** The sequence lane *)

Inductive LeaveSequenceUnit :=
| LSU_Direct (claim : MovableSequenceClaim)
| LSU_TerminalProduct (range : TerminalProductRange)
| LSU_ReplacementProduct (range : ReplacementTerminalProductRange)
| LSU_ExitProduct (range : ExitProductRange)
| LSU_Recovery (block : RecoverySequenceBlock).
Definition original_start (u : LeaveSequenceUnit) : DeliverySeq :=
  match u with
  | LSU_Direct claim => msc_delivery_seq claim
  | LSU_TerminalProduct range => tpr_start range
  | LSU_ReplacementProduct range => rpr_start range
  | LSU_ExitProduct range => epr_start range
  | LSU_Recovery block => block_start_validated_sequence block
  end.

(** The start of the next [length] positions and the cursor behind them. *)
Definition allocate_leave_sequence_range (cursor : option DeliverySeq) (length : Z)
    : result (DeliverySeq * option DeliverySeq) LeaveCommitError :=
  match cursor with
  | None => Err LCM_ResultingFrontier
  | Some start =>
      let? stop :=
        ok_or (stop ← checked_add u128_max start length;
               if stop <? 1 then None else Some (stop - 1)) LCM_ResultingFrontier in
      if u64_max <? stop then Err LCM_ResultingFrontier
      else Ok (start, if stop + 1 <=? u64_max then Some (stop + 1) else None)
  end.

(** The owners that leave with the identity; [None] when one is there twice or not at
    all.  [exit_consumed] and [terminal_consumed] are the flags of the loop. *)
Fixpoint surviving_claims (participant_id : ParticipantId) (ended : option BindingEpoch)
    (exit_consumed terminal_consumed : bool) (claims : list MovableSequenceClaim)
    : option (list LeaveSequenceUnit) :=
  match claims with
  | [] => if negb exit_consumed || negb terminal_consumed then None else Some []
  | claim :: claims =>
      match msc_owner claim with
      | SDO_MembershipExit owner =>
          if owner =? participant_id then
            if exit_consumed then None
            else surviving_claims participant_id ended true terminal_consumed claims
          else
            rest ← surviving_claims participant_id ended exit_consumed terminal_consumed claims;
            Some (LSU_Direct claim :: rest)
      | SDO_BindingTerminal owner =>
          if (bto_participant_index owner =? participant_id)
             && bool_decide (Some (bto_binding_epoch owner) = ended)
          then
            if terminal_consumed then None
            else surviving_claims participant_id ended exit_consumed true claims
          else
            rest ← surviving_claims participant_id ended exit_consumed terminal_consumed claims;
            Some (LSU_Direct claim :: rest)
      end
  end.

Definition surviving_products (participant_id : ParticipantId) (resulting_live : Z)
    (s : SequenceClaimFrontier) : list LeaveSequenceUnit :=
  let recovery_owned :=
    match scf_recovery s with
    | Some block => rsb_participant_index block =? participant_id
    | None => false
    end in
  let resulting_other := saturating_sub resulting_live 1 in
  omap (fun range =>
    if negb (bto_participant_index (tpr_terminal range) =? participant_id)
       && negb (resulting_live =? 0)
    then Some (LSU_TerminalProduct
                 (mkTerminalProductRange (tpr_start range) resulting_live (tpr_terminal range)))
    else None) (spr_live_times_terminal (scf_products s))
  ++ match spr_live_times_replacement_terminal (scf_products s) with
     | Some range =>
         if negb recovery_owned && negb (resulting_live =? 0)
         then [LSU_ReplacementProduct
                 (mkReplacementTerminalProductRange (rpr_start range) resulting_live
                    (rpr_participant_index range) (rpr_marker_delivery_seq range)
                    (rpr_prior_binding_epoch range))]
         else []
     | None => []
     end
  ++ (if resulting_other =? 0 then []
      else omap (fun range =>
             if negb (epr_exit_participant range =? participant_id)
             then Some (LSU_ExitProduct
                          (mkExitProductRange (epr_start range) resulting_other
                             (epr_exit_participant range)))
             else None) (spr_other_live_times_exit (scf_products s)))
  ++ match scf_recovery s with
     | Some block => if negb recovery_owned then [LSU_Recovery block] else []
     | None => []
     end.

(** What the units are laid out into. *)
Record LeaveLayout := mkLeaveLayout {
  ll_movable_claims : list MovableSequenceClaim;
  ll_terminal_products : list TerminalProductRange;
  ll_replacement_product : option ReplacementTerminalProductRange;
  ll_exit_products : list ExitProductRange;
  ll_recovery : option RecoverySequenceBlock;
}.

Definition lay_recovery_block (block : RecoverySequenceBlock) (start : DeliverySeq)
    : result RecoverySequenceBlock LeaveCommitError :=
  let? step :=
    match rsb_terminal block with
    | Some terminal =>
        let? attach := ok_or (checked_add u64_max start 1) LCM_ResultingFrontier in
        Ok (Some (mkRecoverySequenceTerminal start (rst_owner terminal)), attach)
    | None => Ok (None, start)
    end in
  let? replacement := ok_or (checked_add u64_max step.2 1) LCM_ResultingFrontier in
  Ok (mkRecoverySequenceBlock step.1 step.2 replacement (rsb_participant_index block)
        (rsb_marker_delivery_seq block) (rsb_recovered_binding_epoch block)).

Fixpoint lay_leave_units (cursor : option DeliverySeq) (l : LeaveLayout)
    (units : list LeaveSequenceUnit) : result LeaveLayout LeaveCommitError :=
  match units with
  | [] => Ok l
  | LSU_Direct claim :: units =>
      let? taken := allocate_leave_sequence_range cursor 1 in
      lay_leave_units taken.2
        (mkLeaveLayout (ll_movable_claims l ++ [mkMovableSequenceClaim taken.1 (msc_owner claim)])
           (ll_terminal_products l) (ll_replacement_product l) (ll_exit_products l) (ll_recovery l))
        units
  | LSU_TerminalProduct range :: units =>
      let? taken := allocate_leave_sequence_range cursor (tpr_length range) in
      lay_leave_units taken.2
        (mkLeaveLayout (ll_movable_claims l)
           (ll_terminal_products l
            ++ [mkTerminalProductRange taken.1 (tpr_length range) (tpr_terminal range)])
           (ll_replacement_product l) (ll_exit_products l) (ll_recovery l)) units
  | LSU_ReplacementProduct range :: units =>
      let? taken := allocate_leave_sequence_range cursor (rpr_length range) in
      lay_leave_units taken.2
        (mkLeaveLayout (ll_movable_claims l) (ll_terminal_products l)
           (Some (mkReplacementTerminalProductRange taken.1 (rpr_length range)
                    (rpr_participant_index range) (rpr_marker_delivery_seq range)
                    (rpr_prior_binding_epoch range)))
           (ll_exit_products l) (ll_recovery l)) units
  | LSU_ExitProduct range :: units =>
      let? taken := allocate_leave_sequence_range cursor (epr_length range) in
      lay_leave_units taken.2
        (mkLeaveLayout (ll_movable_claims l) (ll_terminal_products l) (ll_replacement_product l)
           (ll_exit_products l
            ++ [mkExitProductRange taken.1 (epr_length range) (epr_exit_participant range)])
           (ll_recovery l)) units
  | LSU_Recovery block :: units =>
      let? taken :=
        allocate_leave_sequence_range cursor (2 + of_bool (is_some (rsb_terminal block))) in
      let? block := lay_recovery_block block taken.1 in
      lay_leave_units taken.2
        (mkLeaveLayout (ll_movable_claims l) (ll_terminal_products l) (ll_replacement_product l)
           (ll_exit_products l) (Some block)) units
  end.

Definition is_sequence_terminal (claim : MovableSequenceClaim) : bool :=
  match msc_owner claim with SDO_BindingTerminal _ => true | SDO_MembershipExit _ => false end.

(** The candidate a pending Leave finalizes, or none. *)
Definition leave_candidates_match (s : SequenceClaimFrontier) (participant_id : ParticipantId)
    (committed_terminal : option CommittedBindingTerminal) (first_appended : DeliverySeq) : bool :=
  match committed_terminal, scf_immutable_candidates s with
  | Some terminal, [ISC_BindingTerminal delivery_seq admission_order owner] =>
      (delivery_seq =? first_appended) && (cbt_delivery_seq terminal =? first_appended)
      && bool_decide (admission_order = cbt_admission_order terminal)
      && (bto_participant_index owner =? participant_id)
      && bool_decide (bto_binding_epoch owner = cbt_binding_epoch terminal)
  | None, [] => true
  | _, _ => false
  end.

(** The records a Leave appends. *)
Definition leave_records (participant_id : ParticipantId)
    (committed_terminal : option CommittedBindingTerminal) (left_delivery_seq : DeliverySeq)
    (left_transaction_order : TransactionOrder) : list RetainedCausalRecord :=
  match committed_terminal with
  | Some terminal =>
      [mkRetainedCausalRecord (cbt_delivery_seq terminal) (cbt_admission_order terminal)
         (RCK_BindingTerminal (mkBindingTerminalOwner participant_id (cbt_binding_epoch terminal)))]
  | None => []
  end
  ++ [mkRetainedCausalRecord left_delivery_seq
        (mkAdmissionOrder left_transaction_order CP_MembershipExit participant_id)
        (RCK_MembershipExit participant_id)].

Definition remove_participant (id : ParticipantId) (ps : list FrontierParticipant)
    : option (list FrontierParticipant) :=
  index ← position (fun p => fp_participant_index p =? id) ps;
  Some (delete index ps).

(** The laid-out sequence frontier of the remaining identities. *)
Definition leave_sequence (s : SequenceClaimFrontier) (participant_id : ParticipantId)
    (ended_binding_epoch : option BindingEpoch) (resulting_live : Z) (left_delivery_seq : DeliverySeq)
    : result SequenceClaimFrontier LeaveCommitError :=
  let? direct := ok_or (surviving_claims participant_id ended_binding_epoch false
                          (negb (is_some ended_binding_epoch)) (scf_movable_claims s))
                   LCM_ResultingFrontier in
  let units := sort_by_key original_start
                 (direct ++ surviving_products participant_id resulting_live s) in
  let? layout := lay_leave_units (checked_add u64_max left_delivery_seq 1)
                   (mkLeaveLayout [] [] None [] None) units in
  let movable_claims := sort_by_key msc_delivery_seq (ll_movable_claims layout) in
  let recovery := ll_recovery layout in
  let terminal_count :=
    add_u64 (zlen (List.filter is_sequence_terminal movable_claims))
      (of_bool (match recovery with Some block => is_some (rsb_terminal block) | None => false end)) in
  let recovery_reserve :=
    if is_some recovery then RSR_DetachedCredentialRecovery else RSR_None in
  let? ledger := map_err (fun _ => LCM_ResultingFrontier)
    (SequenceLedger_try_new left_delivery_seq
       (mkSequenceClaims resulting_live terminal_count 0 recovery_reserve)) in
  Ok (mkSequenceClaimFrontier ledger movable_claims []
        (mkSequenceProductRanges (sort_by_key tpr_start (ll_terminal_products layout))
           (ll_replacement_product layout) (sort_by_key epr_start (ll_exit_products layout)))
        recovery).

Definition finish_leave_claims_of (f : ClaimFrontiers) (participant_id : ParticipantId)
    (ended_binding_epoch : option BindingEpoch) (committed_terminal : option CommittedBindingTerminal)
    (left_delivery_seq : DeliverySeq) (left_transaction_order : TransactionOrder)
    : result ClaimFrontiers LeaveCommitError :=
  let s := cf_sequence f in
  let? first_appended :=
    ok_or (checked_add u64_max (sl_high_watermark (scf_ledger s)) 1) LCM_SequenceAuthority in
  let? expected_left :=
    if is_some committed_terminal
    then ok_or (checked_add u64_max first_appended 1) LCM_SequenceAuthority
    else Ok first_appended in
  if negb (left_delivery_seq =? expected_left) then Err LCM_SequenceAuthority
  else if negb (leave_candidates_match s participant_id committed_terminal first_appended)
  then Err LCM_SequenceAuthority
  else
    let? participants := ok_or (remove_participant participant_id
                                  (air_participants (cf_active_identities f))) LCM_ResultingFrontier in
    let markers :=
      List.filter (fun record =>
        match rcr_kind record with
        | RCK_CompactionMarker participant_index _ => negb (participant_index =? participant_id)
        | _ => true
        end) (cf_marker_records f) in
    let resulting_live := zlen participants in
    let? sequence := leave_sequence s participant_id ended_binding_epoch resulting_live
                       left_delivery_seq in
    let records := sort_by_key rcr_delivery_seq
      (cf_retained_records f
       ++ leave_records participant_id committed_terminal left_delivery_seq left_transaction_order) in
    let order := cf_order f in
    if negb (oc_membership_exits (ol_claims (ocf_ledger order)) =? resulting_live)
       || negb (Bool.eqb (is_some (ocf_recovery order)) (is_some (scf_recovery sequence)))
       || match validate_cross_counter sequence order with Ok _ => false | Err _ => true end
    then Err LCM_ResultingFrontier
    else Ok (with_frontiers f (mkActiveIdentityRanks participants) sequence order records markers).

#[export] Instance claim_leave : LeaveFrontier ClaimFrontiers := {|
  finish_leave_claims := finish_leave_claims_of;
|}.
