(* ===== verification/LiveOwner.v ===== *)
(** * The live frontier owner

    Model of [liminal-protocol/src/lifecycle/operations/live_frontier.rs] with its modules
    [ledger.rs], [state.rs] and [binding_fate_transition.rs]: the frontiers, the closure
    accounting and the keyed charge of every retained row as one value that only moves
    together, and every lifecycle transition over it. *)
From S2P Require Import Prelude FrontierLeave Algebra Tags Wire Response Authority Order Sequence.
From S2P Require Import Edge Binding EdgeSteps Member Detach Leave Attach Lookup Capacity Closure.
From S2P Require Import Cursor AckOperations Frontier FrontierLive RecordProjection.
From S2P Require Import RecordOperations FrontierInit EnrollmentClosure EnrollmentOperation.
From S2P Require Import FrontierRestore.

(** [checked_sub]. *)
Definition checked_sub (a b : Z) : option Z := if a <? b then None else Some (a - b).
Definition ok {A E} (r : result A E) : option A :=
  match r with Ok a => Some a | Err _ => None end.

(** ** ledger.rs *)

Definition enrollment_sequence (current : SequenceLedger) (high : DeliverySeq)
    : option SequenceLedger :=
  let claims := sl_claims current in
  live_members ← checked_add u64_max (sc_live_members claims) 1;
  binding_terminals ← checked_add u64_max (sc_binding_terminals claims) 1;
  ok (SequenceLedger_try_new high
        (mkSequenceClaims live_members binding_terminals (sc_markers claims) (sc_recovery claims))).
Definition detached_attach_sequence (current : SequenceLedger) (high : DeliverySeq)
    : option SequenceLedger :=
  let claims := sl_claims current in
  binding_terminals ← checked_add u64_max (sc_binding_terminals claims) 1;
  ok (SequenceLedger_try_new high
        (mkSequenceClaims (sc_live_members claims) binding_terminals (sc_markers claims)
           (sc_recovery claims))).
Definition superseding_attach_sequence (current : SequenceLedger) (rows : list RetainedCausalRecord)
    : option SequenceLedger :=
  high ← rcr_delivery_seq <$> last rows;
  first ← rcr_delivery_seq <$> head rows;
  expected_first ← checked_add u64_max (sl_high_watermark current) 1;
  expected_high ← checked_add u64_max first 1;
  if (first =? expected_first) && (high =? expected_high)
  then ok (SequenceLedger_try_new high (sl_claims current)) else None.
Definition detach_sequence (current : SequenceLedger) (high : DeliverySeq) : option SequenceLedger :=
  let claims := sl_claims current in
  binding_terminals ← checked_sub (sc_binding_terminals claims) 1;
  ok (SequenceLedger_try_new high
        (mkSequenceClaims (sc_live_members claims) binding_terminals (sc_markers claims)
           (sc_recovery claims))).

Definition next_order (current : OrderLedger) (major : TransactionOrder) (claims : OrderClaims)
    : option OrderLedger :=
  expected ← match ol_high current with
             | OH_Empty => Some 0
             | OH_Allocated high => checked_add u64_max high 1
             end;
  if major =? expected then ok (OrderLedger_try_new (OH_Allocated major) claims) else None.
Definition enrollment_order (current : OrderLedger) (major : TransactionOrder) : option OrderLedger :=
  let claims := ol_claims current in
  active_binding_terminals ← checked_add u64_max (oc_active_binding_terminals claims) 1;
  membership_exits ← checked_add u64_max (oc_membership_exits claims) 1;
  claims ← ok (OrderClaims_new active_binding_terminals membership_exits
                 (oc_recovery_operation claims) (oc_recovery_replacement_terminal claims));
  next_order current major claims.
Definition detached_attach_order (current : OrderLedger) (major : TransactionOrder)
    : option OrderLedger :=
  let claims := ol_claims current in
  active_binding_terminals ← checked_add u64_max (oc_active_binding_terminals claims) 1;
  claims ← ok (OrderClaims_new active_binding_terminals (oc_membership_exits claims)
                 (oc_recovery_operation claims) (oc_recovery_replacement_terminal claims));
  next_order current major claims.
Definition superseding_attach_order (current : OrderLedger) (major : TransactionOrder)
    : option OrderLedger := next_order current major (ol_claims current).
Definition detach_order (current : OrderLedger) (major : TransactionOrder) : option OrderLedger :=
  let claims := ol_claims current in
  active_binding_terminals ← checked_sub (oc_active_binding_terminals claims) 1;
  claims ← ok (OrderClaims_new active_binding_terminals (oc_membership_exits claims)
                 (oc_recovery_operation claims) (oc_recovery_replacement_terminal claims));
  next_order current major claims.

(** ** state.rs *)

Record MarkerAccounting := mkMarkerAccounting { mka_credits : Z; mka_anchors : Z }.

(** The two [try_fold]s over the baseline. *)
Fixpoint charge_baseline (baseline : WideResourceVector) (charges : list RetainedRecordCharge)
    : option WideResourceVector :=
  match charges with
  | [] => Some baseline
  | charge :: charges =>
      entries ← checked_add u128_max (wrv_entries baseline) (rv_entries (rrc_encoded_charge charge));
      bytes ← checked_add u128_max (wrv_bytes baseline) (rv_bytes (rrc_encoded_charge charge));
      charge_baseline (mkWRV entries bytes) charges
  end.
Fixpoint release_baseline (baseline : WideResourceVector) (released : list RetainedRecordCharge)
    : option WideResourceVector :=
  match released with
  | [] => Some baseline
  | charge :: released =>
      entries ← checked_sub (wrv_entries baseline) (rv_entries (rrc_encoded_charge charge));
      bytes ← checked_sub (wrv_bytes baseline) (rv_bytes (rrc_encoded_charge charge));
      release_baseline (mkWRV entries bytes) released
  end.

Definition accounting_after_rows_with_state (accounting : ClosureAccounting)
    (charges : list RetainedRecordCharge) (state : ClosureState) (marker : MarkerAccounting)
    (edge_sequence_claims edge_order_position_claims : Z) (edge_k_remaining : ResourceVector)
    : option ClosureAccounting :=
  baseline ← charge_baseline (ca_baseline accounting) charges;
  ok (ClosureAccounting_try_new state (mka_credits marker) (mka_anchors marker)
        edge_sequence_claims edge_order_position_claims edge_k_remaining baseline
        (ca_configured_cap accounting) (ca_episode_churn_used accounting)
        (ca_episode_churn_limit accounting)).
Definition accounting_after_rows (accounting : ClosureAccounting)
    (charges : list RetainedRecordCharge) : option ClosureAccounting :=
  accounting_after_rows_with_state accounting charges (ca_state accounting)
    (mkMarkerAccounting (ca_marker_capacity_credits accounting) (ca_marker_anchors accounting))
    (ca_edge_sequence_claims accounting) (ca_edge_order_position_claims accounting)
    (ca_edge_k_remaining accounting).
Definition accounting_after_floor (accounting : ClosureAccounting)
    (released : list RetainedRecordCharge) : option ClosureAccounting :=
  baseline ← release_baseline (ca_baseline accounting) released;
  ok (ClosureAccounting_try_new (ca_state accounting) (ca_marker_capacity_credits accounting)
        (ca_marker_anchors accounting) (ca_edge_sequence_claims accounting)
        (ca_edge_order_position_claims accounting) (ca_edge_k_remaining accounting) baseline
        (ca_configured_cap accounting) (ca_episode_churn_used accounting)
        (ca_episode_churn_limit accounting)).
Definition accounting_after_marker_crossings (accounting : ClosureAccounting) (crossed : Z)
    : option ClosureAccounting :=
  anchors ← checked_sub (ca_marker_anchors accounting) crossed;
  accounting_after_rows_with_state accounting [] (ca_state accounting)
    (mkMarkerAccounting (ca_marker_capacity_credits accounting) anchors)
    (ca_edge_sequence_claims accounting) (ca_edge_order_position_claims accounting)
    (ca_edge_k_remaining accounting).
Definition accounting_after_marker_ack (accounting : ClosureAccounting) : option ClosureAccounting :=
  accounting_after_marker_crossings accounting 1.
Definition accounting_after_fenced_attach (accounting : ClosureAccounting)
    (charges : list RetainedRecordCharge) (next_state : ClosureState) : option ClosureAccounting :=
  anchors ← checked_sub (ca_marker_anchors accounting) 1;
  accounting_after_rows_with_state accounting charges next_state
    (mkMarkerAccounting (ca_marker_capacity_credits accounting) anchors) 0 0 ResourceVector_default.
Definition accounting_after_leave (accounting : ClosureAccounting)
    (charges : list RetainedRecordCharge) (retired_marker_charge : option RetainedRecordCharge)
    : option ClosureAccounting :=
  let marker_released := of_bool (is_some retired_marker_charge) in
  let charges := charges ++ option_list retired_marker_charge in
  credits ← checked_sub (ca_marker_capacity_credits accounting) marker_released;
  anchors ← checked_sub (ca_marker_anchors accounting) marker_released;
  accounting_after_rows_with_state accounting charges (ca_state accounting)
    (mkMarkerAccounting credits anchors) (ca_edge_sequence_claims accounting)
    (ca_edge_order_position_claims accounting) (ca_edge_k_remaining accounting).

Definition retained_attached (attached : AttachedLifecycleRecord) : RetainedCausalRecord :=
  mkRetainedCausalRecord (alr_delivery_seq attached) (alr_admission_order attached)
    (RCK_AttachLifecycle (alr_participant_id attached) (alr_binding_epoch attached)).
Definition retained_terminal (terminal : CommittedBindingTerminal) : RetainedCausalRecord :=
  mkRetainedCausalRecord (cbt_delivery_seq terminal) (cbt_admission_order terminal)
    (RCK_BindingTerminal (mkBindingTerminalOwner (cbt_participant_id terminal)
                            (cbt_binding_epoch terminal))).

(** ** live_frontier.rs: data *)

Record LiveFrontierOwner := mkLiveFrontierOwner {
  lfo_frontiers : ClaimFrontiers;
  lfo_closure_accounting : ClosureAccounting;
  lfo_retained_charges : list RetainedRecordCharge;
  lfo_retained_record_limit : Z;
}.
Inductive LiveFrontierError :=
| LFR_Authority
| LFR_Precedence (condition : PrecedenceCondition)
| LFR_RetainedCharge | LFR_RetainedRecordLimit | LFR_Frontier | LFR_ClosureAccounting.
Record LiveFrontierCommit (T : Type) := mkLiveFrontierCommit {
  lfc_operation : T;
  lfc_owner : LiveFrontierOwner;
}.
Arguments mkLiveFrontierCommit {T}.
Arguments lfc_operation {T} _.
Arguments lfc_owner {T} _.
Record LiveFrontierFailure (T : Type) := mkLiveFrontierFailure {
  lff_error : LiveFrontierError;
  lff_operation : T;
  lff_owner : LiveFrontierOwner;
}.
Arguments mkLiveFrontierFailure {T}.
Arguments lff_error {T} _.
Arguments lff_operation {T} _.
Arguments lff_owner {T} _.
Abbreviation LiveFrontierResult T := (result (LiveFrontierCommit T) (LiveFrontierFailure T)).

Definition set_frontiers (o : LiveFrontierOwner) (frontiers : ClaimFrontiers) : LiveFrontierOwner :=
  mkLiveFrontierOwner frontiers (lfo_closure_accounting o) (lfo_retained_charges o)
    (lfo_retained_record_limit o).
Definition set_accounting (o : LiveFrontierOwner) (accounting : ClosureAccounting)
    : LiveFrontierOwner :=
  mkLiveFrontierOwner (lfo_frontiers o) accounting (lfo_retained_charges o)
    (lfo_retained_record_limit o).
Definition set_charges (o : LiveFrontierOwner) (charges : list RetainedRecordCharge)
    : LiveFrontierOwner :=
  mkLiveFrontierOwner (lfo_frontiers o) (lfo_closure_accounting o) charges
    (lfo_retained_record_limit o).

Definition map_frontier_error (error : LiveFrontierTransitionError) : LiveFrontierError :=
  match error with
  | LFE_Authority => LFR_Authority
  | LFE_Precedence condition => LFR_Precedence condition
  | LFE_RecordPosition | LFE_Exhausted | LFE_ResultingFrontier => LFR_Frontier
  end.
Definition failure {T} (owner : LiveFrontierOwner) (operation : T) (error : LiveFrontierError)
    : LiveFrontierResult T := Err (mkLiveFrontierFailure error operation owner).

(** ** Acquisition *)

Definition owner_from_initial_enrollment {F} (initial : InitialEnrollmentFrontierCommit (F := F))
    (retained_record_limit : Z) : InitialEnrollmentOperationCommit F * LiveFrontierOwner :=
  let attached := ecm_attached (ioc_enrollment (ifc_operation initial)) in
  (ifc_operation initial,
   mkLiveFrontierOwner (ifc_frontiers initial) (ifc_closure_accounting initial)
     [mkRetainedRecordCharge (alr_delivery_seq attached) (alr_admission_order attached)
        (ifc_attached_charge initial)] retained_record_limit).
Definition from_unchanged_record_admission {EF V LF} (unchanged : UnchangedRecordAdmission EF V LF)
    (retained_record_limit : Z) : LiveFrontierOwner * RecordAdmission * ResourceVector :=
  let prestate := ura_prestate unchanged in
  (mkLiveFrontierOwner (rap_frontiers prestate) (rap_closure_accounting prestate)
     (rap_retained_charges prestate) retained_record_limit,
   rap_request prestate, ura_encoded_record_charge unchanged).
Definition from_record_admission_persistence (persistence : RecordAdmissionPersistenceParts)
    (retained_record_limit : Z) : LiveFrontierOwner :=
  mkLiveFrontierOwner (rpp_frontiers persistence) (rpp_accounting persistence)
    (rpp_retained_charges persistence) retained_record_limit.
Definition from_marker_drain (commit : MarkerDrainCommit) (retained_record_limit : Z)
    : LiveFrontierOwner * StoredEdge * MarkerDeliveryProjection :=
  (mkLiveFrontierOwner (mdm_frontiers commit) (mdm_closure_accounting commit)
     (mdm_retained_charges commit) retained_record_limit,
   mdm_marker_successor commit, mdm_delivery_projection commit).

(** The owner left, and how many anchors were retired. *)
Definition reconcile_orphaned_marker_anchors (o : LiveFrontierOwner) : LiveFrontierOwner * Z :=
  let f := lfo_frontiers o in
  let derived := Z.min u64_max (unaccepted_marker_anchor_count f + pending_marker_candidate_count f) in
  match checked_sub (ca_marker_anchors (lfo_closure_accounting o)) derived with
  | None => (o, 0)
  | Some orphaned =>
      if orphaned =? 0 then (o, 0)
      else
        match accounting_after_marker_crossings (lfo_closure_accounting o) orphaned with
        | Some accounting => (set_accounting o accounting, orphaned)
        | None => (o, 0)
        end
  end.

(** ** Transitions *)

(** The keyed charges of the rows about to be appended. *)
Definition charges_match (rows : list RetainedCausalRecord) (charges : list RetainedRecordCharge)
    : bool :=
  bool_decide (length rows = length charges)
  && forallb (fun p => (rcr_delivery_seq p.1 =? rrc_delivery_seq p.2)
                       && bool_decide (rcr_admission_order p.1 = rrc_admission_order p.2)
                       && (rv_entries (rrc_encoded_charge p.2) =? 1)) (zip rows charges).
Definition within_record_limit (o : LiveFrontierOwner) (rows : list RetainedCausalRecord) : bool :=
  zlen (cf_retained_records (lfo_frontiers o)) + zlen rows <=? lfo_retained_record_limit o.

Definition transition {T} (owner : LiveFrontierOwner) (operation : T)
    (active : list FrontierParticipant) (rows : list RetainedCausalRecord)
    (charges : list RetainedRecordCharge) (sequence : SequenceLedger) (order : OrderLedger)
    : LiveFrontierResult T :=
  if negb (charges_match rows charges) then failure owner operation LFR_RetainedCharge
  else if negb (within_record_limit owner rows) then failure owner operation LFR_RetainedRecordLimit
  else
    match accounting_after_rows (lfo_closure_accounting owner) charges with
    | None => failure owner operation LFR_ClosureAccounting
    | Some accounting =>
        match apply_live_transition (lfo_frontiers owner) active rows sequence order with
        | Err (frontiers, error) =>
            failure (set_frontiers owner frontiers) operation (map_frontier_error error)
        | Ok frontiers =>
            Ok (mkLiveFrontierCommit operation
                  (mkLiveFrontierOwner frontiers accounting (lfo_retained_charges owner ++ charges)
                     (lfo_retained_record_limit owner)))
        end
    end.

Definition fenced_attach_transition {T} (owner : LiveFrontierOwner) (operation : T)
    (participant : FrontierParticipant) (prior_binding_epoch : BindingEpoch)
    (next_closure_state : ClosureState) (rows : list RetainedCausalRecord)
    (charges : list RetainedRecordCharge) : LiveFrontierResult T :=
  if negb (charges_match rows charges) then failure owner operation LFR_RetainedCharge
  else if negb (within_record_limit owner rows) then failure owner operation LFR_RetainedRecordLimit
  else
    match accounting_after_fenced_attach (lfo_closure_accounting owner) charges next_closure_state with
    | None => failure owner operation LFR_ClosureAccounting
    | Some accounting =>
        match apply_live_fenced_attach (lfo_frontiers owner) participant prior_binding_epoch rows with
        | Err (frontiers, error) =>
            failure (set_frontiers owner frontiers) operation (map_frontier_error error)
        | Ok frontiers =>
            Ok (mkLiveFrontierCommit operation
                  (mkLiveFrontierOwner frontiers accounting
                     (sort_by_key rrc_delivery_seq (lfo_retained_charges owner ++ charges))
                     (lfo_retained_record_limit owner)))
        end
    end.

Definition participants_of (o : LiveFrontierOwner) : list FrontierParticipant :=
  air_participants (cf_active_identities (lfo_frontiers o)).

Definition commit_binding_terminal_candidate (owner : LiveFrontierOwner)
    (active_binding : ActiveBinding) (admission_order : AdmissionOrder) (delivery_seq : DeliverySeq)
    (charge : RetainedRecordCharge) : result LiveFrontierOwner (LiveFrontierOwner * LiveFrontierError) :=
  let f := lfo_frontiers owner in
  let id := bnd_participant_id active_binding in
  let epoch := bnd_binding_epoch active_binding in
  match find_participant id (participants_of owner) with
  | None => Err (owner, LFR_Authority)
  | Some participant =>
      if negb (bool_decide (fp_binding participant = FB_Bound epoch)) then Err (owner, LFR_Authority)
      else
        let active :=
          set_participant id (mkFrontierParticipant (fp_participant_index participant)
                                (fp_cursor participant) (FB_Detached epoch)) (participants_of owner) in
        let row := mkRetainedCausalRecord delivery_seq admission_order
                     (RCK_BindingTerminal (mkBindingTerminalOwner id epoch)) in
        match detach_sequence (scf_ledger (cf_sequence f)) delivery_seq with
        | None => Err (owner, LFR_Frontier)
        | Some sequence =>
            match detach_order (ocf_ledger (cf_order f)) (ao_transaction_order admission_order) with
            | None => Err (owner, LFR_Frontier)
            | Some order =>
                match transition owner tt active [row] [charge] sequence order with
                | Ok committed => Ok (lfc_owner committed)
                | Err failure => Err (lff_owner failure, lff_error failure)
                end
            end
        end
  end.

Definition pend_binding_terminal_candidate (owner : LiveFrontierOwner)
    (active_binding : ActiveBinding) (admission_order : AdmissionOrder) (delivery_seq : DeliverySeq)
    : result LiveFrontierOwner (LiveFrontierOwner * LiveFrontierError) :=
  match detach_order (ocf_ledger (cf_order (lfo_frontiers owner)))
          (ao_transaction_order admission_order) with
  | None => Err (owner, LFR_Frontier)
  | Some order =>
      match apply_pending_binding_terminal (lfo_frontiers owner) (bnd_participant_id active_binding)
              (bnd_binding_epoch active_binding) delivery_seq admission_order order with
      | Ok frontiers => Ok (set_frontiers owner frontiers)
      | Err (frontiers, error) => Err (set_frontiers owner frontiers, map_frontier_error error)
      end
  end.

Record DrainedPendingTerminal := mkDrainedPendingTerminal {
  dpt_owner : LiveFrontierOwner;
  dpt_projection : ObserverProgressProjection;
}.
(** The length of a [Vec] always fits a [u64]. *)
Definition drain_pending_terminal (owner : LiveFrontierOwner) (pending : PendingFinalization)
    (terminal_charge : RetainedRecordCharge)
    : result DrainedPendingTerminal (LiveFrontierOwner * LiveFrontierError) :=
  match checked_add u64_max (sl_high_watermark (scf_ledger (cf_sequence (lfo_frontiers owner)))) 1 with
  | None => Err (owner, LFR_Frontier)
  | Some expected_sequence =>
      if negb (rrc_delivery_seq terminal_charge =? expected_sequence)
         || negb (bool_decide (rrc_admission_order terminal_charge = pf_admission_order pending))
         || negb (rv_entries (rrc_encoded_charge terminal_charge) =? 1)
      then Err (owner, LFR_RetainedCharge)
      else
        match accounting_after_rows (lfo_closure_accounting owner) [terminal_charge] with
        | None => Err (owner, LFR_ClosureAccounting)
        | Some accounting =>
            match drain_first_binding_terminal (lfo_frontiers owner)
                    (mkBindingTerminalOwner (pf_participant_id pending) (pf_binding_epoch pending))
                    (pf_admission_order pending) with
            | Err (frontiers, error) =>
                Err (set_frontiers owner frontiers, map_frontier_error error)
            | Ok (frontiers, record) =>
                Ok (mkDrainedPendingTerminal
                      (mkLiveFrontierOwner frontiers accounting
                         (lfo_retained_charges owner ++ [terminal_charge])
                         (lfo_retained_record_limit owner))
                      (mkObserverProgressProjection (pf_conversation_id pending)
                         (rcr_delivery_seq record)))
            end
        end
  end.

(** ** Fenced attach proofs *)

(** [retain_fenced_marker_source]: the owner and the recovery, unchanged either way. *)
Definition retain_fenced_marker_source (owner : LiveFrontierOwner)
    (recovery : DetachedCredentialRecovery)
    : result (LiveFrontierOwner * DetachedCredentialRecovery * FencedMarkerSourceRecord)
        (LiveFrontierOwner * DetachedCredentialRecovery) :=
  match fenced_marker_source (lfo_frontiers owner) recovery with
  | None => Err (owner, recovery)
  | Some source => Ok (owner, recovery, source)
  end.

Inductive FencedAttachMintRefusalReason := FMR_MarkerAuthority | FMR_ProofInputs.
Record MintFencedAttachRefused := mkMintFencedAttachRefused {
  mfr_owner : LiveFrontierOwner;
  mfr_marker_source_sequence : Z;
  mfr_recovery : DetachedCredentialRecovery;
  mfr_debt : ClosureDebt;
  mfr_event : Event;
  mfr_successor : DebtCompletion;
  mfr_reason : FencedAttachMintRefusalReason;
}.
(** [MintFencedAttachResult]: the owner with the spent authority and its proof, or
    everything back. *)
Definition mint_fenced_attach (owner : LiveFrontierOwner) (marker_source_sequence : Z)
    (recovery : DetachedCredentialRecovery) (debt : ClosureDebt) (event : Event)
    (successor : DebtCompletion)
    : result (LiveFrontierOwner * FencedAttachCommit) MintFencedAttachRefused :=
  match take_fenced_marker_record (lfo_frontiers owner) recovery with
  | (frontiers, None) =>
      Err (mkMintFencedAttachRefused (set_frontiers owner frontiers) marker_source_sequence recovery
             debt event successor FMR_MarkerAuthority)
  | (frontiers, Some record) =>
      match fenced_attach recovery (marker_record_view record) debt event successor with
      | Ok proof => Ok (set_frontiers owner frontiers, proof)
      | Err _ =>
          Err (mkMintFencedAttachRefused
                 (set_frontiers owner (reinstall_fenced_marker_record frontiers record))
                 marker_source_sequence recovery debt event successor FMR_ProofInputs)
      end
  end.

(** ** Leave *)

Record LiveLeaveCommit (EF V LF : Type) := mkLiveLeaveCommit {
  llc_identity : IdentityState EF V LF;
  llc_owner : LiveFrontierOwner;
}.
Arguments mkLiveLeaveCommit {EF V LF}.
Arguments llc_identity {EF V LF} _.
Arguments llc_owner {EF V LF} _.
Inductive LiveLeaveError :=
| LLE_Prepare (e : PrepareLeaveAuthorityError)
| LLE_Commit (e : LeaveCommitError)
| LLE_RetainedCharge | LLE_RetainedRecordLimit | LLE_ClosureAccounting | LLE_Identity.

Definition is_marker_of (participant_id : ParticipantId) (record : RetainedCausalRecord) : bool :=
  match rcr_kind record with
  | RCK_CompactionMarker participant_index _ => participant_index =? participant_id
  | _ => false
  end.
Definition retired_marker_charge (frontiers : ClaimFrontiers)
    (retained_charges : list RetainedRecordCharge) (participant_id : ParticipantId)
    : result (option RetainedRecordCharge) LiveLeaveError :=
  match List.find (is_marker_of participant_id) (cf_marker_records frontiers) with
  | None => Ok None
  | Some record =>
      match List.find (fun charge => rrc_delivery_seq charge =? rcr_delivery_seq record)
              retained_charges with
      | Some charge => Ok (Some charge)
      | None => Err LLE_RetainedCharge
      end
  end.

Section Leave.
Context {EF V LF D : Type} `{!EqDecision D}.

Definition live_leave_observer_progress_projection (c : LiveLeaveCommit EF V LF)
    : option ObserverProgressProjection :=
  match llc_identity c with
  | IS_Live _ => None
  | IS_Retired retired =>
      let committed := ri_committed_result retired in
      Some (mkObserverProgressProjection (lc_conversation_id committed)
              (lc_left_delivery_seq committed))
  end.

Definition commit_settled_leave_frontier (owner : LiveFrontierOwner) (member : LiveMember EF)
    (binding : BindingState) (detach_cell : DetachCell D) (verified : VerifiedLeaveRequest V LF)
    (left_delivery_seq : DeliverySeq) (left_charge : RetainedRecordCharge)
    : result (LiveLeaveCommit EF V LF) LiveLeaveError :=
  let? retired_marker := retired_marker_charge (lfo_frontiers owner) (lfo_retained_charges owner)
                           (lm_participant_id member) in
  let? authority := map_err LLE_Prepare
    (prepare_settled_leave_authority (lfo_frontiers owner) member binding) in
  let? commit := map_err LLE_Commit
    (commit_leave member binding detach_cell verified authority
       (mkLeaveCommitParameters left_delivery_seq)) in
  match lvc_identity commit with
  | IS_Live _ => Err LLE_Identity
  | IS_Retired retired =>
      if negb (rrc_delivery_seq left_charge =? lc_left_delivery_seq (ri_committed_result retired))
         || negb (bool_decide (rrc_admission_order left_charge = ri_left_admission_order retired))
         || negb (rv_entries (rrc_encoded_charge left_charge) =? 1)
      then Err LLE_RetainedCharge
      else
        let frontiers := lvc_frontiers commit in
        let retained_charges :=
          sort_by_key rrc_delivery_seq (lfo_retained_charges owner ++ [left_charge]) in
        if (lfo_retained_record_limit owner <? zlen (cf_retained_records frontiers))
           || negb (bool_decide (length retained_charges = length (cf_retained_records frontiers)))
        then Err LLE_RetainedRecordLimit
        else
          let? closure_accounting := ok_or
            (accounting_after_leave (lfo_closure_accounting owner) [left_charge] retired_marker)
            LLE_ClosureAccounting in
          Ok (mkLiveLeaveCommit (IS_Retired retired)
                (mkLiveFrontierOwner frontiers closure_accounting retained_charges
                   (lfo_retained_record_limit owner)))
  end.

Definition commit_pending_leave_frontier (owner : LiveFrontierOwner) (member : LiveMember EF)
    (pending : PendingFinalization) (detach_cell : DetachCell D)
    (verified : VerifiedLeaveRequest V LF) (parameters : PendingLeaveCommitParameters)
    (terminal_charge left_charge : RetainedRecordCharge)
    : result (LiveLeaveCommit EF V LF) LiveLeaveError :=
  let terminal_delivery_seq := plp_terminal_delivery_seq parameters in
  let? retired_marker := retired_marker_charge (lfo_frontiers owner) (lfo_retained_charges owner)
                           (lm_participant_id member) in
  let? authority := map_err LLE_Prepare
    (prepare_pending_leave_authority (lfo_frontiers owner) member pending) in
  let? commit := map_err LLE_Commit
    (commit_pending_leave member pending detach_cell verified authority parameters) in
  match lvc_identity commit with
  | IS_Live _ => Err LLE_Identity
  | IS_Retired retired =>
      if negb (bool_decide (lc_prior_terminal_delivery_seq (ri_committed_result retired)
                            = Some terminal_delivery_seq))
         || negb (rrc_delivery_seq terminal_charge =? terminal_delivery_seq)
         || negb (bool_decide (rrc_admission_order terminal_charge = pf_admission_order pending))
         || negb (rv_entries (rrc_encoded_charge terminal_charge) =? 1)
         || negb (rrc_delivery_seq left_charge =? lc_left_delivery_seq (ri_committed_result retired))
         || negb (bool_decide (rrc_admission_order left_charge = ri_left_admission_order retired))
         || negb (rv_entries (rrc_encoded_charge left_charge) =? 1)
      then Err LLE_RetainedCharge
      else
        let frontiers := lvc_frontiers commit in
        let retained_charges :=
          sort_by_key rrc_delivery_seq
            (lfo_retained_charges owner ++ [terminal_charge; left_charge]) in
        if lfo_retained_record_limit owner <? zlen (cf_retained_records frontiers)
        then Err LLE_RetainedRecordLimit
        else if negb (bool_decide (length retained_charges = length (cf_retained_records frontiers)))
        then Err LLE_RetainedCharge
        else
          let? closure_accounting := ok_or
            (accounting_after_leave (lfo_closure_accounting owner) [terminal_charge; left_charge]
               retired_marker) LLE_ClosureAccounting in
          Ok (mkLiveLeaveCommit (IS_Retired retired)
                (mkLiveFrontierOwner frontiers closure_accounting retained_charges
                   (lfo_retained_record_limit owner)))
  end.
End Leave.

(** ** Enrollment, attach and detach *)

Definition apply_enrollment_frontier {F} (owner : LiveFrontierOwner) (operation : EnrollmentCommit F)
    (attached_charge : RetainedRecordCharge) : LiveFrontierResult (EnrollmentCommit F) :=
  let f := lfo_frontiers owner in
  let attached := ecm_attached operation in
  let participant_id := alr_participant_id attached in
  if negb (alr_conversation_id attached =? cf_conversation_id f)
  then failure owner operation LFR_Authority
  else if existsb (fun p => fp_participant_index p =? participant_id) (participants_of owner)
  then failure owner operation LFR_Authority
  else
    let active :=
      sort_by_key fp_participant_index
        (participants_of owner
         ++ [mkFrontierParticipant participant_id (lm_cursor (ecm_member operation))
               (FB_Bound (alr_binding_epoch attached))]) in
    match enrollment_sequence (scf_ledger (cf_sequence f)) (alr_delivery_seq attached) with
    | None => failure owner operation LFR_Frontier
    | Some sequence =>
        match enrollment_order (ocf_ledger (cf_order f))
                (ao_transaction_order (alr_admission_order attached)) with
        | None => failure owner operation LFR_Frontier
        | Some order =>
            transition owner operation active [retained_attached attached] [attached_charge]
              sequence order
        end
    end.

Record AttachFrontierCharges := mkAttachFrontierCharges {
  afc_terminal : option RetainedRecordCharge;
  afc_attached : RetainedRecordCharge;
}.

Section Attach.
Context {F V : Type}.

Definition apply_fenced_attach_frontier (owner : LiveFrontierOwner) (operation : AttachCommit F V)
    (terminal_charge : option RetainedRecordCharge) (attached_charge : RetainedRecordCharge)
    (prior_binding_epoch : BindingEpoch) (composed_terminal : option CommittedBindingTerminal)
    (next_closure_state : ClosureState) : LiveFrontierResult (AttachCommit F V) :=
  let attached := atc_attached operation in
  match (match composed_terminal, terminal_charge with
         | None, None => Some ([retained_attached attached], [attached_charge])
         | Some terminal, Some terminal_charge =>
             Some ([retained_terminal terminal; retained_attached attached],
                   [terminal_charge; attached_charge])
         | _, _ => None
         end) with
  | None => failure owner operation LFR_RetainedCharge
  | Some (rows, charges) =>
      fenced_attach_transition owner operation
        (mkFrontierParticipant (alr_participant_id attached) (lm_cursor (atc_member operation))
           (FB_Bound (alr_binding_epoch attached)))
        prior_binding_epoch next_closure_state rows charges
  end.

Definition apply_attach_frontier (owner : LiveFrontierOwner) (operation : AttachCommit F V)
    (charges : AttachFrontierCharges) : LiveFrontierResult (AttachCommit F V) :=
  let f := lfo_frontiers owner in
  let attached := atc_attached operation in
  let major := ao_transaction_order (alr_admission_order attached) in
  if negb (alr_conversation_id attached =? cf_conversation_id f)
  then failure owner operation LFR_Authority
  else
    match find_participant (alr_participant_id attached) (participants_of owner) with
    | None => failure owner operation LFR_Authority
    | Some participant =>
        let active :=
          set_participant (alr_participant_id attached)
            (mkFrontierParticipant (fp_participant_index participant)
               (lm_cursor (atc_member operation)) (FB_Bound (alr_binding_epoch attached)))
            (participants_of owner) in
        let current_sequence := scf_ledger (cf_sequence f) in
        let current_order := ocf_ledger (cf_order f) in
        match atc_transition operation with
        | AT_Detached =>
            if is_some (afc_terminal charges) then failure owner operation LFR_RetainedCharge
            else
              match detached_attach_sequence current_sequence (alr_delivery_seq attached) with
              | None => failure owner operation LFR_Frontier
              | Some sequence =>
                  match detached_attach_order current_order major with
                  | None => failure owner operation LFR_Frontier
                  | Some order =>
                      transition owner operation active [retained_attached attached]
                        [afc_attached charges] sequence order
                  end
              end
        | AT_Superseded terminal =>
            match afc_terminal charges with
            | None => failure owner operation LFR_RetainedCharge
            | Some terminal_charge =>
                let rows := [retained_terminal (CBT_Detached terminal); retained_attached attached] in
                match superseding_attach_sequence current_sequence rows with
                | None => failure owner operation LFR_Frontier
                | Some sequence =>
                    match superseding_attach_order current_order major with
                    | None => failure owner operation LFR_Frontier
                    | Some order =>
                        transition owner operation active rows
                          [terminal_charge; afc_attached charges] sequence order
                    end
                end
            end
        | AT_FencedRecovery prior_binding_epoch composed_terminal next_closure_state =>
            apply_fenced_attach_frontier owner operation (afc_terminal charges)
              (afc_attached charges) prior_binding_epoch composed_terminal next_closure_state
        end
    end.

Definition apply_detach_frontier (owner : LiveFrontierOwner)
    (operation : CommittedDetachTransition F V) (terminal_charge : RetainedRecordCharge)
    : LiveFrontierResult (CommittedDetachTransition F V) :=
  let f := lfo_frontiers owner in
  let terminal := CBT_Detached (cdx_terminal operation) in
  if negb (cbt_conversation_id terminal =? cf_conversation_id f)
  then failure owner operation LFR_Authority
  else
    match find_participant (cbt_participant_id terminal) (participants_of owner) with
    | None => failure owner operation LFR_Authority
    | Some participant =>
        let active :=
          set_participant (cbt_participant_id terminal)
            (mkFrontierParticipant (fp_participant_index participant)
               (lm_cursor (cdx_member operation)) (FB_Detached (cbt_binding_epoch terminal)))
            (participants_of owner) in
        let row := retained_terminal terminal in
        match detach_sequence (scf_ledger (cf_sequence f)) (rcr_delivery_seq row) with
        | None => failure owner operation LFR_Frontier
        | Some sequence =>
            match detach_order (ocf_ledger (cf_order f))
                    (ao_transaction_order (rcr_admission_order row)) with
            | None => failure owner operation LFR_Frontier
            | Some order =>
                transition owner operation active [row] [terminal_charge] sequence order
            end
        end
    end.
End Attach.

(** ** Acknowledgements *)

(** The fold saturates; the length of a [Vec] always fits a [u64]. *)
Definition crossed_marker_anchors (owner : LiveFrontierOwner) (participant_id : ParticipantId)
    (previous_cursor through_seq : DeliverySeq) : Z :=
  zlen (List.filter (fun record =>
          is_marker_of participant_id record && (previous_cursor <? rcr_delivery_seq record)
          && (rcr_delivery_seq record <=? through_seq))
          (cf_marker_records (lfo_frontiers owner))).

(** The body both cumulative acknowledgements share. *)
Definition apply_ack_frontier {T} (owner : LiveFrontierOwner) (operation : T)
    (request : ParticipantAckEnvelope) : LiveFrontierResult T :=
  match find_participant (pae_participant_id request) (participants_of owner) with
  | None => failure owner operation LFR_Authority
  | Some current =>
      let crossed := crossed_marker_anchors owner (pae_participant_id request) (fp_cursor current)
                       (pae_through_seq request) in
      match (if crossed =? 0 then Some (lfo_closure_accounting owner)
             else accounting_after_marker_crossings (lfo_closure_accounting owner) crossed) with
      | None => failure owner operation LFR_ClosureAccounting
      | Some accounting =>
          match apply_live_identity (lfo_frontiers owner)
                  (mkFrontierParticipant (pae_participant_id request) (pae_through_seq request)
                     (fp_binding current)) with
          | Err (frontiers, error) =>
              failure (set_frontiers owner frontiers) operation (map_frontier_error error)
          | Ok frontiers =>
              Ok (mkLiveFrontierCommit operation
                    (set_accounting (set_frontiers owner frontiers) accounting))
          end
      end
  end.
Definition apply_participant_ack_frontier (owner : LiveFrontierOwner)
    (operation : ParticipantAckCommit) : LiveFrontierResult ParticipantAckCommit :=
  apply_ack_frontier owner operation (acm_request (pac_outcome operation)).
Definition apply_nonzero_participant_ack_frontier (owner : LiveFrontierOwner)
    (operation : NonzeroParticipantAckCommit) : LiveFrontierResult NonzeroParticipantAckCommit :=
  apply_ack_frontier owner operation (acm_request (npc_outcome operation)).

Definition apply_marker_ack_frontier (owner : LiveFrontierOwner) (operation : MarkerAckCommit)
    : LiveFrontierResult MarkerAckCommit :=
  let request := mac_request (mkc_outcome operation) in
  if negb (existsb (fun record =>
             (rcr_delivery_seq record =? mae_marker_delivery_seq request)
             && is_marker_of (mae_participant_id request) record)
             (cf_marker_records (lfo_frontiers owner)))
  then failure owner operation LFR_Authority
  else
    match find_participant (mae_participant_id request) (participants_of owner) with
    | None => failure owner operation LFR_Authority
    | Some current =>
        match accounting_after_marker_ack (lfo_closure_accounting owner) with
        | None => failure owner operation LFR_ClosureAccounting
        | Some accounting =>
            match apply_live_identity (lfo_frontiers owner)
                    (mkFrontierParticipant (mae_participant_id request)
                       (mae_marker_delivery_seq request) (fp_binding current)) with
            | Err (frontiers, error) =>
                failure (set_frontiers owner frontiers) operation (map_frontier_error error)
            | Ok frontiers =>
                Ok (mkLiveFrontierCommit operation
                      (set_accounting (set_frontiers owner frontiers) accounting))
            end
        end
    end.

(** ** binding_fate_transition.rs *)

Record BindingFateOwnerPlan := mkBindingFateOwnerPlan {
  bop_frontiers : BindingFateFrontierPlan;
  bop_accounting : ClosureAccounting;
}.

(** The retained rows and the charges carry the same keys. *)
Definition rows_charged (o : LiveFrontierOwner) : bool :=
  bool_decide (length (cf_retained_records (lfo_frontiers o)) = length (lfo_retained_charges o))
  && charges_keyed (lfo_retained_charges o) (cf_retained_records (lfo_frontiers o)).
(** [take_while] over the charges below the floor. *)
Fixpoint charges_below (floor : Z) (charges : list RetainedRecordCharge)
    : list RetainedRecordCharge :=
  match charges with
  | [] => []
  | charge :: charges =>
      if rrc_delivery_seq charge <? floor then charge :: charges_below floor charges else []
  end.

Definition owner_prepare_binding_fate_transition (owner : LiveFrontierOwner)
    (participant_id : ParticipantId) (binding_epoch : BindingEpoch)
    (cursor resulting_floor : DeliverySeq) (reserve_finalizer : bool)
    : result BindingFateOwnerPlan LiveFrontierError :=
  if negb (rows_charged owner) then Err LFR_RetainedCharge
  else
    let? frontiers := map_err map_frontier_error
      (prepare_binding_fate_transition (lfo_frontiers owner) participant_id binding_epoch cursor
         resulting_floor reserve_finalizer) in
    let? accounting := ok_or
      (accounting_after_floor (lfo_closure_accounting owner)
         (charges_below resulting_floor (lfo_retained_charges owner))) LFR_ClosureAccounting in
    Ok (mkBindingFateOwnerPlan frontiers accounting).

Definition charges_from (floor : Z) (charges : list RetainedRecordCharge)
    : list RetainedRecordCharge :=
  List.filter (fun charge => floor <=? rrc_delivery_seq charge) charges.
Definition owner_install_binding_fate_transition (owner : LiveFrontierOwner)
    (plan : BindingFateOwnerPlan) (resulting_floor : DeliverySeq) : LiveFrontierOwner :=
  mkLiveFrontierOwner (install_binding_fate_transition (lfo_frontiers owner) (bop_frontiers plan))
    (bop_accounting plan) (charges_from resulting_floor (lfo_retained_charges owner))
    (lfo_retained_record_limit owner).

(** [map(..).min()] over the retained markers. *)
Definition lowest_retained_marker (f : ClaimFrontiers) : option DeliverySeq :=
  match cf_marker_records f with
  | [] => None
  | record :: records =>
      Some (fold_left (fun m r => Z.min m (rcr_delivery_seq r)) records (rcr_delivery_seq record))
  end.

Definition owner_install_finalized_binding_fate_floor (owner : LiveFrontierOwner)
    (measured_floor : DeliverySeq) : result LiveFrontierOwner LiveFrontierError :=
  let f := lfo_frontiers owner in
  if negb (rows_charged owner) then Err LFR_RetainedCharge
  else
    match admissible_installed_floor measured_floor (cf_retained_floor f) (lowest_retained_marker f)
            (sl_high_watermark (scf_ledger (cf_sequence f))) with
    | Subsumed => Ok owner
    | Install resulting_floor =>
        let? accounting := ok_or
          (accounting_after_floor (lfo_closure_accounting owner)
             (charges_below resulting_floor (lfo_retained_charges owner))) LFR_ClosureAccounting in
        let? frontiers := map_err map_frontier_error
          (install_finalized_binding_fate_floor f resulting_floor) in
        Ok (mkLiveFrontierOwner frontiers accounting
              (charges_from resulting_floor (lfo_retained_charges owner))
              (lfo_retained_record_limit owner))
    end.
