(* ===== verification/OwnerFate.v ===== *)
(** * Binding terminals and binding fates over the live owner

    Model of [liminal-protocol/src/lifecycle/operations/binding_terminal.rs] (the terminal
    of a dying binding is committed while the retained suffix has room and pended while
    the observer holds it) and [binding_fate.rs] (the floor a dead binding releases, and
    the deferred floor of a pending one). *)
From S2P Require Import Prelude LiveOwner Algebra Tags Wire Response Order Sequence Edge Binding.
From S2P Require Import EdgeSteps Member Detach Leave Attach Closure Frontier FrontierLive.
From S2P Require Import RecordProjection FrontierRestore FrontierLeave.

(** ** binding_terminal.rs *)

Inductive BindingTerminalEncoding := BTE_ParticipantLifecycleV3CanonicalJson.
#[export] Instance BindingTerminalEncoding_eq_dec : EqDecision BindingTerminalEncoding.
Proof. solve_decision. Defined.
Inductive BindingTerminalCauseClass := BCC_Detached | BCC_Died.
Record CandidateTerminalKey := mkCandidateTerminalKey {
  ctk_active_binding : ActiveBinding;
  ctk_cause_class : BindingTerminalCauseClass;
  ctk_admission_order : AdmissionOrder;
  ctk_delivery_seq : DeliverySeq;
}.
Record BindingTerminalCandidateCharge := mkBindingTerminalCandidateCharge {
  btc_conversation_id : ConversationId;
  btc_participant_id : ParticipantId;
  btc_binding_epoch : BindingEpoch;
  btc_admission_order : AdmissionOrder;
  btc_delivery_seq : DeliverySeq;
  btc_encoding : BindingTerminalEncoding;
  btc_charge : RetainedRecordCharge;
}.
Definition bind_v3_charge (key : CandidateTerminalKey) (encoded_charge : ResourceVector)
    : BindingTerminalCandidateCharge :=
  let binding := ctk_active_binding key in
  mkBindingTerminalCandidateCharge (bnd_conversation_id binding) (bnd_participant_id binding)
    (bnd_binding_epoch binding) (ctk_admission_order key) (ctk_delivery_seq key)
    BTE_ParticipantLifecycleV3CanonicalJson
    (mkRetainedRecordCharge (ctk_delivery_seq key) (ctk_admission_order key) encoded_charge).

Inductive BindingTerminalPrepareError :=
| BPE_Authority | BPE_TransactionOrder | BPE_DeliverySequence | BPE_ObserverProgress.
Record PreparedBindingTerminal := mkPreparedBindingTerminal {
  pbt_owner : LiveFrontierOwner;
  pbt_key : CandidateTerminalKey;
  pbt_hard_observer_progress : DeliverySeq;
}.
Inductive BindingTerminalAdmitError :=
| BAE_CandidateCharge | BAE_RetainedRecordLimit | BAE_Authority | BAE_Precedence | BAE_Frontier
| BAE_ClosureAccounting.
Inductive BindingTerminalAdmission :=
| BTA_Commit (owner : LiveFrontierOwner) (position : CommittedBindingTerminalPosition)
| BTA_Pending (owner : LiveFrontierOwner) (position : PendingBindingTerminalPosition)
    (blocked_at_observer : DeliverySeq)
| BTA_Refused (owner : LiveFrontierOwner) (error : BindingTerminalAdmitError).

Definition map_live_frontier_error (error : LiveFrontierError) : BindingTerminalAdmitError :=
  match error with
  | LFR_Authority => BAE_Authority
  | LFR_Precedence _ => BAE_Precedence
  | LFR_RetainedCharge => BAE_CandidateCharge
  | LFR_RetainedRecordLimit => BAE_RetainedRecordLimit
  | LFR_Frontier => BAE_Frontier
  | LFR_ClosureAccounting => BAE_ClosureAccounting
  end.

Definition prepare_binding_terminal (owner : LiveFrontierOwner) (active_binding : ActiveBinding)
    (cause_class : BindingTerminalCauseClass) (next_transaction_order : TransactionOrder)
    (next_delivery_sequence hard_observer_progress : DeliverySeq)
    : result PreparedBindingTerminal (LiveFrontierOwner * BindingTerminalPrepareError) :=
  let f := lfo_frontiers owner in
  let high := sl_high_watermark (scf_ledger (cf_sequence f)) in
  if negb ((bnd_conversation_id active_binding =? cf_conversation_id f)
           && existsb (fun participant =>
                (fp_participant_index participant =? bnd_participant_id active_binding)
                && bool_decide (fp_binding participant
                                = FB_Bound (bnd_binding_epoch active_binding)))
                (participants_of owner))
  then Err (owner, BPE_Authority)
  else if negb (bool_decide
                  (match ol_high (ocf_ledger (cf_order f)) with
                   | OH_Empty => Some 0
                   | OH_Allocated high => checked_add u64_max high 1
                   end = Some next_transaction_order))
  then Err (owner, BPE_TransactionOrder)
  else if negb (bool_decide (checked_add u64_max high 1 = Some next_delivery_sequence))
  then Err (owner, BPE_DeliverySequence)
  else if high <? hard_observer_progress then Err (owner, BPE_ObserverProgress)
  else Ok (mkPreparedBindingTerminal owner
             (mkCandidateTerminalKey active_binding cause_class
                (binding_terminal next_transaction_order (bnd_participant_id active_binding))
                next_delivery_sequence) hard_observer_progress).

Definition admit_binding_terminal (p : PreparedBindingTerminal)
    (candidate : BindingTerminalCandidateCharge) : BindingTerminalAdmission :=
  let owner := pbt_owner p in
  let key := pbt_key p in
  let binding := ctk_active_binding key in
  if negb (btc_conversation_id candidate =? bnd_conversation_id binding)
     || negb (btc_participant_id candidate =? bnd_participant_id binding)
     || negb (bool_decide (btc_binding_epoch candidate = bnd_binding_epoch binding))
     || negb (bool_decide (btc_admission_order candidate = ctk_admission_order key))
     || negb (btc_delivery_seq candidate =? ctk_delivery_seq key)
     || negb (bool_decide (btc_encoding candidate = BTE_ParticipantLifecycleV3CanonicalJson))
     || negb (rrc_delivery_seq (btc_charge candidate) =? ctk_delivery_seq key)
     || negb (bool_decide (rrc_admission_order (btc_charge candidate) = ctk_admission_order key))
     || negb (rv_entries (rrc_encoded_charge (btc_charge candidate)) =? 1)
  then BTA_Refused owner BAE_CandidateCharge
  else if match checked_add u64_max (zlen (lfo_retained_charges owner)) 1 with
          | Some len => len <=? lfo_retained_record_limit owner
          | None => false
          end
  then
    match commit_binding_terminal_candidate owner binding (ctk_admission_order key)
            (ctk_delivery_seq key) (btc_charge candidate) with
    | Ok owner =>
        BTA_Commit owner (mkCommittedPosition (ao_transaction_order (ctk_admission_order key))
                            (ctk_delivery_seq key))
    | Err (owner, error) => BTA_Refused owner (map_live_frontier_error error)
    end
  else if pbt_hard_observer_progress p <? ctk_delivery_seq key
  then
    match pend_binding_terminal_candidate owner binding (ctk_admission_order key)
            (ctk_delivery_seq key) with
    | Ok owner =>
        BTA_Pending owner (mkPendingPosition (ao_transaction_order (ctk_admission_order key)))
          (pbt_hard_observer_progress p)
    | Err (owner, error) => BTA_Refused owner (map_live_frontier_error error)
    end
  else BTA_Refused owner BAE_RetainedRecordLimit.

(** ** binding_fate.rs *)

Inductive BindingFateTerminal :=
| BFT_Ordinary (terminal : CommittedDiedTerminal)
| BFT_Recovered | BFT_RecoveredAndReserveFinalizer.
Inductive MeasuredBindingFate :=
| MBF_Ordinary (fate : OrdinaryBindingFate)
| MBF_Recovered (fate : RecoveredBindingFate).
Record PreparedBindingFate := mkPreparedBindingFate {
  pbf_owner : LiveFrontierOwner;
  pbf_fate : MeasuredBindingFate;
  pbf_event : Event;
}.
Record PendingDiedOrdinaryFinalizer := mkPendingDiedOrdinaryFinalizer {
  pdf_resulting_floor : DeliverySeq;
}.
Record PreparedPendingDiedOrdinaryFinalizer := mkPreparedPendingDiedOrdinaryFinalizer {
  ppf_owner : LiveFrontierOwner;
  ppf_fate : OrdinaryBindingFate;
  ppf_finalizer : PendingDiedOrdinaryFinalizer;
}.
Inductive BindingFateMeasurementError :=
| BME_Token | BME_Conversation | BME_Participant | BME_Binding | BME_Terminal
| BME_ObserverProgress | BME_ResultingFloor
| BME_OwnerTransition (e : LiveFrontierError).
Record BindingFateMeasurementRefused := mkBindingFateMeasurementRefused {
  bmr_owner : LiveFrontierOwner;
  bmr_token : SealedBindingFateToken;
  bmr_terminal : BindingFateTerminal;
  bmr_error : BindingFateMeasurementError;
}.
Record ValidatedBindingFateFloor := mkValidatedBindingFateFloor {
  vbf_participant_id : ParticipantId;
  vbf_binding_epoch : BindingEpoch;
  vbf_resulting_floor : DeliverySeq;
}.
Record ValidatedBindingFateMeasurement := mkValidatedBindingFateMeasurement {
  vbm_floor : ValidatedBindingFateFloor;
  vbm_owner_plan : BindingFateOwnerPlan;
}.

Definition fate_terminal_matches (context : BindingFateMeasurementContext)
    (intent : option SealedBindingFateIntent) (terminal : BindingFateTerminal) : bool :=
  match intent, terminal with
  | Some SFI_Ordinary, BFT_Ordinary died =>
      (cbt_conversation_id (CBT_Died died) =? bmc_conversation_id context)
      && (cbt_participant_id (CBT_Died died) =? bmc_participant_id context)
      && bool_decide (cbt_binding_epoch (CBT_Died died) = bmc_binding_epoch context)
  | Some (SFI_Recovered _ _), (BFT_Recovered | BFT_RecoveredAndReserveFinalizer) => true
  | _, _ => false
  end.

Definition validate_binding_fate_floor (owner : LiveFrontierOwner) (token : SealedBindingFateToken)
    (terminal : BindingFateTerminal) (hard_observer_progress : DeliverySeq)
    : result ValidatedBindingFateFloor BindingFateMeasurementError :=
  let f := lfo_frontiers owner in
  match measurement_context token with
  | None => Err BME_Token
  | Some context =>
  if negb (bmc_conversation_id context =? cf_conversation_id f) then Err BME_Conversation
  else
  match find_participant (bmc_participant_id context) (participants_of owner) with
  | None => Err BME_Participant
  | Some participant =>
  if negb (fp_cursor participant =? bmc_cursor context)
     || negb (bool_decide (fp_binding participant = FB_Bound (bmc_binding_epoch context)))
        && negb (bool_decide (fp_binding participant = FB_Detached (bmc_binding_epoch context)))
  then Err BME_Binding
  else if negb (fate_terminal_matches context (intent token) terminal) then Err BME_Terminal
  else
    let candidate_high_watermark := sl_high_watermark (scf_ledger (cf_sequence f)) in
    if candidate_high_watermark <? hard_observer_progress then Err BME_ObserverProgress
    else
      let minimum_remaining_cursor :=
        minimum_cursor (List.filter (fun p =>
          negb (fp_participant_index p =? bmc_participant_id context)) (participants_of owner)) in
      let measured := floor_transition (cf_retained_floor f) minimum_remaining_cursor
                        candidate_high_watermark hard_observer_progress (cf_retained_floor f) in
      let clamped_floor := marker_clamped_floor (resulting_floor measured)
                             (lowest_retained_marker f) in
      match u64_try_from clamped_floor with
      | None => Err BME_ResultingFloor
      | Some resulting_floor =>
          Ok (mkValidatedBindingFateFloor (bmc_participant_id context) (bmc_binding_epoch context)
                resulting_floor)
      end
  end
  end.

Definition reserves_finalizer (terminal : BindingFateTerminal) : bool :=
  match terminal with BFT_RecoveredAndReserveFinalizer => true | _ => false end.
Definition validate_binding_fate_measurement (owner : LiveFrontierOwner)
    (token : SealedBindingFateToken) (terminal : BindingFateTerminal)
    (hard_observer_progress : DeliverySeq)
    : result ValidatedBindingFateMeasurement BindingFateMeasurementError :=
  let? floor := validate_binding_fate_floor owner token terminal hard_observer_progress in
  let? context := ok_or (measurement_context token) BME_Token in
  let? owner_plan := map_err BME_OwnerTransition
    (owner_prepare_binding_fate_transition owner (vbf_participant_id floor) (vbf_binding_epoch floor)
       (bmc_cursor context) (vbf_resulting_floor floor) (reserves_finalizer terminal)) in
  Ok (mkValidatedBindingFateMeasurement floor owner_plan).

Definition prepare_binding_fate (owner : LiveFrontierOwner) (token : SealedBindingFateToken)
    (terminal : BindingFateTerminal) (hard_observer_progress : DeliverySeq)
    : result PreparedBindingFate BindingFateMeasurementRefused :=
  match validate_binding_fate_measurement owner token terminal hard_observer_progress with
  | Err error => Err (mkBindingFateMeasurementRefused owner token terminal error)
  | Ok measurement =>
      let floor := vbm_floor measurement in
      let resulting_floor := vbf_resulting_floor floor in
      let event := binding_fate_observed (vbf_participant_id floor) (vbf_binding_epoch floor)
                     resulting_floor in
      let fate :=
        match terminal with
        | BFT_Ordinary terminal =>
            let? fate := token_ordinary_binding_fate token terminal resulting_floor in
            Ok (MBF_Ordinary fate)
        | BFT_Recovered | BFT_RecoveredAndReserveFinalizer =>
            let? fate := recovered_binding_fate_measured token resulting_floor in
            Ok (MBF_Recovered fate)
        end in
      match fate with
      | Ok fate =>
          Ok (mkPreparedBindingFate
                (owner_install_binding_fate_transition owner (vbm_owner_plan measurement)
                   resulting_floor) fate event)
      | Err token => Err (mkBindingFateMeasurementRefused owner token terminal BME_Terminal)
      end
  end.

(** The floor is measured, and installed by whoever completes the finalizer. *)
Definition defer_binding_fate (owner : LiveFrontierOwner) (token : SealedBindingFateToken)
    (terminal : CommittedDiedTerminal)
    (measurement : result ValidatedBindingFateFloor BindingFateMeasurementError)
    : result PreparedPendingDiedOrdinaryFinalizer BindingFateMeasurementRefused :=
  match measurement with
  | Err error => Err (mkBindingFateMeasurementRefused owner token (BFT_Ordinary terminal) error)
  | Ok floor =>
      match token_ordinary_binding_fate token terminal (vbf_resulting_floor floor) with
      | Ok fate =>
          Ok (mkPreparedPendingDiedOrdinaryFinalizer owner fate
                (mkPendingDiedOrdinaryFinalizer (vbf_resulting_floor floor)))
      | Err token =>
          Err (mkBindingFateMeasurementRefused owner token (BFT_Ordinary terminal) BME_Terminal)
      end
  end.
Definition prepare_pending_died_ordinary_finalizer (owner : LiveFrontierOwner)
    (token : SealedBindingFateToken) (terminal : CommittedDiedTerminal)
    (hard_observer_progress : DeliverySeq)
    : result PreparedPendingDiedOrdinaryFinalizer BindingFateMeasurementRefused :=
  defer_binding_fate owner token terminal
    (let? measurement := validate_binding_fate_measurement owner token (BFT_Ordinary terminal)
                           hard_observer_progress in Ok (vbm_floor measurement)).
Definition prepare_pending_died_ordinary_after_fenced_proof (owner : LiveFrontierOwner)
    (token : SealedBindingFateToken) (terminal : CommittedDiedTerminal)
    (hard_observer_progress : DeliverySeq)
    : result PreparedPendingDiedOrdinaryFinalizer BindingFateMeasurementRefused :=
  defer_binding_fate owner token terminal
    (validate_binding_fate_floor owner token (BFT_Ordinary terminal) hard_observer_progress).
Definition complete_pending_died_ordinary_finalizer (owner : LiveFrontierOwner)
    (finalizer : PendingDiedOrdinaryFinalizer) : result LiveFrontierOwner LiveFrontierError :=
  owner_install_finalized_binding_fate_floor owner (pdf_resulting_floor finalizer).
