(* ===== verification/FrontierInv.v ===== *)
(** * Claim frontiers: the invariant

    What holds of the frontiers of a live conversation, whichever operations led to
    them: both counters own exactly the reserve of their ledgers, without a gap and
    without an overlap; every live identity owns one exit on each counter and every
    bound one its terminal; the product ranges are as long as there are identities to
    tell; both counters know the same candidates, terminals and recovery; and the
    retained rows are one suffix of the sequence.  [FrontierRuns] shows that every
    operation keeps it. *)
From stdpp Require Import sorting.
From S2P Require Import Prelude FrontierLeave Algebra Tags Wire Response Order Sequence Edge.
From S2P Require Import EdgeSteps Binding Member Detach Leave Attach Closure Frontier.
From S2P Require Import FrontierNumeric FrontierLive FrontierInit RecordProjection FrontierRestore.

(** ** Specification *)

Definition indices (a : ActiveIdentityRanks) : list ParticipantId :=
  map fp_participant_index (air_participants a).
(** The terminal of the current or last binding of every identity. *)
Definition epoch_owner (p : FrontierParticipant) : BindingTerminalOwner :=
  mkBindingTerminalOwner (fp_participant_index p) (frontier_binding_epoch (fp_binding p)).
Definition epoch_owners (a : ActiveIdentityRanks) : list BindingTerminalOwner :=
  map epoch_owner (air_participants a).

Definition ranks_ok (high limit : Z) (ps : list FrontierParticipant) : Prop :=
  zlen ps <= limit /\ StronglySorted Z.lt (map fp_participant_index ps)
  /\ Forall (fun p => fp_participant_index p < limit /\ fp_cursor p <= high) ps.

Definition exit_owners (s : SequenceClaimFrontier) : list ParticipantId :=
  omap (fun c => match msc_owner c with
                 | SDO_MembershipExit p => Some p
                 | SDO_BindingTerminal _ => None
                 end) (scf_movable_claims s).
Definition order_exit_owners (o : OrderClaimFrontier) : list ParticipantId :=
  omap (fun c => match moc_owner c with
                 | ODO_MembershipExit p => Some p
                 | ODO_ActiveBindingTerminal _ => None
                 end) (ocf_movable_claims o).
Definition claimed_terminals (s : SequenceClaimFrontier) : list BindingTerminalOwner :=
  sequence_terminal_owners (scf_movable_claims s) ++ sequence_recovery_owner (scf_recovery s).
Definition order_claimed_terminals (o : OrderClaimFrontier) : list BindingTerminalOwner :=
  order_terminal_owners (ocf_movable_claims o) ++ order_recovery_owner (ocf_recovery o).
Definition terminals_of (candidates : list ImmutableSequenceCandidate) : list BindingTerminalOwner :=
  omap (fun c => match c with
                 | ISC_BindingTerminal _ _ owner => Some owner
                 | ISC_Marker _ => None
                 end) candidates.
Definition markers_of (candidates : list ImmutableSequenceCandidate)
    : list MarkerCandidateAuthority :=
  omap (fun c => match c with
                 | ISC_Marker marker => Some marker
                 | ISC_BindingTerminal _ _ _ => None
                 end) candidates.
Definition candidate_terminals (s : SequenceClaimFrontier) : list BindingTerminalOwner :=
  terminals_of (scf_immutable_candidates s).
Definition all_terminals (s : SequenceClaimFrontier) : list BindingTerminalOwner :=
  claimed_terminals s ++ candidate_terminals s.
Definition marker_candidates (s : SequenceClaimFrontier) : list MarkerCandidateAuthority :=
  markers_of (scf_immutable_candidates s).

(** Claims carry the binding they end; candidates the binding they ended. *)
Definition terminals_ok (a : ActiveIdentityRanks) (s : SequenceClaimFrontier) : Prop :=
  NoDup (all_terminals s)
  /\ (forall owner, owner ∈ claimed_terminals s -> owner ∈ bound_owners a)
  /\ (forall owner, owner ∈ candidate_terminals s -> owner ∈ epoch_owners a)
  /\ (forall owner, owner ∈ bound_owners a -> owner ∈ all_terminals s).

(** A recovery block is that of a live identity; the terminal it holds, its own. *)
Definition block_ok (a : ActiveIdentityRanks) (b : RecoverySequenceBlock) : Prop :=
  rsb_participant_index b ∈ indices a
  /\ match rsb_terminal b with
     | Some t => bto_participant_index (rst_owner t) = rsb_participant_index b
     | None => True
     end.
Definition products_ok (a : ActiveIdentityRanks) (s : SequenceClaimFrontier) : Prop :=
  let live := air_len a in
  map tpr_terminal (spr_live_times_terminal (scf_products s)) ≡ₚ all_terminals s
  /\ Forall (fun r => tpr_length r = live) (spr_live_times_terminal (scf_products s))
  /\ match spr_live_times_replacement_terminal (scf_products s), scf_recovery s with
     | Some r, Some b => rpr_length r = live /\ block_ok a b
     | None, None => True
     | _, _ => False
     end
  /\ Forall (fun r => epr_length r = Z.max 0 (live - 1))
       (spr_other_live_times_exit (scf_products s))
  /\ (1 < live ->
      map epr_exit_participant (spr_other_live_times_exit (scf_products s)) ≡ₚ indices a).

(** The sequences that can still move. *)
Definition replacement_positions (s : SequenceClaimFrontier) : list Z :=
  match spr_live_times_replacement_terminal (scf_products s) with
  | Some r => seqZ (rpr_start r) (rpr_length r) | None => []
  end.
Definition block_positions (s : SequenceClaimFrontier) : list Z :=
  match scf_recovery s with Some b => block_sequences b | None => [] end.
Definition movable_positions (s : SequenceClaimFrontier) : list Z :=
  map msc_delivery_seq (scf_movable_claims s)
  ++ concat (map (fun r => seqZ (tpr_start r) (tpr_length r))
               (spr_live_times_terminal (scf_products s)))
  ++ replacement_positions s
  ++ concat (map (fun r => seqZ (epr_start r) (epr_length r))
               (spr_other_live_times_exit (scf_products s)))
  ++ block_positions s.

(** The candidates own the sequences after the watermark, in order; what can still move
    owns the rest of the reserve. *)
Definition sequence_positions (s : SequenceClaimFrontier) : Prop :=
  let first := sl_high_watermark (scf_ledger s) + 1 in
  let reserve := sl_required_reserve (scf_ledger s) in
  let k := zlen (scf_immutable_candidates s) in
  map isc_delivery_seq (scf_immutable_candidates s) = seqZ first k
  /\ movable_positions s ≡ₚ seqZ (first + k) (reserve - k)
  /\ Forall (fun r => 0 <= epr_start r <= first + reserve)
       (spr_other_live_times_exit (scf_products s))
  /\ match spr_live_times_replacement_terminal (scf_products s) with
     | Some r => 0 <= rpr_start r | None => True
     end.

Definition sequence_counts (a : ActiveIdentityRanks) (s : SequenceClaimFrontier) : Prop :=
  let c := sl_claims (scf_ledger s) in
  sc_live_members c = air_len a
  /\ sc_binding_terminals c = zlen (all_terminals s)
  /\ sc_markers c = zlen (marker_candidates s)
  /\ rsr c = of_bool (is_some (scf_recovery s)).

Definition sequence_ok (a : ActiveIdentityRanks) (s : SequenceClaimFrontier) : Prop :=
  sl_ok (scf_ledger s) /\ sequence_counts a s /\ exit_owners s ≡ₚ indices a
  /\ terminals_ok a s /\ products_ok a s
  /\ Forall (fun m => mca_current_owner m = MSO_Marker) (marker_candidates s)
  /\ sequence_positions s.

Definition majors_above (o : OrderClaimFrontier) : list ImmutableOrderCandidateMajor :=
  List.filter (fun g => order_is_above_high (icm_transaction_order g) (ol_high (ocf_ledger o)))
    (ocf_immutable_candidates o).
Definition order_positions (o : OrderClaimFrontier) : Prop :=
  let first := next_major (ol_high (ocf_ledger o)) in
  let total := claims_total (ol_claims (ocf_ledger o)) in
  let k := zlen (majors_above o) in
  map icm_transaction_order (majors_above o) = seqZ first k
  /\ movable_orders o ≡ₚ seqZ (first + k) total
  /\ first + k + total <= u64_max + 1.
Definition order_counts (a : ActiveIdentityRanks) (o : OrderClaimFrontier) : Prop :=
  let c := ol_claims (ocf_ledger o) in
  oc_active_binding_terminals c = zlen (order_claimed_terminals o)
  /\ oc_membership_exits c = air_len a
  /\ oc_recovery_operation c = is_some (ocf_recovery o).
Definition order_ok (a : ActiveIdentityRanks) (o : OrderClaimFrontier) : Prop :=
  ledger_ok (ocf_ledger o) /\ order_counts a o /\ order_exit_owners o ≡ₚ indices a
  /\ order_positions o.

(** [a < b]. *)
Definition ao_lt (a b : AdmissionOrder) : Prop := ao_ltb a b = true.
(** What the two counters know of each other. *)
Definition counters_agree (s : SequenceClaimFrontier) (o : OrderClaimFrontier) : Prop :=
  claimed_terminals s ≡ₚ order_claimed_terminals o
  /\ match scf_recovery s, ocf_recovery o with
     | None, None => True
     | Some b, Some b' => recovery_blocks_match b b' = true
     | _, _ => False
     end
  /\ (forall key, key ∈ group_keys o <-> key ∈ map isc_admission_order (scf_immutable_candidates s)).
(** The keys of one major, in order. *)
Definition group_ok (g : ImmutableOrderCandidateMajor) : Prop :=
  StronglySorted ao_lt (icm_candidate_keys g)
  /\ Forall (fun k => ao_transaction_order k = icm_transaction_order g) (icm_candidate_keys g).
Definition keys_ok (s : SequenceClaimFrontier) (o : OrderClaimFrontier) : Prop :=
  NoDup (group_keys o) /\ NoDup (map isc_admission_order (scf_immutable_candidates s))
  /\ Forall group_ok (ocf_immutable_candidates o).

Definition rows_ok (f : ClaimFrontiers) : Prop :=
  let stop := sl_high_watermark (scf_ledger (cf_sequence f)) + 1 in
  0 <= cf_retained_floor f <= stop
  /\ map rcr_delivery_seq (cf_retained_records f)
     = seqZ (cf_retained_floor f) (stop - cf_retained_floor f)
  /\ Forall (fun r => r ∈ cf_retained_records f /\ is_compaction_marker r = true)
       (cf_marker_records f).

Definition frontier_inv (f : ClaimFrontiers) : Prop :=
  let a := cf_active_identities f in
  ranks_ok (sl_high_watermark (scf_ledger (cf_sequence f))) (cf_identity_slot_limit f)
    (air_participants a)
  /\ sequence_ok a (cf_sequence f) /\ order_ok a (cf_order f)
  /\ counters_agree (cf_sequence f) (cf_order f) /\ keys_ok (cf_sequence f) (cf_order f)
  /\ rows_ok f.

(** ** Orders *)

Lemma lex_leb_refl l : lex_leb l l = true.
Proof. induction l as [|x l IH]; simpl; [done|]. rewrite Z.eqb_refl, IH. apply orb_true_r. Qed.
Lemma lex_leb_total a : forall b, lex_leb a b = true \/ lex_leb b a = true.
Proof.
  induction a as [|x a IH]; intros [|y b]; simpl; auto.
  destruct (Z.ltb_spec x y), (Z.ltb_spec y x), (Z.eqb_spec x y), (Z.eqb_spec y x);
    simpl; auto; try lia.
Qed.
Lemma lex_leb_trans a : forall b c, lex_leb a b = true -> lex_leb b c = true -> lex_leb a c = true.
Proof.
  induction a as [|x a IH]; intros [|y b] [|z c]; simpl; try done.
  destruct (Z.ltb_spec x y), (Z.ltb_spec y z), (Z.ltb_spec x z), (Z.eqb_spec x y),
    (Z.eqb_spec y z), (Z.eqb_spec x z); simpl; try done; try lia. apply IH.
Qed.
Lemma lex_leb_antisym a : forall b, lex_leb a b = true -> lex_leb b a = true -> a = b.
Proof.
  induction a as [|x a IH]; intros [|y b]; simpl; try done.
  destruct (Z.ltb_spec x y), (Z.ltb_spec y x), (Z.eqb_spec x y), (Z.eqb_spec y x);
    simpl; try done; try lia. intros. f_equal; auto.
Qed.

Lemma ao_key_inj a b : ao_key a = ao_key b -> a = b.
Proof.
  destruct a as [m p i], b as [m' p' i']. unfold ao_key; simpl. intros H. injection H as -> Hp ->.
  by destruct p, p'.
Qed.
Lemma owner_key_inj a b : owner_key a = owner_key b -> a = b.
Proof.
  destruct a as [i [[s c] g]], b as [i' [[s' c'] g']]. unfold owner_key; simpl.
  intros H. by injection H as -> -> -> ->.
Qed.
#[export] Instance owner_le_order : TotalOrder owner_le.
Proof.
  unfold owner_le. split; [split; [split|]|].
  - intros ?. apply lex_leb_refl.
  - intros ???. apply lex_leb_trans.
  - intros a b Ha Hb. apply owner_key_inj. by apply lex_leb_antisym.
  - intros a b. unfold strict. destruct (decide (a = b)) as [|Hne]; [by right; left|].
    destruct (lex_leb_total (owner_key a) (owner_key b)) as [H|H];
      [left|right; right]; split; try done; intros H';
      apply Hne, owner_key_inj; by apply lex_leb_antisym.
Qed.

Lemma merge_sort_eq {A} (R : A -> A -> Prop) `{!TotalOrder R, !RelDecision R} (l k : list A) :
  merge_sort R l = merge_sort R k <-> l ≡ₚ k.
Proof.
  split.
  - intros H. rewrite <- (merge_sort_Permutation R l), <- (merge_sort_Permutation R k). by rewrite H.
  - intros H. apply (StronglySorted_unique R); [apply (StronglySorted_merge_sort R)..|].
    by rewrite !merge_sort_Permutation.
Qed.

(** ** Identities *)

Lemma ranks_from_Ok ps high limit : forall rank previous,
  ranks_from rank previous ps high limit = Ok tt <->
  StronglySorted Z.lt (map fp_participant_index ps)
  /\ Forall (fun p => match previous with Some q => q < fp_participant_index p | None => True end) ps
  /\ Forall (fun p => fp_participant_index p < limit /\ fp_cursor p <= high) ps.
Proof.
  induction ps as [|p ps IH]; intros rank previous; simpl.
  - split; [|done]. intros _. split_and!; constructor.
  - destruct (_ || _ || _) eqn:E.
    + split; [done|]. intros (_ & Hp & Hb). exfalso. inversion Hp; inversion Hb; subst.
      apply orb_true_iff in E as [E|E]; [apply orb_true_iff in E as [E|E]|]; try destruct previous;
        breflect; simpl in *; try done; lia.
    + apply orb_false_elim in E as [E E3]. apply orb_false_elim in E as [E1 E2].
      rewrite IH. breflect. split.
      * intros (Hs & Hp & Hb). split_and!.
        -- constructor; [done|]. by apply Forall_map.
        -- constructor; [destruct previous; [breflect; lia|done]|].
           destruct previous as [q|]; [|by apply Forall_true]. breflect.
           eapply Forall_impl; [exact Hp|]. simpl. intros. lia.
        -- constructor; [lia|done].
      * intros (Hs & Hp & Hb). inversion Hs; subst. inversion Hb; subst. split_and!; try done.
        by apply Forall_map.
Qed.

Lemma try_new_Ok ps high limit a :
  ActiveIdentityRanks_try_new ps high limit = Ok a <->
  a = mkActiveIdentityRanks ps /\ ranks_ok high limit ps.
Proof.
  unfold ActiveIdentityRanks_try_new, ranks_ok.
  destruct (Z.ltb_spec limit (zlen ps)); [split; [done|]; intros (_ & ? & _); lia|].
  pose proof (ranks_from_Ok ps high limit 0 None) as H1.
  destruct (ranks_from _ _ _ _ _) as [[]|e]; simpl.
  - destruct (proj1 H1 eq_refl) as (Hs & _ & Hb). split; [by intros [= <-]|by intros [-> _]].
  - split; [done|]. intros (_ & _ & Hs & Hb). exfalso.
    enough (Err e = Ok tt) by done. apply H1. split_and!; try done. by apply Forall_true.
Qed.

Lemma ranks_ok_mono high high' limit ps : high <= high' -> ranks_ok high limit ps ->
  ranks_ok high' limit ps.
Proof.
  intros Hh (Hl & Hs & Hb). split_and!; try done. eapply Forall_impl; [exact Hb|]. simpl. lia.
Qed.

Lemma ranks_NoDup high limit ps : ranks_ok high limit ps -> NoDup (map fp_participant_index ps).
Proof.
  intros (_ & Hs & _). induction Hs as [|x l _ IH Hx]; constructor; [|done].
  intros Hin. apply (proj1 (Forall_forall _ _) Hx) in Hin. lia.
Qed.

(** ** The cross check *)

Lemma first_unknown_key_Ok keys s cs :
  first_unknown_key keys s cs = Ok tt <-> forall c, c ∈ cs -> isc_admission_order c ∈ keys.
Proof.
  induction cs as [|c cs IH]; simpl; [split; [intros _ c H; by apply not_elem_of_nil in H|done]|].
  case_bool_decide as E; simpl; [rewrite IH|split; [done|]; intros H; exfalso; apply E, H; left].
  split; [intros H c' Hc|intros H c' Hc; apply H; by right].
  apply elem_of_cons in Hc as [->|Hc]; [done|by apply H].
Qed.
Lemma first_unknown_group_Ok s o gs :
  first_unknown_group s o gs = Ok tt <->
  forall g key, g ∈ gs -> key ∈ icm_candidate_keys g ->
    key ∈ map isc_admission_order (scf_immutable_candidates s).
Proof.
  induction gs as [|g gs IH]; simpl.
  { split; [intros _ g key H; by apply not_elem_of_nil in H|done]. }
  destruct (forallb _ _) eqn:E; simpl.
  - rewrite IH. rewrite forallb_forall in E. split.
    + intros H g' key Hg Hk. apply elem_of_cons in Hg as [->|Hg]; [|by eapply H].
      specialize (E key (proj1 (list_elem_of_In _ _) Hk)). by apply bool_decide_eq_true in E.
    + intros H g' key Hg. apply H. by right.
  - split; [done|]. intros H. exfalso. apply not_true_iff_false in E. apply E, forallb_forall.
    intros key Hk. apply bool_decide_eq_true. apply (H g); [left|by apply list_elem_of_In].
Qed.
Lemma group_keys_elem o key :
  key ∈ group_keys o <-> exists g, g ∈ ocf_immutable_candidates o /\ key ∈ icm_candidate_keys g.
Proof.
  unfold group_keys. induction (ocf_immutable_candidates o) as [|g gs IH]; simpl.
  - split; [intros H; by apply not_elem_of_nil in H|].
    intros (? & H & _). by apply not_elem_of_nil in H.
  - rewrite elem_of_app, IH. split.
    + intros [H|(g' & Hg & Hk)]; [exists g; split; [left|done]|exists g'; split; [by right|done]].
    + intros (g' & Hg & Hk). apply elem_of_cons in Hg as [->|Hg]; [by left|right; eauto].
Qed.

Lemma cross_counter_tail s o (r : result unit ClaimFrontierError) (P : Prop) : (r = Ok tt <-> P) ->
  (let? _ := r in
   let? _ := first_unknown_key (group_keys o) s (scf_immutable_candidates s) in
   let? _ := first_unknown_group s o (ocf_immutable_candidates o) in
   if negb (bool_decide (merge_sort owner_le (claimed_terminals s)
                         = merge_sort owner_le (order_claimed_terminals o)))
   then Err (sequence_error (sl_required_reserve (scf_ledger s)) CFI_LogicalOwner)
   else Ok tt) = Ok tt <->
  claimed_terminals s ≡ₚ order_claimed_terminals o /\ P
  /\ (forall key, key ∈ group_keys o <-> key ∈ map isc_admission_order (scf_immutable_candidates s)).
Proof.
  intros Hr. destruct r as [[]|e]; [|split; [done|]; intros (_ & HP & _); by apply Hr].
  pose proof (first_unknown_key_Ok (group_keys o) s (scf_immutable_candidates s)) as H1.
  destruct (first_unknown_key _ _ _) as [[]|e]; simpl.
  2:{ split; [done|]. intros (_ & _ & Hk). apply H1. intros c Hc. apply Hk.
      by apply list_elem_of_fmap_2. }
  pose proof (first_unknown_group_Ok s o (ocf_immutable_candidates o)) as H2.
  destruct (first_unknown_group _ _ _) as [[]|e]; simpl.
  2:{ split; [done|]. intros (_ & _ & Hk). apply H2. intros g key Hg Hkey. apply Hk.
      apply group_keys_elem. eauto. }
  rewrite <- (merge_sort_eq owner_le). case_bool_decide as E; simpl.
  - split; [intros _|done]. split_and!; [done|by apply Hr|]. intros key. split.
    + intros Hk. apply group_keys_elem in Hk as (g & Hg & Hk). by apply (proj1 H2 eq_refl g key).
    + intros Hk. apply list_elem_of_fmap in Hk as (c & -> & Hc). by apply (proj1 H1 eq_refl).
  - split; [done|]. by intros (? & _).
Qed.

Lemma cross_counter_Ok s o : validate_cross_counter s o = Ok tt <-> counters_agree s o.
Proof.
  apply cross_counter_tail.
  destruct (scf_recovery s), (ocf_recovery o); try done. by destruct (recovery_blocks_match _ _).
Qed.

(** ** Laying out *)

(** [items] from [cursor] on, each [len] positions long. *)
Fixpoint laid {A B} (make : Z -> A -> B) (len cursor : Z) (items : list A) : list B :=
  match items with
  | [] => []
  | item :: items => make cursor item :: laid make len (cursor + len) items
  end.

Lemma zlen_nonneg {A} (l : list A) : 0 <= zlen l.
Proof. unfold zlen. lia. Qed.
Lemma zlen_cons {A} (a : A) l : zlen (a :: l) = 1 + zlen l.
Proof. unfold zlen. simpl. lia. Qed.
Lemma zlen_app {A} (l k : list A) : zlen (l ++ k) = zlen l + zlen k.
Proof. unfold zlen. rewrite length_app. lia. Qed.
Lemma zlen_map {A B} (f : A -> B) l : zlen (map f l) = zlen l.
Proof. unfold zlen. by rewrite length_map. Qed.
Lemma zlen_perm {A} (l k : list A) : l ≡ₚ k -> zlen l = zlen k.
Proof. intros H. unfold zlen. by rewrite H. Qed.

Lemma lay_sequence_exact {A B} (make : Z -> A -> B) len items : 0 <= len -> forall cursor,
  cursor <= u64_max ->
  lay_sequence make len cursor items =
    if cursor + len * zlen items <=? u64_max
    then Ok (laid make len cursor items, cursor + len * zlen items) else Err LFE_Exhausted.
Proof.
  intros Hlen. induction items as [|a items IH]; intros cursor Hc; simpl.
  - replace (cursor + len * zlen []) with cursor by (unfold zlen; simpl; lia).
    by rewrite (proj2 (Z.leb_le _ _)) by done.
  - rewrite zlen_cons. pose proof (zlen_nonneg items).
    assert (0 <= len * zlen items) by (by apply Z.mul_nonneg_nonneg).
    unfold take_live_sequence, checked_add.
    destruct (Z.leb_spec (cursor + len) u64_max); simpl.
    + rewrite IH by done.
      replace (cursor + len + len * zlen items) with (cursor + len * (1 + zlen items)) by lia.
      by destruct (Z.leb_spec (cursor + len * (1 + zlen items)) u64_max).
    + by rewrite (proj2 (Z.leb_gt _ _)) by lia.
Qed.
Lemma lay_order_exact {A B} (make : Z -> A -> B) items cursor : cursor <= u64_max ->
  lay_order make cursor items =
    if cursor + zlen items <=? u64_max
    then Ok (laid make 1 cursor items, cursor + zlen items) else Err LFE_Exhausted.
Proof.
  intros Hc. rewrite <- (Z.mul_1_l (zlen items)), <- (lay_sequence_exact make 1) by done.
  clear Hc. revert cursor. induction items as [|a items IH]; intros cursor; simpl; [done|].
  unfold take_live_order, take_live_sequence.
  destruct (ok_or _ _); simpl; [by rewrite IH|done].
Qed.

Lemma laid_map {A B C} (make : Z -> A -> B) (g : B -> C) (h : A -> C) len items : forall cursor,
  (forall c a, g (make c a) = h a) -> map g (laid make len cursor items) = map h items.
Proof. induction items as [|a items IH]; intros cursor H; simpl; [done|]. by rewrite H, IH. Qed.
Lemma laid_omap {A B C} (make : Z -> A -> B) (g : B -> option C) (h : A -> option C) len items :
  (forall c a, g (make c a) = h a) -> forall cursor,
  omap g (laid make len cursor items) = omap h items.
Proof. intros H. induction items as [|a items IH]; intros cursor; simpl; [done|]. by rewrite H, IH. Qed.
Lemma laid_Forall {A B} (make : Z -> A -> B) (P : B -> Prop) len items :
  (forall c a, P (make c a)) -> forall cursor, Forall P (laid make len cursor items).
Proof. intros H. induction items as [|a items IH]; intros cursor; simpl; by constructor. Qed.
Lemma laid_within {A B} (make : Z -> A -> B) (start : B -> Z) len items : 0 <= len ->
  (forall c a, start (make c a) = c) -> forall cursor,
  Forall (fun b => cursor <= start b <= cursor + len * zlen items) (laid make len cursor items).
Proof.
  intros Hlen H. induction items as [|a items IH]; intros cursor; simpl; constructor.
  - rewrite H, zlen_cons. pose proof (zlen_nonneg items). nia.
  - eapply Forall_impl; [apply IH|]. simpl. intros b. rewrite zlen_cons.
    pose proof (zlen_nonneg items). nia.
Qed.

Lemma seqZ_split a m n : 0 <= m -> 0 <= n -> seqZ a (m + n) = seqZ a m ++ seqZ (a + m) n.
Proof. intros. by rewrite seqZ_app by lia. Qed.
Lemma laid_positions {A B} (make : Z -> A -> B) (start : B -> Z) len items : 0 <= len ->
  (forall c a, start (make c a) = c) -> forall cursor,
  concat (map (fun b => seqZ (start b) len) (laid make len cursor items))
  = seqZ cursor (len * zlen items).
Proof.
  intros Hlen H. induction items as [|a items IH]; intros cursor; simpl.
  - unfold zlen; simpl. by rewrite Z.mul_0_r.
  - rewrite IH, H, zlen_cons, <- seqZ_split; [f_equal; lia|done|].
    pose proof (zlen_nonneg items). nia.
Qed.
Lemma laid_starts {A B} (make : Z -> A -> B) (start : B -> Z) items :
  (forall c a, start (make c a) = c) -> forall cursor,
  map start (laid make 1 cursor items) = seqZ cursor (zlen items).
Proof.
  intros H. induction items as [|a items IH]; intros cursor; simpl; [done|].
  rewrite IH, H, zlen_cons. pose proof (zlen_nonneg items). rewrite seqZ_split by lia.
  by rewrite (seqZ_cons cursor 1).
Qed.

(** *** The sequence lane *)

Definition others (a : ActiveIdentityRanks) : Z := Z.max 0 (air_len a - 1).
Definition laid_total (a : ActiveIdentityRanks) (movable products : list BindingTerminalOwner) : Z :=
  zlen movable + air_len a + air_len a * zlen products + others a * air_len a.
Definition laid_sequence (cursor : Z) (a : ActiveIdentityRanks)
    (movable products : list BindingTerminalOwner) (candidates : list ImmutableSequenceCandidate)
    (ledger : SequenceLedger) : SequenceClaimFrontier :=
  let exits := cursor + zlen movable in
  let ranges := exits + air_len a in
  mkSequenceClaimFrontier ledger
    (laid terminal_claim 1 cursor movable ++ laid exit_claim 1 exits (air_participants a))
    candidates
    (mkSequenceProductRanges (laid (terminal_range (air_len a)) (air_len a) ranges products) None
       (laid (exit_range (others a)) (others a) (ranges + air_len a * zlen products)
          (air_participants a)))
    None.

Lemma lay_sequence_owners_exact cursor a movable products candidates l :
  0 <= cursor <= u64_max -> sl_ok l ->
  lay_sequence_owners cursor a movable products candidates l =
    if cursor + laid_total a movable products <=? u64_max then
      if cursor + laid_total a movable products
         =? sl_high_watermark l + sl_required_reserve l + 1
      then Ok (laid_sequence cursor a movable products candidates l)
      else Err LFE_ResultingFrontier
    else Err LFE_Exhausted.
Proof.
  intros [_ Hc] (Hh & _ & Hr & Hfit). unfold lay_sequence_owners, laid_total, others.
  change (saturating_sub (air_len a) 1) with (Z.max 0 (air_len a - 1)).
  pose proof (zlen_nonneg movable). pose proof (zlen_nonneg products).
  assert (0 <= air_len a) by apply zlen_nonneg.
  assert (0 <= air_len a * zlen products) by nia.
  assert (0 <= Z.max 0 (air_len a - 1) * air_len a) by nia.
  rewrite lay_sequence_exact, Z.mul_1_l by lia.
  destruct (Z.leb_spec (cursor + zlen movable) u64_max); simpl;
    [|by rewrite (proj2 (Z.leb_gt _ _)) by lia].
  rewrite lay_sequence_exact, Z.mul_1_l by lia. fold (air_len a).
  destruct (Z.leb_spec (cursor + zlen movable + air_len a) u64_max); simpl;
    [|by rewrite (proj2 (Z.leb_gt _ _)) by lia].
  rewrite lay_sequence_exact by lia.
  destruct (Z.leb_spec (cursor + zlen movable + air_len a + air_len a * zlen products) u64_max);
    simpl; [|by rewrite (proj2 (Z.leb_gt _ _)) by lia].
  rewrite lay_sequence_exact by lia. fold (air_len a). rewrite !Z.add_assoc.
  destruct (Z.leb_spec (cursor + zlen movable + air_len a + air_len a * zlen products
    + Z.max 0 (air_len a - 1) * air_len a) u64_max); simpl; [|done].
  rewrite checked_add_exact by mlia. simpl. rewrite checked_add_exact by mlia. simpl.
  by destruct (_ =? _).
Qed.

Lemma seq_terminals_app l k :
  sequence_terminal_owners (l ++ k) = sequence_terminal_owners l ++ sequence_terminal_owners k.
Proof. apply omap_app. Qed.
Lemma laid_terminal_owners c l : sequence_terminal_owners (laid terminal_claim 1 c l) = l.
Proof. unfold sequence_terminal_owners. rewrite (laid_omap _ _ Some) by done.
  induction l; simpl; [done|]. by f_equal. Qed.
Lemma laid_exit_terminals c l : sequence_terminal_owners (laid exit_claim 1 c l) = [].
Proof. unfold sequence_terminal_owners. rewrite (laid_omap _ _ (fun _ => None)) by done.
  by induction l. Qed.

Lemma laid_claimed cursor a movable products candidates l :
  claimed_terminals (laid_sequence cursor a movable products candidates l) = movable.
Proof.
  unfold claimed_terminals; simpl. rewrite seq_terminals_app, laid_terminal_owners, laid_exit_terminals.
  by rewrite !app_nil_r.
Qed.
Lemma laid_exits cursor a movable products candidates l :
  exit_owners (laid_sequence cursor a movable products candidates l) = indices a.
Proof.
  unfold exit_owners; simpl. rewrite omap_app. rewrite (laid_omap terminal_claim _ (fun _ => None)) by done.
  rewrite (laid_omap exit_claim _ (fun p => Some (fp_participant_index p))) by done.
  unfold indices. replace (omap _ movable) with (@nil ParticipantId) by (by induction movable).
  simpl. induction (air_participants a); simpl; [done|]. by f_equal.
Qed.
Lemma laid_movable cursor a movable products candidates l :
  movable_positions (laid_sequence cursor a movable products candidates l)
  = seqZ cursor (laid_total a movable products).
Proof.
  unfold movable_positions, replacement_positions, block_positions; simpl.
  assert (0 <= air_len a) as Hl by apply zlen_nonneg. assert (0 <= others a) as Ho by (unfold others; lia).
  pose proof (zlen_nonneg movable). pose proof (zlen_nonneg products).
  rewrite map_app, !laid_starts by done. rewrite app_nil_r.
  rewrite (map_ext_in _ (fun r => seqZ (tpr_start r) (air_len a))).
  2:{ intros r Hr. f_equal. apply list_elem_of_In in Hr. revert r Hr. apply Forall_forall.
      by apply laid_Forall. }
  rewrite (map_ext_in (fun r => seqZ (epr_start r) (epr_length r))
    (fun r => seqZ (epr_start r) (others a))).
  2:{ intros r Hr. f_equal. apply list_elem_of_In in Hr. revert r Hr. apply Forall_forall.
      by apply laid_Forall. }
  rewrite !laid_positions by done. fold (air_len a).
  unfold laid_total. rewrite (seqZ_split cursor (_ + _ + _)), (seqZ_split cursor (_ + _)),
    (seqZ_split cursor) by nia.
  rewrite <- !(assoc_L (++)), !Z.add_assoc. done.
Qed.

Lemma terminals_of_cons d o w cs :
  terminals_of (ISC_BindingTerminal d o w :: cs) = w :: terminals_of cs.
Proof. done. Qed.
Lemma markers_of_cons m cs : markers_of (ISC_Marker m :: cs) = m :: markers_of cs.
Proof. done. Qed.
Lemma terminals_of_marker m cs : terminals_of (ISC_Marker m :: cs) = terminals_of cs.
Proof. done. Qed.
Lemma markers_of_terminal d o w cs : markers_of (ISC_BindingTerminal d o w :: cs) = markers_of cs.
Proof. done. Qed.
Lemma candidates_split cs : zlen (terminals_of cs) + zlen (markers_of cs) = zlen cs.
Proof.
  induction cs as [|[d o w|m] cs IH]; [done|..]; rewrite zlen_cons.
  - rewrite terminals_of_cons, markers_of_terminal, zlen_cons. lia.
  - rewrite terminals_of_marker, markers_of_cons, zlen_cons. lia.
Qed.

(** A lane whose candidates are terminals, laid out behind them. *)
Section LaidSequence.
Context (a : ActiveIdentityRanks) (products : list BindingTerminalOwner)
  (candidates : list ImmutableSequenceCandidate) (l : SequenceLedger).
Hypothesis Hl : sl_ok l.
Hypothesis Hlive : sc_live_members (sl_claims l) = air_len a.
Hypothesis Hterminals : sc_binding_terminals (sl_claims l) = zlen products.
Hypothesis Hmarkers : sc_markers (sl_claims l) = 0.
Hypothesis Hrecovery : sc_recovery (sl_claims l) = RSR_None.
Hypothesis Hcandidates : zlen (terminals_of candidates) = zlen candidates.
Hypothesis Hat : map isc_delivery_seq candidates
                 = seqZ (sl_high_watermark l + 1) (zlen candidates).
Hypothesis Hproducts : products ≡ₚ bound_owners a ++ terminals_of candidates.
Hypothesis Hnodup : NoDup (bound_owners a ++ terminals_of candidates).
Hypothesis Hepochs : forall owner, owner ∈ terminals_of candidates -> owner ∈ epoch_owners a.

Lemma no_markers_left : markers_of candidates = [].
Proof using Hcandidates.
  pose proof (candidates_split candidates) as H. destruct (markers_of candidates) as [|m ms]; [done|].
  rewrite zlen_cons in H. pose proof (zlen_nonneg ms). lia.
Qed.

Lemma laid_end : sl_high_watermark l + 1 + zlen candidates + laid_total a (bound_owners a) products
  = sl_high_watermark l + sl_required_reserve l + 1.
Proof using Hl Hlive Hterminals Hmarkers Hrecovery Hcandidates Hproducts.
  destruct Hl as (_ & _ & -> & _). unfold reserve, laid_total, rsr. rewrite Hrecovery, Hmarkers.
  fold (others a). rewrite Hlive, Hterminals. fold (others a).
  rewrite (zlen_perm _ _ Hproducts), zlen_app. lia.
Qed.

Lemma laid_sequence_ok :
  sequence_ok a (laid_sequence (sl_high_watermark l + 1 + zlen candidates) a (bound_owners a)
                   products candidates l).
Proof using All.
  pose proof laid_end as Hend. pose proof no_markers_left as Hm.
  pose proof (zlen_nonneg candidates).
  unfold sequence_ok. set (s := laid_sequence _ _ _ _ _ _).
  assert (all_terminals s = bound_owners a ++ terminals_of candidates) as Hall.
  { unfold all_terminals, s. by rewrite laid_claimed. }
  split; [done|]. split_and!.
  - unfold sequence_counts. rewrite Hall. split_and!; try done.
    + simpl. rewrite Hterminals. by apply zlen_perm.
    + unfold marker_candidates; simpl. by rewrite Hmarkers, Hm.
    + simpl. unfold rsr. by rewrite Hrecovery.
  - unfold s. by rewrite laid_exits.
  - unfold terminals_ok. rewrite Hall. unfold s. rewrite laid_claimed.
    split_and!; try done. intros owner Ho. apply elem_of_app. by left.
  - unfold products_ok. rewrite Hall. simpl. rewrite (laid_map _ _ id) by done. rewrite map_id.
    split_and!; try done; [by apply laid_Forall..|].
    rewrite (laid_map _ _ fp_participant_index) by done. done.
  - unfold marker_candidates; simpl. by rewrite Hm.
  - unfold sequence_positions; simpl. unfold s. rewrite laid_movable. split_and!; [done| | |done].
    + f_equiv. lia.
    + eapply Forall_impl; [apply (laid_within _ epr_start); [unfold others; lia|done]|].
      simpl. intros r. fold (air_len a). unfold laid_total in *. destruct Hl as (Hh & _).
      pose proof (zlen_nonneg (bound_owners a)). pose proof (zlen_nonneg products).
      assert (0 <= air_len a) by apply zlen_nonneg.
      assert (0 <= air_len a * zlen products) by nia. mlia.
Qed.
End LaidSequence.

(** *** The order lane *)

Definition laid_order (a : ActiveIdentityRanks) (terminals : list BindingTerminalOwner)
    (candidates : list ImmutableOrderCandidateMajor) (l : OrderLedger) : OrderClaimFrontier :=
  let first := next_major (ol_high l) in
  mkOrderClaimFrontier l
    (laid order_terminal_claim 1 first terminals
     ++ laid order_exit_claim 1 (first + zlen terminals) (air_participants a)) candidates None.

Lemma order_frontier_start_exact h : high_ok h -> order_frontier_start h = next_major h.
Proof. destruct h; simpl; intros; [done|]. apply add_u128_exact. mlia. Qed.

Lemma lay_order_owners_exact a terminals candidates l : ledger_ok l ->
  lay_order_owners a terminals candidates l =
    if next_major (ol_high l) + zlen terminals + air_len a <=? u64_max then
      if zlen terminals + air_len a =? claims_total (ol_claims l)
      then Ok (laid_order a terminals candidates l) else Err LFE_ResultingFrontier
    else Err LFE_Exhausted.
Proof.
  intros (Hh & Hc & Hfit). unfold lay_order_owners. rewrite order_frontier_start_exact by done.
  pose proof (zlen_nonneg terminals). assert (0 <= air_len a) by apply zlen_nonneg.
  pose proof (claims_total_nonneg _ Hc).
  destruct (Z.ltb_spec u64_max (next_major (ol_high l))).
  { by rewrite (proj2 (Z.leb_gt _ _)) by lia. }
  rewrite lay_order_exact by lia.
  destruct (Z.leb_spec (next_major (ol_high l) + zlen terminals) u64_max); simpl;
    [|by rewrite (proj2 (Z.leb_gt _ _)) by lia].
  rewrite lay_order_exact by lia. fold (air_len a).
  destruct (Z.leb_spec (next_major (ol_high l) + zlen terminals + air_len a) u64_max); simpl; [|done].
  assert (0 <= next_major (ol_high l)) by (destruct (ol_high l); simpl in *; mlia).
  rewrite oc_total_exact, add_u128_exact by (try done; mlia).
  destruct (Z.eqb_spec (next_major (ol_high l) + zlen terminals + air_len a)
    (next_major (ol_high l) + claims_total (ol_claims l))), (Z.eqb_spec (zlen terminals + air_len a)
    (claims_total (ol_claims l))); try lia; done.
Qed.

Lemma laid_order_claimed a terminals candidates l :
  order_claimed_terminals (laid_order a terminals candidates l) = terminals.
Proof.
  unfold order_claimed_terminals, order_terminal_owners; simpl. rewrite app_nil_r, omap_app.
  rewrite (laid_omap order_terminal_claim _ Some), (laid_omap order_exit_claim _ (fun _ => None)) by done.
  replace (omap (fun _ => None) (air_participants a)) with (@nil BindingTerminalOwner)
    by (by induction (air_participants a)).
  rewrite app_nil_r. induction terminals; simpl; [done|]. by f_equal.
Qed.
Lemma laid_order_exits a terminals candidates l :
  order_exit_owners (laid_order a terminals candidates l) = indices a.
Proof.
  unfold order_exit_owners; simpl. rewrite omap_app.
  rewrite (laid_omap order_terminal_claim _ (fun _ => None)),
    (laid_omap order_exit_claim _ (fun p => Some (fp_participant_index p))) by done.
  replace (omap (fun _ => None) terminals) with (@nil ParticipantId) by (by induction terminals).
  unfold indices. simpl. induction (air_participants a); simpl; [done|]. by f_equal.
Qed.
Lemma laid_order_movable a terminals candidates l :
  movable_orders (laid_order a terminals candidates l)
  = seqZ (next_major (ol_high l)) (zlen terminals + air_len a).
Proof.
  unfold movable_orders; simpl. rewrite app_nil_r, map_app, !laid_starts by done.
  rewrite seqZ_split by apply zlen_nonneg. done.
Qed.

Lemma laid_order_ok a candidates l : ledger_ok l ->
  oc_active_binding_terminals (ol_claims l) = zlen (bound_owners a) ->
  oc_membership_exits (ol_claims l) = air_len a -> oc_recovery_operation (ol_claims l) = false ->
  Forall (fun g => order_is_above_high (icm_transaction_order g) (ol_high l) = false) candidates ->
  order_ok a (laid_order a (bound_owners a) candidates l).
Proof.
  intros Hl Ha Hx Hr Habove. pose proof Hl as (Hh & (_ & _ & Hpair) & Hfit).
  assert (majors_above (laid_order a (bound_owners a) candidates l) = []) as Hm.
  { unfold majors_above; simpl. induction Habove as [|g gs Hg _ IH]; simpl; [done|]. by rewrite Hg. }
  assert (claims_total (ol_claims l) = zlen (bound_owners a) + air_len a) as Ht.
  { unfold claims_total. rewrite <- Hpair, Hr, Ha, Hx. simpl. lia. }
  unfold order_ok. split; [done|]. split_and!.
  - unfold order_counts. rewrite laid_order_claimed. split_and!; done.
  - by rewrite laid_order_exits.
  - unfold order_positions. rewrite Hm. simpl. rewrite laid_order_movable, Z.add_0_r, Ht.
    split_and!; try done. rewrite Ht in Hfit. lia.
Qed.

Lemma bound_owners_sub a owner : owner ∈ bound_owners a -> owner ∈ epoch_owners a.
Proof.
  unfold bound_owners, epoch_owners. intros H. apply list_elem_of_omap in H as (p & Hp & E).
  apply list_elem_of_fmap. exists p. split; [|done]. unfold epoch_owner.
  by destruct (fp_binding p); simplify_eq/=.
Qed.
Lemma bound_owners_elem a owner : owner ∈ bound_owners a <->
  exists p, p ∈ air_participants a /\ fp_participant_index p = bto_participant_index owner
            /\ fp_binding p = FB_Bound (bto_binding_epoch owner).
Proof.
  unfold bound_owners. rewrite list_elem_of_omap. split.
  - intros (p & Hp & E). exists p. destruct (fp_binding p) eqn:Eb; simplify_eq/=. done.
  - intros (p & Hp & Hi & Hb). exists p. split; [done|]. rewrite Hb, Hi. by destruct owner.
Qed.
Lemma bound_owners_NoDup a : NoDup (indices a) -> NoDup (bound_owners a).
Proof.
  unfold bound_owners, indices. induction (air_participants a) as [|p ps IH]; simpl; [constructor|].
  intros H. apply NoDup_cons in H as [Hp Hps]. destruct (fp_binding p); [|by apply IH].
  apply NoDup_cons; split; [|by apply IH]. intros Hin.
  apply list_elem_of_omap in Hin as (q & Hq & E). destruct (fp_binding q); simplify_eq/=.
  apply Hp. apply list_elem_of_fmap. exists q. split; [congruence|done].
Qed.

(** *** Rebuilding both lanes *)

Lemma unreserved_ledgers_spec live terminals bound ls lo :
  unreserved_ledgers live terminals bound ls lo = true <->
  sc_live_members (sl_claims ls) = live /\ sc_binding_terminals (sl_claims ls) = terminals
  /\ sc_markers (sl_claims ls) = 0 /\ sc_recovery (sl_claims ls) = RSR_None
  /\ oc_active_binding_terminals (ol_claims lo) = bound /\ oc_membership_exits (ol_claims lo) = live
  /\ oc_recovery_operation (ol_claims lo) = false
  /\ oc_recovery_replacement_terminal (ol_claims lo) = false.
Proof.
  unfold unreserved_ledgers.
  rewrite !andb_true_iff, !Z.eqb_eq, bool_decide_eq_true, !negb_true_iff. tauto.
Qed.

(** Both lanes end before the last number of their counters: what the rebuild needs, one
    less than what the ledgers allow. *)
Definition rebuild_fits (ls : SequenceLedger) (lo : OrderLedger) : bool :=
  (sl_high_watermark ls + sl_required_reserve ls <? u64_max)
  && (next_major (ol_high lo) + claims_total (ol_claims lo) <=? u64_max).

Lemma rebuild_unreserved_exact a ls lo : sl_ok ls -> ledger_ok lo ->
  rebuild_unreserved_frontiers a ls lo =
    if unreserved_ledgers (air_len a) (zlen (bound_owners a)) (zlen (bound_owners a)) ls lo then
      if rebuild_fits ls lo
      then Ok (laid_sequence (sl_high_watermark ls + 1) a (bound_owners a) (bound_owners a) [] ls,
               laid_order a (bound_owners a) [] lo)
      else Err LFE_Exhausted
    else Err LFE_ResultingFrontier.
Proof.
  intros Hls Hlo. unfold rebuild_unreserved_frontiers, rebuild_fits.
  destruct (unreserved_ledgers _ _ _ _ _) eqn:E; simpl; [|done].
  apply unreserved_ledgers_spec in E as (H1 & H2 & H3 & H4 & H5 & H6 & H7 & H8).
  pose proof (laid_end a (bound_owners a) [] ls Hls H1 H2 H3 H4 eq_refl) as Hend.
  rewrite app_nil_r in Hend. specialize (Hend (Permutation_refl _)).
  change (zlen (@nil ImmutableSequenceCandidate)) with 0 in Hend. rewrite Z.add_0_r in Hend. pose proof Hls as (Hh & _).
  assert (0 <= laid_total a (bound_owners a) (bound_owners a)) as Hnn.
  { unfold laid_total, others. pose proof (zlen_nonneg (bound_owners a)).
    assert (0 <= air_len a) by apply zlen_nonneg. nia. }
  unfold rebuild_unreserved_sequence.
  destruct (Z.ltb_spec (sl_high_watermark ls + sl_required_reserve ls) u64_max) as [Hfit|Hfit]; simpl.
  - rewrite checked_add_exact by lia. simpl.
    rewrite lay_sequence_owners_exact by (try done; mlia).
    rewrite (proj2 (Z.leb_le _ _)), (proj2 (Z.eqb_eq _ _)) by lia. simpl.
    unfold rebuild_unreserved_order. rewrite lay_order_owners_exact by done.
    assert (claims_total (ol_claims lo) = zlen (bound_owners a) + air_len a) as ->
      by (unfold claims_total; rewrite H5, H6, H7, H8; simpl; lia).
    rewrite Z.eqb_refl, !Z.add_assoc. destruct (_ <=? u64_max); simpl; [|done].
    unfold cross_checked. rewrite (proj2 (cross_counter_Ok _ _)); [done|].
    unfold counters_agree. rewrite laid_claimed, laid_order_claimed. split_and!; done.
  - unfold checked_add. destruct (Z.leb_spec (sl_high_watermark ls + 1) u64_max); simpl; [|done].
    rewrite lay_sequence_owners_exact by (try done; mlia).
    by rewrite (proj2 (Z.leb_gt _ _)) by lia.
Qed.

Definition lanes_ok (a : ActiveIdentityRanks) (s : SequenceClaimFrontier) (o : OrderClaimFrontier)
    : Prop := sequence_ok a s /\ order_ok a o /\ counters_agree s o /\ keys_ok s o.

Lemma rebuild_unreserved_ok a ls lo s o : sl_ok ls -> ledger_ok lo -> NoDup (indices a) ->
  rebuild_unreserved_frontiers a ls lo = Ok (s, o) ->
  lanes_ok a s o /\ scf_ledger s = ls /\ ocf_ledger o = lo /\ scf_immutable_candidates s = []
  /\ scf_recovery s = None.
Proof.
  intros Hls Hlo Hnd. rewrite rebuild_unreserved_exact by done.
  destruct (unreserved_ledgers _ _ _ _ _) eqn:E; [|done]. destruct (rebuild_fits ls lo); [|done].
  apply unreserved_ledgers_spec in E as (H1 & H2 & H3 & H4 & H5 & H6 & H7 & H8).
  intros [= <- <-]. split_and!; try done. unfold lanes_ok.
  assert (NoDup (bound_owners a ++ [])) as Hb by (rewrite app_nil_r; by apply bound_owners_NoDup).
  pose proof (laid_sequence_ok a (bound_owners a) [] ls Hls H1 H2 H3 H4 eq_refl eq_refl) as Hs.
  change (zlen (@nil ImmutableSequenceCandidate)) with 0 in Hs. rewrite Z.add_0_r in Hs.
  split_and!.
  - apply Hs; [by rewrite app_nil_r|done|]. intros owner Ho. by apply not_elem_of_nil in Ho.
  - by apply laid_order_ok.
  - unfold counters_agree. rewrite laid_claimed, laid_order_claimed. split_and!; done.
  - unfold keys_ok. split_and!; constructor.
Qed.

Lemma sort_by_key_perm {A} (key : A -> Z) l : sort_by_key key l ≡ₚ l.
Proof. apply merge_sort_Permutation. Qed.
Lemma sort_by_key_sorted {A} (key : A -> Z) l : StronglySorted (key_order key) (sort_by_key key l).
Proof. apply StronglySorted_merge_sort; [intros ? ? ?|intros ? ?]; unfold key_order; lia. Qed.

(** What has to hold for a pending terminal to be laid out. *)
Definition pending_placed (pending : BindingTerminalOwner) (d : DeliverySeq) (k : AdmissionOrder)
    (ls : SequenceLedger) (lo : OrderLedger) : Prop :=
  ao_candidate_phase k = CP_BindingTerminal
  /\ ao_participant_index k = bto_participant_index pending
  /\ ol_high lo = OH_Allocated (ao_transaction_order k)
  /\ d = sl_high_watermark ls + 1 /\ sl_high_watermark ls < u64_max.

Lemma pending_placed_spec pending d k ls lo :
  negb (bool_decide (ao_candidate_phase k = CP_BindingTerminal))
  || negb (ao_participant_index k =? bto_participant_index pending)
  || match ol_high lo with
     | OH_Allocated high => negb (ao_transaction_order k =? high)
     | OH_Empty => true
     end
  || negb (bool_decide (checked_add u64_max (sl_high_watermark ls) 1 = Some d)) = false <->
  pending_placed pending d k ls lo.
Proof.
  unfold pending_placed. rewrite !orb_false_iff, !negb_false_iff, !bool_decide_eq_true, Z.eqb_eq.
  rewrite checked_add_Some. destruct (ol_high lo) as [|h].
  - split; [intros ((_ & ?) & _)|intros (_ & _ & ? & _)]; done.
  - rewrite negb_false_iff, Z.eqb_eq. split.
    + intros (((? & ?) & ->) & -> & ?). split_and!; try done; lia.
    + intros (? & ? & [= ->] & -> & ?). split_and!; try done; lia.
Qed.

Lemma rebuild_pending_exact a pending d k ls lo : sl_ok ls -> ledger_ok lo ->
  rebuild_pending_terminal_frontiers a pending d k ls lo =
    if negb (bool_decide (ao_candidate_phase k = CP_BindingTerminal))
       || negb (ao_participant_index k =? bto_participant_index pending)
       || match ol_high lo with
          | OH_Allocated high => negb (ao_transaction_order k =? high)
          | OH_Empty => true
          end
       || negb (bool_decide (checked_add u64_max (sl_high_watermark ls) 1 = Some d))
    then Err LFE_RecordPosition
    else
      let all := all_terminal_owners (bound_owners a) pending in
      if unreserved_ledgers (air_len a) (zlen all) (zlen (bound_owners a)) ls lo then
        if rebuild_fits ls lo
        then Ok (laid_sequence (sl_high_watermark ls + 2) a (bound_owners a) all
                   [ISC_BindingTerminal d k pending] ls,
                 laid_order a (bound_owners a)
                   [mkImmutableOrderCandidateMajor (ao_transaction_order k) [k]] lo)
        else Err LFE_Exhausted
      else Err LFE_ResultingFrontier.
Proof.
  intros Hls Hlo. unfold rebuild_pending_terminal_frontiers.
  destruct (_ || _ || _ || _) eqn:Ep; [done|]. apply pending_placed_spec in Ep as (_ & _ & _ & -> & Hh).
  unfold rebuild_fits. simpl. set (all := all_terminal_owners (bound_owners a) pending).
  destruct (unreserved_ledgers _ _ _ _ _) eqn:E; simpl; [|done].
  apply unreserved_ledgers_spec in E as (H1 & H2 & H3 & H4 & H5 & H6 & H7 & H8).
  set (cs := [ISC_BindingTerminal (sl_high_watermark ls + 1) k pending]).
  pose proof (laid_end a all cs ls Hls H1 H2 H3 H4 eq_refl (sort_by_key_perm _ _)) as Hend.
  replace (sl_high_watermark ls + 1 + zlen cs) with (sl_high_watermark ls + 2) in Hend
    by (unfold zlen; simpl; lia).
  pose proof Hls as (Hu & _).
  assert (0 <= laid_total a (bound_owners a) all) as Hnn.
  { unfold laid_total, others. pose proof (zlen_nonneg (bound_owners a)). pose proof (zlen_nonneg all).
    assert (0 <= air_len a) by apply zlen_nonneg. nia. }
  unfold rebuild_pending_terminal_sequence, take_live_sequence, checked_add.
  destruct (Z.ltb_spec (sl_high_watermark ls + sl_required_reserve ls) u64_max) as [Hfit|Hfit]; simpl.
  - rewrite (proj2 (Z.leb_le _ _)) by lia. simpl.
    replace (sl_high_watermark ls + 1 + 1) with (sl_high_watermark ls + 2) by lia.
    rewrite lay_sequence_owners_exact by (try done; mlia).
    rewrite (proj2 (Z.leb_le _ _)), (proj2 (Z.eqb_eq _ _)) by lia. simpl.
    unfold rebuild_pending_terminal_order. rewrite lay_order_owners_exact by done.
    assert (claims_total (ol_claims lo) = zlen (bound_owners a) + air_len a) as ->
      by (unfold claims_total; rewrite H5, H6, H7, H8; simpl; lia).
    rewrite Z.eqb_refl, !Z.add_assoc. destruct (_ <=? u64_max); simpl; [|done].
    unfold cross_checked. rewrite (proj2 (cross_counter_Ok _ _)); [done|].
    unfold counters_agree. rewrite laid_claimed, laid_order_claimed. split_and!; done.
  - destruct (Z.leb_spec (sl_high_watermark ls + 1 + 1) u64_max); simpl; [|done].
    rewrite lay_sequence_owners_exact by (try done; mlia).
    replace (sl_high_watermark ls + 1 + 1) with (sl_high_watermark ls + 2) by lia.
    by rewrite (proj2 (Z.leb_gt _ _)) by lia.
Qed.

Lemma rebuild_pending_ok a pending d k ls lo s o : sl_ok ls -> ledger_ok lo -> NoDup (indices a) ->
  pending ∈ epoch_owners a -> pending ∉ bound_owners a ->
  rebuild_pending_terminal_frontiers a pending d k ls lo = Ok (s, o) ->
  lanes_ok a s o /\ scf_ledger s = ls /\ ocf_ledger o = lo
  /\ scf_immutable_candidates s = [ISC_BindingTerminal d k pending] /\ scf_recovery s = None.
Proof.
  intros Hls Hlo Hnd He Hb. rewrite rebuild_pending_exact by done.
  destruct (_ || _ || _ || _) eqn:Ep; [done|]. apply pending_placed_spec in Ep as (_ & _ & Ho & -> & Hh).
  simpl. set (all := all_terminal_owners (bound_owners a) pending).
  destruct (unreserved_ledgers _ _ _ _ _) eqn:E; [|done]. destruct (rebuild_fits ls lo); [|done].
  apply unreserved_ledgers_spec in E as (H1 & H2 & H3 & H4 & H5 & H6 & H7 & H8).
  intros [= <- <-]. split_and!; try done. unfold lanes_ok.
  set (cs := [ISC_BindingTerminal (sl_high_watermark ls + 1) k pending]).
  replace (sl_high_watermark ls + 2) with (sl_high_watermark ls + 1 + zlen cs)
    by (unfold zlen; simpl; lia).
  split_and!.
  - apply laid_sequence_ok; try done; [apply sort_by_key_perm| |].
    + apply NoDup_app. split_and!; [by apply bound_owners_NoDup| |apply NoDup_singleton].
      intros x Hx Hin. apply list_elem_of_singleton in Hin. by subst.
    + intros owner Hin. apply list_elem_of_singleton in Hin. by subst.
  - apply laid_order_ok; try done. constructor; [|constructor]. simpl. rewrite Ho. simpl.
    apply Z.ltb_ge. lia.
  - unfold counters_agree. rewrite laid_claimed, laid_order_claimed. split_and!; done.
  - unfold keys_ok. split_and!; [apply NoDup_singleton..|].
    constructor; [|constructor]. split; repeat constructor.
Qed.
