(* ===== verification/FrontierRuns.v ===== *)
(** * Claim frontiers: the operations keep the invariant

    Every operation of [FrontierLive], [RecordProjection] and [FrontierLeave] keeps
    [frontier_inv]; a failing one leaves the frontiers as they were.  What a caller hands
    in (resulting ledgers, appended rows, floors) is constrained only by what the source
    documents of it. *)
From stdpp Require Import sorting.
From S2P Require Import Prelude FrontierInv Algebra Tags Wire Response Order Sequence Edge.
From S2P Require Import EdgeSteps Binding Member Detach Leave Attach Closure Frontier.
From S2P Require Import FrontierNumeric FrontierLive FrontierInit RecordProjection FrontierRestore.
From S2P Require Import FrontierLeave.

(** ** Rows *)

Lemma rows_consecutive_spec rows : forall first,
  rows_consecutive (Some first) rows = true ->
  map rcr_delivery_seq rows = seqZ first (zlen rows).
Proof.
  induction rows as [|r rows IH]; intros first H; [done|]. simpl in H.
  apply andb_prop in H as [H1 H2]. apply bool_decide_eq_true in H1. injection H1 as H1.
  rewrite zlen_cons. pose proof (zlen_nonneg rows). rewrite seqZ_split by lia.
  rewrite (seqZ_cons first 1) by lia. simpl. f_equal; [done|].
  destruct rows as [|r' rows]; [done|].
  destruct (checked_add u64_max first 1) as [next|] eqn:E; simpl in H2.
  - apply checked_add_Some in E as [-> _]. by apply IH.
  - done.
Qed.

Lemma rows_append floor stop (rows new : list RetainedCausalRecord) : floor <= stop ->
  map rcr_delivery_seq rows = seqZ floor (stop - floor) ->
  map rcr_delivery_seq new = seqZ stop (zlen new) ->
  map rcr_delivery_seq (rows ++ new) = seqZ floor (stop + zlen new - floor).
Proof.
  intros Hf Hr Hn. rewrite map_app, Hr, Hn. pose proof (zlen_nonneg new).
  replace (stop + zlen new - floor) with ((stop - floor) + zlen new) by lia.
  rewrite seqZ_split by lia. f_equal. f_equal. lia.
Qed.

Lemma markers_kept (rows new markers : list RetainedCausalRecord) :
  Forall (fun r => r ∈ rows /\ is_compaction_marker r = true) markers ->
  Forall (fun r => r ∈ rows ++ new /\ is_compaction_marker r = true) markers.
Proof. intros H. eapply Forall_impl; [exact H|]. intros r [? ?]. split; [|done]. apply elem_of_app. by left. Qed.

(** ** Identities *)

Lemma NoDup_map_inj {A B} (g : A -> B) l : NoDup (map g l) ->
  forall x y, x ∈ l -> y ∈ l -> g x = g y -> x = y.
Proof.
  induction l as [|z l IH]; intros Hnd x y Hx Hy Hxy; [by apply not_elem_of_nil in Hx|].
  apply NoDup_cons in Hnd as [Hz Hnd]. apply elem_of_cons in Hx as [->|Hx], Hy as [->|Hy]; auto.
  - exfalso. apply Hz. rewrite Hxy. by apply list_elem_of_fmap_2.
  - exfalso. apply Hz. rewrite <- Hxy. by apply list_elem_of_fmap_2.
Qed.

Lemma set_participant_indices id new ps : fp_participant_index new = id ->
  map fp_participant_index (set_participant id new ps) = map fp_participant_index ps.
Proof.
  intros Hn. induction ps as [|p ps IH]; simpl; [done|].
  destruct (Z.eqb_spec (fp_participant_index p) id) as [E|]; simpl; [congruence|by rewrite IH].
Qed.
Lemma find_participant_elem id ps p : find_participant id ps = Some p ->
  p ∈ ps /\ fp_participant_index p = id.
Proof.
  induction ps as [|q ps IH]; simpl; [done|]. destruct (Z.eqb_spec (fp_participant_index q) id).
  - intros [= ->]. split; [left|done].
  - intros H. destruct (IH H). split; [by right|done].
Qed.
Lemma set_participant_elem id new ps p : find_participant id ps = Some p ->
  new ∈ set_participant id new ps.
Proof.
  induction ps as [|q ps IH]; simpl; [done|]. destruct (_ =? id); intros H; [left|right; auto].
Qed.
Lemma set_participant_other id new ps q : q ∈ set_participant id new ps ->
  q = new \/ q ∈ ps.
Proof.
  induction ps as [|p ps IH]; simpl; [intros H; by apply not_elem_of_nil in H|].
  destruct (_ =? id); intros H; apply elem_of_cons in H as [->|H]; auto.
  - right. by right.
  - right. left.
  - destruct (IH H); [by left|right; by right].
Qed.
Lemma set_participant_ranks high limit id new ps : fp_participant_index new = id ->
  id < limit -> fp_cursor new <= high -> ranks_ok high limit ps ->
  ranks_ok high limit (set_participant id new ps).
Proof.
  intros Hn Hi Hc (Hl & Hs & Hb). split_and!.
  - rewrite <- (zlen_map fp_participant_index), set_participant_indices by done. by rewrite zlen_map.
  - by rewrite set_participant_indices.
  - apply Forall_forall. intros q Hq. apply set_participant_other in Hq as [->|Hq]; [lia|].
    by apply (proj1 (Forall_forall _ _) Hb).
Qed.
Lemma ranks_elem high limit ps p : ranks_ok high limit ps -> p ∈ ps ->
  fp_participant_index p < limit /\ fp_cursor p <= high.
Proof. intros (_ & _ & Hb) Hp. by apply (proj1 (Forall_forall _ _) Hb). Qed.

(** The lanes depend on the identities only through these. *)
Lemma lanes_ext a a' s o : indices a' = indices a -> bound_owners a' = bound_owners a ->
  epoch_owners a' = epoch_owners a -> lanes_ok a s o -> lanes_ok a' s o.
Proof.
  intros Hi Hb He. assert (air_len a' = air_len a) as Hl.
  { unfold air_len. rewrite <- (zlen_map fp_participant_index).
    change (map fp_participant_index (air_participants a')) with (indices a').
    rewrite Hi. unfold indices. by rewrite zlen_map. }
  unfold lanes_ok, sequence_ok, order_ok, sequence_counts, order_counts, terminals_ok, products_ok,
    block_ok.
  by rewrite Hi, Hb, He, Hl.
Qed.

Lemma not_blocked f : live_transition_blocked f = false ->
  scf_immutable_candidates (cf_sequence f) = [] /\ scf_recovery (cf_sequence f) = None
  /\ ocf_immutable_candidates (cf_order f) = [] /\ ocf_recovery (cf_order f) = None.
Proof.
  unfold live_transition_blocked. intros H. apply orb_false_elim in H as [H H4].
  apply orb_false_elim in H as [H H3]. apply orb_false_elim in H as [H1 H2].
  apply negb_false_iff, bool_decide_eq_true, nil_length_inv in H1.
  apply negb_false_iff, bool_decide_eq_true, nil_length_inv in H3.
  apply is_some_false in H2, H4. done.
Qed.

(** ** Lifecycle transitions *)

Lemma apply_live_transition_ok f active rows ls lo f' : frontier_inv f ->
  sl_ok ls -> ledger_ok lo ->
  sl_high_watermark ls = sl_high_watermark (scf_ledger (cf_sequence f)) + zlen rows ->
  apply_live_transition f active rows ls lo = Ok f' -> frontier_inv f'.
Proof.
  intros (Hranks & Hs & Ho & Hagree & Hk & Hfl & Hrows & Hmk) Hls Hlo Hhigh.
  unfold apply_live_transition. destruct (live_transition_blocked f); [done|].
  destruct (ActiveIdentityRanks_try_new _ _ _) as [a|] eqn:Ea; [|done].
  apply try_new_Ok in Ea as [-> Hr]. destruct (rows_positioned _ _ _) eqn:Ep; simpl; [|done].
  destruct (rebuild_unreserved_frontiers _ _ _) as [[s o]|] eqn:Eb; [|done]. intros [= <-].
  apply rebuild_unreserved_ok in Eb as ((Hs' & Ho' & Hag & Hk') & El & Eo & _); try done.
  2:{ by eapply ranks_NoDup. }
  unfold rows_positioned in Ep. apply andb_prop in Ep as [Ep _].
  destruct (checked_add _ _ _) as [first|] eqn:Ec; [|done]. apply checked_add_Some in Ec as [-> _].
  apply rows_consecutive_spec in Ep. unfold frontier_inv, rows_ok; simpl. rewrite El, Hhigh.
  pose proof (zlen_nonneg rows). split_and!; try done; try lia.
  - by rewrite <- Hhigh.
  - replace (sl_high_watermark (scf_ledger (cf_sequence f)) + zlen rows + 1 - cf_retained_floor f)
      with (sl_high_watermark (scf_ledger (cf_sequence f)) + 1 + zlen rows - cf_retained_floor f) by lia.
    apply rows_append; [lia|done|done].
  - by apply markers_kept.
Qed.

Lemma apply_pending_ok f id epoch d k lo f' : frontier_inv f -> ledger_ok lo ->
  apply_pending_binding_terminal f id epoch d k lo = Ok f' -> frontier_inv f'.
Proof.
  intros (Hranks & Hs & Ho & Hagree & Hk & Hrows) Hlo. unfold apply_pending_binding_terminal.
  destruct (live_transition_blocked f); [done|].
  destruct (find_participant id _) as [p|] eqn:Ef; [|done]. pose proof Ef as Hin.
  apply find_participant_elem in Hin as [Hp Hi].
  case_bool_decide as Eb; simpl; [|done]. set (new := mkFrontierParticipant _ _ _).
  destruct (ActiveIdentityRanks_try_new _ _ _) as [a|] eqn:Ea; [|done].
  apply try_new_Ok in Ea as [-> Hr]. set (a := mkActiveIdentityRanks _).
  destruct (rebuild_pending_terminal_frontiers _ _ _ _ _ _) as [[s o]|] eqn:Er; [|done].
  intros [= <-]. pose proof (ranks_NoDup _ _ _ Hr) as Hnd.
  apply rebuild_pending_ok in Er as ((Hs' & Ho' & Hag & Hk') & El & Eo & _); try done.
  - unfold frontier_inv, rows_ok; simpl. rewrite El. done.
  - apply Hs.
  - unfold epoch_owners. apply list_elem_of_fmap. exists new. split; [done|].
    by eapply set_participant_elem.
  - intros Hb. apply bound_owners_elem in Hb as (q & Hq & Hqi & Hqb). simpl in *.
    assert (new ∈ set_participant id new (air_participants (cf_active_identities f))) as Hnew
      by (by eapply set_participant_elem).
    assert (q = new); [|by subst].
    by apply (NoDup_map_inj fp_participant_index _ Hnd).
Qed.

(** An acknowledgement moves a cursor and nothing else. *)
Lemma apply_live_identity_ok f p f' : frontier_inv f ->
  (forall q, find_participant (fp_participant_index p) (air_participants (cf_active_identities f))
             = Some q -> fp_binding q = fp_binding p) ->
  apply_live_identity f p = Ok f' -> frontier_inv f'.
Proof.
  intros (Hranks & Hs & Ho & Hagree & Hk & Hrows) Hb. unfold apply_live_identity.
  destruct (find_participant _ _) as [q|] eqn:Ef; [|done]. specialize (Hb q eq_refl).
  destruct (_ || _) eqn:E; [done|]. intros [= <-]. apply orb_false_elim in E as [E1 E2]. breflect.
  pose proof (find_participant_elem _ _ _ Ef) as [Hq Hqi].
  assert (forall {B} (g : FrontierParticipant -> B), g q = g p ->
    map g (set_participant (fp_participant_index p) p (air_participants (cf_active_identities f)))
    = map g (air_participants (cf_active_identities f))) as Hmap.
  { intros B g Hg. clear -Ef Hg. induction (air_participants (cf_active_identities f)) as [|r rs IH];
      simpl in *; [done|]. destruct (_ =? _); simplify_eq/=; [by rewrite Hg|by rewrite IH]. }
  set (a := mkActiveIdentityRanks _).
  assert (lanes_ok a (cf_sequence f) (cf_order f)) as (? & ? & ? & ?).
  { eapply lanes_ext; [| | |done].
    - by apply set_participant_indices.
    - unfold bound_owners, a; simpl. clear -Ef Hb Hqi.
      induction (air_participants (cf_active_identities f)) as [|r rs IH]; simpl in *; [done|].
      destruct (_ =? _); simplify_eq/=; [by rewrite Hb, Hqi|by rewrite IH].
    - unfold epoch_owners, a; simpl. apply Hmap. unfold epoch_owner. by rewrite Hb, Hqi. }
  unfold frontier_inv; simpl. split_and!; try done.
  apply set_participant_ranks; try done. rewrite <- Hqi. by eapply ranks_elem in Hq as [? _].
Qed.

(** ** Draining *)

Lemma try_new_ledger h c l : sc_ok c -> u64 h -> SequenceLedger_try_new h c = Ok l ->
  sl_ok l /\ sl_high_watermark l = h /\ sl_claims l = c /\ sl_required_reserve l = reserve c.
Proof.
  intros Hc Hh. rewrite SequenceLedger_try_new_spec by done.
  destruct (Z.leb_spec (reserve c) (u64_max - h)); [|done]. intros [= <-]. done.
Qed.

Lemma bisect_by_sound {A} (cmp : A -> comparison) fuel : forall base (l : list A) i,
  bisect_by cmp fuel base l = Some i ->
  exists m, (base <= i)%nat /\ l !! (i - base)%nat = Some m /\ cmp m = Eq.
Proof.
  induction fuel as [|fuel IH]; intros base l i; simpl; [done|].
  set (mid := Nat.div2 (length l)). destruct (drop mid l) as [|m upper] eqn:E; [done|].
  assert (l !! mid = Some m) as Hm.
  { rewrite <- (Nat.add_0_r mid), <- lookup_drop. by rewrite E. }
  destruct (cmp m) eqn:Ec.
  - intros [= <-]. exists m. split_and!; [lia| |done].
    by replace (base + mid - base)%nat with mid by lia.
  - intros H. apply IH in H as (x & Hb & Hx & Hc). exists x. split_and!; [lia| |done].
    assert (upper = drop (S mid) l) as ->.
    { rewrite <- Nat.add_1_r, <- drop_drop, E. done. }
    rewrite lookup_drop in Hx. rewrite <- Hx. f_equal. lia.
  - intros H. apply IH in H as (x & Hb & Hx & Hc). exists x. split_and!; [lia| |done].
    apply lookup_take_Some in Hx as [Hx _]. done.
Qed.

Lemma bisect_by_complete {A} (cmp : A -> comparison) fuel : forall base (l : list A) i x,
  (length l < fuel)%nat -> l !! i = Some x -> cmp x = Eq ->
  (forall j y, (j < i)%nat -> l !! j = Some y -> cmp y = Lt) ->
  (forall j y, (i < j)%nat -> l !! j = Some y -> cmp y = Gt) ->
  bisect_by cmp fuel base l = Some (base + i)%nat.
Proof.
  induction fuel as [|fuel IH]; intros base l i x Hf Hx Hc Hlo Hhi; [lia|]. cbn [bisect_by].
  pose proof (lookup_lt_Some _ _ _ Hx) as Hi. set (mid := Nat.div2 (length l)).
  assert (mid < length l)%nat as Hmid by (unfold mid; apply Nat.lt_div2; lia).
  destruct (lookup_lt_is_Some_2 l mid Hmid) as [m Hm]. rewrite (drop_S l m mid Hm).
  destruct (Nat.lt_trichotomy mid i) as [Hlt|[->|Hlt]].
  - rewrite (Hlo mid m Hlt Hm). replace (base + i)%nat with (S (base + mid) + (i - S mid))%nat by lia.
    apply (IH _ _ _ x).
    + rewrite length_drop. lia.
    + rewrite lookup_drop. by replace (S mid + (i - S mid))%nat with i by lia.
    + done.
    + intros j y Hj Hy. rewrite lookup_drop in Hy. by apply (Hlo (S mid + j)%nat); [lia|].
    + intros j y Hj Hy. rewrite lookup_drop in Hy. by apply (Hhi (S mid + j)%nat); [lia|].
  - assert (m = x) as -> by congruence. by rewrite Hc.
  - rewrite (Hhi mid m Hlt Hm). apply (IH _ _ _ x).
    + rewrite length_take. lia.
    + by rewrite lookup_take_lt by lia.
    + done.
    + intros j y Hj Hy. apply lookup_take_Some in Hy as [Hy _]. by apply (Hlo j).
    + intros j y Hj Hy. apply lookup_take_Some in Hy as [Hy _]. by apply (Hhi j).
Qed.

(** The binary search of the identities finds what a linear one does. *)
Lemma sorted_lookup_lt (l : list FrontierParticipant) i j p q :
  StronglySorted Z.lt (map fp_participant_index l) -> (i < j)%nat -> l !! i = Some p -> l !! j = Some q ->
  fp_participant_index p < fp_participant_index q.
Proof.
  revert i j. induction l as [|r l IH]; intros i j Hs Hij Hi Hj; [done|]. inversion Hs as [|? ? Hs' Hf]; subst.
  destruct j as [|j]; [lia|]. destruct i as [|i]; simpl in *.
  - injection Hi as ->. apply (proj1 (Forall_forall _ _) Hf). apply list_elem_of_fmap_2.
    by eapply list_elem_of_lookup_2.
  - eapply IH; [done| |done|done]. lia.
Qed.
Lemma active_participant_find a id : StronglySorted Z.lt (map fp_participant_index (air_participants a)) ->
  active_participant a id = find_participant id (air_participants a).
Proof.
  intros Hs. unfold active_participant, binary_search_by_key, binary_search_by.
  destruct (find_participant id (air_participants a)) as [p|] eqn:Ef.
  - pose proof (find_participant_elem _ _ _ Ef) as [Hp Hi].
    apply list_elem_of_lookup_1 in Hp as [i Hp].
    rewrite (bisect_by_complete _ _ 0 _ i p); simpl; try done.
    + lia.
    + by apply Z.compare_eq_iff.
    + intros j q Hj Hq. apply Z.compare_lt_iff. rewrite <- Hi. by eapply sorted_lookup_lt.
    + intros j q Hj Hq. apply Z.compare_gt_iff. rewrite <- Hi. by eapply sorted_lookup_lt.
  - destruct (bisect_by _ _ _ _) as [i|] eqn:Eb; simpl; [|done].
    apply bisect_by_sound in Eb as (m & _ & Hm & Hc). rewrite Nat.sub_0_r in Hm.
    apply Z.compare_eq_iff in Hc. exfalso. apply list_elem_of_lookup_2 in Hm.
    clear Hs. induction (air_participants a) as [|r rs IH]; [by apply not_elem_of_nil in Hm|].
    simpl in Ef. destruct (Z.eqb_spec (fp_participant_index r) id); [done|].
    apply elem_of_cons in Hm as [->|Hm]; [done|by apply IH].
Qed.

Lemma binary_search_order_sound l k i : binary_search_order l k = Some i -> l !! i = Some k.
Proof.
  intros H. apply bisect_by_sound in H as (m & _ & Hm & Hc). rewrite Nat.sub_0_r in Hm.
  case_bool_decide; [by subst|]. by destruct (ao_ltb m k).
Qed.

Lemma StronglySorted_delete {A} (R : A -> A -> Prop) l : StronglySorted R l ->
  forall i, StronglySorted R (delete i l).
Proof.
  induction 1 as [|x l Hs IH Hx]; intros i; [destruct i; constructor|]. destruct i; simpl; [done|].
  constructor; [apply IH|]. by apply Forall_delete.
Qed.

Lemma release_order_key_spec k gs : forall gs', Forall group_ok gs ->
  release_order_key k gs = Some gs' ->
  concat (map icm_candidate_keys gs) ≡ₚ k :: concat (map icm_candidate_keys gs')
  /\ Forall group_ok gs'
  /\ forall p, p (ao_transaction_order k) = false ->
       List.filter (fun g => p (icm_transaction_order g)) gs'
       = List.filter (fun g => p (icm_transaction_order g)) gs.
Proof.
  induction gs as [|g gs IH]; intros gs' Hok; simpl; [done|].
  apply Forall_cons in Hok as [Hg Hgs]. case_bool_decide as E.
  - destruct (binary_search_order _ _) as [i|] eqn:Es; simpl; [|done].
    apply binary_search_order_sound in Es. pose proof (delete_Permutation _ _ _ Es) as Hp.
    assert (group_ok (mkImmutableOrderCandidateMajor (icm_transaction_order g)
              (delete i (icm_candidate_keys g)))) as Hg'.
    { destruct Hg as [H1 H2]. split; simpl; [by apply StronglySorted_delete|by apply Forall_delete]. }
    assert (ao_transaction_order k = icm_transaction_order g) as Hm.
    { destruct Hg as [_ H2]. by apply (proj1 (Forall_forall _ _) H2). }
    destruct (delete i (icm_candidate_keys g)) as [|k' ks] eqn:Ed; intros [= <-]; simpl.
    + split_and!; [by rewrite Hp|done|]. intros p Hpk. by rewrite <- Hm, Hpk.
    + split_and!; [by rewrite Hp|by constructor|]. intros p Hpk. by rewrite <- Hm, Hpk.
  - destruct (release_order_key k gs) as [rest|] eqn:Er; simpl; [|done]. intros [= <-].
    destruct (IH rest Hgs eq_refl) as (Hp & Hok & Hf). simpl. split_and!.
    + rewrite Hp. symmetry. apply Permutation_middle.
    + by constructor.
    + intros p Hpk. by rewrite Hf.
Qed.

Lemma keys_after o k key_rest gs' : NoDup (group_keys o) ->
  (forall key, key ∈ group_keys o <-> key ∈ k :: key_rest) -> NoDup (k :: key_rest) ->
  group_keys o ≡ₚ k :: concat (map icm_candidate_keys gs') ->
  NoDup (concat (map icm_candidate_keys gs'))
  /\ (forall key, key ∈ concat (map icm_candidate_keys gs') <-> key ∈ key_rest).
Proof.
  intros Hnd Hiff Hndk Hp. rewrite Hp in Hnd. apply NoDup_cons in Hnd as [Hk Hnd].
  apply NoDup_cons in Hndk as [Hk' _]. split; [done|]. intros key. specialize (Hiff key).
  rewrite Hp, !elem_of_cons in Hiff. split; intros Hin.
  - destruct (proj1 Hiff (or_intror Hin)) as [->|]; [by destruct Hk|done].
  - destruct (proj2 Hiff (or_intror Hin)) as [->|]; [by destruct Hk'|done].
Qed.

Lemma marker_candidate_found f m rest :
  scf_immutable_candidates (cf_sequence f) = ISC_Marker m :: rest ->
  marker_candidate f (mca_delivery_seq m)
  = Some (mkValidatedMarkerCandidate (cf_conversation_id f) m).
Proof. intros E. unfold marker_candidate. rewrite E. simpl. by rewrite Z.eqb_refl. Qed.

Lemma reserve_less_marker c m : sc_markers c = m + 1 ->
  reserve (mkSequenceClaims (sc_live_members c) (sc_binding_terminals c) m (sc_recovery c))
  = reserve c - 1.
Proof. intros E. unfold reserve, rsr; simpl. rewrite E. lia. Qed.

Lemma seqZ_tail a n x l : seqZ a n = x :: l -> x = a /\ l = seqZ (a + 1) (n - 1) /\ 0 < n.
Proof.
  intros H. destruct (Z.le_gt_cases n 0) as [Hn|Hn].
  - assert (seqZ a n = []) as E by (apply length_zero_iff_nil; rewrite length_seqZ; lia).
    by rewrite E in H.
  - rewrite seqZ_cons in H by done. injection H as <- <-. split_and!; try done; f_equal; lia.
Qed.

(** The sequence lane without its first marker. *)
Lemma drain_marker_sequence a s m rest l : sequence_ok a s ->
  scf_immutable_candidates s = ISC_Marker m :: rest ->
  sc_markers (sl_claims (scf_ledger s)) = sc_markers (sl_claims l) + 1 ->
  sl_claims l = mkSequenceClaims (sc_live_members (sl_claims (scf_ledger s)))
    (sc_binding_terminals (sl_claims (scf_ledger s))) (sc_markers (sl_claims l))
    (sc_recovery (sl_claims (scf_ledger s))) ->
  sl_ok l -> sl_high_watermark l = sl_high_watermark (scf_ledger s) + 1 ->
  sequence_ok a (mkSequenceClaimFrontier l (scf_movable_claims s) rest (scf_products s)
                   (scf_recovery s)).
Proof.
  intros (Hl & (H1 & H2 & H3 & H4) & He & Ht & Hp & Hm & (P1 & P2 & P3 & P4)) Ec Em Ecl Hl' Hh.
  assert (candidate_terminals s = terminals_of rest) as Et by (unfold candidate_terminals; by rewrite Ec).
  assert (marker_candidates s = m :: markers_of rest) as Emk by (unfold marker_candidates; by rewrite Ec).
  assert (sl_required_reserve l = sl_required_reserve (scf_ledger s) - 1) as Er.
  { destruct Hl' as (_ & _ & -> & _), Hl as (_ & _ & -> & _).
    rewrite Ecl. by apply reserve_less_marker. }
  assert (zlen (scf_immutable_candidates s) = 1 + zlen rest) as Ez by (by rewrite Ec, zlen_cons).
  rewrite Emk, zlen_cons in H3. rewrite Emk in Hm. apply Forall_cons in Hm as [_ Hm].
  unfold sequence_ok. split; [done|]. split_and!; try done.
  - unfold sequence_counts; simpl. rewrite Ecl; simpl. unfold rsr in *; simpl. rewrite H1, H2.
    unfold all_terminals. rewrite Et. split_and!; try done. unfold marker_candidates; simpl. lia.
  - unfold terminals_ok, all_terminals in *. rewrite Et in Ht. done.
  - unfold products_ok, all_terminals in *. rewrite Et in Hp. done.
  - unfold sequence_positions; simpl. rewrite Ec, zlen_cons in P1. simpl in P1. symmetry in P1.
    apply seqZ_tail in P1 as (_ & Hrest & _). rewrite Ez in P2. rewrite Hh, Er. split_and!.
    + rewrite Hrest. f_equal; lia.
    + change (movable_positions _) with (movable_positions s). rewrite P2. f_equiv; lia.
    + eapply Forall_impl; [exact P3|]. simpl. lia.
    + done.
Qed.

Lemma drain_marker_order a s o m rest gs l ls : order_ok a o -> counters_agree s o -> keys_ok s o ->
  scf_immutable_candidates s = ISC_Marker m :: rest -> l = ocf_ledger o ->
  order_is_above_high (ao_transaction_order (mca_admission_order m)) (ol_high l) = false ->
  release_order_key (mca_admission_order m) (ocf_immutable_candidates o) = Some gs ->
  let o' := mkOrderClaimFrontier l (ocf_movable_claims o) gs (ocf_recovery o) in
  let s' := mkSequenceClaimFrontier ls (scf_movable_claims s) rest (scf_products s) (scf_recovery s) in
  order_ok a o' /\ counters_agree s' o' /\ keys_ok s' o'.
Proof.
  intros (Hlo & Hc & He & Hpos) (Ha & Hb & Hiff) (K1 & K2 & K3) Ec -> Hnot Hrel o' s'.
  apply release_order_key_spec in Hrel as (Hperm & Hgok & Hfilter); [|done].
  rewrite Ec in K2, Hiff. simpl in K2, Hiff.
  destruct (keys_after o _ _ gs K1 Hiff K2 Hperm) as [Hnd Hiff'].
  assert (majors_above o' = majors_above o) as Hm
    by (apply (Hfilter (fun major => order_is_above_high major (ol_high (ocf_ledger o)))); exact Hnot).
  split_and!.
  - unfold order_ok. split_and!; try done. unfold order_positions. by rewrite Hm.
  - by split_and!.
  - split_and!; try done. by apply NoDup_cons in K2 as [_ ?].
Qed.

Lemma drain_marker_ok f c : frontier_inv f -> drain_next_marker_core f = Ok c ->
  frontier_inv (mdc_frontiers c).
Proof.
  intros (Hranks & Hs & Ho & Hagree & Hk & Hfl & Hrows & Hmk). unfold drain_next_marker_core.
  destruct (scf_immutable_candidates (cf_sequence f)) as [|[d k w|m] rest] eqn:Ec; [done|done|].
  destruct (checked_add _ _ _) as [next|] eqn:En; simpl; [|done].
  apply checked_add_Some in En as [-> Hnext].
  destruct (Z.eqb_spec (mca_delivery_seq m) (sl_high_watermark (scf_ledger (cf_sequence f)) + 1)) as [Ed|];
    simpl; [|done].
  destruct (order_is_above_high _ _) eqn:Eo; [done|].
  rewrite (marker_candidate_found f m rest) by done. simpl.
  destruct (release_order_key _ _) as [gs|] eqn:Er; simpl; [|done].
  destruct (Z.ltb_spec (sc_markers (sl_claims (scf_ledger (cf_sequence f)))) 1); simpl; [done|].
  destruct (SequenceLedger_try_new _ _) as [l|] eqn:El; simpl; [|done]. intros [= <-]. simpl.
  pose proof Hs as ((Hh & (Hc1 & Hc2 & Hc3) & _) & _).
  apply try_new_ledger in El as (Hl & Hlh & Hlc & Hlr); [|unfold sc_ok; simpl; mlia|mlia].
  assert (sequence_ok (cf_active_identities f) (mkSequenceClaimFrontier l
    (scf_movable_claims (cf_sequence f)) rest (scf_products (cf_sequence f))
    (scf_recovery (cf_sequence f)))) as Hs'.
  { eapply drain_marker_sequence; try done; rewrite Hlc; simpl; [lia|done]. }
  destruct (drain_marker_order _ _ _ m rest gs (ocf_ledger (cf_order f)) l Ho Hagree Hk Ec eq_refl Eo Er)
    as (Ho' & Hag' & Hk').
  unfold frontier_inv; simpl. rewrite Hlh. split; [eapply ranks_ok_mono; [|done]; lia|].
  split_and!; try done. unfold rows_ok; simpl. rewrite Hlh. split_and!; [lia|lia| |].
  - pose proof (rows_append (cf_retained_floor f) _ _
      [mkRetainedCausalRecord (mca_delivery_seq m) (mca_admission_order m)
         (RCK_CompactionMarker (ao_participant_index (mca_admission_order m)) (mca_provenance m))]
      (proj2 Hfl) Hrows) as Happ. rewrite Happ; [f_equal; unfold zlen; simpl; lia|].
    simpl. rewrite Ed. by rewrite seqZ_cons.
  - apply Forall_app. split; [by apply markers_kept|]. constructor; [|constructor]. split; [|done].
    apply elem_of_app. right. left.
Qed.

(** A pending terminal becomes a row; the lanes are laid out again behind it. *)
Lemma first_terminal_Ok f owner k d k' owner' :
  validate_first_terminal_candidate f owner k = Ok (d, k', owner') ->
  scf_immutable_candidates (cf_sequence f) = [ISC_BindingTerminal d k' owner'] /\ owner' = owner
  /\ k' = k /\ d = sl_high_watermark (scf_ledger (cf_sequence f)) + 1 /\ d <= u64_max
  /\ scf_recovery (cf_sequence f) = None /\ ocf_recovery (cf_order f) = None.
Proof.
  unfold validate_first_terminal_candidate. destruct (_ || _) eqn:Er; [done|].
  apply orb_false_elim in Er as [E1 E2]. apply is_some_false in E1, E2.
  destruct (scf_immutable_candidates (cf_sequence f)) as [|[d1 k1 w1|m] [|c cs]] eqn:Ec; try done.
  repeat case_bool_decide; simpl; try done.
  destruct (checked_add _ _ _) as [next|] eqn:En; simpl; [|done].
  apply checked_add_Some in En as [-> Hn]. destruct (_ || _) eqn:Ed; [done|].
  apply orb_false_elim in Ed as [Ed _]. breflect.
  destruct (ocf_immutable_candidates (cf_order f)) as [|g [|]]; try done.
  case_bool_decide; simpl; [|done]. destruct (existsb _ _); [|done]. intros [= <- <- <-].
  by subst.
Qed.

Lemma single_row (r : RetainedCausalRecord) stop : rcr_delivery_seq r = stop ->
  map rcr_delivery_seq [r] = seqZ stop (zlen [r]).
Proof. intros <-. simpl. by rewrite seqZ_cons. Qed.

Lemma drain_terminal_ok f owner k f' r : frontier_inv f ->
  drain_first_binding_terminal f owner k = Ok (f', r) -> frontier_inv f'.
Proof.
  intros (Hranks & Hs & Ho & Hagree & Hk & Hfl & Hrows & Hmk). unfold drain_first_binding_terminal.
  destruct (validate_first_terminal_candidate f owner k) as [[[d k'] w]|] eqn:E; [|done].
  apply first_terminal_Ok in E as (Ec & -> & -> & Ed & Hd & _).
  destruct (Z.ltb_spec (sc_binding_terminals (sl_claims (scf_ledger (cf_sequence f)))) 1); [done|].
  destruct (SequenceLedger_try_new _ _) as [l|] eqn:El; [|done].
  destruct (ActiveIdentityRanks_try_new _ _ _) as [a|] eqn:Ea; [|done].
  apply try_new_Ok in Ea as [-> Hr].
  destruct (rebuild_unreserved_frontiers _ _ _) as [[s o]|] eqn:Eb; [|done]. intros [= <- <-].
  pose proof Hs as ((Hh & (Hc1 & Hc2 & Hc3) & _) & _).
  apply try_new_ledger in El as (Hl & Hlh & Hlc & Hlr); [|unfold sc_ok; simpl; mlia|mlia].
  apply rebuild_unreserved_ok in Eb as ((Hs' & Ho' & Hag & Hk') & El' & Eo & _);
    [|done|apply Ho|by eapply ranks_NoDup].
  unfold frontier_inv, rows_ok; simpl. rewrite El', Hlh, Ed. split_and!; try done; try lia.
  - by rewrite <- Ed, <- Hlh.
  - rewrite (rows_append (cf_retained_floor f) (sl_high_watermark (scf_ledger (cf_sequence f)) + 1));
      [f_equal; unfold zlen; simpl; lia|lia|done|by apply single_row].
  - by apply markers_kept.
Qed.

(** ** Floors *)

Lemma filter_all {A} (p : A -> bool) l : (forall x, x ∈ l -> p x = true) -> List.filter p l = l.
Proof.
  induction l as [|x l IH]; intros H; simpl; [done|]. rewrite H by left. f_equal. apply IH.
  intros y Hy. apply H. by right.
Qed.
Lemma filter_none {A} (p : A -> bool) l : (forall x, x ∈ l -> p x = false) -> List.filter p l = [].
Proof.
  induction l as [|x l IH]; intros H; simpl; [done|]. rewrite H by left. apply IH.
  intros y Hy. apply H. by right.
Qed.
Lemma row_in (rows : list RetainedCausalRecord) start n r : map rcr_delivery_seq rows = seqZ start n ->
  r ∈ rows -> start <= rcr_delivery_seq r < start + n.
Proof. intros Hr Hin. apply elem_of_seqZ. rewrite <- Hr. by apply list_elem_of_fmap_2. Qed.

Lemma filter_rows floor start n (rows : list RetainedCausalRecord) : start <= floor <= start + n ->
  map rcr_delivery_seq rows = seqZ start n ->
  map rcr_delivery_seq (List.filter (fun r => floor <=? rcr_delivery_seq r) rows)
  = seqZ floor (start + n - floor).
Proof.
  intros Hf Hr. replace n with ((floor - start) + (start + n - floor)) in Hr by lia.
  rewrite seqZ_split in Hr by lia. replace (start + (floor - start)) with floor in Hr by lia.
  apply map_eq_app in Hr as (l1 & l2 & -> & H1 & H2). rewrite List.filter_app, filter_none, filter_all.
  - exact H2.
  - intros r Hin. apply (row_in l2 _ _ _ H2) in Hin. apply Z.leb_le. lia.
  - intros r Hin. apply (row_in l1 _ _ _ H1) in Hin. apply Z.leb_gt. lia.
Qed.

Lemma install_floor_ok f a floor : frontier_inv f -> lanes_ok a (cf_sequence f) (cf_order f) ->
  ranks_ok (sl_high_watermark (scf_ledger (cf_sequence f))) (cf_identity_slot_limit f)
    (air_participants a) ->
  cf_retained_floor f <= floor <= sl_high_watermark (scf_ledger (cf_sequence f)) + 1 ->
  frontier_inv (install_floor f a floor).
Proof.
  intros (_ & _ & _ & _ & _ & Hfl & Hrows & Hmk) (? & ? & ? & ?) Hr Hfloor.
  unfold frontier_inv, rows_ok; simpl. split_and!; try done; try lia.
  - etrans; [eapply (filter_rows floor); [|exact Hrows]; lia|]. f_equal; lia.
  - apply Forall_forall. intros r Hin. apply list_elem_of_In, filter_In in Hin as [Hin Hp].
    apply list_elem_of_In in Hin. destruct (proj1 (Forall_forall _ _) Hmk r Hin) as [Hrow Hm].
    split; [|done]. apply list_elem_of_In, filter_In. split; [by apply list_elem_of_In|done].
Qed.

Lemma check_fate_floor_Ok f floor : frontier_inv f -> check_fate_floor f floor = Ok tt <->
  cf_retained_floor f <= floor <= sl_high_watermark (scf_ledger (cf_sequence f)) + 1
  /\ Forall (fun r => floor <= rcr_delivery_seq r) (cf_marker_records f).
Proof.
  intros (_ & ((Hh & _) & _) & _). unfold check_fate_floor. rewrite add_u128_exact by mlia.
  destruct (_ || _) eqn:E; [split; [done|]; intros [? _]; apply orb_true_iff in E as [E|E]; breflect; lia|].
  apply orb_false_elim in E as [E1 E2]. breflect. unfold marker_below.
  destruct (existsb _ _) eqn:Ex.
  - split; [done|]. intros [_ HF]. apply existsb_exists in Ex as (r & Hin & Hr).
    apply list_elem_of_In in Hin. pose proof (proj1 (Forall_forall _ _) HF r Hin). simpl in *. breflect. lia.
  - split; [intros _|done]. split; [lia|]. apply Forall_forall. intros r Hin.
    destruct (Z.le_gt_cases floor (rcr_delivery_seq r)); [done|]. exfalso.
    apply not_true_iff_false in Ex. apply Ex. apply existsb_exists. exists r.
    split; [by apply list_elem_of_In|]. apply Z.ltb_lt. lia.
Qed.

Lemma finalized_floor_ok f floor f' : frontier_inv f ->
  install_finalized_binding_fate_floor f floor = Ok f' -> frontier_inv f'.
Proof.
  intros Hf. unfold install_finalized_binding_fate_floor.
  pose proof (check_fate_floor_Ok f floor Hf) as Hc.
  destruct (check_fate_floor f floor) as [[]|]; [|done]. intros [= <-].
  apply install_floor_ok; try done; [by destruct Hf as (_ & ? & ? & ? & ? & _)|apply Hf|by apply Hc].
Qed.

(** The dead binding's identity is put at the watermark, or stays where it was. *)
Lemma set_participant_same {B} (g : FrontierParticipant -> B) id new ps p :
  find_participant id ps = Some p -> g p = g new ->
  map g (set_participant id new ps) = map g ps.
Proof.
  intros Ef Hg. induction ps as [|r rs IH]; simpl in *; [done|].
  destruct (_ =? _); simplify_eq/=; [by rewrite Hg|by rewrite IH].
Qed.
Lemma set_participant_bound id new ps p : find_participant id ps = Some p ->
  fp_participant_index new = fp_participant_index p -> fp_binding new = fp_binding p ->
  bound_owners (mkActiveIdentityRanks (set_participant id new ps))
  = bound_owners (mkActiveIdentityRanks ps).
Proof.
  intros Ef Hi Hb. unfold bound_owners; simpl. induction ps as [|r rs IH]; simpl in *; [done|].
  destruct (_ =? _); simplify_eq/=; [by rewrite Hb, Hi|by rewrite IH].
Qed.
Lemma set_cursor_lanes a id new p s o : find_participant id (air_participants a) = Some p ->
  fp_participant_index new = fp_participant_index p -> fp_binding new = fp_binding p ->
  lanes_ok a s o -> lanes_ok (mkActiveIdentityRanks (set_participant id new (air_participants a))) s o.
Proof.
  intros Ef Hi Hb. pose proof (find_participant_elem _ _ _ Ef) as [_ Hid]. destruct a as [ps]; simpl in *.
  apply lanes_ext.
  - apply set_participant_indices. congruence.
  - by eapply set_participant_bound.
  - eapply set_participant_same; [done|]. unfold epoch_owner. by rewrite Hi, Hb.
Qed.

Lemma fate_transition_ok f id epoch cursor floor reserve plan : frontier_inv f ->
  prepare_binding_fate_transition f id epoch cursor floor reserve = Ok plan ->
  frontier_inv (install_binding_fate_transition f plan).
Proof.
  intros Hf. unfold prepare_binding_fate_transition.
  destruct (find_participant id _) as [p|] eqn:Ef; [|done].
  pose proof (find_participant_elem _ _ _ Ef) as [Hp Hi].
  destruct (_ || _) eqn:E; [done|]. apply orb_false_elim in E as [E1 E2].
  apply negb_false_iff, bool_decide_eq_true in E2.
  pose proof (check_fate_floor_Ok f floor Hf) as Hc.
  destruct (check_fate_floor f floor) as [[]|]; [|done].
  destruct (ActiveIdentityRanks_try_new _ _ _) as [a|] eqn:Ea; simpl; [|done].
  apply try_new_Ok in Ea as [-> Hr]. intros [= <-]. unfold install_binding_fate_transition; simpl.
  destruct Hf as (? & ? & ? & ? & ? & ?).
  apply install_floor_ok; try done; [eapply set_cursor_lanes; done|by apply Hc].
Qed.

(** ** Fenced attach *)

Lemma eq_perm {A} (l k : list A) : l = k -> l ≡ₚ k.
Proof. by intros ->. Qed.
(** Sorting by a key leaves the keys in order. *)
Lemma StronglySorted_map {A B} (R : B -> B -> Prop) (g : A -> B) l :
  StronglySorted (fun a b => R (g a) (g b)) l -> StronglySorted R (map g l).
Proof. induction 1; simpl; constructor; [done|]. by apply Forall_map. Qed.
Lemma seqZ_sorted a n : StronglySorted Z.le (seqZ a n).
Proof.
  destruct (Z.le_gt_cases n 0) as [Hn|Hn].
  - assert (seqZ a n = []) as -> by (apply length_zero_iff_nil; rewrite length_seqZ; lia). constructor.
  - revert a. apply (natlike_rec2 (fun n => forall a, StronglySorted Z.le (seqZ a n))); [| |lia].
    + intros a. rewrite seqZ_nil by lia. constructor.
    + intros m Hm IH a. rewrite seqZ_cons by lia. rewrite Z.pred_succ. constructor; [apply IH|].
      apply Forall_forall. intros x Hx. apply elem_of_seqZ in Hx. lia.
Qed.
Lemma sorted_keys {A} (key : A -> Z) l keys : StronglySorted Z.le keys -> map key l ≡ₚ keys ->
  map key (sort_by_key key l) = keys.
Proof.
  intros Hs Hp. apply (StronglySorted_unique Z.le); [|done|].
  - apply StronglySorted_map. apply sort_by_key_sorted.
  - rewrite <- Hp. apply Permutation_map, sort_by_key_perm.
Qed.

Lemma order_fenced_ok o o' : ledger_ok o -> ol_apply_fenced_recovery o = Ok o' -> ledger_ok o'.
Proof.
  intros Ho E. destruct (oc_recovery_operation (ol_claims o)) eqn:Er.
  - destruct (apply_fenced_recovery_ok o Ho Er) as (E1 & Hok & _). rewrite E1 in E. by simplify_eq.
  - unfold ol_apply_fenced_recovery in E. by rewrite Er in E.
Qed.
Lemma sequence_fenced_ok s s' : sl_ok s -> sl_apply_fenced_recovery s = Ok s' ->
  sl_ok s' /\ sl_high_watermark s' = sl_high_watermark s + 1.
Proof.
  intros Hs E. destruct (decide (sc_recovery (sl_claims s) = RSR_DetachedCredentialRecovery)) as [Hr|Hr].
  - destruct (fenced_recovery_exact s Hs Hr) as (s1 & E1 & ? & ? & _). rewrite E1 in E. by simplify_eq.
  - unfold sl_apply_fenced_recovery in E. by rewrite (bool_decide_eq_false_2 _ Hr) in E.
Qed.
Lemma sequence_finalizing_ok s s' : sl_ok s -> sl_apply_fenced_recovery_finalizing_pending s = Ok s' ->
  sl_ok s' /\ sl_high_watermark s' = sl_high_watermark s + 2.
Proof.
  intros Hs E. pose proof Hs as (_ & (_ & Hc & _) & _).
  unfold sl_apply_fenced_recovery_finalizing_pending in E.
  case_bool_decide as Hr; simpl in E; [|done]. destruct (Z.eqb_spec (sc_binding_terminals (sl_claims s)) 0); [done|].
  destruct (finalizing_recovery_exact s Hs Hr ltac:(mlia)) as (s1 & E1 & ? & ? & _).
  unfold sl_apply_fenced_recovery_finalizing_pending in E1.
  rewrite (bool_decide_eq_true_2 _ Hr), (proj2 (Z.eqb_neq _ _)) in E1 by done. simpl in E1.
  rewrite E1 in E. by simplify_eq.
Qed.
Lemma fenced_ledgers_ok s o finalizes s' o' : sl_ok s -> ledger_ok o ->
  apply_fenced_ledgers s o finalizes = Some (s', o') ->
  sl_ok s' /\ ledger_ok o'
  /\ sl_high_watermark s' = sl_high_watermark s + (if finalizes then 2 else 1).
Proof.
  intros Hs Ho. unfold apply_fenced_ledgers, ol_apply_fenced_recovery_finalizing_pending.
  destruct finalizes.
  - destruct (sl_apply_fenced_recovery_finalizing_pending s) as [s1|] eqn:Es; [|done].
    destruct (ol_apply_fenced_recovery o) as [o1|] eqn:Eo; [|done]. intros [= <- <-].
    apply sequence_finalizing_ok in Es as [? ?]; [|done]. by apply order_fenced_ok in Eo.
  - destruct (sl_apply_fenced_recovery s) as [s1|] eqn:Es; [|done].
    destruct (ol_apply_fenced_recovery o) as [o1|] eqn:Eo; [|done]. intros [= <- <-].
    apply sequence_fenced_ok in Es as [? ?]; [|done]. by apply order_fenced_ok in Eo.
Qed.

Lemma fenced_rows_length p s o rows b : fenced_records_match p s o rows b = true ->
  zlen rows = if bool_decide (length rows = 2%nat) then 2 else 1.
Proof.
  unfold fenced_records_match. destruct (last rows) as [r|] eqn:El; [|done].
  destruct (fp_binding p); [|done]. destruct (negb _); [done|].
  destruct rows as [|r1 [|r2 [|r3 rows]]]; [done|done|done|]. simpl.
  by destruct (rsb_terminal s), (rob_active_binding o).
Qed.

Lemma fenced_attach_ok f p epoch rows f' : frontier_inv f ->
  map rcr_delivery_seq rows
  = seqZ (sl_high_watermark (scf_ledger (cf_sequence f)) + 1) (zlen rows) ->
  apply_live_fenced_attach f p epoch rows = Ok f' -> frontier_inv f'.
Proof.
  intros (Hranks & Hs & Ho & Hagree & Hk & Hfl & Hrows & Hmk) Hat. unfold apply_live_fenced_attach.
  destruct (find_participant _ _) as [q|] eqn:Ef; [|done].
  destruct (scf_recovery (cf_sequence f)) as [bs|]; [|done].
  destruct (ocf_recovery (cf_order f)) as [bo|]; [|done].
  destruct (fenced_recovery_authority_matches _ _ _ _ _); simpl; [|done].
  destruct (negb (_ || _)); [done|].
  destruct (fenced_records_match _ _ _ _ _) eqn:Em; simpl; [|done].
  destruct (has_recovery_marker _ _); simpl; [|done].
  destruct (has_duplicate_appended_record _ _); [done|].
  destruct (apply_fenced_ledgers _ _ _) as [[ls lo]|] eqn:El; [|done].
  apply fenced_ledgers_ok in El as (Hls & Hlo & Hhigh); [|apply Hs|apply Ho].
  rewrite <- (fenced_rows_length _ _ _ _ _ Em) in Hhigh.
  destruct (ActiveIdentityRanks_try_new _ _ _) as [a|] eqn:Ea; [|done].
  apply try_new_Ok in Ea as [-> Hr].
  destruct (rebuild_unreserved_frontiers _ _ _) as [[s o]|] eqn:Eb; [|done]. intros [= <-].
  apply rebuild_unreserved_ok in Eb as ((Hs' & Ho' & Hag & Hk') & El' & Eo & _); try done.
  2:{ by eapply ranks_NoDup. }
  unfold frontier_inv, rows_ok; simpl. rewrite El', Hhigh. pose proof (zlen_nonneg rows).
  split_and!; try done; try lia.
  - by rewrite <- Hhigh.
  - apply sorted_keys; [apply seqZ_sorted|].
    pose proof (rows_append _ _ _ _ (proj2 Hfl) Hrows Hat) as Happ.
    apply eq_perm. etrans; [exact Happ|]. f_equal; lia.
  - apply Forall_forall. intros r Hin. apply list_elem_of_In, filter_In in Hin as [Hin _].
    apply list_elem_of_In in Hin. destruct (proj1 (Forall_forall _ _) Hmk r Hin) as [Hrow Hm].
    split; [|done]. rewrite sort_by_key_perm. apply elem_of_app. by left.
Qed.

(** ** Fenced markers *)

Lemma set_issued_ok f issued : frontier_inv f -> frontier_inv (set_fenced_issued f issued).
Proof. done. Qed.
Lemma take_fenced_ok f r : frontier_inv f -> frontier_inv (take_fenced_marker_record f r).1.
Proof. intros Hf. unfold take_fenced_marker_record. by destruct (fenced_marker_source f r). Qed.
