(* ===== verification/ProjectionRuns.v ===== *)
(** * Ordinary record projection: the floor search and the frontiers

    The search of [RecordProjection] ends, and it ends at the least floor at which the
    record fits; a projection that fails gives back the frontiers it was given; one that
    succeeds keeps the invariant of [FrontierInv]. *)
From stdpp Require Import sorting.
From S2P Require Import Prelude FrontierRuns Algebra Tags Wire Response Order Sequence Edge.
From S2P Require Import EdgeSteps Binding Member Detach Leave Attach Closure Frontier.
From S2P Require Import FrontierNumeric FrontierLive FrontierInit RecordProjection FrontierRestore.
From S2P Require Import FrontierLeave FrontierInv.

(** ** Errors of the model *)

(** A computation that never runs out of the fuel of the model. *)
Definition finished {A} (r : projection A) : Prop := r <> Err OPE_Unfinished.

(** The errors the search itself does not raise. *)
Definition plain_error (e : OrdinaryProjectionError) : bool :=
  match e with OPE_Unfinished | OPE_Capacity _ _ => false | _ => true end.
Definition plain {A} (r : projection A) : Prop := forall e, r = Err e -> plain_error e = true.

Lemma plain_finished {A} (r : projection A) : plain r -> finished r.
Proof. intros H E. by specialize (H _ E). Qed.
Lemma finished_bind {A B} (r : projection A) (k : A -> projection B) :
  finished r -> (forall a, r = Ok a -> finished (k a)) -> finished (let? a := r in k a).
Proof. intros Hr Hk. destruct r as [a|e]; simpl; [by apply Hk|]. intros [= ->]. by apply Hr. Qed.
Lemma plain_bind {A B} (r : projection A) (k : A -> projection B) :
  plain r -> (forall a, r = Ok a -> plain (k a)) -> plain (let? a := r in k a).
Proof. intros Hr Hk. destruct r as [a|e]; simpl; [by apply Hk|]. intros ? [= <-]. by apply Hr. Qed.
Lemma plain_ok_or {A} (o : option A) e : plain_error e = true -> plain (ok_or o e).
Proof. intros He. destruct o; simpl; intros ?; [done|]. by intros [= <-]. Qed.
Lemma plain_map_err {A E} (g : E -> OrdinaryProjectionError) (r : result A E) :
  (forall e, plain_error (g e) = true) -> plain (map_err g r).
Proof. intros Hg. destruct r as [a|e]; simpl; intros ?; [done|]. intros [= <-]. apply Hg. Qed.
Lemma plain_Ok {A} (a : A) : plain (Ok a).
Proof. done. Qed.
Lemma plain_Err {A} e : plain_error e = true -> plain (Err e : projection A).
Proof. by intros He ? [= <-]. Qed.

Create HintDb plain.
#[export] Hint Resolve plain_bind plain_ok_or plain_map_err plain_Ok plain_Err : plain.

Lemma add_resource_plain w r : plain (checked_add_resource w r).
Proof. unfold checked_add_resource. auto 6 with plain. Qed.
Lemma add_marker_plain w n m : plain (checked_add_marker_charge w n m).
Proof. unfold checked_add_marker_charge. auto 6 with plain. Qed.
#[export] Hint Resolve add_resource_plain add_marker_plain : plain.

Lemma charge_rows_plain floor credits m rows : forall w charges,
  plain (charge_rows floor credits m w rows charges).
Proof.
  induction rows as [|r rows IH]; intros w [|c charges]; simpl; try done.
  destruct (_ <? _); [apply IH|]. apply plain_bind; auto with plain.
Qed.
Lemma retained_charge_plain f floor credits n c :
  plain (retained_charge_at_floor f floor credits n c).
Proof.
  unfold retained_charge_at_floor. apply plain_bind; [apply charge_rows_plain|]. intros w _.
  apply plain_bind; [|auto with plain]. destruct c as [c|]; [destruct (_ <=? _)|];
    auto with plain.
Qed.
Lemma baseline_plain w slots credits m : plain (retained_baseline_wide w slots credits m).
Proof. unfold retained_baseline_wide. destruct (_ <? _); auto with plain. Qed.
Lemma required_plain f b : plain (required_maximum f b).
Proof. unfold required_maximum. auto with plain. Qed.
#[export] Hint Resolve retained_charge_plain baseline_plain required_plain : plain.
Lemma evaluate_plain f state c floor : plain (evaluate_floor f state c floor).
Proof. unfold evaluate_floor. auto 10 with plain. Qed.
#[export] Hint Resolve evaluate_plain : plain.

(** ** The search *)

Lemma find_seqZ floor n : forall a, a <= floor < a + n ->
  List.find (fun at_ => floor <=? at_) (seqZ a n) = Some floor.
Proof.
  intros a Ha. replace n with ((floor - a) + (n - (floor - a))) by lia.
  rewrite seqZ_split by lia. replace (a + (floor - a)) with floor by lia.
  assert (forall l k, Forall (fun x => x < floor) l ->
    List.find (fun at_ => floor <=? at_) (l ++ k) = List.find (fun at_ => floor <=? at_) k) as Hskip.
  { intros l k Hl. induction Hl as [|x l Hx _ IH]; simpl; [done|].
    by rewrite (proj2 (Z.leb_gt _ _)) by done. }
  rewrite Hskip by (apply Forall_forall; intros x Hx; apply elem_of_seqZ in Hx; lia).
  rewrite seqZ_cons by lia. simpl. by rewrite Z.leb_refl.
Qed.

Section Search.
Context (f : OrdinaryProjectionFacts) (state : MarkerState) (high : DeliverySeq).
Hypothesis Hrows : map rcr_delivery_seq (opf_retained_records f)
                   = seqZ (opf_current_floor f) (high - opf_current_floor f).
Hypothesis Hhigh : opf_current_floor f <= high <= u64_max.
Hypothesis Hfloor : 0 <= opf_current_floor f.

(** Between the floor and the new record there is a row at every sequence. *)
Lemma next_sequence_exact floor : opf_current_floor f <= floor ->
  next_sequence f high floor = if floor <=? high then Some floor else None.
Proof using Hrows Hhigh.
  intros Hf. unfold next_sequence.
  assert (map rcr_delivery_seq (opf_retained_records f) ++ [high]
          = seqZ (opf_current_floor f) (high + 1 - opf_current_floor f)) as E.
  { rewrite Hrows. replace (high + 1 - opf_current_floor f)
      with ((high - opf_current_floor f) + 1) by lia. rewrite seqZ_split by lia. f_equal.
    by rewrite seqZ_cons, seqZ_nil, Z.add_comm, Z.sub_add by lia. }
  etrans; [apply (f_equal (List.find _) E)|]. destruct (Z.leb_spec floor high).
  - apply find_seqZ. lia.
  - destruct (List.find _ _) eqn:Ef; [|done]. apply find_some in Ef as [Hin Hp].
    apply list_elem_of_In, elem_of_seqZ in Hin. apply Z.leb_le in Hp. lia.
Qed.

Definition rejected (floor : Z) : Prop :=
  exists round, evaluate_floor f state high floor = Ok round /\ admits f (cs_baseline round) = false.

(** What a search started at [floor] returns. *)
Definition searched (floor : Z) (r : projection CapacitySearch) : Prop :=
  finished r /\
  match r with
  | Ok round =>
      floor <= cs_floor round <= high + 1
      /\ evaluate_floor f state high (cs_floor round) = Ok round
      /\ admits f (cs_baseline round) = true
      /\ Forall (fun anchor => cs_floor round <= anchor) (ms_anchors state)
      /\ forall g, floor <= g < cs_floor round -> rejected g
  | Err (OPE_Capacity _ _) => forall g, floor <= g <= high + 1 -> rejected g
  | Err _ => True
  end.

Lemma searched_step floor r : rejected floor -> floor <= high ->
  searched (floor + 1) r -> searched floor r.
Proof using.
  intros Hrej Hf [Hfin Hr]. split; [done|]. destruct r as [round|[]]; try done.
  - destruct Hr as (Hb & ? & ? & ? & Hlow). split_and!; try done; [lia|lia|].
    intros g Hg. destruct (Z.eq_dec g floor) as [->|]; [done|]. apply Hlow. lia.
  - intros g Hg. destruct (Z.eq_dec g floor) as [->|]; [done|]. apply Hr. lia.
Qed.

Lemma evaluate_floor_at floor round : evaluate_floor f state high floor = Ok round ->
  cs_floor round = floor.
Proof using.
  unfold evaluate_floor. intros H. destruct (retained_charge_at_floor _ _ _ _ _); simpl in H; [|done].
  destruct (ok_or _ _); simpl in H; [|done]. destruct (retained_baseline_wide _ _ _ _); simpl in H; [|done].
  by injection H as <-.
Qed.

Lemma no_anchor_below floor : List.find (fun anchor => anchor <? floor) (ms_anchors state) = None ->
  Forall (fun anchor => floor <= anchor) (ms_anchors state).
Proof using.
  intros H. apply Forall_forall. intros a Ha. apply list_elem_of_In in Ha.
  pose proof (find_none _ _ H a Ha) as Hn. by apply Z.ltb_ge in Hn.
Qed.

Lemma search_loop_spec fuel : forall floor, opf_current_floor f <= floor <= high + 1 ->
  high + 2 - floor <= Z.of_nat fuel -> searched floor (search_loop fuel f state high floor).
Proof using Hrows Hhigh Hfloor.
  induction fuel as [|fuel IH]; intros floor Hf Hfuel; [lia|]. cbn [search_loop].
  pose proof (evaluate_plain f state high floor) as Hfin.
  destruct (evaluate_floor f state high floor) as [round|e] eqn:Ee.
  2:{ specialize (Hfin e eq_refl). split; [by intros [= ->]|]. by destruct e. }
  pose proof (evaluate_floor_at floor round Ee) as Hat.
  destruct (admits f (cs_baseline round)) eqn:Ea.
  { destruct (List.find _ _) as [anchor|] eqn:En.
    - unfold required_maximum. split; by destruct (RequiredCapacityPlan_ordinary _ _ _).
    - split; [done|]. rewrite Hat. split_and!; try done; try lia. by apply no_anchor_below. }
  rewrite next_sequence_exact by lia. destruct (Z.leb_spec floor high).
  - rewrite add_u128_exact by mlia. destruct (List.find _ _) as [anchor|] eqn:En.
    + unfold required_maximum. split; by destruct (RequiredCapacityPlan_ordinary _ _ _).
    + apply searched_step; [by exists round|lia|]. apply IH; lia.
  - unfold required_maximum. destruct (RequiredCapacityPlan_ordinary _ _ _); split; try done.
    intros g Hg. replace g with floor by lia. by exists round.
Qed.

Lemma search_spec floor : opf_current_floor f <= floor <= high + 1 ->
  searched floor (search_capacity_floor f state high floor).
Proof using Hrows Hhigh Hfloor.
  intros Hf. apply search_loop_spec; [done|].
  assert (zlen (opf_retained_records f) = high - opf_current_floor f) as Hl.
  { rewrite <- (zlen_map rcr_delivery_seq), Hrows. unfold zlen. rewrite length_seqZ. lia. }
  unfold zlen in Hl. lia.
Qed.
End Search.

(** ** The kernel *)

Lemma check_suffix_rows floor rows : forall index charges,
  length rows = length charges -> check_suffix index floor rows charges = Ok tt ->
  map rcr_delivery_seq rows = seqZ (floor + index) (zlen rows).
Proof.
  induction rows as [|r rows IH]; intros index [|c charges] Hl H; simpl in *; try done.
  destruct (_ || _) eqn:E; [done|].
  apply orb_false_elim in E as [E _]. apply orb_false_elim in E as [E _]. breflect.
  destruct (rv_entries _ =? 1); simpl in H; [|done].
  rewrite (IH (index + 1) charges) by (try done; lia). rewrite zlen_cons.
  pose proof (zlen_nonneg rows). rewrite (seqZ_cons _ (1 + zlen rows)) by lia.
  f_equal; [done|]. f_equal; lia.
Qed.

(** What ties a charge to its row. *)
Definition row_key (r : RetainedCausalRecord) : DeliverySeq * AdmissionOrder :=
  (rcr_delivery_seq r, rcr_admission_order r).
Definition charge_key (c : RetainedRecordCharge) : DeliverySeq * AdmissionOrder :=
  (rrc_delivery_seq c, rrc_admission_order c).
Definition one_entry (c : RetainedRecordCharge) : Prop := rv_entries (rrc_encoded_charge c) = 1.

Lemma check_suffix_keys floor rows : forall index charges, length rows = length charges ->
  check_suffix index floor rows charges = Ok tt <->
  map rcr_delivery_seq rows = seqZ (floor + index) (zlen rows)
  /\ map charge_key charges = map row_key rows /\ Forall one_entry charges.
Proof.
  intros index charges Hl. split.
  - intros H. split; [by eapply check_suffix_rows|]. revert index charges Hl H.
    induction rows as [|r rows IH]; intros index [|c charges] Hl H; simpl in *; try done.
    destruct (_ || _) eqn:E; [done|]. apply orb_false_elim in E as [E E3].
    apply orb_false_elim in E as [E1 E2]. apply negb_false_iff, bool_decide_eq_true in E3. breflect.
    destruct (Z.eqb_spec (rv_entries (rrc_encoded_charge c)) 1); simpl in H; [|done].
    destruct (IH _ _ (eq_add_S _ _ Hl) H) as [-> ?]. split; [|by constructor].
    unfold charge_key, row_key. congruence.
  - revert index charges Hl. induction rows as [|r rows IH]; intros index [|c charges] Hl (Hr & Hk & He);
      try done. simpl in Hr, Hk, Hl. rewrite zlen_cons in Hr. pose proof (zlen_nonneg rows).
    rewrite (seqZ_cons _ (1 + zlen rows)) in Hr by lia. injection Hr as Hr1 Hr.
    injection Hk as Hk1 Hk2 Hk. apply Forall_cons in He as [He1 He]. cbn [check_suffix].
    rewrite Hk1, Hk2, Hr1, !Z.eqb_refl, bool_decide_true by done. cbn [negb orb].
    unfold one_entry in He1. rewrite He1. cbn [negb Z.eqb Pos.eqb]. apply IH; [lia|]. split_and!; [|done|done].
    etrans; [exact Hr|]. f_equal; lia.
Qed.

Lemma retained_suffix_Ok f : u64 (sl_high_watermark (opf_sequence_ledger f)) ->
  validate_retained_suffix f = Ok tt ->
  opf_current_floor f <= sl_high_watermark (opf_sequence_ledger f) + 1
  /\ map rcr_delivery_seq (opf_retained_records f)
     = seqZ (opf_current_floor f)
         (sl_high_watermark (opf_sequence_ledger f) + 1 - opf_current_floor f).
Proof.
  intros Hh. unfold validate_retained_suffix. rewrite add_u128_exact by mlia.
  destruct (Z.ltb_spec (sl_high_watermark (opf_sequence_ledger f) + 1) (opf_current_floor f)); [done|].
  destruct (_ || _) eqn:E; [done|]. apply orb_false_elim in E as [E1 E2].
  apply negb_false_iff, bool_decide_eq_true in E2. breflect.
  destruct (check_suffix _ _ _ _) as [[]|] eqn:Ec; simpl; [|done]. intros _. split; [lia|].
  apply check_suffix_rows in Ec; [|done]. etrans; [exact Ec|]. f_equal; lia.
Qed.

Lemma minimum_cursor_u64 ps m : Forall (fun p => u64 (fp_cursor p)) ps ->
  minimum_cursor ps = Some m -> u64 m.
Proof.
  destruct ps as [|p ps]; [done|]. intros H. apply Forall_cons in H as [Hp Hps]. simpl. intros [= <-].
  revert Hp. generalize (fp_cursor p) as c. induction Hps as [|q qs Hq _ IH]; intros c Hc; simpl; [done|].
  apply IH. mlia.
Qed.

Lemma positioned_markers_spec major caller physical ps : forall index markers,
  positioned_markers index ps major caller physical = Ok markers ->
  map mca_delivery_seq markers = seqZ (caller + index + 1) (zlen ps)
  /\ map mca_admission_order markers
     = map (fun p => mkAdmissionOrder major CP_CompactionMarker (fp_participant_index p)) ps
  /\ Forall (fun m => mca_current_owner m = MSO_Marker) markers /\ zlen markers = zlen ps.
Proof.
  induction ps as [|p ps IH]; intros index markers; simpl.
  { intros [= <-]. by split_and!. }
  destruct (checked_add u64_max index 1) as [off|] eqn:E1; simpl; [|done].
  destruct (checked_add u64_max caller off) as [d|] eqn:E2; simpl; [|done].
  apply checked_add_Some in E1 as [-> _], E2 as [-> _].
  destruct (positioned_markers _ _ _ _ _) as [rest|] eqn:Er; simpl; [|done]. intros [= <-].
  destruct (IH _ _ Er) as (H1 & H2 & H3 & H4). pose proof (zlen_nonneg ps). simpl.
  rewrite H1, H2, !zlen_cons, H4. split_and!; [|done|by constructor|done].
  rewrite (seqZ_cons _ (1 + zlen ps)) by lia. f_equal; [lia|]. f_equal; lia.
Qed.

Lemma newly_overtaken_sub ps credits floor : newly_overtaken ps credits floor `sublist_of` ps.
Proof.
  unfold newly_overtaken. induction ps as [|p ps IH]; simpl; [done|]. destruct (_ && _); by constructor.
Qed.
Lemma sublist_map {A B} (g : A -> B) l k : l `sublist_of` k -> map g l `sublist_of` map g k.
Proof. induction 1; simpl; by constructor. Qed.
Lemma Forall_sublist {A} (P : A -> Prop) l k : l `sublist_of` k -> Forall P k -> Forall P l.
Proof. induction 1; intros HF; [done|..]; inversion HF; subst; auto. Qed.
Lemma StronglySorted_sublist {A} (R : A -> A -> Prop) l k : l `sublist_of` k ->
  StronglySorted R k -> StronglySorted R l.
Proof.
  induction 1 as [|x l k Hs IH|x l k Hs IH]; intros H; [done|..]; inversion H; subst.
  - constructor; [by apply IH|]. by eapply Forall_sublist.
  - by apply IH.
Qed.

Lemma surviving_rows_filter floor rows : forall charges, length rows = length charges ->
  (surviving_rows floor rows charges).1
  = List.filter (fun r => floor <=? rcr_delivery_seq r) rows.
Proof.
  induction rows as [|r rows IH]; intros [|c charges] Hl; simpl in *; try done.
  rewrite <- (IH charges) by lia. by destruct (_ <=? _).
Qed.

Lemma surviving_charges_filter floor rows : forall charges,
  map rrc_delivery_seq charges = map rcr_delivery_seq rows ->
  (surviving_rows floor rows charges).2
  = List.filter (fun c => floor <=? rrc_delivery_seq c) charges.
Proof.
  induction rows as [|r rows IH]; intros [|c charges] Hl; simpl in *; try done.
  injection Hl as Hc Hl. rewrite <- (IH charges Hl), Hc. by destruct (_ <=? _).
Qed.
Lemma keys_delivery charges rows : map charge_key charges = map row_key rows ->
  map rrc_delivery_seq charges = map rcr_delivery_seq rows.
Proof. intros H. apply (f_equal (map fst)) in H. by rewrite !map_map in H. Qed.

(** The resulting rows are the rows at or above the floor, and the caller's. *)
Lemma resulting_rows_spec f floor r c :
  length (opf_retained_records f) = length (opf_retained_charges f) ->
  (resulting_retained_rows f floor r c).1
  = List.filter (fun x => floor <=? rcr_delivery_seq x) (opf_retained_records f ++ [r]).
Proof.
  intros Hl. unfold resulting_retained_rows. rewrite List.filter_app. simpl.
  rewrite <- (surviving_rows_filter _ _ _ Hl). destruct (_ <=? _); simpl; [done|]. by rewrite app_nil_r.
Qed.

Lemma resulting_charges_spec f floor r c : rrc_delivery_seq c = rcr_delivery_seq r ->
  map rrc_delivery_seq (opf_retained_charges f) = map rcr_delivery_seq (opf_retained_records f) ->
  (resulting_retained_rows f floor r c).2
  = List.filter (fun x => floor <=? rrc_delivery_seq x) (opf_retained_charges f ++ [c]).
Proof.
  intros Hc Hk. unfold resulting_retained_rows. rewrite List.filter_app. simpl. rewrite Hc.
  rewrite <- (surviving_charges_filter _ _ _ Hk). destruct (_ <=? _); simpl; [done|]. by rewrite app_nil_r.
Qed.

(** The values the facts hold are those their types can hold. *)
Definition facts_ok (f : OrdinaryProjectionFacts) : Prop :=
  sl_ok (opf_sequence_ledger f) /\ ledger_ok (opf_order_ledger f) /\ 0 <= opf_current_floor f
  /\ u64 (opf_observer_progress f) /\ Forall (fun p => u64 (fp_cursor p)) (opf_active_identities f).

(** The floor the search starts from: where the members and the observer have got to. *)
Definition base_floor (f : OrdinaryProjectionFacts) : Z :=
  let high := sl_high_watermark (opf_sequence_ledger f) + 1 in
  Z.max (opf_current_floor f)
    (Z.min (default high (minimum_cursor (opf_active_identities f))) (opf_observer_progress f) + 1).

(** What the preflight established. *)
Lemma preflight_Ok f state : facts_ok f -> projection_preflight f = Ok state ->
  opf_observer_progress f <= sl_high_watermark (opf_sequence_ledger f)
  /\ opf_current_floor f <= sl_high_watermark (opf_sequence_ledger f) + 1
  /\ map rcr_delivery_seq (opf_retained_records f)
     = seqZ (opf_current_floor f)
         (sl_high_watermark (opf_sequence_ledger f) + 1 - opf_current_floor f)
  /\ length (opf_retained_records f) = length (opf_retained_charges f)
  /\ map charge_key (opf_retained_charges f) = map row_key (opf_retained_records f)
  /\ rv_entries (opf_encoded_record_charge f) = 1.
Proof.
  intros ((Hh & _) & _). unfold projection_preflight.
  destruct (validate_clear_snapshot f) as [[]|] eqn:E1; simpl; [|done].
  destruct (validate_sender f) as [[]|]; simpl; [|done].
  destruct (validate_retained_suffix f) as [[]|] eqn:E2; simpl; [|done]. intros _.
  pose proof (retained_suffix_Ok f Hh E2) as [? ?]. split_and!; try done.
  - unfold validate_clear_snapshot in E1. destruct (negb _); [done|]. destruct (_ || _); [done|].
    by destruct (Z.ltb_spec (sl_high_watermark (opf_sequence_ledger f)) (opf_observer_progress f)).
  - unfold validate_retained_suffix in E2. destruct (_ <? _); [done|].
    destruct (_ || _) eqn:E; [done|]. apply orb_false_elim in E as [_ E].
    by apply negb_false_iff, bool_decide_eq_true in E.
  - unfold validate_retained_suffix in E2. destruct (_ <? _); [done|].
    destruct (_ || _) eqn:E; [done|]. apply orb_false_elim in E as [_ E].
    apply negb_false_iff, bool_decide_eq_true in E.
    destruct (check_suffix _ _ _ _) as [[]|] eqn:Ec; [|done].
    apply check_suffix_keys in Ec as (_ & Hk & _); done.
  - unfold validate_retained_suffix in E2. destruct (_ <? _); [done|]. destruct (_ || _); [done|].
    destruct (check_suffix _ _ _ _) as [[]|]; [|done]. cbn in E2.
    by destruct (Z.eqb_spec (rv_entries (opf_encoded_record_charge f)) 1).
Qed.

Lemma base_floor_exact f cap : facts_ok f ->
  sl_high_watermark (opf_sequence_ledger f) + 1 <= u64_max ->
  resulting_floor (floor_transition (opf_current_floor f) (minimum_cursor (opf_active_identities f))
    (sl_high_watermark (opf_sequence_ledger f) + 1) (opf_observer_progress f) cap)
  = Z.max (base_floor f) cap.
Proof.
  intros ((Hh & _) & _ & _ & Ho & Hc) Hu. rewrite floor_transition_max; [done|mlia|done|].
  intros m Hm. by eapply minimum_cursor_u64.
Qed.

(** What a planned record is. *)
Record planned (f : OrdinaryProjectionFacts) (state : MarkerState) (search : CapacitySearch)
    (plan : OrdinaryFixedPointPlan) : Prop := {
  pl_no_candidates : opf_immutable_candidates f = [];
  pl_preflight : projection_preflight f = Ok state;
  pl_high : sl_high_watermark (opf_sequence_ledger f) + 1 <= u64_max;
  pl_search : searched f state (sl_high_watermark (opf_sequence_ledger f) + 1) (base_floor f)
                (Ok search);
  pl_observer : cs_floor search <= opf_observer_progress f + 1;
  pl_floor : resulting_floor (ofp_floor plan) = cs_floor search;
  pl_baseline : ofp_baseline plan = cs_baseline search;
  pl_order : ofp_order plan =
    mkOrderAllocation (next_major (ol_high (opf_order_ledger f)))
      (mkOrderLedger (OH_Allocated (next_major (ol_high (opf_order_ledger f))))
         (ol_claims (opf_order_ledger f)));
  pl_order_ok : ledger_ok (oa_resulting (ofp_order plan));
  pl_sequence_ok : sl_ok (ofp_sequence plan);
  pl_sequence_high : sl_high_watermark (ofp_sequence plan)
                     = sl_high_watermark (opf_sequence_ledger f) + 1;
  pl_sequence_claims : sl_claims (ofp_sequence plan) =
    let c := sl_claims (opf_sequence_ledger f) in
    mkSequenceClaims (sc_live_members c) (sc_binding_terminals c)
      (sc_markers c + zlen (ofp_marker_candidates plan)) (sc_recovery c);
  pl_markers_at : map mca_delivery_seq (ofp_marker_candidates plan)
    = seqZ (sl_high_watermark (opf_sequence_ledger f) + 2) (zlen (ofp_marker_candidates plan));
  pl_marker_keys : map mca_admission_order (ofp_marker_candidates plan)
    = map (fun p => mkAdmissionOrder (oa_major (ofp_order plan)) CP_CompactionMarker
                      (fp_participant_index p)) (cs_marker_participants search);
  pl_marker_owners : Forall (fun m => mca_current_owner m = MSO_Marker) (ofp_marker_candidates plan);
  pl_rows : ofp_retained_records plan =
    List.filter (fun r => cs_floor search <=? rcr_delivery_seq r)
      (opf_retained_records f ++ [ofp_caller_record plan]);
  pl_caller : rcr_delivery_seq (ofp_caller_record plan)
              = sl_high_watermark (opf_sequence_ledger f) + 1;
  pl_caller_charge : ofp_caller_charge plan =
    mkRetainedRecordCharge (rcr_delivery_seq (ofp_caller_record plan))
      (rcr_admission_order (ofp_caller_record plan)) (opf_encoded_record_charge f);
  pl_caller_kind : is_compaction_marker (ofp_caller_record plan) = false;
  pl_charges : ofp_retained_charges plan =
    List.filter (fun c => cs_floor search <=? rrc_delivery_seq c)
      (opf_retained_charges f ++ [ofp_caller_charge plan]);
  pl_credits : zlen (cs_surviving_credits search) + zlen (ofp_marker_candidates plan) <= u64_max;
  pl_accounting :
    ClosureAccounting_try_new Closure_Clear
      (zlen (cs_surviving_credits search) + zlen (ofp_marker_candidates plan))
      (cs_surviving_anchor_count search + zlen (ofp_marker_candidates plan)) 0 0
      ResourceVector_default (cs_baseline search) (ca_configured_cap (opf_closure_accounting f)) 0
      (ca_episode_churn_limit (opf_closure_accounting f)) = Ok (ofp_resulting_accounting plan);
}.

Lemma plan_ordinary_admitted l n request resulting l' : sl_ok l -> 0 <= n ->
  sl_plan_ordinary_record l n = Ok resulting -> admit_sequence request resulting = Ok l' ->
  sl_ok l' /\ sl_high_watermark l' = sl_high_watermark l + 1
  /\ sl_claims l' = mkSequenceClaims (sc_live_members (sl_claims l)) (sc_binding_terminals (sl_claims l))
                      (sc_markers (sl_claims l) + n) (sc_recovery (sl_claims l)).
Proof.
  intros (Hh & (HL & HT & HM) & _) Hn Hp Ha.
  unfold sl_plan_ordinary_record, sl_checked_high_watermark, sl_checked_markers, ok_or in Hp.
  destruct (checked_add _ _ 1) as [h|] eqn:E1; [|done].
  destruct (checked_add _ _ n) as [m|] eqn:E2; [|done].
  apply checked_add_Some in E1 as [-> ?], E2 as [-> ?]. injection Hp as <-.
  rewrite admit_sequence_exact in Ha by (simpl; unfold sc_ok; simpl; mlia). simpl in Ha.
  destruct (Z.leb_spec (reserve (mkSequenceClaims (sc_live_members (sl_claims l))
    (sc_binding_terminals (sl_claims l)) (sc_markers (sl_claims l) + n) (sc_recovery (sl_claims l))))
    (u64_max - (sl_high_watermark l + 1))); [|done].
  injection Ha as <-. unfold sl_ok, sc_ok; simpl. split_and!; try done; mlia.
Qed.

Lemma evaluate_markers f state high floor round : evaluate_floor f state high floor = Ok round ->
  cs_marker_participants round `sublist_of` opf_active_identities f.
Proof.
  unfold evaluate_floor. intros H. destruct (retained_charge_at_floor _ _ _ _ _); simpl in H; [|done].
  destruct (ok_or _ _); simpl in H; [|done]. destruct (retained_baseline_wide _ _ _ _); simpl in H; [|done].
  injection H as <-. apply newly_overtaken_sub.
Qed.

Lemma base_floor_range f : facts_ok f ->
  opf_observer_progress f <= sl_high_watermark (opf_sequence_ledger f) ->
  opf_current_floor f <= sl_high_watermark (opf_sequence_ledger f) + 1 ->
  opf_current_floor f <= base_floor f <= sl_high_watermark (opf_sequence_ledger f) + 1.
Proof. intros _ Ho Hf. unfold base_floor. lia. Qed.

Lemma planned_spec f plan : facts_ok f ->
  project_ordinary_fixed_point f = Ok (OKD_Projected plan) ->
  exists state search, planned f state search plan.
Proof.
  intros Hf. pose proof Hf as (Hs & Ho & Hfl & Hobs & Hc). unfold project_ordinary_fixed_point.
  destruct (opf_immutable_candidates f) as [|] eqn:Ec; [|done].
  destruct (projection_preflight f) as [state|] eqn:Ep; [|done].
  destruct (preflight_Ok f state Hf Ep) as (Hobs' & Hcf & Hrows & Hlen & Hkeys & _).
  destruct (allocate_order _ _ _) as [order|] eqn:Eo; cbn [ok_or map_err]; [|done].
  pose proof Eo as Eo'. apply allocate_order_ok in Eo'; [|done|apply Ho].
  apply allocate_order_Ok in Eo as (-> & _); [|done|apply Ho].
  destruct (checked_add u64_max _ 1) as [high|] eqn:Eh; cbn [ok_or map_err]; [|done].
  apply checked_add_Some in Eh as [-> Hh]. rewrite base_floor_exact by done.
  pose proof (base_floor_range f Hf Hobs' Hcf) as Hbase. rewrite Z.max_l by lia.
  pose proof (search_spec f state _ Hrows (conj Hcf Hh) Hfl (base_floor f) ltac:(lia)) as Hsearch.
  destruct (search_capacity_floor _ _ _ _) as [search|] eqn:Es; cbn [ok_or map_err]; [|done].
  pose proof Hsearch as (_ & Hsf & _). rewrite add_u128_exact by mlia.
  destruct (Z.ltb_spec (opf_observer_progress f + 1) (cs_floor search)); [done|].
  pose proof (base_floor_exact f (cs_floor search) Hf Hh) as Hres.
  rewrite Z.max_r in Hres by lia. remember (floor_transition _ _ _ _ (cs_floor search)) as fl eqn:Efl.
  destruct (sl_plan_ordinary_record _ _) as [rs|] eqn:Er; cbn [ok_or map_err]; [|done].
  destruct (admit_sequence _ rs) as [l|] eqn:El; cbn [ok_or map_err]; [|done].
  pose proof (plan_ordinary_admitted _ _ _ _ _ Hs (zlen_nonneg _) Er El) as (Hl & Hlh & Hlc).
  destruct (u64_try_from _) as [physical|]; cbn [ok_or map_err]; [|done].
  destruct (positioned_markers _ _ _ _ _) as [markers|] eqn:Em; cbn [ok_or map_err]; [|done].
  apply positioned_markers_spec in Em as (Hm1 & Hm2 & Hm3 & Hm4).
  destruct (checked_add _ (zlen (cs_surviving_credits _)) _) as [cr|] eqn:Ecr; cbn [ok_or map_err]; [|done].
  destruct (checked_add _ (cs_surviving_anchor_count _) _) as [an|] eqn:Ean; cbn [ok_or map_err]; [|done].
  apply checked_add_Some in Ecr as [-> Hcr], Ean as [-> _].
  destruct (RequiredCapacityPlan_ordinary _ _ _); cbn [ok_or map_err]; [|done].
  destruct (negb _); [done|].
  destruct (ClosureAccounting_try_new _ _ _ _ _ _ _ _ _ _) eqn:Eacc; cbn [ok_or map_err]; [|done].
  intros [= <-]. exists state, search.
  constructor; cbn [ofp_floor ofp_baseline ofp_order ofp_sequence ofp_marker_candidates
    ofp_retained_records ofp_caller_record ofp_caller_charge ofp_retained_charges
    ofp_resulting_accounting oa_resulting]; try done.
  - by rewrite Hlc, Hm4.
  - rewrite Hm1, Hm4. f_equal. lia.
  - rewrite Hres. by apply resulting_rows_spec.
  - rewrite Hres. apply resulting_charges_spec; [done|]. by apply keys_delivery.
  - by rewrite Hm4.
  - by rewrite Hm4.
Qed.

(** ** Moving the owners *)

Lemma option_map_ext_in {A B} (g h : A -> B) o : (forall x, o = Some x -> g x = h x) ->
  option_map g o = option_map h o.
Proof. destruct o; simpl; intros H; [|done]. by rewrite H. Qed.

(** Only the positions [movable_sequences] and [movable_orders] list are read. *)
Lemma map_sequence_ext g h s : (forall x, x ∈ movable_sequences s -> g x = h x) ->
  map_sequence_owners g s = map_sequence_owners h s.
Proof.
  intros H. unfold map_sequence_owners, movable_sequences in *. f_equal.
  - apply map_ext_in. intros c Hc. rewrite H; [done|]. apply elem_of_app. left.
    apply list_elem_of_fmap_2. by apply list_elem_of_In.
  - f_equal.
    + apply map_ext_in. intros r Hr. unfold map_terminal_range. rewrite H; [done|].
      rewrite !elem_of_app. right. left. apply list_elem_of_fmap_2. by apply list_elem_of_In.
    + apply option_map_ext_in. intros r Hr. unfold map_replacement_range. rewrite H; [done|].
      rewrite !elem_of_app, Hr. right. right. left. left.
    + apply map_ext_in. intros r Hr. unfold map_exit_range. rewrite H; [done|].
      rewrite !elem_of_app. do 3 right. left. apply list_elem_of_fmap_2. by apply list_elem_of_In.
  - apply option_map_ext_in. intros b Hb. rewrite Hb in H. unfold map_sequence_block.
    assert (forall x, x ∈ block_sequences b -> g x = h x) as Hx.
    { intros x Hx. apply H. rewrite !elem_of_app. do 4 right. done. }
    unfold block_sequences in Hx. rewrite (Hx (rsb_recovery_attach_seq b)),
      (Hx (rsb_replacement_terminal_seq b)) by (apply elem_of_app; right; set_solver).
    f_equal. apply option_map_ext_in. intros t Ht. rewrite Hx; [done|]. rewrite Ht. set_solver.
Qed.
Lemma map_order_ext g h o : (forall x, x ∈ movable_orders o -> g x = h x) ->
  map_order_owners g o = map_order_owners h o.
Proof.
  intros H. unfold map_order_owners, movable_orders in *. f_equal.
  - apply map_ext_in. intros c Hc. rewrite H; [done|]. apply elem_of_app. left.
    apply list_elem_of_fmap_2. by apply list_elem_of_In.
  - apply option_map_ext_in. intros b Hb. rewrite Hb in H. unfold map_order_block.
    assert (forall x, x ∈ block_orders b -> g x = h x) as Hx.
    { intros x Hx. apply H. rewrite !elem_of_app. by right. }
    unfold block_orders in Hx. rewrite (Hx (rob_recovery_operation_order b)),
      (Hx (rob_replacement_terminal_order b)) by (apply elem_of_app; right; set_solver).
    f_equal. apply option_map_ext_in. intros t Ht. rewrite Hx; [done|]. rewrite Ht. set_solver.
Qed.

Lemma map_sequence_map g h s :
  map_sequence_owners g (map_sequence_owners h s) = map_sequence_owners (fun x => g (h x)) s.
Proof.
  destruct s as [l mv ic [tp rp ep] [[[t|] at_ rp' p m e]|]]; unfold map_sequence_owners; simpl;
    rewrite !map_map; by destruct rp.
Qed.
Lemma map_order_map g h o :
  map_order_owners g (map_order_owners h o) = map_order_owners (fun x => g (h x)) o.
Proof.
  destruct o as [l mv ic [[[t|] at_ rp p m e]|]]; unfold map_order_owners; simpl; by rewrite !map_map.
Qed.
Lemma map_sequence_id s : map_sequence_owners (fun x => x) s = s.
Proof.
  destruct s as [l mv ic [tp rp ep] r]. unfold map_sequence_owners; simpl. f_equal.
  - erewrite map_ext; [apply map_id|]. by intros [].
  - f_equal; [|by destruct rp as [[]|]|]; (erewrite map_ext; [apply map_id|]; by intros []).
  - by destruct r as [[[[]|] ? ? ? ? ?]|].
Qed.
Lemma map_order_id o : map_order_owners (fun x => x) o = o.
Proof.
  destruct o as [l mv ic r]. unfold map_order_owners; simpl. f_equal.
  - erewrite map_ext; [apply map_id|]. by intros [].
  - by destruct r as [[[[]|] ? ? ? ? ?]|].
Qed.

Lemma all_move_spec positions delta : all_move positions delta = true <->
  forall x, x ∈ positions -> x + delta <= u64_max.
Proof.
  unfold all_move. rewrite forallb_forall. split.
  - intros H x Hx. apply list_elem_of_In, H in Hx. unfold is_some in Hx.
    destruct (checked_add u64_max x delta) eqn:E; [|done]. by apply checked_add_Some in E as [_ ?].
  - intros H x Hx. apply list_elem_of_In, H in Hx. by rewrite checked_add_exact.
Qed.

(** Relaying is exact where the preflight passed, and the rollback undoes it. *)
Section Relay.
Context (delta : Z).
Hypothesis Hdelta : 0 <= delta.
Definition fits (positions : list Z) : Prop := forall x, x ∈ positions -> 0 <= x /\ x + delta <= u64_max.

Lemma relay_exact s : fits (movable_sequences s) ->
  relay_ordinary_sequence_owners s delta = map_sequence_owners (fun x => x + delta) s.
Proof using Hdelta.
  intros H. apply map_sequence_ext. intros x Hx. apply H in Hx as [? ?]. apply add_u64_exact. lia.
Qed.
Lemma relay_rollback s : fits (movable_sequences s) -> scf_immutable_candidates s = [] ->
  forall plan, rolled_back_sequence s (projected_sequence s plan delta) delta = s.
Proof using Hdelta.
  intros H Hc plan. unfold rolled_back_sequence, projected_sequence, rollback_ordinary_sequence_owners.
  rewrite relay_exact by done. etrans; [|etrans; [|apply (map_sequence_id s)]].
  - etrans; [|apply (map_sequence_map (fun at_ => sub_u64 at_ delta) (fun x => x + delta) s)].
    unfold map_sequence_owners; simpl. by rewrite Hc.
  - apply map_sequence_ext. intros x Hx. apply H in Hx as [? ?]. rewrite sub_u64_exact by lia. lia.
Qed.
End Relay.

Lemma relay_order_exact o : fits 1 (movable_orders o) ->
  relay_ordinary_order_owners o = map_order_owners (fun x => x + 1) o.
Proof.
  intros H. apply map_order_ext. intros x Hx. apply H in Hx as [? ?]. apply add_u64_exact. lia.
Qed.
Lemma relay_order_rollback o : fits 1 (movable_orders o) -> ocf_immutable_candidates o = [] ->
  forall plan, rolled_back_order o (projected_order o plan) = o.
Proof.
  intros H Hc plan. unfold rolled_back_order, projected_order, rollback_ordinary_order_owners.
  rewrite relay_order_exact by done. etrans; [|etrans; [|apply (map_order_id o)]].
  - etrans; [|apply (map_order_map (fun at_ => sub_u64 at_ 1) (fun x => x + 1) o)].
    unfold map_order_owners; simpl. by rewrite Hc.
  - apply map_order_ext. intros x Hx. apply H in Hx as [? ?]. rewrite sub_u64_exact by lia. lia.
Qed.

(** ** The positions of a frontier *)

Lemma movable_position_ge a s x : sequence_ok a s -> x ∈ movable_positions s ->
  sl_high_watermark (scf_ledger s) + 1 <= x.
Proof.
  intros (_ & _ & _ & _ & _ & _ & (_ & P2 & _)) Hx. rewrite P2 in Hx. apply elem_of_seqZ in Hx.
  pose proof (zlen_nonneg (scf_immutable_candidates s)). lia.
Qed.
Lemma no_live_no_terminals a s : sequence_ok a s -> air_len a = 0 -> all_terminals s = [].
Proof.
  intros (_ & _ & _ & (_ & T1 & T2 & _) & _) Ha.
  assert (air_participants a = []) as Hp by (apply nil_length_inv; unfold air_len, zlen in Ha; lia).
  unfold bound_owners, epoch_owners in *. rewrite Hp in *. simpl in *. unfold all_terminals.
  assert (claimed_terminals s = []) as ->.
  { destruct (claimed_terminals s) as [|x l]; [done|]. specialize (T1 x ltac:(left)).
    by apply not_elem_of_nil in T1. }
  destruct (candidate_terminals s) as [|x l]; [done|]. specialize (T2 x ltac:(left)).
  by apply not_elem_of_nil in T2.
Qed.

Lemma movable_nonneg a s x : sequence_ok a s -> x ∈ movable_sequences s -> 0 <= x.
Proof.
  intros Hs Hx. pose proof Hs as ((Hh & _) & _ & _ & _ & (PR1 & PR2 & _) & _ & (_ & _ & P3 & P4)).
  assert (forall y, y ∈ movable_positions s -> 0 <= y) as Hpos.
  { intros y Hy. apply (movable_position_ge a) in Hy; [mlia|done]. }
  unfold movable_sequences in Hx. rewrite !elem_of_app in Hx. destruct Hx as [H|[H|[H|[H|H]]]].
  - apply Hpos. unfold movable_positions. apply elem_of_app. by left.
  - apply list_elem_of_fmap in H as (r & -> & Hr).
    assert (tpr_length r = air_len a) as Hl by (by apply (proj1 (Forall_forall _ _) PR2)).
    destruct (Z.eq_dec (air_len a) 0) as [Hz|Hz].
    + rewrite (no_live_no_terminals a s Hs Hz) in PR1. apply Permutation_nil_r, map_eq_nil in PR1.
      rewrite PR1 in Hr. by apply not_elem_of_nil in Hr.
    + assert (0 <= air_len a) by apply zlen_nonneg. apply Hpos. unfold movable_positions.
      rewrite !elem_of_app. right. left. apply list_elem_of_In, in_concat.
      exists (seqZ (tpr_start r) (tpr_length r)). split; apply list_elem_of_In.
      * by apply (list_elem_of_fmap_2 (fun r => seqZ (tpr_start r) (tpr_length r))).
      * apply elem_of_seqZ. lia.
  - destruct (spr_live_times_replacement_terminal _) as [r|]; [|by apply not_elem_of_nil in H].
    by apply list_elem_of_singleton in H as ->.
  - apply list_elem_of_fmap in H as (r & -> & Hr). pose proof (proj1 (Forall_forall _ _) P3 r Hr) as HP. simpl in HP. lia.
  - apply Hpos. unfold movable_positions, block_positions. rewrite !elem_of_app. by do 4 right.
Qed.
Lemma movable_orders_nonneg a o x : order_ok a o -> x ∈ movable_orders o -> 0 <= x.
Proof.
  intros ((Hh & _) & _ & _ & (_ & P2 & _)) Hx. rewrite P2 in Hx. apply elem_of_seqZ in Hx.
  pose proof (zlen_nonneg (majors_above o)). destruct (ol_high (ocf_ledger o)); simpl in *; mlia.
Qed.

(** *** The moved lanes *)

Lemma movable_positions_map delta s :
  movable_positions (map_sequence_owners (fun x => x + delta) s)
  = map (fun x => x + delta) (movable_positions s).
Proof.
  assert (forall a n, seqZ (a + delta) n = map (fun x => x + delta) (seqZ a n)) as Hz.
  { intros a n. rewrite (Z.add_comm a), <- fmap_add_seqZ. apply map_ext. intros; lia. }
  unfold movable_positions, replacement_positions, block_positions. rewrite !map_app, !concat_map.
  destruct s as [l mv ic [tp rp ep] r]; simpl. rewrite !map_map. simpl.
  f_equal. f_equal; [|f_equal; [|f_equal]].
  - f_equal. apply map_ext. intros x. apply Hz.
  - destruct rp; simpl; [apply Hz|done].
  - f_equal. apply map_ext. intros x. apply Hz.
  - by destruct r as [[[t|] at_ rep p m e]|].
Qed.
Lemma claimed_map g s : claimed_terminals (map_sequence_owners g s) = claimed_terminals s.
Proof.
  unfold claimed_terminals. f_equal; simpl.
  - unfold sequence_terminal_owners. induction (scf_movable_claims s) as [|c cs IH]; simpl; [done|].
    destruct (msc_owner c); simpl; first [exact IH|f_equal; exact IH].
  - by destruct (scf_recovery s) as [[[t|] ? ? ? ? ?]|].
Qed.
Lemma exit_owners_map g s : exit_owners (map_sequence_owners g s) = exit_owners s.
Proof.
  unfold exit_owners; simpl. induction (scf_movable_claims s) as [|c cs IH]; simpl; [done|].
  destruct (msc_owner c); simpl; first [exact IH|f_equal; exact IH].
Qed.
Lemma order_claimed_map g o : order_claimed_terminals (map_order_owners g o) = order_claimed_terminals o.
Proof.
  unfold order_claimed_terminals. f_equal; simpl.
  - unfold order_terminal_owners. induction (ocf_movable_claims o) as [|c cs IH]; simpl; [done|].
    destruct (moc_owner c); simpl; first [exact IH|f_equal; exact IH].
  - by destruct (ocf_recovery o) as [[[t|] ? ? ? ? ?]|].
Qed.
Lemma order_exits_map g o : order_exit_owners (map_order_owners g o) = order_exit_owners o.
Proof.
  unfold order_exit_owners; simpl. induction (ocf_movable_claims o) as [|c cs IH]; simpl; [done|].
  destruct (moc_owner c); simpl; first [exact IH|f_equal; exact IH].
Qed.
Lemma movable_orders_map delta o :
  movable_orders (map_order_owners (fun x => x + delta) o)
  = map (fun x => x + delta) (movable_orders o).
Proof.
  unfold movable_orders; simpl. rewrite map_app, !map_map. f_equal.
  by destruct (ocf_recovery o) as [[[t|] ? ? ? ? ?]|].
Qed.

(** Making room for [markers] and one row: every movable owner moves up by one more. *)
Section Moved.
Context (a : ActiveIdentityRanks) (s : SequenceClaimFrontier) (l : SequenceLedger)
  (markers : list MarkerCandidateAuthority).
Hypothesis Hs : sequence_ok a s.
Hypothesis Hempty : scf_immutable_candidates s = [].
Hypothesis Hl : sl_ok l.
Hypothesis Hhigh : sl_high_watermark l = sl_high_watermark (scf_ledger s) + 1.
Hypothesis Hclaims : sl_claims l =
  let c := sl_claims (scf_ledger s) in
  mkSequenceClaims (sc_live_members c) (sc_binding_terminals c)
    (sc_markers c + zlen markers) (sc_recovery c).
Hypothesis Hat : map mca_delivery_seq markers
                 = seqZ (sl_high_watermark (scf_ledger s) + 2) (zlen markers).
Hypothesis Howners : Forall (fun m => mca_current_owner m = MSO_Marker) markers.
Let delta := zlen markers + 1.
Let moved := map_sequence_owners (fun x => x + delta) s.
Let s' := mkSequenceClaimFrontier l (scf_movable_claims moved) (map ISC_Marker markers)
            (scf_products moved) (scf_recovery moved).

Lemma terminals_of_markers : terminals_of (map ISC_Marker markers) = [].
Proof using. clear. induction markers; [done|]. exact IHl. Qed.
Lemma markers_of_markers : markers_of (map ISC_Marker markers) = markers.
Proof using. clear. induction markers as [|m ms IH]; [done|]. simpl. f_equal. exact IH. Qed.
Lemma moved_terminals : all_terminals s' = all_terminals s.
Proof using Hempty.
  unfold all_terminals, candidate_terminals. rewrite Hempty. simpl. rewrite terminals_of_markers.
  f_equal. apply (claimed_map (fun x => x + delta) s).
Qed.
Lemma moved_reserve : sl_required_reserve l = sl_required_reserve (scf_ledger s) + zlen markers.
Proof using Hs Hl Hclaims.
  destruct Hl as (_ & _ & -> & _), Hs as ((_ & _ & -> & _) & _). rewrite Hclaims.
  unfold reserve, rsr; simpl. lia.
Qed.

Lemma moved_positions : sequence_positions s'.
Proof using Hs Hempty Hl Hhigh Hclaims Hat.
  destruct Hs as (_ & _ & _ & _ & _ & _ & (P1 & P2 & P3 & P4)). rewrite Hempty in P2.
  pose proof moved_reserve as Hr. pose proof (zlen_nonneg markers).
  change (zlen (@nil ImmutableSequenceCandidate)) with 0 in P2.
  unfold sequence_positions. split_and!.
  - simpl. rewrite zlen_map, Hhigh, map_map. etrans; [exact Hat|]. f_equal. lia.
  - change (movable_positions s') with (movable_positions moved).
    unfold moved. rewrite movable_positions_map. etrans; [apply Permutation_map, P2|].
    apply eq_perm. simpl. rewrite zlen_map, Hhigh, Hr.
    etrans; [|etrans; [apply (fmap_add_seqZ delta)|]]; [apply map_ext; intros; lia|].
    f_equal; unfold delta; lia.
  - simpl. apply Forall_map. eapply Forall_impl; [exact P3|]. simpl. intros r Hr'.
    rewrite Hhigh, Hr. unfold delta. lia.
  - simpl. destruct (spr_live_times_replacement_terminal (scf_products s)); simpl; [|done].
    unfold delta. lia.
Qed.

Lemma moved_sequence_ok : sequence_ok a s'.
Proof using All.
  pose proof moved_terminals as Ht. pose proof Hs as (_ & (C1 & C2 & C3 & C4) & He & HT & HP & Hm & _).
  unfold marker_candidates in C3. rewrite Hempty in C3. change (zlen _) with 0 in C3.
  unfold sequence_ok. split; [done|]. split_and!.
  - unfold sequence_counts. rewrite Ht. cbn [scf_ledger s']. rewrite Hclaims. cbn [sc_live_members
      sc_binding_terminals sc_markers]. unfold marker_candidates, rsr in *; simpl.
    rewrite markers_of_markers, C3. split_and!; try done. by destruct (scf_recovery s).
  - etrans; [|exact He]. apply eq_perm. apply (exit_owners_map (fun x => x + delta) s).
  - destruct HT as (T1 & T2 & T3 & T4). unfold terminals_ok. rewrite Ht.
    assert (claimed_terminals s' = claimed_terminals s) as -> by apply (claimed_map (fun x => x + delta) s).
    split_and!; try done. unfold candidate_terminals; simpl. rewrite terminals_of_markers.
    intros owner Ho. by apply not_elem_of_nil in Ho.
  - destruct HP as (Q1 & Q2 & Q3 & Q4 & Q5). unfold products_ok. rewrite Ht. simpl.
    rewrite !map_map. simpl. split_and!; try done; [by apply Forall_map| |by apply Forall_map].
    destruct (spr_live_times_replacement_terminal (scf_products s)), (scf_recovery s) as [b|]; try done.
    destruct Q3 as (Ql & Qb & Qt). split; [done|]. split; [done|]. simpl. by destruct (rsb_terminal b).
  - unfold marker_candidates; simpl. by rewrite markers_of_markers.
  - exact moved_positions.
Qed.
End Moved.

Lemma moved_order_ok a o l gs : order_ok a o -> ocf_immutable_candidates o = [] -> ledger_ok l ->
  l = mkOrderLedger (OH_Allocated (next_major (ol_high (ocf_ledger o)))) (ol_claims (ocf_ledger o)) ->
  Forall (fun g => icm_transaction_order g = next_major (ol_high (ocf_ledger o))) gs ->
  let moved := map_order_owners (fun x => x + 1) o in
  order_ok a (mkOrderClaimFrontier l (ocf_movable_claims moved) gs (ocf_recovery moved)).
Proof.
  intros (_ & (C1 & C2 & C3) & He & (P1 & P2 & P3)) Hempty Hl -> Hgs moved.
  set (o' := mkOrderClaimFrontier _ _ _ _).
  assert (majors_above o = []) as Hm by (unfold majors_above; by rewrite Hempty).
  assert (majors_above o' = []) as Hm'.
  { unfold majors_above; simpl. clear -Hgs.
    induction Hgs as [|g gs Hg _ IH]; simpl; [done|]. by rewrite Hg, Z.ltb_irrefl. }
  assert (order_claimed_terminals o' = order_claimed_terminals o) as Hc
    by apply (order_claimed_map (fun x => x + 1) o).
  pose proof Hl as (_ & _ & Hfit). rewrite Hm in P2. change (zlen []) with 0 in P2.
  unfold order_ok. split; [done|]. split_and!.
  - unfold order_counts. rewrite Hc. simpl. split_and!; try done.
    by destruct (ocf_recovery o).
  - etrans; [|exact He]. apply eq_perm. apply (order_exits_map (fun x => x + 1) o).
  - unfold order_positions. rewrite Hm'. change (zlen []) with 0. simpl in *.
    split_and!; [done| |lia].
    change (movable_orders o') with (movable_orders moved). unfold moved. rewrite movable_orders_map.
    etrans; [apply Permutation_map, P2|]. apply eq_perm.
    etrans; [|etrans; [apply (fmap_add_seqZ 1)|]]; [apply map_ext; intros; lia|]. f_equal; lia.
Qed.

(** ** The projection *)

(** Cursors are [u64]s. *)
Definition cursors_ok (f : ClaimFrontiers) : Prop :=
  Forall (fun p => 0 <= fp_cursor p) (air_participants (cf_active_identities f)).

Lemma facts_of_frontiers f input : frontier_inv f -> cursors_ok f ->
  u64 (ori_observer_progress input) -> facts_ok (projection_facts f input).
Proof.
  intros (Hr & Hs & Ho & _ & _ & Hfl & _) Hc Hobs. unfold facts_ok; simpl.
  pose proof Hs as ((Hh & _) & _). split; [apply Hs|]. split; [apply Ho|]. split; [lia|].
  split; [done|].
  apply Forall_forall. intros p Hp. pose proof (ranks_elem _ _ _ _ Hr Hp) as [_ ?].
  pose proof (proj1 (Forall_forall _ _) Hc p Hp) as Hnn. simpl in Hnn. mlia.
Qed.

(** The markers of one record, by participant. *)
Lemma marker_group_sorted major ps : StronglySorted Z.lt (map fp_participant_index ps) ->
  StronglySorted ao_lt
    (map (fun p => mkAdmissionOrder major CP_CompactionMarker (fp_participant_index p)) ps).
Proof.
  intros H. apply StronglySorted_map. revert H. induction ps as [|p ps IH]; intros H; [constructor|].
  inversion H as [|? ? Hs Hf]; subst. constructor; [by apply IH|]. apply (proj1 (Forall_fmap fp_participant_index _ ps)) in Hf.
  eapply Forall_impl; [exact Hf|]. intros q Hq. simpl in Hq. unfold ao_lt, ao_ltb; simpl.
  rewrite Z.ltb_irrefl, Z.eqb_refl, (proj2 (Z.ltb_ge _ _)), (proj2 (Z.eqb_neq _ _)) by lia. done.
Qed.
Lemma ao_lt_NoDup l : StronglySorted ao_lt l -> NoDup l.
Proof.
  induction 1 as [|x l _ IH Hx]; constructor; [|done]. intros Hin.
  apply (proj1 (Forall_forall _ _) Hx) in Hin. unfold ao_lt, ao_ltb in Hin.
  by rewrite lex_leb_refl in Hin.
Qed.

Lemma preflight_sequence s delta : preflight_ordinary_sequence_owners s delta = Ok tt <->
  scf_immutable_candidates s = [] /\ forall x, x ∈ movable_sequences s -> x + delta <= u64_max.
Proof.
  unfold preflight_ordinary_sequence_owners. case_bool_decide as E; simpl.
  - apply nil_length_inv in E. rewrite <- all_move_spec. destruct (all_move _ _).
    + by split.
    + split; [done|]. by intros [_ ?].
  - split; [done|]. intros [H _]. by rewrite H in E.
Qed.
Lemma preflight_order o : preflight_ordinary_order_owners o = Ok tt <->
  ocf_immutable_candidates o = [] /\ forall x, x ∈ movable_orders o -> x + 1 <= u64_max.
Proof.
  unfold preflight_ordinary_order_owners. case_bool_decide as E; simpl.
  - apply nil_length_inv in E. rewrite <- all_move_spec. destruct (all_move _ _).
    + by split.
    + split; [done|]. by intros [_ ?].
  - split; [done|]. intros [H _]. by rewrite H in E.
Qed.

Definition projected_groups (plan : OrdinaryFixedPointPlan) : list ImmutableOrderCandidateMajor :=
  match ofp_marker_candidates plan with
  | [] => []
  | markers => [mkImmutableOrderCandidateMajor (oa_major (ofp_order plan))
                  (map mca_admission_order markers)]
  end.
Lemma projected_group_keys plan :
  concat (map icm_candidate_keys (projected_groups plan))
  = map mca_admission_order (ofp_marker_candidates plan).
Proof. unfold projected_groups. destruct (ofp_marker_candidates plan); [done|]. simpl. by rewrite app_nil_r. Qed.

Section Projected.
Context (f : ClaimFrontiers) (input : OrdinaryRecordProjectionInput) (state : MarkerState)
  (search : CapacitySearch) (plan : OrdinaryFixedPointPlan).
Hypothesis Hf : frontier_inv f.
Hypothesis Hplan : planned (projection_facts f input) state search plan.
Let delta := zlen (ofp_marker_candidates plan) + 1.
Let s := cf_sequence f.
Let o := cf_order f.
Hypothesis Hs : preflight_ordinary_sequence_owners s delta = Ok tt.
Hypothesis Ho : preflight_ordinary_order_owners o = Ok tt.

Lemma sequence_fits : fits delta (movable_sequences s).
Proof using Hf Hs.
  apply preflight_sequence in Hs as [_ H]. intros x Hx. split; [|by apply H].
  destruct Hf as (_ & Hsok & _). by apply (movable_nonneg _ _ _ Hsok).
Qed.
Lemma order_fits : fits 1 (movable_orders o).
Proof using Hf Ho.
  apply preflight_order in Ho as [_ H]. intros x Hx. split; [|by apply H].
  destruct Hf as (_ & _ & Hook & _). by apply (movable_orders_nonneg _ _ _ Hook).
Qed.

Lemma projected_sequence_ok :
  sequence_ok (cf_active_identities f) (projected_sequence s plan delta).
Proof using All.
  pose proof (zlen_nonneg (ofp_marker_candidates plan)).
  unfold projected_sequence. rewrite relay_exact by (try exact sequence_fits; unfold delta; lia).
  pose proof (proj1 (preflight_sequence _ _) Hs) as [He _].
  replace (scf_immutable_candidates _) with (@nil ImmutableSequenceCandidate) by (simpl; by rewrite He).
  destruct Hf as (_ & Hsok & _), Hplan. by apply moved_sequence_ok.
Qed.
Lemma projected_order_ok : order_ok (cf_active_identities f) (projected_order o plan).
Proof using All.
  unfold projected_order. rewrite relay_order_exact by exact order_fits.
  pose proof (proj1 (preflight_order _) Ho) as [He _].
  replace (ocf_immutable_candidates _) with (@nil ImmutableOrderCandidateMajor) by (simpl; by rewrite He).
  fold (projected_groups plan). destruct Hf as (_ & _ & Hook & _), Hplan.
  apply moved_order_ok; try done; [by rewrite pl_order0|].
  unfold projected_groups. rewrite pl_order0. simpl. destruct (ofp_marker_candidates plan); by repeat constructor.
Qed.

Lemma projected_keys_ok : keys_ok (projected_sequence s plan delta) (projected_order o plan).
Proof using All.
  pose proof (proj1 (preflight_sequence _ _) Hs) as [He _].
  pose proof (proj1 (preflight_order _) Ho) as [He' _].
  assert (StronglySorted ao_lt (map mca_admission_order (ofp_marker_candidates plan))) as Hsorted.
  { destruct Hf as (Hr & _), Hplan. rewrite pl_marker_keys0. apply marker_group_sorted.
    destruct pl_search0 as (_ & _ & Hev & _). apply evaluate_markers in Hev.
    eapply StronglySorted_sublist; [by apply sublist_map|]. apply Hr. }
  assert (group_keys (projected_order o plan)
          = map mca_admission_order (ofp_marker_candidates plan)) as Hg.
  { unfold group_keys; simpl. rewrite He'. simpl. apply projected_group_keys. }
  unfold keys_ok. rewrite Hg. split_and!.
  - by apply ao_lt_NoDup.
  - simpl. rewrite He. simpl. rewrite map_map. by apply ao_lt_NoDup.
  - simpl. rewrite He'. simpl. destruct (ofp_marker_candidates plan) as [|m ms] eqn:Em; [constructor|].
    constructor; [|constructor]. split; [done|].
    change (Forall (fun k => ao_transaction_order k = oa_major (ofp_order plan))
      (map mca_admission_order (m :: ms))).
    rewrite <- Em, (pl_marker_keys _ _ _ _ Hplan). apply Forall_map, Forall_true. done.
Qed.

(** Both counters learn of the same markers, so the cross check passes. *)
Lemma projected_agree : counters_agree (projected_sequence s plan delta) (projected_order o plan).
Proof using All.
  pose proof (zlen_nonneg (ofp_marker_candidates plan)).
  pose proof (proj1 (preflight_sequence _ _) Hs) as [He _].
  pose proof (proj1 (preflight_order _) Ho) as [He' _].
  destruct Hf as (_ & _ & _ & (A1 & A2 & _) & _). unfold counters_agree.
  unfold projected_sequence, projected_order.
  rewrite relay_exact by (try exact sequence_fits; unfold delta; lia).
  rewrite relay_order_exact by exact order_fits. split_and!.
  - etrans; [apply eq_perm, (claimed_map (fun x => x + delta) s)|]. etrans; [exact A1|].
    symmetry. apply eq_perm, (order_claimed_map (fun x => x + 1) o).
  - simpl. fold s o in A2. destruct (scf_recovery s) as [[bt ? ? ? ? ?]|],
      (ocf_recovery o) as [[ot ? ? ? ? ?]|]; simpl; try done.
    unfold recovery_blocks_match in *; simpl in *. by destruct bt, ot.
  - intros key. unfold group_keys; simpl. rewrite He, He'. simpl. rewrite map_map.
    change (key ∈ concat (map icm_candidate_keys (projected_groups plan))
            <-> key ∈ map mca_admission_order (ofp_marker_candidates plan)).
    by rewrite projected_group_keys.
Qed.
End Projected.

(** A projected record keeps the invariant. *)
Lemma projection_ok f input p : frontier_inv f -> cursors_ok f -> u64 (ori_observer_progress input) ->
  project_ordinary_record f input = Ok (OPD_Projected p) -> frontier_inv (por_frontiers p).
Proof.
  intros Hf Hc Hobs. unfold project_ordinary_record. destruct (negb _); [done|].
  destruct (project_ordinary_fixed_point _) as [[c|plan]|] eqn:Ek; try done.
  apply planned_spec in Ek as (state & search & Hplan); [|by apply facts_of_frontiers].
  destruct (check_observer_floor _ _ _); [|done]. destruct (check_remaining_closure _ _ _ _ _); [|done].
  destruct (apply_ordinary_projection _ _ _ _) as [p'|[]] eqn:Ea; [|done]. intros [= <-].
  unfold apply_ordinary_projection in Ea. destruct (checked_add _ _ _) as [d|] eqn:Ed; [|done].
  apply checked_add_Some in Ed as [-> Hd].
  destruct (preflight_ordinary_sequence_owners _ _) as [[]|] eqn:E1; [|done].
  destruct (preflight_ordinary_order_owners _) as [[]|] eqn:E2; [|done].
  destruct (validate_cross_counter _ _) as [[]|]; [|done]. injection Ea as <-.
  pose proof (projected_sequence_ok f input state search plan Hf Hplan E1 E2) as Hs'.
  pose proof (projected_order_ok f input state search plan Hf Hplan E1 E2) as Ho'.
  pose proof (projected_keys_ok f input state search plan Hf Hplan E1 E2) as Hk'.
  pose proof (projected_agree f input state search plan Hf Hplan E1 E2) as Hag'.
  destruct Hf as (Hr & Hs & Ho & _ & _ & Hfl & Hrows & Hmk), Hplan. simpl in *.
  destruct pl_search0 as (_ & Hsf & _). unfold base_floor in Hsf; simpl in Hsf.
  unfold frontier_inv, rows_ok; simpl. rewrite pl_floor0, pl_sequence_high0.
  split_and!; try done; try lia.
  - eapply ranks_ok_mono; [|done]. lia.
  - rewrite pl_rows0. pose proof (rows_append _ _ _ [ofp_caller_record plan] (proj2 Hfl) Hrows
      (single_row _ _ pl_caller0)) as Happ.
    etrans; [eapply (filter_rows (cs_floor search)); [|exact Happ]|f_equal]; unfold zlen; simpl; lia.
  - rewrite pl_rows0. apply Forall_forall. intros r Hin.
    apply list_elem_of_In, filter_In in Hin as [Hin Hp]. apply list_elem_of_In in Hin.
    destruct (proj1 (Forall_forall _ _) Hmk r Hin) as [Hrow Hm]. split; [|done].
    apply list_elem_of_In, filter_In. split; [|done]. apply in_or_app. left. by apply list_elem_of_In.
Qed.

(** A projection that fails, whatever it is given, gives back the frontiers as they were. *)
Lemma projection_atomic f input e :
  Forall (fun x => 0 <= x) (movable_sequences (cf_sequence f)) ->
  Forall (fun x => 0 <= x) (movable_orders (cf_order f)) ->
  project_ordinary_record f input = Err e -> opx_frontiers e = f.
Proof.
  intros Hs Ho. unfold project_ordinary_record. destruct (negb _); [by intros [= <-]|].
  destruct (project_ordinary_fixed_point _) as [[c|plan]|]; [done| |by intros [= <-]].
  destruct (check_observer_floor _ _ _); [|by intros [= <-]].
  destruct (check_remaining_closure _ _ _ _ _); [|by intros [= <-]].
  destruct (apply_ordinary_projection _ _ _ _) as [p1|[f' err]] eqn:Ea; [done|]. intros [= <-]. simpl.
  unfold apply_ordinary_projection in Ea. destruct (checked_add _ _ _) as [d|] eqn:Ed; [|by simplify_eq].
  apply checked_add_Some in Ed as [-> Hd].
  destruct (preflight_ordinary_sequence_owners _ _) as [[]|] eqn:E1; [|by simplify_eq].
  destruct (preflight_ordinary_order_owners _) as [[]|] eqn:E2; [|by simplify_eq].
  apply preflight_sequence in E1 as [Hes E1]. apply preflight_order in E2 as [Heo E2].
  destruct (validate_cross_counter _ _) as [[]|]; [done|]. injection Ea as <- <-.
  rewrite relay_rollback, relay_order_rollback; try done; [by destruct f|..].
  - intros x Hx. split; [|by apply E2]. by apply (proj1 (Forall_forall _ _) Ho).
  - pose proof (zlen_nonneg (ofp_marker_candidates plan)). lia.
  - intros x Hx. split; [|by apply E1]. by apply (proj1 (Forall_forall _ _) Hs).
Qed.
