(* ===== verification/ProjectionCharges.v ===== *)
(** * The charges of a projection

    What the checked sums of [RecordProjection] add up to: a row is charged what its
    record weighs, a row that is a marker credit its configured maximum, and every slot
    without a credit the same maximum.  So the baseline of a retained suffix is
    [slots * marker_max] and the exact charge of the rows that are no marker. *)
From stdpp Require Import sorting.
From S2P Require Import Prelude ProjectionRuns Algebra Tags Wire Response Order Sequence Edge.
From S2P Require Import EdgeSteps Binding Closure Frontier FrontierLive RecordProjection.
From S2P Require Import FrontierInv FrontierRuns.

(** ** Specification *)

Definition charge_ok (c : RetainedRecordCharge) : Prop :=
  rv_ok (rrc_encoded_charge c) /\ one_entry c.

(** Sums of charges. *)
Definition charge_entries (charges : list RetainedRecordCharge) : Z :=
  fold_right Z.add 0 (map (fun c => rv_entries (rrc_encoded_charge c)) charges).
Definition charge_bytes (charges : list RetainedRecordCharge) : Z :=
  fold_right Z.add 0 (map (fun c => rv_bytes (rrc_encoded_charge c)) charges).
(** [w + n * m + charges]. *)
Definition weigh (w : WideResourceVector) (n : Z) (m : ResourceVector)
    (charges : list RetainedRecordCharge) : WideResourceVector :=
  mkWRV (wrv_entries w + n * rv_entries m + charge_entries charges)
        (wrv_bytes w + n * rv_bytes m + charge_bytes charges).
Definition wide_fits (w : WideResourceVector) : Prop :=
  wrv_entries w <= u128_max /\ wrv_bytes w <= u128_max.

(** The row of this charge is a marker credit. *)
Definition credited (credits : list MarkerCredit) (c : RetainedRecordCharge) : bool :=
  existsb (fun credit => mc_delivery_seq credit =? rrc_delivery_seq c) credits.
Definition marked (credits : list MarkerCredit) (charges : list RetainedRecordCharge)
    : list RetainedRecordCharge := List.filter (credited credits) charges.
Definition unmarked (credits : list MarkerCredit) (charges : list RetainedRecordCharge)
    : list RetainedRecordCharge := List.filter (fun c => negb (credited credits c)) charges.
Definition charges_at (floor : Z) (charges : list RetainedRecordCharge)
    : list RetainedRecordCharge := List.filter (fun c => floor <=? rrc_delivery_seq c) charges.

(** ** Sums *)

Lemma charge_sums_nonneg charges : Forall charge_ok charges ->
  0 <= charge_entries charges /\ 0 <= charge_bytes charges.
Proof.
  induction 1 as [|c cs [[? ?] _] _ [IH1 IH2]]; [done|].
  unfold charge_entries, charge_bytes in *; simpl. unfold u64 in *. lia.
Qed.
Lemma charge_sums_cons c cs :
  charge_entries (c :: cs) = rv_entries (rrc_encoded_charge c) + charge_entries cs
  /\ charge_bytes (c :: cs) = rv_bytes (rrc_encoded_charge c) + charge_bytes cs.
Proof. done. Qed.
Lemma charge_sums_app a b : charge_entries (a ++ b) = charge_entries a + charge_entries b
  /\ charge_bytes (a ++ b) = charge_bytes a + charge_bytes b.
Proof.
  unfold charge_entries, charge_bytes. induction a as [|c a [IH1 IH2]]; simpl; [done|].
  rewrite IH1, IH2. lia.
Qed.
Lemma charge_sums_perm a b : a ≡ₚ b -> charge_entries a = charge_entries b /\ charge_bytes a = charge_bytes b.
Proof.
  induction 1 as [|c a b _ [IH1 IH2]|c d a|a b d _ [IH1 IH2] _ [IH3 IH4]]; [done|..];
    unfold charge_entries, charge_bytes in *; simpl in *; lia.
Qed.
Lemma filter_Forall {A} (P : A -> Prop) (p : A -> bool) l : Forall P l -> Forall P (List.filter p l).
Proof. induction 1; simpl; [constructor|]. destruct (p x); [by constructor|done]. Qed.

Lemma filter_perm {A} (p : A -> bool) l k : l ≡ₚ k -> List.filter p l ≡ₚ List.filter p k.
Proof.
  induction 1 as [|x l k _ IH|x y l|l k j _ IH1 _ IH2]; simpl.
  - done.
  - destruct (p x); [by constructor|done].
  - destruct (p x), (p y); try done. constructor.
  - by etrans.
Qed.

(** ** The checked sums *)

Lemma add_resource_exact w r w' : wrv_ok w -> rv_ok r ->
  checked_add_resource w r = Ok w' <->
  w' = mkWRV (wrv_entries w + rv_entries r) (wrv_bytes w + rv_bytes r) /\ wide_fits w'.
Proof.
  intros [Hw1 Hw2] [Hr1 Hr2]. unfold checked_add_resource, wide_fits, checked_add.
  destruct (Z.leb_spec (wrv_entries w + rv_entries r) u128_max); cbn.
  - destruct (Z.leb_spec (wrv_bytes w + rv_bytes r) u128_max); cbn.
    + split; [intros [= <-]; done|by intros [-> _]].
    + split; [done|]. intros [-> [_ ?]]. simpl in *. lia.
  - split; [done|]. intros [-> [? _]]. simpl in *. lia.
Qed.
Lemma add_marker_exact w n m w' : wrv_ok w -> rv_ok m -> 0 <= n ->
  checked_add_marker_charge w n m = Ok w' <-> w' = weigh w n m [] /\ wide_fits w'.
Proof.
  intros [Hw1 Hw2] [Hm1 Hm2] Hn. unfold checked_add_marker_charge, weigh, wide_fits.
  unfold checked_mul, checked_add, charge_entries, charge_bytes; simpl. rewrite !Z.add_0_r.
  assert (0 <= n * rv_entries m /\ 0 <= n * rv_bytes m) as [? ?] by (unfold u64 in *; split; nia).
  unfold u128 in *.
  destruct (Z.leb_spec (n * rv_entries m) u128_max); cbn;
    [destruct (Z.leb_spec (wrv_entries w + n * rv_entries m) u128_max); cbn;
      [destruct (Z.leb_spec (n * rv_bytes m) u128_max); cbn;
        [destruct (Z.leb_spec (wrv_bytes w + n * rv_bytes m) u128_max); cbn|]|]|];
    (split; [first [intros [= <-]; done|done]|intros [-> [? ?]]; simpl in *; first [done|lia]]).
Qed.

Lemma weigh_ok w n m charges : wrv_ok w -> rv_ok m -> 0 <= n -> Forall charge_ok charges ->
  wide_fits (weigh w n m charges) -> wrv_ok (weigh w n m charges).
Proof.
  intros [Hw1 Hw2] [Hm1 Hm2] Hn Hc [? ?]. apply charge_sums_nonneg in Hc as [? ?].
  assert (0 <= n * rv_entries m /\ 0 <= n * rv_bytes m) as [? ?] by (unfold u64 in *; split; nia).
  split; simpl in *; unfold u128 in *; lia.
Qed.

Lemma charge_rows_exact floor credits m rows : rv_ok m -> forall charges w w',
  map rrc_delivery_seq charges = map rcr_delivery_seq rows -> Forall charge_ok charges -> wrv_ok w ->
  charge_rows floor credits m w rows charges = Ok w' <->
  w' = weigh w (zlen (marked credits (charges_at floor charges))) m
         (unmarked credits (charges_at floor charges)) /\ wide_fits w'.
Proof.
  intros Hm. induction rows as [|r rows IH]; intros [|c charges] w w' Hk Hc Hw; try done.
  { simpl. unfold weigh, zlen, charge_entries, charge_bytes; simpl. rewrite !Z.add_0_r.
    destruct w as [we wb], Hw as [[_ ?] [_ ?]]; simpl in *.
    split; [intros [= <-]; done|by intros [-> _]]. }
  simpl in Hk. injection Hk as Hk1 Hk. apply Forall_cons in Hc as [Hc1 Hc].
  cbn [charge_rows]. unfold charges_at. cbn [List.filter]. rewrite Hk1, (Z.ltb_antisym _ _).
  destruct (Z.leb_spec floor (rcr_delivery_seq r)) as [Hf|Hf]; cbn [negb]; [|by apply IH].
  fold (charges_at floor charges). unfold marked, unmarked. cbn [List.filter].
  assert (credited credits c
          = existsb (fun credit => mc_delivery_seq credit =? rcr_delivery_seq r) credits) as ->
    by (unfold credited; by rewrite Hk1). fold (marked credits (charges_at floor charges)).
  fold (unmarked credits (charges_at floor charges)).
  pose proof (charge_sums_nonneg (unmarked credits (charges_at floor charges))
    (filter_Forall _ _ _ (filter_Forall _ _ _ Hc))) as [Hs1 Hs2].
  pose proof (zlen_nonneg (marked credits (charges_at floor charges))) as Hz.
  assert (0 <= zlen (marked credits (charges_at floor charges)) * rv_entries m
          /\ 0 <= zlen (marked credits (charges_at floor charges)) * rv_bytes m) as [? ?]
    by (destruct Hm; unfold u64 in *; split; nia).
  set (component := if existsb _ credits then m else rrc_encoded_charge c).
  assert (rv_ok component) as Hcomp by (unfold component; destruct (existsb _ _); [done|apply Hc1]).
  assert (forall u, u = mkWRV (wrv_entries w + rv_entries component) (wrv_bytes w + rv_bytes component) ->
    weigh u (zlen (marked credits (charges_at floor charges))) m (unmarked credits (charges_at floor charges))
    = weigh w (zlen (if existsb (fun credit => mc_delivery_seq credit =? rcr_delivery_seq r) credits
                     then c :: marked credits (charges_at floor charges)
                     else marked credits (charges_at floor charges))) m
        (if negb (existsb (fun credit => mc_delivery_seq credit =? rcr_delivery_seq r) credits)
         then c :: unmarked credits (charges_at floor charges)
         else unmarked credits (charges_at floor charges))) as Hsum.
  { intros u ->. unfold component, weigh. destruct (charge_sums_cons c (unmarked credits (charges_at floor charges))) as [E1 E2].
    destruct (existsb _ _); cbn [negb]; rewrite ?E1, ?E2, ?zlen_cons; simpl; f_equal; lia. }
  destruct (checked_add_resource w component) as [u|] eqn:Eu; cbn.
  - apply add_resource_exact in Eu as [Eu Hu]; [|done|done]. rewrite <- (Hsum u Eu).
    apply IH; [done|done|]. subst u. destruct Hw, Hcomp, Hu; split; simpl in *; unfold u64, u128 in *; lia.
  - split; [done|]. intros [-> Hfit]. exfalso.
    set (u := mkWRV (wrv_entries w + rv_entries component) (wrv_bytes w + rv_bytes component)).
    rewrite <- (Hsum u eq_refl) in Hfit.
    assert (checked_add_resource w component = Ok u) as Eu'; [|by rewrite Eu' in Eu].
    apply add_resource_exact; [done|done|]. split; [done|]. destruct Hfit. simpl in *.
    split; simpl; lia.
Qed.

(** Every credit marks one row. *)
Lemma marked_count credits charges : NoDup (map mc_delivery_seq credits) ->
  NoDup (map rrc_delivery_seq charges) ->
  (forall x, x ∈ map mc_delivery_seq credits -> x ∈ map rrc_delivery_seq charges) ->
  zlen (marked credits charges) = zlen credits.
Proof.
  intros Hc Hr Hin. rewrite <- (zlen_map mc_delivery_seq credits), <- (zlen_map rrc_delivery_seq).
  apply zlen_perm, NoDup_Permutation; [|done|].
  - unfold marked. clear Hin Hc. induction charges as [|c cs IH]; simpl; [constructor|].
    simpl in Hr. apply NoDup_cons in Hr as [Hn Hr]. destruct (credited credits c); [|by apply IH].
    simpl. apply NoDup_cons. split; [|by apply IH]. intros H. apply Hn.
    apply list_elem_of_fmap in H as (c' & -> & H). apply list_elem_of_fmap. exists c'.
    split; [done|]. apply list_elem_of_In, filter_In in H as [H _]. by apply list_elem_of_In.
  - intros x. split.
    + intros H. apply list_elem_of_fmap in H as (c & -> & H). apply list_elem_of_In, filter_In in H as [_ H].
      apply existsb_exists in H as (k & Hk & Heq). apply Z.eqb_eq in Heq. rewrite <- Heq.
      apply list_elem_of_fmap. exists k. split; [done|]. by apply list_elem_of_In.
    + intros H. pose proof (Hin x H) as H'. apply list_elem_of_fmap in H as (k & -> & Hk).
      apply list_elem_of_fmap in H' as (c & Heq & Hc'). apply list_elem_of_fmap. exists c. split; [done|].
      apply list_elem_of_In, filter_In. split; [by apply list_elem_of_In|].
      apply existsb_exists. exists k. split; [by apply list_elem_of_In|]. by apply Z.eqb_eq.
Qed.

Lemma weigh_weigh w n m cs n' cs' : weigh (weigh w n m cs) n' m cs' = weigh w (n + n') m (cs ++ cs').
Proof.
  unfold weigh; simpl. destruct (charge_sums_app cs cs') as [-> ->]. f_equal; lia.
Qed.
Lemma wide_fits_weigh w n n' m cs cs' : rv_ok m -> 0 <= n' -> Forall charge_ok cs' ->
  wide_fits (weigh w (n + n') m (cs ++ cs')) -> wide_fits (weigh w n m cs).
Proof.
  intros [Hm1 Hm2] Hn Hc [H1 H2]. apply charge_sums_nonneg in Hc as [? ?]. simpl in *.
  destruct (charge_sums_app cs cs') as [E1 E2]. rewrite E1 in H1. rewrite E2 in H2.
  assert (0 <= n' * rv_entries m /\ 0 <= n' * rv_bytes m) as [? ?] by (unfold u64 in *; split; nia).
  split; simpl; lia.
Qed.

Section Baseline.
Context (f : OrdinaryProjectionFacts).
Let m := opl_marker_max (opf_limits f).
Let charges := opf_retained_charges f.
Hypothesis Hm : rv_ok m.
Hypothesis Hkeys : map rrc_delivery_seq charges = map rcr_delivery_seq (opf_retained_records f).
Hypothesis Hcharges : Forall charge_ok charges.

(** The caller's record, when the floor retains it. *)
Definition caller_charges (floor : Z) (caller : option RetainedRecordCharge)
    : list RetainedRecordCharge := charges_at floor (option_list caller).

Lemma caller_charge_exact floor caller w w' : wrv_ok w -> wide_fits w ->
  Forall charge_ok (option_list caller) ->
  (forall c, caller = Some c -> rrc_encoded_charge c = opf_encoded_record_charge f) ->
  match option_map rrc_delivery_seq caller with
  | Some sequence =>
      if floor <=? sequence then checked_add_resource w (opf_encoded_record_charge f) else Ok w
  | None => Ok w
  end = Ok w' <-> w' = weigh w 0 m (caller_charges floor caller) /\ wide_fits w'.
Proof using.
  intros Hw Hfit Hc Henc.
  assert (weigh w 0 m [] = w) as E0.
  { destruct w. unfold weigh, charge_entries, charge_bytes; simpl. f_equal; lia. }
  assert ((Ok w : projection _) = Ok w' <-> w' = w /\ wide_fits w') as Hsame
    by (split; [by intros [= <-]|by intros [-> _]]).
  destruct caller as [c|]; simpl; [|unfold caller_charges; simpl; by rewrite E0].
  unfold caller_charges, charges_at; simpl. destruct (_ <=? _); [|by rewrite E0].
  rewrite <- (Henc c eq_refl). simpl in Hc. apply Forall_cons in Hc as [[Hr _] _].
  rewrite add_resource_exact by done.
  assert (weigh w 0 m [c] = mkWRV (wrv_entries w + rv_entries (rrc_encoded_charge c))
    (wrv_bytes w + rv_bytes (rrc_encoded_charge c))) as ->; [|done].
  unfold weigh, charge_entries, charge_bytes; simpl. f_equal; lia.
Qed.

Lemma retained_charge_exact floor credits n caller w : 0 <= n ->
  Forall charge_ok (option_list caller) ->
  (forall c, caller = Some c -> rrc_encoded_charge c = opf_encoded_record_charge f) ->
  retained_charge_at_floor f floor credits n (option_map rrc_delivery_seq caller) = Ok w <->
  w = weigh (mkWRV 0 0) (zlen (marked credits (charges_at floor charges)) + n) m
        (unmarked credits (charges_at floor charges) ++ caller_charges floor caller)
  /\ wide_fits w.
Proof using Hm Hkeys Hcharges.
  intros Hn Hcaller Henc. unfold retained_charge_at_floor. fold m charges.
  set (k := zlen (marked credits (charges_at floor charges))).
  set (rest := unmarked credits (charges_at floor charges)).
  assert (0 <= k) as Hk by apply zlen_nonneg.
  assert (Forall charge_ok rest) as Hrest by (apply filter_Forall, filter_Forall; done).
  assert (Forall charge_ok (caller_charges floor caller)) as Hcc by (by apply filter_Forall).
  pose proof (fun w' => charge_rows_exact floor credits m (opf_retained_records f) Hm charges
    (mkWRV 0 0) w' Hkeys Hcharges ltac:(done)) as Hrows. fold k rest in Hrows.
  pose proof (weigh_ok (mkWRV 0 0) k m rest ltac:(done) Hm Hk Hrest) as Hok1.
  pose proof (weigh_ok (mkWRV 0 0) k m (rest ++ caller_charges floor caller) ltac:(done) Hm Hk
    (proj2 (Forall_app _ _ _) (conj Hrest Hcc))) as Hok2.
  assert (wide_fits (weigh (mkWRV 0 0) k m rest) -> forall w',
    match option_map rrc_delivery_seq caller with
    | Some sequence => if floor <=? sequence
        then checked_add_resource (weigh (mkWRV 0 0) k m rest) (opf_encoded_record_charge f)
        else Ok (weigh (mkWRV 0 0) k m rest)
    | None => Ok (weigh (mkWRV 0 0) k m rest)
    end = Ok w' <-> w' = weigh (mkWRV 0 0) k m (rest ++ caller_charges floor caller) /\ wide_fits w') as Hmid.
  { intros Hfit w'. rewrite caller_charge_exact; [|by apply Hok1|done..].
    by rewrite weigh_weigh, Z.add_0_r. }
  assert (wide_fits (weigh (mkWRV 0 0) k m (rest ++ caller_charges floor caller)) -> forall w',
    checked_add_marker_charge (weigh (mkWRV 0 0) k m (rest ++ caller_charges floor caller)) n m = Ok w'
    <-> w' = weigh (mkWRV 0 0) (k + n) m (rest ++ caller_charges floor caller) /\ wide_fits w') as Hend.
  { intros Hfit w'. rewrite add_marker_exact; [|by apply Hok2|done|done].
    by rewrite weigh_weigh, app_nil_r. }
  split.
  - destruct (charge_rows _ _ _ _ _ _) as [w1|]; cbn; [|done].
    destruct (proj1 (Hrows w1) eq_refl) as [-> F1].
    destruct (match option_map _ _ with Some _ => _ | None => _ end) as [w2|]; cbn; [|done].
    destruct (proj1 (Hmid F1 w2) eq_refl) as [-> F2]. by apply Hend.
  - intros [-> F3]. pose proof F3 as F2. rewrite <- (app_nil_r (rest ++ _)) in F2.
    apply wide_fits_weigh in F2; [|done|done|constructor].
    pose proof F2 as F1. rewrite <- (Z.add_0_r k) in F1. apply wide_fits_weigh in F1; [|done..].
    rewrite (proj2 (Hrows _) (conj eq_refl F1)). cbn.
    rewrite (proj2 (Hmid F1 _) (conj eq_refl F2)). cbn. by apply Hend.
Qed.

Lemma suffix_baseline_exact w slots credits w' : wrv_ok w -> 
  retained_baseline_wide w slots credits m = Ok w' <->
  credits <= slots /\ w' = weigh w (slots - credits) m [] /\ wide_fits w'.
Proof using Hm.
  intros Hw. unfold retained_baseline_wide. destruct (Z.ltb_spec slots credits).
  - split; [done|]. intros [? _]. lia.
  - rewrite add_marker_exact by (done || lia). split; [intros [? ?]; done|by intros (_ & ? & ?)].
Qed.
End Baseline.

(** ** Marker credits *)

Definition marker_participant (r : RetainedCausalRecord) : ParticipantId :=
  match rcr_kind r with RCK_CompactionMarker participant_index _ => participant_index | _ => 0 end.
Definition credit_of (r : RetainedCausalRecord) : MarkerCredit :=
  mkMarkerCredit (rcr_delivery_seq r) (marker_participant r).

(** A marker record as [collect_credits] takes it. *)
Definition credit_row (f : OrdinaryProjectionFacts) (r : RetainedCausalRecord) : Prop :=
  is_compaction_marker r = true /\ marker_participant r < opf_identity_slot_limit f
  /\ marker_participant r ∈ map fp_participant_index (opf_active_identities f)
  /\ r ∈ opf_retained_records f.

Lemma existsb_index x (ps : list FrontierParticipant) :
  existsb (fun p => fp_participant_index p =? x) ps = true <-> x ∈ map fp_participant_index ps.
Proof.
  rewrite existsb_exists. split.
  - intros (p & Hp & E). apply Z.eqb_eq in E. rewrite <- E. apply list_elem_of_fmap. exists p.
    split; [done|]. by apply list_elem_of_In.
  - intros H. apply list_elem_of_fmap in H as (p & -> & Hp). exists p. rewrite Z.eqb_refl.
    split; [by apply list_elem_of_In|done].
Qed.
Lemma existsb_credit d p (credits : list MarkerCredit) :
  existsb (fun c => (mc_delivery_seq c =? d) || (mc_participant_index c =? p)) credits = false <->
  (d ∉ map mc_delivery_seq credits) /\ (p ∉ map mc_participant_index credits).
Proof.
  rewrite <- not_true_iff_false, existsb_exists. split.
  - intros H. split; intros Hin; apply list_elem_of_fmap in Hin as (c & -> & Hc); apply H; exists c;
      (split; [by apply list_elem_of_In|]); rewrite Z.eqb_refl; [done|apply orb_true_r].
  - intros [H1 H2] (c & Hc & E). apply list_elem_of_In in Hc. apply orb_true_iff in E as [E|E];
      apply Z.eqb_eq in E; [apply H1|apply H2]; rewrite <- E; by apply list_elem_of_fmap_2.
Qed.

Lemma collect_credits_spec f records : forall acc credits,
  NoDup (map mc_delivery_seq acc) -> NoDup (map mc_participant_index acc) ->
  collect_credits f acc records = Ok credits <->
  credits = acc ++ map credit_of records /\ Forall (credit_row f) records
  /\ NoDup (map mc_delivery_seq credits) /\ NoDup (map mc_participant_index credits).
Proof.
  induction records as [|r records IH]; intros acc credits Ha Hb; simpl.
  { rewrite app_nil_r. split; [by intros [= <-]|by intros [-> _]]. }
  unfold credit_of at 1, marker_participant at 1. destruct (rcr_kind r) as [| | | |p v] eqn:Ek;
    try (split; [done|]; intros (_ & Hr & _); apply Forall_cons in Hr as [[Hr _] _];
         unfold is_compaction_marker in Hr; by rewrite Ek in Hr).
  assert (marker_participant r = p) as Hp by (unfold marker_participant; by rewrite Ek).
  assert (is_compaction_marker r = true) as Hk by (unfold is_compaction_marker; by rewrite Ek).
  destruct (_ || _) eqn:E.
  - split; [done|]. intros (Hc & Hr & Hd & Hq). exfalso. apply Forall_cons in Hr as [(_ & H1 & H2 & H3) _].
    rewrite Hp in *. subst credits. rewrite !map_app in Hd, Hq. simpl in Hd, Hq.
    apply NoDup_app in Hd as (_ & Hd & _), Hq as (_ & Hq & _). apply orb_true_iff in E as [E|E].
    + apply orb_true_iff in E as [E|E]; [apply orb_true_iff in E as [E|E]|].
      * breflect. lia.
      * apply negb_true_iff in E. apply existsb_index in H2. congruence.
      * apply not_false_iff_true in E. apply E, existsb_credit. split.
        -- intros Hin. apply (Hd _ Hin). left.
        -- intros Hin. apply (Hq _ Hin). left.
    + apply negb_true_iff, bool_decide_eq_false in E. done.
  - apply orb_false_elim in E as [E E4]. apply orb_false_elim in E as [E E3].
    apply orb_false_elim in E as [E1 E2]. apply negb_false_iff, bool_decide_eq_true in E4.
    apply negb_false_iff, existsb_index in E2. apply existsb_credit in E3 as [N1 N2]. breflect.
    rewrite IH.
    + rewrite <- app_assoc. simpl. split.
      * intros (-> & Hr & Hd & Hq). split_and!; try done. constructor; [|done].
        unfold credit_row. rewrite Hp. by split_and!.
      * intros (-> & Hr & Hd & Hq). by apply Forall_cons in Hr as [_ Hr].
    + rewrite map_app. apply NoDup_app. split_and!; [done| |apply NoDup_singleton].
      intros x Hx Hin. apply list_elem_of_singleton in Hin. by subst.
    + rewrite map_app. apply NoDup_app. split_and!; [done| |apply NoDup_singleton].
      intros x Hx Hin. apply list_elem_of_singleton in Hin. by subst.
Qed.

Lemma adjacent_NoDup l : StronglySorted Z.le l -> adjacent_equal l = false <-> NoDup l.
Proof.
  induction 1 as [|x l Hs IH Hx]; [split; [constructor|done]|]. destruct l as [|y l].
  - split; [intros _; apply NoDup_singleton|done].
  - change (adjacent_equal (x :: y :: l)) with ((x =? y) || adjacent_equal (y :: l)).
    rewrite orb_false_iff, IH, Z.eqb_neq, (NoDup_cons x (y :: l)). split.
    + intros [Hxy Hnd]. split; [|done]. intros Hin. apply elem_of_cons in Hin as [->|Hin]; [done|].
      apply Forall_cons in Hx as [Hx _]. inversion Hs as [|? ? _ Hy]; subst.
      apply (proj1 (Forall_forall _ _) Hy) in Hin. lia.
    + intros [Hn Hnd]. split; [|done]. intros ->. apply Hn. left.
Qed.

(** What the marker state is when the stored accounting agrees with the records. *)
Record markers_agree (f : OrdinaryProjectionFacts) : Prop := {
  ma_slots : zlen (opf_active_marker_credit_records f) <= opf_identity_slot_limit f;
  ma_rows : Forall (credit_row f) (opf_active_marker_credit_records f);
  ma_seqs : NoDup (map rcr_delivery_seq (opf_active_marker_credit_records f));
  ma_participants : NoDup (map marker_participant (opf_active_marker_credit_records f));
  ma_credits : zlen (opf_active_marker_credit_records f)
               = ca_marker_capacity_credits (opf_closure_accounting f);
  ma_distinct : NoDup (opf_unaccepted_marker_anchors f);
  ma_anchored : forall x, x ∈ opf_unaccepted_marker_anchors f ->
    x ∈ map rcr_delivery_seq (opf_active_marker_credit_records f);
  ma_anchors : zlen (opf_unaccepted_marker_anchors f)
               = ca_marker_anchors (opf_closure_accounting f);
}.
Definition marker_state_of (f : OrdinaryProjectionFacts) : MarkerState :=
  mkMarkerState (sort_by_key mc_delivery_seq (map credit_of (opf_active_marker_credit_records f)))
    (sort_by_key id (opf_unaccepted_marker_anchors f)).

Lemma sorted_id_NoDup l : adjacent_equal (sort_by_key id l) = false <-> NoDup l.
Proof.
  assert (StronglySorted Z.le (sort_by_key id l)) as Hs by apply (sort_by_key_sorted id).
  rewrite (adjacent_NoDup _ Hs). by rewrite sort_by_key_perm.
Qed.
Lemma existsb_anchor credits anchors :
  existsb (fun anchor => negb (existsb (fun credit => mc_delivery_seq credit =? anchor) credits)) anchors
  = false <-> forall x, x ∈ anchors -> x ∈ map mc_delivery_seq credits.
Proof.
  rewrite <- not_true_iff_false, existsb_exists. split.
  - intros H x Hx. destruct (existsb (fun credit => mc_delivery_seq credit =? x) credits) eqn:E.
    + apply existsb_exists in E as (c & Hc & E). apply Z.eqb_eq in E. rewrite <- E.
      apply list_elem_of_fmap_2. by apply list_elem_of_In.
    + exfalso. apply H. exists x. rewrite E. split; [by apply list_elem_of_In|done].
  - intros H (x & Hx & E). apply list_elem_of_In, H, list_elem_of_fmap in Hx as (c & -> & Hc).
    apply negb_true_iff, not_true_iff_false in E. apply E, existsb_exists. exists c.
    split; [by apply list_elem_of_In|apply Z.eqb_refl].
Qed.

Lemma validate_marker_state_spec f state :
  validate_marker_state f = Ok state <-> markers_agree f /\ state = marker_state_of f.
Proof.
  set (records := opf_active_marker_credit_records f).
  assert (map mc_delivery_seq (map credit_of records) = map rcr_delivery_seq records) as E1
    by (by rewrite map_map).
  assert (map mc_participant_index (map credit_of records) = map marker_participant records) as E2
    by (by rewrite map_map).
  pose proof (collect_credits_spec f records [] (map credit_of records) ltac:(constructor) ltac:(constructor)) as Hc.
  rewrite E1, E2 in Hc. simpl in Hc.
  assert (forall cs, collect_credits f [] records = Ok cs -> cs = map credit_of records) as Hu.
  { intros cs H. apply collect_credits_spec in H as (-> & _); [done|constructor|constructor]. }
  assert (forall x, x ∈ map mc_delivery_seq (sort_by_key mc_delivery_seq (map credit_of records))
                    <-> x ∈ map rcr_delivery_seq records) as Hs.
  { intros x. rewrite <- E1. by rewrite (Permutation_map mc_delivery_seq (sort_by_key_perm _ _)). }
  assert (zlen (sort_by_key mc_delivery_seq (map credit_of records)) = zlen records) as Hl.
  { by rewrite (zlen_perm _ _ (sort_by_key_perm _ _)), zlen_map. }
  assert (zlen (sort_by_key id (opf_unaccepted_marker_anchors f)) = zlen (opf_unaccepted_marker_anchors f)) as Hla.
  { by rewrite (zlen_perm _ _ (sort_by_key_perm _ _)). }
  unfold validate_marker_state, marker_state_of. fold records. split.
  - destruct (Z.ltb_spec (opf_identity_slot_limit f) (zlen records)); [done|].
    destruct (collect_credits f [] records) as [cs|] eqn:Ec; cbn; [|done].
    rewrite (Hu cs eq_refl) in *. destruct (proj1 Hc eq_refl) as (_ & Hr & Hd & Hp).
    rewrite Hl, Hla.
    destruct (Z.eqb_spec (zlen records) (ca_marker_capacity_credits (opf_closure_accounting f))); cbn; [|done].
    destruct (_ || _) eqn:E; [done|]. apply orb_false_elim in E as [Ea Eb].
    destruct (Z.eqb_spec (zlen (opf_unaccepted_marker_anchors f)) (ca_marker_anchors (opf_closure_accounting f)));
      cbn; [|done]. intros [= <-]. split; [|done]. constructor; try done.
    + by apply sorted_id_NoDup.
    + intros x Hx. apply Hs. apply (proj1 (existsb_anchor _ _) Eb).
      by rewrite sort_by_key_perm.
  - intros [[S1 S2 S3 S4 S5 S6 S7 S8] ->]. fold records in S1, S2, S3, S4, S5, S7.
    destruct (Z.ltb_spec (opf_identity_slot_limit f) (zlen records)); [lia|].
    rewrite (proj2 Hc) by (by split_and!). cbn. rewrite Hl, Hla.
    rewrite (proj2 (Z.eqb_eq _ _)) by done. cbn.
    rewrite (proj2 (sorted_id_NoDup _)) by done. cbn.
    rewrite (proj2 (existsb_anchor _ _)).
    2:{ intros x Hx. apply Hs. apply S7. by rewrite sort_by_key_perm in Hx. }
    by rewrite (proj2 (Z.eqb_eq _ _)) by done.
Qed.

Lemma preflight_markers f state : projection_preflight f = Ok state ->
  markers_agree f /\ state = marker_state_of f.
Proof.
  unfold projection_preflight. intros H. apply validate_marker_state_spec.
  destruct (validate_clear_snapshot f); cbn in H; [|done].
  destruct (validate_sender f); cbn in H; [|done].
  destruct (validate_retained_suffix f); cbn in H; [|done].
  destruct (validate_marker_state f) as [s|]; cbn in H; [|done].
  destruct (retained_charge_at_floor _ _ _ _ _); cbn in H; [|done].
  destruct (retained_baseline_wide _ _ _ _); cbn in H; [|done]. destruct (negb _); [done|]. by injection H as <-.
Qed.

(** ** Baselines *)

(** Credits as the search keeps them when the floor moves to [floor]. *)
Definition surviving (floor : Z) (credits : list MarkerCredit) : list MarkerCredit :=
  List.filter (fun credit => floor <=? mc_delivery_seq credit) credits.

Lemma credited_surviving floor credits c : floor <= rrc_delivery_seq c ->
  credited (surviving floor credits) c = credited credits c.
Proof.
  intros Hf. unfold credited, surviving. induction credits as [|k ks IH]; simpl; [done|].
  destruct (Z.leb_spec floor (mc_delivery_seq k)); simpl; rewrite IH; [done|].
  by rewrite (proj2 (Z.eqb_neq _ _)) by lia.
Qed.
Lemma unmarked_surviving floor credits charges :
  unmarked (surviving floor credits) (charges_at floor charges)
  = charges_at floor (unmarked credits charges).
Proof.
  unfold unmarked, charges_at. induction charges as [|c cs IH]; simpl; [done|].
  destruct (Z.leb_spec floor (rrc_delivery_seq c)); simpl.
  - rewrite credited_surviving by done. destruct (credited credits c); simpl; [done|].
    rewrite (proj2 (Z.leb_le _ _)) by done. by rewrite IH.
  - rewrite IH. destruct (credited credits c); simpl; [done|]. by rewrite (proj2 (Z.leb_gt _ _)).
Qed.
Lemma filter_map_NoDup {A} (g : A -> Z) (p : A -> bool) l : NoDup (map g l) -> NoDup (map g (List.filter p l)).
Proof.
  induction l as [|x l IH]; simpl; [done|]. intros H. apply NoDup_cons in H as [Hx H].
  destruct (p x); simpl; [|by apply IH]. apply NoDup_cons. split; [|by apply IH]. intros Hin. apply Hx.
  apply list_elem_of_fmap in Hin as (y & -> & Hy). apply list_elem_of_fmap_2.
  apply list_elem_of_In, filter_In in Hy as [Hy _]. by apply list_elem_of_In.
Qed.
Lemma surviving_elem floor (credits : list MarkerCredit) (charges : list RetainedRecordCharge) :
  (forall x, x ∈ map mc_delivery_seq credits -> x ∈ map rrc_delivery_seq charges) ->
  forall x, x ∈ map mc_delivery_seq (surviving floor credits) ->
  x ∈ map rrc_delivery_seq (charges_at floor charges).
Proof.
  intros H x Hx. apply list_elem_of_fmap in Hx as (k & -> & Hk).
  apply list_elem_of_In, filter_In in Hk as [Hk Hf]. apply list_elem_of_In in Hk. apply Z.leb_le in Hf.
  pose proof (H _ (list_elem_of_fmap_2 mc_delivery_seq _ _ Hk)) as Hc.
  apply list_elem_of_fmap in Hc as (c & E & Hc). rewrite E. apply list_elem_of_fmap_2.
  apply list_elem_of_In, filter_In. split; [by apply list_elem_of_In|]. apply Z.leb_le. lia.
Qed.

Section Evaluate.
Context (f : OrdinaryProjectionFacts) (caller : RetainedRecordCharge).
Let m := opl_marker_max (opf_limits f).
Let charges := opf_retained_charges f.
Let credits := map credit_of (opf_active_marker_credit_records f).
Hypothesis Hm : rv_ok m.
Hypothesis Hkeys : map rrc_delivery_seq charges = map rcr_delivery_seq (opf_retained_records f).
Hypothesis Hrows : NoDup (map rcr_delivery_seq (opf_retained_records f)).
Hypothesis Hcharges : Forall charge_ok charges.
Hypothesis Hmarkers : markers_agree f.
Hypothesis Hcaller : charge_ok caller.
Hypothesis Hencoded : rrc_encoded_charge caller = opf_encoded_record_charge f.

(** The baseline of the suffix from [floor] on, with [extra] rows. *)
Definition suffix_baseline (floor : Z) (extra : list RetainedRecordCharge) : WideResourceVector :=
  weigh (mkWRV 0 0) (opf_identity_slot_limit f) m
    (charges_at floor (unmarked credits charges ++ extra)).

Lemma credits_in_rows x : x ∈ map mc_delivery_seq credits -> x ∈ map rrc_delivery_seq charges.
Proof using Hkeys Hmarkers.
  intros H. rewrite Hkeys. unfold credits in H. rewrite map_map in H.
  apply list_elem_of_fmap in H as (r & -> & Hr).
  apply (list_elem_of_fmap_2 rcr_delivery_seq).
  by apply (proj1 (Forall_forall _ _) (ma_rows _ Hmarkers)) in Hr as (_ & _ & _ & ?).
Qed.
Lemma credits_NoDup : NoDup (map mc_delivery_seq credits).
Proof using Hmarkers. unfold credits. rewrite map_map. apply Hmarkers. Qed.

Lemma unmarked_perm ks ks' cs : ks ≡ₚ ks' -> unmarked ks cs = unmarked ks' cs.
Proof using.
  intros Hp. unfold unmarked. apply filter_ext. intros c. f_equal. unfold credited.
  induction Hp; simpl; [done|by rewrite IHHp| |congruence]. by rewrite !orb_assoc, (orb_comm (_ =? _)).
Qed.

Lemma surviving_count floor ks : ks ≡ₚ credits ->
  zlen (marked (surviving floor ks) (charges_at floor charges)) = zlen (surviving floor ks).
Proof using Hkeys Hrows Hmarkers.
  intros Hp. apply marked_count.
  - apply filter_map_NoDup. rewrite (Permutation_map _ Hp). apply credits_NoDup.
  - apply filter_map_NoDup. rewrite <- Hkeys in Hrows. exact Hrows.
  - apply surviving_elem. intros x Hx. apply credits_in_rows. by rewrite <- (Permutation_map _ Hp).
Qed.

(** A round of the search computes exactly this. *)
Lemma evaluate_exact floor round :
  evaluate_floor f (marker_state_of f) (rrc_delivery_seq caller) floor = Ok round ->
  cs_baseline round = suffix_baseline floor [caller] /\ wrv_ok (cs_baseline round)
  /\ cs_surviving_credits round ≡ₚ surviving floor credits
  /\ cs_surviving_anchor_count round
     = zlen (List.filter (fun a => floor <=? a) (opf_unaccepted_marker_anchors f))
  /\ cs_marker_participants round
     = newly_overtaken (opf_active_identities f) (cs_surviving_credits round) floor
  /\ zlen (cs_surviving_credits round) + zlen (cs_marker_participants round)
     <= opf_identity_slot_limit f.
Proof using Hm Hkeys Hrows Hcharges Hmarkers Hcaller Hencoded.
  unfold evaluate_floor. fold m.
  change (ms_credits (marker_state_of f)) with (sort_by_key mc_delivery_seq credits).
  fold (surviving floor (sort_by_key mc_delivery_seq credits)).
  set (live := surviving floor (sort_by_key mc_delivery_seq credits)).
  assert (live ≡ₚ surviving floor credits) as Hlive by apply filter_perm, sort_by_key_perm.
  set (told := newly_overtaken (opf_active_identities f) live floor).
  destruct (retained_charge_at_floor _ _ _ _ _) as [w|] eqn:Ew; cbn -[zlen]; [|done].
  change (Some (rrc_delivery_seq caller)) with (option_map rrc_delivery_seq (Some caller)) in Ew.
  apply retained_charge_exact in Ew as [Ew Fw];
    [|done|done|done|apply zlen_nonneg|by apply Forall_singleton|by intros c [= <-]].
  fold m charges in Ew. unfold live in Ew at 1. rewrite surviving_count in Ew by apply sort_by_key_perm.
  fold live in Ew.
  destruct (checked_add _ _ _) as [n|] eqn:En; cbn -[zlen]; [|done]. apply checked_add_Some in En as [-> _].
  pose proof (zlen_nonneg live). pose proof (zlen_nonneg told).
  assert (wrv_ok w) as Hw.
  { subst w. apply weigh_ok; try done; [lia|]. apply Forall_app. split.
    - by apply filter_Forall, filter_Forall.
    - apply filter_Forall. by apply Forall_singleton. }
  destruct (retained_baseline_wide _ _ _ _) as [b|] eqn:Eb; cbn -[zlen]; [|done]. intros [= <-]. simpl.
  apply suffix_baseline_exact in Eb as (Hs & Eb & Fb); [|done|done]. fold m in Eb.
  assert (b = suffix_baseline floor [caller]) as Hb.
  { rewrite Eb, Ew, weigh_weigh, app_nil_r. unfold suffix_baseline. f_equal; [lia|].
    unfold live. rewrite unmarked_surviving. rewrite (unmarked_perm _ credits) by apply sort_by_key_perm.
    unfold caller_charges, charges_at. by rewrite List.filter_app. }
  split_and!; try done.
  - subst b. apply weigh_ok; try done; lia.
  - apply zlen_perm, filter_perm, sort_by_key_perm.
Qed.

(** With the stored accounting in agreement the preflight has nothing left to refuse. *)
Lemma preflight_succeeds : validate_clear_snapshot f = Ok tt -> validate_sender f = Ok tt ->
  validate_retained_suffix f = Ok tt ->
  ca_baseline (opf_closure_accounting f) = suffix_baseline (opf_current_floor f) [] ->
  wide_fits (ca_baseline (opf_closure_accounting f)) ->
  charges_at (opf_current_floor f) charges = charges ->
  projection_preflight f = Ok (marker_state_of f).
Proof using Hm Hkeys Hrows Hcharges Hmarkers.
  intros E1 E2 E3 Eb Hfit Hall. unfold projection_preflight. rewrite E1, E2, E3. cbn -[zlen].
  rewrite (proj2 (validate_marker_state_spec f _) (conj Hmarkers eq_refl)). cbn -[zlen marker_state_of].
  change (ms_credits (marker_state_of f)) with (sort_by_key mc_delivery_seq credits).
  set (live := sort_by_key mc_delivery_seq credits).
  assert (live ≡ₚ credits) as Hlive by apply sort_by_key_perm.
  assert (zlen (marked live charges) = zlen live) as Hcount.
  { apply marked_count.
    - rewrite (Permutation_map _ Hlive). apply credits_NoDup.
    - rewrite <- Hkeys in Hrows. exact Hrows.
    - intros x Hx. apply credits_in_rows. by rewrite <- (Permutation_map _ Hlive). }
  pose proof (zlen_nonneg live). pose proof (ma_slots _ Hmarkers) as Hslots.
  assert (zlen live <= opf_identity_slot_limit f) as Hle.
  { rewrite (zlen_perm _ _ Hlive). unfold credits. by rewrite zlen_map. }
  unfold suffix_baseline in Eb. rewrite app_nil_r in Eb.
  assert (charges_at (opf_current_floor f) (unmarked credits charges) = unmarked live charges) as Eu.
  { rewrite (unmarked_perm live credits) by done. unfold charges_at. apply filter_all.
    intros c Hc. apply list_elem_of_In, filter_In in Hc as [Hc _]. apply list_elem_of_In in Hc.
    rewrite <- Hall in Hc. by apply list_elem_of_In, filter_In in Hc as [_ Hc]. }
  rewrite Eu in Eb. set (w := weigh (mkWRV 0 0) (zlen live) m (unmarked live charges)).
  assert (wide_fits w) as Fw.
  { rewrite Eb in Hfit. replace (opf_identity_slot_limit f)
      with (zlen live + (opf_identity_slot_limit f - zlen live)) in Hfit by lia.
    rewrite <- (app_nil_r (unmarked live charges)) in Hfit.
    apply wide_fits_weigh in Hfit; [done|done|lia|constructor]. }
  assert (wrv_ok w) as Hw by (apply weigh_ok; try done; by apply filter_Forall).
  assert (retained_charge_at_floor f (opf_current_floor f) live 0 None = Ok w) as ->.
  { apply (proj2 (retained_charge_exact f Hm Hkeys Hcharges (opf_current_floor f) live 0 None w
      ltac:(lia) ltac:(constructor) ltac:(done))).
    split; [|done]. fold m charges. rewrite Hall, Hcount. unfold caller_charges, charges_at; simpl.
    by rewrite Z.add_0_r, app_nil_r. }
  cbn -[zlen]. fold m. rewrite (proj2 (suffix_baseline_exact f Hm w _ _ (ca_baseline (opf_closure_accounting f)) Hw)).
  - cbn. by rewrite bool_decide_true.
  - split_and!; [done| |done]. fold m. rewrite Eb. unfold w. rewrite weigh_weigh, app_nil_r. f_equal. lia.
Qed.
End Evaluate.
