(* ===== verification/EnrollmentRuns.v ===== *)
(** * Initial enrollment: it succeeds, and starts the invariant

    The first enrollment of an empty conversation over a valid configuration is refused
    by no ledger and no gate of the closure; what it commits always builds the first
    frontiers, and these satisfy the invariant every later operation keeps. *)
From stdpp Require Import sorting.
From S2P Require Import Prelude ProjectionRuns Algebra Tags Wire Response Authority Order Sequence.
From S2P Require Import Edge Binding EdgeSteps Member Detach Leave Attach Lookup Capacity Closure.
From S2P Require Import Frontier FrontierNumeric FrontierLive RecordProjection FrontierInit.
From S2P Require Import EnrollmentClosure EnrollmentOperation FrontierRestore FrontierLeave.
From S2P Require Import FrontierInv FrontierRuns.

(** The ranges of the machine integers of the input. *)
Definition input_ok (i : InitialEnrollmentClosureInput) : Prop :=
  accounting_ok (ici_accounting i) /\ u64 (ici_identity_slots i)
  /\ rv_ok (ici_mandatory_bound i) /\ rv_ok (ici_recovery_claim i) /\ rv_ok (ici_marker_max i)
  /\ rv_ok (ici_attached_charge i) /\ 0 <= ici_participant_index i.

(** What the validation of an input leaves to know of it. *)
Definition uncharged (i : InitialEnrollmentClosureInput) : WideResourceVector :=
  mkWRV (ici_identity_slots i * rv_entries (ici_marker_max i))
        (ici_identity_slots i * rv_bytes (ici_marker_max i)).
Definition charged (i : InitialEnrollmentClosureInput) : WideResourceVector :=
  mkWRV (rv_entries (ici_attached_charge i) + wrv_entries (uncharged i))
        (rv_bytes (ici_attached_charge i) + wrv_bytes (uncharged i)).
(** [b + q + k] within the configured cap, in both components. *)
Definition within_cap (b : WideResourceVector) (q k cap : ResourceVector) : Prop :=
  wrv_entries b + rv_entries q + rv_entries k <= rv_entries cap
  /\ wrv_bytes b + rv_bytes q + rv_bytes k <= rv_bytes cap.

Record initial (i : InitialEnrollmentClosureInput) : Prop := {
  initial_state_clear : ca_state (ici_accounting i) = Closure_Clear;
  initial_churn : ca_episode_churn_used (ici_accounting i) = 0
                  /\ 2 <= ca_episode_churn_limit (ici_accounting i) <= u32_max;
  initial_slots : 0 < ici_identity_slots i;
  initial_bound : ici_mandatory_bound i = ici_recovery_claim i;
  initial_index : ici_participant_index i = 0;
  initial_generation : capability_generation (ici_binding_epoch i) = Generation_ONE;
  initial_order : ici_order i = mkOrderLedger OH_Empty OrderClaims_default;
  initial_sequence : sl_high_watermark (ici_sequence i) = 0
                     /\ sl_claims (ici_sequence i) = SequenceClaims_default;
  initial_floor : ici_physical_floor i = 1 /\ ici_observer_progress i = 0;
  initial_markers : ca_marker_capacity_credits (ici_accounting i) = 0
                    /\ ca_marker_anchors (ici_accounting i) = 0;
  initial_baseline : ca_baseline (ici_accounting i) = uncharged i;
  initial_envelope : within_cap (uncharged i) (ici_mandatory_bound i) (ici_recovery_claim i)
                       (ca_configured_cap (ici_accounting i));
  initial_attached : rv_entries (ici_attached_charge i) = 1
                     /\ 1 <= rv_entries (ici_mandatory_bound i)
                     /\ rv_bytes (ici_attached_charge i) <= rv_bytes (ici_mandatory_bound i);
}.

Lemma uncharged_baseline i : input_ok i ->
  retained_baseline ResourceVector_default (ici_identity_slots i) 0 (ici_marker_max i)
  = Ok (uncharged i) /\ wrv_ok (uncharged i).
Proof.
  intros (_ & Hs & _ & _ & Hm & _).
  destruct (retained_baseline_spec ResourceVector_default (ici_marker_max i) (ici_identity_slots i) 0)
    as [H Hok]; [split; ground|done..|ground|].
  rewrite H, (proj2 (Z.ltb_ge _ _)) by mlia. unfold uncharged. simpl in *. rewrite Z.sub_0_r in *.
  split; [done|]. apply Hok. mlia.
Qed.
Lemma charged_baseline i : input_ok i ->
  retained_baseline (ici_attached_charge i) (ici_identity_slots i) 0 (ici_marker_max i)
  = Ok (charged i) /\ wrv_ok (charged i).
Proof.
  intros (_ & Hs & _ & _ & Hm & Ha & _).
  destruct (retained_baseline_spec (ici_attached_charge i) (ici_marker_max i) (ici_identity_slots i) 0)
    as [H Hok]; [done..|ground|].
  rewrite H, (proj2 (Z.ltb_ge _ _)) by mlia. unfold charged, uncharged. simpl in *.
  rewrite Z.sub_0_r in *. split; [done|]. apply Hok. mlia.
Qed.
Lemma startup_envelope_spec b q k cap : wrv_ok b -> rv_ok q -> rv_ok k -> rv_ok cap ->
  startup_envelope_failure b q k cap = None <-> within_cap b q k cap.
Proof.
  intros [??] [??] [??] [??].
  unfold startup_envelope_failure, zero_debt_admission, zero_debt_capacity_failure, within_cap.
  rewrite !component_fits_spec by done.
  destruct (Z.leb_spec (wrv_entries b + rv_entries q + rv_entries k) (rv_entries cap)),
    (Z.leb_spec (wrv_bytes b + rv_bytes q + rv_bytes k) (rv_bytes cap)); simpl;
    split; intros; try done; lia.
Qed.

Lemma clear_owns_nothing a : accounting_ok a -> ca_state a = Closure_Clear ->
  ca_edge_sequence_claims a = 0 /\ ca_edge_order_position_claims a = 0
  /\ ca_edge_k_remaining a = ResourceVector_default.
Proof.
  intros (_ & _ & _ & H) E. unfold ClosureAccounting_try_new in H. rewrite E in H.
  csplit_in H. simpl in *. match goal with H : _ = Ok _ |- _ => csplit_in H end. by dreflect.
Qed.

Lemma validate_ledgers_spec i :
  validate_initial_ledgers_and_floor i = Ok tt <->
  ici_order i = mkOrderLedger OH_Empty OrderClaims_default
  /\ (sl_high_watermark (ici_sequence i) = 0 /\ sl_claims (ici_sequence i) = SequenceClaims_default)
  /\ (ici_physical_floor i = 1 /\ ici_observer_progress i = 0)
  /\ (ca_marker_capacity_credits (ici_accounting i) = 0 /\ ca_marker_anchors (ici_accounting i) = 0).
Proof.
  unfold validate_initial_ledgers_and_floor. split.
  - intros H. csplit_in H. dreflect. destruct (ici_order i); simpl in *. by subst.
  - intros (-> & [-> ->] & [-> ->] & [-> ->]). done.
Qed.
Lemma validate_capacity_spec i : input_ok i ->
  validate_initial_capacity i = Ok tt <->
  ca_baseline (ici_accounting i) = uncharged i
  /\ within_cap (uncharged i) (ici_mandatory_bound i) (ici_recovery_claim i)
       (ca_configured_cap (ici_accounting i))
  /\ rv_entries (ici_attached_charge i) = 1 /\ 1 <= rv_entries (ici_mandatory_bound i)
  /\ rv_bytes (ici_attached_charge i) <= rv_bytes (ici_mandatory_bound i).
Proof.
  intros Hi. destruct (uncharged_baseline i Hi) as [Hb Hu]. destruct Hi as (Ha & _ & Hq & Hk & _).
  destruct Ha as (_ & _ & (_ & _ & Hcap) & _).
  pose proof (startup_envelope_spec _ _ _ _ Hu Hq Hk Hcap) as He.
  unfold validate_initial_capacity. rewrite Hb. simpl.
  destruct (startup_envelope_failure _ _ _ _) eqn:E; rewrite <- He; csplit; dreflect;
    split; intros; destruct_and?; try done; try lia; split_and!; try done; lia.
Qed.

(** The validation is exact. *)
Lemma validate_initial_input_spec i : input_ok i ->
  validate_initial_input i = Ok tt <-> initial i.
Proof.
  intros Hi. pose proof (validate_ledgers_spec i) as Hl.
  pose proof (validate_capacity_spec i Hi) as Hc.
  destruct Hi as (Ha & Hs & _ & _ & _ & _ & Hx). unfold validate_initial_input, MAX_CHURN_LIMIT.
  split.
  - intros H. csplit_in H. dreflect.
    match goal with u : () |- _ => destruct u end.
    destruct (proj1 Hl eq_refl) as (? & ? & ? & ?). destruct (proj1 Hc H) as (? & ? & ?).
    constructor; try done; first [mlia|split; mlia].
  - intros []. destruct (clear_owns_nothing _ Ha) as (-> & -> & ->); [done|].
    destruct initial_churn0 as [-> Hchurn].
    rewrite initial_state_clear0, initial_bound0, initial_index0, initial_generation0.
    rewrite (proj2 (Z.leb_le 2 _)), (proj2 (Z.leb_le _ u32_max)) by lia.
    rewrite (proj2 (Z.eqb_neq (ici_identity_slots i) 0)), (proj2 (Z.leb_gt (ici_identity_slots i) 0))
      by lia.
    rewrite !bool_decide_true by done. simpl. rewrite (proj2 Hl) by done. by apply Hc.
Qed.

(** ** The projection *)

Definition initial_debt (i : InitialEnrollmentClosureInput) : WideResourceVector :=
  let q := ici_mandatory_bound i in
  let k := ici_recovery_claim i in
  let cap := ca_configured_cap (ici_accounting i) in
  mkWRV (Z.max 0 (wrv_entries (charged i) + rv_entries q + rv_entries k - rv_entries cap))
        (Z.max 0 (wrv_bytes (charged i) + rv_bytes q + rv_bytes k - rv_bytes cap)).
Definition wide_sum (b : WideResourceVector) (q k : ResourceVector) : WideResourceVector :=
  mkWRV (wrv_entries b + rv_entries q + rv_entries k) (wrv_bytes b + rv_bytes q + rv_bytes k).
Definition clear_after (i : InitialEnrollmentClosureInput) : bool := is_zero (initial_debt i).
Definition initial_projection (i : InitialEnrollmentClosureInput)
    : InitialEnrollmentClosureProjection :=
  let a := ici_accounting i in
  let k := if clear_after i then ResourceVector_default else ici_recovery_claim i in
  let state := if clear_after i then Closure_Clear
               else Closure_Owed (mkClosureDebt (initial_debt i))
                      (SE_ObserverProjection (mkObserverProjection 1)) in
  mkInitialEnrollmentClosureProjection a
    (mkClosureAccounting state 0 0 0 0 k (charged i) (ca_configured_cap a) 0
       (ca_episode_churn_limit a))
    (ici_attached_charge i) 1 (charged i) k
    (mkMandatoryCapacity (initial_debt i) true true)
    (mkRequiredCapacityPlan
       (wide_max (wide_sum (charged i)
                    (if clear_after i then ici_mandatory_bound i else ResourceVector_default)
                    (ici_recovery_claim i))
          (wide_sum (uncharged i) (ici_mandatory_bound i) (ici_recovery_claim i))))
    RQS_None [] (ici_order i) (ici_sequence i) (ici_participant_index i) (ici_identity_slots i)
    (ici_binding_epoch i).

Lemma checked_sum_exact b q k : wrv_ok b -> rv_ok q -> rv_ok k ->
  wrv_entries b + rv_entries q + rv_entries k <= u128_max ->
  wrv_bytes b + rv_bytes q + rv_bytes k <= u128_max ->
  checked_sum b q k = Ok (wide_sum b q k).
Proof.
  intros [??] [??] [??] He Hb. unfold checked_sum, checked_add, widen_u64; simpl.
  rewrite !(proj2 (Z.leb_le _ u128_max)) by mlia. simpl.
  rewrite !(proj2 (Z.leb_le _ u128_max)) by mlia. done.
Qed.

(** Under the validation the charge of the [Attached] record fits beside the recovery
    claim, and what it owes is at most itself. *)
Lemma initial_bounds i : input_ok i -> initial i ->
  let cap := ca_configured_cap (ici_accounting i) in
  wrv_entries (charged i) + rv_entries (ici_recovery_claim i) <= rv_entries cap
  /\ wrv_bytes (charged i) + rv_bytes (ici_recovery_claim i) <= rv_bytes cap
  /\ wrv_entries (initial_debt i) <= rv_entries (ici_attached_charge i)
  /\ wrv_bytes (initial_debt i) <= rv_bytes (ici_attached_charge i).
Proof.
  intros (_ & _ & _ & _ & _ & Ha & _) [].
  destruct initial_envelope0, initial_attached0 as (? & ? & ?), Ha.
  unfold initial_debt, charged in *. simpl in *. mlia.
Qed.

Lemma initial_capacity i : input_ok i -> initial i ->
  mandatory_capacity (charged i) (ici_mandatory_bound i) (ici_recovery_claim i)
    (ca_configured_cap (ici_accounting i)) = mkMandatoryCapacity (initial_debt i) true true.
Proof.
  intros Hi Hv. destruct (charged_baseline i Hi) as [_ Hb].
  destruct (initial_bounds i Hi Hv) as (He & Hby & _).
  destruct Hi as (Ha & _ & Hq & Hk & _). destruct Ha as (_ & _ & (_ & _ & Hcap) & _).
  destruct Hb, Hq, Hk, Hcap. unfold mandatory_capacity, initial_debt.
  rewrite !mandatory_component_fit, !mandatory_component_bound, !mandatory_component_debt by done.
  rewrite !(proj2 (Z.leb_le _ _)) by mlia. done.
Qed.

Lemma project_initial_exact i : input_ok i -> initial i ->
  project_initial_enrollment_closure i = Ok (initial_projection i).
Proof.
  intros Hi Hv. pose proof (proj2 (validate_initial_input_spec i Hi) Hv) as HV.
  destruct (uncharged_baseline i Hi) as [Hu Huok], (charged_baseline i Hi) as [Hc Hcok].
  destruct (initial_bounds i Hi Hv) as (He & Hb & Hde & Hdb).
  pose proof (initial_capacity i Hi Hv) as Hcap.
  unfold initial_projection, clear_after. remember (initial_debt i) as d eqn:Ed. clear Ed.
  destruct Hi as (Ha & _ & Hq & Hk & _ & Hat & _), Hv.
  destruct Ha as (_ & _ & (_ & _ & Hcfg) & _), initial_envelope0, initial_churn0 as [_ ?].
  assert (rv_ok ResourceVector_default) as Hz by (split; ground).
  unfold project_initial_enrollment_closure. rewrite HV, Hu, Hc. cbn [map_err]. rewrite Hcap.
  unfold initial_state. cbn [debt is_legal absolute_fit debt_within_mandatory_bound andb negb].
  assert (forall q, rv_ok q -> rv_entries q <= rv_entries (ici_mandatory_bound i) ->
    rv_bytes q <= rv_bytes (ici_mandatory_bound i) ->
    checked_sum (charged i) q (ici_recovery_claim i)
    = Ok (wide_sum (charged i) q (ici_recovery_claim i))) as Hsum.
  { intros q [??] ??. destruct Hq, Hk, Hcfg. apply checked_sum_exact; try done; mlia. }
  rewrite (checked_sum_exact (uncharged i)) by (destruct Hcfg; try done; mlia).
  unfold ClosureDebt_new, ClosureAccounting_try_new, widen_u64.
  pose proof Hq as [??]. pose proof Hk as [??]. destruct Hat, Hcfg, Hcok.
  rewrite (proj2 (Z.eqb_neq _ 0)), !(proj2 (Z.ltb_ge _ _)) by mlia.
  destruct (is_zero d) eqn:Ez; simpl.
  - rewrite Hsum by (done || lia). reflexivity.
  - rewrite !u64_try_from_Some by mlia. simpl. rewrite Hsum by first [done|simpl; mlia]. reflexivity.
Qed.

(** What the conversation starts with is a valid accounting. *)
Lemma initial_accounting_ok i : input_ok i -> initial i ->
  accounting_ok (icp_resulting_accounting (initial_projection i)).
Proof.
  intros Hi Hv. destruct (charged_baseline i Hi) as [_ Hcok].
  destruct (initial_bounds i Hi Hv) as (He & Hb & Hde & Hdb).
  assert (0 <= wrv_entries (initial_debt i) /\ 0 <= wrv_bytes (initial_debt i)) as [Hd1 Hd2]
    by (unfold initial_debt; simpl; lia).
  unfold initial_projection, clear_after. remember (initial_debt i) as d eqn:Ed. clear Ed.
  destruct Hi as (Ha & _ & _ & Hk & _ & Hat & _), Hv.
  destruct Ha as (_ & _ & (_ & _ & Hcfg) & _), initial_churn0 as [_ ?].
  assert (rv_ok ResourceVector_default) as Hz by (split; ground).
  assert (u32_max < u64_max) by ground. pose proof Hk as [??]. pose proof Hat as [??].
  pose proof Hcfg as [??]. unfold accounting_ok. cbn -[Z.max].
  unfold ClosureAccounting_try_new, widen_u64.
  rewrite (proj2 (Z.eqb_neq _ 0)), !(proj2 (Z.ltb_ge _ _)) by mlia.
  destruct (is_zero d) eqn:Ez; simpl.
  - split_and!; try done; mlia.
  - rewrite !u64_try_from_Some by mlia. simpl. split_and!; try done; try mlia.
    split; [split; simpl; mlia|done].
Qed.

(** ** The gates *)

Definition initial_order_allocation : OrderAllocation :=
  mkOrderAllocation 0 (mkOrderLedger (OH_Allocated 0) (mkOrderClaims 1 1 false false)).
Definition initial_sequence_ledger : SequenceLedger :=
  mkSequenceLedger 1 (mkSequenceClaims 1 1 0 RSR_None) 3.
Definition initial_closed (i : InitialEnrollmentClosureInput) : ClosedInitialEnrollment :=
  mkClosedInitialEnrollment (initial_projection i) initial_order_allocation initial_sequence_ledger
    (mkObserverFloorPermit 0 1)
    (mkRemainingClosurePermit (ici_accounting i)
       (icp_required_capacity (initial_projection i)) 0).

Lemma initial_required i : input_ok i -> initial i ->
  let maximum := rcp_maximum (icp_required_capacity (initial_projection i)) in
  wrv_entries maximum <= rv_entries (ca_configured_cap (ici_accounting i))
  /\ wrv_bytes maximum <= rv_bytes (ca_configured_cap (ici_accounting i)).
Proof.
  intros Hi Hv. destruct (initial_bounds i Hi Hv) as (He & Hb & _), Hv.
  destruct initial_envelope0 as [He0 Hb0]. unfold initial_projection, wide_max, wide_sum. simpl.
  unfold clear_after, is_zero, initial_debt; simpl.
  repeat match goal with |- context [?a =? 0] => destruct (Z.eqb_spec a 0) end; simpl in *; lia.
Qed.

Lemma initial_closure_eligible i request : input_ok i -> initial i ->
  remaining_closure_decision (initial_projection i) request
  = RCD_Eligible (mkRemainingClosurePermit (ici_accounting i)
                    (icp_required_capacity (initial_projection i)) 0).
Proof.
  intros Hi Hv. destruct (initial_required i Hi Hv) as [He Hb]. unfold remaining_closure_decision.
  change (icp_current_accounting (initial_projection i)) with (ici_accounting i).
  remember (icp_required_capacity (initial_projection i)) as plan eqn:E. clear E.
  destruct Hv, initial_churn0 as [Hu Hl].
  rewrite check_remaining_closure_verdict by (rewrite ?Hu; mlia).
  unfold remaining_verdict. rewrite Hu. by rewrite !(proj2 (Z.ltb_ge _ _)) by lia.
Qed.

Lemma initial_gates i envelope : input_ok i -> initial i ->
  plan_initial_enrollment_order i envelope
  = Ok (mkOrderedInitialEnrollment (initial_projection i) initial_order_allocation)
  /\ close_initial_enrollment
       (mkOrderedInitialEnrollment (initial_projection i) initial_order_allocation) envelope
     = Ok (initial_closed i).
Proof.
  intros Hi Hv. pose proof (project_initial_exact i Hi Hv) as Hp.
  assert (icp_order (initial_projection i) = mkOrderLedger OH_Empty OrderClaims_default) as Ho
    by (by destruct Hv).
  assert (plan_sequence (initial_projection i)
          = Ok (mkResultingSequenceState 1 (mkSequenceClaims 1 1 0 RSR_None))) as Hs.
  { unfold plan_sequence. destruct Hv, initial_sequence0 as [Hh Hc].
    change (icp_sequence (initial_projection i)) with (ici_sequence i).
    destruct (ici_sequence i); simpl in *. by subst. }
  split.
  - unfold plan_initial_enrollment_order, plan_order. rewrite Hp. cbn [map_err]. by rewrite Ho.
  - unfold close_initial_enrollment. cbn [oie_projection oie_order]. rewrite Hs.
    by rewrite initial_closure_eligible.
Qed.

(** ** The commit and the frontiers it starts *)

Definition initial_commit {F} (request : EnrollmentRequest)
    (capacity : InitialEnrollmentCapacityPermits) (i : InitialEnrollmentClosureInput)
    (values : InitialEnrollmentCommitValues F) : InitialEnrollmentOperationCommit F :=
  let binding := mkActiveBinding 0 (er_conversation_id request) (ici_binding_epoch i) in
  let attached := from_binding binding (mkAttachedPosition 0 1) in
  let deadlines := icv_deadlines values in
  mkInitialEnrollmentOperationCommit
    (mkEnrollmentCommit
       (from_enrollment 0 (er_conversation_id request) (icv_attach_secret values)
          (icv_enrollment_fingerprint values))
       (BS_Bound binding) attached
       (mkEnrollBound (er_conversation_id request) (er_enrollment_token request) 0
          (icv_attach_secret values) (ici_binding_epoch i) (rdl_receipt_expires_at deadlines)
          (rdl_provenance_expires_at deadlines))
       (unfenced attached))
    (iep_connection capacity) (iep_enrollment capacity) initial_order_allocation
    initial_sequence_ledger (mkObserverFloorPermit 0 1)
    (cie_closure_permit (initial_closed i)) (initial_projection i).

Definition initial_frontiers (conversation : ConversationId) (epoch : BindingEpoch) (slots : Z)
    : ClaimFrontiers :=
  let terminal := mkBindingTerminalOwner 0 epoch in
  mkClaimFrontiers conversation
    (mkActiveIdentityRanks [mkFrontierParticipant 0 0 (FB_Bound epoch)]) slots 1
    [mkRetainedCausalRecord 1 (mkAdmissionOrder 0 CP_AttachLifecycle 0) (RCK_AttachLifecycle 0 epoch)]
    [] None
    (mkSequenceClaimFrontier initial_sequence_ledger
       [mkMovableSequenceClaim 2 (SDO_BindingTerminal terminal);
        mkMovableSequenceClaim 3 (SDO_MembershipExit 0)]
       [] (mkSequenceProductRanges [mkTerminalProductRange 4 1 terminal] None []) None)
    (mkOrderClaimFrontier (oa_resulting initial_order_allocation)
       [mkMovableOrderClaim 1 (ODO_ActiveBindingTerminal terminal);
        mkMovableOrderClaim 2 (ODO_MembershipExit 0)]
       [] None).

Lemma initial_frontiers_ok conversation epoch slots : 0 < slots ->
  frontier_inv (initial_frontiers conversation epoch slots)
  /\ cursors_ok (initial_frontiers conversation epoch slots).
Proof.
  intros Hs. split; [|repeat constructor; simpl; lia]. unfold frontier_inv. simpl.
  set (owner := mkBindingTerminalOwner 0 epoch). split_and!.
  - split_and!; [unfold zlen; simpl; lia|repeat constructor|repeat constructor; simpl; lia].
  - unfold sequence_ok, sequence_counts, terminals_ok, products_ok, sequence_positions; simpl.
    split_and!; try done; try (by vm_compute); try (repeat constructor; fail).
    + unfold all_terminals; simpl. apply NoDup_singleton.
    + intros w Hw. by apply not_elem_of_nil in Hw.
  - unfold order_ok, order_counts, order_positions; simpl. split_and!; by vm_compute.
  - split_and!; [done..|]. intros key. done.
  - split_and!; [apply NoDup_nil_2..|constructor].
  - split_and!; [vm_compute; done..|constructor].
Qed.

Section Commit.
Context {EF V LF F P : Type}.
Implicit Types (input : InitialEnrollmentOperationInput EF V LF)
  (values : InitialEnrollmentCommitValues F) (slot : AllocatedParticipantSlot P).

(** The slot the enrollment asks for. *)
Definition slot_for input slot : Prop :=
  aps_participant_id slot = 0 /\ aps_identity_limit slot = ici_identity_slots (ioi_closure input)
  /\ aps_conversation_id slot = er_conversation_id (ioi_request input).

Lemma commit_initial_exact request capacity i values slot : initial i ->
  aps_participant_id slot = 0 -> aps_identity_limit slot = ici_identity_slots i ->
  aps_conversation_id slot = er_conversation_id request ->
  commit_initial_enrollment request capacity (initial_closed i) values (Ok slot)
  = IOD_Commit (initial_commit request capacity i values).
Proof.
  intros [] Hp Hl Hc. unfold commit_initial_enrollment, commit_enrollment. cbn -[initial_projection].
  change (icp_participant_index (initial_projection i)) with (ici_participant_index i).
  change (icp_identity_slots (initial_projection i)) with (ici_identity_slots i).
  change (icp_binding_epoch (initial_projection i)) with (ici_binding_epoch i).
  rewrite Hp, Hl, Hc, initial_index0, !Z.eqb_refl. cbn -[initial_projection].
  unfold EnrollBound_new. rewrite initial_generation0. done.
Qed.

Lemma initial_enrollment_commits input capacity values slot :
  input_ok (ioi_closure input) -> initial (ioi_closure input) ->
  initial_enrollment_lookup_response input = None ->
  admit_initial_enrollment_capacity input (enrollment_envelope (ioi_request input)) = Ok capacity ->
  slot_for input slot ->
  apply_initial_enrollment input values (Ok slot)
  = IOD_Commit (initial_commit (ioi_request input) capacity (ioi_closure input) values).
Proof.
  intros Hi Hv Hl Hc (Hp & Hs & Hr). unfold apply_initial_enrollment. rewrite Hl, Hc.
  destruct (initial_gates _ (enrollment_envelope (ioi_request input)) Hi Hv) as [-> ->].
  by apply commit_initial_exact.
Qed.

Lemma initial_enrollment_committed input values allocate c :
  input_ok (ioi_closure input) -> apply_initial_enrollment input values allocate = IOD_Commit c ->
  initial (ioi_closure input) /\ exists capacity slot, allocate = Ok slot /\ slot_for input slot
    /\ admit_initial_enrollment_capacity input (enrollment_envelope (ioi_request input)) = Ok capacity
    /\ c = initial_commit (ioi_request input) capacity (ioi_closure input) values.
Proof.
  intros Hi H. unfold apply_initial_enrollment in H.
  destruct (initial_enrollment_lookup_response input); [done|].
  destruct (admit_initial_enrollment_capacity _ _) as [capacity|[]] eqn:Hc; [|done..].
  destruct (plan_initial_enrollment_order _ _) as [ordered|[]] eqn:Ho; [|done..].
  assert (initial (ioi_closure input)) as Hv.
  { apply validate_initial_input_spec; [done|].
    unfold plan_initial_enrollment_order, project_initial_enrollment_closure in Ho.
    by destruct (validate_initial_input _) as [[]|]. }
  destruct (initial_gates _ (enrollment_envelope (ioi_request input)) Hi Hv) as [Eo Ec].
  rewrite Eo in Ho. injection Ho as <-. rewrite Ec in H. split; [done|].
  destruct allocate as [slot|]; [|done]. exists capacity, slot.
  assert (slot_for input slot) as Hslot.
  { pose proof (initial_index _ Hv) as Hx. unfold commit_initial_enrollment, commit_enrollment in H.
    cbn -[initial_projection] in H.
    change (icp_participant_index (initial_projection (ioi_closure input)))
      with (ici_participant_index (ioi_closure input)) in H. rewrite Hx in H.
    change (icp_identity_slots (initial_projection (ioi_closure input)))
      with (ici_identity_slots (ioi_closure input)) in H.
    destruct (_ =? 0) eqn:E1 in H; [|done].
    destruct (aps_identity_limit slot =? _) eqn:E2 in H; [|done].
    cbn -[initial_projection] in H.
    destruct (er_conversation_id _ =? _) eqn:E3 in H; [|done]. breflect. by split_and!. }
  split_and!; try done.
  destruct Hslot as (? & ? & ?). rewrite (commit_initial_exact _ capacity _ values slot) in H by done.
  by injection H.
Qed.

Lemma initial_closure_valid (request : EnrollmentRequest) capacity i values :
  let c := initial_commit request capacity i values in
  validate_initial_enrollment_closure c (ioc_closure_projection c) (ecm_attached (ioc_enrollment c))
  = Ok (icp_resulting_accounting (initial_projection i)).
Proof.
  unfold validate_initial_enrollment_closure, initial_projection, icp_debt. cbn.
  unfold clear_after. remember (initial_debt i) as d eqn:E. clear E.
  destruct (is_zero d) eqn:Ez; cbn; rewrite ?Ez, !bool_decide_true by done; done.
Qed.

Lemma initial_frontiers_built (request : EnrollmentRequest) capacity i values : initial i ->
  let c := initial_commit request capacity i values in
  from_initial_enrollment c (ici_attached_charge i)
  = Ok (mkInitialEnrollmentFrontierCommit c
          (initial_frontiers (er_conversation_id request) (ici_binding_epoch i)
             (ici_identity_slots i))
          (icp_resulting_accounting (initial_projection i)) (ici_attached_charge i)).
Proof.
  intros Hv c. unfold from_initial_enrollment, initial_enrollment_frontier_shape. subst c.
  rewrite initial_closure_valid. destruct Hv.
  cbn -[initial_projection initial_ledgers_match build_initial_enrollment_frontiers].
  change (icp_resulting_retained_charge (initial_projection i)) with (ici_attached_charge i).
  change (icp_participant_index (initial_projection i)) with (ici_participant_index i).
  change (icp_identity_slots (initial_projection i)) with (ici_identity_slots i).
  change (icp_binding_epoch (initial_projection i)) with (ici_binding_epoch i).
  rewrite initial_index0, !Z.eqb_refl, !bool_decide_true by done.
  rewrite (proj2 (Z.eqb_neq (ici_identity_slots i) 0)) by lia.
  cbn -[initial_projection initial_ledgers_match build_initial_enrollment_frontiers].
  assert (initial_ledgers_match (initial_commit request capacity i values)
            (mkAdmissionOrder 0 CP_AttachLifecycle 0) 1 = true) as -> by done.
  cbn -[initial_projection]. unfold build_initial_enrollment_frontiers.
  change (initial_frontier_positions _) with
    (@Ok _ InitialEnrollmentFrontierError (mkInitialFrontierPositions 2 3 4 1 2)).
  cbn -[initial_projection validate_cross_counter].
  destruct (initial_frontiers_ok (er_conversation_id request) (ici_binding_epoch i)
              (ici_identity_slots i)) as [(_ & _ & _ & Hx & _) _]; [done|].
  apply cross_counter_Ok in Hx.
  match type of Hx with ?r = _ => match goal with |- context [validate_cross_counter ?s ?o] =>
    change (validate_cross_counter s o) with r end end.
  rewrite Hx. done.
Qed.
End Commit.
