(* ===== verification/LeaveRuns.v ===== *)
(** * Claim frontiers: Leave keeps the invariant

    A Leave takes the exit of one identity, the terminal of its binding and the recovery
    block that is its own out of both lanes, and lays out what is left behind the orders
    and the sequences it has used.  The two halves run at different moments (the order
    lane when the authority is prepared, the sequence lane when the Leave is committed),
    so the invariant is that of the two together. *)
From stdpp Require Import sorting.
From S2P Require Import Prelude ProjectionRuns Algebra Tags Wire Response Order Sequence Edge.
From S2P Require Import EdgeSteps Binding Member Detach Leave Attach Closure Frontier.
From S2P Require Import FrontierNumeric FrontierLive FrontierInit RecordProjection FrontierRestore.
From S2P Require Import FrontierLeave FrontierInv FrontierRuns.

(** ** Cursors *)

(** The cursor of a lane: nothing is left behind the last number. *)
Definition cursor_at (c : Z) : option Z := if c <=? u64_max then Some c else None.
Lemma cursor_next c : c <= u64_max -> checked_add u64_max c 1 = cursor_at (c + 1).
Proof. done. Qed.
Lemma cursor_at_Some c x : cursor_at c = Some x -> x = c /\ c <= u64_max.
Proof. unfold cursor_at. destruct (Z.leb_spec c u64_max); [|done]. by intros [= <-]. Qed.

Lemma allocate_exact c len start next : 0 <= c -> 1 <= len <= u64_max + 1 ->
  allocate_leave_sequence_range (cursor_at c) len = Ok (start, next) ->
  start = c /\ next = cursor_at (c + len) /\ c + len <= u64_max + 1.
Proof.
  intros Hc Hlen. unfold allocate_leave_sequence_range.
  destruct (cursor_at c) as [x|] eqn:E; [|done]. apply cursor_at_Some in E as [-> Hu].
  rewrite checked_add_exact by mlia. simpl.
  destruct (Z.ltb_spec (c + len) 1); [lia|]. simpl.
  destruct (Z.ltb_spec u64_max (c + len - 1)); [done|]. intros [= <- <-].
  split_and!; [done| |lia]. unfold cursor_at. by replace (c + len - 1 + 1) with (c + len) by lia.
Qed.

Lemma zlen_seqZ c n : zlen (seqZ c n) = Z.max 0 n.
Proof. unfold zlen. rewrite length_seqZ. lia. Qed.

(** ** The order lane *)

(** The claims at two indices, and the others. *)
Definition at_index {A} (k i : nat) (l : list A) : list A :=
  if decide (k <= i)%nat then option_list (l !! (i - k)%nat) else [].
Lemma at_index_cons {A} k i (x : A) l :
  at_index k i (x :: l) = if decide (i = k) then [x] else at_index (S k) i l.
Proof.
  unfold at_index. destruct (decide (i = k)) as [->|Hne].
  - rewrite decide_True by lia. by rewrite Nat.sub_diag.
  - destruct (decide (k <= i)%nat).
    + rewrite decide_True by lia. by replace (i - k)%nat with (S (i - S k)) by lia.
    + by rewrite decide_False by lia.
Qed.
Definition second_index {A} (k e : nat) (o : option nat) (l : list A) : list A :=
  match o with Some i => if decide (i = e) then [] else at_index k i l | None => [] end.

Lemma other_claims_perm e o l : forall k, exists rest,
  other_claims k e o l = map LRU_Direct rest /\ l ≡ₚ at_index k e l ++ second_index k e o l ++ rest.
Proof.
  induction l as [|x l IH]; intros k.
  { exists []. split; [done|]. unfold second_index, at_index. destruct o as [i|]; simpl;
      repeat (case_decide; simpl); done. }
  destruct (IH (S k)) as (rest & Er & Hp). simpl. rewrite at_index_cons.
  assert (second_index k e o (x :: l)
          = if decide (o = Some k /\ k <> e) then [x] else second_index (S k) e o l) as ->.
  { unfold second_index. destruct o as [i|]; [|by rewrite decide_False by (by intros [? ?])].
    destruct (decide (i = e)) as [->|].
    - rewrite decide_False; [done|]. intros [[= ->] ?]. done.
    - rewrite at_index_cons. destruct (decide (i = k)) as [->|]; [by rewrite decide_True|].
      rewrite decide_False; [done|]. intros [[= ->] _]. done. }
  destruct (decide (e = k)) as [->|Hek].
  - rewrite (bool_decide_eq_true_2 (k = k)) by done. simpl. exists rest. split; [done|].
    rewrite decide_False by (by intros [_ ?]).
    assert (at_index (S k) k l = []) as E by (unfold at_index; by rewrite decide_False by lia).
    rewrite E in Hp. simpl in *. by rewrite Hp at 1.
  - rewrite bool_decide_eq_false_2 by congruence. simpl.
    destruct (decide (o = Some k)) as [->|Hok].
    + rewrite bool_decide_eq_true_2 by done. simpl. exists rest. split; [done|].
      rewrite decide_True by done.
      assert (second_index (S k) e (Some k) l = []) as E.
      { unfold second_index. rewrite decide_False by done. unfold at_index. by rewrite decide_False by lia. }
      rewrite E in Hp. simpl in *. rewrite Hp at 1. apply Permutation_middle.
    + rewrite bool_decide_eq_false_2 by congruence. simpl. rewrite decide_False by (by intros [? _]).
      exists (x :: rest). split; [by rewrite Er|]. rewrite Hp at 1.
      rewrite !(assoc_L (++)). apply Permutation_middle.
Qed.

Lemma position_spec {A} (p : A -> bool) l : forall i, position p l = Some i ->
  exists x, l !! i = Some x /\ p x = true.
Proof.
  induction l as [|y l IH]; intros i; simpl; [done|]. destruct (p y) eqn:E.
  - intros [= <-]. by exists y.
  - destruct (position p l) as [j|]; [|done]. intros [= <-]. apply (IH j eq_refl).
Qed.

Definition order_block_left (o : OrderClaimFrontier) (pid : ParticipantId) : list LeaveRelayUnit :=
  match ocf_recovery o with
  | Some b => if negb (rob_participant_index b =? pid) then [LRU_Recovery b] else []
  | None => []
  end.
(** The terminal that leaves with the identity. *)
Definition ended_claims (pid : ParticipantId) (ended : option BindingEpoch)
    (claims : list MovableOrderClaim) : Prop :=
  match ended with
  | None => claims = []
  | Some e => exists c, claims = [c]
      /\ moc_owner c = ODO_ActiveBindingTerminal (mkBindingTerminalOwner pid e)
  end.

Lemma at_index_0 {A} i (l : list A) : at_index 0 i l = option_list (l !! i).
Proof. unfold at_index. rewrite decide_True by lia. by rewrite Nat.sub_0_r. Qed.

Lemma select_spec o pid ended pending sel :
  Forall (fun x => 0 <= x <= u64_max) (movable_orders o) -> 0 <= next_major (ol_high (ocf_ledger o)) ->
  high_ok (ol_high (ocf_ledger o)) ->
  select_leave_order o pid ended pending = Ok sel ->
  exists exit ending rest,
    ocf_movable_claims o ≡ₚ exit :: ending ++ rest
    /\ moc_owner exit = ODO_MembershipExit pid /\ ended_claims pid ended ending
    /\ los_units sel ≡ₚ map LRU_Direct rest ++ order_block_left o pid
    /\ 0 <= los_selected_major sel <= u64_max.
Proof.
  intros Hu Hn Hh. unfold select_leave_order.
  destruct (position _ _) as [ei|] eqn:Ep; [|done]. apply position_spec in Ep as (x & Hx & Px).
  apply bool_decide_eq_true in Px. rewrite Hx. destruct (match pending with Some _ => _ | None => _ end); [done|].
  destruct (matching_active_claim o pid ended) as [ai|] eqn:Ea; simpl; [|done].
  destruct (other_claims_perm ei ai (ocf_movable_claims o) 0) as (rest & Er & Hp).
  rewrite at_index_0, Hx in Hp. simpl in Hp. rewrite Er.
  assert (ended_claims pid ended (second_index 0 ei ai (ocf_movable_claims o))) as He.
  { unfold matching_active_claim in Ea. destruct ended as [e|]; simpl; [|by simplify_eq].
    destruct (position _ _) as [i|] eqn:Ei; [|done]. simplify_eq/=.
    apply position_spec in Ei as (y & Hy & Py). apply bool_decide_eq_true in Py. exists y.
    split; [|done]. rewrite decide_False; [|intros ->; congruence]. by rewrite at_index_0, Hy. }
  assert (0 <= moc_transaction_order x <= u64_max) as Hxu.
  { apply (proj1 (Forall_forall _ _) Hu). unfold movable_orders. apply elem_of_app. left.
    apply list_elem_of_fmap_2. by eapply list_elem_of_lookup_2. }
  destruct (if _ <=? _ then _ else _) as [major|] eqn:Em; simpl; [|done]. intros [= <-]. simpl.
  assert (0 <= major <= u64_max) as Hmajor.
  { destruct (_ <=? _); [by simplify_eq|]. destruct (is_some pending); [done|].
    rewrite order_frontier_start_exact in Em by done.
    destruct (Z.ltb_spec u64_max (next_major (ol_high (ocf_ledger o)))); [done|]. simplify_eq. lia. }
  exists x, (second_index 0 ei ai (ocf_movable_claims o)), rest. split_and!; try done; try lia.
  apply sort_by_key_perm.
Qed.

(** *** Laying the units out again *)

Definition direct_claims (units : list LeaveRelayUnit) : list MovableOrderClaim :=
  omap (fun u => match u with LRU_Direct c => Some c | LRU_Recovery _ => None end) units.
Definition recovery_units (units : list LeaveRelayUnit) : list RecoveryOrderBlock :=
  omap (fun u => match u with LRU_Recovery b => Some b | LRU_Direct _ => None end) units.
Definition units_total (units : list LeaveRelayUnit) : Z := fold_right Z.add 0 (map lru_len units).
Definition order_lane (claims : list MovableOrderClaim) (r : option RecoveryOrderBlock) : list Z :=
  map moc_transaction_order claims ++ match r with Some b => block_orders b | None => [] end.
(** The same block at other positions. *)
Definition same_order_block (b b' : RecoveryOrderBlock) : Prop :=
  option_map roa_owner (rob_active_binding b') = option_map roa_owner (rob_active_binding b)
  /\ rob_participant_index b' = rob_participant_index b
  /\ rob_marker_delivery_seq b' = rob_marker_delivery_seq b
  /\ rob_recovered_binding_epoch b' = rob_recovered_binding_epoch b.

Lemma lru_len_pos u : 1 <= lru_len u.
Proof. destruct u as [c|b]; simpl; [lia|]. destruct (rob_active_binding b); lia. Qed.
Lemma units_total_nonneg us : 0 <= units_total us.
Proof. induction us as [|u us IH]; simpl; [done|]. unfold units_total in *; simpl. pose proof (lru_len_pos u). lia. Qed.

Lemma seqZ_one c : seqZ c 1 = [c].
Proof. by rewrite seqZ_cons by lia. Qed.
Lemma seqZ_two c : seqZ c 2 = [c; c + 1].
Proof. rewrite seqZ_cons by lia. by rewrite Z.add_1_r, seqZ_one. Qed.
Lemma seqZ_three c : seqZ c 3 = [c; c + 1; c + 2].
Proof. rewrite seqZ_cons, seqZ_two by lia. by replace (Z.succ c + 1) with (c + 2) by lia. Qed.

Lemma relay_block_spec b c b' next : 0 <= c ->
  relay_recovery_block b (cursor_at c) = Ok (b', next) ->
  same_order_block b b' /\ block_orders b' = seqZ c (lru_len (LRU_Recovery b))
  /\ next = cursor_at (c + lru_len (LRU_Recovery b)) /\ c + lru_len (LRU_Recovery b) <= u64_max + 1.
Proof.
  intros Hc. unfold relay_recovery_block, same_order_block, block_orders. simpl.
  destruct (rob_active_binding b) as [ab|].
  - destruct (cursor_at c) as [x|] eqn:E; simpl; [|done]. apply cursor_at_Some in E as [-> Hu].
    rewrite (cursor_next c Hu). destruct (cursor_at (c + 1)) as [y|] eqn:E1; simpl; [|done].
    apply cursor_at_Some in E1 as [-> Hu1]. rewrite (cursor_next _ Hu1).
    destruct (cursor_at (c + 1 + 1)) as [z|] eqn:E2; simpl; [|done].
    apply cursor_at_Some in E2 as [-> Hu2]. intros [= <- <-]. simpl. rewrite seqZ_three.
    rewrite (cursor_next _ Hu2). replace (c + 1 + 1 + 1) with (c + 3) by lia.
    replace (c + 1 + 1) with (c + 2) in * by lia. split_and!; try done; lia.
  - destruct (cursor_at c) as [x|] eqn:E; simpl; [|done]. apply cursor_at_Some in E as [-> Hu].
    rewrite (cursor_next c Hu). destruct (cursor_at (c + 1)) as [y|] eqn:E1; simpl; [|done].
    apply cursor_at_Some in E1 as [-> Hu1]. intros [= <- <-]. simpl. rewrite seqZ_two.
    rewrite (cursor_next _ Hu1). replace (c + 1 + 1) with (c + 2) by lia. split_and!; try done; lia.
Qed.

Lemma relay_units_spec units : forall c claims r claims' r', 0 <= c <= u64_max + 1 ->
  zlen (recovery_units units) + of_bool (is_some r) <= 1 ->
  relay_units (cursor_at c) claims r units = Ok (claims', r') ->
  map moc_owner claims' = map moc_owner claims ++ map moc_owner (direct_claims units)
  /\ order_lane claims' r' ≡ₚ order_lane claims r ++ seqZ c (units_total units)
  /\ c + units_total units <= u64_max + 1
  /\ match recovery_units units with
     | [] => r' = r
     | b :: _ => exists b', r' = Some b' /\ same_order_block b b'
     end.
Proof.
  induction units as [|[claim|b] units IH]; intros c claims r claims' r' Hc Hone; simpl.
  - intros [= <- <-]. change (units_total []) with 0. rewrite !app_nil_r.
    split_and!; [done|done|lia|done].
  - destruct (cursor_at c) as [x|] eqn:E; simpl; [|done]. apply cursor_at_Some in E as [-> Hu].
    rewrite (cursor_next c Hu). intros H. apply IH in H as (H1 & H2 & H3 & H4); [|lia|done].
    change (units_total (LRU_Direct claim :: units)) with (1 + units_total units).
    pose proof (units_total_nonneg units). split_and!; [| |lia|done].
    + rewrite H1, map_app, <- (assoc_L (++)). done.
    + rewrite H2. unfold order_lane. rewrite map_app. simpl. rewrite seqZ_split by lia.
      rewrite seqZ_one, <- !(assoc_L (++)). apply Permutation_app_head.
      rewrite !(assoc_L (++)). apply Permutation_app_tail, Permutation_app_comm.
  - change (recovery_units (LRU_Recovery b :: units)) with (b :: recovery_units units) in *.
    rewrite zlen_cons in Hone. pose proof (zlen_nonneg (recovery_units units)) as Hnn.
    assert (recovery_units units = []) as Hnil.
    { destruct (recovery_units units) as [|? l]; [done|]. rewrite zlen_cons in Hone.
      pose proof (zlen_nonneg l). pose proof (of_bool_range (is_some r)). lia. }
    assert (r = None) as -> by (destruct r; [simpl in Hone; lia|done]).
    destruct (relay_recovery_block b (cursor_at c)) as [[b1 next]|] eqn:Eb; simpl; [|done].
    apply relay_block_spec in Eb as (Hsame & Hpos & -> & Hend); [|lia].
    intros H. pose proof (lru_len_pos (LRU_Recovery b)) as Hpl.
    apply IH in H as (H1 & H2 & H3 & H4); [|lia|rewrite Hnil; simpl; unfold zlen; simpl; lia].
    change (units_total (LRU_Recovery b :: units)) with (lru_len (LRU_Recovery b) + units_total units).
    pose proof (units_total_nonneg units). rewrite Hnil in H4. split_and!; [done| |lia|by exists b1].
    rewrite H2. unfold order_lane. rewrite Hpos, seqZ_split by lia. by rewrite app_nil_r, <- !(assoc_L (++)).
Qed.

(** *** The resulting lane *)

Lemma omap_through {A B C} (g : A -> B) (h : B -> option C) l :
  omap (fun x => h (g x)) l = omap h (map g l).
Proof. induction l as [|x l IH]; simpl; [done|]. destruct (h (g x)); [f_equal|]; exact IH. Qed.
Definition order_exit_of (w : OrderDirectOwner) : option ParticipantId :=
  match w with ODO_MembershipExit p => Some p | ODO_ActiveBindingTerminal _ => None end.
Definition order_terminal_of (w : OrderDirectOwner) : option BindingTerminalOwner :=
  match w with ODO_ActiveBindingTerminal t => Some t | ODO_MembershipExit _ => None end.
Definition claim_exits (claims : list MovableOrderClaim) : list ParticipantId :=
  omap order_exit_of (map moc_owner claims).

Lemma claim_exits_eq o : order_exit_owners o = claim_exits (ocf_movable_claims o).
Proof. apply (omap_through moc_owner order_exit_of). Qed.
Lemma order_terminals_eq claims :
  order_terminal_owners claims = omap order_terminal_of (map moc_owner claims).
Proof. apply (omap_through moc_owner order_terminal_of). Qed.
#[export] Instance claim_exits_perm : Proper ((≡ₚ) ==> (≡ₚ)) claim_exits.
Proof. intros l k H. unfold claim_exits. by rewrite H. Qed.
#[export] Instance order_terminals_perm : Proper ((≡ₚ) ==> (≡ₚ)) order_terminal_owners.
Proof. intros l k H. rewrite !order_terminals_eq. by rewrite H. Qed.

Lemma order_terminals_cons c claims : order_terminal_owners (c :: claims)
  = option_list (order_terminal_of (moc_owner c)) ++ order_terminal_owners claims.
Proof. unfold order_terminal_owners; simpl. by destruct (moc_owner c). Qed.
Lemma claim_exits_cons c claims : claim_exits (c :: claims)
  = option_list (order_exit_of (moc_owner c)) ++ claim_exits claims.
Proof. unfold claim_exits; simpl. by destruct (moc_owner c). Qed.
Lemma filter_terminals claims : zlen (List.filter is_order_terminal claims)
  = zlen (order_terminal_owners claims).
Proof.
  induction claims as [|c claims IH]; [done|]. rewrite order_terminals_cons, zlen_app, <- IH. simpl.
  unfold is_order_terminal at 1. destruct (moc_owner c); rewrite ?zlen_cons; unfold zlen; simpl; lia.
Qed.
Lemma filter_exits claims : zlen (List.filter (fun c => negb (is_order_terminal c)) claims)
  = zlen (claim_exits claims).
Proof.
  induction claims as [|c claims IH]; [done|]. rewrite claim_exits_cons, zlen_app, <- IH. simpl.
  unfold is_order_terminal at 1. destruct (moc_owner c); simpl; rewrite ?zlen_cons; unfold zlen; simpl; lia.
Qed.
Lemma claims_split claims :
  zlen claims = zlen (order_terminal_owners claims) + zlen (claim_exits claims).
Proof.
  induction claims as [|c claims IH]; [done|].
  rewrite zlen_cons, IH, order_terminals_cons, claim_exits_cons, !zlen_app.
  destruct (moc_owner c); unfold zlen; simpl; lia.
Qed.
Lemma order_lane_length claims r : zlen (order_lane claims r)
  = zlen (order_terminal_owners claims ++ order_recovery_owner r) + zlen (claim_exits claims)
    + 2 * of_bool (is_some r).
Proof.
  unfold order_lane. rewrite !zlen_app, zlen_map, claims_split.
  destruct r as [[[?|] ? ? ? ? ?]|]; unfold zlen; simpl; lia.
Qed.
Lemma recovery_units_left rest o pid :
  recovery_units (map LRU_Direct rest ++ order_block_left o pid)
  = match ocf_recovery o with
    | Some b => if negb (rob_participant_index b =? pid) then [b] else []
    | None => []
    end.
Proof.
  unfold recovery_units. rewrite omap_app.
  replace (omap _ (map LRU_Direct rest)) with (@nil RecoveryOrderBlock) by (by induction rest).
  unfold order_block_left. destruct (ocf_recovery o) as [b|]; [|done]. by destruct (negb _).
Qed.
Lemma direct_claims_left rest o pid :
  direct_claims (map LRU_Direct rest ++ order_block_left o pid) = rest.
Proof.
  unfold direct_claims. rewrite omap_app.
  replace (omap _ (order_block_left o pid)) with (@nil MovableOrderClaim).
  2:{ unfold order_block_left. destruct (ocf_recovery o) as [b|]; [|done]. by destruct (negb _). }
  rewrite app_nil_r. induction rest as [|c rest IH]; simpl; [done|]. by f_equal.
Qed.

Lemma leave_ledger_ok major claims r l : u64 major ->
  zlen (order_lane claims r) <= u64_max - major ->
  leave_resulting_order_ledger major claims r = Ok l ->
  ledger_ok l /\ ol_high l = OH_Allocated major
  /\ ol_claims l = mkOrderClaims (zlen (order_terminal_owners claims ++ order_recovery_owner r))
       (zlen (claim_exits claims)) (is_some r) (is_some r).
Proof.
  intros Hm Hlen. rewrite order_lane_length in Hlen. unfold leave_resulting_order_ledger.
  rewrite filter_terminals, filter_exits.
  pose proof (zlen_nonneg (claim_exits claims)). pose proof (of_bool_range (is_some r)).
  pose proof (zlen_nonneg (order_terminal_owners claims)).
  assert (zlen (order_recovery_owner r)
    = of_bool (match r with Some b => is_some (rob_active_binding b) | None => false end)) as <-
    by (by destruct r as [[[?|] ? ? ? ? ?]|]).
  pose proof (zlen_nonneg (order_recovery_owner r)). rewrite zlen_app in *.
  rewrite add_u64_exact by mlia. unfold OrderClaims_new. rewrite eqb_reflx. simpl.
  destruct (OrderLedger_try_new _ _) as [l'|] eqn:E; simpl; [|done]. intros [= ->].
  assert (l = mkOrderLedger (OH_Allocated major)
    (mkOrderClaims (zlen (order_terminal_owners claims) + zlen (order_recovery_owner r))
       (zlen (claim_exits claims)) (is_some r) (is_some r))) as ->
    by (unfold OrderLedger_try_new in E; by destruct (_ <? _); simplify_eq).
  apply OrderLedger_try_new_spec in E; [by split_and!|done|]. unfold claims_ok; simpl. split_and!; try done; mlia.
Qed.

Lemma consume_lane_ok a a' o pid ended pending o' major : order_ok a o ->
  indices a ≡ₚ pid :: indices a' ->
  consume_leave_order_lane o pid ended pending = Ok (o', major) ->
  order_ok a' o'.
Proof.
  intros (Hl & (C1 & C2 & C3) & He & (P1 & P2 & P3)) Hi. unfold consume_leave_order_lane.
  pose proof Hl as (Hh & _ & _). pose proof (zlen_nonneg (majors_above o)) as Hk.
  assert (0 <= next_major (ol_high (ocf_ledger o))) as Hn by (destruct (ol_high (ocf_ledger o)); simpl in *; mlia).
  destruct (select_leave_order o pid ended pending) as [sel|] eqn:Es; simpl; [|done].
  apply select_spec in Es as (exit & ending & rest & Hclaims & Hx & Hend & Hunits & Hmajor); try done.
  2:{ apply Forall_forall. intros x Hin. rewrite P2 in Hin. apply elem_of_seqZ in Hin. lia. }
  unfold relay_leave_order_units. rewrite cursor_next by lia.
  destruct (relay_units _ _ _ _) as [[claims r]|] eqn:Er; simpl; [|done].
  assert (recovery_units (los_units sel) ≡ₚ recovery_units (map LRU_Direct rest ++ order_block_left o pid))
    as Hru by (unfold recovery_units; by rewrite Hunits).
  assert (direct_claims (los_units sel) ≡ₚ rest) as Hdc.
  { rewrite <- (direct_claims_left rest o pid). unfold direct_claims. by rewrite Hunits. }
  rewrite recovery_units_left in Hru.
  apply relay_units_spec in Er as (H1 & H2 & H3 & H4); [|lia|].
  2:{ rewrite (zlen_perm _ _ Hru). simpl.
      destruct (ocf_recovery o) as [b|]; [destruct (negb _)|]; unfold zlen; simpl; lia. }
  simpl in H1, H2. set (sorted := sort_by_key moc_transaction_order claims).
  assert (sorted ≡ₚ claims) as Hsorted by apply sort_by_key_perm.
  assert (order_lane sorted r ≡ₚ seqZ (los_selected_major sel + 1) (units_total (los_units sel))) as Hlane.
  { etrans; [|exact H2]. unfold order_lane. by rewrite Hsorted. }
  pose proof (zlen_perm _ _ Hlane) as Hlen. pose proof (units_total_nonneg (los_units sel)) as Hut.
  rewrite zlen_seqZ in Hlen.
  destruct (leave_resulting_order_ledger _ sorted r) as [l|] eqn:El; simpl; [|done].
  apply leave_ledger_ok in El as (Hl' & Hlh & Hlc); [|mlia|lia]. intros [= <- <-].
  assert (claim_exits sorted ≡ₚ indices a') as Hex.
  { etrans; [by apply claim_exits_perm|]. unfold claim_exits. rewrite H1. fold (claim_exits (direct_claims (los_units sel))).
    etrans; [apply claim_exits_perm; exact Hdc|]. apply (Permutation_cons_inv (a := pid)).
    rewrite <- Hi, <- He, claim_exits_eq, Hclaims, claim_exits_cons, Hx. simpl. constructor.
    unfold claim_exits. rewrite map_app, omap_app.
    replace (omap order_exit_of (map moc_owner ending)) with (@nil ParticipantId); [done|].
    destruct ended as [e|]; simpl in Hend; [|by subst]. destruct Hend as (c & -> & Hc). simpl. by rewrite Hc. }
  assert (claims_total (ol_claims l) = units_total (los_units sel)) as Htot.
  { rewrite order_lane_length in Hlen. rewrite Hlc. unfold claims_total; simpl. lia. }
  unfold order_ok. split; [done|]. split_and!.
  - unfold order_counts; simpl. rewrite Hlc. simpl. split_and!; [done| |done].
    rewrite (zlen_perm _ _ Hex). unfold indices. by rewrite zlen_map.
  - rewrite claim_exits_eq. exact Hex.
  - unfold order_positions; simpl. change (majors_above _) with (@nil ImmutableOrderCandidateMajor).
    change (zlen (@nil ImmutableOrderCandidateMajor)) with 0. rewrite Hlh, Htot. simpl.
    rewrite Z.add_0_r. split_and!; [done|exact Hlane|lia].
Qed.

(** ** The sequence lane *)

Definition lsu_len (u : LeaveSequenceUnit) : Z :=
  match u with
  | LSU_Direct _ => 1
  | LSU_TerminalProduct r => tpr_length r
  | LSU_ReplacementProduct r => rpr_length r
  | LSU_ExitProduct r => epr_length r
  | LSU_Recovery b => 2 + of_bool (is_some (rsb_terminal b))
  end.
Definition as_direct (u : LeaveSequenceUnit) : option MovableSequenceClaim :=
  match u with LSU_Direct c => Some c | _ => None end.
Definition as_terminal (u : LeaveSequenceUnit) : option TerminalProductRange :=
  match u with LSU_TerminalProduct r => Some r | _ => None end.
Definition as_replacement (u : LeaveSequenceUnit) : option ReplacementTerminalProductRange :=
  match u with LSU_ReplacementProduct r => Some r | _ => None end.
Definition as_exit (u : LeaveSequenceUnit) : option ExitProductRange :=
  match u with LSU_ExitProduct r => Some r | _ => None end.
Definition as_block (u : LeaveSequenceUnit) : option RecoverySequenceBlock :=
  match u with LSU_Recovery b => Some b | _ => None end.
Definition sequence_total (units : list LeaveSequenceUnit) : Z := fold_right Z.add 0 (map lsu_len units).

Definition layout_positions (l : LeaveLayout) : list Z :=
  map msc_delivery_seq (ll_movable_claims l)
  ++ concat (map (fun r => seqZ (tpr_start r) (tpr_length r)) (ll_terminal_products l))
  ++ match ll_replacement_product l with Some r => seqZ (rpr_start r) (rpr_length r) | None => [] end
  ++ concat (map (fun r => seqZ (epr_start r) (epr_length r)) (ll_exit_products l))
  ++ match ll_recovery l with Some b => block_sequences b | None => [] end.

(** The same block or range at another position. *)
Definition same_sequence_block (b b' : RecoverySequenceBlock) : Prop :=
  option_map rst_owner (rsb_terminal b') = option_map rst_owner (rsb_terminal b)
  /\ rsb_participant_index b' = rsb_participant_index b
  /\ rsb_marker_delivery_seq b' = rsb_marker_delivery_seq b
  /\ rsb_recovered_binding_epoch b' = rsb_recovered_binding_epoch b.
Definition terminal_key (r : TerminalProductRange) : Z * BindingTerminalOwner :=
  (tpr_length r, tpr_terminal r).
Definition exit_key (r : ExitProductRange) : Z * ParticipantId := (epr_length r, epr_exit_participant r).

(** One unit put at [start]. *)
Definition place (u : LeaveSequenceUnit) (start : DeliverySeq) (l : LeaveLayout)
    : result LeaveLayout LeaveCommitError :=
  match u with
  | LSU_Direct c =>
      Ok (mkLeaveLayout (ll_movable_claims l ++ [mkMovableSequenceClaim start (msc_owner c)])
            (ll_terminal_products l) (ll_replacement_product l) (ll_exit_products l) (ll_recovery l))
  | LSU_TerminalProduct r =>
      Ok (mkLeaveLayout (ll_movable_claims l)
            (ll_terminal_products l ++ [mkTerminalProductRange start (tpr_length r) (tpr_terminal r)])
            (ll_replacement_product l) (ll_exit_products l) (ll_recovery l))
  | LSU_ReplacementProduct r =>
      Ok (mkLeaveLayout (ll_movable_claims l) (ll_terminal_products l)
            (Some (mkReplacementTerminalProductRange start (rpr_length r) (rpr_participant_index r)
                     (rpr_marker_delivery_seq r) (rpr_prior_binding_epoch r)))
            (ll_exit_products l) (ll_recovery l))
  | LSU_ExitProduct r =>
      Ok (mkLeaveLayout (ll_movable_claims l) (ll_terminal_products l) (ll_replacement_product l)
            (ll_exit_products l ++ [mkExitProductRange start (epr_length r) (epr_exit_participant r)])
            (ll_recovery l))
  | LSU_Recovery b =>
      let? b := lay_recovery_block b start in
      Ok (mkLeaveLayout (ll_movable_claims l) (ll_terminal_products l) (ll_replacement_product l)
            (ll_exit_products l) (Some b))
  end.
Lemma lay_units_cons cursor l u units :
  lay_leave_units cursor l (u :: units) =
    (let? taken := allocate_leave_sequence_range cursor (lsu_len u) in
     let? l := place u taken.1 l in
     lay_leave_units taken.2 l units).
Proof.
  destruct u; simpl; destruct (allocate_leave_sequence_range _ _) as [[start next]|]; simpl; try done.
  by destruct (lay_recovery_block _ _).
Qed.

Lemma lay_block_spec b start b' : 0 <= start -> lay_recovery_block b start = Ok b' ->
  same_sequence_block b b' /\ block_sequences b' = seqZ start (lsu_len (LSU_Recovery b)).
Proof.
  intros Hs. unfold lay_recovery_block, same_sequence_block, block_sequences. simpl.
  destruct (rsb_terminal b) as [t|]; simpl.
  - destruct (checked_add u64_max start 1) as [x|] eqn:E; simpl; [|done].
    apply checked_add_Some in E as [-> _]. destruct (checked_add _ _ 1) as [y|] eqn:E1; simpl; [|done].
    apply checked_add_Some in E1 as [-> _]. intros [= <-]. simpl. rewrite seqZ_three.
    by replace (start + 1 + 1) with (start + 2) by lia.
  - destruct (checked_add u64_max start 1) as [x|] eqn:E; simpl; [|done].
    apply checked_add_Some in E as [-> _]. intros [= <-]. simpl. by rewrite seqZ_two.
Qed.

(** The units of one kind join the list of that kind; a block or a replacement range has
    to find its place free. *)
Definition placed (u : LeaveSequenceUnit) (start : Z) (l l' : LeaveLayout) : Prop :=
  map msc_owner (ll_movable_claims l')
  = map msc_owner (ll_movable_claims l) ++ map msc_owner (option_list (as_direct u))
  /\ map terminal_key (ll_terminal_products l')
     = map terminal_key (ll_terminal_products l) ++ map terminal_key (option_list (as_terminal u))
  /\ map exit_key (ll_exit_products l')
     = map exit_key (ll_exit_products l) ++ map exit_key (option_list (as_exit u))
  /\ match as_replacement u with
     | Some r => exists r', ll_replacement_product l' = Some r' /\ rpr_length r' = rpr_length r
                            /\ 0 <= rpr_start r'
     | None => ll_replacement_product l' = ll_replacement_product l
     end
  /\ match as_block u with
     | Some b => exists b', ll_recovery l' = Some b' /\ same_sequence_block b b'
     | None => ll_recovery l' = ll_recovery l
     end
  /\ layout_positions l' ≡ₚ layout_positions l ++ seqZ start (lsu_len u).

(** Appending to one of the five parts of the positions. *)
Section Parts.
Context (a b c d e n : list Z).
Lemma append_first : (a ++ n) ++ b ++ c ++ d ++ e ≡ₚ (a ++ b ++ c ++ d ++ e) ++ n.
Proof using. apply perm_occ. intros. rewrite !occ_app. lia. Qed.
Lemma append_second : a ++ (b ++ n) ++ c ++ d ++ e ≡ₚ (a ++ b ++ c ++ d ++ e) ++ n.
Proof using. apply perm_occ. intros. rewrite !occ_app. lia. Qed.
Lemma append_third : a ++ b ++ n ++ d ++ e ≡ₚ (a ++ b ++ [] ++ d ++ e) ++ n.
Proof using. apply perm_occ. intros. rewrite !occ_app. unfold occ at 8. simpl. lia. Qed.
Lemma append_fourth : a ++ b ++ c ++ (d ++ n) ++ e ≡ₚ (a ++ b ++ c ++ d ++ e) ++ n.
Proof using. apply perm_occ. intros. rewrite !occ_app. lia. Qed.
Lemma append_fifth : a ++ b ++ c ++ d ++ n ≡ₚ (a ++ b ++ c ++ d ++ []) ++ n.
Proof using. by rewrite app_nil_r, <- !(assoc_L (++)). Qed.
End Parts.

Lemma place_spec u start l l' : 0 <= start ->
  (is_some (as_replacement u) = true -> ll_replacement_product l = None) ->
  (is_some (as_block u) = true -> ll_recovery l = None) ->
  place u start l = Ok l' -> placed u start l l'.
Proof.
  intros Hs Hr Hb. unfold placed, layout_positions.
  destruct u as [c|r|r|r|b]; simpl; try (intros [= <-]; simpl); rewrite ?map_app, ?concat_app, ?app_nil_r.
  - split_and!; try done. rewrite seqZ_one. apply append_first.
  - split_and!; try done. simpl. rewrite app_nil_r. apply append_second.
  - rewrite (Hr eq_refl). split_and!; try done; [by eexists|]. apply append_third.
  - split_and!; try done. simpl. rewrite app_nil_r. apply append_fourth.
  - destruct (lay_recovery_block b start) as [b'|] eqn:E; [|done]. intros [= <-]. simpl.
    apply lay_block_spec in E as [Hsame Hpos]; [|done]. rewrite (Hb eq_refl), Hpos.
    split_and!; try done; [by exists b'|]. apply append_fifth.
Qed.

Definition laid_out (units : list LeaveSequenceUnit) (c : Z) (l l' : LeaveLayout) : Prop :=
  map msc_owner (ll_movable_claims l')
  = map msc_owner (ll_movable_claims l) ++ map msc_owner (omap as_direct units)
  /\ map terminal_key (ll_terminal_products l')
     = map terminal_key (ll_terminal_products l) ++ map terminal_key (omap as_terminal units)
  /\ map exit_key (ll_exit_products l')
     = map exit_key (ll_exit_products l) ++ map exit_key (omap as_exit units)
  /\ match omap as_replacement units with
     | r :: _ => exists r', ll_replacement_product l' = Some r' /\ rpr_length r' = rpr_length r
                            /\ 0 <= rpr_start r'
     | [] => ll_replacement_product l' = ll_replacement_product l
     end
  /\ match omap as_block units with
     | b :: _ => exists b', ll_recovery l' = Some b' /\ same_sequence_block b b'
     | [] => ll_recovery l' = ll_recovery l
     end
  /\ layout_positions l' ≡ₚ layout_positions l ++ seqZ c (sequence_total units)
  /\ c + sequence_total units <= u64_max + 1.

Lemma omap_cons_list {A B} (f : A -> option B) x l : omap f (x :: l) = option_list (f x) ++ omap f l.
Proof. simpl. by destruct (f x). Qed.
(** At most one of a kind: a free place, or none to come. *)
Definition one_place {A B} (f : A -> option B) (units : list A) (taken : bool) : Prop :=
  zlen (omap f units) + of_bool taken <= 1.
Lemma one_place_cons {A B} (f : A -> option B) u units taken : one_place f (u :: units) taken ->
  (is_some (f u) = true -> taken = false /\ omap f units = [])
  /\ one_place f units (taken || is_some (f u)).
Proof.
  unfold one_place. rewrite omap_cons_list, zlen_app. intros H.
  pose proof (zlen_nonneg (omap f units)). destruct (f u) as [b|]; simpl in *.
  - change (zlen [b]) with 1 in H. destruct taken; simpl in *; [lia|].
    split; [|lia]. intros _. split; [done|]. apply nil_length_inv. unfold zlen in *. lia.
  - change (zlen []) with 0 in H. rewrite orb_false_r. split; [done|lia].
Qed.

Lemma sequence_total_nonneg units : Forall (fun u => 1 <= lsu_len u <= u64_max + 1) units ->
  0 <= sequence_total units.
Proof. induction 1 as [|u us Hu _ IH]; [done|]. unfold sequence_total in *; simpl. lia. Qed.

Lemma laid_out_step u units c l l1 l' : 0 <= c -> 1 <= lsu_len u -> 0 <= sequence_total units ->
  (is_some (as_replacement u) = true -> omap as_replacement units = []) ->
  (is_some (as_block u) = true -> omap as_block units = []) ->
  placed u c l l1 -> laid_out units (c + lsu_len u) l1 l' -> laid_out (u :: units) c l l'.
Proof.
  intros Hc Hlen Ht Hr Hb (A1 & A2 & A3 & A4 & A5 & A6) (B1 & B2 & B3 & B4 & B5 & B6 & B7).
  unfold laid_out. rewrite !omap_cons_list, !map_app.
  change (sequence_total (u :: units)) with (lsu_len u + sequence_total units). split_and!.
  - rewrite B1, A1. by rewrite <- (assoc_L (++)).
  - rewrite B2, A2. by rewrite <- (assoc_L (++)).
  - rewrite B3, A3. by rewrite <- (assoc_L (++)).
  - destruct (as_replacement u) as [r|]; simpl; [|by rewrite A4 in B4].
    rewrite Hr in B4 by done. by rewrite B4.
  - destruct (as_block u) as [b|]; simpl; [|by rewrite A5 in B5].
    rewrite Hb in B5 by done. by rewrite B5.
  - rewrite B6, A6, seqZ_split by lia. by rewrite <- (assoc_L (++)).
  - lia.
Qed.

Lemma lay_units_spec units : forall c l l', 0 <= c <= u64_max + 1 ->
  Forall (fun u => 1 <= lsu_len u <= u64_max + 1) units ->
  one_place as_replacement units (is_some (ll_replacement_product l)) ->
  one_place as_block units (is_some (ll_recovery l)) ->
  lay_leave_units (cursor_at c) l units = Ok l' -> laid_out units c l l'.
Proof.
  induction units as [|u units IH]; intros c l l' Hc Hlen Hr Hb.
  { simpl. intros [= <-]. unfold laid_out; simpl. change (sequence_total []) with 0.
    rewrite !app_nil_r. split_and!; try done. lia. }
  rewrite lay_units_cons. apply Forall_cons in Hlen as [Hu Hlen].
  destruct (allocate_leave_sequence_range _ _) as [[start next]|] eqn:Ea; cbn [fst snd]; [|done].
  apply allocate_exact in Ea as (-> & -> & Hend); [|lia|done].
  destruct (place u c l) as [l1|] eqn:Ep; [|done]. intros H.
  apply one_place_cons in Hr as [Hr1 Hr2], Hb as [Hb1 Hb2].
  apply place_spec in Ep; [|lia|intros E; by destruct (ll_replacement_product l), (Hr1 E)|
                           intros E; by destruct (ll_recovery l), (Hb1 E)].
  eapply laid_out_step; [| |by apply sequence_total_nonneg|intros E; apply (Hr1 E)|
    intros E; apply (Hb1 E)|exact Ep|];
    [lia|lia|].
  destruct Ep as (_ & _ & _ & A4 & A5 & _). apply IH; try done; [lia| |].
  - destruct (as_replacement u); simpl in Hr2.
    + destruct A4 as (r' & -> & _). by rewrite orb_true_r in Hr2.
    + rewrite A4. by rewrite orb_false_r in Hr2.
  - destruct (as_block u); simpl in Hb2.
    + destruct A5 as (b' & -> & _). by rewrite orb_true_r in Hb2.
    + rewrite A5. by rewrite orb_false_r in Hb2.
Qed.

(** *** What survives *)

Definition kept_claim (pid : ParticipantId) (ended : option BindingEpoch) (c : MovableSequenceClaim)
    : bool :=
  match msc_owner c with
  | SDO_MembershipExit p => negb (p =? pid)
  | SDO_BindingTerminal w =>
      negb ((bto_participant_index w =? pid) && bool_decide (Some (bto_binding_epoch w) = ended))
  end.
Lemma surviving_claims_spec pid ended claims : forall x t units,
  surviving_claims pid ended x t claims = Some units ->
  units = map LSU_Direct (List.filter (kept_claim pid ended) claims).
Proof.
  induction claims as [|c claims IH]; intros x t units; simpl.
  { destruct (_ || _); [done|]. by intros [= <-]. }
  unfold kept_claim at 1. destruct (msc_owner c) as [p|w].
  - destruct (p =? pid); simpl; [destruct x; [done|]; apply IH|].
    destruct (surviving_claims _ _ _ _ _) as [rest|] eqn:E; simpl; [|done]. intros [= <-].
    by rewrite (IH _ _ _ E).
  - destruct ((_ =? pid) && _); simpl; [destruct t; [done|]; apply IH|].
    destruct (surviving_claims _ _ _ _ _) as [rest|] eqn:E; simpl; [|done]. intros [= <-].
    by rewrite (IH _ _ _ E).
Qed.

Definition seq_exit_of (w : SequenceDirectOwner) : option ParticipantId :=
  match w with SDO_MembershipExit p => Some p | SDO_BindingTerminal _ => None end.
Definition seq_terminal_of (w : SequenceDirectOwner) : option BindingTerminalOwner :=
  match w with SDO_BindingTerminal t => Some t | SDO_MembershipExit _ => None end.
Definition owner_exits (ws : list SequenceDirectOwner) : list ParticipantId := omap seq_exit_of ws.
Definition owner_terminals (ws : list SequenceDirectOwner) : list BindingTerminalOwner :=
  omap seq_terminal_of ws.
Lemma exit_owners_eq s : exit_owners s = owner_exits (map msc_owner (scf_movable_claims s)).
Proof. apply (omap_through msc_owner seq_exit_of). Qed.
Lemma terminal_owners_eq claims :
  sequence_terminal_owners claims = owner_terminals (map msc_owner claims).
Proof. apply (omap_through msc_owner seq_terminal_of). Qed.
Lemma owners_split ws : zlen ws = zlen (owner_terminals ws) + zlen (owner_exits ws).
Proof.
  induction ws as [|w ws IH]; [done|]. unfold owner_terminals, owner_exits in *.
  rewrite zlen_cons, IH, !omap_cons_list, !zlen_app. destruct w; unfold zlen; simpl; lia.
Qed.
Lemma filter_sequence_terminals claims : zlen (List.filter is_sequence_terminal claims)
  = zlen (owner_terminals (map msc_owner claims)).
Proof.
  induction claims as [|c claims IH]; [done|]. unfold owner_terminals in *.
  rewrite map_cons, omap_cons_list, zlen_app, <- IH. simpl. unfold is_sequence_terminal at 1.
  destruct (msc_owner c); rewrite ?zlen_cons; unfold zlen; simpl; lia.
Qed.

(** The terminals that are not those of [pid]. *)
Definition not_of (pid : ParticipantId) (w : BindingTerminalOwner) : bool :=
  negb (bto_participant_index w =? pid).
Lemma kept_exits pid ended claims :
  owner_exits (map msc_owner (List.filter (kept_claim pid ended) claims))
  = List.filter (fun p => negb (p =? pid)) (owner_exits (map msc_owner claims)).
Proof.
  induction claims as [|c claims IH]; [done|]. unfold owner_exits in *. simpl.
  unfold kept_claim at 1. destruct (msc_owner c) as [p|w] eqn:E.
  - destruct (p =? pid) eqn:Ep; simpl; rewrite ?E; simpl; rewrite Ep; simpl; [exact IH|].
    f_equal. exact IH.
  - destruct (negb _); simpl; rewrite ?E; exact IH.
Qed.
Lemma kept_terminals pid ended claims :
  (forall w, w ∈ owner_terminals (map msc_owner claims) -> bto_participant_index w = pid ->
             ended = Some (bto_binding_epoch w)) ->
  owner_terminals (map msc_owner (List.filter (kept_claim pid ended) claims))
  = List.filter (not_of pid) (owner_terminals (map msc_owner claims)).
Proof.
  intros H. induction claims as [|c claims IH]; [done|].
  assert (owner_terminals (map msc_owner (c :: claims))
    = option_list (seq_terminal_of (msc_owner c)) ++ owner_terminals (map msc_owner claims)) as E
    by (unfold owner_terminals; by rewrite map_cons, omap_cons_list).
  rewrite E in *. rewrite List.filter_app, <- IH by (intros w Hw; apply H, elem_of_app; by right).
  simpl. unfold kept_claim at 1. destruct (msc_owner c) as [p|w] eqn:Ec; simpl.
  - destruct (negb _); simpl; [|done]. unfold owner_terminals; simpl. by rewrite Ec.
  - unfold not_of at 1. destruct (Z.eqb_spec (bto_participant_index w) pid) as [Ew|]; simpl.
    + rewrite bool_decide_eq_true_2; [done|]. symmetry. apply H; [|done]. left.
    + unfold owner_terminals; simpl. by rewrite Ec.
Qed.

(** The surviving products, kind by kind. *)
Section Products.
Context (pid : ParticipantId) (live : Z) (s : SequenceClaimFrontier).
Let other := saturating_sub live 1.
Definition left_terminal_ranges : list TerminalProductRange :=
  if live =? 0 then []
  else map (fun r => mkTerminalProductRange (tpr_start r) live (tpr_terminal r))
         (List.filter (fun r => not_of pid (tpr_terminal r)) (spr_live_times_terminal (scf_products s))).
Definition left_exit_ranges : list ExitProductRange :=
  if other =? 0 then []
  else map (fun r => mkExitProductRange (epr_start r) other (epr_exit_participant r))
         (List.filter (fun r => negb (epr_exit_participant r =? pid))
            (spr_other_live_times_exit (scf_products s))).
Definition left_block : list RecoverySequenceBlock :=
  match scf_recovery s with
  | Some b => if rsb_participant_index b =? pid then [] else [b]
  | None => []
  end.
Definition left_replacement : list ReplacementTerminalProductRange :=
  match spr_live_times_replacement_terminal (scf_products s) with
  | Some r =>
      if negb (match scf_recovery s with
               | Some b => rsb_participant_index b =? pid | None => false
               end) && negb (live =? 0)
      then [mkReplacementTerminalProductRange (rpr_start r) live (rpr_participant_index r)
              (rpr_marker_delivery_seq r) (rpr_prior_binding_epoch r)]
      else []
  | None => []
  end.

Lemma omap_if {A B C} (p : A -> bool) (g : A -> B) (h : B -> C) l :
  omap (fun x => if p x then Some (h (g x)) else None) l = map h (map g (List.filter p l)).
Proof. induction l as [|x l IH]; simpl; [done|]. destruct (p x); simpl; [f_equal|]; exact IH. Qed.
Lemma omap_same {A B} (f g : A -> option B) (l : list A) : (forall x, f x = g x) -> omap f l = omap g l.
Proof. intros H. induction l as [|x l IH]; simpl; [done|]. rewrite H. destruct (g x); [f_equal|]; exact IH. Qed.
Lemma omap_false {A B} (l : list A) : omap (fun _ => @None B) l = [].
Proof. by induction l. Qed.

Lemma surviving_products_eq : surviving_products pid live s =
  map LSU_TerminalProduct left_terminal_ranges ++ map LSU_ReplacementProduct left_replacement
  ++ map LSU_ExitProduct left_exit_ranges ++ map LSU_Recovery left_block.
Proof using.
  unfold surviving_products, left_terminal_ranges, left_replacement, left_exit_ranges, left_block.
  f_equal; [|f_equal; [|f_equal]].
  - destruct (live =? 0); simpl.
    + etrans; [|apply (omap_false (spr_live_times_terminal (scf_products s)))].
      apply omap_same. intros. by rewrite andb_false_r.
    + rewrite <- (omap_if (fun r => not_of pid (tpr_terminal r))). apply omap_same.
      intros. by rewrite andb_true_r.
  - destruct (spr_live_times_replacement_terminal _); [|done]. by destruct (negb _ && _).
  - fold other. destruct (other =? 0); [done|].
    by rewrite <- (omap_if (fun r => negb (epr_exit_participant r =? pid))).
  - destruct (scf_recovery s); [|done]. by destruct (_ =? pid).
Qed.

Context (claims : list MovableSequenceClaim).
Definition left_units : list LeaveSequenceUnit :=
  map LSU_Direct claims ++ surviving_products pid live s.
Lemma omap_map_some {A} (mk : A -> LeaveSequenceUnit) (f : LeaveSequenceUnit -> option A) l :
  (forall x, f (mk x) = Some x) -> omap f (map mk l) = l.
Proof. intros H. induction l as [|x l IH]; simpl; [done|]. rewrite H. f_equal. exact IH. Qed.
Lemma omap_map_none {A B} (mk : A -> LeaveSequenceUnit) (f : LeaveSequenceUnit -> option B) l :
  (forall x, f (mk x) = None) -> omap f (map mk l) = [].
Proof. intros H. induction l as [|x l IH]; simpl; [done|]. rewrite H. exact IH. Qed.
Lemma left_units_kinds :
  omap as_direct left_units = claims /\ omap as_terminal left_units = left_terminal_ranges
  /\ omap as_replacement left_units = left_replacement /\ omap as_exit left_units = left_exit_ranges
  /\ omap as_block left_units = left_block.
Proof using.
  unfold left_units. rewrite surviving_products_eq, !omap_app.
  rewrite !(omap_map_some LSU_Direct), !(omap_map_none LSU_Direct) by done.
  rewrite !(omap_map_some LSU_TerminalProduct), !(omap_map_none LSU_TerminalProduct) by done.
  rewrite !(omap_map_some LSU_ReplacementProduct), !(omap_map_none LSU_ReplacementProduct) by done.
  rewrite !(omap_map_some LSU_ExitProduct), !(omap_map_none LSU_ExitProduct) by done.
  rewrite !(omap_map_some LSU_Recovery), !(omap_map_none LSU_Recovery) by done.
  simpl. by rewrite !app_nil_r.
Qed.

(** Every unit that is laid out has a length. *)
Lemma left_units_length : 0 <= live <= u64_max ->
  Forall (fun u => 1 <= lsu_len u <= u64_max + 1) left_units.
Proof using.
  intros Hl. unfold left_units. rewrite surviving_products_eq, !Forall_app.
  unfold left_terminal_ranges, left_replacement, left_exit_ranges, left_block.
  split_and!; try apply Forall_map; try (apply Forall_true; simpl; intros; mlia).
  - destruct (Z.eqb_spec live 0); [constructor|]. apply Forall_map, Forall_true. simpl. intros. lia.
  - destruct (spr_live_times_replacement_terminal _); [|constructor].
    destruct (Z.eqb_spec live 0); simpl; rewrite ?andb_false_r, ?andb_true_r; [constructor|].
    destruct (negb _); [|constructor]. constructor; [simpl; lia|constructor].
  - unfold other, saturating_sub. destruct (Z.eqb_spec (Z.max 0 (live - 1)) 0); [constructor|].
    apply Forall_map, Forall_true. simpl. intros. lia.
  - apply Forall_true. simpl. intros b. pose proof (of_bool_range (is_some (rsb_terminal b))). mlia.
Qed.
End Products.

(** *** The resulting lane *)

Lemma short_perm {A} (l k : list A) : l ≡ₚ k -> zlen k <= 1 -> l = k.
Proof.
  intros Hp Hk. destruct k as [|x [|y k]].
  - by apply Permutation_nil_r in Hp.
  - by apply Permutation_singleton_r in Hp.
  - rewrite !zlen_cons in Hk. pose proof (zlen_nonneg k). lia.
Qed.
Lemma left_block_short pid s : zlen (left_block pid s) <= 1.
Proof. unfold left_block. destruct (scf_recovery s); [|done]. by destruct (_ =? _). Qed.
Lemma left_replacement_short pid live s : zlen (left_replacement pid live s) <= 1.
Proof.
  unfold left_replacement. destruct (spr_live_times_replacement_terminal _); [|done]. by destruct (_ && _).
Qed.

(** What [leave_sequence] lays out, up to the order of the lists. *)
Record leave_shape (pid : ParticipantId) (ended : option BindingEpoch) (live left : Z)
    (s s' : SequenceClaimFrontier) : Prop := {
  sh_candidates : scf_immutable_candidates s' = [];
  sh_owners : map msc_owner (scf_movable_claims s')
    ≡ₚ map msc_owner (List.filter (kept_claim pid ended) (scf_movable_claims s));
  sh_terminals : map terminal_key (spr_live_times_terminal (scf_products s'))
    ≡ₚ map terminal_key (left_terminal_ranges pid live s);
  sh_exits : map exit_key (spr_other_live_times_exit (scf_products s'))
    ≡ₚ map exit_key (left_exit_ranges pid live s);
  sh_replacement : match left_replacement pid live s with
    | r :: _ => exists r', spr_live_times_replacement_terminal (scf_products s') = Some r'
                           /\ rpr_length r' = rpr_length r /\ 0 <= rpr_start r'
    | [] => spr_live_times_replacement_terminal (scf_products s') = None
    end;
  sh_block : match left_block pid s with
    | b :: _ => exists b', scf_recovery s' = Some b' /\ same_sequence_block b b'
    | [] => scf_recovery s' = None
    end;
  sh_positions : exists total, movable_positions s' ≡ₚ seqZ (left + 1) total
                               /\ 0 <= total <= u64_max - left;
  sh_ledger : SequenceLedger_try_new left
    (mkSequenceClaims live
       (add_u64 (zlen (List.filter is_sequence_terminal (scf_movable_claims s')))
          (of_bool (match scf_recovery s' with Some b => is_some (rsb_terminal b) | None => false end)))
       0 (if is_some (scf_recovery s') then RSR_DetachedCredentialRecovery else RSR_None))
    = Ok (scf_ledger s');
}.

Lemma leave_sequence_shape pid ended live left s s' : u64 left -> 0 <= live <= u64_max ->
  leave_sequence s pid ended live left = Ok s' -> leave_shape pid ended live left s s'.
Proof.
  intros Hleft Hlive. unfold leave_sequence.
  destruct (surviving_claims _ _ _ _ _) as [direct|] eqn:Ed; simpl; [|done].
  apply surviving_claims_spec in Ed as ->. set (K := List.filter (kept_claim pid ended) _).
  fold (left_units pid live s K). set (units := sort_by_key original_start (left_units pid live s K)).
  assert (units ≡ₚ left_units pid live s K) as Hunits by apply sort_by_key_perm.
  destruct (left_units_kinds pid live s K) as (K1 & K2 & K3 & K4 & K5).
  assert (omap as_direct units ≡ₚ K) as U1 by (rewrite <- K1; by rewrite Hunits).
  assert (omap as_terminal units ≡ₚ left_terminal_ranges pid live s) as U2 by (rewrite <- K2; by rewrite Hunits).
  assert (omap as_replacement units = left_replacement pid live s) as U3
    by (apply short_perm; [rewrite <- K3; by rewrite Hunits|apply left_replacement_short]).
  assert (omap as_exit units ≡ₚ left_exit_ranges pid live s) as U4 by (rewrite <- K4; by rewrite Hunits).
  assert (omap as_block units = left_block pid s) as U5
    by (apply short_perm; [rewrite <- K5; by rewrite Hunits|apply left_block_short]).
  assert (Forall (fun u => 1 <= lsu_len u <= u64_max + 1) units) as Hlen
    by (rewrite Hunits; by apply left_units_length).
  rewrite cursor_next by mlia.
  destruct (lay_leave_units _ _ units) as [l|] eqn:El; simpl; [|done].
  apply lay_units_spec in El as (L1 & L2 & L3 & L4 & L5 & L6 & L7); [|mlia|done| |].
  2:{ unfold one_place. rewrite U3. simpl. pose proof (left_replacement_short pid live s). lia. }
  2:{ unfold one_place. rewrite U5. simpl. pose proof (left_block_short pid s). lia. }
  destruct (SequenceLedger_try_new _ _) as [ledger|] eqn:Et; simpl; [|done]. intros [= <-].
  rewrite U3 in L4. rewrite U5 in L5. simpl in L1, L2, L3.
  constructor; simpl; try done.
  - rewrite sort_by_key_perm, L1. by rewrite U1.
  - rewrite sort_by_key_perm, L2. by rewrite U2.
  - rewrite sort_by_key_perm, L3. by rewrite U4.
  - exists (sequence_total units). split; [|pose proof (sequence_total_nonneg units Hlen); mlia].
    etrans; [|exact L6]. unfold movable_positions, replacement_positions, block_positions; simpl.
    unfold layout_positions. by rewrite !sort_by_key_perm.
Qed.

Lemma concat_ranges_length {A} (start len : A -> Z) n l : 0 <= n -> Forall (fun r => len r = n) l ->
  zlen (concat (map (fun r => seqZ (start r) (len r)) l)) = n * zlen l.
Proof.
  intros Hn. induction 1 as [|r l Hr _ IH]; [unfold zlen; simpl; lia|]. simpl.
  rewrite zlen_app, zlen_cons, IH, Hr, zlen_seqZ. lia.
Qed.
Lemma filter_map {A B} (p : B -> bool) (g : A -> B) l :
  List.filter p (map g l) = map g (List.filter (fun x => p (g x)) l).
Proof. induction l as [|x l IH]; simpl; [done|]. destruct (p (g x)); simpl; by rewrite IH. Qed.
#[export] Instance filter_perm {A} (p : A -> bool) : Proper ((≡ₚ) ==> (≡ₚ)) (List.filter p).
Proof.
  intros l k H. induction H as [|x l k _ IH|x y l|l k m _ IH1 _ IH2]; simpl; [done|..].
  - destruct (p x); by rewrite ?IH.
  - destruct (p x), (p y); try done. apply Permutation_swap.
  - by rewrite IH1.
Qed.
Lemma filter_elem {A} (p : A -> bool) l x : x ∈ List.filter p l <-> x ∈ l /\ p x = true.
Proof. rewrite !list_elem_of_In. apply filter_In. Qed.
Lemma filter_NoDup {A} (p : A -> bool) l : NoDup l -> NoDup (List.filter p l).
Proof. rewrite !NoDup_ListNoDup. apply List.NoDup_filter. Qed.

Section LeaveSequence.
Context (a a' : ActiveIdentityRanks) (s s' : SequenceClaimFrontier) (pid : ParticipantId)
  (ended : option BindingEpoch) (left : Z).
Hypothesis Hs : sequence_ok a s.
Hypothesis Hnd : NoDup (indices a).
Hypothesis Hi : indices a ≡ₚ pid :: indices a'.
Hypothesis Hbound : forall w, w ∈ bound_owners a' <->
  w ∈ bound_owners a /\ bto_participant_index w <> pid.
Hypothesis Hended : forall w, w ∈ bound_owners a -> bto_participant_index w = pid ->
  ended = Some (bto_binding_epoch w).
Hypothesis Hcand : forall w, w ∈ candidate_terminals s -> bto_participant_index w = pid.
Hypothesis Hleft : u64 left.
Let live := air_len a'.
Hypothesis Hlive : live <= u64_max.
Hypothesis Hshape : leave_shape pid ended live left s s'.

Lemma pid_gone : pid ∉ indices a'.
Proof using Hnd Hi. rewrite Hi in Hnd. by apply NoDup_cons in Hnd as [? _]. Qed.
Lemma live_indices : zlen (indices a') = live.
Proof using. unfold indices. by rewrite zlen_map. Qed.

(** Every terminal but those of [pid] stays. *)
Definition left_terminals : list BindingTerminalOwner := List.filter (not_of pid) (all_terminals s).

Lemma block_owners_left :
  sequence_recovery_owner (scf_recovery s') = List.filter (not_of pid) (sequence_recovery_owner (scf_recovery s)).
Proof using Hs Hshape.
  destruct Hs as (_ & _ & _ & _ & (_ & _ & Hb & _) & _), Hshape as [_ _ _ _ _ Hblock _ _].
  unfold left_block in Hblock. destruct (scf_recovery s) as [b|] eqn:Er; [|by rewrite Hblock].
  destruct (spr_live_times_replacement_terminal (scf_products s)); [|done]. destruct Hb as (_ & _ & Ht).
  destruct (Z.eqb_spec (rsb_participant_index b) pid) as [Ep|Ep].
  - rewrite Hblock. simpl. destruct (rsb_terminal b); [|done]. simpl. unfold not_of.
    by rewrite Ht, Ep, Z.eqb_refl.
  - destruct Hblock as (b' & -> & Hsame & _). simpl.
    destruct (rsb_terminal b) as [t|], (rsb_terminal b') as [t'|]; simplify_eq/=; try done.
    unfold not_of. rewrite Ht, (proj2 (Z.eqb_neq _ _)) by done. simpl. by rewrite Hsame.
Qed.

Lemma terminals_left : claimed_terminals s' ≡ₚ left_terminals /\ all_terminals s' ≡ₚ left_terminals.
Proof using Hs Hended Hcand Hshape.
  pose proof block_owners_left as Hb. destruct Hs as (_ & _ & _ & (_ & T1 & _) & _).
  assert (claimed_terminals s' ≡ₚ left_terminals) as Hc.
  { unfold claimed_terminals. rewrite Hb, terminal_owners_eq.
    unfold left_terminals, all_terminals, claimed_terminals. rewrite !List.filter_app.
    assert (List.filter (not_of pid) (candidate_terminals s) = []) as ->.
    { apply filter_none. intros w Hw. unfold not_of. by rewrite (Hcand w Hw), Z.eqb_refl. }
    rewrite app_nil_r. apply Permutation_app_tail. destruct Hshape as [_ Ho _ _ _ _ _ _].
    unfold owner_terminals. rewrite Ho. fold (owner_terminals (map msc_owner
      (List.filter (kept_claim pid ended) (scf_movable_claims s)))).
    rewrite kept_terminals; [by rewrite terminal_owners_eq|].
    intros w Hw Hp. apply Hended; [|done]. apply T1. unfold claimed_terminals.
    apply elem_of_app. left. by rewrite terminal_owners_eq. }
  split; [done|]. unfold all_terminals, candidate_terminals.
  rewrite (sh_candidates _ _ _ _ _ _ Hshape). simpl. by rewrite app_nil_r.
Qed.

Lemma exits_left : exit_owners s' ≡ₚ indices a'.
Proof using Hs Hnd Hi Hshape.
  destruct Hs as (_ & _ & He & _), Hshape as [_ Ho _ _ _ _ _ _]. rewrite exit_owners_eq.
  unfold owner_exits. rewrite Ho.
  fold (owner_exits (map msc_owner (List.filter (kept_claim pid ended) (scf_movable_claims s)))).
  rewrite kept_exits, <- exit_owners_eq, He, Hi. simpl. rewrite Z.eqb_refl. simpl.
  rewrite filter_all; [done|]. intros p Hp. apply negb_true_iff, Z.eqb_neq. intros ->.
  by apply pid_gone.
Qed.

Lemma terminals_ok_left : terminals_ok a' s'.
Proof using Hs Hbound Hended Hcand Hshape.
  pose proof terminals_left as [Hc Ha]. destruct Hs as (_ & _ & _ & (T0 & T1 & _ & T3) & _).
  assert (candidate_terminals s' = []) as Hn
    by (unfold candidate_terminals; by rewrite (sh_candidates _ _ _ _ _ _ Hshape)).
  unfold terminals_ok. split_and!.
  - rewrite Ha. by apply filter_NoDup.
  - intros w Hw. rewrite Hc in Hw. apply filter_elem in Hw as [Hw Hp]. unfold not_of in Hp.
    apply negb_true_iff, Z.eqb_neq in Hp. apply Hbound. split; [|done].
    apply elem_of_app in Hw as [Hw|Hw]; [by apply T1|]. by destruct (Hp (Hcand _ Hw)).
  - rewrite Hn. intros w Hw. by apply not_elem_of_nil in Hw.
  - intros w Hw. apply Hbound in Hw as [Hw Hp]. rewrite Ha. apply filter_elem. split; [by apply T3|].
    unfold not_of. by apply negb_true_iff, Z.eqb_neq.
Qed.

(** Nobody left, no terminal left. *)
Lemma no_live_left : live = 0 -> left_terminals = [].
Proof using Hs Hbound Hcand.
  intros Hz. destruct Hs as (_ & _ & _ & (_ & T1 & _) & _).
  assert (air_participants a' = []) as Ha by (apply nil_length_inv; unfold live, air_len, zlen in Hz; lia).
  apply filter_none. intros w Hw. destruct (not_of pid w) eqn:E; [|done]. exfalso.
  unfold not_of in E. apply negb_true_iff, Z.eqb_neq in E.
  assert (w ∈ bound_owners a') as Hb.
  { apply Hbound. split; [|done]. apply elem_of_app in Hw as [Hw|Hw]; [by apply T1|].
    by destruct (E (Hcand _ Hw)). }
  unfold bound_owners in Hb. rewrite Ha in Hb. by apply not_elem_of_nil in Hb.
Qed.

Lemma keys_Forall {A B} (key : A -> Z * B) (P : Z -> Prop) (l : list A) ks :
  map key l ≡ₚ ks -> Forall (fun k => P k.1) ks -> Forall (fun r => P (key r).1) l.
Proof.
  intros Hp Hf. assert (Forall (fun k => P k.1) (map key l)) as H by (by rewrite Hp). by apply (proj1 (Forall_fmap key _ l)) in H.
Qed.

Lemma terminal_ranges_left :
  map tpr_terminal (spr_live_times_terminal (scf_products s')) ≡ₚ left_terminals
  /\ Forall (fun r => tpr_length r = live) (spr_live_times_terminal (scf_products s')).
Proof using Hs Hbound Hcand Hshape.
  pose proof no_live_left as Hz. destruct Hs as (_ & _ & _ & _ & (PR1 & _) & _), Hshape as [_ _ Hk _ _ _ _ _].
  split.
  - assert (map tpr_terminal (spr_live_times_terminal (scf_products s'))
      ≡ₚ map tpr_terminal (left_terminal_ranges pid live s)) as ->.
    { pose proof (Permutation_map snd Hk) as Hk'. by rewrite !map_map in Hk'. }
    unfold left_terminal_ranges. destruct (Z.eqb_spec live 0) as [E|]; [by rewrite (Hz E)|].
    rewrite map_map. simpl. unfold left_terminals. rewrite <- PR1, filter_map. done.
  - apply (keys_Forall terminal_key (fun n => n = live) _ _ Hk). apply Forall_map.
    unfold left_terminal_ranges. destruct (live =? 0); [constructor|]. by apply Forall_map, Forall_true.
Qed.

Lemma exit_ranges_left :
  Forall (fun r => epr_length r = Z.max 0 (live - 1)) (spr_other_live_times_exit (scf_products s'))
  /\ (1 < live -> map epr_exit_participant (spr_other_live_times_exit (scf_products s')) ≡ₚ indices a').
Proof using Hs Hnd Hi Hshape.
  destruct Hs as (_ & _ & _ & _ & (_ & _ & _ & _ & PR5) & _), Hshape as [_ _ _ Hk _ _ _ _].
  split.
  - apply (keys_Forall exit_key (fun n => n = Z.max 0 (live - 1)) _ _ Hk). apply Forall_map.
    unfold left_exit_ranges, saturating_sub. destruct (_ =? 0); [constructor|]. by apply Forall_map, Forall_true.
  - intros Hl. assert (map epr_exit_participant (spr_other_live_times_exit (scf_products s'))
      ≡ₚ map epr_exit_participant (left_exit_ranges pid live s)) as ->.
    { pose proof (Permutation_map snd Hk) as Hk'. by rewrite !map_map in Hk'. }
    unfold left_exit_ranges, saturating_sub. rewrite (proj2 (Z.eqb_neq _ _)) by lia.
    rewrite map_map. simpl. change (fun r => epr_exit_participant r) with epr_exit_participant.
    rewrite <- (filter_map (fun p => negb (p =? pid))), PR5, Hi.
    + simpl. rewrite Z.eqb_refl. simpl. rewrite filter_all; [done|]. intros p Hp.
      apply negb_true_iff, Z.eqb_neq. intros ->. by apply pid_gone.
    + unfold air_len. rewrite <- (zlen_map fp_participant_index). change (map _ _) with (indices a).
      rewrite (zlen_perm _ _ Hi), zlen_cons, live_indices. lia.
Qed.

Lemma recovery_left :
  match spr_live_times_replacement_terminal (scf_products s'), scf_recovery s' with
  | Some r, Some b => (rpr_length r = live /\ 0 <= rpr_start r) /\ block_ok a' b
  | None, None => True
  | _, _ => False
  end.
Proof using Hs Hi Hshape.
  destruct Hs as (_ & _ & _ & _ & (_ & _ & Hb & _) & _), Hshape as [_ _ _ _ Hr Hblock _ _].
  unfold left_block in Hblock. unfold left_replacement in Hr.
  destruct (scf_recovery s) as [b|], (spr_live_times_replacement_terminal (scf_products s)) as [r|]; try done.
  - destruct Hb as (_ & Hin & Ht). destruct (Z.eqb_spec (rsb_participant_index b) pid) as [Ep|Ep]; simpl in Hr.
    { by rewrite Hr, Hblock. }
    rewrite Hi in Hin. apply elem_of_cons in Hin as [?|Hin]; [done|].
    assert (live <> 0) as Hz.
    { rewrite <- live_indices. destruct (indices a'); [by apply not_elem_of_nil in Hin|].
      rewrite zlen_cons. pose proof (zlen_nonneg l). lia. }
    rewrite (proj2 (Z.eqb_neq _ _)) in Hr by done. simpl in Hr.
    destruct Hr as (r' & -> & Hl & Hs0), Hblock as (b' & -> & Hown & Hp & _). split; [done|].
    unfold block_ok. rewrite Hp. split; [done|].
    destruct (rsb_terminal b) as [t|], (rsb_terminal b') as [t'|]; simplify_eq/=; try done. congruence.
  - by rewrite Hr, Hblock.
Qed.

(** How many sequences the lane takes. *)
Lemma lane_length :
  zlen (movable_positions s') = live + zlen (claimed_terminals s')
    + live * zlen (claimed_terminals s') + Z.max 0 (live - 1) * live
    + (2 + live) * of_bool (is_some (scf_recovery s')).
Proof using Hs Hnd Hi Hbound Hended Hcand Hshape.
  pose proof terminal_ranges_left as [Ht1 Ht2]. pose proof exit_ranges_left as [He1 He2].
  pose proof recovery_left as Hrec. pose proof terminals_left as [Hc _]. pose proof exits_left as Hex.
  pose proof live_indices as Hli. rewrite exit_owners_eq in Hex.
  assert (0 <= live) by apply zlen_nonneg.
  unfold movable_positions, replacement_positions, block_positions. rewrite !zlen_app.
  rewrite (concat_ranges_length tpr_start tpr_length live) by done.
  rewrite (concat_ranges_length epr_start epr_length (Z.max 0 (live - 1))) by (try done; lia).
  assert (zlen (spr_live_times_terminal (scf_products s')) = zlen (claimed_terminals s')) as ->.
  { rewrite <- (zlen_map tpr_terminal), (zlen_perm _ _ Ht1). by rewrite (zlen_perm _ _ Hc). }
  assert (Z.max 0 (live - 1) * zlen (spr_other_live_times_exit (scf_products s'))
          = Z.max 0 (live - 1) * live) as ->.
  { destruct (Z.le_gt_cases live 1); [by replace (Z.max 0 (live - 1)) with 0 by lia|].
    rewrite <- (zlen_map epr_exit_participant), (zlen_perm _ _ (He2 ltac:(lia))). by rewrite Hli. }
  rewrite (zlen_map msc_delivery_seq).
  assert (zlen (scf_movable_claims s')
    = zlen (owner_terminals (map msc_owner (scf_movable_claims s'))) + live) as ->.
  { rewrite <- (zlen_map msc_owner), owners_split, (zlen_perm _ _ Hex). by rewrite Hli. }
  unfold claimed_terminals. rewrite zlen_app, terminal_owners_eq.
  destruct (spr_live_times_replacement_terminal (scf_products s')) as [r|],
    (scf_recovery s') as [b|]; try done; simpl.
  - destruct Hrec as [[-> _] _]. rewrite zlen_seqZ. unfold block_sequences.
    destruct (rsb_terminal b); unfold zlen; simpl; lia.
  - unfold zlen; simpl; lia.
Qed.

Lemma leave_ledger : sl_ok (scf_ledger s') /\ sl_high_watermark (scf_ledger s') = left
  /\ sl_claims (scf_ledger s') = mkSequenceClaims live (zlen (claimed_terminals s')) 0
       (if is_some (scf_recovery s') then RSR_DetachedCredentialRecovery else RSR_None)
  /\ movable_positions s' ≡ₚ seqZ (left + 1) (sl_required_reserve (scf_ledger s')).
Proof using All.
  pose proof lane_length as Hlen. destruct Hshape as [_ _ _ _ _ _ (total & Hpos & Ht) Hl].
  pose proof (zlen_perm _ _ Hpos) as Hz. rewrite Hlen, zlen_seqZ in Hz. assert (0 <= live) by apply zlen_nonneg.
  pose proof (zlen_nonneg (claimed_terminals s')). pose proof (of_bool_range (is_some (scf_recovery s'))).
  assert (0 <= live * zlen (claimed_terminals s')) by nia.
  assert (0 <= Z.max 0 (live - 1) * live) by nia.
  assert (0 <= (2 + live) * of_bool (is_some (scf_recovery s'))) by nia.
  assert (zlen (claimed_terminals s')
    = zlen (List.filter is_sequence_terminal (scf_movable_claims s'))
      + of_bool (match scf_recovery s' with Some b => is_some (rsb_terminal b) | None => false end)) as Hct.
  { unfold claimed_terminals. rewrite zlen_app, filter_sequence_terminals, terminal_owners_eq.
    by destruct (scf_recovery s') as [[[?|] ? ? ? ? ?]|]. }
  rewrite add_u64_exact, <- Hct in Hl by (rewrite <- ?Hct; mlia).
  apply try_new_ledger in Hl as (Hok & Hh & Hc & Hr); [|unfold sc_ok; simpl; mlia|done].
  split_and!; try done. rewrite Hr, Hpos. apply eq_perm. f_equal. unfold reserve, rsr; simpl.
  destruct (scf_recovery s'); simpl in *; lia.
Qed.

Lemma exit_start_range r : r ∈ spr_other_live_times_exit (scf_products s') ->
  0 <= epr_start r <= left + 1 + sl_required_reserve (scf_ledger s').
Proof using All.
  intros Hr. pose proof leave_ledger as (_ & _ & _ & Hpos). pose proof exit_ranges_left as [He _].
  pose proof (proj1 (Forall_forall _ _) He r Hr) as Hlen. simpl in Hlen.
  destruct (Z.le_gt_cases live 1).
  - destruct Hshape as [_ _ _ Hk _ _ _ _]. unfold left_exit_ranges, saturating_sub in Hk.
    rewrite (proj2 (Z.eqb_eq _ _)) in Hk by lia. simpl in Hk.
    apply Permutation_nil_r, map_eq_nil in Hk. rewrite Hk in Hr. by apply not_elem_of_nil in Hr.
  - assert (epr_start r ∈ movable_positions s') as Hin.
    { unfold movable_positions. rewrite !elem_of_app. do 3 right. left. apply list_elem_of_In, in_concat.
      exists (seqZ (epr_start r) (epr_length r)). split; apply list_elem_of_In.
      - by apply (list_elem_of_fmap_2 (fun r => seqZ (epr_start r) (epr_length r))).
      - apply elem_of_seqZ. lia. }
    rewrite Hpos in Hin. apply elem_of_seqZ in Hin. mlia.
Qed.

Lemma leave_sequence_ok : sequence_ok a' s' /\ sl_high_watermark (scf_ledger s') = left.
Proof using All.
  pose proof leave_ledger as (Hl & Hh & Hc & Hpos). pose proof terminals_left as [Hct Hat].
  pose proof terminal_ranges_left as [Ht1 Ht2]. pose proof exit_ranges_left as [He1 He2].
  pose proof recovery_left as Hrec. pose proof (sh_candidates _ _ _ _ _ _ Hshape) as Hn.
  split; [|done]. unfold sequence_ok. split; [done|]. split_and!.
  - unfold sequence_counts. rewrite Hc. simpl. split_and!; try done.
    + rewrite (zlen_perm _ _ Hat). by apply zlen_perm.
    + unfold marker_candidates. by rewrite Hn.
    + unfold rsr; simpl. by destruct (scf_recovery s').
  - exact exits_left.
  - exact terminals_ok_left.
  - unfold products_ok. rewrite Hat. split_and!; try done.
    destruct (spr_live_times_replacement_terminal _), (scf_recovery s'); try done. by destruct Hrec as [[? _] ?].
  - unfold marker_candidates. by rewrite Hn.
  - unfold sequence_positions. rewrite Hn, Hh. change (zlen (@nil ImmutableSequenceCandidate)) with 0.
    rewrite Z.add_0_r, Z.sub_0_r. split_and!; try done.
    + apply Forall_forall. intros r Hr. by apply exit_start_range.
    + destruct (spr_live_times_replacement_terminal _); [|done].
      destruct (scf_recovery s'); [|done]. by destruct Hrec as [[_ ?] _].
Qed.
End LeaveSequence.

(** ** A committed Leave *)

Lemma active_participant_spec a id p : active_participant a id = Some p ->
  p ∈ air_participants a /\ fp_participant_index p = id.
Proof.
  unfold active_participant, binary_search_by_key.
  destruct (binary_search_by _ _) as [i|] eqn:E; simpl; [|done]. intros Hp.
  split; [by eapply list_elem_of_lookup_2|].
  apply bisect_by_sound in E as (m & _ & Hm & Hc). rewrite Nat.sub_0_r in Hm.
  rewrite Hp in Hm. injection Hm as ->. by apply Z.compare_eq_iff in Hc.
Qed.

(** The binding that ends with the identity: the bound one, or none. *)
Definition binding_ends (a : ActiveIdentityRanks) (pid : ParticipantId) (ended : option BindingEpoch)
    : Prop :=
  exists p, p ∈ air_participants a /\ fp_participant_index p = pid
    /\ match ended with
       | Some e => fp_binding p = FB_Bound e
       | None => exists e, fp_binding p = FB_Detached e
       end.

Lemma remove_participant_perm pid ps ps' : remove_participant pid ps = Some ps' ->
  exists p, fp_participant_index p = pid /\ ps ≡ₚ p :: ps' /\ ps' `sublist_of` ps.
Proof.
  unfold remove_participant. destruct (position _ ps) as [i|] eqn:E; simpl; [|done]. intros [= <-].
  apply position_spec in E as (p & Hp & Hi). apply Z.eqb_eq in Hi. exists p.
  split_and!; [done|by apply delete_Permutation|apply sublist_delete].
Qed.

Lemma bound_after a ps' pid p : NoDup (indices a) -> fp_participant_index p = pid ->
  air_participants a ≡ₚ p :: ps' -> forall w,
  w ∈ bound_owners (mkActiveIdentityRanks ps') <->
  w ∈ bound_owners a /\ bto_participant_index w <> pid.
Proof.
  intros Hnd Hp Hperm w. rewrite !bound_owners_elem. simpl.
  assert (NoDup (pid :: map fp_participant_index ps')) as Hnd'.
  { unfold indices in Hnd. rewrite Hperm in Hnd. simpl in Hnd. by rewrite Hp in Hnd. }
  apply NoDup_cons in Hnd' as [Hout _]. split.
  - intros (q & Hq & Hi & Hb). split.
    + exists q. split; [|done]. rewrite Hperm. by right.
    + intros E. apply Hout. rewrite <- E, <- Hi. by apply list_elem_of_fmap_2.
  - intros ((q & Hq & Hi & Hb) & Hne). exists q. split; [|done]. rewrite Hperm in Hq.
    apply elem_of_cons in Hq as [->|Hq]; [congruence|done].
Qed.
Lemma ended_epoch a pid ended w : NoDup (indices a) -> binding_ends a pid ended ->
  w ∈ bound_owners a -> bto_participant_index w = pid -> ended = Some (bto_binding_epoch w).
Proof.
  intros Hnd (p & Hp & Hi & He) Hw Hpid. apply bound_owners_elem in Hw as (q & Hq & Hqi & Hqb).
  assert (q = p) as -> by (apply (NoDup_map_inj fp_participant_index _ Hnd); [done|done|congruence]).
  destruct ended as [e|]; [congruence|]. destruct He as (e & He). congruence.
Qed.

Lemma leave_candidates_of s pid terminal first :
  leave_candidates_match s pid terminal first = true ->
  (forall w, w ∈ candidate_terminals s -> bto_participant_index w = pid)
  /\ match terminal with Some t => cbt_delivery_seq t = first | None => True end.
Proof.
  unfold leave_candidates_match, candidate_terminals. intros H.
  destruct terminal as [t|], (scf_immutable_candidates s) as [|[d k w|m] [|c cs]]; try done.
  - rewrite !andb_true_iff, !Z.eqb_eq in H. destruct H as ((((_ & Ht) & _) & Hp) & _).
    split; [|done]. intros w' Hw. by apply list_elem_of_singleton in Hw as ->.
  - split; [|done]. intros w Hw. by apply not_elem_of_nil in Hw.
Qed.

Lemma ranks_sublist high high' limit ps ps' : high <= high' -> ps' `sublist_of` ps ->
  ranks_ok high limit ps -> ranks_ok high' limit ps'.
Proof.
  intros Hh Hsub (R1 & R2 & R3). split_and!.
  - pose proof (sublist_length _ _ Hsub). unfold zlen in *. lia.
  - eapply StronglySorted_sublist; [by apply sublist_map|done].
  - eapply Forall_sublist; [done|]. eapply Forall_impl; [exact R3|]. simpl. lia.
Qed.

Lemma leave_rows_at pid terminal left order first :
  match terminal with Some t => cbt_delivery_seq t = first | None => True end ->
  left = first + of_bool (is_some terminal) ->
  map rcr_delivery_seq (leave_records pid terminal left order) = seqZ first (1 + of_bool (is_some terminal))
  /\ zlen (leave_records pid terminal left order) = 1 + of_bool (is_some terminal).
Proof.
  intros Ht ->. unfold leave_records. destruct terminal as [t|]; simpl.
  - rewrite Ht, seqZ_two. done.
  - rewrite seqZ_one, Z.add_0_r. done.
Qed.
Lemma expected_left_spec (terminal : option CommittedBindingTerminal) high first left
    (e : LeaveCommitError) :
  checked_add u64_max high 1 = Some first ->
  (if is_some terminal then ok_or (checked_add u64_max first 1) e else Ok first) = Ok left ->
  first = high + 1 /\ left = first + of_bool (is_some terminal) /\ left <= u64_max.
Proof.
  intros H1 H2. apply checked_add_Some in H1 as [-> Hu]. split; [done|].
  destruct terminal; simpl in *; [|injection H2 as <-; lia].
  destruct (checked_add _ (high + 1) 1) as [x|] eqn:E; [|done]. injection H2 as <-.
  apply checked_add_Some in E as [-> ?]. lia.
Qed.

Lemma finish_leave_ok f o' pid ended terminal left order f' : frontier_inv f ->
  binding_ends (cf_active_identities f) pid ended ->
  (forall a', indices (cf_active_identities f) ≡ₚ pid :: indices a' -> order_ok a' o') ->
  ocf_immutable_candidates o' = [] ->
  finish_leave_claims_of (set_order f o') pid ended terminal left order = Ok f' ->
  frontier_inv f' /\ indices (cf_active_identities f) ≡ₚ pid :: indices (cf_active_identities f').
Proof.
  intros (Hranks & Hs & Ho & _ & _ & Hfl & Hrows & Hmk) Hends Horder Hoc. unfold finish_leave_claims_of; simpl.
  pose proof Hs as ((Hh & (Hlu & _) & _) & (C1 & _) & _). pose proof (ranks_NoDup _ _ _ Hranks) as Hnd.
  destruct (checked_add _ _ 1) as [first|] eqn:Ef; simpl; [|done].
  destruct (if is_some terminal then _ else _) as [expected|] eqn:Ee; simpl; [|done].
  destruct (expected_left_spec _ _ _ _ _ Ef Ee) as (-> & He & Heu).
  destruct (Z.eqb_spec left expected) as [->|]; simpl; [|done].
  destruct (leave_candidates_match _ _ _ _) eqn:Ec; simpl; [|done].
  apply leave_candidates_of in Ec as [Hcand Hterm].
  destruct (remove_participant _ _) as [ps'|] eqn:Er; simpl; [|done].
  apply remove_participant_perm in Er as (p & Hp & Hperm & Hsub). set (a' := mkActiveIdentityRanks ps').
  assert (indices (cf_active_identities f) ≡ₚ pid :: indices a') as Hi
    by (unfold indices; rewrite Hperm; simpl; by rewrite Hp).
  assert (zlen ps' <= u64_max) as Hlive.
  { unfold air_len in C1. rewrite (zlen_perm _ _ Hperm), zlen_cons in C1. mlia. }
  destruct (leave_sequence _ _ _ _ _) as [s'|] eqn:El; simpl; [|done].
  destruct (_ || _) eqn:Ex; [done|]. apply orb_false_elim in Ex as [_ Ex].
  destruct (validate_cross_counter s' o') as [[]|] eqn:Ecc; [|done]. apply cross_counter_Ok in Ecc.
  intros [= <-]. split; [|exact Hi]. pose proof (zlen_nonneg ps').
  pose proof (of_bool_range (is_some terminal)).
  apply leave_sequence_shape in El; [|mlia|lia].
  destruct (leave_sequence_ok _ a' _ s' pid ended expected Hs Hnd Hi (bound_after _ ps' pid p Hnd Hp Hperm)
    (fun w => ended_epoch _ pid ended w Hnd Hends) Hcand ltac:(mlia) Hlive El) as [Hs' Hhigh].
  destruct (leave_rows_at pid terminal expected order _ Hterm He) as [Hat Hlen]. rewrite <- Hlen in Hat.
  unfold frontier_inv, rows_ok; simpl. rewrite Hhigh. split_and!; try done; try lia.
  - eapply ranks_sublist; [|done|done]. lia.
  - by apply Horder.
  - unfold keys_ok, group_keys. rewrite Hoc, (sh_candidates _ _ _ _ _ _ El). split_and!; constructor.
  - apply sorted_keys; [apply seqZ_sorted|]. apply eq_perm.
    etrans; [exact (rows_append _ _ _ _ (proj2 Hfl) Hrows Hat)|]. f_equal; lia.
  - apply Forall_forall. intros r Hin. apply filter_elem in Hin as [Hin _].
    destruct (proj1 (Forall_forall _ _) Hmk r Hin) as [Hrow Hm]. split; [|done].
    rewrite sort_by_key_perm. apply elem_of_app. by left.
Qed.

Lemma settled_prestate {F} f (m : LiveMember F) bs pid ended :
  validate_settled_leave_prestate f m bs = Ok (pid, ended) ->
  pid = lm_participant_id m /\ binding_ends (cf_active_identities f) pid ended
  /\ ended = match bs with BS_Bound b => Some (bnd_binding_epoch b) | _ => None end.
Proof.
  unfold validate_settled_leave_prestate. destruct (validate_leave_identity f m) as [[]|]; simpl; [|done].
  destruct (negb _); [done|]. destruct bs as [|b|]; [| |done].
  - destruct (active_participant _ _) as [p|] eqn:Ea; [|done]. apply active_participant_spec in Ea as [Hp Hi].
    destruct (fp_binding p) as [|e] eqn:Eb; [done|]. intros [= <- <-]. split_and!; try done.
    exists p. split_and!; try done. by exists e.
  - destruct (_ && _); [|done]. destruct (active_participant _ _) as [p|] eqn:Ea; [|done].
    apply active_participant_spec in Ea as [Hp Hi].
    case_bool_decide as Eb; simpl; [|done]. intros [= <- <-]. split_and!; try done. by exists p.
Qed.
Lemma pending_prestate {F} f (m : LiveMember F) pending pid order :
  validate_pending_leave_prestate f m pending = Ok (pid, order) ->
  pid = lm_participant_id m /\ binding_ends (cf_active_identities f) pid None.
Proof.
  unfold validate_pending_leave_prestate. destruct (validate_leave_identity f m) as [[]|]; simpl; [|done].
  destruct (_ || _); [done|]. destruct (active_participant _ _) as [p|] eqn:Ea; [|done].
  apply active_participant_spec in Ea as [Hp Hi]. case_bool_decide as Eb; simpl; [|done].
  destruct (_ || _); [done|]. intros [= <- <-]. split; [done|]. exists p. split_and!; try done. by eexists.
Qed.

Lemma consume_lane_empty o pid ended pending o' major :
  consume_leave_order_lane o pid ended pending = Ok (o', major) -> ocf_immutable_candidates o' = [].
Proof.
  unfold consume_leave_order_lane. destruct (select_leave_order _ _ _ _); simpl; [|done].
  destruct (relay_leave_order_units _ _); simpl; [|done].
  destruct (leave_resulting_order_ledger _ _ _); simpl; [|done]. by intros [= <- _].
Qed.
(** The two halves together. *)
Lemma prepared_finish f pid ended pending terminal left order o' major f' : frontier_inv f ->
  binding_ends (cf_active_identities f) pid ended ->
  consume_leave_order_lane (cf_order f) pid ended pending = Ok (o', major) ->
  finish_leave_claims_of (set_order f o') pid ended terminal left order = Ok f' ->
  frontier_inv f' /\ indices (cf_active_identities f) ≡ₚ pid :: indices (cf_active_identities f').
Proof.
  intros Hf Hends Eo Hfin. eapply finish_leave_ok; [exact Hf|exact Hends| | |exact Hfin].
  - intros a' Hi. destruct Hf as (_ & _ & Hok & _). by eapply consume_lane_ok in Eo.
  - by eapply consume_lane_empty.
Qed.

Section CommittedLeave.
Context {EF D V LF : Type}.

Lemma finish_leave_keeps (m : LiveMember EF) (verified : VerifiedLeaveRequest V LF) ended prior terminal
    left order (fr : ClaimFrontiers) commit :
  finish_leave m verified ended prior terminal order left fr = Ok commit ->
  finish_leave_claims_of fr (vlr_participant_id verified) ended terminal left order
  = Ok (lvc_frontiers commit)
  /\ exists retired, lvc_identity commit = IS_Retired retired
     /\ lc_left_delivery_seq (ri_committed_result retired) = left
     /\ ri_left_admission_order retired
        = mkAdmissionOrder order CP_MembershipExit (vlr_participant_id verified).
Proof.
  unfold finish_leave. destruct (negb _); [done|].
  destruct (LeaveCommitted_new _ _ _ _ _ _ _) as [c|] eqn:Ec; [|done]. simpl.
  destruct (finish_leave_claims_of _ _ _ _ _ _) as [f'|]; simpl; [|done].
  destruct (retire _ _ _ _ _ _) as [retired|] eqn:Er; simpl; [|done]. intros [= <-]. split; [done|].
  exists retired. split; [done|]. unfold retire in Er. repeat (destruct (negb _) in Er; [done|]).
  destruct (_ || _) in Er; [done|]. injection Er as <-. split; [|done]. simpl.
  unfold LeaveCommitted_new in Ec.
  destruct (match ended with Some _ => _ | None => _ end) in Ec; [done|].
  destruct (match prior with Some _ => _ | None => _ end) in Ec; [done|]. by injection Ec as <-.
Qed.

Context `{!EqDecision D}.

(** What a committed Leave is: the order lane prepared, the claims finished, and a
    tombstone at the appended position. *)
Definition left_as (f : ClaimFrontiers) (pid : ParticipantId) (ended : option BindingEpoch)
    (terminal : option CommittedBindingTerminal) (left : DeliverySeq)
    (commit : LeaveCommit EF V LF ClaimFrontiers) : Prop :=
  exists pending o' major retired, binding_ends (cf_active_identities f) pid ended
  /\ consume_leave_order_lane (cf_order f) pid ended pending = Ok (o', major)
  /\ finish_leave_claims_of (set_order f o') pid ended terminal left major
     = Ok (lvc_frontiers commit)
  /\ lvc_identity commit = IS_Retired retired
  /\ lc_left_delivery_seq (ri_committed_result retired) = left
  /\ ri_left_admission_order retired = mkAdmissionOrder major CP_MembershipExit pid.

Lemma left_as_ok f pid ended terminal left commit : frontier_inv f ->
  left_as f pid ended terminal left commit ->
  frontier_inv (lvc_frontiers commit)
  /\ indices (cf_active_identities f) ≡ₚ pid :: indices (cf_active_identities (lvc_frontiers commit)).
Proof. intros Hf (pending & o' & major & retired & ? & ? & ? & _). by eapply prepared_finish. Qed.

(** A settled Leave, prepared and committed. *)
Lemma settled_leave_parts f (m : LiveMember EF) bs authority (cell : DetachCell D)
    (verified : VerifiedLeaveRequest V LF) parameters commit :
  prepare_settled_leave_authority f m bs = Ok authority ->
  commit_leave m bs cell verified authority parameters = Ok commit ->
  exists ended, left_as f (lm_participant_id m) ended None (lcp_left_delivery_seq parameters) commit.
Proof.
  intros Hp Hc. unfold prepare_settled_leave_authority in Hp.
  destruct (validate_settled_leave_prestate f m bs) as [[pid ended]|] eqn:Ev; simpl in Hp; [|done].
  apply settled_prestate in Ev as (-> & Hends & Hended).
  destruct (consume_leave_order_lane _ _ _ _) as [[o' major]|] eqn:Eo; simpl in Hp; [|done].
  injection Hp as <-. unfold commit_leave in Hc. unfold validate_verified in Hc.
  destruct (_ || _) eqn:E1; simpl in Hc; [done|]. apply orb_false_elim in E1 as [E1 _].
  apply orb_false_elim in E1 as [_ E1]. apply negb_false_iff, Z.eqb_eq in E1.
  destruct (match bs with BS_Detached => Ok None | _ => _ end) as [ended'|] eqn:Eb; [|done].
  destruct (validate_settled_cell m bs cell) as [[]|]; [|done].
  unfold consume_settled in Hc; simpl in Hc. destruct (_ || _) eqn:E2; simpl in Hc; [done|].
  apply orb_false_elim in E2 as [_ E2]. apply negb_false_iff, bool_decide_eq_true in E2. subst ended'.
  destruct (validate_sequence_order _ _) as [[]|]; [|done].
  apply finish_leave_keeps in Hc as (Hfin & retired & Hc). rewrite E1 in Hfin, Hc.
  eexists ended, _, o', major, retired. by destruct Hc as (? & ? & ?).
Qed.
Lemma settled_leave_ok f (m : LiveMember EF) bs authority (cell : DetachCell D)
    (verified : VerifiedLeaveRequest V LF) parameters commit : frontier_inv f ->
  prepare_settled_leave_authority f m bs = Ok authority ->
  commit_leave m bs cell verified authority parameters = Ok commit ->
  frontier_inv (lvc_frontiers commit)
  /\ indices (cf_active_identities f)
     ≡ₚ lm_participant_id m :: indices (cf_active_identities (lvc_frontiers commit)).
Proof.
  intros Hf Hp Hc. destruct (settled_leave_parts _ _ _ _ _ _ _ _ Hp Hc) as (ended & Hl).
  by eapply left_as_ok.
Qed.

(** A Leave that finalizes a pending terminal on its way. *)
Lemma pending_leave_parts f (m : LiveMember EF) pending authority (cell : DetachCell D)
    (verified : VerifiedLeaveRequest V LF) parameters commit :
  prepare_pending_leave_authority f m pending = Ok authority ->
  commit_pending_leave m pending cell verified authority parameters = Ok commit ->
  left_as f (lm_participant_id m) None (Some (pf_commit pending (plp_terminal_delivery_seq parameters)))
    (plp_left_delivery_seq parameters) commit.
Proof.
  intros Hp Hc. unfold prepare_pending_leave_authority in Hp.
  destruct (validate_pending_leave_prestate f m pending) as [[pid order]|] eqn:Ev; simpl in Hp; [|done].
  apply pending_prestate in Ev as (-> & Hends).
  destruct (consume_leave_order_lane _ _ _ _) as [[o' major]|] eqn:Eo; simpl in Hp; [|done].
  injection Hp as <-. unfold commit_pending_leave, validate_verified in Hc.
  destruct (_ || _) eqn:E1; simpl in Hc; [done|]. apply orb_false_elim in E1 as [E1 _].
  apply orb_false_elim in E1 as [_ E1]. apply negb_false_iff, Z.eqb_eq in E1.
  destruct (validate_pending m pending) as [[]|]; [|done].
  unfold consume_pending in Hc; simpl in Hc. destruct (_ || _) eqn:E2; simpl in Hc; [done|].
  destruct (validate_pending_cell _ _ _) as [[]|]; [|done]. destruct (_ <=? _); [done|].
  destruct (map_err _ _) as [[]|]; [|done].
  apply finish_leave_keeps in Hc as (Hfin & retired & Hc). rewrite E1 in Hfin, Hc.
  eexists _, o', major, retired. by destruct Hc as (? & ? & ?).
Qed.
Lemma pending_leave_ok f (m : LiveMember EF) pending authority (cell : DetachCell D)
    (verified : VerifiedLeaveRequest V LF) parameters commit : frontier_inv f ->
  prepare_pending_leave_authority f m pending = Ok authority ->
  commit_pending_leave m pending cell verified authority parameters = Ok commit ->
  frontier_inv (lvc_frontiers commit)
  /\ indices (cf_active_identities f)
     ≡ₚ lm_participant_id m :: indices (cf_active_identities (lvc_frontiers commit)).
Proof.
  intros Hf Hp Hc. pose proof (pending_leave_parts _ _ _ _ _ _ _ _ Hp Hc) as Hl. by eapply left_as_ok.
Qed.
End CommittedLeave.
