(* ===== verification/OwnerInv.v ===== *)
(** * The live owner: the invariant

    [owner_inv] couples the three parts of a live owner: the frontiers satisfy
    [frontier_inv] without a recovery block, the closure accounting is valid, and the
    charges are those of the retained rows, one entry each and in the same order.
    First what every frontier operation makes of rows, markers, identities and
    candidates; [OwnerRuns] shows that every operation of the owner keeps the
    invariant. *)
From stdpp Require Import sorting.
From S2P Require Import Prelude LeaveRuns Algebra Tags Wire Response Authority Order Sequence Edge.
From S2P Require Import Binding EdgeSteps Member Detach Leave Attach Lookup Capacity Closure.
From S2P Require Import Cursor AckOperations Frontier FrontierNumeric FrontierLive.
From S2P Require Import RecordProjection RecordOperations FrontierInit EnrollmentClosure.
From S2P Require Import EnrollmentOperation FrontierRestore FrontierLeave LiveOwner OwnerFate.
From S2P Require Import FrontierInv FrontierRuns ProjectionRuns ProjectionCharges EnrollmentRuns.

(** ** Specification *)

Definition no_recovery (f : ClaimFrontiers) : Prop :=
  scf_recovery (cf_sequence f) = None /\ ocf_recovery (cf_order f) = None.
Definition charges_ok (rows : list RetainedCausalRecord) (charges : list RetainedRecordCharge)
    : Prop := map charge_key charges = map row_key rows /\ Forall charge_ok charges.

Record owner_inv (o : LiveFrontierOwner) : Prop := {
  oi_frontiers : frontier_inv (lfo_frontiers o);
  oi_cursors : cursors_ok (lfo_frontiers o);
  oi_recovery : no_recovery (lfo_frontiers o);
  oi_accounting : accounting_ok (lfo_closure_accounting o);
  oi_charges : charges_ok (cf_retained_records (lfo_frontiers o)) (lfo_retained_charges o);
}.

Arguments oi_frontiers {o} _.
Arguments oi_cursors {o} _.
Arguments oi_recovery {o} _.
Arguments oi_accounting {o} _.
Arguments oi_charges {o} _.

(** ** Effects of the frontier operations *)

(** The frontiers become these, on the same conversation and slots. *)
Record effect (f f' : ClaimFrontiers) (ps : list FrontierParticipant) (floor : Z)
    (rows markers : list RetainedCausalRecord) (candidates : list ImmutableSequenceCandidate)
    : Prop := {
  ef_conversation : cf_conversation_id f' = cf_conversation_id f;
  ef_slots : cf_identity_slot_limit f' = cf_identity_slot_limit f;
  ef_participants : air_participants (cf_active_identities f') = ps;
  ef_floor : cf_retained_floor f' = floor;
  ef_rows : cf_retained_records f' = rows;
  ef_markers : cf_marker_records f' = markers;
  ef_candidates : scf_immutable_candidates (cf_sequence f') = candidates;
  ef_recovery : no_recovery f -> no_recovery f';
}.

Arguments ef_conversation {f f' ps floor rows markers candidates} _.
Arguments ef_slots {f f' ps floor rows markers candidates} _.
Arguments ef_participants {f f' ps floor rows markers candidates} _.
Arguments ef_floor {f f' ps floor rows markers candidates} _.
Arguments ef_rows {f f' ps floor rows markers candidates} _.
Arguments ef_markers {f f' ps floor rows markers candidates} _.
Arguments ef_candidates {f f' ps floor rows markers candidates} _.
Arguments ef_recovery {f f' ps floor rows markers candidates} _.

Lemma agree_recovery s o : counters_agree s o -> scf_recovery s = None -> ocf_recovery o = None.
Proof. intros (_ & H & _) E. rewrite E in H. by destruct (ocf_recovery o). Qed.
Lemma inv_no_recovery f : frontier_inv f -> scf_recovery (cf_sequence f) = None -> no_recovery f.
Proof. intros (_ & _ & _ & Ha & _) E. split; [done|]. by eapply agree_recovery. Qed.

Lemma transition_effect f active rows ls lo f' : frontier_inv f -> sl_ok ls -> ledger_ok lo ->
  apply_live_transition f active rows ls lo = Ok f' ->
  effect f f' active (cf_retained_floor f) (cf_retained_records f ++ rows) (cf_marker_records f) []
  /\ no_recovery f' /\ scf_immutable_candidates (cf_sequence f) = []
  /\ map rcr_delivery_seq rows
     = seqZ (sl_high_watermark (scf_ledger (cf_sequence f)) + 1) (zlen rows)
  /\ scf_ledger (cf_sequence f') = ls.
Proof.
  intros Hf Hls Hlo. unfold apply_live_transition.
  destruct (live_transition_blocked f) eqn:Ebl; [done|]. apply not_blocked in Ebl as (Hc & _).
  destruct (ActiveIdentityRanks_try_new _ _ _) as [a|] eqn:Ea; [|done].
  apply try_new_Ok in Ea as [-> Hr]. destruct (rows_positioned _ _ _) eqn:Ep; simpl; [|done].
  destruct (rebuild_unreserved_frontiers _ _ _) as [[s o]|] eqn:Eb; [|done]. intros [= <-].
  apply rebuild_unreserved_ok in Eb as ((_ & _ & Hag & _) & El & _ & Hn & Hrec); try done.
  2:{ by eapply ranks_NoDup. }
  pose proof (agree_recovery _ _ Hag Hrec). unfold rows_positioned in Ep. apply andb_prop in Ep as [Ep _].
  destruct (checked_add _ _ _) as [first|] eqn:Ec; [|done]. apply checked_add_Some in Ec as [-> _].
  apply rows_consecutive_spec in Ep. by split_and!.
Qed.

Lemma pending_effect f id epoch d k lo f' : frontier_inv f -> ledger_ok lo ->
  apply_pending_binding_terminal f id epoch d k lo = Ok f' ->
  exists p, find_participant id (air_participants (cf_active_identities f)) = Some p
  /\ fp_binding p = FB_Bound epoch
  /\ effect f f'
       (set_participant id (mkFrontierParticipant id (fp_cursor p) (FB_Detached epoch))
          (air_participants (cf_active_identities f)))
       (cf_retained_floor f) (cf_retained_records f) (cf_marker_records f)
       [ISC_BindingTerminal d k (mkBindingTerminalOwner id epoch)]
  /\ scf_immutable_candidates (cf_sequence f) = [].
Proof.
  intros Hf Hlo H. pose proof (apply_pending_ok _ _ _ _ _ _ _ Hf Hlo H) as Hf'. revert H.
  destruct Hf as (Hranks & Hs & Ho & Hagree & Hk & Hrows). unfold apply_pending_binding_terminal.
  destruct (live_transition_blocked f) eqn:Ebl; [done|]. apply not_blocked in Ebl as (Hc & _).
  destruct (find_participant id _) as [p|] eqn:Ef; [|done].
  case_bool_decide as Eb; simpl; [|done]. set (new := mkFrontierParticipant _ _ _).
  destruct (ActiveIdentityRanks_try_new _ _ _) as [a|] eqn:Ea; [|done].
  apply try_new_Ok in Ea as [-> Hr]. set (a := mkActiveIdentityRanks _).
  destruct (rebuild_pending_terminal_frontiers _ _ _ _ _ _) as [[s o]|] eqn:Er; [|done].
  intros [= <-]. exists p. split_and!; try done.
  rewrite rebuild_pending_exact in Er by (try done; apply Hs).
  destruct (_ || _ || _ || _) eqn:Ep; [done|]. apply pending_placed_spec in Ep as (_ & _ & _ & -> & _).
  simpl in Er. destruct (unreserved_ledgers _ _ _ _ _); [|done]. destruct (rebuild_fits _ _); [|done].
  injection Er as <- <-. by constructor.
Qed.

Lemma drain_terminal_effect f owner k f' r : frontier_inv f ->
  drain_first_binding_terminal f owner k = Ok (f', r) ->
  effect f f' (air_participants (cf_active_identities f)) (cf_retained_floor f)
    (cf_retained_records f ++ [r]) (cf_marker_records f) []
  /\ r = mkRetainedCausalRecord (sl_high_watermark (scf_ledger (cf_sequence f)) + 1) k
           (RCK_BindingTerminal owner)
  /\ markers_of (scf_immutable_candidates (cf_sequence f)) = [].
Proof.
  intros Hf H. pose proof (drain_terminal_ok _ _ _ _ _ Hf H) as Hf'. revert H.
  destruct Hf as (Hranks & Hs & Ho & _). unfold drain_first_binding_terminal.
  destruct (validate_first_terminal_candidate f owner k) as [[[d k'] w]|] eqn:E; [|done].
  apply first_terminal_Ok in E as (Ec & -> & -> & Ed & Hd & _).
  destruct (Z.ltb_spec (sc_binding_terminals (sl_claims (scf_ledger (cf_sequence f)))) 1); [done|].
  destruct (SequenceLedger_try_new _ _) as [l|] eqn:El; [|done].
  destruct (ActiveIdentityRanks_try_new _ _ _) as [a|] eqn:Ea; [|done].
  apply try_new_Ok in Ea as [-> Hr].
  destruct (rebuild_unreserved_frontiers _ _ _) as [[s o]|] eqn:Eb; [|done]. intros [= <- <-].
  pose proof Hs as ((Hh & (Hc1 & Hc2 & Hc3) & _) & _).
  apply try_new_ledger in El as (Hl & _); [|unfold sc_ok; simpl; mlia|mlia].
  apply rebuild_unreserved_ok in Eb as (_ & _ & _ & Hn & Hrec);
    [|done|apply Ho|by eapply ranks_NoDup].
  rewrite Ec. subst d. split_and!; try done. constructor; try done.
  intros _. by apply inv_no_recovery.
Qed.

Definition marker_row (m : MarkerCandidateAuthority) : RetainedCausalRecord :=
  mkRetainedCausalRecord (mca_delivery_seq m) (mca_admission_order m)
    (RCK_CompactionMarker (ao_participant_index (mca_admission_order m)) (mca_provenance m)).
Lemma drain_marker_effect f c : drain_next_marker_core f = Ok c ->
  exists m rest, scf_immutable_candidates (cf_sequence f) = ISC_Marker m :: rest
  /\ mca_delivery_seq m = sl_high_watermark (scf_ledger (cf_sequence f)) + 1
  /\ effect f (mdc_frontiers c) (air_participants (cf_active_identities f)) (cf_retained_floor f)
       (cf_retained_records f ++ [marker_row m]) (cf_marker_records f ++ [marker_row m]) rest
  /\ vmr_record (mdc_record c) = marker_row m
  /\ vmr_delivery_seq (mdc_record c) = mca_delivery_seq m
  /\ vmc_candidate (mdc_candidate c) = m.
Proof.
  unfold drain_next_marker_core.
  destruct (scf_immutable_candidates (cf_sequence f)) as [|[d k w|m] rest] eqn:Ec; [done|done|].
  destruct (checked_add _ _ _) as [next|] eqn:En; simpl; [|done].
  apply checked_add_Some in En as [-> Hnext].
  destruct (Z.eqb_spec (mca_delivery_seq m) (sl_high_watermark (scf_ledger (cf_sequence f)) + 1)) as [Ed|];
    simpl; [|done].
  destruct (order_is_above_high _ _); [done|].
  rewrite (marker_candidate_found f m rest) by done. simpl. destruct (release_order_key _ _); simpl; [|done].
  destruct (_ <? 1); simpl; [done|].
  destruct (SequenceLedger_try_new _ _); simpl; [|done]. intros [= <-]. simpl.
  exists m, rest. by split_and!.
Qed.

Lemma identity_effect f p f' : apply_live_identity f p = Ok f' ->
  exists q, find_participant (fp_participant_index p) (air_participants (cf_active_identities f)) = Some q
  /\ fp_cursor q <= fp_cursor p <= sl_high_watermark (scf_ledger (cf_sequence f))
  /\ effect f f' (set_participant (fp_participant_index p) p (air_participants (cf_active_identities f)))
       (cf_retained_floor f) (cf_retained_records f) (cf_marker_records f)
       (scf_immutable_candidates (cf_sequence f)).
Proof.
  unfold apply_live_identity. destruct (find_participant _ _) as [q|] eqn:Ef; [|done].
  destruct (_ || _) eqn:E; [done|]. apply orb_false_elim in E as [E1 E2]. breflect.
  intros [= <-]. exists q. by split_and!.
Qed.

Definition from_floor (floor : Z) (rows : list RetainedCausalRecord) : list RetainedCausalRecord :=
  List.filter (fun r => floor <=? rcr_delivery_seq r) rows.
Lemma fate_effect f id epoch cursor floor reserve plan : frontier_inv f ->
  prepare_binding_fate_transition f id epoch cursor floor reserve = Ok plan ->
  exists p, find_participant id (air_participants (cf_active_identities f)) = Some p
  /\ fp_cursor p = cursor
  /\ cf_retained_floor f <= floor <= sl_high_watermark (scf_ledger (cf_sequence f)) + 1
  /\ Forall (fun r => floor <= rcr_delivery_seq r) (cf_marker_records f)
  /\ effect f (install_binding_fate_transition f plan)
       (set_participant id
          (mkFrontierParticipant id
             (if reserve then cursor else sl_high_watermark (scf_ledger (cf_sequence f)))
             (FB_Detached epoch)) (air_participants (cf_active_identities f)))
       floor (from_floor floor (cf_retained_records f)) (from_floor floor (cf_marker_records f))
       (scf_immutable_candidates (cf_sequence f)).
Proof.
  intros Hf. unfold prepare_binding_fate_transition.
  destruct (find_participant id _) as [p|] eqn:Ef; [|done].
  pose proof (find_participant_elem _ _ _ Ef) as [Hp Hi].
  destruct (_ || _) eqn:E; [done|]. apply orb_false_elim in E as [E1 E2].
  apply negb_false_iff, Z.eqb_eq in E1.
  pose proof (check_fate_floor_Ok f floor Hf) as Hc.
  destruct (check_fate_floor f floor) as [[]|]; [|done].
  destruct (proj1 Hc eq_refl) as [Hfl Hmk].
  destruct (ActiveIdentityRanks_try_new _ _ _) as [a|] eqn:Ea; simpl; [|done].
  apply try_new_Ok in Ea as [-> Hr]. intros [= <-]. exists p. split_and!; try done; lia.
Qed.
Lemma floor_effect f floor f' : frontier_inv f ->
  install_finalized_binding_fate_floor f floor = Ok f' ->
  cf_retained_floor f <= floor <= sl_high_watermark (scf_ledger (cf_sequence f)) + 1
  /\ Forall (fun r => floor <= rcr_delivery_seq r) (cf_marker_records f)
  /\ effect f f' (air_participants (cf_active_identities f)) floor
       (from_floor floor (cf_retained_records f)) (from_floor floor (cf_marker_records f))
       (scf_immutable_candidates (cf_sequence f)).
Proof.
  intros Hf. unfold install_finalized_binding_fate_floor.
  pose proof (check_fate_floor_Ok f floor Hf) as Hc.
  destruct (check_fate_floor f floor) as [[]|]; [|done].
  destruct (proj1 Hc eq_refl) as [Hfl Hmk]. intros [= <-]. split_and!; try done; lia.
Qed.

(** The rows a Leave appends: the terminal it finalizes, if any, and the exit. *)
Lemma leave_effect {EF V LF} f pid ended terminal left (commit : LeaveCommit EF V LF ClaimFrontiers) :
  frontier_inv f -> left_as f pid ended terminal left commit ->
  exists ps' retired, remove_participant pid (air_participants (cf_active_identities f)) = Some ps'
  /\ lvc_identity commit = IS_Retired retired
  /\ effect f (lvc_frontiers commit) ps' (cf_retained_floor f)
       (sort_by_key rcr_delivery_seq
          (cf_retained_records f
           ++ leave_records pid terminal left (ao_transaction_order (ri_left_admission_order retired))))
       (List.filter (fun r => negb (is_marker_of pid r)) (cf_marker_records f)) []
  /\ lc_left_delivery_seq (ri_committed_result retired) = left
  /\ ri_left_admission_order retired
     = mkAdmissionOrder (ao_transaction_order (ri_left_admission_order retired)) CP_MembershipExit pid
  /\ markers_of (scf_immutable_candidates (cf_sequence f)) = []
  /\ map rcr_delivery_seq
       (leave_records pid terminal left (ao_transaction_order (ri_left_admission_order retired)))
     = seqZ (sl_high_watermark (scf_ledger (cf_sequence f)) + 1) (1 + of_bool (is_some terminal)).
Proof.
  intros Hf Hl. pose proof (left_as_ok _ _ _ _ _ _ Hf Hl) as [Hf' _].
  destruct Hl as (pending & o' & major & retired & Hends & Hlane & Hfin & Hid & Hseq & Hord).
  revert Hfin. unfold finish_leave_claims_of; simpl.
  pose proof Hf as (_ & ((Hh & (Hlu & _) & _) & (C1 & _) & _) & _).
  destruct (checked_add _ _ 1) as [first|] eqn:Ef; simpl; [|done].
  destruct (if is_some terminal then _ else _) as [expected|] eqn:Ee; simpl; [|done].
  destruct (expected_left_spec _ _ _ _ _ Ef Ee) as (-> & He & Heu).
  destruct (Z.eqb_spec left expected) as [->|]; simpl; [|done].
  destruct (leave_candidates_match _ _ _ _) eqn:Ec; simpl; [|done].
  pose proof Ec as Ec'. apply leave_candidates_of in Ec' as [Hcand Hterm].
  destruct (remove_participant _ _) as [ps'|] eqn:Er; simpl; [|done].
  pose proof Er as Er'. apply remove_participant_perm in Er' as (p & Hp & Hperm & Hsub).
  destruct (leave_sequence _ _ _ _ _) as [s'|] eqn:El; simpl; [|done].
  destruct (_ || _) eqn:Ex; [done|]. intros [= Heq]. exists ps', retired. rewrite Hord. simpl.
  pose proof (zlen_nonneg ps'). pose proof (of_bool_range (is_some terminal)).
  apply leave_sequence_shape in El; [|mlia|].
  2:{ unfold air_len in C1. rewrite (zlen_perm _ _ Hperm), zlen_cons in C1. mlia. }
  split_and!; try done.
  - rewrite <- Heq. constructor; try done.
    + simpl. apply filter_ext. intros r. unfold is_marker_of. by destruct (rcr_kind r).
    + exact (sh_candidates _ _ _ _ _ _ El).
    + intros [Hr _]. rewrite Heq. apply inv_no_recovery; [done|]. rewrite <- Heq. simpl.
      pose proof (sh_block _ _ _ _ _ _ El) as Hb. unfold left_block in Hb. by rewrite Hr in Hb.
  - clear -Ec. unfold leave_candidates_match in Ec.
    destruct terminal, (scf_immutable_candidates (cf_sequence f)) as [|[] [|]]; done.
  - by apply leave_rows_at.
Qed.

(** A projected record: its row, the markers it made necessary, and the floor it moved. *)
Lemma projection_effect f input p : frontier_inv f -> cursors_ok f ->
  u64 (ori_observer_progress input) ->
  project_ordinary_record f input = Ok (OPD_Projected p) ->
  exists state search, planned (projection_facts f input) state search (por_plan p)
  /\ effect f (por_frontiers p) (air_participants (cf_active_identities f)) (cs_floor search)
       (from_floor (cs_floor search) (cf_retained_records f ++ [ofp_caller_record (por_plan p)]))
       (from_floor (cs_floor search) (cf_marker_records f))
       (map ISC_Marker (ofp_marker_candidates (por_plan p))).
Proof.
  intros Hf Hc Hobs. unfold project_ordinary_record. destruct (negb _); [done|].
  destruct (project_ordinary_fixed_point _) as [[c|plan]|] eqn:Ek; try done.
  apply planned_spec in Ek as (state & search & Hplan); [|by apply facts_of_frontiers].
  destruct (check_observer_floor _ _ _); [|done]. destruct (check_remaining_closure _ _ _ _ _); [|done].
  destruct (apply_ordinary_projection _ _ _ _) as [p'|[]] eqn:Ea; [|done]. intros [= <-].
  unfold apply_ordinary_projection in Ea. destruct (checked_add _ _ _); [|done].
  destruct (preflight_ordinary_sequence_owners _ _) as [[]|] eqn:E1; [|done].
  destruct (preflight_ordinary_order_owners _) as [[]|]; [|done].
  destruct (validate_cross_counter _ _) as [[]|]; [|done]. injection Ea as <-.
  exists state, search. split; [done|]. apply preflight_sequence in E1 as [E1 _].
  constructor; simpl; try done.
  - apply Hplan.
  - apply Hplan.
  - by rewrite (pl_floor _ _ _ _ Hplan).
  - by rewrite E1.
  - intros [H1 H2]. split; simpl; by rewrite ?H1, ?H2.
Qed.

(** ** Accountings *)

Lemma try_new_fields state credits anchors es eo k b cap used limit a :
  ClosureAccounting_try_new state credits anchors es eo k b cap used limit = Ok a ->
  a = mkClosureAccounting state credits anchors es eo k b cap used limit /\ anchors <= credits.
Proof.
  unfold ClosureAccounting_try_new. do 2 (destruct (_ : bool); [done|]).
  destruct (Z.ltb_spec credits anchors); [done|]. do 2 (destruct (_ : bool); [done|]).
  destruct (check_closure_state _ _ _ _); [|done]. by intros [= <-].
Qed.
Lemma try_new_accounting state credits anchors es eo k b cap used limit a :
  wf_closure_state state -> u64 credits -> u64 anchors -> u64 es -> u64 eo -> rv_ok k -> wrv_ok b ->
  rv_ok cap -> u64 used -> u64 limit ->
  ClosureAccounting_try_new state credits anchors es eo k b cap used limit = Ok a ->
  accounting_ok a
  /\ a = mkClosureAccounting state credits anchors es eo k b cap used limit /\ anchors <= credits.
Proof.
  intros ? ? ? ? ? ? ? ? ? ? HH. pose proof (try_new_fields _ _ _ _ _ _ _ _ _ _ _ HH) as [-> ?].
  split; [|done]. unfold accounting_ok; simpl. split_and!; done.
Qed.

Lemma charge_baseline_spec charges : forall b b', Forall charge_ok charges -> wrv_ok b ->
  charge_baseline b charges = Some b' ->
  b' = mkWRV (wrv_entries b + charge_entries charges) (wrv_bytes b + charge_bytes charges) /\ wrv_ok b'.
Proof.
  unfold charge_entries, charge_bytes.
  induction charges as [|c cs IH]; intros b b' Hc Hb; simpl.
  - intros [= <-]. destruct b; simpl. by rewrite !Z.add_0_r.
  - apply Forall_cons in Hc as [[[H1 H2] _] Hc]. intros H. destruct Hb as [Hb1 Hb2].
    destruct (checked_add _ (wrv_entries b) _) as [e|] eqn:E1; simpl in H; [|done].
    destruct (checked_add _ (wrv_bytes b) _) as [y|] eqn:E2; simpl in H; [|done].
    apply checked_add_Some in E1 as [-> ?], E2 as [-> ?].
    apply IH in H as [-> ?]; [|done|unfold wrv_ok; simpl; mlia]. simpl in *. split; [f_equal; lia|done].
Qed.
Lemma release_baseline_spec charges : forall b b', Forall charge_ok charges -> wrv_ok b ->
  release_baseline b charges = Some b' ->
  b' = mkWRV (wrv_entries b - charge_entries charges) (wrv_bytes b - charge_bytes charges) /\ wrv_ok b'.
Proof.
  unfold charge_entries, charge_bytes.
  induction charges as [|c cs IH]; intros b b' Hc Hb; simpl.
  - intros [= <-]. destruct b; simpl. by rewrite !Z.sub_0_r.
  - apply Forall_cons in Hc as [[[H1 H2] _] Hc]. intros H. destruct Hb as [Hb1 Hb2].
    unfold checked_sub in H. destruct (Z.ltb_spec (wrv_entries b) (rv_entries (rrc_encoded_charge c)));
      simpl in H; [done|].
    destruct (Z.ltb_spec (wrv_bytes b) (rv_bytes (rrc_encoded_charge c))); simpl in H; [done|].
    apply IH in H as [-> ?]; [|done|unfold wrv_ok; simpl; mlia]. simpl in *. split; [f_equal; lia|done].
Qed.

(** An accounting that keeps its cap and its churn. *)
Record reaccounted (a a' : ClosureAccounting) (state : ClosureState) (credits anchors : Z)
    (entries bytes : Z) : Prop := {
  ra_ok : accounting_ok a';
  ra_state : ca_state a' = state;
  ra_credits : ca_marker_capacity_credits a' = credits;
  ra_anchors : ca_marker_anchors a' = anchors;
  ra_order : anchors <= credits;
  ra_baseline : ca_baseline a' = mkWRV entries bytes;
  ra_cap : ca_configured_cap a' = ca_configured_cap a;
  ra_churn : ca_episode_churn_used a' = ca_episode_churn_used a
             /\ ca_episode_churn_limit a' = ca_episode_churn_limit a;
}.

Arguments ra_ok {a a' state credits anchors entries bytes} _.
Arguments ra_state {a a' state credits anchors entries bytes} _.
Arguments ra_credits {a a' state credits anchors entries bytes} _.
Arguments ra_anchors {a a' state credits anchors entries bytes} _.
Arguments ra_order {a a' state credits anchors entries bytes} _.
Arguments ra_baseline {a a' state credits anchors entries bytes} _.
Arguments ra_cap {a a' state credits anchors entries bytes} _.
Arguments ra_churn {a a' state credits anchors entries bytes} _.

Lemma after_rows_with_state a charges credits anchors a' : accounting_ok a ->
  Forall charge_ok charges -> u64 credits -> u64 anchors ->
  accounting_after_rows_with_state a charges (ca_state a) (mkMarkerAccounting credits anchors)
    (ca_edge_sequence_claims a) (ca_edge_order_position_claims a) (ca_edge_k_remaining a) = Some a' ->
  reaccounted a a' (ca_state a) credits anchors
    (wrv_entries (ca_baseline a) + charge_entries charges)
    (wrv_bytes (ca_baseline a) + charge_bytes charges).
Proof.
  intros (Hst & (? & ? & ? & ? & ? & ?) & (? & Hb & ?) & _) Hc Hcr Han.
  unfold accounting_after_rows_with_state. simpl.
  destruct (charge_baseline _ _) as [b|] eqn:Eb; simpl; [|done].
  apply charge_baseline_spec in Eb as [-> Hb']; [|done|done]. unfold ok.
  destruct (ClosureAccounting_try_new _ _ _ _ _ _ _ _ _ _) eqn:En; [|done]. intros [= <-].
  apply try_new_accounting in En as (? & -> & ?); try done.
Qed.

Lemma after_rows a charges a' : accounting_ok a -> Forall charge_ok charges ->
  accounting_after_rows a charges = Some a' ->
  reaccounted a a' (ca_state a) (ca_marker_capacity_credits a) (ca_marker_anchors a)
    (wrv_entries (ca_baseline a) + charge_entries charges)
    (wrv_bytes (ca_baseline a) + charge_bytes charges).
Proof.
  intros Ha Hc. pose proof Ha as (_ & (? & ? & _) & _). by apply after_rows_with_state.
Qed.
Lemma after_floor a released a' : accounting_ok a -> Forall charge_ok released ->
  accounting_after_floor a released = Some a' ->
  reaccounted a a' (ca_state a) (ca_marker_capacity_credits a) (ca_marker_anchors a)
    (wrv_entries (ca_baseline a) - charge_entries released)
    (wrv_bytes (ca_baseline a) - charge_bytes released).
Proof.
  intros (Hst & (? & ? & ? & ? & ? & ?) & (? & Hb & ?) & _) Hc. unfold accounting_after_floor.
  destruct (release_baseline _ _) as [b|] eqn:Eb; simpl; [|done].
  apply release_baseline_spec in Eb as [-> Hb']; [|done|done]. unfold ok.
  destruct (ClosureAccounting_try_new _ _ _ _ _ _ _ _ _ _) eqn:En; [|done]. intros [= <-].
  apply try_new_accounting in En as (? & -> & ?); try done.
Qed.
Lemma after_crossings a crossed a' : accounting_ok a -> 0 <= crossed ->
  accounting_after_marker_crossings a crossed = Some a' ->
  reaccounted a a' (ca_state a) (ca_marker_capacity_credits a) (ca_marker_anchors a - crossed)
    (wrv_entries (ca_baseline a)) (wrv_bytes (ca_baseline a))
  /\ crossed <= ca_marker_anchors a.
Proof.
  intros Ha Hx. pose proof Ha as (_ & (Hc & Hn & _) & _).
  unfold accounting_after_marker_crossings, checked_sub.
  destruct (Z.ltb_spec (ca_marker_anchors a) crossed); simpl; [done|]. intros HH.
  apply after_rows_with_state in HH; [|done|constructor|done|mlia]. split; [|lia].
  by rewrite !Z.add_0_r in HH.
Qed.
Lemma after_leave a charges retired a' : accounting_ok a -> Forall charge_ok charges ->
  Forall charge_ok (option_list retired) -> accounting_after_leave a charges retired = Some a' ->
  reaccounted a a' (ca_state a) (ca_marker_capacity_credits a - of_bool (is_some retired))
    (ca_marker_anchors a - of_bool (is_some retired))
    (wrv_entries (ca_baseline a) + charge_entries (charges ++ option_list retired))
    (wrv_bytes (ca_baseline a) + charge_bytes (charges ++ option_list retired))
  /\ of_bool (is_some retired) <= ca_marker_anchors a.
Proof.
  intros Ha Hc Hr. pose proof Ha as (_ & (Hcr & Hn & _) & _). pose proof (of_bool_range (is_some retired)).
  unfold accounting_after_leave, checked_sub.
  destruct (Z.ltb_spec (ca_marker_capacity_credits a) (of_bool (is_some retired))); simpl; [done|].
  destruct (Z.ltb_spec (ca_marker_anchors a) (of_bool (is_some retired))); simpl; [done|]. intros E.
  apply after_rows_with_state in E; [|done|by apply Forall_app|mlia|mlia]. split; [done|lia].
Qed.

(** ** Ledgers *)

Lemma sequence_new h c l : sc_ok c -> u64 h -> ok (SequenceLedger_try_new h c) = Some l ->
  sl_ok l /\ sl_high_watermark l = h.
Proof.
  intros Hc Hh. destruct (SequenceLedger_try_new h c) eqn:E; simpl; [|done]. intros [= <-].
  by apply try_new_ledger in E as (? & ? & _).
Qed.
Lemma enrollment_sequence_ok l h l' : sl_ok l -> u64 h -> enrollment_sequence l h = Some l' -> sl_ok l'.
Proof.
  intros (_ & (? & ? & ?) & _) Hh. unfold enrollment_sequence.
  destruct (checked_add _ (sc_live_members _) _) as [x|] eqn:E1; simpl; [|done].
  destruct (checked_add _ (sc_binding_terminals _) _) as [y|] eqn:E2; simpl; [|done].
  apply checked_add_Some in E1 as [-> ?], E2 as [-> ?]. intros HH.
  apply sequence_new in HH as [? _]; [done|unfold sc_ok; simpl; mlia|done].
Qed.
Lemma detached_attach_sequence_ok l h l' : sl_ok l -> u64 h ->
  detached_attach_sequence l h = Some l' -> sl_ok l'.
Proof.
  intros (_ & (? & ? & ?) & _) Hh. unfold detached_attach_sequence.
  destruct (checked_add _ _ _) as [x|] eqn:E1; simpl; [|done].
  apply checked_add_Some in E1 as [-> ?]. intros HH.
  apply sequence_new in HH as [? _]; [done|unfold sc_ok; simpl; mlia|done].
Qed.
Lemma superseding_attach_sequence_ok l rows l' : sl_ok l ->
  superseding_attach_sequence l rows = Some l' -> sl_ok l'.
Proof.
  intros ((? & ?) & Hc & _). unfold superseding_attach_sequence.
  destruct (last rows) as [r|]; simpl; [|done]. destruct (head rows) as [r'|]; simpl; [|done].
  destruct (checked_add _ (sl_high_watermark _) _) as [x|] eqn:E1; simpl; [|done].
  destruct (checked_add _ (rcr_delivery_seq r') _) as [y|] eqn:E2; simpl; [|done].
  apply checked_add_Some in E1 as [-> ?], E2 as [-> ?].
  destruct (_ && _) eqn:E; [|done]. apply andb_prop in E as [? ?]. breflect. intros HH.
  apply sequence_new in HH as [? _]; [done|done|mlia].
Qed.
Lemma detach_sequence_ok l h l' : sl_ok l -> u64 h -> detach_sequence l h = Some l' -> sl_ok l'.
Proof.
  intros (_ & (? & ? & ?) & _) Hh. unfold detach_sequence, checked_sub.
  destruct (_ <? _) eqn:E1; simpl; [done|]. breflect. intros HH.
  apply sequence_new in HH as [? _]; [done|unfold sc_ok; simpl; mlia|done].
Qed.

Lemma next_order_ok l major c l' : ledger_ok l -> claims_ok c -> next_order l major c = Some l' ->
  ledger_ok l' /\ major = next_major (ol_high l).
Proof.
  intros (Hh & _) Hc. unfold next_order.
  destruct (match ol_high l with OH_Empty => _ | OH_Allocated _ => _ end) as [e|] eqn:E; simpl; [|done].
  destruct (Z.eqb_spec major e) as [->|]; [|done].
  assert (u64 e /\ e = next_major (ol_high l)) as [He ->].
  { destruct (ol_high l) as [|h]; simpl in *; [injection E as <-; by split; [mlia|]|].
    apply checked_add_Some in E as [-> ?]. split; [mlia|done]. }
  destruct (OrderLedger_try_new _ _) as [l0|] eqn:En; [|done]. simpl. intros [= <-]. split; [|done].
  assert (l0 = mkOrderLedger (OH_Allocated (next_major (ol_high l))) c) as ->.
  { unfold OrderLedger_try_new in En. destruct (_ <? _); [done|]. by injection En. }
  by apply OrderLedger_try_new_spec in En.
Qed.
Lemma order_claims_ok a x r r' c : u64 a -> u64 x -> ok (OrderClaims_new a x r r') = Some c -> claims_ok c.
Proof.
  intros Ha Hx. unfold OrderClaims_new. destruct (Bool.eqb r r') eqn:E; simpl; [|done]. intros [= <-].
  apply Bool.eqb_prop in E. by split_and!.
Qed.
Lemma enrollment_order_ok l major l' : ledger_ok l -> enrollment_order l major = Some l' -> ledger_ok l'.
Proof.
  intros Hl. pose proof Hl as (_ & (? & ? & _) & _). unfold enrollment_order.
  destruct (checked_add _ (oc_active_binding_terminals _) _) as [x|] eqn:E1; simpl; [|done].
  destruct (checked_add _ (oc_membership_exits _) _) as [y|] eqn:E2; simpl; [|done].
  apply checked_add_Some in E1 as [-> ?], E2 as [-> ?].
  destruct (ok _) eqn:E; simpl; [|done]. apply order_claims_ok in E; [|mlia|mlia]. intros HH.
  by apply next_order_ok in HH as [? _].
Qed.
Lemma detached_attach_order_ok l major l' : ledger_ok l -> detached_attach_order l major = Some l' ->
  ledger_ok l'.
Proof.
  intros Hl. pose proof Hl as (_ & (? & ? & _) & _). unfold detached_attach_order.
  destruct (checked_add _ _ _) as [x|] eqn:E1; simpl; [|done]. apply checked_add_Some in E1 as [-> ?].
  destruct (ok _) eqn:E; simpl; [|done]. apply order_claims_ok in E; [|mlia|mlia]. intros HH.
  by apply next_order_ok in HH as [? _].
Qed.
Lemma detach_order_ok l major l' : ledger_ok l -> detach_order l major = Some l' -> ledger_ok l'.
Proof.
  intros Hl. pose proof Hl as (_ & (? & ? & _) & _). unfold detach_order, checked_sub.
  destruct (_ <? _) eqn:E1; simpl; [done|]. breflect.
  destruct (ok _) eqn:E; simpl; [|done]. apply order_claims_ok in E; [|mlia|mlia]. intros HH.
  by apply next_order_ok in HH as [? _].
Qed.
