(* ===== verification/OwnerRuns.v ===== *)
(** * The live owner: every operation keeps the invariant

    Each operation of [LiveOwner] and [OwnerFate] from an owner that satisfies
    [owner_inv] leads to one that does; a refused operation gives the owner back as it
    was.  Composed with the initial enrollment this covers every owner a conversation
    can reach.  Of the values handed in only their machine ranges are assumed. *)
From stdpp Require Import sorting.
From S2P Require Import Prelude OwnerInv Algebra Tags Wire Response Authority Order Sequence Edge.
From S2P Require Import Binding EdgeSteps Member Detach Leave Attach Lookup Capacity Closure.
From S2P Require Import Cursor AckOperations Frontier FrontierNumeric FrontierLive.
From S2P Require Import RecordProjection RecordOperations FrontierInit EnrollmentClosure.
From S2P Require Import EnrollmentOperation FrontierRestore FrontierLeave LiveOwner OwnerFate.
From S2P Require Import FrontierInv FrontierRuns ProjectionRuns ProjectionCharges EnrollmentRuns.
From S2P Require Import LeaveRuns.

(** ** Rows appended by a lifecycle transition *)

Lemma charges_match_spec rows : forall charges, charges_match rows charges = true ->
  map charge_key charges = map row_key rows /\ Forall one_entry charges.
Proof.
  unfold charges_match. intros charges H. apply andb_prop in H as [Hl H].
  apply bool_decide_eq_true in Hl. revert charges Hl H.
  induction rows as [|r rows IH]; intros [|c charges] Hl H; simpl in *; try done.
  apply andb_prop in H as [H H']. apply andb_prop in H as [H H3]. apply andb_prop in H as [H1 H2].
  apply bool_decide_eq_true in H2. breflect. destruct (IH charges ltac:(lia) H') as [-> ?].
  split; [|by constructor]. unfold charge_key, row_key. congruence.
Qed.

Lemma rows_positioned_spec cur res rows : sl_ok cur -> rows_positioned cur res rows = true ->
  map rcr_delivery_seq rows = seqZ (sl_high_watermark cur + 1) (zlen rows)
  /\ (forall r, head rows = Some r -> u64 (rcr_delivery_seq r))
  /\ (rows <> [] -> sl_high_watermark res = sl_high_watermark cur + zlen rows).
Proof.
  intros ((Hh & _) & _). unfold rows_positioned. intros H. apply andb_prop in H as [H1 H2].
  destruct (checked_add _ _ _) as [first|] eqn:Ec; [|done]. apply checked_add_Some in Ec as [-> Hu].
  apply rows_consecutive_spec in H1. split_and!; [done| |].
  - intros r Hr. destruct rows as [|r' rows]; [done|]. injection Hr as ->. simpl in H1.
    rewrite zlen_cons in H1. pose proof (zlen_nonneg rows). rewrite seqZ_cons in H1 by lia.
    injection H1 as H1 _. mlia.
  - intros Hne. destruct (last rows) as [r|] eqn:El; [|by apply last_None in El].
    apply Z.eqb_eq in H2. rewrite <- H2. apply last_Some in El as [l ->].
    rewrite zlen_app in *. change (zlen [r]) with 1 in *. pose proof (zlen_nonneg l).
    rewrite map_app, seqZ_split in H1 by lia. apply app_inj_2 in H1 as [_ H1]; [|done].
    simpl in H1. rewrite seqZ_cons in H1 by lia. injection H1 as H1. lia.
Qed.

(** The owner with rows appended, everything else as it was. *)
Record appended (o o' : LiveFrontierOwner) (active : list FrontierParticipant)
    (rows : list RetainedCausalRecord) (charges : list RetainedRecordCharge) : Prop := {
  ap_effect : effect (lfo_frontiers o) (lfo_frontiers o') active
    (cf_retained_floor (lfo_frontiers o)) (cf_retained_records (lfo_frontiers o) ++ rows)
    (cf_marker_records (lfo_frontiers o)) [];
  ap_frontiers : frontier_inv (lfo_frontiers o');
  ap_recovery : no_recovery (lfo_frontiers o');
  ap_no_markers : markers_of (scf_immutable_candidates (cf_sequence (lfo_frontiers o))) = [];
  ap_accounting : reaccounted (lfo_closure_accounting o) (lfo_closure_accounting o')
    (ca_state (lfo_closure_accounting o))
    (ca_marker_capacity_credits (lfo_closure_accounting o))
    (ca_marker_anchors (lfo_closure_accounting o))
    (wrv_entries (ca_baseline (lfo_closure_accounting o)) + charge_entries charges)
    (wrv_bytes (ca_baseline (lfo_closure_accounting o)) + charge_bytes charges);
  ap_charges : lfo_retained_charges o' = lfo_retained_charges o ++ charges;
  ap_new : charges_ok rows charges;
}.

Arguments ap_effect {o o' active rows charges} _.
Arguments ap_frontiers {o o' active rows charges} _.
Arguments ap_recovery {o o' active rows charges} _.
Arguments ap_no_markers {o o' active rows charges} _.
Arguments ap_accounting {o o' active rows charges} _.
Arguments ap_charges {o o' active rows charges} _.
Arguments ap_new {o o' active rows charges} _.

Lemma charges_ok_app rows charges rows' charges' : charges_ok rows charges ->
  charges_ok rows' charges' -> charges_ok (rows ++ rows') (charges ++ charges').
Proof.
  intros [H1 H2] [H3 H4]. split; [|by apply Forall_app]. by rewrite !map_app, H1, H3.
Qed.
Lemma appended_inv o o' active rows charges : owner_inv o ->
  Forall (fun p => 0 <= fp_cursor p) active -> appended o o' active rows charges -> owner_inv o'.
Proof.
  intros Ho Hc [He Hf Hr _ Ha Hch Hnew]. constructor; try done.
  - unfold cursors_ok. by rewrite (ef_participants He).
  - apply Ha.
  - rewrite (ef_rows He), Hch. apply charges_ok_app; [apply Ho|done].
Qed.

Definition charge_range (c : RetainedRecordCharge) : Prop := rv_ok (rrc_encoded_charge c).
Lemma charges_new rows charges : Forall charge_range charges -> charges_match rows charges = true ->
  charges_ok rows charges.
Proof.
  intros Hr Hm. apply charges_match_spec in Hm as [Hk He]. split; [done|].
  apply Forall_forall. intros c Hc. split; [by apply (proj1 (Forall_forall _ _) Hr)|].
  by apply (proj1 (Forall_forall _ _) He).
Qed.

Lemma transition_appends {T} o (operation : T) active rows charges ls lo c : owner_inv o ->
  Forall charge_range charges -> rows <> [] ->
  (forall r, head rows = Some r -> u64 (rcr_delivery_seq r) -> sl_ok ls) -> ledger_ok lo ->
  transition o operation active rows charges ls lo = Ok c ->
  appended o (lfc_owner c) active rows charges.
Proof.
  intros Ho Hcr Hne Hls Hlo. unfold transition.
  destruct (charges_match rows charges) eqn:Em; simpl; [|done]. apply charges_new in Em; [|done].
  destruct (within_record_limit _ _); simpl; [|done].
  destruct (accounting_after_rows _ _) as [a|] eqn:Ea; [|done].
  apply after_rows in Ea; [|apply Ho|apply Em].
  destruct (apply_live_transition _ _ _ _ _) as [f'|[]] eqn:Et; [|done]. intros [= <-]. simpl.
  pose proof (oi_frontiers Ho) as Hf. pose proof Hf as (_ & (Hsl & _) & _).
  assert (rows_positioned (scf_ledger (cf_sequence (lfo_frontiers o))) ls rows = true) as Hp.
  { unfold apply_live_transition in Et. destruct (live_transition_blocked _); [done|].
    destruct (ActiveIdentityRanks_try_new _ _ _); [|done]. by destruct (rows_positioned _ _ _). }
  apply rows_positioned_spec in Hp as (_ & Hu & Hhigh); [|done].
  assert (sl_ok ls) as Hok.
  { destruct rows as [|r rows]; [done|]. by apply (Hls r eq_refl), Hu. }
  pose proof (apply_live_transition_ok _ _ _ _ _ _ Hf Hok Hlo (Hhigh Hne) Et) as Hf'.
  apply transition_effect in Et as (He & Hr & Hc & _); [|done..].
  constructor; try done. by rewrite Hc.
Qed.

Lemma set_participant_Forall (P : FrontierParticipant -> Prop) id new ps : P new -> Forall P ps ->
  Forall P (set_participant id new ps).
Proof.
  intros Hn Hps. apply Forall_forall. intros q Hq. apply set_participant_other in Hq as [->|Hq]; [done|].
  by apply (proj1 (Forall_forall _ _) Hps).
Qed.

(** *** Enrollment, attach, detach and binding terminals *)

Definition enrolled {F} (o : LiveFrontierOwner) (operation : EnrollmentCommit F)
    : list FrontierParticipant :=
  let attached := ecm_attached operation in
  sort_by_key fp_participant_index
    (participants_of o
     ++ [mkFrontierParticipant (alr_participant_id attached) (lm_cursor (ecm_member operation))
           (FB_Bound (alr_binding_epoch attached))]).
Lemma enrollment_appends {F} o (operation : EnrollmentCommit F) charge c : owner_inv o ->
  charge_range charge -> apply_enrollment_frontier o operation charge = Ok c ->
  appended o (lfc_owner c) (enrolled o operation) [retained_attached (ecm_attached operation)] [charge]
  /\ existsb (fun p => fp_participant_index p =? alr_participant_id (ecm_attached operation))
       (participants_of o) = false.
Proof.
  intros Ho Hc. unfold apply_enrollment_frontier. destruct (negb _); [done|].
  destruct (existsb _ _) eqn:Ex; [done|].
  destruct (enrollment_sequence _ _) as [ls|] eqn:Es; [|done].
  destruct (enrollment_order _ _) as [lo|] eqn:Eo; [|done]. intros H. split; [|done].
  pose proof (oi_frontiers Ho) as (_ & (Hsl & _) & (Hol & _) & _).
  eapply transition_appends; [done| | | |by eapply enrollment_order_ok|exact H]; [by apply Forall_singleton|done|].
  intros r [= <-] Hu. by eapply enrollment_sequence_ok.
Qed.

Definition rebound {F V} (o : LiveFrontierOwner) (operation : AttachCommit F V)
    : list FrontierParticipant :=
  let attached := atc_attached operation in
  set_participant (alr_participant_id attached)
    (mkFrontierParticipant (alr_participant_id attached) (lm_cursor (atc_member operation))
       (FB_Bound (alr_binding_epoch attached))) (participants_of o).
(** An owner without a recovery block refuses a fenced attach. *)
Lemma fenced_attach_refused {T} o (operation : T) p epoch state rows charges c : owner_inv o ->
  fenced_attach_transition o operation p epoch state rows charges <> Ok c.
Proof.
  intros Ho. unfold fenced_attach_transition. destruct (negb _); [done|]. destruct (negb _); [done|].
  destruct (accounting_after_fenced_attach _ _ _); [|done]. unfold apply_live_fenced_attach.
  destruct (find_participant _ _); [|done]. by rewrite (proj1 (oi_recovery Ho)).
Qed.
Lemma attach_appends {F V} o (operation : AttachCommit F V) charges c : owner_inv o ->
  charge_range (afc_attached charges) -> Forall charge_range (option_list (afc_terminal charges)) ->
  apply_attach_frontier o operation charges = Ok c ->
  exists rows, appended o (lfc_owner c) (rebound o operation) rows
    (option_list (afc_terminal charges) ++ [afc_attached charges])
  /\ Forall (fun r => is_compaction_marker r = false) rows
  /\ find_participant (alr_participant_id (atc_attached operation)) (participants_of o) <> None.
Proof.
  intros Ho Hc Hc'. pose proof (oi_frontiers Ho) as (_ & (Hsl & _) & (Hol & _) & _).
  unfold apply_attach_frontier. destruct (negb _); [done|].
  destruct (find_participant _ _) as [p|] eqn:Ef; [|done].
  destruct (find_participant_elem _ _ _ Ef) as [_ Hi].
  destruct (atc_transition operation) as [|terminal|epoch composed next].
  - destruct (afc_terminal charges); simpl; [done|].
    destruct (detached_attach_sequence _ _) as [ls|] eqn:Es; [|done].
    destruct (detached_attach_order _ _) as [lo|] eqn:Eo; [|done]. intros H.
    exists [retained_attached (atc_attached operation)]. split_and!; [|by repeat constructor|done].
    rewrite Hi in H. eapply transition_appends;
      [done| | | |by eapply detached_attach_order_ok|exact H]; [by apply Forall_singleton|done|].
    intros r [= <-] Hu. by eapply detached_attach_sequence_ok.
  - destruct (afc_terminal charges) as [tc|]; simpl; [|done].
    destruct (superseding_attach_sequence _ _) as [ls|] eqn:Es; [|done].
    destruct (superseding_attach_order _ _) as [lo|] eqn:Eo; [|done]. intros H.
    exists [retained_terminal (CBT_Detached terminal); retained_attached (atc_attached operation)].
    split_and!; [|by repeat constructor|done]. rewrite Hi in H. eapply transition_appends; [done| | | | |exact H].
    + simpl in Hc'. apply Forall_cons in Hc' as [? _]. apply Forall_cons; split; [done|by apply Forall_singleton].
    + done.
    + intros r _ _. by eapply superseding_attach_sequence_ok.
    + apply next_order_ok in Eo as [? _]; [done|done|apply Hol].
  - intros H. exfalso. unfold apply_fenced_attach_frontier in H.
    destruct (match composed with Some _ => _ | None => _ end) as [[rows cs]|]; [|done].
    by eapply fenced_attach_refused.
Qed.

(** The body a detach and a committed binding terminal share. *)
Lemma terminal_appends {T} o (operation : T) active row charge ls lo c : owner_inv o ->
  charge_range charge ->
  detach_sequence (scf_ledger (cf_sequence (lfo_frontiers o))) (rcr_delivery_seq row) = Some ls ->
  detach_order (ocf_ledger (cf_order (lfo_frontiers o)))
    (ao_transaction_order (rcr_admission_order row)) = Some lo ->
  transition o operation active [row] [charge] ls lo = Ok c ->
  appended o (lfc_owner c) active [row] [charge].
Proof.
  intros Ho Hc Es Eo H. pose proof (oi_frontiers Ho) as (_ & (Hsl & _) & (Hol & _) & _).
  eapply transition_appends; [done| | | |by eapply detach_order_ok|exact H]; [by apply Forall_singleton|done|].
  intros r [= <-] Hu. by eapply detach_sequence_ok.
Qed.
Lemma detach_appends {F V} o (operation : CommittedDetachTransition F V) charge c : owner_inv o ->
  charge_range charge -> apply_detach_frontier o operation charge = Ok c ->
  let terminal := CBT_Detached (cdx_terminal operation) in
  appended o (lfc_owner c)
    (set_participant (cbt_participant_id terminal)
       (mkFrontierParticipant (cbt_participant_id terminal) (lm_cursor (cdx_member operation))
          (FB_Detached (cbt_binding_epoch terminal))) (participants_of o))
    [retained_terminal terminal] [charge]
  /\ find_participant (cbt_participant_id terminal) (participants_of o) <> None.
Proof.
  intros Ho Hc. unfold apply_detach_frontier. destruct (negb _); [done|].
  destruct (find_participant _ _) as [p|] eqn:Ef; [|done].
  destruct (find_participant_elem _ _ _ Ef) as [_ Hi]. rewrite Hi.
  destruct (detach_sequence _ _) as [ls|] eqn:Es; [|done].
  destruct (detach_order _ _) as [lo|] eqn:Eo; [|done]. intros H. split; [|done].
  by eapply terminal_appends.
Qed.
Lemma commit_terminal_appends o b order d charge o' : owner_inv o -> charge_range charge ->
  commit_binding_terminal_candidate o b order d charge = Ok o' ->
  exists p, find_participant (bnd_participant_id b) (participants_of o) = Some p
  /\ appended o o'
       (set_participant (bnd_participant_id b)
          (mkFrontierParticipant (bnd_participant_id b) (fp_cursor p) (FB_Detached (bnd_binding_epoch b)))
          (participants_of o))
       [mkRetainedCausalRecord d order
          (RCK_BindingTerminal (mkBindingTerminalOwner (bnd_participant_id b) (bnd_binding_epoch b)))]
       [charge].
Proof.
  intros Ho Hc. unfold commit_binding_terminal_candidate.
  destruct (find_participant _ _) as [p|] eqn:Ef; [|done].
  destruct (find_participant_elem _ _ _ Ef) as [_ Hi]. rewrite Hi. destruct (negb _); [done|].
  destruct (detach_sequence _ _) as [ls|] eqn:Es; [|done].
  destruct (detach_order _ _) as [lo|] eqn:Eo; [|done].
  destruct (transition _ _ _ _ _ _ _) as [c|] eqn:Et; [|done]. intros [= <-]. exists p. split; [done|].
  by eapply terminal_appends.
Qed.

(** *** Pending terminals *)

Lemma pend_effect o b order d o' : owner_inv o ->
  pend_binding_terminal_candidate o b order d = Ok o' ->
  exists p, find_participant (bnd_participant_id b) (participants_of o) = Some p
  /\ effect (lfo_frontiers o) (lfo_frontiers o')
       (set_participant (bnd_participant_id b)
          (mkFrontierParticipant (bnd_participant_id b) (fp_cursor p) (FB_Detached (bnd_binding_epoch b)))
          (participants_of o))
       (cf_retained_floor (lfo_frontiers o)) (cf_retained_records (lfo_frontiers o))
       (cf_marker_records (lfo_frontiers o))
       [ISC_BindingTerminal d order (mkBindingTerminalOwner (bnd_participant_id b) (bnd_binding_epoch b))]
  /\ scf_immutable_candidates (cf_sequence (lfo_frontiers o)) = []
  /\ lfo_closure_accounting o' = lfo_closure_accounting o
  /\ lfo_retained_charges o' = lfo_retained_charges o /\ owner_inv o'.
Proof.
  intros Ho. pose proof (oi_frontiers Ho) as Hf. unfold pend_binding_terminal_candidate.
  destruct (detach_order _ _) as [lo|] eqn:Eo; [|done].
  apply detach_order_ok in Eo; [|destruct Hf as (_ & _ & (? & _) & _); done].
  destruct (apply_pending_binding_terminal _ _ _ _ _ _) as [f'|[]] eqn:Ep; [|done]. intros [= <-].
  pose proof (apply_pending_ok _ _ _ _ _ _ _ Hf Eo Ep) as Hf'.
  destruct (pending_effect _ _ _ _ _ _ _ Hf Eo Ep) as (p & Ef & Hb & He & Hc). exists p.
  split_and!; try done. destruct Ho as [_ Hcur Hr Ha Hch]. constructor; simpl; try done.
  - unfold cursors_ok. rewrite (ef_participants He). apply set_participant_Forall; [|done]. simpl.
    apply find_participant_elem in Ef as [Hin _]. by apply (proj1 (Forall_forall _ _) Hcur) in Hin.
  - by apply (ef_recovery He).
  - by rewrite (ef_rows He).
Qed.

Lemma drain_terminal_appends o pending charge r : owner_inv o -> charge_range charge ->
  drain_pending_terminal o pending charge = Ok r ->
  appended o (dpt_owner r) (participants_of o)
    [mkRetainedCausalRecord (sl_high_watermark (scf_ledger (cf_sequence (lfo_frontiers o))) + 1)
       (pf_admission_order pending)
       (RCK_BindingTerminal (mkBindingTerminalOwner (pf_participant_id pending) (pf_binding_epoch pending)))]
    [charge].
Proof.
  intros Ho Hc. pose proof (oi_frontiers Ho) as Hf. unfold drain_pending_terminal.
  destruct (checked_add _ _ _) as [next|] eqn:En; [|done]. apply checked_add_Some in En as [-> _].
  destruct (_ || _) eqn:E; [done|]. apply orb_false_elim in E as [E E3].
  apply orb_false_elim in E as [E1 E2]. apply negb_false_iff, bool_decide_eq_true in E2.
  apply negb_false_iff, Z.eqb_eq in E1, E3.
  destruct (accounting_after_rows _ _) as [a|] eqn:Ea; [|done].
  apply after_rows in Ea; [|apply Ho|by apply Forall_singleton].
  destruct (drain_first_binding_terminal _ _ _) as [[f' row]|[]] eqn:Ed; [|done]. intros [= <-].
  pose proof (drain_terminal_ok _ _ _ _ _ Hf Ed) as Hf'.
  apply drain_terminal_effect in Ed as (He & -> & Hm); [|done].
  constructor; simpl; try done; [by apply (ef_recovery He), Ho|].
  split; [simpl; unfold charge_key, row_key; simpl; by rewrite E1, E2|by apply Forall_singleton].
Qed.

(** *** Acknowledgements *)

(** A cursor moved forward, and the anchors of the markers it crossed retired. *)
Record acknowledged (o o' : LiveFrontierOwner) (id : ParticipantId) (cursor crossed : Z) : Prop := {
  ak_found : exists p, find_participant id (participants_of o) = Some p
    /\ fp_cursor p <= cursor <= sl_high_watermark (scf_ledger (cf_sequence (lfo_frontiers o)))
    /\ effect (lfo_frontiers o) (lfo_frontiers o')
         (set_participant id (mkFrontierParticipant id cursor (fp_binding p)) (participants_of o))
         (cf_retained_floor (lfo_frontiers o)) (cf_retained_records (lfo_frontiers o))
         (cf_marker_records (lfo_frontiers o))
         (scf_immutable_candidates (cf_sequence (lfo_frontiers o)));
  ak_frontiers : frontier_inv (lfo_frontiers o');
  ak_accounting : reaccounted (lfo_closure_accounting o) (lfo_closure_accounting o')
    (ca_state (lfo_closure_accounting o))
    (ca_marker_capacity_credits (lfo_closure_accounting o))
    (ca_marker_anchors (lfo_closure_accounting o) - crossed)
    (wrv_entries (ca_baseline (lfo_closure_accounting o)))
    (wrv_bytes (ca_baseline (lfo_closure_accounting o)));
  ak_charges : lfo_retained_charges o' = lfo_retained_charges o;
}.

Lemma accounting_anchors a : accounting_ok a -> ca_marker_anchors a <= ca_marker_capacity_credits a.
Proof.
  intros (_ & _ & _ & H). by apply try_new_fields in H as [_ ?].
Qed.
Lemma reaccounted_same a : accounting_ok a ->
  reaccounted a a (ca_state a) (ca_marker_capacity_credits a) (ca_marker_anchors a)
    (wrv_entries (ca_baseline a)) (wrv_bytes (ca_baseline a)).
Proof. intros H. pose proof (accounting_anchors a H). constructor; try done. by destruct (ca_baseline a). Qed.

Lemma acknowledged_inv o o' id cursor crossed : owner_inv o ->
  acknowledged o o' id cursor crossed -> owner_inv o'.
Proof.
  intros [_ Hcur Hr _ Hch] [(p & Ef & Hp & He) Hf Ha Hc]. constructor; try done.
  - unfold cursors_ok. rewrite (ef_participants He). apply set_participant_Forall; [|done]. simpl.
    apply find_participant_elem in Ef as [Hin _]. apply (proj1 (Forall_forall _ _) Hcur) in Hin.
    simpl in Hin. lia.
  - by apply (ef_recovery He).
  - apply Ha.
  - by rewrite Hc, (ef_rows He).
Qed.

Lemma identity_acknowledges o p q crossed a f' : owner_inv o ->
  find_participant (fp_participant_index p) (participants_of o) = Some q -> fp_binding q = fp_binding p ->
  apply_live_identity (lfo_frontiers o) p = Ok f' ->
  reaccounted (lfo_closure_accounting o) a (ca_state (lfo_closure_accounting o))
    (ca_marker_capacity_credits (lfo_closure_accounting o))
    (ca_marker_anchors (lfo_closure_accounting o) - crossed)
    (wrv_entries (ca_baseline (lfo_closure_accounting o)))
    (wrv_bytes (ca_baseline (lfo_closure_accounting o))) ->
  acknowledged o (set_accounting (set_frontiers o f') a) (fp_participant_index p) (fp_cursor p) crossed.
Proof.
  intros Ho Ef Hb H Ha. constructor; simpl; try done.
  - apply identity_effect in H as (q' & Ef' & Hq & He). exists q'. split_and!; try done; try lia.
    unfold participants_of in Ef. rewrite Ef in Ef'. injection Ef' as <-. rewrite Hb. by destruct p.
  - eapply apply_live_identity_ok; [apply Ho| |done]. intros q' Hq'.
    unfold participants_of in Ef. by simplify_eq.
Qed.

Lemma ack_acknowledges {T} o (operation : T) request c : owner_inv o ->
  apply_ack_frontier o operation request = Ok c ->
  exists p, find_participant (pae_participant_id request) (participants_of o) = Some p
  /\ acknowledged o (lfc_owner c) (pae_participant_id request) (pae_through_seq request)
       (crossed_marker_anchors o (pae_participant_id request) (fp_cursor p) (pae_through_seq request)).
Proof.
  intros Ho. unfold apply_ack_frontier. destruct (find_participant _ _) as [p|] eqn:Ef; [|done].
  set (crossed := crossed_marker_anchors _ _ _ _). pose proof (oi_accounting Ho) as Hok.
  destruct (if crossed =? 0 then _ else _) as [a|] eqn:Ea; [|done].
  destruct (apply_live_identity _ _) as [f'|[]] eqn:Ei; [|done]. intros [= <-]. exists p. split; [done|].
  simpl. eapply identity_acknowledges in Ei; [exact Ei|done|done|done|]. simpl.
  destruct (Z.eqb_spec crossed 0) as [E0|].
  - injection Ea as <-. fold crossed. rewrite E0, Z.sub_0_r. by apply reaccounted_same.
  - apply after_crossings in Ea as [? _]; [done|done|]. unfold crossed, crossed_marker_anchors.
    apply zlen_nonneg.
Qed.
Lemma marker_ack_acknowledges o operation c : owner_inv o ->
  apply_marker_ack_frontier o operation = Ok c ->
  let request := mac_request (mkc_outcome operation) in
  acknowledged o (lfc_owner c) (mae_participant_id request) (mae_marker_delivery_seq request) 1
  /\ exists r, r ∈ cf_marker_records (lfo_frontiers o) /\ is_marker_of (mae_participant_id request) r = true
     /\ rcr_delivery_seq r = mae_marker_delivery_seq request.
Proof.
  intros Ho. unfold apply_marker_ack_frontier. destruct (existsb _ _) eqn:Ex; simpl; [|done].
  destruct (find_participant _ _) as [p|] eqn:Ef; [|done].
  destruct (accounting_after_marker_ack _) as [a|] eqn:Ea; [|done].
  destruct (apply_live_identity _ _) as [f'|[]] eqn:Ei; [|done]. intros [= <-]. simpl. split.
  - eapply identity_acknowledges in Ei; [exact Ei|done|done|done|].
    by apply after_crossings in Ea as [? _]; [|apply Ho|].
  - apply existsb_exists in Ex as (r & Hin & Hr). apply andb_prop in Hr as [Hr Hm]. breflect.
    exists r. split_and!; try done. by apply list_elem_of_In.
Qed.

(** *** Floors and binding fates *)

Lemma keys_from floor rows : forall charges, map charge_key charges = map row_key rows ->
  map charge_key (charges_from floor charges) = map row_key (from_floor floor rows).
Proof.
  induction rows as [|r rows IH]; intros [|c charges] H; simpl in *; try done.
  injection H as Hd Ho H. unfold charges_from, from_floor in *. simpl. rewrite Hd.
  destruct (_ <=? _); simpl; [|by apply IH]. rewrite (IH _ H). unfold charge_key, row_key. by rewrite Hd, Ho.
Qed.
Lemma charges_ok_from floor rows charges : charges_ok rows charges ->
  charges_ok (from_floor floor rows) (charges_from floor charges).
Proof.
  intros [H1 H2]. split; [by apply keys_from|]. apply Forall_forall. intros c Hc.
  apply filter_elem in Hc as [Hc _]. by apply (proj1 (Forall_forall _ _) H2).
Qed.
Lemma charges_below_ok floor charges : Forall charge_ok charges -> Forall charge_ok (charges_below floor charges).
Proof. induction 1; simpl; [constructor|]. destruct (_ <? _); constructor; done. Qed.

(** The owner at a higher floor, the charges below it released. *)
Record floored (o o' : LiveFrontierOwner) (ps : list FrontierParticipant) (floor : Z) : Prop := {
  fl_effect : effect (lfo_frontiers o) (lfo_frontiers o') ps floor
    (from_floor floor (cf_retained_records (lfo_frontiers o)))
    (from_floor floor (cf_marker_records (lfo_frontiers o)))
    (scf_immutable_candidates (cf_sequence (lfo_frontiers o)));
  fl_range : cf_retained_floor (lfo_frontiers o) <= floor
             <= sl_high_watermark (scf_ledger (cf_sequence (lfo_frontiers o))) + 1;
  fl_markers : Forall (fun r => floor <= rcr_delivery_seq r) (cf_marker_records (lfo_frontiers o));
  fl_frontiers : frontier_inv (lfo_frontiers o');
  fl_accounting : reaccounted (lfo_closure_accounting o) (lfo_closure_accounting o')
    (ca_state (lfo_closure_accounting o))
    (ca_marker_capacity_credits (lfo_closure_accounting o))
    (ca_marker_anchors (lfo_closure_accounting o))
    (wrv_entries (ca_baseline (lfo_closure_accounting o))
     - charge_entries (charges_below floor (lfo_retained_charges o)))
    (wrv_bytes (ca_baseline (lfo_closure_accounting o))
     - charge_bytes (charges_below floor (lfo_retained_charges o)));
  fl_charges : lfo_retained_charges o' = charges_from floor (lfo_retained_charges o);
}.

Lemma floored_inv o o' ps floor : owner_inv o -> Forall (fun p => 0 <= fp_cursor p) ps ->
  floored o o' ps floor -> owner_inv o'.
Proof.
  intros [_ _ Hr _ Hch] Hps [He _ _ Hf Ha Hc]. constructor; try done.
  - unfold cursors_ok. by rewrite (ef_participants He).
  - by apply (ef_recovery He).
  - apply Ha.
  - rewrite Hc, (ef_rows He). by apply charges_ok_from.
Qed.

Lemma owner_fate_floored o id epoch cursor floor reserve plan : owner_inv o ->
  owner_prepare_binding_fate_transition o id epoch cursor floor reserve = Ok plan ->
  exists p, find_participant id (participants_of o) = Some p /\ fp_cursor p = cursor
  /\ floored o (owner_install_binding_fate_transition o plan floor)
       (set_participant id
          (mkFrontierParticipant id
             (if reserve then cursor
              else sl_high_watermark (scf_ledger (cf_sequence (lfo_frontiers o))))
             (FB_Detached epoch)) (participants_of o)) floor.
Proof.
  intros Ho. pose proof (oi_frontiers Ho) as Hf. unfold owner_prepare_binding_fate_transition.
  destruct (negb _); [done|].
  destruct (prepare_binding_fate_transition _ _ _ _ _ _) as [fp|] eqn:Ep; simpl; [|done].
  destruct (accounting_after_floor _ _) as [a|] eqn:Ea; simpl; [|done]. intros [= <-].
  apply after_floor in Ea; [|apply Ho|apply charges_below_ok, Ho].
  pose proof (fate_transition_ok _ _ _ _ _ _ _ Hf Ep) as Hf'.
  apply fate_effect in Ep as (p & Ef & Hc & Hfl & Hmk & He); [|done]. exists p. split_and!; try done.
Qed.
Lemma fate_cursors o id (reserve : bool) (cursor : Z) epoch p : owner_inv o ->
  find_participant id (participants_of o) = Some p -> fp_cursor p = cursor ->
  Forall (fun p => 0 <= fp_cursor p)
    (set_participant id
       (mkFrontierParticipant id
          (if reserve then cursor else sl_high_watermark (scf_ledger (cf_sequence (lfo_frontiers o))))
          (FB_Detached epoch)) (participants_of o)).
Proof.
  intros Ho Ef Hc. pose proof (oi_cursors Ho) as Hcur. apply set_participant_Forall; [|done]. simpl.
  apply find_participant_elem in Ef as [Hin _]. apply (proj1 (Forall_forall _ _) Hcur) in Hin.
  simpl in Hin. destruct (oi_frontiers Ho) as (_ & ((Hh & _) & _) & _). destruct reserve; [lia|mlia].
Qed.

Lemma finalized_floor_floored o floor o' : owner_inv o ->
  owner_install_finalized_binding_fate_floor o floor = Ok o' ->
  o' = o \/ exists resulting, floored o o' (participants_of o) resulting.
Proof.
  intros Ho. pose proof (oi_frontiers Ho) as Hf. unfold owner_install_finalized_binding_fate_floor.
  destruct (negb _); [done|]. destruct (admissible_installed_floor _ _ _ _) as [r|]; [|intros [= <-]; by left].
  destruct (accounting_after_floor _ _) as [a|] eqn:Ea; simpl; [|done].
  apply after_floor in Ea; [|apply Ho|apply charges_below_ok, Ho].
  destruct (install_finalized_binding_fate_floor _ _) as [f'|] eqn:Ei; simpl; [|done]. intros [= <-].
  right. exists r. pose proof (finalized_floor_ok _ _ _ Hf Ei) as Hf'.
  apply floor_effect in Ei as (Hfl & Hmk & He); [|done]. by constructor.
Qed.

Lemma prepared_fate_floored o token terminal progress context prepared : owner_inv o ->
  measurement_context token = Some context ->
  prepare_binding_fate o token terminal progress = Ok prepared ->
  exists p floor, find_participant (bmc_participant_id context) (participants_of o) = Some p
  /\ let ps := set_participant (bmc_participant_id context)
       (mkFrontierParticipant (bmc_participant_id context)
          (if reserves_finalizer terminal then fp_cursor p
           else sl_high_watermark (scf_ledger (cf_sequence (lfo_frontiers o))))
          (FB_Detached (bmc_binding_epoch context))) (participants_of o) in
  floored o (pbf_owner prepared) ps floor /\ Forall (fun p => 0 <= fp_cursor p) ps.
Proof.
  intros Ho Hctx. unfold prepare_binding_fate.
  destruct (validate_binding_fate_measurement _ _ _ _) as [m|] eqn:Em; [|done].
  unfold validate_binding_fate_measurement in Em.
  destruct (validate_binding_fate_floor _ _ _ _) as [fl|] eqn:Efl; simpl in Em; [|done].
  rewrite Hctx in Em; simpl in Em.
  assert (vbf_participant_id fl = bmc_participant_id context
          /\ vbf_binding_epoch fl = bmc_binding_epoch context) as [Hi He].
  { unfold validate_binding_fate_floor in Efl. rewrite Hctx in Efl. destruct (negb _); [done|].
    destruct (find_participant _ _); [|done]. destruct (_ || _); [done|]. destruct (negb _); [done|].
    destruct (_ <? _); [done|]. destruct (u64_try_from _); [|done]. by injection Efl as <-. }
  destruct (owner_prepare_binding_fate_transition _ _ _ _ _ _) as [plan|] eqn:Ep; simpl in Em; [|done].
  injection Em as <-. apply owner_fate_floored in Ep as (p & Ef & Hc & Hfl); [|done].
  rewrite Hi, He, <- Hc in *.
  intros H. exists p, (vbf_resulting_floor fl). split; [done|]. split; [|by eapply fate_cursors].
  match goal with |- floored o ?x _ _ => replace x with
    (owner_install_binding_fate_transition o plan (vbf_resulting_floor fl)); [exact Hfl|] end.
  simpl in H. destruct (match terminal with BFT_Ordinary _ => _ | _ => _ end) eqn:E; [|done].
  by injection H as <-.
Qed.

(** *** Admission of a binding terminal *)

Lemma prepared_owner o b cause order d progress p :
  prepare_binding_terminal o b cause order d progress = Ok p ->
  pbt_owner p = o /\ ctk_active_binding (pbt_key p) = b.
Proof. unfold prepare_binding_terminal. repeat (destruct (_ : bool); [done|]). by intros [= <-]. Qed.
Lemma terminal_committed p candidate o' position : charge_range (btc_charge candidate) ->
  admit_binding_terminal p candidate = BTA_Commit o' position ->
  exists order d, commit_binding_terminal_candidate (pbt_owner p) (ctk_active_binding (pbt_key p))
    order d (btc_charge candidate) = Ok o'.
Proof.
  intros Hc. unfold admit_binding_terminal. destruct (_ : bool); [done|].
  destruct (match checked_add _ _ _ with Some _ => _ | None => _ end).
  - destruct (commit_binding_terminal_candidate _ _ _ _ _) as [o1|[]] eqn:E; [|done].
    intros [= <- _]. by eexists _, _.
  - destruct (_ <? _); [|done]. by destruct (pend_binding_terminal_candidate _ _ _ _) as [|[]].
Qed.
Lemma terminal_pended p candidate o' position progress :
  admit_binding_terminal p candidate = BTA_Pending o' position progress ->
  exists order d, pend_binding_terminal_candidate (pbt_owner p) (ctk_active_binding (pbt_key p))
    order d = Ok o'.
Proof.
  unfold admit_binding_terminal. destruct (_ : bool); [done|].
  destruct (match checked_add _ _ _ with Some _ => _ | None => _ end).
  - by destruct (commit_binding_terminal_candidate _ _ _ _ _) as [|[]].
  - destruct (_ <? _); [|done].
    destruct (pend_binding_terminal_candidate _ _ _ _) as [o1|[]] eqn:E; [|done].
    intros [= <- _ _]. by eexists _, _.
Qed.

(** *** Markers *)

Lemma marker_append_wf s d s' : wf_closure_state s -> u64 d ->
  apply_marker_append s d = Ok s' -> wf_closure_state s'.
Proof.
  intros Hs Hd. unfold apply_marker_append. destruct s as [|debt []]; try done; [by intros [= <-]|..].
  - destruct (later_projection_after_marker _ _ _ _) as [succ|] eqn:E; cbn; [|done].
    unfold projection_marker_appended. destruct (_ && _); cbn; [|done]. intros [= <-].
    unfold later_projection_after_marker in E. cbn in E. destruct (_ || _); [done|]. injection E as <-.
    split; [apply Hs|done].
  - unfold compaction_marker_appended. cbn. destruct (_ || _); cbn; [done|]. intros [= <-]. done.
Qed.

(** The first marker candidate became a row. *)
Record marker_drained (o o' : LiveFrontierOwner) (m : MarkerCandidateAuthority)
    (rest : list ImmutableSequenceCandidate) (charge : RetainedRecordCharge) : Prop := {
  dm_candidates : scf_immutable_candidates (cf_sequence (lfo_frontiers o)) = ISC_Marker m :: rest;
  dm_at : mca_delivery_seq m = sl_high_watermark (scf_ledger (cf_sequence (lfo_frontiers o))) + 1;
  dm_effect : effect (lfo_frontiers o) (lfo_frontiers o') (participants_of o)
    (cf_retained_floor (lfo_frontiers o))
    (cf_retained_records (lfo_frontiers o) ++ [marker_row m])
    (cf_marker_records (lfo_frontiers o) ++ [marker_row m]) rest;
  dm_frontiers : frontier_inv (lfo_frontiers o');
  dm_accounting : exists state, apply_marker_append (ca_state (lfo_closure_accounting o))
      (mca_delivery_seq m) = Ok state
    /\ reaccounted (lfo_closure_accounting o) (lfo_closure_accounting o') state
         (ca_marker_capacity_credits (lfo_closure_accounting o))
         (ca_marker_anchors (lfo_closure_accounting o))
         (wrv_entries (ca_baseline (lfo_closure_accounting o)))
         (wrv_bytes (ca_baseline (lfo_closure_accounting o)));
  dm_charges : lfo_retained_charges o' = lfo_retained_charges o ++ [charge];
  dm_new : charges_ok [marker_row m] [charge];
}.

Lemma drain_marker_drains o charge commit : owner_inv o -> charge_range charge ->
  drain_next_marker (lfo_frontiers o) (lfo_closure_accounting o) (lfo_retained_charges o) charge
  = Ok commit ->
  exists m rest, marker_drained o (from_marker_drain commit (lfo_retained_record_limit o)).1.1 m rest charge.
Proof.
  intros Ho Hc. pose proof (oi_frontiers Ho) as Hf. unfold drain_next_marker.
  destruct (drain_next_marker_core _) as [core|] eqn:Ed; cbn; [|done].
  pose proof (drain_marker_ok _ _ Hf Ed) as Hf'.
  apply drain_marker_effect in Ed as (m & rest & Hcand & Hat & He & Hr & Hseq & Hm).
  destruct (_ : bool); [done|]. destruct (_ || _) eqn:E2; [done|].
  apply orb_false_elim in E2 as [E2 E3]. apply negb_false_iff, bool_decide_eq_true in E3.
  apply negb_false_iff, Z.eqb_eq in E2.
  destruct (Z.eqb_spec (rv_entries (rrc_encoded_charge charge)) 1); cbn; [|done]. rewrite Hm.
  destruct (apply_marker_append _ _) as [state|] eqn:Es; cbn; [|done].
  destruct (ClosureAccounting_try_new _ _ _ _ _ _ _ _ _ _) as [a|] eqn:Ea; cbn; [|done].
  destruct (_ || _); [done|]. intros [= <-]. exists m, rest. simpl.
  pose proof (oi_accounting Ho) as (Hst & (? & ? & ? & ? & ? & ?) & (? & ? & ?) & _).
  assert (u64 (mca_delivery_seq m)) as Hu.
  { pose proof Hf' as (_ & ((Hh & _) & _) & _ & _ & _ & Hrows).
    destruct Hrows as (Hfl & Hrows & _). rewrite (ef_rows He), (ef_floor He) in Hrows.
    pose proof (row_in _ _ _ (marker_row m) Hrows) as Hin. simpl in Hin.
    rewrite (ef_floor He) in Hfl.
    specialize (Hin ltac:(apply elem_of_app; right; left)). mlia. }
  apply try_new_accounting in Ea as (Hok & -> & Hle); try done; [|by eapply marker_append_wf].
  constructor; try done.
  - exists state. split; [done|]. constructor; try done. by destruct (ca_baseline _).
  - split; [|by apply Forall_singleton]. simpl. unfold charge_key, row_key; simpl.
    rewrite E2, E3, Hr, Hseq. done.
Qed.
Lemma marker_drained_inv o o' m rest charge : owner_inv o ->
  marker_drained o o' m rest charge -> owner_inv o'.
Proof.
  intros Ho [_ _ He Hf (state & _ & Ha) Hc Hn]. constructor; try done.
  - unfold cursors_ok. rewrite (ef_participants He). apply Ho.
  - by apply (ef_recovery He), Ho.
  - apply Ha.
  - rewrite Hc, (ef_rows He). apply charges_ok_app; [apply Ho|done].
Qed.

(** *** Records *)

Lemma rows_NoDup f : frontier_inv f -> NoDup (map rcr_delivery_seq (cf_retained_records f)).
Proof. intros (_ & _ & _ & _ & _ & _ & Hr & _). rewrite Hr. apply NoDup_seqZ. Qed.

(** The owner's parts as a record admission takes them. *)
Definition prestate_of {EF V LF} (o : LiveFrontierOwner) (s : RecordAdmissionPrestate EF V LF) : Prop :=
  rap_frontiers s = lfo_frontiers o /\ rap_closure_accounting s = lfo_closure_accounting o
  /\ rap_retained_charges s = lfo_retained_charges o.
Definition projection_input {EF V LF} (s : RecordAdmissionPrestate EF V LF)
    (charge : ResourceVector) : OrdinaryRecordProjectionInput :=
  mkOrdinaryRecordProjectionInput (record_admission_envelope (rap_request s))
    (rap_receiving_binding_epoch s) charge (rap_retained_charges s) (rap_observer_progress s)
    (rap_closure_accounting s) (rap_projection_limits s).

Lemma size_permit e charge limit p : check_record_size e charge limit = RSD_Eligible p ->
  rsp_encoded_record_charge p = charge.
Proof. unfold check_record_size. repeat (destruct (_ : bool); [done|]). by intros [= <-]. Qed.

Lemma admission_committed {EF V LF} (s : RecordAdmissionPrestate EF V LF) charge c :
  apply_record_admission s charge = RAD_Commit c ->
  project_ordinary_record (rap_frontiers s) (projection_input s charge)
  = Ok (OPD_Projected (rac_projection c)).
Proof.
  unfold apply_record_admission, settle, refused, fault.
  destruct (classify_record_admission_binding _ _ _ _); [done|].
  destruct (select_semantic_connection_capacity _ _); [|done].
  destruct (check_record_size _ _ _) as [size|] eqn:Es; [|done]. apply size_permit in Es. subst charge.
  destruct (_ && _); [by destruct (nonzero_debt_response _ _ _ _ _)|]. fold (projection_input s (rsp_encoded_record_charge size)).
  destruct (project_ordinary_record _ _) as [[|p]|e]; [done| |by destruct (record_projection_failure _ _ _)].
  by intros [= <-].
Qed.

(** The caller's row was appended, the floor moved and the markers queued. *)
Record recorded (o o' : LiveFrontierOwner) (input : OrdinaryRecordProjectionInput)
    (plan : OrdinaryFixedPointPlan) (state : MarkerState) (search : CapacitySearch) : Prop := {
  rd_planned : planned (projection_facts (lfo_frontiers o) input) state search plan;
  rd_effect : effect (lfo_frontiers o) (lfo_frontiers o') (participants_of o) (cs_floor search)
    (from_floor (cs_floor search) (cf_retained_records (lfo_frontiers o) ++ [ofp_caller_record plan]))
    (from_floor (cs_floor search) (cf_marker_records (lfo_frontiers o)))
    (map ISC_Marker (ofp_marker_candidates plan));
  rd_frontiers : frontier_inv (lfo_frontiers o');
  rd_accounting : lfo_closure_accounting o' = ofp_resulting_accounting plan;
  rd_ok : accounting_ok (lfo_closure_accounting o');
  rd_charges : lfo_retained_charges o'
    = charges_from (cs_floor search) (lfo_retained_charges o ++ [ofp_caller_charge plan]);
  rd_new : charges_ok [ofp_caller_record plan] [ofp_caller_charge plan];
  rd_input : ori_retained_charges input = lfo_retained_charges o
             /\ ori_closure_accounting input = lfo_closure_accounting o;
}.

Lemma record_records {EF V LF} o (s : RecordAdmissionPrestate EF V LF) charge c : owner_inv o ->
  prestate_of o s -> u64 (rap_observer_progress s) -> rv_ok charge ->
  rv_ok (opl_marker_max (rap_projection_limits s)) ->
  apply_record_admission s charge = RAD_Commit c ->
  exists state search,
    recorded o (from_record_admission_persistence (into_persistence_parts c) (lfo_retained_record_limit o))
      (projection_input s charge) (por_plan (rac_projection c)) state search.
Proof.
  intros Ho (E1 & E2 & E3) Hobs Hch Hm Hc. apply admission_committed in Hc. rewrite E1 in Hc.
  pose proof (oi_frontiers Ho) as Hf. pose proof (projection_ok _ (projection_input s charge) _ Hf (oi_cursors Ho) Hobs Hc) as Hf'.
  apply projection_effect in Hc as (state & search & Hplan & He); [|done|apply Ho|done].
  exists state, search. set (facts := projection_facts _ _) in *.
  destruct (preflight_Ok facts state) as (_ & _ & _ & _ & Hkeys & Hone);
    [by apply facts_of_frontiers; [|apply Ho|]|apply Hplan|].
  assert (opf_retained_charges facts = lfo_retained_charges o) as Efc by (simpl; by rewrite E3).
  assert (charge_ok (ofp_caller_charge (por_plan (rac_projection c)))) as Hcaller.
  { rewrite (pl_caller_charge _ _ _ _ Hplan). split; [done|exact Hone]. }
  destruct (preflight_markers facts state (pl_preflight _ _ _ _ Hplan)) as [Hagree ->].
  constructor; simpl; try done.
  - pose proof (pl_search _ _ _ _ Hplan) as (_ & _ & Hev & _).
    pose proof (pl_caller_charge _ _ _ _ Hplan) as Hcc.
    assert (sl_high_watermark (opf_sequence_ledger facts) + 1
            = rrc_delivery_seq (ofp_caller_charge (por_plan (rac_projection c)))) as Hat
      by (rewrite Hcc; simpl; by rewrite (pl_caller _ _ _ _ Hplan)).
    rewrite Hat in Hev.
    apply evaluate_exact in Hev as (_ & Hb & _ & Han & _); try done.
    + pose proof (pl_accounting _ _ _ _ Hplan) as Hnew. pose proof (pl_credits _ _ _ _ Hplan).
      pose proof (zlen_nonneg (cs_surviving_credits search)).
      pose proof (zlen_nonneg (ofp_marker_candidates (por_plan (rac_projection c)))).
      pose proof (oi_accounting Ho) as (_ & (_ & _ & _ & _ & _ & Hlim) & (_ & _ & Hcap) & _).
      rewrite <- E2 in Hlim, Hcap.
      pose proof (try_new_fields _ _ _ _ _ _ _ _ _ _ _ Hnew) as [_ Hle].
      assert (0 <= cs_surviving_anchor_count search) by (rewrite Han; apply zlen_nonneg).
      apply try_new_accounting in Hnew as (? & _); try done; unfold u64; lia.
    + rewrite Efc. apply keys_delivery. by rewrite <- Efc.
    + by apply rows_NoDup.
    + rewrite Efc. apply Ho.
    + by rewrite Hcc.
  - rewrite (pl_charges _ _ _ _ Hplan). by rewrite Efc.
  - split; [by rewrite (pl_caller_charge _ _ _ _ Hplan)|by apply Forall_singleton].
Qed.
Lemma owner_recorded_inv o o' input plan state search : owner_inv o ->
  recorded o o' input plan state search -> owner_inv o'.
Proof.
  intros Ho [Hp He Hf _ Ha Hc Hn _]. constructor; try done.
  - unfold cursors_ok. rewrite (ef_participants He). apply Ho.
  - by apply (ef_recovery He), Ho.
  - rewrite Hc, (ef_rows He). apply charges_ok_from, charges_ok_app; [apply Ho|done].
Qed.

(** *** Leave *)

(** Sorting rows and charges by sequence keeps them aligned. *)
Lemma charges_ok_sorted rows charges : NoDup (map rcr_delivery_seq rows) -> charges_ok rows charges ->
  charges_ok (sort_by_key rcr_delivery_seq rows) (sort_by_key rrc_delivery_seq charges).
Proof.
  intros Hnd [Hk Hc]. split; [|by rewrite sort_by_key_perm].
  assert (map charge_key (sort_by_key rrc_delivery_seq charges)
          ≡ₚ map row_key (sort_by_key rcr_delivery_seq rows)) as Hp
    by (by rewrite !sort_by_key_perm, Hk).
  set (R := fun a b : DeliverySeq * AdmissionOrder => a.1 <= b.1).
  assert (StronglySorted R (map charge_key (sort_by_key rrc_delivery_seq charges))) as Hs1.
  { apply StronglySorted_map. exact (sort_by_key_sorted rrc_delivery_seq charges). }
  assert (StronglySorted R (map row_key (sort_by_key rcr_delivery_seq rows))) as Hs2.
  { apply StronglySorted_map. exact (sort_by_key_sorted rcr_delivery_seq rows). }
  assert (NoDup (map fst (map row_key (sort_by_key rcr_delivery_seq rows)))) as Hnd'.
  { rewrite map_map. change (NoDup (map rcr_delivery_seq (sort_by_key rcr_delivery_seq rows))).
    by rewrite sort_by_key_perm. }
  clear -Hp Hs1 Hs2 Hnd'. revert Hp Hs1 Hs2 Hnd'.
  generalize (map charge_key (sort_by_key rrc_delivery_seq charges)) as l.
  generalize (map row_key (sort_by_key rcr_delivery_seq rows)) as k.
  intros k. induction k as [|x k IH]; intros l Hp Hl Hk Hnd; [by apply Permutation_nil_r in Hp|].
  destruct l as [|y l]; [by apply Permutation_nil_cons in Hp|].
  inversion Hl as [|? ? Hl' Hy]; subst. inversion Hk as [|? ? Hk' Hx]; subst.
  simpl in Hnd. apply NoDup_cons in Hnd as [Hn Hnd].
  assert (x = y) as ->.
  { assert (y ∈ x :: k) as Hin by (rewrite <- Hp; left).
    apply elem_of_cons in Hin as [->|Hin]; [done|].
    assert (x ∈ y :: l) as Hin' by (rewrite Hp; left).
    apply elem_of_cons in Hin' as [->|Hin']; [done|]. exfalso.
    apply (proj1 (Forall_forall _ _) Hx) in Hin as Hxy. apply (proj1 (Forall_forall _ _) Hy) in Hin' as Hyx.
    unfold R in *. apply Hn. replace x.1 with y.1 by lia. by apply list_elem_of_fmap_2. }
  f_equal. apply IH; try done. by apply Permutation_cons_inv in Hp.
Qed.

(** A participant left, with the rows of its exit and the charge of its retired marker. *)
Record departed (o o' : LiveFrontierOwner) (pid : ParticipantId) (rows : list RetainedCausalRecord)
    (charges : list RetainedRecordCharge) (retired : option RetainedRecordCharge) : Prop := {
  dp_effect : exists ps', remove_participant pid (participants_of o) = Some ps'
    /\ effect (lfo_frontiers o) (lfo_frontiers o') ps' (cf_retained_floor (lfo_frontiers o))
         (sort_by_key rcr_delivery_seq (cf_retained_records (lfo_frontiers o) ++ rows))
         (List.filter (fun r => negb (is_marker_of pid r)) (cf_marker_records (lfo_frontiers o))) [];
  dp_frontiers : frontier_inv (lfo_frontiers o');
  dp_no_markers : markers_of (scf_immutable_candidates (cf_sequence (lfo_frontiers o))) = [];
  dp_rows : map rcr_delivery_seq rows
    = seqZ (sl_high_watermark (scf_ledger (cf_sequence (lfo_frontiers o))) + 1) (zlen rows)
    /\ Forall (fun r => is_compaction_marker r = false) rows;
  dp_retired : retired_marker_charge (lfo_frontiers o) (lfo_retained_charges o) pid = Ok retired;
  dp_accounting : reaccounted (lfo_closure_accounting o) (lfo_closure_accounting o')
    (ca_state (lfo_closure_accounting o))
    (ca_marker_capacity_credits (lfo_closure_accounting o) - of_bool (is_some retired))
    (ca_marker_anchors (lfo_closure_accounting o) - of_bool (is_some retired))
    (wrv_entries (ca_baseline (lfo_closure_accounting o)) + charge_entries (charges ++ option_list retired))
    (wrv_bytes (ca_baseline (lfo_closure_accounting o)) + charge_bytes (charges ++ option_list retired));
  dp_charges : lfo_retained_charges o'
    = sort_by_key rrc_delivery_seq (lfo_retained_charges o ++ charges);
  dp_new : charges_ok rows charges;
}.

Lemma retired_charge_ok f charges pid retired : Forall charge_ok charges ->
  retired_marker_charge f charges pid = Ok retired -> Forall charge_ok (option_list retired).
Proof.
  intros Hc. unfold retired_marker_charge. destruct (List.find _ _) as [r|]; [|intros [= <-]; constructor].
  destruct (List.find _ charges) as [c|] eqn:Ef; [|done]. intros [= <-]. simpl. apply Forall_singleton.
  apply find_some in Ef as [Hin _]. apply list_elem_of_In in Hin. by apply (proj1 (Forall_forall _ _) Hc).
Qed.

Section Leaves.
Context {EF V LF D : Type} `{!EqDecision D}.

Lemma settled_leave_departs o (m : LiveMember EF) bs (cell : DetachCell D)
    (verified : VerifiedLeaveRequest V LF) left charge c : owner_inv o -> charge_range charge ->
  commit_settled_leave_frontier o m bs cell verified left charge = Ok c ->
  exists rows retired, departed o (llc_owner c) (lm_participant_id m) rows [charge] retired.
Proof.
  intros Ho Hcr. unfold commit_settled_leave_frontier.
  destruct (retired_marker_charge _ _ _) as [retired|] eqn:Er; cbn; [|done].
  destruct (prepare_settled_leave_authority _ _ _) as [authority|] eqn:Ep; cbn; [|done].
  destruct (commit_leave _ _ _ _ _ _) as [commit|] eqn:Ec; cbn; [|done].
  pose proof (oi_frontiers Ho) as Hf.
  destruct (settled_leave_parts _ _ _ _ _ _ _ _ Ep Ec) as (ended & Hl).
  pose proof (left_as_ok _ _ _ _ _ _ Hf Hl) as [Hf' _].
  apply leave_effect in Hl as (ps' & tomb & Hps & Hid & He & Hseq & Hord & Hnm & Hat); [|done].
  rewrite Hid. destruct (_ || _) eqn:E; [done|]. apply orb_false_elim in E as [E E3].
  apply orb_false_elim in E as [E1 E2]. apply negb_false_iff, bool_decide_eq_true in E2.
  apply negb_false_iff, Z.eqb_eq in E1, E3. destruct (_ || _); [done|].
  assert (charge_ok charge) as Hcok by done.
  destruct (accounting_after_leave _ _ _) as [a|] eqn:Ea; cbn; [|done]. intros [= <-]. simpl.
  apply after_leave in Ea as [Ha _]; [|apply Ho|by apply Forall_singleton|].
  2:{ eapply retired_charge_ok; [|exact Er]. apply Ho. }
  eexists _, retired. constructor; simpl; try done.
  - exists ps'. split; [done|exact He].
  - split; [exact Hat|by repeat constructor].
  - split; [|by apply Forall_singleton]. simpl. unfold charge_key, row_key; simpl.
    rewrite E1, E2, Hord, Hseq. done.
Qed.

Lemma pending_leave_departs o (m : LiveMember EF) pending (cell : DetachCell D)
    (verified : VerifiedLeaveRequest V LF) parameters tc lc c : owner_inv o -> charge_range tc ->
  charge_range lc ->
  commit_pending_leave_frontier o m pending cell verified parameters tc lc = Ok c ->
  exists rows retired, departed o (llc_owner c) (lm_participant_id m) rows [tc; lc] retired.
Proof.
  intros Ho Htc Hlc. unfold commit_pending_leave_frontier.
  destruct (retired_marker_charge _ _ _) as [retired|] eqn:Er; cbn; [|done].
  destruct (prepare_pending_leave_authority _ _ _) as [authority|] eqn:Ep; cbn; [|done].
  destruct (commit_pending_leave _ _ _ _ _ _) as [commit|] eqn:Ec; cbn; [|done].
  pose proof (oi_frontiers Ho) as Hf.
  pose proof (pending_leave_parts _ _ _ _ _ _ _ _ Ep Ec) as Hl.
  pose proof (left_as_ok _ _ _ _ _ _ Hf Hl) as [Hf' _].
  apply leave_effect in Hl as (ps' & tomb & Hps & Hid & He & Hseq & Hord & Hnm & Hat); [|done].
  rewrite Hid. destruct (_ || _) eqn:E; [done|]. apply orb_false_elim in E as [E E7].
  apply orb_false_elim in E as [E E6]. apply orb_false_elim in E as [E E5].
  apply orb_false_elim in E as [E E4]. apply orb_false_elim in E as [E E3].
  apply orb_false_elim in E as [_ E2]. apply negb_false_iff, bool_decide_eq_true in E3, E6.
  apply negb_false_iff, Z.eqb_eq in E2, E4, E5, E7. destruct (_ <? _); [done|]. destruct (negb _); [done|].
  assert (Forall charge_ok [tc; lc]) as Hcok by (apply Forall_cons; split; [|apply Forall_singleton]; done).
  destruct (accounting_after_leave _ _ _) as [a|] eqn:Ea; cbn; [|done]. intros [= <-]. simpl.
  apply after_leave in Ea as [Ha _]; [|apply Ho|done|].
  2:{ eapply retired_charge_ok; [|exact Er]. apply Ho. }
  eexists _, retired. constructor; simpl; try done.
  - exists ps'. split; [done|exact He].
  - split; [exact Hat|by repeat constructor].
  - split; [|done]. simpl. unfold charge_key, row_key; simpl.
    rewrite E2, E3, E5, E6, Hord, Hseq. by destruct pending.
Qed.
End Leaves.

Lemma remove_participant_sub pid ps ps' : remove_participant pid ps = Some ps' -> ps' `sublist_of` ps.
Proof. intros H. by apply remove_participant_perm in H as (p & _ & _ & ?). Qed.

Lemma departed_inv o o' pid rows charges retired : owner_inv o ->
  departed o o' pid rows charges retired -> owner_inv o'.
Proof.
  intros Ho [(ps' & Hps & He) Hf _ [Hat _] _ Ha Hc Hn]. constructor; try done.
  - unfold cursors_ok. rewrite (ef_participants He). eapply Forall_sublist; [|apply Ho].
    by eapply remove_participant_sub.
  - by apply (ef_recovery He), Ho.
  - apply Ha.
  - rewrite Hc, (ef_rows He). apply charges_ok_sorted; [|apply charges_ok_app; [apply Ho|done]].
    pose proof (oi_frontiers Ho) as (_ & _ & _ & _ & _ & Hfl & Hrows & _).
    rewrite (rows_append _ _ _ _ (proj2 Hfl) Hrows Hat). apply NoDup_seqZ.
Qed.

(** *** Anchors and fenced proofs *)

Lemma reconcile_spec o : owner_inv o ->
  let derived := Z.min u64_max (unaccepted_marker_anchor_count (lfo_frontiers o)
                                + pending_marker_candidate_count (lfo_frontiers o)) in
  let r := reconcile_orphaned_marker_anchors o in
  r = (o, 0)
  \/ (derived < ca_marker_anchors (lfo_closure_accounting o)
      /\ r.2 = ca_marker_anchors (lfo_closure_accounting o) - derived
      /\ lfo_frontiers r.1 = lfo_frontiers o /\ lfo_retained_charges r.1 = lfo_retained_charges o
      /\ reaccounted (lfo_closure_accounting o) (lfo_closure_accounting r.1)
           (ca_state (lfo_closure_accounting o))
           (ca_marker_capacity_credits (lfo_closure_accounting o)) derived
           (wrv_entries (ca_baseline (lfo_closure_accounting o)))
           (wrv_bytes (ca_baseline (lfo_closure_accounting o)))).
Proof.
  intros Ho derived r. unfold r, reconcile_orphaned_marker_anchors. fold derived.
  unfold checked_sub. destruct (Z.ltb_spec (ca_marker_anchors (lfo_closure_accounting o)) derived); [by left|].
  destruct (Z.eqb_spec (ca_marker_anchors (lfo_closure_accounting o) - derived) 0); [by left|].
  destruct (accounting_after_marker_crossings _ _) as [a|] eqn:Ea; [|by left]. right. simpl.
  apply after_crossings in Ea as [Ha _]; [|apply Ho|lia].
  replace (ca_marker_anchors (lfo_closure_accounting o)
           - (ca_marker_anchors (lfo_closure_accounting o) - derived)) with derived in Ha by lia.
  split_and!; try done; lia.
Qed.
Lemma reconcile_inv o : owner_inv o -> owner_inv (reconcile_orphaned_marker_anchors o).1.
Proof.
  intros Ho. destruct (reconcile_spec o Ho) as [->|(_ & _ & E1 & E2 & Ha)]; [done|].
  destruct Ho as [Hf Hc Hr _ Hch]. constructor; rewrite ?E1, ?E2; try done. apply Ha.
Qed.

(** A fenced attach cannot be minted without a recovery block to mint it from. *)
Lemma set_issued_inv o issued : owner_inv o ->
  owner_inv (set_frontiers o (set_fenced_issued (lfo_frontiers o) issued)).
Proof. intros [Hf Hc Hr Ha Hch]. by constructor. Qed.
Lemma mint_inv o seq recovery debt event successor o' proof : owner_inv o ->
  mint_fenced_attach o seq recovery debt event successor = Ok (o', proof) -> owner_inv o'.
Proof.
  intros Ho. unfold mint_fenced_attach, take_fenced_marker_record.
  destruct (fenced_marker_source _ _) as [source|]; [|done].
  destruct (fenced_attach _ _ _ _ _); [|done]. intros [= <- _]. by apply set_issued_inv.
Qed.

(** ** Runs *)

(** A live owner begins with the initial enrollment of its conversation; [marker_max] is
    the configured maximum charge of a marker. *)
Inductive owner_start (marker_max : ResourceVector) (o : LiveFrontierOwner) : Prop :=
| start_enrollment {EF V LF F P : Type} (input : InitialEnrollmentOperationInput EF V LF)
    (values : InitialEnrollmentCommitValues F)
    (allocate : result (AllocatedParticipantSlot P) ParticipantSlotAllocationError)
    (c : InitialEnrollmentOperationCommit F) charge commit limit :
    input_ok (ioi_closure input) -> ici_marker_max (ioi_closure input) = marker_max ->
    apply_initial_enrollment input values allocate = IOD_Commit c ->
    from_initial_enrollment c charge = Ok commit ->
    o = (owner_from_initial_enrollment commit limit).2 ->
    owner_start marker_max o.

(** What a step did, as far as the accounting of markers depends on it: the cursor a
    binding change took from the member, the marker acknowledged, the configured maximum
    charge of a marker, the identity whose binding died, the one that left. *)
Inductive OwnerEvent :=
| OE_Rebound (id : ParticipantId) (cursor : DeliverySeq)
| OE_MarkerAcked (id : ParticipantId) (marker : DeliverySeq)
| OE_Recorded (marker_max : ResourceVector)
| OE_Fate (id : ParticipantId) (reserve : bool)
| OE_Left (id : ParticipantId)
| OE_Other.

(** Every committed operation, with the ranges of what it is given. *)
Inductive owner_step (o : LiveFrontierOwner) : OwnerEvent -> LiveFrontierOwner -> Prop :=
| step_enrollment {F} (operation : EnrollmentCommit F) charge c :
    charge_range charge -> 0 <= lm_cursor (ecm_member operation) ->
    apply_enrollment_frontier o operation charge = Ok c -> owner_step o OE_Other (lfc_owner c)
| step_attach {F V} (operation : AttachCommit F V) charges c :
    charge_range (afc_attached charges) -> Forall charge_range (option_list (afc_terminal charges)) ->
    0 <= lm_cursor (atc_member operation) ->
    apply_attach_frontier o operation charges = Ok c ->
    owner_step o (OE_Rebound (alr_participant_id (atc_attached operation))
      (lm_cursor (atc_member operation)))
      (lfc_owner c)
| step_detach {F V} (operation : CommittedDetachTransition F V) charge c :
    charge_range charge -> 0 <= lm_cursor (cdx_member operation) ->
    apply_detach_frontier o operation charge = Ok c ->
    owner_step o (OE_Rebound (cbt_participant_id (CBT_Detached (cdx_terminal operation)))
      (lm_cursor (cdx_member operation)))
      (lfc_owner c)
| step_terminal binding cause order d progress p candidate o' position :
    charge_range (btc_charge candidate) ->
    prepare_binding_terminal o binding cause order d progress = Ok p ->
    admit_binding_terminal p candidate = BTA_Commit o' position -> owner_step o OE_Other o'
| step_pend binding cause order d progress p candidate o' position blocked :
    prepare_binding_terminal o binding cause order d progress = Ok p ->
    admit_binding_terminal p candidate = BTA_Pending o' position blocked -> owner_step o OE_Other o'
| step_drain_terminal pending charge r :
    charge_range charge -> drain_pending_terminal o pending charge = Ok r -> owner_step o OE_Other (dpt_owner r)
| step_ack (operation : ParticipantAckCommit) c :
    apply_participant_ack_frontier o operation = Ok c -> owner_step o OE_Other (lfc_owner c)
| step_nonzero_ack (operation : NonzeroParticipantAckCommit) c :
    apply_nonzero_participant_ack_frontier o operation = Ok c -> owner_step o OE_Other (lfc_owner c)
| step_marker_ack (operation : MarkerAckCommit) c :
    apply_marker_ack_frontier o operation = Ok c ->
    owner_step o (OE_MarkerAcked (mae_participant_id (mac_request (mkc_outcome operation)))
      (mae_marker_delivery_seq (mac_request (mkc_outcome operation))))
      (lfc_owner c)
| step_drain_marker charge commit :
    charge_range charge ->
    drain_next_marker (lfo_frontiers o) (lfo_closure_accounting o) (lfo_retained_charges o) charge
      = Ok commit ->
    owner_step o OE_Other (from_marker_drain commit (lfo_retained_record_limit o)).1.1
| step_record {EF V LF} (s : RecordAdmissionPrestate EF V LF) charge c :
    prestate_of o s -> u64 (rap_observer_progress s) -> rv_ok charge ->
    rv_ok (opl_marker_max (rap_projection_limits s)) ->
    apply_record_admission s charge = RAD_Commit c ->
    owner_step o (OE_Recorded (opl_marker_max (rap_projection_limits s)))
      (from_record_admission_persistence (into_persistence_parts c)
                    (lfo_retained_record_limit o))
| step_fate token terminal progress context prepared :
    measurement_context token = Some context ->
    prepare_binding_fate o token terminal progress = Ok prepared ->
    owner_step o (OE_Fate (bmc_participant_id context) (reserves_finalizer terminal)) (pbf_owner prepared)
| step_finalizer finalizer o' :
    complete_pending_died_ordinary_finalizer o finalizer = Ok o' -> owner_step o OE_Other o'
| step_leave {EF V LF D} `{!EqDecision D} (m : LiveMember EF) bs (cell : DetachCell D)
    (verified : VerifiedLeaveRequest V LF) left charge c :
    charge_range charge ->
    commit_settled_leave_frontier o m bs cell verified left charge = Ok c ->
    owner_step o (OE_Left (lm_participant_id m)) (llc_owner c)
| step_pending_leave {EF V LF D} `{!EqDecision D} (m : LiveMember EF) pending (cell : DetachCell D)
    (verified : VerifiedLeaveRequest V LF) parameters tc lc c :
    charge_range tc -> charge_range lc ->
    commit_pending_leave_frontier o m pending cell verified parameters tc lc = Ok c ->
    owner_step o (OE_Left (lm_participant_id m)) (llc_owner c)
| step_reconcile : owner_step o OE_Other (reconcile_orphaned_marker_anchors o).1
| step_mint seq recovery debt event successor o' proof :
    mint_fenced_attach o seq recovery debt event successor = Ok (o', proof) -> owner_step o OE_Other o'.

Lemma start_frontiers {EF V LF F P : Type} (input : InitialEnrollmentOperationInput EF V LF)
    (values : InitialEnrollmentCommitValues F)
    (allocate : result (AllocatedParticipantSlot P) ParticipantSlotAllocationError) c charge commit :
  input_ok (ioi_closure input) -> apply_initial_enrollment input values allocate = IOD_Commit c ->
  from_initial_enrollment c charge = Ok commit ->
  let i := ioi_closure input in
  initial i /\ charge = ici_attached_charge i
  /\ commit = mkInitialEnrollmentFrontierCommit c
       (initial_frontiers (er_conversation_id (ioi_request input)) (ici_binding_epoch i)
          (ici_identity_slots i))
       (icp_resulting_accounting (initial_projection i)) (ici_attached_charge i)
  /\ ecm_attached (ioc_enrollment c)
     = from_binding (mkActiveBinding 0 (er_conversation_id (ioi_request input)) (ici_binding_epoch i))
         (mkAttachedPosition 0 1).
Proof.
  intros Hi Ha Hf i. destruct (initial_enrollment_committed _ _ _ _ Hi Ha) as (Hv & capacity & slot & _ & _ & _ & ->).
  pose proof (initial_frontiers_built (ioi_request input) capacity i values Hv) as Hb. cbv zeta in Hb.
  assert (charge = ici_attached_charge i) as ->.
  { unfold from_initial_enrollment, initial_enrollment_frontier_shape in Hf.
    change (icp_resulting_retained_charge _) with (ici_attached_charge i) in Hf.
    destruct (decide (charge = ici_attached_charge i)) as [|Hne]; [done|].
    by rewrite (bool_decide_eq_false_2 _ Hne) in Hf. }
  split_and!; try done. unfold i in *. rewrite Hb in Hf. by injection Hf as <-.
Qed.

Lemma owner_start_inv marker_max o : owner_start marker_max o -> owner_inv o.
Proof.
  intros [EF V LF F P input values allocate c charge commit limit Hi _ Ha Hf ->].
  destruct (start_frontiers _ _ _ _ _ _ Hi Ha Hf) as (Hv & -> & -> & Hat).
  destruct (initial_frontiers_ok (er_conversation_id (ioi_request input))
    (ici_binding_epoch (ioi_closure input)) (ici_identity_slots (ioi_closure input)) (initial_slots _ Hv))
    as [Hfr Hcur].
  constructor; simpl; try done; [by apply initial_accounting_ok|].
  rewrite Hat. split; [done|]. apply Forall_singleton. split; [apply Hi|]. apply (initial_attached _ Hv).
Qed.

(** Every operation of a live owner keeps its invariant. *)
Lemma owner_step_inv o ev o' : owner_inv o -> owner_step o ev o' -> owner_inv o'.
Proof.
  intros Ho Hstep. pose proof (oi_cursors Ho) as Hcur. destruct Hstep.
  - apply enrollment_appends in H1 as [Ha _]; [|done..]. eapply appended_inv; [done| |done].
    unfold enrolled. rewrite sort_by_key_perm. apply Forall_app. split; [done|by apply Forall_singleton].
  - apply attach_appends in H2 as (rows & Ha & _); [|done..]. eapply appended_inv; [done| |done].
    by apply set_participant_Forall.
  - apply detach_appends in H1 as [Ha _]; [|done..]. eapply appended_inv; [done| |done].
    by apply set_participant_Forall.
  - apply prepared_owner in H0 as [Hp _]. apply terminal_committed in H1 as (k & d' & H1); [|done].
    rewrite Hp in H1. apply commit_terminal_appends in H1 as (q & Hq & Ha); [|done..].
    eapply appended_inv; [done| |done]. apply set_participant_Forall; [|done]. simpl.
    apply find_participant_elem in Hq as [Hin _]. by apply (proj1 (Forall_forall _ _) Hcur) in Hin.
  - apply prepared_owner in H as [Hp _]. apply terminal_pended in H0 as (k & d' & H0).
    rewrite Hp in H0. by apply pend_effect in H0 as (_ & _ & _ & _ & _ & _ & ?).
  - apply drain_terminal_appends in H0; [|done..]. by eapply appended_inv.
  - apply ack_acknowledges in H as (p & _ & H); [|done]. by eapply acknowledged_inv.
  - apply ack_acknowledges in H as (p & _ & H); [|done]. by eapply acknowledged_inv.
  - apply marker_ack_acknowledges in H as [H _]; [|done]. by eapply acknowledged_inv.
  - apply drain_marker_drains in H0 as (m & rest & H0); [|done..]. by eapply marker_drained_inv.
  - destruct (record_records _ _ _ _ Ho H H0 H1 H2 H3) as (state & search & Hr). by eapply owner_recorded_inv.
  - destruct (prepared_fate_floored _ _ _ _ _ _ Ho H H0) as (p & floor & _ & Hfl & Hps).
    exact (floored_inv _ _ _ _ Ho Hps Hfl).
  - apply finalized_floor_floored in H as [->|(r & H)]; [done| |done].
    exact (floored_inv _ _ _ _ Ho Hcur H).
  - apply settled_leave_departs in H0 as (rows & retired & H0); [|done..]. by eapply departed_inv.
  - apply pending_leave_departs in H1 as (rows & retired & H1); [|done..]. by eapply departed_inv.
  - by apply reconcile_inv.
  - by eapply mint_inv.
Qed.

Inductive owner_run : LiveFrontierOwner -> Prop :=
| owner_run_start marker_max o : owner_start marker_max o -> owner_run o
| owner_run_step o ev o' : owner_run o -> owner_step o ev o' -> owner_run o'.
Lemma owner_run_inv o : owner_run o -> owner_inv o.
Proof. induction 1; [by eapply owner_start_inv|by eapply owner_step_inv]. Qed.
