(* ===== verification/OwnerAccounting.v ===== *)
(** * The live owner: stored and derived accounting agree

    Record admission recomputes the marker credits, the marker anchors and the baseline
    from the retained rows and faults when the stored accounting disagrees; the fault is
    permanent, since nothing but an operation changes the accounting.  [accounted] is the
    agreement.  Every operation keeps it under the conditions stated here, so that
    admission never faults on its own books; [OwnerProgress] shows what a Leave outside
    these conditions does. *)
From stdpp Require Import sorting.
From S2P Require Import Prelude OwnerRuns Algebra Tags Wire Response Authority Order Sequence Edge.
From S2P Require Import Binding EdgeSteps Member Detach Leave Attach Lookup Capacity Closure.
From S2P Require Import Cursor AckOperations Frontier FrontierNumeric FrontierLive.
From S2P Require Import RecordProjection RecordOperations FrontierInit EnrollmentClosure.
From S2P Require Import EnrollmentOperation FrontierRestore FrontierLeave LiveOwner OwnerFate.
From S2P Require Import FrontierInv FrontierRuns ProjectionRuns ProjectionCharges EnrollmentRuns.
From S2P Require Import LeaveRuns OwnerInv.

(** ** Specification *)

Definition pending_markers (f : ClaimFrontiers) : list MarkerCandidateAuthority :=
  markers_of (scf_immutable_candidates (cf_sequence f)).
Definition told (m : MarkerCandidateAuthority) : ParticipantId :=
  ao_participant_index (mca_admission_order m).
(** The marker's participant has not acknowledged it. *)
Definition unaccepted_by (ps : list FrontierParticipant) (r : RetainedCausalRecord) : bool :=
  match find_participant (marker_participant r) ps with
  | Some p => fp_cursor p <? rcr_delivery_seq r
  | None => false
  end.
(** The charges of the rows that are no marker. *)
Definition plain_charges (markers : list RetainedCausalRecord) (charges : list RetainedRecordCharge)
    : list RetainedRecordCharge := unmarked (map credit_of markers) charges.

(** [m] is the configured maximum charge of a marker. *)
Record accounted (m : ResourceVector) (o : LiveFrontierOwner) : Prop := {
  ac_credits : ca_marker_capacity_credits (lfo_closure_accounting o)
    = zlen (cf_marker_records (lfo_frontiers o)) + zlen (pending_markers (lfo_frontiers o));
  ac_anchors : ca_marker_anchors (lfo_closure_accounting o)
    = zlen (List.filter (unaccepted_by (participants_of o)) (cf_marker_records (lfo_frontiers o)))
      + zlen (pending_markers (lfo_frontiers o));
  ac_distinct : NoDup (map marker_participant (cf_marker_records (lfo_frontiers o))
                       ++ map told (pending_markers (lfo_frontiers o)));
  ac_active : forall id, id ∈ map marker_participant (cf_marker_records (lfo_frontiers o))
                              ++ map told (pending_markers (lfo_frontiers o)) ->
    id ∈ map fp_participant_index (participants_of o);
  ac_seqs : NoDup (map rcr_delivery_seq (cf_marker_records (lfo_frontiers o)));
  ac_baseline : ca_baseline (lfo_closure_accounting o)
    = weigh (mkWRV 0 0) (cf_identity_slot_limit (lfo_frontiers o)) m
        (plain_charges (cf_marker_records (lfo_frontiers o)) (lfo_retained_charges o));
  ac_churn : ca_episode_churn_used (lfo_closure_accounting o) = 0;
}.
Arguments ac_credits {m o} _.
Arguments ac_anchors {m o} _.
Arguments ac_distinct {m o} _.
Arguments ac_active {m o} _.
Arguments ac_seqs {m o} _.
Arguments ac_baseline {m o} _.
Arguments ac_churn {m o} _.

(** The anchors the rows and candidates derive, and the books with these put in. *)
Definition derived_anchors (o : LiveFrontierOwner) : Z :=
  zlen (List.filter (unaccepted_by (participants_of o)) (cf_marker_records (lfo_frontiers o)))
  + zlen (pending_markers (lfo_frontiers o)).
Definition with_anchors (a : ClosureAccounting) (anchors : Z) : ClosureAccounting :=
  mkClosureAccounting (ca_state a) (ca_marker_capacity_credits a) anchors (ca_edge_sequence_claims a)
    (ca_edge_order_position_claims a) (ca_edge_k_remaining a) (ca_baseline a) (ca_configured_cap a)
    (ca_episode_churn_used a) (ca_episode_churn_limit a).
Definition rebooked (o : LiveFrontierOwner) : LiveFrontierOwner :=
  set_accounting o (with_anchors (lfo_closure_accounting o) (derived_anchors o)).

(** ** Derived values *)

Lemma markers_are f : frontier_inv f ->
  Forall (fun r => r ∈ cf_retained_records f /\ is_compaction_marker r = true) (cf_marker_records f).
Proof. by intros (_ & _ & _ & _ & _ & _ & _ & ?). Qed.
Lemma marker_kind r : is_compaction_marker r = true ->
  exists v, rcr_kind r = RCK_CompactionMarker (marker_participant r) v.
Proof. unfold is_compaction_marker, marker_participant. destruct (rcr_kind r); try done. by eexists. Qed.
Lemma is_marker_of_participant pid r : is_compaction_marker r = true ->
  is_marker_of pid r = (marker_participant r =? pid).
Proof. intros H. destruct (marker_kind r H) as [v Hk]. unfold is_marker_of. by rewrite Hk. Qed.

Lemma unaccepted_anchors f : frontier_inv f ->
  ordinary_unaccepted_marker_anchors f
  = map rcr_delivery_seq (List.filter (unaccepted_by (air_participants (cf_active_identities f)))
                            (cf_marker_records f)).
Proof.
  intros Hf. pose proof (markers_are f Hf) as Hm. destruct Hf as ((_ & Hs & _) & _).
  unfold ordinary_unaccepted_marker_anchors. induction Hm as [|r rs [_ Hr] _ IH]; [done|]. simpl.
  destruct (marker_kind r Hr) as [v ->]. rewrite active_participant_find by done.
  unfold unaccepted_by at 1. destruct (find_participant _ _) as [p|]; [|done].
  destruct (_ <? _); simpl; by rewrite <- IH.
Qed.
Lemma pending_count f : pending_marker_candidate_count f = zlen (pending_markers f).
Proof.
  unfold pending_marker_candidate_count, pending_markers.
  induction (scf_immutable_candidates (cf_sequence f)) as [|[] cs IH]; [done|done|].
  rewrite markers_of_cons. simpl. by rewrite !zlen_cons, IH.
Qed.

(** ** Charges *)

Lemma credited_spec markers c : credited (map credit_of markers) c = true <->
  rrc_delivery_seq c ∈ map rcr_delivery_seq markers.
Proof.
  unfold credited. rewrite existsb_exists. split.
  - intros (k & Hk & E). apply in_map_iff in Hk as (r & <- & Hr). apply Z.eqb_eq in E. simpl in E.
    rewrite <- E. apply list_elem_of_fmap_2. by apply list_elem_of_In.
  - intros H. apply list_elem_of_fmap in H as (r & -> & Hr). exists (credit_of r).
    split; [apply in_map; by apply list_elem_of_In|]. apply Z.eqb_refl.
Qed.
Lemma plain_app markers a b : plain_charges markers (a ++ b) = plain_charges markers a ++ plain_charges markers b.
Proof. unfold plain_charges, unmarked. by rewrite List.filter_app. Qed.
Lemma plain_new markers charges :
  (forall x, x ∈ map rrc_delivery_seq charges -> x ∉ map rcr_delivery_seq markers) ->
  plain_charges markers charges = charges.
Proof.
  intros H. unfold plain_charges, unmarked. apply filter_all. intros c Hc. apply negb_true_iff.
  apply not_true_iff_false. rewrite credited_spec. apply H. by apply list_elem_of_fmap_2.
Qed.
Lemma markers_in_rows f x : frontier_inv f -> x ∈ map rcr_delivery_seq (cf_marker_records f) ->
  x ∈ map rcr_delivery_seq (cf_retained_records f).
Proof.
  intros Hf H. apply list_elem_of_fmap in H as (r & -> & Hr). apply list_elem_of_fmap_2.
  by apply (proj1 (Forall_forall _ _) (markers_are f Hf)).
Qed.
Lemma weigh_more n m cs cs' :
  mkWRV (wrv_entries (weigh (mkWRV 0 0) n m cs) + charge_entries cs')
        (wrv_bytes (weigh (mkWRV 0 0) n m cs) + charge_bytes cs') = weigh (mkWRV 0 0) n m (cs ++ cs').
Proof. unfold weigh; simpl. destruct (charge_sums_app cs cs') as [-> ->]. f_equal; lia. Qed.
Lemma weigh_perm w n m cs cs' : cs ≡ₚ cs' -> weigh w n m cs = weigh w n m cs'.
Proof. intros H. unfold weigh. by destruct (charge_sums_perm _ _ H) as [-> ->]. Qed.

(** ** Rows appended *)

Lemma filter_ext_in_bool {A} (p q : A -> bool) l : (forall x, x ∈ l -> p x = q x) ->
  List.filter p l = List.filter q l.
Proof. intros H. apply filter_ext_in. intros x Hx. apply H. by apply list_elem_of_In. Qed.

Lemma appended_accounted m o o' active rows charges : owner_inv o -> owner_inv o' -> accounted m o ->
  appended o o' active rows charges ->
  (forall r, r ∈ cf_marker_records (lfo_frontiers o) ->
     unaccepted_by active r = unaccepted_by (participants_of o) r) ->
  (forall id, id ∈ map fp_participant_index (participants_of o) -> id ∈ map fp_participant_index active) ->
  accounted m o'.
Proof.
  intros Ho Ho' Hac [He _ _ Hn Ha Hc Hnew] Hun Hact. pose proof (oi_frontiers Ho) as Hf.
  pose proof (oi_frontiers Ho') as Hf'. fold (pending_markers (lfo_frontiers o)) in Hn.
  assert (pending_markers (lfo_frontiers o') = []) as Hp
    by (unfold pending_markers; by rewrite (ef_candidates He)).
  destruct Hac as [H1 H2 H3 H4 H5 H6 H7]. rewrite Hn in *. simpl in *. rewrite app_nil_r in *.
  assert (participants_of o' = active) as Hps by apply (ef_participants He).
  constructor; rewrite ?Hp, ?Hps, ?(ef_markers He); simpl; rewrite ?app_nil_r; try done.
  - by rewrite (ra_credits Ha).
  - rewrite (ra_anchors Ha), H2. f_equal. f_equal. apply filter_ext_in_bool. intros r Hr. by rewrite Hun.
  - intros id Hid. by apply Hact, H4.
  - rewrite (ra_baseline Ha), H6, weigh_more, Hc, (ef_slots He), plain_app. f_equal. f_equal. symmetry.
    apply plain_new. intros x Hx Hin. apply markers_in_rows in Hin; [|done].
    pose proof (rows_NoDup _ Hf') as Hnd. rewrite (ef_rows He), map_app in Hnd.
    apply NoDup_app in Hnd as (_ & Hd & _). apply (Hd x Hin).
    by rewrite <- (keys_delivery _ _ (proj1 Hnew)).
  - by rewrite (proj1 (ra_churn Ha)).
Qed.

(** ** Identities *)

Lemma find_participant_unique ps p : NoDup (map fp_participant_index ps) -> p ∈ ps ->
  find_participant (fp_participant_index p) ps = Some p.
Proof.
  induction ps as [|q ps IH]; intros Hnd Hp; [by apply not_elem_of_nil in Hp|]. simpl in *.
  apply NoDup_cons in Hnd as [Hq Hnd]. apply elem_of_cons in Hp as [->|Hp]; [by rewrite Z.eqb_refl|].
  destruct (Z.eqb_spec (fp_participant_index q) (fp_participant_index p)) as [E|]; [|by apply IH].
  exfalso. apply Hq. rewrite E. by apply list_elem_of_fmap_2.
Qed.
Lemma find_participant_None ps id : find_participant id ps = None <-> id ∉ map fp_participant_index ps.
Proof.
  induction ps as [|p ps IH]; simpl; [split; [|done]; intros _ H; by apply not_elem_of_nil in H|].
  destruct (Z.eqb_spec (fp_participant_index p) id) as [<-|E].
  - split; [done|]. intros H. exfalso. apply H. left.
  - rewrite IH, not_elem_of_cons. split; [|by intros [_ ?]]. intros H. split; [congruence|done].
Qed.
Lemma identities_NoDup f : frontier_inv f ->
  NoDup (map fp_participant_index (air_participants (cf_active_identities f))).
Proof. intros (Hr & _). by eapply ranks_NoDup. Qed.

(** An identity keeps its record when the list is only rearranged or extended. *)
Lemma find_participant_sub ps qs id p : NoDup (map fp_participant_index qs) ->
  (forall q, q ∈ ps -> q ∈ qs) -> find_participant id ps = Some p -> find_participant id qs = Some p.
Proof.
  intros Hnd Hsub H. apply find_participant_elem in H as [Hp <-]. apply find_participant_unique; auto.
Qed.
Lemma find_set_participant id new ps x : fp_participant_index new = id ->
  find_participant x (set_participant id new ps)
  = if x =? id then option_map (fun _ => new) (find_participant id ps) else find_participant x ps.
Proof.
  intros Hn. induction ps as [|p ps IH]; simpl; [by destruct (x =? id)|].
  destruct (Z.eqb_spec (fp_participant_index p) id) as [E|E]; simpl.
  - rewrite Hn. destruct (Z.eqb_spec x id) as [->|Hx]; [by rewrite Z.eqb_refl|].
    by rewrite !(proj2 (Z.eqb_neq _ _)) by congruence.
  - rewrite IH. destruct (Z.eqb_spec x id) as [->|Hx]; [|done].
    by rewrite (proj2 (Z.eqb_neq (fp_participant_index p) id)).
Qed.

(** Moving one cursor changes what that identity has accepted, and nothing else. *)
Lemma unaccepted_set id new ps r : fp_participant_index new = id -> find_participant id ps <> None ->
  unaccepted_by (set_participant id new ps) r
  = if marker_participant r =? id then fp_cursor new <? rcr_delivery_seq r else unaccepted_by ps r.
Proof.
  intros Hn Hid. unfold unaccepted_by. rewrite find_set_participant by done.
  destruct (Z.eqb_spec (marker_participant r) id); [|done]. by destruct (find_participant id ps).
Qed.
Lemma unaccepted_same id new ps p r : fp_participant_index new = id ->
  find_participant id ps = Some p -> fp_cursor new = fp_cursor p ->
  unaccepted_by (set_participant id new ps) r = unaccepted_by ps r.
Proof.
  intros Hn Hid Hc. rewrite unaccepted_set; [|done|by rewrite Hid].
  destruct (Z.eqb_spec (marker_participant r) id) as [E|]; [|done]. unfold unaccepted_by.
  by rewrite E, Hid, Hc.
Qed.

(** ** Counting *)

Lemma zlen_filter_or {A} (p q r : A -> bool) l :
  (forall x, x ∈ l -> p x = q x || r x /\ q x && r x = false) ->
  zlen (List.filter p l) = zlen (List.filter q l) + zlen (List.filter r l).
Proof.
  induction l as [|x l IH]; intros H; [done|]. simpl.
  destruct (H x ltac:(left)) as [-> Hd]. specialize (IH (fun y Hy => H y (list_elem_of_further _ _ _ Hy))).
  destruct (q x), (r x); simpl in *; try done; rewrite !zlen_cons; lia.
Qed.
Lemma filter_only {A B} (g : A -> B) (p : A -> bool) l x : NoDup (map g l) -> x ∈ l -> p x = true ->
  (forall y, y ∈ l -> p y = true -> g y = g x) -> List.filter p l = [x].
Proof.
  induction l as [|y l IH]; intros Hnd Hx Hp Hu; [by apply not_elem_of_nil in Hx|]. simpl in *.
  apply NoDup_cons in Hnd as [Hy Hnd]. apply elem_of_cons in Hx as [->|Hx].
  - rewrite Hp. f_equal. apply filter_none. intros z Hz. destruct (p z) eqn:Ez; [|done]. exfalso.
    apply Hy. rewrite <- (Hu z); [by apply list_elem_of_fmap_2|by right|done].
  - destruct (p y) eqn:Ey.
    + exfalso. apply Hy. rewrite (Hu y); [by apply list_elem_of_fmap_2|left|done].
    + apply IH; auto. intros z Hz. apply Hu. by right.
Qed.

(** ** Operations *)

Lemma enrolled_accounted {F} m o (operation : EnrollmentCommit F) charge o' : owner_inv o -> owner_inv o' ->
  accounted m o ->
  appended o o' (enrolled o operation) [retained_attached (ecm_attached operation)] [charge] ->
  accounted m o'.
Proof.
  intros Ho Ho' Hac Ha. pose proof (identities_NoDup _ (oi_frontiers Ho')) as Hnd.
  rewrite (ef_participants (ap_effect Ha)) in Hnd.
  assert (forall q, q ∈ participants_of o -> q ∈ enrolled o operation) as Hsub.
  { intros q Hq. unfold enrolled. rewrite sort_by_key_perm. apply elem_of_app. by left. }
  apply (appended_accounted _ _ _ _ _ _ Ho Ho' Hac Ha).
  - intros r Hr. pose proof (ac_active Hac (marker_participant r)) as Hin. unfold unaccepted_by.
    destruct (find_participant (marker_participant r) (participants_of o)) as [p|] eqn:Ef.
    + by rewrite (find_participant_sub _ _ _ _ Hnd Hsub Ef).
    + exfalso. apply find_participant_None in Ef. apply Ef, Hin, elem_of_app. left.
      by apply list_elem_of_fmap_2.
  - intros id Hid. apply list_elem_of_fmap in Hid as (q & -> & Hq). by apply list_elem_of_fmap_2, Hsub.
Qed.

(** A binding changed and rows were appended; the identity keeps its cursor. *)
Lemma rebound_accounted m o o' id p new rows charges : owner_inv o -> owner_inv o' -> accounted m o ->
  find_participant id (participants_of o) = Some p -> fp_participant_index new = id ->
  fp_cursor new = fp_cursor p ->
  appended o o' (set_participant id new (participants_of o)) rows charges -> accounted m o'.
Proof.
  intros Ho Ho' Hac Ef Hn Hc Ha. apply (appended_accounted _ _ _ _ _ _ Ho Ho' Hac Ha).
  - intros r _. by eapply unaccepted_same.
  - intros x. by rewrite set_participant_indices.
Qed.

(** The same with neither rows nor charges. *)
Lemma moved_accounted m o o' ps candidates : accounted m o ->
  effect (lfo_frontiers o) (lfo_frontiers o') ps (cf_retained_floor (lfo_frontiers o))
    (cf_retained_records (lfo_frontiers o)) (cf_marker_records (lfo_frontiers o)) candidates ->
  markers_of candidates = pending_markers (lfo_frontiers o) ->
  map fp_participant_index ps = map fp_participant_index (participants_of o) ->
  ca_marker_capacity_credits (lfo_closure_accounting o')
  = ca_marker_capacity_credits (lfo_closure_accounting o) ->
  ca_baseline (lfo_closure_accounting o') = ca_baseline (lfo_closure_accounting o) ->
  lfo_retained_charges o' = lfo_retained_charges o ->
  ca_episode_churn_used (lfo_closure_accounting o') = ca_episode_churn_used (lfo_closure_accounting o) ->
  ca_marker_anchors (lfo_closure_accounting o')
  = zlen (List.filter (unaccepted_by ps) (cf_marker_records (lfo_frontiers o)))
    + zlen (pending_markers (lfo_frontiers o)) ->
  accounted m o'.
Proof.
  intros [H1 H2 H3 H4 H5 H6 H7] He Hc Hi E1 E2 E3 E5 E4.
  assert (pending_markers (lfo_frontiers o') = pending_markers (lfo_frontiers o)) as Hp
    by (unfold pending_markers at 1; by rewrite (ef_candidates He)).
  assert (participants_of o' = ps) as Hps by apply (ef_participants He).
  constructor; rewrite ?Hp, ?Hps, ?(ef_markers He), ?(ef_slots He), ?E1, ?E2, ?E3, ?E5, ?Hi; done.
Qed.
Lemma pended_accounted m o b order d o' : owner_inv o -> accounted m o ->
  pend_binding_terminal_candidate o b order d = Ok o' -> accounted m o'.
Proof.
  intros Ho Hac H. apply pend_effect in H as (p & Ef & He & Hc & E1 & E2 & _); [|done].
  assert (pending_markers (lfo_frontiers o) = []) as Hp by (unfold pending_markers; by rewrite Hc).
  eapply moved_accounted; [done|exact He| | |by rewrite E1|by rewrite E1|done|by rewrite E1|].
  - by rewrite Hp.
  - by apply set_participant_indices.
  - rewrite E1, (ac_anchors Hac), Hp. f_equal. f_equal. symmetry. apply filter_ext_in_bool. intros r _.
    by eapply unaccepted_same.
Qed.

(** An acknowledgement retires exactly the anchors of the markers it crosses. *)
Definition crosses (id : ParticipantId) (from to : Z) (r : RetainedCausalRecord) : bool :=
  is_marker_of id r && (from <? rcr_delivery_seq r) && (rcr_delivery_seq r <=? to).
Lemma acknowledged_accounted m o o' id p cursor crossed : owner_inv o -> accounted m o ->
  find_participant id (participants_of o) = Some p -> acknowledged o o' id cursor crossed ->
  crossed = zlen (List.filter (crosses id (fp_cursor p) cursor) (cf_marker_records (lfo_frontiers o))) ->
  accounted m o'.
Proof.
  intros Ho Hac Ef [(q & Ef' & Hq & He) _ Ha Hc] Hx. rewrite Ef in Ef'. injection Ef' as <-.
  eapply moved_accounted; [done|exact He|done| |apply Ha| |done|apply (ra_churn Ha)|].
  - by apply set_participant_indices.
  - rewrite (ra_baseline Ha). by destruct (ca_baseline _).
  - rewrite (ra_anchors Ha), (ac_anchors Hac), Hx.
    rewrite (zlen_filter_or (unaccepted_by (participants_of o))
      (unaccepted_by (set_participant id (mkFrontierParticipant id cursor (fp_binding p)) (participants_of o)))
      (crosses id (fp_cursor p) cursor)); [lia|].
    intros r Hr. apply (proj1 (Forall_forall _ _) (markers_are _ (oi_frontiers Ho))) in Hr as [_ Hr].
    rewrite unaccepted_set; [|done|by rewrite Ef]. unfold crosses. rewrite is_marker_of_participant by done.
    destruct (Z.eqb_spec (marker_participant r) id) as [E|]; simpl; [|by rewrite orb_false_r, andb_false_r].
    unfold unaccepted_by. rewrite E, Ef.
    destruct (Z.ltb_spec (fp_cursor p) (rcr_delivery_seq r)), (Z.ltb_spec cursor (rcr_delivery_seq r)),
      (Z.leb_spec (rcr_delivery_seq r) cursor); simpl; split; done || lia.
Qed.
Lemma marker_crossed m o id p r : owner_inv o -> accounted m o ->
  r ∈ cf_marker_records (lfo_frontiers o) -> is_marker_of id r = true ->
  fp_cursor p < rcr_delivery_seq r ->
  zlen (List.filter (crosses id (fp_cursor p) (rcr_delivery_seq r)) (cf_marker_records (lfo_frontiers o)))
  = 1.
Proof.
  intros Ho Hac Hr Hm Hc. pose proof (ac_distinct Hac) as Hnd. apply NoDup_app in Hnd as (Hnd & _).
  pose proof (markers_are _ (oi_frontiers Ho)) as Hmk.
  rewrite (filter_only marker_participant _ _ r Hnd Hr); [done| |].
  - unfold crosses. rewrite Hm. simpl. rewrite (proj2 (Z.ltb_lt _ _)) by done. apply Z.leb_refl.
  - intros y Hy H. unfold crosses in H. apply andb_prop in H as [H _]. apply andb_prop in H as [H _].
    apply (proj1 (Forall_forall _ _) Hmk) in Hr as [_ Hr], Hy as [_ Hy].
    rewrite is_marker_of_participant in H, Hm by done. breflect. congruence.
Qed.

(** A drained marker was a pending one; its participant has not seen it. *)
Lemma drained_accounted max o o' m rest charge : owner_inv o -> owner_inv o' -> accounted max o ->
  marker_drained o o' m rest charge -> accounted max o'.
Proof.
  intros Ho Ho' Hac [Hc Hat He _ (state & _ & Ha) Hch Hnew]. pose proof (oi_frontiers Ho) as Hf.
  assert (pending_markers (lfo_frontiers o) = m :: markers_of rest) as Hp
    by (unfold pending_markers; by rewrite Hc, markers_of_cons).
  assert (pending_markers (lfo_frontiers o') = markers_of rest) as Hp'
    by (unfold pending_markers; by rewrite (ef_candidates He)).
  assert (participants_of o' = participants_of o) as Hps by apply (ef_participants He).
  destruct Hac as [H1 H2 H3 H4 H5 H6 H7]. rewrite Hp in *.
  assert (mca_delivery_seq m ∉ map rcr_delivery_seq (cf_retained_records (lfo_frontiers o))) as Hfresh.
  { pose proof (rows_NoDup _ (oi_frontiers Ho')) as Hnd. rewrite (ef_rows He), map_app in Hnd.
    apply NoDup_app in Hnd as (_ & Hd & _). intros Hin. by apply (Hd _ Hin), list_elem_of_singleton. }
  assert (marker_participant (marker_row m) = told m) as Hmp by done.
  constructor; rewrite ?Hp', ?Hps, ?(ef_markers He), ?(ef_slots He).
  - rewrite (ra_credits Ha), H1, zlen_app, zlen_cons. change (zlen [marker_row m]) with 1. lia.
  - rewrite (ra_anchors Ha), H2, List.filter_app, zlen_app, zlen_cons. simpl.
    assert (unaccepted_by (participants_of o) (marker_row m) = true) as ->.
    { unfold unaccepted_by. rewrite Hmp.
      destruct (find_participant (told m) (participants_of o)) as [p|] eqn:Ef.
      - apply find_participant_elem in Ef as [Hin _]. destruct Hf as (Hr & _).
        apply (ranks_elem _ _ _ _ Hr) in Hin as [_ Hcur]. apply Z.ltb_lt. simpl. lia.
      - apply find_participant_None in Ef. exfalso. apply Ef, H4, elem_of_app. right. left. }
    change (zlen [marker_row m]) with 1. lia.
  - rewrite map_app, <- app_assoc. simpl. by rewrite Hmp.
  - intros id. rewrite map_app, <- app_assoc. simpl. rewrite Hmp. apply H4.
  - rewrite map_app. apply NoDup_app. split_and!; [done| |apply NoDup_singleton].
    intros x Hx Hin. apply list_elem_of_singleton in Hin as ->. by apply Hfresh, markers_in_rows.
  - rewrite (ra_baseline Ha), Hch. transitivity (ca_baseline (lfo_closure_accounting o)); [by destruct (ca_baseline _)|].
    rewrite H6. f_equal. pose proof (oi_charges Ho) as [Hk _]. apply keys_delivery in Hk.
    rewrite plain_app. destruct Hnew as [Hnk _]. injection Hnk as Hnk _.
    assert (plain_charges (cf_marker_records (lfo_frontiers o) ++ [marker_row m]) [charge] = []) as ->.
    { apply filter_none. intros c Hcin. apply list_elem_of_singleton in Hcin as ->. apply negb_false_iff.
      apply credited_spec. rewrite map_app, Hnk. apply elem_of_app. right. by apply list_elem_of_singleton. }
    rewrite app_nil_r. unfold plain_charges, unmarked. apply filter_ext_in_bool. intros c Hcin. f_equal.
    apply eq_true_iff_eq. rewrite !credited_spec, map_app, elem_of_app. simpl. rewrite list_elem_of_singleton.
    split; [by left|]. intros [?|E]; [done|]. exfalso. apply Hfresh. simpl in E. rewrite <- E, <- Hk.
    by apply list_elem_of_fmap_2.
  - by rewrite (proj1 (ra_churn Ha)).
Qed.

(** A floor below every marker releases charges of rows that are no marker. *)
Lemma charges_split floor charges : StronglySorted Z.le (map rrc_delivery_seq charges) ->
  charges = charges_below floor charges ++ charges_from floor charges.
Proof.
  unfold charges_from. induction charges as [|c cs IH]; simpl; [done|]. intros Hs.
  inversion Hs as [|? ? Hs' Hc]; subst. destruct (Z.ltb_spec (rrc_delivery_seq c) floor).
  - rewrite (proj2 (Z.leb_gt _ _)) by done. simpl. f_equal. by apply IH.
  - rewrite (proj2 (Z.leb_le _ _)) by done. simpl. f_equal. symmetry. apply filter_all. intros d Hd.
    apply Z.leb_le. etrans; [done|]. apply (proj1 (Forall_forall _ _) Hc). by apply list_elem_of_fmap_2.
Qed.
Lemma charges_below_elem floor c charges : c ∈ charges_below floor charges -> rrc_delivery_seq c < floor.
Proof.
  induction charges as [|d ds IH]; simpl; [intros H; by apply not_elem_of_nil in H|].
  destruct (Z.ltb_spec (rrc_delivery_seq d) floor); [|intros H'; by apply not_elem_of_nil in H'].
  intros H'. apply elem_of_cons in H' as [->|?]; auto.
Qed.
Lemma charges_sorted o : owner_inv o -> StronglySorted Z.le (map rrc_delivery_seq (lfo_retained_charges o)).
Proof.
  intros Ho. destruct (oi_charges Ho) as [Hk _]. rewrite (keys_delivery _ _ Hk).
  pose proof (oi_frontiers Ho) as (_ & _ & _ & _ & _ & _ & -> & _). apply seqZ_sorted.
Qed.
(** Only the anchors can be off at a higher floor. *)
Lemma floored_rebooked m o o' ps floor : owner_inv o -> accounted m o -> floored o o' ps floor ->
  map fp_participant_index ps = map fp_participant_index (participants_of o) ->
  accounted m (rebooked o')
  /\ derived_anchors o' = zlen (List.filter (unaccepted_by ps) (cf_marker_records (lfo_frontiers o)))
                          + zlen (pending_markers (lfo_frontiers o))
  /\ ca_marker_anchors (lfo_closure_accounting o') = derived_anchors o.
Proof.
  intros Ho [H1 H2 H3 H4 H5 H6 H7] [He Hr Hm _ Ha Hc] Hi.
  assert (pending_markers (lfo_frontiers o') = pending_markers (lfo_frontiers o)) as Hp
    by (unfold pending_markers; by rewrite (ef_candidates He)).
  assert (participants_of o' = ps) as Hps by apply (ef_participants He).
  assert (cf_marker_records (lfo_frontiers o') = cf_marker_records (lfo_frontiers o)) as Hmk.
  { rewrite (ef_markers He). apply filter_all. intros r Hin. apply Z.leb_le.
    by apply (proj1 (Forall_forall _ _) Hm) in Hin. }
  split; [|unfold derived_anchors; rewrite Hps, Hmk, Hp; split; [done|by rewrite (ra_anchors Ha)]].
  constructor; simpl; unfold derived_anchors, participants_of; simpl; fold (participants_of o');
    rewrite ?Hp, ?Hps, ?Hmk, ?(ef_slots He), ?Hi; try done.
  - by rewrite (ra_credits Ha).
  - rewrite (ra_baseline Ha), Hc, H6.
    rewrite (charges_split floor (lfo_retained_charges o)) at 1 3 by (by apply charges_sorted).
    rewrite plain_app.
    assert (plain_charges (cf_marker_records (lfo_frontiers o)) (charges_below floor (lfo_retained_charges o))
            = charges_below floor (lfo_retained_charges o)) as ->.
    { apply plain_new. intros x Hx Hin. apply list_elem_of_fmap in Hx as (c & -> & Hc').
      apply charges_below_elem in Hc'. apply list_elem_of_fmap in Hin as (r & E & Hin).
      apply (proj1 (Forall_forall _ _) Hm) in Hin. lia. }
    unfold weigh; simpl. destruct (charge_sums_app (charges_below floor (lfo_retained_charges o))
      (plain_charges (cf_marker_records (lfo_frontiers o)) (charges_from floor (lfo_retained_charges o)))) as [-> ->].
    f_equal; lia.
  - by rewrite (proj1 (ra_churn Ha)).
Qed.
Lemma rebooked_same o : ca_marker_anchors (lfo_closure_accounting o) = derived_anchors o -> rebooked o = o.
Proof.
  intros E. unfold rebooked. rewrite <- E. destruct o as [f a c l]. unfold set_accounting; simpl. by destruct a.
Qed.
Lemma floored_accounted m o o' ps floor : owner_inv o -> accounted m o -> floored o o' ps floor ->
  map fp_participant_index ps = map fp_participant_index (participants_of o) ->
  (forall r, r ∈ cf_marker_records (lfo_frontiers o) ->
     unaccepted_by ps r = unaccepted_by (participants_of o) r) ->
  accounted m o'.
Proof.
  intros Ho Hac Hfl Hi Hun. destruct (floored_rebooked _ _ _ _ _ Ho Hac Hfl Hi) as (Hr & Hd & Hs).
  rewrite rebooked_same in Hr; [done|]. rewrite Hs, Hd. unfold derived_anchors. f_equal. f_equal. symmetry.
  by apply filter_ext_in_bool.
Qed.


(** A committed record: the accounting is rebuilt from the rows that stay. *)
Lemma surviving_markers floor markers :
  surviving floor (map credit_of markers) = map credit_of (from_floor floor markers).
Proof.
  unfold surviving, from_floor. induction markers as [|r rs IH]; simpl; [done|].
  destruct (_ <=? _); simpl; by rewrite IH.
Qed.
Lemma from_floor_filter floor (p : RetainedCausalRecord -> bool) rows :
  List.filter (fun a => floor <=? a) (map rcr_delivery_seq (List.filter p rows))
  = map rcr_delivery_seq (List.filter p (from_floor floor rows)).
Proof.
  unfold from_floor. induction rows as [|r rs IH]; simpl; [done|].
  destruct (p r) eqn:Ep, (_ <=? _) eqn:El; simpl; rewrite ?El, ?Ep; simpl; by rewrite IH.
Qed.
Lemma markers_of_map ms : markers_of (map ISC_Marker ms) = ms.
Proof. induction ms as [|m ms IH]; [done|]. cbn [map]. rewrite markers_of_cons. by rewrite IH. Qed.

Lemma recorded_accounted m o o' input plan state search : owner_inv o -> accounted m o ->
  rv_ok m -> opl_marker_max (ori_limits input) = m -> rv_ok (ori_encoded_record_charge input) ->
  recorded o o' input plan state search -> accounted m o'.
Proof.
  intros Ho Hac Hm Em Hch Hrec. pose proof (oi_frontiers Ho) as Hf.
  pose proof (rd_planned _ _ _ _ _ _ Hrec) as Hplan. pose proof (rd_effect _ _ _ _ _ _ Hrec) as He.
  destruct (rd_input _ _ _ _ _ _ Hrec) as [Ec Ea]. set (f := projection_facts (lfo_frontiers o) input) in *.
  destruct (preflight_markers f state (pl_preflight _ _ _ _ Hplan)) as [Hagree ->].
  pose proof (rd_new _ _ _ _ _ _ Hrec) as [Hnk Hnok]. apply Forall_cons in Hnok as [Hnok _].
  injection Hnk as Hnk _. pose proof (pl_caller _ _ _ _ Hplan) as Hcal. rewrite <- Hnk in Hcal.
  pose proof (oi_charges Ho) as [Hk Hco]. pose proof (keys_delivery _ _ Hk) as Hkeys.
  pose proof (rows_NoDup _ Hf) as Hnd.
  pose proof (pl_search _ _ _ _ Hplan) as (_ & _ & Hev & _). rewrite <- Hcal in Hev.
  apply evaluate_exact in Hev as (Hb & _ & Hcr & Han & Htold & _);
    [|by rewrite <- Em in Hm|by simpl; rewrite Ec|done|by simpl; rewrite Ec|done|done
     |by rewrite (pl_caller_charge _ _ _ _ Hplan)].
  change (opf_active_marker_credit_records f) with (cf_marker_records (lfo_frontiers o)) in *.
  rewrite surviving_markers in Hcr. set (floor := cs_floor search) in *.
  set (markers := from_floor floor (cf_marker_records (lfo_frontiers o))) in *.
  assert (pending_markers (lfo_frontiers o') = ofp_marker_candidates plan) as Hp.
  { unfold pending_markers. rewrite (ef_candidates He). apply markers_of_map. }
  assert (map told (ofp_marker_candidates plan)
          = map fp_participant_index (cs_marker_participants search)) as Htm.
  { pose proof (f_equal (map ao_participant_index) (pl_marker_keys _ _ _ _ Hplan)) as E.
    by rewrite !map_map in E. }
  pose proof (try_new_fields _ _ _ _ _ _ _ _ _ _ _ (pl_accounting _ _ _ _ Hplan)) as [Eacc _].
  assert (participants_of o' = participants_of o) as Hps by apply (ef_participants He).
  assert (map mc_participant_index (cs_surviving_credits search) ≡ₚ map marker_participant markers) as Hcm.
  { rewrite (Permutation_map _ Hcr), map_map. done. }
  constructor; rewrite ?Hp, ?Hps, ?(ef_markers He), ?(ef_slots He), ?(rd_accounting _ _ _ _ _ _ Hrec), ?Eacc;
    fold markers; simpl.
  - by rewrite (zlen_perm _ _ Hcr), zlen_map.
  - rewrite Han. change (opf_unaccepted_marker_anchors f)
      with (ordinary_unaccepted_marker_anchors (lfo_frontiers o)).
    rewrite unaccepted_anchors by done. rewrite from_floor_filter, zlen_map. done.
  - rewrite Htm. apply NoDup_app. split_and!.
    + pose proof (ac_distinct Hac) as Hd. apply NoDup_app in Hd as (Hd & _).
      by apply filter_map_NoDup.
    + intros x Hx Hin. rewrite <- Hcm in Hx. rewrite Htold in Hin.
      apply list_elem_of_fmap in Hin as (q & -> & Hq). apply filter_elem in Hq as [_ Hq].
      apply andb_prop in Hq as [_ Hq]. apply negb_true_iff, not_true_iff_false in Hq. apply Hq.
      apply existsb_exists. apply list_elem_of_fmap in Hx as (k & E & Hk'). exists k.
      split; [by apply list_elem_of_In|]. by apply Z.eqb_eq.
    + rewrite Htold. eapply sublist_NoDup; [|apply sublist_map, newly_overtaken_sub].
      by apply (identities_NoDup (lfo_frontiers o)).
  - intros id Hid. apply elem_of_app in Hid as [Hid|Hid].
    + apply list_elem_of_fmap in Hid as (r & -> & Hr). apply filter_elem in Hr as [Hr _].
      apply (ac_active Hac), elem_of_app. left. by apply list_elem_of_fmap_2.
    + rewrite Htm, Htold in Hid. eapply elem_of_sublist; [exact Hid|apply sublist_map, newly_overtaken_sub].
  - apply filter_map_NoDup. apply (ac_seqs Hac).
  - rewrite Hb. unfold suffix_baseline. change (opf_limits f) with (ori_limits input). rewrite Em.
    f_equal. change (opf_retained_charges f) with (ori_retained_charges input). rewrite Ec.
    rewrite (rd_charges _ _ _ _ _ _ Hrec). unfold plain_charges, markers.
    change (charges_from (cs_floor search)) with (charges_at floor).
    rewrite <- surviving_markers, unmarked_surviving. f_equal.
    change (unmarked (map credit_of (cf_marker_records (lfo_frontiers o))))
      with (plain_charges (cf_marker_records (lfo_frontiers o))). rewrite plain_app. f_equal.
    symmetry. apply plain_new. intros x Hx Hin. apply list_elem_of_singleton in Hx as ->.
    apply markers_in_rows in Hin; [|done].
    apply list_elem_of_fmap in Hin as (r & E & Hr). rewrite Hcal in E.
    pose proof Hf as (_ & _ & _ & _ & _ & Hfl & Hrows & _).
    pose proof (row_in _ _ _ r Hrows Hr) as Hin. simpl in E. lia.
  - done.
Qed.

(** A Leave takes the marker of the identity out of the credits and its row into the
    baseline.  The stored anchors lose one with it, so the marker must be unaccepted. *)
Lemma filter_negb_perm {A} (p : A -> bool) l :
  l ≡ₚ List.filter p l ++ List.filter (fun x => negb (p x)) l.
Proof.
  induction l as [|x l IH]; simpl; [done|]. destruct (p x); simpl; [by rewrite <- IH|].
  by rewrite <- Permutation_middle, <- IH.
Qed.
Lemma filter_filter_and {A} (p q : A -> bool) l :
  List.filter p (List.filter q l) = List.filter (fun x => q x && p x) l.
Proof. induction l as [|x l IH]; simpl; [done|]. destruct (q x); simpl; [|done]. by rewrite IH. Qed.

Lemma credited_cons r rs c : credited (map credit_of (r :: rs)) c
  = (rcr_delivery_seq r =? rrc_delivery_seq c) || credited (map credit_of rs) c.
Proof. done. Qed.

(** Dropping one marker makes exactly its row a plain one. *)
Lemma plain_retire markers r rest charges c : markers ≡ₚ r :: rest ->
  NoDup (map rcr_delivery_seq markers) -> NoDup (map rrc_delivery_seq charges) ->
  c ∈ charges -> rrc_delivery_seq c = rcr_delivery_seq r ->
  plain_charges rest charges ≡ₚ c :: plain_charges markers charges.
Proof.
  intros Hp Hm Hnd Hc E. unfold plain_charges.
  rewrite (unmarked_perm (map credit_of markers) (map credit_of (r :: rest))) by (by rewrite Hp).
  rewrite (Permutation_map _ Hp) in Hm. simpl in Hm. apply NoDup_cons in Hm as [Hr _].
  rewrite (filter_negb_perm (fun d => rcr_delivery_seq r =? rrc_delivery_seq d)
             (unmarked (map credit_of rest) charges)).
  rewrite (filter_only rrc_delivery_seq _ _ c).
  - apply (perm_skip c). unfold unmarked. rewrite filter_filter_and. apply eq_perm, filter_ext. intros d.
    rewrite credited_cons. by destruct (_ =? _), (credited _ _).
  - by apply filter_map_NoDup.
  - apply filter_elem. split; [done|]. apply negb_true_iff, not_true_iff_false. rewrite credited_spec. by rewrite E.
  - by apply Z.eqb_eq.
  - intros d _ Hd. apply Z.eqb_eq in Hd. congruence.
Qed.

Lemma departure_markers m o pid retired : owner_inv o -> accounted m o ->
  retired_marker_charge (lfo_frontiers o) (lfo_retained_charges o) pid = Ok retired ->
  let markers := cf_marker_records (lfo_frontiers o) in
  let rest := List.filter (fun r => negb (is_marker_of pid r)) markers in
  exists gone, markers ≡ₚ gone ++ rest /\ zlen gone = of_bool (is_some retired)
  /\ (forall r, r ∈ gone -> marker_participant r = pid)
  /\ (forall r, r ∈ rest -> marker_participant r <> pid)
  /\ plain_charges rest (lfo_retained_charges o)
     ≡ₚ option_list retired ++ plain_charges markers (lfo_retained_charges o).
Proof.
  intros Ho Hac Hret markers rest. pose proof (markers_are _ (oi_frontiers Ho)) as Hmk. fold markers in Hmk.
  assert (forall r, r ∈ markers -> is_marker_of pid r = (marker_participant r =? pid)) as His.
  { intros r Hr. apply is_marker_of_participant. by apply (proj1 (Forall_forall _ _) Hmk) in Hr as [_ ?]. }
  assert (forall r, r ∈ rest -> marker_participant r <> pid) as Hrest.
  { intros r Hr. apply filter_elem in Hr as [Hr Hn]. rewrite His in Hn by done. intros E.
    by rewrite E, Z.eqb_refl in Hn. }
  pose proof (ac_distinct Hac) as Hd. apply NoDup_app in Hd as (Hd & _).
  exists (List.filter (is_marker_of pid) markers). pose proof (filter_negb_perm (is_marker_of pid) markers) as Hp.
  unfold retired_marker_charge in Hret. fold markers in Hret.
  destruct (List.find (is_marker_of pid) markers) as [r|] eqn:Ef.
  - apply find_some in Ef as [Hin Hr]. apply list_elem_of_In in Hin.
    destruct (List.find _ (lfo_retained_charges o)) as [c|] eqn:Efc; [|done]. injection Hret as <-.
    apply find_some in Efc as [Hc Ec]. apply list_elem_of_In in Hc. apply Z.eqb_eq in Ec.
    assert (List.filter (is_marker_of pid) markers = [r]) as Eg.
    { apply (filter_only marker_participant); try done. intros y Hy H. rewrite His in H, Hr by done. breflect.
      congruence. }
    rewrite Eg in *. split_and!; try done.
    + intros y Hy. apply list_elem_of_singleton in Hy as ->. rewrite His in Hr by done. by apply Z.eqb_eq.
    + simpl. apply (plain_retire markers r); try done; [apply Hac|].
      pose proof (oi_charges Ho) as [Hk _]. rewrite (keys_delivery _ _ Hk). apply rows_NoDup, Ho.
  - injection Hret as <-. assert (forall y, y ∈ markers -> is_marker_of pid y = false) as Hno.
    { intros y Hy. apply (find_none _ _ Ef). by apply list_elem_of_In. }
    rewrite (filter_none _ _ Hno) in *. split_and!; try done.
    + intros r Hr. by apply not_elem_of_nil in Hr.
    + simpl. unfold rest. rewrite filter_all; [done|]. intros y Hy. by rewrite Hno.
Qed.

(** Who stays has accepted what it had accepted. *)
Lemma departed_unaccepted o o' pid rows charges retired r : owner_inv o ->
  departed o o' pid rows charges retired -> marker_participant r <> pid ->
  unaccepted_by (participants_of o') r = unaccepted_by (participants_of o) r.
Proof.
  intros Ho [(ps' & Hrem & He) _ _ _ _ _ _ _] Hne.
  apply remove_participant_perm in Hrem as (p & Hpid & Hperm & _).
  assert (participants_of o' = ps') as -> by apply (ef_participants He).
  pose proof (identities_NoDup _ (oi_frontiers Ho)) as Hnd. unfold unaccepted_by.
  destruct (find_participant (marker_participant r) ps') as [q|] eqn:Ef.
  - rewrite (find_participant_sub ps' (participants_of o) _ q); try done.
    intros x Hx. rewrite Hperm. by right.
  - apply find_participant_None in Ef.
    rewrite (proj2 (find_participant_None (participants_of o) _)); [done|].
    rewrite Hperm. simpl. rewrite Hpid, not_elem_of_cons. done.
Qed.

Lemma departed_accounted m o o' pid rows charges retired : owner_inv o -> owner_inv o' -> accounted m o ->
  departed o o' pid rows charges retired ->
  (forall r, r ∈ cf_marker_records (lfo_frontiers o) -> marker_participant r = pid ->
     unaccepted_by (participants_of o) r = true) ->
  accounted m o'.
Proof.
  intros Ho Ho' Hac Hdep Hun. pose proof Hdep as [(ps' & Hrem & He) _ Hnm [Hat _] Hret Ha Hc Hnew].
  destruct (departure_markers m o pid retired Ho Hac Hret) as (gone & Hp & Hg & Hgone & Hrest & Hplain).
  set (markers := cf_marker_records (lfo_frontiers o)) in *.
  set (rest := List.filter (fun r => negb (is_marker_of pid r)) markers) in *.
  apply remove_participant_perm in Hrem as (p & Hpid & Hperm & Hsub).
  assert (pending_markers (lfo_frontiers o) = []) as Hp0 by done.
  assert (pending_markers (lfo_frontiers o') = []) as Hp'
    by (unfold pending_markers; by rewrite (ef_candidates He)).
  assert (participants_of o' = ps') as Hps by apply (ef_participants He).
  pose proof (identities_NoDup _ (oi_frontiers Ho)) as Hnd.
  destruct Hac as [H1 H2 H3 H4 H5 H6 H7]. rewrite Hp0 in *. fold markers in H1, H2, H3, H4, H5, H6.
  simpl in *. rewrite app_nil_r, Z.add_0_r in *.
  assert (forall r, r ∈ rest -> unaccepted_by ps' r = unaccepted_by (participants_of o) r) as Hsame.
  { intros r Hr. rewrite <- Hps. by eapply departed_unaccepted; [| |apply Hrest]. }
  assert (zlen (List.filter (unaccepted_by (participants_of o)) gone) = zlen gone) as Hall.
  { rewrite filter_all; [done|]. intros r Hr. apply Hun; [|by apply Hgone]. rewrite Hp.
    apply elem_of_app. by left. }
  constructor; rewrite ?Hp', ?Hps, ?(ef_markers He), ?(ef_slots He); fold markers; fold rest; simpl;
    rewrite ?app_nil_r, ?Z.add_0_r.
  - rewrite (ra_credits Ha), H1, (zlen_perm _ _ Hp), zlen_app. lia.
  - rewrite (ra_anchors Ha), H2, (zlen_perm _ _ (filter_perm _ _ _ Hp)), List.filter_app, zlen_app, Hall.
    rewrite (filter_ext_in_bool _ _ _ Hsame). lia.
  - by apply filter_map_NoDup.
  - intros id Hid. apply list_elem_of_fmap in Hid as (r & -> & Hr). pose proof (Hrest r Hr) as Hne.
    assert (marker_participant r ∈ map fp_participant_index (participants_of o)) as Hin.
    { apply H4, list_elem_of_fmap_2. by apply filter_elem in Hr as [? _]. }
    rewrite Hperm in Hin. simpl in Hin. rewrite Hpid in Hin. by apply elem_of_cons in Hin as [?|?].
  - by apply filter_map_NoDup.
  - rewrite (ra_baseline Ha), H6, weigh_more, Hc. apply weigh_perm.
    transitivity (plain_charges rest (lfo_retained_charges o ++ charges)).
    2:{ apply filter_perm. symmetry. apply sort_by_key_perm. }
    rewrite plain_app, Hplain, (plain_new rest charges).
    { rewrite (Permutation_app_comm (option_list retired)), <- app_assoc.
      by rewrite (Permutation_app_comm charges). }
    intros x Hx Hin. rewrite (keys_delivery _ _ (proj1 Hnew)), Hat in Hx. apply elem_of_seqZ in Hx.
    apply list_elem_of_fmap in Hin as (r & E & Hr). apply filter_elem in Hr as [Hr _].
    apply (proj1 (Forall_forall _ _) (markers_are _ (oi_frontiers Ho))) in Hr as [Hr _].
    pose proof (oi_frontiers Ho) as (_ & _ & _ & _ & _ & Hfl & Hrows & _).
    pose proof (row_in _ _ _ r Hrows Hr). lia.
  - by rewrite (proj1 (ra_churn Ha)).
Qed.

(** The accounting and the rows of an owner determine its books. *)
Lemma accounted_ext m o o' : lfo_frontiers o' = lfo_frontiers o ->
  lfo_closure_accounting o' = lfo_closure_accounting o ->
  lfo_retained_charges o' = lfo_retained_charges o -> accounted m o -> accounted m o'.
Proof.
  intros E1 E2 E3 [H1 H2 H3 H4 H5 H6 H7].
  assert (participants_of o' = participants_of o) as Hp by (unfold participants_of; by rewrite E1).
  constructor; rewrite ?E1, ?E2, ?E3, ?Hp; done.
Qed.
Lemma minted_accounted m o issued : accounted m o ->
  accounted m (set_frontiers o (set_fenced_issued (lfo_frontiers o) issued)).
Proof. intros [H1 H2 H3 H4 H5 H6 H7]. by constructor. Qed.

(** Where the books agree there is no orphaned anchor. *)
Lemma reconcile_accounted m o : owner_inv o -> accounted m o ->
  reconcile_orphaned_marker_anchors o = (o, 0).
Proof.
  intros Ho Hac. destruct (reconcile_spec o Ho) as [|(Hlt & _)]; [done|]. exfalso.
  assert (unaccepted_marker_anchor_count (lfo_frontiers o) + pending_marker_candidate_count (lfo_frontiers o)
          = ca_marker_anchors (lfo_closure_accounting o)) as E.
  { unfold unaccepted_marker_anchor_count. rewrite (ac_anchors Hac), pending_count, unaccepted_anchors, zlen_map;
      [done|apply Ho]. }
  rewrite E in Hlt. pose proof (oi_accounting Ho) as (_ & (_ & Han & _) & _). mlia.
Qed.

Lemma start_accounted m o : owner_start m o -> accounted m o.
Proof.
  intros [EF V LF F P input values allocate c charge commit limit Hi Hm Ha Hf ->].
  destruct (start_frontiers _ _ _ _ _ _ Hi Ha Hf) as (Hv & -> & -> & Hat).
  constructor; simpl; try done; try (by constructor).
  unfold charged, uncharged, weigh, charge_entries, charge_bytes; simpl. rewrite Hm. f_equal; lia.
Qed.

(** ** Runs that keep the books *)

(** What a step is asked so that the stored accounting stays right: a binding change
    carries the cursor the frontiers have; a marker is acknowledged once; the configured
    maximum does not change; a binding dies, without a finalizer reserved, only once its
    markers are acknowledged; an identity leaves only before its marker is. *)
Definition books_kept (marker_max : ResourceVector) (o : LiveFrontierOwner) (ev : OwnerEvent) : Prop :=
  match ev with
  | OE_Rebound id cursor =>
      forall p, find_participant id (participants_of o) = Some p -> fp_cursor p = cursor
  | OE_MarkerAcked id marker =>
      forall p, find_participant id (participants_of o) = Some p -> fp_cursor p < marker
  | OE_Recorded max => max = marker_max
  | OE_Fate id reserve =>
      reserve = false -> forall r, r ∈ cf_marker_records (lfo_frontiers o) ->
      marker_participant r = id -> unaccepted_by (participants_of o) r = false
  | OE_Left id =>
      forall r, r ∈ cf_marker_records (lfo_frontiers o) ->
      marker_participant r = id -> unaccepted_by (participants_of o) r = true
  | OE_Other => True
  end.

Lemma find_set_cases id ps : find_participant id ps <> None -> exists p, find_participant id ps = Some p.
Proof. destruct (find_participant id ps) as [p|]; [by exists p|done]. Qed.

(** A binding that died keeps the anchors where they are. *)
Lemma fate_unaccepted o id (reserve : bool) epoch p r : owner_inv o ->
  find_participant id (participants_of o) = Some p ->
  r ∈ cf_marker_records (lfo_frontiers o) ->
  (reserve = false -> marker_participant r = id -> unaccepted_by (participants_of o) r = false) ->
  unaccepted_by (set_participant id
    (mkFrontierParticipant id (if reserve then fp_cursor p
       else sl_high_watermark (scf_ledger (cf_sequence (lfo_frontiers o)))) (FB_Detached epoch))
    (participants_of o)) r = unaccepted_by (participants_of o) r.
Proof.
  intros Ho Ef Hr Hk. destruct reserve; [by eapply unaccepted_same|].
  rewrite unaccepted_set; [|done|by rewrite Ef]. simpl.
  destruct (Z.eqb_spec (marker_participant r) id) as [E|]; [|done]. rewrite Hk by done.
  apply Z.ltb_ge. apply (proj1 (Forall_forall _ _) (markers_are _ (oi_frontiers Ho))) in Hr as [Hr _].
  pose proof (oi_frontiers Ho) as (_ & _ & _ & _ & _ & Hfl & Hrows & _).
  pose proof (row_in _ _ _ r Hrows Hr). lia.
Qed.

Lemma step_accounted m o ev o' : rv_ok m -> owner_inv o -> accounted m o -> owner_step o ev o' ->
  books_kept m o ev -> accounted m o'.
Proof.
  intros Hm Ho Hac Hstep. pose proof (owner_step_inv _ _ _ Ho Hstep) as Ho'.
  destruct Hstep; simpl; intros Hbk.
  - apply enrollment_appends in H1 as [Ha _]; [|done..]. exact (enrolled_accounted _ _ _ _ _ Ho Ho' Hac Ha).
  - apply attach_appends in H2 as (rows & Ha & _ & Hid); [|done..].
    apply find_set_cases in Hid as [p Ef]. specialize (Hbk _ Ef).
    by refine (rebound_accounted _ _ _ _ _ _ _ _ Ho Ho' Hac Ef _ _ Ha).
  - apply detach_appends in H1 as [Ha Hid]; [|done..].
    apply find_set_cases in Hid as [p Ef]. specialize (Hbk _ Ef).
    by refine (rebound_accounted _ _ _ _ _ _ _ _ Ho Ho' Hac Ef _ _ Ha).
  - apply prepared_owner in H0 as [Hp _]. apply terminal_committed in H1 as (k & d' & H1); [|done].
    rewrite Hp in H1. apply commit_terminal_appends in H1 as (q & Hq & Ha); [|done..].
    by refine (rebound_accounted _ _ _ _ _ _ _ _ Ho Ho' Hac Hq _ _ Ha).
  - apply prepared_owner in H as [Hp _]. apply terminal_pended in H0 as (k & d' & H0).
    rewrite Hp in H0. exact (pended_accounted _ _ _ _ _ _ Ho Hac H0).
  - apply drain_terminal_appends in H0; [|done..]. by apply (appended_accounted _ _ _ _ _ _ Ho Ho' Hac H0).
  - apply ack_acknowledges in H as (p & Ef & H); [|done].
    exact (acknowledged_accounted _ _ _ _ _ _ _ Ho Hac Ef H eq_refl).
  - apply ack_acknowledges in H as (p & Ef & H); [|done].
    exact (acknowledged_accounted _ _ _ _ _ _ _ Ho Hac Ef H eq_refl).
  - apply marker_ack_acknowledges in H as [H (r & Hr & Hmk & Hseq)]; [|done].
    destruct (ak_found _ _ _ _ _ H) as (p & Ef & _). specialize (Hbk _ Ef). rewrite <- Hseq in Hbk, H.
    apply (acknowledged_accounted _ _ _ _ _ _ _ Ho Hac Ef H). by rewrite (marker_crossed m).
  - apply drain_marker_drains in H0 as (mk & rest & H0); [|done..]. exact (drained_accounted _ _ _ _ _ _ Ho Ho' Hac H0).
  - destruct (record_records _ _ _ _ Ho H H0 H1 H2 H3) as (state & search & Hr).
    exact (recorded_accounted _ _ _ (projection_input s charge) _ _ _ Ho Hac Hm Hbk H1 Hr).
  - destruct (prepared_fate_floored _ _ _ _ _ _ Ho H H0) as (p & floor & Ef & Hfl & _).
    apply (floored_accounted _ _ _ _ _ Ho Hac Hfl); [by apply set_participant_indices|].
    intros r Hr. apply fate_unaccepted; try done. intros E1 E2. by apply Hbk.
  - apply finalized_floor_floored in H as [->|(r & H)]; [done| |done].
    by apply (floored_accounted _ _ _ _ _ Ho Hac H).
  - apply settled_leave_departs in H0 as (rows & retired & H0); [|done..].
    exact (departed_accounted _ _ _ _ _ _ _ Ho Ho' Hac H0 Hbk).
  - apply pending_leave_departs in H1 as (rows & retired & H1); [|done..].
    exact (departed_accounted _ _ _ _ _ _ _ Ho Ho' Hac H1 Hbk).
  - by rewrite (reconcile_accounted m o).
  - revert H. unfold mint_fenced_attach, take_fenced_marker_record.
    destruct (fenced_marker_source _ _) as [source|]; [|done].
    destruct (fenced_attach _ _ _ _ _); [|done]. intros [= <- _]. by apply minted_accounted.
Qed.

(** The owners reached by steps that keep the books. *)
Inductive booked_run (marker_max : ResourceVector) : LiveFrontierOwner -> Prop :=
| booked_start o : owner_start marker_max o -> booked_run marker_max o
| booked_step o ev o' : booked_run marker_max o -> owner_step o ev o' ->
    books_kept marker_max o ev -> booked_run marker_max o'.

Lemma booked_owner_run m o : booked_run m o -> owner_run o.
Proof. induction 1; [by eapply owner_run_start|by eapply owner_run_step]. Qed.
Lemma start_marker_max m o : owner_start m o -> rv_ok m.
Proof. intros [EF V LF F P input values allocate c charge commit limit Hi <- _ _ _]. apply Hi. Qed.
Lemma booked_marker_max m o : booked_run m o -> rv_ok m.
Proof. induction 1; [by eapply start_marker_max|done]. Qed.
Lemma booked_accounted m o : booked_run m o -> accounted m o.
Proof.
  induction 1 as [|o ev o' Hr IH Hs Hb]; [by apply start_accounted|].
  eapply step_accounted; [by eapply booked_marker_max| |exact IH|done|done].
  by eapply owner_run_inv, booked_owner_run.
Qed.
