(* ===== verification/OwnerSample.v ===== *)
(** * A sample conversation

    Two members share a conversation whose capacity holds four rows.  The sample is run
    through the operations of the live owner; the theorems about the owner are applied to
    the states it reaches. *)
From stdpp Require Import sorting.
From S2P Require Import Prelude OwnerAccounting Algebra Tags Wire Response Authority Order Sequence.
From S2P Require Import Edge Binding EdgeSteps Member Detach Leave Attach Lookup Capacity Slot.
From S2P Require Import Closure Cursor AckOperations Frontier FrontierNumeric FrontierLive.
From S2P Require Import RecordProjection RecordOperations FrontierInit EnrollmentClosure.
From S2P Require Import EnrollmentOperation FrontierRestore FrontierLeave LiveOwner OwnerFate.
From S2P Require Import FrontierInv FrontierRuns ProjectionRuns ProjectionCharges EnrollmentRuns.
From S2P Require Import LeaveRuns OwnerInv OwnerRuns.

Module Conversation.
Import Slot.Sample.

(** ** Operations on the sample *)

Definition unit_charge (bytes : Z) : ResourceVector := mkRV 1 bytes.
Definition marker_max : ResourceVector := unit_charge 10.
Definition bound : ResourceVector := unit_charge 10.
Definition cap : ResourceVector := mkRV 6 1000.

Definition first_closure : InitialEnrollmentClosureInput :=
  mkInitialEnrollmentClosureInput
    (mkClosureAccounting Closure_Clear 0 0 0 0 ResourceVector_default (mkWRV 2 20) cap 0 8) 2
    bound bound marker_max (unit_charge 5) 0 (epoch 1 1)
    (mkOrderLedger OH_Empty OrderClaims_default) (mkSequenceLedger 0 SequenceClaims_default 0) 1 0.
Definition counter : CapacityCounter := mkCapacityCounter 10 0.
Definition first_input : InitialEnrollmentOperationInput Z Z Z :=
  mkInitialEnrollmentOperationInput (mkEnrollmentRequest 9 (token Byte.x01)) ETP_Unmapped BS_Detached
    CCT_Untracked counter BSO_Empty
    (mkEnrollmentCapacityCounters counter counter (mkFreshParticipantCapacityCounter counter)
       (mkFreshParticipantCapacityCounter counter))
    first_closure.
Definition first_values : InitialEnrollmentCommitValues Z :=
  mkInitialEnrollmentCommitValues (secret Byte.x0a) (mkReceiptDeadlines 50 60)
    (mkEnrollmentFingerprint 77).
Definition first_slot : result (AllocatedParticipantSlot unit) ParticipantSlotAllocationError :=
  Ok (mkAllocatedSlot tt 9 0 2).

Definition started : option LiveFrontierOwner :=
  match apply_initial_enrollment first_input first_values first_slot with
  | IOD_Commit c =>
      match from_initial_enrollment c (unit_charge 5) with
      | Ok commit => Some (owner_from_initial_enrollment commit 100).2
      | Err _ => None
      end
  | _ => None
  end.

(** The second member. *)
Definition second_enrollment : option (EnrollmentCommit Z) :=
  ok (commit_enrollment (mkEnrollmentRequest 9 (token Byte.x02))
        (mkEnrollmentParameters (mkAllocatedSlot tt 9 1 2) (secret Byte.x0b) (epoch 2 1)
           (mkAttachedPosition 1 2) 50 60 (mkEnrollmentFingerprint 78))).
Definition enroll_second (o : LiveFrontierOwner) : option LiveFrontierOwner :=
  c ← second_enrollment;
  r ← ok (apply_enrollment_frontier o c
            (mkRetainedRecordCharge 2 (mkAdmissionOrder 1 CP_AttachLifecycle 1) (unit_charge 5)));
  Some (lfc_owner r).

Definition member (id : ParticipantId) (cursor : DeliverySeq) : LiveMember Z :=
  mkLiveMember id 9 1 (secret (if id =? 0 then Byte.x0a else Byte.x0b)) cursor
    (mkEnrollmentFingerprint (77 + id)) None.
Definition bound_as (id : ParticipantId) : ActiveBinding := mkActiveBinding id 9 (epoch (id + 1) 1).

Definition acknowledgement (id : ParticipantId) (from through : DeliverySeq) : ParticipantAckCommit :=
  mkParticipantAckCommit (mkAckCommitted (mkParticipantAckEnvelope 9 id 1 through))
    (mkLiveMemberCursorUpdate 9 id 1 from through) (epoch (id + 1) 1) from.
Definition acknowledges (id : ParticipantId) (from through : DeliverySeq) (o : LiveFrontierOwner)
    : option LiveFrontierOwner :=
  r ← ok (apply_participant_ack_frontier o (acknowledgement id from through)); Some (lfc_owner r).

Definition admission (id : ParticipantId) (observed : DeliverySeq) (o : LiveFrontierOwner)
    : RecordAdmissionPrestate Z Z Z :=
  mkRecordAdmissionPrestate (mkRecordAdmission 9 id 1 (token Byte.x05) [Byte.x00])
    (PI_Live (member id 0)) (BS_Bound (bound_as id)) (epoch (id + 1) 1) CCT_AlreadyTracked counter
    (lfo_closure_accounting o) (unit_charge 100) (lfo_frontiers o) (lfo_retained_charges o) observed
    (mkOrdinaryProjectionLimits marker_max bound bound).
Definition records (id : ParticipantId) (observed : DeliverySeq) (o : LiveFrontierOwner)
    : option LiveFrontierOwner :=
  match apply_record_admission (admission id observed o) (unit_charge 7) with
  | RAD_Commit c => Some (from_record_admission_persistence (into_persistence_parts c)
                            (lfo_retained_record_limit o))
  | _ => None
  end.

Definition marker_charge (o : LiveFrontierOwner) : RetainedRecordCharge :=
  match scf_immutable_candidates (cf_sequence (lfo_frontiers o)) with
  | ISC_Marker m :: _ => mkRetainedRecordCharge (mca_delivery_seq m) (mca_admission_order m) (unit_charge 6)
  | _ => mkRetainedRecordCharge 0 (mkAdmissionOrder 0 CP_CompactionMarker 0) (unit_charge 6)
  end.
Definition drain (o : LiveFrontierOwner) : option LiveFrontierOwner :=
  c ← ok (drain_next_marker (lfo_frontiers o) (lfo_closure_accounting o) (lfo_retained_charges o)
            (marker_charge o));
  Some (from_marker_drain c (lfo_retained_record_limit o)).1.1.

(** A bound member leaves, with the admission order the frontiers plan for it. *)
Definition leave_commit (id : ParticipantId) (cursor left : DeliverySeq) (o : LiveFrontierOwner)
    : result (LiveLeaveCommit Z Z Z) LiveLeaveError :=
  let? order := map_err LLE_Prepare
    (planned_settled_leave_admission_order (lfo_frontiers o) (member id cursor)
       (BS_Bound (bound_as id))) in
  commit_settled_leave_frontier o (member id cursor) (BS_Bound (bound_as id)) (DC_Empty : DetachCell Z)
    (mkVerifiedLeaveRequest 9 id 1 (token Byte.x06) 3 (mkLeaveFingerprint 4)) left
    (mkRetainedRecordCharge left order (unit_charge 4)).

(** The connection of a member is lost. *)
Definition die (id : ParticipantId) (order : TransactionOrder) (seq : DeliverySeq) (o : LiveFrontierOwner)
    : option LiveFrontierOwner :=
  p ← ok (prepare_binding_terminal o (bound_as id) BCC_Died order seq 2);
  match admit_binding_terminal p (bind_v3_charge (pbt_key p) (unit_charge 3)) with
  | BTA_Commit o' _ => Some o'
  | _ => None
  end.

Definition sample (steps : list (LiveFrontierOwner -> option LiveFrontierOwner))
    : option LiveFrontierOwner := fold_left (fun o step => o ≫= step) steps started.
(** The second member falls behind the floor, is told by a marker and acknowledges it. *)
Definition acknowledged_marker : option LiveFrontierOwner :=
  sample [enroll_second; acknowledges 0 0 2; records 0 2; drain; acknowledges 1 0 4].
(** Both fall behind; the second acknowledges its marker. *)
Definition both_told : option LiveFrontierOwner :=
  sample [enroll_second; records 0 2; drain; drain; acknowledges 1 0 5].
(** The second member was told and has not answered; then its binding dies. *)
Definition told_second : option LiveFrontierOwner :=
  sample [enroll_second; acknowledges 0 0 2; records 0 2; drain; die 1 3 5].
Definition fate_token : SealedBindingFateToken :=
  mkFateToken (Some (mkOrdinaryBindingAuthority (bound_as 1) 0)) None 0.
Definition fate_terminal : BindingFateTerminal :=
  BFT_Ordinary (mkCommittedDied (from_active (bound_as 1) 3) DDC_ConnectionLost 5).

(** ** The sample keeps the books *)

Lemma first_input_ok : input_ok first_closure.
Proof.
  unfold input_ok, accounting_ok, rv_ok, wrv_ok, u64, u128. split_and!; vm_compute; try done;
    split; discriminate.
Qed.
Lemma started_booked o : started = Some o -> booked_run marker_max o.
Proof.
  unfold started. destruct (apply_initial_enrollment _ _ _) as [|c|] eqn:Ea; try done.
  destruct (from_initial_enrollment c _) as [commit|] eqn:Ef; [|done]. intros [= <-].
  apply booked_start.
  by eapply (start_enrollment _ _ first_input); [exact first_input_ok| |exact Ea|exact Ef|].
Qed.

Definition keeps_books (step : LiveFrontierOwner -> option LiveFrontierOwner) : Prop :=
  forall o o', booked_run marker_max o -> step o = Some o' -> booked_run marker_max o'.
Lemma unit_range bytes : u64 bytes -> rv_ok (unit_charge bytes).
Proof. intros H. split; [|done]. by vm_compute. Qed.
Lemma enroll_books : keeps_books enroll_second.
Proof.
  intros o o' Hr. unfold enroll_second. destruct second_enrollment as [c|] eqn:Ec; simpl; [|done].
  destruct (apply_enrollment_frontier _ _ _) as [r|] eqn:Er; simpl; [|done]. intros [= <-].
  eapply booked_step; [done|eapply step_enrollment; [|  |exact Er]|done].
  - by apply unit_range.
  - vm_compute in Ec. injection Ec as <-. done.
Qed.
Lemma ack_books id from through : keeps_books (acknowledges id from through).
Proof.
  intros o o' Hr. unfold acknowledges.
  destruct (apply_participant_ack_frontier _ _) as [r|] eqn:Er; simpl; [|done]. intros [= <-].
  by eapply booked_step; [done|eapply step_ack; exact Er|].
Qed.
Lemma record_books id observed : u64 observed -> keeps_books (records id observed).
Proof.
  intros Hobs o o' Hr. unfold records.
  destruct (apply_record_admission _ _) as [| |c|] eqn:Er; try done. intros [= <-].
  eapply booked_step; [done|eapply (step_record o (admission id observed o)); [| | | |exact Er]|]; try done;
    by apply unit_range.
Qed.
Lemma drain_books : keeps_books drain.
Proof.
  intros o o' Hr. unfold drain. destruct (drain_next_marker _ _ _ _) as [c|] eqn:Ed; simpl; [|done].
  intros [= <-]. eapply booked_step; [done|eapply step_drain_marker; [|exact Ed]|done].
  unfold marker_charge. destruct (scf_immutable_candidates _) as [|[]]; by apply unit_range.
Qed.
Lemma die_books id order seq : keeps_books (die id order seq).
Proof.
  intros o o' Hr. unfold die. destruct (prepare_binding_terminal _ _ _ _ _ _) as [p|] eqn:Ep; simpl; [|done].
  destruct (admit_binding_terminal _ _) as [o1 position| |] eqn:Ea; try done. intros [= <-].
  eapply booked_step; [done|eapply step_terminal; [|exact Ep|exact Ea]|done]. by apply unit_range.
Qed.

Lemma sample_booked steps o : Forall keeps_books steps -> sample steps = Some o -> booked_run marker_max o.
Proof.
  unfold sample. intros Hs.
  assert (forall start, (forall o, start = Some o -> booked_run marker_max o) ->
    fold_left (fun o step => o ≫= step) steps start = Some o -> booked_run marker_max o) as H.
  { induction Hs as [|step steps Hstep _ IH]; intros start Hst; simpl; [apply Hst|]. apply IH.
    intros o'. destruct start as [o1|]; simpl; [|done]. apply Hstep, Hst. done. }
  apply H, started_booked.
Qed.
Lemma acknowledged_marker_booked o : acknowledged_marker = Some o -> booked_run marker_max o.
Proof.
  apply sample_booked. repeat (apply Forall_cons; split); auto using enroll_books, ack_books, drain_books, die_books;
    by apply record_books.
Qed.
Lemma told_second_booked o : told_second = Some o -> booked_run marker_max o.
Proof.
  apply sample_booked. repeat (apply Forall_cons; split); auto using enroll_books, ack_books, drain_books, die_books;
    by apply record_books.
Qed.
Lemma both_told_booked o : both_told = Some o -> booked_run marker_max o.
Proof.
  apply sample_booked. repeat (apply Forall_cons; split); auto using enroll_books, ack_books, drain_books, die_books;
    by apply record_books.
Qed.

End Conversation.
