(* ===== verification/OwnerProgress.v ===== *)
(** * The live owner: what it never refuses, and what it refuses for good

    While the books are kept, record admission never faults on the owner's own accounting;
    what an ordinary binding fate orphans, reconciliation retires.  A Leave after the
    leaver has acknowledged its marker breaks the books: with no other anchor stored it is
    refused for as long as the marker row is retained, otherwise it retires the anchor of
    another member and every later admission faults.  Whatever is refused leaves the owner
    as it was. *)
From stdpp Require Import sorting.
From S2P Require Import Prelude OwnerSample OwnerAccounting Algebra Tags Wire Response Authority Order.
From S2P Require Import Sequence Edge Binding EdgeSteps Member Detach Leave Attach Lookup Capacity Slot.
From S2P Require Import Closure Cursor AckOperations Frontier FrontierNumeric FrontierLive.
From S2P Require Import RecordProjection RecordOperations FrontierInit EnrollmentClosure.
From S2P Require Import EnrollmentOperation FrontierRestore FrontierLeave LiveOwner OwnerFate.
From S2P Require Import FrontierInv FrontierRuns ProjectionRuns ProjectionCharges EnrollmentRuns.
From S2P Require Import LeaveRuns OwnerInv OwnerRuns.


(** ** Admission on kept books *)

(** The errors that say the stored accounting disagrees with the retained rows. *)
Definition reads_books (e : OrdinaryProjectionError) : bool :=
  match e with
  | OPE_RetainedSuffix | OPE_RetainedChargeKey _ | OPE_MarkerCredit | OPE_MarkerAnchor
  | OPE_MarkerCreditAccounting _ _ | OPE_MarkerAnchorAccounting _ _ | OPE_BaselineAccounting _ _
  | OPE_ClearClosureResidue => true
  | _ => false
  end.
Definition blameless {A} (r : projection A) : Prop := forall e, r = Err e -> reads_books e = false.

Lemma blameless_bind {A B} (r : projection A) (k : A -> projection B) :
  blameless r -> (forall a, r = Ok a -> blameless (k a)) -> blameless (let? a := r in k a).
Proof. intros Hr Hk. destruct r as [a|e]; simpl; [by apply Hk|]. intros ? [= <-]. by apply Hr. Qed.
Lemma blameless_ok_or {A} (o : option A) e : reads_books e = false -> blameless (ok_or o e).
Proof. intros He. destruct o; simpl; intros ?; [done|]. by intros [= <-]. Qed.
Lemma blameless_map_err {A E} (g : E -> OrdinaryProjectionError) (r : result A E) :
  (forall e, reads_books (g e) = false) -> blameless (map_err g r).
Proof. intros Hg. destruct r as [a|e]; simpl; intros ?; [done|]. intros [= <-]. apply Hg. Qed.
Lemma blameless_Ok {A} (a : A) : blameless (Ok a).
Proof. done. Qed.
Lemma blameless_Err {A} e : reads_books e = false -> blameless (Err e : projection A).
Proof. by intros He ? [= <-]. Qed.

Create HintDb blameless.
#[export] Hint Resolve blameless_bind blameless_ok_or blameless_map_err blameless_Ok blameless_Err
  : blameless.

Lemma add_resource_blameless w r : blameless (checked_add_resource w r).
Proof. unfold checked_add_resource. auto 6 with blameless. Qed.
Lemma add_marker_blameless w n m : blameless (checked_add_marker_charge w n m).
Proof. unfold checked_add_marker_charge. auto 6 with blameless. Qed.
#[export] Hint Resolve add_resource_blameless add_marker_blameless : blameless.
Lemma charge_rows_blameless floor credits m rows : forall w charges,
  blameless (charge_rows floor credits m w rows charges).
Proof.
  induction rows as [|r rows IH]; intros w [|c charges]; simpl; try done.
  destruct (_ <? _); [apply IH|]. apply blameless_bind; auto with blameless.
Qed.
Lemma retained_charge_blameless f floor credits n c :
  blameless (retained_charge_at_floor f floor credits n c).
Proof.
  unfold retained_charge_at_floor. apply blameless_bind; [apply charge_rows_blameless|]. intros w _.
  apply blameless_bind; [|auto with blameless]. destruct c as [c|]; [destruct (_ <=? _)|];
    auto with blameless.
Qed.
Lemma required_blameless f b : blameless (required_maximum f b).
Proof. unfold required_maximum. auto with blameless. Qed.
#[export] Hint Resolve retained_charge_blameless required_blameless : blameless.

(** Distinct identities are at most as many as the slots. *)
Lemma distinct_within (ids xs : list Z) : NoDup ids -> (forall x, x ∈ ids -> x ∈ xs) ->
  zlen ids <= zlen xs.
Proof.
  intros Hnd Hsub. unfold zlen. apply inj_le, submseteq_length, NoDup_submseteq; [done|]. exact Hsub.
Qed.
Lemma identities_within f : frontier_inv f ->
  zlen (air_participants (cf_active_identities f)) <= cf_identity_slot_limit f.
Proof. by intros ((H & _) & _). Qed.
Lemma identity_below f id : frontier_inv f ->
  id ∈ map fp_participant_index (air_participants (cf_active_identities f)) ->
  id < cf_identity_slot_limit f.
Proof.
  intros (Hr & _) H. apply list_elem_of_fmap in H as (p & -> & Hp). by apply (ranks_elem _ _ _ _ Hr Hp).
Qed.

Section Books.
Context (o : LiveFrontierOwner) (max : ResourceVector) (input : OrdinaryRecordProjectionInput).
Hypothesis Ho : owner_inv o.
Hypothesis Hac : accounted max o.
Hypothesis Hmax : rv_ok max.
Hypothesis Hclear : scf_immutable_candidates (cf_sequence (lfo_frontiers o)) = [].
Hypothesis Haccounting : ori_closure_accounting input = lfo_closure_accounting o.
Hypothesis Hcharges : ori_retained_charges input = lfo_retained_charges o.
Hypothesis Hlimits : opl_marker_max (ori_limits input) = max.
Let f := projection_facts (lfo_frontiers o) input.

Lemma books_agree : markers_agree f.
Proof using Ho Hac Hclear Haccounting.
  assert (pending_markers (lfo_frontiers o) = []) as Hp by (unfold pending_markers; by rewrite Hclear).
  pose proof (oi_frontiers Ho) as Hf. destruct Hac as [H1 H2 H3 H4 H5 _ _]. rewrite Hp in *. simpl in *.
  rewrite app_nil_r, Z.add_0_r in *. unfold f.
  assert (zlen (cf_marker_records (lfo_frontiers o)) <= cf_identity_slot_limit (lfo_frontiers o)) as Hsl.
  { rewrite <- (zlen_map marker_participant). etrans; [apply (distinct_within _ _ H3 H4)|].
    rewrite zlen_map. by apply identities_within. }
  constructor; simpl; rewrite ?Haccounting; try done.
  - apply Forall_forall. intros r Hr. pose proof (markers_are _ Hf) as Hmk.
    destruct (proj1 (Forall_forall _ _) Hmk r Hr) as [Hin Hm].
    assert (marker_participant r ∈ map fp_participant_index (participants_of o)) as Hact
      by (by apply H4, list_elem_of_fmap_2).
    split_and!; try done. by apply (identity_below (lfo_frontiers o)).
  - rewrite unaccepted_anchors by done. by apply filter_map_NoDup.
  - intros x Hx. rewrite unaccepted_anchors in Hx by done. apply list_elem_of_fmap in Hx as (r & -> & Hr).
    apply filter_elem in Hr as [Hr _]. by apply list_elem_of_fmap_2.
  - rewrite unaccepted_anchors, zlen_map by done. by rewrite H2.
Qed.

(** Every round of the search has a slot for every credit it would hold. *)
Lemma rounds_blameless high floor : blameless (evaluate_floor f (marker_state_of f) high floor).
Proof using Ho Hac Hclear Haccounting.
  unfold evaluate_floor. apply blameless_bind; [auto with blameless|]. intros w _.
  apply blameless_bind; [auto with blameless|]. intros n Hn. apply blameless_bind; [|auto with blameless].
  unfold retained_baseline_wide. destruct (checked_add _ _ _) as [k|] eqn:Ek; simpl in Hn; [|done].
  injection Hn as ->. apply checked_add_Some in Ek as [-> _].
  destruct (Z.ltb_spec (opf_identity_slot_limit f)
    (zlen (List.filter (fun credit => floor <=? mc_delivery_seq credit) (ms_credits (marker_state_of f)))
     + zlen (newly_overtaken (opf_active_identities f)
         (List.filter (fun credit => floor <=? mc_delivery_seq credit) (ms_credits (marker_state_of f))) floor)))
    as [Hlt|]; [|auto with blameless].
  exfalso. set (live := List.filter _ (ms_credits _)) in *.
  assert (live ≡ₚ map credit_of (from_floor floor (cf_marker_records (lfo_frontiers o)))) as Hlive.
  { rewrite <- surviving_markers. apply filter_perm, sort_by_key_perm. }
  assert (map mc_participant_index live
          ≡ₚ map marker_participant (from_floor floor (cf_marker_records (lfo_frontiers o)))) as Hids.
  { rewrite (Permutation_map _ Hlive), map_map. done. }
  pose proof (ma_participants _ books_agree) as Hnd.
  pose proof (distinct_within
    (map mc_participant_index live
     ++ map fp_participant_index (newly_overtaken (opf_active_identities f) live floor))
    (map fp_participant_index (participants_of o))) as Hle.
  rewrite zlen_app, !zlen_map in Hle. pose proof (identities_within _ (oi_frontiers Ho)).
  change (opf_identity_slot_limit f) with (cf_identity_slot_limit (lfo_frontiers o)) in Hlt.
  apply (Zlt_not_le _ _ Hlt). etrans; [apply Hle|done].
  - apply NoDup_app. split_and!.
    + rewrite Hids. by apply filter_map_NoDup.
    + intros x Hx Hin. apply list_elem_of_fmap in Hin as (q & -> & Hq). apply filter_elem in Hq as [_ Hq].
      apply andb_prop in Hq as [_ Hq]. apply negb_true_iff, not_true_iff_false in Hq. apply Hq.
      apply existsb_exists. apply list_elem_of_fmap in Hx as (k & E & Hk'). exists k.
      split; [by apply list_elem_of_In|]. by apply Z.eqb_eq.
    + eapply sublist_NoDup; [|apply sublist_map, newly_overtaken_sub].
      apply (identities_NoDup (lfo_frontiers o)), Ho.
  - intros x Hx. apply elem_of_app in Hx as [Hx|Hx].
    + rewrite Hids in Hx. apply list_elem_of_fmap in Hx as (r & -> & Hr). apply filter_elem in Hr as [Hr _].
      apply (ac_active Hac), elem_of_app. left. by apply list_elem_of_fmap_2.
    + eapply elem_of_sublist; [exact Hx|]. apply sublist_map, newly_overtaken_sub.
Qed.
Lemma search_blameless fuel : forall high floor,
  blameless (search_loop fuel f (marker_state_of f) high floor).
Proof using Ho Hac Hclear Haccounting.
  induction fuel as [|fuel IH]; intros high floor; cbn [search_loop]; [by apply blameless_Err|].
  apply blameless_bind; [apply rounds_blameless|]. intros round _.
  destruct (admits _ _).
  - destruct (List.find _ _); auto with blameless.
  - destruct (next_sequence _ _ _); [|auto with blameless].
    destruct (List.find _ _); [auto with blameless|apply IH].
Qed.

Lemma clear_blameless : blameless (validate_clear_snapshot f).
Proof using Ho Hac Haccounting.
  unfold validate_clear_snapshot, f; simpl. rewrite Haccounting.
  case_bool_decide as Es; simpl; [|by apply blameless_Err].
  pose proof (oi_accounting Ho) as (_ & _ & _ & Hnew). rewrite Es in Hnew.
  unfold ClosureAccounting_try_new in Hnew. do 2 (destruct (_ : bool); [done|]).
  destruct (_ <? _); [done|]. do 2 (destruct (_ : bool); [done|]). simpl in Hnew.
  destruct (_ || _) eqn:Ek; [done|]. apply orb_false_elim in Ek as [_ Ek].
  apply negb_false_iff, bool_decide_eq_true in Ek. rewrite Ek, (ac_churn Hac).
  rewrite !bool_decide_true by done. simpl. destruct (_ <? _); auto with blameless.
Qed.
Lemma suffix_blameless : blameless (validate_retained_suffix f).
Proof using Ho Hcharges.
  pose proof (oi_frontiers Ho) as (_ & ((Hh & _) & _) & _ & _ & _ & Hfl & Hrows & _).
  pose proof (oi_charges Ho) as [Hk Hok]. unfold validate_retained_suffix, f; simpl. rewrite Hcharges.
  rewrite add_u128_exact by mlia.
  rewrite (proj2 (Z.ltb_ge _ _)) by lia.
  assert (zlen (cf_retained_records (lfo_frontiers o))
          = sl_high_watermark (scf_ledger (cf_sequence (lfo_frontiers o))) + 1
            - cf_retained_floor (lfo_frontiers o)) as Hl.
  { rewrite <- (zlen_map rcr_delivery_seq), Hrows. unfold zlen. rewrite length_seqZ. lia. }
  assert (length (cf_retained_records (lfo_frontiers o)) = length (lfo_retained_charges o)) as Hlen.
  { rewrite <- (length_map row_key), <- Hk. apply length_map. }
  rewrite (proj2 (Z.eqb_eq _ _)) by done. rewrite bool_decide_true by done. simpl.
  rewrite (proj2 (check_suffix_keys _ _ 0 _ Hlen)).
  - simpl. destruct (negb _); auto with blameless.
  - split_and!; [|done|]; [by rewrite Z.add_0_r, Hl, Hrows|].
    eapply Forall_impl; [exact Hok|]. by intros c [_ ?].
Qed.
Lemma preflight_blameless : blameless (projection_preflight f).
Proof using Ho Hac Hmax Hclear Haccounting Hcharges Hlimits.
  pose proof (oi_frontiers Ho) as Hf. pose proof (oi_charges Ho) as [Hk Hok].
  pose proof Hf as (_ & _ & _ & _ & _ & Hfl & Hrows & _).
  assert (charges_at (cf_retained_floor (lfo_frontiers o)) (lfo_retained_charges o)
          = lfo_retained_charges o) as Hall.
  { apply filter_all. intros c Hc. apply Z.leb_le.
    assert (rrc_delivery_seq c ∈ map rcr_delivery_seq (cf_retained_records (lfo_frontiers o))) as Hin
      by (rewrite <- (keys_delivery _ _ Hk); by apply list_elem_of_fmap_2).
    rewrite Hrows in Hin. apply elem_of_seqZ in Hin. lia. }
  destruct (validate_clear_snapshot f) as [[]|] eqn:E1;
    [|unfold projection_preflight; rewrite E1; simpl; intros ? [= <-]; by apply clear_blameless].
  destruct (validate_sender f) as [[]|] eqn:E2.
  2:{ unfold projection_preflight. rewrite E1, E2. simpl. intros ? [= <-]. unfold validate_sender in E2.
      destruct (find_participant _ _); [destruct (bool_decide _)|]; by simplify_eq. }
  destruct (validate_retained_suffix f) as [[]|] eqn:E3;
    [|unfold projection_preflight; rewrite E1, E2, E3; simpl; intros ? [= <-]; by apply suffix_blameless].
  rewrite preflight_succeeds; try done; unfold f; simpl.
  - by rewrite Hlimits.
  - rewrite Hcharges. by apply keys_delivery.
  - by apply rows_NoDup.
  - by rewrite Hcharges.
  - apply books_agree.
  - rewrite Haccounting, (ac_baseline Hac). unfold suffix_baseline. simpl. rewrite Hcharges, Hlimits.
    f_equal. rewrite app_nil_r. symmetry. apply filter_all. intros c Hc. apply filter_elem in Hc as [Hc _].
    rewrite <- Hall in Hc. by apply filter_elem in Hc as [_ ?].
  - rewrite Haccounting. pose proof (oi_accounting Ho) as (_ & _ & (_ & [[_ ?] [_ ?]] & _) & _). done.
  - by rewrite Hcharges.
Qed.
Lemma kernel_blameless : blameless (project_ordinary_fixed_point f).
Proof using Ho Hac Hmax Hclear Haccounting Hcharges Hlimits.
  unfold project_ordinary_fixed_point. change (opf_immutable_candidates f)
    with (scf_immutable_candidates (cf_sequence (lfo_frontiers o))). rewrite Hclear.
  apply blameless_bind; [apply preflight_blameless|]. intros state Hst.
  apply preflight_markers in Hst as [_ ->]. apply blameless_bind; [auto with blameless|]. intros order _.
  apply blameless_bind; [auto with blameless|]. intros high _.
  apply blameless_bind; [apply search_blameless|]. intros search _.
  destruct (_ <? _); [by apply blameless_Err|].
  do 3 (apply blameless_bind; [auto with blameless|]; intros ? _).
  apply blameless_bind; [|intros ms _].
  { generalize (cs_marker_participants search) as ps, 0 as i. clear.
    intros ps; induction ps as [|p ps IH]; intros i; simpl; [done|]. auto 8 with blameless. }
  do 3 (apply blameless_bind; [auto with blameless|]; intros ? _).
  destruct (negb _); auto with blameless.
Qed.
End Books.

Lemma projection_blameless o max input e : owner_inv o -> accounted max o -> rv_ok max ->
  ori_closure_accounting input = lfo_closure_accounting o ->
  ori_retained_charges input = lfo_retained_charges o -> opl_marker_max (ori_limits input) = max ->
  project_ordinary_record (lfo_frontiers o) input = Err e -> reads_books (opx_error e) = false.
Proof.
  intros Ho Hac Hm Ha Hc Hl. unfold project_ordinary_record. destruct (negb _); [by intros [= <-]|].
  destruct (scf_immutable_candidates (cf_sequence (lfo_frontiers o))) as [|k ks] eqn:Ek.
  2:{ unfold project_ordinary_fixed_point. simpl. by rewrite Ek. }
  pose proof (kernel_blameless o max input Ho Hac Hm Ek Ha Hc Hl) as Hb.
  destruct (project_ordinary_fixed_point _) as [[c|plan]|err] eqn:Ep; [done| |].
  2:{ intros [= <-]. simpl. by apply Hb. }
  destruct (check_observer_floor _ _ _); [|by intros [= <-]].
  destruct (check_remaining_closure _ _ _ _ _); [|by intros [= <-]].
  unfold apply_ordinary_projection, preflight_ordinary_sequence_owners, preflight_ordinary_order_owners.
  destruct (checked_add _ _ _); [|by intros [= <-]].
  destruct (negb _); [by intros [= <-]|]. destruct (all_move _ _); [|by intros [= <-]].
  destruct (negb _); [by intros [= <-]|]. destruct (all_move _ _); [|by intros [= <-]].
  destruct (validate_cross_counter _ _); [done|by intros [= <-]].
Qed.

(** A projection fault of an admission is an error of the projection. *)
Lemma fault_projection {EF V LF} (s : RecordAdmissionPrestate EF V LF) charge e u :
  apply_record_admission s charge = RAD_Fault (RAF_Projection e) u ->
  exists fail, project_ordinary_record (rap_frontiers s) (projection_input s charge) = Err fail
  /\ opx_error fail = e.
Proof.
  unfold apply_record_admission, settle, refused, fault.
  destruct (classify_record_admission_binding _ _ _ _); [done|].
  destruct (select_semantic_connection_capacity _ _); [|done].
  destruct (check_record_size _ _ _) as [size|] eqn:Es; [|done]. apply size_permit in Es. subst charge.
  destruct (_ && _).
  - unfold nonzero_debt_response, order_failure, sequence_failure. intros H. exfalso. revert H.
    destruct (allocate_order _ _ _) as [|[]]; try done.
    destruct (sl_plan_ordinary_record _ _) as [|[]]; try done.
    destruct (admit_sequence _ _) as [|[]]; try done. destruct (check_observer_floor _ _ _); [|done].
    destruct (RequiredCapacityPlan_ordinary _ _ _); [|done].
    by destruct (check_remaining_closure _ _ _ _ _).
  - fold (projection_input s (rsp_encoded_record_charge size)).
    destruct (project_ordinary_record _ _) as [[|p]|fail]; [done|done|].
    destruct (record_projection_failure _ _ _) as [|f] eqn:Ef; [done|]. intros [= -> _].
    exists fail. split; [done|]. revert Ef. destruct fail as [? ? err]; simpl.
    unfold record_projection_failure, order_failure, sequence_failure, capacity_failure.
    destruct err; try (by intros [= <-]).
    + match goal with e : OrderAdmissionError |- _ => by destruct e end.
    + match goal with e : SequenceAdmissionError |- _ => by destruct e end.
    + destruct (check_observer_floor _ _ _); [by intros [= <-]|done].
    + destruct (from_successors _); [|done]. by destruct (check_remaining_closure _ _ _ _ _).
    + destruct (from_successors _); [|done]. by destruct (check_remaining_closure _ _ _ _ _).
Qed.

(** ** A Leave after the marker was acknowledged *)

Lemma marker_retires o pid r retired : r ∈ cf_marker_records (lfo_frontiers o) ->
  is_marker_of pid r = true ->
  retired_marker_charge (lfo_frontiers o) (lfo_retained_charges o) pid = Ok retired ->
  is_some retired = true.
Proof.
  intros Hr Hm. unfold retired_marker_charge. destruct (List.find (is_marker_of pid) _) as [x|] eqn:Ef.
  - destruct (List.find _ (lfo_retained_charges o)); [|done]. by intros [= <-].
  - exfalso. apply list_elem_of_In in Hr. by rewrite (find_none _ _ Ef _ Hr) in Hm.
Qed.

(** Only a Leave retires the anchor of a marker that has none. *)
Lemma leaver_anchor o o' pid rows charges retired r : owner_inv o ->
  departed o o' pid rows charges retired -> r ∈ cf_marker_records (lfo_frontiers o) ->
  marker_participant r = pid ->
  1 <= ca_marker_anchors (lfo_closure_accounting o)
  /\ ca_marker_anchors (lfo_closure_accounting o') = ca_marker_anchors (lfo_closure_accounting o) - 1.
Proof.
  intros Ho Hd Hr Hp. pose proof (dp_accounting _ _ _ _ _ _ Hd) as Ha.
  pose proof (proj1 (Forall_forall _ _) (markers_are _ (oi_frontiers Ho)) r Hr) as [_ Hm].
  rewrite (marker_retires o pid r retired Hr) in Ha;
    [|by rewrite is_marker_of_participant, Hp, Z.eqb_refl|apply Hd].
  pose proof (ra_ok Ha) as (_ & (_ & Hu & _) & _). pose proof (ra_anchors Ha) as Han. simpl in Han.
  rewrite Han in *. split; [mlia|done].
Qed.

Lemma accepted_leave_anchors m o o' pid rows charges retired r : owner_inv o -> owner_inv o' ->
  accounted m o -> departed o o' pid rows charges retired ->
  r ∈ cf_marker_records (lfo_frontiers o) -> marker_participant r = pid ->
  unaccepted_by (participants_of o) r = false ->
  zlen (ordinary_unaccepted_marker_anchors (lfo_frontiers o'))
  = ca_marker_anchors (lfo_closure_accounting o') + 1
  /\ pending_markers (lfo_frontiers o') = []
  /\ scf_immutable_candidates (cf_sequence (lfo_frontiers o')) = [].
Proof.
  intros Ho Ho' Hac Hd Hr Hp Hun. destruct (leaver_anchor _ _ _ _ _ _ _ Ho Hd Hr Hp) as [_ ->].
  pose proof (dp_effect _ _ _ _ _ _ Hd) as (ps' & _ & He).
  destruct (departure_markers m o pid retired Ho Hac (dp_retired _ _ _ _ _ _ Hd))
    as (gone & Hperm & Hg & Hgone & Hrest & _).
  pose proof (ef_candidates He) as Hc. split_and!; [|unfold pending_markers; by rewrite Hc|done].
  rewrite unaccepted_anchors by apply Ho'. rewrite zlen_map. change (air_participants
    (cf_active_identities (lfo_frontiers o'))) with (participants_of o'). rewrite (ef_markers He).
  rewrite (ac_anchors Hac). pose proof (dp_no_markers _ _ _ _ _ _ Hd) as Hnm.
  fold (pending_markers (lfo_frontiers o)) in Hnm. rewrite Hnm.
  rewrite (filter_ext_in_bool (unaccepted_by (participants_of o')) (unaccepted_by (participants_of o))).
  2:{ intros x Hx. eapply departed_unaccepted; [done|done|by apply Hrest]. }
  rewrite (zlen_perm _ _ (filter_perm (unaccepted_by (participants_of o)) _ _ Hperm)), List.filter_app, zlen_app.
  rewrite (filter_none (unaccepted_by (participants_of o)) gone); [unfold zlen; simpl; lia|].
  intros x Hx. specialize (Hgone x Hx). pose proof (ac_distinct Hac) as Hnd.
  apply NoDup_app in Hnd as (Hnd & _).
  assert (x = r) as ->; [|done]. apply (NoDup_map_inj marker_participant _ Hnd); try congruence.
  rewrite Hperm. apply elem_of_app. by left.
Qed.

(** With more anchors derived than stored no record is admitted, and reconciliation,
    which only retires, does not help. *)
Lemma short_books_refuse {EF V LF} o (s : RecordAdmissionPrestate EF V LF) charge c : owner_inv o ->
  ca_marker_anchors (lfo_closure_accounting o)
  <> zlen (ordinary_unaccepted_marker_anchors (lfo_frontiers o)) ->
  prestate_of o s -> u64 (rap_observer_progress s) ->
  apply_record_admission s charge <> RAD_Commit c.
Proof.
  intros Ho Hne (E1 & E2 & E3) Hobs Hc. apply admission_committed in Hc. rewrite E1 in Hc.
  apply projection_effect in Hc as (state & search & Hplan & _); [|apply Ho|apply Ho|done].
  destruct (preflight_markers _ _ (pl_preflight _ _ _ _ Hplan)) as [Hagree _].
  pose proof (ma_anchors _ Hagree) as E. simpl in E. rewrite E2 in E. congruence.
Qed.
Lemma short_books_reconcile o :
  ca_marker_anchors (lfo_closure_accounting o)
  < zlen (ordinary_unaccepted_marker_anchors (lfo_frontiers o)) + pending_marker_candidate_count (lfo_frontiers o) ->
  ca_marker_anchors (lfo_closure_accounting o) < u64_max ->
  reconcile_orphaned_marker_anchors o = (o, 0).
Proof.
  intros Hlt Hu. unfold reconcile_orphaned_marker_anchors, checked_sub.
  unfold unaccepted_marker_anchor_count. by rewrite (proj2 (Z.ltb_lt _ _)) by lia.
Qed.

(** ** Reconciliation *)

Lemma derived_count f : frontier_inv f ->
  unaccepted_marker_anchor_count f
  = zlen (List.filter (unaccepted_by (air_participants (cf_active_identities f))) (cf_marker_records f)).
Proof. intros Hf. unfold unaccepted_marker_anchor_count. by rewrite unaccepted_anchors, zlen_map. Qed.

Lemma with_anchors_new a n : accounting_ok a -> n <= ca_marker_anchors a ->
  accounting_after_rows_with_state a [] (ca_state a) (mkMarkerAccounting (ca_marker_capacity_credits a) n)
    (ca_edge_sequence_claims a) (ca_edge_order_position_claims a) (ca_edge_k_remaining a)
  = Some (with_anchors a n).
Proof.
  intros (_ & _ & _ & H) Hn. unfold accounting_after_rows_with_state; simpl. revert H.
  unfold ClosureAccounting_try_new. do 2 (destruct (_ : bool); [done|]).
  destruct (Z.ltb_spec (ca_marker_capacity_credits a) (ca_marker_anchors a)); [done|].
  rewrite (proj2 (Z.ltb_ge (ca_marker_capacity_credits a) n)) by lia.
  do 2 (destruct (_ : bool); [done|]). by destruct (check_closure_state _ _ _ _).
Qed.
Lemma reconcile_rebooked o : owner_inv o ->
  derived_anchors o <= ca_marker_anchors (lfo_closure_accounting o) ->
  (reconcile_orphaned_marker_anchors o).1 = rebooked o.
Proof.
  intros Ho Hle. pose proof (oi_accounting Ho) as Hok. pose proof Hok as (_ & (_ & Hu & _) & _).
  unfold reconcile_orphaned_marker_anchors. rewrite derived_count, pending_count by apply Ho.
  change (zlen _ + zlen _) with (derived_anchors o). rewrite Z.min_r by mlia.
  unfold checked_sub. rewrite (proj2 (Z.ltb_ge _ _)) by done.
  destruct (Z.eqb_spec (ca_marker_anchors (lfo_closure_accounting o) - derived_anchors o) 0) as [E|E].
  - simpl. symmetry. apply rebooked_same. lia.
  - unfold accounting_after_marker_crossings, checked_sub.
    rewrite (proj2 (Z.ltb_ge _ _)).
    2:{ unfold derived_anchors. pose proof (zlen_nonneg (pending_markers (lfo_frontiers o))).
        pose proof (zlen_nonneg (List.filter (unaccepted_by (participants_of o)) (cf_marker_records (lfo_frontiers o)))).
        lia. }
    simpl. replace (ca_marker_anchors (lfo_closure_accounting o)
      - (ca_marker_anchors (lfo_closure_accounting o) - derived_anchors o)) with (derived_anchors o) by lia.
    by rewrite with_anchors_new.
Qed.

Lemma zlen_filter_le {A} (p q : A -> bool) l : (forall x, x ∈ l -> p x = true -> q x = true) ->
  zlen (List.filter p l) <= zlen (List.filter q l).
Proof.
  induction l as [|x l IH]; intros H; simpl; [done|].
  specialize (IH (fun y Hy => H y (list_elem_of_further _ _ _ Hy))). pose proof (H x ltac:(left)).
  destruct (p x), (q x); rewrite ?zlen_cons; lia.
Qed.

(** ** Refusals *)

(** What a refused operation of the owner hands back. *)
Definition kept {T} (o : LiveFrontierOwner) (r : LiveFrontierResult T) : Prop :=
  match r with Ok _ => True | Err e => lff_owner e = o end.

Lemma set_same_frontiers o : set_frontiers o (lfo_frontiers o) = o.
Proof. by destruct o. Qed.
(** The frontier operations give back the frontiers they refuse to change. *)
Lemma transition_refused f active rows ls lo f' e :
  apply_live_transition f active rows ls lo = Err (f', e) -> f' = f.
Proof.
  unfold apply_live_transition. destruct (live_transition_blocked f); [by intros [= <-]|].
  destruct (ActiveIdentityRanks_try_new _ _ _); [|by intros [= <-]].
  destruct (rows_positioned _ _ _); simpl; [|by intros [= <-]].
  destruct (rebuild_unreserved_frontiers _ _ _) as [[]|]; [done|by intros [= <-]].
Qed.
Lemma identity_refused f p f' e : apply_live_identity f p = Err (f', e) -> f' = f.
Proof.
  unfold apply_live_identity. destruct (find_participant _ _); [|by intros [= <-]].
  destruct (_ || _); [by intros [= <-]|done].
Qed.
Lemma fenced_refused f p epoch rows f' e : apply_live_fenced_attach f p epoch rows = Err (f', e) -> f' = f.
Proof.
  unfold apply_live_fenced_attach. destruct (find_participant _ _); [|by intros [= <-]].
  destruct (scf_recovery _); [|by intros [= <-]]. destruct (ocf_recovery _); [|by intros [= <-]].
  repeat match goal with
  | |- context [if ?b then _ else _] => destruct b; [by intros [= <-]|]
  | |- context [match ?x with _ => _ end] => destruct x; try (by intros [= <-])
  end; done.
Qed.

Lemma transition_kept {T} o (operation : T) active rows charges ls lo :
  kept o (transition o operation active rows charges ls lo).
Proof.
  unfold transition, failure. destruct (negb _); [done|]. destruct (negb _); [done|].
  destruct (accounting_after_rows _ _); [|done].
  destruct (apply_live_transition _ _ _ _ _) as [|[f' e]] eqn:E; [done|]. simpl.
  by rewrite (transition_refused _ _ _ _ _ _ _ E), set_same_frontiers.
Qed.
Lemma enrollment_kept {F} o (operation : EnrollmentCommit F) charge :
  kept o (apply_enrollment_frontier o operation charge).
Proof.
  unfold apply_enrollment_frontier, failure. destruct (negb _); [done|]. destruct (existsb _ _); [done|].
  destruct (enrollment_sequence _ _); [|done]. destruct (enrollment_order _ _); [|done].
  apply transition_kept.
Qed.
Lemma attach_kept {F V} o (operation : AttachCommit F V) charges :
  kept o (apply_attach_frontier o operation charges).
Proof.
  unfold apply_attach_frontier, failure. destruct (negb _); [done|].
  destruct (find_participant _ _); [|done]. destruct (atc_transition operation) as [|t|epoch composed next].
  - destruct (is_some _); [done|]. destruct (detached_attach_sequence _ _); [|done].
    destruct (detached_attach_order _ _); [|done]. apply transition_kept.
  - destruct (afc_terminal charges); [|done]. destruct (superseding_attach_sequence _ _); [|done].
    destruct (superseding_attach_order _ _); [|done]. apply transition_kept.
  - unfold apply_fenced_attach_frontier, failure.
    destruct (match composed with Some _ => _ | None => _ end) as [[rows cs]|]; [|done].
    unfold fenced_attach_transition, failure. destruct (negb _); [done|]. destruct (negb _); [done|].
    destruct (accounting_after_fenced_attach _ _ _); [|done].
    destruct (apply_live_fenced_attach _ _ _ _) as [|[f' e]] eqn:E; [done|]. simpl.
    by rewrite (fenced_refused _ _ _ _ _ _ E), set_same_frontiers.
Qed.
Lemma detach_kept {F V} o (operation : CommittedDetachTransition F V) charge :
  kept o (apply_detach_frontier o operation charge).
Proof.
  unfold apply_detach_frontier, failure. destruct (negb _); [done|]. destruct (find_participant _ _); [|done].
  destruct (detach_sequence _ _); [|done]. destruct (detach_order _ _); [|done]. apply transition_kept.
Qed.
Lemma ack_kept {T} o (operation : T) request : kept o (apply_ack_frontier o operation request).
Proof.
  unfold apply_ack_frontier, failure. destruct (find_participant _ _); [|done].
  destruct (if _ =? 0 then _ else _); [|done].
  destruct (apply_live_identity _ _) as [|[f' e]] eqn:E; [done|]. simpl.
  by rewrite (identity_refused _ _ _ _ E), set_same_frontiers.
Qed.
Lemma marker_ack_kept o operation : kept o (apply_marker_ack_frontier o operation).
Proof.
  unfold apply_marker_ack_frontier, failure. destruct (negb _); [done|]. destruct (find_participant _ _); [|done].
  destruct (accounting_after_marker_ack _); [|done].
  destruct (apply_live_identity _ _) as [|[f' e]] eqn:E; [done|]. simpl.
  by rewrite (identity_refused _ _ _ _ E), set_same_frontiers.
Qed.

(** What an admission that does not commit hands back. *)
Definition unchanged_of {EF V LF} (d : RecordAdmissionDecision EF V LF)
    : option (UnchangedRecordAdmission EF V LF) :=
  match d with
  | RAD_Respond _ u | RAD_DrainFirst _ u | RAD_Fault _ u => Some u
  | RAD_Commit _ => None
  end.
Lemma settle_unchanged {EF V LF} (s : RecordAdmissionPrestate EF V LF) charge outcome u :
  unchanged_of (settle s charge outcome) = Some u -> u = mkUnchangedRecordAdmission s charge.
Proof. destruct outcome; by intros [= <-]. Qed.
Lemma rebuild_same {EF V LF} (s : RecordAdmissionPrestate EF V LF) charge :
  rebuild s (rap_frontiers s) (projection_input s charge) = s.
Proof. by destruct s. Qed.
Lemma projection_input_kept f input e : project_ordinary_record f input = Err e -> opx_input e = input.
Proof.
  unfold project_ordinary_record. destruct (negb _); [by intros [= <-]|].
  destruct (project_ordinary_fixed_point _) as [[c|plan]|]; [done| |by intros [= <-]].
  destruct (check_observer_floor _ _ _); [|by intros [= <-]].
  destruct (check_remaining_closure _ _ _ _ _); [|by intros [= <-]].
  destruct (apply_ordinary_projection _ _ _ _) as [|[]]; [done|by intros [= <-]].
Qed.
Lemma drain_first_kept f input d : project_ordinary_record f input = Ok (OPD_DrainFirst d) ->
  odf_frontiers d = f /\ odf_input d = input.
Proof.
  unfold project_ordinary_record. destruct (negb _); [done|].
  destruct (project_ordinary_fixed_point _) as [[c|plan]|]; [by intros [= <-]| |done].
  destruct (check_observer_floor _ _ _); [|done]. destruct (check_remaining_closure _ _ _ _ _); [|done].
  by destruct (apply_ordinary_projection _ _ _ _) as [|[]].
Qed.
Lemma admission_kept {EF V LF} o (s : RecordAdmissionPrestate EF V LF) charge u : owner_inv o ->
  prestate_of o s -> unchanged_of (apply_record_admission s charge) = Some u ->
  u = mkUnchangedRecordAdmission s charge.
Proof.
  intros Ho (E1 & _ & _). unfold apply_record_admission, refused.
  destruct (classify_record_admission_binding _ _ _ _); [by intros [= <-]|].
  destruct (select_semantic_connection_capacity _ _); [|by intros [= <-]].
  destruct (check_record_size _ _ _) as [size|] eqn:Es; [|by intros [= <-]].
  apply size_permit in Es. destruct (_ && _); [apply settle_unchanged|].
  rewrite Es. fold (projection_input s charge).
  destruct (project_ordinary_record _ _) as [[d|p]|fail] eqn:Ep; [|done|].
  - apply drain_first_kept in Ep as [-> ->]. rewrite rebuild_same. by intros [= <-].
  - intros H. apply settle_unchanged in H as ->. rewrite (projection_input_kept _ _ _ Ep).
    rewrite E1 in Ep. apply projection_atomic in Ep as ->.
    + rewrite <- E1. by rewrite rebuild_same.
    + pose proof (oi_frontiers Ho) as (_ & Hs & _). apply Forall_forall. intros x. by eapply movable_nonneg.
    + pose proof (oi_frontiers Ho) as (_ & _ & Hor & _). apply Forall_forall. intros x. by eapply movable_orders_nonneg.
Qed.

(** ** Theorems *)

(** C11: Every owner a conversation reaches, by any sequence of its operations from its first
    enrollment, has valid frontiers, a valid accounting and one charge per retained row. *)
Theorem owner_invariant o : owner_run o -> owner_inv o.
Proof. apply owner_run_inv. Qed.

(** C8: While the books are kept, the stored marker credits, marker anchors and baseline are
    those of the retained rows: one credit per marker, retained or pending, one anchor per
    marker not yet acknowledged, and [slots * marker_max] plus the exact charge of every
    row that is no marker. *)
Theorem books_are_exact m o : booked_run m o ->
  ca_marker_capacity_credits (lfo_closure_accounting o)
  = zlen (cf_marker_records (lfo_frontiers o)) + pending_marker_candidate_count (lfo_frontiers o)
  /\ ca_marker_anchors (lfo_closure_accounting o)
     = unaccepted_marker_anchor_count (lfo_frontiers o) + pending_marker_candidate_count (lfo_frontiers o)
  /\ ca_baseline (lfo_closure_accounting o)
     = weigh (mkWRV 0 0) (cf_identity_slot_limit (lfo_frontiers o)) m
         (plain_charges (cf_marker_records (lfo_frontiers o)) (lfo_retained_charges o)).
Proof.
  intros Hr. pose proof (booked_accounted m o Hr) as Hac.
  pose proof (owner_run_inv _ (booked_owner_run _ _ Hr)) as Ho.
  rewrite derived_count, pending_count by apply Ho. split_and!; apply Hac.
Qed.

(** C9: While the books are kept no record admission faults on them: whatever else refuses a
    record, it is not a disagreement between the stored accounting and the retained rows. *)
Theorem admission_trusts_books {EF V LF} m o (s : RecordAdmissionPrestate EF V LF) charge e u :
  booked_run m o -> prestate_of o s -> opl_marker_max (rap_projection_limits s) = m ->
  apply_record_admission s charge = RAD_Fault (RAF_Projection e) u -> reads_books e = false.
Proof.
  intros Hr (E1 & E2 & E3) Hm Hf. apply fault_projection in Hf as (fail & Hp & <-). rewrite E1 in Hp.
  eapply (projection_blameless o m); [|by apply booked_accounted|by eapply booked_marker_max| | | |exact Hp].
  - by eapply owner_run_inv, booked_owner_run.
  - done.
  - done.
  - done.
Qed.

(** An ordinary binding fate may orphan the anchor of a marker its member never
    acknowledged; reconciliation retires exactly that, and the books agree again. *)
Theorem fate_reconciles m o token terminal progress context prepared : booked_run m o ->
  measurement_context token = Some context ->
  prepare_binding_fate o token terminal progress = Ok prepared ->
  accounted m (reconcile_orphaned_marker_anchors (pbf_owner prepared)).1.
Proof.
  intros Hr Hctx Hp. pose proof (booked_accounted m o Hr) as Hac.
  pose proof (owner_run_inv _ (booked_owner_run _ _ Hr)) as Ho.
  pose proof (owner_step_inv _ _ _ Ho (step_fate o token terminal progress context prepared Hctx Hp)) as Ho'.
  destruct (prepared_fate_floored _ _ _ _ _ _ Ho Hctx Hp) as (p & floor & Ef & Hfl & _).
  destruct (floored_rebooked _ _ _ _ _ Ho Hac Hfl ltac:(by apply set_participant_indices)) as (Hre & Hd & Hs).
  rewrite reconcile_rebooked; [done|done|]. rewrite Hs, Hd. unfold derived_anchors.
  apply Z.add_le_mono_r, zlen_filter_le. intros r Hin. rewrite unaccepted_set; [|done|by rewrite Ef].
  destruct (Z.eqb_spec (marker_participant r) (bmc_participant_id context)) as [E|]; [|done].
  unfold unaccepted_by. rewrite E, Ef. simpl. intros Hlt%Z.ltb_lt. apply Z.ltb_lt.
  destruct (reserves_finalizer terminal); [done|]. apply find_participant_elem in Ef as [Hin' _].
  pose proof (oi_frontiers Ho) as (Hrk & _). apply (ranks_elem _ _ _ _ Hrk) in Hin'. lia.
Qed.

(** C35: A member that has acknowledged its marker cannot leave while the marker row is
    retained and no other anchor is stored: the Leave retires an anchor that is no longer
    there. *)
Theorem acknowledged_member_cannot_leave o r : owner_run o ->
  r ∈ cf_marker_records (lfo_frontiers o) ->
  ca_marker_anchors (lfo_closure_accounting o) = 0 ->
  (forall {EF V LF D} `{!EqDecision D} (mb : LiveMember EF) bs (cell : DetachCell D)
     (verified : VerifiedLeaveRequest V LF) left charge c,
     lm_participant_id mb = marker_participant r -> charge_range charge ->
     commit_settled_leave_frontier o mb bs cell verified left charge <> Ok c)
  /\ (forall {EF V LF D} `{!EqDecision D} (mb : LiveMember EF) pending (cell : DetachCell D)
        (verified : VerifiedLeaveRequest V LF) parameters tc lc c,
        lm_participant_id mb = marker_participant r -> charge_range tc -> charge_range lc ->
        commit_pending_leave_frontier o mb pending cell verified parameters tc lc <> Ok c).
Proof.
  intros Hr Hin Hz. pose proof (owner_run_inv _ Hr) as Ho. split.
  - intros EF V LF D ? mb bs cell verified left charge c Hm Hc Hok.
    apply settled_leave_departs in Hok as (rows & retired & Hd); [|done|done]. rewrite Hm in Hd.
    destruct (leaver_anchor _ _ _ _ _ _ _ Ho Hd Hin eq_refl). lia.
  - intros EF V LF D ? mb pending cell verified parameters tc lc c Hm Ht Hl Hok.
    apply pending_leave_departs in Hok as (rows & retired & Hd); [|done..]. rewrite Hm in Hd.
    destruct (leaver_anchor _ _ _ _ _ _ _ Ho Hd Hin eq_refl). lia.
Qed.

(** C36: Where another anchor is stored, the Leave of a member that has acknowledged its marker
    retires that one: afterwards no record is ever admitted by the owner it leaves, and
    reconciliation changes nothing. *)
Theorem acknowledged_leave_wedges {EF V LF D} `{!EqDecision D} m o r (mb : LiveMember EF) bs
    (cell : DetachCell D) (verified : VerifiedLeaveRequest V LF) left charge c : booked_run m o ->
  r ∈ cf_marker_records (lfo_frontiers o) -> lm_participant_id mb = marker_participant r ->
  unaccepted_by (participants_of o) r = false -> charge_range charge ->
  commit_settled_leave_frontier o mb bs cell verified left charge = Ok c ->
  reconcile_orphaned_marker_anchors (llc_owner c) = (llc_owner c, 0)
  /\ forall (s : RecordAdmissionPrestate EF V LF) record_charge commit,
       prestate_of (llc_owner c) s -> u64 (rap_observer_progress s) ->
       apply_record_admission s record_charge <> RAD_Commit commit.
Proof.
  intros Hr Hin Hm Hun Hc Hok. pose proof (booked_accounted m o Hr) as Hac.
  pose proof (owner_run_inv _ (booked_owner_run _ _ Hr)) as Ho.
  apply settled_leave_departs in Hok as (rows & retired & Hd); [|done|done]. rewrite Hm in Hd.
  pose proof (departed_inv _ _ _ _ _ _ Ho Hd) as Ho'.
  destruct (accepted_leave_anchors m _ _ _ _ _ _ r Ho Ho' Hac Hd Hin eq_refl Hun) as (Ha & Hp & _).
  split.
  - apply short_books_reconcile; [rewrite pending_count, Hp; unfold zlen at 2; simpl; lia|].
    destruct (leaver_anchor _ _ _ _ _ _ _ Ho Hd Hin eq_refl) as [_ ->].
    pose proof (oi_accounting Ho) as (_ & (_ & Hu & _) & _). mlia.
  - intros s record_charge commit Hs Hobs. eapply short_books_refuse; [done| |done|done]. lia.
Qed.

(** C20: Whatever the owner refuses leaves it as it was: enrollment, attach, detach, both
    acknowledgements, the marker acknowledgement, and a record admission that answers,
    asks for a drain or faults. *)
Theorem refusals_keep_owner o : owner_run o ->
  (forall {F} (operation : EnrollmentCommit F) charge, kept o (apply_enrollment_frontier o operation charge))
  /\ (forall {F V} (operation : AttachCommit F V) charges, kept o (apply_attach_frontier o operation charges))
  /\ (forall {F V} (operation : CommittedDetachTransition F V) charge,
        kept o (apply_detach_frontier o operation charge))
  /\ (forall operation, kept o (apply_participant_ack_frontier o operation))
  /\ (forall operation, kept o (apply_nonzero_participant_ack_frontier o operation))
  /\ (forall operation, kept o (apply_marker_ack_frontier o operation))
  /\ (forall {EF V LF} (s : RecordAdmissionPrestate EF V LF) charge u, prestate_of o s ->
        unchanged_of (apply_record_admission s charge) = Some u ->
        (from_unchanged_record_admission u (lfo_retained_record_limit o)).1.1 = o).
Proof.
  intros Hr. pose proof (owner_run_inv _ Hr) as Ho. split_and!; intros.
  - apply enrollment_kept.
  - apply attach_kept.
  - apply detach_kept.
  - apply ack_kept.
  - apply ack_kept.
  - apply marker_ack_kept.
  - rewrite (admission_kept o s charge u Ho H H0). destruct H as (E1 & E2 & E3). unfold from_unchanged_record_admission.
    simpl. rewrite E1, E2, E3. by destruct o.
Qed.

(** ** Records *)

(** Every computation of the projection ends within the fuel of the model. *)
Lemma retained_suffix_plain f : plain (validate_retained_suffix f).
Proof.
  unfold validate_retained_suffix. destruct (_ <? _); [by apply plain_Err|].
  destruct (_ || _); [by apply plain_Err|]. apply plain_bind; [|intros ? _; destruct (negb _); auto with plain].
  generalize 0, (opf_retained_charges f).
  induction (opf_retained_records f) as [|r rows IH]; intros i [|c cs]; simpl; try done.
  do 2 (destruct (_ : bool); [by apply plain_Err|]). apply IH.
Qed.
Lemma collect_plain f records : forall credits, plain (collect_credits f credits records).
Proof.
  induction records as [|r records IH]; intros credits; simpl; [done|].
  destruct (rcr_kind r); try (by apply plain_Err). destruct (_ || _); [by apply plain_Err|apply IH].
Qed.
Lemma preflight_plain f : plain (projection_preflight f).
Proof.
  unfold projection_preflight. apply plain_bind.
  { unfold validate_clear_snapshot. repeat (destruct (_ : bool); [by apply plain_Err|]). done. }
  intros _ _. apply plain_bind.
  { unfold validate_sender. destruct (find_participant _ _); [|by apply plain_Err].
    destruct (bool_decide _); [done|by apply plain_Err]. }
  intros _ _. apply plain_bind; [apply retained_suffix_plain|]. intros _ _. apply plain_bind.
  { unfold validate_marker_state. destruct (_ <? _); [by apply plain_Err|].
    apply plain_bind; [apply collect_plain|]. intros cs _.
    repeat (destruct (_ : bool); [by apply plain_Err|]). done. }
  intros st _. apply plain_bind; [auto with plain|]. intros w _. apply plain_bind; [auto with plain|]. intros b _.
  destruct (negb _); auto with plain.
Qed.
Lemma kernel_finished f : facts_ok f -> finished (project_ordinary_fixed_point f).
Proof.
  intros Hf. pose proof Hf as (_ & _ & Hfl & _). unfold project_ordinary_fixed_point.
  destruct (opf_immutable_candidates f); [|done].
  apply finished_bind; [apply plain_finished, preflight_plain|]. intros state Hst.
  destruct (preflight_Ok f state Hf Hst) as (Hobs & Hcf & Hrows & _).
  apply finished_bind; [apply plain_finished; auto with plain|]. intros order _.
  apply finished_bind; [apply plain_finished; auto with plain|]. intros high Hh.
  destruct (checked_add _ _ _) as [h|] eqn:Eh; [|done]. injection Hh as ->.
  apply checked_add_Some in Eh as [-> Hh]. rewrite base_floor_exact by done.
  pose proof (base_floor_range f Hf Hobs Hcf) as Hbase. rewrite Z.max_l by lia. apply finished_bind.
  { exact (proj1 (search_spec f state _ Hrows (conj Hcf Hh) Hfl (base_floor f) ltac:(lia))). }
  intros search _. destruct (_ <? _); [done|].
  do 3 (apply finished_bind; [apply plain_finished; auto with plain|]; intros ? _).
  apply finished_bind; [apply plain_finished|intros ms _].
  { generalize (cs_marker_participants search) as ps, 0 as i. clear.
    intros ps; induction ps as [|p ps IH]; intros i; simpl; [done|]. auto 8 with plain. }
  do 3 (apply finished_bind; [apply plain_finished; auto with plain|]; intros ? _).
  destruct (negb _); [done|]. apply plain_finished. auto with plain.
Qed.

(** C21: Every projection of a record on a reachable owner decides: the search over the
    retained rows ends, whatever the record and the observer. *)
Theorem projection_decides o input : owner_run o -> u64 (ori_observer_progress input) ->
  match project_ordinary_record (lfo_frontiers o) input with
  | Ok _ => True
  | Err e => opx_error e <> OPE_Unfinished
  end.
Proof.
  intros Hr Hobs. pose proof (owner_run_inv _ Hr) as Ho. unfold project_ordinary_record.
  destruct (negb _); [done|].
  pose proof (kernel_finished _ (facts_of_frontiers _ input (oi_frontiers Ho) (oi_cursors Ho) Hobs)) as Hk.
  destruct (project_ordinary_fixed_point _) as [[c|plan]|e]; [done| |intros E; apply Hk; simpl in E; by rewrite E].
  destruct (check_observer_floor _ _ _); [|done]. destruct (check_remaining_closure _ _ _ _ _); [|done].
  unfold apply_ordinary_projection, preflight_ordinary_sequence_owners, preflight_ordinary_order_owners.
  destruct (checked_add _ _ _); [|done]. destruct (negb _); [done|]. destruct (all_move _ _); [|done].
  destruct (negb _); [done|]. destruct (all_move _ _); [|done]. by destruct (validate_cross_counter _ _).
Qed.

Lemma evaluated_round f state high floor round : evaluate_floor f state high floor = Ok round ->
  cs_surviving_credits round = List.filter (fun credit => floor <=? mc_delivery_seq credit) (ms_credits state)
  /\ cs_marker_participants round
     = newly_overtaken (opf_active_identities f) (cs_surviving_credits round) floor.
Proof.
  unfold evaluate_floor. intros H. destruct (retained_charge_at_floor _ _ _ _ _); simpl in H; [|done].
  destruct (ok_or _ _); simpl in H; [|done]. destruct (retained_baseline_wide _ _ _ _); simpl in H; [|done].
  by injection H as <-.
Qed.
(** A member the floor passes keeps the marker it has or is told by a new one. *)
Lemma markers_or_told o o' input plan state search : owner_inv o ->
  recorded o o' input plan state search -> forall p, p ∈ participants_of o ->
  fp_cursor p + 1 < cs_floor search ->
  fp_participant_index p ∈ map marker_participant (cf_marker_records (lfo_frontiers o'))
  \/ fp_participant_index p ∈ map told (pending_markers (lfo_frontiers o')).
Proof.
  intros Ho Hrec p Hp Hover. pose proof (rd_planned _ _ _ _ _ _ Hrec) as Hplan.
  pose proof (rd_effect _ _ _ _ _ _ Hrec) as He. set (f := projection_facts (lfo_frontiers o) input) in *.
  destruct (preflight_markers f state (pl_preflight _ _ _ _ Hplan)) as [_ ->].
  pose proof (pl_search _ _ _ _ Hplan) as (_ & _ & Hev & _). apply evaluated_round in Hev as [Hcr Htold].
  assert (cs_surviving_credits search
          ≡ₚ map credit_of (from_floor (cs_floor search) (cf_marker_records (lfo_frontiers o)))) as Hperm.
  { rewrite Hcr, <- surviving_markers. apply filter_perm, sort_by_key_perm. }
  destruct (existsb (fun k => mc_participant_index k =? fp_participant_index p) (cs_surviving_credits search)) eqn:Ex.
  - left. apply existsb_exists in Ex as (k & Hk & E). apply Z.eqb_eq in E. rewrite <- E, (ef_markers He).
    apply list_elem_of_In in Hk. rewrite Hperm in Hk. apply list_elem_of_fmap in Hk as (r & -> & Hr).
    by apply (list_elem_of_fmap_2 marker_participant).
  - right. unfold pending_markers. rewrite (ef_candidates He), markers_of_map.
    assert (map told (ofp_marker_candidates plan)
            = map fp_participant_index (cs_marker_participants search)) as ->.
    { pose proof (f_equal (map ao_participant_index) (pl_marker_keys _ _ _ _ Hplan)) as E.
      by rewrite !map_map in E. }
    apply list_elem_of_fmap_2. rewrite Htold. apply filter_elem. split; [done|]. rewrite Ex.
    rewrite add_u128_exact, (proj2 (Z.ltb_lt _ _)) by (try done; pose proof (oi_frontiers Ho) as (Hr & ((Hh & _) & _) & _);
      pose proof (ranks_elem _ _ _ _ Hr Hp) as [_ ?]; pose proof (proj1 (Forall_forall _ _) (oi_cursors Ho) p Hp) as Hn;
      simpl in Hn; mlia). done.
Qed.

(** C10: A committed record: its row is the next sequence and the rows below the new floor go.
    The new floor is the least one, from the base floor up, at which the record fits
    the configured capacity: it is admitted there, and the evaluation of every floor
    between succeeds and does not fit.  The base floor, where the search starts, is the
    old floor raised to the position after the slowest member or after the observer,
    whichever is less; lower floors are never tried.  The observer and every marker
    not yet acknowledged hold the floor back, and each member the floor passes has a
    marker, retained or queued. *)
Theorem record_moves_floor_least {EF V LF} o (s : RecordAdmissionPrestate EF V LF) charge c :
  owner_run o -> prestate_of o s -> u64 (rap_observer_progress s) -> rv_ok charge ->
  rv_ok (opl_marker_max (rap_projection_limits s)) -> apply_record_admission s charge = RAD_Commit c ->
  let o' := from_record_admission_persistence (into_persistence_parts c) (lfo_retained_record_limit o) in
  let f := projection_facts (lfo_frontiers o) (projection_input s charge) in
  let high := sl_high_watermark (scf_ledger (cf_sequence (lfo_frontiers o))) in
  let floor := cf_retained_floor (lfo_frontiers o') in
  (exists row, rcr_delivery_seq row = high + 1
     /\ cf_retained_records (lfo_frontiers o')
        = from_floor floor (cf_retained_records (lfo_frontiers o) ++ [row]))
  /\ base_floor f = Z.max (cf_retained_floor (lfo_frontiers o))
       (Z.min (default (high + 1) (minimum_cursor (participants_of o)))
          (rap_observer_progress s) + 1)
  /\ base_floor f <= floor
  /\ (exists round, evaluate_floor f (marker_state_of f) (high + 1) floor = Ok round
        /\ admits f (cs_baseline round) = true)
  /\ (forall g, base_floor f <= g < floor -> rejected f (marker_state_of f) (high + 1) g)
  /\ floor <= rap_observer_progress s + 1
  /\ Forall (fun a => floor <= a) (ordinary_unaccepted_marker_anchors (lfo_frontiers o))
  /\ (forall p, p ∈ participants_of o' -> fp_cursor p + 1 < floor ->
       fp_participant_index p ∈ map marker_participant (cf_marker_records (lfo_frontiers o'))
                                ++ map told (pending_markers (lfo_frontiers o'))).
Proof.
  intros Hr Hs Hobs Hch Hm Hc o' f high floor. pose proof (owner_run_inv _ Hr) as Ho.
  destruct (record_records _ _ _ _ Ho Hs Hobs Hch Hm Hc) as (state & search & Hrec).
  pose proof (rd_planned _ _ _ _ _ _ Hrec) as Hplan. pose proof (rd_effect _ _ _ _ _ _ Hrec) as He.
  fold o' in He. fold f in Hplan.
  destruct (preflight_markers f state (pl_preflight _ _ _ _ Hplan)) as [_ ->].
  pose proof (pl_search _ _ _ _ Hplan) as (_ & Hsf & Hev & Hadm & Hanch & Hlow).
  assert (floor = cs_floor search) as Hfl by apply (ef_floor He). rewrite Hfl. split_and!.
  - exists (ofp_caller_record (por_plan (rac_projection c))). split; [apply Hplan|apply (ef_rows He)].
  - done.
  - apply Hsf.
  - by exists search.
  - exact Hlow.
  - apply Hplan.
  - apply Forall_forall. intros a Ha. apply (proj1 (Forall_forall _ _) Hanch). simpl.
    by rewrite sort_by_key_perm.
  - intros p Hp Hover. assert (participants_of o' = participants_of o) as Hps by apply (ef_participants He).
    rewrite Hps in Hp. destruct (markers_or_told o o' _ _ _ search Ho Hrec p Hp Hover) as [H|H];
      apply elem_of_app; [by left|by right].
Qed.

(** C22: A first enrollment that is not already mapped, has capacity and a slot, and whose
    closure input is the empty conversation's, commits; the owner it opens has that one
    member, bound, its attach row and nothing else, and keeps the books. *)
Theorem first_enrollment_opens {EF V LF F P} (input : InitialEnrollmentOperationInput EF V LF)
    (values : InitialEnrollmentCommitValues F) (slot : AllocatedParticipantSlot P) capacity limit :
  input_ok (ioi_closure input) -> initial (ioi_closure input) ->
  initial_enrollment_lookup_response input = None ->
  admit_initial_enrollment_capacity input (enrollment_envelope (ioi_request input)) = Ok capacity ->
  slot_for input slot ->
  exists c commit, apply_initial_enrollment input values (Ok slot) = IOD_Commit c
  /\ from_initial_enrollment c (ici_attached_charge (ioi_closure input)) = Ok commit
  /\ let o := (owner_from_initial_enrollment commit limit).2 in
     participants_of o = [mkFrontierParticipant 0 0 (FB_Bound (ici_binding_epoch (ioi_closure input)))]
     /\ map rcr_delivery_seq (cf_retained_records (lfo_frontiers o)) = [1]
     /\ cf_marker_records (lfo_frontiers o) = []
     /\ booked_run (ici_marker_max (ioi_closure input)) o.
Proof.
  intros Hi Hv Hl Hc Hs. pose proof (initial_enrollment_commits input capacity values slot Hi Hv Hl Hc Hs) as Ha.
  pose proof (initial_frontiers_built (ioi_request input) capacity (ioi_closure input) values Hv) as Hb.
  eexists _, _. split; [exact Ha|]. split; [exact Hb|]. cbv zeta. split_and!; [done..|].
  apply booked_start. by eapply start_enrollment; [exact Hi| |exact Ha|exact Hb|].
Qed.

(** ** Witnesses *)

Import Conversation.

Lemma owner_invariant_witness :
  match acknowledged_marker with Some o => owner_inv o | None => False end.
Proof.
  destruct acknowledged_marker as [o|] eqn:E; [|by vm_compute in E].
  apply owner_invariant. exact (booked_owner_run _ _ (acknowledged_marker_booked o E)).
Defined.

(** A computed fact of a sample state, carried over to the state itself. *)
Lemma sample_fact {B} (st : option LiveFrontierOwner) (g : LiveFrontierOwner -> B) b o :
  option_map g st = Some b -> st = Some o -> g o = b.
Proof. intros H ->. by injection H. Qed.

Lemma books_are_exact_witness :
  match both_told with
  | Some o => unaccepted_marker_anchor_count (lfo_frontiers o) = 1
              /\ ca_marker_anchors (lfo_closure_accounting o) = 1
  | None => False
  end.
Proof.
  destruct both_told as [o|] eqn:E; [|by vm_compute in E].
  assert ((unaccepted_marker_anchor_count (lfo_frontiers o), pending_marker_candidate_count (lfo_frontiers o))
          = (1, 0)) as [= E1 E2].
  { revert E. apply (sample_fact _ (fun o => (unaccepted_marker_anchor_count (lfo_frontiers o),
      pending_marker_candidate_count (lfo_frontiers o)))). by vm_compute. }
  destruct (books_are_exact marker_max o (both_told_booked o E)) as (_ & Ha & _). clear E.
  rewrite Ha, E1, E2. by split.
Defined.

(** The observer is said to be ahead of the conversation. *)
Definition ahead (o : LiveFrontierOwner) : RecordAdmissionDecision Z Z Z :=
  apply_record_admission (admission 0 9 o) (unit_charge 7).
Definition projection_fault {EF V LF} (d : RecordAdmissionDecision EF V LF) : option OrdinaryProjectionError :=
  match d with RAD_Fault (RAF_Projection e) _ => Some e | _ => None end.
Lemma admission_trusts_books_witness :
  match both_told with
  | Some o => projection_fault (ahead o) = Some OPE_ObserverBeyondHighWatermark
              /\ reads_books OPE_ObserverBeyondHighWatermark = false
  | None => False
  end.
Proof.
  destruct both_told as [o|] eqn:E; [|by vm_compute in E].
  assert (projection_fault (ahead o) = Some OPE_ObserverBeyondHighWatermark) as Ef.
  { revert E. apply (sample_fact _ (fun o => projection_fault (ahead o))). by vm_compute. }
  split; [exact Ef|]. unfold projection_fault, ahead in Ef. pose proof (both_told_booked o E) as Hr. clear E.
  destruct (apply_record_admission (admission 0 9 o) (unit_charge 7)) as [| | |[e| | | |] u] eqn:Ea;
    try discriminate Ef. injection Ef as ->.
  exact (admission_trusts_books marker_max o (admission 0 9 o) _ _ _ Hr (conj eq_refl (conj eq_refl eq_refl))
           eq_refl Ea).
Defined.

Lemma fate_reconciles_witness :
  match told_second with
  | Some o =>
      match prepare_binding_fate o fate_token fate_terminal 2 with
      | Ok p => ca_marker_anchors (lfo_closure_accounting (pbf_owner p)) = 1
                /\ accounted marker_max (reconcile_orphaned_marker_anchors (pbf_owner p)).1
      | Err _ => False
      end
  | None => False
  end.
Proof.
  destruct told_second as [o|] eqn:E; [|by vm_compute in E].
  assert (match prepare_binding_fate o fate_token fate_terminal 2 with
          | Ok p => Some (ca_marker_anchors (lfo_closure_accounting (pbf_owner p))) | Err _ => None end = Some 1) as Ef.
  { revert E. apply (sample_fact _ (fun o => match prepare_binding_fate o fate_token fate_terminal 2 with
      | Ok p => Some (ca_marker_anchors (lfo_closure_accounting (pbf_owner p))) | Err _ => None end)).
    by vm_compute. }
  pose proof (told_second_booked o E) as Hr. clear E.
  destruct (prepare_binding_fate o fate_token fate_terminal 2) as [p|] eqn:Ep; [|discriminate Ef].
  injection Ef as Ef. split; [exact Ef|]. eapply fate_reconciles; [exact Hr| |exact Ep]. by vm_compute.
Defined.

Lemma acknowledged_member_cannot_leave_witness :
  match acknowledged_marker with
  | Some o => forall c, leave_commit 1 4 5 o <> Ok c
  | None => False
  end.
Proof.
  destruct acknowledged_marker as [o|] eqn:E; [|by vm_compute in E].
  assert ((ca_marker_anchors (lfo_closure_accounting o), map marker_participant (cf_marker_records (lfo_frontiers o)))
          = (0, [1])) as [= E1 E2].
  { revert E. apply (sample_fact _ (fun o => (ca_marker_anchors (lfo_closure_accounting o),
      map marker_participant (cf_marker_records (lfo_frontiers o))))). by vm_compute. }
  pose proof (booked_owner_run _ _ (acknowledged_marker_booked o E)) as Hr. clear E. intros c. unfold leave_commit.
  destruct (planned_settled_leave_admission_order _ _ _) as [k|]; [|done]. simpl.
  destruct (cf_marker_records (lfo_frontiers o)) as [|r rs] eqn:Em; [done|]. injection E2 as E2 _.
  assert (r ∈ cf_marker_records (lfo_frontiers o)) as Hin by (rewrite Em; left).
  refine (proj1 (acknowledged_member_cannot_leave o r Hr Hin E1) _ _ _ _ _ _ _ _ _ _ _ c _ _).
  - symmetry; exact E2.
  - by apply unit_range.
Defined.

Lemma acknowledged_leave_wedges_witness :
  match both_told with
  | Some o =>
      match leave_commit 1 5 6 o with
      | Ok c => forall (s : RecordAdmissionPrestate Z Z Z) charge commit,
          prestate_of (llc_owner c) s -> u64 (rap_observer_progress s) ->
          apply_record_admission s charge <> RAD_Commit commit
      | Err _ => False
      end
  | None => False
  end.
Proof.
  destruct both_told as [o|] eqn:E; [|by vm_compute in E].
  assert ((is_ok (leave_commit 1 5 6 o),
           existsb (fun r => (marker_participant r =? 1) && negb (unaccepted_by (participants_of o) r))
             (cf_marker_records (lfo_frontiers o))) = (true, true)) as [= E1 E2].
  { revert E. apply (sample_fact _ (fun o => (is_ok (leave_commit 1 5 6 o),
      existsb (fun r => (marker_participant r =? 1) && negb (unaccepted_by (participants_of o) r))
        (cf_marker_records (lfo_frontiers o))))). by vm_compute. }
  pose proof (both_told_booked o E) as Hrun. clear E. apply existsb_exists in E2 as (r & Hr & E2). apply list_elem_of_In in Hr. apply andb_prop in E2 as [E2 E3].
  apply Z.eqb_eq in E2. apply negb_true_iff in E3.
  destruct (leave_commit 1 5 6 o) as [c|] eqn:Ec; [|done]. revert Ec. unfold leave_commit.
  destruct (planned_settled_leave_admission_order _ _ _) as [k|]; [|done]. simpl. intros Ec.
  refine (proj2 (acknowledged_leave_wedges marker_max o r _ _ _ _ _ _ _ Hrun Hr _ E3 _ Ec)).
  - by rewrite E2.
  - by apply unit_range.
Defined.

Lemma refusals_keep_owner_witness :
  match both_told with
  | Some o => match unchanged_of (ahead o) with
              | Some u => (from_unchanged_record_admission u (lfo_retained_record_limit o)).1.1 = o
              | None => False
              end
  | None => False
  end.
Proof.
  destruct both_told as [o|] eqn:E; [|by vm_compute in E].
  assert (is_some (unchanged_of (ahead o)) = true) as Hu.
  { revert E. apply (sample_fact _ (fun o => is_some (unchanged_of (ahead o)))). by vm_compute. }
  pose proof (booked_owner_run _ _ (both_told_booked o E)) as Hr. clear E.
  destruct (unchanged_of (ahead o)) as [u|] eqn:Eu; [|done].
  refine (proj2 (proj2 (proj2 (proj2 (proj2 (proj2 (refusals_keep_owner o Hr)))))) _ _ _ _ _ u _ Eu).
  done.
Defined.

Lemma projection_decides_witness :
  match both_told with
  | Some o => match project_ordinary_record (lfo_frontiers o) (projection_input (admission 0 2 o) (unit_charge 7)) with
              | Ok _ => True | Err e => opx_error e <> OPE_Unfinished end
  | None => False
  end.
Proof.
  destruct both_told as [o|] eqn:E; [|by vm_compute in E].
  pose proof (booked_owner_run _ _ (both_told_booked o E)) as Hr. clear E.
  apply (projection_decides o (projection_input (admission 0 2 o) (unit_charge 7)) Hr). by apply unit_range.
Defined.

Definition two_members : option LiveFrontierOwner := sample [enroll_second; acknowledges 0 0 2].
Definition committed_record {EF V LF} (d : RecordAdmissionDecision EF V LF) : option RecordAdmissionCommit :=
  match d with RAD_Commit c => Some c | _ => None end.
Lemma two_members_booked o : two_members = Some o -> booked_run marker_max o.
Proof. apply sample_booked. repeat (apply Forall_cons; split); auto using enroll_books, ack_books. Qed.
Lemma record_moves_floor_least_witness :
  match two_members with
  | Some o =>
      match committed_record (apply_record_admission (admission 0 2 o) (unit_charge 7)) with
      | Some c =>
          let o' := from_record_admission_persistence (into_persistence_parts c) (lfo_retained_record_limit o) in
          cf_retained_floor (lfo_frontiers o') = 2
          /\ map told (pending_markers (lfo_frontiers o')) = [1]
          /\ 1 ∈ map marker_participant (cf_marker_records (lfo_frontiers o'))
                  ++ map told (pending_markers (lfo_frontiers o'))
      | None => False
      end
  | None => False
  end.
Proof.
  destruct two_members as [o|] eqn:E; [|by vm_compute in E].
  assert (match committed_record (apply_record_admission (admission 0 2 o) (unit_charge 7)) with
          | Some c =>
              let o' := from_record_admission_persistence (into_persistence_parts c) (lfo_retained_record_limit o) in
              (cf_retained_floor (lfo_frontiers o'), map told (pending_markers (lfo_frontiers o')),
               map (fun p => (fp_participant_index p, fp_cursor p)) (participants_of o'))
          | None => (0, [], [])
          end = (2, [1], [(0, 2); (1, 0)])) as Hf.
  { revert E. apply (sample_fact _ (fun o =>
      match committed_record (apply_record_admission (admission 0 2 o) (unit_charge 7)) with
      | Some c =>
          let o' := from_record_admission_persistence (into_persistence_parts c) (lfo_retained_record_limit o) in
          (cf_retained_floor (lfo_frontiers o'), map told (pending_markers (lfo_frontiers o')),
           map (fun p => (fp_participant_index p, fp_cursor p)) (participants_of o'))
      | None => (0, [], [])
      end)). by vm_compute. }
  pose proof (booked_owner_run _ _ (two_members_booked o E)) as Hr. clear E.
  destruct (apply_record_admission (admission 0 2 o) (unit_charge 7)) as [| |c|] eqn:Ec; try discriminate Hf.
  cbn [committed_record] in *. cbv zeta in *. injection Hf as H1 H2 H3. split_and!; [exact H1|exact H2|].
  destruct (record_moves_floor_least o (admission 0 2 o) (unit_charge 7) c Hr ltac:(done) ltac:(done)
    ltac:(by apply unit_range) ltac:(by apply unit_range) Ec) as (_ & _ & _ & _ & _ & _ & _ & Ht).
  destruct (participants_of _) as [|p0 [|p1 ps]] eqn:Ep in H3, Ht; try discriminate H3.
  injection H3 as _ _ H4 H5 _. specialize (Ht p1). rewrite <- H4. apply Ht.
  - right. left.
  - rewrite H5. change (0 + 1 < cf_retained_floor (por_frontiers (rac_projection c))). by rewrite H1.
Defined.

Lemma first_enrollment_opens_witness :
  exists c commit, apply_initial_enrollment first_input first_values first_slot = IOD_Commit c
  /\ from_initial_enrollment c (unit_charge 5) = Ok commit
  /\ booked_run marker_max (owner_from_initial_enrollment commit 100).2.
Proof.
  assert (validate_initial_input first_closure = Ok tt) as Hv by (by vm_compute).
  apply (validate_initial_input_spec first_closure first_input_ok) in Hv.
  destruct (admit_initial_enrollment_capacity first_input (enrollment_envelope (ioi_request first_input)))
    as [capacity|] eqn:Ec; [|by vm_compute in Ec].
  destruct (first_enrollment_opens first_input first_values (mkAllocatedSlot tt 9 0 2) capacity 100
    first_input_ok Hv eq_refl Ec ltac:(done)) as (c & commit & H1 & H2 & _ & _ & _ & H3).
  exists c, commit. split; [exact H1|]. split; [exact H2|exact H3].
Defined.
