(* ===== verification/EventCodec.v ===== *)
(** * Conversation events and their canonical bytes

    Model of [liminal-protocol/src/lifecycle/operation_event.rs] (what the shell of a
    conversation records of each of the six lifecycle operations, minted from the
    committed operation) and [conversation_codec.rs] (the [LPCE] envelope and the body of
    every kind of event).

    The decoder of the source reads fields at absolute offsets of the whole input;
    [field_at] is that view of a byte string, under which each reader is shown to accept
    exactly the encoding of its value. *)
From coqutil Require Import Byte.
From S2P Require Import Prelude AckOperations Algebra Tags Wire Response Bytes Edge Binding EdgeSteps.
From S2P Require Import Member Detach Leave Attach Cursor.

(** ** operation_event.rs *)

Record EnrolledOperation := mkEnrolledOperation {
  eop_conversation_id : ConversationId;
  eop_participant_id : ParticipantId;
  eop_binding_epoch : BindingEpoch;
  eop_attached_transaction_order : TransactionOrder;
  eop_attached_delivery_seq : DeliverySeq;
}.
Record AttachedOperation := mkAttachedOperation {
  aop_conversation_id : ConversationId;
  aop_participant_id : ParticipantId;
  aop_binding_epoch : BindingEpoch;
  aop_attached_transaction_order : TransactionOrder;
  aop_attached_delivery_seq : DeliverySeq;
}.
Record DetachedOperation := mkDetachedOperation {
  dop_detach_attempt_token : DetachAttemptToken;
  dop_conversation_id : ConversationId;
  dop_participant_id : ParticipantId;
  dop_committed_binding_epoch : BindingEpoch;
  dop_detached_transaction_order : TransactionOrder;
  dop_detached_delivery_seq : DeliverySeq;
}.
Record LeftOperation := mkLeftOperation {
  lop_committed : LeaveCommitted;
  lop_left_transaction_order : TransactionOrder;
}.
Record BindingFateOperation := mkBindingFateOperation {
  bop_conversation_id : ConversationId;
  bop_participant_id : ParticipantId;
  bop_last_dead_binding_epoch : BindingEpoch;
  bop_resulting_floor : DeliverySeq;
}.
Record NonzeroDebtAckOperation := mkNonzeroDebtAckOperation {
  nop_conversation_id : ConversationId;
  nop_participant_id : ParticipantId;
  nop_capability_generation : Generation;
  nop_through_seq : DeliverySeq;
}.
Inductive ConversationOperation :=
| CO_Enrolled (operation : EnrolledOperation)
| CO_Attached (operation : AttachedOperation)
| CO_Detached (operation : DetachedOperation)
| CO_Left (operation : LeftOperation)
| CO_BindingFate (operation : BindingFateOperation)
| CO_NonzeroDebtAck (operation : NonzeroDebtAckOperation).

Definition operation_conversation_id (operation : ConversationOperation) : ConversationId :=
  match operation with
  | CO_Enrolled o => eop_conversation_id o
  | CO_Attached o => aop_conversation_id o
  | CO_Detached o => dop_conversation_id o
  | CO_Left o => lc_conversation_id (lop_committed o)
  | CO_BindingFate o => bop_conversation_id o
  | CO_NonzeroDebtAck o => nop_conversation_id o
  end.

Definition EnrolledOperation_new {F} (commit : EnrollmentCommit F) : EnrolledOperation :=
  let attached := ecm_attached commit in
  mkEnrolledOperation (alr_conversation_id attached) (alr_participant_id attached)
    (alr_binding_epoch attached) (ao_transaction_order (alr_admission_order attached))
    (alr_delivery_seq attached).
Definition EnrolledOperation_from_decoded (conversation_id : ConversationId)
    (participant_id : ParticipantId) (binding_epoch : BindingEpoch)
    (attached_transaction_order : TransactionOrder) (attached_delivery_seq : DeliverySeq)
    : option EnrolledOperation :=
  if negb (capability_generation binding_epoch =? 1) then None
  else Some (mkEnrolledOperation conversation_id participant_id binding_epoch
               attached_transaction_order attached_delivery_seq).

Definition AttachedOperation_new {F V} (commit : AttachCommit F V) : AttachedOperation :=
  let attached := atc_attached commit in
  mkAttachedOperation (alr_conversation_id attached) (alr_participant_id attached)
    (alr_binding_epoch attached) (ao_transaction_order (alr_admission_order attached))
    (alr_delivery_seq attached).
Definition AttachedOperation_from_decoded (conversation_id : ConversationId)
    (participant_id : ParticipantId) (binding_epoch : BindingEpoch)
    (attached_transaction_order : TransactionOrder) (attached_delivery_seq : DeliverySeq)
    : option AttachedOperation :=
  if capability_generation binding_epoch =? 1 then None
  else Some (mkAttachedOperation conversation_id participant_id binding_epoch
               attached_transaction_order attached_delivery_seq).

Definition DetachedOperation_new {EF V} (transition : CommittedDetachTransition EF V)
    : option DetachedOperation :=
  let terminal := cdx_terminal transition in
  let cell := cdx_cell transition in
  let identity := cdt_identity terminal in
  if negb (bool_decide (cdt_cause terminal = DTC_CleanDeregister)) then None
  else
    let participant_matches := cdh_participant_id cell =? bti_participant_id identity in
    let epoch_matches := bool_decide (cdh_committed_binding_epoch cell = bti_binding_epoch identity) in
    let delivery_matches := cdh_detached_delivery_seq cell =? cdt_delivery_seq terminal in
    if negb (participant_matches && epoch_matches && delivery_matches) then None
    else Some (mkDetachedOperation (cdh_token cell) (bti_conversation_id identity)
                 (bti_participant_id identity) (bti_binding_epoch identity)
                 (ao_transaction_order (bti_admission_order identity)) (cdt_delivery_seq terminal)).

Definition LeftOperation_new {EF V LF} (retired : RetiredIdentity EF V LF) : LeftOperation :=
  mkLeftOperation (ri_committed_result retired)
    (ao_transaction_order (ri_left_admission_order retired)).

Definition BindingFateOperation_from_ordinary (fate : OrdinaryBindingFate) : BindingFateOperation :=
  mkBindingFateOperation (obf_conversation_id fate) (dur_participant_id (obf_release fate))
    (dur_last_dead_binding_epoch (obf_release fate)) (obf_resulting_floor fate).
Definition BindingFateOperation_from_recovered (fate : RecoveredBindingFate) : BindingFateOperation :=
  mkBindingFateOperation (rbf_conversation_id fate) (dur_participant_id (rbf_release fate))
    (dur_last_dead_binding_epoch (rbf_release fate)) (rbf_resulting_floor fate).

Definition NonzeroDebtAckOperation_new (commit : NonzeroParticipantAckCommit)
    : NonzeroDebtAckOperation :=
  let request := acm_request (npc_outcome commit) in
  mkNonzeroDebtAckOperation (pae_conversation_id request) (pae_participant_id request)
    (pae_capability_generation request) (pae_through_seq request).

(** ** conversation_codec.rs *)

Definition EVENT_MAGIC : list byte := [Byte.x4c; Byte.x50; Byte.x43; Byte.x45].
Definition EVENT_CODEC_MAJOR : Z := 1.
Definition EVENT_CODEC_MINOR : Z := 0.
Definition GENESIS_VALIDATED_TAG : Z := 1.
Definition PARTICIPANT_ENROLLED_TAG : Z := 2.
Definition PARTICIPANT_ATTACHED_TAG : Z := 3.
Definition PARTICIPANT_DETACHED_TAG : Z := 4.
Definition PARTICIPANT_LEFT_TAG : Z := 5.
Definition BINDING_FATE_RECORDED_TAG : Z := 6.
Definition NONZERO_DEBT_ACK_RECORDED_TAG : Z := 7.
Definition EVENT_HEADER_LEN : Z := 30.
Definition BINDING_EPOCH_LEN : Z := 24.
Definition ATTACH_SHAPED_BODY_LEN : Z := 48.
Definition DETACHED_BODY_LEN : Z := 64.
Definition LEFT_BODY_BASE_LEN : Z := 49.
Definition BINDING_FATE_BODY_LEN : Z := 40.
Definition NONZERO_DEBT_ACK_BODY_LEN : Z := 24.
Definition LEFT_ENDED_EPOCH_FLAG : Z := 1.
Definition LEFT_PRIOR_TERMINAL_FLAG : Z := 2.
Definition LEFT_FLAG_MASK : Z := Z.lor LEFT_ENDED_EPOCH_FLAG LEFT_PRIOR_TERMINAL_FLAG.

Inductive ConversationEventBody :=
| EB_GenesisValidated
| EB_Operation (operation : ConversationOperation).

Inductive ConversationEventDecodeError :=
| EDE_Truncated (required available : Z)
| EDE_InvalidMagic
| EDE_UnsupportedCodec (major minor : Z)
| EDE_UnknownEventKind (tag : Z)
| EDE_NonCanonicalLength (declared_body_len actual_body_len : Z)
| EDE_NonCanonicalBody (tag : Z)
| EDE_LengthOverflow.

Definition body_tag (body : ConversationEventBody) : Z :=
  match body with
  | EB_GenesisValidated => GENESIS_VALIDATED_TAG
  | EB_Operation (CO_Enrolled _) => PARTICIPANT_ENROLLED_TAG
  | EB_Operation (CO_Attached _) => PARTICIPANT_ATTACHED_TAG
  | EB_Operation (CO_Detached _) => PARTICIPANT_DETACHED_TAG
  | EB_Operation (CO_Left _) => PARTICIPANT_LEFT_TAG
  | EB_Operation (CO_BindingFate _) => BINDING_FATE_RECORDED_TAG
  | EB_Operation (CO_NonzeroDebtAck _) => NONZERO_DEBT_ACK_RECORDED_TAG
  end.

Definition add_u32 (a b : Z) : Z := wrap u32_max (a + b).

Definition encoded_body_len (body : ConversationEventBody) : Z :=
  match body with
  | EB_GenesisValidated => 0
  | EB_Operation (CO_Enrolled _ | CO_Attached _) => ATTACH_SHAPED_BODY_LEN
  | EB_Operation (CO_Detached _) => DETACHED_BODY_LEN
  | EB_Operation (CO_Left operation) =>
      let committed := lop_committed operation in
      let length := LEFT_BODY_BASE_LEN in
      let length := if is_some (lc_ended_binding_epoch committed)
                    then add_u32 length BINDING_EPOCH_LEN else length in
      if is_some (lc_prior_terminal_delivery_seq committed) then add_u32 length 8 else length
  | EB_Operation (CO_BindingFate _) => BINDING_FATE_BODY_LEN
  | EB_Operation (CO_NonzeroDebtAck _) => NONZERO_DEBT_ACK_BODY_LEN
  end.

(** The encoders extend the vector they are given. *)
Definition encode_epoch_into (encoded : list byte) (epoch : BindingEpoch) : list byte :=
  let encoded := encoded ++ be 8 (server_incarnation (connection_incarnation epoch)) in
  let encoded := encoded ++ be 8 (connection_ordinal (connection_incarnation epoch)) in
  encoded ++ be 8 (capability_generation epoch).

Definition encode_body_into (body : ConversationEventBody) (encoded : list byte) : list byte :=
  match body with
  | EB_GenesisValidated => encoded
  | EB_Operation (CO_Enrolled operation) =>
      let encoded := encoded ++ be 8 (eop_participant_id operation) in
      let encoded := encode_epoch_into encoded (eop_binding_epoch operation) in
      let encoded := encoded ++ be 8 (eop_attached_transaction_order operation) in
      encoded ++ be 8 (eop_attached_delivery_seq operation)
  | EB_Operation (CO_Attached operation) =>
      let encoded := encoded ++ be 8 (aop_participant_id operation) in
      let encoded := encode_epoch_into encoded (aop_binding_epoch operation) in
      let encoded := encoded ++ be 8 (aop_attached_transaction_order operation) in
      encoded ++ be 8 (aop_attached_delivery_seq operation)
  | EB_Operation (CO_Detached operation) =>
      let encoded := encoded ++ dop_detach_attempt_token operation in
      let encoded := encoded ++ be 8 (dop_participant_id operation) in
      let encoded := encode_epoch_into encoded (dop_committed_binding_epoch operation) in
      let encoded := encoded ++ be 8 (dop_detached_transaction_order operation) in
      encoded ++ be 8 (dop_detached_delivery_seq operation)
  | EB_Operation (CO_Left operation) =>
      let committed := lop_committed operation in
      let encoded := encoded ++ lc_leave_attempt_token committed in
      let encoded := encoded ++ be 8 (lc_participant_id committed) in
      let encoded := encoded ++ be 8 (lc_retired_generation committed) in
      let flags := 0 in
      let flags := if is_some (lc_ended_binding_epoch committed)
                   then Z.lor flags LEFT_ENDED_EPOCH_FLAG else flags in
      let flags := if is_some (lc_prior_terminal_delivery_seq committed)
                   then Z.lor flags LEFT_PRIOR_TERMINAL_FLAG else flags in
      let encoded := encoded ++ be 1 flags in
      let encoded := match lc_ended_binding_epoch committed with
                     | Some epoch => encode_epoch_into encoded epoch
                     | None => encoded
                     end in
      let encoded := match lc_prior_terminal_delivery_seq committed with
                     | Some prior => encoded ++ be 8 prior
                     | None => encoded
                     end in
      let encoded := encoded ++ be 8 (lop_left_transaction_order operation) in
      encoded ++ be 8 (lc_left_delivery_seq committed)
  | EB_Operation (CO_BindingFate operation) =>
      let encoded := encoded ++ be 8 (bop_participant_id operation) in
      let encoded := encode_epoch_into encoded (bop_last_dead_binding_epoch operation) in
      encoded ++ be 8 (bop_resulting_floor operation)
  | EB_Operation (CO_NonzeroDebtAck operation) =>
      let encoded := encoded ++ be 8 (nop_participant_id operation) in
      let encoded := encoded ++ be 8 (nop_capability_generation operation) in
      encoded ++ be 8 (nop_through_seq operation)
  end.

Definition encode_conversation_event (conversation_id : ConversationId) (ordinal : Z)
    (body : ConversationEventBody) : list byte :=
  let body_len := encoded_body_len body in
  let encoded := EVENT_MAGIC in
  let encoded := encoded ++ be 2 EVENT_CODEC_MAJOR in
  let encoded := encoded ++ be 2 EVENT_CODEC_MINOR in
  let encoded := encoded ++ be 8 conversation_id in
  let encoded := encoded ++ be 8 ordinal in
  let encoded := encoded ++ be 2 (body_tag body) in
  let encoded := encoded ++ be 4 body_len in
  encode_body_into body encoded.

(** [input.get(start..end)] with [end = start.checked_add(len)]. *)
Definition event_get (input : list byte) (start len : Z)
    : result (list byte) ConversationEventDecodeError :=
  match checked_add usize_max start len with
  | None => Err EDE_LengthOverflow
  | Some stop =>
      if stop <=? blen input
      then Ok (take (Z.to_nat len) (drop (Z.to_nat start) input))
      else Err (EDE_Truncated stop (blen input))
  end.
Definition event_u16 (input : list byte) (start : Z) : result Z ConversationEventDecodeError :=
  let? bytes := event_get input start 2 in Ok (from_be bytes).
Definition event_u32 (input : list byte) (start : Z) : result Z ConversationEventDecodeError :=
  let? bytes := event_get input start 4 in Ok (from_be bytes).
Definition event_u64 (input : list byte) (start : Z) : result Z ConversationEventDecodeError :=
  let? bytes := event_get input start 8 in Ok (from_be bytes).
Definition event_u8 (input : list byte) (start : Z) : result Z ConversationEventDecodeError :=
  match input !! Z.to_nat start with
  | Some byte => Ok (from_be [byte])
  | None => Err (EDE_Truncated (Z.min usize_max (start + 1)) (blen input))
  end.
Definition event_bytes16 (input : list byte) (start : Z)
    : result (list byte) ConversationEventDecodeError :=
  event_get input start 16.

Definition event_generation (input : list byte) (start tag : Z)
    : result Generation ConversationEventDecodeError :=
  let? raw := event_u64 input start in
  ok_or (Generation_new raw) (EDE_NonCanonicalBody tag).

Definition event_epoch (input : list byte) (start tag : Z)
    : result BindingEpoch ConversationEventDecodeError :=
  let? server_incarnation := event_u64 input start in
  let? connection_ordinal := event_u64 input (Z.min usize_max (start + 8)) in
  let? raw_generation := event_u64 input (Z.min usize_max (start + 16)) in
  let? capability_generation := ok_or (Generation_new raw_generation) (EDE_NonCanonicalBody tag) in
  Ok (mkBindingEpoch (mkConnectionIncarnation server_incarnation connection_ordinal)
        capability_generation).

Definition require_body_len (expected declared_body_len actual_body_len : Z)
    : result unit ConversationEventDecodeError :=
  if declared_body_len =? expected then Ok tt
  else Err (EDE_NonCanonicalLength declared_body_len actual_body_len).

Definition decode_enrolled (conversation_id : ConversationId) (input : list byte)
    : result ConversationEventBody ConversationEventDecodeError :=
  let? participant_id := event_u64 input EVENT_HEADER_LEN in
  let? binding_epoch := event_epoch input (EVENT_HEADER_LEN + 8) PARTICIPANT_ENROLLED_TAG in
  let? attached_transaction_order := event_u64 input (EVENT_HEADER_LEN + 32) in
  let? attached_delivery_seq := event_u64 input (EVENT_HEADER_LEN + 40) in
  let? operation := ok_or (EnrolledOperation_from_decoded conversation_id participant_id
                             binding_epoch attached_transaction_order attached_delivery_seq)
                      (EDE_NonCanonicalBody PARTICIPANT_ENROLLED_TAG) in
  Ok (EB_Operation (CO_Enrolled operation)).

Definition decode_attached (conversation_id : ConversationId) (input : list byte)
    : result ConversationEventBody ConversationEventDecodeError :=
  let? participant_id := event_u64 input EVENT_HEADER_LEN in
  let? binding_epoch := event_epoch input (EVENT_HEADER_LEN + 8) PARTICIPANT_ATTACHED_TAG in
  let? attached_transaction_order := event_u64 input (EVENT_HEADER_LEN + 32) in
  let? attached_delivery_seq := event_u64 input (EVENT_HEADER_LEN + 40) in
  let? operation := ok_or (AttachedOperation_from_decoded conversation_id participant_id
                             binding_epoch attached_transaction_order attached_delivery_seq)
                      (EDE_NonCanonicalBody PARTICIPANT_ATTACHED_TAG) in
  Ok (EB_Operation (CO_Attached operation)).

Definition decode_detached (conversation_id : ConversationId) (input : list byte)
    : result ConversationEventBody ConversationEventDecodeError :=
  let? detach_attempt_token := event_bytes16 input EVENT_HEADER_LEN in
  let? participant_id := event_u64 input (EVENT_HEADER_LEN + 16) in
  let? committed_binding_epoch :=
    event_epoch input (EVENT_HEADER_LEN + 24) PARTICIPANT_DETACHED_TAG in
  let? detached_transaction_order := event_u64 input (EVENT_HEADER_LEN + 48) in
  let? detached_delivery_seq := event_u64 input (EVENT_HEADER_LEN + 56) in
  Ok (EB_Operation (CO_Detached (mkDetachedOperation detach_attempt_token conversation_id
        participant_id committed_binding_epoch detached_transaction_order detached_delivery_seq))).

Definition decode_left (conversation_id : ConversationId) (input : list byte)
    (declared_body_len actual_body_len : Z)
    : result ConversationEventBody ConversationEventDecodeError :=
  if declared_body_len <? LEFT_BODY_BASE_LEN
  then Err (EDE_NonCanonicalLength declared_body_len actual_body_len)
  else
    let? leave_attempt_token := event_bytes16 input EVENT_HEADER_LEN in
    let? participant_id := event_u64 input (EVENT_HEADER_LEN + 16) in
    let? retired_generation := event_generation input (EVENT_HEADER_LEN + 24) PARTICIPANT_LEFT_TAG in
    let? flags := event_u8 input (EVENT_HEADER_LEN + 32) in
    if negb (Z.land flags (Z.lxor u8_max LEFT_FLAG_MASK) =? 0)
    then Err (EDE_NonCanonicalBody PARTICIPANT_LEFT_TAG)
    else
      let has_epoch := negb (Z.land flags LEFT_ENDED_EPOCH_FLAG =? 0) in
      let has_prior := negb (Z.land flags LEFT_PRIOR_TERMINAL_FLAG =? 0) in
      let expected_body_len := LEFT_BODY_BASE_LEN in
      let expected_body_len :=
        if has_epoch then add_u32 expected_body_len BINDING_EPOCH_LEN else expected_body_len in
      let expected_body_len :=
        if has_prior then add_u32 expected_body_len 8 else expected_body_len in
      if negb (declared_body_len =? expected_body_len)
      then Err (EDE_NonCanonicalLength declared_body_len actual_body_len)
      else
        let cursor := EVENT_HEADER_LEN + 33 in
        let? ended :=
          if has_epoch then
            let? epoch := event_epoch input cursor PARTICIPANT_LEFT_TAG in
            Ok (Some epoch, cursor + BINDING_EPOCH_LEN)
          else Ok (None, cursor) in
        let '(ended_binding_epoch, cursor) := ended in
        let? prior :=
          if has_prior then
            let? prior := event_u64 input cursor in
            Ok (Some prior, cursor + 8)
          else Ok (None, cursor) in
        let '(prior_terminal_delivery_seq, cursor) := prior in
        let? left_transaction_order := event_u64 input cursor in
        let? left_delivery_seq := event_u64 input (cursor + 8) in
        let? committed := ok_or (LeaveCommitted_new conversation_id leave_attempt_token
                                   participant_id retired_generation ended_binding_epoch
                                   prior_terminal_delivery_seq left_delivery_seq)
                            (EDE_NonCanonicalBody PARTICIPANT_LEFT_TAG) in
        Ok (EB_Operation (CO_Left (mkLeftOperation committed left_transaction_order))).

Definition decode_binding_fate (conversation_id : ConversationId) (input : list byte)
    : result ConversationEventBody ConversationEventDecodeError :=
  let? participant_id := event_u64 input EVENT_HEADER_LEN in
  let? last_dead_binding_epoch :=
    event_epoch input (EVENT_HEADER_LEN + 8) BINDING_FATE_RECORDED_TAG in
  let? resulting_floor := event_u64 input (EVENT_HEADER_LEN + 32) in
  Ok (EB_Operation (CO_BindingFate (mkBindingFateOperation conversation_id participant_id
        last_dead_binding_epoch resulting_floor))).

Definition decode_nonzero_debt_ack (conversation_id : ConversationId) (input : list byte)
    : result ConversationEventBody ConversationEventDecodeError :=
  let? participant_id := event_u64 input EVENT_HEADER_LEN in
  let? capability_generation :=
    event_generation input (EVENT_HEADER_LEN + 8) NONZERO_DEBT_ACK_RECORDED_TAG in
  let? through_seq := event_u64 input (EVENT_HEADER_LEN + 16) in
  Ok (EB_Operation (CO_NonzeroDebtAck (mkNonzeroDebtAckOperation conversation_id participant_id
        capability_generation through_seq))).

(** The body of the kind the tag names. *)
Definition decode_event_body (tag : Z) (conversation_id : ConversationId) (input : list byte)
    (declared actual : Z) : result ConversationEventBody ConversationEventDecodeError :=
  if tag =? GENESIS_VALIDATED_TAG then
    if declared =? 0 then Ok EB_GenesisValidated else Err (EDE_NonCanonicalLength declared actual)
  else if tag =? PARTICIPANT_ENROLLED_TAG then
    let? _ := require_body_len ATTACH_SHAPED_BODY_LEN declared actual in
    decode_enrolled conversation_id input
  else if tag =? PARTICIPANT_ATTACHED_TAG then
    let? _ := require_body_len ATTACH_SHAPED_BODY_LEN declared actual in
    decode_attached conversation_id input
  else if tag =? PARTICIPANT_DETACHED_TAG then
    let? _ := require_body_len DETACHED_BODY_LEN declared actual in
    decode_detached conversation_id input
  else if tag =? PARTICIPANT_LEFT_TAG then decode_left conversation_id input declared actual
  else if tag =? BINDING_FATE_RECORDED_TAG then
    let? _ := require_body_len BINDING_FATE_BODY_LEN declared actual in
    decode_binding_fate conversation_id input
  else if tag =? NONZERO_DEBT_ACK_RECORDED_TAG then
    let? _ := require_body_len NONZERO_DEBT_ACK_BODY_LEN declared actual in
    decode_nonzero_debt_ack conversation_id input
  else Err (EDE_UnknownEventKind tag).

(** [usize::try_from] of a [u32] cannot fail: [usize] is 64 bits wide. *)
Definition decode_conversation_event (input : list byte)
    : result (ConversationId * Z * ConversationEventBody) ConversationEventDecodeError :=
  if blen input <? EVENT_HEADER_LEN then Err (EDE_Truncated EVENT_HEADER_LEN (blen input))
  else if negb (bool_decide (take 4 input = EVENT_MAGIC)) then Err EDE_InvalidMagic
  else
    let? codec_major := event_u16 input 4 in
    let? codec_minor := event_u16 input 6 in
    if negb ((codec_major =? EVENT_CODEC_MAJOR) && (codec_minor =? EVENT_CODEC_MINOR))
    then Err (EDE_UnsupportedCodec codec_major codec_minor)
    else
      let? conversation_id := event_u64 input 8 in
      let? ordinal := event_u64 input 16 in
      let? event_tag := event_u16 input 24 in
      let? declared_body_len := event_u32 input 26 in
      let actual_body_len := blen input - EVENT_HEADER_LEN in
      if negb (declared_body_len =? actual_body_len)
      then Err (EDE_NonCanonicalLength declared_body_len actual_body_len)
      else
        let? body := decode_event_body event_tag conversation_id input declared_body_len actual_body_len in
        Ok (conversation_id, ordinal, body).

(** ** The bytes of an event *)

Definition enc_op (operation : ConversationOperation) : list byte :=
  match operation with
  | CO_Enrolled (mkEnrolledOperation _ p e o s) | CO_Attached (mkAttachedOperation _ p e o s) =>
      be 8 p ++ enc_epoch e ++ be 8 o ++ be 8 s
  | CO_Detached (mkDetachedOperation t _ p e o s) => t ++ be 8 p ++ enc_epoch e ++ be 8 o ++ be 8 s
  | CO_Left (mkLeftOperation (mkLeaveCommitted _ t p g e r s) o) =>
      t ++ be 8 p ++ be 8 g ++ be 1 (of_bool (is_some e) + 2 * of_bool (is_some r))
      ++ concat (enc_epoch <$> option_list e) ++ concat (be 8 <$> option_list r)
      ++ be 8 o ++ be 8 s
  | CO_BindingFate (mkBindingFateOperation _ p e f) => be 8 p ++ enc_epoch e ++ be 8 f
  | CO_NonzeroDebtAck (mkNonzeroDebtAckOperation _ p g s) => be 8 p ++ be 8 g ++ be 8 s
  end.
Definition enc_event_body (body : ConversationEventBody) : list byte :=
  match body with EB_GenesisValidated => [] | EB_Operation operation => enc_op operation end.

(** What the producers of [operation_event.rs] and the decoder guarantee of a payload. *)
Definition wf_operation (operation : ConversationOperation) : Prop :=
  match operation with
  | CO_Enrolled (mkEnrolledOperation _ p e o s) =>
      u64 p /\ (wf_epoch e /\ capability_generation e = 1) /\ u64 o /\ u64 s
  | CO_Attached (mkAttachedOperation _ p e o s) =>
      u64 p /\ (wf_epoch e /\ capability_generation e <> 1) /\ u64 o /\ u64 s
  | CO_Detached (mkDetachedOperation t _ p e o s) =>
      wf_token t /\ u64 p /\ wf_epoch e /\ u64 o /\ u64 s
  | CO_Left (mkLeftOperation (mkLeaveCommitted c t p g e r s as committed) o) =>
      LeaveCommitted_new c t p g e r s = Some committed
      /\ wf_token t /\ u64 p /\ wf_generation g /\ wf_opt wf_epoch e /\ wf_opt u64 r /\ u64 o /\ u64 s
  | CO_BindingFate (mkBindingFateOperation _ p e f) => u64 p /\ wf_epoch e /\ u64 f
  | CO_NonzeroDebtAck (mkNonzeroDebtAckOperation _ p g s) => u64 p /\ wf_generation g /\ u64 s
  end.
Definition wf_event_body (conversation_id : ConversationId) (body : ConversationEventBody) : Prop :=
  match body with
  | EB_GenesisValidated => True
  | EB_Operation operation =>
      operation_conversation_id operation = conversation_id /\ wf_operation operation
  end.

Lemma encode_epoch_spec encoded e : encode_epoch_into encoded e = encoded ++ enc_epoch e.
Proof. unfold encode_epoch_into, enc_epoch, enc_incarnation. by rewrite <- !app_assoc. Qed.

Lemma encode_body_spec body encoded : encode_body_into body encoded = encoded ++ enc_event_body body.
Proof.
  destruct body as [|[[]|[]|[]|[[???? [e|] [r|] ?]]|[]|[]]]; simpl; rewrite ?encode_epoch_spec, ?app_nil_r;
    by rewrite <- ?app_assoc.
Qed.

Lemma encode_event_spec c ordinal body : encode_conversation_event c ordinal body
  = EVENT_MAGIC ++ be 2 1 ++ be 2 0 ++ be 8 c ++ be 8 ordinal ++ be 2 (body_tag body)
    ++ be 4 (encoded_body_len body) ++ enc_event_body body.
Proof. unfold encode_conversation_event. rewrite encode_body_spec. by rewrite <- !app_assoc. Qed.

Lemma blen_be_bytes n z : blen (be n z) = Z.of_nat n.
Proof. unfold blen. by rewrite length_be. Qed.
Lemma blen_epoch e : blen (enc_epoch e) = 24.
Proof. unfold enc_epoch, enc_incarnation. by rewrite !blen_app, !blen_be_bytes. Qed.

(** ** Fields at an offset *)

Definition field_at (input : list byte) (start : Z) (bs : list byte) : Prop :=
  0 <= start /\ take (length bs) (drop (Z.to_nat start) input) = bs.

Lemma field_at_app input start n bs1 bs2 : blen bs1 = n ->
  field_at input start (bs1 ++ bs2) <-> field_at input start bs1 /\ field_at input (start + n) bs2.
Proof.
  intros <-. unfold field_at, blen. rewrite length_app. split.
  - intros [Hs H]. assert (take (length bs1) (drop (Z.to_nat start) input) = bs1) as H1.
    { apply (f_equal (take (length bs1))) in H. rewrite take_take, take_app_length in H.
      by rewrite Nat.min_l in H by lia. }
    split_and!; [done|done|lia|]. apply (f_equal (drop (length bs1))) in H.
    rewrite drop_app_length, <- take_drop_commute, drop_drop in H.
    by replace (Z.to_nat (start + Z.of_nat (length bs1))) with (Z.to_nat start + length bs1)%nat by lia.
  - intros [[Hs H1] [_ H2]]. split; [done|]. rewrite <- take_take_drop, H1. f_equal.
    rewrite drop_drop. by replace (Z.to_nat start + length bs1)%nat
      with (Z.to_nat (start + Z.of_nat (length bs1))) by lia.
Qed.

Lemma field_at_all input bs : input = bs <-> field_at input 0 bs /\ blen input = blen bs.
Proof.
  unfold field_at, blen. simpl. rewrite drop_0. split.
  - intros ->. by rewrite firstn_all.
  - intros [[_ H] E]. rewrite <- H. symmetry. apply take_ge. lia.
Qed.

Lemma field_at_bound input start bs : bs <> [] -> field_at input start bs -> start + blen bs <= blen input.
Proof.
  intros Hne [Hs H]. apply (f_equal length) in H. rewrite length_take, length_drop in H.
  unfold blen. destruct bs as [|b bs]; [done|]. simpl length in *. lia.
Qed.

Lemma event_get_iff input start len bs : 0 <= start -> 0 < len -> start + len <= 1000 ->
  event_get input start len = Ok bs <-> field_at input start bs /\ blen bs = len.
Proof.
  intros Hs Hl Hb. unfold event_get, checked_add. rewrite (proj2 (Z.leb_le _ _)) by mlia.
  unfold field_at. destruct (Z.leb_spec (start + len) (blen input)) as [Hle|Hgt]; split.
  - intros [= <-]. assert (length (take (Z.to_nat len) (drop (Z.to_nat start) input)) = Z.to_nat len) as E.
    { rewrite length_take, length_drop. unfold blen in Hle. lia. }
    unfold blen. rewrite E. split; [done|lia].
  - intros [[_ H] E]. unfold blen in E. rewrite <- E, Nat2Z.id. by rewrite H.
  - done.
  - intros [H E]. assert (bs <> []) as Hne by (intros ->; unfold blen in E; simpl in E; lia).
    pose proof (field_at_bound input start bs Hne H). lia.
Qed.

Lemma bind_Ok {A B E} (m : result A E) (k : A -> result B E) b :
  (let? x := m in k x) = Ok b <-> exists x, m = Ok x /\ k x = Ok b.
Proof.
  split; [|by intros (x & -> & H)]. destruct m as [x|]; [|done]. intros H. by exists x.
Qed.
Lemma be_field input start n z : 0 <= start -> 0 < Z.of_nat n -> start + Z.of_nat n <= 1000 ->
  (let? bytes := event_get input start (Z.of_nat n) in Ok (from_be bytes)) = Ok z
  <-> field_at input start (be n z) /\ 0 <= z < 2 ^ (8 * Z.of_nat n).
Proof.
  intros Hs Hn Hb. rewrite bind_Ok. split.
  - intros (bs & H & [= <-]). apply event_get_iff in H as [Hf Hl]; [|done..].
    assert (length bs = n) as E by (unfold blen in Hl; lia). rewrite <- Hl.
    split; [|apply from_be_range]. by rewrite <- E, be_from_be.
  - intros [Hf Hr]. exists (be n z). split.
    + apply event_get_iff; [done..|]. by rewrite blen_be_bytes.
    + rewrite from_be_be; [done|]. by rewrite Z.mul_comm.
Qed.

Lemma event_u16_iff input start z : 0 <= start <= 900 ->
  event_u16 input start = Ok z <-> field_at input start (be 2 z) /\ u16 z.
Proof.
  intros H. unfold event_u16. rewrite (be_field input start 2) by lia. change (2 ^ (8 * Z.of_nat 2)) with (u16_max + 1).
  unfold u16. intuition lia.
Qed.
Lemma event_u32_iff input start z : 0 <= start <= 900 ->
  event_u32 input start = Ok z <-> field_at input start (be 4 z) /\ u32 z.
Proof.
  intros H. unfold event_u32. rewrite (be_field input start 4) by lia. change (2 ^ (8 * Z.of_nat 4)) with (u32_max + 1).
  unfold u32. intuition lia.
Qed.
Lemma event_u64_iff input start z : 0 <= start <= 900 ->
  event_u64 input start = Ok z <-> field_at input start (be 8 z) /\ u64 z.
Proof.
  intros H. unfold event_u64. rewrite (be_field input start 8) by lia. change (2 ^ (8 * Z.of_nat 8)) with (u64_max + 1).
  unfold u64. intuition lia.
Qed.

Lemma event_u8_iff input start z : 0 <= start ->
  event_u8 input start = Ok z <-> field_at input start (be 1 z) /\ u8 z.
Proof.
  intros Hs. unfold event_u8, field_at. rewrite length_be. split.
  - destruct (input !! Z.to_nat start) as [b|] eqn:E; [|done]. intros [= <-].
    pose proof (from_be_range [b]) as Hr. change (2 ^ (8 * blen [b])) with (u8_max + 1) in Hr.
    split; [|unfold u8; lia]. change 1%nat with (length [b]) at 2. rewrite be_from_be. split; [done|]. by rewrite (drop_S _ b).
  - intros [[_ H] Hz]. destruct (be_one z Hz) as (b & E & Hb). rewrite E in H.
    destruct (input !! Z.to_nat start) as [b'|] eqn:Ei.
    + rewrite (drop_S _ b') in H by done. simpl in H. injection H as ->. rewrite <- E, from_be_be; [done|].
      unfold u8 in Hz. change (2 ^ (Z.of_nat 1 * 8)) with (u8_max + 1). lia.
    + apply lookup_ge_None in Ei. by rewrite drop_ge in H.
Qed.

Lemma event_generation_iff input start tag g : 0 <= start <= 900 ->
  event_generation input start tag = Ok g <-> field_at input start (be 8 g) /\ wf_generation g.
Proof.
  intros Hs. unfold event_generation. rewrite bind_Ok. unfold Generation_new. split.
  - intros (raw & H & Hg). apply event_u64_iff in H as [Hf Hr]; [|done]. apply ok_or_Ok in Hg.
    destruct (Z.eqb_spec raw 0); [done|]. injection Hg as ->. split; [done|]. unfold wf_generation, u64 in *. lia.
  - intros [Hf Hr]. unfold wf_generation in Hr. exists g. split; [apply event_u64_iff; [done|split; [done|mlia]]|].
    by destruct (Z.eqb_spec g 0); [lia|].
Qed.

Lemma event_epoch_iff input start tag e : 0 <= start <= 800 ->
  event_epoch input start tag = Ok e <-> field_at input start (enc_epoch e) /\ wf_epoch e.
Proof.
  intros Hs. unfold event_epoch. rewrite !(Z.min_r usize_max) by mlia.
  destruct e as [[server ordinal] g]. unfold enc_epoch, enc_incarnation, wf_epoch, wf_incarnation. simpl.
  rewrite <- app_assoc, !(field_at_app input _ 8) by apply blen_be_bytes. rewrite <- Z.add_assoc. simpl (8 + 8).
  pose proof (event_generation_iff input (start + 16) tag g ltac:(lia)) as Hg. split.
  - intros H. apply bind_Ok in H as (s' & H1 & H). apply bind_Ok in H as (o' & H2 & H).
    apply event_u64_iff in H1 as [F1 U1]; [|lia]. apply event_u64_iff in H2 as [F2 U2]; [|lia].
    apply bind_Ok in H as (raw & H3 & H). apply bind_Ok in H as (g' & H4 & [= -> -> ->]).
    destruct Hg as [Hg _]. destruct Hg as [F3 U3]; [|done]. unfold event_generation. by rewrite H3.
  - intros [(F1 & F2 & F3) [[U1 U2] U3]].
    rewrite (proj2 (event_u64_iff input start server ltac:(lia)) (conj F1 U1)).
    rewrite (proj2 (event_u64_iff input (start + 8) ordinal ltac:(lia)) (conj F2 U2)).
    pose proof (proj2 Hg (conj F3 U3)) as H. unfold event_generation in H.
    apply bind_Ok in H as (raw & -> & ->). done.
Qed.

Lemma event_token_iff input start t : 0 <= start <= 900 ->
  event_bytes16 input start = Ok t <-> field_at input start t /\ wf_token t.
Proof.
  intros H. unfold event_bytes16. rewrite event_get_iff by lia. unfold blen, wf_token, TOKEN_LEN. intuition lia.
Qed.

(** ** The body decoders *)

(** Offsets of the source are sums of literals. *)
Ltac literal_offsets := unfold EVENT_HEADER_LEN, BINDING_EPOCH_LEN in *;
  repeat match goal with
    | |- context [Z.add (Zpos ?a) (Zpos ?b)] =>
        let v := eval vm_compute in (Zpos a + Zpos b) in change (Z.add (Zpos a) (Zpos b)) with v
    | H : context [Z.add (Zpos ?a) (Zpos ?b)] |- _ =>
        let v := eval vm_compute in (Zpos a + Zpos b) in change (Z.add (Zpos a) (Zpos b)) with v in H
    end.
(** Splits the bytes at an offset into the fields they are made of. *)
Ltac split_fields :=
  repeat match goal with
    | H : field_at _ _ (be 8 _ ++ _) |- _ => apply (field_at_app _ _ 8) in H as [? H]; [|by apply blen_be_bytes]
    | H : field_at _ _ (be 4 _ ++ _) |- _ => apply (field_at_app _ _ 4) in H as [? H]; [|by apply blen_be_bytes]
    | H : field_at _ _ (be 2 _ ++ _) |- _ => apply (field_at_app _ _ 2) in H as [? H]; [|by apply blen_be_bytes]
    | H : field_at _ _ (be 1 _ ++ _) |- _ => apply (field_at_app _ _ 1) in H as [? H]; [|by apply blen_be_bytes]
    | H : field_at _ _ (enc_epoch _ ++ _) |- _ =>
        apply (field_at_app _ _ 24) in H as [? H]; [|by apply blen_epoch]
    | H : field_at _ _ (?t ++ _), T : wf_token ?t |- _ =>
        apply (field_at_app _ _ 16) in H as [? H]; [|by unfold blen; rewrite T]
    | |- field_at _ _ (be 8 _ ++ _) => apply (field_at_app _ _ 8); [by apply blen_be_bytes|split]
    | |- field_at _ _ (be 4 _ ++ _) => apply (field_at_app _ _ 4); [by apply blen_be_bytes|split]
    | |- field_at _ _ (be 2 _ ++ _) => apply (field_at_app _ _ 2); [by apply blen_be_bytes|split]
    | |- field_at _ _ (be 1 _ ++ _) => apply (field_at_app _ _ 1); [by apply blen_be_bytes|split]
    | |- field_at _ _ (enc_epoch _ ++ _) => apply (field_at_app _ _ 24); [by apply blen_epoch|split]
    | T : wf_token ?t |- field_at _ _ (?t ++ _) =>
        apply (field_at_app _ _ 16); [by unfold blen; rewrite T|split]
    end; literal_offsets.
(** One reader of a decoder that succeeded: the field it read. *)
Ltac read_field H :=
  let x := fresh "x" in let E := fresh "E" in let U := fresh "U" in
  apply bind_Ok in H as (x & E & H); literal_offsets;
  lazymatch type of E with
  | event_bytes16 _ _ = _ => apply event_token_iff in E as [E U]; [|lia]
  | event_u8 _ _ = _ => apply event_u8_iff in E as [E U]; [|lia]
  | event_u16 _ _ = _ => apply event_u16_iff in E as [E U]; [|lia]
  | event_u32 _ _ = _ => apply event_u32_iff in E as [E U]; [|lia]
  | event_u64 _ _ = _ => apply event_u64_iff in E as [E U]; [|lia]
  | event_epoch _ _ _ = _ => apply event_epoch_iff in E as [E U]; [|lia]
  | event_generation _ _ _ = _ => apply event_generation_iff in E as [E U]; [|lia]
  end.
(** One reader of a decoder whose field is there. *)
Ltac give_field :=
  match goal with
  | F : field_at ?i ?s (be 8 ?z), U : u64 ?z |- context [event_u64 ?i ?s] =>
      rewrite (proj2 (event_u64_iff i s z ltac:(lia)) (conj F U))
  | F : field_at ?i ?s (be 4 ?z), U : u32 ?z |- context [event_u32 ?i ?s] =>
      rewrite (proj2 (event_u32_iff i s z ltac:(lia)) (conj F U))
  | F : field_at ?i ?s (be 2 ?z), U : u16 ?z |- context [event_u16 ?i ?s] =>
      rewrite (proj2 (event_u16_iff i s z ltac:(lia)) (conj F U))
  | F : field_at ?i ?s (be 1 ?z), U : u8 ?z |- context [event_u8 ?i ?s] =>
      rewrite (proj2 (event_u8_iff i s z ltac:(lia)) (conj F U))
  | F : field_at ?i ?s (be 8 ?z), U : wf_generation ?z |- context [event_generation ?i ?s ?t] =>
      rewrite (proj2 (event_generation_iff i s t z ltac:(lia)) (conj F U))
  | F : field_at ?i ?s (enc_epoch ?e), U : wf_epoch ?e |- context [event_epoch ?i ?s ?t] =>
      rewrite (proj2 (event_epoch_iff i s t e ltac:(lia)) (conj F U))
  | F : field_at ?i ?s ?t, T : wf_token ?t |- context [event_bytes16 ?i ?s] =>
      rewrite (proj2 (event_token_iff i s t ltac:(lia)) (conj F T))
  end; simpl.
(** A decoder whose fields are all there. *)
Ltac give_fields := split_fields; repeat (give_field; literal_offsets).

Lemma decode_enrolled_iff c input body : decode_enrolled c input = Ok body
  <-> body_tag body = PARTICIPANT_ENROLLED_TAG /\ wf_event_body c body /\ field_at input 30 (enc_event_body body).
Proof.
  unfold decode_enrolled. split.
  - intros H. do 4 read_field H. apply bind_Ok in H as (op & Ho & [= <-]). apply ok_or_Ok in Ho.
    unfold EnrolledOperation_from_decoded in Ho. destruct (Z.eqb_spec (capability_generation x0) 1); [|done].
    injection Ho as <-. simpl. split_and!; try done. split_fields; done.
  - destruct body as [|[[]|[]|[]|[]|[]|[]]]; simpl; try by intros [? _].
    intros (_ & (<- & U1 & (U2 & Hg) & U3 & U4) & F). literal_offsets. give_fields.
    unfold EnrolledOperation_from_decoded. by rewrite Hg.
Qed.

Lemma decode_attached_iff c input body : decode_attached c input = Ok body
  <-> body_tag body = PARTICIPANT_ATTACHED_TAG /\ wf_event_body c body /\ field_at input 30 (enc_event_body body).
Proof.
  unfold decode_attached. split.
  - intros H. do 4 read_field H. apply bind_Ok in H as (op & Ho & [= <-]). apply ok_or_Ok in Ho.
    unfold AttachedOperation_from_decoded in Ho. destruct (Z.eqb_spec (capability_generation x0) 1); [done|].
    injection Ho as <-. simpl. split_and!; try done. split_fields; done.
  - destruct body as [|[[]|[]|[]|[]|[]|[]]]; simpl; try by intros [? _].
    intros (_ & (<- & U1 & (U2 & Hg) & U3 & U4) & F). literal_offsets. give_fields.
    unfold AttachedOperation_from_decoded. by rewrite (proj2 (Z.eqb_neq _ _) Hg).
Qed.

Lemma decode_detached_iff c input body : decode_detached c input = Ok body
  <-> body_tag body = PARTICIPANT_DETACHED_TAG /\ wf_event_body c body /\ field_at input 30 (enc_event_body body).
Proof.
  unfold decode_detached. split.
  - intros H. do 5 read_field H. injection H as <-. simpl. split_and!; try done. split_fields; done.
  - destruct body as [|[[]|[]|[]|[]|[]|[]]]; simpl; try by intros [? _].
    intros (_ & (<- & U0 & U1 & U2 & U3 & U4) & F). literal_offsets. by give_fields.
Qed.

Lemma decode_binding_fate_iff c input body : decode_binding_fate c input = Ok body
  <-> body_tag body = BINDING_FATE_RECORDED_TAG /\ wf_event_body c body /\ field_at input 30 (enc_event_body body).
Proof.
  unfold decode_binding_fate. split.
  - intros H. do 3 read_field H. injection H as <-. simpl. split_and!; try done. split_fields; done.
  - destruct body as [|[[]|[]|[]|[]|[]|[]]]; simpl; try by intros [? _].
    intros (_ & (<- & U1 & U2 & U3) & F). literal_offsets. by give_fields.
Qed.

Lemma decode_nonzero_debt_ack_iff c input body : decode_nonzero_debt_ack c input = Ok body
  <-> body_tag body = NONZERO_DEBT_ACK_RECORDED_TAG /\ wf_event_body c body /\ field_at input 30 (enc_event_body body).
Proof.
  unfold decode_nonzero_debt_ack. split.
  - intros H. do 3 read_field H. injection H as <-. simpl. split_and!; try done. split_fields; done.
  - destruct body as [|[[]|[]|[]|[]|[]|[]]]; simpl; try by intros [? _].
    intros (_ & (<- & U1 & U2 & U3) & F). literal_offsets. by give_fields.
Qed.

Lemma left_flags z : u8 z -> Z.land z (Z.lxor u8_max LEFT_FLAG_MASK) = 0 ->
  exists e r : bool, z = of_bool e + 2 * of_bool r.
Proof.
  intros Hz Hm.
  assert (forallb (fun n => negb (Z.land (Z.of_nat n) (Z.lxor u8_max LEFT_FLAG_MASK) =? 0) || (n <? 4)%nat)
            (seq 0 256) = true) as H by (by vm_compute).
  rewrite forallb_forall in H. unfold u8 in Hz. change u8_max with 255 in Hz.
  specialize (H (Z.to_nat z) ltac:(apply in_seq; lia)). rewrite Z2Nat.id, Hm in H by lia. simpl in H.
  apply Nat.ltb_lt in H. assert (z = 0 \/ z = 1 \/ z = 2 \/ z = 3) as [-> | [-> | [-> | ->]]] by lia;
    [exists false, false|exists true, false|exists false, true|exists true, true]; done.
Qed.

Lemma LeaveCommitted_new_eq c t p g e r s v : LeaveCommitted_new c t p g e r s = Some v ->
  v = mkLeaveCommitted c t p g e r s.
Proof. unfold LeaveCommitted_new. intros H. do 2 case_match; congruence. Qed.
#[local] Opaque LeaveCommitted_new.

(** The fixed tail of a Left body, once its optional fields have been read. *)
Lemma left_tail c input t p g e r cursor body : 0 <= cursor <= 800 ->
  (let? left_transaction_order := event_u64 input cursor in
   let? left_delivery_seq := event_u64 input (cursor + 8) in
   let? committed := ok_or (LeaveCommitted_new c t p g e r left_delivery_seq)
                       (EDE_NonCanonicalBody PARTICIPANT_LEFT_TAG) in
   Ok (EB_Operation (CO_Left (mkLeftOperation committed left_transaction_order)))) = Ok body
  <-> exists o s, body = EB_Operation (CO_Left (mkLeftOperation (mkLeaveCommitted c t p g e r s) o))
      /\ LeaveCommitted_new c t p g e r s = Some (mkLeaveCommitted c t p g e r s)
      /\ u64 o /\ u64 s /\ field_at input cursor (be 8 o ++ be 8 s).
Proof.
  intros Hc. split.
  - intros H. apply bind_Ok in H as (o & E1 & H). apply bind_Ok in H as (s & E2 & H).
    apply event_u64_iff in E1 as [E1 U1]; [|lia]. apply event_u64_iff in E2 as [E2 U2]; [|lia].
    apply bind_Ok in H as (v & Hv & [= <-]). apply ok_or_Ok in Hv. pose proof (LeaveCommitted_new_eq _ _ _ _ _ _ _ _ Hv) as ->.
    exists o, s. split_and!; try done. apply (field_at_app _ _ 8); [apply blen_be_bytes|done].
  - intros (o & s & -> & Hv & U1 & U2 & F). apply (field_at_app _ _ 8) in F as [F1 F2]; [|apply blen_be_bytes].
    rewrite (proj2 (event_u64_iff input cursor o ltac:(lia)) (conj F1 U1)).
    rewrite (proj2 (event_u64_iff input (cursor + 8) s ltac:(lia)) (conj F2 U2)). by rewrite Hv.
Qed.

Lemma decode_left_iff c input declared actual body : decode_left c input declared actual = Ok body
  <-> body_tag body = PARTICIPANT_LEFT_TAG /\ declared = encoded_body_len body
      /\ wf_event_body c body /\ field_at input 30 (enc_event_body body).
Proof.
  unfold decode_left. split.
  - destruct (Z.ltb_spec declared LEFT_BODY_BASE_LEN); [done|]. intros H0. do 4 read_field H0.
    destruct (Z.eqb_spec (Z.land x2 (Z.lxor u8_max LEFT_FLAG_MASK)) 0) as [Hm|]; [|done].
    apply left_flags in Hm as (e & r & ->); [|done]. destruct e, r; simpl in H0;
      (match type of H0 with context [declared =? ?n] => destruct (Z.eqb_spec declared n) as [->|] end; [|done]);
      simpl in H0; literal_offsets.
    1,2: apply bind_Ok in H0 as (ended & H1 & H0); read_field H1; injection H1 as <-.
    1,3: apply bind_Ok in H0 as (prior & H1 & H0); read_field H1; injection H1 as <-.
    all: apply left_tail in H0 as (o & s & -> & Hv & Uo & Us & F); [|lia].
    all: simpl; split_and!; try done; rewrite ?app_nil_r; split_fields; done.
  - destruct body as [|[[]|[]|[]|[[? ? ? ? [e|] [r|] ?] ?]|[]|[]]]; simpl; try by intros [? _].
    all: intros (_ & -> & (<- & Hv & U1 & U2 & U3 & U4 & U5 & U6 & U7) & F); simpl; rewrite ?app_nil_r in F.
    all: assert (u8 (1 + 2 * 1) /\ u8 (1 + 2 * 0) /\ u8 (0 + 2 * 1) /\ u8 (0 + 2 * 0)) as (? & ? & ? & ?) by ground.
    all: give_fields.
    all: lazymatch goal with |- context [ok_or ?x _] => pose proof (Hv : x = _) as Hv'; by rewrite Hv' end.
Qed.

(** ** The envelope *)

Lemma require_body_len_Ok {A} expected declared actual (k : result A ConversationEventDecodeError) a :
  (let? _ := require_body_len expected declared actual in k) = Ok a <-> declared = expected /\ k = Ok a.
Proof. unfold require_body_len. destruct (Z.eqb_spec declared expected); intuition discriminate. Qed.

Lemma decode_event_body_iff tag c input declared actual body :
  decode_event_body tag c input declared actual = Ok body
  <-> tag = body_tag body /\ declared = encoded_body_len body
      /\ wf_event_body c body /\ field_at input 30 (enc_event_body body).
Proof.
  unfold decode_event_body. split.
  - destruct (Z.eqb_spec tag GENESIS_VALIDATED_TAG) as [->|].
    { destruct (Z.eqb_spec declared 0) as [->|]; [|done]. intros [= <-]. done. }
    repeat (match goal with |- context [tag =? ?t] => destruct (Z.eqb_spec tag t) as [->|] end;
      [|try done]); rewrite ?require_body_len_Ok.
    + intros [-> (Ht & Hw & Hf)%decode_enrolled_iff]. by destruct body as [|[]].
    + intros [-> (Ht & Hw & Hf)%decode_attached_iff]. by destruct body as [|[]].
    + intros [-> (Ht & Hw & Hf)%decode_detached_iff]. by destruct body as [|[]].
    + intros (Ht & -> & Hw & Hf)%decode_left_iff. by rewrite Ht.
    + intros [-> (Ht & Hw & Hf)%decode_binding_fate_iff]. by destruct body as [|[]].
    + intros [-> (Ht & Hw & Hf)%decode_nonzero_debt_ack_iff]. by destruct body as [|[]].
  - intros (-> & -> & Hw & Hf). destruct body as [|[]]; simpl body_tag; [done|..];
      cbv [GENESIS_VALIDATED_TAG PARTICIPANT_ENROLLED_TAG PARTICIPANT_ATTACHED_TAG
           PARTICIPANT_DETACHED_TAG PARTICIPANT_LEFT_TAG BINDING_FATE_RECORDED_TAG
           NONZERO_DEBT_ACK_RECORDED_TAG Z.eqb Pos.eqb]; rewrite ?require_body_len_Ok;
      try (split; [done|]).
    + by apply decode_enrolled_iff.
    + by apply decode_attached_iff.
    + by apply decode_detached_iff.
    + by apply decode_left_iff.
    + by apply decode_binding_fate_iff.
    + by apply decode_nonzero_debt_ack_iff.
Qed.

Lemma blen_event_body c body : wf_event_body c body -> blen (enc_event_body body) = encoded_body_len body.
Proof.
  destruct body as [|[[]|[]|[]|[[? ? ? ? [e|] [r|] ?] ?]|[]|[]]]; simpl; [done|..]; intros (_ & H);
    rewrite ?app_nil_r, ?blen_app, ?blen_epoch, ?blen_be_bytes; try done.
  1: destruct H as (H & _).
  2-5: destruct H as (_ & H & _).
  all: unfold blen; rewrite H; vm_compute; done.
Qed.
Lemma body_len_range body : 0 <= encoded_body_len body <= 81.
Proof. destruct body as [|[[]|[]|[]|[[? ? ? ? [e|] [r|] ?] ?]|[]|[]]]; simpl; by vm_compute. Qed.
Lemma body_tag_range body : u16 (body_tag body).
Proof. destruct body as [|[]]; ground. Qed.

Lemma decode_event_iff input c ordinal body : decode_conversation_event input = Ok (c, ordinal, body)
  <-> u64 c /\ u64 ordinal /\ wf_event_body c body /\ input = encode_conversation_event c ordinal body.
Proof.
  rewrite encode_event_spec. unfold decode_conversation_event. split.
  - destruct (Z.ltb_spec (blen input) EVENT_HEADER_LEN) as [|Hl]; [done|].
    case_bool_decide as Hmagic; [|done]. simpl negb; cbv iota. intros H. do 2 read_field H.
    destruct (Z.eqb_spec x EVENT_CODEC_MAJOR) as [->|]; [|done].
    destruct (Z.eqb_spec x0 EVENT_CODEC_MINOR) as [->|]; [|done]. simpl in H. do 4 read_field H.
    destruct (Z.eqb_spec x2 (blen input - 30)) as [->|]; [|done]. simpl in H.
    apply bind_Ok in H as (b & Hb & [= <- <- <-]).
    apply decode_event_body_iff in Hb as (-> & Hd & Hw & Hf). split_and!; try done.
    apply field_at_all. split.
    + apply (field_at_app _ _ 4); [done|]. rewrite <- Hd. split; [by split|]. split_fields; done.
    + rewrite !blen_app, !blen_be_bytes, (blen_event_body _ _ Hw), <- Hd. change (blen EVENT_MAGIC) with 4. lia.
  - intros (Uc & Uo & Hw & Hin). pose proof (body_len_range body) as Hr. pose proof (body_tag_range body) as Ht.
    assert (blen input = 30 + encoded_body_len body) as Hl.
    { rewrite Hin, !blen_app, !blen_be_bytes, (blen_event_body _ _ Hw). change (blen EVENT_MAGIC) with 4. lia. }
    apply field_at_all in Hin as [F _]. apply (field_at_app _ _ 4) in F as [F1 F]; [|done].
    rewrite (proj2 (Z.ltb_ge _ _)) by (unfold EVENT_HEADER_LEN; lia).
    destruct F1 as [_ F1]. simpl in F1. rewrite drop_0 in F1. rewrite bool_decide_true by done. simpl negb. cbv iota.
    assert (u16 1 /\ u16 0) as [? ?] by ground. assert (u32 (encoded_body_len body)) by mlia.
    change (0 + 4) with 4 in F. give_fields. rewrite Hl.
    replace (30 + encoded_body_len body - 30) with (encoded_body_len body) by lia.
    rewrite Z.eqb_refl. simpl. by rewrite (proj2 (decode_event_body_iff _ _ _ _ _ body)).
Qed.
