(* ===== verification/Shell.v ===== *)
(** * The event-sourced conversation shell

    Model of [liminal-protocol/src/lifecycle/conversation.rs] (the ordinals of one
    conversation, the durability barrier between the selection of an event and its
    append, and replay) and [aggregate_commit.rs] (each committed lifecycle operation
    selects its event and travels inside the barrier).

    The runs put the shell beside its durable log: events are appended as bytes, an
    append may fail, the process may stop at any moment, and a restart replays the log
    from the genesis. *)
From coqutil Require Import Byte.
From S2P Require Import Prelude EventCodec Algebra Tags Wire Response Bytes Edge Binding EdgeSteps.
From S2P Require Import Member Detach Leave Attach Lookup Slot Cursor AckOperations.

(** ** conversation.rs *)

Record ConversationGenesis := mkConversationGenesis { cg_conversation_id : ConversationId }.

Record ParticipantConversation := mkParticipantConversation {
  pc_genesis : ConversationGenesis;
  pc_next_event_ordinal : Z;
  pc_genesis_validated : bool;
}.
Definition from_genesis (genesis : ConversationGenesis) : ParticipantConversation :=
  mkParticipantConversation genesis 0 false.

Record ConversationEvent := mkConversationEvent {
  cev_conversation_id : ConversationId;
  cev_ordinal : Z;
  cev_body : ConversationEventBody;
}.
Definition event_encoded_len (event : ConversationEvent) : Z :=
  EVENT_HEADER_LEN + encoded_body_len (cev_body event).
Definition event_encode_canonical (event : ConversationEvent) : list byte :=
  encode_conversation_event (cev_conversation_id event) (cev_ordinal event) (cev_body event).
Definition event_decode_canonical (input : list byte)
    : result ConversationEvent ConversationEventDecodeError :=
  let? decoded := decode_conversation_event input in
  let '(conversation_id, ordinal, body) := decoded in
  Ok (mkConversationEvent conversation_id ordinal body).

Inductive ConversationReplayError :=
| CRE_ConversationMismatch (expected actual : ConversationId)
| CRE_OrdinalMismatch (expected actual : Z)
| CRE_GenesisAlreadyValidated
| CRE_GenesisNotValidated
| CRE_EventOrdinalExhausted (ordinal : Z).
Record ConversationReplayFailure := mkConversationReplayFailure {
  crf_conversation : ParticipantConversation;
  crf_reason : ConversationReplayError;
}.
Inductive ConversationRefusalReason :=
| CFR_GenesisAlreadyValidated
| CFR_GenesisNotValidated
| CFR_OperationConversationMismatch (expected actual : ConversationId)
| CFR_EventOrdinalExhausted (ordinal : Z).
Record ConversationRefusal := mkConversationRefusal {
  cfu_conversation : ParticipantConversation;
  cfu_reason : ConversationRefusalReason;
}.
Record ConversationCommit := mkConversationCommit {
  ccm_conversation : ParticipantConversation;
  ccm_event : ConversationEvent;
  ccm_resulting_event_ordinal : Z;
}.
Inductive ConversationDecision :=
| CDN_Commit (commit : ConversationCommit)
| CDN_Refused (refusal : ConversationRefusal).

Definition decide_genesis_validation (c : ParticipantConversation) : ConversationDecision :=
  if pc_genesis_validated c then CDN_Refused (mkConversationRefusal c CFR_GenesisAlreadyValidated)
  else
    match checked_add u64_max (pc_next_event_ordinal c) 1 with
    | None => CDN_Refused (mkConversationRefusal c
                (CFR_EventOrdinalExhausted (pc_next_event_ordinal c)))
    | Some resulting_event_ordinal =>
        CDN_Commit (mkConversationCommit c
          (mkConversationEvent (cg_conversation_id (pc_genesis c)) (pc_next_event_ordinal c)
             EB_GenesisValidated)
          resulting_event_ordinal)
    end.

Definition decide_operation (c : ParticipantConversation) (operation : ConversationOperation)
    : ConversationDecision :=
  if negb (pc_genesis_validated c)
  then CDN_Refused (mkConversationRefusal c CFR_GenesisNotValidated)
  else
    let actual := operation_conversation_id operation in
    let expected := cg_conversation_id (pc_genesis c) in
    if negb (actual =? expected)
    then CDN_Refused (mkConversationRefusal c (CFR_OperationConversationMismatch expected actual))
    else
      match checked_add u64_max (pc_next_event_ordinal c) 1 with
      | None => CDN_Refused (mkConversationRefusal c
                  (CFR_EventOrdinalExhausted (pc_next_event_ordinal c)))
      | Some resulting_event_ordinal =>
          CDN_Commit (mkConversationCommit c
            (mkConversationEvent expected (pc_next_event_ordinal c) (EB_Operation operation))
            resulting_event_ordinal)
      end.

Definition validate_event (c : ParticipantConversation) (event : ConversationEvent)
    : result Z ConversationReplayError :=
  let expected := cg_conversation_id (pc_genesis c) in
  if negb (cev_conversation_id event =? expected)
  then Err (CRE_ConversationMismatch expected (cev_conversation_id event))
  else if negb (cev_ordinal event =? pc_next_event_ordinal c)
  then Err (CRE_OrdinalMismatch (pc_next_event_ordinal c) (cev_ordinal event))
  else
    match cev_body event, pc_genesis_validated c with
    | EB_GenesisValidated, true => Err CRE_GenesisAlreadyValidated
    | EB_Operation _, false => Err CRE_GenesisNotValidated
    | _, _ => ok_or (checked_add u64_max (cev_ordinal event) 1)
                (CRE_EventOrdinalExhausted (cev_ordinal event))
    end.

Definition apply_validated_event (c : ParticipantConversation) (event : ConversationEvent)
    (resulting_event_ordinal : Z) : ParticipantConversation :=
  match cev_body event with
  | EB_GenesisValidated => mkParticipantConversation (pc_genesis c) resulting_event_ordinal true
  | EB_Operation _ =>
      mkParticipantConversation (pc_genesis c) resulting_event_ordinal (pc_genesis_validated c)
  end.

Definition conversation_replay (c : ParticipantConversation) (event : ConversationEvent)
    : result ParticipantConversation ConversationReplayFailure :=
  match validate_event c event with
  | Ok resulting_event_ordinal => Ok (apply_validated_event c event resulting_event_ordinal)
  | Err reason => Err (mkConversationReplayFailure c reason)
  end.

Definition conversation_commit (commit : ConversationCommit) : ParticipantConversation :=
  apply_validated_event (ccm_conversation commit) (ccm_event commit)
    (ccm_resulting_event_ordinal commit).
Definition conversation_abort (commit : ConversationCommit) : ParticipantConversation :=
  ccm_conversation commit.

(** ** aggregate_commit.rs *)

Record AggregateOperationCommit (T : Type) := mkAggregateCommit {
  agc_shell : ConversationCommit;
  agc_operation : T;
}.
Arguments mkAggregateCommit {T}.
Arguments agc_shell {T} _.
Arguments agc_operation {T} _.
Record AggregateOperationRefusal (T : Type) := mkAggregateRefusal {
  agr_refusal : ConversationRefusal;
  agr_operation : T;
}.
Arguments mkAggregateRefusal {T}.
Arguments agr_refusal {T} _.
Arguments agr_operation {T} _.
Inductive AggregateOperationDecision (T : Type) :=
| AGD_Commit (commit : AggregateOperationCommit T)
| AGD_Refused (refusal : AggregateOperationRefusal T).
Arguments AGD_Commit {T} _.
Arguments AGD_Refused {T} _.
Inductive AggregateOperationFaultReason :=
| AFR_DetachTerminalCellMismatch
| AFR_LeaveIdentityNotRetired.
Record AggregateOperationFault (T : Type) := mkAggregateFault {
  agf_shell : ParticipantConversation;
  agf_operation : T;
  agf_reason : AggregateOperationFaultReason;
}.
Arguments mkAggregateFault {T}.
Arguments agf_shell {T} _.
Arguments agf_operation {T} _.
Arguments agf_reason {T} _.
Definition AggregateOperationResult (T : Type) : Type :=
  result (AggregateOperationDecision T) (AggregateOperationFault T).

Definition aggregate_commit {T} (c : AggregateOperationCommit T) : ParticipantConversation * T :=
  (conversation_commit (agc_shell c), agc_operation c).
Definition aggregate_abort {T} (c : AggregateOperationCommit T) : ParticipantConversation * T :=
  (conversation_abort (agc_shell c), agc_operation c).
Definition aggregate_refusal_parts {T} (r : AggregateOperationRefusal T)
    : ParticipantConversation * T :=
  (cfu_conversation (agr_refusal r), agr_operation r).
Definition aggregate_fault_parts {T} (f : AggregateOperationFault T) : ParticipantConversation * T :=
  (agf_shell f, agf_operation f).

Definition decide_aggregate {T} (conversation : ParticipantConversation)
    (operation : ConversationOperation) (payload : T) : AggregateOperationDecision T :=
  match decide_operation conversation operation with
  | CDN_Commit shell => AGD_Commit (mkAggregateCommit shell payload)
  | CDN_Refused refusal => AGD_Refused (mkAggregateRefusal refusal payload)
  end.

Definition decide_enrolled_operation {F} (conversation : ParticipantConversation)
    (commit : EnrollmentCommit F) : AggregateOperationDecision (EnrollmentCommit F) :=
  decide_aggregate conversation (CO_Enrolled (EnrolledOperation_new commit)) commit.
Definition decide_attached_operation {F V} (conversation : ParticipantConversation)
    (commit : AttachCommit F V) : AggregateOperationDecision (AttachCommit F V) :=
  decide_aggregate conversation (CO_Attached (AttachedOperation_new commit)) commit.
Definition decide_detached_operation {EF V} (conversation : ParticipantConversation)
    (transition : CommittedDetachTransition EF V)
    : AggregateOperationResult (CommittedDetachTransition EF V) :=
  match DetachedOperation_new transition with
  | None => Err (mkAggregateFault conversation transition AFR_DetachTerminalCellMismatch)
  | Some body => Ok (decide_aggregate conversation (CO_Detached body) transition)
  end.
Definition decide_left_operation {EF V LF Fr} (conversation : ParticipantConversation)
    (commit : LeaveCommit EF V LF Fr) : AggregateOperationResult (LeaveCommit EF V LF Fr) :=
  match lvc_identity commit with
  | IS_Retired retired =>
      Ok (decide_aggregate conversation (CO_Left (LeftOperation_new retired)) commit)
  | IS_Live _ => Err (mkAggregateFault conversation commit AFR_LeaveIdentityNotRetired)
  end.
Definition decide_ordinary_binding_fate_operation (conversation : ParticipantConversation)
    (fate : OrdinaryBindingFate) : AggregateOperationDecision OrdinaryBindingFate :=
  decide_aggregate conversation (CO_BindingFate (BindingFateOperation_from_ordinary fate)) fate.
Definition decide_recovered_binding_fate_operation (conversation : ParticipantConversation)
    (fate : RecoveredBindingFate) : AggregateOperationDecision RecoveredBindingFate :=
  decide_aggregate conversation (CO_BindingFate (BindingFateOperation_from_recovered fate)) fate.
Definition decide_nonzero_debt_ack_operation (conversation : ParticipantConversation)
    (commit : NonzeroParticipantAckCommit) : AggregateOperationDecision NonzeroParticipantAckCommit :=
  decide_aggregate conversation (CO_NonzeroDebtAck (NonzeroDebtAckOperation_new commit)) commit.

(** ** The shell beside its log *)

(** What the owner of a shell asks it to record. *)
Inductive Selection := Sel_Genesis | Sel_Operation (operation : ConversationOperation).
Definition select (c : ParticipantConversation) (selection : Selection) : ConversationDecision :=
  match selection with
  | Sel_Genesis => decide_genesis_validation c
  | Sel_Operation operation => decide_operation c operation
  end.
Definition recordable (selection : Selection) : Prop :=
  match selection with Sel_Genesis => True | Sel_Operation operation => wf_operation operation end.

(** A cold restart: every stored event is decoded and replayed. *)
Fixpoint replay_events (c : ParticipantConversation) (log : list (list byte))
    : option ParticipantConversation :=
  match log with
  | [] => Some c
  | bytes :: log =>
      event ← ok (event_decode_canonical bytes);
      c ← ok (conversation_replay c event);
      replay_events c log
  end.

Record ShellWorld := mkShellWorld {
  sw_live : option ParticipantConversation;
  sw_log : list (list byte);
}.
Definition genesis (id : ConversationId) : ParticipantConversation :=
  from_genesis (mkConversationGenesis id).

Inductive shell_step (id : ConversationId) : ShellWorld -> ShellWorld -> Prop :=
(** The append is durable, then the barrier is consumed. *)
| shell_appended c selection commit log :
    recordable selection -> select c selection = CDN_Commit commit ->
    shell_step id (mkShellWorld (Some c) log)
      (mkShellWorld (Some (conversation_commit commit))
         (log ++ [event_encode_canonical (ccm_event commit)]))
(** The append fails and the barrier is cancelled. *)
| shell_aborted c selection commit log : select c selection = CDN_Commit commit ->
    shell_step id (mkShellWorld (Some c) log) (mkShellWorld (Some (conversation_abort commit)) log)
(** The process stops before or after the append. *)
| shell_stopped live log : shell_step id (mkShellWorld live log) (mkShellWorld None log)
| shell_stopped_after c selection commit log :
    recordable selection -> select c selection = CDN_Commit commit ->
    shell_step id (mkShellWorld (Some c) log)
      (mkShellWorld None (log ++ [event_encode_canonical (ccm_event commit)]))
| shell_refused c selection refusal log : select c selection = CDN_Refused refusal ->
    shell_step id (mkShellWorld (Some c) log) (mkShellWorld (Some (cfu_conversation refusal)) log)
| shell_restarted c log : replay_events (genesis id) log = Some c ->
    shell_step id (mkShellWorld None log) (mkShellWorld (Some c) log).
Inductive shell_run (id : ConversationId) : ShellWorld -> Prop :=
| shell_run_start : shell_run id (mkShellWorld (Some (genesis id)) [])
| shell_run_step w w' : shell_run id w -> shell_step id w w' -> shell_run id w'.

Lemma event_bytes_iff input event : event_decode_canonical input = Ok event
  <-> u64 (cev_conversation_id event) /\ u64 (cev_ordinal event)
      /\ wf_event_body (cev_conversation_id event) (cev_body event)
      /\ input = event_encode_canonical event.
Proof.
  unfold event_decode_canonical, event_encode_canonical. destruct event as [c n b]. simpl.
  rewrite <- decode_event_iff. destruct (decode_conversation_event input) as [[[c' n'] b']|]; simpl;
    split; congruence.
Qed.

(** The event a decision selects is the one replay accepts next, with the same result. *)
Lemma selected c selection commit : select c selection = CDN_Commit commit ->
  ccm_conversation commit = c
  /\ conversation_replay c (ccm_event commit) = Ok (conversation_commit commit)
  /\ cev_conversation_id (ccm_event commit) = cg_conversation_id (pc_genesis c)
  /\ cev_ordinal (ccm_event commit) = pc_next_event_ordinal c
  /\ pc_genesis (conversation_commit commit) = pc_genesis c
  /\ pc_next_event_ordinal (conversation_commit commit) = pc_next_event_ordinal c + 1
  /\ pc_next_event_ordinal c + 1 <= u64_max
  /\ pc_genesis_validated (conversation_commit commit) = true
  /\ (recordable selection ->
      wf_event_body (cg_conversation_id (pc_genesis c)) (cev_body (ccm_event commit))).
Proof.
  destruct selection as [|operation]; simpl; unfold decide_genesis_validation, decide_operation, checked_add;
    destruct (pc_genesis_validated c) eqn:Ev; try done; simpl.
  - destruct (Z.leb_spec (pc_next_event_ordinal c + 1) u64_max); [|done]. intros [= <-]. simpl.
    unfold conversation_replay, validate_event, conversation_commit, apply_validated_event. simpl.
    rewrite !Z.eqb_refl, Ev. simpl. unfold checked_add. rewrite (proj2 (Z.leb_le _ _)) by lia. done.
  - destruct (Z.eqb_spec (operation_conversation_id operation) (cg_conversation_id (pc_genesis c))) as [Ei|]; [|done].
    simpl. destruct (Z.leb_spec (pc_next_event_ordinal c + 1) u64_max); [|done]. intros [= <-]. simpl.
    unfold conversation_replay, validate_event, conversation_commit, apply_validated_event. simpl.
    rewrite !Z.eqb_refl, Ev. simpl. unfold checked_add. rewrite (proj2 (Z.leb_le _ _)) by lia. done.
Qed.

Lemma refused_same c selection refusal : select c selection = CDN_Refused refusal ->
  cfu_conversation refusal = c.
Proof.
  destruct selection; simpl; unfold decide_genesis_validation, decide_operation; intros H;
    repeat case_match; by simplify_eq.
Qed.

Lemma replay_events_app c log1 log2 :
  replay_events c (log1 ++ log2) = c' ← replay_events c log1; replay_events c' log2.
Proof.
  revert c. induction log1 as [|bytes log1 IH]; intros c; [done|]. simpl.
  destruct (event_decode_canonical bytes) as [event|]; [|done]. simpl.
  destruct (conversation_replay c event) as [c1|]; [|done]. simpl. apply IH.
Qed.

(** Live shell and log: the log replays, and to the live shell. *)
Definition shell_inv (id : ConversationId) (w : ShellWorld) : Prop :=
  exists c, replay_events (genesis id) (sw_log w) = Some c
  /\ (forall live, sw_live w = Some live -> live = c)
  /\ cg_conversation_id (pc_genesis c) = id
  /\ pc_next_event_ordinal c = Z.of_nat (length (sw_log w)) /\ u64 (pc_next_event_ordinal c)
  /\ pc_genesis_validated c = bool_decide (sw_log w <> []).

Lemma shell_append_inv id c selection commit log live' : u64 id ->
  shell_inv id (mkShellWorld (Some c) log) -> recordable selection ->
  select c selection = CDN_Commit commit ->
  (forall l, live' = Some l -> l = conversation_commit commit) ->
  shell_inv id (mkShellWorld live' (log ++ [event_encode_canonical (ccm_event commit)])).
Proof.
  intros Hid (c0 & Hr & Hl & Hc & Hn & Hu & Hv) Hrec Hsel Hlive. simpl in *.
  pose proof (Hl c eq_refl) as <-. apply selected in Hsel as (E1 & E2 & E3 & E4 & E5 & E6 & E7 & E8 & E9).
  exists (conversation_commit commit). simpl. rewrite replay_events_app, Hr. simpl.
  assert (event_decode_canonical (event_encode_canonical (ccm_event commit)) = Ok (ccm_event commit)) as Hd.
  { apply event_bytes_iff. rewrite E3, E4, Hc. rewrite Hc in E9. split_and!; auto. }
  rewrite Hd. simpl. rewrite E2. simpl. rewrite length_app, E5, E6, E8. simpl. split_and!; auto; try lia.
  - unfold u64 in *. lia.
  - symmetry. apply bool_decide_true. by destruct log.
Qed.

Lemma shell_step_inv id w w' : u64 id -> shell_inv id w -> shell_step id w w' -> shell_inv id w'.
Proof.
  intros Hid Hw Hs. destruct Hs as [c sel commit log Hrec Hsel|c sel commit log Hsel|live log
    |c sel commit log Hrec Hsel|c sel refusal log Hsel|c log Hr].
  - eapply shell_append_inv; eauto. congruence.
  - apply selected in Hsel as (E & _). unfold conversation_abort. by rewrite E.
  - destruct Hw as (c & Hr & _ & Hw). by exists c.
  - by eapply shell_append_inv.
  - apply refused_same in Hsel as ->. done.
  - destruct Hw as (c0 & Hr0 & _ & Hw). simpl in *. exists c0. split_and!; try apply Hw; [done|]. simpl. congruence.
Qed.

Lemma shell_run_inv id w : u64 id -> shell_run id w -> shell_inv id w.
Proof.
  intros Hid Hr. induction Hr as [|w w' _ IH Hs].
  - exists (genesis id). split_and!; try done. by intros live [= <-].
  - by eapply shell_step_inv.
Qed.

(** ** Theorems *)

(** C7: The canonical decoder of conversation events accepts exactly what the encoder writes
    for a well-formed event, and gives that event back. *)
Theorem event_bytes_exact input event : event_decode_canonical input = Ok event
  <-> u64 (cev_conversation_id event) /\ u64 (cev_ordinal event)
      /\ wf_event_body (cev_conversation_id event) (cev_body event)
      /\ input = event_encode_canonical event.
Proof. apply event_bytes_iff. Qed.

(** C6: Over every sequence of recorded events, failed appends, stops at any moment and
    restarts the durable log replays from the genesis, a live shell is exactly what the
    log replays to, and its next ordinal is the length of the log. *)
Theorem shell_log_replays id w : u64 id -> shell_run id w ->
  exists c, replay_events (genesis id) (sw_log w) = Some c
  /\ (forall live, sw_live w = Some live -> live = c)
  /\ pc_next_event_ordinal c = Z.of_nat (length (sw_log w))
  /\ (sw_live w = None -> shell_run id (mkShellWorld (Some c) (sw_log w))).
Proof.
  intros Hid Hr. destruct (shell_run_inv id w Hid Hr) as (c & Hc & Hl & _ & Hn & _).
  exists c. split_and!; try done. intros E. eapply shell_run_step; [exact Hr|].
  destruct w as [live log]. simpl in *. subst live. by apply shell_restarted.
Qed.

(** ** Committed operations and their events *)

(** The ranges the types of the payload give. *)
Definition typed_operation (operation : ConversationOperation) : Prop :=
  match operation with
  | CO_Enrolled (mkEnrolledOperation _ p e o s) | CO_Attached (mkAttachedOperation _ p e o s) =>
      u64 p /\ wf_epoch e /\ u64 o /\ u64 s
  | CO_Detached (mkDetachedOperation t _ p e o s) =>
      wf_token t /\ u64 p /\ wf_epoch e /\ u64 o /\ u64 s
  | CO_Left (mkLeftOperation (mkLeaveCommitted _ t p g e r s) o) =>
      wf_token t /\ u64 p /\ wf_generation g /\ wf_opt wf_epoch e /\ wf_opt u64 r /\ u64 o /\ u64 s
  | CO_BindingFate (mkBindingFateOperation _ p e f) => u64 p /\ wf_epoch e /\ u64 f
  | CO_NonzeroDebtAck (mkNonzeroDebtAckOperation _ p g s) => u64 p /\ wf_generation g /\ u64 s
  end.
(** What the decoder checks beyond them. *)
Definition canonical_operation (operation : ConversationOperation) : Prop :=
  match operation with
  | CO_Enrolled o => capability_generation (eop_binding_epoch o) = 1
  | CO_Attached o => capability_generation (aop_binding_epoch o) <> 1
  | CO_Left (mkLeftOperation (mkLeaveCommitted c t p g e r s) _) =>
      LeaveCommitted_new c t p g e r s = Some (mkLeaveCommitted c t p g e r s)
  | CO_Detached _ | CO_BindingFate _ | CO_NonzeroDebtAck _ => True
  end.
(** An operation of this conversation whose event the decoder reads back. *)
Definition records (operation : ConversationOperation) (id : ConversationId) : Prop :=
  operation_conversation_id operation = id /\ canonical_operation operation.

Lemma typed_canonical operation : typed_operation operation -> canonical_operation operation ->
  wf_operation operation.
Proof.
  destruct operation as [[]|[]|[]|[[] ?]|[]|[]]; simpl; try done.
  - intros (? & ? & ? & ?) ?. done.
  - intros (? & ? & ? & ?) ?. done.
Qed.

Section Records.
Context {EF V LF D P Fr : Type} `{!EqDecision D} `{!LeaveFrontier Fr}.

Lemma enrollment_records request (parameters : EnrollmentCommitParameters EF P) c :
  commit_enrollment request parameters = Ok c ->
  records (CO_Enrolled (EnrolledOperation_new c)) (lm_conversation_id (ecm_member c)).
Proof. unfold commit_enrollment, records. intros H. ok_inv H. done. Qed.

Lemma attach_records (w : VerifiedAttachCommit EF) (cell : DetachCell D) c :
  commit_attach w cell = Ok c ->
  atc_attached c = from_binding (acp_binding (vac_parameters w)) (acp_attached_position (vac_parameters w)).
Proof.
  unfold commit_attach. destruct (transition_detach_cell _ _ _) as [c'|]; [simpl|done].
  destruct (vac_mode w) as [a|t|proof [[p seq]|]]; simpl;
    destruct (rotate _ _ _ _ _); simpl; try done;
    unfold AttachBound_ordinary, AttachBound_fenced;
    destruct (negb _); simpl; try done; by intros [= <-].
Qed.

Lemma detach_records (t : CommittedDetachTransition EF D) shell :
  cdt_cause (cdx_terminal t) = DTC_CleanDeregister ->
  cdh_participant_id (cdx_cell t) = bti_participant_id (cdt_identity (cdx_terminal t)) ->
  cdh_committed_binding_epoch (cdx_cell t) = bti_binding_epoch (cdt_identity (cdx_terminal t)) ->
  cdh_detached_delivery_seq (cdx_cell t) = cdt_delivery_seq (cdx_terminal t) ->
  exists o, decide_detached_operation shell t = Ok (decide_aggregate shell (CO_Detached o) t)
  /\ records (CO_Detached o) (bti_conversation_id (cdt_identity (cdx_terminal t))).
Proof.
  intros E1 E2 E3 E4. unfold decide_detached_operation, DetachedOperation_new.
  rewrite E1, E2, E3, E4, !Z.eqb_refl, !bool_decide_true by done. simpl. by eexists.
Qed.

Lemma finish_leave_records (m : LiveMember EF) (w : VerifiedLeaveRequest V LF) e pr t lo ls (fr : Fr) c shell :
  finish_leave m w e pr t lo ls fr = Ok c ->
  exists o, decide_left_operation shell c = Ok (decide_aggregate shell (CO_Left o) c)
  /\ records (CO_Left o) (lm_conversation_id m).
Proof.
  intros H. pose proof (finish_leave_Ok _ _ _ _ _ _ _ _ _ H) as (Hc & _ & Hi & _).
  unfold decide_left_operation. rewrite Hi. eexists. split; [done|]. split; [done|].
  revert H. unfold finish_leave. destruct (negb _); [done|].
  destruct (LeaveCommitted_new _ _ _ _ _ _ _) as [v|] eqn:E; [|done]. intros _. simpl.
  by rewrite E, (LeaveCommitted_new_eq _ _ _ _ _ _ _ _ E).
Qed.

(** A validated shell of the operation's conversation with an ordinal left takes the
    operation: its event reads back, committing advances the shell by one, aborting gives
    the shell back, and the operation is the one that was given either way. *)
Lemma shell_takes_operation {T} shell operation (payload : T) id :
  records operation id -> typed_operation operation -> u64 id ->
  cg_conversation_id (pc_genesis shell) = id -> pc_genesis_validated shell = true ->
  0 <= pc_next_event_ordinal shell < u64_max ->
  exists c, decide_aggregate shell operation payload = AGD_Commit c
  /\ event_decode_canonical (event_encode_canonical (ccm_event (agc_shell c)))
     = Ok (mkConversationEvent id (pc_next_event_ordinal shell) (EB_Operation operation))
  /\ aggregate_commit c = (mkParticipantConversation (pc_genesis shell)
                             (pc_next_event_ordinal shell + 1) true, payload)
  /\ aggregate_abort c = (shell, payload).
Proof.
  intros [Hi Hc] Ht Hu Eg Ev Hn. unfold decide_aggregate, decide_operation, checked_add.
  rewrite Ev, Hi, Eg, Z.eqb_refl, (proj2 (Z.leb_le _ _)) by lia. simpl. eexists. split; [done|]. simpl.
  split_and!.
  - apply event_bytes_iff. simpl. split_and!; [done|unfold u64; lia|done|by apply typed_canonical|done].
  - unfold aggregate_commit, conversation_commit, apply_validated_event. simpl. by rewrite Ev.
  - done.
Qed.
(** Every operation a slot of the conversation commits selects an event of that
    conversation the decoder reads back: an enrollment is of generation one, an attach is
    not, the terminal and the cell of a detach name one detach, and a Leave leaves a
    tombstone with a valid result.  A validated shell with an ordinal left appends it; the
    operation comes out of the barrier as it went in, with the shell advanced or
    unchanged. *)
Theorem committed_operations_record ops (s : Slot (EF := EF) (D := D)) shell :
  slot_run (V := V) (LF := LF) (P := P) (Fr := Fr) SS_Absent ops = Some (SS_Live s) ->
  let id := lm_conversation_id (sl_member s) in
  (forall request (parameters : EnrollmentCommitParameters EF P) c,
     commit_enrollment request parameters = Ok c ->
     records (CO_Enrolled (EnrolledOperation_new c)) (lm_conversation_id (ecm_member c)))
  /\ (forall w c, attach_verified s w -> commit_attach w (sl_cell s) = Ok c ->
       records (CO_Attached (AttachedOperation_new c)) id)
  /\ (forall b r (v : D) w pos t, sl_binding s = BS_Bound b -> verify_detach_request b r v = Ok w ->
       commit_detach (sl_member s) w (sl_cell s) pos = Ok t ->
       exists o, decide_detached_operation shell t = Ok (decide_aggregate shell (CO_Detached o) t)
       /\ records (CO_Detached o) id)
  /\ (forall (cell : PendingDetach D) seq t, complete_pending_detach (sl_member s) (sl_binding s) cell seq = Ok t ->
       exists o, decide_detached_operation shell t = Ok (decide_aggregate shell (CO_Detached o) t)
       /\ records (CO_Detached o) id)
  /\ (forall (w : VerifiedLeaveRequest V LF) (a : PreparedLeaveAuthority Fr) parameters c,
       commit_leave (sl_member s) (sl_binding s) (sl_cell s) w a parameters = Ok c ->
       exists o, decide_left_operation shell c = Ok (decide_aggregate shell (CO_Left o) c)
       /\ records (CO_Left o) id)
  /\ (forall (w : VerifiedLeaveRequest V LF) (a : PreparedLeaveAuthority Fr) pending parameters c,
       commit_pending_leave (sl_member s) pending (sl_cell s) w a parameters = Ok c ->
       exists o, decide_left_operation shell c = Ok (decide_aggregate shell (CO_Left o) c)
       /\ records (CO_Left o) id)
  /\ (forall T operation (payload : T), records operation id -> typed_operation operation -> u64 id ->
       cg_conversation_id (pc_genesis shell) = id -> pc_genesis_validated shell = true ->
       0 <= pc_next_event_ordinal shell < u64_max ->
       exists c, decide_aggregate shell operation payload = AGD_Commit c
       /\ event_decode_canonical (event_encode_canonical (ccm_event (agc_shell c)))
          = Ok (mkConversationEvent id (pc_next_event_ordinal shell) (EB_Operation operation))
       /\ aggregate_commit c = (mkParticipantConversation (pc_genesis shell)
                                  (pc_next_event_ordinal shell + 1) true, payload)
       /\ aggregate_abort c = (shell, payload)).
Proof.
  intros Hrun id. pose proof (slot_run_ok _ SS_Absent _ I Hrun) as Hs. simpl in Hs. split_and!.
  - apply enrollment_records.
  - intros w c (_ & [_ Hc] & Hg & _) Ha. unfold records, AttachedOperation_new. simpl.
    rewrite (attach_records _ _ _ Ha). simpl. destruct Hs as [Hw _]. unfold wf_generation in Hw. split; [done|lia].
  - intros b r v w pos t Hb Hv Hc. apply verify_detach_request_Ok in Hv as (-> & Hcv & Hp & _).
    pose proof Hc as Hc'. apply commit_detach_Ok in Hc' as (_ & Hm & _ & _ & Ecell & _). simpl in *.
    assert (cdx_terminal t = commit_clean_deregister b pos) as Et.
    { unfold commit_detach in Hc. by ok_inv Hc. }
    destruct Hs as (_ & Hbo & _). rewrite Hb in Hbo. destruct Hbo as ([_ Hid] & _).
    replace id with (bti_conversation_id (cdt_identity (cdx_terminal t))) by (by rewrite Et).
    by apply detach_records; rewrite ?Et, ?Ecell.
  - intros cell seq t Hc. apply complete_pending_detach_Ok in Hc as (p & Hpair & _ & Hm & Et & _ & Ecell & _).
    apply validate_pending_pair_Ok in Hpair as (Eb & Hp & He & _ & Hcause & _).
    apply with_committed_terminal_Ok in Hm as ([_ Hid] & _).
    replace id with (bti_conversation_id (cdt_identity (cdx_terminal t))) by (by rewrite Et).
    apply detach_records; rewrite ?Et, ?Ecell; simpl; try done. by injection Hcause.
  - intros w a parameters c Hc. unfold commit_leave in Hc. csplit_in Hc. all: by eapply finish_leave_records.
  - intros w a pending parameters c Hc. unfold commit_pending_leave in Hc. csplit_in Hc.
    all: by eapply finish_leave_records.
  - intros T operation payload. apply shell_takes_operation.
Qed.

End Records.

(** ** Witnesses *)

Import Slot.Sample.

Definition sample_ack : ConversationOperation := CO_NonzeroDebtAck (mkNonzeroDebtAckOperation 9 4 1 3).
(** Genesis and one acknowledgement, then the process stops after the append. *)
Definition sample_log : list (list byte) :=
  [event_encode_canonical (mkConversationEvent 9 0 EB_GenesisValidated);
   event_encode_canonical (mkConversationEvent 9 1 (EB_Operation sample_ack))].

Lemma shell_log_replays_witness :
  exists c, replay_events (genesis 9) sample_log = Some c /\ pc_next_event_ordinal c = 2
  /\ shell_run 9 (mkShellWorld (Some c) sample_log).
Proof.
  assert (shell_run 9 (mkShellWorld None sample_log)) as Hr.
  { eapply shell_run_step; [eapply shell_run_step; [apply shell_run_start|]|].
    - by apply (shell_appended 9 (genesis 9) Sel_Genesis
             (mkConversationCommit (genesis 9) (mkConversationEvent 9 0 EB_GenesisValidated) 1) []).
    - apply (shell_stopped_after 9 _ (Sel_Operation sample_ack)
               (mkConversationCommit (mkParticipantConversation (mkConversationGenesis 9) 1 true)
                  (mkConversationEvent 9 1 (EB_Operation sample_ack)) 2)
               [event_encode_canonical (mkConversationEvent 9 0 EB_GenesisValidated)]); [|done].
      simpl. unfold wf_generation. ground. }
  destruct (shell_log_replays 9 (mkShellWorld None sample_log) ltac:(ground) Hr) as (c & H1 & _ & H2 & H3).
  exists c. split; [exact H1|]. split; [exact H2|]. by apply H3.
Defined.

Lemma committed_operations_record_witness :
  exists t o, commit_detach (sl_member (Sample.slot 2)) (mkVerifiedDetachRequest (Sample.binding 1 1) (Sample.detach_request 1) 5)
                (sl_cell (Sample.slot 2)) (mkCommittedPosition 3 3) = Ok t
  /\ decide_detached_operation (genesis 9) t = Ok (decide_aggregate (genesis 9) (CO_Detached o) t)
  /\ operation_conversation_id (CO_Detached o) = 9.
Proof.
  destruct (commit_detach (sl_member (Sample.slot 2)) (mkVerifiedDetachRequest (Sample.binding 1 1) (Sample.detach_request 1) 5)
              (sl_cell (Sample.slot 2)) (mkCommittedPosition 3 3)) as [t|] eqn:E; [|by vm_compute in E].
  assert (slot_run SS_Absent (take 2 Sample.life) = Some (SS_Live (Sample.slot 2))) as Hr by (by vm_compute).
  destruct (proj1 (proj2 (proj2 (committed_operations_record _ _ (genesis 9) Hr)))
              (Sample.binding 1 1) (Sample.detach_request 1) 5 _ _ t eq_refl eq_refl E) as (o & H1 & H2 & _).
  exists t, o. split; [done|]. split; [exact H1|exact H2].
Defined.
