(* ===== verification/Dispatch.v ===== *)
(** * Debt dispatch

    Model of [liminal-protocol/src/lifecycle/obligation_dispatch.rs]: the live frontier
    owner coupled with the cursor episode its debt needs, the transitions that keep the
    two together, and the decision whether the next obligation of a recipient may be
    delivered; and of the part of [liminal-server/src/server/participant/production/state.rs]
    that owns it ([take_frontier], [install_frontier], [install_nonzero_ack] and the
    observer progress).

    An acknowledgement under debt installs the episode its own commit produced, and the
    source refuses it unless rebuilding the episode from the resulting frontier gives the
    same one; [nonzero_ack_installs] shows that it always does. *)
From stdpp Require Import gmap.
From S2P Require Import Prelude OwnerSample OwnerRuns Algebra Tags Wire Response Authority Order Sequence.
From S2P Require Import Edge Binding EdgeSteps Member Detach Leave Attach Lookup Capacity Slot.
From S2P Require Import Closure Frontier FrontierNumeric FrontierLive RecordProjection.
From S2P Require Import RecordOperations LiveOwner FrontierInv FrontierRuns ProjectionRuns OwnerInv.
From S2P Require Import FrontierInit EnrollmentClosure EnrollmentOperation EnrollmentRuns.
From S2P Require Import OwnerAccounting AckOperations Cursor.

(** ** obligation_dispatch.rs *)

Inductive ObligationDebtOwnerError :=
| ODE_Episode (error : CursorEpisodeBuildError)
| ODE_NonzeroAck (error : NonzeroParticipantAckCommitError)
| ODE_NonzeroAckState.
Record CoupledObligationDebtOwner := mkCoupledOwner {
  cdo_frontier : LiveFrontierOwner;
  cdo_episode : NonzeroDebtCursorEpisode;
}.
Inductive ObligationDebtDispatchState :=
| ODS_Clear (frontier : LiveFrontierOwner)
| ODS_Owed (coupled : CoupledObligationDebtOwner).
Record ObligationDebtDispatchTransition := mkDispatchTransition {
  odt_prior_episode : option NonzeroDebtCursorEpisode;
}.

(** What an episode reads of the claim frontiers. *)
Definition frontier_view (f : ClaimFrontiers) : FrontierView :=
  mkFrontierView (cf_conversation_id f) (sl_high_watermark (scf_ledger (cf_sequence f)))
    (cf_retained_floor f) (air_participants (cf_active_identities f)).

Definition from_frontier (frontier : LiveFrontierOwner) (observer_progress : DeliverySeq)
    : result ObligationDebtDispatchState ObligationDebtOwnerError :=
  match ca_state (lfo_closure_accounting frontier) with
  | Closure_Clear => Ok (ODS_Clear frontier)
  | Closure_Owed debt _ =>
      let? episode := map_err ODE_Episode
        (from_claim_frontiers (frontier_view (lfo_frontiers frontier)) debt observer_progress) in
      Ok (ODS_Owed (mkCoupledOwner frontier episode))
  end.

Definition ods_frontier (s : ObligationDebtDispatchState) : LiveFrontierOwner :=
  match s with ODS_Clear frontier => frontier | ODS_Owed coupled => cdo_frontier coupled end.
Definition ods_episode (s : ObligationDebtDispatchState) : option NonzeroDebtCursorEpisode :=
  match s with ODS_Clear _ => None | ODS_Owed coupled => Some (cdo_episode coupled) end.

Definition frontier_participant (s : ObligationDebtDispatchState) (participant_id : ParticipantId)
    : option (FrontierBinding * DeliverySeq) :=
  option_map (fun participant => (fp_binding participant, fp_cursor participant))
    (find_participant participant_id (participants_of (ods_frontier s))).
(** [NonzeroDebtCursorEpisode::participant_binding]. *)
Definition participant_binding (e : NonzeroDebtCursorEpisode) (participant_id : ParticipantId)
    : option (FrontierBinding * DeliverySeq) :=
  option_map (fun participant => (dpc_binding participant, dpc_cursor participant))
    (ep_participants e !! participant_id).
Definition ods_participant (s : ObligationDebtDispatchState) (participant_id : ParticipantId)
    : option (FrontierBinding * DeliverySeq) :=
  episode ← ods_episode s; participant_binding episode participant_id.

Definition begin_transition (s : ObligationDebtDispatchState)
    : LiveFrontierOwner * ObligationDebtDispatchTransition :=
  match s with
  | ODS_Clear frontier => (frontier, mkDispatchTransition None)
  | ODS_Owed coupled => (cdo_frontier coupled, mkDispatchTransition (Some (cdo_episode coupled)))
  end.

Definition transition_complete (t : ObligationDebtDispatchTransition) (frontier : LiveFrontierOwner)
    (observer_progress : DeliverySeq) : result ObligationDebtDispatchState ObligationDebtOwnerError :=
  match ca_state (lfo_closure_accounting frontier) with
  | Closure_Clear => Ok (ODS_Clear frontier)
  | Closure_Owed debt _ =>
      let view := frontier_view (lfo_frontiers frontier) in
      let? episode := map_err ODE_Episode
        match odt_prior_episode t with
        | None => from_claim_frontiers view debt observer_progress
        | Some episode => reconcile_claim_frontiers episode view debt observer_progress
        end in
      Ok (ODS_Owed (mkCoupledOwner frontier episode))
  end.

(** The member it leaves next to the result. *)
Definition complete_nonzero_ack {F} (t : ObligationDebtDispatchTransition)
    (frontier : LiveFrontierOwner) (commit : NonzeroParticipantAckCommit) (member : LiveMember F)
    (observer_progress : DeliverySeq)
    : LiveMember F * result (ObligationDebtDispatchState * AckCommitted) ObligationDebtOwnerError :=
  match ca_state (lfo_closure_accounting frontier) with
  | Closure_Clear => (member, Err ODE_NonzeroAckState)
  | Closure_Owed debt _ =>
      match odt_prior_episode t with
      | None => (member, Err ODE_NonzeroAckState)
      | Some episode =>
          match NonzeroParticipantAckCommit_apply_to commit member episode with
          | (member, _, Err error) => (member, Err (ODE_NonzeroAck error))
          | (member, episode, Ok outcome) =>
              if negb (bool_decide (ep_debt episode = debt)) then (member, Err ODE_NonzeroAckState)
              else
                match reconcile_claim_frontiers episode (frontier_view (lfo_frontiers frontier)) debt
                        observer_progress with
                | Err error => (member, Err (ODE_Episode error))
                | Ok reconciled =>
                    if negb (bool_decide (reconciled = episode))
                    then (member, Err ODE_NonzeroAckState)
                    else (member, Ok (ODS_Owed (mkCoupledOwner frontier episode), outcome))
                end
          end
      end
  end.

Inductive DebtDispatchDeferral :=
| DDF_NoObligation | DDF_NoCurrentBinding | DDF_BeyondDebtHighWatermark.
Inductive DebtDispatchInvariant :=
| DDI_CoupledState | DDI_ParticipantAuthority | DDI_OutboxSelection | DDI_ScalarDivergence.
Inductive ObligationDebtDispatchDecision (T : Type) :=
| ODD_Permit (value : T)
| ODD_Defer (deferral : DebtDispatchDeferral)
| ODD_Invariant (invariant : DebtDispatchInvariant).
Arguments ODD_Permit {T} _.
Arguments ODD_Defer {T} _.
Arguments ODD_Invariant {T} _.

Definition classify_selected_obligation {T} (dispatch_after : DeliverySeq)
    (owed_high_watermark : option DeliverySeq) (selected : option (DeliverySeq * T))
    : ObligationDebtDispatchDecision T :=
  match selected with
  | None => ODD_Defer DDF_NoObligation
  | Some (delivery_seq, selected) =>
      if delivery_seq <=? dispatch_after then ODD_Invariant DDI_OutboxSelection
      else if match owed_high_watermark with
              | Some high_watermark => high_watermark <? delivery_seq
              | None => false
              end
      then ODD_Defer DDF_BeyondDebtHighWatermark
      else ODD_Permit selected
  end.

Definition decide_obligation_debt_dispatch {T} (s : ObligationDebtDispatchState)
    (participant_id : ParticipantId) (binding_epoch : BindingEpoch) (dispatch_after : DeliverySeq)
    (select_next : ParticipantId -> BindingEpoch -> DeliverySeq -> option (DeliverySeq * T))
    : ObligationDebtDispatchDecision T :=
  match find_participant participant_id (participants_of (ods_frontier s)) with
  | None => ODD_Invariant DDI_ParticipantAuthority
  | Some participant =>
      match fp_binding participant with
      | FB_Detached _ => ODD_Defer DDF_NoCurrentBinding
      | FB_Bound frontier_epoch =>
          if negb (bool_decide (frontier_epoch = binding_epoch))
             || (dispatch_after <? fp_cursor participant)
          then ODD_Invariant DDI_ParticipantAuthority
          else
            let select owed_high_watermark :=
              classify_selected_obligation dispatch_after owed_high_watermark
                (select_next participant_id binding_epoch dispatch_after) in
            match s with
            | ODS_Clear frontier =>
                match ca_state (lfo_closure_accounting frontier) with
                | Closure_Clear => select None
                | Closure_Owed _ _ => ODD_Invariant DDI_CoupledState
                end
            | ODS_Owed coupled =>
                match ca_state (lfo_closure_accounting (cdo_frontier coupled)) with
                | Closure_Clear => ODD_Invariant DDI_CoupledState
                | Closure_Owed debt _ =>
                    if negb (bool_decide (ep_debt (cdo_episode coupled) = debt))
                    then ODD_Invariant DDI_CoupledState
                    else if negb (bool_decide (participant_binding (cdo_episode coupled) participant_id
                                               = Some (FB_Bound binding_epoch, fp_cursor participant)))
                    then ODD_Invariant DDI_ParticipantAuthority
                    else select (Some (ep_candidate_high_watermark (cdo_episode coupled)))
                end
            end
      end
  end.

(** ** The owner in the production state *)

Record DebtOwner := mkDebtOwner {
  dow_dispatch : option ObligationDebtDispatchState;
  dow_transition : option ObligationDebtDispatchTransition;
  dow_observer_progress : DeliverySeq;
}.
Inductive DebtOwnerError :=
| DOE_Invariant
| DOE_FrontierUnavailable
| DOE_ObligationDebtOwner (error : ObligationDebtOwnerError).

Definition take_frontier (o : DebtOwner) : DebtOwner * result LiveFrontierOwner DebtOwnerError :=
  match dow_transition o with
  | Some _ => (o, Err DOE_Invariant)
  | None =>
      match dow_dispatch o with
      | None => (o, Err DOE_FrontierUnavailable)
      | Some s =>
          let '(frontier, transition) := begin_transition s in
          (mkDebtOwner None (Some transition) (dow_observer_progress o), Ok frontier)
      end
  end.

Definition install_frontier (o : DebtOwner) (frontier : LiveFrontierOwner)
    : DebtOwner * result unit DebtOwnerError :=
  let taken := mkDebtOwner (dow_dispatch o) None (dow_observer_progress o) in
  let installed r :=
    match r with
    | Ok s => (mkDebtOwner (Some s) None (dow_observer_progress o), Ok tt)
    | Err error => (taken, Err (DOE_ObligationDebtOwner error))
    end in
  match dow_transition o with
  | Some transition => installed (transition_complete transition frontier (dow_observer_progress o))
  | None =>
      match dow_dispatch o with
      | None => installed (from_frontier frontier (dow_observer_progress o))
      | Some _ => (taken, Err DOE_Invariant)
      end
  end.

(** [slots.get_mut]: the member of the acknowledging slot, when there is one. *)
Definition install_nonzero_ack {F} (o : DebtOwner) (frontier : LiveFrontierOwner)
    (commit : NonzeroParticipantAckCommit) (member : option (LiveMember F))
    : DebtOwner * option (LiveMember F) * result AckCommitted DebtOwnerError :=
  match ca_state (lfo_closure_accounting frontier) with
  | Closure_Clear => (o, member, Err DOE_Invariant)
  | Closure_Owed debt _ =>
      if negb (bool_decide (ep_debt (npc_resulting_episode commit) = debt))
      then (o, member, Err DOE_Invariant)
      else
        match dow_transition o with
        | None => (o, member, Err DOE_Invariant)
        | Some transition =>
            let taken := mkDebtOwner (dow_dispatch o) None (dow_observer_progress o) in
            if is_some (dow_dispatch o) then (taken, member, Err DOE_Invariant)
            else
              match member with
              | None => (taken, member, Err DOE_Invariant)
              | Some member =>
                  match complete_nonzero_ack transition frontier commit member
                          (dow_observer_progress o) with
                  | (member, Err error) => (taken, Some member, Err (DOE_ObligationDebtOwner error))
                  | (member, Ok (s, outcome)) =>
                      (mkDebtOwner (Some s) None (dow_observer_progress o), Some member, Ok outcome)
                  end
              end
        end
  end.

Definition reconcile_obligation_debt_observer_progress (o : DebtOwner)
    : DebtOwner * result unit DebtOwnerError :=
  match dow_transition o with
  | Some _ => (o, Err DOE_Invariant)
  | None =>
      match dow_dispatch o with
      | None => (o, Ok tt)
      | Some owner =>
          let '(frontier, transition) := begin_transition owner in
          match transition_complete transition frontier (dow_observer_progress o) with
          | Ok s => (mkDebtOwner (Some s) None (dow_observer_progress o), Ok tt)
          | Err error =>
              (mkDebtOwner None None (dow_observer_progress o), Err (DOE_ObligationDebtOwner error))
          end
      end
  end.

(** The debt half of [record_observer_progress_projection]. *)
Definition advance_observer_progress (o : DebtOwner) (progress : DeliverySeq)
    : DebtOwner * result unit DebtOwnerError :=
  let next_progress := Z.max (dow_observer_progress o) progress in
  if next_progress =? dow_observer_progress o then (o, Ok tt)
  else reconcile_obligation_debt_observer_progress
         (mkDebtOwner (dow_dispatch o) (dow_transition o) next_progress).

(** ** The participants of an episode *)

Definition members (ps : list FrontierParticipant) (acc : Participants) : Participants :=
  foldl (fun m p => <[fp_participant_index p := view_member p]> m) acc ps.

Lemma members_lookup ps acc i : NoDup (map fp_participant_index ps) ->
  members ps acc !! i
  = match find_participant i ps with Some p => Some (view_member p) | None => acc !! i end.
Proof.
  revert acc. induction ps as [|p ps IH]; intros acc Hnd; [done|]. simpl in *.
  apply NoDup_cons in Hnd as [Hp Hnd]. rewrite IH by done.
  destruct (Z.eqb_spec (fp_participant_index p) i) as [<-|Hne].
  - rewrite (proj2 (find_participant_None ps _)) by done. by rewrite lookup_insert_eq.
  - destruct (find_participant i ps); [done|]. by rewrite lookup_insert_ne.
Qed.

Definition indices_ok (v : FrontierView) : Prop := NoDup (map fp_participant_index (fv_participants v)).

(** The frontier an episode is built from: the observer and the floor are within the
    watermark, and so is every cursor. *)
Record fits (v : FrontierView) (o : DeliverySeq) : Prop := {
  fit_high : u64 (fv_high_watermark v);
  fit_observer : 0 <= o <= fv_high_watermark v;
  fit_floor : 0 <= fv_retained_floor v <= fv_high_watermark v + 1;
  fit_cursors : forall p, p ∈ fv_participants v -> 0 <= fp_cursor p <= fv_high_watermark v;
  fit_indices : indices_ok v;
}.
Arguments fit_high {v o} _.
Arguments fit_observer {v o} _.
Arguments fit_floor {v o} _.
Arguments fit_cursors {v o} _.
Arguments fit_indices {v o} _.

Lemma members_minimum v o m : fits v o ->
  minimum_member_cursor (members (fv_participants v) ∅) = Some m -> 0 <= m <= fv_high_watermark v.
Proof.
  intros Hv Hm. pose proof (minimum_member_cursor_spec (members (fv_participants v) ∅)) as H. rewrite Hm in H.
  destruct H as [(i & p & Hip & <-) _]. rewrite members_lookup in Hip by apply (fit_indices Hv).
  destruct (find_participant i (fv_participants v)) as [q|] eqn:Eq; [|done]. injection Hip as <-.
  apply find_participant_elem in Eq as [Hq _]. apply (fit_cursors Hv q Hq).
Qed.

Lemma from_view v d o : fits v o ->
  exists n, from_claim_frontiers v d o = Ok n
  /\ ep_conversation_id n = fv_conversation_id v /\ ep_debt n = d /\ ep_observer_progress n = o
  /\ ep_candidate_high_watermark n = fv_high_watermark v
  /\ ep_participants n = members (fv_participants v) ∅ /\ ep_facts n = ∅
  /\ let m := default (fv_high_watermark v) (minimum_member_cursor (ep_participants n)) in
     let cap := Z.max (fv_retained_floor v) (Z.min m o + 1) in
     ep_cap_floor n = cap /\ ep_floor n = mkFloorComputation m (Z.min m o + 1) cap.
Proof.
  intros Hv. pose proof (fit_high Hv) as Hh. pose proof (fit_observer Hv) as Ho. pose proof (fit_floor Hv) as Hf.
  pose proof (members_minimum v o) as Hm.
  unfold from_claim_frontiers, widen_u64. rewrite (proj2 (Z.ltb_ge _ _)) by lia.
  rewrite add_u128_exact by mlia. rewrite (proj2 (Z.ltb_ge _ _)) by lia.
  change (foldl _ ∅ (fv_participants v)) with (members (fv_participants v) ∅).
  assert (forall m, minimum_member_cursor (members (fv_participants v) ∅) = Some m -> u64 m).
  { intros m E. specialize (Hm m Hv E). mlia. }
  assert (u64 o) by mlia. eexists. split; [done|]. rewrite !floor_transition_max by done. simpl.
  split_and!; try done. f_equal. apply Z.max_id.
Qed.

(** ** Settled episodes *)

(** Every fact is of a participant, within the watermark, and consumed once the cursor
    has passed it: what carrying the facts over leaves alone. *)
Definition carried (h : Z) (ps : Participants) (facts : CursorProgressFacts) : Prop :=
  forall k f, facts !! k = Some f ->
  exists p, ps !! ck_participant_index k = Some p /\ ck_boundary k <= h
  /\ (ck_boundary k <= dpc_cursor p -> f = Consumed).

(** An episode that agrees with its frontier: rebuilt from it with the same facts it is
    the same. *)
Definition settled (e : NonzeroDebtCursorEpisode) (v : FrontierView) (o : DeliverySeq) : Prop :=
  exists n, from_claim_frontiers v (ep_debt e) o = Ok n /\ e = with_facts n (ep_facts e)
  /\ carried (ep_candidate_high_watermark n) (ep_participants n) (ep_facts e).

Lemma consume_carried h ps facts (i : ParticipantIndex) p : carried h ps facts -> ps !! i = Some p ->
  (consume_through facts i (dpc_cursor p)).1 = facts.
Proof.
  intros Hf Hp. apply map_eq. intros k. rewrite consume_lookup. destruct (facts !! k) as [f|] eqn:Ek; [|done].
  simpl. destruct (covered _ _ _ _) eqn:E; [|done]. apply covered_spec in E as (Ei & Hb & ->).
  destruct (Hf k _ Ek) as (q & Hq & _ & Hc). rewrite Ei, Hp in Hq. injection Hq as <-. by rewrite Hc.
Qed.
Lemma consumed_all n v d o facts : from_claim_frontiers v d o = Ok n ->
  carried (ep_candidate_high_watermark n) (ep_participants n) facts ->
  foldl (fun facts p => (consume_through facts (dpc_participant_id p) (dpc_cursor p)).1) facts
    (map snd (participants_iter (ep_participants n))) = facts.
Proof.
  intros Hn Hf. assert (Forall (fun p => ep_participants n !! dpc_participant_id p = Some p)
    (map snd (participants_iter (ep_participants n)))) as Hl.
  { apply Forall_forall. intros p Hp. apply list_elem_of_In, in_map_iff in Hp as ([i q] & <- & Hq).
    apply list_elem_of_In, elem_of_participants_iter in Hq. simpl in *.
    destruct (from_claim_frontiers_members v d o n i q Hn Hq) as (w & _ & -> & ->). done. }
  induction Hl as [|p l Hp _ IH]; [done|]. cbn [foldl]. by rewrite (consume_carried _ _ _ _ _ Hf Hp).
Qed.

Lemma reconciled_carried facts n :
  carried (ep_candidate_high_watermark n) (ep_participants n) (reconciled_facts facts n).
Proof.
  intros k f. rewrite reconciled_lookup. destruct (facts !! k); [|done].
  destruct (ep_participants n !! _) as [p|]; [|done]. destruct (Z.leb_spec (ck_boundary k) (ep_candidate_high_watermark n)); [|done].
  intros [= <-]. exists p. split_and!; try done. intros Hb. by rewrite (proj2 (Z.leb_le _ _)).
Qed.
Lemma reconciled_same facts n :
  carried (ep_candidate_high_watermark n) (ep_participants n) facts -> reconciled_facts facts n = facts.
Proof.
  intros Hf. apply map_eq. intros k. rewrite reconciled_lookup. destruct (facts !! k) as [f|] eqn:E; [|done].
  destruct (Hf k f E) as (p & -> & Hr & Hc). rewrite (proj2 (Z.leb_le _ _)) by lia.
  destruct (Z.leb_spec (ck_boundary k) (dpc_cursor p)) as [H|H]; [|done]. by apply Hc in H as ->.
Qed.

Lemma settled_reconciles e v o : settled e v o -> reconcile_claim_frontiers e v (ep_debt e) o = Ok e.
Proof.
  intros (n & Hn & He & Hf). unfold reconcile_claim_frontiers. rewrite Hn.
  rewrite (reconciled_same _ _ Hf), (consumed_all n v (ep_debt e) o _ Hn Hf). f_equal. symmetry. exact He.
Qed.

(** Carrying an episode over to a frontier always succeeds, and settles it. *)
Lemma reconcile_settled e v d o : fits v o ->
  exists e', reconcile_claim_frontiers e v d o = Ok e' /\ settled e' v o /\ ep_debt e' = d.
Proof.
  intros Hv. destruct (from_view v d o Hv) as (n & Hn & _ & Hd & _).
  pose proof (reconciled_carried (ep_facts e) n) as Hf'.
  unfold reconcile_claim_frontiers. rewrite Hn, (consumed_all n v d o _ Hn Hf'). eexists. split; [done|].
  split; [|done]. exists n. simpl. by rewrite Hd.
Qed.

Lemma from_view_settled v d o : fits v o ->
  exists e, from_claim_frontiers v d o = Ok e /\ settled e v o /\ ep_debt e = d.
Proof.
  intros Hv. destruct (from_view v d o Hv) as (n & Hn & _ & Hd & _ & _ & _ & Hf & _).
  exists n. split; [done|]. split; [|done]. exists n. rewrite Hd. split; [done|]. split; [by destruct n|].
  intros k f. rewrite Hf. by rewrite lookup_empty.
Qed.

(** ** Acknowledging under debt *)

Lemma acked_carried h ps facts (i : ParticipantIndex) p t :
  carried h ps facts -> ps !! i = Some p -> dpc_cursor p < t <= h ->
  carried h (<[i := advance_to p t]> ps) (acked_facts facts i t).
Proof.
  intros Hf Hp Ht k f Hk. assert (dpc_cursor (advance_to p t) = t) as Hadv.
  { unfold advance_to. by rewrite (proj2 (Z.ltb_lt _ _)) by lia. }
  destruct (decide (ck_participant_index k = i)) as [Hi|Hi].
  - exists (advance_to p t). rewrite Hi, lookup_insert_eq, Hadv. split; [done|].
    pose proof (acked_facts_domain _ _ _ _ _ Hk) as Hdom. split.
    + destruct Hdom as [[g Hg]| ->]; [|simpl; lia]. destruct (Hf k g Hg) as (q & _ & ? & _). done.
    + intros Hb. rewrite acked_facts_own in Hk; [by injection Hk|done|done|].
      destruct Hdom as [Hs| ->]; [by left|by right].
  - rewrite acked_facts_other in Hk by done. destruct (Hf k f Hk) as (q & Hq & ?). exists q.
    by rewrite lookup_insert_ne by done.
Qed.

(** The view after a participant's cursor moved. *)
Definition moved_view (v : FrontierView) (i : ParticipantIndex) (s : DeliverySeq) (b : FrontierBinding)
    : FrontierView :=
  mkFrontierView (fv_conversation_id v) (fv_high_watermark v) (fv_retained_floor v)
    (set_participant i (mkFrontierParticipant i s b) (fv_participants v)).


Lemma moved_fits v o i s b : fits v o -> 0 <= s <= fv_high_watermark v -> fits (moved_view v i s b) o.
Proof.
  intros [Hh Ho Hf Hc Hi] Hs. constructor; try done.
  - simpl. intros p Hp. apply set_participant_other in Hp as [->|Hp]; [done|by apply Hc].
  - unfold indices_ok. simpl. by rewrite set_participant_indices.
Qed.

Lemma moved_members v o i p s : fits v o -> members (fv_participants v) ∅ !! i = Some p -> dpc_cursor p < s ->
  members (fv_participants (moved_view v i s (dpc_binding p))) ∅
  = <[i := advance_to p s]> (members (fv_participants v) ∅).
Proof.
  intros Hv Hp Hs. apply map_eq. intros j. rewrite members_lookup.
  2:{ simpl. rewrite set_participant_indices by done. apply (fit_indices Hv). }
  simpl. rewrite find_set_participant by done. rewrite members_lookup in Hp by apply (fit_indices Hv).
  destruct (find_participant i (fv_participants v)) as [w|] eqn:Ew; [|done]. injection Hp as <-.
  apply find_participant_elem in Ew as [_ Ei]. destruct (Z.eqb_spec j i) as [->|Hne]; simpl.
  - rewrite lookup_insert_eq. unfold advance_to, view_member. simpl in *.
    rewrite (proj2 (Z.ltb_lt _ _)) by done. by rewrite Ei.
  - rewrite lookup_insert_ne, members_lookup by (done || apply (fit_indices Hv)). done.
Qed.

Lemma minimum_advances ps (i : ParticipantIndex) p t h : ps !! i = Some p -> dpc_cursor p < t ->
  default h (minimum_member_cursor ps) <= default h (minimum_member_cursor (<[i := advance_to p t]> ps)).
Proof.
  intros Hp Ht. pose proof (minimum_member_cursor_spec ps) as H1.
  pose proof (minimum_member_cursor_spec (<[i := advance_to p t]> ps)) as H2.
  destruct (minimum_member_cursor ps) as [m|]; [|by rewrite H1 in Hp].
  destruct (minimum_member_cursor (<[i := _]> ps)) as [m'|]; [|by apply insert_non_empty in H2].
  simpl. destruct H1 as [_ H1], H2 as [(j & q & Hq & <-) _]. destruct (decide (j = i)) as [->|Hne].
  - rewrite lookup_insert_eq in Hq. injection Hq as <-. specialize (H1 i p Hp). unfold advance_to.
    rewrite (proj2 (Z.ltb_lt _ _)) by done. simpl. lia.
  - rewrite lookup_insert_ne in Hq by done. by apply (H1 j).
Qed.

Lemma floors_max r a b : a <= b -> Z.max (Z.max (Z.max r a) b) (Z.max r a) = Z.max r b.
Proof. lia. Qed.
Lemma ack_settled e v o i p s : fits v o -> settled e v o -> ep_participants e !! i = Some p ->
  0 <= dpc_cursor p -> dpc_cursor p < s <= ep_candidate_high_watermark e ->
  settled (commit_ack e i p s) (moved_view v i s (dpc_binding p)) o.
Proof.
  intros Hv (n & Hn & He & Hf) Hp Hp0 Hs.
  destruct (from_view v (ep_debt e) o Hv) as (n' & Hn' & E1 & _ & E3 & E4 & E5 & _ & E7 & E8).
  rewrite Hn in Hn'. injection Hn' as <-. assert (ep_participants e = ep_participants n) as Ep by (by rewrite He).
  assert (ep_candidate_high_watermark e = ep_candidate_high_watermark n) as Eh by (by rewrite He).
  rewrite Ep in Hp. rewrite Eh, E4 in Hs. rewrite E5 in Hp.
  pose proof (moved_fits v o i s (dpc_binding p) Hv ltac:(lia)) as Hv'.
  destruct (from_view _ (ep_debt e) o Hv') as (m & Hm & F1 & F2 & F3 & F4 & F5 & F6 & F7 & F8).
  rewrite (moved_members v o i p s Hv Hp ltac:(lia)) in F5. simpl in F1, F4, F7, F8.
  exists m. split; [exact Hm|]. split.
  - assert (ep_conversation_id e = fv_conversation_id v /\ ep_observer_progress e = o
      /\ ep_cap_floor e = ep_cap_floor n /\ resulting_floor (ep_floor e) = ep_cap_floor n) as (G1 & G2 & G3 & G4).
    { rewrite He. unfold with_facts; simpl. rewrite E8. by rewrite E7. }
    pose proof (minimum_advances _ _ _ s (fv_high_watermark v) Hp ltac:(lia)) as Hmin.
    unfold commit_ack, with_facts. cbn [ep_facts ep_debt]. cbv zeta. rewrite Ep, E5, Eh, E4, G1, G2, G3, G4.
    rewrite F1, F2, F3, F4, F7, F8, F5, E7, E5. pose proof (fit_high Hv). pose proof (fit_observer Hv).
    rewrite floor_transition_max; [|done|mlia|].
    2:{ intros c Hc. pose proof (members_minimum _ o c Hv') as Hb. rewrite (moved_members v o i p s Hv Hp) in Hb by lia.
        specialize (Hb Hc). simpl in Hb. mlia. }
    cbn [resulting_floor]. rewrite floors_max; [done|]. apply Z.add_le_mono_r, Z.min_le_compat_r. exact Hmin.
  - rewrite F4, F5. simpl. rewrite E4, E5 in Hf. by apply acked_carried.
Qed.

(** ** The owner and its episode *)

Definition watermark (o : LiveFrontierOwner) : DeliverySeq :=
  sl_high_watermark (scf_ledger (cf_sequence (lfo_frontiers o))).
Definition view_of (o : LiveFrontierOwner) : FrontierView := frontier_view (lfo_frontiers o).

Lemma owner_fits o p : owner_inv o -> 0 <= p <= watermark o -> fits (view_of o) p.
Proof.
  intros Ho Hp. pose proof (oi_frontiers Ho) as (Hr & (Hsl & _) & _ & _ & _ & (Hfl & _)).
  constructor; simpl; try done.
  - apply Hsl.
  - intros q Hq. split; [|by apply (ranks_elem _ _ _ _ Hr)].
    pose proof (oi_cursors Ho) as Hc. by apply (proj1 (Forall_forall _ _) Hc) in Hq.
  - by eapply ranks_NoDup.
Qed.

(** The state is the one the closure accounting calls for, and its episode is settled. *)
Definition coupled (s : ObligationDebtDispatchState) (p : DeliverySeq) : Prop :=
  match s with
  | ODS_Clear f => ca_state (lfo_closure_accounting f) = Closure_Clear
  | ODS_Owed c =>
      (exists edge, ca_state (lfo_closure_accounting (cdo_frontier c))
                    = Closure_Owed (ep_debt (cdo_episode c)) edge)
      /\ settled (cdo_episode c) (view_of (cdo_frontier c)) p
  end.
Record owned (o : DebtOwner) (s : ObligationDebtDispatchState) : Prop := {
  ow_state : o = mkDebtOwner (Some s) None (dow_observer_progress o);
  ow_inv : owner_inv (ods_frontier s);
  ow_progress : 0 <= dow_observer_progress o <= watermark (ods_frontier s);
  ow_coupled : coupled s (dow_observer_progress o);
}.

(** Whatever the transition remembers, an owner in its invariant completes it. *)
Lemma transition_completes t f p : owner_inv f -> 0 <= p <= watermark f ->
  exists s, transition_complete t f p = Ok s /\ ods_frontier s = f /\ coupled s p.
Proof.
  intros Hf Hp. pose proof (owner_fits f p Hf Hp) as Hv. unfold transition_complete.
  destruct (ca_state _) as [|debt edge] eqn:Ec; [by exists (ODS_Clear f)|].
  assert (exists e, match odt_prior_episode t with
    | None => from_claim_frontiers (view_of f) debt p
    | Some episode => reconcile_claim_frontiers episode (view_of f) debt p
    end = Ok e /\ settled e (view_of f) p /\ ep_debt e = debt) as (e & He & Hs & Hd).
  { destruct (odt_prior_episode t); [by apply reconcile_settled|by apply from_view_settled]. }
  fold (view_of f). rewrite He. simpl. eexists. split; [done|]. split; [done|]. simpl. rewrite Hd. eauto.
Qed.
Lemma from_frontier_completes f p : from_frontier f p = transition_complete (mkDispatchTransition None) f p.
Proof. done. Qed.

Lemma installs t f p : owner_inv f -> 0 <= p <= watermark f ->
  exists s, install_frontier (mkDebtOwner None t p) f = (mkDebtOwner (Some s) None p, Ok tt)
  /\ ods_frontier s = f /\ coupled s p.
Proof.
  intros Hf Hp. unfold install_frontier. simpl.
  assert (exists t', match t with
    | Some t => transition_complete t f p | None => from_frontier f p end = transition_complete t' f p) as [t' Ht].
  { destruct t as [t|]; [by exists t|by exists (mkDispatchTransition None)]. }
  destruct (transition_completes t' f p Hf Hp) as (s & Hs & Hfr & Hc). exists s. rewrite Hs in Ht.
  destruct t; by rewrite Ht.
Qed.

(** *** The watermark never goes back *)

Lemma carried_high f f' : frontier_inv f -> frontier_inv f' ->
  cf_retained_floor f <= cf_retained_floor f' ->
  (forall r, r ∈ cf_retained_records f -> cf_retained_floor f' <= rcr_delivery_seq r ->
     r ∈ cf_retained_records f') ->
  sl_high_watermark (scf_ledger (cf_sequence f)) <= sl_high_watermark (scf_ledger (cf_sequence f')).
Proof.
  intros (_ & _ & _ & _ & _ & (H1 & H2 & _)) (_ & _ & _ & _ & _ & (H3 & H4 & _)) Hfl Hrows.
  revert H1 H2 H3 H4. generalize (sl_high_watermark (scf_ledger (cf_sequence f))) as h.
  generalize (sl_high_watermark (scf_ledger (cf_sequence f'))) as h'. intros h' h H1 H2 H3 H4.
  destruct (Z.le_gt_cases h h') as [|Hlt]; [done|]. exfalso.
  assert (h ∈ map rcr_delivery_seq (cf_retained_records f)) as Hh by (rewrite H2; apply elem_of_seqZ; lia).
  apply list_elem_of_fmap in Hh as (r & Er & Hr).
  assert (rcr_delivery_seq r ∈ map rcr_delivery_seq (cf_retained_records f')) as Hr'.
  { apply list_elem_of_fmap_2. apply Hrows; [done|lia]. }
  rewrite H4 in Hr'. apply elem_of_seqZ in Hr'. lia.
Qed.

Lemma effect_high o o' ps rows markers candidates : owner_inv o -> frontier_inv (lfo_frontiers o') ->
  effect (lfo_frontiers o) (lfo_frontiers o') ps (cf_retained_floor (lfo_frontiers o)) rows markers candidates ->
  (forall r, r ∈ cf_retained_records (lfo_frontiers o) -> r ∈ rows) -> watermark o <= watermark o'.
Proof.
  intros Ho Hf He Hr. apply carried_high; [apply Ho|done|by rewrite (ef_floor He)|].
  intros r Hin _. rewrite (ef_rows He). auto.
Qed.
Lemma effect_high_floor o o' ps floor extra markers candidates : owner_inv o -> frontier_inv (lfo_frontiers o') ->
  cf_retained_floor (lfo_frontiers o) <= floor ->
  effect (lfo_frontiers o) (lfo_frontiers o') ps floor
    (from_floor floor (cf_retained_records (lfo_frontiers o) ++ extra)) markers candidates ->
  watermark o <= watermark o'.
Proof.
  intros Ho Hf Hfl He. apply carried_high; [apply Ho|done|by rewrite (ef_floor He)|].
  intros r Hin. rewrite (ef_rows He), (ef_floor He). intros Hr. unfold from_floor.
  apply list_elem_of_In, filter_In. split; [|by apply Z.leb_le]. apply list_elem_of_In, elem_of_app. by left.
Qed.

Lemma appended_high o o' active rows charges : owner_inv o -> appended o o' active rows charges ->
  watermark o <= watermark o'.
Proof.
  intros Ho Ha. eapply effect_high; [done|apply (ap_frontiers Ha)|apply (ap_effect Ha)|].
  intros r Hr. apply elem_of_app. by left.
Qed.
Lemma acknowledged_high o o' id cursor crossed : owner_inv o -> acknowledged o o' id cursor crossed ->
  watermark o <= watermark o'.
Proof. intros Ho [(p & _ & _ & He) Hf _ _]. by eapply effect_high. Qed.
Lemma floored_high o o' ps floor : owner_inv o -> floored o o' ps floor -> watermark o <= watermark o'.
Proof.
  intros Ho Hfl. eapply (effect_high_floor _ _ _ floor []); [done|apply (fl_frontiers _ _ _ _ Hfl)|apply (fl_range _ _ _ _ Hfl)|].
  rewrite app_nil_r. apply (fl_effect _ _ _ _ Hfl).
Qed.
Lemma departed_high o o' pid rows charges retired : owner_inv o -> departed o o' pid rows charges retired ->
  watermark o <= watermark o'.
Proof.
  intros Ho Hd. destruct (dp_effect _ _ _ _ _ _ Hd) as (ps' & H). destruct H as [_ He].
  eapply effect_high; [done|apply (dp_frontiers _ _ _ _ _ _ Hd)|exact He|].
  intros r Hr. rewrite sort_by_key_perm. apply elem_of_app. by left.
Qed.
Lemma recorded_high o o' input plan state search : owner_inv o -> recorded o o' input plan state search ->
  watermark o <= watermark o'.
Proof.
  intros Ho Hr. eapply (effect_high_floor _ _ _ (cs_floor search)); [done|apply (rd_frontiers _ _ _ _ _ _ Hr)| |].
  - destruct (pl_search _ _ _ _ (rd_planned _ _ _ _ _ _ Hr)) as (_ & Hsf & _). unfold base_floor in Hsf.
    simpl in Hsf. lia.
  - apply (rd_effect _ _ _ _ _ _ Hr).
Qed.

Lemma owner_step_high o ev o' : owner_inv o -> owner_step o ev o' -> watermark o <= watermark o'.
Proof.
  intros Ho Hstep. destruct Hstep.
  - apply enrollment_appends in H1 as [Ha _]; [|done..]. by eapply appended_high.
  - apply attach_appends in H2 as (rows & Ha & _); [|done..]. by eapply appended_high.
  - apply detach_appends in H1 as [Ha _]; [|done..]. by eapply appended_high.
  - apply prepared_owner in H0 as [Hp _]. apply terminal_committed in H1 as (k & d' & H1); [|done].
    rewrite Hp in H1. apply commit_terminal_appends in H1 as (q & Hq & Ha); [|done..]. by eapply appended_high.
  - apply prepared_owner in H as [Hp _]. apply terminal_pended in H0 as (k & d' & H0).
    rewrite Hp in H0. apply pend_effect in H0 as (q & _ & He & _ & _ & _ & Hi); [|done].
    eapply effect_high; [done|apply Hi|exact He|done].
  - apply drain_terminal_appends in H0; [|done..]. by eapply appended_high.
  - apply ack_acknowledges in H as (p & _ & H); [|done]. by eapply acknowledged_high.
  - apply ack_acknowledges in H as (p & _ & H); [|done]. by eapply acknowledged_high.
  - apply marker_ack_acknowledges in H as [H _]; [|done]. by eapply acknowledged_high.
  - apply drain_marker_drains in H0 as (m & rest & H0); [|done..].
    eapply effect_high; [done|apply (dm_frontiers _ _ _ _ _ H0)|apply (dm_effect _ _ _ _ _ H0)|].
    intros r Hr. apply elem_of_app. by left.
  - destruct (record_records _ _ _ _ Ho H H0 H1 H2 H3) as (state & search & Hr). by eapply recorded_high.
  - destruct (prepared_fate_floored _ _ _ _ _ _ Ho H H0) as (p & floor & _ & Hfl & Hps).
    exact (floored_high _ _ _ _ Ho Hfl).
  - apply finalized_floor_floored in H as [->|(r & H)]; [done| |done]. exact (floored_high _ _ _ _ Ho H).
  - apply settled_leave_departs in H0 as (rows & retired & H0); [|done..]. by eapply departed_high.
  - apply pending_leave_departs in H1 as (rows & retired & H1); [|done..]. by eapply departed_high.
  - destruct (reconcile_spec o Ho) as [->|(_ & _ & E1 & _)]; [done|]. unfold watermark. by rewrite E1.
  - revert H. unfold mint_fenced_attach, take_fenced_marker_record.
    destruct (fenced_marker_source _ _) as [source|]; [|done].
    destruct (fenced_attach _ _ _ _ _); [|done]. by intros [= <- _].
Qed.

(** ** Installing an acknowledgement under debt *)

Lemma acknowledged_outcome e i epoch request avail v e' :
  acknowledge_by_endpoint e i epoch request avail = (Ok (CAO_Committed v), e') ->
  v = mkAckCommitted (mkParticipantAckEnvelope (pa_conversation_id request) (pa_participant_id request)
        (pa_capability_generation request) (pa_through_seq request)).
Proof.
  unfold acknowledge_by_endpoint. destruct (authorize_ack _ _ _ _); [|done]. destruct (avail _ _ _); [|done].
  destruct (_ <? _); [by destruct (ok_or _ _)|]. destruct (_ =? _); [done|].
  destruct (_ || _); [by destruct (ok_or _ _)|]. by intros [= <-].
Qed.

Section NonzeroAckInstalls.
Context {EF V LF : Type}.
Implicit Types (member : LiveMember EF).

(** What a committed decision says of the member, the request and the episode. *)
Record decided_ack member (request : ParticipantAck) (e : NonzeroDebtCursorEpisode)
    (commit : NonzeroParticipantAckCommit) (p : DebtParticipantCursor) : Prop := {
  da_conversation : pa_conversation_id request = lm_conversation_id member;
  da_participant : pa_participant_id request = lm_participant_id member;
  da_generation : pa_capability_generation request = lm_generation member;
  da_found : ep_participants e !! lm_participant_id member = Some p;
  da_cursor : dpc_cursor p = lm_cursor member;
  da_range : lm_cursor member < pa_through_seq request <= ep_candidate_high_watermark e;
  da_commit : commit = mkNonzeroParticipantAckCommit
    (mkAckCommitted (mkParticipantAckEnvelope (pa_conversation_id request) (pa_participant_id request)
       (pa_capability_generation request) (pa_through_seq request)))
    (lm_cursor member) (npc_binding_epoch commit) e
    (commit_ack e (lm_participant_id member) p (pa_through_seq request))
    (mkLiveMemberCursorUpdate (pa_conversation_id request) (pa_participant_id request)
       (pa_capability_generation request) (lm_cursor member) (pa_through_seq request));
}.

Lemma nonzero_ack_decided member binding epoch request availability e commit :
  apply_nonzero_participant_ack_by_availability (PI_Live member : PresentedIdentity EF V LF) binding epoch
    request availability e = NPD_Commit commit ->
  exists p, decided_ack member request e commit p.
Proof.
  unfold apply_nonzero_participant_ack_by_availability, lookup_binding_required.
  destruct (_ || _) eqn:E1; [done|]. apply orb_false_elim in E1 as [E1 E2]. simpl in E1, E2.
  destruct (negb (binding_request_generation _ =? _)) eqn:E3; [done|]. simpl in E3. breflect.
  destruct binding as [|active|]; [done| |done]. destruct (_ && _) eqn:E4; [|done].
  destruct (validate_aggregate _ _ _) as [[]|] eqn:Ev; [|done]. revert Ev. unfold validate_aggregate.
  destruct (negb (lm_conversation_id member =? ep_conversation_id e)); [done|].
  destruct (episode_bound_participant _ _) as [b|] eqn:Eb; [|done].
  destruct (negb (capability_generation _ =? _)); [done|].
  destruct (negb (bpc_cursor b =? lm_cursor member)) eqn:E5; [done|].
  destruct (negb (bool_decide (bpc_active_binding_epoch b = _))); [done|]. intros _. breflect.
  assert (exists avail, match availability with
    | AA_Contiguous t => acknowledge e (lm_participant_id member) (bnd_binding_epoch active) request t
    | AA_Obligations os =>
        acknowledge_with_obligations e (lm_participant_id member) (bnd_binding_epoch active) request os
    end = acknowledge_by_endpoint e (lm_participant_id member) (bnd_binding_epoch active) request avail)
    as (avail & ->) by (destruct availability; eexists; reflexivity).
  pose proof (acknowledge_state e (lm_participant_id member) (bnd_binding_epoch active) request avail) as Hs.
  destruct (acknowledge_by_endpoint _ _ _ _ _) as [[[v|v|v|v]|err] e'] eqn:Ea; try done. intros [= <-].
  apply acknowledged_outcome in Ea as ->. destruct Hs as (p & Hp & _ & Hr & ->).
  apply authorize_ack_Ok in Hp as (Hp & _). exists p.
  unfold episode_bound_participant in Eb. rewrite Hp in Eb. simpl in Eb.
  assert (dpc_cursor p = lm_cursor member) as Ec.
  { destruct (dpc_binding p); [|done]. injection Eb as <-. exact E5. }
  constructor; try done. by rewrite <- Ec.
Qed.

(** The member the commit leaves. *)
Definition acked_member member (through : DeliverySeq) : LiveMember EF :=
  mkLiveMember (lm_participant_id member) (lm_conversation_id member) (lm_generation member)
    (lm_attach_secret member) through (lm_enrollment_fingerprint member) (lm_latest_terminal member).

Lemma decided_applies member request e commit p : decided_ack member request e commit p ->
  NonzeroParticipantAckCommit_apply_to commit member e
  = (acked_member member (pa_through_seq request), npc_resulting_episode commit, Ok (npc_outcome commit)).
Proof.
  intros [E1 E2 E3 _ _ Hr Hc]. unfold NonzeroParticipantAckCommit_apply_to. rewrite Hc. simpl.
  rewrite E1, E2, E3, !Z.eqb_refl, bool_decide_eq_true_2 by done. simpl. unfold apply_cursor_update. simpl.
  rewrite !Z.eqb_refl. simpl. rewrite (proj2 (Z.leb_gt _ _)) by lia. by rewrite (proj2 (Z.eqb_neq _ _)) by lia.
Qed.

(** The frontier the commit leaves is the one the resulting episode is of. *)
Lemma decided_settles f member request e commit p lc progress : owner_inv f ->
  0 <= progress <= watermark f -> settled e (view_of f) progress ->
  decided_ack member request e commit p -> apply_nonzero_participant_ack_frontier f commit = Ok lc ->
  owner_inv (lfc_owner lc) /\ watermark (lfc_owner lc) = watermark f
  /\ ca_state (lfo_closure_accounting (lfc_owner lc)) = ca_state (lfo_closure_accounting f)
  /\ settled (npc_resulting_episode commit) (view_of (lfc_owner lc)) progress.
Proof.
  intros Hf Hp Hs Hd Ha. destruct Hd as [E1 E2 E3 Hfound Hcur Hr Hc].
  pose proof (owner_fits f progress Hf Hp) as Hv.
  assert (watermark (lfc_owner lc) = watermark f) as Hw.
  { revert Ha. unfold apply_nonzero_participant_ack_frontier, apply_ack_frontier, apply_live_identity.
    destruct (find_participant _ _); [|done]. destruct (if _ =? 0 then _ else _); [|done].
    destruct (find_participant _ _); [|done]. destruct (_ || _); [done|]. by intros [= <-]. }
  apply ack_acknowledges in Ha as (q & Hq & Hak); [|done]. rewrite Hc in Hq, Hak. simpl in Hq, Hak.
  split; [by eapply acknowledged_inv|]. split; [done|].
  split; [apply (ra_state (ak_accounting _ _ _ _ _ Hak))|].
  destruct (ak_found _ _ _ _ _ Hak) as (q' & Hq' & _ & He). rewrite Hq in Hq'. injection Hq' as <-.
  destruct Hs as (n & Hn & Hen & Hcar). pose proof Hn as Hn'.
  destruct (from_view (view_of f) (ep_debt e) progress Hv) as (n' & Hn2 & _ & _ & _ & Eh & Ep & _).
  rewrite Hn in Hn2. injection Hn2 as <-.
  assert (members (fv_participants (view_of f)) ∅ !! lm_participant_id member = Some p) as Hm.
  { rewrite <- Ep. by rewrite Hen in Hfound. }
  rewrite members_lookup in Hm by apply (fit_indices Hv). simpl in Hm.
  change (air_participants _) with (participants_of f) in Hm. rewrite E2 in *. rewrite Hq in Hm. injection Hm as <-.
  assert (view_of (lfc_owner lc) = moved_view (view_of f) (lm_participant_id member) (pa_through_seq request)
    (fp_binding q)) as ->.
  { unfold view_of, frontier_view, moved_view. simpl. rewrite (ef_conversation He), (ef_floor He), (ef_participants He).
    f_equal. exact Hw. }
  rewrite Hc. simpl. apply (ack_settled e (view_of f) progress _ (view_member q)); try done.
  - exists n. done.
  - apply find_participant_elem in Hq as [Hin _]. apply (fit_cursors Hv q Hin).
  - rewrite Hcur. done.
Qed.
End NonzeroAckInstalls.

(** ** Runs of the owner *)

(** The owner of a conversation: an operation takes the frontier and installs the one it
    leaves, or the same one when it is refused; an acknowledgement under debt also installs
    its episode; the observer progress advances to what the conversation has delivered.
    A step keeps what is left whether or not it succeeded. *)
Inductive debt_step (o : DebtOwner) : DebtOwner -> Prop :=
| debt_operation taken f ev f' :
    take_frontier o = (taken, Ok f) -> owner_step f ev f' -> debt_step o (install_frontier taken f').1
| debt_refusal taken f :
    take_frontier o = (taken, Ok f) -> debt_step o (install_frontier taken f).1
| debt_ack {EF V LF} (member : LiveMember EF) binding epoch request availability s episode commit taken f lc :
    dow_dispatch o = Some s -> ods_episode s = Some episode ->
    apply_nonzero_participant_ack_by_availability (PI_Live member : PresentedIdentity EF V LF) binding
      epoch request availability episode = NPD_Commit commit ->
    take_frontier o = (taken, Ok f) -> apply_nonzero_participant_ack_frontier f commit = Ok lc ->
    debt_step o (install_nonzero_ack taken (lfc_owner lc) commit (Some member)).1.1
| debt_progress s progress :
    dow_dispatch o = Some s -> 0 <= progress <= watermark (ods_frontier s) ->
    debt_step o (advance_observer_progress o progress).1.
Inductive debt_run : DebtOwner -> Prop :=
| debt_start marker_max f :
    owner_start marker_max f -> debt_run (install_frontier (mkDebtOwner None None 0) f).1
| debt_next o o' : debt_run o -> debt_step o o' -> debt_run o'.

Lemma watermark_nonneg f : owner_inv f -> 0 <= watermark f.
Proof. intros Ho. pose proof (oi_frontiers Ho) as (_ & ((Hh & _) & _) & _). unfold watermark. mlia. Qed.

Lemma take_owned o s : owned o s -> exists t,
  take_frontier o = (mkDebtOwner None (Some t) (dow_observer_progress o), Ok (ods_frontier s))
  /\ odt_prior_episode t = ods_episode s.
Proof. intros [-> _ _ _]. destruct s; by eexists. Qed.

Lemma complete_owned t f p : owner_inv f -> 0 <= p <= watermark f ->
  exists s, (install_frontier (mkDebtOwner None t p) f).1 = mkDebtOwner (Some s) None p /\ ods_frontier s = f
  /\ owned (mkDebtOwner (Some s) None p) s.
Proof.
  intros Hf Hp. destruct (installs t f p Hf Hp) as (s & -> & Hs & Hc). exists s. split; [done|]. split; [done|].
  constructor; simpl; by rewrite ?Hs.
Qed.

Lemma nonzero_ack_owned {EF V LF} o f e (member : LiveMember EF) binding epoch request availability commit lc :
  owned o (ODS_Owed (mkCoupledOwner f e)) ->
  apply_nonzero_participant_ack_by_availability (PI_Live member : PresentedIdentity EF V LF) binding
    epoch request availability e = NPD_Commit commit ->
  apply_nonzero_participant_ack_frontier f commit = Ok lc ->
  let s := ODS_Owed (mkCoupledOwner (lfc_owner lc) (npc_resulting_episode commit)) in
  let o' := mkDebtOwner (Some s) None (dow_observer_progress o) in
  install_nonzero_ack (take_frontier o).1 (lfc_owner lc) commit (Some member)
  = (o', Some (acked_member member (pa_through_seq request)), Ok (npc_outcome commit))
  /\ owned o' s.
Proof.
  intros [Ho Hinv Hp [[edge Hst] Hset]] Hd Hf. simpl in *. apply nonzero_ack_decided in Hd as (p & Hd).
  destruct (decided_settles f member request e commit p lc _ Hinv Hp Hset Hd Hf) as (Hi & Hw & Hca & Hs').
  assert (ep_debt (npc_resulting_episode commit) = ep_debt e) as Hdebt by (by rewrite (da_commit _ _ _ _ _ Hd)).
  assert (ca_state (lfo_closure_accounting (lfc_owner lc))
    = Closure_Owed (ep_debt (npc_resulting_episode commit)) edge) as Hst' by (rewrite Hca, Hst; by rewrite Hdebt).
  split.
  - rewrite Ho. unfold install_nonzero_ack, complete_nonzero_ack. simpl. rewrite Hst', (decided_applies _ _ _ _ _ Hd).
    rewrite bool_decide_eq_true_2 by done. simpl.
    pose proof (settled_reconciles _ _ _ Hs') as Hr. unfold view_of in Hr. rewrite Hr.
    by rewrite bool_decide_eq_true_2 by done.
  - constructor; simpl; try done; [by rewrite Hw|]. split; [by exists edge|done].
Qed.

Lemma debt_step_owned o s o' : owned o s -> owner_run (ods_frontier s) -> debt_step o o' ->
  exists s', owned o' s' /\ owner_run (ods_frontier s').
Proof.
  intros Hs Hrun Hstep. destruct (take_owned o s Hs) as (t & Ht & _).
  pose proof (ow_inv _ _ Hs) as Hinv. pose proof (ow_progress _ _ Hs) as Hp. destruct Hstep.
  - rewrite Ht in H. injection H as <- <-. pose proof (owner_step_high _ _ _ Hinv H0) as Hw.
    destruct (complete_owned (Some t) f' (dow_observer_progress o)) as (s' & -> & Hf & Ho);
      [by eapply owner_step_inv|lia|]. exists s'. split; [done|]. rewrite Hf. by eapply owner_run_step.
  - rewrite Ht in H. injection H as <- <-.
    destruct (complete_owned (Some t) (ods_frontier s) (dow_observer_progress o)) as (s' & -> & Hf & Ho); [done..|].
    exists s'. by rewrite Hf.
  - pose proof (ow_state _ _ Hs) as Ho. rewrite Ho in H. injection H as <-.
    destruct s as [f0|[f0 e]]; simpl in H0; [done|]. injection H0 as ->. simpl in *.
    rewrite Ht in H2. injection H2 as <- <-.
    destruct (nonzero_ack_owned o f0 episode member binding epoch request availability commit lc Hs H1 H3) as [Hi Ho'].
    rewrite Ht in Hi. simpl in Hi. rewrite Hi. eexists. split; [exact Ho'|]. simpl.
    eapply owner_run_step; [done|]. by eapply step_nonzero_ack.
  - pose proof (ow_state _ _ Hs) as Ho. rewrite Ho in H. injection H as <-. rewrite Ho.
    unfold advance_observer_progress. simpl. destruct (Z.eqb_spec (Z.max (dow_observer_progress o) progress) (dow_observer_progress o)).
    { exists s. by rewrite <- Ho. }
    unfold reconcile_obligation_debt_observer_progress. simpl.
    destruct (transition_completes (begin_transition s).2 (ods_frontier s) (Z.max (dow_observer_progress o) progress))
      as (s' & Hs' & Hf & Hc); [done|lia|].
    assert (begin_transition s = (ods_frontier s, (begin_transition s).2)) as -> by (by destruct s). rewrite Hs'. simpl.
    exists s'. rewrite Hf. split; [|done]. constructor; simpl; rewrite ?Hf; try done. lia.
Qed.

Lemma debt_run_owned o : debt_run o -> exists s, owned o s /\ owner_run (ods_frontier s).
Proof.
  induction 1 as [marker_max f Hf|o o' _ (s & Hs & Hr) Hstep]; [|by eapply debt_step_owned].
  pose proof (owner_start_inv _ _ Hf) as Hi. pose proof (watermark_nonneg f Hi).
  destruct (complete_owned None f 0) as (s & -> & E & Ho); [done|lia|]. exists s. split; [done|].
  rewrite E. by eapply owner_run_start.
Qed.

(** ** What the owner promises *)


(** C18: A cumulative acknowledgement decided on the owner's episode and applied to its
    frontier always installs: the member and the episode move to the acknowledged
    sequence, the outcome is returned, and the checks that compare the debt and the rebuilt
    episode with the committed one pass. *)
Theorem nonzero_ack_installs {EF V LF} o f e (member : LiveMember EF) binding epoch request availability
    commit lc : debt_run o -> dow_dispatch o = Some (ODS_Owed (mkCoupledOwner f e)) ->
  apply_nonzero_participant_ack_by_availability (PI_Live member : PresentedIdentity EF V LF) binding
    epoch request availability e = NPD_Commit commit ->
  apply_nonzero_participant_ack_frontier f commit = Ok lc ->
  install_nonzero_ack (take_frontier o).1 (lfc_owner lc) commit (Some member)
  = (mkDebtOwner (Some (ODS_Owed (mkCoupledOwner (lfc_owner lc) (npc_resulting_episode commit)))) None
       (dow_observer_progress o),
     Some (acked_member member (pa_through_seq request)), Ok (npc_outcome commit)).
Proof.
  intros Hr Hd Ha Hf. destruct (debt_run_owned o Hr) as (s & Hs & _). pose proof (ow_state _ _ Hs) as Ho.
  rewrite Ho in Hd. injection Hd as ->.
  exact (proj1 (nonzero_ack_owned o f e member binding epoch request availability commit lc Hs Ha Hf)).
Qed.

(** What the decision depends on: the recipient is bound to this epoch and its cursor is
    not past the dispatched sequence. *)
Definition receives (s : ObligationDebtDispatchState) (id : ParticipantId) (epoch : BindingEpoch)
    (after : DeliverySeq) : Prop :=
  exists p, find_participant id (participants_of (ods_frontier s)) = Some p
  /\ fp_binding p = FB_Bound epoch /\ fp_cursor p <= after.

Lemma owed_participant o f e id p : owned o (ODS_Owed (mkCoupledOwner f e)) ->
  find_participant id (participants_of f) = Some p ->
  participant_binding e id = Some (fp_binding p, fp_cursor p)
  /\ ep_candidate_high_watermark e = watermark f.
Proof.
  intros [_ Hi Hp [_ (n & Hn & He & _)]] Hf. simpl in *. pose proof (owner_fits _ _ Hi Hp) as Hv.
  destruct (from_view _ (ep_debt e) _ Hv) as (n' & Hn' & _ & _ & _ & Eh & Ep & _).
  rewrite Hn in Hn'. injection Hn' as <-. rewrite He. unfold participant_binding. simpl.
  rewrite Ep, members_lookup by apply (fit_indices Hv). simpl. unfold participants_of in Hf. rewrite Hf.
  split; [done|exact Eh].
Qed.

(** The decision, with the coupling checks gone. *)
Lemma dispatch_of_owned {T} o s id epoch after (select : ParticipantId -> BindingEpoch -> DeliverySeq -> option (DeliverySeq * T)) :
  owned o s ->
  decide_obligation_debt_dispatch s id epoch after select
  = match find_participant id (participants_of (ods_frontier s)) with
    | None => ODD_Invariant DDI_ParticipantAuthority
    | Some p =>
        match fp_binding p with
        | FB_Detached _ => ODD_Defer DDF_NoCurrentBinding
        | FB_Bound bound =>
            if negb (bool_decide (bound = epoch)) || (after <? fp_cursor p)
            then ODD_Invariant DDI_ParticipantAuthority
            else classify_selected_obligation after
                   (option_map (fun _ => watermark (ods_frontier s)) (ods_episode s)) (select id epoch after)
        end
    end.
Proof.
  intros Hs. unfold decide_obligation_debt_dispatch. destruct (find_participant _ _) as [p|] eqn:Ef; [|done].
  destruct (fp_binding p) as [b|b] eqn:Eb; [|done]. destruct (negb _ || _) eqn:Eg; [done|].
  apply orb_false_elim in Eg as [Eg _]. apply negb_false_iff, bool_decide_eq_true in Eg as ->.
  pose proof (ow_coupled _ _ Hs) as Hc. destruct s as [f|[f e]]; simpl in *; [by rewrite Hc|].
  destruct Hc as [[edge ->] _]. destruct (owed_participant o f e id p Hs Ef) as [Hp Hh].
  by rewrite Hp, Hh, Eb, !bool_decide_eq_true_2.
Qed.

(** C19: The next obligation of a recipient is permitted exactly when the recipient is
    bound to the dispatching epoch, is not ahead of the dispatched sequence, and the
    selected obligation is a later one which, while a debt is owed, is within the high
    watermark; the decision never finds the frontier and its episode in disagreement. *)
Theorem dispatch_decides {T} o s : debt_run o -> dow_dispatch o = Some s ->
  forall id epoch after (select : ParticipantId -> BindingEpoch -> DeliverySeq -> option (DeliverySeq * T)),
  decide_obligation_debt_dispatch s id epoch after select <> ODD_Invariant DDI_CoupledState
  /\ forall x, decide_obligation_debt_dispatch s id epoch after select = ODD_Permit x <->
     receives s id epoch after
     /\ exists seq, select id epoch after = Some (seq, x) /\ after < seq
        /\ (ca_state (lfo_closure_accounting (ods_frontier s)) = Closure_Clear
            \/ seq <= watermark (ods_frontier s)).
Proof.
  intros Hr Hd id epoch after select. destruct (debt_run_owned o Hr) as (s' & Hs & _).
  pose proof (ow_state _ _ Hs) as Ho. rewrite Ho in Hd. injection Hd as ->.
  rewrite (dispatch_of_owned o s id epoch after select Hs). unfold receives, classify_selected_obligation.
  assert (ca_state (lfo_closure_accounting (ods_frontier s)) = Closure_Clear <-> ods_episode s = None) as Hcl.
  { pose proof (ow_coupled _ _ Hs) as Hc. destruct s as [f|[f e]]; simpl in *; [done|]. by destruct Hc as [[edge ->] _]. }
  split; [by repeat (case_match; try done)|]. intros x.
  destruct (find_participant _ _) as [p|]; [|split; [done|by intros [(? & ? & _) _]]].
  destruct (fp_binding p) as [b|b] eqn:Eb; [|split; [done|intros [(q & [= <-] & ? & _) _]; congruence]].
  destruct (bool_decide _) eqn:E1; simpl.
  2:{ apply bool_decide_eq_false in E1. split; [done|]. intros [(q & [= <-] & ? & _) _]. congruence. }
  apply bool_decide_eq_true in E1 as ->. destruct (Z.ltb_spec after (fp_cursor p)).
  { split; [done|]. intros [(q & [= <-] & _ & ?) _]. lia. }
  destruct (select id epoch after) as [[seq y]|]; [|split; [done|by intros [_ (? & ? & _)]]].
  destruct (Z.leb_spec seq after); [split; [done|]; intros [_ (? & [= <- _] & ? & _)]; lia|].
  destruct (ods_episode s) as [e|]; simpl.
  - destruct (Z.ltb_spec (watermark (ods_frontier s)) seq).
    + split; [done|]. intros [_ (? & [= <- _] & _ & [Hc|?])]; [by apply Hcl in Hc|lia].
    + split; [intros [= ->]; split; [by exists p|]; exists seq; auto|by intros [_ (? & [= <- ->] & _)]].
  - split; [intros [= ->]; split; [by exists p|]; exists seq; split_and!; try done; left; by apply Hcl
           |by intros [_ (? & [= <- ->] & _)]].
Qed.

(** ** Debts are never repaid *)

Definition owes (o : LiveFrontierOwner) (debt : ClosureDebt) : Prop :=
  exists edge, ca_state (lfo_closure_accounting o) = Closure_Owed debt edge.
Definition later_owner : LiveFrontierOwner -> LiveFrontierOwner -> Prop :=
  rtc (fun o o' => exists ev, owner_step o ev o').

Lemma admits_when_clear {EF V LF} o (s : RecordAdmissionPrestate EF V LF) charge c :
  prestate_of o s -> apply_record_admission s charge = RAD_Commit c ->
  ca_state (lfo_closure_accounting o) = Closure_Clear.
Proof.
  intros (_ & E & _) H. apply admission_committed in H. revert H. unfold project_ordinary_record.
  destruct (negb _); [done|]. destruct (project_ordinary_fixed_point _) as [[|p]|] eqn:Ep; [done| |done]. intros _.
  revert Ep. unfold project_ordinary_fixed_point. destruct (opf_immutable_candidates _); [|done]. cbv zeta.
  destruct (projection_preflight _) as [m|] eqn:Em; [|done]. intros _. revert Em.
  unfold projection_preflight, validate_clear_snapshot. simpl. rewrite E.
  destruct (bool_decide _) eqn:Ec; [|done]. intros _. by apply bool_decide_eq_true in Ec.
Qed.

Lemma same_state_owes o o' debt credits anchors entries bytes :
  reaccounted (lfo_closure_accounting o) (lfo_closure_accounting o') (ca_state (lfo_closure_accounting o))
    credits anchors entries bytes -> owes o debt -> owes o' debt.
Proof. intros Ha [edge He]. exists edge. by rewrite (ra_state Ha). Qed.

Lemma marker_append_owes debt edge d s : apply_marker_append (Closure_Owed debt edge) d = Ok s ->
  exists edge', s = Closure_Owed debt edge'.
Proof.
  unfold apply_marker_append. destruct edge; try done.
  - destruct (later_projection_after_marker _ _ _ _) as [succ|] eqn:E; cbn; [|done].
    unfold projection_marker_appended. destruct (_ && _); cbn; [|done]. intros [= <-].
    unfold later_projection_after_marker in E. cbn in E. destruct (_ || _); [done|]. injection E as <-. by eexists.
  - unfold compaction_marker_appended. cbn. destruct (_ || _); cbn; [done|]. intros [= <-]. by eexists.
Qed.

Lemma owner_step_owes o ev o' debt : owner_inv o -> owes o debt -> owner_step o ev o' -> owes o' debt.
Proof.
  intros Ho Hd Hstep. destruct Hstep.
  - apply enrollment_appends in H1 as [Ha _]; [|done..]. by eapply same_state_owes; [apply (ap_accounting Ha)|].
  - apply attach_appends in H2 as (rows & Ha & _); [|done..]. by eapply same_state_owes; [apply (ap_accounting Ha)|].
  - apply detach_appends in H1 as [Ha _]; [|done..]. by eapply same_state_owes; [apply (ap_accounting Ha)|].
  - apply prepared_owner in H0 as [Hp _]. apply terminal_committed in H1 as (k & d' & H1); [|done].
    rewrite Hp in H1. apply commit_terminal_appends in H1 as (q & Hq & Ha); [|done..].
    by eapply same_state_owes; [apply (ap_accounting Ha)|].
  - apply prepared_owner in H as [Hp _]. apply terminal_pended in H0 as (k & d' & H0).
    rewrite Hp in H0. apply pend_effect in H0 as (q & _ & _ & _ & E & _); [|done]. unfold owes. by rewrite E.
  - apply drain_terminal_appends in H0 as Ha; [|done..]. by eapply same_state_owes; [apply (ap_accounting Ha)|].
  - apply ack_acknowledges in H as (p & _ & H); [|done]. by eapply same_state_owes; [apply (ak_accounting _ _ _ _ _ H)|].
  - apply ack_acknowledges in H as (p & _ & H); [|done]. by eapply same_state_owes; [apply (ak_accounting _ _ _ _ _ H)|].
  - apply marker_ack_acknowledges in H as [H _]; [|done]. by eapply same_state_owes; [apply (ak_accounting _ _ _ _ _ H)|].
  - apply drain_marker_drains in H0 as (m & rest & H0); [|done..].
    destruct (dm_accounting _ _ _ _ _ H0) as (state & Hs & Ha), Hd as [edge Hd]. rewrite Hd in Hs.
    apply marker_append_owes in Hs as [edge' ->]. exists edge'. apply (ra_state Ha).
  - apply admits_when_clear with (o := o) in H3; [|done]. destruct Hd as [edge Hd]. congruence.
  - destruct (prepared_fate_floored _ _ _ _ _ _ Ho H H0) as (p & floor & _ & Hfl & Hps).
    by eapply same_state_owes; [apply (fl_accounting _ _ _ _ Hfl)|].
  - apply finalized_floor_floored in H as [->|(r & H)]; [done| |done].
    by eapply same_state_owes; [apply (fl_accounting _ _ _ _ H)|].
  - apply settled_leave_departs in H0 as (rows & retired & H0); [|done..].
    by eapply same_state_owes; [apply (dp_accounting _ _ _ _ _ _ H0)|].
  - apply pending_leave_departs in H1 as (rows & retired & H1); [|done..].
    by eapply same_state_owes; [apply (dp_accounting _ _ _ _ _ _ H1)|].
  - destruct (reconcile_spec o Ho) as [->|(_ & _ & _ & _ & Ha)]; [done|]. by eapply same_state_owes.
  - revert H. unfold mint_fenced_attach, take_fenced_marker_record.
    destruct (fenced_marker_source _ _) as [source|]; [|done].
    destruct (fenced_attach _ _ _ _ _); [|done]. by intros [= <- _].
Qed.

(** C37: A debt is never repaid: once the closure accounting of a live owner owes a debt,
    as it does after an initial enrollment the capacity could not hold, every owner reached
    from it owes the same debt, and none of them ever admits an ordinary record. *)
Theorem debt_is_never_repaid {EF V LF} o o' debt (s : RecordAdmissionPrestate EF V LF) charge c :
  owner_run o -> owes o debt -> later_owner o o' ->
  owes o' debt /\ (prestate_of o' s -> apply_record_admission s charge <> RAD_Commit c).
Proof.
  intros Hr Hd Hl. assert (owner_run o' /\ owes o' debt) as [_ Hd'].
  { revert Hr Hd. induction Hl as [|o1 o2 o3 [ev Hs] _ IH]; intros Hr Hd; [done|].
    apply IH; [by eapply owner_run_step|]. by eapply owner_step_owes; [apply owner_run_inv| |]. }
  split; [done|]. intros Hp Ha. apply admits_when_clear with (o := o') in Ha; [|done].
  destruct Hd' as [edge Hd']. congruence.
Qed.

(** ** A conversation that starts in debt *)

Module Debt.
Import OwnerSample.Conversation Slot.Sample.

(** The capacity holds the first member and its reserves but not its record. *)
Definition owed_closure : InitialEnrollmentClosureInput :=
  mkInitialEnrollmentClosureInput
    (mkClosureAccounting Closure_Clear 0 0 0 0 ResourceVector_default (mkWRV 2 20) (mkRV 4 1000) 0 8) 2
    bound bound marker_max (unit_charge 5) 0 (epoch 1 1)
    (mkOrderLedger OH_Empty OrderClaims_default) (mkSequenceLedger 0 SequenceClaims_default 0) 1 0.
Definition owed_input : InitialEnrollmentOperationInput Z Z Z :=
  mkInitialEnrollmentOperationInput (mkEnrollmentRequest 9 (token Byte.x01)) ETP_Unmapped BS_Detached
    CCT_Untracked counter BSO_Empty
    (mkEnrollmentCapacityCounters counter counter (mkFreshParticipantCapacityCounter counter)
       (mkFreshParticipantCapacityCounter counter))
    owed_closure.
Definition owed_started : option LiveFrontierOwner :=
  match apply_initial_enrollment owed_input first_values first_slot with
  | IOD_Commit c =>
      match from_initial_enrollment c (unit_charge 5) with
      | Ok commit => Some (owner_from_initial_enrollment commit 100).2
      | Err _ => None
      end
  | _ => None
  end.
Definition owing : option DebtOwner :=
  option_map (fun f => (install_frontier (mkDebtOwner None None 0) f).1) owed_started.

(** The first member acknowledges its own record. *)
Definition owed_ack (e : NonzeroDebtCursorEpisode) : NonzeroParticipantAckDecision :=
  apply_nonzero_participant_ack_by_availability (PI_Live (member 0 0) : PresentedIdentity Z Z Z)
    (BS_Bound (bound_as 0)) (epoch 1 1) (mkParticipantAck 9 0 1 1) (AA_Contiguous 1) e.
Definition deliver (x : Z) (id : ParticipantId) (e : BindingEpoch) (after : DeliverySeq) : option (DeliverySeq * Z) :=
  Some (after + 1, x).

Lemma owed_input_ok : input_ok owed_closure.
Proof.
  unfold input_ok, accounting_ok, rv_ok, wrv_ok, u64, u128. split_and!; vm_compute; try done;
    split; discriminate.
Qed.
Lemma owing_run o : owing = Some o -> debt_run o.
Proof.
  unfold owing, owed_started. destruct (apply_initial_enrollment _ _ _) as [|c|] eqn:Ea; try done.
  destruct (from_initial_enrollment c _) as [commit|] eqn:Ef; [|done]. intros [= <-].
  eapply debt_start.
  by eapply (start_enrollment marker_max _ owed_input); [exact owed_input_ok| |exact Ea|exact Ef|].
Qed.
Lemma owed_started_run o : owed_started = Some o -> owner_run o.
Proof.
  unfold owed_started. destruct (apply_initial_enrollment _ _ _) as [|c|] eqn:Ea; try done.
  destruct (from_initial_enrollment c _) as [commit|] eqn:Ef; [|done]. intros [= <-].
  eapply owner_run_start.
  by eapply (start_enrollment marker_max _ owed_input); [exact owed_input_ok| |exact Ea|exact Ef|].
Qed.

Definition owed_transition (o : DebtOwner)
    : option (LiveFrontierOwner * NonzeroDebtCursorEpisode * NonzeroParticipantAckCommit
              * LiveFrontierCommit NonzeroParticipantAckCommit) :=
  match dow_dispatch o with
  | Some (ODS_Owed (mkCoupledOwner f e)) =>
      match owed_ack e with
      | NPD_Commit commit =>
          lc ← ok (apply_nonzero_participant_ack_frontier f commit); Some (f, e, commit, lc)
      | _ => None
      end
  | _ => None
  end.

End Debt.
Import OwnerSample.Conversation Slot.Sample Debt.


Lemma nonzero_ack_installs_witness :
  match owing with
  | Some o =>
      match owed_transition o with
      | Some (f, e, commit, lc) =>
          (install_nonzero_ack (take_frontier o).1 (lfc_owner lc) commit (Some (member 0 0))).2
          = Ok (npc_outcome commit)
      | None => False
      end
  | None => False
  end.
Proof.
  destruct owing as [o|] eqn:E; [|by vm_compute in E].
  assert (option_map (fun o => is_some (owed_transition o)) owing = Some true) as Es by (by vm_compute).
  rewrite E in Es. pose proof (owing_run o E) as Hr. clear E. unfold option_map, owed_transition in *.
  destruct (dow_dispatch o) as [[|[f e]]|] eqn:Ed; [discriminate Es| |discriminate Es].
  destruct (owed_ack e) as [| |commit] eqn:Ea; [discriminate Es..|].
  destruct (apply_nonzero_participant_ack_frontier f commit) as [lc|] eqn:Ef; [|discriminate Es]. cbn.
  rewrite (nonzero_ack_installs o f e (member 0 0) (BS_Bound (bound_as 0)) (epoch 1 1) (mkParticipantAck 9 0 1 1)
    (AA_Contiguous 1) commit lc Hr Ed Ea Ef). reflexivity.
Defined.

Lemma dispatch_decides_witness :
  match owing with
  | Some o =>
      match dow_dispatch o with
      | Some s => decide_obligation_debt_dispatch s 0 (epoch 1 1) 0 (deliver 7) = ODD_Permit 7
                  /\ forall x, decide_obligation_debt_dispatch s 0 (epoch 1 1) 1 (deliver 7) <> ODD_Permit x
      | None => False
      end
  | None => False
  end.
Proof.
  destruct owing as [o|] eqn:E; [|by vm_compute in E].
  assert (option_map (fun o => option_map (fun s => (decide_obligation_debt_dispatch s 0 (epoch 1 1) 0 (deliver 7),
    (ods_episode s, watermark (ods_frontier s)).2, is_some (ods_episode s))) (dow_dispatch o)) owing
    = Some (Some (ODD_Permit 7, 1, true))) as Es by (by vm_compute).
  rewrite E in Es. pose proof (owing_run o E) as Hr. clear E. simpl in Es.
  destruct (dow_dispatch o) as [s|] eqn:Ed; [|discriminate Es]. injection Es as E1 E2 E3. split; [exact E1|].
  intros x Hx. apply (proj2 (dispatch_decides o s Hr Ed 0 (epoch 1 1) 1 (deliver 7))) in Hx as (_ & seq & [= <- _] & _ & [Hc|Hc]).
  - destruct (debt_run_owned o Hr) as (s' & Hs & _). pose proof (ow_state _ _ Hs) as Ho. rewrite Ho in Ed.
    injection Ed as ->. pose proof (ow_coupled _ _ Hs) as Hcp. destruct s as [f|[f e]]; [discriminate E3|].
    destruct Hcp as [[edge He] _]. unfold ods_frontier in Hc. rewrite Hc in He. discriminate He.
  - rewrite E2 in Hc. lia.
Defined.

Lemma debt_is_never_repaid_witness :
  match owed_started with
  | Some o =>
      exists debt, owes o debt
      /\ forall charge c, apply_record_admission (admission 0 0 o) charge <> RAD_Commit c
  | None => False
  end.
Proof.
  destruct owed_started as [o|] eqn:E; [|by vm_compute in E].
  assert (option_map (fun o => negb (bool_decide (ca_state (lfo_closure_accounting o) = Closure_Clear))) owed_started
    = Some true) as Es by (by vm_compute).
  rewrite E in Es. pose proof (owed_started_run o E) as Hr. clear E. injection Es as Es.
  destruct (ca_state (lfo_closure_accounting o)) as [|debt edge] eqn:Ec; [discriminate Es|].
  assert (owes o debt) as Hd by (by exists edge).
  exists debt. split; [exact Hd|]. intros charge c.
  exact (proj2 (debt_is_never_repaid o o debt (admission 0 0 o) charge c Hr Hd (rtc_refl _ o))
           (conj eq_refl (conj eq_refl eq_refl))).
Defined.
