(* ===== verification/OutboxCodec.v ===== *)
(** * Rows of the delivery log

    Model of [liminal-server/src/server/participant/production/outbox_log.rs] (the rows of
    the extension stream: produced batches, cumulative acknowledgements and marker
    acknowledgements) and [outbox_log/codec.rs] with [codec/io.rs], their binary encoding.

    The decoder is a state monad over the input and an offset.  [exact] says of a decoder
    that it succeeds on exactly the encodings of its values and consumes them, so the
    theorem on whole rows is composed from one equivalence per field. *)
From coqutil Require Import Byte.
From stdpp Require Import strings.
From S2P Require Import Prelude FrameCodec Algebra Tags Wire Response Bytes.
#[local] Open Scope string_scope.
#[local] Open Scope Z_scope.
#[local] Open Scope list_scope.

(** ** outbox_log.rs *)

(** Errors of the durable store; the text of the engine's own error stands for it. *)
Inductive DurabilityError :=
| DUE_StoreError (error : string)
| DUE_SequenceConflict (expected actual : Z)
| DUE_CursorRegression (stored attempted : Z)
| DUE_DedupCollision (key : string)
| DUE_ConfigError (message : string)
| DUE_EphemeralStoreOpen (message : string)
| DUE_EphemeralStoreDetached
| DUE_EnvelopeError (message : string).
Inductive OutboxLogError :=
| OXE_Durability (error : DurabilityError)
| OXE_MissingSchemaVersion
| OXE_SchemaVersion (version : Z)
| OXE_MixedSchemaVersions (expected actual : Z)
| OXE_UnexpectedEnd (field : string)
| OXE_UnknownTag (domain : string) (value : Z)
| OXE_InvalidSelector (field : string) (value : Z)
| OXE_ZeroGeneration
| OXE_LengthOverflow (field : string) (length : Z)
| OXE_PushCodec (error : CodecError)
| OXE_TrailingBytes (remaining : Z)
| OXE_Sequence (expected actual : Z)
| OXE_AssignedSequence (expected actual : Z).

Definition OUTBOX_SCHEMA_VERSION : Z := 1.

Inductive ProducedSourceKind :=
| PSK_Enrolled | PSK_Attached | PSK_Detached | PSK_Died | PSK_MarkerDrained | PSK_RecordAdmission | PSK_Left.
Record ProjectedRecord := mkProjectedRecord {
  pjr_delivery_seq : Z;
  pjr_body : ParticipantRecord;
  pjr_recipients : list ParticipantId;
  pjr_sender : option ParticipantId;
  pjr_encoded_push_bytes : Z;
}.
Record ProducedBatch := mkProducedBatch {
  pdb_source_log_sequence : Z;
  pdb_source_kind : ProducedSourceKind;
  pdb_ordered_records : list ProjectedRecord;
}.
Record StoredMarkerAckCommitted := mkStoredMarkerAck {
  sma_request : MarkerAck;
  sma_receiving_binding_epoch : BindingEpoch;
  sma_offered_marker_delivery_seq : Z;
  sma_delivered_binding_epoch : BindingEpoch;
  sma_from_cursor : Z;
  sma_resulting_cursor : Z;
  sma_base_log_head : Z;
  sma_extension_sequence : Z;
}.
Inductive OutboxRow :=
| OXR_Produced (batch : ProducedBatch)
| OXR_AckAdvanced (source_log_sequence : Z) (participant_id : ParticipantId) (through_seq : Z)
| OXR_MarkerAckCommitted (row : StoredMarkerAckCommitted).

Definition base_log_head (row : OutboxRow) : option Z :=
  match row with
  | OXR_Produced batch => checked_add u64_max (pdb_source_log_sequence batch) 1
  | OXR_AckAdvanced source_log_sequence _ _ => checked_add u64_max source_log_sequence 1
  | OXR_MarkerAckCommitted row => Some (sma_base_log_head row)
  end.

(** ** io.rs: the encoder *)

Definition put_length (field : string) (length : Z) (encoder : list byte)
    : result (list byte) OutboxLogError :=
  if length <=? u32_max then Ok (encoder ++ be 4 length) else Err (OXE_LengthOverflow field length).

(** ** io.rs: the decoder *)

Record RowDecoder := mkRowDecoder { dec_input : list byte; dec_offset : Z }.
Definition Dec (A : Type) : Type := RowDecoder -> result (A * RowDecoder) OutboxLogError.
#[export] Instance Dec_ret : MRet Dec := fun A a d => Ok (a, d).
#[export] Instance Dec_bind : MBind Dec := fun A B k m d =>
  match m d with Ok (a, d) => k a d | Err e => Err e end.
Definition dec_fail {A} (e : OutboxLogError) : Dec A := fun _ => Err e.

Definition dec_take (field : string) (length : Z) : Dec (list byte) := fun d =>
  match checked_add usize_max (dec_offset d) length with
  | None => Err (OXE_UnexpectedEnd field)
  | Some stop =>
      if stop <=? blen (dec_input d)
      then Ok (take (Z.to_nat length) (drop (Z.to_nat (dec_offset d)) (dec_input d)),
               mkRowDecoder (dec_input d) stop)
      else Err (OXE_UnexpectedEnd field)
  end.
Definition dec_u8 (field : string) : Dec Z := bytes ← dec_take field 1; mret (from_be bytes).
Definition dec_u32 (field : string) : Dec Z := bytes ← dec_take field 4; mret (from_be bytes).
Definition dec_u64 (field : string) : Dec Z := bytes ← dec_take field 8; mret (from_be bytes).
Definition dec_length (field : string) : Dec Z := dec_u32 field.
Definition dec_finish (d : RowDecoder) : result unit OutboxLogError :=
  let remaining := saturating_sub (blen (dec_input d)) (dec_offset d) in
  if remaining =? 0 then Ok tt else Err (OXE_TrailingBytes remaining).

(** The loop [for _ in 0..count]. *)
Fixpoint dec_repeat {A} (count : nat) (m : Dec A) : Dec (list A) :=
  match count with
  | O => mret []
  | S count => a ← m; rest ← dec_repeat count m; mret (a :: rest)
  end.

(** ** codec.rs *)

Definition ROW_PRODUCED : Z := 0.
Definition ROW_ACK_ADVANCED : Z := 1.
Definition ROW_MARKER_ACK_COMMITTED : Z := 2.

Definition source_kind_tag (kind : ProducedSourceKind) : Z :=
  match kind with
  | PSK_Enrolled => 0
  | PSK_Attached => 1
  | PSK_Detached => 2
  | PSK_Died => 6
  | PSK_MarkerDrained => 3
  | PSK_RecordAdmission => 4
  | PSK_Left => 5
  end.
Definition decode_source_kind (value : Z) : Dec ProducedSourceKind :=
  if value =? 0 then mret PSK_Enrolled
  else if value =? 1 then mret PSK_Attached
  else if value =? 2 then mret PSK_Detached
  else if value =? 6 then mret PSK_Died
  else if value =? 3 then mret PSK_MarkerDrained
  else if value =? 4 then mret PSK_RecordAdmission
  else if value =? 5 then mret PSK_Left
  else dec_fail (OXE_UnknownTag "source-kind" value).

Definition decode_row_generation (value : Z) : Dec Generation :=
  match Generation_new value with
  | Some generation => mret generation
  | None => dec_fail OXE_ZeroGeneration
  end.

Definition encode_row_epoch (encoder : list byte) (epoch : BindingEpoch) : list byte :=
  encoder ++ be 8 (server_incarnation (connection_incarnation epoch))
    ++ be 8 (connection_ordinal (connection_incarnation epoch))
    ++ be 8 (capability_generation epoch).
Definition decode_row_epoch : Dec BindingEpoch :=
  server_incarnation ← dec_u64 "server_incarnation";
  connection_ordinal ← dec_u64 "connection_ordinal";
  raw ← dec_u64 "capability_generation";
  generation ← decode_row_generation raw;
  mret (mkBindingEpoch (mkConnectionIncarnation server_incarnation connection_ordinal) generation).

Definition encode_optional_epoch (encoder : list byte) (epoch : option BindingEpoch) : list byte :=
  match epoch with
  | Some value => encode_row_epoch (encoder ++ be 1 1) value
  | None => encoder ++ be 1 0
  end.
Definition decode_optional_epoch : Dec (option BindingEpoch) :=
  selector ← dec_u8 "optional binding epoch";
  if selector =? 0 then mret None
  else if selector =? 1 then epoch ← decode_row_epoch; mret (Some epoch)
  else dec_fail (OXE_InvalidSelector "optional binding epoch" selector).

Definition encode_optional_participant (encoder : list byte) (participant : option Z) : list byte :=
  match participant with
  | Some value => encoder ++ be 1 1 ++ be 8 value
  | None => encoder ++ be 1 0
  end.
Definition decode_optional_participant : Dec (option Z) :=
  selector ← dec_u8 "optional sender";
  if selector =? 0 then mret None
  else if selector =? 1 then sender ← dec_u64 "sender"; mret (Some sender)
  else dec_fail (OXE_InvalidSelector "optional sender" selector).

Definition encode_row_marker_ack (encoder : list byte) (request : MarkerAck) : list byte :=
  encoder ++ be 8 (ma_conversation_id request) ++ be 8 (ma_participant_id request)
    ++ be 8 (ma_capability_generation request) ++ be 8 (ma_marker_delivery_seq request).
Definition decode_row_marker_ack : Dec MarkerAck :=
  conversation_id ← dec_u64 "conversation_id";
  participant_id ← dec_u64 "participant_id";
  raw ← dec_u64 "capability_generation";
  capability_generation ← decode_row_generation raw;
  marker_delivery_seq ← dec_u64 "marker_delivery_seq";
  mret (mkMarkerAck conversation_id participant_id capability_generation marker_delivery_seq).

Definition encode_record_body (encoder : list byte) (body : ParticipantRecord)
    : result (list byte) OutboxLogError :=
  match body with
  | PR_OrdinaryRecord sender_participant_id payload =>
      let encoder := encoder ++ be 1 0 ++ be 8 sender_participant_id in
      let? encoder := put_length "ordinary payload" (blen payload) encoder in
      Ok (encoder ++ payload)
  | PR_Attached affected_participant_id binding_epoch =>
      Ok (encode_row_epoch (encoder ++ be 1 1 ++ be 8 affected_participant_id) binding_epoch)
  | PR_Detached affected_participant_id binding_epoch cause =>
      Ok (encode_row_epoch (encoder ++ be 1 2 ++ be 8 affected_participant_id) binding_epoch
          ++ be 1 (match cause with
                   | DTC_CleanDeregister => 0 | DTC_Superseded => 1 | DTC_ServerShutdown => 2 end))
  | PR_Died affected_participant_id binding_epoch cause =>
      let encoder := encode_row_epoch (encoder ++ be 1 3 ++ be 8 affected_participant_id) binding_epoch in
      Ok match cause with
         | DDC_ConnectionLost => encoder ++ be 1 0
         | DDC_ProcessKilled => encoder ++ be 1 1
         | DDC_ProtocolError => encoder ++ be 1 2
         | DDC_UncleanServerRestart prior_server_incarnation =>
             encoder ++ be 1 3 ++ be 8 prior_server_incarnation
         end
  | PR_Left affected_participant_id ended_binding_epoch =>
      Ok (encode_optional_epoch (encoder ++ be 1 4 ++ be 8 affected_participant_id) ended_binding_epoch)
  | PR_HistoryCompacted affected_participant_id abandoned_after abandoned_through
      physical_floor_at_decision =>
      Ok (encoder ++ be 1 5 ++ be 8 affected_participant_id ++ be 8 abandoned_after
          ++ be 8 abandoned_through ++ be 8 physical_floor_at_decision)
  end.

Definition decode_detached_record : Dec ParticipantRecord :=
  affected_participant_id ← dec_u64 "affected_participant_id";
  binding_epoch ← decode_row_epoch;
  value ← dec_u8 "detached_cause";
  cause ← (if value =? 0 then mret DTC_CleanDeregister
           else if value =? 1 then mret DTC_Superseded
           else if value =? 2 then mret DTC_ServerShutdown
           else dec_fail (OXE_UnknownTag "detached-cause" value));
  mret (PR_Detached affected_participant_id binding_epoch cause).
Definition decode_died_record : Dec ParticipantRecord :=
  affected_participant_id ← dec_u64 "affected_participant_id";
  binding_epoch ← decode_row_epoch;
  value ← dec_u8 "died_cause";
  cause ← (if value =? 0 then mret DDC_ConnectionLost
           else if value =? 1 then mret DDC_ProcessKilled
           else if value =? 2 then mret DDC_ProtocolError
           else if value =? 3
           then prior_server_incarnation ← dec_u64 "prior_server_incarnation";
                mret (DDC_UncleanServerRestart prior_server_incarnation)
           else dec_fail (OXE_UnknownTag "died-cause" value));
  mret (PR_Died affected_participant_id binding_epoch cause).

Definition decode_record_body : Dec ParticipantRecord :=
  value ← dec_u8 "record_kind";
  if value =? 0 then
    sender_participant_id ← dec_u64 "sender_participant_id";
    payload_length ← dec_length "ordinary payload";
    payload ← dec_take "ordinary payload" payload_length;
    mret (PR_OrdinaryRecord sender_participant_id payload)
  else if value =? 1 then
    affected_participant_id ← dec_u64 "affected_participant_id";
    binding_epoch ← decode_row_epoch;
    mret (PR_Attached affected_participant_id binding_epoch)
  else if value =? 2 then decode_detached_record
  else if value =? 3 then decode_died_record
  else if value =? 4 then
    affected_participant_id ← dec_u64 "affected_participant_id";
    ended_binding_epoch ← decode_optional_epoch;
    mret (PR_Left affected_participant_id ended_binding_epoch)
  else if value =? 5 then
    affected_participant_id ← dec_u64 "affected_participant_id";
    abandoned_after ← dec_u64 "abandoned_after";
    abandoned_through ← dec_u64 "abandoned_through";
    physical_floor_at_decision ← dec_u64 "physical_floor_at_decision";
    mret (PR_HistoryCompacted affected_participant_id abandoned_after abandoned_through
            physical_floor_at_decision)
  else dec_fail (OXE_UnknownTag "record-kind" value).

Definition encode_projected_record (encoder : list byte) (record : ProjectedRecord)
    : result (list byte) OutboxLogError :=
  let? encoder := encode_record_body (encoder ++ be 8 (pjr_delivery_seq record)) (pjr_body record) in
  let? encoder := put_length "recipients" (Z.of_nat (length (pjr_recipients record))) encoder in
  let encoder := foldl (fun encoder recipient => encoder ++ be 8 recipient) encoder
                   (pjr_recipients record) in
  let encoder := encode_optional_participant encoder (pjr_sender record) in
  Ok (encoder ++ be 8 (pjr_encoded_push_bytes record)).
Definition decode_projected_record : Dec ProjectedRecord :=
  delivery_seq ← dec_u64 "delivery_seq";
  body ← decode_record_body;
  recipient_count ← dec_length "recipients";
  recipients ← dec_repeat (Z.to_nat recipient_count) (dec_u64 "recipient");
  sender ← decode_optional_participant;
  encoded_push_bytes ← dec_u64 "encoded_push_bytes";
  mret (mkProjectedRecord delivery_seq body recipients sender encoded_push_bytes).

(** The loop over the records of a batch. *)
Fixpoint encode_projected_records (encoder : list byte) (records : list ProjectedRecord)
    : result (list byte) OutboxLogError :=
  match records with
  | [] => Ok encoder
  | record :: records =>
      let? encoder := encode_projected_record encoder record in
      encode_projected_records encoder records
  end.

Definition encode_row (row : OutboxRow) : result (list byte) OutboxLogError :=
  let encoder := be 1 OUTBOX_SCHEMA_VERSION in
  match row with
  | OXR_Produced batch =>
      let encoder := encoder ++ be 1 ROW_PRODUCED ++ be 8 (pdb_source_log_sequence batch)
                     ++ be 1 (source_kind_tag (pdb_source_kind batch)) in
      let? encoder := put_length "ordered_records" (Z.of_nat (length (pdb_ordered_records batch)))
                        encoder in
      encode_projected_records encoder (pdb_ordered_records batch)
  | OXR_AckAdvanced source_log_sequence participant_id through_seq =>
      Ok (encoder ++ be 1 ROW_ACK_ADVANCED ++ be 8 source_log_sequence ++ be 8 participant_id
          ++ be 8 through_seq)
  | OXR_MarkerAckCommitted row =>
      let encoder := encoder ++ be 1 ROW_MARKER_ACK_COMMITTED in
      let encoder := encode_row_marker_ack encoder (sma_request row) in
      let encoder := encode_row_epoch encoder (sma_receiving_binding_epoch row) in
      let encoder := encoder ++ be 8 (sma_offered_marker_delivery_seq row) in
      let encoder := encode_row_epoch encoder (sma_delivered_binding_epoch row) in
      Ok (encoder ++ be 8 (sma_from_cursor row) ++ be 8 (sma_resulting_cursor row)
          ++ be 8 (sma_base_log_head row) ++ be 8 (sma_extension_sequence row))
  end.

Definition decode_row_kind (value : Z) : Dec OutboxRow :=
  if value =? ROW_PRODUCED then
    source_log_sequence ← dec_u64 "source_log_sequence";
    raw ← dec_u8 "source_kind";
    source_kind ← decode_source_kind raw;
    record_count ← dec_length "ordered_records";
    ordered_records ← dec_repeat (Z.to_nat record_count) decode_projected_record;
    mret (OXR_Produced (mkProducedBatch source_log_sequence source_kind ordered_records))
  else if value =? ROW_ACK_ADVANCED then
    source_log_sequence ← dec_u64 "source_log_sequence";
    participant_id ← dec_u64 "participant_id";
    through_seq ← dec_u64 "through_seq";
    mret (OXR_AckAdvanced source_log_sequence participant_id through_seq)
  else if value =? ROW_MARKER_ACK_COMMITTED then
    request ← decode_row_marker_ack;
    receiving_binding_epoch ← decode_row_epoch;
    offered_marker_delivery_seq ← dec_u64 "offered_marker_delivery_seq";
    delivered_binding_epoch ← decode_row_epoch;
    from_cursor ← dec_u64 "from_cursor";
    resulting_cursor ← dec_u64 "resulting_cursor";
    base_log_head ← dec_u64 "base_log_head";
    extension_sequence ← dec_u64 "extension_sequence";
    mret (OXR_MarkerAckCommitted (mkStoredMarkerAck request receiving_binding_epoch
            offered_marker_delivery_seq delivered_binding_epoch from_cursor resulting_cursor
            base_log_head extension_sequence))
  else dec_fail (OXE_UnknownTag "row-kind" value).

Definition decode_row (payload : list byte) : result OutboxRow OutboxLogError :=
  match payload with
  | [] => Err OXE_MissingSchemaVersion
  | first :: _ =>
      let version := from_be [first] in
      if negb (version =? OUTBOX_SCHEMA_VERSION) then Err (OXE_SchemaVersion version)
      else
        let? decoded := dec_u8 "schema_version" (mkRowDecoder payload 0) in
        let '(decoded_version, decoder) := decoded in
        if negb (decoded_version =? version) then Err (OXE_SchemaVersion decoded_version)
        else
          let? decoded := (value ← dec_u8 "row_kind"; decode_row_kind value) decoder in
          let '(row, decoder) := decoded in
          let? _ := dec_finish decoder in
          Ok row
  end.

Definition canonical_push_bytes (conversation_id delivery_seq : Z) (body : ParticipantRecord)
    : result Z OutboxLogError :=
  let frame := PF_ServerPush (SP_ParticipantDelivery
                 (mkParticipantDelivery conversation_id delivery_seq body)) in
  let? bytes := map_err OXE_PushCodec (encoded_len frame) in
  if bytes <=? u64_max then Ok bytes
  else Err (OXE_LengthOverflow "encoded participant push" bytes).

Definition ProjectedRecord_try_new (conversation_id delivery_seq : Z) (body : ParticipantRecord)
    (recipients : list ParticipantId) (sender : option ParticipantId)
    : result ProjectedRecord OutboxLogError :=
  let? encoded_push_bytes := canonical_push_bytes conversation_id delivery_seq body in
  Ok (mkProjectedRecord delivery_seq body recipients sender encoded_push_bytes).
Definition into_delivery (record : ProjectedRecord) (conversation_id : Z) : ParticipantDelivery :=
  mkParticipantDelivery conversation_id (pjr_delivery_seq record) (pjr_body record).

(** ** What the bytes are *)

Definition enc_body (body : ParticipantRecord) : list byte :=
  match body with
  | PR_OrdinaryRecord s payload => be 1 0 ++ be 8 s ++ be 4 (blen payload) ++ payload
  | PR_Attached p b => be 1 1 ++ be 8 p ++ enc_epoch b
  | PR_Detached p b c =>
      be 1 2 ++ be 8 p ++ enc_epoch b
      ++ be 1 (match c with DTC_CleanDeregister => 0 | DTC_Superseded => 1 | DTC_ServerShutdown => 2 end)
  | PR_Died p b c =>
      be 1 3 ++ be 8 p ++ enc_epoch b
      ++ match c with
         | DDC_ConnectionLost => be 1 0 | DDC_ProcessKilled => be 1 1 | DDC_ProtocolError => be 1 2
         | DDC_UncleanServerRestart i => be 1 3 ++ be 8 i
         end
  | PR_Left p b => be 1 4 ++ be 8 p ++ enc_option enc_epoch b
  | PR_HistoryCompacted p a t f => be 1 5 ++ be 8 p ++ be 8 a ++ be 8 t ++ be 8 f
  end.
Definition enc_list {A} (enc : A -> list byte) (l : list A) : list byte :=
  be 4 (Z.of_nat (length l)) ++ concat (map enc l).
Definition enc_projected (r : ProjectedRecord) : list byte :=
  be 8 (pjr_delivery_seq r) ++ enc_body (pjr_body r) ++ enc_list (be 8) (pjr_recipients r)
  ++ enc_option (be 8) (pjr_sender r) ++ be 8 (pjr_encoded_push_bytes r).
Definition enc_row_kind (row : OutboxRow) : list byte :=
  match row with
  | OXR_Produced b =>
      be 1 ROW_PRODUCED ++ be 8 (pdb_source_log_sequence b) ++ be 1 (source_kind_tag (pdb_source_kind b))
      ++ enc_list enc_projected (pdb_ordered_records b)
  | OXR_AckAdvanced s p t => be 1 ROW_ACK_ADVANCED ++ be 8 s ++ be 8 p ++ be 8 t
  | OXR_MarkerAckCommitted m =>
      be 1 ROW_MARKER_ACK_COMMITTED
      ++ (be 8 (ma_conversation_id (sma_request m)) ++ be 8 (ma_participant_id (sma_request m))
          ++ be 8 (ma_capability_generation (sma_request m)) ++ be 8 (ma_marker_delivery_seq (sma_request m)))
      ++ enc_epoch (sma_receiving_binding_epoch m) ++ be 8 (sma_offered_marker_delivery_seq m)
      ++ enc_epoch (sma_delivered_binding_epoch m) ++ be 8 (sma_from_cursor m)
      ++ be 8 (sma_resulting_cursor m) ++ be 8 (sma_base_log_head m) ++ be 8 (sma_extension_sequence m)
  end.
Definition enc_row (row : OutboxRow) : list byte := be 1 OUTBOX_SCHEMA_VERSION ++ enc_row_kind row.

(** The ranges of the fields, and the lengths the frame can carry. *)
Definition wf_body (body : ParticipantRecord) : Prop :=
  wf_record body /\ match body with PR_OrdinaryRecord _ payload => blen payload <= u32_max | _ => True end.
Definition wf_projected (r : ProjectedRecord) : Prop :=
  u64 (pjr_delivery_seq r) /\ wf_body (pjr_body r)
  /\ Z.of_nat (length (pjr_recipients r)) <= u32_max /\ Forall u64 (pjr_recipients r)
  /\ wf_opt u64 (pjr_sender r) /\ u64 (pjr_encoded_push_bytes r).
Definition wf_row (row : OutboxRow) : Prop :=
  match row with
  | OXR_Produced b =>
      u64 (pdb_source_log_sequence b)
      /\ Z.of_nat (length (pdb_ordered_records b)) <= u32_max /\ Forall wf_projected (pdb_ordered_records b)
  | OXR_AckAdvanced s p t => u64 s /\ u64 p /\ u64 t
  | OXR_MarkerAckCommitted m =>
      (u64 (ma_conversation_id (sma_request m)) /\ u64 (ma_participant_id (sma_request m))
       /\ wf_generation (ma_capability_generation (sma_request m)) /\ u64 (ma_marker_delivery_seq (sma_request m)))
      /\ wf_epoch (sma_receiving_binding_epoch m) /\ u64 (sma_offered_marker_delivery_seq m)
      /\ wf_epoch (sma_delivered_binding_epoch m) /\ u64 (sma_from_cursor m) /\ u64 (sma_resulting_cursor m)
      /\ u64 (sma_base_log_head m) /\ u64 (sma_extension_sequence m)
  end.

(** ** The encoder *)

Lemma row_epoch_spec encoder e : encode_row_epoch encoder e = encoder ++ enc_epoch e.
Proof. unfold encode_row_epoch, enc_epoch, enc_incarnation. by rewrite <- !app_assoc. Qed.
Lemma optional_epoch_spec encoder e : encode_optional_epoch encoder e = encoder ++ enc_option enc_epoch e.
Proof. destruct e; simpl; rewrite ?row_epoch_spec, <- ?app_assoc; done. Qed.
Lemma optional_participant_spec encoder p :
  encode_optional_participant encoder p = encoder ++ enc_option (be 8) p.
Proof. destruct p; simpl; rewrite <- ?app_assoc; done. Qed.

(** Encoding either fails for a length or appends exactly the encoding. *)
Definition appends (r : result (list byte) OutboxLogError) (encoder bs : list byte) (fits : Prop) : Prop :=
  (fits -> r = Ok (encoder ++ bs)) /\ forall out, r = Ok out -> fits /\ out = encoder ++ bs.
Lemma appends_Ok encoder bs : appends (Ok (encoder ++ bs)) encoder bs True.
Proof. split; [done|]. by intros ? [= <-]. Qed.
Lemma appends_length field n encoder : appends (put_length field n encoder) encoder (be 4 n) (n <= u32_max).
Proof. unfold put_length. destruct (Z.leb_spec n u32_max); split; try done; [by intros ? [= <-]|lia]. Qed.
Lemma appends_bind r k encoder bs1 bs2 fits1 fits2 : appends r encoder bs1 fits1 ->
  (forall e, appends (k e) e bs2 fits2) ->
  appends (let? e := r in k e) encoder (bs1 ++ bs2) (fits1 /\ fits2).
Proof.
  intros [H1 H2] Hk. split.
  - intros [F1 F2]. rewrite (H1 F1). destruct (Hk (encoder ++ bs1)) as [-> _]; [by rewrite app_assoc|done].
  - intros out. destruct r as [e|]; [|done]. intros Ho. destruct (H2 e eq_refl) as [F1 ->].
    destruct (Hk (encoder ++ bs1)) as [_ H3]. destruct (H3 out Ho) as [F2 ->]. by rewrite app_assoc.
Qed.
Lemma appends_iff r encoder bs bs' fits fits' : bs = bs' -> (fits <-> fits') ->
  appends r encoder bs fits -> appends r encoder bs' fits'.
Proof. intros <- Hf [H1 H2]. split; [tauto|]. intros out H. by apply H2 in H as [? ?]; split; [tauto|]. Qed.

Definition fits_body (body : ParticipantRecord) : Prop :=
  match body with PR_OrdinaryRecord _ payload => blen payload <= u32_max | _ => True end.
Definition fits_record (r : ProjectedRecord) : Prop :=
  fits_body (pjr_body r) /\ Z.of_nat (length (pjr_recipients r)) <= u32_max.
Definition fits_row (row : OutboxRow) : Prop :=
  match row with
  | OXR_Produced b => Z.of_nat (length (pdb_ordered_records b)) <= u32_max
                      /\ Forall fits_record (pdb_ordered_records b)
  | _ => True
  end.

Lemma body_appends encoder body :
  appends (encode_record_body encoder body) encoder (enc_body body) (fits_body body).
Proof.
  destruct body as [s payload|p b|p b c|p b c|p b|p a t f]; simpl; rewrite ?row_epoch_spec, ?optional_epoch_spec.
  - eapply appends_iff; [| |eapply (appends_bind _ _ _ _ payload _ True)].
    3:{ eapply appends_iff with (bs := be 1 0 ++ be 8 s ++ be 4 (blen payload)); [done|reflexivity|].
        destruct (appends_length "ordinary payload" (blen payload) (encoder ++ be 1 0 ++ be 8 s)) as [H1 H2].
        split; [intros F; rewrite (H1 F); by rewrite <- !app_assoc|].
        intros out Ho. destruct (H2 out Ho) as [F ->]. by rewrite <- !app_assoc. }
    3:{ intros e. apply appends_Ok. }
    + by rewrite <- !app_assoc.
    + tauto.
  - eapply appends_iff; [done..|]. rewrite <- !app_assoc. apply appends_Ok.
  - rewrite <- !app_assoc. apply appends_Ok.
  - destruct c; rewrite <- !app_assoc; apply appends_Ok.
  - rewrite <- !app_assoc. apply appends_Ok.
  - apply appends_Ok.
Qed.
Lemma recipients_fold l : forall encoder,
  foldl (fun encoder recipient => encoder ++ be 8 recipient) encoder l = encoder ++ concat (map (be 8) l).
Proof.
  induction l as [|x l IH]; intros encoder; simpl; [by rewrite app_nil_r|]. rewrite IH. by rewrite app_assoc.
Qed.
Lemma record_appends encoder r :
  appends (encode_projected_record encoder r) encoder (enc_projected r) (fits_record r).
Proof.
  unfold encode_projected_record, enc_projected, enc_list, fits_record.
  eapply appends_iff with (bs := (be 8 (pjr_delivery_seq r) ++ enc_body (pjr_body r))
    ++ (be 4 (Z.of_nat (length (pjr_recipients r))) ++ (concat (map (be 8) (pjr_recipients r))
    ++ enc_option (be 8) (pjr_sender r) ++ be 8 (pjr_encoded_push_bytes r)))); [by rewrite <- !app_assoc| |].
  2:{ eapply appends_bind.
      - eapply appends_iff; [reflexivity|reflexivity|].
        destruct (body_appends (encoder ++ be 8 (pjr_delivery_seq r)) (pjr_body r)) as [H1 H2].
        split; [intros F; rewrite (H1 F); by rewrite <- app_assoc|].
        intros out Ho. destruct (H2 out Ho) as [F ->]. by rewrite <- app_assoc.
      - intros e. eapply appends_bind; [apply appends_length|]. intros e'.
        rewrite recipients_fold, optional_participant_spec. rewrite <- !app_assoc. apply appends_Ok. }
  tauto.
Qed.
Lemma records_append l : forall encoder,
  appends (encode_projected_records encoder l) encoder (concat (map enc_projected l)) (Forall fits_record l).
Proof.
  induction l as [|r l IH]; intros encoder; simpl.
  - rewrite <- (app_nil_r encoder) at 1. eapply appends_iff; [reflexivity| |apply appends_Ok]. split; [constructor|done].
  - eapply appends_iff; [reflexivity| |eapply appends_bind; [apply record_appends|apply IH]].
    by rewrite Forall_cons.
Qed.
Lemma encode_row_spec row : appends (encode_row row) [] (enc_row row) (fits_row row).
Proof.
  unfold encode_row, enc_row, enc_row_kind, fits_row. destruct row as [b|s p t|m].
  - unfold enc_list. destruct (appends_bind
      (put_length "ordered_records" (Z.of_nat (length (pdb_ordered_records b)))
         (be 1 OUTBOX_SCHEMA_VERSION ++ be 1 ROW_PRODUCED ++ be 8 (pdb_source_log_sequence b)
          ++ be 1 (source_kind_tag (pdb_source_kind b))))
      (fun e => encode_projected_records e (pdb_ordered_records b)) _ _ _ _ _
      (appends_length _ _ _) (records_append (pdb_ordered_records b))) as [H1 H2].
    split; [intros F; rewrite (H1 F)|intros out Ho; destruct (H2 out Ho) as [F ->]; split; [done|]];
      by rewrite <- ?app_assoc.
  - apply (appends_Ok []).
  - unfold encode_row_marker_ack. rewrite !row_epoch_spec, <- !app_assoc. apply (appends_Ok []).
Qed.

(** ** The decoder *)

Definition dec_at (pre rest : list byte) : RowDecoder := mkRowDecoder (pre ++ rest) (blen pre).
(** The decoder accepts exactly the strings [R] relates to a value, and consumes them. *)
Definition exact {A} (m : Dec A) (R : A -> list byte -> Prop) : Prop :=
  forall pre rest a d', blen (pre ++ rest) <= usize_max ->
  m (dec_at pre rest) = Ok (a, d')
  <-> exists bs tail, rest = bs ++ tail /\ R a bs /\ d' = dec_at (pre ++ bs) tail.

Lemma exact_iff {A} (m : Dec A) R R' : (forall a bs, R a bs <-> R' a bs) -> exact m R -> exact m R'.
Proof.
  intros HR Hm pre rest a d' Hl. rewrite (Hm pre rest a d' Hl). split; intros (bs & tail & H1 & H2 & H3);
    exists bs, tail; split_and!; try done; by apply HR.
Qed.
Lemma exact_ret {A} (a : A) : exact (mret a) (fun x bs => x = a /\ bs = []).
Proof.
  intros pre rest x d' _. split.
  - intros [= -> <-]. exists [], rest. by rewrite app_nil_r.
  - intros (bs & tail & -> & [-> ->] & ->). simpl. by rewrite app_nil_r.
Qed.
Lemma exact_fail {A} e : exact (dec_fail e : Dec A) (fun _ _ => False).
Proof. intros pre rest x d' _. split; [done|]. by intros (bs & tail & _ & [] & _). Qed.
Lemma exact_bind_when {A B} (m : Dec A) (k : A -> Dec B) R S : exact m R ->
  (forall a bs, R a bs -> exact (k a) (S a)) ->
  exact (a ← m; k a) (fun b bs => exists a bs1 bs2, bs = bs1 ++ bs2 /\ R a bs1 /\ S a b bs2).
Proof.
  intros Hm Hk pre rest b d' Hl. unfold mbind, Dec_bind. split.
  - destruct (m (dec_at pre rest)) as [[a d]|] eqn:E; [|done].
    apply (Hm pre rest a d Hl) in E as (bs1 & tail & -> & HR & ->). intros H.
    apply (Hk a bs1 HR) in H as (bs2 & tail2 & -> & HS & ->); [|by rewrite <- app_assoc].
    exists (bs1 ++ bs2), tail2. rewrite <- !app_assoc. split_and!; try done. by exists a, bs1, bs2.
  - intros (bs & tail & -> & (a & bs1 & bs2 & -> & HR & HS) & ->).
    rewrite (proj2 (Hm pre ((bs1 ++ bs2) ++ tail) a (dec_at (pre ++ bs1) (bs2 ++ tail)) Hl)).
    2:{ exists bs1, (bs2 ++ tail). by rewrite <- app_assoc. }
    apply (Hk a bs1 HR); [by rewrite <- !app_assoc in *|]. exists bs2, tail. by rewrite <- app_assoc.
Qed.
Lemma exact_bind {A B} (m : Dec A) (k : A -> Dec B) R S : exact m R -> (forall a, exact (k a) (S a)) ->
  exact (a ← m; k a) (fun b bs => exists a bs1 bs2, bs = bs1 ++ bs2 /\ R a bs1 /\ S a b bs2).
Proof. intros Hm Hk. by apply exact_bind_when. Qed.

Lemma exact_take field n : 0 <= n -> exact (dec_take field n) (fun bs bs' => bs' = bs /\ blen bs = n).
Proof.
  intros Hn pre rest bs d' Hl. unfold dec_take, dec_at, checked_add. simpl.
  pose proof (blen_nonneg pre). pose proof (blen_nonneg rest). rewrite blen_app in *. split.
  - destruct (Z.leb_spec (blen pre + n) usize_max); [|done]. destruct (Z.leb_spec (blen pre + n) (blen pre + blen rest)); [|done].
    intros [= <- <-]. unfold blen in *.
    rewrite Nat2Z.id, drop_app_length.
    exists (take (Z.to_nat n) rest), (drop (Z.to_nat n) rest). rewrite take_drop. split_and!; try done.
    + rewrite length_take. lia.
    + rewrite <- app_assoc, take_drop. f_equal. rewrite length_app, length_take. lia.
  - intros (bs' & tail & -> & [-> Hb] & ->). rewrite blen_app in *. pose proof (blen_nonneg tail).
    rewrite (proj2 (Z.leb_le _ _)) by lia. rewrite (proj2 (Z.leb_le _ _)) by lia. f_equal. f_equal.
    + unfold blen in *. rewrite Nat2Z.id, drop_app_length, <- Hb, Nat2Z.id. apply take_app_length.
    + rewrite <- app_assoc. f_equal. rewrite blen_app. lia.
Qed.
Lemma exact_be field n : 0 < Z.of_nat n ->
  exact (bytes ← dec_take field (Z.of_nat n); mret (from_be bytes))
    (fun z bs => bs = be n z /\ 0 <= z < 2 ^ (8 * Z.of_nat n)).
Proof.
  intros Hn. eapply exact_iff; [|eapply exact_bind; [apply exact_take; lia|intros a; apply exact_ret]].
  intros z bs. split.
  - intros (a & bs1 & bs2 & -> & [-> Hb] & -> & ->). rewrite app_nil_r. unfold blen in Hb. split.
    + symmetry. replace n with (length a) by lia. apply be_from_be.
    + pose proof (from_be_range a) as H. unfold blen in H. by rewrite Hb in H.
  - intros [-> Hz]. exists (be n z), (be n z), []. rewrite app_nil_r. split_and!; try done.
    + unfold blen. by rewrite length_be.
    + rewrite from_be_be; [done|]. by rewrite Z.mul_comm.
Qed.
Lemma exact_u8 field : exact (dec_u8 field) (fun z bs => bs = be 1 z /\ u8 z).
Proof.
  eapply exact_iff; [|apply (exact_be field 1); lia]. intros z bs. unfold u8, u8_max.
  change (2 ^ (8 * Z.of_nat 1)) with 256. intuition lia.
Qed.
Lemma exact_u32 field : exact (dec_length field) (fun z bs => bs = be 4 z /\ u32 z).
Proof.
  eapply exact_iff; [|apply (exact_be field 4); lia]. intros z bs. unfold u32, u32_max.
  change (2 ^ (8 * Z.of_nat 4)) with 4294967296. intuition lia.
Qed.
Lemma exact_u64 field : exact (dec_u64 field) (fun z bs => bs = be 8 z /\ u64 z).
Proof.
  eapply exact_iff; [|apply (exact_be field 8); lia]. intros z bs. unfold u64, u64_max.
  change (2 ^ (8 * Z.of_nat 8)) with 18446744073709551616. intuition lia.
Qed.
Lemma exact_repeat {A} (m : Dec A) enc wf n : exact m (fun a bs => bs = enc a /\ wf a) ->
  exact (dec_repeat n m) (fun l bs => bs = concat (map enc l) /\ Forall wf l /\ length l = n).
Proof.
  intros Hm. induction n as [|n IH]; simpl.
  - eapply exact_iff; [|apply exact_ret]. intros l bs. split; [intros [-> ->]; by repeat constructor|].
    intros (-> & _ & Hl). by destruct l.
  - eapply exact_iff; [|eapply exact_bind; [exact Hm|intros a; eapply exact_bind; [exact IH|intros rest; apply exact_ret]]].
    intros l bs. split.
    + intros (a & b1 & b2 & -> & [-> Hw] & rest & b3 & b4 & -> & (-> & Hf & Hl) & -> & ->).
      rewrite app_nil_r. split_and!; [done|by constructor|simpl; lia].
    + intros (-> & Hf & Hl). destruct l as [|a l]; [done|]. apply Forall_cons in Hf as [Hw Hf].
      exists a, (enc a), (concat (map enc l)). split_and!; try done. exists l, (concat (map enc l)), [].
      rewrite app_nil_r. split_and!; try done. simpl in Hl. lia.
Qed.

(** One field after another. *)
Lemma exact_field {A B} (m : Dec A) (k : A -> Dec B) enc wf S : exact m (fun a bs => bs = enc a /\ wf a) ->
  (forall a, exact (k a) (S a)) ->
  exact (a ← m; k a) (fun b bs => exists a bs2, bs = enc a ++ bs2 /\ wf a /\ S a b bs2).
Proof.
  intros Hm Hk. eapply exact_iff; [|by eapply exact_bind]. intros b bs. split.
  - intros (a & bs1 & bs2 & -> & [-> Hw] & HS). by exists a, bs2.
  - intros (a & bs2 & -> & Hw & HS). by exists a, (enc a), bs2.
Qed.

(** A generation is refused when it is zero. *)
Lemma exact_generation {B} field (k : Generation -> Dec B) S : (forall g, exact (k g) (S g)) ->
  exact (raw ← dec_u64 field; generation ← decode_row_generation raw; k generation)
    (fun b bs => exists g bs2, bs = be 8 g ++ bs2 /\ wf_generation g /\ S g b bs2).
Proof.
  intros Hk. eapply exact_iff; [|eapply exact_field; [apply exact_u64|]; intros raw].
  2:{ unfold decode_row_generation, Generation_new. instantiate (1 := fun raw b bs => raw <> 0 /\ S raw b bs).
      destruct (Z.eqb_spec raw 0) as [->|Hne]; [eapply exact_iff; [|apply exact_fail]; intuition|].
      eapply exact_iff; [|apply (Hk raw)]. intuition. }
  intros b bs. unfold wf_generation, u64. split; intros (g & bs2 & -> & Hg & HS); exists g, bs2; split_and!; try done; try lia; by destruct HS.
Qed.

(** Reads off a chain of fields, and supplies one. *)
Ltac fields :=
  repeat match goal with
         | H : exists _, _ |- _ => destruct H
         | H : _ /\ _ |- _ => destruct H
         end; subst.
Ltac chain := intros ?; fields; cbn; rewrite ?app_nil_r, <- ?app_assoc; split_and!; done.
Ltac supply := repeat (eexists _, _; split; [reflexivity|split; [done|]]).

Lemma exact_epoch : exact decode_row_epoch (fun e bs => bs = enc_epoch e /\ wf_epoch e).
Proof.
  eapply exact_iff; [|eapply exact_field; [apply exact_u64|intros s; eapply exact_field; [apply exact_u64|intros o;
    apply exact_generation; intros g; apply exact_ret]]].
  intros e bs. unfold enc_epoch, enc_incarnation, wf_epoch, wf_incarnation. split; [chain|].
  intros [-> [[? ?] ?]]. destruct e as [[s o] g]. simpl in *.
  rewrite <- (app_nil_r (be 8 g)), <- app_assoc. supply. done.
Qed.

Lemma exact_option {A} field field' (m : Dec A) (enc : A -> list byte) wf :
  exact m (fun a bs => bs = enc a /\ wf a) ->
  exact (selector ← dec_u8 field;
         if selector =? 0 then mret None
         else if selector =? 1 then a ← m; mret (Some a)
         else dec_fail (OXE_InvalidSelector field' selector))
    (fun o bs => bs = enc_option enc o /\ wf_opt wf o).
Proof.
  intros Hm. eapply exact_iff; [|eapply exact_field; [apply exact_u8|]; intros sel].
  2:{ instantiate (1 := fun sel o bs => (sel = 0 /\ o = None /\ bs = [])
        \/ (sel = 1 /\ exists a, o = Some a /\ bs = enc a /\ wf a)).
      destruct (Z.eqb_spec sel 0) as [->|H0]; [eapply exact_iff; [|apply exact_ret]; intuition lia|].
      destruct (Z.eqb_spec sel 1) as [->|H1]; [|eapply exact_iff; [|apply exact_fail]; intuition lia].
      eapply exact_iff; [|eapply exact_field; [exact Hm|intros a; apply exact_ret]]. intros o bs. split.
      - intros ?. fields. rewrite app_nil_r. right. split; [done|]. by eexists.
      - intros [[? _]|[_ (a & -> & -> & ?)]]; [lia|]. rewrite <- (app_nil_r (enc a)). supply. done. }
  intros o bs. split.
  - intros (sel & bs2 & -> & _ & [(-> & -> & ->)|(-> & a & -> & -> & Hw)]); simpl; [by rewrite app_nil_r|done].
  - intros [-> Hw]. destruct o as [a|]; simpl in *.
    + exists 1, (enc a). split_and!; try done. right. split; [done|]. by exists a.
    + exists 0, []. rewrite app_nil_r. split_and!; try done. by left.
Qed.

(** The last field, and the tag in front of a choice. *)
Lemma exact_last {A B} (m : Dec A) (f : A -> B) enc wf : exact m (fun a bs => bs = enc a /\ wf a) ->
  exact (a ← m; mret (f a)) (fun b bs => exists a, bs = enc a /\ wf a /\ b = f a).
Proof.
  intros Hm. eapply exact_iff; [|eapply exact_field; [exact Hm|intros a; apply exact_ret]]. intros b bs. split.
  - intros (a & bs2 & -> & Hw & -> & ->). exists a. by rewrite app_nil_r.
  - intros (a & -> & Hw & ->). exists a, []. by rewrite app_nil_r.
Qed.
Lemma exact_tag {A} field (k : Z -> Dec A) (tag : A -> Z) (enc : A -> list byte) (wf : A -> Prop) :
  (forall a, u8 (tag a)) ->
  (forall t, exact (k t) (fun a bs => tag a = t /\ bs = enc a /\ wf a)) ->
  exact (t ← dec_u8 field; k t) (fun a bs => bs = be 1 (tag a) ++ enc a /\ wf a).
Proof.
  intros Ht Hk. eapply exact_iff; [|eapply exact_field; [apply exact_u8|exact Hk]]. intros a bs. split.
  - intros (t & bs2 & -> & _ & <- & -> & Hw). done.
  - intros [-> Hw]. exists (tag a), (enc a). split_and!; try done; apply Ht.
Qed.
Lemma exact_refused {A} e (P : A -> list byte -> Prop) : (forall a bs, ~ P a bs) -> exact (dec_fail e : Dec A) P.
Proof. intros HP. eapply exact_iff; [|apply exact_fail]. intros a bs. split; [done|apply HP]. Qed.

Ltac chosen := match goal with |- context [Z.eqb ?t ?n] => destruct (Z.eqb_spec t n) as [->|] end.
Ltac read_back := intros ? ?; split; [intros ?; fields; cbn; rewrite <- ?app_assoc; by split_and!|].

Definition detached_cause_tag (c : DetachedCause) : Z :=
  match c with DTC_CleanDeregister => 0 | DTC_Superseded => 1 | DTC_ServerShutdown => 2 end.
Definition died_cause_tag (c : DiedCause) : Z :=
  match c with
  | DDC_ConnectionLost => 0 | DDC_ProcessKilled => 1 | DDC_ProtocolError => 2 | DDC_UncleanServerRestart _ => 3
  end.
Lemma exact_assoc {A B C} (m : Dec A) (f : A -> Dec B) (k : B -> Dec C) R :
  exact (b ← (a ← m; f a); k b) R -> exact (a ← m; b ← f a; k b) R.
Proof.
  intros H pre rest c d' Hl. rewrite <- (H pre rest c d' Hl). unfold mbind, Dec_bind.
  by destruct (m _) as [[a d]|].
Qed.

Lemma exact_detached_cause :
  exact (value ← dec_u8 "detached_cause";
         if value =? 0 then mret DTC_CleanDeregister
         else if value =? 1 then mret DTC_Superseded
         else if value =? 2 then mret DTC_ServerShutdown
         else dec_fail (OXE_UnknownTag "detached-cause" value))
    (fun c bs => bs = be 1 (detached_cause_tag c) /\ True).
Proof.
  eapply exact_iff; [|apply (exact_tag _ _ detached_cause_tag (fun _ => []) (fun _ => True))].
  - intros c bs. cbv beta. by rewrite app_nil_r.
  - intros []; unfold u8, u8_max; simpl; lia.
  - intros t. repeat chosen; (eapply exact_iff; [|apply exact_ret]) || apply exact_refused.
    1-3: by intros [] bs; split; intros ?; fields.
    intros [] bs (Ht & _); simpl in Ht; lia.
Qed.
Lemma exact_died_cause :
  exact (value ← dec_u8 "died_cause";
         if value =? 0 then mret DDC_ConnectionLost
         else if value =? 1 then mret DDC_ProcessKilled
         else if value =? 2 then mret DDC_ProtocolError
         else if value =? 3
         then prior_server_incarnation ← dec_u64 "prior_server_incarnation";
              mret (DDC_UncleanServerRestart prior_server_incarnation)
         else dec_fail (OXE_UnknownTag "died-cause" value))
    (fun c bs => bs = be 1 (died_cause_tag c) ++ match c with DDC_UncleanServerRestart i => be 8 i | _ => [] end
                 /\ match c with DDC_UncleanServerRestart i => u64 i | _ => True end).
Proof.
  apply (exact_tag _ _ died_cause_tag (fun c => match c with DDC_UncleanServerRestart i => be 8 i | _ => [] end)
           (fun c => match c with DDC_UncleanServerRestart i => u64 i | _ => True end)).
  - intros []; unfold u8, u8_max; simpl; lia.
  - intros t. repeat chosen.
    1-3: eapply exact_iff; [|apply exact_ret]; by intros [] bs; split; intros ?; fields.
    + eapply exact_iff; [|apply exact_last, exact_u64]. intros c bs. split; [intros ?; fields; done|].
      intros (Ht & -> & Hw). destruct c; try done. by eexists.
    + apply exact_refused. intros [] bs (Ht & _); simpl in Ht; lia.
Qed.

Definition record_body_tag (body : ParticipantRecord) : Z :=
  match body with
  | PR_OrdinaryRecord _ _ => 0 | PR_Attached _ _ => 1 | PR_Detached _ _ _ => 2 | PR_Died _ _ _ => 3
  | PR_Left _ _ => 4 | PR_HistoryCompacted _ _ _ _ => 5
  end.
Definition enc_body_fields (body : ParticipantRecord) : list byte :=
  match body with
  | PR_OrdinaryRecord s payload => be 8 s ++ be 4 (blen payload) ++ payload
  | PR_Attached p b => be 8 p ++ enc_epoch b
  | PR_Detached p b c => be 8 p ++ enc_epoch b ++ be 1 (detached_cause_tag c)
  | PR_Died p b c =>
      be 8 p ++ enc_epoch b ++ be 1 (died_cause_tag c)
      ++ match c with DDC_UncleanServerRestart i => be 8 i | _ => [] end
  | PR_Left p b => be 8 p ++ enc_option enc_epoch b
  | PR_HistoryCompacted p a t f => be 8 p ++ be 8 a ++ be 8 t ++ be 8 f
  end.
Lemma enc_body_tagged body : enc_body body = be 1 (record_body_tag body) ++ enc_body_fields body.
Proof. destruct body as [s l|p b|p b []|p b []|p b|p a t f]; simpl; rewrite ?app_nil_r; done. Qed.
Lemma body_tag_u8 body : u8 (record_body_tag body).
Proof. destruct body; unfold u8, u8_max; simpl; lia. Qed.

(** The payload of an ordinary record is a length and that many bytes. *)
Lemma exact_payload (f : list byte -> ParticipantRecord) :
  exact (n ← dec_length "ordinary payload"; payload ← dec_take "ordinary payload" n; mret (f payload))
    (fun b bs => exists payload, bs = be 4 (blen payload) ++ payload /\ blen payload <= u32_max /\ b = f payload).
Proof.
  eapply exact_iff; [|eapply exact_bind_when; [apply exact_u32|intros n nbs [_ [Hn _]];
    eapply exact_bind; [by apply exact_take|intros payload; apply exact_ret]]].
  intros b bs. split.
  - intros (n & b1 & b2 & -> & [-> [Hn Hn']] & x & b3 & b4 & -> & [-> <-] & -> & ->). exists x. by rewrite app_nil_r.
  - intros (x & -> & Hx & ->). pose proof (blen_nonneg x).
    exists (blen x), (be 4 (blen x)), x. split_and!; [done|done|done|]. exists x, x, []. by rewrite app_nil_r.
Qed.

Ltac by_kind :=
  intros b bs; split; [intros ?; fields; done|];
  intros (Ht & -> & [Hw _]); destruct b; try done; cbn in Hw; fields; supply; by eexists.
Lemma exact_body : exact decode_record_body (fun b bs => bs = enc_body b /\ wf_body b).
Proof.
  apply exact_iff with (fun b bs => bs = be 1 (record_body_tag b) ++ enc_body_fields b /\ wf_body b).
  { intros b bs. by rewrite enc_body_tagged. }
  apply exact_tag; [apply body_tag_u8|]. intros t. repeat chosen.
  - eapply exact_iff; [|eapply exact_field; [apply exact_u64|intros p; apply exact_payload]].
    intros b bs. split.
    + intros ?. fields. cbn. split_and!; try done. unfold wf_body; simpl. unfold blen in *.
      split_and!; try done. unfold u64, u32_max, u64_max in *. lia.
    + intros (Ht & -> & [Hw Hl]). destruct b; try done. destruct Hw. supply. by eexists.
  - eapply exact_iff; [|eapply exact_field; [apply exact_u64|intros p; apply exact_last, exact_epoch]].
    by_kind.
  - eapply exact_iff; [|eapply exact_field; [apply exact_u64|intros p; eapply exact_field; [apply exact_epoch|intros e;
      apply exact_assoc, exact_last, exact_detached_cause]]].
    by_kind.
  - eapply exact_iff; [|eapply exact_field; [apply exact_u64|intros p; eapply exact_field; [apply exact_epoch|intros e;
      apply exact_assoc, exact_last, exact_died_cause]]].
    by_kind.
  - eapply exact_iff; [|eapply exact_field; [apply exact_u64|intros p; apply exact_last, exact_option, exact_epoch]].
    by_kind.
  - eapply exact_iff; [|eapply exact_field; [apply exact_u64|intros p; eapply exact_field; [apply exact_u64|intros x;
      eapply exact_field; [apply exact_u64|intros y; apply exact_last, exact_u64]]]].
    by_kind.
  - apply exact_refused. intros [] bs (Ht & _); simpl in Ht; lia.
Qed.

Lemma exact_list {A B} field (m : Dec A) enc wf (k : list A -> Dec B) S : exact m (fun a bs => bs = enc a /\ wf a) ->
  (forall l, exact (k l) (S l)) ->
  exact (n ← dec_length field; l ← dec_repeat (Z.to_nat n) m; k l)
    (fun b bs => exists l bs2, bs = enc_list enc l ++ bs2
       /\ (Z.of_nat (length l) <= u32_max /\ Forall wf l) /\ S l b bs2).
Proof.
  intros Hm Hk. eapply exact_iff; [|eapply exact_bind_when; [apply exact_u32|intros n nbs [_ [Hn _]];
    eapply exact_bind; [by apply (exact_repeat m enc wf)|exact Hk]]].
  unfold enc_list. intros b bs. split.
  - intros (n & b1 & b2 & -> & [-> [Hn Hn']] & l & b3 & b4 & -> & (-> & Hf & Hl) & HS).
    exists l, b4. rewrite <- app_assoc. replace (Z.of_nat (length l)) with n by lia. by split_and!.
  - intros (l & bs2 & -> & [Hl Hf] & HS). exists (Z.of_nat (length l)), (be 4 (Z.of_nat (length l))), (concat (map enc l) ++ bs2).
    rewrite <- app_assoc. split_and!; try done; [unfold u32; lia|].
    exists l, (concat (map enc l)), bs2. rewrite Nat2Z.id. by split_and!.
Qed.
Lemma exact_projected : exact decode_projected_record (fun r bs => bs = enc_projected r /\ wf_projected r).
Proof.
  eapply exact_iff; [|eapply exact_field; [apply exact_u64|intros s; eapply exact_field; [apply exact_body|intros body;
    eapply exact_list; [apply exact_u64|intros l; eapply exact_field; [apply exact_option, exact_u64|intros sender;
      apply exact_last, exact_u64]]]]].
  intros r bs. unfold enc_projected, wf_projected. split; [intros ?; fields; done|].
  intros [-> Hw]. destruct r; simpl in *. fields. supply. by eexists.
Qed.

Lemma exact_source_kind : exact (raw ← dec_u8 "source_kind"; decode_source_kind raw)
  (fun k bs => bs = be 1 (source_kind_tag k) /\ True).
Proof.
  eapply exact_iff; [|apply (exact_tag _ _ source_kind_tag (fun _ => []) (fun _ => True))].
  - intros c bs. cbv beta. by rewrite app_nil_r.
  - intros []; unfold u8, u8_max; simpl; lia.
  - intros t. unfold decode_source_kind. repeat chosen; (eapply exact_iff; [|apply exact_ret]) || apply exact_refused.
    1-7: by intros [] bs; split; intros ?; fields.
    intros [] bs (Ht & _); simpl in Ht; lia.
Qed.

Definition enc_marker_ack (m : MarkerAck) : list byte :=
  be 8 (ma_conversation_id m) ++ be 8 (ma_participant_id m) ++ be 8 (ma_capability_generation m)
  ++ be 8 (ma_marker_delivery_seq m).
Lemma exact_marker_ack : exact decode_row_marker_ack
  (fun m bs => bs = enc_marker_ack m
     /\ u64 (ma_conversation_id m) /\ u64 (ma_participant_id m)
     /\ wf_generation (ma_capability_generation m) /\ u64 (ma_marker_delivery_seq m)).
Proof.
  eapply exact_iff; [|eapply exact_field; [apply exact_u64|intros c; eapply exact_field; [apply exact_u64|intros p;
    apply exact_generation; intros g; apply exact_last, exact_u64]]].
  intros m bs. split; [intros ?; fields; done|].
  intros [-> Hw]. unfold enc_marker_ack. destruct m; simpl in *. fields. supply. by eexists.
Qed.

Definition row_tag (row : OutboxRow) : Z :=
  match row with
  | OXR_Produced _ => ROW_PRODUCED | OXR_AckAdvanced _ _ _ => ROW_ACK_ADVANCED
  | OXR_MarkerAckCommitted _ => ROW_MARKER_ACK_COMMITTED
  end.
Definition enc_row_fields (row : OutboxRow) : list byte :=
  match row with
  | OXR_Produced b =>
      be 8 (pdb_source_log_sequence b) ++ be 1 (source_kind_tag (pdb_source_kind b))
      ++ enc_list enc_projected (pdb_ordered_records b)
  | OXR_AckAdvanced s p t => be 8 s ++ be 8 p ++ be 8 t
  | OXR_MarkerAckCommitted m =>
      enc_marker_ack (sma_request m)
      ++ enc_epoch (sma_receiving_binding_epoch m) ++ be 8 (sma_offered_marker_delivery_seq m)
      ++ enc_epoch (sma_delivered_binding_epoch m) ++ be 8 (sma_from_cursor m)
      ++ be 8 (sma_resulting_cursor m) ++ be 8 (sma_base_log_head m) ++ be 8 (sma_extension_sequence m)
  end.
Lemma exact_row : exact (value ← dec_u8 "row_kind"; decode_row_kind value)
  (fun row bs => bs = enc_row_kind row /\ wf_row row).
Proof.
  apply exact_iff with (fun row bs => bs = be 1 (row_tag row) ++ enc_row_fields row /\ wf_row row).
  { intros [] bs; reflexivity. }
  apply exact_tag; [intros []; unfold u8, u8_max; cbv; intuition congruence|].
  intros t. unfold decode_row_kind. repeat chosen.
  - eapply exact_iff; [|eapply exact_field; [apply exact_u64|intros s; apply exact_assoc;
      eapply exact_field; [apply exact_source_kind|intros k; eapply exact_list; [apply exact_projected|intros l;
      apply exact_ret]]]].
    intros row bs. split; [intros ?; fields; cbn [row_tag enc_row_fields pdb_source_log_sequence pdb_source_kind pdb_ordered_records]; rewrite ?app_nil_r; done|].
    intros (Ht & -> & Hw). destruct row as [[]| |]; try done. cbn in Hw. fields.
    exists pdb_source_log_sequence0, (be 1 (source_kind_tag pdb_source_kind0) ++ enc_list enc_projected pdb_ordered_records0).
    split_and!; try done. eexists _, _; split_and!; [reflexivity|done|].
    eexists _, []. rewrite app_nil_r. by split_and!.
  - eapply exact_iff; [|eapply exact_field; [apply exact_u64|intros s; eapply exact_field; [apply exact_u64|intros p;
      apply exact_last, exact_u64]]].
    intros row bs. split; [intros ?; fields; done|].
    intros (Ht & -> & Hw). destruct row; try done. cbn in Hw. fields. supply. by eexists.
  - eapply exact_iff; [|eapply exact_field; [apply exact_marker_ack|intros r; eapply exact_field; [apply exact_epoch|intros e;
      eapply exact_field; [apply exact_u64|intros o; eapply exact_field; [apply exact_epoch|intros e';
      eapply exact_field; [apply exact_u64|intros f; eapply exact_field; [apply exact_u64|intros c;
      eapply exact_field; [apply exact_u64|intros h; apply exact_last, exact_u64]]]]]]]].
    intros row bs. split; [intros ?; fields; done|].
    intros (Ht & -> & Hw). destruct row as [| |[]]; try done. cbn in Hw. fields. simpl in *. supply. by eexists.
  - apply exact_refused. intros [] bs (Ht & _); simpl in Ht; congruence.
Qed.

Lemma wf_fits row : wf_row row -> fits_row row.
Proof.
  destruct row as [b| |]; simpl; try done. intros (_ & Hl & Hf). split; [done|].
  eapply Forall_impl; [exact Hf|]. by intros r (_ & [_ Hb] & Hr & _).
Qed.
Lemma encode_row_iff row payload : wf_row row -> encode_row row = Ok payload <-> payload = enc_row row.
Proof.
  intros Hw. destruct (encode_row_spec row) as [H1 H2]. split.
  - intros H. by apply H2 in H as [_ ->].
  - intros ->. by apply H1, wf_fits.
Qed.
Lemma version_byte b : from_be [b] = OUTBOX_SCHEMA_VERSION <-> [b] = be 1 OUTBOX_SCHEMA_VERSION.
Proof.
  split; [intros <-; symmetry; apply (be_from_be [b])|]. intros ->. by rewrite from_be_be.
Qed.
Lemma dec_finish_iff pre rest : dec_finish (dec_at pre rest) = Ok tt <-> rest = [].
Proof.
  unfold dec_finish, dec_at, saturating_sub. simpl. rewrite blen_app. pose proof (blen_nonneg rest).
  destruct (Z.eqb_spec (Z.max 0 (blen pre + blen rest - blen pre)) 0) as [E|E]; split; try done.
  - intros _. unfold blen in *. destruct rest; [done|]. simpl in *. lia.
  - intros ->. unfold blen in *. simpl in *. lia.
Qed.
Lemma decode_row_iff payload row : blen payload <= usize_max ->
  decode_row payload = Ok row <-> payload = enc_row row /\ wf_row row.
Proof.
  intros Hl. unfold decode_row, enc_row. destruct payload as [|b rest]; [split; [done|by intros [? _]]|].
  destruct (Z.eqb_spec (from_be [b]) OUTBOX_SCHEMA_VERSION) as [Ev|Ev]; simpl negb; cbv iota.
  2:{ split; [done|]. intros [Hp _]. destruct Ev. apply version_byte. by injection Hp as ->. }
  pose proof (proj1 (version_byte b) Ev) as Eb.
  assert (Hd : dec_u8 "schema_version" (mkRowDecoder (b :: rest) 0) = Ok (from_be [b], dec_at [b] rest)).
  { apply (exact_u8 "schema_version" [] (b :: rest)); [done|]. exists [b], rest. rewrite Ev. by split_and!. }
  rewrite Hd, Z.eqb_refl. simpl negb. cbv iota. split.
  - destruct ((value ← dec_u8 "row_kind"; decode_row_kind value) (dec_at [b] rest)) as [[row' d]|] eqn:E; [|done].
    apply exact_row in E as (bs & tail & -> & [-> Hw] & ->); [|done].
    destruct (dec_finish _) as [[]|] eqn:F; [|done]. apply dec_finish_iff in F as ->. intros [= ->].
    rewrite app_nil_r, <- Eb. done.
  - intros [Hp Hw]. rewrite <- Eb in Hp. injection Hp as ->.
    rewrite (proj2 (exact_row [b] (enc_row_kind row) row (dec_at ([b] ++ enc_row_kind row) []) Hl)).
    2:{ exists (enc_row_kind row), []. by rewrite app_nil_r. }
    by rewrite (proj2 (dec_finish_iff _ _) eq_refl).
Qed.

(** What a row decodes from is exactly what it encodes to. *)
Theorem row_bytes_exact payload row : blen payload <= usize_max ->
  decode_row payload = Ok row <-> wf_row row /\ encode_row row = Ok payload.
Proof.
  intros Hl. rewrite (decode_row_iff payload row Hl). split.
  - intros [-> Hw]. split; [done|]. by apply encode_row_iff.
  - intros [Hw He]. split; [by apply encode_row_iff|done].
Qed.
Lemma row_bytes_exact_witness :
  decode_row (enc_row (OXR_AckAdvanced 5 2 9)) = Ok (OXR_AckAdvanced 5 2 9)
  <-> wf_row (OXR_AckAdvanced 5 2 9) /\ encode_row (OXR_AckAdvanced 5 2 9) = Ok (enc_row (OXR_AckAdvanced 5 2 9)).
Proof. apply (row_bytes_exact (enc_row (OXR_AckAdvanced 5 2 9))). vm_compute. discriminate. Defined.
