(* ===== verification/Outbox.v ===== *)
(** * The delivery outbox of a conversation

    Model of [liminal-server/src/server/participant/production/outbox.rs] with
    [outbox/limits.rs], [outbox/selection.rs] and [outbox/validation.rs]: the owner of
    the delivery obligations of one conversation, rebuilt from the rows of the delivery
    log and advanced by one row at a time.

    The operations take [&mut self] and can fail after they have changed it, so they are
    a state monad whose errors keep the state.  [records] is a list of rows in
    ascending order of delivery sequence, as the [BTreeMap] of the source iterates. *)
From stdpp Require Import gmap sorting strings.
From coqutil Require Import Byte.
From S2P Require Import Prelude OutboxCodec Wire Bytes FrameCodec Cursor.
#[local] Open Scope string_scope.
#[local] Open Scope Z_scope.
#[local] Open Scope list_scope.

Inductive ConversationOutboxError :=
| OBE_Log (error : OutboxLogError)
| OBE_ExtensionSequence (expected actual : Z)
| OBE_RecordCount (source_sequence count : Z)
| OBE_SourceBody (source_sequence : Z) (source_kind : ProducedSourceKind)
| OBE_ConflictingSource (source_sequence : Z)
| OBE_DeliverySequence (previous actual : Z)
| OBE_ConflictingDelivery (delivery_seq : Z)
| OBE_RecipientOrder (delivery_seq : Z)
| OBE_SenderIncluded (delivery_seq : Z) (sender : ParticipantId)
| OBE_RetiredRecipient (delivery_seq : Z) (participant_id : ParticipantId)
| OBE_ChargeDrift (delivery_seq stored measured : Z)
| OBE_ConflictingAckSource (source_sequence : Z)
| OBE_AckRegression (participant_id : ParticipantId) (current through_seq : Z)
| OBE_AckObligations (participant_id : ParticipantId) (error : RecipientAckObligationsError)
| OBE_AckFrontierAhead (participant_id : ParticipantId) (outbox_ack_through acknowledged_through : Z)
| OBE_ProtocolCursorProvenance (participant_id : ParticipantId)
    (outbox_ack_through marker_reconciled_cursor protocol_cursor : Z)
| OBE_MarkerCursorPrestate (participant_id : ParticipantId) (expected actual : Z)
| OBE_MarkerCursorNonadvancing (participant_id : ParticipantId) (from : Z)
| OBE_ChargeOverflow
| OBE_BoundOverflow (name : string)
| OBE_LiveRecipientObligationsExceeded (limit attempted : Z).

Record LiveRecord := mkLiveRecord {
  lvr_delivery : ParticipantDelivery;
  lvr_recipients : gset Z;
  lvr_encoded_push_bytes : Z;
}.

(** ** limits.rs *)

Record ConversationOutboxLimits := mkOutboxLimits { max_live_recipient_obligations : Z }.
Definition ConversationOutboxLimits_try_new (max_retained_record_rows identity_slots : Z)
    : result ConversationOutboxLimits ConversationOutboxError :=
  let? max_live_recipient_obligations :=
    ok_or (checked_mul u64_max max_retained_record_rows identity_slots)
      (OBE_BoundOverflow "UNIT2_MAX_LIVE_RECIPIENT_OBLIGATIONS") in
  Ok (mkOutboxLimits max_live_recipient_obligations).

Record ConversationOutbox := mkOutbox {
  cob_limits : ConversationOutboxLimits;
  cob_conversation_id : Z;
  cob_records : list (Z * LiveRecord);
  cob_source_batches : gmap Z (list byte);
  cob_ack_sources : gmap Z (ParticipantId * Z);
  cob_all_obligations : gmap Z (gset Z);
  cob_ack_frontiers : gmap Z Z;
  cob_marker_ack_frontiers : gmap Z Z;
  cob_next_live_obligations : gmap Z Z;
  cob_retired : gset Z;
  cob_highest_delivery_seq : Z;
  cob_next_extension_sequence : Z;
  cob_live_recipient_obligations : Z;
  cob_charged_bytes : Z;
}.

Definition with_records (v : list (Z * LiveRecord)) (o : ConversationOutbox) : ConversationOutbox :=
  let '(mkOutbox l c _ sb ak ob fr mf nl rt hi ne lv ch) := o in
  mkOutbox l c v sb ak ob fr mf nl rt hi ne lv ch.
Definition with_source_batch (k : Z) (v : list byte) (o : ConversationOutbox) : ConversationOutbox :=
  let '(mkOutbox l c rs sb ak ob fr mf nl rt hi ne lv ch) := o in
  mkOutbox l c rs (<[k := v]> sb) ak ob fr mf nl rt hi ne lv ch.
Definition with_ack_source (k : Z) (v : ParticipantId * Z) (o : ConversationOutbox) : ConversationOutbox :=
  let '(mkOutbox l c rs sb ak ob fr mf nl rt hi ne lv ch) := o in
  mkOutbox l c rs sb (<[k := v]> ak) ob fr mf nl rt hi ne lv ch.
Definition with_ack_frontier (k v : Z) (o : ConversationOutbox) : ConversationOutbox :=
  let '(mkOutbox l c rs sb ak ob fr mf nl rt hi ne lv ch) := o in
  mkOutbox l c rs sb ak ob (<[k := v]> fr) mf nl rt hi ne lv ch.
Definition with_marker_frontier (k v : Z) (o : ConversationOutbox) : ConversationOutbox :=
  let '(mkOutbox l c rs sb ak ob fr mf nl rt hi ne lv ch) := o in
  mkOutbox l c rs sb ak ob fr (<[k := v]> mf) nl rt hi ne lv ch.
Definition with_next_live (v : gmap Z Z) (o : ConversationOutbox) : ConversationOutbox :=
  let '(mkOutbox l c rs sb ak ob fr mf _ rt hi ne lv ch) := o in
  mkOutbox l c rs sb ak ob fr mf v rt hi ne lv ch.
Definition with_retired (p : Z) (o : ConversationOutbox) : ConversationOutbox :=
  let '(mkOutbox l c rs sb ak ob fr mf nl rt hi ne lv ch) := o in
  mkOutbox l c rs sb ak ob fr mf nl ({[p]} ∪ rt) hi ne lv ch.
Definition with_highest (v : Z) (o : ConversationOutbox) : ConversationOutbox :=
  let '(mkOutbox l c rs sb ak ob fr mf nl rt _ ne lv ch) := o in
  mkOutbox l c rs sb ak ob fr mf nl rt v ne lv ch.
Definition with_next_extension (v : Z) (o : ConversationOutbox) : ConversationOutbox :=
  let '(mkOutbox l c rs sb ak ob fr mf nl rt hi _ lv ch) := o in
  mkOutbox l c rs sb ak ob fr mf nl rt hi v lv ch.
Definition with_live (v : Z) (o : ConversationOutbox) : ConversationOutbox :=
  let '(mkOutbox l c rs sb ak ob fr mf nl rt hi ne _ ch) := o in
  mkOutbox l c rs sb ak ob fr mf nl rt hi ne v ch.
Definition with_charged (v : Z) (o : ConversationOutbox) : ConversationOutbox :=
  let '(mkOutbox l c rs sb ak ob fr mf nl rt hi ne lv _) := o in
  mkOutbox l c rs sb ak ob fr mf nl rt hi ne lv v.

(** ** Operations on the owner: a state that errors keep *)

Definition Ob (A : Type) : Type :=
  ConversationOutbox -> ConversationOutbox * result A ConversationOutboxError.
#[export] Instance Ob_ret : MRet Ob := fun A a o => (o, Ok a).
#[export] Instance Ob_bind : MBind Ob := fun A B k m o =>
  match m o with (o, Ok a) => k a o | (o, Err e) => (o, Err e) end.
Definition ob_get : Ob ConversationOutbox := fun o => (o, Ok o).
Definition ob_modify (f : ConversationOutbox -> ConversationOutbox) : Ob unit := fun o => (f o, Ok tt).
Definition ob_lift {A} (r : result A ConversationOutboxError) : Ob A := fun o => (o, r).

(** [BTreeSet::contains] and [BTreeSet::is_empty]. *)
Definition has (recipients : gset Z) (participant_id : Z) : bool := bool_decide (participant_id ∈ recipients).
Definition is_empty (recipients : gset Z) : bool := bool_decide (recipients = ∅).

(** ** The ordered map of records *)

Definition records_get (rows : list (Z * LiveRecord)) (sequence : Z) : option LiveRecord :=
  snd <$> List.find (fun row => row.1 =? sequence) rows.
Fixpoint records_insert (rows : list (Z * LiveRecord)) (sequence : Z) (record : LiveRecord)
    : list (Z * LiveRecord) :=
  match rows with
  | [] => [(sequence, record)]
  | (k, r) :: rest =>
      if sequence <? k then (sequence, record) :: rows
      else if sequence =? k then (sequence, record) :: rest
      else (k, r) :: records_insert rest sequence record
  end.
Definition records_remove (rows : list (Z * LiveRecord)) (sequence : Z) : list (Z * LiveRecord) :=
  List.filter (fun row => negb (row.1 =? sequence)) rows.

(** ** validation.rs *)

(** The first record of an empty batch would panic; the shape of a batch is validated
    before, so there is one. *)
Definition retiring_participant (batch : ProducedBatch)
    : result (option ParticipantId) ConversationOutboxError :=
  match pdb_source_kind batch with
  | PSK_Left =>
      match pjr_body <$> head (pdb_ordered_records batch) with
      | Some (PR_Left affected_participant_id _) => Ok (Some affected_participant_id)
      | _ => Err (OBE_SourceBody (pdb_source_log_sequence batch) (pdb_source_kind batch))
      end
  | _ => Ok None
  end.

Definition sender_is (record : ProjectedRecord) (participant_id : ParticipantId) : bool :=
  bool_decide (pjr_sender record = Some participant_id).
Definition body_and_sender_match (kind : ProducedSourceKind) (records : list ProjectedRecord) : bool :=
  match kind, records with
  | PSK_Enrolled, [record] | PSK_Attached, [record] =>
      match pjr_body record with
      | PR_Attached affected_participant_id _ => sender_is record affected_participant_id
      | _ => false
      end
  | PSK_Attached, [terminal; attached] =>
      match pjr_body terminal, pjr_body attached with
      | PR_Detached terminal_id _ DTC_Superseded, PR_Attached attached_id _ =>
          (terminal_id =? attached_id) && sender_is terminal terminal_id
          && sender_is attached attached_id
      | _, _ => false
      end
  | PSK_Detached, [record] =>
      match pjr_body record with
      | PR_Detached affected_participant_id _ _ => sender_is record affected_participant_id
      | _ => false
      end
  | PSK_Died, [record] =>
      match pjr_body record with
      | PR_Died affected_participant_id _ _ => sender_is record affected_participant_id
      | _ => false
      end
  | PSK_MarkerDrained, [record] =>
      match pjr_body record with
      | PR_HistoryCompacted _ _ _ _ => is_none (pjr_sender record)
      | _ => false
      end
  | PSK_RecordAdmission, [record] =>
      match pjr_body record with
      | PR_OrdinaryRecord sender_participant_id _ => sender_is record sender_participant_id
      | _ => false
      end
  | PSK_Left, [record] =>
      match pjr_body record with
      | PR_Left affected_participant_id _ => sender_is record affected_participant_id
      | _ => false
      end
  | _, _ => false
  end.

Definition validate_batch_shape (batch : ProducedBatch) : result unit ConversationOutboxError :=
  let records := pdb_ordered_records batch in
  let count_valid :=
    match pdb_source_kind batch with
    | PSK_Attached => (length records =? 1)%nat || (length records =? 2)%nat
    | _ => (length records =? 1)%nat
    end in
  if negb count_valid
  then Err (OBE_RecordCount (pdb_source_log_sequence batch) (Z.of_nat (length records)))
  else if body_and_sender_match (pdb_source_kind batch) records then Ok tt
  else Err (OBE_SourceBody (pdb_source_log_sequence batch) (pdb_source_kind batch)).

(** [windows(2).any(|pair| pair[0] >= pair[1])]. *)
Fixpoint unordered (l : list Z) : bool :=
  match l with
  | a :: (b :: _) as rest => (b <=? a) || unordered rest
  | _ => false
  end.
Definition validate_record_snapshot (record : ProjectedRecord) (retired : gset Z)
    : result unit ConversationOutboxError :=
  if unordered (pjr_recipients record) then Err (OBE_RecipientOrder (pjr_delivery_seq record))
  else
    let? _ :=
      match pjr_sender record with
      | Some sender =>
          if binary_search_is_ok (pjr_recipients record) sender
          then Err (OBE_SenderIncluded (pjr_delivery_seq record) sender)
          else Ok tt
      | None => Ok tt
      end in
    match List.find (has retired) (pjr_recipients record) with
    | Some participant_id => Err (OBE_RetiredRecipient (pjr_delivery_seq record) participant_id)
    | None => Ok tt
    end.

Fixpoint added_obligations (records : list ProjectedRecord) (total : Z) : result Z ConversationOutboxError :=
  match records with
  | [] => Ok total
  | record :: records =>
      let? total := ok_or (checked_add u64_max total (Z.of_nat (length (pjr_recipients record))))
                      OBE_ChargeOverflow in
      added_obligations records total
  end.
Definition ensure_live_obligation_capacity (owner : ConversationOutbox) (records : list ProjectedRecord)
    (retiring : option ParticipantId) : result unit ConversationOutboxError :=
  let discharged :=
    match retiring with
    | None => 0
    | Some participant_id =>
        Z.of_nat (length (List.filter
          (fun row => has (lvr_recipients row.2) participant_id) (cob_records owner)))
    end in
  let? added := added_obligations records 0 in
  let? attempted :=
    ok_or (if discharged <=? cob_live_recipient_obligations owner
           then checked_add u64_max (cob_live_recipient_obligations owner - discharged) added
           else None) OBE_ChargeOverflow in
  if max_live_recipient_obligations (cob_limits owner) <? attempted
  then Err (OBE_LiveRecipientObligationsExceeded
              (max_live_recipient_obligations (cob_limits owner)) attempted)
  else Ok tt.

(** ** selection.rs *)

Definition durable_ack_through (o : ConversationOutbox) (participant_id : ParticipantId) : Z :=
  default 0 (cob_ack_frontiers o !! participant_id).
Definition live_recipients (o : ConversationOutbox) : list ParticipantId :=
  merge_sort Z.le (elements (dom (cob_next_live_obligations o))).
Definition delivery_after (o : ConversationOutbox) (participant_id offered_through : Z)
    : option ParticipantDelivery :=
  lvr_delivery ∘ snd <$>
    List.find (fun row => has (lvr_recipients row.2) participant_id)
      (List.filter (fun row => offered_through <? row.1) (cob_records o)).
Definition recipient_ack_obligations (o : ConversationOutbox) (participant_id acknowledged_through : Z)
    : result (RecipientAckObligations * Z) ConversationOutboxError :=
  let outbox_ack_through := durable_ack_through o participant_id in
  if acknowledged_through <? outbox_ack_through
  then Err (OBE_AckFrontierAhead participant_id outbox_ack_through acknowledged_through)
  else
    let delivery_sequences :=
      List.filter (fun delivery_seq => acknowledged_through <? delivery_seq)
        (merge_sort Z.le (elements (default ∅ (cob_all_obligations o !! participant_id)))) in
    let contiguously_available_through := default acknowledged_through (last delivery_sequences) in
    let? obligations :=
      map_err (OBE_AckObligations participant_id)
        (RecipientAckObligations_try_new participant_id acknowledged_through delivery_sequences) in
    Ok (obligations, contiguously_available_through).
Definition dispatch_after (o : ConversationOutbox) (participant_id protocol_cursor : Z)
    (offered_cursor : option Z) : result Z ConversationOutboxError :=
  let outbox_ack_through := durable_ack_through o participant_id in
  if protocol_cursor <? outbox_ack_through
  then Err (OBE_AckFrontierAhead participant_id outbox_ack_through protocol_cursor)
  else
    let marker_cursor := default outbox_ack_through (cob_marker_ack_frontiers o !! participant_id) in
    let marker_reconciled_cursor := Z.max outbox_ack_through marker_cursor in
    if negb (marker_reconciled_cursor =? protocol_cursor)
    then Err (OBE_ProtocolCursorProvenance participant_id outbox_ack_through marker_reconciled_cursor
                protocol_cursor)
    else Ok (Z.max marker_reconciled_cursor (default 0 offered_cursor)).
Definition is_marker_obligation (o : ConversationOutbox) (participant_id delivery_seq : Z) : bool :=
  match records_get (cob_records o) delivery_seq with
  | None => false
  | Some record =>
      has (lvr_recipients record) participant_id
      && match pd_record (lvr_delivery record) with
         | PR_HistoryCompacted affected_participant_id _ _ _ => affected_participant_id =? participant_id
         | _ => false
         end
  end.

(** ** outbox.rs *)

(** [next_live_obligations] is cleared and filled again: the first record in order wins. *)
Definition fill_next_live (sequence : Z) (recipients : gset Z) (m : gmap Z Z) : gmap Z Z :=
  set_fold (fun participant m =>
    match m !! participant with Some _ => m | None => <[participant := sequence]> m end) m recipients.
Definition recompute_next_live (o : ConversationOutbox) : ConversationOutbox :=
  with_next_live (foldl (fun m row => fill_next_live row.1 (lvr_recipients row.2) m) ∅ (cob_records o)) o.

Definition subtract_live_obligations (discharged : Z) : Ob unit := fun o =>
  if discharged <=? cob_live_recipient_obligations o
  then (with_live (cob_live_recipient_obligations o - discharged) o, Ok tt)
  else (o, Err OBE_ChargeOverflow).

Fixpoint reclaim_loop (reclaimed : list Z) : Ob unit := fun o =>
  match reclaimed with
  | [] => (o, Ok tt)
  | sequence :: rest =>
      match records_get (cob_records o) sequence with
      | None => reclaim_loop rest o
      | Some record =>
          let o := with_records (records_remove (cob_records o) sequence) o in
          if lvr_encoded_push_bytes record <=? cob_charged_bytes o
          then reclaim_loop rest (with_charged (cob_charged_bytes o - lvr_encoded_push_bytes record) o)
          else (o, Err OBE_ChargeOverflow)
      end
  end.
Definition reclaim_empty_records : Ob unit := fun o =>
  reclaim_loop (map fst (List.filter (fun row => is_empty (lvr_recipients row.2)) (cob_records o))) o.

(** The loop over [records.values_mut()]: a failure of the counter leaves the records
    visited so far changed. *)
Fixpoint discharge_loop (covered : LiveRecord -> bool) (participant_id : Z)
    (rows : list (Z * LiveRecord)) (discharged : Z)
    : list (Z * LiveRecord) * result Z ConversationOutboxError :=
  match rows with
  | [] => ([], Ok discharged)
  | (sequence, record) :: rest =>
      if covered record && has (lvr_recipients record) participant_id then
        let record := mkLiveRecord (lvr_delivery record) (lvr_recipients record ∖ {[participant_id]})
                        (lvr_encoded_push_bytes record) in
        match checked_add u64_max discharged 1 with
        | None => ((sequence, record) :: rest, Err OBE_ChargeOverflow)
        | Some discharged =>
            let '(rest, r) := discharge_loop covered participant_id rest discharged in
            ((sequence, record) :: rest, r)
        end
      else
        let '(rest, r) := discharge_loop covered participant_id rest discharged in
        ((sequence, record) :: rest, r)
  end.
Definition discharge_records (covered : LiveRecord -> bool) (participant_id : ParticipantId) : Ob unit :=
  fun o =>
  let '(rows, r) := discharge_loop covered participant_id (cob_records o) 0 in
  (discharged ← ob_lift r;
   _ ← subtract_live_obligations discharged;
   _ ← reclaim_empty_records;
   ob_modify recompute_next_live) (with_records rows o).
Definition discharge_through (participant_id : ParticipantId) (through_seq : Z) : Ob unit :=
  discharge_records (fun record => pd_delivery_seq (lvr_delivery record) <=? through_seq) participant_id.
Definition discharge_retired (participant_id : ParticipantId) : Ob unit :=
  _ ← ob_modify (with_retired participant_id);
  discharge_records (fun _ => true) participant_id.

(** The recipients' entries of [all_obligations] and [ack_frontiers]. *)
Definition register_recipient (sequence participant : Z) (o : ConversationOutbox) : ConversationOutbox :=
  let '(mkOutbox l c rs sb ak ob fr mf nl rt hi ne lv ch) := o in
  mkOutbox l c rs sb ak
    (<[participant := {[sequence]} ∪ default ∅ (ob !! participant)]> ob)
    (match fr !! participant with Some _ => fr | None => <[participant := 0]> fr end)
    mf nl rt hi ne lv ch.
Definition install_record (record : ProjectedRecord) : Ob unit :=
  let sequence := pjr_delivery_seq record in
  _ ← ob_modify (with_highest sequence);
  _ ← ob_modify (fun o => foldl (fun o participant => register_recipient sequence participant o) o
                            (pjr_recipients record));
  o ← ob_get;
  live ← ob_lift (ok_or (checked_add u64_max (cob_live_recipient_obligations o)
                           (Z.of_nat (length (pjr_recipients record)))) OBE_ChargeOverflow);
  _ ← ob_modify (with_live live);
  let recipients : gset Z := list_to_set (pjr_recipients record) in
  _ ← (if is_empty recipients then mret tt
       else
         let encoded_push_bytes := pjr_encoded_push_bytes record in
         o ← ob_get;
         charged ← ob_lift (ok_or (checked_add u64_max (cob_charged_bytes o) encoded_push_bytes)
                              OBE_ChargeOverflow);
         _ ← ob_modify (with_charged charged);
         ob_modify (fun o => with_records
           (records_insert (cob_records o) sequence
              (mkLiveRecord (into_delivery record (cob_conversation_id o)) recipients encoded_push_bytes)) o));
  ob_modify recompute_next_live.
Fixpoint install_records (records : list ProjectedRecord) : Ob unit :=
  match records with
  | [] => mret tt
  | record :: records => _ ← install_record record; install_records records
  end.

(** The validation loop of [apply_produced]; it returns the records it prepared. *)
Fixpoint prepare_records (o : ConversationOutbox) (records : list ProjectedRecord) (previous : Z)
    : result (list ProjectedRecord) ConversationOutboxError :=
  match records with
  | [] => Ok []
  | record :: rest =>
      let? _ := validate_record_snapshot record (cob_retired o) in
      if pjr_delivery_seq record <=? previous
      then Err (OBE_DeliverySequence previous (pjr_delivery_seq record))
      else if is_some (records_get (cob_records o) (pjr_delivery_seq record))
      then Err (OBE_ConflictingDelivery (pjr_delivery_seq record))
      else
        let? fresh := map_err OBE_Log
          (ProjectedRecord_try_new (cob_conversation_id o) (pjr_delivery_seq record)
             (pjr_body record) (pjr_recipients record) (pjr_sender record)) in
        let measured := pjr_encoded_push_bytes fresh in
        if negb (measured =? pjr_encoded_push_bytes record)
        then Err (OBE_ChargeDrift (pjr_delivery_seq record) (pjr_encoded_push_bytes record) measured)
        else
          let? prepared := prepare_records o rest (pjr_delivery_seq record) in
          Ok (record :: prepared)
  end.

Definition apply_produced (batch : ProducedBatch) : Ob unit :=
  _ ← ob_lift (validate_batch_shape batch);
  let source_sequence := pdb_source_log_sequence batch in
  canonical ← ob_lift (map_err OBE_Log (encode_row (OXR_Produced batch)));
  o ← ob_get;
  match cob_source_batches o !! source_sequence with
  | Some existing =>
      if bool_decide (existing = canonical) then mret tt
      else ob_lift (Err (OBE_ConflictingSource source_sequence))
  | None =>
      prepared ← ob_lift (prepare_records o (pdb_ordered_records batch) (cob_highest_delivery_seq o));
      retiring ← ob_lift (retiring_participant batch);
      _ ← ob_lift (ensure_live_obligation_capacity o prepared retiring);
      _ ← ob_modify (with_source_batch source_sequence canonical);
      _ ← match retiring with
          | Some participant_id => discharge_retired participant_id
          | None => mret tt
          end;
      install_records prepared
  end.

Definition apply_ack (source_sequence : Z) (participant_id : ParticipantId) (through_seq : Z) : Ob unit :=
  o ← ob_get;
  match cob_ack_sources o !! source_sequence with
  | Some existing =>
      if bool_decide (existing = (participant_id, through_seq)) then mret tt
      else ob_lift (Err (OBE_ConflictingAckSource source_sequence))
  | None =>
      let current := durable_ack_through o participant_id in
      if through_seq <=? current
      then ob_lift (Err (OBE_AckRegression participant_id current through_seq))
      else
        _ ← ob_modify (with_ack_source source_sequence (participant_id, through_seq));
        _ ← ob_modify (with_ack_frontier participant_id through_seq);
        discharge_through participant_id through_seq
  end.

Definition outbox_apply_marker_ack (marker : StoredMarkerAckCommitted) : Ob unit :=
  o ← ob_get;
  let participant_id := ma_participant_id (sma_request marker) in
  let durable_ack := durable_ack_through o participant_id in
  let marker_cursor := default durable_ack (cob_marker_ack_frontiers o !! participant_id) in
  let expected := Z.max durable_ack marker_cursor in
  if negb (sma_from_cursor marker =? expected)
  then ob_lift (Err (OBE_MarkerCursorPrestate participant_id expected (sma_from_cursor marker)))
  else if sma_resulting_cursor marker <=? sma_from_cursor marker
  then ob_lift (Err (OBE_MarkerCursorNonadvancing participant_id (sma_from_cursor marker)))
  else ob_modify (with_marker_frontier participant_id (sma_resulting_cursor marker)).

Definition apply_row (physical_sequence : Z) (row : OutboxRow) : Ob unit :=
  o ← ob_get;
  if negb (physical_sequence =? cob_next_extension_sequence o)
  then ob_lift (Err (OBE_ExtensionSequence (cob_next_extension_sequence o) physical_sequence))
  else
    _ ← match row with
        | OXR_MarkerAckCommitted marker =>
            if negb (sma_extension_sequence marker =? physical_sequence)
            then ob_lift (Err (OBE_ExtensionSequence physical_sequence (sma_extension_sequence marker)))
            else mret tt
        | _ => mret tt
        end;
    _ ← match row with
        | OXR_Produced batch => apply_produced batch
        | OXR_AckAdvanced source_log_sequence participant_id through_seq =>
            apply_ack source_log_sequence participant_id through_seq
        | OXR_MarkerAckCommitted marker => outbox_apply_marker_ack marker
        end;
    o ← ob_get;
    next ← ob_lift (ok_or (checked_add u64_max (cob_next_extension_sequence o) 1)
                      (OBE_ExtensionSequence u64_max physical_sequence));
    ob_modify (with_next_extension next).

Fixpoint apply_rows (rows : list (Z * OutboxRow)) : Ob unit :=
  match rows with
  | [] => mret tt
  | (physical_sequence, row) :: rows => _ ← apply_row physical_sequence row; apply_rows rows
  end.
Definition empty_outbox (conversation_id : Z) (limits : ConversationOutboxLimits) : ConversationOutbox :=
  mkOutbox limits conversation_id [] ∅ ∅ ∅ ∅ ∅ ∅ ∅ 0 0 0 0.
Definition restore_outbox (conversation_id : Z) (rows : list (Z * OutboxRow)) (limits : ConversationOutboxLimits)
    : result ConversationOutbox ConversationOutboxError :=
  match apply_rows rows (empty_outbox conversation_id limits) with
  | (owner, Ok _) => Ok owner
  | (_, Err e) => Err e
  end.
