(* ===== verification/OutboxStore.v ===== *)
(** * The delivery log on its store

    Model of the log half of [production/outbox_log.rs]: appending a row at the head, and
    the cursor that reads the stream back one page at a time, checking the physical
    sequences and the schema version of every row.

    [DeliveryStore] states what the code relies on: an append extends the stream at the
    expected head or leaves it, a failed flush takes no append back, and a read returns a
    prefix of what is there, nonempty when anything is there but possibly shorter than
    the page.  Any store of the observer log is one. *)
From stdpp Require Import strings.
From coqutil Require Import Byte.
From S2P Require Import Prelude Outbox OutboxCodec Wire Bytes.
From S2P Require Import ObserverLog.
#[local] Open Scope Z_scope.
#[local] Open Scope list_scope.

Definition UNIT2_OUTBOX_RESTORE_BATCH_ROWS : nat := 64.

Class DeliveryStore (St : Type) := {
  ds_append : St -> list byte -> Z -> St * result Z DurabilityError;
  ds_read_from : St -> Z -> nat -> result (list (Z * list byte)) DurabilityError;
  ds_flush : St -> St * result unit DurabilityError;
  ds_stream : St -> list (list byte);
  ds_append_law s p n :
    match ds_append s p n with
    | (s', Ok assigned) => n = Z.of_nat (length (ds_stream s)) /\ assigned = n /\ ds_stream s' = ds_stream s ++ [p]
    | (s', Err _) => ds_stream s' = ds_stream s
    end;
  ds_flush_law s : ds_stream (ds_flush s).1 = ds_stream s;
  ds_read_law s offset limit es : 0 <= offset -> (0 < limit)%nat -> ds_read_from s offset limit = Ok es ->
    exists k, (0 < k <= limit)%nat /\ es = numbered offset (take k (drop (Z.to_nat offset) (ds_stream s)));
}.

(** ** outbox_log.rs: the cursor *)

Record OutboxRestoreCursor := mkRestoreCursor {
  orc_next_expected_sequence : Z;
  orc_established_version : option Z;
  orc_eof : bool;
  orc_page : list (Z * OutboxRow);
}.
Definition restore_cursor : OutboxRestoreCursor := mkRestoreCursor 0 None false [].
Definition confirmed_head (c : OutboxRestoreCursor) : option Z :=
  if orc_eof c then Some (orc_next_expected_sequence c) else None.
Definition pop_front (c : OutboxRestoreCursor) : OutboxRestoreCursor * option (Z * OutboxRow) :=
  match orc_page c with
  | [] => (c, None)
  | row :: page =>
      (mkRestoreCursor (orc_next_expected_sequence c) (orc_established_version c) (orc_eof c) page, Some row)
  end.

(** The loop over the entries of one read; [decoded] is the page under construction. *)
Fixpoint load_entries (entries : list (Z * list byte)) (c : OutboxRestoreCursor)
    (decoded : list (Z * OutboxRow)) : OutboxRestoreCursor * result (list (Z * OutboxRow)) OutboxLogError :=
  match entries with
  | [] => (c, Ok decoded)
  | (sequence, payload) :: entries =>
      if negb (sequence =? orc_next_expected_sequence c)
      then (c, Err (OXE_Sequence (orc_next_expected_sequence c) sequence))
      else
        match payload with
        | [] => (c, Err OXE_MissingSchemaVersion)
        | first :: _ =>
            let version := from_be [first] in
            let mixed := match orc_established_version c with
                         | Some expected => if version =? expected then None else Some expected
                         | None => None
                         end in
            match mixed with
            | Some expected => (c, Err (OXE_MixedSchemaVersions expected version))
            | None =>
                let c := mkRestoreCursor (orc_next_expected_sequence c) (Some version) (orc_eof c) (orc_page c) in
                if negb (version =? OUTBOX_SCHEMA_VERSION) then (c, Err (OXE_SchemaVersion version))
                else
                  match decode_row payload with
                  | Err e => (c, Err e)
                  | Ok row =>
                      match checked_add u64_max (orc_next_expected_sequence c) 1 with
                      | None => (c, Err (OXE_Sequence u64_max sequence))
                      | Some next =>
                          load_entries entries
                            (mkRestoreCursor next (orc_established_version c) (orc_eof c) (orc_page c))
                            (decoded ++ [(orc_next_expected_sequence c, row)])
                      end
                  end
            end
        end
  end.

Section store.
Context {St : Type} `{!DeliveryStore St}.

Definition log_append_row (s : St) (row : OutboxRow) (expected_sequence : Z) : St * result unit OutboxLogError :=
  match encode_row row with
  | Err e => (s, Err e)
  | Ok payload =>
      let '(s, assigned) := ds_append s payload expected_sequence in
      match assigned with
      | Err e => (s, Err (OXE_Durability e))
      | Ok assigned =>
          if negb (assigned =? expected_sequence)
          then (s, Err (OXE_AssignedSequence expected_sequence assigned))
          else
            let '(s, flushed) := ds_flush s in
            (s, map_err OXE_Durability flushed)
      end
  end.

Definition load_page (s : St) (c : OutboxRestoreCursor) : OutboxRestoreCursor * result unit OutboxLogError :=
  if orc_eof c || negb (length (orc_page c) =? 0)%nat then (c, Ok tt)
  else
    match ds_read_from s (orc_next_expected_sequence c) UNIT2_OUTBOX_RESTORE_BATCH_ROWS with
    | Err e => (c, Err (OXE_Durability e))
    | Ok entries =>
        if (length entries =? 0)%nat
        then (mkRestoreCursor (orc_next_expected_sequence c) (orc_established_version c) true (orc_page c), Ok tt)
        else
          match load_entries entries c [] with
          | (c, Err e) => (c, Err e)
          | (c, Ok decoded) =>
              (mkRestoreCursor (orc_next_expected_sequence c) (orc_established_version c) (orc_eof c) decoded, Ok tt)
          end
    end.
Definition front (s : St) (c : OutboxRestoreCursor)
    : OutboxRestoreCursor * result (option (Z * OutboxRow)) OutboxLogError :=
  match load_page s c with
  | (c, Err e) => (c, Err e)
  | (c, Ok _) => (c, Ok (head (orc_page c)))
  end.
(** [None] when the fuel ends the loop; [cursor_reads_log] shows how much is enough. *)
Fixpoint validate_all (fuel : nat) (s : St) (c : OutboxRestoreCursor) : option (result unit OutboxLogError) :=
  match fuel with
  | O => None
  | S fuel =>
      match front s c with
      | (_, Err e) => Some (Err e)
      | (_, Ok None) => Some (Ok tt)
      | (c, Ok (Some _)) => validate_all fuel s (pop_front c).1
      end
  end.

(** Reading the whole log: [front] and [pop_front] until the end of the stream. *)
Fixpoint drain (fuel : nat) (s : St) (c : OutboxRestoreCursor)
    : option (result (list (Z * OutboxRow) * OutboxRestoreCursor) OutboxLogError) :=
  match fuel with
  | O => None
  | S fuel =>
      match front s c with
      | (_, Err e) => Some (Err e)
      | (c, Ok None) => Some (Ok ([], c))
      | (c, Ok (Some row)) =>
          match drain fuel s (pop_front c).1 with
          | Some (Ok (rows, c)) => Some (Ok (row :: rows, c))
          | r => r
          end
      end
  end.
Fixpoint append_rows (s : St) (rows : list OutboxRow) (head : Z) : St * result unit OutboxLogError :=
  match rows with
  | [] => (s, Ok tt)
  | row :: rows =>
      match log_append_row s row head with
      | (s, Ok _) => append_rows s rows (head + 1)
      | (s, Err e) => (s, Err e)
      end
  end.
Definition restore_from_log (fuel : nat) (s : St) (conversation_id : Z) (limits : ConversationOutboxLimits)
    : option (result ConversationOutbox ConversationOutboxError) :=
  match drain fuel s restore_cursor with
  | None => None
  | Some (Err e) => Some (Err (OBE_Log e))
  | Some (Ok (rows, _)) => Some (restore_outbox conversation_id rows limits)
  end.

(** ** What the log holds *)

Definition row_stored (row : OutboxRow) (bytes : list byte) : Prop :=
  bytes = enc_row row /\ wf_row row /\ blen bytes <= usize_max.
Definition stored (s : St) (rows : list OutboxRow) : Prop := Forall2 row_stored rows (ds_stream s).

Lemma row_stored_decodes row bytes : row_stored row bytes ->
  exists first rest, bytes = first :: rest /\ from_be [first] = OUTBOX_SCHEMA_VERSION /\ decode_row bytes = Ok row.
Proof.
  intros (-> & Hw & Hl). assert (Hd : decode_row (enc_row row) = Ok row) by (by apply decode_row_iff).
  unfold enc_row in *. destruct (be 1 OUTBOX_SCHEMA_VERSION ++ enc_row_kind row) as [|b rest] eqn:E; [done|].
  exists b, rest. split_and!; [done| |done]. apply version_byte.
  assert (be 1 OUTBOX_SCHEMA_VERSION = [Byte.x01]) as Hx by reflexivity. rewrite Hx in E |- *. by injection E as <- _.
Qed.
Lemma load_entries_spec rows bs : Forall2 row_stored rows bs -> forall c decoded,
  default OUTBOX_SCHEMA_VERSION (orc_established_version c) = OUTBOX_SCHEMA_VERSION ->
  orc_next_expected_sequence c + Z.of_nat (length rows) <= u64_max ->
  exists v, default OUTBOX_SCHEMA_VERSION v = OUTBOX_SCHEMA_VERSION
    /\ load_entries (numbered (orc_next_expected_sequence c) bs) c decoded
       = (mkRestoreCursor (orc_next_expected_sequence c + Z.of_nat (length rows)) v (orc_eof c) (orc_page c),
          Ok (decoded ++ numbered (orc_next_expected_sequence c) rows)).
Proof.
  induction 1 as [|row bytes rows bs Hrow _ IH]; intros c decoded Hv Hmax.
  { exists (orc_established_version c). split; [done|]. simpl. rewrite app_nil_r, Z.add_0_r. by destruct c. }
  destruct (row_stored_decodes _ _ Hrow) as (first & rest & -> & Hf & Hd). cbn [numbered load_entries].
  rewrite Z.eqb_refl. cbn [negb]. rewrite Hf.
  replace (match orc_established_version c with Some expected => if OUTBOX_SCHEMA_VERSION =? expected then None else Some expected | None => None end)
    with (None : option Z); cycle 1.
  { destruct (orc_established_version c) as [e|]; [|done]. simpl in Hv. by rewrite Hv, Z.eqb_refl. }
  rewrite Z.eqb_refl. cbn [negb]. rewrite Hd. cbn [orc_next_expected_sequence orc_established_version orc_eof orc_page].
  cbn [length] in Hmax. rewrite checked_add_exact by lia.
  destruct (IH (mkRestoreCursor (orc_next_expected_sequence c + 1) (Some OUTBOX_SCHEMA_VERSION) (orc_eof c) (orc_page c))
              (decoded ++ [(orc_next_expected_sequence c, row)])) as (v & Hv' & E); [done|simpl; lia|].
  cbn [orc_next_expected_sequence orc_eof orc_page] in E. rewrite E. exists v. split; [done|].
  rewrite <- app_assoc. do 2 f_equal. cbn [length]. lia.
Qed.

(** The cursor with [i] rows consumed and the page up to [j] loaded. *)
Record cursor_at (rows : list OutboxRow) (i j : nat) (c : OutboxRestoreCursor) : Prop := {
  ca_next : orc_next_expected_sequence c = Z.of_nat j;
  ca_version : default OUTBOX_SCHEMA_VERSION (orc_established_version c) = OUTBOX_SCHEMA_VERSION;
  ca_page : orc_page c = numbered (Z.of_nat i) (take (j - i) (drop i rows));
  ca_bounds : (i <= j <= length rows)%nat;
  ca_eof : orc_eof c = true -> j = length rows;
}.
Lemma numbered_size {A} (l : list A) : forall n, length (numbered n l) = length l.
Proof. induction l; intros n; simpl; [done|]. by rewrite IHl. Qed.
Lemma load_page_spec s rows i j c : stored s rows -> Z.of_nat (length rows) <= u64_max ->
  (forall offset, is_ok (ds_read_from s offset UNIT2_OUTBOX_RESTORE_BATCH_ROWS) = true) ->
  cursor_at rows i j c ->
  exists j' c', load_page s c = (c', Ok tt) /\ cursor_at rows i j' c'
    /\ (orc_page c' = [] -> i = length rows /\ orc_eof c' = true).
Proof.
  intros Hs Hmax Hread Hc. destruct Hc as [Hn Hv Hp Hb He] eqn:Hceq. clear Hceq. unfold load_page.
  assert (Hlen : length (orc_page c) = (j - i)%nat).
  { rewrite Hp, numbered_size, length_take, length_drop. lia. }
  destruct (orc_eof c) eqn:Eeof; cbn [orb].
  { exists j, c. split_and!; [done|done|]. intros E. rewrite E in Hlen. simpl in Hlen. specialize (He eq_refl). split; [lia|done]. }
  destruct (length (orc_page c) =? 0)%nat eqn:Elen; cbn [negb].
  2:{ exists j, c. split_and!; [done|done|]. intros E. by rewrite E in Elen. }
  apply Nat.eqb_eq in Elen. assert (i = j) as <- by lia.
  specialize (Hread (orc_next_expected_sequence c)).
  destruct (ds_read_from s _ _) as [entries|] eqn:Er; [|done]. apply ds_read_law in Er as (k & Hk & ->); [|lia|unfold UNIT2_OUTBOX_RESTORE_BATCH_ROWS; lia].
  rewrite numbered_size, Hn, Nat2Z.id, length_take, length_drop, <- (Forall2_length _ _ _ Hs).
  destruct (Nat.min k (length rows - i) =? 0)%nat eqn:Ek.
  - apply Nat.eqb_eq in Ek. exists i. eexists. split_and!; [done| |intros _; split; [lia|done]].
    constructor; simpl; try done. intros _. lia.
  - apply Nat.eqb_neq in Ek.
    assert (Hsub : Forall2 row_stored (take k (drop i rows)) (take k (drop i (ds_stream s)))) by (by apply Forall2_take, Forall2_drop).
    assert (Hl : length (take k (drop i rows)) = Nat.min k (length rows - i)) by (by rewrite length_take, length_drop).
    destruct (load_entries_spec _ _ Hsub c []) as (v & Hv' & E); [done|rewrite Hl, Hn; lia|]. rewrite Hn in E. rewrite E.
    exists (i + Nat.min k (length rows - i))%nat. eexists. split_and!; [done| |].
    + constructor; simpl; try done.
      * rewrite Hl. lia.
      * do 1 f_equal. replace (i + Nat.min k (length rows - i) - i)%nat with (Nat.min k (length rows - i)) by lia.
        destruct (Nat.min_spec k (length rows - i)) as [[_ ->]|[Hle ->]]; [done|].
        rewrite !take_ge by (rewrite length_drop; lia). done.
      * lia.
      * by rewrite Eeof.
    + simpl. intros E0. apply (f_equal length) in E0. rewrite numbered_size, Hl in E0. simpl in E0. lia.
Qed.
Lemma drain_S n s c : drain (S n) s c =
  match front s c with
  | (_, Err e) => Some (Err e)
  | (c, Ok None) => Some (Ok ([], c))
  | (c, Ok (Some row)) =>
      match drain n s (pop_front c).1 with
      | Some (Ok (rows, c)) => Some (Ok (row :: rows, c))
      | r => r
      end
  end.
Proof. done. Qed.
Lemma drain_spec s rows : stored s rows -> Z.of_nat (length rows) <= u64_max ->
  (forall offset, is_ok (ds_read_from s offset UNIT2_OUTBOX_RESTORE_BATCH_ROWS) = true) ->
  forall n i j c, cursor_at rows i j c -> (length rows - i <= n)%nat ->
  exists c', drain (S n) s c = Some (Ok (numbered (Z.of_nat i) (drop i rows), c'))
    /\ confirmed_head c' = Some (Z.of_nat (length rows)).
Proof.
  intros Hs Hmax Hread. induction n as [|n IH]; intros i j c Hc Hn;
    destruct (load_page_spec _ _ _ _ _ Hs Hmax Hread Hc) as (j' & c' & E & [H1 H2 H3 H4 H5] & Hend);
    rewrite drain_S; unfold front; rewrite E; destruct (orc_page c') as [|row page] eqn:Ep; cbn [head].
  1,3: destruct (Hend eq_refl) as [-> He]; exists c'; rewrite drop_all; split; [done|];
    unfold confirmed_head; rewrite He, H1; f_equal; f_equal; by apply H5.
  - apply (f_equal length) in H3. rewrite numbered_size, length_take, length_drop in H3. simpl in H3. lia.
  - destruct (drop i rows) as [|x rest] eqn:Ed.
    { apply (f_equal length) in H3. rewrite take_nil in H3. done. }
    destruct (j' - i)%nat as [|m] eqn:Em; [done|]. simpl in H3. injection H3 as -> ->.
    assert (Hr : drop (S i) rows = rest).
    { replace (S i) with (i + 1)%nat by lia. rewrite <- drop_drop, Ed. done. }
    assert (Hi : (i < length rows)%nat) by lia.
    assert (Hc' : cursor_at rows (S i) j' (pop_front c').1).
    { unfold pop_front. rewrite Ep. constructor; simpl; try done; [|lia].
      rewrite Hr. replace (j' - S i)%nat with m by lia. f_equal. lia. }
    destruct (IH (S i) j' _ Hc') as (c2 & E2 & Hh); [lia|]. rewrite E2, Hr. exists c2. split; [|done].
    simpl. do 5 f_equal. lia.
Qed.
Lemma validate_drain fuel s c : validate_all fuel s c
  = match drain fuel s c with Some (Ok _) => Some (Ok tt) | Some (Err e) => Some (Err e) | None => None end.
Proof.
  revert c. induction fuel as [|fuel IH]; intros c; simpl; [done|].
  destruct (front s c) as [c' [[row|]|e]]; try done. rewrite IH. by destruct (drain fuel s _) as [[[rows c2]|]|].
Qed.

(** ** Appending *)

Lemma log_append_spec s row rows s' r : stored s rows -> wf_row row -> blen (enc_row row) <= usize_max ->
  log_append_row s row (Z.of_nat (length rows)) = (s', r) ->
  stored s' (rows ++ [row]) \/ (stored s' rows /\ r <> Ok tt).
Proof.
  intros Hs Hw Hl. unfold log_append_row. destruct (encode_row row) as [payload|e] eqn:E.
  2:{ intros [= <- <-]. by right. }
  apply (encode_row_iff row payload Hw) in E as ->.
  pose proof (ds_append_law s (enc_row row) (Z.of_nat (length rows))) as Ha.
  destruct (ds_append s _ _) as [s1 [assigned|e]].
  - destruct Ha as (_ & -> & Hst). rewrite Z.eqb_refl. cbn [negb]. pose proof (ds_flush_law s1) as Hf.
    destruct (ds_flush s1) as [s2 r2]. simpl in Hf. intros [= <- _]. left.
    unfold stored. rewrite Hf, Hst. apply Forall2_app; [done|]. by repeat constructor.
  - intros [= <- <-]. right. split; [|done]. unfold stored. by rewrite Ha.
Qed.
Lemma append_rows_stored more : forall s rows s', stored s rows -> Forall wf_row more ->
  Forall (fun row => blen (enc_row row) <= usize_max) more ->
  append_rows s more (Z.of_nat (length rows)) = (s', Ok tt) -> stored s' (rows ++ more).
Proof.
  induction more as [|row more IH]; intros s rows s' Hs Hw Hl; cbn [append_rows]; [intros [= <-]; by rewrite app_nil_r|].
  apply Forall_cons in Hw as [Hw Hws]. apply Forall_cons in Hl as [Hl Hls].
  destruct (log_append_row s row _) as [s1 [[]|e]] eqn:E; [|done]. intros H.
  apply (log_append_spec _ _ _ _ _ Hs Hw Hl) in E as [Hs1|[_ ?]]; [|done].
  replace (rows ++ row :: more) with ((rows ++ [row]) ++ more) by (by rewrite <- app_assoc).
  apply (IH s1); [done..|]. rewrite length_app. simpl. rewrite Nat2Z.inj_add. exact H.
Qed.

(** C16: The log gives back what was appended to it: after rows have been appended one by one
    to an empty stream, the cursor reads exactly those rows in order, whatever the sizes
    of the pages, confirms the head, and the restored owner is the one the rows make. *)
Theorem outbox_log_restarts s0 s rows conversation_id limits :
  ds_stream s0 = [] -> append_rows s0 rows 0 = (s, Ok tt) ->
  Forall wf_row rows -> Forall (fun row => blen (enc_row row) <= usize_max) rows ->
  Z.of_nat (length rows) <= u64_max ->
  (forall offset, is_ok (ds_read_from s offset UNIT2_OUTBOX_RESTORE_BATCH_ROWS) = true) ->
  (exists c, drain (S (length rows)) s restore_cursor = Some (Ok (numbered 0 rows, c))
     /\ confirmed_head c = Some (Z.of_nat (length rows)))
  /\ validate_all (S (length rows)) s restore_cursor = Some (Ok tt)
  /\ restore_from_log (S (length rows)) s conversation_id limits
     = Some (restore_outbox conversation_id (numbered 0 rows) limits).
Proof.
  intros H0 Ha Hw Hl Hmax Hread. assert (Hs : stored s rows).
  { apply (append_rows_stored rows s0 []); [unfold stored; by rewrite H0|done..]. }
  destruct (drain_spec s rows Hs Hmax Hread (length rows) 0 0 restore_cursor) as (c & E & Hh).
  - constructor; simpl; try done; lia.
  - lia.
  - rewrite validate_drain. unfold restore_from_log. rewrite E. split_and!; try done. by exists c.
Qed.

End store.

(** Every store of the observer log is a delivery store. *)
Definition durable_delivery {St} `{!DurableStore St (list byte) DurabilityError} : DeliveryStore St.
Proof.
  refine {| ds_append := store_append; ds_read_from := store_read_from; ds_flush := store_flush; ds_stream := stream |}.
  - apply append_law.
  - apply flush_law.
  - intros s offset limit es Ho Hl H. apply read_law in H; [|done]. exists limit. split; [lia|done].
Defined.

(** A store in memory that answers every read with at most one row. *)
Module ShortPages.
Definition Mem : Type := list (list byte).
#[global] Instance mem : DeliveryStore Mem.
Proof.
  refine {| ds_append := fun s p n => if n =? Z.of_nat (length s) then (s ++ [p], Ok n)
                                      else (s, Err (DUE_SequenceConflict n (Z.of_nat (length s))));
            ds_read_from := fun s offset limit => Ok (numbered offset (take 1 (drop (Z.to_nat offset) s)));
            ds_flush := fun s => (s, Ok tt);
            ds_stream := fun s => s |}.
  - intros s p n. destruct (Z.eqb_spec n (Z.of_nat (length s))); done.
  - done.
  - intros s offset limit es _ Hl [= <-]. exists 1%nat. split; [lia|done].
Defined.
Definition rows : list OutboxRow := [OXR_AckAdvanced 0 2 5; OXR_AckAdvanced 1 2 6].
Definition log : Mem := (append_rows ([] : Mem) rows 0).1.
End ShortPages.
Lemma outbox_log_restarts_witness :
  validate_all 3 ShortPages.log restore_cursor = Some (Ok tt)
  /\ restore_from_log 3 ShortPages.log 7 (mkOutboxLimits 100)
     = Some (restore_outbox 7 (numbered 0 ShortPages.rows) (mkOutboxLimits 100)).
Proof.
  apply (outbox_log_restarts ([] : ShortPages.Mem) ShortPages.log ShortPages.rows 7 (mkOutboxLimits 100)).
  - reflexivity.
  - vm_compute. reflexivity.
  - repeat constructor; vm_compute; discriminate.
  - repeat constructor; vm_compute; discriminate.
  - vm_compute. discriminate.
  - intros offset. reflexivity.
Defined.
