(* ===== verification/OutboxRuns.v ===== *)
(** * The outbox as a ledger of obligations

    What the rows of the delivery log do to the owner of [Outbox].  The ledger is the set
    of pairs of a delivery sequence and a participant that is still owed it, folded from
    the rows alone; the owner's records, counters and indexes are determined by it, so
    every view the server dispatches from is a view of the ledger. *)
From stdpp Require Import gmap sorting strings.
From coqutil Require Import Byte.
From S2P Require Import Prelude Outbox OutboxCodec Wire Bytes FrameCodec Cursor.
#[local] Open Scope string_scope.
#[local] Open Scope Z_scope.
#[local] Open Scope list_scope.

Abbreviation Rows := (list (Z * LiveRecord)).

Definition sumZ (l : list Z) : Z := foldr Z.add 0 l.
Definition sum_live (rows : Rows) : Z := sumZ (map (fun row => Z.of_nat (size (lvr_recipients row.2))) rows).
Definition sum_bytes (rows : Rows) : Z := sumZ (map (fun row => lvr_encoded_push_bytes row.2) rows).
Definition next_of (rows : Rows) : gmap Z Z :=
  foldl (fun m row => fill_next_live row.1 (lvr_recipients row.2) m) ∅ rows.

(** The owner with the given records and everything that is derived from them. *)
Definition settle_rows (rows : Rows) (o : ConversationOutbox) : ConversationOutbox :=
  with_next_live (next_of rows) (with_charged (sum_bytes rows) (with_live (sum_live rows) (with_records rows o))).

Definition row_ok (conversation_id : Z) (row : Z * LiveRecord) : Prop :=
  pd_conversation_id (lvr_delivery row.2) = conversation_id
  /\ pd_delivery_seq (lvr_delivery row.2) = row.1
  /\ lvr_recipients row.2 ≠ ∅ /\ 0 <= lvr_encoded_push_bytes row.2.
Definition rows_ok (conversation_id : Z) (rows : Rows) : Prop :=
  StronglySorted Z.lt (map fst rows) /\ Forall (row_ok conversation_id) rows.

(** ** Sums and the ordered map *)

Lemma sumZ_app l k : sumZ (l ++ k) = sumZ l + sumZ k.
Proof. unfold sumZ. induction l as [|x l IH]; simpl; [done|]. rewrite IH. lia. Qed.
Lemma sumZ_nonneg l : Forall (fun x => 0 <= x) l -> 0 <= sumZ l.
Proof. unfold sumZ. induction 1; simpl; lia. Qed.
Lemma sumZ_perm l k : l ≡ₚ k -> sumZ l = sumZ k.
Proof. unfold sumZ. induction 1; simpl; lia. Qed.
Lemma sum_live_nonneg rows : 0 <= sum_live rows.
Proof. apply sumZ_nonneg, Forall_map, Forall_forall. intros; simpl; lia. Qed.

Lemma records_get_In rows s r : records_get rows s = Some r -> In (s, r) rows.
Proof.
  unfold records_get. destruct (List.find _ rows) as [[k x]|] eqn:E; [|done]. intros [= <-].
  apply List.find_some in E as [Hi Ek]. simpl in Ek. apply Z.eqb_eq in Ek as ->. done.
Qed.
Lemma records_get_Some rows s r : StronglySorted Z.lt (map fst rows) ->
  records_get rows s = Some r <-> In (s, r) rows.
Proof.
  intros Hs. split; [apply records_get_In|]. unfold records_get.
  induction rows as [|[k x] rows IH]; simpl; [done|].
  apply StronglySorted_inv in Hs as [Hs Hf]. destruct (Z.eqb_spec k s) as [->|Hne]; simpl.
  - intros [[= ->]|Hin]; [done|]. rewrite List.Forall_forall in Hf.
    apply (List.in_map fst) in Hin. apply Hf in Hin. simpl in Hin. lia.
  - intros [[= -> _]|Hin]; [done|]. by apply IH.
Qed.
Lemma records_get_None rows s : records_get rows s = None <-> ~ In s (map fst rows).
Proof.
  unfold records_get. induction rows as [|[k x] rows IH]; simpl; [tauto|].
  destruct (Z.eqb_spec k s) as [->|Hne]; simpl; [split; [done|]; tauto|]. rewrite IH. intuition.
Qed.
Lemma records_insert_last rows s r : Forall (fun k => k < s) (map fst rows) ->
  records_insert rows s r = rows ++ [(s, r)].
Proof.
  induction rows as [|[k x] rows IH]; simpl; [done|]. intros H. apply Forall_cons in H as [Hk H].
  destruct (Z.ltb_spec s k); [lia|]. destruct (Z.eqb_spec s k); [lia|]. by rewrite IH.
Qed.
Lemma records_remove_bytes rows s r : StronglySorted Z.lt (map fst rows) -> records_get rows s = Some r ->
  sum_bytes (records_remove rows s) = sum_bytes rows - lvr_encoded_push_bytes r.
Proof.
  unfold records_get, records_remove, sum_bytes. induction rows as [|[k x] rows IH]; simpl; [done|].
  intros Hs. apply StronglySorted_inv in Hs as [Hs Hf].
  destruct (Z.eqb_spec k s) as [->|Hne]; simpl; [intros [= ->]|intros H; rewrite (IH Hs H); unfold sumZ; simpl; lia].
  assert (E : List.filter (fun row : Z * LiveRecord => negb (row.1 =? s)) rows = rows).
  { clear IH Hs. induction rows as [|[k y] rows IH]; simpl in *; [done|]. apply Forall_cons in Hf as [Hk Hf].
    destruct (Z.eqb_spec k s); [lia|]. simpl. by rewrite (IH Hf). }
  rewrite E. unfold sumZ; simpl. lia.
Qed.
Lemma sorted_filter (P : Z * LiveRecord -> bool) rows : StronglySorted Z.lt (map fst rows) ->
  StronglySorted Z.lt (map fst (List.filter P rows)).
Proof.
  induction rows as [|row rows IH]; simpl; [done|]. intros Hs. apply StronglySorted_inv in Hs as [Hs Hf].
  destruct (P row); simpl; [|auto]. constructor; [auto|]. rewrite List.Forall_forall in *. intros k Hk.
  apply Hf. apply List.in_map_iff in Hk as (y & <- & Hy). apply List.filter_In in Hy as [Hy _]. by apply List.in_map.
Qed.

(** ** Discharging *)

Lemma has_true X p : has X p = true <-> p ∈ X.
Proof. apply bool_decide_eq_true. Qed.
Lemma has_false X p : has X p = false <-> p ∉ X.
Proof. apply bool_decide_eq_false. Qed.
Lemma is_empty_true X : is_empty X = true <-> X = ∅.
Proof. apply bool_decide_eq_true. Qed.
Lemma is_empty_false X : is_empty X = false <-> X ≠ ∅.
Proof. apply bool_decide_eq_false. Qed.

Definition strip (covered : LiveRecord -> bool) (p : Z) (r : LiveRecord) : LiveRecord :=
  if covered r && has (lvr_recipients r) p
  then mkLiveRecord (lvr_delivery r) (lvr_recipients r ∖ {[p]}) (lvr_encoded_push_bytes r) else r.
Definition stripped (covered : LiveRecord -> bool) (p : Z) (rows : Rows) : Rows :=
  map (fun row => (row.1, strip covered p row.2)) rows.
Definition occupied (row : Z * LiveRecord) : bool := negb (is_empty (lvr_recipients row.2)).
Definition discharged_rows (covered : LiveRecord -> bool) (p : Z) (rows : Rows) : Rows :=
  List.filter occupied (stripped covered p rows).

Lemma size_remove (X : gset Z) p : p ∈ X -> Z.of_nat (size (X ∖ {[p]})) = Z.of_nat (size X) - 1.
Proof.
  intros Hp. assert (E : size X = (1 + size (X ∖ {[p]}))%nat); [|lia].
  rewrite <- (size_singleton (C := gset Z) p), <- size_union by set_solver. f_equal.
  apply set_eq. intros x. rewrite elem_of_union, elem_of_difference, elem_of_singleton.
  destruct (decide (x = p)); set_solver.
Qed.
Lemma strip_live covered p r :
  Z.of_nat (size (lvr_recipients (strip covered p r)))
  = Z.of_nat (size (lvr_recipients r)) - of_bool (covered r && has (lvr_recipients r) p).
Proof.
  unfold strip. destruct (covered r); simpl; [|lia]. destruct (has _ p) eqn:E; simpl; [|lia]. by apply size_remove, has_true.
Qed.
Lemma discharge_loop_spec covered p rows : forall n, 0 <= n -> n + sum_live rows <= u64_max ->
  discharge_loop covered p rows n
  = (stripped covered p rows, Ok (n + sum_live rows - sum_live (stripped covered p rows))).
Proof.
  induction rows as [|[s r] rows IH]; intros n Hn Hb; simpl.
  { unfold sum_live, sumZ; simpl. f_equal. f_equal. lia. }
  assert (Hr : sum_live (stripped covered p ((s, r) :: rows)) = Z.of_nat (size (lvr_recipients (strip covered p r)))
    + sum_live (stripped covered p rows)) by done.
  assert (Hl : sum_live ((s, r) :: rows) = Z.of_nat (size (lvr_recipients r)) + sum_live rows) by done.
  simpl stripped in Hr. rewrite Hl in *. rewrite Hr, strip_live. pose proof (sum_live_nonneg rows). unfold strip.
  destruct (covered r && has (lvr_recipients r) p) eqn:E; simpl of_bool.
  - apply andb_true_iff in E as [_ E]. apply has_true in E.
    pose proof (size_remove _ _ E). rewrite checked_add_exact by lia. rewrite IH by lia.
    f_equal. f_equal. lia.
  - rewrite IH by lia. f_equal. f_equal. lia.
Qed.

Definition keep_out (ks : list Z) (row : Z * LiveRecord) : bool := negb (bool_decide (row.1 ∈ ks)).
Lemma keep_out_cons k ks row : keep_out (k :: ks) row = negb (row.1 =? k) && keep_out ks row.
Proof.
  unfold keep_out. destruct (Z.eqb_spec row.1 k) as [E|E]; simpl.
  - rewrite bool_decide_true; [done|]. rewrite E. by left.
  - f_equal. apply bool_decide_ext. rewrite elem_of_cons. tauto.
Qed.
Lemma reclaim_loop_spec ks : forall o, StronglySorted Z.lt (map fst (cob_records o)) ->
  Forall (fun row => 0 <= lvr_encoded_push_bytes row.2) (cob_records o) ->
  cob_charged_bytes o = sum_bytes (cob_records o) ->
  let rows := List.filter (keep_out ks) (cob_records o) in
  reclaim_loop ks o = (with_charged (sum_bytes rows) (with_records rows o), Ok tt).
Proof.
  induction ks as [|k ks IH]; intros o Hs Hf Hc; simpl.
  { assert (E : List.filter (keep_out []) (cob_records o) = cob_records o).
    { clear. induction (cob_records o) as [|row rows IHr]; [done|].
      cbn [List.filter]. change (keep_out [] row) with true. cbv iota. by rewrite IHr. }
    rewrite E, <- Hc. by destruct o. }
  assert (Hrest : forall rows, List.filter (keep_out (k :: ks)) rows
                  = List.filter (keep_out ks) (records_remove rows k)).
  { intros rows. unfold records_remove. induction rows as [|[s r] rows IHr]; simpl; [done|].
    rewrite IHr, keep_out_cons. simpl. by destruct (s =? k). }
  rewrite Hrest. destruct (records_get (cob_records o) k) as [r|] eqn:E.
  - set (o1 := with_records (records_remove (cob_records o) k) o).
    assert (Hr1 : cob_records o1 = records_remove (cob_records o) k) by (by destruct o).
    assert (Hc1 : cob_charged_bytes o1 = cob_charged_bytes o) by (by destruct o).
    pose proof (records_remove_bytes _ _ _ Hs E) as Hb.
    assert (Hf1 : Forall (fun row => 0 <= lvr_encoded_push_bytes row.2) (records_remove (cob_records o) k)).
    { rewrite List.Forall_forall in *. intros row Hrow. apply List.filter_In in Hrow as [Hrow _]. by apply Hf. }
    assert (0 <= sum_bytes (records_remove (cob_records o) k)).
    { apply sumZ_nonneg, Forall_map. exact Hf1. }
    rewrite Hc1, Hc. destruct (Z.leb_spec (lvr_encoded_push_bytes r) (sum_bytes (cob_records o))); [|lia].
    rewrite IH; cycle 1.
    + destruct o1; simpl in *. rewrite Hr1. by apply sorted_filter.
    + destruct o1; simpl in *. by rewrite Hr1.
    + destruct o1; simpl in *. rewrite Hr1. lia.
    + f_equal. destruct o; simpl. done.
  - rewrite IH by done. apply records_get_None in E.
    assert (Hid : records_remove (cob_records o) k = cob_records o); [|by rewrite Hid].
    unfold records_remove. clear -E. induction (cob_records o) as [|[s r] rows IHr]; simpl in *; [done|].
    destruct (Z.eqb_spec s k); [tauto|]. simpl. rewrite IHr; tauto.
Qed.

Lemma stripped_keys covered p rows : map fst (stripped covered p rows) = map fst rows.
Proof. unfold stripped. by rewrite map_map. Qed.
Lemma strip_bytes covered p r : lvr_encoded_push_bytes (strip covered p r) = lvr_encoded_push_bytes r.
Proof. unfold strip. by destruct (_ && _). Qed.
Lemma strip_delivery covered p r : lvr_delivery (strip covered p r) = lvr_delivery r.
Proof. unfold strip. by destruct (_ && _). Qed.
Lemma stripped_bytes covered p rows : sum_bytes (stripped covered p rows) = sum_bytes rows.
Proof.
  unfold sum_bytes, stripped. rewrite map_map. f_equal. apply map_ext. intros row. simpl. apply strip_bytes.
Qed.
Lemma occupied_live rows : sum_live (List.filter occupied rows) = sum_live rows.
Proof.
  unfold sum_live, occupied, sumZ. induction rows as [|[s r] rows IH]; simpl; [done|].
  destruct (is_empty (lvr_recipients r)) eqn:E; simpl; rewrite IH; [|done].
  apply is_empty_true in E. rewrite E, size_empty. lia.
Qed.
Lemma keep_occupied rows : StronglySorted Z.lt (map fst rows) ->
  List.filter (keep_out (map fst (List.filter (fun row => is_empty (lvr_recipients row.2)) rows))) rows
  = List.filter occupied rows.
Proof.
  intros Hs. apply List.filter_ext_in. intros [s r] Hin. unfold keep_out, occupied. simpl. f_equal.
  destruct (is_empty (lvr_recipients r)) eqn:E; [apply bool_decide_eq_true|apply bool_decide_eq_false];
    rewrite list_elem_of_In, List.in_map_iff.
  - exists (s, r). split; [done|]. by apply List.filter_In.
  - intros ([s' r'] & Heq & H). simpl in Heq. subst s'. apply List.filter_In in H as [H Hr]. simpl in Hr.
    apply (records_get_Some rows _ _ Hs) in Hin, H. rewrite Hin in H. injection H as ->. congruence.
Qed.

Definition settled (o : ConversationOutbox) : Prop :=
  rows_ok (cob_conversation_id o) (cob_records o) /\ settle_rows (cob_records o) o = o /\ sum_live (cob_records o) <= u64_max.

Lemma settle_fields rows o : settle_rows rows o = o ->
  cob_live_recipient_obligations o = sum_live rows /\ cob_charged_bytes o = sum_bytes rows
  /\ cob_next_live_obligations o = next_of rows.
Proof. intros <-. by destruct o. Qed.

Lemma discharge_records_spec covered p o : settled o ->
  discharge_records covered p o = (settle_rows (discharged_rows covered p (cob_records o)) o, Ok tt).
Proof.
  intros ([Hs Hf] & Hset & Hmax). unfold discharge_records. rewrite discharge_loop_spec by lia.
  set (rows := cob_records o) in *. set (rows1 := stripped covered p rows).
  unfold mbind, Ob_bind, ob_lift, subtract_live_obligations.
  assert (Hl : cob_live_recipient_obligations (with_records rows1 o) = sum_live rows) by (rewrite <- Hset; by destruct o).
  rewrite Hl. pose proof (sum_live_nonneg rows1).
  destruct (Z.leb_spec (0 + sum_live rows - sum_live rows1) (sum_live rows)); [|lia].
  replace (sum_live rows - (0 + sum_live rows - sum_live rows1)) with (sum_live rows1) by lia.
  set (o1 := with_live (sum_live rows1) (with_records rows1 o)).
  assert (Hr1 : cob_records o1 = rows1) by (by destruct o).
  assert (Hb1 : cob_charged_bytes o1 = sum_bytes rows1).
  { transitivity (cob_charged_bytes o); [by destruct o|]. rewrite <- Hset. unfold rows1. rewrite stripped_bytes. by destruct o. }
  assert (Hs1 : StronglySorted Z.lt (map fst rows1)) by (unfold rows1; by rewrite stripped_keys).
  unfold reclaim_empty_records. rewrite reclaim_loop_spec; rewrite ?Hr1; [|done| |done].
  - rewrite (keep_occupied rows1 Hs1). fold (discharged_rows covered p rows). unfold ob_modify. f_equal.
    unfold recompute_next_live, settle_rows. subst o1.
    rewrite (occupied_live rows1 : sum_live (discharged_rows covered p rows) = sum_live rows1).
    destruct o; reflexivity.
  - unfold rows1, stripped. apply Forall_map. eapply Forall_impl; [exact Hf|].
    intros row (_ & _ & _ & Hb). simpl. by rewrite strip_bytes.
Qed.

(** ** Installing a record *)

Definition with_obligations (ob : gmap Z (gset Z)) (fr : gmap Z Z) (o : ConversationOutbox) : ConversationOutbox :=
  let '(mkOutbox l c rs sb ak _ _ mf nl rt hi ne lv ch) := o in
  mkOutbox l c rs sb ak ob fr mf nl rt hi ne lv ch.
Definition add_obligations (s : Z) (ps : list Z) (ob : gmap Z (gset Z)) : gmap Z (gset Z) :=
  foldl (fun ob p => <[p := {[s]} ∪ default ∅ (ob !! p)]> ob) ob ps.
Definition add_frontiers (ps : list Z) (fr : gmap Z Z) : gmap Z Z :=
  foldl (fun fr p => match fr !! p with Some _ => fr | None => <[p := 0]> fr end) fr ps.
Lemma register_all s ps : forall o,
  foldl (fun o p => register_recipient s p o) o ps
  = with_obligations (add_obligations s ps (cob_all_obligations o)) (add_frontiers ps (cob_ack_frontiers o)) o.
Proof. induction ps as [|p ps IH]; intros o; simpl; [by destruct o|]. rewrite IH. by destruct o. Qed.
Lemma add_obligations_spec s ps : forall ob p,
  default ∅ (add_obligations s ps ob !! p)
  = (if bool_decide (p ∈ ps) then {[s]} else ∅) ∪ default ∅ (ob !! p).
Proof.
  induction ps as [|q ps IH]; intros ob p; [simpl; set_solver|].
  change (add_obligations s (q :: ps) ob) with (add_obligations s ps (<[q := {[s]} ∪ default ∅ (ob !! q)]> ob)). rewrite IH. destruct (decide (p = q)) as [->|Hne].
  - rewrite lookup_insert_eq. simpl. rewrite (bool_decide_true (q ∈ q :: ps)) by left. case_bool_decide; set_solver.
  - rewrite lookup_insert_ne by done. f_equal. erewrite bool_decide_ext; [done|]. rewrite elem_of_cons. tauto.
Qed.
Lemma add_frontiers_spec ps : forall fr p, default 0 (add_frontiers ps fr !! p) = default 0 (fr !! p).
Proof.
  induction ps as [|q ps IH]; intros fr p; [done|].
  change (add_frontiers (q :: ps) fr) with (add_frontiers ps (match fr !! q with Some _ => fr | None => <[q := 0]> fr end)).
  rewrite IH.
  destruct (fr !! q) eqn:E; [done|]. destruct (decide (p = q)) as [->|Hne].
  - by rewrite lookup_insert_eq, E.
  - by rewrite lookup_insert_ne by done.
Qed.

Lemma unordered_sorted l : unordered l = false -> StronglySorted Z.lt l.
Proof.
  intros H. apply Sorted_StronglySorted; [intros x y z; lia|].
  induction l as [|a [|b l] IH]; [constructor|repeat constructor|]. simpl in H.
  apply orb_false_iff in H as [Hab H]. apply Z.leb_gt in Hab. constructor; [by apply IH|by constructor].
Qed.
Lemma sorted_nodup l : StronglySorted Z.lt l -> NoDup l.
Proof.
  induction 1 as [|a l Hs IH Hf]; constructor; [|done]. intros Hin. rewrite Forall_forall in Hf.
  apply Hf in Hin. lia.
Qed.
Lemma recipients_size l : StronglySorted Z.lt l -> size (list_to_set l : gset Z) = length l.
Proof. intros H. by apply size_list_to_set, sorted_nodup. Qed.

(** The record of the map that a projected record becomes, if it has a recipient. *)
Definition live_row (conversation_id : Z) (r : ProjectedRecord) : Z * LiveRecord :=
  (pjr_delivery_seq r,
   mkLiveRecord (into_delivery r conversation_id) (list_to_set (pjr_recipients r)) (pjr_encoded_push_bytes r)).
Definition live_rows (conversation_id : Z) (r : ProjectedRecord) : Rows :=
  match pjr_recipients r with [] => [] | _ => [live_row conversation_id r] end.
Definition registered (r : ProjectedRecord) (o : ConversationOutbox) : ConversationOutbox :=
  with_obligations (add_obligations (pjr_delivery_seq r) (pjr_recipients r) (cob_all_obligations o))
    (add_frontiers (pjr_recipients r) (cob_ack_frontiers o)) (with_highest (pjr_delivery_seq r) o).
Definition installed (r : ProjectedRecord) (o : ConversationOutbox) : ConversationOutbox :=
  settle_rows (cob_records o ++ live_rows (cob_conversation_id o) r) (registered r o).

Lemma sum_live_app l k : sum_live (l ++ k) = sum_live l + sum_live k.
Proof. unfold sum_live. by rewrite map_app, sumZ_app. Qed.
Lemma sum_bytes_app l k : sum_bytes (l ++ k) = sum_bytes l + sum_bytes k.
Proof. unfold sum_bytes. by rewrite map_app, sumZ_app. Qed.
Lemma live_rows_live c r : StronglySorted Z.lt (pjr_recipients r) ->
  sum_live (live_rows c r) = Z.of_nat (length (pjr_recipients r)).
Proof.
  intros Hs. unfold live_rows. destruct (pjr_recipients r) as [|p ps] eqn:E; [done|].
  assert (Hz : size (list_to_set (pjr_recipients r) : gset Z) = length (p :: ps)) by (rewrite E; by apply recipients_size).
  rewrite <- Hz.
  unfold sum_live, live_row, sumZ. simpl. lia.
Qed.
Lemma live_row_bytes c r : sum_bytes [live_row c r] = pjr_encoded_push_bytes r.
Proof. unfold sum_bytes, sumZ, live_row. simpl. lia. Qed.
Lemma install_record_spec r o : settled o -> StronglySorted Z.lt (pjr_recipients r) ->
  Forall (fun k => k < pjr_delivery_seq r) (map fst (cob_records o)) ->
  sum_live (cob_records o) + Z.of_nat (length (pjr_recipients r)) <= u64_max ->
  sum_bytes (cob_records o ++ live_rows (cob_conversation_id o) r) <= u64_max ->
  install_record r o = (installed r o, Ok tt).
Proof.
  intros (_ & Hset & _) Hs Hk Hl Hb. destruct (settle_fields _ _ Hset) as (Hlo & Hco & Hno). unfold install_record, mbind, Ob_bind, ob_modify, ob_get, ob_lift.
  rewrite register_all. set (o1 := with_obligations _ _ _).
  assert (Ho1 : o1 = registered r o) by (subst o1; by destruct o).
  assert (Hl1 : cob_live_recipient_obligations o1 = sum_live (cob_records o)).
  { rewrite Ho1, <- Hlo. by destruct o. }
  assert (Hc1 : cob_charged_bytes o1 = sum_bytes (cob_records o)).
  { rewrite Ho1, <- Hco. by destruct o. }
  rewrite Hl1, checked_add_exact by done. cbn [ok_or].
  unfold installed. rewrite sum_bytes_app in Hb.
  assert (Hlive := sum_live_app (cob_records o) (live_rows (cob_conversation_id o) r)). rewrite (live_rows_live _ _ Hs) in Hlive.
  unfold live_rows in *. destruct (pjr_recipients r) as [|p ps] eqn:Er.
  - rewrite (proj2 (is_empty_true _)) by done. unfold mret, Ob_ret. f_equal.
    rewrite app_nil_r in *. rewrite Ho1. unfold recompute_next_live, settle_rows. rewrite <- Hco. simpl Z.of_nat. rewrite Z.add_0_r.
    unfold registered. rewrite Er. by destruct o.
  - rewrite (proj2 (is_empty_false _)) by set_solver.
    assert (Hc2 : forall v, cob_charged_bytes (with_live v o1) = sum_bytes (cob_records o)) by (intros v; rewrite <- Hc1; by destruct o1).
    rewrite Hc2. rewrite checked_add_exact; cycle 1.
    { rewrite live_row_bytes in Hb. exact Hb. }
    cbn [ok_or]. f_equal. rewrite Ho1. unfold recompute_next_live, settle_rows. rewrite Hlive, sum_bytes_app, live_row_bytes.
    unfold registered, live_row. rewrite Er. destruct o; simpl in *. by rewrite records_insert_last by done.
Qed.

(** ** The invariant of the owner *)

Definition owes (rows : Rows) (s p : Z) : Prop := exists r, In (s, r) rows /\ p ∈ lvr_recipients r.
Definition obliged (o : ConversationOutbox) (p : Z) : gset Z := default ∅ (cob_all_obligations o !! p).

(** Keys are positive and at most the highest sequence; the retired are owed nothing;
    what is owed was an obligation, and an obligation of a live participant that is owed
    no longer was acknowledged. *)
Record outbox_ok (o : ConversationOutbox) : Prop := {
  ok_settled : settled o;
  ok_keys : forall s r, In (s, r) (cob_records o) -> 0 < s <= cob_highest_delivery_seq o;
  ok_high : 0 <= cob_highest_delivery_seq o;
  ok_retired : forall s p, owes (cob_records o) s p -> p ∉ cob_retired o;
  ok_obliged : forall s p, owes (cob_records o) s p -> s ∈ obliged o p;
  ok_acknowledged : forall s p, s ∈ obliged o p -> p ∉ cob_retired o -> ~ owes (cob_records o) s p ->
    s <= durable_ack_through o p;
  ok_limit : sum_live (cob_records o) <= max_live_recipient_obligations (cob_limits o) <= u64_max;
  ok_charge : sum_bytes (cob_records o) <= u64_max;
}.

Lemma strip_recipients covered p r q :
  q ∈ lvr_recipients (strip covered p r) <-> q ∈ lvr_recipients r /\ ~ (covered r = true /\ q = p).
Proof.
  unfold strip. destruct (covered r); simpl.
  - destruct (has (lvr_recipients r) p) eqn:E; [simpl; set_solver|]. apply has_false in E.
    split; [intros H; split; [done|]; intros [_ ->]; done|tauto].
  - split; [intros H; split; [done|]; by intros [? _]|tauto].
Qed.
Lemma discharged_In covered p rows s r : In (s, r) (discharged_rows covered p rows) <->
  exists r0, In (s, r0) rows /\ r = strip covered p r0 /\ lvr_recipients r ≠ ∅.
Proof.
  unfold discharged_rows, stripped, occupied. rewrite List.filter_In, List.in_map_iff, negb_true_iff. simpl.
  rewrite is_empty_false. split.
  - intros [([s0 r0] & [= <- <-] & Hi) Hne]. by exists r0.
  - intros (r0 & Hi & -> & Hne). split; [|done]. by exists (s, r0).
Qed.
Lemma discharged_owes covered p rows s q : owes (discharged_rows covered p rows) s q <->
  exists r, In (s, r) rows /\ q ∈ lvr_recipients r /\ ~ (covered r = true /\ q = p).
Proof.
  unfold owes. split.
  - intros (r & Hi & Hq). apply discharged_In in Hi as (r0 & Hi & -> & _). apply strip_recipients in Hq. by exists r0.
  - intros (r & Hi & Hq & Hc). assert (q ∈ lvr_recipients (strip covered p r)) by (by apply strip_recipients).
    exists (strip covered p r). split; [|done]. apply discharged_In. exists r. split_and!; try done. set_solver.
Qed.
Lemma discharged_ok c covered p rows : rows_ok c rows -> rows_ok c (discharged_rows covered p rows).
Proof.
  intros [Hs Hf]. split; [apply sorted_filter; by rewrite stripped_keys|].
  rewrite List.Forall_forall in *. intros [s r] Hi. apply discharged_In in Hi as (r0 & Hi & -> & Hne).
  specialize (Hf _ Hi) as (Hc & Hd & _ & Hb). unfold row_ok in *. simpl in *. by rewrite strip_bytes, strip_delivery.
Qed.
Lemma discharged_live covered p rows : sum_live (discharged_rows covered p rows) <= sum_live rows.
Proof.
  unfold discharged_rows. rewrite occupied_live. unfold sum_live, stripped, sumZ.
  induction rows as [|[s r] rows IH]; simpl; [lia|]. rewrite strip_live. destruct (_ && _); simpl; lia.
Qed.
Lemma discharged_bytes c covered p rows : Forall (row_ok c) rows ->
  sum_bytes (discharged_rows covered p rows) <= sum_bytes rows.
Proof.
  unfold discharged_rows, sum_bytes, stripped, occupied, sumZ.
  induction 1 as [|[s r] rows (_ & _ & _ & Hb) _ IH]; simpl in *; [lia|].
  destruct (is_empty _); simpl; rewrite ?strip_bytes; lia.
Qed.
Lemma settle_settled rows o : rows_ok (cob_conversation_id o) rows -> sum_live rows <= u64_max -> settled (settle_rows rows o).
Proof. intros Hr Hl. destruct o. split_and!; done. Qed.

(** Fields that settling leaves alone. *)
Lemma settle_same rows o :
  cob_records (settle_rows rows o) = rows
  /\ cob_highest_delivery_seq (settle_rows rows o) = cob_highest_delivery_seq o
  /\ cob_retired (settle_rows rows o) = cob_retired o
  /\ cob_all_obligations (settle_rows rows o) = cob_all_obligations o
  /\ cob_ack_frontiers (settle_rows rows o) = cob_ack_frontiers o
  /\ cob_limits (settle_rows rows o) = cob_limits o
  /\ cob_conversation_id (settle_rows rows o) = cob_conversation_id o
  /\ cob_source_batches (settle_rows rows o) = cob_source_batches o
  /\ cob_ack_sources (settle_rows rows o) = cob_ack_sources o
  /\ cob_next_extension_sequence (settle_rows rows o) = cob_next_extension_sequence o
  /\ cob_marker_ack_frontiers (settle_rows rows o) = cob_marker_ack_frontiers o.
Proof. by destruct o. Qed.

Definition through_cover (t : Z) (r : LiveRecord) : bool := pd_delivery_seq (lvr_delivery r) <=? t.
Definition acked (src p t : Z) (o : ConversationOutbox) : ConversationOutbox :=
  settle_rows (discharged_rows (through_cover t) p (cob_records o))
    (with_ack_frontier p t (with_ack_source src (p, t) o)).
Definition retired (p : Z) (o : ConversationOutbox) : ConversationOutbox :=
  settle_rows (discharged_rows (fun _ => true) p (cob_records o)) (with_retired p o).

Lemma through_owes c t p rows s q : rows_ok c rows ->
  owes (discharged_rows (through_cover t) p rows) s q <-> owes rows s q /\ ~ (s <= t /\ q = p).
Proof.
  intros [_ Hf]. rewrite discharged_owes. unfold owes, through_cover.
  assert (Hd : forall r, In (s, r) rows -> (pd_delivery_seq (lvr_delivery r) <=? t) = true <-> s <= t).
  { intros r Hi. rewrite List.Forall_forall in Hf. destruct (Hf _ Hi) as (_ & Hd & _). simpl in Hd. rewrite Hd. apply Z.leb_le. }
  split.
  - intros (r & Hi & Hq & Hn). rewrite (Hd r Hi) in Hn. split; [by exists r|done].
  - intros [(r & Hi & Hq) Hn]. exists r. by rewrite (Hd r Hi).
Qed.
Lemma retired_owes p rows s q :
  owes (discharged_rows (fun _ => true) p rows) s q <-> owes rows s q /\ q <> p.
Proof.
  rewrite discharged_owes. unfold owes. split.
  - intros (r & Hi & Hq & Hn). split; [by exists r|tauto].
  - intros [(r & Hi & Hq) Hn]. exists r. tauto.
Qed.
Lemma discharged_keys covered p rows s r : In (s, r) (discharged_rows covered p rows) -> exists r', In (s, r') rows.
Proof. intros H. apply discharged_In in H as (r0 & H & _). by exists r0. Qed.
Lemma discharged_settled covered p o f :
  settled o -> (forall x, cob_conversation_id (f x) = cob_conversation_id x) ->
  settled (settle_rows (discharged_rows covered p (cob_records o)) (f o)).
Proof.
  intros (Hr & _ & Hm) Hc. apply settle_settled; [rewrite Hc; by apply discharged_ok|].
  pose proof (discharged_live covered p (cob_records o)). lia.
Qed.

Lemma acked_ok src p t o : outbox_ok o -> durable_ack_through o p < t -> outbox_ok (acked src p t o).
Proof.
  intros [Hs Hk Hh Hr Ho Ha Hl Hg] Ht. pose proof (discharged_bytes _ (through_cover t) p (cob_records o) (proj2 (proj1 Hs))) as Hdb. pose proof (discharged_live (through_cover t) p (cob_records o)) as Hd.
  pose proof (fun s q => through_owes _ t p (cob_records o) s q (proj1 Hs)) as How.
  constructor; unfold acked.
  - apply (discharged_settled _ _ o (fun o => with_ack_frontier p t (with_ack_source src (p, t) o))); [done|by intros []].
  - destruct o; simpl in *. intros s r Hi. apply discharged_keys in Hi as [r' Hi]. by eapply Hk.
  - destruct o; done.
  - destruct o; simpl in *. intros s q Hi. apply How in Hi as [Hi _]. by eapply Hr.
  - destruct o; simpl in *. intros s q Hi. apply How in Hi as [Hi _]. by eapply Ho.
  - intros s q Hob Hq Hn. unfold durable_ack_through in *.
    destruct o; simpl in *. rewrite How in Hn. destruct (decide (q = p)) as [->|Hne].
    + rewrite lookup_insert_eq. simpl. destruct (Z.leb_spec s t); [done|].
      opose proof (Ha s p Hob Hq _) as Hle; [|lia]. intros H1. apply Hn. split; [done|lia].
    + rewrite lookup_insert_ne by done. apply (Ha s q Hob Hq). intros H1. apply Hn. split; [done|tauto].
  - destruct o; simpl in *. lia.
  - destruct o; simpl in *. lia.
Qed.
Lemma retired_ok p o : outbox_ok o -> outbox_ok (retired p o).
Proof.
  intros [Hs Hk Hh Hr Ho Ha Hl Hg]. pose proof (discharged_bytes _ (fun _ => true) p (cob_records o) (proj2 (proj1 Hs))) as Hdb. pose proof (discharged_live (fun _ => true) p (cob_records o)) as Hd.
  constructor; unfold retired.
  - apply (discharged_settled _ _ o (with_retired p)); [done|by intros []].
  - destruct o; simpl in *. intros s r Hi. apply discharged_keys in Hi as [r' Hi]. by eapply Hk.
  - destruct o; done.
  - destruct o; simpl in *. intros s q Hi. apply retired_owes in Hi as [Hi Hne]. apply Hr in Hi. set_solver.
  - destruct o; simpl in *. intros s q Hi. apply retired_owes in Hi as [Hi _]. by eapply Ho.
  - intros s q Hob Hq Hn. unfold durable_ack_through in *. destruct o; simpl in *. rewrite retired_owes in Hn.
    apply (Ha s q Hob); [set_solver|]. intros H. apply Hn. split; [done|set_solver].
  - destruct o; simpl in *. lia.
  - destruct o; simpl in *. lia.
Qed.

(** A record that passed the validation of its batch. *)
Record fresh_record (o : ConversationOutbox) (r : ProjectedRecord) : Prop := {
  fresh_seq : cob_highest_delivery_seq o < pjr_delivery_seq r;
  fresh_sorted : StronglySorted Z.lt (pjr_recipients r);
  fresh_live : forall p, p ∈ pjr_recipients r -> p ∉ cob_retired o;
  fresh_bytes : 0 <= pjr_encoded_push_bytes r;
}.
Lemma live_rows_owes c r s p : owes (live_rows c r) s p <-> s = pjr_delivery_seq r /\ p ∈ pjr_recipients r.
Proof.
  unfold owes, live_rows. destruct (pjr_recipients r) as [|q l] eqn:E.
  - split; [by intros (? & [] & _)|]. intros [_ H]. by apply not_elem_of_nil in H.
  - rewrite <- E. clear E q l. split.
    + intros (x & [Hx|[]] & Hp). injection Hx as <- <-. simpl in Hp. by rewrite elem_of_list_to_set in Hp.
    + intros [-> H]. eexists. split; [by left|]. simpl. by rewrite elem_of_list_to_set.
Qed.
Lemma owes_app rows k s p : owes (rows ++ k) s p <-> owes rows s p \/ owes k s p.
Proof.
  unfold owes. split.
  - intros (r & H & Hp). apply in_app_or in H as [H|H]; [left|right]; by exists r.
  - intros [(r & H & Hp)|(r & H & Hp)]; exists r; (split; [apply in_or_app; tauto|done]).
Qed.
Lemma live_rows_keys c r s x : In (s, x) (live_rows c r) -> s = pjr_delivery_seq r.
Proof. unfold live_rows. destruct (pjr_recipients r); [done|]. intros [Hx|[]]. by injection Hx as <- _. Qed.
Lemma live_rows_ok c r : 0 <= pjr_encoded_push_bytes r -> rows_ok c (live_rows c r).
Proof.
  intros Hb. unfold live_rows. destruct (pjr_recipients r) as [|p l] eqn:E; [by repeat constructor|].
  split; [by repeat constructor|]. repeat constructor; try done. simpl. rewrite E. set_solver.
Qed.
Lemma rows_ok_app c rows k : rows_ok c rows -> rows_ok c k ->
  (forall s r s' r', In (s, r) rows -> In (s', r') k -> s < s') -> rows_ok c (rows ++ k).
Proof.
  intros [Hs Hf] [Hs' Hf'] Hlt. split; [|by apply Forall_app]. rewrite map_app.
  induction rows as [|[s r] rows IH]; simpl in *; [done|].
  apply StronglySorted_inv in Hs as [Hs Hh]. apply Forall_cons in Hf as [_ Hf].
  constructor; [eapply IH; eauto|]. apply Forall_app. split; [done|]. apply List.Forall_forall. intros x Hx.
  apply List.in_map_iff in Hx as ([s' r'] & <- & Hx). by eapply Hlt; [left|].
Qed.

Lemma live_rows_bytes c r : sum_bytes (live_rows c r) = sum_bytes (live_rows 0 r).
Proof. unfold live_rows. destruct (pjr_recipients r); [done|]. by rewrite !live_row_bytes. Qed.
Lemma installed_obliged r o p : obliged (installed r o) p
  = (if bool_decide (p ∈ pjr_recipients r) then {[pjr_delivery_seq r]} else ∅) ∪ obliged o p.
Proof.
  transitivity (default ∅ (add_obligations (pjr_delivery_seq r) (pjr_recipients r) (cob_all_obligations o) !! p));
    [by destruct o|apply add_obligations_spec].
Qed.
Lemma installed_frontier r o p : durable_ack_through (installed r o) p = durable_ack_through o p.
Proof.
  transitivity (default 0 (add_frontiers (pjr_recipients r) (cob_ack_frontiers o) !! p)); [by destruct o|apply add_frontiers_spec].
Qed.
Lemma installed_ok r o : outbox_ok o -> fresh_record o r ->
  sum_live (cob_records o) + Z.of_nat (length (pjr_recipients r)) <= max_live_recipient_obligations (cob_limits o) ->
  sum_bytes (cob_records o) + sum_bytes (live_rows 0 r) <= u64_max ->
  outbox_ok (installed r o).
Proof.
  intros [Hs Hk Hh Hr Ho Ha Hl Hg] [Fs Fo Fl Fb] Hb Hc.
  assert (Hlive : sum_live (cob_records o ++ live_rows (cob_conversation_id o) r)
                  = sum_live (cob_records o) + Z.of_nat (length (pjr_recipients r))).
  { by rewrite sum_live_app, live_rows_live. }
  assert (How : forall s p, owes (cob_records (installed r o)) s p
    <-> owes (cob_records o) s p \/ (s = pjr_delivery_seq r /\ p ∈ pjr_recipients r)).
  { intros s p. replace (cob_records (installed r o)) with (cob_records o ++ live_rows (cob_conversation_id o) r) by (by destruct o).
    by rewrite owes_app, live_rows_owes. }
  constructor.
  - apply settle_settled; [|lia]. replace (cob_conversation_id (registered r o)) with (cob_conversation_id o) by (by destruct o).
    apply rows_ok_app; [apply Hs|by apply live_rows_ok|]. intros s x s' x' H1 H2.
    apply Hk in H1. apply live_rows_keys in H2. lia.
  - intros s x. destruct o; simpl in *. intros Hi. apply in_app_or in Hi as [Hi|Hi]; [apply Hk in Hi|apply live_rows_keys in Hi]; lia.
  - destruct o; simpl in *. lia.
  - intros s p Hi. replace (cob_retired (installed r o)) with (cob_retired o) by (by destruct o).
    apply How in Hi as [Hi|[_ Hi]]; [by eapply Hr|by apply Fl].
  - intros s p Hi. rewrite installed_obliged. apply How in Hi as [Hi|[-> Hi]].
    + apply Ho in Hi. set_solver.
    + rewrite bool_decide_true by done. set_solver.
  - intros s p Hob Hq Hn. rewrite installed_frontier. rewrite installed_obliged in Hob. rewrite How in Hn.
    replace (cob_retired (installed r o)) with (cob_retired o) in Hq by (by destruct o).
    apply elem_of_union in Hob as [Hob|Hob]; [|apply Ha; tauto].
    case_bool_decide; [|set_solver]. apply elem_of_singleton in Hob. tauto.
  - replace (cob_limits (installed r o)) with (cob_limits o) by (by destruct o).
    replace (cob_records (installed r o)) with (cob_records o ++ live_rows (cob_conversation_id o) r) by (by destruct o). lia.
  - replace (cob_records (installed r o)) with (cob_records o ++ live_rows (cob_conversation_id o) r) by (by destruct o).
    by rewrite sum_bytes_app, live_rows_bytes.
Qed.

(** ** A produced batch *)

Definition batch_live (rs : list ProjectedRecord) : Z := sumZ (map (fun r => Z.of_nat (length (pjr_recipients r))) rs).
Definition batch_bytes (rs : list ProjectedRecord) : Z := sumZ (map (fun r => sum_bytes (live_rows 0 r)) rs).
Fixpoint chain (o : ConversationOutbox) (rs : list ProjectedRecord) : Prop :=
  match rs with [] => True | r :: rs => fresh_record o r /\ chain (installed r o) rs end.
Definition install_all (rs : list ProjectedRecord) (o : ConversationOutbox) : ConversationOutbox :=
  foldl (fun o r => installed r o) o rs.

Lemma batch_nonneg o rs : chain o rs -> 0 <= batch_live rs /\ 0 <= batch_bytes rs.
Proof.
  revert o. induction rs as [|r rs IH]; intros o; simpl; [done|]. intros [[_ _ _ Hb] H].
  apply IH in H as [H1 H2]. unfold batch_live, batch_bytes in *. simpl.
  assert (0 <= sum_bytes (live_rows 0 r)); [|lia]. unfold live_rows. destruct (pjr_recipients r); [done|].
  by rewrite live_row_bytes.
Qed.
Lemma installed_fields r o :
  cob_records (installed r o) = cob_records o ++ live_rows (cob_conversation_id o) r
  /\ cob_conversation_id (installed r o) = cob_conversation_id o
  /\ cob_limits (installed r o) = cob_limits o /\ cob_retired (installed r o) = cob_retired o
  /\ cob_highest_delivery_seq (installed r o) = pjr_delivery_seq r
  /\ cob_source_batches (installed r o) = cob_source_batches o
  /\ cob_ack_sources (installed r o) = cob_ack_sources o
  /\ cob_next_extension_sequence (installed r o) = cob_next_extension_sequence o.
Proof. by destruct o. Qed.
Lemma batch_live_cons r rs : batch_live (r :: rs) = Z.of_nat (length (pjr_recipients r)) + batch_live rs.
Proof. done. Qed.
Lemma batch_bytes_cons r rs : batch_bytes (r :: rs) = sum_bytes (live_rows 0 r) + batch_bytes rs.
Proof. done. Qed.
Lemma fresh_above o r : outbox_ok o -> fresh_record o r -> Forall (fun k => k < pjr_delivery_seq r) (map fst (cob_records o)).
Proof.
  intros Hok [Fs _ _ _]. apply List.Forall_forall. intros k Hk. apply List.in_map_iff in Hk as ([s x] & <- & Hk).
  apply (ok_keys _ Hok) in Hk. simpl. lia.
Qed.
Lemma install_records_spec rs : forall o, outbox_ok o -> chain o rs ->
  sum_live (cob_records o) + batch_live rs <= max_live_recipient_obligations (cob_limits o) ->
  sum_bytes (cob_records o) + batch_bytes rs <= u64_max ->
  install_records rs o = (install_all rs o, Ok tt) /\ outbox_ok (install_all rs o).
Proof.
  induction rs as [|r rs IH]; intros o Hok; cbn [chain install_records]; [done|]. intros [Hf Hc] Hl Hb.
  destruct (batch_nonneg _ _ Hc) as [N1 N2]. rewrite batch_live_cons in Hl. rewrite batch_bytes_cons in Hb.
  pose proof (ok_limit _ Hok). destruct (installed_fields r o) as (Er & _ & El & _).
  assert (Hok' : outbox_ok (installed r o)) by (apply installed_ok; [done|done|lia..]).
  destruct (IH (installed r o) Hok' Hc) as [E Hok2].
  - rewrite Er, El, sum_live_app, live_rows_live by apply Hf. lia.
  - rewrite Er, sum_bytes_app, live_rows_bytes. lia.
  - split; [|done]. unfold mbind, Ob_bind. rewrite install_record_spec; [done|apply Hok|apply Hf|by apply fresh_above|lia|].
    rewrite sum_bytes_app, live_rows_bytes. lia.
Qed.

(** The one way an installation fails: the charge of the live records passes [u64]. *)
Lemma install_record_overflow r o : settled o -> StronglySorted Z.lt (pjr_recipients r) ->
  sum_live (cob_records o) + Z.of_nat (length (pjr_recipients r)) <= u64_max ->
  sum_bytes (cob_records o) <= u64_max ->
  u64_max < sum_bytes (cob_records o) + sum_bytes (live_rows 0 r) ->
  exists o', install_record r o = (o', Err OBE_ChargeOverflow).
Proof.
  intros (_ & Hset & _) Hs Hl Hc Hb. destruct (settle_fields _ _ Hset) as (Hlo & Hco & Hno).
  unfold live_rows in Hb. destruct (pjr_recipients r) as [|p ps] eqn:Er.
  { change (sum_bytes []) with 0 in Hb. lia. }
  rewrite live_row_bytes in Hb. rewrite <- Er in *.
  unfold install_record, mbind, Ob_bind, ob_modify, ob_get, ob_lift. rewrite register_all. set (o1 := with_obligations _ _ _).
  assert (Hl1 : cob_live_recipient_obligations o1 = sum_live (cob_records o)) by (subst o1; rewrite <- Hlo; by destruct o).
  assert (Hc1 : forall v, cob_charged_bytes (with_live v o1) = sum_bytes (cob_records o)).
  { intros v. subst o1. rewrite <- Hco. by destruct o. }
  rewrite Hl1, checked_add_exact by done. cbn [ok_or]. rewrite (proj2 (is_empty_false _)) by (rewrite Er; set_solver).
  rewrite Hc1, (proj2 (checked_add_None _ _ _)) by lia. cbn [ok_or]. by eexists.
Qed.
Lemma install_records_overflow rs : forall o, outbox_ok o -> chain o rs ->
  sum_live (cob_records o) + batch_live rs <= max_live_recipient_obligations (cob_limits o) ->
  u64_max < sum_bytes (cob_records o) + batch_bytes rs ->
  exists o', install_records rs o = (o', Err OBE_ChargeOverflow).
Proof.
  induction rs as [|r rs IH]; intros o Hok; cbn [chain install_records].
  { intros _ _ H. pose proof (ok_charge _ Hok). change (batch_bytes []) with 0 in H. lia. }
  intros [Hf Hc] Hl Hb. rewrite batch_live_cons in Hl. rewrite batch_bytes_cons in Hb.
  destruct (batch_nonneg _ _ Hc) as [N1 N2]. pose proof (ok_limit _ Hok). pose proof (ok_charge _ Hok).
  destruct (installed_fields r o) as (Er & _ & El & _). unfold mbind, Ob_bind.
  destruct (Z.leb_spec (sum_bytes (cob_records o) + sum_bytes (live_rows 0 r)) u64_max) as [Hfit|Hfit].
  - rewrite install_record_spec; [|apply Hok|apply Hf|by apply fresh_above|lia|rewrite sum_bytes_app, live_rows_bytes; lia].
    apply IH; [apply installed_ok; [done|done|lia..]|done| |].
    + rewrite Er, El, sum_live_app, live_rows_live by apply Hf. lia.
    + rewrite Er, sum_bytes_app, live_rows_bytes. lia.
  - destruct (install_record_overflow r o) as [o' ->]; [apply Hok|apply Hf|lia|done|done|]. by eexists.
Qed.

(** What the validation of a batch establishes. *)
Fixpoint prepared (o : ConversationOutbox) (prev : Z) (rs : list ProjectedRecord) : Prop :=
  match rs with
  | [] => True
  | r :: rs =>
      (prev < pjr_delivery_seq r /\ StronglySorted Z.lt (pjr_recipients r)
       /\ (forall p, pjr_sender r = Some p -> p ∉ pjr_recipients r)
       /\ (forall p, p ∈ pjr_recipients r -> p ∉ cob_retired o) /\ 0 <= pjr_encoded_push_bytes r)
      /\ prepared o (pjr_delivery_seq r) rs
  end.
Lemma binary_search_spec l t : StronglySorted Z.lt l -> binary_search_is_ok l t = true <-> t ∈ l.
Proof.
  intros Hs. unfold binary_search_is_ok. rewrite list_elem_of_In. apply bisect_spec; [done|lia].
Qed.
Lemma snapshot_Ok r X : validate_record_snapshot r X = Ok tt ->
  StronglySorted Z.lt (pjr_recipients r) /\ (forall p, pjr_sender r = Some p -> p ∉ pjr_recipients r)
  /\ (forall p, p ∈ pjr_recipients r -> p ∉ X).
Proof.
  unfold validate_record_snapshot. destruct (unordered _) eqn:Eu; [done|]. apply unordered_sorted in Eu as Hs.
  assert (Hfind : match List.find (has X) (pjr_recipients r) with
    | Some participant_id => Err (OBE_RetiredRecipient (pjr_delivery_seq r) participant_id) | None => Ok tt end = Ok tt ->
    forall p, p ∈ pjr_recipients r -> p ∉ X).
  { destruct (List.find _ _) eqn:E; [done|]. intros _ p Hp. apply has_false. eapply List.find_none; [exact E|].
    by apply list_elem_of_In. }
  destruct (pjr_sender r) as [q|]; [|intros H; split_and!; auto; done].
  destruct (binary_search_is_ok _ q) eqn:Eb; [done|]. intros H. split_and!; auto.
  intros p [= <-] Hp. apply binary_search_spec in Hp; [congruence|done].
Qed.
Lemma push_bytes_nonneg c s body n : canonical_push_bytes c s body = Ok n -> 0 <= n.
Proof.
  unfold canonical_push_bytes. destruct (encoded_len _) as [m|] eqn:E; [|done]. simpl.
  apply encoded_len_spec in E as (bs & _ & -> & _). pose proof (blen_nonneg bs).
  destruct (_ <=? _); [|done]. intros [= <-]. lia.
Qed.
Lemma prepare_records_Ok o rs : forall prev rs', prepare_records o rs prev = Ok rs' -> rs' = rs /\ prepared o prev rs.
Proof.
  induction rs as [|r rs IH]; intros prev rs'; simpl; [by intros [= <-]|].
  destruct (validate_record_snapshot r _) as [[]|] eqn:Es; [|done]. apply snapshot_Ok in Es as (Hs & Hse & Hr).
  destruct (Z.leb_spec (pjr_delivery_seq r) prev); [done|]. destruct (is_some _); [done|].
  unfold ProjectedRecord_try_new. destruct (canonical_push_bytes _ _ _) as [n|] eqn:Ec; [|done]. simpl.
  destruct (Z.eqb_spec n (pjr_encoded_push_bytes r)) as [->|]; [|done]. simpl.
  apply push_bytes_nonneg in Ec. destruct (prepare_records o rs _) as [k|] eqn:E; [|done].
  intros [= <-]. apply IH in E as [-> Hp]. done.
Qed.

Definition leave_first (leaving : option Z) (o : ConversationOutbox) : ConversationOutbox :=
  match leaving with Some p => retired p o | None => o end.
Definition produced (src : Z) (canonical : list byte) (leaving : option Z) (rs : list ProjectedRecord)
    (o : ConversationOutbox) : ConversationOutbox :=
  install_all rs (leave_first leaving (with_source_batch src canonical o)).

(** The shape of a batch names whom it retires, and the sender it leaves out. *)
Lemma retiring_shape b p : validate_batch_shape b = Ok tt -> retiring_participant b = Ok (Some p) ->
  exists r, pdb_ordered_records b = [r] /\ pjr_sender r = Some p.
Proof.
  unfold validate_batch_shape, retiring_participant, body_and_sender_match. destruct (pdb_source_kind b); try done.
  destruct (pdb_ordered_records b) as [|r [|]]; try done. simpl. intros Hb. destruct (pjr_body r) eqn:E; try done.
  destruct (sender_is r _) eqn:Es; [|done]. apply bool_decide_eq_true in Es. intros [= <-]. by exists r.
Qed.
Lemma added_obligations_Ok rs : forall n m, added_obligations rs n = Ok m -> m = n + batch_live rs.
Proof.
  unfold batch_live. induction rs as [|r rs IH]; intros n m; simpl; [intros [= <-]; unfold sumZ; simpl; lia|].
  destruct (checked_add _ _ _) as [k|] eqn:E; [|done]. apply checked_add_Some in E as [-> _]. simpl. intros H.
  apply IH in H as ->. unfold sumZ; simpl. lia.
Qed.
Lemma filter_count p rows : StronglySorted Z.lt (map fst rows) ->
  Z.of_nat (length (List.filter (fun row : Z * LiveRecord => has (lvr_recipients row.2) p) rows))
  = sum_live rows - sum_live (discharged_rows (fun _ => true) p rows).
Proof.
  intros _. unfold discharged_rows. rewrite occupied_live. unfold sum_live, sumZ, stripped.
  induction rows as [|[s r] rows IH]; simpl; [done|]. rewrite strip_live. simpl.
  destruct (has _ p); simpl; lia.
Qed.
Lemma capacity_Ok o rs leaving : outbox_ok o -> ensure_live_obligation_capacity o rs leaving = Ok tt ->
  sum_live (cob_records (leave_first leaving o)) + batch_live rs <= max_live_recipient_obligations (cob_limits o).
Proof.
  intros Hok. destruct (ok_settled _ Hok) as ([Hs _] & Hset & _). destruct (settle_fields _ _ Hset) as (Hl & _ & _).
  unfold ensure_live_obligation_capacity. destruct (added_obligations rs 0) as [m|] eqn:Em; [|done].
  apply added_obligations_Ok in Em as ->. simpl. rewrite Hl.
  assert (E : match leaving with
    | Some p => Z.of_nat (length (List.filter (fun row => has (lvr_recipients row.2) p) (cob_records o)))
    | None => 0 end = sum_live (cob_records o) - sum_live (cob_records (leave_first leaving o))).
  { destruct leaving as [p|]; simpl; [|lia]. rewrite (filter_count p _ Hs). destruct o; simpl in *. lia. }
  rewrite E. destruct (_ <=? _); [|done].
  destruct (checked_add _ _ _) as [k|] eqn:Ek; [|done]. apply checked_add_Some in Ek as [-> _]. simpl.
  destruct (Z.ltb_spec (max_live_recipient_obligations (cob_limits o))
    (sum_live (cob_records o) - (sum_live (cob_records o) - sum_live (cob_records (leave_first leaving o))) + (0 + batch_live rs)));
    [done|]. intros _. lia.
Qed.

Lemma prepared_chain o rs : forall o' prev, cob_highest_delivery_seq o' = prev ->
  (forall p r, In r rs -> p ∈ pjr_recipients r -> p ∉ cob_retired o -> p ∉ cob_retired o') ->
  prepared o prev rs -> chain o' rs.
Proof.
  induction rs as [|r rs IH]; intros o' prev Hh Hr; simpl; [done|]. intros [(H1 & H2 & _ & H4 & H5) Hp].
  destruct (installed_fields r o') as (_ & _ & _ & Ert & Ehi & _). split.
  - constructor; try done; [lia|]. intros p Hin. apply (Hr p r); [by left|done|by apply H4].
  - apply (IH _ (pjr_delivery_seq r)); [done| |done]. intros p x Hx. rewrite Ert. apply Hr. by right.
Qed.
Lemma leave_first_ok leaving o : outbox_ok o -> outbox_ok (leave_first leaving o).
Proof. destruct leaving; [apply retired_ok|done]. Qed.
Lemma settled_same o o' : settled o -> cob_conversation_id o' = cob_conversation_id o -> cob_records o' = cob_records o ->
  cob_live_recipient_obligations o' = cob_live_recipient_obligations o -> cob_charged_bytes o' = cob_charged_bytes o ->
  cob_next_live_obligations o' = cob_next_live_obligations o -> settled o'.
Proof.
  intros (H1 & H2 & H3) E1 E2 E3 E4 E5. destruct (settle_fields _ _ H2) as (F1 & F2 & F3).
  unfold settled. rewrite E1, E2. split_and!; try done. destruct o, o'; simpl in *. unfold settle_rows; simpl. congruence.
Qed.
Lemma source_batch_ok k v o : outbox_ok o -> outbox_ok (with_source_batch k v o).
Proof. intros [H1 H2 H3 H4 H5 H6 H7 H8]. constructor; [by apply (settled_same o); destruct o|by destruct o..]. Qed.
Lemma discharge_retired_spec p o : settled o -> discharge_retired p o = (retired p o, Ok tt).
Proof.
  intros Hs. unfold discharge_retired, mbind, Ob_bind, ob_modify, retired.
  rewrite discharge_records_spec; [by destruct o|]. by apply (settled_same o); destruct o.
Qed.
Lemma leave_first_fields leaving o :
  cob_highest_delivery_seq (leave_first leaving o) = cob_highest_delivery_seq o
  /\ cob_limits (leave_first leaving o) = cob_limits o
  /\ cob_conversation_id (leave_first leaving o) = cob_conversation_id o
  /\ cob_retired (leave_first leaving o) = match leaving with Some p => {[p]} ∪ cob_retired o | None => cob_retired o end
  /\ cob_source_batches (leave_first leaving o) = cob_source_batches o
  /\ cob_ack_sources (leave_first leaving o) = cob_ack_sources o
  /\ cob_next_extension_sequence (leave_first leaving o) = cob_next_extension_sequence o.
Proof. by destruct leaving, o. Qed.

Definition leaving (b : ProducedBatch) : option Z := default None (ok (retiring_participant b)).
Definition installs (b : ProducedBatch) (o o' : ConversationOutbox) : Prop :=
  cob_source_batches o !! pdb_source_log_sequence b = None
  /\ (exists canonical, encode_row (OXR_Produced b) = Ok canonical
      /\ o' = produced (pdb_source_log_sequence b) canonical (leaving b) (pdb_ordered_records b) o)
  /\ prepared o (cob_highest_delivery_seq o) (pdb_ordered_records b)
  /\ (forall p r, leaving b = Some p -> In r (pdb_ordered_records b) -> p ∉ pjr_recipients r).
Definition repeats (b : ProducedBatch) (o : ConversationOutbox) : Prop :=
  exists canonical, encode_row (OXR_Produced b) = Ok canonical
    /\ cob_source_batches o !! pdb_source_log_sequence b = Some canonical.

Lemma prepared_sender o rs prev r p : prepared o prev rs -> In r rs -> pjr_sender r = Some p -> p ∉ pjr_recipients r.
Proof. revert prev. induction rs as [|x rs IH]; intros prev; [done|]. intros [H Hp] [->|Hi]; [by apply H|by eapply IH]. Qed.

(** The charge of the live records once the batch is installed. *)
Definition charge_after (b : ProducedBatch) (o : ConversationOutbox) : Z :=
  sum_bytes (cob_records (leave_first (leaving b) o)) + batch_bytes (pdb_ordered_records b).
Lemma apply_produced_cases b o o' r : outbox_ok o -> apply_produced b o = (o', r) ->
  (o' = o /\ exists e, r = Err e) \/ (r = Ok tt /\ o' = o /\ repeats b o)
  \/ (r = Ok tt /\ outbox_ok o' /\ installs b o o')
  \/ (r = Err OBE_ChargeOverflow /\ u64_max < charge_after b o).
Proof.
  intros Hok. unfold apply_produced, mbind, Ob_bind, ob_lift, ob_get, ob_modify.
  destruct (validate_batch_shape b) as [[]|e] eqn:Ev; [|intros [= <- <-]; eauto].
  destruct (encode_row _) as [canonical|e] eqn:Ee; simpl; [|intros [= <- <-]; eauto].
  destruct (cob_source_batches o !! _) as [existing|] eqn:Es.
  { case_bool_decide as Hc; intros [= <- <-]; [|eauto]. right; left. subst. by repeat split; exists canonical. }
  destruct (prepare_records _ _ _) as [rs|e] eqn:Ep; [|intros [= <- <-]; eauto].
  apply prepare_records_Ok in Ep as [-> Hp].
  destruct (retiring_participant b) as [lv|e] eqn:El; [|intros [= <- <-]; eauto].
  destruct (ensure_live_obligation_capacity _ _ _) as [[]|e] eqn:Ec; [|intros [= <- <-]; eauto].
  assert (Hlv : leaving b = lv) by (unfold leaving; by rewrite El).
  assert (Hout : forall p x, lv = Some p -> In x (pdb_ordered_records b) -> p ∉ pjr_recipients x).
  { intros p x -> Hx. destruct (retiring_shape _ _ Ev El) as (y & Ey & Hy). rewrite Ey in Hx, Hp.
    destruct Hx as [->|[]]. eapply prepared_sender; [exact Hp|by left|done]. }
  set (o1 := with_source_batch _ canonical o). assert (Hok1 : outbox_ok o1) by (by apply source_batch_ok).
  assert (E1 : match lv with Some p => discharge_retired p | None => mret tt end o1 = (leave_first lv o1, Ok tt)).
  { destruct lv as [p|]; [apply discharge_retired_spec, Hok1|done]. }
  rewrite E1. intros Hi. right; right.
  destruct (leave_first_fields lv o1) as (Fh & Fl & _ & Fr & _).
  assert (Hch : chain (leave_first lv o1) (pdb_ordered_records b)).
  { apply (prepared_chain o _ _ (cob_highest_delivery_seq o)); [rewrite Fh; subst o1; by destruct o| |done].
    intros p x Hx Hpx Hn. rewrite Fr. subst o1. destruct lv as [q|]; [|by destruct o].
    assert (q ∉ pjr_recipients x) by (by apply Hout). destruct o; simpl in *. set_solver. }
  assert (Hlive : sum_live (cob_records (leave_first lv o1)) + batch_live (pdb_ordered_records b)
                  <= max_live_recipient_obligations (cob_limits (leave_first lv o1))).
  { pose proof (capacity_Ok o _ lv Hok Ec) as Hlive. rewrite Fl. subst o1. destruct lv, o; simpl in *; lia. }
  assert (Hch' : charge_after b o = sum_bytes (cob_records (leave_first lv o1)) + batch_bytes (pdb_ordered_records b)).
  { unfold charge_after. rewrite Hlv. subst o1. by destruct lv, o. }
  destruct (Z.leb_spec (charge_after b o) u64_max) as [Hb|Hb]; rewrite Hch' in *.
  - left. destruct (install_records_spec (pdb_ordered_records b) (leave_first lv o1)) as [Hr Hok2];
      [by apply leave_first_ok|done..|].
    rewrite Hr in Hi. injection Hi as <- <-. split_and!; [done|done|]. unfold installs. rewrite Hlv.
    split_and!; try done. exists canonical. done.
  - right. destruct (install_records_overflow (pdb_ordered_records b) (leave_first lv o1)) as [o2 Hr];
      [by apply leave_first_ok|done..|]. rewrite Hr in Hi. by injection Hi as <- <-.
Qed.

(** ** One row *)

Definition overcharged (row : OutboxRow) (o : ConversationOutbox) : Prop :=
  match row with OXR_Produced b => u64_max < charge_after b o | _ => False end.
Definition marker_cursor (o : ConversationOutbox) (p : Z) : Z :=
  Z.max (durable_ack_through o p) (default (durable_ack_through o p) (cob_marker_ack_frontiers o !! p)).
Definition row_effect (row : OutboxRow) (o o' : ConversationOutbox) : Prop :=
  match row with
  | OXR_Produced b => (o' = o /\ repeats b o) \/ installs b o o'
  | OXR_AckAdvanced src p t =>
      (o' = o /\ cob_ack_sources o !! src = Some (p, t))
      \/ (cob_ack_sources o !! src = None /\ durable_ack_through o p < t /\ o' = acked src p t o)
  | OXR_MarkerAckCommitted m =>
      let p := ma_participant_id (sma_request m) in
      sma_from_cursor m = marker_cursor o p /\ sma_from_cursor m < sma_resulting_cursor m
      /\ o' = with_marker_frontier p (sma_resulting_cursor m) o
  end.
Lemma apply_ack_spec src p t o : outbox_ok o ->
  apply_ack src p t o =
    match cob_ack_sources o !! src with
    | Some existing => if bool_decide (existing = (p, t)) then (o, Ok tt) else (o, Err (OBE_ConflictingAckSource src))
    | None => if t <=? durable_ack_through o p then (o, Err (OBE_AckRegression p (durable_ack_through o p) t))
              else (acked src p t o, Ok tt)
    end.
Proof.
  intros Hok. unfold apply_ack, mbind, Ob_bind, ob_get, ob_lift, ob_modify.
  destruct (cob_ack_sources o !! src) as [x|]; [by case_bool_decide|]. destruct (t <=? _); [done|].
  unfold discharge_through. rewrite discharge_records_spec; [by destruct o|].
  apply (settled_same o); [apply Hok|by destruct o..].
Qed.
Lemma marker_ok p v o : outbox_ok o -> outbox_ok (with_marker_frontier p v o).
Proof. intros [H1 H2 H3 H4 H5 H6 H7 H8]. constructor; [by apply (settled_same o); destruct o|by destruct o..]. Qed.
Lemma next_extension_ok v o : outbox_ok o -> outbox_ok (with_next_extension v o).
Proof. intros [H1 H2 H3 H4 H5 H6 H7 H8]. constructor; [by apply (settled_same o); destruct o|by destruct o..]. Qed.
Lemma effect_next row o o' : row_effect row o o' -> cob_next_extension_sequence o' = cob_next_extension_sequence o.
Proof.
  destruct row as [b|src p t|m]; simpl.
  - intros [[-> _]|(_ & (canonical & _ & ->) & _)]; [done|]. unfold produced, install_all.
    assert (H : forall rs x, cob_next_extension_sequence (foldl (fun o r => installed r o) x rs) = cob_next_extension_sequence x).
    { induction rs as [|r rs IH]; intros x; simpl; [done|]. rewrite IH. by destruct x. }
    rewrite H. by destruct (leaving b), o.
  - intros [[-> _]|(_ & _ & ->)]; [done|]. by destruct o.
  - intros (_ & _ & ->). by destruct o.
Qed.
(** The operation of a row, and the step of the physical sequence after it. *)
Definition row_op (row : OutboxRow) : Ob unit :=
  match row with
  | OXR_Produced b => apply_produced b
  | OXR_AckAdvanced src p t => apply_ack src p t
  | OXR_MarkerAckCommitted m => outbox_apply_marker_ack m
  end.
Definition row_check (n : Z) (row : OutboxRow) : Ob unit :=
  match row with
  | OXR_MarkerAckCommitted m =>
      if negb (sma_extension_sequence m =? n)
      then ob_lift (Err (OBE_ExtensionSequence n (sma_extension_sequence m))) else mret tt
  | _ => mret tt
  end.
Lemma row_op_cases row o o1 r1 : outbox_ok o -> row_op row o = (o1, r1) ->
  (o1 = o /\ exists e, r1 = Err e) \/ (r1 = Ok tt /\ row_effect row o o1 /\ outbox_ok o1)
  \/ (r1 = Err OBE_ChargeOverflow /\ overcharged row o).
Proof.
  intros Hok. destruct row as [b|src p t|m]; cbn [overcharged row_op row_effect] in *.
  - intros E. destruct (apply_produced_cases _ _ _ _ Hok E) as [H|[(-> & -> & Hr)|[(-> & Hok1 & Hi)|H]]]; tauto.
  - rewrite (apply_ack_spec _ _ _ _ Hok). destruct (cob_ack_sources o !! src) as [x|] eqn:Es.
    + case_bool_decide as Hx; intros [= <- <-]; [subst; right; tauto|eauto].
    + destruct (Z.leb_spec t (durable_ack_through o p)); intros [= <- <-]; [eauto|right; left].
      split_and!; [done|by right|by apply acked_ok].
  - unfold outbox_apply_marker_ack, mbind, Ob_bind, ob_get, ob_lift, ob_modify.
    match goal with |- context [sma_from_cursor m =? ?x] => change x with (marker_cursor o (ma_participant_id (sma_request m))) end.
    destruct (Z.eqb_spec (sma_from_cursor m) (marker_cursor o (ma_participant_id (sma_request m)))) as [E|E]; simpl negb; cbv iota; [|intros [= <- <-]; eauto].
    destruct (Z.leb_spec (sma_resulting_cursor m) (sma_from_cursor m)); intros [= <- <-]; [eauto|right; left].
    split_and!; [done|done|done|done|by apply marker_ok].
Qed.
Lemma apply_row_cases n row o o' r : outbox_ok o -> apply_row n row o = (o', r) ->
  (o' = o /\ exists e, r = Err e)
  \/ (r = Ok tt /\ n = cob_next_extension_sequence o /\ n < u64_max
      /\ exists o1, row_effect row o o1 /\ outbox_ok o1 /\ o' = with_next_extension (n + 1) o1)
  \/ (r <> Ok tt /\ (overcharged row o \/ u64_max <= cob_next_extension_sequence o)).
Proof.
  intros Hok. unfold apply_row. fold (row_check n row). fold (row_op row). unfold mbind, Ob_bind, ob_get, ob_lift, ob_modify.
  destruct (Z.eqb_spec n (cob_next_extension_sequence o)) as [En|]; cbv beta iota delta [negb]; [|intros [= <- <-]; eauto].
  destruct (row_check n row o) as [o0 r0] eqn:E0.
  assert (o0 = o) as -> by (unfold row_check in E0; destruct row as [| |m]; [| |destruct (negb _)]; by injection E0).
  destruct r0 as [u|e]; [|intros [= <- <-]; eauto].
  destruct (row_op row o) as [o1 r1] eqn:E1.
  destruct (row_op_cases _ _ _ _ Hok E1) as [[-> [e ->]]|[(-> & He & Hok1)|[-> Ho]]];
    [intros [= <- <-]; eauto| |intros [= <- <-]; right; right; split; [done|tauto]].
  rewrite (effect_next _ _ _ He). unfold checked_add. destruct (Z.leb_spec (cob_next_extension_sequence o + 1) u64_max); cbn [ok_or];
    intros [= <- <-]; [right; left|right; right; split; [done|lia]].
  split_and!; [done|done|lia|]. exists o1. by rewrite En.
Qed.
