(* ===== verification/OutboxLedger.v ===== *)
(** * The ledger of the outbox and the views of it

    The specification of the delivery outbox: a ledger folded from the rows alone.  The
    owner restored from the rows keeps exactly the counters, indexes and selections of
    the ledger, refuses a row without changing, offers a participant exactly the
    obligations an acknowledgement can name, and accepts those acknowledgements. *)
From stdpp Require Import gmap sorting strings.
From coqutil Require Import Byte.
From S2P Require Import Prelude OutboxRuns Outbox OutboxCodec Wire Bytes FrameCodec Cursor.
#[local] Open Scope Z_scope.
#[local] Open Scope list_scope.

(** ** The specification *)

Record Ledger := mkLedger {
  ld_owed : gset (Z * Z);
  ld_published : gmap Z ProjectedRecord;
  ld_sources : gset Z;
  ld_acks : gset Z;
}.
Definition ledger_empty : Ledger := mkLedger ∅ ∅ ∅ ∅.
Definition publish (L : Ledger) (r : ProjectedRecord) : Ledger :=
  mkLedger (ld_owed L ∪ list_to_set (map (fun p => (pjr_delivery_seq r, p)) (pjr_recipients r)))
    (<[pjr_delivery_seq r := r]> (ld_published L)) (ld_sources L) (ld_acks L).
Definition leaver (b : ProducedBatch) : option Z :=
  match pdb_source_kind b, pdb_ordered_records b with
  | PSK_Left, r :: _ => match pjr_body r with PR_Left p _ => Some p | _ => None end
  | _, _ => None
  end.
(** A source or an acknowledgement counts once; a leave settles all that is owed to the
    leaver, an acknowledgement what is owed to its participant up to its sequence. *)
Definition ledger_row (L : Ledger) (row : OutboxRow) : Ledger :=
  match row with
  | OXR_Produced b =>
      if bool_decide (pdb_source_log_sequence b ∈ ld_sources L) then L
      else foldl publish
             (mkLedger (filter (fun x => leaver b ≠ Some x.2) (ld_owed L)) (ld_published L)
                ({[pdb_source_log_sequence b]} ∪ ld_sources L) (ld_acks L))
             (pdb_ordered_records b)
  | OXR_AckAdvanced src p t =>
      if bool_decide (src ∈ ld_acks L) then L
      else mkLedger (filter (fun x => ~ (x.1 <= t /\ x.2 = p)) (ld_owed L)) (ld_published L)
             (ld_sources L) ({[src]} ∪ ld_acks L)
  | OXR_MarkerAckCommitted _ => L
  end.
Definition ledger (rows : list OutboxRow) : Ledger := foldl ledger_row ledger_empty rows.

(** The sequences owed to [p] after [t], ascending; what is offered next; who is owed
    anything; and the bytes of the records that are owed to someone. *)
Definition owed_after (L : Ledger) (p t : Z) : list Z :=
  merge_sort Z.le (elements (set_map fst (filter (fun x => x.2 = p /\ t < x.1) (ld_owed L)) : gset Z)).
Definition offer (c : Z) (L : Ledger) (p t : Z) : option ParticipantDelivery :=
  s ← head (owed_after L p t); r ← ld_published L !! s; Some (into_delivery r c).
Definition creditors (L : Ledger) : list Z := merge_sort Z.le (elements (set_map snd (ld_owed L) : gset Z)).
Definition ledger_bytes (L : Ledger) : Z :=
  sumZ (map (fun s => match ld_published L !! s with Some r => pjr_encoded_push_bytes r | None => 0 end)
          (elements (set_map fst (ld_owed L) : gset Z))).

(** ** The owner tracks the ledger *)

Record tracks (o : ConversationOutbox) (L : Ledger) : Prop := {
  tr_owed : forall s p, (s, p) ∈ ld_owed L <-> owes (cob_records o) s p;
  tr_published : forall s r, In (s, r) (cob_records o) -> exists x, ld_published L !! s = Some x
    /\ lvr_delivery r = into_delivery x (cob_conversation_id o)
    /\ lvr_encoded_push_bytes r = pjr_encoded_push_bytes x;
  tr_sources : forall k, k ∈ ld_sources L <-> is_Some (cob_source_batches o !! k);
  tr_acks : forall k, k ∈ ld_acks L <-> is_Some (cob_ack_sources o !! k);
}.

Lemma leaver_leaving b : leaving b = leaver b.
Proof.
  unfold leaving, leaver, retiring_participant. destruct (pdb_source_kind b); try done.
  destruct (pdb_ordered_records b) as [|r l]; [done|]. simpl. by destruct (pjr_body r).
Qed.
Lemma tracks_installed r o L : tracks o L -> Forall (fun k => k < pjr_delivery_seq r) (map fst (cob_records o)) ->
  tracks (installed r o) (publish L r).
Proof.
  intros [Ho Hp Hs Ha] Hk. destruct (installed_fields r o) as (Er & Ec & _ & _ & _ & Es & Ea & _).
  constructor; rewrite ?Er, ?Ec, ?Es, ?Ea; cbn [publish ld_owed ld_published ld_sources ld_acks]; try done.
  - intros s p. rewrite elem_of_union, Ho, owes_app, live_rows_owes, elem_of_list_to_set, list_elem_of_In, List.in_map_iff.
    rewrite list_elem_of_In. split; intros [H|H]; [by left|right|by left|right].
    + destruct H as (q & [= <- <-] & Hq). done.
    + destruct H as [-> Hq]. by exists p.
  - intros s x Hx. apply in_app_or in Hx as [Hx|Hx].
    + rewrite lookup_insert_ne; [by apply Hp|]. rewrite List.Forall_forall in Hk.
      apply (List.in_map fst) in Hx. apply Hk in Hx. simpl in Hx. lia.
    + unfold live_rows in Hx. destruct (pjr_recipients r); [done|]. destruct Hx as [Hx|[]]. injection Hx as <- <-.
      exists r. by rewrite lookup_insert_eq.
Qed.
Lemma tracks_all o0 rs : forall o L prev, prepared o0 prev rs -> cob_highest_delivery_seq o = prev ->
  Forall (fun k => k <= prev) (map fst (cob_records o)) -> tracks o L ->
  tracks (install_all rs o) (foldl publish L rs).
Proof.
  induction rs as [|r rs IH]; intros o L prev; [done|]. intros [(Hlt & _) Hp] Hh Hk Ht.
  destruct (installed_fields r o) as (Er & _ & _ & _ & Eh & _). simpl.
  apply (IH _ _ (pjr_delivery_seq r)); [done|done| |apply tracks_installed; [done|]].
  - rewrite Er, map_app. apply Forall_app. split; [eapply Forall_impl; [exact Hk|simpl; lia]|].
    unfold live_rows. destruct (pjr_recipients r); repeat constructor; simpl; lia.
  - eapply Forall_impl; [exact Hk|simpl; lia].
Qed.
Lemma published_discharged covered p o L f s r : tracks o L -> cob_conversation_id (f o) = cob_conversation_id o ->
  In (s, r) (discharged_rows covered p (cob_records o)) ->
  exists x, ld_published L !! s = Some x /\ lvr_delivery r = into_delivery x (cob_conversation_id (f o))
    /\ lvr_encoded_push_bytes r = pjr_encoded_push_bytes x.
Proof.
  intros [_ Hp _ _] -> Hi. apply discharged_In in Hi as (r0 & Hi & -> & _). rewrite strip_delivery, strip_bytes. by apply Hp.
Qed.
Lemma is_Some_insert {A} (m : gmap Z A) k v j : is_Some (<[k := v]> m !! j) <-> j = k \/ is_Some (m !! j).
Proof.
  destruct (decide (j = k)) as [->|Hne]; [rewrite lookup_insert_eq; split; [by left|by eexists]|].
  rewrite lookup_insert_ne by done. tauto.
Qed.

Lemma tracks_acked src p t o L : outbox_ok o -> tracks o L -> cob_ack_sources o !! src = None ->
  tracks (acked src p t o) (ledger_row L (OXR_AckAdvanced src p t)).
Proof.
  intros Hok Ht Hn. pose proof (fun s q => through_owes _ t p (cob_records o) s q (proj1 (ok_settled _ Hok))) as How.
  simpl. rewrite bool_decide_false; [|rewrite (tr_acks _ _ Ht), Hn; by intros [? ?]].
  constructor; simpl.
  - intros s q. replace (cob_records (acked src p t o)) with (discharged_rows (through_cover t) p (cob_records o)) by (by destruct o).
    rewrite How, elem_of_filter, (tr_owed _ _ Ht). simpl. tauto.
  - intros s r Hi. assert (Hi' : In (s, r) (discharged_rows (through_cover t) p (cob_records o))) by (by destruct o).
    apply (published_discharged _ _ o L (fun o => acked src p t o) _ _ Ht) in Hi'; [done|by destruct o].
  - intros k. rewrite (tr_sources _ _ Ht). by destruct o.
  - intros k. rewrite elem_of_union, elem_of_singleton, (tr_acks _ _ Ht), <- (is_Some_insert _ _ (p, t)). by destruct o.
Qed.
Lemma tracks_produced b o o' L : outbox_ok o -> tracks o L -> installs b o o' -> tracks o' (ledger_row L (OXR_Produced b)).
Proof.
  intros Hok Ht (Hn & (canonical & _ & ->) & Hp & _). simpl.
  rewrite bool_decide_false; [|rewrite (tr_sources _ _ Ht), Hn; by intros [? ?]]. rewrite <- leaver_leaving.
  set (o1 := leave_first (leaving b) (with_source_batch (pdb_source_log_sequence b) canonical o)).
  assert (Hrows : forall s r, In (s, r) (cob_records o1) -> exists r', In (s, r') (cob_records o)).
  { intros s r. subst o1. destruct (leaving b), o; simpl; intros Hi; [by apply discharged_keys in Hi|by exists r]. }
  apply (tracks_all o _ _ _ (cob_highest_delivery_seq o)); [done|subst o1; by destruct (leaving b), o| |].
  { apply List.Forall_forall. intros k Hk. apply List.in_map_iff in Hk as ([s x] & <- & Hk).
    apply Hrows in Hk as [r' Hk]. apply (ok_keys _ Hok) in Hk. simpl. lia. }
  fold o1. constructor; cbn [ld_owed ld_published ld_sources ld_acks].
  - intros s q. rewrite elem_of_filter, (tr_owed _ _ Ht). cbn [snd]. subst o1.
    destruct (leaving b) as [p|]; [|destruct o; simpl; intuition congruence].
    transitivity (owes (discharged_rows (fun _ => true) p (cob_records o)) s q); [|by destruct o].
    rewrite retired_owes. intuition congruence.
  - intros s r Hi. subst o1. destruct (leaving b) as [p|]; [|pose proof (tr_published _ _ Ht) as Hpub; destruct o; simpl in *; by apply Hpub].
    assert (Hi' : In (s, r) (discharged_rows (fun _ => true) p (cob_records o))) by (by destruct o).
    apply (published_discharged _ _ o L (fun o => leave_first (Some p) (with_source_batch (pdb_source_log_sequence b) canonical o)) _ _ Ht)
      in Hi'; [done|by destruct o].
  - intros k. rewrite elem_of_union, elem_of_singleton, (tr_sources _ _ Ht), <- (is_Some_insert _ _ canonical).
    subst o1. by destruct (leaving b), o.
  - intros k. rewrite (tr_acks _ _ Ht). subst o1. by destruct (leaving b), o.
Qed.
Lemma tracks_row row o o1 v L : outbox_ok o -> tracks o L -> row_effect row o o1 ->
  tracks (with_next_extension v o1) (ledger_row L row).
Proof.
  intros Hok Ht He. assert (Ht1 : tracks o1 (ledger_row L row)).
  { destruct row as [b|src p t|m]; cbn [row_effect] in He.
    - destruct He as [[-> (canonical & _ & Hc)]|He]; [|by apply (tracks_produced _ o)].
      simpl. rewrite bool_decide_true; [done|]. rewrite (tr_sources _ _ Ht), Hc. by eexists.
    - destruct He as [[-> Hc]|(Hc & _ & ->)]; [|by apply tracks_acked].
      simpl. rewrite bool_decide_true; [done|]. rewrite (tr_acks _ _ Ht), Hc. by eexists.
    - destruct He as (_ & _ & ->). destruct Ht. constructor; by destruct o. }
  destruct Ht1. constructor; by destruct o1.
Qed.

(** ** Runs *)

Lemma empty_ok c limits : u64 (max_live_recipient_obligations limits) -> outbox_ok (empty_outbox c limits).
Proof.
  intros [H1 H2]. constructor; try done.
  - repeat split; try done; simpl; constructor.
  - by intros s p (r & [] & _).
Qed.
Lemma empty_tracks c limits : tracks (empty_outbox c limits) ledger_empty.
Proof.
  constructor; simpl; try done.
  - intros s p. split; [set_solver|by intros (r & [] & _)].
  - intros k. rewrite lookup_empty. split; [set_solver|by intros [? ?]].
  - intros k. rewrite lookup_empty. split; [set_solver|by intros [? ?]].
Qed.
Record reached (c : Z) (rows : list OutboxRow) (o : ConversationOutbox) : Prop := {
  rc_ok : outbox_ok o;
  rc_tracks : tracks o (ledger rows);
  rc_next : cob_next_extension_sequence o = Z.of_nat (length rows);
  rc_conversation : cob_conversation_id o = c;
}.
Lemma effect_conversation row o o1 : row_effect row o o1 -> cob_conversation_id o1 = cob_conversation_id o.
Proof.
  destruct row as [b|src p t|m]; simpl.
  - intros [[-> _]|(_ & (canonical & _ & ->) & _)]; [done|]. unfold produced, install_all.
    assert (H : forall rs x, cob_conversation_id (foldl (fun o r => installed r o) x rs) = cob_conversation_id x).
    { induction rs as [|r rs IH]; intros x; simpl; [done|]. rewrite IH. by destruct x. }
    rewrite H. by destruct (leaving b), o.
  - intros [[-> _]|(_ & _ & ->)]; [done|]. by destruct o.
  - intros (_ & _ & ->). by destruct o.
Qed.
Lemma reached_row c rows row n o o' : reached c rows o -> apply_row n row o = (o', Ok tt) -> reached c (rows ++ [row]) o'.
Proof.
  intros [Hok Ht Hn Hc] H. destruct (apply_row_cases _ _ _ _ _ Hok H) as [[_ [e ?]]|[(_ & -> & Hlt & o1 & He & Hok1 & ->)|[? _]]]; try done.
  constructor.
  - by apply next_extension_ok.
  - unfold ledger. rewrite foldl_app. by apply (tracks_row _ o).
  - rewrite length_app, Nat2Z.inj_add, <- Hn. by destruct o1.
  - rewrite <- Hc, <- (effect_conversation _ _ _ He). by destruct o1.
Qed.
Lemma reached_rows c rows : forall hist o o', reached c hist o -> apply_rows rows o = (o', Ok tt) ->
  reached c (hist ++ map snd rows) o'.
Proof.
  induction rows as [|[n row] rows IH]; intros hist o o' Hr; simpl.
  - intros [= <-]. by rewrite app_nil_r.
  - unfold mbind, Ob_bind. destruct (apply_row n row o) as [o1 [[]|e]] eqn:E; [|done]. intros H.
    apply (reached_row _ _ _ _ _ _ Hr) in E. apply (IH _ _ _ E) in H. by rewrite <- app_assoc in H.
Qed.
Lemma restore_reached c rows limits o : u64 (max_live_recipient_obligations limits) ->
  restore_outbox c rows limits = Ok o -> reached c (map snd rows) o.
Proof.
  intros Hl. unfold restore_outbox. destruct (apply_rows rows _) as [o1 [[]|e]] eqn:E; [|done]. intros [= <-].
  eapply (reached_rows c rows []); [|exact E]. constructor; [by apply empty_ok|apply empty_tracks|done|done].
Qed.

(** ** The views *)

Definition seqs (rows : Rows) (p t : Z) : list Z :=
  map fst (List.filter (fun row => (t <? row.1) && has (lvr_recipients row.2) p) rows).
Lemma sorted_le l : StronglySorted Z.lt l -> StronglySorted Z.le l.
Proof. induction 1 as [|a l _ IH Hf]; constructor; [done|]. eapply Forall_impl; [exact Hf|simpl; lia]. Qed.
Lemma sorted_elements (X : gset Z) l : StronglySorted Z.lt l -> (forall x, x ∈ X <-> In x l) ->
  merge_sort Z.le (elements X) = l.
Proof.
  intros Hs HX. apply (StronglySorted_unique Z.le); [apply (StronglySorted_merge_sort Z.le)|by apply sorted_le|].
  rewrite merge_sort_Permutation. apply NoDup_Permutation; [apply NoDup_elements|by apply sorted_nodup|].
  intros x. by rewrite elem_of_elements, HX, list_elem_of_In.
Qed.
Lemma seqs_sorted rows p t : StronglySorted Z.lt (map fst rows) -> StronglySorted Z.lt (seqs rows p t).
Proof. apply sorted_filter. Qed.
Lemma seqs_In rows p t s : In s (seqs rows p t) <-> t < s /\ owes rows s p.
Proof.
  unfold seqs, owes. rewrite List.in_map_iff. split.
  - intros ([k r] & <- & H). apply List.filter_In in H as [Hi H]. simpl in *. apply andb_true_iff in H as [H1 H2].
    apply Z.ltb_lt in H1. apply has_true in H2. split; [done|]. by exists r.
  - intros [Hlt (r & Hi & Hp)]. exists (s, r). split; [done|]. apply List.filter_In. simpl. split; [done|].
    rewrite (proj2 (Z.ltb_lt t s) Hlt). by apply has_true.
Qed.
Lemma owed_after_seqs o L p t : outbox_ok o -> tracks o L -> owed_after L p t = seqs (cob_records o) p t.
Proof.
  intros Hok Ht. apply sorted_elements; [apply seqs_sorted, (ok_settled _ Hok)|]. intros s.
  rewrite seqs_In, <- (tr_owed _ _ Ht), elem_of_map. split.
  - intros ([k q] & -> & H). apply elem_of_filter in H as [[<- Hlt] H]. done.
  - intros [Hlt H]. exists (s, p). split; [done|]. by apply elem_of_filter.
Qed.
Lemma find_filter {A} (f g : A -> bool) l : List.find f (List.filter g l) = head (List.filter (fun x => g x && f x) l).
Proof.
  induction l as [|x l IH]; simpl; [done|]. destruct (g x); simpl; [|done]. destruct (f x); [done|exact IH].
Qed.
Lemma delivery_after_seqs o L p t : outbox_ok o -> tracks o L ->
  delivery_after o p t = offer (cob_conversation_id o) L p t.
Proof.
  intros Hok Ht. unfold delivery_after, offer. rewrite find_filter, (owed_after_seqs o _ _ _ Hok Ht). unfold seqs.
  destruct (List.filter _ (cob_records o)) as [|[s r] l] eqn:E; [done|]. simpl.
  assert (Hi : In (s, r) (cob_records o)).
  { eapply (proj1 (List.filter_In _ _ _)). rewrite E. by left. }
  apply (tr_published _ _ Ht) in Hi as (x & Hx & Hd & _). rewrite Hx. simpl. by rewrite Hd.
Qed.

Lemma fill_next_live_spec s (X : gset Z) m p :
  fill_next_live s X m !! p = match m !! p with Some v => Some v | None => if has X p then Some s else None end.
Proof.
  unfold fill_next_live. revert p. apply (set_fold_ind_L (fun (m' : gmap Z Z) (X : gset Z) => forall p,
    m' !! p = match m !! p with Some v => Some v | None => if has X p then Some s else None end)).
  - intros p. assert (has ∅ p = false) as -> by (apply has_false; set_solver). by destruct (m !! p).
  - intros q Y m' Hq IH p.
    assert (Hhas : has ({[q]} ∪ Y) p = (p =? q) || has Y p).
    { apply eq_bool_prop_intro. rewrite !Is_true_true, orb_true_iff, !has_true, Z.eqb_eq. set_solver. }
    rewrite Hhas. destruct (m' !! q) as [v|] eqn:E.
    + rewrite IH. destruct (m !! p) eqn:Ep; [done|]. destruct (Z.eqb_spec p q) as [Epq|]; [subst q|done]. simpl.
      rewrite IH, Ep in E. destruct (has Y p); [done|discriminate].
    + destruct (Z.eqb_spec p q) as [Epq|Hne]; simpl.
      * subst q. rewrite lookup_insert_eq. rewrite IH in E. by destruct (m !! p).
      * rewrite lookup_insert_ne by done. apply IH.
Qed.
Lemma next_of_spec rows p : next_of rows !! p = fst <$> head (List.filter (fun row => has (lvr_recipients row.2) p) rows).
Proof.
  unfold next_of. assert (H : forall m, foldl (fun m row => fill_next_live row.1 (lvr_recipients row.2) m) m rows !! p
    = match m !! p with Some v => Some v | None => fst <$> head (List.filter (fun row => has (lvr_recipients row.2) p) rows) end).
  { induction rows as [|row rows IH]; intros m; simpl; [by destruct (m !! p)|]. rewrite IH, fill_next_live_spec.
    destruct (m !! p); [done|]. by destruct (has _ p). }
  by rewrite H, lookup_empty.
Qed.
Lemma next_of_Some rows p : is_Some (next_of rows !! p) <-> exists s, owes rows s p.
Proof.
  rewrite next_of_spec. destruct (List.filter _ rows) as [|[s r] l] eqn:E; simpl.
  - split; [by intros [? ?]|]. intros (s & r & Hi & Hp).
    assert (In (s, r) []); [|done]. rewrite <- E. apply List.filter_In. split; [done|]. by apply has_true.
  - split; [|by eexists]. intros _. exists s, r.
    assert (In (s, r) (List.filter (fun row => has (lvr_recipients row.2) p) rows)) as Hi by (rewrite E; by left).
    apply List.filter_In in Hi as [Hi Hp]. split; [done|]. by apply has_true.
Qed.
Lemma live_recipients_creditors o L : outbox_ok o -> tracks o L -> live_recipients o = creditors L.
Proof.
  intros Hok Ht. unfold live_recipients, creditors. do 2 f_equal. apply set_eq. intros p.
  destruct (settle_fields _ _ (proj1 (proj2 (ok_settled _ Hok)))) as (_ & _ & ->).
  rewrite elem_of_dom, next_of_Some, elem_of_map. split.
  - intros [s Hs]. exists (s, p). split; [done|]. by apply (tr_owed _ _ Ht).
  - intros ([s q] & -> & H). exists s. by apply (tr_owed _ _ Ht).
Qed.

Definition pairs (rows : Rows) : list (Z * Z) :=
  flat_map (fun row => map (pair row.1) (elements (lvr_recipients row.2))) rows.
Lemma pairs_In rows s p : In (s, p) (pairs rows) <-> owes rows s p.
Proof.
  unfold pairs, owes. rewrite List.in_flat_map. split.
  - intros ([k r] & Hi & H). apply List.in_map_iff in H as (q & Hq & H). simpl in *. injection Hq as -> ->.
    exists r. split; [done|]. by apply elem_of_elements, list_elem_of_In.
  - intros (r & Hi & Hp). exists (s, r). split; [done|]. apply List.in_map_iff. exists p. split; [done|].
    by apply list_elem_of_In, elem_of_elements.
Qed.
Lemma pairs_length rows : Z.of_nat (length (pairs rows)) = sum_live rows.
Proof.
  unfold pairs, sum_live, sumZ. induction rows as [|[s r] rows IH]; simpl; [done|].
  rewrite length_app, length_map, Nat2Z.inj_add, IH. done.
Qed.
Lemma pairs_nodup rows : StronglySorted Z.lt (map fst rows) -> NoDup (pairs rows).
Proof.
  induction rows as [|[s r] rows IH]; simpl; [constructor|]. intros Hs. apply StronglySorted_inv in Hs as [Hs Hf].
  apply NoDup_app. split_and!; [|intros x H1 H2|by apply IH].
  - apply (NoDup_fmap_2 (pair s)), NoDup_elements.
  - rewrite list_elem_of_In, List.in_map_iff in H1. destruct H1 as (p & <- & _). rewrite list_elem_of_In in H2.
    change (In (s, p) (pairs rows)) in H2. apply pairs_In in H2 as (r' & Hi & _). rewrite List.Forall_forall in Hf.
    apply (List.in_map fst), Hf in Hi. simpl in Hi. lia.
Qed.
Lemma owed_size o L : outbox_ok o -> tracks o L -> sum_live (cob_records o) = Z.of_nat (size (ld_owed L)).
Proof.
  intros Hok Ht. rewrite <- pairs_length. f_equal. unfold size, set_size. simpl. apply Permutation_length, NoDup_Permutation;
    [apply pairs_nodup, (ok_settled _ Hok)|apply NoDup_elements|]. intros [s p].
  by rewrite elem_of_elements, (tr_owed _ _ Ht), list_elem_of_In, pairs_In.
Qed.
Lemma owed_bytes o L : outbox_ok o -> tracks o L -> sum_bytes (cob_records o) = ledger_bytes L.
Proof.
  intros Hok Ht. destruct (ok_settled _ Hok) as ([Hs Hf] & _). unfold ledger_bytes.
  rewrite (sumZ_perm _ (map (fun s => match ld_published L !! s with Some r => pjr_encoded_push_bytes r | None => 0 end)
                          (map fst (cob_records o)))); cycle 1.
  { apply (fmap_Permutation (fun s => match ld_published L !! s with Some r => pjr_encoded_push_bytes r | None => 0 end)).
    apply NoDup_Permutation; [apply NoDup_elements|by apply sorted_nodup|]. intros s.
    rewrite elem_of_elements, elem_of_map, list_elem_of_In, List.in_map_iff. split.
    - intros ([k p] & -> & H). apply (tr_owed _ _ Ht) in H as (r & Hi & _). by exists (k, r).
    - intros ([k r] & <- & Hi). rewrite List.Forall_forall in Hf. destruct (Hf _ Hi) as (_ & _ & Hne & _). simpl in *.
      apply set_choose_L in Hne as [p Hp]. exists (k, p). split; [done|]. apply (tr_owed _ _ Ht). by exists r. }
  unfold sum_bytes. rewrite map_map. f_equal. apply List.map_ext_in. intros [s r] Hi.
  apply (tr_published _ _ Ht) in Hi as (x & Hx & _ & Hb). simpl. by rewrite Hx.
Qed.

(** ** Theorems *)

(** C12: The owner restored from the log is the ledger of its rows: its live counter is the
    number of obligations outstanding and respects the bound, its charge is the bytes of
    the records owed to someone, its live recipients are the participants owed anything,
    and the delivery selected for a participant after a cursor is the least one owed. *)
Theorem restored_owner_is_ledger c rows limits o :
  u64 (max_live_recipient_obligations limits) -> restore_outbox c rows limits = Ok o ->
  let L := ledger (map snd rows) in
  cob_live_recipient_obligations o = Z.of_nat (size (ld_owed L))
  /\ cob_live_recipient_obligations o <= max_live_recipient_obligations (cob_limits o)
  /\ cob_charged_bytes o = ledger_bytes L
  /\ live_recipients o = creditors L
  /\ forall p t, delivery_after o p t = offer c L p t.
Proof.
  intros Hl Hr L. destruct (restore_reached _ _ _ _ Hl Hr) as [Hok Ht _ Hc]. fold L in Ht.
  destruct (settle_fields _ _ (proj1 (proj2 (ok_settled _ Hok)))) as (-> & -> & _). split_and!.
  - by apply owed_size.
  - apply (ok_limit _ Hok).
  - by apply owed_bytes.
  - by apply live_recipients_creditors.
  - intros p t. rewrite <- Hc. by apply delivery_after_seqs.
Qed.

(** C15: A row the restored owner refuses leaves it exactly as it was, unless the charge of
    the live records or the sequence of rows has used up its machine integer. *)
Theorem refused_row_changes_nothing c rows limits o n row o' e :
  u64 (max_live_recipient_obligations limits) -> restore_outbox c rows limits = Ok o ->
  Z.of_nat (length rows) < u64_max ->
  (forall b, row = OXR_Produced b -> cob_charged_bytes o + batch_bytes (pdb_ordered_records b) <= u64_max) ->
  apply_row n row o = (o', Err e) -> o' = o.
Proof.
  intros Hl Hr Hlen Hb H. destruct (restore_reached _ _ _ _ Hl Hr) as [Hok Ht Hn _]. rewrite length_map in Hn.
  destruct (settle_fields _ _ (proj1 (proj2 (ok_settled _ Hok)))) as (_ & Hc & _).
  destruct (apply_row_cases _ _ _ _ _ Hok H) as [[-> _]|[(? & _)|[_ [Ho|Ho]]]]; [done|done| |lia].
  destruct row as [b| |]; simpl in Ho; try done. specialize (Hb b eq_refl). unfold charge_after in Ho.
  assert (sum_bytes (cob_records (leave_first (leaving b) o)) <= sum_bytes (cob_records o)); [|lia].
  destruct (leaving b) as [p|]; [|done]. destruct (ok_settled _ Hok) as ([_ Hf] & _).
  pose proof (discharged_bytes _ (fun _ => true) p _ Hf). by destruct o.
Qed.

(** The deliveries offered to a participant one after another from a cursor. *)
Fixpoint offers (fuel : nat) (o : ConversationOutbox) (p t : Z) : list ParticipantDelivery :=
  match fuel with
  | O => []
  | S fuel =>
      match delivery_after o p t with
      | None => []
      | Some d => d :: offers fuel o p (pd_delivery_seq d)
      end
  end.
Lemma sorted_ext l k : StronglySorted Z.lt l -> StronglySorted Z.lt k -> (forall x, In x l <-> In x k) -> l = k.
Proof.
  intros Hl Hk H. apply (StronglySorted_unique Z.le); [by apply sorted_le..|].
  apply NoDup_Permutation; [by apply sorted_nodup..|]. intros x. by rewrite !list_elem_of_In.
Qed.
Lemma delivery_head o p t : outbox_ok o ->
  pd_delivery_seq <$> delivery_after o p t = head (seqs (cob_records o) p t).
Proof.
  intros Hok. destruct (ok_settled _ Hok) as ([_ Hf] & _). unfold delivery_after, seqs. rewrite find_filter.
  destruct (List.filter _ (cob_records o)) as [|[s r] l] eqn:E; [done|]. simpl. f_equal.
  rewrite List.Forall_forall in Hf. destruct (Hf (s, r)) as (_ & Hd & _); [|done].
  eapply (proj1 (List.filter_In _ _ _)). rewrite E. by left.
Qed.
Lemma offers_seqs n o p : outbox_ok o -> forall t, (length (seqs (cob_records o) p t) <= n)%nat ->
  map pd_delivery_seq (offers n o p t) = seqs (cob_records o) p t.
Proof.
  intros Hok. destruct (ok_settled _ Hok) as ([Hs _] & _). induction n as [|n IH]; intros t Hn; simpl.
  { destruct (seqs (cob_records o) p t); [done|simpl in Hn; lia]. }
  pose proof (delivery_head o p t Hok) as Hd. pose proof (seqs_sorted _ p t Hs) as Hst.
  pose proof (seqs_In (cob_records o) p t) as Hin.
  destruct (seqs (cob_records o) p t) as [|s l] eqn:E; destruct (delivery_after o p t) as [d|]; try done.
  simpl in *. injection Hd as Hd. rewrite Hd. apply StronglySorted_inv in Hst as [Hst Hh].
  assert (El : seqs (cob_records o) p s = l).
  { apply sorted_ext; [by apply seqs_sorted|done|]. intros x. rewrite seqs_In. rewrite List.Forall_forall in Hh.
    split.
    - intros [Hlt Ho]. destruct (proj1 (Hin s)) as [Hts _]; [by left|].
      destruct (proj2 (Hin x)) as [->|Hx]; [split; [lia|done]|lia|done].
    - intros Hx. split; [by apply Hh|]. apply Hin. by right. }
  rewrite IH; rewrite El; [done|lia].
Qed.

Lemma filter_sorted (f : Z -> bool) l : StronglySorted Z.lt l -> StronglySorted Z.lt (List.filter f l).
Proof.
  induction 1 as [|a l _ IH Hf]; simpl; [constructor|]. destruct (f a); [|done]. constructor; [done|].
  rewrite List.Forall_forall in *. intros x Hx. apply List.filter_In in Hx as [Hx _]. by apply Hf.
Qed.
Lemma elements_sorted (X : gset Z) : StronglySorted Z.lt (merge_sort Z.le (elements X)).
Proof.
  assert (Hs : StronglySorted Z.le (merge_sort Z.le (elements X))) by apply (StronglySorted_merge_sort Z.le).
  assert (Hd : NoDup (merge_sort Z.le (elements X))) by (rewrite merge_sort_Permutation; apply NoDup_elements).
  induction Hs as [|a l _ IH Hf]; [constructor|]. apply NoDup_cons in Hd as [Ha Hd]. constructor; [by apply IH|].
  rewrite Forall_forall in *. intros x Hx. specialize (Hf x Hx). destruct (decide (x = a)) as [->|]; [done|lia].
Qed.
Lemma obligations_seqs o p t : outbox_ok o -> p ∉ cob_retired o -> durable_ack_through o p <= t ->
  List.filter (fun s => t <? s) (merge_sort Z.le (elements (obliged o p))) = seqs (cob_records o) p t.
Proof.
  intros Hok Hp Hd. destruct (ok_settled _ Hok) as ([Hs _] & _).
  apply sorted_ext; [apply filter_sorted, elements_sorted|by apply seqs_sorted|]. intros s.
  rewrite List.filter_In, Z.ltb_lt, <- list_elem_of_In, merge_sort_Permutation, elem_of_elements. rewrite seqs_In. split.
  - intros [Ho Hlt]. split; [done|]. destruct (decide (s ∈ seqs (cob_records o) p t)) as [Hin|Hin].
    + rewrite list_elem_of_In in Hin. by apply seqs_In in Hin as [_ ?].
    + rewrite list_elem_of_In, seqs_In in Hin. opose proof (ok_acknowledged _ Hok s p Ho Hp _); [tauto|lia].
  - intros [Hlt Ho]. split; [by apply (ok_obliged _ Hok)|done].
Qed.

(** C13: For a participant that has not left, the deliveries offered one after another from
    a cursor at or past its durable acknowledgement are exactly the obligations its next
    acknowledgement may name, in order; the testimony is always well formed. *)
Theorem offers_are_obligations c rows limits o p t :
  u64 (max_live_recipient_obligations limits) -> restore_outbox c rows limits = Ok o ->
  p ∉ cob_retired o -> durable_ack_through o p <= t ->
  exists obligations through, recipient_ack_obligations o p t = Ok (obligations, through)
    /\ rao_participant_id obligations = p /\ rao_acknowledged_through obligations = t
    /\ map pd_delivery_seq (offers (length (cob_records o)) o p t) = rao_delivery_sequences obligations.
Proof.
  intros Hl Hr Hp Hd. destruct (restore_reached _ _ _ _ Hl Hr) as [Hok _ _ _]. destruct (ok_settled _ Hok) as ([Hs _] & _).
  unfold recipient_ack_obligations. rewrite (proj2 (Z.ltb_ge _ _) Hd). fold (obliged o p).
  rewrite (obligations_seqs _ _ _ Hok Hp Hd). unfold RecipientAckObligations_try_new.
  rewrite (proj2 (validate_obligations_spec t (seqs (cob_records o) p t) None)).
  - simpl. eexists _, _. split_and!; [done..|]. simpl. apply offers_seqs; [done|].
    unfold seqs. rewrite length_map. apply List.filter_length_le.
  - split_and!; [by apply StronglySorted_Sorted, seqs_sorted| |done]. intros x Hx. by apply seqs_In in Hx as [? _].
Qed.

(** C14: An acknowledgement of any obligation the testimony lists is accepted as the next row,
    becomes the durable cursor, and settles for its participant everything up to it and
    for the others nothing. *)
Theorem obligation_ack_settles c rows limits o p t obligations through src s :
  u64 (max_live_recipient_obligations limits) -> restore_outbox c rows limits = Ok o ->
  Z.of_nat (length rows) < u64_max -> cob_ack_sources o !! src = None ->
  recipient_ack_obligations o p t = Ok (obligations, through) -> In s (rao_delivery_sequences obligations) ->
  exists o', apply_row (Z.of_nat (length rows)) (OXR_AckAdvanced src p s) o = (o', Ok tt)
    /\ durable_ack_through o' p = s
    /\ forall q u, delivery_after o' q u = delivery_after o q (if q =? p then Z.max u s else u).
Proof.
  intros Hl Hr Hlen Hsrc Hob Hin. destruct (restore_reached _ _ _ _ Hl Hr) as [Hok Ht Hn Hc]. rewrite length_map in Hn.
  assert (Hlt : durable_ack_through o p < s).
  { unfold recipient_ack_obligations in Hob. destruct (Z.ltb_spec t (durable_ack_through o p)); [done|].
    unfold RecipientAckObligations_try_new in Hob. destruct (validate_obligations _ _ _) as [[]|] eqn:E; [|done].
    injection Hob as <- _. simpl in Hin. apply List.filter_In in Hin as [_ Hs]. apply Z.ltb_lt in Hs. lia. }
  assert (He : row_effect (OXR_AckAdvanced src p s) o (acked src p s o)) by (right; done).
  pose proof (acked_ok src p s o Hok Hlt) as Hok1.
  exists (with_next_extension (Z.of_nat (length rows) + 1) (acked src p s o)). split_and!.
  - unfold apply_row, mbind, Ob_bind, ob_get, ob_lift, ob_modify, mret, Ob_ret. rewrite Hn, Z.eqb_refl. cbv beta iota delta [negb].
    rewrite (apply_ack_spec _ _ _ _ Hok), Hsrc. destruct (Z.leb_spec s (durable_ack_through o p)); [lia|].
    rewrite (effect_next _ _ _ He), Hn, checked_add_exact by lia. done.
  - unfold durable_ack_through. destruct o; simpl. by rewrite lookup_insert_eq.
  - intros q u. pose proof (tracks_row _ _ _ (Z.of_nat (length rows) + 1) _ Hok Ht He) as Ht1.
    rewrite (delivery_after_seqs _ _ _ _ (next_extension_ok _ _ Hok1) Ht1), (delivery_after_seqs _ _ _ _ Hok Ht).
    replace (cob_conversation_id (with_next_extension _ (acked src p s o))) with (cob_conversation_id o) by (by destruct o).
    simpl in Ht1 |- *. rewrite bool_decide_false; [|rewrite (tr_acks _ _ Ht), Hsrc; by intros [? ?]].
    unfold offer. simpl. assert (E : forall L' : gset (Z * Z), set_map fst (filter (fun x : Z * Z => x.2 = q /\ u < x.1) (filter (fun x => ~ (x.1 <= s /\ x.2 = p)) L'))
      = (set_map fst (filter (fun x : Z * Z => x.2 = q /\ (if q =? p then Z.max u s else u) < x.1) L') : gset Z)).
    { intros L'. f_equal. apply set_eq. intros [k r]. rewrite !elem_of_filter. simpl. destruct (Z.eqb_spec q p); intuition lia. }
    unfold owed_after. simpl. by rewrite E.
Qed.

(** ** A sample log *)

Definition sample_record (seq : Z) (body : ParticipantRecord) (recipients : list Z) (sender : option Z) : ProjectedRecord :=
  match ProjectedRecord_try_new 7 seq body recipients sender with
  | Ok r => r
  | Err _ => mkProjectedRecord seq body recipients sender 0
  end.
(** Participant 1 publishes to 2 and 3, participant 3 leaves, participant 2 acknowledges. *)
Definition sample_rows : list (Z * OutboxRow) :=
  [(0, OXR_Produced (mkProducedBatch 0 PSK_RecordAdmission
         [sample_record 1 (PR_OrdinaryRecord 1 [Byte.x41]) [2; 3] (Some 1)]));
   (1, OXR_Produced (mkProducedBatch 1 PSK_Left [sample_record 2 (PR_Left 3 None) [1; 2] (Some 3)]));
   (2, OXR_AckAdvanced 2 2 1)].
Definition sample_limits : ConversationOutboxLimits := mkOutboxLimits 100.
Definition sample_outbox : ConversationOutbox :=
  match restore_outbox 7 sample_rows sample_limits with Ok o => o | Err _ => empty_outbox 7 sample_limits end.
Lemma sample_restored : restore_outbox 7 sample_rows sample_limits = Ok sample_outbox.
Proof. vm_compute. reflexivity. Qed.
Lemma sample_limit : u64 (max_live_recipient_obligations sample_limits).
Proof. split; vm_compute; discriminate. Qed.

Lemma restored_owner_is_ledger_witness :
  cob_live_recipient_obligations sample_outbox = Z.of_nat (size (ld_owed (ledger (map snd sample_rows))))
  /\ forall p t, delivery_after sample_outbox p t = offer 7 (ledger (map snd sample_rows)) p t.
Proof.
  destruct (restored_owner_is_ledger 7 sample_rows sample_limits sample_outbox sample_limit sample_restored)
    as (H & _ & _ & _ & H'). split; assumption.
Defined.
Lemma refused_row_changes_nothing_witness : fst (apply_row 3 (OXR_AckAdvanced 3 2 1) sample_outbox) = sample_outbox.
Proof.
  apply (refused_row_changes_nothing 7 sample_rows sample_limits sample_outbox 3 (OXR_AckAdvanced 3 2 1) _
           (OBE_AckRegression 2 1 1) sample_limit sample_restored).
  - vm_compute. reflexivity.
  - intros b Hb. discriminate Hb.
  - vm_compute. reflexivity.
Defined.
Lemma offers_are_obligations_witness :
  exists obligations through, recipient_ack_obligations sample_outbox 2 1 = Ok (obligations, through)
    /\ map pd_delivery_seq (offers (length (cob_records sample_outbox)) sample_outbox 2 1)
       = rao_delivery_sequences obligations.
Proof.
  destruct (offers_are_obligations 7 sample_rows sample_limits sample_outbox 2 1 sample_limit sample_restored)
    as (ob & th & H & _ & _ & H').
  - apply (bool_decide_unpack _). vm_compute. exact I.
  - vm_compute. discriminate.
  - exists ob, th. split; assumption.
Defined.
Lemma obligation_ack_settles_witness :
  exists o', apply_row 3 (OXR_AckAdvanced 3 1 2) sample_outbox = (o', Ok tt) /\ durable_ack_through o' 1 = 2.
Proof.
  destruct (obligation_ack_settles 7 sample_rows sample_limits sample_outbox 1 0
              (mkRecipientAckObligations 1 0 [2]) 2 3 2 sample_limit sample_restored) as (o' & H1 & H2 & _).
  - vm_compute. reflexivity.
  - vm_compute. reflexivity.
  - vm_compute. reflexivity.
  - left. reflexivity.
  - exists o'. split; assumption.
Defined.
