(* ===== verification/Client.v ===== *)
(** * Client participant state

    Model of [liminal-protocol/src/client.rs] with [client/barrier.rs],
    [client/replay.rs] and [client/reconnect.rs]: the client aggregate (binding,
    write-ahead operation, detach replay, reconnect machine and the atoms that
    testify a loss), the durability barrier with its sealed one-use authorities, the
    replay of a detach and the event-driven reconnect.  A one-use value of the source
    is a value the operations consume and return; which of them the caller still
    holds is the state of [ClientRuns]. *)
From coqutil Require Import Byte.
From S2P Require Import Prelude Algebra Tags Wire Response Binding Member.

(** ** client.rs: binding *)

Inductive ClientBindingStatus := CBS_Unbound | CBS_Bound | CBS_Detached | CBS_Left.

Inductive ClientBindingState :=
| CB_Unbound
| CB_Bound (conversation_id : ConversationId) (participant_id : ParticipantId)
    (generation : Generation) (attach_secret : AttachSecret) (binding_epoch : BindingEpoch)
| CB_Detached (conversation_id : ConversationId) (participant_id : ParticipantId)
    (generation : Generation) (attach_secret : AttachSecret)
| CB_Left (conversation_id : ConversationId) (participant_id : ParticipantId)
    (generation : Generation).

Definition binding_status_of (b : ClientBindingState) : ClientBindingStatus :=
  match b with
  | CB_Unbound => CBS_Unbound
  | CB_Bound _ _ _ _ _ => CBS_Bound
  | CB_Detached _ _ _ _ => CBS_Detached
  | CB_Left _ _ _ => CBS_Left
  end.

Definition is_left (b : ClientBindingState) : bool :=
  match b with CB_Left _ _ _ => true | _ => false end.

Definition matches_ack (b : ClientBindingState) (request : ParticipantAckEnvelope) : bool :=
  match b with
  | CB_Bound conversation_id participant_id generation _ _ =>
      (conversation_id =? pae_conversation_id request)
      && (participant_id =? pae_participant_id request)
      && (generation =? pae_capability_generation request)
  | CB_Unbound | CB_Detached _ _ _ _ | CB_Left _ _ _ => false
  end.

Definition matches_identity (b : ClientBindingState) (conversation : ConversationId)
    (participant : ParticipantId) (generation_value : Generation) (allow_detached : bool) : bool :=
  match b with
  | CB_Bound conversation_id participant_id generation _ _ =>
      (conversation_id =? conversation) && (participant_id =? participant)
      && (generation =? generation_value)
  | CB_Detached conversation_id participant_id generation _ =>
      if allow_detached then
        (conversation_id =? conversation) && (participant_id =? participant)
        && (generation =? generation_value)
      else false
  | CB_Unbound | CB_Left _ _ _ => false
  end.

Definition matches_credential (b : ClientBindingState) (conversation : ConversationId)
    (participant : ParticipantId) (generation_value : Generation)
    (presented_secret : AttachSecret) (allow_detached : bool) : bool :=
  match b with
  | CB_Bound _ _ _ attach_secret _ =>
      token_eqb attach_secret presented_secret
      && matches_identity b conversation participant generation_value allow_detached
  | CB_Detached _ _ _ attach_secret =>
      if allow_detached then
        token_eqb attach_secret presented_secret
        && matches_identity b conversation participant generation_value true
      else false
  | CB_Unbound | CB_Left _ _ _ => false
  end.

Definition accepts_request (b : ClientBindingState) (request : ClientRequest) : bool :=
  if is_left b then false
  else
    match request with
    | CR_Enrollment _ => match b with CB_Unbound => true | _ => false end
    | CR_CredentialAttach v =>
        match b with CB_Unbound => true | _ => false end
        || matches_credential b (car_conversation_id v) (car_participant_id v)
             (car_capability_generation v) (car_attach_secret v) true
    | CR_Detach v =>
        matches_identity b (dr_conversation_id v) (dr_participant_id v)
          (dr_capability_generation v) false
    | CR_ParticipantAck v =>
        matches_identity b (pa_conversation_id v) (pa_participant_id v)
          (pa_capability_generation v) false
    | CR_Leave v =>
        matches_credential b (lr_conversation_id v) (lr_participant_id v)
          (lr_capability_generation v) (lr_attach_secret v) true
    | CR_MarkerAck v =>
        matches_identity b (ma_conversation_id v) (ma_participant_id v)
          (ma_capability_generation v) false
    | CR_RecordAdmission v =>
        matches_identity b (ra_conversation_id v) (ra_participant_id v)
          (ra_capability_generation v) false
    | CR_ObserverRecovery _ => true
    end.

(** ** client.rs: the atoms of a loss *)

Inductive LostAuthorityKind :=
| LAK_IssuedOperationCorrelation | LAK_DetachTransportAttempt
| LAK_ReconnectPermit | LAK_ReconnectAttempt.
Record LostAuthorityTestimony := mkTestimony { lat_kind : LostAuthorityKind }.

Record ExpectedOperationState := mkExpected {
  eos_request : ClientRequest;
  eos_issued : bool;
  eos_authorization : Z;
  eos_lost : option LostAuthorityTestimony;
}.

Inductive RestoredExpectedOperationAbandonmentReason := REA_TokenlessAfterCrash.
Record RestoredExpectedOperationAbandonment := mkAbandonment {
  rea_request : ClientRequest;
  rea_reason : RestoredExpectedOperationAbandonmentReason;
  rea_was_issued : bool;
}.

(** ** replay.rs: data *)

Record DetachAuthorityRefused := mkAuthorityRefused { dar_value : ServerValue }.
Inductive DetachReplayTerminal :=
| DRT_DetachCommitted (v : DetachCommitted)
| DRT_DetachInProgress (v : DetachInProgress)
| DRT_TerminalizedDetachCell (v : TerminalizedDetachCell)
| DRT_AuthorityRefused (v : DetachAuthorityRefused).
Inductive DetachReplayStatus :=
| DRS_Parked | DRS_InFlight | DRS_Superseded | DRS_LeaveSuperseded
| DRS_Terminal (t : DetachReplayTerminal).
Inductive DetachReplayState :=
| DR_Empty
| DR_Recorded (request : DetachEnvelope) (status : DetachReplayStatus).
Record SdkDetachReplayAggregate := mkDetachReplay { sdr_state : DetachReplayState }.

#[export] Instance DetachEnvelope_eq_dec : EqDecision DetachEnvelope.
Proof. unfold ConversationId, ParticipantId, DetachAttemptToken, Token in *. solve_decision. Defined.

(** ** reconnect.rs: data *)

Inductive EstablishedConnectionTransportFate := ECF_Lost.
Inductive ProvedOnlineTransition := POT_ProvedOnline.
Inductive ExplicitReconnectAction := ERA_ReconnectNow.
Inductive ReconnectFreshEvent :=
| RFE_TransportFate (f : EstablishedConnectionTransportFate)
| RFE_OnlineTransition (t : ProvedOnlineTransition)
| RFE_ExplicitCallerAction (a : ExplicitReconnectAction).

(** [outcome/local.rs]. *)
Inductive ReconnectState := RS_Parked | RS_PermitOutstanding | RS_AttemptInProgress | RS_Online.
Inductive ReconnectRequiredEvent :=
| RRE_TransportFate | RRE_OnlineTransition | RRE_ExplicitCallerAction.
Inductive ReconnectDelayResult :=
| RDR_ReconnectArmed (event : ReconnectRequiredEvent)
| RDR_ReconnectNotArmed (state : ReconnectState) (required_event : ReconnectRequiredEvent).

Definition required_event (e : ReconnectFreshEvent) : ReconnectRequiredEvent :=
  match e with
  | RFE_TransportFate _ => RRE_TransportFate
  | RFE_OnlineTransition _ => RRE_OnlineTransition
  | RFE_ExplicitCallerAction _ => RRE_ExplicitCallerAction
  end.

Inductive ReconnectMachineState :=
| RM_Parked
| RM_Permit (authorization : Z) (event : ReconnectFreshEvent) (issued : bool)
| RM_Attempt (authorization : Z) (event : ReconnectFreshEvent)
| RM_Online.
Record ReconnectAggregate := mkReconnect {
  rca_state : ReconnectMachineState;
  rca_next_authorization : Z;
  rca_lost : option LostAuthorityTestimony;
}.
Definition ReconnectAggregate_new : ReconnectAggregate := mkReconnect RM_Parked 0 None.
Definition reconnect_state (r : ReconnectAggregate) : ReconnectState :=
  match rca_state r with
  | RM_Parked => RS_Parked
  | RM_Permit _ _ _ => RS_PermitOutstanding
  | RM_Attempt _ _ => RS_AttemptInProgress
  | RM_Online => RS_Online
  end.

#[export] Instance ConnectionFate_eq_dec : EqDecision EstablishedConnectionTransportFate.
Proof. solve_decision. Defined.
#[export] Instance OnlineTransition_eq_dec : EqDecision ProvedOnlineTransition.
Proof. solve_decision. Defined.
#[export] Instance ReconnectAction_eq_dec : EqDecision ExplicitReconnectAction.
Proof. solve_decision. Defined.
#[export] Instance ReconnectFreshEvent_eq_dec : EqDecision ReconnectFreshEvent.
Proof. solve_decision. Defined.

(** ** client.rs: the aggregate *)

Record ClientParticipantAggregate := mkClient {
  cpa_binding : ClientBindingState;
  cpa_expected : option ExpectedOperationState;
  cpa_next_operation_authorization : Z;
  cpa_detach_replay : SdkDetachReplayAggregate;
  cpa_reconnect : ReconnectAggregate;
  cpa_restored_abandonment : option RestoredExpectedOperationAbandonment;
}.

Definition SdkDetachReplayAggregate_new : SdkDetachReplayAggregate := mkDetachReplay DR_Empty.
Definition ClientParticipantAggregate_new : ClientParticipantAggregate :=
  mkClient CB_Unbound None 0 SdkDetachReplayAggregate_new ReconnectAggregate_new None.

(** Field updates of [&mut self]. *)
Definition set_binding (a : ClientParticipantAggregate) (b : ClientBindingState) :=
  mkClient b (cpa_expected a) (cpa_next_operation_authorization a) (cpa_detach_replay a)
    (cpa_reconnect a) (cpa_restored_abandonment a).
Definition set_expected (a : ClientParticipantAggregate) (e : option ExpectedOperationState) :=
  mkClient (cpa_binding a) e (cpa_next_operation_authorization a) (cpa_detach_replay a)
    (cpa_reconnect a) (cpa_restored_abandonment a).
Definition set_next (a : ClientParticipantAggregate) (n : Z) :=
  mkClient (cpa_binding a) (cpa_expected a) n (cpa_detach_replay a) (cpa_reconnect a)
    (cpa_restored_abandonment a).
Definition set_replay (a : ClientParticipantAggregate) (s : DetachReplayState) :=
  mkClient (cpa_binding a) (cpa_expected a) (cpa_next_operation_authorization a)
    (mkDetachReplay s) (cpa_reconnect a) (cpa_restored_abandonment a).
Definition set_reconnect (a : ClientParticipantAggregate) (r : ReconnectAggregate) :=
  mkClient (cpa_binding a) (cpa_expected a) (cpa_next_operation_authorization a)
    (cpa_detach_replay a) r (cpa_restored_abandonment a).
Definition replay_state (a : ClientParticipantAggregate) : DetachReplayState :=
  sdr_state (cpa_detach_replay a).
Definition set_issued (e : ExpectedOperationState) (issued : bool) : ExpectedOperationState :=
  mkExpected (eos_request e) issued (eos_authorization e) (eos_lost e).

Definition take_restored_operation_abandonment (a : ClientParticipantAggregate)
    : ClientParticipantAggregate * option RestoredExpectedOperationAbandonment :=
  (mkClient (cpa_binding a) (cpa_expected a) (cpa_next_operation_authorization a)
     (cpa_detach_replay a) (cpa_reconnect a) None, cpa_restored_abandonment a).

Definition lost_operation_testimony (a : ClientParticipantAggregate)
    : option LostAuthorityTestimony :=
  match cpa_expected a with Some expected => eos_lost expected | None => None end.

Definition lost_credential_attach (a : ClientParticipantAggregate)
    : option CredentialAttachRequest :=
  match cpa_expected a with
  | Some (mkExpected (CR_CredentialAttach request) true _ (Some _)) => Some request
  | _ => None
  end.

Definition operation_loss_pending (a : ClientParticipantAggregate) : bool :=
  is_some (lost_operation_testimony a).

Definition is_detach (r : ClientRequest) : bool :=
  match r with CR_Detach _ => true | _ => false end.
Definition is_observer_recovery (r : ClientRequest) : bool :=
  match r with CR_ObserverRecovery _ => true | _ => false end.

(** ** replay.rs: the replay aggregate

    Each method returns the state it leaves and whether it applied. *)

Definition mark_initial_attempt_started (s : DetachReplayState) : DetachReplayState :=
  match s with
  | DR_Recorded request DRS_Parked => DR_Recorded request DRS_InFlight
  | s => s
  end.

Definition can_replace_with (s : DetachReplayState) (request : DetachEnvelope) : bool :=
  match s with
  | DR_Recorded retained status =>
      (de_conversation_id retained =? de_conversation_id request)
      && (de_participant_id retained =? de_participant_id request)
      && (de_capability_generation retained <? de_capability_generation request)
      && match status with DRS_Superseded | DRS_Terminal _ => true | _ => false end
  | DR_Empty => false
  end.

Definition replay_apply_attach (s : DetachReplayState) (attach : AttachBound)
    : DetachReplayState * bool :=
  match s with
  | DR_Recorded request status =>
      if (ab_conversation_id attach =? de_conversation_id request)
         && (ab_participant_id attach =? de_participant_id request)
         && (de_capability_generation request <? ab_capability_generation attach)
      then (DR_Recorded request DRS_Superseded, true)
      else (s, false)
  | DR_Empty => (s, false)
  end.

Definition replay_apply_leave (s : DetachReplayState) (leave : LeaveCommitted)
    : DetachReplayState * bool :=
  match s with
  | DR_Recorded request status =>
      if (lc_conversation_id leave =? de_conversation_id request)
         && (lc_participant_id leave =? de_participant_id request)
         && (lc_presented_generation leave =? de_capability_generation request)
      then (DR_Recorded request DRS_LeaveSuperseded, true)
      else (s, false)
  | DR_Empty => (s, false)
  end.

Definition replay_apply_retired (s : DetachReplayState) (conversation_id : ConversationId)
    (participant_id : ParticipantId) (retired_generation : Generation)
    : DetachReplayState * bool :=
  match s with
  | DR_Recorded request status =>
      if (de_conversation_id request =? conversation_id)
         && (de_participant_id request =? participant_id)
         && (de_capability_generation request <=? retired_generation)
      then (DR_Recorded request DRS_LeaveSuperseded, true)
      else (s, false)
  | DR_Empty => (s, false)
  end.

Definition is_active_status (status : DetachReplayStatus) : bool :=
  match status with DRS_Parked | DRS_InFlight => true | _ => false end.

Definition settle_refused_authority (s : DetachReplayState) (expected : DetachEnvelope)
    (value : ServerValue) : DetachReplayState * bool :=
  match s with
  | DR_Recorded request status =>
      if negb (is_active_status status) then (s, false)
      else if negb (de_conversation_id request =? de_conversation_id expected)
              || negb (de_participant_id request =? de_participant_id expected)
              || negb (de_capability_generation request =? de_capability_generation expected)
              || negb (token_eqb (de_detach_attempt_token request)
                         (de_detach_attempt_token expected))
      then (s, false)
      else (DR_Recorded request (DRS_Terminal (DRT_AuthorityRefused (mkAuthorityRefused value))),
            true)
  | DR_Empty => (s, false)
  end.

Definition is_active (s : DetachReplayState) : bool :=
  match s with DR_Recorded _ status => is_active_status status | DR_Empty => false end.

Definition detach_committed_matches (request : DetachEnvelope) (value : DetachCommitted) : bool :=
  (dcm_conversation_id value =? de_conversation_id request)
  && (dcm_participant_id value =? de_participant_id request)
  && (dcm_capability_generation value =? de_capability_generation request)
  && token_eqb (dcm_detach_attempt_token value) (de_detach_attempt_token request).
Definition detach_in_progress_matches (request : DetachEnvelope) (value : DetachInProgress)
    : bool :=
  (dip_conversation_id value =? de_conversation_id request)
  && (dip_participant_id value =? de_participant_id request)
  && (dip_presented_generation value =? de_capability_generation request)
  && token_eqb (dip_presented_token value) (de_detach_attempt_token request).
Definition terminalized_matches (request : DetachEnvelope) (value : TerminalizedDetachCell)
    : bool :=
  (tdc_conversation_id value =? de_conversation_id request)
  && (tdc_participant_id value =? de_participant_id request)
  && (tdc_capability_generation value =? de_capability_generation request)
  && token_eqb (tdc_detach_attempt_token value) (de_detach_attempt_token request).

Definition apply_detach_committed (s : DetachReplayState) (value : DetachCommitted)
    : DetachReplayState * bool :=
  match s with
  | DR_Recorded request status =>
      if detach_committed_matches request value
      then (DR_Recorded request (DRS_Terminal (DRT_DetachCommitted value)), true)
      else (s, false)
  | DR_Empty => (s, false)
  end.
Definition apply_detach_in_progress (s : DetachReplayState) (value : DetachInProgress)
    : DetachReplayState * bool :=
  match s with
  | DR_Recorded request status =>
      if detach_in_progress_matches request value
      then (DR_Recorded request (DRS_Terminal (DRT_DetachInProgress value)), true)
      else (s, false)
  | DR_Empty => (s, false)
  end.
Definition apply_terminalized_detach_cell (s : DetachReplayState) (value : TerminalizedDetachCell)
    : DetachReplayState * bool :=
  match s with
  | DR_Recorded request status =>
      if terminalized_matches request value
      then (DR_Recorded request (DRS_Terminal (DRT_TerminalizedDetachCell value)), true)
      else (s, false)
  | DR_Empty => (s, false)
  end.

(** ** replay.rs: operations on the aggregate *)

Inductive DetachReplayRefusalReason :=
| DRR_AlreadyRecorded | DRR_InvalidStatus | DRR_ForeignInput | DRR_LostAuthorityPending.

Record ClientResponseCorrelation := mkCorrelation { crc_authorization : Z }.

Record DetachTransportAttempt := mkDetachAttempt {
  dta_request : DetachEnvelope;
  dta_authorization : Z;
}.
(** [DetachTransportAttempt::into_request]. *)
Definition detach_attempt_into_request (t : DetachTransportAttempt)
    : DetachEnvelope * ClientResponseCorrelation :=
  (dta_request t, mkCorrelation (dta_authorization t)).

(** The request of an expected detach names exactly the envelope. *)
Definition names_detach (request : ClientRequest) (envelope : DetachEnvelope) : bool :=
  match request with
  | CR_Detach value =>
      (dr_conversation_id value =? de_conversation_id envelope)
      && (dr_participant_id value =? de_participant_id envelope)
      && (dr_capability_generation value =? de_capability_generation envelope)
      && token_eqb (dr_detach_attempt_token value) (de_detach_attempt_token envelope)
  | _ => false
  end.

(** A decision of the client: the successor with what it releases, or the unchanged
    aggregate with the input and the reason. *)
Inductive Decision (A I R : Type) :=
| Applied (aggregate : ClientParticipantAggregate) (released : A)
| Refused (aggregate : ClientParticipantAggregate) (input : I) (reason : R).
Arguments Applied {A I R}.
Arguments Refused {A I R}.

Definition transport_attempt_started (a : ClientParticipantAggregate)
    : Decision DetachTransportAttempt unit DetachReplayRefusalReason :=
  match replay_state a with
  | DR_Recorded request DRS_Parked =>
      let expected_matches :=
        match cpa_expected a with
        | Some expected =>
            negb (eos_authorization expected =? 0) && names_detach (eos_request expected) request
        | None => false
        end in
      if negb expected_matches then Refused a tt DRR_InvalidStatus
      else
        let authorization :=
          match cpa_expected a with Some expected => eos_authorization expected | None => 0 end in
        let a := set_expected a (option_map (fun e => set_issued e true) (cpa_expected a)) in
        Applied (set_replay a (DR_Recorded request DRS_InFlight))
          (mkDetachAttempt request authorization)
  | DR_Empty | DR_Recorded _ _ => Refused a tt DRR_InvalidStatus
  end.

Inductive DetachTransportFate := DTF_ResponseUnavailable.

Definition detach_authority_matches (a : ClientParticipantAggregate)
    (correlation : ClientResponseCorrelation) : bool :=
  match cpa_expected a with
  | None => false
  | Some expected =>
      if negb (eos_issued expected)
         || negb (eos_authorization expected =? crc_authorization correlation)
      then false
      else
        match replay_state a with
        | DR_Recorded request DRS_InFlight => names_detach (eos_request expected) request
        | _ => false
        end
  end.

(** The status of a recorded replay, its request kept. *)
Definition set_status (s : DetachReplayState) (status : DetachReplayStatus) : DetachReplayState :=
  match s with DR_Recorded request _ => DR_Recorded request status | DR_Empty => DR_Empty end.

Definition transport_fate (a : ClientParticipantAggregate)
    (correlation : ClientResponseCorrelation) (fate : DetachTransportFate)
    : Decision unit (ClientResponseCorrelation * DetachTransportFate) DetachReplayRefusalReason :=
  if operation_loss_pending a then Refused a (correlation, fate) DRR_LostAuthorityPending
  else if detach_authority_matches a correlation then
    let a := set_replay a (set_status (replay_state a) DRS_Parked) in
    Applied (set_expected a (option_map (fun e => set_issued e false) (cpa_expected a))) tt
  else Refused a (correlation, fate) DRR_InvalidStatus.

Definition apply_attach (a : ClientParticipantAggregate) (attach : AttachBound)
    (correlation : ClientResponseCorrelation)
    : Decision unit (AttachBound * ClientResponseCorrelation) DetachReplayRefusalReason :=
  if operation_loss_pending a then Refused a (attach, correlation) DRR_LostAuthorityPending
  else if detach_authority_matches a correlation then
    let '(state, applied) := replay_apply_attach (replay_state a) attach in
    if applied then Applied (set_expected (set_replay a state) None) tt
    else Refused (set_replay a state) (attach, correlation) DRR_ForeignInput
  else Refused a (attach, correlation) DRR_ForeignInput.

Definition apply_leave_durable (a : ClientParticipantAggregate) (leave : LeaveCommitted)
    (correlation : ClientResponseCorrelation)
    : Decision unit (LeaveCommitted * ClientResponseCorrelation) DetachReplayRefusalReason :=
  if operation_loss_pending a then Refused a (leave, correlation) DRR_LostAuthorityPending
  else if detach_authority_matches a correlation then
    let '(state, applied) := replay_apply_leave (replay_state a) leave in
    if applied then Applied (set_expected (set_replay a state) None) tt
    else Refused (set_replay a state) (leave, correlation) DRR_ForeignInput
  else Refused a (leave, correlation) DRR_ForeignInput.

Inductive DetachReplayOutcome :=
| DRO_DetachCommitted (v : DetachCommitted)
| DRO_DetachInProgress (v : DetachInProgress)
| DRO_TerminalizedDetachCell (v : TerminalizedDetachCell).

Definition apply_detach_outcome (a : ClientParticipantAggregate) (outcome : DetachReplayOutcome)
    (correlation : ClientResponseCorrelation)
    : Decision unit (DetachReplayOutcome * ClientResponseCorrelation) DetachReplayRefusalReason :=
  if operation_loss_pending a then Refused a (outcome, correlation) DRR_LostAuthorityPending
  else if negb (detach_authority_matches a correlation)
  then Refused a (outcome, correlation) DRR_InvalidStatus
  else
    let '(state, applied) :=
      match outcome with
      | DRO_DetachCommitted value => apply_detach_committed (replay_state a) value
      | DRO_DetachInProgress value => apply_detach_in_progress (replay_state a) value
      | DRO_TerminalizedDetachCell value => apply_terminalized_detach_cell (replay_state a) value
      end in
    if applied then Applied (set_expected (set_replay a state) None) tt
    else Refused (set_replay a state) (outcome, correlation) DRR_ForeignInput.

(** ** barrier.rs *)

Record ExpectedParticipantOperation := mkOperation {
  epo_request : ClientRequest;
  epo_authorization : Z;
}.
(** [ExpectedParticipantOperation::into_request]. *)
Definition operation_into_request (o : ExpectedParticipantOperation)
    : ClientRequest * ClientResponseCorrelation :=
  (epo_request o, mkCorrelation (epo_authorization o)).

Inductive ClientOperationRecordRefusalReason :=
| COR_OutstandingOperation | COR_DetachReplayOutstanding | COR_DetachReplayIncompatible
| COR_AbandonmentPending | COR_BindingMismatch | COR_AlreadyDead | COR_AmbiguousCorrelation
| COR_AuthorizationExhausted.

Record ClientPendingOperationRecord := mkPendingOperation {
  cpo_successor : ClientParticipantAggregate;
  cpo_operation : ExpectedParticipantOperation;
  cpo_prior_replay : option DetachReplayState;
}.
Record ClientOperationCommit := mkOperationCommit {
  coc_aggregate : ClientParticipantAggregate;
  coc_operation : ExpectedParticipantOperation;
}.

Definition operation_commit (p : ClientPendingOperationRecord) : ClientOperationCommit :=
  mkOperationCommit (cpo_successor p) (cpo_operation p).

Definition operation_abort (p : ClientPendingOperationRecord)
    : ClientParticipantAggregate * ClientRequest :=
  let successor := set_expected (cpo_successor p) None in
  let successor := set_next successor (saturating_sub (epo_authorization (cpo_operation p)) 1) in
  let successor :=
    match cpo_prior_replay p with
    | Some prior_replay => set_replay successor prior_replay
    | None => successor
    end in
  (successor, epo_request (cpo_operation p)).

(** [ClientOperationCommit::into_parts]. *)
Definition commit_into_parts (c : ClientOperationCommit)
    : ClientParticipantAggregate * ExpectedParticipantOperation :=
  let a := coc_aggregate c in
  let a := set_expected a (option_map (fun e => set_issued e true) (cpa_expected a)) in
  let a := if is_detach (epo_request (coc_operation c))
           then set_replay a (mark_initial_attempt_started (replay_state a)) else a in
  (a, coc_operation c).

Inductive RecoveredExpectedOperationDecision :=
| REO_Recovered (aggregate : ClientParticipantAggregate) (operation : ExpectedParticipantOperation)
| REO_NotAvailable (aggregate : ClientParticipantAggregate) (already_issued : bool).

Definition recover_expected_operation (a : ClientParticipantAggregate)
    : RecoveredExpectedOperationDecision :=
  match cpa_expected a with
  | None => REO_NotAvailable a false
  | Some expected =>
      if eos_issued expected then REO_NotAvailable a true
      else
        let request := eos_request expected in
        let authorization := eos_authorization expected in
        let a := set_expected a (Some (set_issued expected true)) in
        let a := if is_detach request
                 then set_replay a (mark_initial_attempt_started (replay_state a)) else a in
        REO_Recovered a (mkOperation request authorization)
  end.

Inductive LostAuthorityResolutionRefusalReason := LAR_NoPendingTestimony.
Inductive LostOperationAuthorityDecision :=
| LOD_Recorded (aggregate : ClientParticipantAggregate) (request : ClientRequest)
    (testimony : LostAuthorityTestimony)
| LOD_DetachParked (aggregate : ClientParticipantAggregate) (request : ClientRequest)
    (testimony : LostAuthorityTestimony)
| LOD_Refused (aggregate : ClientParticipantAggregate)
    (reason : LostAuthorityResolutionRefusalReason).

Definition resolve_lost_operation_authority (a : ClientParticipantAggregate)
    : LostOperationAuthorityDecision :=
  match cpa_expected a with
  | None => LOD_Refused a LAR_NoPendingTestimony
  | Some expected =>
      match eos_lost expected with
      | None => LOD_Refused a LAR_NoPendingTestimony
      | Some testimony =>
          if is_detach (eos_request expected) then
            let a := set_expected a (Some (mkExpected (eos_request expected) false
                                             (eos_authorization expected) None)) in
            LOD_DetachParked (set_replay a (set_status (replay_state a) DRS_Parked))
              (eos_request expected) testimony
          else LOD_Recorded (set_expected a None) (eos_request expected) testimony
      end
  end.

Inductive ExpectedOperationTransportFate := EOF_ResponseUnavailable.
Inductive ExpectedOperationFateRefusalReason :=
| EOR_NoIssuedOperation | EOR_StaleCorrelation | EOR_DetachUsesReplayFate
| EOR_LostAuthorityPending.

(** Releases the request whose response became unavailable. *)
Definition record_expected_operation_fate (a : ClientParticipantAggregate)
    (correlation : ClientResponseCorrelation) (fate : ExpectedOperationTransportFate)
    : Decision (ClientRequest * ExpectedOperationTransportFate)
        (ClientResponseCorrelation * ExpectedOperationTransportFate)
        ExpectedOperationFateRefusalReason :=
  match cpa_expected a with
  | None => Refused a (correlation, fate) EOR_NoIssuedOperation
  | Some expected =>
      if negb (eos_issued expected) then Refused a (correlation, fate) EOR_NoIssuedOperation
      else if is_some (eos_lost expected) then Refused a (correlation, fate) EOR_LostAuthorityPending
      else if negb (eos_authorization expected =? crc_authorization correlation)
      then Refused a (correlation, fate) EOR_StaleCorrelation
      else if is_detach (eos_request expected)
      then Refused a (correlation, fate) EOR_DetachUsesReplayFate
      else Applied (set_expected a None) (eos_request expected, fate)
  end.

Inductive ClientOperationRecordDecision :=
| CRD_Pending (p : ClientPendingOperationRecord)
| CRD_Continuous (aggregate : ClientParticipantAggregate)
    (operation : ExpectedParticipantOperation)
| CRD_Refused (aggregate : ClientParticipantAggregate) (request : ClientRequest)
    (reason : ClientOperationRecordRefusalReason).

Definition admit_detach_replay (a : ClientParticipantAggregate) (request : ClientRequest)
    : ClientParticipantAggregate
      * result (option DetachReplayState) ClientOperationRecordRefusalReason :=
  match request with
  | CR_Detach value =>
      let envelope := mkDetachEnvelope (dr_conversation_id value) (dr_participant_id value)
                        (dr_capability_generation value) (dr_detach_attempt_token value) in
      let prior := replay_state a in
      match prior with
      | DR_Empty => (set_replay a (DR_Recorded envelope DRS_Parked), Ok (Some prior))
      | DR_Recorded retained status =>
          if bool_decide (retained = envelope) then
            match status with
            | DRS_Parked => (a, Ok (Some prior))
            | _ => (a, Err COR_DetachReplayIncompatible)
            end
          else if can_replace_with prior envelope
          then (set_replay a (DR_Recorded envelope DRS_Parked), Ok (Some prior))
          else (a, Err COR_DetachReplayOutstanding)
      end
  | _ => (a, Ok None)
  end.

Definition record_operation (a : ClientParticipantAggregate) (request : ClientRequest)
    : ClientOperationRecordDecision :=
  if negb (accepts_request (cpa_binding a) request) then
    CRD_Refused a request
      (if is_left (cpa_binding a) then COR_AlreadyDead else COR_BindingMismatch)
  else
    match request with
    | CR_ParticipantAck _ => CRD_Continuous a (mkOperation request 0)
    | _ =>
        if is_some (cpa_expected a) then CRD_Refused a request COR_OutstandingOperation
        else if is_some (cpa_restored_abandonment a) && is_observer_recovery request
        then CRD_Refused a request COR_AbandonmentPending
        else
          match checked_add u64_max (cpa_next_operation_authorization a) 1 with
          | None => CRD_Refused a request COR_AuthorizationExhausted
          | Some authorization =>
              match admit_detach_replay a request with
              | (a, Err reason) => CRD_Refused a request reason
              | (a, Ok prior_replay) =>
                  let a := set_next a authorization in
                  let a := set_expected a (Some (mkExpected request false authorization None)) in
                  CRD_Pending (mkPendingOperation a (mkOperation request authorization)
                                 prior_replay)
              end
          end
    end.

(** ** reconnect.rs *)

Record ReconnectAttemptPermit := mkPermit {
  rap_authorization : Z;
  rap_event : ReconnectFreshEvent;
}.
Record ReconnectInProgressAttempt := mkAttempt {
  ria_authorization : Z;
  ria_event : ReconnectFreshEvent;
}.
Inductive ReconnectPermitRefusalReason :=
| RPR_AuthorizationOutstanding | RPR_AuthorizationExhausted.

Definition set_reconnect_state (a : ClientParticipantAggregate) (s : ReconnectMachineState) :=
  set_reconnect a (mkReconnect s (rca_next_authorization (cpa_reconnect a))
                     (rca_lost (cpa_reconnect a))).

Inductive ReconnectPermitDecision :=
| RPD_Permitted (aggregate : ClientParticipantAggregate) (permit : ReconnectAttemptPermit)
    (result : ReconnectDelayResult)
| RPD_Refused (aggregate : ClientParticipantAggregate) (event : ReconnectFreshEvent)
    (reason : ReconnectPermitRefusalReason) (result : ReconnectDelayResult).

Definition record_fresh_event (a : ClientParticipantAggregate) (event : ReconnectFreshEvent)
    : ReconnectPermitDecision :=
  let state := reconnect_state (cpa_reconnect a) in
  let not_armed := RDR_ReconnectNotArmed state (required_event event) in
  match rca_state (cpa_reconnect a) with
  | RM_Parked | RM_Online =>
      match checked_add u64_max (rca_next_authorization (cpa_reconnect a)) 1 with
      | None => RPD_Refused a event RPR_AuthorizationExhausted not_armed
      | Some authorization =>
          RPD_Permitted
            (set_reconnect a (mkReconnect (RM_Permit authorization event true) authorization
                                (rca_lost (cpa_reconnect a))))
            (mkPermit authorization event) (RDR_ReconnectArmed (required_event event))
      end
  | _ => RPD_Refused a event RPR_AuthorizationOutstanding not_armed
  end.

Definition record_transport_fate (a : ClientParticipantAggregate)
    (fate : EstablishedConnectionTransportFate) := record_fresh_event a (RFE_TransportFate fate).
Definition record_online_transition (a : ClientParticipantAggregate)
    (transition : ProvedOnlineTransition) := record_fresh_event a (RFE_OnlineTransition transition).
Definition record_explicit_reconnect (a : ClientParticipantAggregate)
    (action : ExplicitReconnectAction) := record_fresh_event a (RFE_ExplicitCallerAction action).

Inductive RecoveredReconnectPermitDecision :=
| RRP_Recovered (aggregate : ClientParticipantAggregate) (permit : ReconnectAttemptPermit)
| RRP_NotAvailable (aggregate : ClientParticipantAggregate) (state : ReconnectState).

Definition recover_reconnect_permit (a : ClientParticipantAggregate)
    : RecoveredReconnectPermitDecision :=
  match rca_state (cpa_reconnect a) with
  | RM_Permit authorization event false =>
      RRP_Recovered (set_reconnect_state a (RM_Permit authorization event true))
        (mkPermit authorization event)
  | _ => RRP_NotAvailable a (reconnect_state (cpa_reconnect a))
  end.

Inductive LostReconnectAuthorityDecision :=
| LRD_Recorded (aggregate : ClientParticipantAggregate) (testimony : LostAuthorityTestimony)
| LRD_Refused (aggregate : ClientParticipantAggregate)
    (reason : LostAuthorityResolutionRefusalReason).

Definition resolve_lost_reconnect_authority (a : ClientParticipantAggregate)
    : LostReconnectAuthorityDecision :=
  match rca_lost (cpa_reconnect a) with
  | Some testimony =>
      LRD_Recorded
        (set_reconnect a (mkReconnect RM_Parked (rca_next_authorization (cpa_reconnect a)) None))
        testimony
  | None => LRD_Refused a LAR_NoPendingTestimony
  end.

Inductive ReconnectAttemptRefusalReason :=
| RAR_NoPermit | RAR_StalePermit | RAR_LostAuthorityPending.

Definition redeem_attempt (a : ClientParticipantAggregate) (permit : ReconnectAttemptPermit)
    : Decision ReconnectInProgressAttempt ReconnectAttemptPermit ReconnectAttemptRefusalReason :=
  if is_some (rca_lost (cpa_reconnect a)) then Refused a permit RAR_LostAuthorityPending
  else
    match rca_state (cpa_reconnect a) with
    | RM_Permit authorization event _ =>
        if (authorization =? rap_authorization permit) && bool_decide (event = rap_event permit)
        then Applied (set_reconnect_state a (RM_Attempt authorization event))
               (mkAttempt authorization event)
        else Refused a permit RAR_StalePermit
    | RM_Parked | RM_Attempt _ _ | RM_Online => Refused a permit RAR_NoPermit
    end.

Inductive ReconnectAttemptFate := RAF_Connected | RAF_Failed.
Inductive ReconnectAttemptFateRefusalReason :=
| RFR_NoAttempt | RFR_StaleAttempt | RFR_LostAuthorityPending.

Definition record_attempt_fate (a : ClientParticipantAggregate)
    (attempt : ReconnectInProgressAttempt) (fate : ReconnectAttemptFate)
    : Decision unit (ReconnectInProgressAttempt * ReconnectAttemptFate)
        ReconnectAttemptFateRefusalReason :=
  if is_some (rca_lost (cpa_reconnect a)) then Refused a (attempt, fate) RFR_LostAuthorityPending
  else
    match rca_state (cpa_reconnect a) with
    | RM_Attempt authorization event =>
        if (authorization =? ria_authorization attempt) && bool_decide (event = ria_event attempt)
        then Applied (set_reconnect_state a
               match fate with RAF_Connected => RM_Online | RAF_Failed => RM_Parked end) tt
        else Refused a (attempt, fate) RFR_StaleAttempt
    | RM_Parked | RM_Permit _ _ _ | RM_Online => Refused a (attempt, fate) RFR_NoAttempt
    end.
