(* ===== verification/Correlation.v ===== *)
(** * Client request and response correlation

    Model of [liminal-protocol/src/client/correlation.rs]: the key a request is sent
    under, the key a server value carries back, and the two relations the inbound
    handler decides with, an exact match of the outstanding request and a weaker
    agreement of identity. *)
From coqutil Require Import Byte.
From S2P Require Import Prelude Algebra Tags Wire Response Member Client.

Inductive RequestKey :=
| KEY_Unsolicited
| KEY_ObserverRecovery (authorization : Z)
| KEY_Enrollment (c : ConversationId) (t : EnrollmentToken)
| KEY_Attach (c : ConversationId) (p : ParticipantId) (g : Generation)
    (t : AttachAttemptToken) (m : option DeliverySeq)
| KEY_Detach (c : ConversationId) (p : ParticipantId) (g : Generation) (t : DetachAttemptToken)
| KEY_Ack (c : ConversationId) (p : ParticipantId) (g : Generation) (s : DeliverySeq)
| KEY_Leave (c : ConversationId) (p : ParticipantId) (g : Generation) (t : LeaveAttemptToken)
| KEY_MarkerAck (c : ConversationId) (p : ParticipantId) (g : Generation) (s : DeliverySeq)
| KEY_Record (c : ConversationId) (p : ParticipantId) (g : Generation)
    (t : RecordAdmissionAttemptToken).

#[export] Instance RequestKey_eq_dec : EqDecision RequestKey.
Proof.
  unfold ConversationId, ParticipantId, DeliverySeq, Generation, EnrollmentToken,
    AttachAttemptToken, DetachAttemptToken, LeaveAttemptToken, RecordAdmissionAttemptToken, Token.
  solve_decision.
Defined.

Definition from_request (request : ClientRequest) (authorization : Z) : RequestKey :=
  match request with
  | CR_Enrollment v => KEY_Enrollment (er_conversation_id v) (er_enrollment_token v)
  | CR_CredentialAttach v =>
      KEY_Attach (car_conversation_id v) (car_participant_id v) (car_capability_generation v)
        (car_attach_attempt_token v) (car_accept_marker_delivery_seq v)
  | CR_Detach v =>
      KEY_Detach (dr_conversation_id v) (dr_participant_id v) (dr_capability_generation v)
        (dr_detach_attempt_token v)
  | CR_ParticipantAck v =>
      KEY_Ack (pa_conversation_id v) (pa_participant_id v) (pa_capability_generation v)
        (pa_through_seq v)
  | CR_Leave v =>
      KEY_Leave (lr_conversation_id v) (lr_participant_id v) (lr_capability_generation v)
        (lr_leave_attempt_token v)
  | CR_MarkerAck v =>
      KEY_MarkerAck (ma_conversation_id v) (ma_participant_id v) (ma_capability_generation v)
        (ma_marker_delivery_seq v)
  | CR_RecordAdmission v =>
      KEY_Record (ra_conversation_id v) (ra_participant_id v) (ra_capability_generation v)
        (ra_record_admission_attempt_token v)
  | CR_ObserverRecovery _ => KEY_ObserverRecovery authorization
  end.

Definition key_same_identity (self other : RequestKey) : bool :=
  match self, other with
  | KEY_Enrollment lc _, KEY_Enrollment rc _ => lc =? rc
  | KEY_Attach lc lp _ _ _, KEY_Attach rc rp _ _ _
  | KEY_Detach lc lp _ _, KEY_Detach rc rp _ _
  | KEY_Ack lc lp _ _, KEY_Ack rc rp _ _
  | KEY_Leave lc lp _ _, KEY_Leave rc rp _ _
  | KEY_MarkerAck lc lp _ _, KEY_MarkerAck rc rp _ _
  | KEY_Record lc lp _ _, KEY_Record rc rp _ _ => (lc =? rc) && (lp =? rp)
  | KEY_ObserverRecovery _, KEY_ObserverRecovery _ => true
  | _, _ => false
  end.

(** ** The key of each envelope *)

Definition key_enrollment (v : EnrollmentEnvelope) : RequestKey :=
  KEY_Enrollment (ee_conversation_id v) (ee_enrollment_token v).
Definition key_attach (v : AttachEnvelope) : RequestKey :=
  KEY_Attach (ae_conversation_id v) (ae_participant_id v) (ae_capability_generation v)
    (ae_attach_attempt_token v) (ae_accept_marker_delivery_seq v).
Definition key_detach (v : DetachEnvelope) : RequestKey :=
  KEY_Detach (de_conversation_id v) (de_participant_id v) (de_capability_generation v)
    (de_detach_attempt_token v).
Definition key_participant_ack (v : ParticipantAckEnvelope) : RequestKey :=
  KEY_Ack (pae_conversation_id v) (pae_participant_id v) (pae_capability_generation v)
    (pae_through_seq v).
Definition key_leave (v : LeaveEnvelope) : RequestKey :=
  KEY_Leave (le_conversation_id v) (le_participant_id v) (le_capability_generation v)
    (le_leave_attempt_token v).
Definition key_marker_ack (v : MarkerAckEnvelope) : RequestKey :=
  KEY_MarkerAck (mae_conversation_id v) (mae_participant_id v) (mae_capability_generation v)
    (mae_marker_delivery_seq v).
Definition key_record (v : RecordAdmissionEnvelope) : RequestKey :=
  KEY_Record (rae_conversation_id v) (rae_participant_id v) (rae_capability_generation v)
    (rae_record_admission_attempt_token v).

Definition key_response_envelope (v : ResponseEnvelope) : RequestKey :=
  match v with
  | RE_Enrollment v => key_enrollment v
  | RE_CredentialAttach v => key_attach v
  | RE_Detach v => key_detach v
  | RE_ParticipantAck v => key_participant_ack v
  | RE_Leave v => key_leave v
  | RE_MarkerAck v => key_marker_ack v
  | RE_RecordAdmission v => key_record v
  end.
Definition key_participant_reference (v : ParticipantReferenceEnvelope) : RequestKey :=
  match v with
  | PRE_CredentialAttach v => key_attach v
  | PRE_Detach v => key_detach v
  | PRE_ParticipantAck v => key_participant_ack v
  | PRE_Leave v => key_leave v
  | PRE_MarkerAck v => key_marker_ack v
  | PRE_RecordAdmission v => key_record v
  end.
Definition key_binding_required (v : BindingRequiredEnvelope) : RequestKey :=
  match v with
  | BRE_Detach v => key_detach v
  | BRE_ParticipantAck v => key_participant_ack v
  | BRE_Leave v => key_leave v
  | BRE_MarkerAck v => key_marker_ack v
  | BRE_RecordAdmission v => key_record v
  end.
Definition key_closure_envelope (v : ClosureCheckedEnvelope) : RequestKey :=
  match v with
  | CCE_Enrollment v => key_enrollment v
  | CCE_CredentialAttach v => key_attach v
  | CCE_Leave v => key_leave v
  | CCE_RecordAdmission v => key_record v
  end.
Definition key_order_envelope (v : OrderAllocatingEnvelope) : RequestKey :=
  match v with
  | OAE_Enrollment v => key_enrollment v
  | OAE_CredentialAttach v => key_attach v
  | OAE_RecordAdmission v => key_record v
  end.
Definition key_sequence_envelope (v : SequenceAllocatingEnvelope) : RequestKey :=
  match v with
  | SAE_Enrollment v => key_enrollment v
  | SAE_CredentialAttach v => key_attach v
  | SAE_RecordAdmission v => key_record v
  end.

Definition key_attempt_conflict (v : AttemptTokenBodyConflict) : RequestKey :=
  match v with
  | ATB_CredentialAttach token conversation_id presented_participant_id presented_generation
      presented_marker_delivery_seq _ =>
      KEY_Attach conversation_id presented_participant_id presented_generation token
        presented_marker_delivery_seq
  | ATB_Leave token conversation_id presented_participant_id presented_generation =>
      KEY_Leave conversation_id presented_participant_id presented_generation token
  | ATB_RecordAdmission token conversation_id presented_participant_id presented_generation =>
      KEY_Record conversation_id presented_participant_id presented_generation token
  end.
Definition key_connection_capacity (v : ConnectionConversationCapacityExceeded) : RequestKey :=
  match v with
  | CCC_SemanticRequest request _ => key_response_envelope request
  | CCC_ObserverRecovery _ _ => KEY_ObserverRecovery 0
  end.
Definition key_binding_occupied (v : ConnectionConversationBindingOccupied) : RequestKey :=
  match v with
  | CCB_Enrollment conversation_id enrollment_token =>
      KEY_Enrollment conversation_id enrollment_token
  | CCB_CredentialAttach conversation_id participant_id capability_generation
      attach_attempt_token accept_marker_delivery_seq =>
      KEY_Attach conversation_id participant_id capability_generation attach_attempt_token
        accept_marker_delivery_seq
  end.

Definition key_stale_authority (v : StaleAuthority) : RequestKey :=
  match v with
  | SA_Live request _ =>
      match request with
      | CSA_CredentialAttach v => key_attach v
      | CSA_ParticipantAck v => key_participant_ack v
      | CSA_MarkerAck v => key_marker_ack v
      | CSA_RecordAdmission v => key_record v
      end
  | SA_Detach v =>
      match v with
      | DSA_Live conversation_id participant_id capability_generation detach_attempt_token _ =>
          KEY_Detach conversation_id participant_id capability_generation detach_attempt_token
      | DSA_TerminalizedDetachCell v =>
          KEY_Detach (tdc_conversation_id v) (tdc_participant_id v)
            (tdc_capability_generation v) (tdc_detach_attempt_token v)
      end
  | SA_Leave v =>
      match v with
      | LSA_Live conversation_id participant_id presented_generation leave_attempt_token _
      | LSA_CommittedLeaveTombstone conversation_id participant_id presented_generation
          leave_attempt_token _ =>
          KEY_Leave conversation_id participant_id presented_generation leave_attempt_token
      end
  end.

Definition key_enroll_bound (v : EnrollBound) : RequestKey :=
  KEY_Enrollment (eb_conversation_id v) (eb_token v).
Definition key_attach_bound (v : AttachBound) : RequestKey :=
  KEY_Attach (ab_conversation_id v) (ab_participant_id v) (ab_request_generation v)
    (ab_token v) (ab_accepted_marker_delivery_seq v).
Definition key_receipt_expired (v : ReceiptExpired) : RequestKey :=
  match v with
  | RX_Enrollment conversation_id token _ _ _ _ => KEY_Enrollment conversation_id token
  | RX_CredentialAttach conversation_id token participant_id presented_generation
      presented_marker_delivery_seq _ _ _ =>
      KEY_Attach conversation_id participant_id presented_generation token
        presented_marker_delivery_seq
  end.
Definition key_observer_backpressure (v : ObserverBackpressure) : RequestKey :=
  match v with
  | OB_Enrollment request _ => key_enrollment request
  | OB_CredentialAttach request _ => key_attach request
  | OB_Detach request _ _ => key_detach request
  | OB_Leave request _ _ => key_leave request
  | OB_RecordAdmission request _ => key_record request
  end.
Definition key_marker_proof (v : MarkerProofRequest) : RequestKey :=
  match v with
  | MPR_CredentialAttach v =>
      KEY_Attach (amp_conversation_id v) (amp_participant_id v) (amp_capability_generation v)
        (amp_token v) (Some (amp_requested_marker_delivery_seq v))
  | MPR_MarkerAck v =>
      KEY_MarkerAck (mp_conversation_id v) (mp_participant_id v) (mp_capability_generation v)
        (mp_requested_marker_delivery_seq v)
  end.

(** ** The key of a server value *)

Definition response_key (value : ServerValue) (ambiguous_authorization : Z) : RequestKey :=
  let key :=
    match value with
    | SV_ParticipantTransportRejected _
    | SV_MarkerSettlementBackpressure _
    | SV_EnrollmentSettlementBackpressure _ => KEY_Unsolicited
    | SV_AttemptTokenBodyConflict v => key_attempt_conflict v
    | SV_ConnectionConversationCapacityExceeded v => key_connection_capacity v
    | SV_ConnectionConversationBindingOccupied v => key_binding_occupied v
    | SV_ConversationOrderExhausted v => key_order_envelope (coe_request v)
    | SV_ParticipantUnknown v => key_participant_reference (pu_request v)
    | SV_NoBinding v => key_binding_required (nb_request v)
    | SV_StaleAuthority v => key_stale_authority v
    | SV_Retired (Retired_Enrollment request _ _) => key_enrollment request
    | SV_Retired (Retired_Participant request _) => key_participant_reference request
    | SV_MarkerClosureCapacityExceeded v => key_closure_envelope (mcce_request v)
    | SV_EnrollBound v
    | SV_Bound (RR_Enrollment v)
    | SV_UnboundReceipt (RR_Enrollment v) => key_enroll_bound v
    | SV_EnrollmentKnown v => KEY_Enrollment (ek_conversation_id v) (ek_token v)
    | SV_ReceiptExpired v => key_receipt_expired v
    | SV_ReceiptCapacityExceeded (RCE_Enrollment request _ _ _) => key_enrollment request
    | SV_ReceiptCapacityExceeded (RCE_CredentialAttach request _ _ _) => key_attach request
    | SV_IdentityCapacityExceeded v => key_enrollment (ice_request v)
    | SV_ObserverBackpressure v => key_observer_backpressure v
    | SV_ConversationSequenceExhausted v => key_sequence_envelope (cse_request v)
    | SV_AttachBound v
    | SV_Bound (RR_CredentialAttach v)
    | SV_UnboundReceipt (RR_CredentialAttach v) => key_attach_bound v
    | SV_StaleOrUnknownReceipt v =>
        KEY_Attach (sur_conversation_id v) (sur_participant_id v) (sur_presented_generation v)
          (sur_token v) (sur_presented_marker_delivery_seq v)
    | SV_MarkerNotDelivered v => key_marker_proof (mnd_request v)
    | SV_MarkerMismatch v => key_marker_proof (mmm_request v)
    | SV_DetachCommitted v =>
        KEY_Detach (dcm_conversation_id v) (dcm_participant_id v)
          (dcm_capability_generation v) (dcm_detach_attempt_token v)
    | SV_DetachInProgress v =>
        KEY_Detach (dip_conversation_id v) (dip_participant_id v) (dip_presented_generation v)
          (dip_presented_token v)
    | SV_AckCommitted v => key_participant_ack (acm_request v)
    | SV_AckNoOp (ANO_ParticipantAck request) => key_participant_ack request
    | SV_AckNoOp (ANO_MarkerAck request) => key_marker_ack request
    | SV_AckGap v => key_participant_ack (ag_request v)
    | SV_AckRegression v => key_participant_ack (ar_request v)
    | SV_LeaveCommitted v =>
        KEY_Leave (lc_conversation_id v) (lc_participant_id v) (lc_presented_generation v)
          (lc_leave_attempt_token v)
    | SV_MarkerAckCommitted v => key_marker_ack (mac_request v)
    | SV_RecordCommitted v => key_record (rcm_request v)
    | SV_RecordTooLarge v => key_record (rtl_request v)
    | SV_ObserverRecoveryAccepted _
    | SV_InvalidObserverEpoch _
    | SV_InvalidObserverEpochList _ => KEY_ObserverRecovery 0
    end in
  match key with
  | KEY_ObserverRecovery _ => KEY_ObserverRecovery ambiguous_authorization
  | other => other
  end.

(** ** The relations the inbound handler decides with *)

Definition settlement_matches_request (value : ServerValue) (request : ClientRequest)
    : option bool :=
  match value with
  | SV_MarkerSettlementBackpressure refusal =>
      Some match refusal, request with
           | MSB_CredentialAttach conversation_id _, CR_CredentialAttach pending =>
               conversation_id =? car_conversation_id pending
           | MSB_Detach conversation_id _, CR_Detach pending =>
               conversation_id =? dr_conversation_id pending
           | _, _ => false
           end
  | SV_EnrollmentSettlementBackpressure refusal =>
      Some match request with
           | CR_Enrollment pending => esb_conversation_id refusal =? er_conversation_id pending
           | _ => false
           end
  | _ => None
  end.

Definition status_matches (actual : ObserverProgressStatus) (expected : ObserverRefusal) : bool :=
  (ops_conversation_id actual =? orf_conversation_id expected)
  && (ops_refused_epoch actual =? orf_refused_epoch expected).

(** [iter().zip(..).all(..)] after the length test. *)
Definition observer_response_matches (value : ServerValue) (expected : ObserverRecoveryHandshake)
    : bool :=
  match value with
  | SV_ObserverRecoveryAccepted response =>
      (Nat.eqb (length (ora_statuses response)) (length (orh_observer_refusals expected)))
      && forallb (fun p => status_matches p.1 p.2)
           (combine (ora_statuses response) (orh_observer_refusals expected))
  | SV_InvalidObserverEpoch response =>
      if Nat.eqb (length (orh_observer_refusals expected)) 1 then
        match head (orh_observer_refusals expected) with
        | None => false
        | Some expected =>
            match response with
            | IOE_ConversationUnknown conversation_id presented_epoch
            | IOE_EpochAhead conversation_id presented_epoch _ =>
                (conversation_id =? orf_conversation_id expected)
                && (presented_epoch =? orf_refused_epoch expected)
            end
        end
      else false
  | _ => false
  end.

Definition matches_request (value : ServerValue) (request : ClientRequest) : bool :=
  match request with
  | CR_ObserverRecovery expected => observer_response_matches value expected
  | _ =>
      match settlement_matches_request value request with
      | Some matched => matched
      | None => bool_decide (response_key value 0 = from_request request 0)
      end
  end.

Definition same_identity (value : ServerValue) (request : ClientRequest) : bool :=
  key_same_identity (response_key value 0) (from_request request 0).

Definition participant_ack_request (value : ServerValue) : option ParticipantAckEnvelope :=
  match value with
  | SV_AckCommitted v => Some (acm_request v)
  | SV_AckNoOp (ANO_ParticipantAck v) => Some v
  | SV_AckGap v => Some (ag_request v)
  | SV_AckRegression v => Some (ar_request v)
  | _ => None
  end.
