(* ===== verification/Inbound.v ===== *)
(** * Client inbound handler

    Model of [liminal-protocol/src/client/inbound.rs]: a server value is applied to
    the client aggregate only when it is an acknowledgement of the current binding, a
    transport rejection, or the answer of the one outstanding request presented with
    that request's own correlation.  Applying an answer clears the outstanding slot
    and settles the detach replay in the same step. *)
From coqutil Require Import Byte.
From S2P Require Import Prelude Algebra Tags Wire Response Member Lookup Client Correlation.

Inductive ClientInboundRefusalReason :=
| CIR_AlreadyDead | CIR_ForeignResponse | CIR_DelayedResponse | CIR_AmbiguousResponse
| CIR_MissingResponseAuthority | CIR_LostAuthorityPending.

Definition apply_enroll_bound (a : ClientParticipantAggregate) (value : EnrollBound)
    : ClientParticipantAggregate :=
  set_binding a (CB_Bound (eb_conversation_id value) (eb_participant_id value)
    (eb_capability_generation value) (eb_attach_secret value) (eb_origin_binding_epoch value)).

Definition apply_unbound_attach_receipt (a : ClientParticipantAggregate) (value : AttachBound)
    : ClientParticipantAggregate :=
  set_binding a (CB_Detached (ab_conversation_id value) (ab_participant_id value)
    (ab_capability_generation value) (ab_attach_secret value)).

Definition apply_attach_bound (a : ClientParticipantAggregate) (value : AttachBound)
    : ClientParticipantAggregate :=
  set_binding a (CB_Bound (ab_conversation_id value) (ab_participant_id value)
    (ab_capability_generation value) (ab_attach_secret value) (ab_origin_binding_epoch value)).

Definition participant_reference_identity (request : ParticipantReferenceEnvelope)
    : ConversationId * ParticipantId :=
  match request with
  | PRE_CredentialAttach v => (ae_conversation_id v, ae_participant_id v)
  | PRE_Detach v => (de_conversation_id v, de_participant_id v)
  | PRE_ParticipantAck v => (pae_conversation_id v, pae_participant_id v)
  | PRE_Leave v => (le_conversation_id v, le_participant_id v)
  | PRE_MarkerAck v => (mae_conversation_id v, mae_participant_id v)
  | PRE_RecordAdmission v => (rae_conversation_id v, rae_participant_id v)
  end.

Definition apply_retired (a : ClientParticipantAggregate) (value : Retired)
    : ClientParticipantAggregate :=
  let '(conversation_id, participant_id, generation) :=
    match value with
    | Retired_Enrollment request participant_id retired_generation =>
        (ee_conversation_id request, participant_id, retired_generation)
    | Retired_Participant request retired_generation =>
        let '(conversation_id, participant_id) := participant_reference_identity request in
        (conversation_id, participant_id, retired_generation)
    end in
  let a := set_binding a (CB_Left conversation_id participant_id generation) in
  set_replay a (replay_apply_retired (replay_state a) conversation_id participant_id
                  generation).1.

Definition apply_correlated_value (a : ClientParticipantAggregate) (value : ServerValue)
    : ClientParticipantAggregate :=
  match value with
  | SV_EnrollBound value => apply_enroll_bound a value
  | SV_Bound (RR_Enrollment value) => apply_enroll_bound a value
  | SV_AttachBound value | SV_Bound (RR_CredentialAttach value) =>
      let a := apply_attach_bound a value in
      set_replay a (replay_apply_attach (replay_state a) value).1
  | SV_UnboundReceipt (RR_CredentialAttach value) =>
      let a := apply_unbound_attach_receipt a value in
      set_replay a (replay_apply_attach (replay_state a) value).1
  | SV_DetachCommitted value =>
      match cpa_binding a with
      | CB_Bound _ _ _ attach_secret _ | CB_Detached _ _ _ attach_secret =>
          let a := set_binding a (CB_Detached (dcm_conversation_id value)
                     (dcm_participant_id value) (dcm_capability_generation value)
                     attach_secret) in
          set_replay a (apply_detach_committed (replay_state a) value).1
      | CB_Unbound | CB_Left _ _ _ => a
      end
  | SV_DetachInProgress value =>
      set_replay a (apply_detach_in_progress (replay_state a) value).1
  | SV_StaleAuthority (SA_Detach (DSA_TerminalizedDetachCell value)) =>
      set_replay a (apply_terminalized_detach_cell (replay_state a) value).1
  | SV_LeaveCommitted value =>
      let a := set_binding a (CB_Left (lc_conversation_id value) (lc_participant_id value)
                 (lc_retired_generation value)) in
      set_replay a (replay_apply_leave (replay_state a) value).1
  | SV_Retired value => apply_retired a value
  | SV_ParticipantTransportRejected _
  | SV_AttemptTokenBodyConflict _
  | SV_ConnectionConversationCapacityExceeded _
  | SV_ConnectionConversationBindingOccupied _
  | SV_ConversationOrderExhausted _
  | SV_ParticipantUnknown _
  | SV_NoBinding _
  | SV_StaleAuthority _
  | SV_MarkerClosureCapacityExceeded _
  | SV_EnrollmentKnown _
  | SV_ReceiptExpired _
  | SV_ReceiptCapacityExceeded _
  | SV_IdentityCapacityExceeded _
  | SV_ObserverBackpressure _
  | SV_ConversationSequenceExhausted _
  | SV_StaleOrUnknownReceipt _
  | SV_MarkerNotDelivered _
  | SV_MarkerMismatch _
  | SV_UnboundReceipt (RR_Enrollment _)
  | SV_AckCommitted _
  | SV_AckNoOp _
  | SV_AckGap _
  | SV_AckRegression _
  | SV_MarkerAckCommitted _
  | SV_RecordCommitted _
  | SV_RecordTooLarge _
  | SV_ObserverRecoveryAccepted _
  | SV_InvalidObserverEpoch _
  | SV_InvalidObserverEpochList _
  | SV_MarkerSettlementBackpressure _
  | SV_EnrollmentSettlementBackpressure _ => a
  end.

(** The clear of the slot, the application and the settlement of the detach replay.
    The two [debug_assert]s of the source are [retire_settles] and [retire_clears]. *)
Definition retire_expected_operation (a : ClientParticipantAggregate) (value : ServerValue)
    : ClientParticipantAggregate :=
  let expected_detach :=
    match option_map eos_request (cpa_expected a) with
    | Some (CR_Detach request) => Some request
    | _ => None
    end in
  let a := apply_correlated_value (set_expected a None) value in
  match expected_detach with
  | Some request =>
      set_replay a (settle_refused_authority (replay_state a) (detach_envelope request) value).1
  | None => a
  end.

Inductive ClientInboundDecision :=
| CID_Applied (aggregate : ClientParticipantAggregate) (value : ServerValue)
| CID_Refused (aggregate : ClientParticipantAggregate) (value : ServerValue)
    (reason : ClientInboundRefusalReason).

Definition is_transport_rejected (value : ServerValue) : bool :=
  match value with SV_ParticipantTransportRejected _ => true | _ => false end.

(** The reason for a value that does not match the outstanding request. *)
Definition mismatch_reason (value : ServerValue) (request : ClientRequest)
    : ClientInboundRefusalReason :=
  let same_request_class :=
    bool_decide (originating_request value = Some (client_discriminant request))
    || match value, request with
       | SV_ObserverRecoveryAccepted _, CR_ObserverRecovery _
       | SV_InvalidObserverEpoch _, CR_ObserverRecovery _
       | SV_InvalidObserverEpochList _, CR_ObserverRecovery _ => true
       | _, _ => false
       end in
  if same_request_class && same_identity value request then
    match request with
    | CR_RecordAdmission _ => CIR_AmbiguousResponse
    | _ => CIR_DelayedResponse
    end
  else CIR_ForeignResponse.

Definition decide_inbound_inner (a : ClientParticipantAggregate) (value : ServerValue)
    (has_response_authority : bool) : ClientInboundDecision :=
  if is_left (cpa_binding a) then CID_Refused a value CIR_AlreadyDead
  else
    match participant_ack_request value with
    | Some request =>
        if matches_ack (cpa_binding a) request then CID_Applied a value
        else CID_Refused a value CIR_ForeignResponse
    | None =>
        if is_transport_rejected value then CID_Applied a value
        else
          match cpa_expected a with
          | None => CID_Refused a value CIR_DelayedResponse
          | Some expected =>
              if is_some (eos_lost expected) then CID_Refused a value CIR_LostAuthorityPending
              else if negb has_response_authority
              then CID_Refused a value CIR_MissingResponseAuthority
              else if negb (accepts_request (cpa_binding a) (eos_request expected))
              then CID_Refused a value CIR_ForeignResponse
              else if negb (matches_request value (eos_request expected))
              then CID_Refused a value (mismatch_reason value (eos_request expected))
              else CID_Applied (retire_expected_operation a value) value
          end
    end.

Definition decide_inbound (a : ClientParticipantAggregate) (value : ServerValue)
    : ClientInboundDecision :=
  decide_inbound_inner a value false.

Inductive ClientCorrelatedInboundDecision :=
| CCI_Applied (aggregate : ClientParticipantAggregate) (value : ServerValue)
| CCI_Refused (aggregate : ClientParticipantAggregate) (value : ServerValue)
    (correlation : ClientResponseCorrelation) (reason : ClientInboundRefusalReason).

Definition decide_correlated_inbound (a : ClientParticipantAggregate) (value : ServerValue)
    (correlation : ClientResponseCorrelation) : ClientCorrelatedInboundDecision :=
  let current_authority :=
    match cpa_expected a with
    | Some expected =>
        eos_issued expected && (eos_authorization expected =? crc_authorization correlation)
    | None => false
    end in
  if negb current_authority then CCI_Refused a value correlation CIR_DelayedResponse
  else
    match decide_inbound_inner a value true with
    | CID_Applied aggregate value => CCI_Applied aggregate value
    | CID_Refused aggregate value reason => CCI_Refused aggregate value correlation reason
    end.
