(* ===== verification/Resume.v ===== *)
(** * Client resume record

    Model of [liminal-protocol/src/client/resume.rs], [resume_encode.rs] and
    [resume_decode.rs]: the canonical bytes of a client aggregate, the decoder that
    accepts exactly those, and the cold restore that validates the facts and replaces
    every authority the process held by a testimony of its loss.  The reader of the
    source is a slice and an offset that only [take] moves; here it is the part of the
    slice not yet taken. *)
From coqutil Require Import Byte.
From S2P Require Import Prelude Correlation Algebra Tags Wire Response Bytes FrameCodec Member.
From S2P Require Import Client.

(** [*b"LPCR"]. *)
Definition MAGIC : list byte := [Byte.x4c; Byte.x50; Byte.x43; Byte.x52].
Definition VERSION : Z := 1.
Definition HEADER_LEN : Z := 14.

Inductive ClientResumeRecordSection :=
| CRS_Binding | CRS_ExpectedOperation | CRS_DetachReplay | CRS_Reconnect | CRS_Abandonment.

Inductive ClientResumeRecordEncodeError :=
| REE_NestedCodec (section : ClientResumeRecordSection) (source : CodecError)
| REE_LengthOverflow
| REE_DecoupledDetachReplay.

Inductive ClientResumeRecordDecodeError :=
| RDE_Truncated (needed remaining : Z)
| RDE_InvalidMagic (presented : list byte)
| RDE_UnsupportedVersion (presented : Z)
| RDE_LengthMismatch (declared actual : Z)
| RDE_InvalidTag (section : ClientResumeRecordSection) (tag : Z)
| RDE_NestedCodec (section : ClientResumeRecordSection) (source : option CodecError)
| RDE_InvalidAbandonmentRequest (request : ClientDiscriminant)
| RDE_TrailingBytes (remaining : Z).

Inductive ClientResumeRestoreError :=
| RSE_BindingGenerationMismatch
| RSE_ContinuousAckOutstanding
| RSE_ReplayTerminalMismatch
| RSE_InvalidOperationAuthorization
| RSE_ExpectedBindingMismatch
| RSE_ActiveReplayExpectedDetachMismatch
| RSE_ExpectedDetachActiveReplayMismatch
| RSE_InvalidReconnectAuthorization
| RSE_LostAuthorityTestimonyMismatch
| RSE_PendingAbandonmentConflict
| RSE_CorruptRecord (e : ClientResumeRecordDecodeError).

(** ** resume_encode.rs *)

(** [output.push(tag)]. *)
Definition push (tag : Z) (output : list byte) : list byte := output ++ be 1 tag.
Definition rec_put_u16 (output : list byte) (value : Z) : list byte := output ++ be 2 value.
Definition rec_put_u64 (output : list byte) (value : Z) : list byte := output ++ be 8 value.
Definition put_blob (output bytes : list byte)
    : result (list byte) ClientResumeRecordEncodeError :=
  if blen bytes <=? u64_max then Ok (rec_put_u64 output (blen bytes) ++ bytes)
  else Err REE_LengthOverflow.

Definition encode_frame (frame : ParticipantFrame) (section : ClientResumeRecordSection)
    : result (list byte) ClientResumeRecordEncodeError :=
  let? length := map_err (REE_NestedCodec section) (encoded_len frame) in
  let bytes := repeat Byte.x00 (Z.to_nat length) in
  let? (written, bytes) := map_err (REE_NestedCodec section) (encode frame bytes) in
  Ok (take (Z.to_nat written) bytes).

Definition encode_epoch (epoch : BindingEpoch) (output : list byte) : list byte :=
  let output := rec_put_u64 output (server_incarnation (connection_incarnation epoch)) in
  let output := rec_put_u64 output (connection_ordinal (connection_incarnation epoch)) in
  rec_put_u64 output (capability_generation epoch).

Definition encode_terminal_binding (tag : Z) (conversation_id : ConversationId)
    (participant_id : ParticipantId) (generation : Generation) (output : list byte)
    : list byte :=
  let output := push tag output in
  let output := rec_put_u64 output conversation_id in
  let output := rec_put_u64 output participant_id in
  rec_put_u64 output generation.

Definition encode_binding (binding : ClientBindingState) (output : list byte) : list byte :=
  match binding with
  | CB_Unbound => push 0 output
  | CB_Bound conversation_id participant_id generation attach_secret binding_epoch =>
      let output := push 1 output in
      let output := rec_put_u64 output conversation_id in
      let output := rec_put_u64 output participant_id in
      let output := rec_put_u64 output generation in
      let output := output ++ attach_secret in
      encode_epoch binding_epoch output
  | CB_Detached conversation_id participant_id generation attach_secret =>
      encode_terminal_binding 2 conversation_id participant_id generation output
      ++ attach_secret
  | CB_Left conversation_id participant_id generation =>
      encode_terminal_binding 3 conversation_id participant_id generation output
  end.

Definition encode_testimony (testimony : option LostAuthorityTestimony) (output : list byte)
    : list byte :=
  push match option_map lat_kind testimony with
       | None => 0
       | Some LAK_IssuedOperationCorrelation => 1
       | Some LAK_DetachTransportAttempt => 2
       | Some LAK_ReconnectPermit => 3
       | Some LAK_ReconnectAttempt => 4
       end output.

Definition encode_expected (expected : option ExpectedOperationState) (output : list byte)
    : result (list byte) ClientResumeRecordEncodeError :=
  match expected with
  | None => Ok (push 0 output)
  | Some request =>
      let output := push 1 output in
      let output := push (of_bool (eos_issued request)) output in
      let output := rec_put_u64 output (eos_authorization request) in
      let output := encode_testimony (eos_lost request) output in
      let? frame := encode_frame (PF_ClientRequest (eos_request request))
                      CRS_ExpectedOperation in
      put_blob output frame
  end.

Definition encode_abandonment (abandonment : option RestoredExpectedOperationAbandonment)
    (output : list byte) : result (list byte) ClientResumeRecordEncodeError :=
  match abandonment with
  | None => Ok (push 0 output)
  | Some abandonment =>
      let output := push 1 output in
      let output := push match rea_reason abandonment with REA_TokenlessAfterCrash => 0 end
                      output in
      let output := push (of_bool (rea_was_issued abandonment)) output in
      let? frame := encode_frame (PF_ClientRequest (rea_request abandonment)) CRS_Abandonment in
      put_blob output frame
  end.

(** The tag of a status and the value stored behind it. *)
Definition status_tag (status : DetachReplayStatus) : Z * option ServerValue :=
  match status with
  | DRS_Parked => (1, None)
  | DRS_InFlight => (2, None)
  | DRS_Superseded => (3, None)
  | DRS_LeaveSuperseded => (4, None)
  | DRS_Terminal (DRT_DetachCommitted value) => (5, Some (SV_DetachCommitted value))
  | DRS_Terminal (DRT_DetachInProgress value) => (6, Some (SV_DetachInProgress value))
  | DRS_Terminal (DRT_TerminalizedDetachCell value) =>
      (7, Some (SV_StaleAuthority (SA_Detach (DSA_TerminalizedDetachCell value))))
  | DRS_Terminal (DRT_AuthorityRefused value) => (8, Some (dar_value value))
  end.

Definition encode_replay (replay : DetachReplayState) (output : list byte)
    : result (list byte) ClientResumeRecordEncodeError :=
  match replay with
  | DR_Empty => Ok (push 0 output)
  | DR_Recorded request status =>
      let '(tag, terminal) := status_tag status in
      let output := push tag output in
      let output := rec_put_u64 output (de_conversation_id request) in
      let output := rec_put_u64 output (de_participant_id request) in
      let output := rec_put_u64 output (de_capability_generation request) in
      let output := output ++ de_detach_attempt_token request in
      match terminal with
      | Some value =>
          let? frame := encode_frame (PF_ServerValue value) CRS_DetachReplay in
          put_blob output frame
      | None => Ok output
      end
  end.

Definition encode_event (event : ReconnectFreshEvent) (output : list byte) : list byte :=
  push match event with
       | RFE_TransportFate _ => 0
       | RFE_OnlineTransition _ => 1
       | RFE_ExplicitCallerAction _ => 2
       end output.

Definition encode_reconnect (reconnect : ReconnectAggregate) (output : list byte) : list byte :=
  let output := rec_put_u64 output (rca_next_authorization reconnect) in
  let output :=
    match rca_state reconnect with
    | RM_Parked => push 0 output
    | RM_Permit authorization event issued =>
        let output := push 1 output in
        let output := rec_put_u64 output authorization in
        let output := encode_event event output in
        push (of_bool issued) output
    | RM_Attempt authorization event =>
        let output := push 2 output in
        let output := rec_put_u64 output authorization in
        encode_event event output
    | RM_Online => push 3 output
    end in
  encode_testimony (rca_lost reconnect) output.

Definition encode_aggregate (a : ClientParticipantAggregate)
    : result (list byte) ClientResumeRecordEncodeError :=
  let payload := encode_binding (cpa_binding a) [] in
  let payload := rec_put_u64 payload (cpa_next_operation_authorization a) in
  let? payload := encode_expected (cpa_expected a) payload in
  let? payload := encode_replay (sdr_state (cpa_detach_replay a)) payload in
  let payload := encode_reconnect (cpa_reconnect a) payload in
  let? payload := encode_abandonment (cpa_restored_abandonment a) payload in
  if blen payload <=? u64_max then
    let output := [] ++ MAGIC in
    let output := rec_put_u16 output VERSION in
    let output := rec_put_u64 output (blen payload) in
    Ok (output ++ payload)
  else Err REE_LengthOverflow.

(** ** resume_decode.rs: the reader *)

Definition RM (A : Type) : Type := list byte -> result (A * list byte) ClientResumeRecordDecodeError.
Definition rret {A} (a : A) : RM A := fun input => Ok (a, input).
Definition rfail {A} (e : ClientResumeRecordDecodeError) : RM A := fun _ => Err e.
Definition rbind {A B} (m : RM A) (k : A -> RM B) : RM B := fun input =>
  match m input with Ok (a, rest) => k a rest | Err e => Err e end.
Notation "'get!' x <- c ; k" := (rbind c (fun x => k))
  (at level 10, x pattern, c at level 100, k at level 200) : liminal_scope.

Definition rec_remaining : RM Z := fun input => Ok (blen input, input).
Definition rec_take (length : Z) : RM (list byte) := fun input =>
  if blen input <? length then Err (RDE_Truncated length (blen input))
  else Ok (take (Z.to_nat length) input, drop (Z.to_nat length) input).
Definition rec_array (n : nat) : RM (list byte) := rec_take (Z.of_nat n).
Definition rec_u8 : RM Z := get! bytes <- rec_array 1; rret (from_be bytes).
Definition rec_u16 : RM Z := get! bytes <- rec_array 2; rret (from_be bytes).
Definition rec_u64 : RM Z := get! bytes <- rec_array 8; rret (from_be bytes).
Definition rec_blob : RM (list byte) :=
  get! length <- rec_u64;
  if length <=? usize_max then rec_take length
  else get! actual <- rec_remaining; rfail (RDE_LengthMismatch length actual).

(** ** resume_decode.rs: the sections *)

Definition decode_generation (section : ClientResumeRecordSection) : RM Generation :=
  get! value <- rec_u64;
  match Generation_new value with
  | Some generation => rret generation
  | None => rfail (RDE_NestedCodec section None)
  end.

Definition decode_epoch : RM BindingEpoch :=
  get! server <- rec_u64;
  get! ordinal <- rec_u64;
  get! generation <- decode_generation CRS_Binding;
  rret (mkBindingEpoch (mkConnectionIncarnation server ordinal) generation).

Definition decode_bool (section : ClientResumeRecordSection) : RM bool :=
  get! tag <- rec_u8;
  match tag with
  | 0 => rret false
  | 1 => rret true
  | tag => rfail (RDE_InvalidTag section tag)
  end.

Definition decode_event : RM ReconnectFreshEvent :=
  get! tag <- rec_u8;
  match tag with
  | 0 => rret (RFE_TransportFate ECF_Lost)
  | 1 => rret (RFE_OnlineTransition POT_ProvedOnline)
  | 2 => rret (RFE_ExplicitCallerAction ERA_ReconnectNow)
  | tag => rfail (RDE_InvalidTag CRS_Reconnect tag)
  end.

Definition decode_testimony (section : ClientResumeRecordSection)
    : RM (option LostAuthorityTestimony) :=
  get! tag <- rec_u8;
  match tag with
  | 0 => rret None
  | 1 => rret (Some (mkTestimony LAK_IssuedOperationCorrelation))
  | 2 => rret (Some (mkTestimony LAK_DetachTransportAttempt))
  | 3 => rret (Some (mkTestimony LAK_ReconnectPermit))
  | 4 => rret (Some (mkTestimony LAK_ReconnectAttempt))
  | tag => rfail (RDE_InvalidTag section tag)
  end.

Definition decode_binding : RM ClientBindingState :=
  get! tag <- rec_u8;
  match tag with
  | 0 => rret CB_Unbound
  | 1 =>
      get! conversation_id <- rec_u64;
      get! participant_id <- rec_u64;
      get! generation <- decode_generation CRS_Binding;
      get! attach_secret <- rec_array 32;
      get! binding_epoch <- decode_epoch;
      rret (CB_Bound conversation_id participant_id generation attach_secret binding_epoch)
  | 2 | 3 =>
      get! conversation_id <- rec_u64;
      get! participant_id <- rec_u64;
      get! generation <- decode_generation CRS_Binding;
      if tag =? 2 then
        get! attach_secret <- rec_array 32;
        rret (CB_Detached conversation_id participant_id generation attach_secret)
      else rret (CB_Left conversation_id participant_id generation)
  | tag => rfail (RDE_InvalidTag CRS_Binding tag)
  end.

Definition decode_expected : RM (option ExpectedOperationState) :=
  get! tag <- rec_u8;
  match tag with
  | 0 => rret None
  | 1 =>
      get! issued <- decode_bool CRS_ExpectedOperation;
      get! authorization <- rec_u64;
      get! lost <- decode_testimony CRS_ExpectedOperation;
      get! bytes <- rec_blob;
      match decode bytes RD_Server with
      | Ok (PF_ClientRequest request) =>
          rret (Some (mkExpected request issued authorization lost))
      | Ok (PF_ServerValue _) | Ok (PF_ServerPush _) =>
          rfail (RDE_NestedCodec CRS_ExpectedOperation None)
      | Err source => rfail (RDE_NestedCodec CRS_ExpectedOperation (Some source))
      end
  | tag => rfail (RDE_InvalidTag CRS_ExpectedOperation tag)
  end.

Definition decode_terminal (tag : Z) : RM DetachReplayStatus :=
  get! bytes <- rec_blob;
  match decode bytes RD_Client with
  | Ok (PF_ServerValue value) =>
      match tag, value with
      | 5, SV_DetachCommitted value => rret (DRS_Terminal (DRT_DetachCommitted value))
      | 6, SV_DetachInProgress value => rret (DRS_Terminal (DRT_DetachInProgress value))
      | 7, SV_StaleAuthority (SA_Detach (DSA_TerminalizedDetachCell value)) =>
          rret (DRS_Terminal (DRT_TerminalizedDetachCell value))
      | 8, SV_DetachCommitted _
      | 8, SV_DetachInProgress _
      | 8, SV_StaleAuthority (SA_Detach (DSA_TerminalizedDetachCell _)) =>
          rfail (RDE_NestedCodec CRS_DetachReplay None)
      | 8, value => rret (DRS_Terminal (DRT_AuthorityRefused (mkAuthorityRefused value)))
      | _, _ => rfail (RDE_NestedCodec CRS_DetachReplay None)
      end
  | Ok (PF_ClientRequest _) | Ok (PF_ServerPush _) =>
      rfail (RDE_NestedCodec CRS_DetachReplay None)
  | Err source => rfail (RDE_NestedCodec CRS_DetachReplay (Some source))
  end.

Definition decode_replay : RM DetachReplayState :=
  get! tag <- rec_u8;
  if tag =? 0 then rret DR_Empty
  else if negb ((1 <=? tag) && (tag <=? 8)) then rfail (RDE_InvalidTag CRS_DetachReplay tag)
  else
    get! conversation_id <- rec_u64;
    get! participant_id <- rec_u64;
    get! generation <- decode_generation CRS_DetachReplay;
    get! token <- rec_array 16;
    get! status <-
      match tag with
      | 1 => rret DRS_Parked
      | 2 => rret DRS_InFlight
      | 3 => rret DRS_Superseded
      | 4 => rret DRS_LeaveSuperseded
      | 5 | 6 | 7 | 8 => decode_terminal tag
      | _ => rfail (RDE_InvalidTag CRS_DetachReplay tag)
      end;
    rret (DR_Recorded (mkDetachEnvelope conversation_id participant_id generation token) status).

Definition decode_reconnect
    : RM (ReconnectMachineState * Z * option LostAuthorityTestimony) :=
  get! next_authorization <- rec_u64;
  get! tag <- rec_u8;
  get! state <-
    match tag with
    | 0 => rret RM_Parked
    | 1 =>
        get! authorization <- rec_u64;
        get! event <- decode_event;
        get! issued <- decode_bool CRS_Reconnect;
        rret (RM_Permit authorization event issued)
    | 2 =>
        get! authorization <- rec_u64;
        get! event <- decode_event;
        rret (RM_Attempt authorization event)
    | 3 => rret RM_Online
    | tag => rfail (RDE_InvalidTag CRS_Reconnect tag)
    end;
  get! lost <- decode_testimony CRS_Reconnect;
  rret (state, next_authorization, lost).

Definition decode_abandonment : RM (option RestoredExpectedOperationAbandonment) :=
  get! tag <- rec_u8;
  match tag with
  | 0 => rret None
  | 1 =>
      get! reason <-
        (get! tag <- rec_u8;
         match tag with
         | 0 => rret REA_TokenlessAfterCrash
         | tag => rfail (RDE_InvalidTag CRS_Abandonment tag)
         end);
      get! was_issued <- decode_bool CRS_Abandonment;
      get! bytes <- rec_blob;
      match decode bytes RD_Server with
      | Ok (PF_ClientRequest request) =>
          if is_observer_recovery request then
            rret (Some (mkAbandonment request reason was_issued))
          else rfail (RDE_InvalidAbandonmentRequest (client_discriminant request))
      | Ok (PF_ServerValue _) | Ok (PF_ServerPush _) =>
          rfail (RDE_NestedCodec CRS_Abandonment None)
      | Err source => rfail (RDE_NestedCodec CRS_Abandonment (Some source))
      end
  | tag => rfail (RDE_InvalidTag CRS_Abandonment tag)
  end.

Record DecodedFacts := mkFacts {
  df_binding : ClientBindingState;
  df_next_operation_authorization : Z;
  df_expected : option ExpectedOperationState;
  df_replay : DetachReplayState;
  df_reconnect_state : ReconnectMachineState;
  df_next_authorization : Z;
  df_reconnect_lost : option LostAuthorityTestimony;
  df_abandonment : option RestoredExpectedOperationAbandonment;
}.

Definition decode_facts_body : RM DecodedFacts :=
  get! presented <- rec_array 4;
  if negb (bool_decide (presented = MAGIC)) then rfail (RDE_InvalidMagic presented) else
  get! version <- rec_u16;
  if negb (version =? VERSION) then rfail (RDE_UnsupportedVersion version) else
  get! declared <- rec_u64;
  get! actual <- rec_remaining;
  if negb (declared =? actual) then rfail (RDE_LengthMismatch declared actual) else
  get! binding <- decode_binding;
  get! next_operation_authorization <- rec_u64;
  get! expected <- decode_expected;
  get! replay <- decode_replay;
  get! (reconnect_state, next_authorization, reconnect_lost) <- decode_reconnect;
  get! abandonment <- decode_abandonment;
  get! remaining <- rec_remaining;
  if negb (remaining =? 0) then rfail (RDE_TrailingBytes remaining) else
  rret (mkFacts binding next_operation_authorization expected replay reconnect_state
          next_authorization reconnect_lost abandonment).

Definition decode_facts (input : list byte) : result DecodedFacts ClientResumeRecordDecodeError :=
  let? (facts, _) := decode_facts_body input in
  Ok facts.

(** ** resume.rs: the record *)

Record ClientResumeRecord := mkResumeRecord { crr_canonical : list byte }.
Definition encode_canonical (r : ClientResumeRecord) : list byte := crr_canonical r.
Definition decode_canonical (input : list byte)
    : result ClientResumeRecord ClientResumeRecordDecodeError :=
  let? _ := decode_facts input in
  Ok (mkResumeRecord input).

Definition active_replay (replay : DetachReplayState) : option DetachEnvelope :=
  match replay with
  | DR_Recorded request DRS_Parked | DR_Recorded request DRS_InFlight => Some request
  | DR_Empty | DR_Recorded _ _ => None
  end.
Definition expected_detach (expected : option ExpectedOperationState) : option DetachRequest :=
  match expected with
  | Some e => match eos_request e with CR_Detach value => Some value | _ => None end
  | None => None
  end.

Definition validate_live_replay_coupling (expected : option ExpectedOperationState)
    (replay : DetachReplayState) : result unit ClientResumeRecordEncodeError :=
  match active_replay replay, expected_detach expected with
  | Some request, Some value =>
      if names_detach (CR_Detach value) request then Ok tt
      else Err REE_DecoupledDetachReplay
  | None, None => Ok tt
  | Some _, None | None, Some _ => Err REE_DecoupledDetachReplay
  end.

Definition resume_record (a : ClientParticipantAggregate)
    : result ClientResumeRecord ClientResumeRecordEncodeError :=
  let? _ := validate_live_replay_coupling (cpa_expected a) (replay_state a) in
  let? canonical := encode_aggregate a in
  Ok (mkResumeRecord canonical).

(** [ClientOperationCommit::resume_record]. *)
Definition commit_resume_record (c : ClientOperationCommit)
    : result ClientResumeRecord ClientResumeRecordEncodeError :=
  resume_record (coc_aggregate c).

(** ** resume.rs: validation *)

Definition terminal_matches (request : DetachEnvelope) (terminal : DetachReplayTerminal) : bool :=
  match terminal with
  | DRT_DetachCommitted value => detach_committed_matches request value
  | DRT_DetachInProgress value => detach_in_progress_matches request value
  | DRT_TerminalizedDetachCell value => terminalized_matches request value
  | DRT_AuthorityRefused value =>
      matches_request (dar_value value)
        (CR_Detach (mkDetachRequest (de_conversation_id request) (de_participant_id request)
                      (de_capability_generation request) (de_detach_attempt_token request)))
  end.

(** The kind of the authority an issued operation released. *)
Definition operation_kind (request : ClientRequest) : LostAuthorityKind :=
  if is_detach request then LAK_DetachTransportAttempt else LAK_IssuedOperationCorrelation.
(** The kind of the authority a reconnect state says is outstanding. *)
Definition reconnect_kind (s : ReconnectMachineState) : option LostAuthorityKind :=
  match s with
  | RM_Permit _ _ true => Some LAK_ReconnectPermit
  | RM_Attempt _ _ => Some LAK_ReconnectAttempt
  | RM_Parked | RM_Permit _ _ false | RM_Online => None
  end.

#[export] Instance LostAuthorityKind_eq_dec : EqDecision LostAuthorityKind.
Proof. solve_decision. Defined.

Definition validate_testimony_coupling (facts : DecodedFacts)
    : result unit ClientResumeRestoreError :=
  let? _ :=
    match df_expected facts with
    | Some expected =>
        match eos_lost expected with
        | Some testimony =>
            let tokenless := is_observer_recovery (eos_request expected) in
            let expected_kind := operation_kind (eos_request expected) in
            if negb (eos_issued expected) || tokenless
               || negb (bool_decide (lat_kind testimony = expected_kind))
            then Err RSE_LostAuthorityTestimonyMismatch else Ok tt
        | None => Ok tt
        end
    | None => Ok tt
    end in
  let? _ :=
    match df_reconnect_lost facts with
    | Some testimony =>
        if negb (bool_decide (reconnect_kind (df_reconnect_state facts)
                              = Some (lat_kind testimony)))
        then Err RSE_LostAuthorityTestimonyMismatch else Ok tt
    | None => Ok tt
    end in
  if is_some (df_abandonment facts)
     && match df_expected facts with
        | Some expected => is_observer_recovery (eos_request expected)
        | None => false
        end
  then Err RSE_PendingAbandonmentConflict else Ok tt.

(** The pairing of a recorded status with the issue flag of its operation. *)
Definition status_issued (status : DetachReplayStatus) (issued : bool) : bool :=
  match status with
  | DRS_Parked => negb issued
  | DRS_InFlight => issued
  | _ => false
  end.

Definition validate_replay_coupling (facts : DecodedFacts)
    : result unit ClientResumeRestoreError :=
  let active :=
    match df_replay facts with
    | DR_Recorded request status => if is_active_status status then Some (request, status) else None
    | DR_Empty => None
    end in
  let detach :=
    match df_expected facts with
    | Some expected =>
        match eos_request expected with
        | CR_Detach value => Some (value, eos_issued expected)
        | _ => None
        end
    | None => None
    end in
  match active, detach with
  | Some (request, status), Some (value, issued) =>
      if names_detach (CR_Detach value) request && status_issued status issued then Ok tt
      else Err RSE_ActiveReplayExpectedDetachMismatch
  | Some _, None => Err RSE_ActiveReplayExpectedDetachMismatch
  | None, Some _ => Err RSE_ExpectedDetachActiveReplayMismatch
  | None, None => Ok tt
  end.

Definition validate_facts (facts : DecodedFacts) : result unit ClientResumeRestoreError :=
  if match df_binding facts with
     | CB_Bound _ _ generation _ binding_epoch =>
         negb (generation =? capability_generation binding_epoch)
     | _ => false
     end
  then Err RSE_BindingGenerationMismatch
  else if match df_expected facts with
          | Some (mkExpected (CR_ParticipantAck _) _ _ _) => true
          | _ => false
          end
  then Err RSE_ContinuousAckOutstanding
  else if match df_expected facts with
          | Some expected =>
              (eos_authorization expected =? 0)
              || (df_next_operation_authorization facts <? eos_authorization expected)
          | None => false
          end
  then Err RSE_InvalidOperationAuthorization
  else if match df_expected facts with
          | Some expected => negb (accepts_request (df_binding facts) (eos_request expected))
          | None => false
          end
  then Err RSE_ExpectedBindingMismatch
  else
    let? _ := validate_replay_coupling facts in
    if match df_replay facts with
       | DR_Recorded request (DRS_Terminal terminal) => negb (terminal_matches request terminal)
       | _ => false
       end
    then Err RSE_ReplayTerminalMismatch
    else if match df_reconnect_state facts with
            | RM_Permit value _ _ | RM_Attempt value _ =>
                (value =? 0) || (df_next_authorization facts <? value)
            | RM_Parked | RM_Online => false
            end
    then Err RSE_InvalidReconnectAuthorization
    else
      let? _ := validate_testimony_coupling facts in
      Ok tt.

(** ** resume.rs: cold restore *)

(** An issued operation loses its authority with the process. *)
Definition testify_operation (e : ExpectedOperationState) : ExpectedOperationState :=
  if eos_issued e && negb (is_some (eos_lost e)) then
    mkExpected (eos_request e) (eos_issued e) (eos_authorization e)
      (Some (mkTestimony (operation_kind (eos_request e))))
  else e.

Definition restore_validated_facts (facts : DecodedFacts) : ClientParticipantAggregate :=
  let tokenless :=
    match df_expected facts with
    | Some expected => is_observer_recovery (eos_request expected)
    | None => false
    end in
  let '(expected, restored_abandonment) :=
    if tokenless then
      (None, option_map (fun e => mkAbandonment (eos_request e) REA_TokenlessAfterCrash
                                    (eos_issued e)) (df_expected facts))
    else (df_expected facts, df_abandonment facts) in
  let expected := option_map testify_operation expected in
  let reconnect_lost :=
    match df_reconnect_lost facts with
    | Some testimony => Some testimony
    | None => option_map mkTestimony (reconnect_kind (df_reconnect_state facts))
    end in
  mkClient (df_binding facts) expected (df_next_operation_authorization facts)
    (mkDetachReplay (df_replay facts))
    (mkReconnect (df_reconnect_state facts) (df_next_authorization facts) reconnect_lost)
    restored_abandonment.

Definition restore (r : ClientResumeRecord)
    : result ClientParticipantAggregate ClientResumeRestoreError :=
  let? facts := map_err RSE_CorruptRecord (decode_facts (crr_canonical r)) in
  let? _ := validate_facts facts in
  Ok (restore_validated_facts facts).
