(* ===== verification/ResumeCodec.v ===== *)
(** * The client resume record, verified

    The bytes of each section as a function of the fact they encode, that the encoder
    of [Resume] writes exactly these bytes or names the nested frame that does not fit,
    that the decoder reads them back, and that it accepts nothing else. *)
From coqutil Require Import Byte.
From S2P Require Import Prelude Resume Algebra Tags Wire Response Bytes FrameCodec Member Client.
From S2P Require Import Correlation.

(** ** The bytes of each fact *)

Definition frame_fits (f : ParticipantFrame) : bool :=
  match encoded_len f with Ok _ => true | Err _ => false end.
Definition enc_frame (f : ParticipantFrame) : list byte :=
  frame_bytes (frame_discriminant f) (default [] (frame_body f)).
Definition enc_blob (f : ParticipantFrame) : list byte :=
  be 8 (blen (enc_frame f)) ++ enc_frame f.

Definition enc_binding (b : ClientBindingState) : list byte :=
  match b with
  | CB_Unbound => be 1 0
  | CB_Bound c p g s e => be 1 1 ++ be 8 c ++ be 8 p ++ be 8 g ++ s ++ enc_epoch e
  | CB_Detached c p g s => be 1 2 ++ be 8 c ++ be 8 p ++ be 8 g ++ s
  | CB_Left c p g => be 1 3 ++ be 8 c ++ be 8 p ++ be 8 g
  end.
Definition enc_testimony (t : option LostAuthorityTestimony) : list byte :=
  be 1 match option_map lat_kind t with
       | None => 0
       | Some LAK_IssuedOperationCorrelation => 1
       | Some LAK_DetachTransportAttempt => 2
       | Some LAK_ReconnectPermit => 3
       | Some LAK_ReconnectAttempt => 4
       end.
Definition enc_expected (e : option ExpectedOperationState) : list byte :=
  match e with
  | None => be 1 0
  | Some e =>
      be 1 1 ++ be 1 (of_bool (eos_issued e)) ++ be 8 (eos_authorization e)
      ++ enc_testimony (eos_lost e) ++ enc_blob (PF_ClientRequest (eos_request e))
  end.
Definition enc_detach (d : DetachEnvelope) : list byte :=
  be 8 (de_conversation_id d) ++ be 8 (de_participant_id d)
  ++ be 8 (de_capability_generation d) ++ de_detach_attempt_token d.
Definition enc_replay (s : DetachReplayState) : list byte :=
  match s with
  | DR_Empty => be 1 0
  | DR_Recorded request status =>
      be 1 (status_tag status).1 ++ enc_detach request
      ++ match (status_tag status).2 with
         | Some value => enc_blob (PF_ServerValue value)
         | None => []
         end
  end.
Definition enc_event (e : ReconnectFreshEvent) : list byte :=
  be 1 match e with
       | RFE_TransportFate _ => 0
       | RFE_OnlineTransition _ => 1
       | RFE_ExplicitCallerAction _ => 2
       end.
Definition enc_machine (s : ReconnectMachineState) : list byte :=
  match s with
  | RM_Parked => be 1 0
  | RM_Permit n e issued => be 1 1 ++ be 8 n ++ enc_event e ++ be 1 (of_bool issued)
  | RM_Attempt n e => be 1 2 ++ be 8 n ++ enc_event e
  | RM_Online => be 1 3
  end.
Definition enc_reconnect (r : ReconnectMachineState * Z * option LostAuthorityTestimony)
    : list byte :=
  be 8 r.1.2 ++ enc_machine r.1.1 ++ enc_testimony r.2.
Definition enc_abandonment (a : option RestoredExpectedOperationAbandonment) : list byte :=
  match a with
  | None => be 1 0
  | Some a =>
      be 1 1 ++ be 1 0 ++ be 1 (of_bool (rea_was_issued a))
      ++ enc_blob (PF_ClientRequest (rea_request a))
  end.

(** The facts an aggregate stores, and their payload and record. *)
Definition facts_of (a : ClientParticipantAggregate) : DecodedFacts :=
  mkFacts (cpa_binding a) (cpa_next_operation_authorization a) (cpa_expected a)
    (replay_state a) (rca_state (cpa_reconnect a)) (rca_next_authorization (cpa_reconnect a))
    (rca_lost (cpa_reconnect a)) (cpa_restored_abandonment a).
(** The aggregate that holds exactly the given facts. *)
Definition of_facts (f : DecodedFacts) : ClientParticipantAggregate :=
  mkClient (df_binding f) (df_expected f) (df_next_operation_authorization f)
    (mkDetachReplay (df_replay f))
    (mkReconnect (df_reconnect_state f) (df_next_authorization f) (df_reconnect_lost f))
    (df_abandonment f).
Definition enc_facts (f : DecodedFacts) : list byte :=
  enc_binding (df_binding f) ++ be 8 (df_next_operation_authorization f)
  ++ enc_expected (df_expected f) ++ enc_replay (df_replay f)
  ++ enc_reconnect (df_reconnect_state f, df_next_authorization f, df_reconnect_lost f)
  ++ enc_abandonment (df_abandonment f).
Definition enc_record (f : DecodedFacts) : list byte :=
  MAGIC ++ be 2 VERSION ++ be 8 (blen (enc_facts f)) ++ enc_facts f.

(** ** The ranges of the facts *)

Definition wf_binding (b : ClientBindingState) : Prop :=
  match b with
  | CB_Unbound => True
  | CB_Bound c p g s e => u64 c /\ u64 p /\ wf_generation g /\ wf_secret s /\ wf_epoch e
  | CB_Detached c p g s => u64 c /\ u64 p /\ wf_generation g /\ wf_secret s
  | CB_Left c p g => u64 c /\ u64 p /\ wf_generation g
  end.
Definition wf_expected (e : option ExpectedOperationState) : Prop :=
  match e with
  | None => True
  | Some e => u64 (eos_authorization e) /\ wf_request (eos_request e)
  end.
(** A retained refusal is none of the three values with a tag of their own. *)
Definition is_answer (v : ServerValue) : bool :=
  match v with
  | SV_DetachCommitted _ | SV_DetachInProgress _
  | SV_StaleAuthority (SA_Detach (DSA_TerminalizedDetachCell _)) => true
  | _ => false
  end.
Definition wf_status (s : DetachReplayStatus) : Prop :=
  wf_opt wf_server_value (status_tag s).2
  /\ match s with
     | DRS_Terminal (DRT_AuthorityRefused v) => is_answer (dar_value v) = false
     | _ => True
     end.
Definition wf_replay (s : DetachReplayState) : Prop :=
  match s with
  | DR_Empty => True
  | DR_Recorded request status => wf_detach request /\ wf_status status
  end.
Definition wf_machine (s : ReconnectMachineState) : Prop :=
  match s with RM_Permit n _ _ | RM_Attempt n _ => u64 n | _ => True end.
Definition wf_reconnect (r : ReconnectMachineState * Z * option LostAuthorityTestimony) : Prop :=
  u64 r.1.2 /\ wf_machine r.1.1.
Definition wf_abandonment (a : option RestoredExpectedOperationAbandonment) : Prop :=
  match a with
  | None => True
  | Some a => wf_request (rea_request a) /\ is_observer_recovery (rea_request a) = true
  end.
Definition wf_facts (f : DecodedFacts) : Prop :=
  wf_binding (df_binding f) /\ u64 (df_next_operation_authorization f)
  /\ wf_expected (df_expected f) /\ wf_replay (df_replay f)
  /\ wf_reconnect (df_reconnect_state f, df_next_authorization f, df_reconnect_lost f)
  /\ wf_abandonment (df_abandonment f).

(** The nested frames of the facts, in the order they are written. *)
Definition expected_frames (e : option ExpectedOperationState) : list ParticipantFrame :=
  match e with None => [] | Some e => [PF_ClientRequest (eos_request e)] end.
Definition replay_frames (s : DetachReplayState) : list ParticipantFrame :=
  match s with
  | DR_Empty => []
  | DR_Recorded _ status =>
      match (status_tag status).2 with Some v => [PF_ServerValue v] | None => [] end
  end.
Definition abandonment_frames (a : option RestoredExpectedOperationAbandonment)
    : list ParticipantFrame :=
  match a with None => [] | Some a => [PF_ClientRequest (rea_request a)] end.
Definition frames_fit (f : DecodedFacts) : bool :=
  forallb frame_fits (expected_frames (df_expected f))
  && forallb frame_fits (replay_frames (df_replay f))
  && forallb frame_fits (abandonment_frames (df_abandonment f)).

(** ** The encoder *)

Lemma frame_fits_spec f : frame_fits f = true <-> exists body,
  frame_body f = Some body /\ PARTICIPANT_PREFIX_LEN + blen body <= u32_max.
Proof.
  unfold frame_fits. split.
  - destruct (encoded_len f) as [n|] eqn:E; [intros _|done].
    apply encoded_len_spec in E as (body & ? & _ & ?). eauto.
  - intros (body & ? & ?). by rewrite (proj2 (encoded_len_spec f (16 + blen body))) by eauto.
Qed.

Lemma blen_enc_frame f : frame_fits f = true -> 16 <= blen (enc_frame f) <= u32_max + 10.
Proof.
  intros (body & Hb & Hfit)%frame_fits_spec. unfold enc_frame. rewrite Hb, blen_frame_bytes. simpl.
  pose proof (blen_nonneg body). unfold PARTICIPANT_PREFIX_LEN in *. lia.
Qed.

Lemma encode_frame_spec f section : encode_frame f section =
  match encoded_len f with
  | Ok _ => Ok (enc_frame f)
  | Err e => Err (REE_NestedCodec section e)
  end.
Proof.
  unfold encode_frame. destruct (encoded_len f) as [n|e] eqn:El; simpl; [|done].
  pose proof El as (body & Hb & -> & Hfit)%encoded_len_spec. pose proof (blen_nonneg body).
  unfold PARTICIPANT_PREFIX_LEN in *. rewrite encode_exact by (unfold blen in *; rewrite repeat_length; mlia).
  rewrite El. unfold blen at 1. rewrite repeat_length, Z2Nat.id by lia.
  rewrite Z.ltb_irrefl, Hb. simpl. unfold enc_frame. rewrite Hb. simpl.
  replace (Z.to_nat (16 + blen body)) with (length (frame_bytes (frame_discriminant f) body)).
  - by rewrite take_app_length.
  - apply Nat2Z.inj. rewrite Z2Nat.id by lia. apply blen_frame_bytes.
Qed.

Lemma put_blob_spec output f : frame_fits f = true ->
  put_blob output (enc_frame f) = Ok (output ++ enc_blob f).
Proof.
  intros Hf%blen_enc_frame. unfold put_blob, enc_blob, rec_put_u64.
  destruct (Z.leb_spec (blen (enc_frame f)) u64_max); [|mlia]. by rewrite <- app_assoc.
Qed.

(** A frame written behind a section's fields. *)
Lemma put_frame_spec f section output :
  (let? frame := encode_frame f section in put_blob output frame) =
  match encoded_len f with
  | Ok _ => Ok (output ++ enc_blob f)
  | Err e => Err (REE_NestedCodec section e)
  end.
Proof.
  rewrite encode_frame_spec. destruct (encoded_len f) eqn:E; simpl; [|done].
  apply put_blob_spec. unfold frame_fits. by rewrite E.
Qed.

Lemma encode_binding_spec b output : encode_binding b output = output ++ enc_binding b.
Proof.
  destruct b; unfold encode_binding, encode_terminal_binding, encode_epoch, rec_put_u64, push,
    enc_binding, enc_epoch, enc_incarnation; by rewrite <- ?app_assoc.
Qed.
Lemma encode_testimony_spec t output : encode_testimony t output = output ++ enc_testimony t.
Proof. done. Qed.

(** A section: its bytes, unless its nested frame does not fit. *)
Definition emit_section (section : ClientResumeRecordSection) (frames : list ParticipantFrame)
    (bytes : list byte) : result (list byte) ClientResumeRecordEncodeError :=
  match frames with
  | f :: _ =>
      match encoded_len f with
      | Ok _ => Ok bytes
      | Err e => Err (REE_NestedCodec section e)
      end
  | [] => Ok bytes
  end.

Lemma emit_section_spec section f bytes : (length f <= 1)%nat ->
  if forallb frame_fits f then emit_section section f bytes = Ok bytes
  else exists e, emit_section section f bytes = Err (REE_NestedCodec section e).
Proof.
  destruct f as [|x [|]]; simpl; intros; [done| |lia]. unfold frame_fits.
  destruct (encoded_len x); simpl; eauto.
Qed.

Lemma encode_expected_spec e output : encode_expected e output =
  emit_section CRS_ExpectedOperation (expected_frames e) (output ++ enc_expected e).
Proof.
  destruct e as [e|]; [|done]. unfold encode_expected. cbv zeta. rewrite put_frame_spec. simpl.
  destruct (encoded_len _); [|done].
  rewrite encode_testimony_spec. unfold push, rec_put_u64. by rewrite <- !app_assoc.
Qed.
Lemma encode_abandonment_spec a output : encode_abandonment a output =
  emit_section CRS_Abandonment (abandonment_frames a) (output ++ enc_abandonment a).
Proof.
  destruct a as [[r [] i]|]; [|done]. unfold encode_abandonment. cbv zeta. rewrite put_frame_spec.
  simpl. destruct (encoded_len _); [|done]. unfold push. by rewrite <- !app_assoc.
Qed.
Lemma encode_replay_spec s output : encode_replay s output =
  emit_section CRS_DetachReplay (replay_frames s) (output ++ enc_replay s).
Proof.
  destruct s as [|d status]; [done|]. unfold encode_replay, replay_frames, enc_replay, enc_detach.
  destruct (status_tag status) as [tag [v|]]; simpl.
  - rewrite put_frame_spec. destruct (encoded_len _); [|done].
    unfold push, rec_put_u64. by rewrite <- !app_assoc.
  - unfold push, rec_put_u64. by rewrite app_nil_r, <- !app_assoc.
Qed.
Lemma encode_reconnect_spec r output : encode_reconnect r output =
  output ++ enc_reconnect (rca_state r, rca_next_authorization r, rca_lost r).
Proof.
  destruct r as [[| | |] n l]; unfold encode_reconnect, enc_reconnect, enc_machine; simpl;
    rewrite encode_testimony_spec; unfold push, rec_put_u64, encode_event, enc_event, push;
    by rewrite <- ?app_assoc.
Qed.

Lemma blen_enc_epoch e : blen (enc_epoch e) = 24.
Proof. unfold enc_epoch, enc_incarnation. rewrite !blen_app, !blen_be. lia. Qed.

Lemma blen_enc_binding b : wf_binding b -> blen (enc_binding b) <= 81.
Proof.
  destruct b; simpl; intros; destruct_and?;
    repeat match goal with H : wf_secret ?s |- _ =>
      assert (blen s = 32) by (unfold wf_secret, SECRET_LEN in H; unfold blen; lia); clear H end;
    rewrite ?blen_app, ?blen_be, ?blen_enc_epoch; lia.
Qed.

Lemma blen_enc_blob f : frame_fits f = true -> blen (enc_blob f) <= u32_max + 18.
Proof. intros H%blen_enc_frame. unfold enc_blob. rewrite blen_app, blen_be. lia. Qed.

Lemma blen_enc_facts f : wf_facts f -> frames_fit f = true -> blen (enc_facts f) <= u64_max.
Proof.
  intros (Hb & _ & _ & Hr & _ & _) Hf. unfold frames_fit in Hf.
  apply andb_true_iff in Hf as [[Hfe Hfr]%andb_true_iff Hfa].
  apply blen_enc_binding in Hb. unfold enc_facts. rewrite !blen_app, blen_be.
  assert (blen (enc_expected (df_expected f)) <= u32_max + 30).
  { destruct (df_expected f) as [e|]; simpl in *; [|rewrite blen_be; mlia].
    rewrite andb_true_r in Hfe. apply blen_enc_blob in Hfe.
    unfold enc_testimony. rewrite !blen_app, !blen_be. lia. }
  assert (blen (enc_replay (df_replay f)) <= u32_max + 60).
  { destruct (df_replay f) as [|[c p g t] st]; simpl in *; [rewrite blen_be; mlia|].
    destruct Hr as [(_ & _ & _ & Ht) _]; simpl in Ht.
    assert (blen t = 16) by (unfold wf_token, TOKEN_LEN in Ht; unfold blen; lia).
    unfold enc_detach; simpl. rewrite !blen_app, !blen_be.
    destruct (status_tag st).2; simpl in *; [rewrite andb_true_r in Hfr; apply blen_enc_blob in Hfr; lia|].
    unfold blen at 2; simpl. mlia. }
  assert (blen (enc_abandonment (df_abandonment f)) <= u32_max + 30).
  { destruct (df_abandonment f) as [e|]; simpl in *; [|rewrite blen_be; mlia].
    rewrite andb_true_r in Hfa. apply blen_enc_blob in Hfa. rewrite !blen_app, !blen_be. lia. }
  unfold enc_reconnect, enc_testimony; simpl. rewrite !blen_app, !blen_be.
  assert (blen (enc_machine (df_reconnect_state f)) <= 20)
    by (destruct (df_reconnect_state f); simpl; unfold enc_event; rewrite ?blen_app, ?blen_be; lia).
  mlia.
Qed.

(** The whole encoder: the record of the facts, or the first nested frame that does not
    fit. *)
Lemma encode_aggregate_spec a : wf_facts (facts_of a) ->
  if frames_fit (facts_of a) then encode_aggregate a = Ok (enc_record (facts_of a))
  else exists section e, encode_aggregate a = Err (REE_NestedCodec section e).
Proof.
  intros Hwf. pose proof (blen_enc_facts _ Hwf) as Hlen. revert Hlen. unfold frames_fit.
  unfold encode_aggregate. cbv zeta.
  rewrite encode_binding_spec, app_nil_l, encode_expected_spec.
  pose proof (emit_section_spec CRS_ExpectedOperation (expected_frames (cpa_expected a))) as He.
  pose proof (emit_section_spec CRS_DetachReplay (replay_frames (replay_state a))) as Hr.
  pose proof (emit_section_spec CRS_Abandonment
                (abandonment_frames (cpa_restored_abandonment a))) as Ha.
  simpl. destruct (forallb _ (expected_frames _)); simpl.
  2:{ edestruct He as [e ->]; [by destruct (cpa_expected a); simpl; lia|]. simpl. eauto. }
  rewrite He by (destruct (cpa_expected a); simpl; lia). simpl. rewrite encode_replay_spec.
  unfold replay_state in *. destruct (forallb _ (replay_frames _)); simpl.
  2:{ edestruct Hr as [e ->]; [|simpl; eauto].
      destruct (sdr_state _) as [|? []]; simpl; [lia..|destruct t; simpl; lia]. }
  rewrite Hr. 2:{ destruct (sdr_state _) as [|? []]; simpl; [lia..|destruct t; simpl; lia]. }
  simpl. rewrite encode_reconnect_spec, encode_abandonment_spec.
  destruct (forallb _ (abandonment_frames _)); simpl.
  2:{ edestruct Ha as [e ->]; [by destruct (cpa_restored_abandonment a); simpl; lia|]. simpl. eauto. }
  rewrite Ha by (destruct (cpa_restored_abandonment a); simpl; lia). simpl.
  intros Hlen. unfold rec_put_u64, rec_put_u16. rewrite <- !app_assoc.
  specialize (Hlen eq_refl). apply Z.leb_le in Hlen. unfold enc_facts in Hlen; simpl in Hlen.
  unfold replay_state in Hlen. by rewrite Hlen.
Qed.

(** ** The reader logic *)

(** [m] reads exactly [bs] as [a], whatever follows. *)
Definition rparses {A} (m : RM A) (bs : list byte) (a : A) : Prop :=
  forall rest, m (bs ++ rest) = Ok (a, rest).
(** Whatever [m] accepts from a slice is the encoding of a well-formed value. *)
Definition rreads {A} (m : RM A) (enc : A -> list byte) (wf : A -> Prop) : Prop :=
  forall input a rest, blen input <= usize_max -> m input = Ok (a, rest) ->
    input = enc a ++ rest /\ wf a.

Lemma rparses_bind {A B} (m : RM A) (k : A -> RM B) bs1 bs2 a b :
  rparses m bs1 a -> rparses (k a) bs2 b -> rparses (rbind m k) (bs1 ++ bs2) b.
Proof. intros Hm Hk rest. unfold rbind. by rewrite <- app_assoc, Hm, Hk. Qed.
Lemma rparses_ret {A} (a : A) : rparses (rret a) [] a.
Proof. done. Qed.
Lemma rparses_end {A B} (m : RM A) (k : A -> RM B) bs a b :
  rparses m bs a -> rparses (k a) [] b -> rparses (rbind m k) bs b.
Proof. intros. rewrite <- (app_nil_r bs). by eapply rparses_bind. Qed.

Lemma rbind_Ok {A B} (m : RM A) (k : A -> RM B) input b rest :
  rbind m k input = Ok (b, rest) ->
  exists a mid, m input = Ok (a, mid) /\ k a mid = Ok (b, rest).
Proof. unfold rbind. destruct (m input) as [[a mid]|]; [eauto|done]. Qed.

Lemma rparses_take n bs : blen bs = n -> rparses (rec_take n) bs bs.
Proof.
  intros Hn rest. unfold rec_take. rewrite blen_app, Hn. pose proof (blen_nonneg rest).
  destruct (Z.ltb_spec (n + blen rest) n); [lia|]. rewrite <- Hn. unfold blen.
  by rewrite Nat2Z.id, take_app_length, drop_app_length.
Qed.
Lemma rparses_array n bs : length bs = n -> rparses (rec_array n) bs bs.
Proof. intros <-. by apply rparses_take. Qed.
Lemma rparses_be n z : 0 <= z < 2 ^ (Z.of_nat n * 8) ->
  rparses (get! bytes <- rec_array n; rret (from_be bytes)) (be n z) z.
Proof.
  intros. eapply rparses_end; [apply rparses_array, length_be|].
  rewrite from_be_be by done. apply rparses_ret.
Qed.
Lemma rparses_u8 z : u8 z -> rparses rec_u8 (be 1 z) z.
Proof. intros. apply rparses_be. mlia. Qed.
Lemma rparses_u16 z : u16 z -> rparses rec_u16 (be 2 z) z.
Proof. intros. apply rparses_be. mlia. Qed.
Lemma rparses_u64 z : u64 z -> rparses rec_u64 (be 8 z) z.
Proof. intros. apply rparses_be. mlia. Qed.
Lemma rparses_generation section g : wf_generation g ->
  rparses (decode_generation section) (be 8 g) g.
Proof.
  intros Hg. unfold wf_generation in Hg. eapply rparses_end; [apply rparses_u64; mlia|].
  unfold Generation_new. destruct (Z.eqb_spec g 0); [lia|]. apply rparses_ret.
Qed.
Lemma rparses_bool section b : rparses (decode_bool section) (be 1 (of_bool b)) b.
Proof. destruct b; simpl; (eapply rparses_end; [apply rparses_u8; mlia | apply rparses_ret]). Qed.
Lemma rparses_blob bs : blen bs <= u64_max -> rparses rec_blob (be 8 (blen bs) ++ bs) bs.
Proof.
  intros. pose proof (blen_nonneg bs). eapply rparses_bind; [apply rparses_u64; mlia|].
  unfold usize_max. rewrite (proj2 (Z.leb_le _ _)) by done. by apply rparses_take.
Qed.

(** ** The sections, read back *)

Ltac rfield :=
  first [ apply rparses_u64; done || mlia
        | apply rparses_generation; done
        | apply rparses_bool
        | apply rparses_array; done
        | apply rparses_u8; mlia ].
Ltac rfields :=
  repeat first [ apply rparses_ret
               | eapply rparses_bind; [solve [rfield]|]
               | eapply rparses_end; [solve [rfield]|] ].

Lemma rparses_epoch e : wf_epoch e -> rparses decode_epoch (enc_epoch e) e.
Proof.
  destruct e as [[s o] g]. intros [[Hs Ho] Hg]. simpl in *.
  unfold decode_epoch, enc_epoch, enc_incarnation; simpl. rewrite <- app_assoc. rfields.
Qed.
Lemma rparses_binding b : wf_binding b -> rparses decode_binding (enc_binding b) b.
Proof.
  destruct b; simpl; intros; destruct_and?; unfold decode_binding; rfields.
  eapply rparses_end; [by apply rparses_epoch|]. rfields.
Qed.
Lemma rparses_testimony section t : rparses (decode_testimony section) (enc_testimony t) t.
Proof. destruct t as [[[]]|]; unfold decode_testimony, enc_testimony; simpl; rfields. Qed.
Lemma rparses_event e : rparses decode_event (enc_event e) e.
Proof. destruct e as [[]|[]|[]]; unfold decode_event, enc_event; simpl; rfields. Qed.

Lemma decode_enc_frame f r : frame_receiver f = r -> wf_frame f -> frame_fits f = true ->
  decode (enc_frame f) r = Ok f.
Proof.
  intros <- Hwf (body & Hb & Hfit)%frame_fits_spec. unfold enc_frame. rewrite Hb. simpl.
  rewrite decode_frame_bytes by (done || apply frame_discriminant_u16).
  apply decode_body_parses; [done..|]. unfold PARTICIPANT_PREFIX_LEN in *. mlia.
Qed.
Lemma rparses_frame f : frame_fits f = true -> rparses rec_blob (enc_blob f) (enc_frame f).
Proof. intros H%blen_enc_frame. unfold enc_blob. apply (rparses_blob (enc_frame f)). mlia. Qed.

Lemma rparses_expected e : wf_expected e -> forallb frame_fits (expected_frames e) = true ->
  rparses decode_expected (enc_expected e) e.
Proof.
  destruct e as [[r i n l]|]; simpl; [|intros; unfold decode_expected; rfields].
  intros [Hn Hr] [Hf _]%andb_true_iff. unfold decode_expected; simpl. rfields.
  eapply rparses_bind; [apply rparses_testimony|].
  eapply rparses_end; [by apply rparses_frame|].
  rewrite (decode_enc_frame (PF_ClientRequest r) RD_Server eq_refl Hr Hf). apply rparses_ret.
Qed.
Lemma rparses_abandonment a : wf_abandonment a ->
  forallb frame_fits (abandonment_frames a) = true ->
  rparses decode_abandonment (enc_abandonment a) a.
Proof.
  destruct a as [[r [] i]|]; simpl; [|intros; unfold decode_abandonment; rfields].
  intros [Hr Ho] [Hf _]%andb_true_iff. unfold decode_abandonment; simpl. rfields.
  eapply rparses_bind; [rfields|]. rfields.
  eapply rparses_end; [by apply rparses_frame|].
  rewrite (decode_enc_frame (PF_ClientRequest r) RD_Server eq_refl Hr Hf), Ho. apply rparses_ret.
Qed.
Lemma rparses_terminal t v : (status_tag (DRS_Terminal t)).2 = Some v ->
  wf_status (DRS_Terminal t) -> frame_fits (PF_ServerValue v) = true ->
  rparses (decode_terminal (status_tag (DRS_Terminal t)).1) (enc_blob (PF_ServerValue v))
    (DRS_Terminal t).
Proof.
  intros Hv [Hwf Ha] Hf. rewrite Hv in Hwf. simpl in Hwf.
  eapply rparses_end; [by apply rparses_frame|].
  rewrite (decode_enc_frame (PF_ServerValue v) RD_Client eq_refl Hwf Hf).
  destruct t as [x|x|x|[x]]; simpl in *; simplify_eq; try apply rparses_ret.
  destruct v; try apply rparses_ret; try done.
  destruct v as [|[]|]; try apply rparses_ret; done.
Qed.
Lemma rparses_replay s : wf_replay s -> forallb frame_fits (replay_frames s) = true ->
  rparses decode_replay (enc_replay s) s.
Proof.
  destruct s as [|[c p g t] st]; simpl; [intros; unfold decode_replay; rfields|].
  intros [(Hc & Hp & Hg & Ht) Hst] Hf. simpl in *. unfold decode_replay, enc_detach; simpl.
  rewrite <- !app_assoc.
  assert (1 <= (status_tag st).1 <= 8) by (destruct st as [| | | |[]]; simpl; lia).
  eapply rparses_bind; [rfield|].
  destruct (Z.eqb_spec (status_tag st).1 0); [lia|].
  rewrite (proj2 (Z.leb_le 1 _)), (proj2 (Z.leb_le _ 8)) by lia. simpl. rfields.
  eapply rparses_end; [|apply rparses_ret].
  destruct st as [| | | |tm]; simpl; try apply rparses_ret.
  pose proof (rparses_terminal tm) as Ht'.
  destruct tm; simpl in *; (apply Ht'; [done..|by apply andb_true_iff in Hf as [? _]]).
Qed.
Lemma rparses_reconnect r : wf_reconnect r -> rparses decode_reconnect (enc_reconnect r) r.
Proof.
  destruct r as [[s n] l]. intros [Hn Hs]. simpl in *. unfold decode_reconnect, enc_reconnect; simpl.
  rfields.
  assert (forall bs m, rparses m bs s -> rparses (get! state <- m; get! lost <- decode_testimony
    CRS_Reconnect; rret (state, n, lost)) (bs ++ enc_testimony l) (s, n, l)) as Hrest.
  { intros. eapply rparses_bind; [done|]. eapply rparses_end; [apply rparses_testimony|]. rfields. }
  destruct s; simpl in *; rewrite <- ?app_assoc; (eapply rparses_bind; [rfield|]).
  - change (enc_testimony l) with ([] ++ enc_testimony l). apply Hrest. rfields.
  - rewrite !app_assoc. apply Hrest. rewrite <- !app_assoc. rfields.
    eapply rparses_bind; [apply rparses_event|]. rfields.
  - rewrite !app_assoc. apply Hrest. rfields. eapply rparses_end; [apply rparses_event|]. rfields.
  - change (enc_testimony l) with ([] ++ enc_testimony l). apply Hrest. rfields.
Qed.

Lemma decode_enc_record f : wf_facts f -> frames_fit f = true ->
  decode_facts (enc_record f) = Ok f.
Proof.
  intros Hwf Hf. pose proof (blen_enc_facts f Hwf Hf) as Hlen.
  pose proof (blen_nonneg (enc_facts f)) as H0.
  destruct f as [b n e s m k l a]. unfold wf_facts, frames_fit in *. simpl in *.
  apply andb_true_iff in Hf as [[? ?]%andb_true_iff ?]. destruct_and!.
  unfold decode_facts, decode_facts_body, enc_record.
  unfold rbind at 1. rewrite (rparses_array 4 MAGIC eq_refl). rewrite bool_decide_eq_true_2 by done.
  simpl. unfold rbind at 1. rewrite (rparses_u16 VERSION) by (unfold VERSION; mlia). simpl.
  unfold rbind at 1. rewrite (rparses_u64 (blen _)) by mlia.
  unfold rbind at 1, rec_remaining at 1. rewrite Z.eqb_refl. simpl.
  unfold enc_facts; simpl.
  unfold rbind at 1. rewrite rparses_binding by done.
  unfold rbind at 1. rewrite rparses_u64 by done.
  unfold rbind at 1. rewrite rparses_expected by done.
  unfold rbind at 1. rewrite rparses_replay by done.
  unfold rbind at 1. rewrite rparses_reconnect by done.
  unfold rbind at 1. rewrite <- (app_nil_r (enc_abandonment a)), rparses_abandonment by done.
  done.
Qed.

(** ** The sections accept nothing else *)

Lemma rreads_take n : 0 <= n -> rreads (rec_take n) id (fun bs => blen bs = n).
Proof.
  intros Hn input bs rest _. unfold rec_take.
  destruct (Z.ltb_spec (blen input) n); [done|]. intros [= <- <-].
  split; [by unfold id; rewrite take_drop|]. unfold blen in *. rewrite length_take. lia.
Qed.
Lemma rreads_array n : rreads (rec_array n) id (fun bs => length bs = n).
Proof.
  intros input bs rest Hi H. apply (rreads_take (Z.of_nat n)) in H as [-> Hl]; [|lia|done].
  split; [done|]. unfold blen in Hl. lia.
Qed.
Lemma rreads_be n : rreads (get! bytes <- rec_array n; rret (from_be bytes)) (be n)
  (fun z => 0 <= z < 2 ^ (8 * Z.of_nat n)).
Proof.
  intros input z rest Hi H. apply rbind_Ok in H as (bs & mid & H & [= <- <-]).
  apply rreads_array in H as [-> <-]; [|done]. unfold id. split.
  - by rewrite be_from_be.
  - apply from_be_range.
Qed.
Lemma rreads_u8 : rreads rec_u8 (be 1) u8.
Proof. intros input z rest Hi H. apply rreads_be in H as [-> ?]; [|done]. split; [done|mlia]. Qed.
Lemma rreads_u16 : rreads rec_u16 (be 2) u16.
Proof. intros input z rest Hi H. apply rreads_be in H as [-> ?]; [|done]. split; [done|mlia]. Qed.
Lemma rreads_u64 : rreads rec_u64 (be 8) u64.
Proof. intros input z rest Hi H. apply rreads_be in H as [-> ?]; [|done]. split; [done|mlia]. Qed.
Lemma rreads_blob : rreads rec_blob (fun bs => be 8 (blen bs) ++ bs) (fun bs => blen bs <= usize_max).
Proof.
  intros input bs rest Hi H. apply rbind_Ok in H as (n & mid & Hn & H).
  apply rreads_u64 in Hn as [-> Hn]; [|done]. rewrite blen_app, blen_be in Hi.
  destruct (n <=? usize_max); [|done].
  apply rreads_take in H as [-> <-]; [|mlia|lia]. unfold id in *. rewrite blen_app in Hi.
  pose proof (blen_nonneg rest). rewrite <- app_assoc. split; [done|lia].
Qed.

(** One bound field: name the value it read and shorten the slice. *)
Ltac rbound := rewrite ?blen_app, ?blen_be in *;
  repeat match goal with |- context [blen ?x] =>
    lazymatch goal with H : 0 <= blen x |- _ => fail | _ => pose proof (blen_nonneg x) end end;
  repeat match goal with _ : context [blen ?x] |- _ =>
    lazymatch goal with H : 0 <= blen x |- _ => fail | _ => pose proof (blen_nonneg x) end end;
  lia.
Ltac rnext H lem :=
  let a := fresh "v" in let mid := fresh "mid" in let Hm := fresh "Hm" in
  apply rbind_Ok in H as (a & mid & Hm & H); apply lem in Hm as [-> Hm]; [|rbound].
(** Closed tags: every other tag is an error. *)
Ltac rtag H :=
  repeat match type of H with
         | context [match ?z with Z0 => _ | Zpos _ => _ | Zneg _ => _ end] =>
             is_var z; destruct z; try done
         | context [match ?p with xI _ => _ | xO _ => _ | xH => _ end] =>
             is_var p; destruct p; try done
         end.

Lemma rreads_generation section : rreads (decode_generation section) (be 8) wf_generation.
Proof.
  intros input g rest Hi H. rnext H rreads_u64. unfold Generation_new in H.
  destruct (Z.eqb_spec v 0); [done|]. injection H as <- <-. split; [done|].
  unfold wf_generation. mlia.
Qed.
Lemma rreads_epoch : rreads decode_epoch enc_epoch wf_epoch.
Proof.
  intros input e rest Hi H. rnext H rreads_u64. rnext H rreads_u64. rnext H rreads_generation.
  injection H as <- <-. unfold enc_epoch, enc_incarnation; simpl. by rewrite <- !app_assoc.
Qed.
Lemma rreads_bool section : rreads (decode_bool section) (fun b => be 1 (of_bool b)) (fun _ => True).
Proof. intros input b rest Hi H. rnext H rreads_u8. rtag H; by injection H as <- <-. Qed.
Lemma rreads_event : rreads decode_event enc_event (fun _ => True).
Proof. intros input b rest Hi H. rnext H rreads_u8. rtag H; by injection H as <- <-. Qed.
Lemma rreads_testimony section : rreads (decode_testimony section) enc_testimony (fun _ => True).
Proof. intros input b rest Hi H. rnext H rreads_u8. rtag H; by injection H as <- <-. Qed.
Lemma rreads_binding : rreads decode_binding enc_binding wf_binding.
Proof.
  intros input b rest Hi H. rnext H rreads_u8. rtag H; simpl in H.
  - injection H as <- <-. done.
  - rnext H rreads_u64. rnext H rreads_u64. rnext H rreads_generation.
    injection H as <- <-. simpl. by rewrite <- !app_assoc.
  - rnext H rreads_u64. rnext H rreads_u64. rnext H rreads_generation. rnext H (rreads_array 32).
    injection H as <- <-. simpl. by rewrite <- !app_assoc.
  - rnext H rreads_u64. rnext H rreads_u64. rnext H rreads_generation. rnext H (rreads_array 32).
    rnext H rreads_epoch. injection H as <- <-. simpl. by rewrite <- !app_assoc.
Qed.

Lemma decode_frame_inv bs r f : blen bs <= usize_max -> decode bs r = Ok f ->
  bs = enc_frame f /\ frame_fits f = true /\ wf_frame f.
Proof.
  intros Hl H. apply decode_Ok_inv in H as (d & body & -> & Hd & Hfit & H); [|done].
  apply decode_body_reads in H as (Hwf & Hb & <- & _); [|done].
  unfold enc_frame. rewrite Hb. split; [done|]. split; [|done]. apply frame_fits_spec. eauto.
Qed.

Lemma rreads_expected : rreads decode_expected enc_expected
  (fun e => wf_expected e /\ forallb frame_fits (expected_frames e) = true).
Proof.
  intros input e rest Hi H. rnext H rreads_u8. rtag H.
  - injection H as <- <-. done.
  - rnext H rreads_bool. rnext H rreads_u64. rnext H rreads_testimony. rnext H rreads_blob.
    destruct (decode _ _) as [[r| |]|] eqn:E; try done. injection H as <- <-.
    apply decode_frame_inv in E as (-> & Hf & Hwf); [|done].
    unfold enc_expected, expected_frames, wf_expected, enc_blob; simpl. rewrite Hf.
    by rewrite <- !app_assoc.
Qed.
Lemma rreads_abandonment : rreads decode_abandonment enc_abandonment
  (fun a => wf_abandonment a /\ forallb frame_fits (abandonment_frames a) = true).
Proof.
  intros input e rest Hi H. rnext H rreads_u8. rtag H.
  - injection H as <- <-. done.
  - apply rbind_Ok in H as (reason & mid' & Hr & H). rnext Hr rreads_u8. rtag Hr.
    destruct reason. injection Hr as <-. rnext H rreads_bool. rnext H rreads_blob.
    destruct (decode _ _) as [[r| |]|] eqn:E; try done.
    destruct (is_observer_recovery r) eqn:Eo; [|done]. injection H as <- <-.
    apply decode_frame_inv in E as (-> & Hf & Hwf); [|done].
    unfold enc_abandonment, abandonment_frames, wf_abandonment, enc_blob; simpl. rewrite Hf.
    by rewrite <- !app_assoc.
Qed.

(** A terminal status is read under its own tag only. *)
Lemma rreads_terminal tag : 5 <= tag <= 8 -> rreads (decode_terminal tag)
  (fun st => match (status_tag st).2 with Some v => enc_blob (PF_ServerValue v) | None => [] end)
  (fun st => (status_tag st).1 = tag /\ wf_status st
    /\ match (status_tag st).2 with Some v => frame_fits (PF_ServerValue v) = true | None => False end).
Proof.
  intros Htag input st rest Hi H. rnext H rreads_blob.
  destruct (decode _ _) as [[|v'|]|] eqn:E; try done.
  apply decode_frame_inv in E as (-> & Hf & Hwf); [|done].
  assert (tag = 5 \/ tag = 6 \/ tag = 7 \/ tag = 8) as Ht by lia.
  assert (exists t, st = DRS_Terminal t /\ rest = mid
    /\ status_tag st = (tag, Some v') /\ wf_status st) as (t & -> & -> & Et & Hst).
  { destruct Ht as [->|[->|[->| ->]]].
    1,2: destruct v'; try done; injection H as <- <-; by eexists.
    - destruct v'; try done. destruct v as [|[]|]; try done. injection H as <- <-. by eexists.
    - destruct (is_answer v') eqn:Ea; [by destruct v'; try done; destruct v as [|[]|]|].
      assert (rret (DRS_Terminal (DRT_AuthorityRefused (mkAuthorityRefused v'))) mid = Ok (st, rest))
        as H' by (destruct v'; try done; by destruct v as [|[]|]).
      injection H' as <- <-. by eexists. }
  rewrite Et. simpl. rewrite Hf. by unfold enc_blob.
Qed.
Lemma rreads_replay : rreads decode_replay enc_replay
  (fun s => wf_replay s /\ forallb frame_fits (replay_frames s) = true).
Proof.
  intros input s rest Hi H. rnext H rreads_u8.
  destruct (Z.eqb_spec v 0) as [->|]; [by injection H as <- <-|].
  destruct (Z.leb_spec 1 v), (Z.leb_spec v 8); try done. simpl in H.
  rnext H rreads_u64. rnext H rreads_u64. rnext H rreads_generation. rnext H (rreads_array 16).
  apply rbind_Ok in H as (st & mid' & Hst & [= <- <-]).
  assert (mid = match (status_tag st).2 with Some v => enc_blob (PF_ServerValue v) | None => [] end
    ++ mid' /\ (status_tag st).1 = v /\ wf_status st
    /\ match (status_tag st).2 with Some v => frame_fits (PF_ServerValue v) = true | None => True end)
    as (-> & <- & Hwf & Hf).
  { assert (v = 1 \/ v = 2 \/ v = 3 \/ v = 4 \/ 5 <= v <= 8) as [->|[->|[->|[->|Hv]]]] by lia.
    1-4: injection Hst as <- <-; done.
    assert (decode_terminal v mid = Ok (st, mid')) as Hd.
    { assert (v = 5 \/ v = 6 \/ v = 7 \/ v = 8) as Ht by lia. by destruct Ht as [->|[->|[->| ->]]]. }
    apply rreads_terminal in Hd as (-> & ? & ? & ?); [|done|rbound].
    by destruct (status_tag st).2. }
  unfold enc_replay, enc_detach, wf_replay, replay_frames, id in *; simpl.
  rewrite <- !app_assoc. split; [done|]. split; [done|].
  destruct (status_tag st).2; simpl; [by rewrite Hf|done].
Qed.
Lemma rreads_reconnect : rreads decode_reconnect enc_reconnect wf_reconnect.
Proof.
  intros input r rest Hi H. rnext H rreads_u64. rnext H rreads_u8.
  apply rbind_Ok in H as (s & mid' & Hs & H).
  assert (be 1 v0 ++ mid0 = enc_machine s ++ mid' /\ wf_machine s) as [E Hwf].
  { rtag Hs.
    - by injection Hs as <- <-.
    - by injection Hs as <- <-.
    - rnext Hs rreads_u64. rnext Hs rreads_event. injection Hs as <- <-. simpl.
      by rewrite <- !app_assoc.
    - rnext Hs rreads_u64. rnext Hs rreads_event. rnext Hs rreads_bool. injection Hs as <- <-. simpl.
      by rewrite <- !app_assoc. }
  rewrite E in *. rnext H rreads_testimony. injection H as <- <-.
  unfold enc_reconnect, wf_reconnect; simpl. by rewrite <- !app_assoc.
Qed.

(** An accepted record is the record of the facts it yields, which are in range. *)
Lemma decode_facts_inv input f : blen input <= usize_max -> decode_facts input = Ok f ->
  input = enc_record f /\ wf_facts f /\ frames_fit f = true.
Proof.
  intros Hi H. unfold decode_facts in H.
  destruct (decode_facts_body input) as [[f' rest]|] eqn:E; simplify_eq/=. unfold decode_facts_body in E.
  rnext E (rreads_array 4). destruct (bool_decide_reflect (v = MAGIC)) as [->|]; [simpl in E|done].
  rnext E rreads_u16. destruct (Z.eqb_spec v VERSION) as [->|]; [simpl in E|done].
  rnext E rreads_u64. apply rbind_Ok in E as (? & ? & [= <- <-] & E).
  destruct (Z.eqb_spec v (blen mid)) as [->|]; [simpl in E|done].
  rnext E rreads_binding. rnext E rreads_u64. rnext E rreads_expected. rnext E rreads_replay.
  rnext E rreads_reconnect. destruct v3 as [[m k] l]. rnext E rreads_abandonment.
  apply rbind_Ok in E as (? & ? & [= <- <-] & E).
  destruct (Z.eqb_spec (blen mid) 0) as [Hz|]; [simpl in E|done]. injection E as <- <-.
  assert (mid = []) as -> by (destruct mid; [done|unfold blen in Hz; simpl in Hz; lia]).
  unfold enc_record, enc_facts, wf_facts, frames_fit, id; simpl. rewrite app_nil_r.
  split; [done|]. destruct_and!. split; [done|]. apply andb_true_iff. split; [|done].
  apply andb_true_iff. done.
Qed.
