(* ===== verification/ClientInv.v ===== *)
(** * The client invariant

    The facts a cold restore validates, as an invariant of the live aggregate: what
    [validate_facts] demands is exactly [client_inv], and every operation of [Client]
    and [Inbound] keeps it.  The invariant splits into the operation slot with its
    detach replay and the reconnect machine, which no operation touches together. *)
From coqutil Require Import Byte.
From S2P Require Import Prelude ResumeCodec Algebra Tags Wire Response Bytes FrameCodec Member.
From S2P Require Import Lookup Client Correlation Inbound Resume.

(** ** The invariant *)

Definition bound_epoch (b : ClientBindingState) : Prop :=
  match b with CB_Bound _ _ g _ e => g = capability_generation e | _ => True end.

Definition lost_ok (e : ExpectedOperationState) : Prop :=
  match eos_lost e with
  | None => True
  | Some t => eos_issued e = true /\ is_observer_recovery (eos_request e) = false
              /\ lat_kind t = operation_kind (eos_request e)
  end.
Definition is_ack (r : ClientRequest) : bool :=
  match r with CR_ParticipantAck _ => true | _ => false end.
Definition slot_ok (b : ClientBindingState) (n : Z) (e : option ExpectedOperationState) : Prop :=
  match e with
  | None => True
  | Some e => is_ack (eos_request e) = false /\ 0 < eos_authorization e <= n
              /\ accepts_request b (eos_request e) = true /\ lost_ok e
  end.

(** An active replay and the expected detach name each other, and the replay is in
    flight exactly when the detach is issued. *)
Definition coupled (e : option ExpectedOperationState) (s : DetachReplayState) : Prop :=
  match s with
  | DR_Recorded d status =>
      if is_active_status status then
        exists x r, e = Some x /\ eos_request x = CR_Detach r /\ detach_envelope r = d
                    /\ status_issued status (eos_issued x) = true
      else forall x, e = Some x -> is_detach (eos_request x) = false
  | DR_Empty => forall x, e = Some x -> is_detach (eos_request x) = false
  end.
Definition terminal_ok (s : DetachReplayState) : Prop :=
  match s with
  | DR_Recorded d (DRS_Terminal t) => terminal_matches d t = true
  | _ => True
  end.
Definition abandon_ok (ab : option RestoredExpectedOperationAbandonment)
    (e : option ExpectedOperationState) : Prop :=
  is_some ab = true -> forall x, e = Some x -> is_observer_recovery (eos_request x) = false.

Record operation_inv (b : ClientBindingState) (n : Z) (e : option ExpectedOperationState)
    (s : DetachReplayState) (ab : option RestoredExpectedOperationAbandonment) : Prop := {
  oi_binding : wf_binding b;
  oi_epoch : bound_epoch b;
  oi_next : u64 n;
  oi_request : wf_expected e;
  oi_slot : slot_ok b n e;
  oi_replay : wf_replay s;
  oi_coupled : coupled e s;
  oi_terminal : terminal_ok s;
  oi_abandonment : wf_abandonment ab;
  oi_abandon : abandon_ok ab e;
}.

Definition machine_ok (n : Z) (s : ReconnectMachineState) : Prop :=
  match s with RM_Permit k _ _ | RM_Attempt k _ => 0 < k <= n | RM_Parked | RM_Online => True end.
Definition reconnect_inv (r : ReconnectAggregate) : Prop :=
  u64 (rca_next_authorization r) /\ machine_ok (rca_next_authorization r) (rca_state r)
  /\ (forall t, rca_lost r = Some t -> reconnect_kind (rca_state r) = Some (lat_kind t)).

Definition client_inv (a : ClientParticipantAggregate) : Prop :=
  operation_inv (cpa_binding a) (cpa_next_operation_authorization a) (cpa_expected a)
    (replay_state a) (cpa_restored_abandonment a)
  /\ reconnect_inv (cpa_reconnect a).

(** ** The validator decides the invariant *)

Lemma names_detach_iff r d : names_detach (CR_Detach r) d = true <-> detach_envelope r = d.
Proof.
  destruct d as [c p g t]. unfold names_detach, detach_envelope, token_eqb; simpl.
  rewrite !andb_true_iff, !Z.eqb_eq, bool_decide_eq_true. split; [|by intros [= <- <- <- <-]].
  by intros (((-> & ->) & ->) & ->).
Qed.

Lemma coupling_iff f : validate_replay_coupling f = Ok tt <-> coupled (df_expected f) (df_replay f).
Proof.
  unfold validate_replay_coupling, coupled.
  destruct (df_replay f) as [|d status].
  { destruct (df_expected f) as [[[]]|]; simpl; split; try done; naive_solver. }
  destruct (is_active_status status).
  - destruct (df_expected f) as [[r i n l]|]; simpl; [|split; [done|by intros (? & ? & ? & _)]].
    destruct r; try (split; [done|intros (? & ? & [= <-] & ? & _); simpl in *; done]).
    pose proof (names_detach_iff r d) as Hn. unfold names_detach in Hn.
    destruct (_ && token_eqb _ _); simpl.
    + destruct (status_issued status i) eqn:Es; split; try done.
      * intros _. eexists _, r. split; [done|]. split; [done|]. split; [by apply Hn|done].
      * intros (x & r' & [= <-] & [= <-] & _ & H). simpl in H. congruence.
    + split; [done|]. intros (x & r' & [= <-] & [= <-] & H & _). by apply Hn in H.
  - destruct (df_expected f) as [[[]]|]; simpl; split; try done; naive_solver.
Qed.

Lemma testimony_iff f : validate_testimony_coupling f = Ok tt <->
  (forall e, df_expected f = Some e -> lost_ok e)
  /\ (forall t, df_reconnect_lost f = Some t ->
        reconnect_kind (df_reconnect_state f) = Some (lat_kind t))
  /\ abandon_ok (df_abandonment f) (df_expected f).
Proof.
  destruct f as [b n e s m k l ab]. unfold validate_testimony_coupling; simpl. split.
  - intros H. repeat split.
    + intros x ->. simpl in H. unfold lost_ok. destruct (eos_lost x); [|done].
      destruct (_ || _ || _) eqn:E; [done|]. dreflect. done.
    + intros t ->. destruct e as [[r i k' [t'|]]|]; simpl in H; dreflect; csplit_in H; dreflect; done.
    + intros Hab x ->. rewrite Hab in H. destruct (is_observer_recovery _); [|done].
      csplit_in H; done.
  - intros (He & Hl & Ha).
    assert (match e with
      | Some expected =>
          match eos_lost expected with
          | Some testimony =>
              if negb (eos_issued expected) || is_observer_recovery (eos_request expected)
                 || negb (bool_decide (lat_kind testimony = operation_kind (eos_request expected)))
              then Err RSE_LostAuthorityTestimonyMismatch else Ok tt
          | None => Ok tt
          end
      | None => Ok tt
      end = Ok tt) as ->.
    { destruct e as [x|]; [|done]. specialize (He x eq_refl). unfold lost_ok in He.
      destruct (eos_lost x); [|done]. destruct He as (-> & -> & ->).
      by rewrite bool_decide_eq_true_2. }
    destruct l as [t|]; [rewrite (Hl t eq_refl), bool_decide_eq_true_2 by done; simpl|].
    all: destruct (is_some ab) eqn:E; [|done]; destruct e as [x|]; [|done];
      by rewrite (Ha E x eq_refl).
Qed.

(** An error branch a successful run did not take. *)
Ltac err_guard H E :=
  match type of H with (if ?b then Err _ else _) = Ok _ => destruct b eqn:E; [done|] end.

(** The checks of [validate_facts], read off one by one. *)
Lemma validate_facts_iff f : wf_facts f ->
  validate_facts f = Ok tt <-> client_inv (of_facts f).
Proof.
  intros Hwf. pose proof Hwf as (? & ? & ? & ? & (? & ?) & ?).
  pose proof (coupling_iff f) as Hc. pose proof (testimony_iff f) as Ht.
  destruct f as [b n e s m k l ab]. unfold validate_facts, client_inv, reconnect_inv; simpl in *.
  split.
  - intros Hv. err_guard Hv E1. err_guard Hv E2. err_guard Hv E3. err_guard Hv E4.
    destruct (validate_replay_coupling _) as [[]|]; [|done]. err_guard Hv E5. err_guard Hv E6.
    destruct (validate_testimony_coupling _) as [[]|]; [|done].
    destruct (proj1 Ht eq_refl) as (He & Hl & Ha). split; [constructor; try done|].
    + unfold bound_epoch. destruct b; try done. by dreflect.
    + unfold slot_ok. destruct e as [x|]; [|done]. simpl in *. dreflect.
      split; [by destruct x as [[]]|]. split; [unfold u64 in *; lia|]. split; [done|]. by apply He.
    + by apply Hc.
    + unfold terminal_ok. destruct s as [|d [| | | |t]]; try done. by dreflect.
    + split; [done|]. split; [|done]. unfold machine_ok.
      destruct m; simpl in *; try done; dreflect; mlia.
  - intros [[? He ? ? Hs ? Hcp Htm ? Ha] (? & Hm & Hl)]. simpl in *.
    assert (match b with CB_Bound _ _ g _ ep => negb (g =? capability_generation ep) | _ => false end = false)
      as -> by (unfold bound_epoch in He; destruct b; try done; rewrite He, Z.eqb_refl; done).
    rewrite (proj2 Hc Hcp), (proj2 Ht).
    2:{ split; [|done]. intros x ->. by destruct Hs as (_ & _ & _ & ?). }
    assert (match s with DR_Recorded r (DRS_Terminal t) => negb (terminal_matches r t) | _ => false end
      = false) as -> by (unfold terminal_ok in Htm; destruct s as [|d [| | | |t]]; try done; by rewrite Htm).
    assert (match m with RM_Permit v _ _ | RM_Attempt v _ => (v =? 0) || (k <? v)
      | RM_Parked | RM_Online => false end = false) as ->.
    { unfold machine_ok in Hm. destruct m; try done; apply orb_false_iff;
        rewrite Z.eqb_neq, Z.ltb_ge; lia. }
    destruct e as [[r i v lo]|]; [|done]. simpl in *. destruct Hs as (Hk & Hv & -> & _).
    destruct r; try done; simpl; by (destruct (Z.eqb_spec v 0), (Z.ltb_spec n v); [lia..|]).
Qed.

(** ** Recording an operation *)

(** The replay a recorded operation leaves: a detach is parked. *)
Definition recorded_replay (s : DetachReplayState) (r : ClientRequest) (status : DetachReplayStatus)
    : DetachReplayState :=
  match r with CR_Detach v => DR_Recorded (detach_envelope v) status | _ => s end.
(** The aggregate with a fresh operation in its slot. *)
Definition recorded (a : ClientParticipantAggregate) (r : ClientRequest) (issued : bool)
    : ClientParticipantAggregate :=
  let n := cpa_next_operation_authorization a + 1 in
  mkClient (cpa_binding a) (Some (mkExpected r issued n None)) n
    (mkDetachReplay (recorded_replay (replay_state a) r (if issued then DRS_InFlight else DRS_Parked)))
    (cpa_reconnect a) (cpa_restored_abandonment a).

Lemma set_replay_same a : set_replay a (replay_state a) = a.
Proof. by destruct a as [? ? ? [] ? ?]. Qed.

Lemma admit_detach_eq a r a' prior : admit_detach_replay a r = (a', Ok prior) ->
  a' = set_replay a (recorded_replay (replay_state a) r DRS_Parked)
  /\ prior = (if is_detach r then Some (replay_state a) else None).
Proof.
  unfold admit_detach_replay. destruct r; simpl; intros H; simplify_eq; try by rewrite set_replay_same.
  change (mkDetachEnvelope _ _ _ _) with (detach_envelope r) in H.
  destruct (replay_state a) as [|d st] eqn:Es; simplify_eq; [done|].
  destruct (bool_decide_reflect (d = detach_envelope r)) as [->|].
  - destruct st; simplify_eq. by rewrite <- Es, set_replay_same.
  - destruct (can_replace_with _ _); by simplify_eq.
Qed.

Lemma admit_detach_refused a r a' reason : admit_detach_replay a r = (a', Err reason) -> a' = a.
Proof.
  unfold admit_detach_replay. destruct r; simpl; intros H; simplify_eq.
  destruct (replay_state a) as [|d st]; simplify_eq.
  destruct (bool_decide _); [destruct st|destruct (can_replace_with _ _)]; by simplify_eq.
Qed.

Lemma record_pending_eq a r p : record_operation a r = CRD_Pending p ->
  accepts_request (cpa_binding a) r = true /\ is_ack r = false /\ cpa_expected a = None
  /\ (is_some (cpa_restored_abandonment a) = true -> is_observer_recovery r = false)
  /\ cpa_next_operation_authorization a + 1 <= u64_max
  /\ p = mkPendingOperation (recorded a r false)
           (mkOperation r (cpa_next_operation_authorization a + 1))
           (if is_detach r then Some (replay_state a) else None).
Proof.
  unfold record_operation. destruct (accepts_request _ _); [simpl|by destruct (is_left _)].
  intros H. assert (is_ack r = false) as Hk by (by destruct r).
  assert (record_operation_tail : (if is_some (cpa_expected a) then CRD_Refused a r COR_OutstandingOperation
    else if is_some (cpa_restored_abandonment a) && is_observer_recovery r
    then CRD_Refused a r COR_AbandonmentPending
    else match checked_add u64_max (cpa_next_operation_authorization a) 1 with
      | None => CRD_Refused a r COR_AuthorizationExhausted
      | Some authorization =>
          match admit_detach_replay a r with
          | (a, Err reason) => CRD_Refused a r reason
          | (a, Ok prior_replay) =>
              CRD_Pending (mkPendingOperation
                (set_expected (set_next a authorization) (Some (mkExpected r false authorization None)))
                (mkOperation r authorization) prior_replay)
          end
      end) = CRD_Pending p) by (by destruct r).
  clear H. rename record_operation_tail into H. unfold checked_add in H.
  destruct (cpa_expected a) eqn:Ee; [done|]. simpl in H.
  destruct (is_some _ && _) eqn:Ea; [done|].
  destruct (Z.leb_spec (cpa_next_operation_authorization a + 1) u64_max); [|done].
  destruct (admit_detach_replay a r) as [a' [prior|]] eqn:Ed; [|done]. simplify_eq.
  apply admit_detach_eq in Ed as [-> ->]. repeat split; try done.
  intros Hab. rewrite Hab in Ea. done.
Qed.

(** The caller that refuses durability gets back exactly what it gave. *)
Lemma abort_exact a r p : 0 <= cpa_next_operation_authorization a ->
  record_operation a r = CRD_Pending p -> operation_abort p = (a, r).
Proof.
  intros Hn H. apply record_pending_eq in H as (_ & _ & He & _ & _ & ->).
  unfold operation_abort, saturating_sub, set_next, set_expected, set_replay, recorded; simpl.
  rewrite Z.add_simpl_r, Z.max_r by done. f_equal.
  destruct a as [b e n [s] rc ab]; simpl in *. subst e. by destruct r.
Qed.

Lemma into_parts_eq a r p : record_operation a r = CRD_Pending p ->
  commit_into_parts (operation_commit p)
  = (recorded a r true, mkOperation r (cpa_next_operation_authorization a + 1)).
Proof.
  intros H. apply record_pending_eq in H as (_ & _ & _ & _ & _ & ->).
  unfold commit_into_parts, recorded, set_expected, set_replay, replay_state; simpl.
  by destruct r.
Qed.

Lemma recorded_inv a r issued p : client_inv a -> wf_request r ->
  record_operation a r = CRD_Pending p -> client_inv (recorded a r issued).
Proof.
  intros [[? ? Hn ? ? ? Hc Ht ? ?] Hr] Hwf (Hacc & Hk & He & Ha & Hmax & _)%record_pending_eq.
  rewrite He in *. split; [|done]. unfold recorded, replay_state in *; simpl.
  constructor; simpl; try done.
  - mlia.
  - split; [mlia|done].
  - unfold slot_ok; simpl. repeat split; try done; mlia.
  - destruct r; try done; simpl. split; [|by destruct issued]. by destruct r.
  - destruct r; simpl; try (unfold coupled in *; destruct (sdr_state _) as [|d st]; [by intros x [= <-]|];
      destruct (is_active_status st); [by destruct Hc as (? & ? & ? & _)|by intros x [= <-]]).
    destruct issued; eexists _, r; repeat split.
  - destruct r; try done. by destruct issued.
  - intros Hs x [= <-]. by apply Ha.
Qed.

(** ** The coupling, used *)

Lemma coupled_detach x s : coupled (Some x) s -> is_detach (eos_request x) = true ->
  exists r, eos_request x = CR_Detach r
    /\ s = DR_Recorded (detach_envelope r) (if eos_issued x then DRS_InFlight else DRS_Parked).
Proof.
  unfold coupled. intros H Hd.
  destruct s as [|d st]; [by rewrite (H x eq_refl) in Hd|].
  destruct (is_active_status st) eqn:Ea; [|by rewrite (H x eq_refl) in Hd].
  destruct H as (y & r & [= <-] & Hr & <- & Hi). exists r. split; [done|].
  destruct st; simpl in *; try done; destruct (eos_issued x); done.
Qed.
Lemma coupled_other x s : coupled (Some x) s -> is_detach (eos_request x) = false ->
  is_active s = false.
Proof.
  unfold coupled. intros H Hd. destruct s as [|d st]; [done|]. simpl.
  destruct (is_active_status st); [|done]. destruct H as (y & r & [= <-] & Hr & _).
  by rewrite Hr in Hd.
Qed.
Lemma coupled_settled s : is_active s = false -> coupled None s.
Proof. unfold coupled, is_active. by destruct s as [|d st]; [|intros ->]. Qed.
Lemma coupled_none s : coupled None s -> is_active s = false.
Proof.
  unfold coupled, is_active. destruct s as [|d st]; [done|].
  destruct (is_active_status st); [|done]. by intros (? & ? & ? & _).
Qed.
Lemma coupled_keep x y s : coupled (Some x) s -> is_detach (eos_request x) = false ->
  is_detach (eos_request y) = false -> coupled (Some y) s.
Proof.
  intros Hc Hx Hy. apply coupled_other in Hc; [|done]. unfold coupled, is_active in *.
  destruct s as [|d st]; [by intros z [= <-]|]. rewrite Hc. by intros z [= <-].
Qed.

(** Clearing the slot: the replay must be settled with it. *)
Lemma operation_clear b n e s ab b' s' : operation_inv b n e s ab ->
  wf_binding b' -> bound_epoch b' -> wf_replay s' -> terminal_ok s' -> is_active s' = false ->
  operation_inv b' n None s' ab.
Proof.
  intros [? ? ? ? ? ? ? ? ? ?] ? ? ? ? ?. constructor; try done. by apply coupled_settled.
Qed.

(** Changing the issue flag of the slot, with the replay following a detach. *)
Lemma operation_reissue b n x s ab issued : operation_inv b n (Some x) s ab ->
  operation_inv b n (Some (mkExpected (eos_request x) issued (eos_authorization x) None))
    (if is_detach (eos_request x)
     then set_status s (if issued then DRS_InFlight else DRS_Parked) else s) ab.
Proof.
  intros [? ? ? Hr (? & ? & ? & ?) Hw Hc Ht ? Ha]. constructor; try done.
  - destruct (is_detach (eos_request x)); [|done]. destruct s as [|d st]; [done|].
    destruct Hw as [? _]. split; [done|]. by destruct issued.
  - destruct (is_detach (eos_request x)) eqn:E; [|by eapply coupled_keep].
    apply coupled_detach in Hc as (r & Er & ->); [|done]. rewrite Er. simpl.
    destruct issued; eexists _, r; repeat split.
  - destruct (is_detach _); [|done]. destruct s as [|d st]; [done|]. by destruct issued.
  - intros Hs y [= <-]. simpl. by apply (Ha Hs).
Qed.

Lemma mark_started_status s : is_active s = true \/ s = DR_Empty ->
  mark_initial_attempt_started s = set_status s DRS_InFlight.
Proof. intros [H| ->]; [|done]. by destruct s as [|d []]. Qed.

(** An operation with no pending loss is unchanged by writing [None] there. *)
Lemma lost_none x issued : eos_lost x = None ->
  mkExpected (eos_request x) issued (eos_authorization x) None = set_issued x issued.
Proof. destruct x; simpl. by intros ->. Qed.
Lemma unissued_not_lost x : lost_ok x -> eos_issued x = false -> eos_lost x = None.
Proof. unfold lost_ok. destruct (eos_lost x); [|done]. intros (-> & _) [=]. Qed.

(** ** What an operation does to the authority of the slot *)

Section Authority.
Context (a a' : ClientParticipantAggregate).

Definition same_counters : Prop :=
  cpa_next_operation_authorization a' = cpa_next_operation_authorization a
  /\ cpa_reconnect a' = cpa_reconnect a.
(** An unissued operation is released under authorization [h]. *)
Definition issues (h : Z) : Prop := exists x,
  cpa_expected a = Some x /\ eos_issued x = false /\ eos_lost x = None
  /\ h = eos_authorization x /\ cpa_expected a' = Some (set_issued x true) /\ same_counters.
(** The issued operation of authorization [h] is answered or taken back. *)
Definition consumes (h : Z) : Prop := exists x,
  cpa_expected a = Some x /\ eos_issued x = true /\ eos_lost x = None
  /\ h = eos_authorization x
  /\ (cpa_expected a' = None \/ cpa_expected a' = Some (set_issued x false)) /\ same_counters.
End Authority.

(** ** The operations *)

Lemma detach_active x s : coupled (Some x) s -> is_detach (eos_request x) = true -> is_active s = true.
Proof. intros Hc Hd. destruct (coupled_detach _ _ Hc Hd) as (r & _ & ->). by destruct (eos_issued x). Qed.

Lemma recover_inv a a' op : client_inv a ->
  recover_expected_operation a = REO_Recovered a' op ->
  client_inv a' /\ issues a a' (epo_authorization op).
Proof.
  intros [Hop Hrc] H. unfold recover_expected_operation in H.
  destruct (cpa_expected a) as [x|] eqn:Ee; [|done]. destruct (eos_issued x) eqn:Ei; [done|].
  pose proof Hop as [_ _ _ _ (_ & _ & _ & Hl) _ Hc _ _ _].
  pose proof (unissued_not_lost x Hl Ei) as Hn.
  pose proof (operation_reissue _ _ _ _ _ true Hop) as Hnew. rewrite lost_none in Hnew by done.
  injection H as <- <-. split; [|exists x; by destruct (is_detach (eos_request x))].
  split; [|by destruct (is_detach (eos_request x))].
  destruct (is_detach (eos_request x)) eqn:Ed; [|done].
  unfold set_replay, set_expected, replay_state in *; simpl in *.
  rewrite mark_started_status; [done|left]. by eapply detach_active.
Qed.

Lemma attempt_started_inv a a' t : client_inv a ->
  transport_attempt_started a = Applied a' t ->
  client_inv a' /\ issues a a' (dta_authorization t).
Proof.
  intros [Hop Hrc] H. unfold transport_attempt_started in H.
  destruct (replay_state a) as [|d [| | | |]] eqn:Es; try done.
  destruct (cpa_expected a) as [x|] eqn:Ee; [|done]. simpl in H.
  destruct (negb (_ && _)) eqn:Eg; [done|]. injection H as <- <-. dreflect.
  pose proof Hop as [_ _ _ _ (_ & _ & _ & Hl) _ Hc _ _ _].
  destruct Hc as (y & r & [= <-] & Er & Ed & Hi). simpl in Hi. apply negb_true_iff in Hi.
  pose proof (unissued_not_lost x Hl Hi) as Hn.
  pose proof (operation_reissue _ _ _ _ _ true Hop) as Hnew. rewrite lost_none in Hnew by done.
  rewrite Er in Hnew. simpl in Hnew. split; [by split|]. by exists x.
Qed.

Lemma fate_inv a c f a' out : client_inv a ->
  record_expected_operation_fate a c f = Applied a' out ->
  client_inv a' /\ consumes a a' (crc_authorization c).
Proof.
  intros [Hop Hrc] H. unfold record_expected_operation_fate in H.
  destruct (cpa_expected a) as [x|] eqn:Ee; [|done].
  destruct (eos_issued x) eqn:Ei; [simpl in H|done].
  destruct (eos_lost x) eqn:El; [done|]. simpl in H.
  destruct (Z.eqb_spec (eos_authorization x) (crc_authorization c)); [simpl in H|done].
  destruct (is_detach _) eqn:Ed; [done|]. injection H as <- <-. split; [|by exists x; repeat split; auto].
  split; [|done]. pose proof Hop as [? ? ? ? ? ? Hc ? ? ?].
  eapply operation_clear; try done. by eapply coupled_other.
Qed.

(** What [detach_authority_matches] establishes. *)
Lemma detach_authority a c : client_inv a -> operation_loss_pending a = false ->
  detach_authority_matches a c = true ->
  exists x r, cpa_expected a = Some x /\ eos_request x = CR_Detach r /\ eos_issued x = true
    /\ eos_lost x = None /\ crc_authorization c = eos_authorization x
    /\ replay_state a = DR_Recorded (detach_envelope r) DRS_InFlight.
Proof.
  intros [Hop _] Hl H. unfold detach_authority_matches in H.
  unfold operation_loss_pending, lost_operation_testimony in Hl.
  destruct (cpa_expected a) as [x|]; [|done]. destruct (_ || _) eqn:Eg; [done|]. dreflect.
  destruct (replay_state a) as [|d [| | | |]] eqn:Es; try done.
  destruct (eos_request x) eqn:Er; try done. apply names_detach_iff in H as <-.
  exists x, r. destruct (eos_lost x); [done|]. repeat split; congruence.
Qed.

Lemma transport_fate_inv a c f a' : client_inv a -> transport_fate a c f = Applied a' tt ->
  client_inv a' /\ consumes a a' (crc_authorization c).
Proof.
  intros Hinv H. unfold transport_fate in H.
  destruct (operation_loss_pending a) eqn:El; [done|].
  destruct (detach_authority_matches a c) eqn:Em; [|done].
  destruct (detach_authority a c Hinv El Em) as (x & r & Ee & Er & Ei & Hl & Hh & Es).
  injection H as <-. rewrite Es, Ee. simpl. split; [|by exists x; repeat split; auto].
  destruct Hinv as [Hop Hrc]. split; [|done]. rewrite Ee, Es in Hop.
  pose proof (operation_reissue _ _ _ _ _ false Hop) as Hnew. rewrite lost_none in Hnew by done.
  by rewrite Er in Hnew.
Qed.

(** A replay operation that applied: the request is kept, the status is settled. *)
Definition settles (s s' : DetachReplayState) : Prop :=
  exists d st st', s = DR_Recorded d st /\ s' = DR_Recorded d st'
    /\ is_active_status st' = false /\ wf_status st'
    /\ (forall t, st' = DRS_Terminal t -> terminal_matches d t = true).

Lemma settles_ok s s' : settles s s' -> wf_replay s ->
  wf_replay s' /\ terminal_ok s' /\ is_active s' = false.
Proof.
  intros (d & st & st' & -> & -> & Ha & Hw & Ht) [Hd _]. split; [done|]. split; [|done].
  unfold terminal_ok. destruct st'; try done. by apply Ht.
Qed.

Lemma replay_attach_cases s v : replay_apply_attach s v = (s, false)
  \/ exists s', replay_apply_attach s v = (s', true) /\ settles s s'.
Proof.
  unfold replay_apply_attach. destruct s as [|d st]; [by left|].
  destruct (_ && _ && _); [right|by left].
  eexists. split; [done|]. by eexists d, st, _.
Qed.
Lemma replay_leave_cases s v : replay_apply_leave s v = (s, false)
  \/ exists s', replay_apply_leave s v = (s', true) /\ settles s s'.
Proof.
  unfold replay_apply_leave. destruct s as [|d st]; [by left|].
  destruct (_ && _ && _); [right|by left].
  eexists. split; [done|]. by eexists d, st, _.
Qed.
Lemma replay_retired_cases s c p g : replay_apply_retired s c p g = (s, false)
  \/ exists s', replay_apply_retired s c p g = (s', true) /\ settles s s'.
Proof.
  unfold replay_apply_retired. destruct s as [|d st]; [by left|].
  destruct (_ && _ && _); [right|by left].
  eexists. split; [done|]. by eexists d, st, _.
Qed.
Lemma replay_committed_cases s v : wf_server_value (SV_DetachCommitted v) ->
  apply_detach_committed s v = (s, false)
  \/ exists s', apply_detach_committed s v = (s', true) /\ settles s s'.
Proof.
  intros. unfold apply_detach_committed. destruct s as [|d st]; [by left|].
  destruct (detach_committed_matches d v) eqn:E; [right|by left].
  eexists. split; [done|]. eexists d, st, _. repeat split; try done. by intros t [= <-].
Qed.
Lemma replay_in_progress_cases s v : wf_server_value (SV_DetachInProgress v) ->
  apply_detach_in_progress s v = (s, false)
  \/ exists s', apply_detach_in_progress s v = (s', true) /\ settles s s'.
Proof.
  intros. unfold apply_detach_in_progress. destruct s as [|d st]; [by left|].
  destruct (detach_in_progress_matches d v) eqn:E; [right|by left].
  eexists. split; [done|]. eexists d, st, _. repeat split; try done. by intros t [= <-].
Qed.
Lemma replay_terminalized_cases s v :
  wf_server_value (SV_StaleAuthority (SA_Detach (DSA_TerminalizedDetachCell v))) ->
  apply_terminalized_detach_cell s v = (s, false)
  \/ exists s', apply_terminalized_detach_cell s v = (s', true) /\ settles s s'.
Proof.
  intros. unfold apply_terminalized_detach_cell. destruct s as [|d st]; [by left|].
  destruct (terminalized_matches d v) eqn:E; [right|by left].
  eexists. split; [done|]. eexists d, st, _. repeat split; try done. by intros t [= <-].
Qed.

(** A public replay outcome that applied clears the slot it settles. *)
Lemma settled_clear a s' x : client_inv a -> cpa_expected a = Some x -> settles (replay_state a) s' ->
  client_inv (set_expected (set_replay a s') None).
Proof.
  intros [Hop Hrc] Ee Hs. split; [|done]. destruct Hop as [? ? ? ? ? Hw ? ? ? ?] eqn:E.
  destruct (settles_ok _ _ Hs Hw) as (? & ? & ?). by eapply operation_clear.
Qed.

Definition outcome_value (o : DetachReplayOutcome) : ServerValue :=
  match o with
  | DRO_DetachCommitted v => SV_DetachCommitted v
  | DRO_DetachInProgress v => SV_DetachInProgress v
  | DRO_TerminalizedDetachCell v => SV_StaleAuthority (SA_Detach (DSA_TerminalizedDetachCell v))
  end.

Section ReplayOutcomes.
Context (a : ClientParticipantAggregate) (c : ClientResponseCorrelation).
Context (Hinv : client_inv a).

Lemma authority_consumed s' : operation_loss_pending a = false ->
  detach_authority_matches a c = true -> settles (replay_state a) s' ->
  client_inv (set_expected (set_replay a s') None)
  /\ consumes a (set_expected (set_replay a s') None) (crc_authorization c).
Proof.
  intros El Em Hs. destruct (detach_authority a c Hinv El Em) as (x & r & Ee & Er & Ei & Hl & Hh & _).
  split; [by eapply settled_clear|]. by exists x; repeat split; auto.
Qed.

Lemma apply_attach_inv v a' : apply_attach a v c = Applied a' tt ->
  client_inv a' /\ consumes a a' (crc_authorization c).
Proof.
  intros H. unfold apply_attach in H. destruct (operation_loss_pending a) eqn:El; [done|].
  destruct (detach_authority_matches a c) eqn:Em; [|done].
  destruct (replay_attach_cases (replay_state a) v) as [E|(s' & E & Hs)]; rewrite E in H; [done|].
  injection H as <-. by eapply authority_consumed.
Qed.
Lemma apply_leave_inv v a' : apply_leave_durable a v c = Applied a' tt ->
  client_inv a' /\ consumes a a' (crc_authorization c).
Proof.
  intros H. unfold apply_leave_durable in H. destruct (operation_loss_pending a) eqn:El; [done|].
  destruct (detach_authority_matches a c) eqn:Em; [|done].
  destruct (replay_leave_cases (replay_state a) v) as [E|(s' & E & Hs)]; rewrite E in H; [done|].
  injection H as <-. by eapply authority_consumed.
Qed.
Lemma apply_outcome_inv o a' : wf_server_value (outcome_value o) ->
  apply_detach_outcome a o c = Applied a' tt ->
  client_inv a' /\ consumes a a' (crc_authorization c).
Proof.
  intros Hw H. unfold apply_detach_outcome in H. destruct (operation_loss_pending a) eqn:El; [done|].
  destruct (detach_authority_matches a c) eqn:Em; [simpl in H|done].
  destruct o as [v|v|v]; simpl in Hw;
    [ destruct (replay_committed_cases (replay_state a) v Hw) as [E|(s' & E & Hs)]
    | destruct (replay_in_progress_cases (replay_state a) v Hw) as [E|(s' & E & Hs)]
    | destruct (replay_terminalized_cases (replay_state a) v Hw) as [E|(s' & E & Hs)] ];
    rewrite E in H; try done; injection H as <-; by eapply authority_consumed.
Qed.
End ReplayOutcomes.

(** Resolving a testified loss: the slot is free again, or the detach is parked. *)
Lemma resolve_inv a a' r t : client_inv a ->
  resolve_lost_operation_authority a = LOD_Recorded a' r t
  \/ resolve_lost_operation_authority a = LOD_DetachParked a' r t ->
  client_inv a' /\ same_counters a a'
  /\ exists x, cpa_expected a = Some x /\ eos_lost x = Some t /\ eos_request x = r
     /\ (cpa_expected a' = None
         \/ cpa_expected a' = Some (mkExpected r false (eos_authorization x) None)).
Proof.
  intros [Hop Hrc] H. unfold resolve_lost_operation_authority in H.
  destruct (cpa_expected a) as [x|] eqn:Ee; [|by destruct H].
  destruct (eos_lost x) as [t'|] eqn:El; [|by destruct H].
  destruct (is_detach (eos_request x)) eqn:Ed; destruct H as [H|H]; simplify_eq.
  - split; [|split; [done|exists x; repeat split; auto]]. split; [|done].
    pose proof (operation_reissue _ _ _ _ _ false Hop) as Hnew. by rewrite Ed in Hnew.
  - split; [|split; [done|exists x; repeat split; auto]]. split; [|done].
    pose proof Hop as [? ? ? ? ? ? Hc ? ? ?]. eapply operation_clear; try done. by eapply coupled_other.
Qed.

(** ** Inbound values *)

Definition same_rest (a a' : ClientParticipantAggregate) : Prop :=
  cpa_expected a' = cpa_expected a /\ same_counters a a'
  /\ cpa_restored_abandonment a' = cpa_restored_abandonment a.

(** Whatever a correlated value does is a new binding and a settled replay. *)
Record value_effect (a a' : ClientParticipantAggregate) : Prop := {
  ve_rest : same_rest a a';
  ve_binding : wf_binding (cpa_binding a');
  ve_epoch : bound_epoch (cpa_binding a');
  ve_replay : replay_state a' = replay_state a \/ settles (replay_state a) (replay_state a');
}.

Lemma value_effect_same a : wf_binding (cpa_binding a) -> bound_epoch (cpa_binding a) ->
  value_effect a a.
Proof. intros. constructor; try done. by left. Qed.

Lemma value_effect_write a b s res : wf_binding b -> bound_epoch b ->
  (res = (replay_state a, false) \/ exists s', res = (s', true) /\ settles (replay_state a) s') ->
  s = res.1 -> value_effect a (set_replay (set_binding a b) s).
Proof.
  intros ? ? [->|(s' & -> & ?)] ->; constructor; try done; [by left|by right].
Qed.

Lemma reference_wf r : wf_participant_reference r ->
  u64 (participant_reference_identity r).1 /\ u64 (participant_reference_identity r).2.
Proof.
  destruct r; simpl; unfold wf_attach, wf_detach, wf_participant_ack, wf_leave, wf_marker_ack,
    wf_record_admission; tauto.
Qed.

Lemma apply_value_effect a v : wf_binding (cpa_binding a) -> bound_epoch (cpa_binding a) ->
  wf_server_value v -> value_effect a (apply_correlated_value a v).
Proof.
  intros Hb He Hv.
  assert (forall x, wf_enroll_bound x -> value_effect a (apply_enroll_bound a x)) as Henroll.
  { intros x (? & ? & ? & ? & [? ?] & ? & _). constructor; try done. by left. }
  assert (forall x, wf_attach_bound x -> wf_binding (CB_Detached (ab_conversation_id x)
    (ab_participant_id x) (ab_capability_generation x) (ab_attach_secret x))
    /\ wf_binding (CB_Bound (ab_conversation_id x) (ab_participant_id x) (ab_capability_generation x)
      (ab_attach_secret x) (ab_origin_binding_epoch x))) as Hattach.
  { intros x (? & ? & ? & ? & ? & [? ?] & _). done. }
  destruct v; simpl; try by apply value_effect_same.
  - destruct v as [|[]|]; try by apply value_effect_same.
    by eapply (value_effect_write a (cpa_binding a)); [..|apply replay_terminalized_cases|].
  - destruct v as [r p g|r g]; unfold apply_retired.
    + destruct Hv as ([Hc _] & Hp & Hg).
      eapply value_effect_write; [..|apply replay_retired_cases|]; done.
    + destruct Hv as (Hr%reference_wf & Hg). destruct (participant_reference_identity r) as [c p].
      destruct Hr as [? ?]. eapply value_effect_write; [..|apply replay_retired_cases|]; done.
  - by apply Henroll.
  - destruct (Hattach v Hv).
    eapply value_effect_write; [..|apply replay_attach_cases|]; done.
  - destruct v as [v|v]; [by apply Henroll|]. destruct (Hattach v Hv).
    eapply value_effect_write; [..|apply replay_attach_cases|]; done.
  - destruct v as [v|v]; [by apply value_effect_same|]. destruct (Hattach v Hv).
    eapply value_effect_write; [..|apply replay_attach_cases|]; done.
  - pose proof Hv as Hv'. destruct v as [c p t [i g] q]. destruct Hv' as (? & ? & ? & [? ?] & ?).
    destruct (cpa_binding a) eqn:E; try (apply value_effect_same; by rewrite E).
    all: simpl in Hb; destruct_and!.
    all: eapply value_effect_write; [..|by apply replay_committed_cases|]; done.
  - by eapply (value_effect_write a (cpa_binding a)); [..|apply replay_in_progress_cases|].
  - destruct v as [c t p g be ps l]. destruct Hv as (? & ? & ? & ? & _).
    eapply value_effect_write; [..|apply replay_leave_cases|]; done.
Qed.

(** The request an envelope names. *)
Definition envelope_request (d : DetachEnvelope) : DetachRequest :=
  mkDetachRequest (de_conversation_id d) (de_participant_id d) (de_capability_generation d)
    (de_detach_attempt_token d).
Lemma envelope_request_eq r : envelope_request (detach_envelope r) = r.
Proof. by destruct r. Qed.

(** The three answers of a detach settle its replay when they are applied. *)
Lemma answer_settles a v r st : is_answer v = true -> matches_request v (CR_Detach r) = true ->
  accepts_request (cpa_binding a) (CR_Detach r) = true ->
  replay_state a = DR_Recorded (detach_envelope r) st ->
  is_active (replay_state (apply_correlated_value a v)) = false.
Proof.
  intros Ha Hm Hb Hs. unfold matches_request in Hm.
  assert (response_key v 0 = from_request (CR_Detach r) 0) as Hk 
    by (destruct v; try done; cbn [settlement_matches_request] in Hm; by dreflect).
  destruct v; try done; simpl in Hk; simpl.
  - destruct v as [|[]|]; try done. injection Hk as E1 E2 E3 E4. simpl in *.
    unfold replay_state in *. simpl. rewrite Hs. unfold apply_terminalized_detach_cell,
      terminalized_matches, token_eqb; simpl.
    by rewrite E1, E2, E3, E4, !Z.eqb_refl, bool_decide_eq_true_2.
  - injection Hk as E1 E2 E3 E4. simpl in *.
    destruct (cpa_binding a); try done. unfold replay_state in *. simpl. rewrite Hs.
    unfold apply_detach_committed, detach_committed_matches, token_eqb; simpl.
    by rewrite E1, E2, E3, E4, !Z.eqb_refl, bool_decide_eq_true_2.
  - injection Hk as E1 E2 E3 E4. simpl in *. unfold replay_state in *. simpl. rewrite Hs.
    unfold apply_detach_in_progress, detach_in_progress_matches, token_eqb; simpl.
    by rewrite E1, E2, E3, E4, !Z.eqb_refl, bool_decide_eq_true_2.
Qed.

Lemma settle_refused_active d st v : is_active_status st = true ->
  settle_refused_authority (DR_Recorded d st) d v
  = (DR_Recorded d (DRS_Terminal (DRT_AuthorityRefused (mkAuthorityRefused v))), true).
Proof.
  intros Ha. unfold settle_refused_authority, token_eqb. rewrite Ha, !Z.eqb_refl.
  by rewrite bool_decide_eq_true_2.
Qed.
Lemma settle_refused_inactive s d v : is_active s = false -> settle_refused_authority s d v = (s, false).
Proof. destruct s as [|d' st]; [done|]. simpl. by intros ->. Qed.

(** The two assertions of [retire_expected_operation] and the invariant. *)
Lemma retire_inv a v x : client_inv a -> wf_server_value v -> cpa_expected a = Some x ->
  accepts_request (cpa_binding a) (eos_request x) = true ->
  matches_request v (eos_request x) = true ->
  client_inv (retire_expected_operation a v)
  /\ cpa_expected (retire_expected_operation a v) = None
  /\ same_counters a (retire_expected_operation a v).
Proof.
  intros [Hop Hrc] Hv Ee Hacc Hm. pose proof Hop as [Hb He ? ? ? Hw Hc Ht ? ?].
  unfold retire_expected_operation. rewrite Ee. simpl. set (a0 := set_expected a None).
  pose proof (apply_value_effect a0 v Hb He Hv) as [(E1 & (E2 & E3) & E4) Hb' He' Hs].
  set (a1 := apply_correlated_value a0 v) in *.
  change (cpa_expected a0) with (@None ExpectedOperationState) in E1.
  change (cpa_next_operation_authorization a0) with (cpa_next_operation_authorization a) in E2.
  change (cpa_reconnect a0) with (cpa_reconnect a) in E3.
  change (cpa_restored_abandonment a0) with (cpa_restored_abandonment a) in E4.
  change (replay_state a0) with (replay_state a) in Hs. rewrite Ee in Hop, Hc.
  assert (forall s', wf_replay s' -> terminal_ok s' -> is_active s' = false ->
    client_inv (set_replay a1 s')) as Hdone.
  { intros s' ? ? ?. unfold client_inv, set_replay, replay_state; simpl. rewrite E1, E2, E3, E4.
    split; [|done]. by eapply operation_clear. }
  assert (wf_replay (replay_state a1) /\ terminal_ok (replay_state a1)) as [Hw1 Ht1].
  { destruct Hs as [->|Hs]; [done|]. by destruct (settles_ok _ _ Hs Hw) as (? & ? & _). }
  destruct (is_active (replay_state a1)) eqn:Ha1.
  - destruct Hs as [Hs|Hs]; [|by destruct (settles_ok _ _ Hs Hw) as (_ & _ & ?); congruence].
    rewrite Hs in Ha1. destruct (is_detach (eos_request x)) eqn:Ed;
      [|by rewrite (coupled_other _ _ Hc Ed) in Ha1].
    destruct (coupled_detach _ _ Hc Ed) as (r & Er & Es). rewrite Er in *.
    change (match CR_Detach r with CR_Detach q => Some q | _ => None end) with (Some r). cbv iota.
    rewrite Hs, Es, settle_refused_active by (by destruct (eos_issued x)).
    simpl fst. split; [|done]. apply Hdone; [|simpl|done].
    + rewrite Es in Hw. destruct Hw as [? _]. split; [done|]. split; [done|].
      destruct (is_answer v) eqn:Ean; [|done].
      pose proof (answer_settles a0 v r _ Ean Hm Hacc Es) as Hn. unfold a1 in Hs. congruence.
    + change (mkDetachRequest _ _ _ _) with (envelope_request (detach_envelope r)).
      by rewrite envelope_request_eq.
  - assert (match match eos_request x with CR_Detach r => Some r | _ => None end with
      | Some r => set_replay a1 (settle_refused_authority (replay_state a1) (detach_envelope r) v).1
      | None => a1 end = set_replay a1 (replay_state a1)) as ->.
    { destruct (eos_request x); try by rewrite set_replay_same.
      by rewrite settle_refused_inactive. }
    split; [by apply Hdone|done].
Qed.

(** Without its correlation, no value moves the aggregate. *)
Lemma decide_inbound_same a v : decide_inbound a v = CID_Applied a v
  \/ exists r, decide_inbound a v = CID_Refused a v r.
Proof.
  unfold decide_inbound, decide_inbound_inner.
  destruct (is_left _); [eauto|]. destruct (participant_ack_request v).
  { destruct (matches_ack _ _); eauto. }
  destruct (is_transport_rejected v); [eauto|]. destruct (cpa_expected a) as [x|]; [|eauto].
  destruct (is_some (eos_lost x)); eauto.
Qed.

(** A value that answers no request: an acknowledgement or a transport rejection. *)
Definition unaddressed (v : ServerValue) : bool :=
  is_some (participant_ack_request v) || is_transport_rejected v.

Lemma correlated_cases a v c a' v' : decide_correlated_inbound a v c = CCI_Applied a' v' ->
  v' = v /\ is_left (cpa_binding a) = false /\ exists x, cpa_expected a = Some x
  /\ eos_issued x = true /\ crc_authorization c = eos_authorization x
  /\ (unaddressed v = true /\ a' = a
      \/ unaddressed v = false /\ eos_lost x = None
         /\ accepts_request (cpa_binding a) (eos_request x) = true
         /\ matches_request v (eos_request x) = true /\ a' = retire_expected_operation a v).
Proof.
  unfold decide_correlated_inbound, decide_inbound_inner, unaddressed. intros H.
  destruct (cpa_expected a) as [x|]; [|done].
  destruct (eos_issued x) eqn:Ei; [|done]. simpl in H.
  destruct (Z.eqb_spec (eos_authorization x) (crc_authorization c)); [simpl in H|done].
  destruct (is_left (cpa_binding a)); [done|].
  destruct (participant_ack_request v); simpl.
  { destruct (matches_ack _ _); simplify_eq. split; [done|]. split; [done|]. exists x. auto 10. }
  destruct (is_transport_rejected v); simplify_eq.
  { split; [done|]. split; [done|]. exists x. auto 10. }
  destruct (eos_lost x) eqn:El; [done|]. simpl in H.
  destruct (accepts_request _ _) eqn:Ea; [simpl in H|done].
  destruct (matches_request _ _) eqn:Em; [simpl in H|done]. simplify_eq.
  split; [done|]. split; [done|]. exists x. auto 10.
Qed.

Lemma correlated_inv a v c a' v' : client_inv a -> wf_server_value v ->
  decide_correlated_inbound a v c = CCI_Applied a' v' ->
  client_inv a' /\ (a' = a \/ consumes a a' (crc_authorization c)).
Proof.
  intros Hinv Hv (_ & _ & x & Ee & Ei & Hc & [[_ ->]|(_ & Hl & Hacc & Hm & ->)])%correlated_cases;
    [auto|].
  destruct (retire_inv a v x Hinv Hv Ee Hacc Hm) as (? & ? & ?).
  split; [done|]. right. exists x; auto 10.
Qed.

(** ** Reconnect *)

Section Reconnect.
Context (a a' : ClientParticipantAggregate).

(** Only the reconnect machine differs. *)
Definition only_reconnect (r : ReconnectAggregate) : Prop := a' = set_reconnect a r.

Lemma reconnect_write r : client_inv a -> reconnect_inv r -> client_inv (set_reconnect a r).
Proof. intros [Hop _] Hr. by split. Qed.
End Reconnect.

Lemma parked_not_lost r : reconnect_inv r -> reconnect_kind (rca_state r) = None -> rca_lost r = None.
Proof.
  intros (_ & _ & Hl) Hk. destruct (rca_lost r) as [t|]; [|done]. specialize (Hl t eq_refl). congruence.
Qed.

Lemma fresh_event_inv a e a' p res : client_inv a -> record_fresh_event a e = RPD_Permitted a' p res ->
  client_inv a' /\ reconnect_kind (rca_state (cpa_reconnect a)) = None
  /\ p = mkPermit (rca_next_authorization (cpa_reconnect a) + 1) e
  /\ a' = set_reconnect a (mkReconnect (RM_Permit (rap_authorization p) e true)
                             (rap_authorization p) None).
Proof.
  intros Hinv H. pose proof (proj2 Hinv) as Hr. unfold record_fresh_event, checked_add in H.
  assert (reconnect_kind (rca_state (cpa_reconnect a)) = None) as Hk
    by (by destruct (rca_state (cpa_reconnect a))).
  destruct (Z.leb_spec (rca_next_authorization (cpa_reconnect a) + 1) u64_max);
    [|by destruct (rca_state (cpa_reconnect a))].
  rewrite (parked_not_lost _ Hr Hk) in H.
  assert (RPD_Permitted
    (set_reconnect a (mkReconnect (RM_Permit (rca_next_authorization (cpa_reconnect a) + 1) e true)
       (rca_next_authorization (cpa_reconnect a) + 1) None))
    (mkPermit (rca_next_authorization (cpa_reconnect a) + 1) e) (RDR_ReconnectArmed (required_event e))
    = RPD_Permitted a' p res) as H' by (by destruct (rca_state (cpa_reconnect a))).
  injection H' as <- <- <-. split; [|done]. apply reconnect_write; [done|].
  destruct Hr as (Hn & _ & _). split; [simpl; mlia|]. split; [simpl; mlia|done].
Qed.

Lemma recover_permit_inv a a' p : client_inv a -> recover_reconnect_permit a = RRP_Recovered a' p ->
  client_inv a' /\ rca_state (cpa_reconnect a) = RM_Permit (rap_authorization p) (rap_event p) false
  /\ a' = set_reconnect a (mkReconnect (RM_Permit (rap_authorization p) (rap_event p) true)
                             (rca_next_authorization (cpa_reconnect a)) None).
Proof.
  intros Hinv H. pose proof (proj2 Hinv) as Hr. unfold recover_reconnect_permit, set_reconnect_state in H.
  destruct (rca_state (cpa_reconnect a)) as [|k e []| |] eqn:Es; simplify_eq.
  rewrite (parked_not_lost _ Hr) by (by rewrite Es). split; [|done]. apply reconnect_write; [done|].
  destruct Hr as (? & Hm & ?). rewrite Es in Hm. done.
Qed.

Lemma resolve_reconnect_inv a a' t : client_inv a ->
  resolve_lost_reconnect_authority a = LRD_Recorded a' t ->
  client_inv a' /\ a' = set_reconnect a (mkReconnect RM_Parked
                          (rca_next_authorization (cpa_reconnect a)) None).
Proof.
  intros Hinv H. unfold resolve_lost_reconnect_authority in H.
  destruct (rca_lost (cpa_reconnect a)); simplify_eq. split; [|done]. apply reconnect_write; [done|].
  by destruct (proj2 Hinv) as (? & _ & _).
Qed.

Lemma redeem_inv a p a' t : client_inv a -> redeem_attempt a p = Applied a' t ->
  client_inv a' /\ t = mkAttempt (rap_authorization p) (rap_event p)
  /\ rca_lost (cpa_reconnect a) = None
  /\ (exists issued, rca_state (cpa_reconnect a) = RM_Permit (rap_authorization p) (rap_event p) issued)
  /\ a' = set_reconnect a (mkReconnect (RM_Attempt (rap_authorization p) (rap_event p))
                             (rca_next_authorization (cpa_reconnect a)) None).
Proof.
  intros Hinv H. pose proof (proj2 Hinv) as (Hn & Hm & _).
  unfold redeem_attempt, set_reconnect_state in H.
  destruct (rca_lost (cpa_reconnect a)) eqn:El; [done|]. simpl in H.
  destruct (rca_state (cpa_reconnect a)) as [|k e i| |] eqn:Es; try done.
  destruct (_ && _) eqn:E; [|done]. dreflect. subst. simplify_eq. split; [|eauto 10].
  by apply reconnect_write.
Qed.

Lemma attempt_fate_inv a t f a' : client_inv a -> record_attempt_fate a t f = Applied a' tt ->
  client_inv a' /\ rca_lost (cpa_reconnect a) = None
  /\ rca_state (cpa_reconnect a) = RM_Attempt (ria_authorization t) (ria_event t)
  /\ a' = set_reconnect a (mkReconnect match f with RAF_Connected => RM_Online | RAF_Failed => RM_Parked end
                             (rca_next_authorization (cpa_reconnect a)) None).
Proof.
  intros Hinv H. pose proof (proj2 Hinv) as (Hn & Hm & _).
  unfold record_attempt_fate, set_reconnect_state in H.
  destruct (rca_lost (cpa_reconnect a)) eqn:El; [done|]. simpl in H.
  destruct (rca_state (cpa_reconnect a)) as [| |k e|] eqn:Es; try done.
  destruct (_ && _) eqn:E; [|done]. dreflect. subst. simplify_eq. split; [|done].
  apply reconnect_write; [done|]. by destruct f.
Qed.

(** ** Restart *)

Lemma new_inv : client_inv ClientParticipantAggregate_new.
Proof. repeat split; try done; mlia. Qed.

Lemma take_abandonment_inv a a' o : client_inv a -> take_restored_operation_abandonment a = (a', o) ->
  client_inv a' /\ cpa_expected a' = cpa_expected a /\ same_counters a a'.
Proof.
  intros [[] Hrc] [= <- <-]. split; [|done]. split; [|done]. constructor; try done.
Qed.

(** What the process restarts with after [a] was persisted. *)
Definition restarted (a : ClientParticipantAggregate) : ClientParticipantAggregate :=
  restore_validated_facts (facts_of a).

Lemma restarted_inv a : client_inv a -> client_inv (restarted a).
Proof.
  intros [[Hb He Hn Hr Hs Hw Hc Ht Hab Ha] (Hrn & Hrm & Hrl)].
  unfold restarted, restore_validated_facts; simpl.
  assert (reconnect_inv (mkReconnect (rca_state (cpa_reconnect a))
    (rca_next_authorization (cpa_reconnect a))
    match rca_lost (cpa_reconnect a) with
    | Some t => Some t
    | None => option_map mkTestimony (reconnect_kind (rca_state (cpa_reconnect a)))
    end)) as Hrec.
  { split; [done|]. split; [done|]. simpl. intros t. destruct (rca_lost (cpa_reconnect a)); [by apply Hrl|].
    destruct (reconnect_kind _); [|done]. by intros [= <-]. }
  destruct (cpa_expected a) as [x|] eqn:Ee; [|split; [|done]; by constructor].
  destruct (is_observer_recovery (eos_request x)) eqn:Eo; (split; [|done]); constructor; try done; simpl.
  - apply coupled_settled, (coupled_other x); [done|]. by destruct (eos_request x).
  - destruct Hr. done.
  - unfold testify_operation. by destruct (_ && _).
  - unfold testify_operation, slot_ok. destruct Hs as (? & ? & ? & Hl).
    destruct (eos_issued x) eqn:Ei; simpl; [|done]. by destruct (eos_lost x) eqn:El; simpl.
  - unfold testify_operation. destruct (_ && _) eqn:E; [|done].
    unfold coupled, replay_state in *; simpl in *.
    destruct (sdr_state (cpa_detach_replay a)) as [|d st]; [intros y [= <-]; by apply (Hc x)|].
    destruct (is_active_status st); [|intros y [= <-]; by apply (Hc x)].
    destruct Hc as (y & r & [= <-] & ? & ? & ?). eexists _, r. split; [done|]. done.
  - intros Hs' y. unfold testify_operation. destruct (_ && _); intros [= <-]; done.
Qed.

(** ** Persistence *)

Lemma client_wf a : client_inv a -> wf_facts (facts_of a).
Proof.
  intros [[] (Hn & Hm & _)]. unfold wf_facts, wf_reconnect; simpl. repeat split; try done.
  all: destruct (rca_state (cpa_reconnect a)); simpl in *; mlia || done.
Qed.
Lemma of_facts_of a : of_facts (facts_of a) = a.
Proof. by destruct a as [? ? ? [] [] ?]. Qed.
Lemma facts_of_facts f : facts_of (of_facts f) = f.
Proof. by destruct f. Qed.

Lemma coupling_live a : client_inv a ->
  validate_live_replay_coupling (cpa_expected a) (replay_state a) = Ok tt.
Proof.
  intros [[? ? ? ? ? ? Hc ? ? ?] _]. unfold validate_live_replay_coupling, expected_detach.
  destruct (cpa_expected a) as [x|].
  - destruct (is_detach (eos_request x)) eqn:Ed.
    + destruct (coupled_detach _ _ Hc Ed) as (r & -> & ->).
      assert (active_replay (DR_Recorded (detach_envelope r) (if eos_issued x then DRS_InFlight else DRS_Parked))
        = Some (detach_envelope r)) as -> by (by destruct (eos_issued x)).
      by rewrite (proj2 (names_detach_iff r _)).
    + pose proof (coupled_other _ _ Hc Ed) as Ha. destruct (eos_request x); try done;
      by destruct (replay_state a) as [|d []].
  - apply coupled_none in Hc. by destruct (replay_state a) as [|d []].
Qed.

Lemma resume_record_spec a : client_inv a ->
  if frames_fit (facts_of a) then resume_record a = Ok (mkResumeRecord (enc_record (facts_of a)))
  else exists section e, resume_record a = Err (REE_NestedCodec section e).
Proof.
  intros Hinv. unfold resume_record. rewrite coupling_live by done.
  pose proof (encode_aggregate_spec a (client_wf a Hinv)) as H.
  destruct (frames_fit _); [by rewrite H|]. destruct H as (s & e & ->). eauto.
Qed.

Lemma restore_record a : client_inv a -> frames_fit (facts_of a) = true ->
  restore (mkResumeRecord (enc_record (facts_of a))) = Ok (restarted a).
Proof.
  intros Hinv Hf. unfold restore; simpl. rewrite decode_enc_record by (done || by apply client_wf).
  simpl. rewrite (proj2 (validate_facts_iff _ (client_wf a Hinv))); [done|]. by rewrite of_facts_of.
Qed.

Lemma resume_restore a r : client_inv a -> resume_record a = Ok r -> restore r = Ok (restarted a).
Proof.
  intros Hinv H. pose proof (resume_record_spec a Hinv) as Hs.
  destruct (frames_fit _) eqn:Hf; [|by destruct Hs as (? & ? & ?); congruence].
  rewrite H in Hs. simplify_eq. by apply restore_record.
Qed.
