(* ===== verification/ClientRuns.v ===== *)
(** * Runs of the client

    The client as a process: the live aggregate, the last record written to storage,
    and the one-use values the caller holds (operation authorities, reconnect permits
    and reconnect attempts), with one rule per operation of the public interface.  A
    rule that consumes a value removes it from the caller; a restart drops them all.
    The theorems are about every reachable world. *)
From coqutil Require Import Byte.
From S2P Require Import Prelude ClientInv Algebra Tags Wire Response Bytes FrameCodec Member.
From S2P Require Import Lookup Client Correlation Inbound Resume ResumeCodec.

Record World := mkWorld {
  w_client : ClientParticipantAggregate;
  w_disk : option ClientResumeRecord;
  w_handles : list Z;
  w_permits : list ReconnectAttemptPermit;
  w_attempts : list ReconnectInProgressAttempt;
}.
Definition start : World := mkWorld ClientParticipantAggregate_new None [] [] [].

(** Steps inside one process. *)
Inductive live : World -> World -> Prop :=
| live_record a r p a' op d hs ps ts :
    wf_request r -> record_operation a r = CRD_Pending p ->
    commit_into_parts (operation_commit p) = (a', op) ->
    live (mkWorld a d hs ps ts) (mkWorld a' d (epo_authorization op :: hs) ps ts)
| live_record_durable a r p rec a' op d hs ps ts :
    wf_request r -> record_operation a r = CRD_Pending p ->
    commit_resume_record (operation_commit p) = Ok rec ->
    commit_into_parts (operation_commit p) = (a', op) ->
    live (mkWorld a d hs ps ts) (mkWorld a' (Some rec) (epo_authorization op :: hs) ps ts)
| live_abort a r p a' r' d hs ps ts :
    wf_request r -> record_operation a r = CRD_Pending p -> operation_abort p = (a', r') ->
    live (mkWorld a d hs ps ts) (mkWorld a' d hs ps ts)
| live_continuous a r a' op d hs ps ts :
    wf_request r -> record_operation a r = CRD_Continuous a' op ->
    live (mkWorld a d hs ps ts) (mkWorld a' d (epo_authorization op :: hs) ps ts)
| live_recover a a' op d hs ps ts :
    recover_expected_operation a = REO_Recovered a' op ->
    live (mkWorld a d hs ps ts) (mkWorld a' d (epo_authorization op :: hs) ps ts)
| live_attempt_started a a' t d hs ps ts :
    transport_attempt_started a = Applied a' t ->
    live (mkWorld a d hs ps ts) (mkWorld a' d (dta_authorization t :: hs) ps ts)
| live_resolve a a' r t d hs ps ts :
    resolve_lost_operation_authority a = LOD_Recorded a' r t
    \/ resolve_lost_operation_authority a = LOD_DetachParked a' r t ->
    live (mkWorld a d hs ps ts) (mkWorld a' d hs ps ts)
| live_fate a h f a' out d hs1 hs2 ps ts :
    record_expected_operation_fate a (mkCorrelation h) f = Applied a' out ->
    live (mkWorld a d (hs1 ++ h :: hs2) ps ts) (mkWorld a' d (hs1 ++ hs2) ps ts)
| live_transport_fate a h f a' d hs1 hs2 ps ts :
    transport_fate a (mkCorrelation h) f = Applied a' tt ->
    live (mkWorld a d (hs1 ++ h :: hs2) ps ts) (mkWorld a' d (hs1 ++ hs2) ps ts)
| live_attach a h v a' d hs1 hs2 ps ts :
    apply_attach a v (mkCorrelation h) = Applied a' tt ->
    live (mkWorld a d (hs1 ++ h :: hs2) ps ts) (mkWorld a' d (hs1 ++ hs2) ps ts)
| live_leave a h v a' d hs1 hs2 ps ts :
    apply_leave_durable a v (mkCorrelation h) = Applied a' tt ->
    live (mkWorld a d (hs1 ++ h :: hs2) ps ts) (mkWorld a' d (hs1 ++ hs2) ps ts)
| live_outcome a h o a' d hs1 hs2 ps ts :
    wf_server_value (outcome_value o) ->
    apply_detach_outcome a o (mkCorrelation h) = Applied a' tt ->
    live (mkWorld a d (hs1 ++ h :: hs2) ps ts) (mkWorld a' d (hs1 ++ hs2) ps ts)
| live_inbound a v a' v' d hs ps ts :
    wf_server_value v -> decide_inbound a v = CID_Applied a' v' ->
    live (mkWorld a d hs ps ts) (mkWorld a' d hs ps ts)
| live_correlated a h v a' v' d hs1 hs2 ps ts :
    wf_server_value v -> decide_correlated_inbound a v (mkCorrelation h) = CCI_Applied a' v' ->
    live (mkWorld a d (hs1 ++ h :: hs2) ps ts) (mkWorld a' d (hs1 ++ hs2) ps ts)
| live_take_abandonment a a' o d hs ps ts :
    take_restored_operation_abandonment a = (a', o) ->
    live (mkWorld a d hs ps ts) (mkWorld a' d hs ps ts)
| live_persist a rec d hs ps ts :
    resume_record a = Ok rec -> live (mkWorld a d hs ps ts) (mkWorld a (Some rec) hs ps ts)
| live_fresh_event a e a' p res d hs ps ts :
    record_fresh_event a e = RPD_Permitted a' p res ->
    live (mkWorld a d hs ps ts) (mkWorld a' d hs (p :: ps) ts)
| live_recover_permit a a' p d hs ps ts :
    recover_reconnect_permit a = RRP_Recovered a' p ->
    live (mkWorld a d hs ps ts) (mkWorld a' d hs (p :: ps) ts)
| live_resolve_reconnect a a' t d hs ps ts :
    resolve_lost_reconnect_authority a = LRD_Recorded a' t ->
    live (mkWorld a d hs ps ts) (mkWorld a' d hs ps ts)
| live_redeem a p a' t d hs ps1 ps2 ts :
    redeem_attempt a p = Applied a' t ->
    live (mkWorld a d hs (ps1 ++ p :: ps2) ts) (mkWorld a' d hs (ps1 ++ ps2) (t :: ts))
| live_attempt_fate a t f a' d hs ps ts1 ts2 :
    record_attempt_fate a t f = Applied a' tt ->
    live (mkWorld a d hs ps (ts1 ++ t :: ts2)) (mkWorld a' d hs ps (ts1 ++ ts2))
| live_drop a d hs1 h hs2 ps ts :
    live (mkWorld a d (hs1 ++ h :: hs2) ps ts) (mkWorld a d (hs1 ++ hs2) ps ts).

(** The process ends and another one starts from storage; a commit may have been
    persisted and its operation never released. *)
Inductive step : World -> World -> Prop :=
| step_live w w' : live w w' -> step w w'
| step_restart w rec a : w_disk w = Some rec -> restore rec = Ok a ->
    step w (mkWorld a (Some rec) [] [] [])
| step_restart_fresh w : w_disk w = None -> step w start
| step_commit_lost a r p rec a' d hs ps ts :
    wf_request r -> record_operation a r = CRD_Pending p ->
    commit_resume_record (operation_commit p) = Ok rec -> restore rec = Ok a' ->
    step (mkWorld a d hs ps ts) (mkWorld a' (Some rec) [] [] []).

Definition reachable : World -> Prop := rtc step start.

(** ** Counting authorities *)

Abbreviation occurrences n l := (count_occ Z.eq_dec l n).

(** How many values may carry the authorization of an operation. *)
Definition live_slot (x : ExpectedOperationState) : nat :=
  if eos_issued x && negb (is_some (eos_lost x)) then 1%nat else 0%nat.

Definition authority (a : ClientParticipantAggregate) (hs : list Z) : Prop :=
  Forall (fun h => 0 <= h <= cpa_next_operation_authorization a) hs
  /\ forall x, cpa_expected a = Some x -> (occurrences (eos_authorization x) hs <= live_slot x)%nat.

Definition permits_ok (r : ReconnectAggregate) (ps ts : list Z) : Prop :=
  Forall (fun k => k <= rca_next_authorization r) ps
  /\ Forall (fun k => k <= rca_next_authorization r) ts
  /\ match rca_state r with
     | RM_Permit k _ issued =>
         (occurrences k ps <= if issued && negb (is_some (rca_lost r)) then 1 else 0)%nat
         /\ occurrences k ts = 0%nat
     | RM_Attempt k _ =>
         occurrences k ps = 0%nat
         /\ (occurrences k ts <= if negb (is_some (rca_lost r)) then 1 else 0)%nat
     | RM_Parked | RM_Online => True
     end.

Record world_inv (w : World) : Prop := {
  wi_client : client_inv (w_client w);
  wi_disk : forall rec, w_disk w = Some rec -> exists a, client_inv a /\ resume_record a = Ok rec;
  wi_authority : authority (w_client w) (w_handles w);
  wi_permits : permits_ok (cpa_reconnect (w_client w)) (map rap_authorization (w_permits w))
                 (map ria_authorization (w_attempts w));
}.

Lemma occurrences_fresh n l : Forall (fun k => k <= n) l -> occurrences (n + 1) l = 0%nat.
Proof.
  intros H. apply count_occ_not_In. intros Hin%list_elem_of_In.
  rewrite Forall_forall in H. specialize (H _ Hin). simpl in H. lia.
Qed.
Lemma occurrences_remove n k l1 l2 :
  occurrences n (l1 ++ k :: l2) = (occurrences n (l1 ++ l2) + if Z.eq_dec k n then 1 else 0)%nat.
Proof. rewrite !count_occ_app. simpl. destruct (Z.eq_dec k n); lia. Qed.
Lemma Forall_remove {A} (P : A -> Prop) l1 x l2 : Forall P (l1 ++ x :: l2) -> Forall P (l1 ++ l2).
Proof. rewrite !Forall_app, Forall_cons. tauto. Qed.

Lemma authority_issue a a' h hs : client_inv a -> issues a a' h -> authority a hs -> authority a' (h :: hs).
Proof.
  intros Hinv (x & Ee & Ei & El & -> & Ee' & En & _) [Hf Hc]. destruct Hinv as [[? ? ? ? Hs ? ? ? ? ?] _].
  rewrite Ee in Hs. destruct Hs as (_ & Hh & _). unfold authority. rewrite En. split.
  - apply Forall_cons. split; [lia|done].
  - rewrite Ee'. intros y [= <-]. specialize (Hc x Ee). unfold live_slot in *. rewrite Ei in Hc.
    simpl in *. rewrite El. simpl. destruct (Z.eq_dec _ _); [lia|done].
Qed.

Lemma authority_consume a a' h hs1 hs2 : consumes a a' h ->
  authority a (hs1 ++ h :: hs2) -> authority a' (hs1 ++ hs2).
Proof.
  intros (x & Ee & Ei & El & -> & Ee' & En & _) [Hf Hc]. unfold authority. rewrite En.
  split; [by eapply Forall_remove|]. intros y Ey. specialize (Hc x Ee).
  destruct Ee' as [Ee'|Ee']; rewrite Ee' in Ey; [done|]. injection Ey as <-.
  unfold live_slot in *. rewrite Ei, El in Hc. simpl in *. rewrite occurrences_remove in Hc.
  destruct (Z.eq_dec _ _); [lia|done].
Qed.

Lemma authority_drop a h hs1 hs2 : authority a (hs1 ++ h :: hs2) -> authority a (hs1 ++ hs2).
Proof.
  intros [Hf Hc]. split; [by eapply Forall_remove|]. intros x Ex. specialize (Hc x Ex).
  rewrite occurrences_remove in Hc. lia.
Qed.

Lemma authority_same a a' hs : cpa_expected a' = cpa_expected a -> 
  cpa_next_operation_authorization a' = cpa_next_operation_authorization a ->
  authority a hs -> authority a' hs.
Proof. intros E1 E2. unfold authority. by rewrite E1, E2. Qed.

Lemma authority_record a r hs : authority a hs -> 0 <= cpa_next_operation_authorization a ->
  authority (recorded a r true) (cpa_next_operation_authorization a + 1 :: hs).
Proof.
  intros [Hf _] Hn. split; simpl.
  - apply Forall_cons. split; [lia|]. eapply Forall_impl; [done|]. simpl. lia.
  - intros x [= <-]. simpl. destruct (Z.eq_dec _ _); [|done].
    rewrite occurrences_fresh; [done|]. eapply Forall_impl; [done|]. simpl. lia.
Qed.

Lemma authority_continuous a hs : client_inv a -> authority a hs -> authority a (0 :: hs).
Proof.
  intros [[? ? Hn ? Hs ? ? ? ? ?] _] [Hf Hc]. split; [apply Forall_cons; split; [mlia|done]|].
  intros x Ex. rewrite Ex in Hs. destruct Hs as (_ & ? & _).
  rewrite count_occ_cons_neq by lia. by apply Hc.
Qed.

Lemma authority_resolve a a' r t hs : client_inv a ->
  resolve_lost_operation_authority a = LOD_Recorded a' r t
  \/ resolve_lost_operation_authority a = LOD_DetachParked a' r t ->
  authority a hs -> authority a' hs.
Proof.
  intros Hinv H [Hf Hc]. destruct (resolve_inv _ _ _ _ Hinv H) as (_ & [En _] & x & Ee & El & _ & Ee').
  unfold authority. rewrite En. split; [done|]. intros y Ey. specialize (Hc x Ee).
  unfold live_slot in Hc. rewrite El, andb_false_r in Hc.
  destruct Ee' as [Ee'|Ee']; rewrite Ee' in Ey; simplify_eq. done.
Qed.

(** ** The invariant of a world *)

Lemma commit_record_inv a r p rec : client_inv a -> wf_request r ->
  record_operation a r = CRD_Pending p -> commit_resume_record (operation_commit p) = Ok rec ->
  client_inv (recorded a r false) /\ resume_record (recorded a r false) = Ok rec.
Proof.
  intros Hinv Hr Hp Hc. split; [by eapply recorded_inv|].
  apply record_pending_eq in Hp as (_ & _ & _ & _ & _ & ->). done.
Qed.

Lemma restarted_reconnect a : cpa_reconnect (restarted a)
  = mkReconnect (rca_state (cpa_reconnect a)) (rca_next_authorization (cpa_reconnect a))
      match rca_lost (cpa_reconnect a) with
      | Some t => Some t
      | None => option_map mkTestimony (reconnect_kind (rca_state (cpa_reconnect a)))
      end.
Proof.
  unfold restarted, restore_validated_facts; simpl.
  destruct (cpa_expected a) as [x|]; [|done]. by destruct (is_observer_recovery _).
Qed.

Lemma restored_world a rec : client_inv a -> resume_record a = Ok rec ->
  world_inv (mkWorld (restarted a) (Some rec) [] [] []).
Proof.
  intros Hinv Hr. constructor; simpl.
  - by apply restarted_inv.
  - intros ? [= <-]. eauto.
  - split; [constructor|]. intros x _. simpl. lia.
  - split; [constructor|]. split; [constructor|].
    rewrite restarted_reconnect; simpl. by destruct (rca_state (cpa_reconnect a)); simpl; split; try lia.
Qed.

Lemma start_inv : world_inv start.
Proof.
  constructor; simpl; [apply new_inv|done| |]; [split; [constructor|done]|].
  by split; [constructor|split; [constructor|]].
Qed.

Section LiveSteps.
Context (a : ClientParticipantAggregate) (d : option ClientResumeRecord) (hs : list Z)
  (ps : list ReconnectAttemptPermit) (ts : list ReconnectInProgressAttempt).
Context (Hw : world_inv (mkWorld a d hs ps ts)).

(** A step of the operation half. *)
Lemma operation_step a' d' hs' : client_inv a' -> authority a' hs' ->
  cpa_reconnect a' = cpa_reconnect a ->
  (d' = d \/ exists rec x, d' = Some rec /\ client_inv x /\ resume_record x = Ok rec) ->
  world_inv (mkWorld a' d' hs' ps ts).
Proof.
  destruct Hw as [? Hd ? Hp]; simpl in *. intros ? ? Er Hd'. constructor; simpl; try done.
  - intros rec' ->. destruct Hd' as [<-|(rec & x & [= ->] & ? & ?)]; [by apply Hd|eauto].
  - by rewrite Er.
Qed.

Lemma record_step r p a' op d' : wf_request r -> record_operation a r = CRD_Pending p ->
  commit_into_parts (operation_commit p) = (a', op) ->
  d' = d \/ (exists rec, d' = Some rec /\ commit_resume_record (operation_commit p) = Ok rec) ->
  world_inv (mkWorld a' d' (epo_authorization op :: hs) ps ts).
Proof.
  intros Hr Hp Hc Hd. pose proof Hw as [Hinv _ Ha _]; simpl in *.
  rewrite (into_parts_eq _ _ _ Hp) in Hc. injection Hc as <- <-.
  apply operation_step; [by eapply recorded_inv| |done|].
  - apply authority_record; [done|]. destruct Hinv as [[? ? Hn ? ? ? ? ? ? ?] _]. mlia.
  - destruct Hd as [->|(rec & -> & Hc)]; [by left|right].
    destruct (commit_record_inv _ _ _ _ Hinv Hr Hp Hc). eauto.
Qed.

Lemma continuous_step r a' op : record_operation a r = CRD_Continuous a' op ->
  world_inv (mkWorld a' d (epo_authorization op :: hs) ps ts).
Proof.
  intros H. assert (a' = a /\ epo_authorization op = 0) as [-> ->].
  { unfold record_operation in H. destruct (negb _); [by destruct (is_left _)|].
    destruct r; simplify_eq; try done; by csplit_in H. }
  pose proof Hw as []. apply operation_step; [done| |done|by left]. by apply authority_continuous.
Qed.

Lemma issue_step a' h : client_inv a' /\ issues a a' h -> world_inv (mkWorld a' d (h :: hs) ps ts).
Proof.
  intros [? Hi]. pose proof Hw as []. apply operation_step; [done|by apply (authority_issue a)| |by left].
  by destruct Hi as (? & _ & _ & _ & _ & _ & _ & ?).
Qed.

Lemma consume_step a' h hs1 hs2 : hs = hs1 ++ h :: hs2 -> client_inv a' /\ consumes a a' h ->
  world_inv (mkWorld a' d (hs1 ++ hs2) ps ts).
Proof.
  intros E [? Hi]. pose proof Hw as [? ? Ha ?]; simpl in *. rewrite E in Ha.
  apply operation_step; [done|by eapply (authority_consume a)| |by left].
  by destruct Hi as (? & _ & _ & _ & _ & _ & _ & ?).
Qed.

Lemma drop_step h hs1 hs2 : hs = hs1 ++ h :: hs2 -> world_inv (mkWorld a d (hs1 ++ hs2) ps ts).
Proof.
  intros E. pose proof Hw as [? ? Ha ?]; simpl in *. rewrite E in Ha.
  apply operation_step; [done|by eapply authority_drop|done|by left].
Qed.

Lemma resolve_step a' r t : resolve_lost_operation_authority a = LOD_Recorded a' r t
  \/ resolve_lost_operation_authority a = LOD_DetachParked a' r t -> world_inv (mkWorld a' d hs ps ts).
Proof.
  intros H. pose proof Hw as [Hinv _ ? _]. destruct (resolve_inv _ _ _ _ Hinv H) as (? & [? ?] & _).
  apply operation_step; [done|by eapply (authority_resolve a)|done|by left].
Qed.

(** A step of the reconnect machine. *)
Lemma reconnect_step r ps' ts' : client_inv (set_reconnect a r) ->
  permits_ok r (map rap_authorization ps') (map ria_authorization ts') ->
  world_inv (mkWorld (set_reconnect a r) d hs ps' ts').
Proof. destruct Hw; simpl in *. intros. by constructor. Qed.

Lemma Forall_weaken n m l : n <= m -> Forall (fun k => k <= n) l -> Forall (fun k => k <= m) l.
Proof. intros. eapply Forall_impl; [done|]. simpl. lia. Qed.

Lemma fresh_event_step e a' p res : record_fresh_event a e = RPD_Permitted a' p res ->
  world_inv (mkWorld a' d hs (p :: ps) ts).
Proof.
  intros H. pose proof Hw as [Hinv _ _ (Hp & Ht & _)]; simpl in *.
  destruct (fresh_event_inv _ _ _ _ _ Hinv H) as (? & Hk & -> & ->).
  apply reconnect_step; [done|]. split; [|split]; simpl.
  - apply Forall_cons. split; [lia|]. eapply Forall_weaken; [|done]. lia.
  - eapply Forall_weaken; [|done]. lia.
  - rewrite !occurrences_fresh by done. by destruct (Z.eq_dec _ _).
Qed.

Lemma recover_permit_step a' p : recover_reconnect_permit a = RRP_Recovered a' p ->
  world_inv (mkWorld a' d hs (p :: ps) ts).
Proof.
  intros H. pose proof Hw as [Hinv _ _ (Hp & Ht & Hm)]; simpl in *.
  destruct (recover_permit_inv _ _ _ Hinv H) as (Hi & Hs & ->).
  apply reconnect_step; [done|]. destruct Hi as [_ (_ & Hk & _)]. simpl in Hk.
  rewrite Hs in Hm. simpl in Hm. destruct Hm as [? ?]. split; [|split]; simpl; try done.
  - apply Forall_cons. split; [lia|done].
  - destruct (Z.eq_dec _ _); [|done]. split; [lia|done].
Qed.

Lemma redeem_step p a' t ps1 ps2 : ps = ps1 ++ p :: ps2 -> redeem_attempt a p = Applied a' t ->
  world_inv (mkWorld a' d hs (ps1 ++ ps2) (t :: ts)).
Proof.
  intros E H. pose proof Hw as [Hinv _ _ (Hp & Ht & Hm)]; simpl in *. rewrite E in Hp, Hm.
  destruct (redeem_inv _ _ _ _ Hinv H) as (Hi & -> & Hl & (i & Hs) & ->).
  apply reconnect_step; [done|]. destruct Hi as [_ (_ & Hk & _)]. simpl in Hk.
  rewrite Hs, Hl in Hm. rewrite map_app in *. simpl in *. destruct Hm as [Hm1 Hm2].
  rewrite occurrences_remove in Hm1. destruct (Z.eq_dec _ _); [|done].
  split; [by eapply Forall_remove|]. split; simpl.
  - apply Forall_cons. split; [lia|done].
  - rewrite Hm2. destruct (Z.eq_dec _ _), i; simpl in *; lia.
Qed.

Lemma attempt_fate_step t f a' ts1 ts2 : ts = ts1 ++ t :: ts2 ->
  record_attempt_fate a t f = Applied a' tt -> world_inv (mkWorld a' d hs ps (ts1 ++ ts2)).
Proof.
  intros E H. pose proof Hw as [Hinv _ _ (Hp & Ht & _)]; simpl in *. rewrite E in Ht.
  destruct (attempt_fate_inv _ _ _ _ Hinv H) as (? & _ & _ & ->).
  apply reconnect_step; [done|]. rewrite map_app in *. simpl in *.
  split; [done|]. split; [by eapply Forall_remove|]. by destruct f.
Qed.
End LiveSteps.

Lemma live_inv w w' : world_inv w -> live w w' -> world_inv w'.
Proof.
  intros Hw Hl. destruct Hl; pose proof (wi_client _ Hw) as Hinv; simpl in *.
  - by eapply record_step; [..|left].
  - by eapply record_step; [..|right; eauto].
  - rewrite (abort_exact a r p) in H1; [by simplify_eq| |done].
    destruct Hinv as [[? ? Hn ? ? ? ? ? ? ?] _]. mlia.
  - by eapply continuous_step.
  - by eapply issue_step, recover_inv.
  - by eapply issue_step, attempt_started_inv.
  - by eapply resolve_step.
  - by eapply consume_step, (fate_inv _ (mkCorrelation h)).
  - by eapply consume_step, (transport_fate_inv _ (mkCorrelation h)).
  - by eapply consume_step, (apply_attach_inv _ (mkCorrelation h)).
  - by eapply consume_step, (apply_leave_inv _ (mkCorrelation h)).
  - by eapply consume_step, (apply_outcome_inv _ (mkCorrelation h)).
  - destruct (decide_inbound_same a v) as [E|(r & E)]; rewrite E in H0; by simplify_eq.
  - destruct (correlated_inv _ _ _ _ _ Hinv H H0) as [? [->|Hi]];
      [by eapply drop_step|by eapply consume_step].
  - destruct (take_abandonment_inv _ _ _ Hinv H) as (? & ? & [? ?]).
    eapply operation_step; [done..| |done|by left]. apply (authority_same a); try done. apply Hw.
  - eapply operation_step; [done..|apply Hw|done|right; eauto].
  - by eapply fresh_event_step.
  - by eapply recover_permit_step.
  - destruct (resolve_reconnect_inv _ _ _ Hinv H) as (? & ->).
    eapply reconnect_step; [done..|]. by destruct (wi_permits _ Hw) as (? & ? & _).
  - by eapply redeem_step.
  - by eapply attempt_fate_step.
  - by eapply drop_step.
Qed.

Lemma step_inv w w' : world_inv w -> step w w' -> world_inv w'.
Proof.
  intros Hw Hs. destruct Hs as [w w' Hl|w rec a Hd Hr|w Hd|a r p rec a' d hs ps ts Hr Hp Hc Ha].
  - by eapply live_inv.
  - destruct (wi_disk _ Hw rec Hd) as (b & Hb & Hrec).
    rewrite (resume_restore _ _ Hb Hrec) in Hr. injection Hr as <-. by apply restored_world.
  - apply start_inv.
  - destruct (commit_record_inv _ _ _ _ (wi_client _ Hw) Hr Hp Hc) as [Hi Hrec].
    rewrite (resume_restore _ _ Hi Hrec) in Ha. injection Ha as <-. by apply restored_world.
Qed.

Lemma reachable_inv w : reachable w -> world_inv w.
Proof.
  revert w. apply rtc_ind_r; [apply start_inv|]. intros x y _ Hs Hi. by eapply step_inv.
Qed.
