(* ===== verification/ClientSafety.v ===== *)
(** * What the client guarantees

    The theorems on every run of the client: a reachable state can always be persisted
    and every persisted state restores; at most one value carries the authority of the
    outstanding operation, and none survives a restart; a server value moves the client
    only as the answer of its outstanding request; the binding only advances.  Two
    theorems record how an operation can be left without an authority, and a detach
    without a retry. *)
From coqutil Require Import Byte.
From S2P Require Import Prelude ClientRuns Algebra Tags Wire Response Bytes FrameCodec Member.
From S2P Require Import Lookup Client Correlation Inbound Resume ResumeCodec ClientInv.

(** ** A run *)

Module Sample.
Definition token : Token := repeat Byte.x07 16.
Definition secret : AttachSecret := repeat Byte.x09 32.
Definition epoch : BindingEpoch := mkBindingEpoch (mkConnectionIncarnation 3 4) 1.
Definition enroll : ClientRequest := CR_Enrollment (mkEnrollmentRequest 1 token).
Definition enrolled : ServerValue := SV_EnrollBound (mkEnrollBound 1 token 2 secret epoch 100 200).
Definition detach_request : DetachRequest := mkDetachRequest 1 2 1 token.
Definition detach : ClientRequest := CR_Detach detach_request.
Definition admission : ClientRequest := CR_RecordAdmission (mkRecordAdmission 1 2 1 token [Byte.x2a]).
Definition ack : ServerValue := SV_AckCommitted (mkAckCommitted (mkParticipantAckEnvelope 1 2 1 5)).
Definition put_off : ServerValue := SV_MarkerSettlementBackpressure (MSB_Detach 1 9).

Definition released (a : ClientParticipantAggregate) (r : ClientRequest) : ClientParticipantAggregate :=
  match record_operation a r with
  | CRD_Pending p => (commit_into_parts (operation_commit p)).1
  | _ => a
  end.
Definition settled (a : ClientParticipantAggregate) (v : ServerValue) (h : Z)
    : ClientParticipantAggregate :=
  match decide_correlated_inbound a v (mkCorrelation h) with CCI_Applied a _ => a | _ => a end.

Definition enrolling : ClientParticipantAggregate := released ClientParticipantAggregate_new enroll.
Definition bound : ClientParticipantAggregate := settled enrolling enrolled 1.
Definition admitting : ClientParticipantAggregate := released bound admission.
Definition detaching : ClientParticipantAggregate := released bound detach.

Lemma bound_reachable : reachable (mkWorld bound None [] [] []).
Proof.
  eapply rtc_l; [eapply step_live, (live_record _ enroll); [ground|reflexivity|reflexivity]|].
  eapply rtc_l; [|apply rtc_refl]. apply step_live.
  apply (live_correlated enrolling 1 enrolled bound enrolled None [] []); [ground|by vm_compute].
Qed.
Lemma released_reachable r : wf_request r -> is_some match record_operation bound r with
    CRD_Pending p => Some p | _ => None end = true ->
  reachable (mkWorld (released bound r) None [2] [] []).
Proof.
  intros Hr Hp. eapply rtc_r; [apply bound_reachable|]. apply step_live. unfold released.
  destruct (record_operation bound r) as [p| |] eqn:E; [|done..].
  rewrite (into_parts_eq _ _ _ E).
  exact (live_record bound r p _ _ None [] [] [] Hr E (into_parts_eq _ _ _ E)).
Qed.
End Sample.

(** C23: every state a client can reach passes the validation of a cold restore, its
    fields are in range, and the record on storage, whenever it was written, is
    accepted by [restore]. *)
Theorem client_invariant w : reachable w ->
  validate_facts (facts_of (w_client w)) = Ok tt /\ wf_facts (facts_of (w_client w))
  /\ forall rec, w_disk w = Some rec -> exists a, restore rec = Ok a /\ client_inv a.
Proof.
  intros [Hinv Hd _ _]%reachable_inv. pose proof (client_wf _ Hinv) as Hwf.
  split; [apply validate_facts_iff; [done|by rewrite of_facts_of]|]. split; [done|].
  intros rec (a & Ha & Hr)%Hd. exists (restarted a).
  split; [by apply resume_restore|by apply restarted_inv].
Qed.
Lemma client_invariant_witness :
  validate_facts (facts_of Sample.detaching) = Ok tt.
Proof.
  assert (reachable (mkWorld Sample.detaching None [2] [] [])) as H
    by (apply Sample.released_reachable; ground).
  exact (proj1 (client_invariant _ H)).
Defined.

(** The write side never refuses a reachable state as decoupled or too long: the
    record is produced, or one nested frame does not fit the wire codec. *)
Theorem persist_succeeds w : reachable w ->
  (exists rec, resume_record (w_client w) = Ok rec)
  \/ exists section e, resume_record (w_client w) = Err (REE_NestedCodec section e).
Proof.
  intros [Hinv _ _ _]%reachable_inv. pose proof (resume_record_spec _ Hinv).
  destruct (frames_fit _); eauto.
Qed.
Lemma persist_succeeds_witness : exists rec, resume_record Sample.detaching = Ok rec.
Proof.
  assert (reachable (mkWorld Sample.detaching None [2] [] [])) as Hr
    by (apply Sample.released_reachable; ground).
  destruct (persist_succeeds _ Hr) as [H|(s & e & H)]; [exact H|].
  exfalso. revert H. by vm_compute.
Defined.

(** C24: authority is single: of all the values the caller holds, at most one carries the
    authorization of the outstanding operation, and only while that operation is issued
    and its loss not testified; the same for the reconnect permit and attempt. *)
Theorem single_authority w : reachable w ->
  (forall x, cpa_expected (w_client w) = Some x ->
     (occurrences (eos_authorization x) (w_handles w) <= live_slot x)%nat)
  /\ match rca_state (cpa_reconnect (w_client w)) with
     | RM_Permit k _ _ =>
         (occurrences k (map rap_authorization (w_permits w))
          + occurrences k (map ria_authorization (w_attempts w)) <= 1)%nat
     | RM_Attempt k _ =>
         occurrences k (map rap_authorization (w_permits w)) = 0%nat
         /\ (occurrences k (map ria_authorization (w_attempts w)) <= 1)%nat
     | RM_Parked | RM_Online => True
     end.
Proof.
  intros [_ _ [_ Ha] (_ & _ & Hm)]%reachable_inv. split; [done|].
  destruct (rca_state _) as [|k e i|k e|]; try done; destruct Hm as [H1 H2].
  - rewrite H2. by destruct (i && _); lia.
  - split; [done|]. destruct (negb _); lia.
Qed.
Lemma single_authority_witness :
  (occurrences 2%Z [2%Z] <= live_slot (mkExpected Sample.detach true 2%Z None))%nat.
Proof.
  assert (reachable (mkWorld Sample.detaching None [2] [] [])) as Hr
    by (apply Sample.released_reachable; ground).
  destruct (single_authority _ Hr) as [H _].
  exact (H (mkExpected Sample.detach true 2 None) eq_refl).
Defined.

(** ** Persistence *)

(** C26: a persisted client comes back: the record a valid client writes is accepted
    unchanged, and restoring it gives the same binding, counters, replay and reconnect
    state, with every authority the process held replaced by the testimony of its loss
    and a tokenless request by its abandonment; a second restart changes nothing. *)
Theorem client_restart a rec : client_inv a -> resume_record a = Ok rec ->
  decode_canonical (encode_canonical rec) = Ok rec /\ restore rec = Ok (restarted a)
  /\ restarted (restarted a) = restarted a
  /\ cpa_binding (restarted a) = cpa_binding a
  /\ cpa_next_operation_authorization (restarted a) = cpa_next_operation_authorization a
  /\ replay_state (restarted a) = replay_state a
  /\ rca_state (cpa_reconnect (restarted a)) = rca_state (cpa_reconnect a)
  /\ rca_next_authorization (cpa_reconnect (restarted a))
     = rca_next_authorization (cpa_reconnect a)
  /\ (forall x, cpa_expected (restarted a) = Some x -> live_slot x = 0%nat).
Proof.
  intros Hinv H. split; [|split; [by apply resume_restore|]].
  - pose proof (resume_record_spec a Hinv) as Hs.
    destruct (frames_fit _) eqn:Hf; [|by destruct Hs as (? & ? & ?); congruence].
    rewrite H in Hs. injection Hs as ->. unfold decode_canonical, encode_canonical; simpl.
    by rewrite decode_enc_record by (done || by apply client_wf).
  - rewrite !restarted_reconnect. unfold restarted, restore_validated_facts, replay_state; simpl.
    assert (forall r, match match rca_lost r with Some t => Some t
      | None => option_map mkTestimony (reconnect_kind (rca_state r)) end with
      | Some t => Some t | None => option_map mkTestimony (reconnect_kind (rca_state r)) end
      = match rca_lost r with Some t => Some t
      | None => option_map mkTestimony (reconnect_kind (rca_state r)) end) as Hrc.
    { intros [s n [t|]]; simpl; [done|]. by destruct (reconnect_kind s). }
    destruct (cpa_expected a) as [x|]; [|simpl; by rewrite Hrc].
    destruct (is_observer_recovery (eos_request x)) eqn:Eo; simpl; [by rewrite Hrc|].
    assert (eos_request (testify_operation x) = eos_request x) as Er
      by (unfold testify_operation; by destruct (_ && _)).
    rewrite Er, Eo, Hrc. split; [|repeat split].
    + do 3 f_equal. unfold testify_operation. destruct x as [r [] n [t|]]; done.
    + intros y [= <-]. unfold testify_operation, live_slot.
      by destruct x as [r [] n [t|]].
Qed.
Lemma client_restart_witness : exists rec, resume_record Sample.detaching = Ok rec
  /\ restore rec = Ok (restarted Sample.detaching)
  /\ lost_operation_testimony (restarted Sample.detaching)
     = Some (mkTestimony LAK_DetachTransportAttempt).
Proof.
  assert (reachable (mkWorld Sample.detaching None [2] [] [])) as Hr
    by (apply Sample.released_reachable; ground).
  destruct (resume_record Sample.detaching) as [rec|] eqn:E; [|exfalso; revert E; by vm_compute].
  exists rec. split; [done|].
  destruct (client_restart _ rec (wi_client _ (reachable_inv _ Hr)) E) as (_ & H & _).
  split; [exact H|by vm_compute].
Defined.

(** The record is canonical: bytes the decoder accepts are exactly the bytes the
    encoder writes for the facts it returns, so one state has one encoding. *)
Theorem record_canonical input f : blen input <= usize_max -> decode_facts input = Ok f ->
  encode_aggregate (of_facts f) = Ok input.
Proof.
  intros Hi H. apply decode_facts_inv in H as (-> & Hwf & Hf); [|done].
  pose proof (encode_aggregate_spec (of_facts f)) as H. rewrite facts_of_facts in H.
  specialize (H Hwf). by rewrite Hf in H.
Qed.
Lemma record_canonical_witness :
  let f := facts_of Sample.detaching in
  encode_aggregate (of_facts f) = Ok (enc_record f).
Proof.
  intros f. apply (record_canonical (enc_record f) f); [ground|by vm_compute].
Defined.

(** The validation of a restore is exactly the invariant of the live client: facts
    in range pass [validate_facts] if and only if the aggregate that holds them
    satisfies it. *)
Theorem validation_is_invariant f : wf_facts f ->
  (validate_facts f = Ok tt <-> client_inv (of_facts f)).
Proof. apply validate_facts_iff. Qed.
Lemma validation_is_invariant_witness :
  client_inv (of_facts (facts_of Sample.bound)).
Proof. apply (validation_is_invariant (facts_of Sample.bound)); [ground|by vm_compute]. Defined.

(** ** Inbound values *)

(** C25: a server value moves the client only as the answer of its outstanding request.
    Presented without a correlation it never does.  Presented with one, when the
    aggregate changes, the operation was issued under that correlation and not lost, the
    value matches the request, and the slot is cleared with no active detach replay
    left behind. *)
Theorem inbound_gate a v h a' v' : client_inv a -> wf_server_value v ->
  (forall b u, decide_inbound a v = CID_Applied b u -> b = a /\ u = v)
  /\ (decide_correlated_inbound a v (mkCorrelation h) = CCI_Applied a' v' -> a' <> a ->
      exists x, cpa_expected a = Some x /\ eos_issued x = true /\ eos_lost x = None
        /\ eos_authorization x = h /\ matches_request v (eos_request x) = true
        /\ cpa_expected a' = None /\ is_active (replay_state a') = false).
Proof.
  intros Hinv Hv. split.
  - intros b u H. destruct (decide_inbound_same a v) as [E|[r E]]; rewrite E in H; by simplify_eq.
  - intros (_ & _ & x & Ee & Ei & Hc & [[_ ->]|(_ & Hl & Hacc & Hm & ->)])%correlated_cases Hne;
      [done|].
    destruct (retire_inv a v x Hinv Hv Ee Hacc Hm) as ([[? ? ? ? ? ? Hcp ? ? ?] _] & Hn & _).
    exists x. rewrite Hn in Hcp. apply coupled_none in Hcp. by repeat split.
Qed.
Lemma inbound_gate_witness :
  decide_inbound Sample.enrolling Sample.enrolled
  = CID_Refused Sample.enrolling Sample.enrolled CIR_MissingResponseAuthority
  /\ exists x, cpa_expected Sample.enrolling = Some x /\ eos_authorization x = 1
     /\ matches_request Sample.enrolled (eos_request x) = true.
Proof.
  split; [by vm_compute|].
  assert (client_inv Sample.enrolling) as Hinv.
  { apply (validate_facts_iff (facts_of Sample.enrolling)); [ground|by vm_compute]. }
  destruct (inbound_gate Sample.enrolling Sample.enrolled 1 Sample.bound Sample.enrolled Hinv)
    as [_ H]; [ground|].
  destruct H as (x & ? & _ & _ & ? & ? & _); [by vm_compute|by vm_compute|]. by exists x.
Defined.

(** The identity and generation of a binding that has one. *)
Definition binding_identity (b : ClientBindingState) : option (ConversationId * ParticipantId * Generation) :=
  match b with
  | CB_Unbound => None
  | CB_Bound c p g _ _ | CB_Detached c p g _ | CB_Left c p g => Some (c, p, g)
  end.
(** A binding advances: the identity is kept, the generation does not go back except
    into the final state, and the final state is final. *)
Definition advances (b b' : ClientBindingState) : Prop :=
  match binding_identity b, binding_identity b' with
  | None, _ => True
  | Some _, None => False
  | Some (c, p, g), Some (c', p', g') =>
      c' = c /\ p' = p /\ (g <= g' \/ is_left b' = true) /\ (is_left b = true -> b' = b)
  end.

Lemma advances_refl b : advances b b.
Proof. unfold advances. destruct b; simpl; repeat split; lia || done. Qed.
Lemma advances_trans b1 b2 b3 : advances b1 b2 -> advances b2 b3 -> advances b1 b3.
Proof.
  unfold advances. destruct b1, b2; simpl; try done; destruct b3; simpl; try done;
    intros (-> & -> & ? & ?) (-> & -> & ? & ?); repeat split; try tauto; try lia; intros;
    by (try specialize (H0 eq_refl)); try specialize (H2 eq_refl); simplify_eq; done.
Qed.

(** The identity and generation a request key names. *)
Definition key_identity (k : RequestKey) : option (ConversationId * ParticipantId * Generation) :=
  match k with
  | KEY_Attach c p g _ _ | KEY_Detach c p g _ | KEY_Ack c p g _ | KEY_Leave c p g _
  | KEY_MarkerAck c p g _ | KEY_Record c p g _ => Some (c, p, g)
  | KEY_Unsolicited | KEY_ObserverRecovery _ | KEY_Enrollment _ _ => None
  end.

Lemma accepted_identity b r i : accepts_request b r = true -> is_observer_recovery r = false ->
  binding_identity b = Some i -> key_identity (from_request r 0) = Some i.
Proof.
  unfold accepts_request. intros Ha Ho Hi. destruct (is_left b) eqn:El; [done|].
  destruct r; simpl in *; try done; destruct b; simpl in *; try done; dreflect; by simplify_eq.
Qed.

Lemma matches_key v r : matches_request v r = true -> is_observer_recovery r = false ->
  response_key v 0 = from_request r 0 \/ forall a, apply_correlated_value a v = a.
Proof.
  unfold matches_request. intros Hm Ho.
  assert (settlement_matches_request v r = None \/ forall a, apply_correlated_value a v = a) as Hs
    by (destruct v; auto; by right).
  destruct Hs as [Hs|]; [|by right]. rewrite Hs in Hm. left. destruct r; try done; by dreflect.
Qed.
Lemma observer_inert v r : matches_request v r = true -> is_observer_recovery r = true ->
  forall a, apply_correlated_value a v = a.
Proof. intros Hm Ho. destruct r; try done. simpl in Hm. by destruct v. Qed.

Lemma binding_retire a v : cpa_binding (retire_expected_operation a v)
  = cpa_binding (apply_correlated_value (set_expected a None) v).
Proof. unfold retire_expected_operation. by destruct (option_map _ _) as [[]|]. Qed.

(** Whatever binding an answer writes carries the identity of the request it answers. *)
Lemma value_advances a v i : wf_server_value v -> binding_identity (cpa_binding a) = Some i ->
  is_left (cpa_binding a) = false -> key_identity (response_key v 0) = Some i ->
  advances (cpa_binding a) (cpa_binding (apply_correlated_value a v)).
Proof.
  intros Hv Hb Hl Hk. destruct i as [[c p] g].
  assert (forall b', is_left b' = true \/ (exists g', binding_identity b' = Some (c, p, g') /\ g <= g') ->
    (exists g', binding_identity b' = Some (c, p, g')) -> advances (cpa_binding a) b') as Hadv.
  { intros b' H1 (g' & H2). unfold advances. rewrite Hb, H2, Hl. repeat split; [|done].
    destruct H1 as [|(g'' & H1 & ?)]; [by right|left; congruence]. }
  destruct v; try apply advances_refl; simpl in *.
  - destruct v as [|[]|]; apply advances_refl.
  - destruct v as [r q gr|r gr]; [done|]. unfold apply_retired.
    destruct r; simpl in *; simplify_eq; apply Hadv; eauto.
  - done.
  - destruct Hv as (_ & _ & _ & _ & _ & _ & Hg & _). simplify_eq/=.
    apply Hadv; simpl; [right; eexists; split; [done|]; unfold ab_capability_generation; lia|eauto].
  - destruct v as [v|v]; [done|]. destruct Hv as (_ & _ & _ & _ & _ & _ & Hg & _). simplify_eq/=.
    apply Hadv; simpl; [right; eexists; split; [done|]; unfold ab_capability_generation; lia|eauto].
  - destruct v as [v|v]; [apply advances_refl|]. destruct Hv as (_ & _ & _ & _ & _ & _ & Hg & _).
    simplify_eq/=. apply Hadv; simpl; [right; eexists; split; [done|]; unfold ab_capability_generation; lia|eauto].
  - simplify_eq. destruct (cpa_binding a); simpl in *; try done; apply Hadv; simpl; eauto;
      right; eexists; split; done || lia.
  - simplify_eq. apply Hadv; simpl; eauto.
Qed.

Lemma retire_advances a v x : wf_server_value v -> is_left (cpa_binding a) = false ->
  accepts_request (cpa_binding a) (eos_request x) = true ->
  matches_request v (eos_request x) = true ->
  advances (cpa_binding a) (cpa_binding (retire_expected_operation a v)).
Proof.
  intros Hv Hl Ha Hm. rewrite binding_retire.
  change (cpa_binding a) with (cpa_binding (set_expected a None)) in *.
  set (a0 := set_expected a None) in *.
  destruct (binding_identity (cpa_binding a0)) as [i|] eqn:Hi.
  2:{ unfold advances. by rewrite Hi. }
  destruct (is_observer_recovery (eos_request x)) eqn:Eo.
  { rewrite (observer_inert _ _ Hm Eo). apply advances_refl. }
  destruct (matches_key _ _ Hm Eo) as [Hk|Hk]; [|rewrite Hk; apply advances_refl].
  eapply value_advances; [done..|]. rewrite Hk. by eapply accepted_identity.
Qed.

Lemma record_same_binding a r p : record_operation a r = CRD_Pending p ->
  cpa_binding (commit_into_parts (operation_commit p)).1 = cpa_binding a.
Proof. intros H. by rewrite (into_parts_eq _ _ _ H). Qed.

Lemma live_advances w w' : world_inv w -> live w w' ->
  advances (cpa_binding (w_client w)) (cpa_binding (w_client w')).
Proof.
  intros Hw Hl. pose proof (wi_client _ Hw) as Hinv.
  assert (cpa_binding (w_client w') = cpa_binding (w_client w) \/ exists h v v',
    wf_server_value v /\
    decide_correlated_inbound (w_client w) v (mkCorrelation h) = CCI_Applied (w_client w') v')
    as [->|(h & v & v' & Hv & H)]; [|apply advances_refl|].
  - destruct Hl; simpl in *; try (by left; simplify_eq).
    + left. pose proof (record_same_binding _ _ _ H0) as E. by rewrite H1 in E.
    + left. pose proof (record_same_binding _ _ _ H0) as E. by rewrite H2 in E.
    + left. rewrite (abort_exact a r p) in H1; [by simplify_eq| |done].
      destruct Hinv as [[? ? Hn ? ? ? ? ? ? ?] _]. mlia.
    + left. unfold record_operation in H0. destruct (negb _); [by destruct (is_left _)|].
      destruct r; simplify_eq; try done; by csplit_in H0.
    + left. unfold recover_expected_operation in H. destruct (cpa_expected a) as [x|]; [|done].
      destruct (eos_issued x); simplify_eq. by destruct (is_detach _).
    + left. unfold transport_attempt_started in H. destruct (replay_state a) as [|? []]; try done.
      destruct (negb _); by simplify_eq.
    + left. unfold resolve_lost_operation_authority in H.
      destruct (cpa_expected a) as [x|]; [|by destruct H]. destruct (eos_lost x); [|by destruct H].
      destruct (is_detach _), H; by simplify_eq.
    + left. unfold record_expected_operation_fate in H. csplit_in H; done.
    + left. unfold transport_fate in H. csplit_in H; done.
    + left. unfold apply_attach in H. csplit_in H; done.
    + left. unfold apply_leave_durable in H. csplit_in H; done.
    + left. unfold apply_detach_outcome in H0. csplit_in H0; done.
    + left. destruct (decide_inbound_same a v) as [E|(r & E)]; rewrite E in H0; by simplify_eq.
    + right. eauto.
    + left. by injection H as <- <-.
    + left. by destruct (fresh_event_inv _ _ _ _ _ Hinv H) as (_ & _ & _ & ->).
    + left. by destruct (recover_permit_inv _ _ _ Hinv H) as (_ & _ & ->).
    + left. by destruct (resolve_reconnect_inv _ _ _ Hinv H) as (_ & ->).
    + left. by destruct (redeem_inv _ _ _ _ Hinv H) as (_ & _ & _ & _ & ->).
    + left. by destruct (attempt_fate_inv _ _ _ _ Hinv H) as (_ & _ & _ & ->).
  - apply correlated_cases in H as (_ & Hlf & x & Ee & _ & _ & [[_ ->]|(_ & _ & Ha & Hm & ->)]).
    + apply advances_refl.
    + by eapply retire_advances.
Qed.

(** Within one process the binding only advances: whatever the caller does and
    whatever values arrive, the conversation and participant never change, the
    generation never goes back except into retirement, and a left participant stays
    left. *)
Theorem binding_advances w w' : reachable w -> rtc live w w' ->
  advances (cpa_binding (w_client w)) (cpa_binding (w_client w')).
Proof.
  intros Hr%reachable_inv Hl. revert Hr. induction Hl as [|w1 w2 w3 H _ IH]; intros Hr.
  - apply advances_refl.
  - eapply advances_trans; [by apply live_advances|]. apply IH. by eapply live_inv.
Qed.
Lemma binding_advances_witness :
  advances (cpa_binding Sample.detaching)
    (cpa_binding (Sample.settled Sample.detaching Sample.put_off 2)).
Proof.
  assert (reachable (mkWorld Sample.detaching None [2] [] [])) as Hr
    by (apply Sample.released_reachable; ground).
  apply (binding_advances _ (mkWorld (Sample.settled Sample.detaching Sample.put_off 2) None
           [] [] []) Hr).
  apply rtc_once, (live_correlated Sample.detaching 2 Sample.put_off _ Sample.put_off None [] []);
    [ground|by vm_compute].
Defined.

(** ** An operation without its authority *)

(** The slot holds an issued operation whose authority nobody holds and nobody
    testified lost. *)
Definition stranded (x : ExpectedOperationState) (w : World) : Prop :=
  world_inv w /\ cpa_expected (w_client w) = Some x /\ eos_issued x = true /\ eos_lost x = None
  /\ ~ In (eos_authorization x) (w_handles w).

Lemma consumes_held a a' x h hs1 hs2 : cpa_expected a = Some x ->
  ~ In (eos_authorization x) (hs1 ++ h :: hs2) -> ~ consumes a a' h.
Proof.
  intros Ee Hn (y & Ey & _ & _ & -> & _). rewrite Ee in Ey. injection Ey as ->.
  apply Hn, in_or_app. right. by left.
Qed.

Lemma stranded_live x w w' : stranded x w -> live w w' -> stranded x w'.
Proof.
  intros (Hw & Ee & Ei & El & Hn) Hl.
  assert (cpa_expected (w_client w') = Some x /\ ~ In (eos_authorization x) (w_handles w')) as [? ?].
  2:{ repeat split; try done; by apply (live_inv w). }
  pose proof (wi_client _ Hw) as Hinv.
  assert (forall h hs1 hs2, ~ In (eos_authorization x) (hs1 ++ h :: hs2) ->
    ~ In (eos_authorization x) (hs1 ++ hs2)) as Hdrop.
  { intros h hs1 hs2 H Hin. apply H. rewrite in_app_iff in *. simpl. tauto. }
  destruct Hl; simpl in *; try (by split).
  - apply record_pending_eq in H0 as (_ & _ & H0 & _). congruence.
  - apply record_pending_eq in H0 as (_ & _ & H0 & _). congruence.
  - apply record_pending_eq in H0 as (_ & _ & H0 & _). congruence.
  - assert (a' = a /\ epo_authorization op = 0) as [-> ->].
    { unfold record_operation in H0. destruct (negb _); [by destruct (is_left _)|].
      destruct r; simplify_eq; try done; by csplit_in H0. }
    split; [done|]. intros [H1|H1]; [|done]. destruct Hinv as [[? ? ? ? Hs ? ? ? ? ?] _].
    rewrite Ee in Hs. destruct Hs as (_ & ? & _). lia.
  - destruct (recover_inv _ _ _ Hinv H) as (_ & y & Ey & Hy & _). congruence.
  - destruct (attempt_started_inv _ _ _ Hinv H) as (_ & y & Ey & Hy & _). congruence.
  - destruct (resolve_inv _ _ _ _ Hinv H) as (_ & _ & y & Ey & Hy & _). congruence.
  - destruct (fate_inv _ _ _ _ _ Hinv H) as [_ Hc]. by apply (consumes_held _ _ _ _ _ _ Ee Hn) in Hc.
  - destruct (transport_fate_inv _ _ _ _ Hinv H) as [_ Hc].
    by apply (consumes_held _ _ _ _ _ _ Ee Hn) in Hc.
  - destruct (apply_attach_inv _ _ Hinv _ _ H) as [_ Hc].
    by apply (consumes_held _ _ _ _ _ _ Ee Hn) in Hc.
  - destruct (apply_leave_inv _ _ Hinv _ _ H) as [_ Hc].
    by apply (consumes_held _ _ _ _ _ _ Ee Hn) in Hc.
  - destruct (apply_outcome_inv _ _ Hinv _ _ H H0) as [_ Hc].
    by apply (consumes_held _ _ _ _ _ _ Ee Hn) in Hc.
  - destruct (decide_inbound_same a v) as [E|(r & E)]; rewrite E in H0; by simplify_eq.
  - destruct (correlated_inv _ _ _ _ _ Hinv H H0) as [_ [->|Hc]]; [by split; eauto|].
    by apply (consumes_held _ _ _ _ _ _ Ee Hn) in Hc.
  - destruct (take_abandonment_inv _ _ _ Hinv H) as (_ & -> & _). by split.
  - by destruct (fresh_event_inv _ _ _ _ _ Hinv H) as (_ & _ & _ & ->).
  - by destruct (recover_permit_inv _ _ _ Hinv H) as (_ & _ & ->).
  - by destruct (resolve_reconnect_inv _ _ _ Hinv H) as (_ & ->).
  - by destruct (redeem_inv _ _ _ _ Hinv H) as (_ & _ & _ & _ & ->).
  - by destruct (attempt_fate_inv _ _ _ _ Hinv H) as (_ & _ & _ & ->).
  - by split; eauto.
Qed.

(** C38: an acknowledgement presented with the correlation of another operation spends
    it.  With an operation outstanding, its only authority held and an acknowledgement
    of the current binding presented with it, the value is applied, the aggregate is
    unchanged and the authority is gone: nothing the process does afterwards answers,
    takes back or re-issues the operation, and every further operation but an
    acknowledgement is refused as outstanding, until a restart. *)
Theorem ack_strands_operation a d hs1 h hs2 ps ts x v q :
  reachable (mkWorld a d (hs1 ++ h :: hs2) ps ts) ->
  cpa_expected a = Some x -> eos_issued x = true -> eos_lost x = None ->
  eos_authorization x = h -> wf_server_value v ->
  participant_ack_request v = Some q -> matches_ack (cpa_binding a) q = true ->
  live (mkWorld a d (hs1 ++ h :: hs2) ps ts) (mkWorld a d (hs1 ++ hs2) ps ts)
  /\ decide_correlated_inbound a v (mkCorrelation h) = CCI_Applied a v
  /\ forall w, rtc live (mkWorld a d (hs1 ++ hs2) ps ts) w ->
       cpa_expected (w_client w) = Some x /\ ~ In h (w_handles w)
       /\ forall r, is_ack r = false -> accepts_request (cpa_binding (w_client w)) r = true ->
            record_operation (w_client w) r = CRD_Refused (w_client w) r COR_OutstandingOperation.
Proof.
  intros Hr Ee Ei El <- Hv Hq Hm.
  assert (decide_correlated_inbound a v (mkCorrelation (eos_authorization x)) = CCI_Applied a v) as Hd.
  { unfold decide_correlated_inbound, decide_inbound_inner. rewrite Ee, Ei; simpl.
    rewrite Z.eqb_refl, Hq, Hm. by destruct (cpa_binding a). }
  split; [by eapply live_correlated|]. split; [done|].
  assert (stranded x (mkWorld a d (hs1 ++ hs2) ps ts)) as Hs.
  { apply reachable_inv in Hr. split; [by eapply drop_step|]. do 3 (split; [done|]).
    simpl. destruct (wi_authority _ Hr) as [_ Hc]. specialize (Hc x Ee). simpl in Hc.
    unfold live_slot in Hc. rewrite Ei, El in Hc. simpl in Hc. rewrite occurrences_remove in Hc.
    apply (count_occ_not_In Z.eq_dec). destruct (Z.eq_dec _ _); [lia|done]. }
  intros w Hl. clear Hr Hd Hm. assert (stranded x w) as (_ & Ew & _ & _ & Hn).
  { revert Hs. induction Hl as [|w1 w2 w3 H _ IH]; [done|]. intros Hs. by eapply IH, stranded_live. }
  split; [done|]. split; [done|]. intros r Hk Ha. unfold record_operation. rewrite Ha, Ew. simpl.
  by destruct r.
Qed.
Lemma ack_strands_operation_witness :
  decide_correlated_inbound Sample.admitting Sample.ack (mkCorrelation 2)
    = CCI_Applied Sample.admitting Sample.ack
  /\ record_operation Sample.admitting Sample.detach
     = CRD_Refused Sample.admitting Sample.detach COR_OutstandingOperation.
Proof.
  assert (reachable (mkWorld Sample.admitting None [2] [] [])) as Hr
    by (apply Sample.released_reachable; ground).
  destruct (ack_strands_operation Sample.admitting None [] 2 [] [] []
              (mkExpected Sample.admission true 2 None) Sample.ack
              (mkParticipantAckEnvelope 1 2 1 5) Hr) as (_ & H & Hw); [by vm_compute|done|done|done|ground
    |done|by vm_compute|].
  split; [exact H|]. destruct (Hw _ (rtc_refl _ _)) as (_ & _ & Ho). by apply Ho; vm_compute.
Defined.

(** ** A detach that is only put off *)

(** The refusals that commit nothing and ask for a later retry. *)
Definition put_off (v : ServerValue) : bool :=
  match v with
  | SV_MarkerSettlementBackpressure _ | SV_ObserverBackpressure _
  | SV_ConnectionConversationCapacityExceeded _ => true
  | _ => false
  end.

Lemma put_off_inert v : put_off v = true -> is_answer v = false /\ unaddressed v = false
  /\ forall a, apply_correlated_value a v = a.
Proof. by destruct v. Qed.

(** A settled replay of the binding's own generation admits no detach of that binding. *)
Lemma settled_replay_blocks a d st r : replay_state a = DR_Recorded d st ->
  is_active_status st = false ->
  accepts_request (cpa_binding a) (CR_Detach (envelope_request d)) = true ->
  accepts_request (cpa_binding a) (CR_Detach r) = true ->
  exists reason, record_operation a (CR_Detach r) = CRD_Refused a (CR_Detach r) reason.
Proof.
  intros Hs Hst Hd Hr. unfold record_operation. rewrite Hr. simpl.
  destruct (is_some (cpa_expected a)); [eauto|]. rewrite andb_false_r.
  destruct (checked_add _ _ _); [|eauto]. unfold admit_detach_replay. rewrite Hs.
  destruct (bool_decide_reflect (d = mkDetachEnvelope (dr_conversation_id r) (dr_participant_id r)
              (dr_capability_generation r) (dr_detach_attempt_token r))) as [_|Hne].
  - destruct st; try done; eauto.
  - assert (de_capability_generation d = dr_capability_generation r) as Hg.
    { unfold accepts_request in *. destruct (cpa_binding a); simpl in *; try done. dreflect. lia. }
    unfold can_replace_with; simpl. rewrite Hg, Z.ltb_irrefl, andb_false_r. simpl. eauto.
Qed.

(** A detach the server only put off cannot be retried at its generation: once the
    put_off is applied the slot is empty and the binding is unchanged, yet every
    detach this binding accepts, with the same or another token, is refused. *)
Theorem put_off_detach_not_retryable a x r v h a' v' : client_inv a -> wf_server_value v ->
  cpa_expected a = Some x -> eos_request x = CR_Detach r -> put_off v = true ->
  decide_correlated_inbound a v (mkCorrelation h) = CCI_Applied a' v' ->
  cpa_binding a' = cpa_binding a /\ cpa_expected a' = None
  /\ forall r', accepts_request (cpa_binding a') (CR_Detach r') = true ->
       exists reason, record_operation a' (CR_Detach r') = CRD_Refused a' (CR_Detach r') reason.
Proof.
  intros Hinv Hv Ee Er Hp (_ & _ & y & Ey & _ & _ & Hd)%correlated_cases.
  rewrite Ee in Ey. injection Ey as <-. destruct (put_off_inert v Hp) as (Han & Hu & Hin).
  destruct Hd as [[Hd _]|(_ & _ & Ha & Hm & ->)]; [congruence|].
  destruct (retire_inv a v x Hinv Hv Ee Ha Hm) as (_ & Hn & _).
  assert (cpa_binding (retire_expected_operation a v) = cpa_binding a) as Hb
    by (by rewrite binding_retire, Hin).
  split; [done|]. split; [done|]. intros r' Hr'.
  destruct Hinv as [[? ? ? ? ? ? Hc ? ? ?] _]. rewrite Ee in Hc.
  destruct (coupled_detach _ _ Hc) as (r0 & Er0 & Hs); [by rewrite Er|].
  assert (replay_state (retire_expected_operation a v)
    = DR_Recorded (detach_envelope r0) (DRS_Terminal (DRT_AuthorityRefused (mkAuthorityRefused v)))) as Hs'.
  { unfold retire_expected_operation. rewrite Ee. simpl. rewrite Er0, Hin. unfold set_replay; simpl.
    unfold replay_state at 1; simpl. change (replay_state (set_expected a None)) with (replay_state a).
    rewrite Hs, settle_refused_active; [done|]. by destruct (eos_issued x). }
  eapply settled_replay_blocks; [exact Hs'|done| |done].
  rewrite Hb, envelope_request_eq, <- Er0. exact Ha.
Qed.
Lemma put_off_detach_not_retryable_witness :
  let a := Sample.settled Sample.detaching Sample.put_off 2 in
  binding_status_of (cpa_binding a) = CBS_Bound /\ cpa_expected a = None
  /\ exists reason, record_operation a Sample.detach = CRD_Refused a Sample.detach reason.
Proof.
  intros a. assert (client_inv Sample.detaching) as Hinv.
  { apply (validate_facts_iff (facts_of Sample.detaching)); [ground|by vm_compute]. }
  destruct (put_off_detach_not_retryable Sample.detaching (mkExpected Sample.detach true 2 None)
    Sample.detach_request Sample.put_off 2 a Sample.put_off Hinv) as (Hb & He & Hr);
    [ground|by vm_compute|done|done|by vm_compute|].
  split; [by vm_compute|]. split; [exact He|]. apply Hr. by vm_compute.
Defined.

(** ** Refusals *)

Section Refusals.
Context (a : ClientParticipantAggregate).

Lemma record_refused r a' r' reason : record_operation a r = CRD_Refused a' r' reason ->
  a' = a /\ r' = r.
Proof.
  intros H. unfold record_operation in H.
  destruct (negb _); [by simplify_eq|]. destruct (checked_add _ _ _).
  - destruct (admit_detach_replay a r) as [b [|]] eqn:Ed.
    + destruct r; simplify_eq; csplit_in H; by simplify_eq.
    + apply admit_detach_refused in Ed as ->. destruct r; simplify_eq; csplit_in H; by simplify_eq.
  - destruct r; simplify_eq; csplit_in H; by simplify_eq.
Qed.
Lemma fate_refused c f a' i reason : record_expected_operation_fate a c f = Refused a' i reason ->
  a' = a /\ i = (c, f).
Proof.
  intros H. unfold record_expected_operation_fate in H.
  destruct (cpa_expected a) as [x|]; [|by simplify_eq]. destruct (negb (eos_issued x)); [by simplify_eq|].
  destruct (is_some _); [by simplify_eq|]. destruct (negb _); [by simplify_eq|].
  destruct (is_detach _); by simplify_eq.
Qed.
Lemma started_refused a' i reason : transport_attempt_started a = Refused a' i reason -> a' = a.
Proof.
  intros H. unfold transport_attempt_started in H.
  destruct (replay_state a) as [|? []]; try (by simplify_eq). destruct (negb _); by simplify_eq.
Qed.
Lemma transport_refused c f a' i reason : transport_fate a c f = Refused a' i reason ->
  a' = a /\ i = (c, f).
Proof.
  intros H. unfold transport_fate in H. destruct (operation_loss_pending a); [by simplify_eq|].
  destruct (detach_authority_matches a c); by simplify_eq.
Qed.
Lemma attach_refused v c a' i reason : apply_attach a v c = Refused a' i reason ->
  a' = a /\ i = (v, c).
Proof.
  intros H. unfold apply_attach in H. destruct (operation_loss_pending a); [by simplify_eq|].
  destruct (detach_authority_matches a c); [|by simplify_eq].
  destruct (replay_attach_cases (replay_state a) v) as [E|(s & E & _)]; rewrite E in H; simplify_eq.
  by rewrite set_replay_same.
Qed.
Lemma leave_refused v c a' i reason : apply_leave_durable a v c = Refused a' i reason ->
  a' = a /\ i = (v, c).
Proof.
  intros H. unfold apply_leave_durable in H. destruct (operation_loss_pending a); [by simplify_eq|].
  destruct (detach_authority_matches a c); [|by simplify_eq].
  destruct (replay_leave_cases (replay_state a) v) as [E|(s & E & _)]; rewrite E in H; simplify_eq.
  by rewrite set_replay_same.
Qed.
Lemma outcome_refused o c a' i reason : apply_detach_outcome a o c = Refused a' i reason ->
  a' = a /\ i = (o, c).
Proof.
  intros H. unfold apply_detach_outcome in H. destruct (operation_loss_pending a); [by simplify_eq|].
  destruct (detach_authority_matches a c); simpl in H; [|by simplify_eq].
  destruct o as [v|v|v];
    [ unfold apply_detach_committed in H | unfold apply_detach_in_progress in H
    | unfold apply_terminalized_detach_cell in H ];
    (destruct (replay_state a) as [|d st] eqn:Es;
       [|match type of H with context [if ?b then _ else _] => destruct b end]);
    simplify_eq; by rewrite <- Es, set_replay_same.
Qed.
Lemma inner_refused v auth a' v' reason : decide_inbound_inner a v auth = CID_Refused a' v' reason ->
  a' = a /\ v' = v.
Proof.
  intros H. unfold decide_inbound_inner in H. destruct (is_left _); [by simplify_eq|].
  destruct (participant_ack_request v).
  { destruct (matches_ack _ _); by simplify_eq. }
  destruct (is_transport_rejected v); [by simplify_eq|].
  destruct (cpa_expected a) as [x|]; [|by simplify_eq].
  destruct (is_some _); [by simplify_eq|]. destruct (negb auth); [by simplify_eq|].
  destruct (negb (accepts_request _ _)); [by simplify_eq|].
  destruct (negb (matches_request _ _)); by simplify_eq.
Qed.
Lemma correlated_refused v c a' v' c' reason :
  decide_correlated_inbound a v c = CCI_Refused a' v' c' reason -> a' = a /\ v' = v /\ c' = c.
Proof.
  intros H. unfold decide_correlated_inbound in H. destruct (negb _); [by simplify_eq|].
  destruct (decide_inbound_inner a v true) as [|b u r] eqn:E; simplify_eq.
  by apply inner_refused in E as [-> ->].
Qed.
End Refusals.

(** A refusal gives everything back: whichever operation of the client refuses,
    the aggregate and the input it returns are the ones it was given. *)
Theorem refusals_conserve a :
  (forall r a' r' reason, record_operation a r = CRD_Refused a' r' reason -> a' = a /\ r' = r)
  /\ (forall c f a' i reason, record_expected_operation_fate a c f = Refused a' i reason ->
        a' = a /\ i = (c, f))
  /\ (forall a' i reason, transport_attempt_started a = Refused a' i reason -> a' = a)
  /\ (forall c f a' i reason, transport_fate a c f = Refused a' i reason -> a' = a /\ i = (c, f))
  /\ (forall v c a' i reason, apply_attach a v c = Refused a' i reason -> a' = a /\ i = (v, c))
  /\ (forall v c a' i reason, apply_leave_durable a v c = Refused a' i reason ->
        a' = a /\ i = (v, c))
  /\ (forall o c a' i reason, apply_detach_outcome a o c = Refused a' i reason ->
        a' = a /\ i = (o, c))
  /\ (forall v c a' v' c' reason, decide_correlated_inbound a v c = CCI_Refused a' v' c' reason ->
        a' = a /\ v' = v /\ c' = c)
  /\ (forall p a' i reason, redeem_attempt a p = Refused a' i reason -> a' = a /\ i = p)
  /\ (forall t f a' i reason, record_attempt_fate a t f = Refused a' i reason ->
        a' = a /\ i = (t, f)).
Proof.
  repeat match goal with |- _ /\ _ => split end.
  - apply record_refused.
  - apply fate_refused.
  - apply started_refused.
  - apply transport_refused.
  - apply attach_refused.
  - apply leave_refused.
  - apply outcome_refused.
  - apply correlated_refused.
  - intros p a' i reason H. unfold redeem_attempt in H. csplit_in H; by simplify_eq.
  - intros t f a' i reason H. unfold record_attempt_fate in H. csplit_in H; by simplify_eq.
Qed.
